(* ===== verification/_CoqProject ===== *)
-Q . S2P
Prelude.v
AuthTypes.v
Connector.v
StdAlgorithm.v
ReservationHandler.v
ReservationArrival.v
ReservationProofs.v
ReservationProperties.v
AuthHandler.v
AuthProofs.v
AuthTotal.v
AuthProperties.v
ConnectorProperties.v
IECStateMachine.v
IECProofs.v
IECProperties.v
Bytes.v
Goose.v
GooseProofs.v
GooseProperties.v
GooseSender.v
GooseSenderProperties.v
Modbus.v
ModbusProperties.v
ModbusRegisters.v
ModbusRegistersProperties.v
Effects.v
ErrorHandling.v
ChargerTypes.v
Charger.v
ChargerStateMachine.v
ChargerTermination.v
ChargerProofs.v
ChargerInvariant.v
ChargerLoop.v
EvseSystem.v
ChargerExample.v
ErrorProperties.v
ChargerProperties.v
ChargerBehaviour.v
ChargerSituations.v
EnergyTypes.v
EnergyMarket.v
EnergyBroker.v
EnergyManager.v
EnergyNode.v
EnergyProofs.v
EnergyTree.v
EnergyTrading.v
EnergyRun.v
EnergyMaximal.v
EnergyTests.v
EnergyProperties.v
EnergyNodeProperties.v
EvseManagerTypes.v
EvseManager.v
EvseEnergy.v
CableCheck.v
CableCheckProperties.v
EvseManagerSystem.v
EvseManagerProperties.v
EvseEnergyProperties.v
EvseSession.v
EvseSessionProperties.v
Slac.v
SlacEvse.v
SlacEv.v
SlacExample.v
SlacProofs.v
SlacInvariant.v
SlacProperties.v
SlacEvProperties.v
V2gTypes.v
V2gContext.v
IsoServer.v
DinServer.v
V2gServer.v
V2gProofs.v
V2gExchange.v
V2gProperties.v
