(* ===== verification/Prelude.v ===== *)
(** * A verification of the core of EVerest

    EVerest is the software of a charging station: modules that run in their
    own processes and exchange typed messages.  This library models the parts
    that decide who may charge, when the contactors may close, how much
    current each charging point gets, how a power supply is told about it and
    how station and car talk to each other, as executable Rocq definitions, and
    proves what makes them correct.

    ** The program and its model

    The module [modules/EVSE/Auth] grants authorizations and keeps
    reservations.
    - [AuthTypes] holds the data the framework generates from the yaml
      descriptions under [types/], the calls the module makes ([auth_output])
      and the exceptions of its code ([auth_exn]).
    - [Connector] is [ConnectorStateMachine.cpp], [Connector.cpp] and their
      headers (the state machine of a connector, [EVSEContext]) and the token
      comparison of [lib/everest/helpers].
    - [StdAlgorithm] is [std::next_permutation] and [std::prev_permutation].
    - [ReservationHandler] is [ReservationHandler.cpp]: the state [rh_state]
      has the EVSE reservations, the global reservations, the timers and the
      statuses last sent; one definition per member function.
    - [AuthHandler] is [AuthHandler.cpp]: the state [ah_state] has the members
      of the class, with the reservation handler and the EVSEs in it;
      [handle_token] is split along its comments ([stop_with_id_token],
      [no_connector_for_token], [validate_provided_token],
      [stop_with_parent_id_token], [authorize], [decide_authorization]).

    The module [modules/EVSE/EvseManager] runs a charging session.
    - [IECStateMachine] is [IECStateMachine.cpp] and [Timeout.hpp]: the state
      machine over the control pilot, one definition per case of its switch,
      the permission for the contactors, the connector lock and the timers.
      Its module [LockThreads] runs the operations as threads, with every access
      to the flags of the lock as a step of its own.
    - [ErrorHandling] is [ErrorHandling.cpp]: which active errors prevent
      charging, the error Inoperative and the events for the charger.  The
      error framework is the class [ErrorMonitor] with the laws
      [ErrorMonitorLaws], which a list of errors satisfies.  Its module
      [ErrorThreads] has the threads that process errors at the same time.
    - [ChargerTypes] has the contexts of [Charger.hpp] and the outputs of the
      charger; the IEC state machine and the error handling it has references
      to are part of its state.
    - [Charger] has the operations of [Charger.cpp] (PWM, limits, sessions and
      transactions with [PersistentStore.cpp], authorization, enabling, HLC,
      fatal errors), [ChargerStateMachine] its [run_state_machine], one
      definition per case of the switch, the reactions to the control pilot
      and the main loop.
    - [EvseSystem] puts them together as [EvseManager.cpp] does: a history is
      a sequence of calls, runs of the threads, reports of the board and
      changes of device errors, and the events of the IEC state machine are
      processed by the charger.
    - [EvseManagerTypes] has the members of [EvseManager.hpp] around the
      charger and the types of the devices, [EvseManager] the functions of
      [EvseManager.cpp] that drive the DC power supply and react to the car,
      the board, the devices and the signals of the charger, with the limits
      of [over_voltage] and the car in [CarManufacturer.cpp].
    - [EvseEnergy] is [energy_grid/energyImpl.cpp] with the local limits of
      [EvseManager.cpp] and [random_delay/uk_random_delayImpl.cpp]: the
      request to the energy manager, and the limits it enforces.
    - [CableCheck] is [EvseManager::cable_check], a thread that tests the
      isolation of the cable under voltage before a DC session.
    - [EvseManagerSystem] composes these handlers with the charger: a history
      of the module.
    - [EvseSession] is [evse/evse_managerImpl.cpp] and the reservation,
      authorization and Plug&Charge part of [EvseManager.cpp].  It is a layer
      above: it reacts to the outputs of the manager, as the manager reacts to
      the signals of the charger.

    The modules under [modules/EnergyManagement] distribute the power of the
    grid connection.
    - [EnergyTypes] has the types of [types/energy.yaml] and the conversion of
      dates.
    - [EnergyMarket] is [Market.cpp]: the time slots of a run of the optimizer
      and the markets, one per node of the energy tree, in a heap where they
      refer to their parents.
    - [EnergyBroker] is [Offer.cpp], [Broker.cpp] and [BrokerFastCharging.cpp]:
      what a broker buys for its EVSE in each slot, and the choice between one
      and three phases.
    - [EnergyManager] is [EnergyManagerImpl.cpp]: [run_optimizer], and the
      limits it enforces at the EVSEs.
    - [EnergyNode] is [EnergyNode/energy_grid/energyImpl.cpp]: a fuse, which
      adds its limits to the requests it passes on.

    The driver [modules/HardwareDrivers/PowerSupplies/Huawei_V100R023C10]
    speaks GOOSE (IEC 61850) to a power supply and is its Modbus server;
    [goose-lib] and [modbus-server] are modelled.
    - [Bytes] has big-endian integers and the error type of the codecs.
    - [Goose] is [ber.cpp], [frame.cpp] and [goose-ethernet/src/frame.cpp]:
      BER entries, the PDU, Ethernet frames, plain and secured GOOSE frames.
    - [GooseSender] is [sender.cpp]: the thread that retransmits a packet.
    - [Modbus] is [libs/base] and [libs/server] of [modbus-server]: the PDUs
      behind the interface [SpecificPDU] (a class), Modbus TCP, the
      correlation of requests and responses, and the server.
    - [ModbusRegisters] is [libs/registers]: converters, the data providers
      that hold their value, registers and the registry.

    [lib/everest/slac] and the modules [modules/EVSE/EvseSlac] and
    [modules/EV/EvSlac] match a car with the charging point it is plugged into
    (ISO 15118-3).
    - [Slac] has the messages, the interfaces of libslac and libfsm (classes
      with laws) and the clock and thread of the controllers.
    - [SlacEvse] is [fsm/evse] with [fsm_controller.cpp] and [slacImpl.cpp]:
      one section per state of the machine of the charging point.
    - [SlacEv] is [fsm/ev] with its controller: the machine of the car.

    The module [modules/EVSE/EvseV2G] speaks DIN SPEC 70121 and ISO 15118-2 to
    the car, over a connection that SLAC made possible; the EvseManager sends
    it commands and reacts to what it publishes.
    - [V2gTypes] has the messages (of libcbv2g, without fields the module does
      not use), the context of [v2g.hpp], what the module publishes and sends
      ([v2g_output]) and the monad of its code.
    - [V2gContext] is [v2g_ctx.cpp], with physical values, the start of a
      session and the list of services, and the commands of
      [ISO15118_chargerImpl.cpp] and [iso15118_extensionsImpl.cpp].
    - [IsoServer] is [iso_server.cpp] and [DinServer] is [din_server.cpp]: the
      tables of the allowed requests, one definition per request handler, and
      the dispatchers.
    - [V2gServer] is [v2g_server.cpp] with the ends of a connection in
      [connection.cpp] and [tls_connection.cpp]: the transport header, the
      choice of the protocol, the loop over the requests and the teardown.

    ** How code is modelled

    Code with effects is a function of the state in the monad [Eff] of this
    file: it returns a value or an exception together with the state reached
    and the outputs made, in order.  Exceptions keep the state as the code
    leaves it.  Fixed-width integers are [Z] with the conversions of the
    source written out ([u32], [i32], ...), [std::map] is an association list
    ordered by key ([StdMap]), [std::set] of integers an ordered list
    ([StdSet]).  Doubles (duty cycle, ampere) are rationals; times are
    milliseconds.  [Effects] adds updates of record fields and a calculus of
    weakest preconditions to it.

    In the charger each output is logged with the shared context it was made
    in, so that a theorem can speak of the moment power was allowed; what
    meters, proximity pilot and store answer during an operation is a [world]
    that comes with the operation.

    What runs with a mutex held is one step.  A handler of [AuthHandler] gives its
    mutex up while the validators are asked and while it waits on a condition
    variable: there the parameter [env], a function of the place and the state,
    stands for everything other threads do; the theorems hold for every [env], or
    for every one that keeps an invariant which the handlers themselves are
    proved to keep.  The busy wait for the
    authorization signal keeps the mutex and is a parameter of its own.  In
    [IECStateMachine] a call of [feed_state_machine] only requests a run, and
    the run is a step of its own at any later time.  Some code holds no mutex:
    [process_bsp_event] for the contactors, [connector_force_unlock] after it has
    read the state of the control pilot, and [process_error].  For these there are
    the threads of [LockThreads] and [ErrorThreads], in which every access to what
    is shared is a step, in any interleaving (C11, C16); elsewhere, as in
    the histories of [EvseSystem] and in [run_iec], they are whole steps, which
    are the interleavings where each runs to its end before the next begins (C23).
    [handle_authorize_response] of [EvseSession] holds no mutex between the calls
    it makes and is one step as well: its property (C22) is about one call of it.  In [GooseSender] a call
    of [run] is one step with the packets other threads hand over meanwhile;
    in [Modbus] a request takes what other threads do during each of its
    waits.  The cable check holds no mutex: in [CableCheck] the function
    [others n] is what everybody else does to the shared state before the
    [n]-th time the thread looks at it, and the theorems hold for every
    [others].  In SLAC the controller's mutex makes each call and each round of
    the thread one step.  In EvseV2G other threads run commands between two
    requests and at each wakeup of a wait: a request arrives with the commands
    that ran before it, and with the wakeups of its waits ([request_env]); a command
    does not run in the middle of a handler otherwise.  One connection at a time is
    modelled: the source refuses a second one only once the first has left the
    state 0, so that two could share the context before that.

    Sockets and the EXI coding of messages are not modelled: a connection is a
    list of received frames ([received]), each with whether its answer can be
    encoded and written.  Where the code of EvseV2G reads outside of an array,
    follows a null pointer or loops forever, the model stops with an exception
    ([v2g_exn]), and the theorems also cover runs that end so.

    In the energy modules numbers ([float]) are rationals, time points are
    nanoseconds, and each reading of the clock in a run is a value of its own
    ([utc_now] is a function of the number of the reading).

    Parameters stand for what is not in the repository: the validators and
    the reserved callback, the conversion of dates ([from_rfc3339],
    [to_rfc3339]; for the energy modules the class [Dates] with the laws
    [DatesLaws]), HMAC-SHA256, the memory a C++ constructor leaves
    uninitialized, libslac and libfsm ([SlacDefsLaws], [FsmLaws]), and
    certificates, signatures, Base64 and two sizes of libcbv2g ([V2gLib]).

    ** Fuel

    Some loops need a bound.  [get_all_possible_orders] walks the
    permutations with as many steps as there are permutations; [StdAlgorithm]
    proves that the walks end within it (the result is exact,
    [get_all_possible_orders_exact]).  [decode_entries] reads at most as many entries as the input has bytes; [decode_entries_fuel]
    shows that it never stops for lack of fuel.  The loop of
    [run_state_machine] has no bound in the source; ten rounds are enough from
    every state, and more change nothing (C19).  The loop of
    [merge_price_into_schedule] gets one step more than it can make progress:
    without a result then, the source loops forever
    ([merge_price_returns_iff]).  The loops of the cable check wait for the
    clock; 10001 rounds are enough for the longest of their timeouts, and the
    check ends in every case (C26).  The trading is bounded by 100 rounds in
    the source itself.  The loop of SLAC over the timeouts of a session
    handles one at most, as a new one lies in the future: two rounds are
    enough, and that they are is part of C27.
    [populate_physical_value] divides by ten at most 20 times, and a multiplier
    above 3 is refused whatever comes after (C33).  The check of a charging
    profile gets two rounds more than the schedule has entries; without a
    result then, no number of rounds is enough (C28).  All other recursion is
    structural.

    ** What is shown

    - [ReservationArrival], [ReservationProofs], [ReservationProperties]
      (C7, C18, C36): the search over arrivals decides exactly whether a car
      with a reservation can ever be turned away; made reservations can always
      be honoured; reservations and timers agree in every reachable state;
      every outcome of making and cancelling one.
    - [AuthProofs], [AuthTotal], [AuthProperties] (C8, C9, C21): the invariant
      of the handler under interleaving; nobody is authorized without a
      validator's answer; every token and every session event is handled to the
      end; the published protocol of a token; selection, withdrawal, timeouts
      and the reservation check on every branch.  [AuthProofs] gives the
      interface [KeepsReservations] between the two handlers, [AuthTotal] the
      predicates on outputs and the total-correctness rules.
    - [ConnectorProperties]: the connector state machine refines three
      independent flags; availability; token comparison; statuses.
    - [IECProofs], [IECProperties] (C10, C11, C23): the contactors are permitted to
      close only when the charger allows it and the EV asks for power; the
      connector is locked under load in every interleaving of the threads in which
      no decision about the lock is crossed, and an example of one that is; whole
      operations are such interleavings; power ends in time after the PWM stops.
    - [ChargerTermination] (what an action leaves alone, and the end of the
      loop), [ChargerProofs], [ChargerInvariant] and [ChargerLoop] (the
      invariant of the charger, kept by every operation); with them, in every
      history from the start of the module, [ChargerProperties]: power only with a
      transaction active or stopped, and when no meter refuses only after its start
      was signalled (C1), sessions alternate (C20), the state machine comes to
      rest (C19), the enable/disable table, the duty cycle; [ChargerSituations]: a
      fatal error that is not handled yet takes the power away (C17), an authorized
      AC session without HLC charges (C35), an expired power budget;
      [ChargerBehaviour]: over-current, stopping by request; [ErrorProperties]:
      the shutdown of the charger follows the active errors, in every interleaving
      of the threads that process them in which decisions are still right when they
      are acted on (C16), and an example of one that is not.  [ChargerExample] has the sessions of
      the concrete instances, and histories with unexpected outcomes.
    - [CableCheckProperties]: a calculus of postconditions over the log of the
      thread; the check succeeds only after the relays closed, the voltage was
      reached and the isolation was measured to be high enough, and is told to
      the car as failed otherwise (C2); it ends (C26).
    - [EvseManagerProperties]: set points of the power supply stay within its
      capabilities (C4); without the correction of integer currents and without SAE
      J2847/2, the supply is set to no more power than the energy manager allows
      (C3).
      [EvseEnergyProperties]: the request is well formed and within the
      hardware (C32), the enforced current bounds the charger's (C31).
    - [EvseSessionProperties]: the sessions that are published are those of
      the charger (C25), a car is told that it is authorized only if it is
      (C22).
    - [EnergyProofs], [EnergyTree], [EnergyTrading], [EnergyRun],
      [EnergyMaximal]: the invariant of the trading and its end; with them
      [EnergyProperties]: what is sold below a node stays within its limits
      (C6), the trading ends with every EVSE satisfied or its offer used up
      (C34), the limits of a slot are those of the schedule entry that is valid
      at its time, frequency tables; [EnergyNodeProperties]: the currents of
      all EVSEs below a fuse never exceed it, whatever limits come from outside
      (C5), and when the merge of prices returns.  [EnergyTests] runs the
      repository's own sixteen tests of the optimizer in the model, and has
      runs with unexpected outcomes.
    - [GooseProofs], [GooseProperties] (C37): the round trips of all codecs,
      and that the CRC rejects a changed header byte.
    - [GooseSenderProperties] (C38): the sender transmits the numbered stream of
      IEC 61850 of the packets handed to it, and its retransmission delays.
    - [ModbusProperties] (C39, C40): the round trips of the PDUs, which accept only
      what is written by them, with the requests that are written and not read
      back; the framing of a stream of messages; and what a request is answered with,
      or why it is not.
    - [ModbusRegistersProperties]: the registers are one memory, which a write
      changes and a read returns.
    - [SlacProofs] (the protocol of a matching as a monitor of the log) and
      [SlacInvariant] (the invariant of the machine); with them
      [SlacProperties]: in every history the charging point sends the key of
      its network only at the end of a matching of its own (C12) and does
      nothing undefined, each of its rounds returning (C27), reports the average of what it measured, and
      signals the data link in turn; [SlacEvProperties]: a car joins a network
      only after a matching it took part in (C30).  [SlacExample] has the
      concrete machines, and histories with unexpected outcomes.
    - [V2gProofs]: the automata [iso_step] and [din_step] of the two protocols,
      a calculus ([reach]) for the part of the context they depend on, and that
      each request handler makes a step of them or ends the connection;
      [V2gExchange]: so do connections, by induction over the frames, and what
      holds of the runs of the automata.  With them [V2gProperties]: the
      responses of a connection are a run of the automaton of its protocol, with
      every message one that its table allows, except for those that the source
      does not check (C24), nothing that leads to energy is accepted before authorization
      (C13), current is accepted only after a finished cable check that was
      reported (C14), nothing is sent after a failure, and together with the
      cable checks of the EvseManager: only after a check that saw what C2
      requires (C15); all under
      [terminate_connection_on_failed_response]; the handshake that chooses the
      protocol (C29), the check of charging profiles (C28) and the coding of physical
      values (C33).  Its examples run a session, and show what happens without
      that setting and where requests make the code fail.

    ** What is not modelled

    Logging, the framework glue ([Auth.cpp], [authImpl.cpp],
    [reservationImpl.cpp]), sockets and raw Ethernet, [GooseTimestamp::now]
    (the clock) and the conversion of [to_ms] to [float]; of the Modbus server
    the socket and TLS transports, the client, and providers with callbacks;
    of the EvseManager the session log, telemetry, the handlers that only copy
    what the car says into [ev_info], and the modes that combine AC with the
    state of charge; of the energy modules the rounding of floating-point
    numbers and the debug output; of SLAC the input and output thread; of
    EvseV2G the EXI coding, sockets and TLS, the service discovery ([sdp.cpp]),
    OpenSSL and the set up of the module.  The modules for OCPP, IsoMux and
    ISO 15118-20 forward to libraries that are not part of the repository
    (libocpp, libiso15118), and the remaining drivers and the simulation are
    input and output of devices around generated types: there is little in
    them to state beyond the conversions they write out. *)
From stdpp Require Import base tactics list numbers strings sorting sets.
From Stdlib Require Import ZArith Lia.

Declare Scope everest_scope.
Delimit Scope everest_scope with everest.
Open Scope Z_scope.

(** ** Fixed-width integers *)

(** The C++ conversions between integer types: reduction modulo [2^w], and
    for a signed target the representative in the two's complement range. *)
Definition wrap (w z : Z) : Z := z mod 2 ^ w.
Definition swrap (w z : Z) : Z := (z + 2 ^ (w - 1)) mod 2 ^ w - 2 ^ (w - 1).

Abbreviation u8 := (wrap 8).
Abbreviation u16 := (wrap 16).
Abbreviation u32 := (wrap 32).
Abbreviation u64 := (wrap 64).
Abbreviation i32 := (swrap 32).

Create HintDb everest.
Create Rewrite HintDb everest.

Lemma wrap_range w z : 0 <= w -> 0 <= wrap w z < 2 ^ w.
Proof. intros Hw. apply Z.mod_pos_bound, Z.pow_pos_nonneg; lia. Qed.

Lemma wrap_small w z : 0 <= z < 2 ^ w -> wrap w z = z.
Proof. apply Z.mod_small. Qed.

Lemma swrap_small w z : 0 < w -> - 2 ^ (w - 1) <= z < 2 ^ (w - 1) -> swrap w z = z.
Proof.
  intros Hw Hz. unfold swrap.
  assert (2 ^ w = 2 * 2 ^ (w - 1)) as E.
  { rewrite <- Z.pow_succ_r by lia. f_equal. lia. }
  rewrite Z.mod_small; lia.
Qed.

(** An [int] that is not negative survives the round trip through
    [uint32_t]. *)
Lemma i32_u32 z : 0 <= z < 2 ^ 31 -> i32 (u32 z) = z.
Proof. intros Hz. rewrite wrap_small, swrap_small; lia. Qed.

Lemma u32_small z : 0 <= z < 2 ^ 32 -> u32 z = z.
Proof. apply wrap_small. Qed.

Lemma i32_small z : - 2 ^ 31 <= z < 2 ^ 31 -> i32 z = z.
Proof. intros ?. apply swrap_small; lia. Qed.

(** ** [std::map] with integer keys *)

(** Iteration over a [std::map] is in ascending key order, and several of
    the modelled loops depend on it; a map is therefore the list of its
    entries in that order. *)
Module StdMap.
Section StdMap.
Context {V : Type}.
Implicit Types (m : list (Z * V)) (k : Z) (v : V).

Fixpoint find k m : option V :=
  match m with
  | [] => None
  | (k', v) :: m' => if k =? k' then Some v else find k m'
  end.

Fixpoint insert k v m : list (Z * V) :=
  match m with
  | [] => [(k, v)]
  | (k', v') :: m' =>
      if k <? k' then (k, v) :: m
      else if k =? k' then (k, v) :: m'
      else (k', v') :: insert k v m'
  end.

Fixpoint erase k m : list (Z * V) :=
  match m with
  | [] => []
  | (k', v') :: m' => if k =? k' then erase k m' else (k', v') :: erase k m'
  end.

(** Mutation through the pointer or reference found under a key. *)
Fixpoint alter (f : V -> V) k m : list (Z * V) :=
  match m with
  | [] => []
  | (k', v') :: m' => (k', if k =? k' then f v' else v') :: alter f k m'
  end.

Definition count k m : bool :=
  match find k m with Some _ => true | None => false end.
Definition keys m : list Z := m.*1.
Definition sorted m : Prop := StronglySorted Z.lt (keys m).

Lemma find_insert_eq k v m : find k (insert k v m) = Some v.
Proof.
  induction m as [|[k' v'] m IH]; simpl; [by rewrite Z.eqb_refl|].
  destruct (Z.ltb_spec k k'); simpl; [by rewrite Z.eqb_refl|].
  destruct (Z.eqb_spec k k'); simpl; [by rewrite Z.eqb_refl|].
  destruct (Z.eqb_spec k k'); [lia|done].
Qed.

Lemma find_insert_ne k j v m : k <> j -> find j (insert k v m) = find j m.
Proof.
  intros Hne. induction m as [|[k' v'] m IH]; simpl.
  { destruct (Z.eqb_spec j k); [lia|done]. }
  destruct (Z.ltb_spec k k'); simpl.
  { destruct (Z.eqb_spec j k); [lia|done]. }
  destruct (Z.eqb_spec k k'); simpl.
  { destruct (Z.eqb_spec j k), (Z.eqb_spec j k'); (lia || done). }
  by rewrite IH.
Qed.

Lemma find_erase_eq k m : find k (erase k m) = None.
Proof.
  induction m as [|[k' v'] m IH]; simpl; [done|].
  destruct (Z.eqb_spec k k'); simpl; [done|].
  destruct (Z.eqb_spec k k'); [lia|done].
Qed.

Lemma find_erase_ne k j m : k <> j -> find j (erase k m) = find j m.
Proof.
  intros Hne. induction m as [|[k' v'] m IH]; simpl; [done|].
  destruct (Z.eqb_spec k k'); simpl; [|by rewrite IH].
  destruct (Z.eqb_spec j k'); [lia|done].
Qed.

Lemma find_alter f k j m :
  find j (alter f k m) = (if k =? j then f <$> find j m else find j m).
Proof.
  induction m as [|[k' v'] m IH]; simpl.
  { by destruct (k =? j). }
  destruct (Z.eqb_spec j k'), (Z.eqb_spec k k'), (Z.eqb_spec k j);
    simplify_eq; (done || lia).
Qed.

Lemma keys_alter f k m : keys (alter f k m) = keys m.
Proof. induction m as [|[k' v'] m IH]; simpl; [done|]. f_equal. exact IH. Qed.

Lemma length_alter f k m : length (alter f k m) = length m.
Proof. induction m as [|[k' v'] m IH]; simpl; [done|]. by rewrite IH. Qed.

Lemma find_keys k m : is_Some (find k m) <-> k ∈ keys m.
Proof.
  induction m as [|[k' v'] m IH]; simpl.
  { split; [intros [? ?]; done|intros H; by apply not_elem_of_nil in H]. }
  destruct (Z.eqb_spec k k') as [->|Hne].
  - split; [intros _; by left|eauto].
  - rewrite IH. split; [by right|].
    intros [?|?]%elem_of_cons; [lia|done].
Qed.

Lemma find_None k m : find k m = None <-> k ∉ keys m.
Proof. rewrite <- find_keys, eq_None_not_Some. done. Qed.

Lemma count_spec k m : count k m = true <-> k ∈ keys m.
Proof.
  unfold count. rewrite <- find_keys.
  destruct (find k m) as [v|]; split; intros H; naive_solver.
Qed.

Lemma count_false k m : count k m = false <-> find k m = None.
Proof. unfold count. by destruct (find k m). Qed.

Lemma count_find k m : count k m = true -> exists v, find k m = Some v.
Proof. unfold count. destruct (find k m); [eauto|done]. Qed.

Lemma elem_of_keys_insert k j v m : j ∈ keys (insert k v m) <-> j = k \/ j ∈ keys m.
Proof.
  rewrite <- !find_keys. destruct (decide (j = k)) as [->|Hne].
  - rewrite find_insert_eq. split; eauto.
  - rewrite find_insert_ne by done. split; [by right|by intros [?|?]].
Qed.

Lemma elem_of_keys_erase k j m : j ∈ keys (erase k m) <-> j <> k /\ j ∈ keys m.
Proof.
  rewrite <- !find_keys. destruct (decide (j = k)) as [->|Hne].
  - rewrite find_erase_eq. split; [by intros [? ?]|by intros [? _]].
  - rewrite find_erase_ne by done. naive_solver.
Qed.

Lemma sorted_cons k v m :
  sorted ((k, v) :: m) <-> sorted m /\ Forall (Z.lt k) (keys m).
Proof.
  unfold sorted; cbn. split; [by inversion 1|]. intros [? ?]. by constructor.
Qed.

Lemma sorted_insert k v m : sorted m -> sorted (insert k v m).
Proof.
  induction m as [|[k' v'] m IH]; simpl; intros Hs.
  { repeat constructor. }
  pose proof (proj1 (sorted_cons _ _ _) Hs) as [Hm Hlt].
  destruct (Z.ltb_spec k k').
  { apply sorted_cons. split; [done|]. simpl. constructor; [done|].
    eapply Forall_impl; [exact Hlt|]. simpl. lia. }
  destruct (Z.eqb_spec k k') as [->|].
  { by apply sorted_cons. }
  apply sorted_cons. split; [by apply IH|].
  apply Forall_forall. intros j [->|Hj]%elem_of_keys_insert; [lia|].
  by eapply Forall_forall in Hlt; [|exact Hj].
Qed.

Lemma sorted_erase k m : sorted m -> sorted (erase k m).
Proof.
  induction m as [|[k' v'] m IH]; simpl; intros Hs; [done|].
  pose proof (proj1 (sorted_cons _ _ _) Hs) as [Hm Hlt].
  destruct (Z.eqb_spec k k'); [by apply IH|].
  apply sorted_cons. split; [by apply IH|].
  apply Forall_forall. intros j [_ Hj]%elem_of_keys_erase.
  by eapply Forall_forall in Hlt; [|exact Hj].
Qed.

Lemma sorted_alter f k m : sorted m -> sorted (alter f k m).
Proof. unfold sorted. by rewrite keys_alter. Qed.

Lemma sorted_nodup m : sorted m -> NoDup (keys m).
Proof.
  induction m as [|[k v] m IH]; intros Hs; simpl; [constructor|].
  apply sorted_cons in Hs as [Hm Hlt]. constructor; [|by apply IH].
  intros Hin. rewrite Forall_forall in Hlt. specialize (Hlt _ Hin). lia.
Qed.

Lemma elem_of_find k v m : sorted m -> (k, v) ∈ m <-> find k m = Some v.
Proof.
  induction m as [|[k' v'] m IH]; intros Hs; simpl.
  { split; [intros H; by apply not_elem_of_nil in H|done]. }
  apply sorted_cons in Hs as [Hm Hlt]. rewrite elem_of_cons, IH by done.
  destruct (Z.eqb_spec k k') as [->|Hne].
  - split; [|naive_solver]. intros [?|Hf]; [by simplify_eq|].
    assert (k' ∈ keys m) as Hin by (apply find_keys; eauto).
    rewrite Forall_forall in Hlt. specialize (Hlt _ Hin). lia.
  - split; [|by right]. intros [?|?]; [by simplify_eq|done].
Qed.

Lemma find_elem_of k v m : find k m = Some v -> (k, v) ∈ m.
Proof.
  induction m as [|[k' v'] m IH]; simpl; [done|].
  destruct (Z.eqb_spec k k'); intros; simplify_eq; [left|right; auto].
Qed.

Lemma length_insert_new k v m :
  find k m = None -> length (insert k v m) = S (length m).
Proof.
  induction m as [|[k' v'] m IH]; simpl; [done|].
  destruct (Z.eqb_spec k k'); [done|]. intros Hf.
  destruct (Z.ltb_spec k k'); simpl; [done|]. by rewrite IH.
Qed.

Lemma insert_perm k v m : find k m = None -> insert k v m ≡ₚ (k, v) :: m.
Proof.
  induction m as [|[k' v'] m IH]; simpl; [done|].
  destruct (Z.eqb_spec k k'); [done|]. intros Hf.
  destruct (Z.ltb_spec k k'); [done|]. rewrite IH by done. constructor.
Qed.

Lemma erase_id k m : find k m = None -> erase k m = m.
Proof.
  induction m as [|[k' v'] m IH]; simpl; [done|].
  destruct (Z.eqb_spec k k'); [done|]. intros Hf. by rewrite IH.
Qed.

Lemma erase_perm k v m : sorted m -> find k m = Some v -> m ≡ₚ (k, v) :: erase k m.
Proof.
  induction m as [|[k' v'] m IH]; simpl; [done|]. intros [Hm Hlt]%sorted_cons.
  destruct (Z.eqb_spec k k') as [->|Hne].
  - intros [= ->]. rewrite erase_id; [done|]. apply find_None. intros Hin.
    rewrite Forall_forall in Hlt. specialize (Hlt _ Hin). lia.
  - intros Hf. rewrite IH at 1 by done. constructor.
Qed.

Lemma length_keys m : length (keys m) = length m.
Proof. apply length_fmap. Qed.
End StdMap.
End StdMap.

(** ** [std::set] of integers *)

(** A set of integers in iteration order, as for [StdMap]. *)
Module StdSet.
Fixpoint insert (k : Z) (s : list Z) : list Z :=
  match s with
  | [] => [k]
  | k' :: s' =>
      if k <? k' then k :: s
      else if k =? k' then s
      else k' :: insert k s'
  end.

Definition mem (k : Z) (s : list Z) : bool := existsb (Z.eqb k) s.

Lemma mem_spec k s : mem k s = true <-> k ∈ s.
Proof.
  unfold mem. rewrite existsb_exists. split.
  - intros (x & Hin & Heq). apply Z.eqb_eq in Heq as <-. by apply list_elem_of_In.
  - intros Hin. exists k. split; [by apply list_elem_of_In|apply Z.eqb_refl].
Qed.

Lemma mem_false k s : mem k s = false <-> k ∉ s.
Proof. rewrite <- mem_spec. by destruct (mem k s). Qed.

Lemma elem_of_insert k j s : j ∈ insert k s <-> j = k \/ j ∈ s.
Proof.
  induction s as [|k' s IH]; simpl; [set_solver|].
  destruct (Z.ltb_spec k k'); [set_solver|].
  destruct (Z.eqb_spec k k'); set_solver.
Qed.
End StdSet.

(** ** Stateful code that may throw and calls out *)

(** The outcome of code that may throw: a value or the exception. *)
Inductive result (E A : Type) : Type :=
| Ok (a : A)
| Err (e : E).
Arguments Ok {E A} a.
Arguments Err {E A} e.

(** A handler runs on the component's state, returns a value or throws, and
    emits the calls it makes on other components, in order.  What was done
    before a throw stays done, as in the code. *)
Definition Eff (S O E A : Type) : Type := S -> result E A * S * list O.

Section Eff.
Context {S O E : Type}.

Definition eret {A} (a : A) : Eff S O E A := fun s => (Ok a, s, []).
Definition ebind {A B} (m : Eff S O E A) (f : A -> Eff S O E B) : Eff S O E B :=
  fun s =>
    match m s with
    | (Ok a, s', o) => let '(r, s'', o') := f a s' in (r, s'', o ++ o')
    | (Err e, s', o) => (Err e, s', o)
    end.
Definition eget : Eff S O E S := fun s => (Ok s, s, []).
Definition emodify (f : S -> S) : Eff S O E unit := fun s => (Ok tt, f s, []).
Definition eemit (o : O) : Eff S O E unit := fun s => (Ok tt, s, [o]).
Definition ethrow {A} (e : E) : Eff S O E A := fun s => (Err e, s, []).

(** [for (x : l) f(x);] *)
Fixpoint efor {A} (l : list A) (f : A -> Eff S O E unit) : Eff S O E unit :=
  match l with
  | [] => eret tt
  | x :: l' => ebind (f x) (fun _ => efor l' f)
  end.
End Eff.

Notation "'let*' x := m 'in' k" := (ebind m (fun x => k))
  (at level 10, x binder, m at level 100, k at level 200)
  : everest_scope.
Notation "m ';;;' k" := (ebind m (fun _ => k))
  (at level 100, k at level 200, right associativity) : everest_scope.

(** The three parts of a run. *)
Definition run_val {S O E A} (m : Eff S O E A) (s : S) : result E A := (m s).1.1.
Definition run_state {S O E A} (m : Eff S O E A) (s : S) : S := (m s).1.2.
Definition run_out {S O E A} (m : Eff S O E A) (s : S) : list O := (m s).2.

(** [preserves I m]: from a state that satisfies [I], [m] ends in one that
    does, whether it returns or throws. *)
Definition preserves {S O E A} (I : S -> Prop) (m : Eff S O E A) : Prop :=
  forall s, I s -> I (run_state m s).

Section Preserves.
Context {S O E : Type} (I : S -> Prop).

Lemma preserves_ret {A} (a : A) : preserves I (eret a : Eff S O E A).
Proof. by intros s. Qed.

Lemma preserves_get : preserves I (eget : Eff S O E S).
Proof. by intros s. Qed.

Lemma preserves_emit o : preserves I (eemit o : Eff S O E unit).
Proof. by intros s. Qed.

Lemma preserves_throw {A} e : preserves I (ethrow e : Eff S O E A).
Proof. by intros s. Qed.

Lemma preserves_modify f :
  (forall s, I s -> I (f s)) -> preserves I (emodify f : Eff S O E unit).
Proof. intros Hf s Hs. by apply Hf. Qed.

Lemma preserves_bind {A B} (m : Eff S O E A) (f : A -> Eff S O E B) :
  preserves I m -> (forall a, preserves I (f a)) -> preserves I (ebind m f).
Proof.
  intros Hm Hf s Hs. specialize (Hm s Hs).
  unfold run_state, ebind in *. destruct (m s) as [[[a|e] s'] o]; simpl in *; [|done].
  specialize (Hf a s' Hm). unfold run_state in Hf.
  by destruct (f a s') as [[r s''] o'].
Qed.

Lemma preserves_for {A} (l : list A) (f : A -> Eff S O E unit) :
  (forall x, x ∈ l -> preserves I (f x)) -> preserves I (efor l f).
Proof.
  induction l as [|x l IH]; intros Hf; simpl; [apply preserves_ret|].
  apply preserves_bind; [apply Hf; left|]. intros _. apply IH.
  intros y Hy. apply Hf. by right.
Qed.
End Preserves.

(** Reading the state first and then running [f] on what was read. *)
Lemma run_get_bind {S O E A} (f : S -> Eff S O E A) s :
  ebind eget f s = f s s.
Proof. unfold ebind, eget. by destruct (f s s) as [[r s'] o]. Qed.

Lemma ebind_ret {S O E A B} (a : A) (f : A -> Eff S O E B) s :
  ebind (eret a) f s = f a s.
Proof. unfold ebind, eret. by destruct (f a s) as [[r s'] o]. Qed.

Lemma ebind_ok_inv {S O E A B} (m : Eff S O E A) (f : A -> Eff S O E B) s b s' o :
  ebind m f s = (Ok b, s', o) ->
  exists a s1 o1 o2, m s = (Ok a, s1, o1) /\ f a s1 = (Ok b, s', o2) /\ o = o1 ++ o2.
Proof.
  unfold ebind. destruct (m s) as [[[a|e] s1] o1]; [|done].
  destruct (f a s1) as [[r s2] o2] eqn:Hf. intros H. simplify_eq. eauto 10.
Qed.

Lemma ebind_modify {S O E A} (g : S -> S) (f : unit -> Eff S O E A) s :
  ebind (emodify g) f s = f tt (g s).
Proof. unfold ebind, emodify. by destruct (f tt (g s)) as [[r s'] o]. Qed.

(** ** Total correctness *)

(** [returns P m Q]: from a state that satisfies [P], [m] returns, with a
    value and a state that satisfy [Q]; it does not throw or block. *)
Definition returns {S O E A} (P : S -> Prop) (m : Eff S O E A) (Q : A -> S -> Prop) : Prop :=
  forall s, P s -> exists a, run_val m s = Ok a /\ Q a (run_state m s).

Section Returns.
Context {S O E : Type}.
Implicit Types P : S -> Prop.

Lemma returns_ret {A} P (Q : A -> S -> Prop) a :
  (forall s, P s -> Q a s) -> returns P (eret a : Eff S O E A) Q.
Proof. intros HQ s Hs. exists a. split; [done|by apply HQ]. Qed.

Lemma returns_get P : returns P (eget : Eff S O E S) (fun a s => a = s /\ P s).
Proof. intros s Hs. by exists s. Qed.

Lemma returns_emit P o : returns P (eemit o : Eff S O E unit) (fun _ => P).
Proof. intros s Hs. by exists tt. Qed.

Lemma returns_modify P (Q : unit -> S -> Prop) f :
  (forall s, P s -> Q tt (f s)) -> returns P (emodify f : Eff S O E unit) Q.
Proof. intros HQ s Hs. exists tt. split; [done|by apply HQ]. Qed.

Lemma returns_bind {A B : Type} P (R : A -> S -> Prop) (Q : B -> S -> Prop)
    (m : Eff S O E A) (f : A -> Eff S O E B) :
  returns P m R -> (forall a, returns (R a) (f a) Q) -> returns P (ebind m f) Q.
Proof.
  intros Hm Hf s Hs. destruct (Hm s Hs) as (a & Ha & HR).
  unfold returns, run_val, run_state, ebind in *.
  destruct (m s) as [[r s'] o]; simpl in *; subst r.
  destruct (Hf a s' HR) as (b & Hb & HQ). exists b.
  by destruct (f a s') as [[r s''] o'].
Qed.

Lemma returns_weaken {A} (P P' : S -> Prop) (Q Q' : A -> S -> Prop) (m : Eff S O E A) :
  returns P m Q -> (forall s, P' s -> P s) -> (forall a s, Q a s -> Q' a s) -> returns P' m Q'.
Proof. intros Hm HP HQ s Hs. destruct (Hm s (HP s Hs)) as (a & ? & ?). eauto. Qed.

Lemma returns_for {A} P (l : list A) (f : A -> Eff S O E unit) :
  (forall x, x ∈ l -> returns P (f x) (fun _ => P)) -> returns P (efor l f) (fun _ => P).
Proof.
  induction l as [|x l IH]; simpl; intros Hf; [by apply returns_ret|].
  eapply returns_bind; [apply Hf; left|]. intros []. apply IH. intros y Hy. apply Hf. by right.
Qed.

Lemma returns_pre {A} P (Q : A -> S -> Prop) (m : Eff S O E A) :
  (forall s, P s -> returns (eq s) m Q) -> returns P m Q.
Proof. intros Hm s Hs. by apply (Hm s Hs). Qed.
End Returns.

#[export] Hint Resolve preserves_ret preserves_get preserves_emit preserves_throw
  preserves_bind preserves_for : everest.
#[export] Hint Rewrite @run_get_bind @ebind_ret @ebind_modify : everest.

(** Splits on the conditions and matches of a handler, innermost first. *)
Ltac case_all :=
  repeat match goal with
  | |- context [match ?x with _ => _ end] =>
      lazymatch x with context [match _ with _ => _ end] => fail | _ => destruct x eqn:? end
  end.

(** Turns boolean hypotheses about integers into propositions. *)
Ltac bool_to_prop :=
  repeat match goal with
  | H : (_ && _) = true |- _ => apply andb_true_iff in H as [? ?]
  | H : (_ || _) = false |- _ => apply orb_false_iff in H as [? ?]
  | H : negb _ = true |- _ => apply negb_true_iff in H
  | H : negb _ = false |- _ => apply negb_false_iff in H
  | H : (_ =? _) = true |- _ => apply Z.eqb_eq in H
  | H : (_ =? _) = false |- _ => apply Z.eqb_neq in H
  | H : (_ <? _) = true |- _ => apply Z.ltb_lt in H
  | H : (_ <? _) = false |- _ => apply Z.ltb_ge in H
  | H : (_ <=? _) = true |- _ => apply Z.leb_le in H
  | H : (_ <=? _) = false |- _ => apply Z.leb_gt in H
  | H : bool_decide _ = true |- _ => apply bool_decide_eq_true in H
  | H : bool_decide _ = false |- _ => apply bool_decide_eq_false in H
  end.
