(* ===== verification/AuthTypes.v ===== *)
(** * Data of the Auth module

    The enumerations and records exchanged by [AuthHandler], [ReservationHandler]
    and the connectors.  The framework generates the C++ types from the yaml
    descriptions under [src/types/]; the enumerators are in the order of the
    description, which is the order of [operator<] on the enum classes.
    Optional fields that the Auth module only copies along (certificates,
    hash data, tariff messages, transfer modes) are left out. *)
From S2P Require Import Prelude.
From stdpp Require Import base tactics list numbers strings.
Open Scope Z_scope.

(** [types::evse_manager::ConnectorTypeEnum]. *)
Module ConnectorTypeEnum.
Inductive t : Set :=
| cCCS1 | cCCS2 | cG105 | cTesla | cType1 | cType2
| s309_1P_16A | s309_1P_32A | s309_3P_16A | s309_3P_32A
| sBS1361 | sCEE_7_7 | sType2 | sType3
| Other1PhMax16A | Other1PhOver16A | Other3Ph
| Pan | wInductive | wResonant | Undetermined | Unknown.

#[global] Instance eq_dec : EqDecision t.
Proof. solve_decision. Defined.

(** The underlying value of the enumerator. *)
Definition to_Z (c : t) : Z :=
  match c with
  | cCCS1 => 0 | cCCS2 => 1 | cG105 => 2 | cTesla => 3 | cType1 => 4 | cType2 => 5
  | s309_1P_16A => 6 | s309_1P_32A => 7 | s309_3P_16A => 8 | s309_3P_32A => 9
  | sBS1361 => 10 | sCEE_7_7 => 11 | sType2 => 12 | sType3 => 13
  | Other1PhMax16A => 14 | Other1PhOver16A => 15 | Other3Ph => 16
  | Pan => 17 | wInductive => 18 | wResonant => 19 | Undetermined => 20 | Unknown => 21
  end.

#[global] Instance to_Z_inj : Inj (=) (=) to_Z.
Proof. by intros [] []. Qed.

Definition eqb (c d : t) : bool := bool_decide (c = d).
End ConnectorTypeEnum.

(** [types::reservation::ReservationResult]. *)
Module ReservationResult.
Inductive t : Set := Accepted | Faulted | Occupied | Rejected | Unavailable.
#[global] Instance eq_dec : EqDecision t.
Proof. solve_decision. Defined.
End ReservationResult.

(** [types::reservation::ReservationEndReason]. *)
Module ReservationEndReason.
Inductive t : Set :=
| Expired | Cancelled | UsedToStartCharging | GlobalReservationRequirementDropped.
End ReservationEndReason.

(** [types::reservation::ReservationCheckStatus]. *)
Module ReservationCheckStatus.
Inductive t : Set :=
| NotReserved | ReservedForToken | ReservedForOtherToken
| ReservedForOtherTokenAndHasParentToken.
End ReservationCheckStatus.

(** [types::reservation::Reservation]; [Reservation_default] is the value of
    a default-constructed one. *)
Record Reservation := mkReservation {
  r_evse_id : option Z;
  reservation_id : Z;
  r_id_token : string;
  expiry_time : string;
  r_parent_id_token : option string;
  r_connector_type : option ConnectorTypeEnum.t;
}.

#[global] Instance Reservation_eq_dec : EqDecision Reservation.
Proof. solve_decision. Defined.

Definition Reservation_default : Reservation :=
  mkReservation None 0 "" "" None None.

(** [types::authorization::IdTokenType]. *)
Module IdTokenType.
Inductive t : Set :=
| Central | eMAID | MacAddress | ISO14443 | ISO15693 | KeyCode | Local | NoAuthorization.
#[global] Instance eq_dec : EqDecision t.
Proof. solve_decision. Defined.
End IdTokenType.

(** [types::authorization::IdToken]. *)
Record IdToken := mkIdToken { value : string; type : IdTokenType.t }.

#[global] Instance IdToken_eq_dec : EqDecision IdToken.
Proof. solve_decision. Defined.

(** [types::authorization::AuthorizationType]. *)
Module AuthorizationType.
Inductive t : Set := OCPP | RFID | Autocharge | PlugAndCharge | BankCard.
#[global] Instance eq_dec : EqDecision t.
Proof. solve_decision. Defined.
End AuthorizationType.

(** [types::authorization::AuthorizationStatus]. *)
Module AuthorizationStatus.
Inductive t : Set :=
| Accepted | Blocked | ConcurrentTx | Expired | Invalid | NoCredit
| NotAllowedTypeEVSE | NotAtThisLocation | NotAtThisTime | Unknown.
#[global] Instance eq_dec : EqDecision t.
Proof. solve_decision. Defined.
End AuthorizationStatus.

(** [types::authorization::TokenValidationStatus]. *)
Module TokenValidationStatus.
Inductive t : Set :=
| Processing | Accepted | Rejected | TimedOut | UsedToStart | UsedToStop | Withdrawn.
#[global] Instance eq_dec : EqDecision t.
Proof. solve_decision. Defined.
End TokenValidationStatus.

(** [types::authorization::ProvidedIdToken]. *)
Record ProvidedIdToken := mkProvidedIdToken {
  request_id : option Z;
  id_token : IdToken;
  parent_id_token : option IdToken;
  authorization_type : AuthorizationType.t;
  p_connectors : option (list Z);
  prevalidated : option bool;
}.

#[global] Instance ProvidedIdToken_eq_dec : EqDecision ProvidedIdToken.
Proof. solve_decision. Defined.

(** [types::authorization::ValidationResult]. *)
Record ValidationResult := mkValidationResult {
  authorization_status : AuthorizationStatus.t;
  vr_expiry_time : option string;
  vr_parent_id_token : option IdToken;
  vr_evse_ids : option (list Z);
  vr_reservation_id : option Z;
}.

(** [types::authorization::ValidationResultUpdate]. *)
Record ValidationResultUpdate := mkValidationResultUpdate {
  validation_result : ValidationResult;
  u_connector_id : Z;
}.

(** [types::authorization::SelectionAlgorithm]. *)
Module SelectionAlgorithm.
Inductive t : Set := UserInput | PlugEvents | FindFirst.
End SelectionAlgorithm.

(** [types::authorization::WithdrawAuthorizationRequest] and its result. *)
Record WithdrawAuthorizationRequest := mkWithdrawAuthorizationRequest {
  w_evse_id : option Z;
  w_id_token : option IdToken;
}.

Module WithdrawAuthorizationResult.
Inductive t : Set := Accepted | AuthorizationNotFound | EvseNotFound | Rejected.
End WithdrawAuthorizationResult.

(** [types::evse_manager::StopTransactionReason] and
    [types::evse_manager::StopTransactionRequest]. *)
Module StopTransactionReason.
Inductive t : Set :=
| EmergencyStop | EVDisconnected | HardReset | Local | Other | PowerLoss | Reboot | Remote
| SoftReset | UnlockCommand | DeAuthorized | EnergyLimitReached | GroundFault
| LocalOutOfCredit | MasterPass | OvercurrentFault | PowerQuality | SOCLimitReached
| StoppedByEV | TimeLimitReached | Timeout | ReqEnergyTransferRejected.
End StopTransactionReason.

Record StopTransactionRequest := mkStopTransactionRequest {
  reason : StopTransactionReason.t;
  id_tag : option ProvidedIdToken;
}.

(** [types::evse_manager::SessionEventEnum], [StartSessionReason] and the
    fields of [SessionEvent] the Auth module reads. *)
Module SessionEventEnum.
Inductive t : Set :=
| Authorized | Deauthorized | Enabled | Disabled | SessionStarted | AuthRequired
| TransactionStarted | PrepareCharging | ChargingStarted | ChargingPausedEV
| ChargingPausedEVSE | WaitingForEnergy | ChargingResumed | StoppingCharging
| ChargingFinished | TransactionFinished | SessionFinished | ReservationStart
| ReservationEnd | ReplugStarted | ReplugFinished | PluginTimeout
| SwitchingPhases | SessionResumed.
End SessionEventEnum.

Module StartSessionReason.
Inductive t : Set := EVConnected | Authorized.
End StartSessionReason.

Record SessionEvent := mkSessionEvent {
  event : SessionEventEnum.t;
  connector_id : option Z;
  session_started : option StartSessionReason.t;
}.

(** What the Auth module does to its surroundings: the calls on the key value
    store and on the registered callbacks, and the wake-ups of waiting
    threads. *)
Inductive auth_output : Type :=
| call_store (reservations : list (option Z * Reservation))
| reservation_cancelled (evse_id : option Z) (id : Z)
    (reason : ReservationEndReason.t) (send_reservation_update : bool)
| call_reserved_callback (evse_id : option Z) (id : Z)
| publish_token_validation_status (token : ProvidedIdToken)
    (status : TokenValidationStatus.t)
| validate_token (token : ProvidedIdToken)
| notify_evse_callback (index : Z) (token : ProvidedIdToken) (result : ValidationResult)
| withdraw_authorization (index : Z)
| stop_transaction (index : Z) (request : StopTransactionRequest)
| notify_all
| notify_processing_finished.

(** The exceptions of the modelled code; [null_dereference] is the undefined
    behaviour of dereferencing an empty pointer or optional, [blocked] a wait
    whose condition does not come true. *)
Inductive auth_exn : Type :=
| out_of_range | bad_optional_access | bad_function_call | not_implemented
| null_dereference | blocked.
