(* ===== verification/Connector.v ===== *)
(** * Connectors of an EVSE

    [modules/EVSE/Auth]: the connector state machine, a connector and the
    per-EVSE context ([ConnectorStateMachine.cpp], [Connector.cpp] and their
    headers), with the case-insensitive token comparison of
    [lib/everest/helpers]. *)
From S2P Require Import Prelude AuthTypes.
From stdpp Require Import base tactics list numbers strings.
From Stdlib Require Import Ascii.
Open Scope Z_scope.

(** ** Token comparison ([helpers.cpp]) *)
Module Helpers.
(** [std::tolower] in the "C" locale. *)
Definition tolower (c : ascii) : ascii :=
  let n := nat_of_ascii c in
  if (65 <=? n)%nat && (n <=? 90)%nat then ascii_of_nat (n + 32) else c.

(** [std::equal] over two ranges of the same length. *)
Fixpoint equal_lower (s1 s2 : string) : bool :=
  match s1, s2 with
  | String a s1', String b s2' =>
      Ascii.eqb (tolower a) (tolower b) && equal_lower s1' s2'
  | _, _ => true
  end.

Definition is_equal_case_insensitive (str1 str2 : string) : bool :=
  if negb (String.length str1 =? String.length str2)%nat then false
  else equal_lower str1 str2.

Definition is_equal_case_insensitive_IdToken (token1 token2 : IdToken) : bool :=
  is_equal_case_insensitive (value token1) (value token2)
  && bool_decide (type token1 = type token2).
End Helpers.

(** ** The state machine of one connector ([ConnectorStateMachine.cpp]) *)
Module ConnectorEvent.
Inductive t : Set :=
| ENABLE | DISABLE | ERROR_CLEARED | FAULTED | TRANSACTION_STARTED | SESSION_FINISHED.
End ConnectorEvent.

Module ConnectorState.
Inductive t : Set :=
| AVAILABLE | UNAVAILABLE | FAULTED | OCCUPIED | UNAVAILABLE_FAULTED | FAULTED_OCCUPIED.

#[global] Instance eq_dec : EqDecision t.
Proof. solve_decision. Defined.

(** The underlying value, which [operator<] compares. *)
Definition to_Z (c : t) : Z :=
  match c with
  | AVAILABLE => 0 | UNAVAILABLE => 1 | FAULTED => 2 | OCCUPIED => 3
  | UNAVAILABLE_FAULTED => 4 | FAULTED_OCCUPIED => 5
  end.

Definition eqb (a b : t) : bool := bool_decide (a = b).
Definition gtb (a b : t) : bool := to_Z b <? to_Z a.
End ConnectorState.

Module ConnectorStateMachine.
(** [handle_event]: whether the event was accepted, and the state after it. *)
Definition handle_event (state : ConnectorState.t) (event : ConnectorEvent.t)
  : bool * ConnectorState.t :=
  match state with
  | ConnectorState.AVAILABLE =>
      match event with
      | ConnectorEvent.TRANSACTION_STARTED => (true, ConnectorState.OCCUPIED)
      | ConnectorEvent.DISABLE => (true, ConnectorState.UNAVAILABLE)
      | ConnectorEvent.FAULTED => (true, ConnectorState.FAULTED)
      | _ => (false, state)
      end
  | ConnectorState.UNAVAILABLE =>
      match event with
      | ConnectorEvent.ENABLE => (true, ConnectorState.AVAILABLE)
      | ConnectorEvent.FAULTED => (true, ConnectorState.UNAVAILABLE_FAULTED)
      | _ => (false, state)
      end
  | ConnectorState.FAULTED =>
      match event with
      | ConnectorEvent.ERROR_CLEARED => (true, ConnectorState.AVAILABLE)
      | ConnectorEvent.DISABLE => (true, ConnectorState.UNAVAILABLE_FAULTED)
      | _ => (false, state)
      end
  | ConnectorState.OCCUPIED =>
      match event with
      | ConnectorEvent.SESSION_FINISHED => (true, ConnectorState.AVAILABLE)
      | ConnectorEvent.FAULTED => (true, ConnectorState.FAULTED_OCCUPIED)
      | _ => (false, state)
      end
  | ConnectorState.FAULTED_OCCUPIED =>
      match event with
      | ConnectorEvent.ERROR_CLEARED => (true, ConnectorState.OCCUPIED)
      | ConnectorEvent.SESSION_FINISHED => (true, ConnectorState.FAULTED)
      | _ => (false, state)
      end
  | ConnectorState.UNAVAILABLE_FAULTED =>
      match event with
      | ConnectorEvent.ENABLE => (true, ConnectorState.FAULTED)
      | ConnectorEvent.ERROR_CLEARED => (true, ConnectorState.UNAVAILABLE)
      | _ => (false, state)
      end
  end.
End ConnectorStateMachine.

(** ** A connector and the context of an EVSE ([Connector.hpp], [Connector.cpp]) *)

(** The identifier that an EVSE is authorized with. *)
Record Identifier := mkIdentifier {
  i_id_token : IdToken;
  i_type : AuthorizationType.t;
  i_authorization_status : option AuthorizationStatus.t;
  i_expiry_time : option string;
  i_parent_id_token : option IdToken;
}.

Record Connector := mkConnector {
  c_id : Z;
  c_transaction_active : bool;
  c_state : ConnectorState.t;
  c_type : ConnectorTypeEnum.t;
}.

(** [Connector::Connector]. *)
Definition new_Connector (id : Z) (type : ConnectorTypeEnum.t) : Connector :=
  mkConnector id false ConnectorState.AVAILABLE type.

Definition submit_event (event : ConnectorEvent.t) (c : Connector) : Connector :=
  mkConnector (c_id c) (c_transaction_active c)
    (ConnectorStateMachine.handle_event (c_state c) event).2 (c_type c).

Definition connector_is_unavailable (c : Connector) : bool :=
  ConnectorState.eqb (c_state c) ConnectorState.UNAVAILABLE
  || ConnectorState.eqb (c_state c) ConnectorState.UNAVAILABLE_FAULTED.

Definition connector_state_to_string (s : ConnectorState.t) : string :=
  match s with
  | ConnectorState.AVAILABLE => "AVAILABLE"
  | ConnectorState.OCCUPIED => "OCCUPIED"
  | ConnectorState.UNAVAILABLE => "UNAVAILABLE"
  | ConnectorState.FAULTED => "FAULTED"
  | ConnectorState.FAULTED_OCCUPIED => "FAULTED_OCCUPIED"
  | ConnectorState.UNAVAILABLE_FAULTED => "UNAVAILABLE_FAULTED"
  end.

(** The running [timeout_timer] of an EVSE and what its callback does:
    withdraw an authorization that was not used, or flag that a plugged-in
    EV was not authorized in time. *)
Inductive TimeoutTask : Type :=
| AuthorizationTimeout (provided_token : ProvidedIdToken)
| PlugInTimeout.

Record EVSEContext := mkEVSEContext {
  e_evse_id : Z;
  evse_index : Z;
  transaction_active : bool;
  identifier : option Identifier;
  connectors : list Connector;
  timeout_timer : option TimeoutTask;
  timeout_in_progress : bool;
  plugged_in : bool;
  plug_in_timeout : bool;
}.

(** The constructor from a list of connectors, the one [init_evse] uses. *)
Definition new_EVSEContext (evse_id index : Z) (cs : list Connector) : EVSEContext :=
  mkEVSEContext evse_id index false None cs None false false false.

Definition is_occupied_state (s : ConnectorState.t) : bool :=
  ConnectorState.eqb s ConnectorState.OCCUPIED
  || ConnectorState.eqb s ConnectorState.FAULTED_OCCUPIED.

(** [EVSEContext::is_available]. *)
Definition is_available (evse : EVSEContext) : bool :=
  if plug_in_timeout evse then false
  else match identifier evse with
  | Some _ => false
  | None =>
      let occupied := existsb (fun c => is_occupied_state (c_state c)) (connectors evse) in
      let available :=
        existsb (fun c =>
          negb (ConnectorState.eqb (c_state c) ConnectorState.UNAVAILABLE)
          && negb (ConnectorState.eqb (c_state c) ConnectorState.FAULTED))
          (connectors evse) in
      if occupied then false else available
  end.

(** [EVSEContext::is_unavailable]. *)
Definition is_unavailable (evse : EVSEContext) : bool :=
  forallb connector_is_unavailable (connectors evse).
