(* ===== verification/StdAlgorithm.v ===== *)
(** * [std::next_permutation] and [std::prev_permutation]

    The two algorithms of the C++ standard library that
    [ReservationHandler::get_all_possible_orders] walks through the orders of
    arrival with, over elements compared by an injective integer key, and the
    fact that makes that walk complete: the result of [next_permutation] is
    the immediate successor in the lexicographic order. *)
From S2P Require Import Prelude.
From stdpp Require Import base tactics list numbers sorting sets.
Open Scope Z_scope.

Section Permutations.
Context {A : Type} (key : A -> Z).

(** In a suffix that does not ascend, the rightmost element greater than
    [x] is exchanged with [x]. *)
Fixpoint swap_rightmost_greater (x : A) (l : list A) : option (A * list A) :=
  match l with
  | [] => None
  | y :: l' =>
      match swap_rightmost_greater x l' with
      | Some (z, l'') => Some (z, y :: l'')
      | None => if key x <? key y then Some (y, x :: l') else None
      end
  end.

(** [std::next_permutation]: [None] when it returns [false]. *)
Fixpoint next_permutation (l : list A) : option (list A) :=
  match l with
  | [] => None
  | x :: l' =>
      match next_permutation l' with
      | Some l'' => Some (x :: l'')
      | None =>
          match swap_rightmost_greater x l' with
          | Some (z, l'') => Some (z :: reverse l'')
          | None => None
          end
      end
  end.

(** The lists [do { out.push_back(l); } while (next_permutation(l))] pushes,
    the first one left out. *)
Fixpoint iterate_permutation (fuel : nat) (l : list A) : list (list A) :=
  match fuel with
  | O => []
  | S fuel' =>
      match next_permutation l with
      | Some l' => l' :: iterate_permutation fuel' l'
      | None => []
      end
  end.

(** The lexicographic order. *)
Fixpoint lex (l m : list A) : Prop :=
  match l, m with
  | x :: l', y :: m' => key x < key y \/ (key x = key y /\ lex l' m')
  | _, _ => False
  end.

Definition ascending : list A -> Prop := StronglySorted (fun a b => key a <= key b).
Definition descending : list A -> Prop := StronglySorted (fun a b => key b <= key a).

Lemma lex_irrefl l : ~ lex l l.
Proof. induction l as [|x l IH]; simpl; [tauto|]. intros [?|[_ ?]]; [lia|tauto]. Qed.

Lemma lex_trans l m n : lex l m -> lex m n -> lex l n.
Proof.
  revert m n. induction l as [|x l IH]; intros [|y m] [|z n]; simpl; try done.
  intros [?|[? ?]] [?|[? ?]]; [left; lia|left; lia|left; lia|].
  right. split; [lia|by eapply IH].
Qed.

#[global] Instance lex_dec l m : Decision (lex l m).
Proof.
  revert m. induction l as [|x l IH]; intros [|y m]; simpl; try apply _.
Defined.

Lemma StronglySorted_snoc (R : A -> A -> Prop) l x :
  StronglySorted R l -> Forall (fun a => R a x) l -> StronglySorted R (l ++ [x]).
Proof.
  induction 1 as [|a l Hl IH Ha]; intros Hx; simpl; [repeat constructor|].
  apply Forall_cons in Hx as [? ?]. constructor; [by apply IH|].
  apply Forall_app. split; [done|by repeat constructor].
Qed.

Lemma descending_reverse l : descending l -> ascending (reverse l).
Proof.
  induction 1 as [|a l Hl IH Ha]; [constructor|].
  rewrite reverse_cons. apply StronglySorted_snoc; [done|].
  by apply Forall_reverse.
Qed.

Context `{!Inj (=) (=) key}.

Lemma lex_total l m : length l = length m -> lex l m \/ l = m \/ lex m l.
Proof.
  revert m. induction l as [|x l IH]; intros [|y m]; simpl; intros Hlen; try lia.
  { tauto. }
  destruct (Z.lt_trichotomy (key x) (key y)) as [?|[E|?]]; [tauto| |tauto].
  apply (inj key) in E as <-.
  destruct (IH m) as [?|[->|?]]; [lia| | |]; auto 10.
Qed.

(** An ascending list is the least of its permutations, a descending one
    the greatest. *)
Lemma ascending_least l m : ascending l -> m ≡ₚ l -> ~ lex m l.
Proof.
  intros Hl. revert m. induction Hl as [|a l Hl IH Ha]; intros [|b m] Hp; simpl; try tauto.
  intros [Hlt|[E Hlex]].
  - assert (b ∈ a :: l) as [->|Hb]%elem_of_cons
      by (rewrite <- Hp; left); [lia|].
    rewrite Forall_forall in Ha. specialize (Ha _ Hb). simpl in Ha. lia.
  - apply (inj key) in E as ->. apply (IH m); [|done]. by eapply Permutation_cons_inv.
Qed.

Lemma descending_greatest l m : descending l -> m ≡ₚ l -> ~ lex l m.
Proof.
  intros Hl. revert m. induction Hl as [|a l Hl IH Ha]; intros [|b m] Hp; simpl; try tauto.
  intros [Hlt|[E Hlex]].
  - assert (b ∈ a :: l) as [->|Hb]%elem_of_cons
      by (rewrite <- Hp; left); [lia|].
    rewrite Forall_forall in Ha. specialize (Ha _ Hb). simpl in Ha. lia.
  - apply (inj key) in E as ->. apply (IH m); [|done]. by eapply Permutation_cons_inv.
Qed.

Lemma swap_None x l :
  swap_rightmost_greater x l = None -> Forall (fun y => key y <= key x) l.
Proof.
  induction l as [|y l IH]; simpl; [constructor|].
  destruct (swap_rightmost_greater x l) as [[z l'']|]; [done|].
  destruct (Z.ltb_spec (key x) (key y)); [done|]. intros _.
  constructor; [lia|by apply IH].
Qed.

(** On a descending suffix the exchanged element is the least one greater
    than [x], and the suffix stays descending. *)
Lemma swap_Some x l z l'' :
  descending l -> swap_rightmost_greater x l = Some (z, l'') ->
  z :: l'' ≡ₚ x :: l /\ key x < key z /\ descending l''
  /\ Forall (fun y => key x < key y -> key z <= key y) l
  /\ Forall (fun y => exists y', y' ∈ x :: l /\ key y = key y') l''.
Proof.
  intros Hl. revert z l''. induction Hl as [|y l Hl IH Hy]; intros z l''; simpl; [done|].
  destruct (swap_rightmost_greater x l) as [[z' m]|] eqn:E.
  - intros [= -> <-]. destruct (IH _ _ eq_refl) as (Hp & Hxz & Hm & Hleast & Hsub).
    assert (z ∈ l) as Hz.
    { assert (z ∈ x :: l) as [->|?]%elem_of_cons by (rewrite <- Hp; left); [lia|done]. }
    rewrite Forall_forall in Hy. pose proof (Hy _ Hz) as Hzy. simpl in Hzy.
    split_and!.
    + rewrite (Permutation_swap y z m), Hp. apply Permutation_swap.
    + done.
    + constructor; [done|]. rewrite Forall_forall in Hsub |- *.
      intros w Hw. destruct (Hsub _ Hw) as (w' & [->|Hw']%elem_of_cons & ->); [lia|].
      by apply Hy.
    + constructor; [lia|done].
    + constructor; [exists y; set_solver|].
      eapply Forall_impl; [exact Hsub|]. simpl. intros w (w' & Hw' & ->).
      exists w'. set_solver.
  - apply swap_None in E. destruct (Z.ltb_spec (key x) (key y)); [|done].
    intros [= -> <-]. split_and!.
    + apply Permutation_swap.
    + done.
    + constructor; [done|done].
    + constructor; [lia|]. eapply Forall_impl; [exact E|]. simpl. lia.
    + apply Forall_forall. intros w Hw. exists w. set_solver.
Qed.

Lemma next_None_descending l : next_permutation l = None -> descending l.
Proof.
  induction l as [|x l IH]; simpl; [constructor|].
  destruct (next_permutation l); [done|].
  destruct (swap_rightmost_greater x l) as [[? ?]|] eqn:E; [done|].
  intros _. constructor; [by apply IH|]. by apply swap_None.
Qed.

Lemma next_perm l l' : next_permutation l = Some l' -> l' ≡ₚ l.
Proof.
  revert l'. induction l as [|x l IH]; intros l'; simpl; [done|].
  destruct (next_permutation l) as [t|] eqn:E.
  { intros [= <-]. by rewrite (IH t). }
  apply next_None_descending in E.
  destruct (swap_rightmost_greater x l) as [[z t]|] eqn:E'; [|done].
  intros [= <-]. apply swap_Some in E' as (Hp & _); [|done].
  by rewrite reverse_Permutation.
Qed.

Lemma next_lex l l' : next_permutation l = Some l' -> lex l l'.
Proof.
  revert l'. induction l as [|x l IH]; intros l'; simpl; [done|].
  destruct (next_permutation l) as [t|] eqn:E.
  { intros [= <-]. right. split; [done|by apply IH]. }
  apply next_None_descending in E.
  destruct (swap_rightmost_greater x l) as [[z t]|] eqn:E'; [|done].
  intros [= <-]. apply swap_Some in E' as (_ & Hxz & _); [|done]. by left.
Qed.

(** Nothing lies between a list and its next permutation. *)
Lemma next_immediate l l' m :
  next_permutation l = Some l' -> m ≡ₚ l -> lex l m -> ~ lex m l'.
Proof.
  revert l' m. induction l as [|x l IH]; intros l' m; simpl; [done|].
  destruct m as [|y m]; [done|].
  destruct (next_permutation l) as [t|] eqn:E.
  { intros [= <-] Hp [H1|[H1 H1']] [H2|[H2 H2']]; try lia.
    apply (inj key) in H1 as <-. eapply (IH _ _ eq_refl); [|done|done].
    by eapply Permutation_cons_inv. }
  apply next_None_descending in E.
  destruct (swap_rightmost_greater x l) as [[z t]|] eqn:E'; [|done].
  apply swap_Some in E' as (Hswap & Hxz & Ht & Hleast & _); [|done].
  intros [= <-] Hp Hgt Hlt.
  destruct (decide (key x = key y)) as [E'|Hxy].
  { destruct Hgt as [?|[_ Hgt]]; [lia|]. apply (inj key) in E' as <-.
    eapply (descending_greatest l m); [done| |done]. by eapply Permutation_cons_inv. }
  destruct Hgt as [Hgt|[? _]]; [|done].
  assert (y ∈ l) as Hyl.
  { assert (y ∈ x :: l) as [->|?]%elem_of_cons by (rewrite <- Hp; left); [lia|done]. }
  rewrite Forall_forall in Hleast. specialize (Hleast _ Hyl Hgt).
  destruct Hlt as [?|[E' Hlt]]; [lia|]. apply (inj key) in E' as ->.
  eapply ascending_least; [by apply descending_reverse| |exact Hlt].
  rewrite reverse_Permutation. eapply Permutation_cons_inv. by rewrite Hp, Hswap.
Qed.

(** The walk from [l] visits exactly the greater permutations, each once. *)
Definition above (l0 l : list A) : list (list A) := filter (lex l) (permutations l0).

Lemma above_next l0 l l' :
  l ≡ₚ l0 -> next_permutation l = Some l' -> (length (above l0 l') < length (above l0 l))%nat.
Proof.
  intros Hl Hn. unfold above.
  pose proof (next_lex _ _ Hn) as Hlex.
  assert (l' ∈ permutations l0) as Hin.
  { apply permutations_Permutation. symmetry. etrans; [by apply next_perm|done]. }
  assert (forall ps, (length (filter (lex l') ps) <= length (filter (lex l) ps))%nat
              /\ (l' ∈ ps -> (length (filter (lex l') ps) < length (filter (lex l) ps))%nat))
    as Hgen; [|by apply Hgen].
  induction ps as [|p ps [IH1 IH2]]; [split; [done|by intros ?%not_elem_of_nil]|].
  rewrite !filter_cons.
  destruct (decide (lex l' p)) as [H1|H1], (decide (lex l p)) as [H2|H2]; simpl.
  - split; [lia|]. intros [->|Hp]%elem_of_cons; [by apply lex_irrefl in H1|].
    specialize (IH2 Hp). lia.
  - destruct H2. by eapply lex_trans.
  - split; [lia|]. intros _. lia.
  - split; [lia|]. intros [->|Hp]%elem_of_cons; [done|auto].
Qed.

Lemma iterate_spec l0 fuel l m :
  l ≡ₚ l0 -> (length (above l0 l) < fuel)%nat -> m ≡ₚ l0 ->
  m ∈ iterate_permutation fuel l <-> lex l m.
Proof.
  revert l. induction fuel as [|fuel IH]; intros l Hl Hfuel Hm; [lia|]. simpl.
  destruct (next_permutation l) as [l'|] eqn:E.
  - pose proof (next_perm _ _ E) as Hp. pose proof (next_lex _ _ E) as Hlex.
    pose proof (above_next l0 _ _ Hl E) as Hab.
    rewrite elem_of_cons, IH; [|by etrans|lia|done].
    split; [intros [->|?]; [done|by eapply lex_trans]|]. intros Hlm.
    destruct (lex_total m l') as [H|[?|?]]; [|exfalso|tauto|tauto].
    { apply Permutation_length. by rewrite Hm, Hp. }
    eapply next_immediate; [exact E| |exact Hlm|exact H]. by rewrite Hm.
  - split; [by intros ?%not_elem_of_nil|]. intros Hlm. exfalso.
    eapply descending_greatest; [by apply next_None_descending| |exact Hlm].
    by rewrite Hm.
Qed.

Lemma iterate_greater fuel l m : m ∈ iterate_permutation fuel l -> lex l m /\ m ≡ₚ l.
Proof.
  revert l. induction fuel as [|fuel IH]; intros l; simpl; [by intros ?%not_elem_of_nil|].
  destruct (next_permutation l) as [l'|] eqn:E; [|by intros ?%not_elem_of_nil].
  pose proof (next_perm _ _ E) as Hp. pose proof (next_lex _ _ E) as Hlex.
  intros [->|Hm]%elem_of_cons; [done|].
  apply IH in Hm as [? ?]. split; [by eapply lex_trans|by etrans].
Qed.

Lemma iterate_nodup fuel l : NoDup (iterate_permutation fuel l).
Proof.
  revert l. induction fuel as [|fuel IH]; intros l; simpl; [constructor|].
  destruct (next_permutation l) as [l'|] eqn:E; constructor; [|done].
  intros Hin. apply iterate_greater in Hin as [Hlex _]. by apply lex_irrefl in Hlex.
Qed.
End Permutations.

(** [std::prev_permutation] is [std::next_permutation] for the reversed
    comparison. *)
Definition prev_permutation {A} (key : A -> Z) (l : list A) : option (list A) :=
  next_permutation (fun a => - key a) l.

(** The lists [while (prev_permutation(l)) out.push_back(l);] pushes. *)
Definition iterate_prev_permutation {A} (key : A -> Z) (fuel : nat) (l : list A)
  : list (list A) := iterate_permutation (fun a => - key a) fuel l.

#[global] Instance neg_key_inj {A} (key : A -> Z) `{!Inj (=) (=) key} :
  Inj (=) (=) (fun a => - key a).
Proof. intros a b H. apply (inj key). lia. Qed.

Lemma lex_flip {A} (key : A -> Z) (l m : list A) :
  lex (fun a => - key a) l m <-> lex key m l.
Proof.
  revert m. induction l as [|x l IH]; intros [|y m]; simpl; try done.
  rewrite IH. split; (intros [?|[? ?]]; [left; lia|right; split; [lia|done]]).
Qed.

Lemma length_above {A} (key : A -> Z) (l : list A) :
  (length (above key l l) < length (permutations l))%nat.
Proof.
  unfold above. assert (l ∈ permutations l) as Hin by by apply permutations_Permutation.
  pose proof (lex_irrefl key l) as Hirr. revert Hin. generalize (permutations l) as ps.
  induction ps as [|p ps IH]; [by intros ?%not_elem_of_nil|]. rewrite filter_cons.
  intros [<-|Hp]%elem_of_cons; destruct (decide (lex key l _)) as [H|H]; simpl; try done.
  - pose proof (length_filter (lex key l) ps). lia.
  - specialize (IH Hp). lia.
  - specialize (IH Hp). lia.
Qed.
