(* ===== verification/ReservationHandler.v ===== *)
(** * Reservations of the Auth module

    [modules/EVSE/Auth/lib/ReservationHandler.cpp]: reservations for one EVSE
    and "global" reservations for any EVSE with a connector type, the check
    that all of them can still be honoured, their timers, and the statuses
    sent to the EVSEs.  The handler holds a reference to the EVSEs of
    [AuthHandler] and only reads them: they are the parameter [evses].
    The clock of the rfc3339 strings is a parameter. *)
From S2P Require Import Prelude AuthTypes Connector StdAlgorithm.
From stdpp Require Import base tactics list numbers strings sorting sets.
Open Scope Z_scope.
Open Scope everest_scope.

(** A running [SteadyTimer]: when it fires, and the [evse_id] its callback
    captured (used for logging only). *)
Record ReservationTimer := mkReservationTimer {
  fires_at : Z;
  t_evse_id : option Z;
}.

(** The members of [ReservationHandler].  [has_store] is [store != nullptr]. *)
Record rh_state := mkRh {
  evse_reservations : list (Z * Reservation);
  global_reservations : list Reservation;
  reservation_timers : list (Z * ReservationTimer);
  last_reserved_status : list Z;
  has_store : bool;
}.

Definition set_evse_reservations (x : list (Z * Reservation)) (s : rh_state) : rh_state :=
  mkRh x (global_reservations s) (reservation_timers s) (last_reserved_status s) (has_store s).
Definition set_global_reservations (x : list Reservation) (s : rh_state) : rh_state :=
  mkRh (evse_reservations s) x (reservation_timers s) (last_reserved_status s) (has_store s).
Definition set_reservation_timers (x : list (Z * ReservationTimer)) (s : rh_state) : rh_state :=
  mkRh (evse_reservations s) (global_reservations s) x (last_reserved_status s) (has_store s).
Definition set_last_reserved_status (x : list Z) (s : rh_state) : rh_state :=
  mkRh (evse_reservations s) (global_reservations s) (reservation_timers s) x (has_store s).

(** The constructor. *)
Definition new_ReservationHandler (store : bool) : rh_state := mkRh [] [] [] [] store.

Abbreviation RH := (Eff rh_state auth_output auth_exn).

Definition connector_type_or_unknown (r : Reservation) : ConnectorTypeEnum.t :=
  default ConnectorTypeEnum.Unknown (r_connector_type r).

(** A connector fits a requested type when one of them is unknown or they are
    the same. *)
Definition connector_type_matches (a b : ConnectorTypeEnum.t) : bool :=
  ConnectorTypeEnum.eqb a b || ConnectorTypeEnum.eqb a ConnectorTypeEnum.Unknown
  || ConnectorTypeEnum.eqb b ConnectorTypeEnum.Unknown.

Definition connector_state_to_reservation_result (s : ConnectorState.t) : ReservationResult.t :=
  match s with
  | ConnectorState.AVAILABLE => ReservationResult.Accepted
  | ConnectorState.UNAVAILABLE => ReservationResult.Unavailable
  | ConnectorState.FAULTED | ConnectorState.UNAVAILABLE_FAULTED
  | ConnectorState.FAULTED_OCCUPIED => ReservationResult.Faulted
  | ConnectorState.OCCUPIED => ReservationResult.Occupied
  end.

Definition is_accepted (r : ReservationResult.t) : bool :=
  bool_decide (r = ReservationResult.Accepted).

(** [get_new_connector_state]: the "more important" of two states. *)
Definition get_new_connector_state (current_state new_state : ConnectorState.t)
  : ConnectorState.t :=
  if ConnectorState.eqb new_state ConnectorState.OCCUPIED then ConnectorState.OCCUPIED
  else if ConnectorState.gtb new_state current_state then
    if ConnectorState.gtb new_state ConnectorState.OCCUPIED then
      if ConnectorState.eqb new_state ConnectorState.FAULTED_OCCUPIED
      then ConnectorState.OCCUPIED
      else if ConnectorState.eqb new_state ConnectorState.UNAVAILABLE_FAULTED then
        if negb (ConnectorState.eqb current_state ConnectorState.OCCUPIED)
        then ConnectorState.FAULTED else current_state
      else current_state
    else new_state
  else current_state.

Definition has_evse_connector_type (evse_connectors : list Connector)
    (connector_type : ConnectorTypeEnum.t) : bool :=
  if ConnectorTypeEnum.eqb connector_type ConnectorTypeEnum.Unknown then true
  else existsb (fun c =>
    ConnectorTypeEnum.eqb (c_type c) ConnectorTypeEnum.Unknown
    || ConnectorTypeEnum.eqb (c_type c) connector_type) evse_connectors.

(** [get_all_possible_orders]: the walks upwards and downwards from the given
    order.  The number of permutations bounds the length of both. *)
Definition get_all_possible_orders (cs : list ConnectorTypeEnum.t)
  : list (list ConnectorTypeEnum.t) :=
  match cs with
  | [] => []
  | _ =>
      let fuel := length (permutations cs) in
      cs :: iterate_permutation ConnectorTypeEnum.to_Z fuel cs
      ++ iterate_prev_permutation ConnectorTypeEnum.to_Z fuel cs
  end.

Section WithEvses.
Context (evses : list (Z * EVSEContext)).

Definition does_evse_connector_type_exist (connector_type : ConnectorTypeEnum.t) : bool :=
  existsb (fun e => has_evse_connector_type (connectors e.2) connector_type) evses.

Definition get_evse_connector_state_reservation_result (evse_id : Z)
    (evse_specific_reservations : list (Z * Reservation)) : ReservationResult.t :=
  match StdMap.find (i32 evse_id) evses with
  | None => ReservationResult.Rejected
  | Some evse =>
      if plugged_in evse
      then connector_state_to_reservation_result ConnectorState.OCCUPIED
      else match List.find (fun c => is_occupied_state (c_state c)) (connectors evse) with
      | Some c => connector_state_to_reservation_result (c_state c)
      | None =>
          if StdMap.count evse_id evse_specific_reservations
          then ReservationResult.Occupied else ReservationResult.Accepted
      end
  end.

(** The loop over the connectors of [get_connector_availability_reservation_result]. *)
Fixpoint connector_availability_loop (connector_type : ConnectorTypeEnum.t)
    (cs : list Connector) (connector_state : ConnectorState.t) : ReservationResult.t :=
  match cs with
  | [] => connector_state_to_reservation_result connector_state
  | c :: cs' =>
      if connector_type_matches (c_type c) connector_type then
        if ConnectorState.eqb (c_state c) ConnectorState.AVAILABLE
        then ReservationResult.Accepted
        else connector_availability_loop connector_type cs'
               (get_new_connector_state connector_state (c_state c))
      else connector_availability_loop connector_type cs' connector_state
  end.

Definition get_connector_availability_reservation_result (evse_id : Z)
    (connector_type : ConnectorTypeEnum.t) : ReservationResult.t :=
  match StdMap.find (i32 evse_id) evses with
  | None => ReservationResult.Rejected
  | Some evse =>
      connector_availability_loop connector_type (connectors evse) ConnectorState.UNAVAILABLE
  end.

(** Whether a car with [car] may go to an EVSE, by the three conditions of
    [can_virtual_car_arrive]. *)
Definition can_use (evse_specific_reservations : list (Z * Reservation))
    (evse_id : Z) (evse : EVSEContext) (car : ConnectorTypeEnum.t) : bool :=
  is_accepted (get_evse_connector_state_reservation_result evse_id evse_specific_reservations)
  && has_evse_connector_type (connectors evse) car
  && is_accepted (get_connector_availability_reservation_result evse_id car).

(** The loop of [can_virtual_car_arrive] over the EVSEs.  [next_level] is
    the recursive call for the cars after [car], [None] when [car] is the
    last one. *)
Fixpoint arrival_loop (evse_specific_reservations : list (Z * Reservation))
    (used_evse_ids : list Z) (car : ConnectorTypeEnum.t)
    (next_level : option (list Z -> bool)) (es : list (Z * EVSEContext))
    (is_possible : bool) : bool :=
  match es with
  | [] => is_possible
  | (evse_id, evse) :: es' =>
      let continue :=
        arrival_loop evse_specific_reservations used_evse_ids car next_level es' in
      if StdSet.mem (u32 evse_id) used_evse_ids then continue is_possible
      else if can_use evse_specific_reservations (u32 evse_id) evse car then
        match next_level with
        | None => true
        | Some next => if next (used_evse_ids ++ [u32 evse_id]) then continue true else false
        end
      else continue is_possible
  end.

(** [can_virtual_car_arrive] for the order [car :: rest]. *)
Fixpoint virtual_cars_arrive (evse_specific_reservations : list (Z * Reservation))
    (used_evse_ids : list Z) (car : ConnectorTypeEnum.t) (rest : list ConnectorTypeEnum.t)
    : bool :=
  arrival_loop evse_specific_reservations used_evse_ids car
    (match rest with
     | [] => None
     | next_car :: rest' =>
         Some (fun next_used_evse_ids =>
           virtual_cars_arrive evse_specific_reservations next_used_evse_ids next_car rest')
     end) evses false.

(** On an empty order the source's [at(0)] throws; it is never called so,
    since [get_all_possible_orders] yields no empty order. *)
Definition can_virtual_car_arrive (used_evse_ids : list Z)
    (next_car_arrival_order : list ConnectorTypeEnum.t)
    (evse_specific_reservations : list (Z * Reservation)) : bool :=
  match next_car_arrival_order with
  | [] => false
  | car :: rest => virtual_cars_arrive evse_specific_reservations used_evse_ids car rest
  end.

Definition is_reservation_possible (global_reservation_type : option ConnectorTypeEnum.t)
    (reservations_no_evse : list Reservation)
    (evse_specific_reservations : list (Z * Reservation)) : bool :=
  let types := map connector_type_or_unknown reservations_no_evse
               ++ option_list global_reservation_type in
  if (length evses <? length types + length evse_specific_reservations)%nat then false
  else forallb (fun o => can_virtual_car_arrive [] o evse_specific_reservations)
         (get_all_possible_orders types).

Definition get_all_evses_with_connector_type (connector_type : ConnectorTypeEnum.t)
  : list EVSEContext :=
  map snd (List.filter (fun e => has_evse_connector_type (connectors e.2) connector_type) evses).

Definition get_reservation_evse_connector_state (connector_type : ConnectorTypeEnum.t)
    (s : rh_state) : ReservationResult.t :=
  match global_reservations s, evse_reservations s with
  | [], [] =>
      if existsb (fun e => plugged_in e.2) evses
      then connector_state_to_reservation_result
             (get_new_connector_state ConnectorState.UNAVAILABLE ConnectorState.OCCUPIED)
      else
        match get_all_evses_with_connector_type connector_type with
        | [] => ReservationResult.Rejected
        | evses_with_connector_type =>
            connector_state_to_reservation_result
              (foldl (fun state c =>
                 if negb (connector_type_matches (c_type c) connector_type) then state
                 else if negb (ConnectorState.eqb (c_state c) ConnectorState.AVAILABLE)
                 then get_new_connector_state state (c_state c) else state)
               ConnectorState.UNAVAILABLE
               (concat (map connectors evses_with_connector_type)))
        end
  | _, _ => ReservationResult.Occupied
  end.

Definition is_charging_possible (evse_id : Z) (s : rh_state) : bool :=
  if StdMap.count evse_id (evse_reservations s) then false
  else if negb (StdMap.count (i32 evse_id) evses) then false
  else is_reservation_possible None (global_reservations s)
         (StdMap.insert evse_id Reservation_default (evse_reservations s)).

Definition is_evse_reserved (evse_id : Z) (s : rh_state) : bool :=
  StdMap.count evse_id (evse_reservations s).

(** The token comparison both searches of [matches_reserved_identifier] use. *)
Definition reservation_matches (id_token : string) (parent_id_token : option string)
    (r : Reservation) : bool :=
  Helpers.is_equal_case_insensitive (r_id_token r) id_token
  || match parent_id_token, r_parent_id_token r with
     | Some p, Some p' => Helpers.is_equal_case_insensitive p p'
     | _, _ => false
     end.

Definition matches_reserved_identifier (id_token : string) (evse_id : option Z)
    (parent_id_token : option string) (s : rh_state) : option Z :=
  let search_global :=
    reservation_id <$>
      List.find (reservation_matches id_token parent_id_token) (global_reservations s) in
  match evse_id with
  | Some evse =>
      match StdMap.find evse (evse_reservations s) with
      | Some r =>
          if reservation_matches id_token parent_id_token r
          then Some (reservation_id r) else None
      | None => search_global
      end
  | None => search_global
  end.

Definition has_reservation_parent_id (evse_id : option Z) (s : rh_state) : bool :=
  let any_global := existsb (fun r => bool_decide (is_Some (r_parent_id_token r)))
                      (global_reservations s) in
  match evse_id with
  | Some evse =>
      if negb (StdMap.count (i32 evse) evses) then false
      else match StdMap.find evse (evse_reservations s) with
      | Some r => bool_decide (is_Some (r_parent_id_token r))
      | None => any_global
      end
  | None => any_global
  end.

(** [store_reservations]: EVSE reservations first, and no call when there is
    nothing to store. *)
Definition store_reservations : RH unit :=
  let* s := eget in
  if negb (has_store s) then eret tt
  else
    let reservations :=
      map (fun e => (Some e.1, e.2)) (evse_reservations s)
      ++ map (fun r => (None, r)) (global_reservations s) in
    match reservations with
    | [] => eret tt
    | _ => eemit (call_store reservations)
    end.

(** ** Statuses sent to the EVSEs *)

Record ReservationEvseStatus := mkReservationEvseStatus {
  reserved : list Z;
  available : list Z;
}.

Definition get_evse_global_reserved_status_and_set_new_status
    (currently_available_evses reserved_evses : list Z) : RH ReservationEvseStatus :=
  let* s := eget in
  let was_reserved e := StdSet.mem e (last_reserved_status s) in
  let status :=
    mkReservationEvseStatus
      (List.filter (fun e => negb (was_reserved e)) reserved_evses)
      (List.filter (fun e => negb (StdSet.mem e reserved_evses) && was_reserved e)
         currently_available_evses) in
  emodify (set_last_reserved_status reserved_evses) ;;;
  eret status.

(** The EVSEs that are neither reserved nor in use. *)
Definition available_evses (s : rh_state) : list Z :=
  map fst (List.filter (fun e =>
    is_accepted (get_evse_connector_state_reservation_result (u32 e.1) (evse_reservations s))
    && is_accepted (get_connector_availability_reservation_result (u32 e.1)
                      ConnectorTypeEnum.Unknown)) evses).

Definition check_number_global_reservations_match_number_available_evses
  : RH ReservationEvseStatus :=
  let* s := eget in
  let avail := available_evses s in
  if (length avail =? length (global_reservations s))%nat
  then get_evse_global_reserved_status_and_set_new_status avail avail
  else
    let reserved_evses_with_specific_connector_type :=
      foldl (fun acc r =>
        if negb (is_reservation_possible (r_connector_type r) (global_reservations s)
                   (evse_reservations s))
        then foldl (fun acc e =>
               if StdSet.mem e.1 avail
                  && has_evse_connector_type (connectors e.2) (connector_type_or_unknown r)
               then StdSet.insert e.1 acc else acc) acc evses
        else acc) [] (global_reservations s) in
    get_evse_global_reserved_status_and_set_new_status avail
      reserved_evses_with_specific_connector_type.

(** ** Cancelling and making reservations *)

(** The registered [reservation_cancelled_callback], [None] when none is. *)
Context (cancelled_callback :
  option (option Z -> Z -> ReservationEndReason.t -> bool -> RH unit)).

(** The last EVSE reservation in map order with the given id. *)
Definition find_evse_of_reservation (id : Z) (m : list (Z * Reservation)) : option Z :=
  foldl (fun acc e => if reservation_id e.2 =? id then Some e.1 else acc) None m.

(** [std::find_if] and [erase] on the global reservations. *)
Fixpoint erase_first_reservation (id : Z) (l : list Reservation) : list Reservation :=
  match l with
  | [] => []
  | r :: l' => if reservation_id r =? id then l' else r :: erase_first_reservation id l'
  end.

Definition cancel_reservation (id : Z) (execute_callback : bool)
    (why : ReservationEndReason.t) : RH (bool * option Z) :=
  let* s := eget in
  if negb (StdMap.count id (reservation_timers s)) then eret (false, None)
  else
    emodify (set_reservation_timers (StdMap.erase id (reservation_timers s))) ;;;
    let evse_id := find_evse_of_reservation id (evse_reservations s) in
    match evse_id with
    | Some e => emodify (set_evse_reservations (StdMap.erase e (evse_reservations s)))
    | None =>
        emodify (set_global_reservations (erase_first_reservation id (global_reservations s)))
    end ;;;
    store_reservations ;;;
    match execute_callback, cancelled_callback with
    | true, Some callback => callback evse_id id why execute_callback
    | _, _ => eret tt
    end ;;;
    eret (true, evse_id).

(** The overload that takes an EVSE id. *)
Definition cancel_reservation_evse (evse_id : Z) (execute_callback : bool) : RH bool :=
  let* s := eget in
  match StdMap.find evse_id (evse_reservations s) with
  | Some r =>
      let* c := cancel_reservation (reservation_id r) execute_callback
                  ReservationEndReason.Cancelled in
      eret c.1
  | None => eret false
  end.

Definition on_reservation_used (id : Z) : RH unit :=
  cancel_reservation id false ReservationEndReason.UsedToStartCharging ;;; eret tt.

(** The clock: [date::utc_clock::now()] and [Everest::Date::from_rfc3339]. *)
Context (from_rfc3339 : string -> Z).

Definition set_reservation_timer (r : Reservation) (evse_id : option Z) : RH unit :=
  let* s := eget in
  emodify (set_reservation_timers
    (StdMap.insert (reservation_id r)
       (mkReservationTimer (from_rfc3339 (expiry_time r)) evse_id) (reservation_timers s))).

(** The branch of [make_reservation] for a given EVSE; [inl] is an early
    return, [inr] goes on to the end of the function. *)
Definition make_evse_reservation (evse_id : Z) (r : Reservation)
  : RH (ReservationResult.t + unit) :=
  let* s := eget in
  if StdMap.count evse_id (evse_reservations s) then eret (inl ReservationResult.Occupied)
  else match StdMap.find (i32 evse_id) evses with
  | None => eret (inl ReservationResult.Rejected)
  | Some evse =>
      let connector_type := connector_type_or_unknown r in
      let evse_state :=
        get_evse_connector_state_reservation_result evse_id (evse_reservations s) in
      let connector_state :=
        get_connector_availability_reservation_result evse_id connector_type in
      if negb (has_evse_connector_type (connectors evse) connector_type)
      then eret (inl ReservationResult.Rejected)
      else if negb (is_accepted evse_state) then eret (inl evse_state)
      else if negb (is_accepted connector_state) then eret (inl connector_state)
      else
        match global_reservations s with
        | [] =>
            set_reservation_timer r (Some evse_id) ;;;
            emodify (set_evse_reservations (StdMap.insert evse_id r (evse_reservations s))) ;;;
            eret (inl ReservationResult.Accepted)
        | _ =>
            let evse_specific_reservations := StdMap.insert evse_id r (evse_reservations s) in
            if negb (is_reservation_possible None (global_reservations s)
                       evse_specific_reservations)
            then eret (inl (get_reservation_evse_connector_state connector_type s))
            else
              emodify (set_evse_reservations evse_specific_reservations) ;;;
              eret (inr tt)
        end
  end.

(** The branch of [make_reservation] without an EVSE. *)
Definition make_global_reservation (r : Reservation) : RH (ReservationResult.t + unit) :=
  let* s := eget in
  if match r_connector_type r with
     | Some ct => negb (does_evse_connector_type_exist ct)
     | None => false
     end
  then eret (inl ReservationResult.Rejected)
  else
    let connector_type := connector_type_or_unknown r in
    if negb (is_reservation_possible (Some connector_type) (global_reservations s)
               (evse_reservations s))
    then eret (inl (get_reservation_evse_connector_state connector_type s))
    else
      emodify (set_global_reservations (global_reservations s ++ [r])) ;;;
      store_reservations ;;;
      eret (inr tt).

Definition make_reservation (now : Z) (evse_id : option Z) (r : Reservation)
  : RH ReservationResult.t :=
  if from_rfc3339 (expiry_time r) <? now then eret ReservationResult.Rejected
  else
    cancel_reservation (reservation_id r) false ReservationEndReason.Cancelled ;;;
    let* outcome := match evse_id with
                    | Some e => make_evse_reservation e r
                    | None => make_global_reservation r
                    end in
    match outcome with
    | inl result => eret result
    | inr _ => set_reservation_timer r evse_id ;;; eret ReservationResult.Accepted
    end.

(** The timer of a reservation fires. *)
Definition on_reservation_expired (id : Z) : RH unit :=
  cancel_reservation id true ReservationEndReason.Expired ;;; eret tt.

(** The two loops of [check_reservations_and_cancel_if_not_possible]: the
    reservations that are kept, and the ids to cancel. *)
Fixpoint split_evse_reservations (todo kept : list (Z * Reservation)) (to_cancel : list Z)
  : list (Z * Reservation) * list Z :=
  match todo with
  | [] => (kept, to_cancel)
  | (evse_id, r) :: todo' =>
      let candidate := StdMap.insert evse_id r kept in
      if is_reservation_possible None [] candidate
      then split_evse_reservations todo' candidate to_cancel
      else split_evse_reservations todo' (StdMap.erase evse_id candidate)
             (to_cancel ++ [reservation_id r])
  end.

Fixpoint split_global_reservations (evse_specific_reservations : list (Z * Reservation))
    (todo kept : list Reservation) (to_cancel : list Z) : list Reservation * list Z :=
  match todo with
  | [] => (kept, to_cancel)
  | r :: todo' =>
      if is_reservation_possible (r_connector_type r) kept evse_specific_reservations
      then split_global_reservations evse_specific_reservations todo' (kept ++ [r]) to_cancel
      else split_global_reservations evse_specific_reservations todo' kept
             (to_cancel ++ [reservation_id r])
  end.

Definition reservations_to_cancel (s : rh_state) : list Z :=
  let '(evse_specific_reservations, to_cancel) :=
    split_evse_reservations (evse_reservations s) [] [] in
  (split_global_reservations evse_specific_reservations (global_reservations s) [] to_cancel).2.

Definition check_reservations_and_cancel_if_not_possible : RH unit :=
  let* s := eget in
  efor (reservations_to_cancel s) (fun id =>
    cancel_reservation id true ReservationEndReason.Cancelled ;;; eret tt).

Definition on_connector_state_changed (connector_state : ConnectorState.t)
    (evse_id connector_id : Z) : RH unit :=
  let* s := eget in
  if ConnectorState.eqb connector_state ConnectorState.AVAILABLE then eret tt
  else match StdMap.find (i32 evse_id) evses with
  | None => eret tt
  | Some evse =>
      match List.find (fun c => connector_id =? u32 (c_id c)) (connectors evse) with
      | None => eret tt
      | Some c =>
          match StdMap.find evse_id (evse_reservations s) with
          | Some r =>
              match r_connector_type r with
              | Some ct =>
                  if connector_type_matches (c_type c) ct
                  then cancel_reservation (reservation_id r) true
                         ReservationEndReason.Cancelled ;;; eret tt
                  else check_reservations_and_cancel_if_not_possible
              | None => check_reservations_and_cancel_if_not_possible
              end
          | None => check_reservations_and_cancel_if_not_possible
          end
      end
  end.

(** [load_reservations]: [stored] is what [call_load] returned, [None] when
    it is not an array; an element without a readable reservation is
    skipped. *)
Definition load_reservations (now : Z)
    (stored : option (list (option Z * option Reservation))) : RH unit :=
  let* s := eget in
  if negb (has_store s) then eret tt
  else match stored with
  | None => eret tt
  | Some entries =>
      efor entries (fun entry =>
        match entry.2 with
        | None => eret tt
        | Some r =>
            let* reservation_result := make_reservation now entry.1 r in
            if is_accepted reservation_result then eret tt
            else match cancelled_callback with
                 | Some callback =>
                     callback entry.1 (reservation_id r) ReservationEndReason.Cancelled true
                 | None => ethrow bad_function_call
                 end
        end)
  end.
End WithEvses.
