(* ===== verification/ReservationArrival.v ===== *)
(** * When a reservation is possible

    The specification of [ReservationHandler::is_reservation_possible] as a
    transition system: the cars of the global reservations arrive one after
    the other, in any order, and each takes any free EVSE it can use.  A
    reservation is possible when no reachable situation leaves a car without
    an EVSE.  The handler's search over all orders and all choices decides
    exactly that ([is_reservation_possible_spec]), and the specification is
    monotone: dropping a reservation never makes the others impossible. *)
From S2P Require Import Prelude AuthTypes Connector StdAlgorithm ReservationHandler.
From stdpp Require Import base tactics list numbers strings sorting sets relations.
Open Scope Z_scope.

(** ** All orders of arrival *)

Lemma orders_perm cs o :
  cs <> [] -> o ∈ get_all_possible_orders cs <-> o ≡ₚ cs.
Proof.
  intros Hne. destruct cs as [|c cs]; [done|]. unfold get_all_possible_orders.
  set (l := c :: cs). set (key := ConnectorTypeEnum.to_Z).
  assert (Inj (=) (=) key) as Hkey by apply _.
  rewrite elem_of_cons, elem_of_app. unfold iterate_prev_permutation.
  split.
  - intros [->|[H|H]]; [done|..].
    + apply (iterate_greater key) in H as [_ ?]. done.
    + apply (iterate_greater (fun a => - key a)) in H as [_ ?]. done.
  - intros Hp.
    rewrite (iterate_spec key l), (iterate_spec (fun a => - key a) l), lex_flip;
      [|done|apply length_above|done|done|apply length_above|done].
    destruct (lex_total key o l) as [?|[?|?]]; [|tauto..].
    by apply Permutation_length.
Qed.

Lemma orders_nodup cs : NoDup (get_all_possible_orders cs).
Proof.
  destruct cs as [|c cs]; [constructor|]. unfold get_all_possible_orders, iterate_prev_permutation.
  set (l := c :: cs). set (key := ConnectorTypeEnum.to_Z).
  assert (Inj (=) (=) key) as Hkey by apply _.
  apply NoDup_cons. split.
  - rewrite elem_of_app. intros [H|H].
    + destruct (iterate_greater key _ _ _ H) as [Hx _]. by apply lex_irrefl in Hx.
    + destruct (iterate_greater _ _ _ _ H) as [Hx _]. by apply lex_irrefl in Hx.
  - apply NoDup_app. split_and!; [by apply iterate_nodup| |apply (iterate_nodup (fun a => - key a))].
    intros o H1 H2. destruct (iterate_greater key _ _ _ H1) as [Hx _].
    destruct (iterate_greater _ _ _ _ H2) as [Hy _]. apply (lex_flip key) in Hy.
    exact (lex_irrefl key l (lex_trans key _ _ _ Hx Hy)).
Qed.

(** ** The arrival of cars as a transition system *)
Section Arrival.
Context (evses : list (Z * EVSEContext)).
Implicit Types (res : list (Z * Reservation)) (used : list Z)
  (cars : list ConnectorTypeEnum.t).

(** An EVSE that no other car took and that [car] can use. *)
Definition usable res used (car : ConnectorTypeEnum.t) (id : Z) : Prop :=
  exists evse_id evse, (evse_id, evse) ∈ evses /\ id = u32 evse_id
    /\ (id ∉ used) /\ can_use evses res id evse car = true.

(** A car that still has to come arrives at a usable EVSE. *)
Inductive arrival res : list Z * list ConnectorTypeEnum.t ->
    list Z * list ConnectorTypeEnum.t -> Prop :=
| arrive used cars1 car cars2 id :
    usable res used car id ->
    arrival res (used, cars1 ++ car :: cars2) (used ++ [id], cars1 ++ cars2).

(** Whatever happened before, a car that arrives finds an EVSE. *)
Definition no_car_turned_away res cars : Prop :=
  forall used rest, rtc (arrival res) ([], cars) (used, rest) ->
  forall car, car ∈ rest -> exists id, usable res used car id.

(** The same for one order of arrival. *)
Fixpoint order_possible res used (order : list ConnectorTypeEnum.t) : Prop :=
  match order with
  | [] => True
  | car :: rest =>
      (exists id, usable res used car id)
      /\ forall id, usable res used car id -> order_possible res (used ++ [id]) rest
  end.

(** An entry of the map that the loop takes for [car]. *)
Definition eligible res used car (p : Z * EVSEContext) : Prop :=
  (u32 p.1 ∉ used) /\ can_use evses res (u32 p.1) p.2 car = true.

Lemma arrival_loop_spec res used car next es b :
  arrival_loop evses res used car next es b = true <->
  (b = true \/ Exists (eligible res used car) es)
  /\ match next with
     | None => True
     | Some f => Forall (fun p => eligible res used car p -> f (used ++ [u32 p.1]) = true) es
     end.
Proof.
  revert b. induction es as [|[i e] es IH]; intros b; simpl.
  { rewrite Exists_nil. destruct next; rewrite ?Forall_nil; tauto. }
  rewrite Exists_cons. unfold eligible at 1; simpl.
  destruct (StdSet.mem (u32 i) used) eqn:Hm.
  { apply StdSet.mem_spec in Hm. rewrite IH.
    destruct next; [rewrite Forall_cons; unfold eligible at 4|]; simpl; tauto. }
  apply StdSet.mem_false in Hm.
  destruct (can_use evses res (u32 i) e car) eqn:Hc.
  - destruct next as [f|]; [|tauto]. rewrite Forall_cons. unfold eligible at 2; simpl.
    destruct (f (used ++ [u32 i])) eqn:Hf; [rewrite IH; tauto|].
    split; [done|]. intros [_ [H _]]. apply H. by split.
  - rewrite IH. destruct next; [rewrite Forall_cons; unfold eligible at 4|]; simpl;
      rewrite ?Hc; intuition congruence.
Qed.

Lemma usable_eligible res used car id :
  usable res used car id <->
  exists p, p ∈ evses /\ id = u32 p.1 /\ eligible res used car p.
Proof.
  unfold usable, eligible. split.
  - intros (i & e & ? & -> & ? & ?). by exists (i, e).
  - intros ([i e] & ? & -> & ? & ?). by exists i, e.
Qed.

Lemma exists_usable res used car :
  Exists (eligible res used car) evses <-> exists id, usable res used car id.
Proof.
  setoid_rewrite usable_eligible. rewrite Exists_exists. split.
  - intros (p & ? & ?). by exists (u32 p.1), p.
  - intros (? & p & ? & -> & ?). by exists p.
Qed.

Lemma virtual_cars_arrive_spec res used car rest :
  virtual_cars_arrive evses res used car rest = true <->
  order_possible res used (car :: rest).
Proof.
  revert used car. induction rest as [|next rest IH]; intros used car;
    cbn [virtual_cars_arrive]; rewrite arrival_loop_spec, exists_usable; cbn [order_possible].
  - split; [|tauto]. by intros [[?|?] _].
  - rewrite Forall_forall. split.
    + intros [[?|H1] H2]; [done|]. split; [done|]. intros id (p & Hp & -> & He)%usable_eligible. apply IH. by apply H2.
    + intros [H1 H2]. split; [by right|].
      intros p Hp He. apply IH, H2, usable_eligible. by exists p.
Qed.

Lemma can_virtual_car_arrive_spec res used order :
  order <> [] ->
  can_virtual_car_arrive evses used order res = true <-> order_possible res used order.
Proof. destruct order; [done|]. intros _. apply virtual_cars_arrive_spec. Qed.

(** A step keeps every remaining order possible. *)
Lemma arrival_orders res used cars used' cars' :
  rtc (arrival res) (used, cars) (used', cars') ->
  (forall order, order ≡ₚ cars -> order_possible res used order) ->
  forall order, order ≡ₚ cars' -> order_possible res used' order.
Proof.
  intros Hrtc. remember (used, cars) as x eqn:Hx. remember (used', cars') as y eqn:Hy.
  revert used cars Hx. induction Hrtc as [x|x y z Hstep Hrtc IH]; intros used cars Hx Hall; subst.
  { by simplify_eq. }
  inversion Hstep as [u c1 car c2 id Hu]; simplify_eq.
  eapply IH; [done..|]. intros order Ho.
  destruct (Hall (car :: order)) as [_ Hnext]; [|by apply Hnext].
  by rewrite Ho, Permutation_middle.
Qed.

Lemma no_car_turned_away_orders res cars :
  no_car_turned_away res cars <->
  forall order, order ≡ₚ cars -> order_possible res [] order.
Proof.
  split.
  - intros Hno. enough (forall order used rest, rtc (arrival res) ([], cars) (used, rest) ->
      order ≡ₚ rest -> order_possible res used order) as H.
    { intros order Ho. by eapply H. }
    induction order as [|car order IH]; intros used rest Hr Ho; simpl; [done|].
    assert (car ∈ rest) as Hin by (rewrite <- Ho; left).
    split; [by eapply Hno|]. intros id Hid.
    apply list_elem_of_split in Hin as (c1 & c2 & ->).
    apply (IH _ (c1 ++ c2)).
    + eapply rtc_r; [exact Hr|]. by constructor.
    + apply (Permutation_cons_inv (a := car)). by rewrite Ho, Permutation_middle.
  - intros Hall used rest Hr car Hin.
    apply list_elem_of_split in Hin as (c1 & c2 & ->).
    destruct (arrival_orders _ _ _ _ _ Hr Hall (car :: c1 ++ c2)) as [? _]; [|done].
    by rewrite Permutation_middle.
Qed.

Lemma possible_orders res cars :
  forallb (fun o => can_virtual_car_arrive evses [] o res) (get_all_possible_orders cars) = true
  <-> no_car_turned_away res cars.
Proof.
  rewrite no_car_turned_away_orders, forallb_forall.
  setoid_rewrite <- list_elem_of_In.
  destruct (decide (cars = [])) as [->|Hne].
  { split; [|by intros _ ? ?%not_elem_of_nil].
    intros _ order ->%Permutation_nil_r. done. }
  setoid_rewrite orders_perm; [|done].
  split; intros H order Ho; specialize (H order Ho);
    (apply can_virtual_car_arrive_spec; [|done]); intros ->;
    by apply Permutation_nil_l in Ho.
Qed.

(** [is_reservation_possible] decides the specification. *)
Lemma is_reservation_possible_iff g globals res :
  is_reservation_possible evses g globals res = true <->
  (length globals + length (option_list g) + length res <= length evses)%nat
  /\ no_car_turned_away res (map connector_type_or_unknown globals ++ option_list g).
Proof.
  unfold is_reservation_possible. rewrite <- possible_orders, length_app, length_map.
  destruct (Nat.ltb_spec (length evses)
    (length globals + length (option_list g) + length res)); naive_solver lia.
Qed.
(** ** Dropping a reservation *)

Lemma order_possible_prefix res used o1 o2 :
  order_possible res used (o1 ++ o2) -> order_possible res used o1.
Proof.
  revert used. induction o1 as [|car o1 IH]; intros used; simpl; [done|].
  intros [? Hall]. split; [done|]. intros id Hid. by apply IH, Hall.
Qed.

(** Without one of the cars the others still find an EVSE. *)
Lemma no_car_turned_away_drop_car res car cars cars' :
  cars ≡ₚ car :: cars' -> no_car_turned_away res cars -> no_car_turned_away res cars'.
Proof.
  intros Hp. rewrite !no_car_turned_away_orders. intros Hall order Ho.
  apply (order_possible_prefix _ _ _ [car]), Hall.
  by rewrite Hp, Ho, <- Permutation_cons_append.
Qed.

(** What [can_use] reads of the EVSE reservations. *)
Lemma can_use_count res res' id evse car :
  StdMap.count id res = StdMap.count id res' ->
  can_use evses res id evse car = can_use evses res' id evse car.
Proof.
  intros Hc. unfold can_use, get_evse_connector_state_reservation_result. by rewrite Hc.
Qed.

Lemma can_use_reserved res id evse car :
  StdMap.count id res = true -> can_use evses res id evse car = false.
Proof.
  intros Hc. unfold can_use, get_evse_connector_state_reservation_result.
  destruct (StdMap.find (i32 id) evses) as [e|]; [|done].
  destruct (plugged_in e); [done|].
  destruct (List.find _ (connectors e)) as [c|] eqn:Hf.
  - apply find_some in Hf as [_ Hf]. by destruct (c_state c).
  - by rewrite Hc.
Qed.

Section DropEvseReservation.
Context (res res' : list (Z * Reservation)) (id0 : Z).
Hypothesis reserved0 : StdMap.count id0 res = true.
Hypothesis dropped0 : forall id, id <> id0 -> StdMap.count id res' = StdMap.count id res.

Lemma usable_dropped used used' car id :
  (forall x, x ∈ used' -> x ∈ used \/ x = id0) ->
  usable res used car id -> usable res' used' car id.
Proof.
  intros Hu (i & e & Hin & -> & Hnu & Hc).
  destruct (decide (u32 i = id0)) as [E|Hne].
  { rewrite can_use_reserved in Hc; [done|]. by rewrite E. }
  exists i, e. split_and!; [done|done| |].
  - intros [?|?]%Hu; done.
  - rewrite <- Hc. by apply can_use_count, dropped0.
Qed.

Lemma usable_before used used' car id :
  (forall x, x ∈ used -> x ∈ used') -> id <> id0 ->
  usable res' used' car id -> usable res used car id.
Proof.
  intros Hu Hne (i & e & Hin & -> & Hnu & Hc). exists i, e. split_and!; [done|done|auto|].
  rewrite <- Hc. symmetry. by apply can_use_count, dropped0.
Qed.

(** After [id0] was taken, the car that took it counts as still to come. *)
Lemma order_possible_taken order used used' extra :
  (forall x, x ∈ used' <-> x ∈ used \/ x = id0) ->
  (forall o, o ≡ₚ extra :: order -> order_possible res used o) ->
  order_possible res' used' order.
Proof.
  revert used used'. induction order as [|car order IH]; intros used used' Hu Hall; [done|].
  pose proof (Hall (car :: extra :: order) (Permutation_swap _ _ _)) as [[id Hid] _].
  split; [exists id; eapply usable_dropped; [|exact Hid]; apply Hu|].
  intros id' Hid'.
  assert (id' <> id0) as Hne.
  { destruct Hid' as (_ & _ & _ & _ & Hn & _). intros ->. apply Hn, Hu. by right. }
  apply (IH (used ++ [id'])).
  - intros x. rewrite !elem_of_app, Hu. tauto.
  - intros o Ho. destruct (Hall (car :: o)) as [_ Hnext].
    { rewrite Ho. apply Permutation_swap. }
    apply Hnext. eapply usable_before; [|done|done]. intros x Hx. apply Hu. by left.
Qed.

Lemma order_possible_dropped order used :
  (forall o, o ≡ₚ order -> order_possible res used o) -> order_possible res' used order.
Proof.
  revert used. induction order as [|car order IH]; intros used Hall; [done|].
  destruct (Hall _ (Permutation_refl _)) as [[id Hid] _].
  split; [exists id; eapply usable_dropped; [|exact Hid]; by left|].
  intros id' Hid'. destruct (decide (id' = id0)) as [->|Hne].
  - apply (order_possible_taken _ used _ car); [|done]. intros x.
    rewrite elem_of_app, list_elem_of_singleton. tauto.
  - apply IH. intros o Ho. destruct (Hall (car :: o)) as [_ Hnext]; [by rewrite Ho|].
    apply Hnext. by eapply usable_before; [| |exact Hid'].
Qed.

(** Freeing a reserved EVSE turns no car away. *)
Lemma no_car_turned_away_drop_evse cars :
  no_car_turned_away res cars -> no_car_turned_away res' cars.
Proof.
  rewrite !no_car_turned_away_orders. intros Hall order Ho.
  apply order_possible_dropped. intros o Ho'. apply Hall. by rewrite Ho'.
Qed.
End DropEvseReservation.
End Arrival.
