(* ===== verification/ReservationProofs.v ===== *)
(** * Correctness of the reservation handler

    The invariant of [ReservationHandler] (every reservation has a running
    timer and a timer has a reservation, ids are unique), what making and
    cancelling a reservation do on every branch, and that the reservations
    the handler holds can always be honoured. *)
From S2P Require Import Prelude AuthTypes Connector StdAlgorithm ReservationHandler.
From S2P Require Import ReservationArrival.
From stdpp Require Import base tactics list numbers strings sorting sets relations.
Open Scope Z_scope.
Open Scope everest_scope.

(** ** The reservations of a state *)

(** Two states with the same reservations, whatever statuses were sent. *)
Definition same_reservations (s s' : rh_state) : Prop :=
  evse_reservations s = evse_reservations s'
  /\ global_reservations s = global_reservations s'
  /\ reservation_timers s = reservation_timers s'
  /\ has_store s = has_store s'.

#[global] Instance same_reservations_equiv : Equivalence same_reservations.
Proof.
  split; unfold same_reservations.
  - done.
  - intros ?? (? & ? & ? & ?). done.
  - intros ??? (? & ? & ? & ?) (? & ? & ? & ?). split_and!; congruence.
Qed.

(** What a callback on cancellation promises: it does not touch the
    reservations. *)
Class KeepsReservations
    (cb : option (option Z -> Z -> ReservationEndReason.t -> bool -> RH unit)) : Prop :=
  keeps_reservations : forall f e id why send s,
    cb = Some f -> same_reservations (run_state (f e id why send) s) s.

#[global] Instance keeps_reservations_none : KeepsReservations None.
Proof. by intros f e id why send s. Qed.

(** The ids of all reservations. *)
Definition ids (s : rh_state) : list Z :=
  map (fun e => reservation_id e.2) (evse_reservations s)
  ++ map reservation_id (global_reservations s).

Record rh_inv (s : rh_state) : Prop := mkRhInv {
  inv_sorted : StdMap.sorted (evse_reservations s);
  inv_nodup : NoDup (ids s);
  inv_timers : forall id, id ∈ StdMap.keys (reservation_timers s) <-> id ∈ ids s;
}.

#[global] Instance ids_proper : Proper (same_reservations ==> eq) ids.
Proof. intros s s' (He & Hg & _). unfold ids. by rewrite He, Hg. Qed.

#[global] Instance rh_inv_proper : Proper (same_reservations ==> iff) rh_inv.
Proof.
  enough (forall s s', same_reservations s s' -> rh_inv s -> rh_inv s') as H.
  { intros s s' Hs. split; apply H; [done|by symmetry]. }
  intros s s' Hs [H1 H2 H3]. pose proof (ids_proper _ _ Hs) as Hids.
  destruct Hs as (He & Hg & Ht & _). split.
  - by rewrite <- He.
  - by rewrite <- Hids.
  - intros id. by rewrite <- Ht, <- Hids.
Qed.

(** ** Removing one reservation *)

(** The state change of [cancel_reservation], timers and reservations. *)
Definition remove_reservation (id : Z) (s : rh_state) : rh_state :=
  let s1 := set_reservation_timers (StdMap.erase id (reservation_timers s)) s in
  match find_evse_of_reservation id (evse_reservations s) with
  | Some e => set_evse_reservations (StdMap.erase e (evse_reservations s)) s1
  | None => set_global_reservations (erase_first_reservation id (global_reservations s)) s1
  end.

Lemma find_evse_acc id m acc :
  foldl (fun acc e => if reservation_id e.2 =? id then Some e.1 else acc) acc m
  = match find_evse_of_reservation id m with Some e => Some e | None => acc end.
Proof.
  unfold find_evse_of_reservation. revert acc.
  induction m as [|[k r] m IH]; intros acc; simpl; [done|].
  rewrite IH. destruct (reservation_id r =? id); [|done].
  rewrite (IH (Some k)). by destruct (foldl _ None m).
Qed.

Lemma find_evse_spec id m :
  match find_evse_of_reservation id m with
  | Some e => exists r, (e, r) ∈ m /\ reservation_id r = id
  | None => Forall (fun p => reservation_id p.2 <> id) m
  end.
Proof.
  induction m as [|[k r] m IH]; [constructor|].
  change (find_evse_of_reservation id ((k, r) :: m)) with
    (foldl (fun acc e => if reservation_id e.2 =? id then Some e.1 else acc)
       (if reservation_id r =? id then Some k else None) m).
  rewrite find_evse_acc. destruct (find_evse_of_reservation id m) as [e|].
  - destruct IH as (r' & ? & ?). exists r'. split; [by right|done].
  - destruct (Z.eqb_spec (reservation_id r) id).
    + exists r. split; [left|done].
    + by constructor.
Qed.

Lemma erase_first_perm id l :
  id ∈ map reservation_id l ->
  exists r, reservation_id r = id /\ l ≡ₚ r :: erase_first_reservation id l.
Proof.
  induction l as [|r l IH]; simpl; [by intros ?%not_elem_of_nil|].
  destruct (Z.eqb_spec (reservation_id r) id) as [<-|Hne]; [by exists r|].
  intros [?|Hin]%elem_of_cons; [congruence|].
  destruct (IH Hin) as (r' & Hr' & Hp). exists r'. split; [done|].
  rewrite Hp at 1. constructor.
Qed.

Section Remove.
Context (s : rh_state) (Hs : rh_inv s) (id : Z).
Hypothesis Hid : id ∈ ids s.

(** Exactly one reservation goes: an EVSE's or a global one. *)
Lemma remove_cases :
  (exists e r, reservation_id r = id
     /\ StdMap.find e (evse_reservations s) = Some r
     /\ find_evse_of_reservation id (evse_reservations s) = Some e
     /\ evse_reservations (remove_reservation id s) = StdMap.erase e (evse_reservations s)
     /\ global_reservations (remove_reservation id s) = global_reservations s)
  \/ (exists r, reservation_id r = id
     /\ find_evse_of_reservation id (evse_reservations s) = None
     /\ global_reservations s ≡ₚ r :: global_reservations (remove_reservation id s)
     /\ evse_reservations (remove_reservation id s) = evse_reservations s).
Proof.
  unfold remove_reservation. pose proof (find_evse_spec id (evse_reservations s)) as Hf.
  destruct (find_evse_of_reservation id (evse_reservations s)) as [e|].
  - left. destruct Hf as (r & Hin & Hr). exists e, r.
    apply StdMap.elem_of_find in Hin; [done|apply Hs].
  - right. destruct (erase_first_perm id (global_reservations s)) as (r & Hr & Hp).
    { unfold ids in Hid. apply elem_of_app in Hid as [Hin|?]; [|done].
      apply list_elem_of_fmap in Hin as (p & -> & Hp). rewrite Forall_forall in Hf.
      by destruct (Hf _ Hp). }
    by exists r.
Qed.

Lemma remove_ids : ids s ≡ₚ id :: ids (remove_reservation id s).
Proof.
  unfold ids. destruct remove_cases as [(e & r & Hr & Hf & _ & -> & ->)|(r & Hr & _ & Hp & ->)].
  - rewrite (StdMap.erase_perm e r (evse_reservations s)) at 1 by (done || apply Hs).
    simpl. by rewrite Hr.
  - rewrite Hp at 1. simpl. rewrite Hr. by rewrite Permutation_middle.
Qed.

Lemma remove_timers :
  reservation_timers (remove_reservation id s) = StdMap.erase id (reservation_timers s).
Proof. unfold remove_reservation. by case_match. Qed.

Lemma remove_inv : rh_inv (remove_reservation id s).
Proof.
  pose proof remove_ids as Hp. pose proof (inv_nodup _ Hs) as Hn. rewrite Hp in Hn.
  apply NoDup_cons in Hn as [Hid' Hn]. split; [|done|].
  - destruct remove_cases as [(e & r & _ & _ & _ & -> & _)|(r & _ & _ & _ & ->)].
    + apply StdMap.sorted_erase, Hs.
    + apply Hs.
  - intros j. rewrite remove_timers, StdMap.elem_of_keys_erase, (inv_timers _ Hs), Hp, elem_of_cons.
    set_solver.
Qed.
End Remove.

(** [cancel_reservation] without its callback. *)
Definition drop_reservation (id : Z) (s : rh_state) : rh_state :=
  if StdMap.count id (reservation_timers s) then remove_reservation id s else s.

Lemma store_state s : run_state store_reservations s = s.
Proof.
  unfold store_reservations, run_state. rewrite run_get_bind.
  destruct (has_store s); simpl; [|done]. by case_match.
Qed.

Lemma store_val s : run_val store_reservations s = Ok tt.
Proof.
  unfold store_reservations, run_val. rewrite run_get_bind.
  destruct (has_store s); simpl; [|done]. by case_match.
Qed.

Lemma store_run s : exists o, store_reservations s = (Ok tt, s, o).
Proof.
  exists (run_out store_reservations s).
  rewrite <- (store_val s) at 1. rewrite <- (store_state s) at 3.
  unfold run_val, run_state, run_out. by destruct (store_reservations s) as [[??]?].
Qed.

Lemma store_out s :
  Forall (fun o => match o with call_store _ => True | _ => False end)
    (run_out store_reservations s).
Proof.
  unfold store_reservations, run_out. rewrite run_get_bind.
  destruct (has_store s); simpl; [|constructor]. case_match; by repeat constructor.
Qed.

Section Cancel.
Context (cb : option (option Z -> Z -> ReservationEndReason.t -> bool -> RH unit)).

Lemma cancel_run_timer id exec why s :
  StdMap.count id (reservation_timers s) = true ->
  cancel_reservation cb id exec why s =
  (store_reservations ;;;
   match exec, cb with
   | true, Some callback =>
       callback (find_evse_of_reservation id (evse_reservations s)) id why exec
   | _, _ => eret tt
   end ;;;
   eret (true, find_evse_of_reservation id (evse_reservations s)))
    (remove_reservation id s).
Proof.
  intros Hc. unfold cancel_reservation, remove_reservation.
  rewrite run_get_bind, Hc. cbn [negb]. rewrite ebind_modify.
  by destruct (find_evse_of_reservation id (evse_reservations s)); rewrite ebind_modify.
Qed.

Lemma cancel_run_no_timer id exec why s :
  StdMap.count id (reservation_timers s) = false ->
  cancel_reservation cb id exec why s = (Ok (false, None), s, []).
Proof. intros Hc. unfold cancel_reservation. by rewrite run_get_bind, Hc. Qed.

(** Without the callback the outcome is exactly the drop. *)
Lemma cancel_silent id why s :
  exists b e o, cancel_reservation cb id false why s = (Ok (b, e), drop_reservation id s, o).
Proof.
  unfold drop_reservation. destruct (StdMap.count id (reservation_timers s)) eqn:Hc.
  - rewrite cancel_run_timer by done. unfold ebind at 1.
    destruct (store_run (remove_reservation id s)) as [o ->]. simpl. eauto.
  - rewrite cancel_run_no_timer by done. eauto.
Qed.

(** Nobody but the store is called then. *)
Lemma cancel_silent_stores id why s :
  Forall (fun o => match o with call_store _ => True | _ => False end)
    (cancel_reservation cb id false why s).2.
Proof.
  destruct (StdMap.count id (reservation_timers s)) eqn:Hc.
  - rewrite cancel_run_timer by done. unfold ebind at 1.
    pose proof (store_out (remove_reservation id s)) as Ho. unfold run_out in Ho.
    destruct (store_run (remove_reservation id s)) as [o Hr]. rewrite Hr in *. simpl.
    by rewrite app_nil_r.
  - rewrite cancel_run_no_timer by done. constructor.
Qed.

Context `{!KeepsReservations cb}.

Lemma cancel_same id exec why s :
  same_reservations (run_state (cancel_reservation cb id exec why) s) (drop_reservation id s).
Proof.
  unfold drop_reservation, run_state. destruct (StdMap.count id (reservation_timers s)) eqn:Hc.
  - rewrite cancel_run_timer by done. unfold ebind at 1.
    destruct (store_run (remove_reservation id s)) as [o ->].
    set (e := find_evse_of_reservation id (evse_reservations s)).
    destruct exec, cb as [f|] eqn:Ecb; try done. unfold ebind.
    pose proof (keeps_reservations f e id why true (remove_reservation id s) eq_refl) as Hk.
    unfold run_state in Hk.
    by destruct (f e id why true (remove_reservation id s)) as [[[]?]?].
  - by rewrite cancel_run_no_timer.
Qed.
End Cancel.

Lemma drop_inv id s : rh_inv s -> rh_inv (drop_reservation id s).
Proof.
  intros Hs. unfold drop_reservation.
  destruct (StdMap.count id (reservation_timers s)) eqn:Hc; [|done].
  apply remove_inv; [done|]. by apply (inv_timers _ Hs), StdMap.count_spec.
Qed.

Lemma drop_not_in id s : rh_inv s -> id ∉ ids (drop_reservation id s).
Proof.
  intros Hs. unfold drop_reservation.
  destruct (StdMap.count id (reservation_timers s)) eqn:Hc.
  - assert (id ∈ ids s) as Hid by by apply (inv_timers _ Hs), StdMap.count_spec.
    pose proof (inv_nodup _ Hs) as Hn. rewrite (remove_ids s Hs id Hid) in Hn.
    by apply NoDup_cons in Hn as [? _].
  - rewrite <- (inv_timers _ Hs), <- StdMap.count_spec, Hc. done.
Qed.

(** ** Making a reservation *)

Lemma new_state_not_available a b :
  b <> ConnectorState.AVAILABLE ->
  a <> ConnectorState.AVAILABLE ->
  get_new_connector_state a b <> ConnectorState.AVAILABLE.
Proof. by destruct a, b. Qed.

Lemma state_result_accepted st :
  connector_state_to_reservation_result st = ReservationResult.Accepted ->
  st = ConnectorState.AVAILABLE.
Proof. by destruct st. Qed.

(** The state reported for a refused reservation is never [Accepted]. *)
Lemma refused_state_not_accepted evses ct s :
  get_reservation_evse_connector_state evses ct s <> ReservationResult.Accepted.
Proof.
  unfold get_reservation_evse_connector_state.
  destruct (global_reservations s), (evse_reservations s); try done.
  case_match; [done|]. case_match; [done|]. intros Hacc%state_result_accepted.
  revert Hacc. generalize (concat (map connectors (e :: l))) as cs. intros cs.
  assert (ConnectorState.UNAVAILABLE <> ConnectorState.AVAILABLE) as Hst by done.
  revert Hst. generalize ConnectorState.UNAVAILABLE as st.
  induction cs as [|c cs IH]; intros st Hst; simpl; [done|]. apply IH.
  destruct (negb (connector_type_matches _ _)); [done|].
  destruct (negb (ConnectorState.eqb (c_state c) ConnectorState.AVAILABLE)) eqn:E; [|done].
  apply new_state_not_available; [|done]. intros Hc. by rewrite Hc in E.
Qed.

Definition add_timer (from_rfc3339 : string -> Z) (r : Reservation) (e : option Z)
    (s : rh_state) : rh_state :=
  set_reservation_timers
    (StdMap.insert (reservation_id r)
       (mkReservationTimer (from_rfc3339 (expiry_time r)) e) (reservation_timers s)) s.

Section Make.
Context (evses : list (Z * EVSEContext)) (from_rfc3339 : string -> Z).
Context (cb : option (option Z -> Z -> ReservationEndReason.t -> bool -> RH unit)).

Lemma set_timer_run r e s :
  set_reservation_timer from_rfc3339 r e s = (Ok tt, add_timer from_rfc3339 r e s, []).
Proof. unfold set_reservation_timer. by rewrite run_get_bind. Qed.

(** The conditions under which the EVSE can be reserved for [r]. *)
Definition evse_reservable (e : Z) (r : Reservation) (s : rh_state) : Prop :=
  StdMap.find e (evse_reservations s) = None
  /\ (exists evse, StdMap.find (i32 e) evses = Some evse
        /\ can_use evses (evse_reservations s) e evse (connector_type_or_unknown r) = true)
  /\ (global_reservations s = []
      \/ is_reservation_possible evses None (global_reservations s)
           (StdMap.insert e r (evse_reservations s)) = true).

Lemma make_evse_run e r s :
  (exists x, make_evse_reservation evses from_rfc3339 e r s = (Ok (inl x), s, [])
     /\ x <> ReservationResult.Accepted)
  \/ (evse_reservable e r s
      /\ let s1 := set_evse_reservations (StdMap.insert e r (evse_reservations s)) s in
         (make_evse_reservation evses from_rfc3339 e r s
            = (Ok (inl ReservationResult.Accepted), add_timer from_rfc3339 r (Some e) s1, [])
          \/ make_evse_reservation evses from_rfc3339 e r s = (Ok (inr tt), s1, []))).
Proof.
  unfold make_evse_reservation, evse_reservable, can_use. rewrite run_get_bind.
  destruct (StdMap.count e (evse_reservations s)) eqn:Hc; [left; by eexists|].
  apply StdMap.count_false in Hc.
  destruct (StdMap.find (i32 e) evses) as [evse|] eqn:Hf; [|left; by eexists].
  destruct (has_evse_connector_type (connectors evse) (connector_type_or_unknown r)) eqn:Ht;
    [|left; by eexists].
  cbn [negb].
  destruct (is_accepted (get_evse_connector_state_reservation_result _ _ _)) eqn:H1; cbn [negb];
    [|left; eexists; split; [done|by apply bool_decide_eq_false in H1]].
  destruct (is_accepted (get_connector_availability_reservation_result _ _ _)) eqn:H2; cbn [negb];
    [|left; eexists; split; [done|by apply bool_decide_eq_false in H2]].
  destruct (global_reservations s) as [|g gs] eqn:Hg.
  - right. split; [split_and!; [done|exists evse; by rewrite Ht|by left]|].
    left. unfold ebind at 1. rewrite set_timer_run. simpl. reflexivity.
  - destruct (is_reservation_possible _ _ _ _) eqn:Hp; cbn [negb].
    + right. split; [split_and!; [done|exists evse; by rewrite Ht|by right]|].
      right. by rewrite ebind_modify.
    + left. eexists. split; [done|]. apply refused_state_not_accepted.
Qed.

Lemma make_global_run r s :
  (exists x, make_global_reservation evses r s = (Ok (inl x), s, [])
     /\ x <> ReservationResult.Accepted)
  \/ (is_reservation_possible evses (Some (connector_type_or_unknown r))
        (global_reservations s) (evse_reservations s) = true
      /\ exists o, make_global_reservation evses r s
           = (Ok (inr tt), set_global_reservations (global_reservations s ++ [r]) s, o)).
Proof.
  unfold make_global_reservation. rewrite run_get_bind.
  destruct (match r_connector_type r with Some _ => _ | None => _ end); [left; by eexists|].
  destruct (is_reservation_possible _ _ _ _) eqn:Hp; cbn [negb].
  - right. split; [done|]. rewrite ebind_modify. unfold ebind.
    destruct (store_run (set_global_reservations (global_reservations s ++ [r]) s)) as [o ->].
    eexists. simpl. reflexivity.
  - left. eexists. split; [done|]. apply refused_state_not_accepted.
Qed.

(** The state with [r] added for an EVSE or globally, timer included. *)
Definition add_reservation (e : option Z) (r : Reservation) (s : rh_state) : rh_state :=
  add_timer from_rfc3339 r e
    (match e with
     | Some i => set_evse_reservations (StdMap.insert i r (evse_reservations s)) s
     | None => set_global_reservations (global_reservations s ++ [r]) s
     end).

(** The condition under which [r] is accepted, once an old reservation with
    its id is gone. *)
Definition reservable (e : option Z) (r : Reservation) (s : rh_state) : Prop :=
  match e with
  | Some i => evse_reservable i r s
  | None => is_reservation_possible evses (Some (connector_type_or_unknown r))
              (global_reservations s) (evse_reservations s) = true
  end.

Lemma make_run now e r s :
  from_rfc3339 (expiry_time r) >= now ->
  let s1 := drop_reservation (reservation_id r) s in
  (exists x o, make_reservation evses cb from_rfc3339 now e r s = (Ok x, s1, o)
     /\ x <> ReservationResult.Accepted)
  \/ (reservable e r s1
      /\ exists o, make_reservation evses cb from_rfc3339 now e r s
           = (Ok ReservationResult.Accepted, add_reservation e r s1, o)).
Proof.
  intros Hexp s1.
  assert (exists o, make_reservation evses cb from_rfc3339 now e r s =
    let '(x, s2, o2) :=
      (let* outcome := match e with
                       | Some i => make_evse_reservation evses from_rfc3339 i r
                       | None => make_global_reservation evses r
                       end in
       match outcome with
       | inl result => eret result
       | inr _ => set_reservation_timer from_rfc3339 r e ;;; eret ReservationResult.Accepted
       end) s1 in (x, s2, o ++ o2)) as [o ->].
  { unfold make_reservation.
    destruct (Z.ltb_spec (from_rfc3339 (expiry_time r)) now); [lia|]. unfold ebind at 1.
    destruct (cancel_silent cb (reservation_id r) ReservationEndReason.Cancelled s)
      as (b & e' & o & ->). by exists o. }
  unfold ebind at 1 3. destruct e as [i|]; simpl.
  - destruct (make_evse_run i r s1) as [(x & -> & Hx)|(Hr & [->| ->])].
    + left. eexists _, _. by split.
    + right. split; [done|]. by eexists.
    + right. split; [done|]. eexists. unfold ebind. by rewrite set_timer_run.
  - destruct (make_global_run r s1) as [(x & -> & Hx)|(Hr & o' & ->)].
    + left. eexists _, _. by split.
    + right. split; [done|]. eexists. unfold ebind. by rewrite set_timer_run.
Qed.

Lemma make_run_expired now e r s :
  from_rfc3339 (expiry_time r) < now ->
  make_reservation evses cb from_rfc3339 now e r s = (Ok ReservationResult.Rejected, s, []).
Proof.
  intros Hexp. unfold make_reservation.
  by destruct (Z.ltb_spec (from_rfc3339 (expiry_time r)) now); [|lia].
Qed.

Lemma add_ids e r s :
  match e with Some i => StdMap.find i (evse_reservations s) = None | None => True end ->
  ids (add_reservation e r s) ≡ₚ reservation_id r :: ids s.
Proof.
  destruct e as [i|]; intros Hf; unfold ids; simpl.
  - by rewrite (StdMap.insert_perm _ _ _ Hf).
  - rewrite map_app, app_assoc. simpl. by rewrite <- Permutation_cons_append.
Qed.

Lemma add_inv e r s :
  rh_inv s -> reservation_id r ∉ ids s -> reservable e r s ->
  rh_inv (add_reservation e r s).
Proof.
  intros Hs Hid Hr.
  assert (match e with Some i => StdMap.find i (evse_reservations s) = None | None => True end)
    as Hf by (destruct e; [apply Hr|done]).
  pose proof (add_ids e r s Hf) as Hp. split.
  - destruct e as [i|]; simpl; [apply StdMap.sorted_insert|]; apply Hs.
  - rewrite Hp. constructor; [done|apply Hs].
  - intros id. rewrite Hp, elem_of_cons, <- (inv_timers _ Hs).
    destruct e; simpl; by rewrite StdMap.elem_of_keys_insert.
Qed.

Lemma make_preserves_inv now e r :
  preserves rh_inv (make_reservation evses cb from_rfc3339 now e r).
Proof.
  intros s Hs. unfold run_state.
  destruct (Z.lt_ge_cases (from_rfc3339 (expiry_time r)) now) as [Hx|Hx].
  { by rewrite make_run_expired. }
  pose proof (drop_inv (reservation_id r) s Hs) as Hd.
  destruct (make_run now e r s) as [(x & o & -> & _)|(Hr & o & ->)]; [lia|done|].
  apply add_inv; [done| |done]. by apply drop_not_in.
Qed.
End Make.

(** ** Every operation keeps the invariant *)

Lemma callback_preserves f `{!KeepsReservations (Some f)} e id why send :
  preserves rh_inv (f e id why send).
Proof. intros s Hs. by rewrite (keeps_reservations (cb := Some f) f e id why send s eq_refl). Qed.

Section Preserved.
Context (evses : list (Z * EVSEContext)) (from_rfc3339 : string -> Z).
Context (cb : option (option Z -> Z -> ReservationEndReason.t -> bool -> RH unit)).
Context `{!KeepsReservations cb}.

Lemma cancel_preserves id exec why : preserves rh_inv (cancel_reservation cb id exec why).
Proof. intros s Hs. rewrite (cancel_same cb). by apply drop_inv. Qed.

Lemma status_same a b s :
  same_reservations (run_state (get_evse_global_reserved_status_and_set_new_status a b) s) s.
Proof. done. Qed.

Lemma check_number_same s :
  same_reservations
    (run_state (check_number_global_reservations_match_number_available_evses evses) s) s.
Proof.
  unfold check_number_global_reservations_match_number_available_evses, run_state.
  rewrite run_get_bind. by case_match.
Qed.

#[local] Hint Resolve cancel_preserves make_preserves_inv : everest.

Lemma check_cancel_preserves :
  preserves rh_inv (check_reservations_and_cancel_if_not_possible evses cb).
Proof. unfold check_reservations_and_cancel_if_not_possible. auto 10 with everest. Qed.

Lemma connector_changed_preserves st e c :
  preserves rh_inv (on_connector_state_changed evses cb st e c).
Proof.
  pose proof check_cancel_preserves. unfold on_connector_state_changed.
  apply preserves_bind; [apply preserves_get|]. intros s.
  repeat case_match; auto 10 with everest.
Qed.

Lemma load_preserves now stored :
  preserves rh_inv (load_reservations evses cb from_rfc3339 now stored).
Proof.
  unfold load_reservations. apply preserves_bind; [apply preserves_get|]. intros s.
  case_match; [auto with everest|]. case_match; [|auto with everest].
  apply preserves_for. intros [e [r|]] _; simpl; [|auto with everest].
  apply preserves_bind; [auto with everest|]. intros x.
  case_match; [auto with everest|]. case_match; [|auto with everest].
  by eapply callback_preserves.
Qed.
End Preserved.

(** ** The reservations can be honoured *)

Lemma i32_inj a b : 0 <= a < 2 ^ 32 -> 0 <= b < 2 ^ 32 -> i32 a = i32 b -> a = b.
Proof.
  unfold swrap. intros Ha Hb H.
  pose proof (Z.div_mod (a + 2 ^ (32 - 1)) (2 ^ 32) ltac:(lia)).
  pose proof (Z.div_mod (b + 2 ^ (32 - 1)) (2 ^ 32) ltac:(lia)).
  pose proof (Z.mod_pos_bound (a + 2 ^ (32 - 1)) (2 ^ 32) ltac:(lia)).
  pose proof (Z.mod_pos_bound (b + 2 ^ (32 - 1)) (2 ^ 32) ltac:(lia)).
  nia.
Qed.

Section Honourable.
Context (evses : list (Z * EVSEContext)).
Hypothesis evses_nodup : NoDup (StdMap.keys evses).

(** The keys of the EVSE reservations are ids of existing EVSEs. *)
Definition known_evses (s : rh_state) : Prop :=
  forall e, e ∈ StdMap.keys (evse_reservations s) ->
  0 <= e < 2 ^ 32 /\ i32 e ∈ StdMap.keys evses.

(** There are enough EVSEs, and no car of a global reservation is turned
    away, in whatever order they come and whichever EVSEs they choose. *)
Definition honourable (s : rh_state) : Prop :=
  (length (global_reservations s) + length (evse_reservations s) <= length evses)%nat
  /\ no_car_turned_away evses (evse_reservations s)
       (map connector_type_or_unknown (global_reservations s)).

Lemma possible_honourable globals res :
  is_reservation_possible evses None globals res = true ->
  (length globals + length res <= length evses)%nat
  /\ no_car_turned_away evses res (map connector_type_or_unknown globals).
Proof.
  rewrite is_reservation_possible_iff. simpl. rewrite app_nil_r. intros [? ?].
  split; [lia|done].
Qed.

Lemma known_evses_bound s :
  rh_inv s -> known_evses s -> (length (evse_reservations s) <= length evses)%nat.
Proof.
  intros Hs Hk. rewrite <- !StdMap.length_keys.
  rewrite <- (length_fmap (swrap 32)). apply submseteq_length, NoDup_submseteq.
  - apply NoDup_fmap_2_strong; [|apply StdMap.sorted_nodup, Hs].
    intros a b Ha Hb. apply i32_inj; by apply Hk.
  - intros x (e & -> & He)%list_elem_of_fmap. by apply Hk.
Qed.

Lemma drop_known id s : rh_inv s -> known_evses s -> known_evses (drop_reservation id s).
Proof.
  intros Hs Hk. unfold drop_reservation.
  destruct (StdMap.count id (reservation_timers s)) eqn:Hc; [|done].
  destruct (remove_cases s Hs id) as [(e & r & _ & _ & _ & He & _)|(r & _ & _ & _ & He)].
  - by apply (inv_timers _ Hs), StdMap.count_spec.
  - intros j. rewrite He, StdMap.elem_of_keys_erase. intros [_ ?]. by apply Hk.
  - intros j. rewrite He. apply Hk.
Qed.

Lemma drop_honourable id s : rh_inv s -> honourable s -> honourable (drop_reservation id s).
Proof.
  intros Hs [Hn Hh]. unfold drop_reservation.
  destruct (StdMap.count id (reservation_timers s)) eqn:Hc; [|done].
  assert (id ∈ ids s) as Hid by by apply (inv_timers _ Hs), StdMap.count_spec.
  unfold honourable.
  destruct (remove_cases s Hs id Hid) as [(e & r & _ & Hf & _ & -> & ->)|(r & _ & _ & Hp & ->)].
  - pose proof (StdMap.erase_perm e r _ (inv_sorted _ Hs) Hf) as Hlen%Permutation_length.
    simpl in Hlen. split; [lia|].
    apply (no_car_turned_away_drop_evse _ (evse_reservations s) _ e); [| |done].
    + apply StdMap.count_spec, StdMap.find_keys. by rewrite Hf.
    + intros j Hj. unfold StdMap.count. by rewrite StdMap.find_erase_ne.
  - pose proof (Permutation_length Hp) as Hlen. simpl in Hlen. split; [lia|].
    eapply no_car_turned_away_drop_car; [|exact Hh]. rewrite Hp at 1. simpl. done.
Qed.

Context (from_rfc3339 : string -> Z).

Lemma add_known e r s :
  known_evses s -> reservable evses (u32 <$> e) r s ->
  known_evses (add_reservation from_rfc3339 (u32 <$> e) r s).
Proof.
  intros Hk Hr. destruct e as [i|]; [|done].
  intros j [->|?]%StdMap.elem_of_keys_insert; [|by apply Hk].
  split; [by apply wrap_range|].
  destruct Hr as (_ & (evse & Hf & _) & _). apply StdMap.find_keys. by rewrite Hf.
Qed.

Lemma no_cars_honourable res : no_car_turned_away evses res [].
Proof.
  rewrite no_car_turned_away_orders. intros order ->%Permutation_nil_r. done.
Qed.

Lemma add_honourable e r s :
  rh_inv s -> known_evses s -> reservation_id r ∉ ids s ->
  reservable evses (u32 <$> e) r s ->
  honourable (add_reservation from_rfc3339 (u32 <$> e) r s).
Proof.
  intros Hs Hk Hid Hr.
  pose proof (add_inv evses from_rfc3339 _ r s Hs Hid Hr) as Hs'.
  pose proof (add_known e r s Hk Hr) as Hk'.
  pose proof (known_evses_bound _ Hs' Hk') as Hb.
  destruct e as [i|]; simpl in *.
  - destruct Hr as (_ & _ & [Hg|Hp]).
    + unfold honourable. simpl in *. rewrite Hg. split; [simpl; lia|]. apply no_cars_honourable.
    + apply possible_honourable in Hp as [? ?]. split; simpl; [lia|done].
  - apply is_reservation_possible_iff in Hr as [Hlen Hno]. unfold honourable. simpl in *.
    rewrite length_app, map_app. simpl. split; [lia|done].
Qed.

(** The operations on reservations while the EVSEs do not change. *)
Inductive rh_op : Type :=
| op_make (now : Z) (evse_id : option Z) (r : Reservation)
| op_cancel (id : Z) (execute_callback : bool) (why : ReservationEndReason.t)
| op_used (id : Z)
| op_expired (id : Z).

Context (cb : option (option Z -> Z -> ReservationEndReason.t -> bool -> RH unit)).

Definition run_op (op : rh_op) (s : rh_state) : rh_state :=
  match op with
  | op_make now e r =>
      run_state (make_reservation evses cb from_rfc3339 now (u32 <$> e) r) s
  | op_cancel id b why => run_state (cancel_reservation cb id b why) s
  | op_used id => run_state (on_reservation_used cb id) s
  | op_expired id => run_state (on_reservation_expired cb id) s
  end.

Context `{!KeepsReservations cb}.

Lemma cancel_then_unit id b why s :
  run_state (cancel_reservation cb id b why ;;; eret tt) s
  = run_state (cancel_reservation cb id b why) s.
Proof.
  unfold run_state, ebind. by destruct (cancel_reservation cb id b why s) as [[[]?]?].
Qed.

Definition honoured (s : rh_state) : Prop := rh_inv s /\ known_evses s /\ honourable s.

Lemma honoured_proper s s' : same_reservations s s' -> honoured s -> honoured s'.
Proof.
  intros Hs (H1 & H2 & H3). split_and!; [by rewrite <- Hs|..];
    destruct Hs as (He & Hg & _); unfold known_evses, honourable in *; by rewrite <- ?He, <- ?Hg.
Qed.

Lemma cancel_honoured id b why s :
  honoured s -> honoured (run_state (cancel_reservation cb id b why) s).
Proof.
  intros (H1 & H2 & H3). eapply honoured_proper; [symmetry; apply cancel_same, _|].
  split_and!; [by apply drop_inv|by apply drop_known|by apply drop_honourable].
Qed.

Lemma make_honoured now e r s :
  honoured s ->
  honoured (run_state (make_reservation evses cb from_rfc3339 now (u32 <$> e) r) s).
Proof.
  intros (H1 & H2 & H3). unfold run_state.
  destruct (Z.lt_ge_cases (from_rfc3339 (expiry_time r)) now) as [Hx|Hx].
  { by rewrite make_run_expired. }
  pose proof (drop_inv (reservation_id r) s H1) as D1.
  pose proof (drop_known (reservation_id r) s H1 H2) as D2.
  pose proof (drop_honourable (reservation_id r) s H1 H3) as D3.
  pose proof (drop_not_in (reservation_id r) s H1) as D4.
  destruct (make_run evses from_rfc3339 cb now (u32 <$> e) r s) as [(x & o & -> & _)|(Hr & o & ->)];
    [lia|done|].
  split_and!; [by eapply add_inv|by apply add_known|by apply add_honourable].
Qed.

Lemma run_op_honoured op s : honoured s -> honoured (run_op op s).
Proof.
  destruct op; simpl; intros Hs.
  - by apply make_honoured.
  - by apply cancel_honoured.
  - unfold on_reservation_used. rewrite cancel_then_unit. by apply cancel_honoured.
  - unfold on_reservation_expired. rewrite cancel_then_unit. by apply cancel_honoured.
Qed.

Lemma new_honoured b : honoured (new_ReservationHandler b).
Proof.
  split_and!.
  - split; [constructor|constructor|]. intros id. simpl. done.
  - by intros e ?%not_elem_of_nil.
  - split; [simpl; lia|]. apply no_cars_honourable.
Qed.
End Honourable.
