(* ===== verification/ReservationProperties.v ===== *)
(** * Properties of the reservation handler

    The theorems about [ReservationHandler] a client relies on, each with a
    witness at a concrete charging station where it has hypotheses. *)
From S2P Require Import Prelude AuthTypes Connector StdAlgorithm ReservationHandler.
From S2P Require Import ReservationArrival ReservationProofs.
From stdpp Require Import base tactics list numbers strings sorting sets relations.
Open Scope Z_scope.
Open Scope everest_scope.

(** ** A small charging station for the witnesses *)
Module Station.
Definition evse (id : Z) (types : list ConnectorTypeEnum.t) : Z * EVSEContext :=
  (id, new_EVSEContext id (id - 1)
         (imap (fun i t => new_Connector (Z.of_nat i + 1) t) types)).
(** EVSE 1 and 2 have a CCS2 cable, EVSE 2 also a Type 2 socket. *)
Definition evses : list (Z * EVSEContext) :=
  [evse 1 [ConnectorTypeEnum.cCCS2];
   evse 2 [ConnectorTypeEnum.cCCS2; ConnectorTypeEnum.cType2]].
Definition clock (s : string) : Z := if String.eqb s "past" then 0 else 100.
Definition reservation (id : Z) (t : option ConnectorTypeEnum.t) : Reservation :=
  mkReservation None id "TOKEN" "future" None t.
End Station.

(** A reservation is held for an EVSE or globally. *)
Definition held (e : option Z) (r : Reservation) (s : rh_state) : Prop :=
  match e with
  | Some i => StdMap.find i (evse_reservations s) = Some r
  | None => r ∈ global_reservations s
  end.

Lemma held_ids e r s : held e r s -> reservation_id r ∈ ids s.
Proof.
  unfold ids. rewrite elem_of_app. destruct e as [i|]; simpl; intros H.
  - left. apply StdMap.find_elem_of in H. apply list_elem_of_fmap. by exists (i, r).
  - right. apply list_elem_of_fmap. by exists r.
Qed.

Lemma drop_keeps id e r s :
  rh_inv s -> held e r s -> reservation_id r <> id -> held e r (drop_reservation id s).
Proof.
  intros Hs Hh Hne. unfold drop_reservation.
  destruct (StdMap.count id (reservation_timers s)) eqn:Hc; [|done].
  assert (id ∈ ids s) as Hid by by apply (inv_timers _ Hs), StdMap.count_spec.
  destruct (remove_cases s Hs id Hid) as [(e0 & r0 & Hr0 & Hf & _ & He & Hg)|(r0 & Hr0 & _ & Hg & He)].
  - destruct e as [i|]; simpl in *; [|by rewrite Hg].
    rewrite He, StdMap.find_erase_ne; [done|]. intros ->. congruence.
  - destruct e as [i|]; simpl in *; [by rewrite He|].
    rewrite Hg in Hh. apply elem_of_cons in Hh as [->|?]; [congruence|done].
Qed.

Lemma add_held evses clock e r s :
  reservable evses e r s -> held e r (add_reservation clock e r s).
Proof.
  destruct e as [i|]; simpl; intros Hr; [by rewrite StdMap.find_insert_eq|set_solver].
Qed.

Lemma add_keeps evses clock e r e' r' s :
  reservable evses e r s -> held e' r' s -> held e' r' (add_reservation clock e r s).
Proof.
  intros Hr Hh. destruct e as [i|], e' as [j|]; simpl in *; try set_solver.
  destruct Hr as [Hf _]. rewrite StdMap.find_insert_ne; [done|]. congruence.
Qed.

(** ** Orders of arrival *)

(** [get_all_possible_orders] yields exactly the permutations of the
    connector types it is given, each once, also when the given order is not
    sorted; for no cars it yields nothing. *)
Theorem get_all_possible_orders_exact cs :
  NoDup (get_all_possible_orders cs)
  /\ forall o, o ∈ get_all_possible_orders cs <-> cs <> [] /\ o ≡ₚ cs.
Proof.
  split; [apply orders_nodup|]. intros o. destruct (decide (cs = [])) as [->|Hne].
  - split; [by intros ?%not_elem_of_nil|by intros [? _]].
  - rewrite orders_perm by done. tauto.
Qed.

(** ** When a reservation is possible *)

(** C18: [is_reservation_possible] answers [true] exactly when there are
    enough EVSEs and no sequence of arrivals of the cars with a global
    reservation, in any order and with any choice of EVSEs, reaches a
    situation in which one of the remaining cars finds no usable EVSE. *)
Theorem is_reservation_possible_spec evses g globals res :
  is_reservation_possible evses g globals res = true <->
  (length globals + length (option_list g) + length res <= length evses)%nat
  /\ no_car_turned_away evses res (map connector_type_or_unknown globals ++ option_list g).
Proof. apply is_reservation_possible_iff. Qed.

(** C7: as long as the states of the EVSEs do not change, any sequence of
    making, cancelling, using and expiring reservations leaves the handler
    with reservations that can all be honoured. *)
Theorem reservations_always_honoured evses clock cb b (ops : list rh_op) :
  NoDup (StdMap.keys evses) -> KeepsReservations cb ->
  honourable evses (foldl (fun s op => run_op evses clock cb op s) (new_ReservationHandler b) ops).
Proof.
  intros Hn Hcb.
  enough (forall s, honoured evses s ->
    honoured evses (foldl (fun s op => run_op evses clock cb op s) s ops)) as H
    by apply H, new_honoured.
  induction ops as [|op ops IH]; intros s Hs; simpl; [done|]. by apply IH, run_op_honoured.
Qed.

Lemma reservations_always_honoured_witness :
  honourable Station.evses
    (foldl (fun s op => run_op Station.evses Station.clock None op s) (new_ReservationHandler true)
      [op_make 5 None (Station.reservation 1 (Some ConnectorTypeEnum.cType2));
       op_make 5 (Some 1) (Station.reservation 2 None)])
  /\ ids (foldl (fun s op => run_op Station.evses Station.clock None op s) (new_ReservationHandler true)
      [op_make 5 None (Station.reservation 1 (Some ConnectorTypeEnum.cType2));
       op_make 5 (Some 1) (Station.reservation 2 None)]) = [2; 1].
Proof.
  split; [|vm_compute; reflexivity].
  apply reservations_always_honoured; [|apply keeps_reservations_none].
  apply (bool_decide_unpack _). vm_compute. exact I.
Defined.

(** ** The invariant in every reachable state *)

(** The steps of the handler, between which the EVSEs may change. *)
Inductive rh_step (clock : string -> Z) : rh_state -> rh_state -> Prop :=
| step_make evses cb now e r s : KeepsReservations cb ->
    rh_step clock s (run_state (make_reservation evses cb clock now e r) s)
| step_cancel cb id b why s : KeepsReservations cb ->
    rh_step clock s (run_state (cancel_reservation cb id b why) s)
| step_cancel_evse cb e b s : KeepsReservations cb ->
    rh_step clock s (run_state (cancel_reservation_evse cb e b) s)
| step_used cb id s : KeepsReservations cb ->
    rh_step clock s (run_state (on_reservation_used cb id) s)
| step_expired cb id s : KeepsReservations cb ->
    rh_step clock s (run_state (on_reservation_expired cb id) s)
| step_connector evses cb st e c s : KeepsReservations cb ->
    rh_step clock s (run_state (on_connector_state_changed evses cb st e c) s)
| step_status evses s :
    rh_step clock s
      (run_state (check_number_global_reservations_match_number_available_evses evses) s)
| step_load evses cb now stored s : KeepsReservations cb ->
    rh_step clock s (run_state (load_reservations evses cb clock now stored) s).

Lemma rh_step_inv clock s s' : rh_step clock s s' -> rh_inv s -> rh_inv s'.
Proof.
  intros Hstep Hs. destruct Hstep.
  - by apply make_preserves_inv.
  - by apply cancel_preserves.
  - revert s Hs. unfold cancel_reservation_evse.
    apply preserves_bind; [apply preserves_get|]. intros s. case_match; [|apply preserves_ret].
    apply preserves_bind; [by apply cancel_preserves|]. intros. apply preserves_ret.
  - unfold on_reservation_used. rewrite cancel_then_unit. by apply cancel_preserves.
  - unfold on_reservation_expired. rewrite cancel_then_unit. by apply cancel_preserves.
  - by apply connector_changed_preserves.
  - by rewrite check_number_same.
  - by apply load_preserves.
Qed.

(** C36: in every reachable state, whatever happened to the EVSEs meanwhile,
    reservation ids are unique and the running timers are exactly those of
    the reservations held, so every reservation ends by itself. *)
Theorem reservations_and_timers_agree clock b s :
  rtc (rh_step clock) (new_ReservationHandler b) s ->
  NoDup (ids s) /\ forall id, id ∈ StdMap.keys (reservation_timers s) <-> id ∈ ids s.
Proof.
  intros Hr. enough (rh_inv s) as Hs by (split; apply Hs).
  assert (rh_inv (new_ReservationHandler b)) as H0 by apply (new_honoured []).
  induction Hr as [|s1 s2 s3 Hstep Hr IH]; [done|]. apply IH. by eapply rh_step_inv.
Qed.

Lemma reservations_and_timers_agree_witness :
  NoDup (ids (run_state (make_reservation Station.evses None Station.clock 5 (Some 1)
                (Station.reservation 7 None)) (new_ReservationHandler true)))
  /\ forall id,
     id ∈ StdMap.keys (reservation_timers (run_state (make_reservation Station.evses None
            Station.clock 5 (Some 1) (Station.reservation 7 None)) (new_ReservationHandler true)))
     <-> id ∈ ids (run_state (make_reservation Station.evses None Station.clock 5 (Some 1)
                (Station.reservation 7 None)) (new_ReservationHandler true)).
Proof.
  apply (reservations_and_timers_agree Station.clock true).
  apply rtc_once. apply step_make. apply keeps_reservations_none.
Defined.

(** ** Making and cancelling *)

(** Every outcome of [make_reservation].  A reservation that already
    expired is rejected and nothing changes; otherwise a previous reservation
    with the same id is gone in any case, every other reservation stays, and
    the answer is [Accepted] exactly when the new reservation is then held
    with a timer at its expiry time. *)
Theorem make_reservation_outcome evses cb clock now e r s :
  rh_inv s ->
  let '(res, s', _) := make_reservation evses cb clock now e r s in
  if clock (expiry_time r) <? now
  then res = Ok ReservationResult.Rejected /\ s' = s
  else
    (forall e' r', held e' r' s -> reservation_id r' <> reservation_id r -> held e' r' s')
    /\ ((res = Ok ReservationResult.Accepted /\ held e r s'
         /\ StdMap.find (reservation_id r) (reservation_timers s')
            = Some (mkReservationTimer (clock (expiry_time r)) e))
        \/ (exists x, res = Ok x /\ x <> ReservationResult.Accepted
            /\ reservation_id r ∉ ids s')).
Proof.
  intros Hs. destruct (Z.ltb_spec (clock (expiry_time r)) now) as [Hx|Hx].
  { by rewrite make_run_expired. }
  destruct (make_run evses clock cb now e r s) as [(x & o & -> & Hna)|(Hr & o & ->)]; [lia|..].
  - split; [intros; by apply drop_keeps|]. right. exists x. split_and!; [done|done|].
    by apply drop_not_in.
  - split.
    + intros e' r' Hh Hne. eapply add_keeps; [exact Hr|]. by apply drop_keeps.
    + left. split_and!; [done|by eapply add_held|].
      destruct e; simpl; apply StdMap.find_insert_eq.
Qed.

Lemma make_reservation_outcome_witness :
  held None (Station.reservation 3 (Some ConnectorTypeEnum.cCCS2))
    (run_state (make_reservation Station.evses None Station.clock 5 None
       (Station.reservation 3 (Some ConnectorTypeEnum.cCCS2))) (new_ReservationHandler false)).
Proof.
  pose proof (make_reservation_outcome Station.evses None Station.clock 5 None
    (Station.reservation 3 (Some ConnectorTypeEnum.cCCS2)) (new_ReservationHandler false)
    (proj1 (new_honoured [] false))) as H.
  vm_compute in H. destruct H as [_ [(_ & H & _)|(x & Hx & Hn & _)]].
  - exact H.
  - exfalso. apply Hn. congruence.
Defined.

(** Cancelling without notification answers whether the reservation
    existed and for which EVSE, removes exactly it, and leaves the statuses
    sent to the EVSEs alone. *)
Theorem cancel_reservation_outcome cb id why s :
  rh_inv s ->
  let '(res, s', _) := cancel_reservation cb id false why s in
  (exists evse_id, res = Ok (bool_decide (id ∈ ids s), evse_id)
     /\ (forall i, evse_id = Some i -> exists r, held (Some i) r s /\ reservation_id r = id))
  /\ (id ∉ ids s') /\ (forall e r, held e r s' -> held e r s)
  /\ (forall e r, held e r s -> reservation_id r <> id -> held e r s')
  /\ last_reserved_status s' = last_reserved_status s.
Proof.
  intros Hs. pose proof (drop_not_in id s Hs) as Hni.
  destruct (StdMap.count id (reservation_timers s)) eqn:Hc.
  - assert (id ∈ ids s) as Hid by by apply (inv_timers _ Hs), StdMap.count_spec.
    assert (drop_reservation id s = remove_reservation id s) as Hd
      by (unfold drop_reservation; by rewrite Hc).
    rewrite cancel_run_timer by done. unfold ebind at 1.
    destruct (store_run (remove_reservation id s)) as [o ->]. simpl.
    rewrite <- Hd. split_and!; [|done| |intros; by apply drop_keeps|].
    + eexists. split; [by rewrite bool_decide_eq_true_2|]. intros i Hi.
      pose proof (find_evse_spec id (evse_reservations s)) as Hf. rewrite Hi in Hf.
      destruct Hf as (r & Hin & Hr). exists r. split; [|done].
      by apply StdMap.elem_of_find in Hin; [|apply Hs].
    + rewrite Hd. intros e r.
      destruct (remove_cases s Hs id Hid) as [(e0 & r0 & _ & Hf & _ & He & Hg)|(r0 & _ & _ & Hg & He)];
        destruct e as [i|]; simpl.
      * rewrite He. destruct (decide (i = e0)) as [->|];
          [by rewrite StdMap.find_erase_eq|by rewrite StdMap.find_erase_ne].
      * by rewrite Hg.
      * by rewrite He.
      * rewrite Hg. by right.
    + rewrite Hd. unfold remove_reservation. by case_match.
  - assert (id ∉ ids s) as Hid.
    { rewrite <- (inv_timers _ Hs), <- StdMap.count_spec, Hc. done. }
    rewrite cancel_run_no_timer by done. split_and!; [|done..].
    exists None. split; [by rewrite bool_decide_eq_false_2|done].
Qed.

Lemma cancel_reservation_outcome_witness :
  exists s', cancel_reservation None 7 false ReservationEndReason.Cancelled
    (run_state (make_reservation Station.evses None Station.clock 5 (Some 1)
       (Station.reservation 7 None)) (new_ReservationHandler false)) = (Ok (true, Some 1), s', [])
    /\ 7 ∉ ids s'.
Proof.
  set (s := run_state (make_reservation Station.evses None Station.clock 5 (Some 1)
       (Station.reservation 7 None)) (new_ReservationHandler false)).
  assert (rh_inv s) as Hs
    by (apply make_preserves_inv; exact (proj1 (new_honoured [] false))).
  pose proof (cancel_reservation_outcome None 7 ReservationEndReason.Cancelled s Hs) as H.
  eexists. split; [vm_compute; reflexivity|].
  vm_compute in H |- *. exact (proj1 (proj2 H)).
Defined.

(** ** Where the stored reservations lag behind *)

(** A reservation for an EVSE is accepted without being stored, and when the
    last reservation is cancelled the stored list is not emptied: after a
    restart the first is lost and the second comes back. *)
Example stored_reservations_lag :
  let evse_made := make_reservation Station.evses None Station.clock 5 (Some 1)
                     (Station.reservation 7 None) (new_ReservationHandler true) in
  let global_made := make_reservation Station.evses None Station.clock 5 None
                       (Station.reservation 8 None) (new_ReservationHandler true) in
  evse_made.1.1 = Ok ReservationResult.Accepted /\ evse_made.2 = []
  /\ global_made.2 = [call_store [(None, Station.reservation 8 None)]]
  /\ (cancel_reservation None 8 false ReservationEndReason.Cancelled global_made.1.2).2 = [].
Proof. vm_compute. repeat split. Qed.
