(* ===== verification/AuthHandler.v ===== *)
(** * The Auth handler

    [modules/EVSE/Auth/lib/AuthHandler.cpp] and its header: tokens are matched
    against running transactions, reservations and plug-in events and an EVSE
    is authorized; session events, faults, reservations and withdrawals update
    the EVSEs.  A handler runs under [event_mutex] and is one [AH] action.
    Where it releases the mutex (token validation, waits on a condition
    variable) other threads run: [env] is what they do to the state there;
    the calls they make are outputs of their own handlers.
    Validators and the [reserved] callback of the module are parameters. *)
From S2P Require Import Prelude AuthTypes Connector StdAlgorithm ReservationHandler.
From stdpp Require Import base tactics list numbers strings sorting sets.
Open Scope Z_scope.
Open Scope everest_scope.

Module TokenHandlingResult.
Inductive t : Set :=
| ALREADY_IN_PROCESS | REJECTED | USED_TO_START_TRANSACTION | USED_TO_STOP_TRANSACTION
| TIMEOUT | NO_CONNECTOR_AVAILABLE | WITHDRAWN.
#[global] Instance eq_dec : EqDecision t.
Proof. solve_decision. Defined.
End TokenHandlingResult.

Definition token_handling_result_to_string (r : TokenHandlingResult.t) : string :=
  match r with
  | TokenHandlingResult.ALREADY_IN_PROCESS => "ALREADY_IN_PROCESS"
  | TokenHandlingResult.NO_CONNECTOR_AVAILABLE => "NO_CONNECTOR_AVAILABLE"
  | TokenHandlingResult.REJECTED => "REJECTED"
  | TokenHandlingResult.TIMEOUT => "TIMEOUT"
  | TokenHandlingResult.USED_TO_START_TRANSACTION => "USED_TO_START_TRANSACTION"
  | TokenHandlingResult.USED_TO_STOP_TRANSACTION => "USED_TO_STOP_TRANSACTION"
  | TokenHandlingResult.WITHDRAWN => "WITHDRAWN"
  end.

Module SelectEvseReturnStatus.
Inductive t : Set := EvseSelected | Interrupted | TimeOut.
End SelectEvseReturnStatus.

Record SelectEvseResult := mkSelectEvseResult {
  sel_evse_id : option Z;
  sel_status : SelectEvseReturnStatus.t;
}.

(** Which of the [std::function] members are set. *)
Record Callbacks := mkCallbacks {
  has_notify_evse : bool;
  has_withdraw_authorization : bool;
  has_validate_token : bool;
  has_stop_transaction : bool;
  has_reserved : bool;
  has_reservation_cancelled : bool;
  has_publish_token_validation_status : bool;
}.

Inductive CallbackName : Set :=
| NotifyEvse | WithdrawAuthorization | ValidateToken | StopTransaction | Reserved
| ReservationCancelled | PublishTokenValidationStatus.

Definition add_callback (c : CallbackName) (s : Callbacks) : Callbacks :=
  let 'mkCallbacks n w v st r rc p := s in
  match c with
  | NotifyEvse => mkCallbacks true w v st r rc p
  | WithdrawAuthorization => mkCallbacks n true v st r rc p
  | ValidateToken => mkCallbacks n w true st r rc p
  | StopTransaction => mkCallbacks n w v true r rc p
  | Reserved => mkCallbacks n w v st true rc p
  | ReservationCancelled => mkCallbacks n w v st r true p
  | PublishTokenValidationStatus => mkCallbacks n w v st r rc true
  end.

(** The members of [AuthHandler].  [tokens_in_process] is in the order of its
    [operator<], by the value of the id token. *)
Record ah_state := mkAh {
  selection_algorithm : SelectionAlgorithm.t;
  connection_timeout : Z;
  master_pass_group_id : option string;
  prioritize_authorization_over_stopping_transaction : bool;
  ignore_faults : bool;
  reservation_handler : rh_state;
  evses : list (Z * EVSEContext);
  plug_in_queue : list Z;
  tokens_in_process : list ProvidedIdToken;
  withdraw_request : option WithdrawAuthorizationRequest;
  signal_ok : bool;
  callbacks : Callbacks;
}.

(** ** Assignments to members *)
Section Setters.
Implicit Type s : ah_state.
Definition set_reservation_handler x s :=
  mkAh (selection_algorithm s) (connection_timeout s) (master_pass_group_id s)
    (prioritize_authorization_over_stopping_transaction s) (ignore_faults s) x
    (evses s) (plug_in_queue s) (tokens_in_process s) (withdraw_request s) (signal_ok s)
    (callbacks s).
Definition set_evses x s :=
  mkAh (selection_algorithm s) (connection_timeout s) (master_pass_group_id s)
    (prioritize_authorization_over_stopping_transaction s) (ignore_faults s)
    (reservation_handler s) x (plug_in_queue s) (tokens_in_process s) (withdraw_request s)
    (signal_ok s) (callbacks s).
Definition set_plug_in_queue x s :=
  mkAh (selection_algorithm s) (connection_timeout s) (master_pass_group_id s)
    (prioritize_authorization_over_stopping_transaction s) (ignore_faults s)
    (reservation_handler s) (evses s) x (tokens_in_process s) (withdraw_request s)
    (signal_ok s) (callbacks s).
Definition set_tokens_in_process x s :=
  mkAh (selection_algorithm s) (connection_timeout s) (master_pass_group_id s)
    (prioritize_authorization_over_stopping_transaction s) (ignore_faults s)
    (reservation_handler s) (evses s) (plug_in_queue s) x (withdraw_request s)
    (signal_ok s) (callbacks s).
Definition set_withdraw_request x s :=
  mkAh (selection_algorithm s) (connection_timeout s) (master_pass_group_id s)
    (prioritize_authorization_over_stopping_transaction s) (ignore_faults s)
    (reservation_handler s) (evses s) (plug_in_queue s) (tokens_in_process s) x
    (signal_ok s) (callbacks s).
Definition put_signal_ok x s :=
  mkAh (selection_algorithm s) (connection_timeout s) (master_pass_group_id s)
    (prioritize_authorization_over_stopping_transaction s) (ignore_faults s)
    (reservation_handler s) (evses s) (plug_in_queue s) (tokens_in_process s)
    (withdraw_request s) x (callbacks s).
Definition set_config (timeout : Z) (group : option string) (prioritize : bool) s :=
  mkAh (selection_algorithm s) timeout group prioritize (ignore_faults s)
    (reservation_handler s) (evses s) (plug_in_queue s) (tokens_in_process s)
    (withdraw_request s) (signal_ok s) (callbacks s).
Definition set_callbacks x s :=
  mkAh (selection_algorithm s) (connection_timeout s) (master_pass_group_id s)
    (prioritize_authorization_over_stopping_transaction s) (ignore_faults s)
    (reservation_handler s) (evses s) (plug_in_queue s) (tokens_in_process s)
    (withdraw_request s) (signal_ok s) x.
End Setters.

Section EvseSetters.
Implicit Type e : EVSEContext.
Definition set_identifier x e :=
  mkEVSEContext (e_evse_id e) (evse_index e) (transaction_active e) x (connectors e)
    (timeout_timer e) (timeout_in_progress e) (plugged_in e) (plug_in_timeout e).
Definition set_transaction_active x e :=
  mkEVSEContext (e_evse_id e) (evse_index e) x (identifier e) (connectors e)
    (timeout_timer e) (timeout_in_progress e) (plugged_in e) (plug_in_timeout e).
Definition set_connectors x e :=
  mkEVSEContext (e_evse_id e) (evse_index e) (transaction_active e) (identifier e) x
    (timeout_timer e) (timeout_in_progress e) (plugged_in e) (plug_in_timeout e).
Definition set_timeout_timer x e :=
  mkEVSEContext (e_evse_id e) (evse_index e) (transaction_active e) (identifier e)
    (connectors e) x (timeout_in_progress e) (plugged_in e) (plug_in_timeout e).
Definition set_timeout_in_progress x e :=
  mkEVSEContext (e_evse_id e) (evse_index e) (transaction_active e) (identifier e)
    (connectors e) (timeout_timer e) x (plugged_in e) (plug_in_timeout e).
Definition set_plugged_in x e :=
  mkEVSEContext (e_evse_id e) (evse_index e) (transaction_active e) (identifier e)
    (connectors e) (timeout_timer e) (timeout_in_progress e) x (plug_in_timeout e).
Definition set_plug_in_timeout x e :=
  mkEVSEContext (e_evse_id e) (evse_index e) (transaction_active e) (identifier e)
    (connectors e) (timeout_timer e) (timeout_in_progress e) (plugged_in e) x.
End EvseSetters.

Definition set_token_parent (p : option IdToken) (t : ProvidedIdToken) : ProvidedIdToken :=
  mkProvidedIdToken (request_id t) (id_token t) p (authorization_type t) (p_connectors t)
    (prevalidated t).
Definition set_token_connectors (c : list Z) (t : ProvidedIdToken) : ProvidedIdToken :=
  mkProvidedIdToken (request_id t) (id_token t) (parent_id_token t) (authorization_type t)
    (Some c) (prevalidated t).
Definition set_authorization_status (x : AuthorizationStatus.t) (v : ValidationResult) :=
  mkValidationResult x (vr_expiry_time v) (vr_parent_id_token v) (vr_evse_ids v)
    (vr_reservation_id v).
Definition set_vr_evse_ids (x : list Z) (v : ValidationResult) :=
  mkValidationResult (authorization_status v) (vr_expiry_time v) (vr_parent_id_token v) (Some x)
    (vr_reservation_id v).
Definition set_vr_reservation_id (x : Z) (v : ValidationResult) :=
  mkValidationResult (authorization_status v) (vr_expiry_time v) (vr_parent_id_token v)
    (vr_evse_ids v) (Some x).

(** ** Small pieces *)

(** [std::set<ProvidedIdToken>] under [operator<] on the token's value. *)
Module TokenSet.
Definition lt (a b : ProvidedIdToken) : bool :=
  String.ltb (value (id_token a)) (value (id_token b)).

Fixpoint insert (x : ProvidedIdToken) (l : list ProvidedIdToken) : list ProvidedIdToken :=
  match l with
  | [] => [x]
  | y :: l' => if lt x y then x :: l else if lt y x then y :: insert x l' else l
  end.

Definition same (a b : ProvidedIdToken) : bool := negb (lt a b) && negb (lt b a).
Definition mem (x : ProvidedIdToken) (l : list ProvidedIdToken) : bool := existsb (same x) l.
Definition erase (x : ProvidedIdToken) (l : list ProvidedIdToken) : list ProvidedIdToken :=
  List.filter (fun y => negb (same x y)) l.
End TokenSet.

(** [std::set_intersection] of two sorted ranges. *)
Fixpoint set_intersection (a : list Z) : list Z -> list Z :=
  fix inner (b : list Z) : list Z :=
    match a, b with
    | x :: a', y :: b' =>
        if x <? y then set_intersection a' b
        else if y <? x then inner b'
        else x :: set_intersection a' b'
    | _, _ => []
    end.

Definition sort_ids (l : list Z) : list Z := merge_sort Z.le l.

(** [intersect]: the result and the two vectors, which it sorts in place. *)
Definition intersect (a b : list Z) : list Z * (list Z * list Z) :=
  (set_intersection (sort_ids a) (sort_ids b), (sort_ids a, sort_ids b)).

(** Mutation of the first connector with an id. *)
Fixpoint update_connector (id : Z) (f : Connector -> Connector) (cs : list Connector)
  : list Connector :=
  match cs with
  | [] => []
  | c :: cs' => if c_id c =? id then f c :: cs' else c :: update_connector id f cs'
  end.

(** Checks if a withdraw request matches a token and one of the EVSEs. *)
Definition does_withdraw_request_match (req : WithdrawAuthorizationRequest)
    (selected_evses : list Z) (token : IdToken) : bool :=
  let is_evse_in_selected :=
    match w_evse_id req with Some e => StdSet.mem e selected_evses | None => false end in
  let id_token_matches :=
    match w_id_token req with
    | Some t => Helpers.is_equal_case_insensitive_IdToken t token
    | None => true
    end in
  id_token_matches && (bool_decide (w_evse_id req = None) || is_evse_in_selected).

Abbreviation AH := (Eff ah_state auth_output auth_exn).

(** Access to an EVSE with [evses.at]. *)
Definition at_evse (evse_id : Z) : AH EVSEContext :=
  let* s := eget in
  match StdMap.find evse_id (evses s) with
  | Some e => eret e
  | None => ethrow out_of_range
  end.

Definition modify_evse (evse_id : Z) (f : EVSEContext -> EVSEContext) : AH unit :=
  let* _ := at_evse evse_id in
  emodify (fun s => set_evses (StdMap.alter f evse_id (evses s)) s).

(** A call on a [std::function] member. *)
Definition call_callback (has : Callbacks -> bool) (o : auth_output) : AH unit :=
  let* s := eget in
  if has (callbacks s) then eemit o else ethrow bad_function_call.

Definition publish (token : ProvidedIdToken) (status : TokenValidationStatus.t) : AH unit :=
  call_callback has_publish_token_validation_status
    (publish_token_validation_status token status).

(** A call on the member [reservation_handler], which reads the EVSEs. *)
Definition on_reservation_handler {A} (m : ah_state -> RH A) : AH A :=
  fun s =>
    let '(r, rh, o) := m s (reservation_handler s) in
    (r, set_reservation_handler rh s, o).

(** [plug_in_queue.remove_if]. *)
Definition remove_from_plug_in_queue (evse_id : Z) : AH unit :=
  emodify (fun s =>
    set_plug_in_queue (List.filter (fun v => negb (v =? evse_id)) (plug_in_queue s)) s).

(** Where a handler releases [event_mutex]. *)
Inductive Site : Type :=
| Validating (token : ProvidedIdToken)
| WaitingForPlugIn (selected_evses : list Z)
| WaitingForTimeoutTask (evse_id : Z)
| WaitingForProcessing (req : WithdrawAuthorizationRequest).

Section AuthHandler.
(** The validators' answers, the module's [reserved] callback, the clock of
    the reservation handler. *)
Context (validate_token_callback : ProvidedIdToken -> list ValidationResult).
Context (reserved_callback : option Z -> Z -> bool).
Context (from_rfc3339 : string -> Z).
(** What the other threads do while the mutex is released, and whether the
    authorization signal arrives. *)
Context (env : Site -> ah_state -> ah_state).
Context (signal_arrives : ah_state -> bool).

(** The mutex is released and acquired again. *)
Definition release (site : Site) : AH unit := emodify (env site).

(** [cv.wait(lk, pred)]. *)
Definition wait (site : Site) (pred : ah_state -> bool) : AH unit :=
  let* s := eget in
  if pred s then eret tt
  else
    release site ;;;
    let* s' := eget in
    if pred s' then eret tt else ethrow blocked.

(** [cv.wait_for(lk, timeout, pred)]: whether the predicate came true. *)
Definition wait_for (site : Site) (pred : ah_state -> bool) : AH bool :=
  let* s := eget in
  if pred s then eret true
  else
    release site ;;;
    let* s' := eget in
    eret (pred s').

(** The wait for a running timeout task of an EVSE. *)
Definition wait_for_timeout_task (evse_id : Z) : AH unit :=
  at_evse evse_id ;;;
  wait (WaitingForTimeoutTask evse_id) (fun s =>
    match StdMap.find evse_id (evses s) with
    | Some e => negb (timeout_in_progress e)
    | None => false
    end).

(** The busy wait for [signal_ok], with the mutex held: only
    [set_signal_ok], which takes no lock, can end it. *)
Definition wait_for_signal : AH unit :=
  let* s := eget in
  if signal_ok s then eret tt
  else if signal_arrives s then emodify (put_signal_ok true)
  else ethrow blocked.

(** ** Reservation statuses for the EVSEs *)

(** [check_evse_reserved_and_send_updates]. *)
Definition check_evse_reserved_and_send_updates (a : ah_state) : RH unit :=
  let* reservation_status :=
    check_number_global_reservations_match_number_available_evses (evses a) in
  efor (available reservation_status) (fun e =>
    if has_reservation_cancelled (callbacks a)
    then eemit (reservation_cancelled (Some e) (-1)
                  ReservationEndReason.GlobalReservationRequirementDropped false)
    else ethrow bad_function_call) ;;;
  efor (reserved reservation_status) (fun e =>
    if has_reserved (callbacks a)
    then eemit (call_reserved_callback (Some e) (-1)) ;;;
         let reserved := reserved_callback (Some e) (-1) in
         if negb reserved then eret tt (* logs *) else eret tt
    else eret tt).

Definition call_reservation_cancelled (a : ah_state) (id : Z)
    (why : ReservationEndReason.t) (evse_id : option Z) (send : bool) : RH unit :=
  (if has_reservation_cancelled (callbacks a)
   then eemit (reservation_cancelled evse_id id why send)
   else ethrow bad_function_call) ;;;
  check_evse_reserved_and_send_updates a.

(** The lambda that [register_reservation_cancelled_callback] gives to the
    reservation handler, with the conversion of the EVSE id to [int32_t]. *)
Definition rh_cancelled_callback (a : ah_state)
  : option (option Z -> Z -> ReservationEndReason.t -> bool -> RH unit) :=
  if has_reservation_cancelled (callbacks a)
  then Some (fun evse_id id why send =>
    let evse_id := i32 <$> evse_id in
    if match evse_id with Some e => e <? 0 | None => false end then eret tt
    else call_reservation_cancelled a id why evse_id send)
  else None.

Definition call_reserved (id : Z) (evse_id : option Z) : AH bool :=
  call_callback has_reserved (call_reserved_callback evse_id id) ;;;
  if reserved_callback evse_id id
  then on_reservation_handler check_evse_reserved_and_send_updates ;;; eret true
  else eret false.

(** ** Set-up *)

Definition new_AuthHandler (algorithm : SelectionAlgorithm.t) (timeout : Z)
    (prioritize ignore store : bool) : ah_state :=
  mkAh algorithm timeout None prioritize ignore (new_ReservationHandler store) [] [] [] None
    false (mkCallbacks false false false false false false false).

Definition init_evse (evse_id index : Z) (cs : list Connector) : AH unit :=
  if evse_id <=? 0 then eret tt
  else emodify (fun s =>
    set_evses (StdMap.insert evse_id (new_EVSEContext evse_id index cs) (evses s)) s).

Definition initialize (now : Z) (stored : option (list (option Z * option Reservation)))
  : AH unit :=
  on_reservation_handler (fun a =>
    load_reservations (evses a) (rh_cancelled_callback a) from_rfc3339 now stored) ;;;
  on_reservation_handler check_evse_reserved_and_send_updates.

Definition set_connection_timeout (timeout : Z) : AH unit :=
  emodify (fun s => set_config timeout (master_pass_group_id s)
    (prioritize_authorization_over_stopping_transaction s) s).
Definition set_master_pass_group_id (group : string) : AH unit :=
  emodify (fun s => set_config (connection_timeout s)
    (if String.eqb group "" then None else Some group)
    (prioritize_authorization_over_stopping_transaction s) s).
Definition set_prioritize_authorization_over_stopping_transaction (b : bool) : AH unit :=
  emodify (fun s => set_config (connection_timeout s) (master_pass_group_id s) b s).
Definition set_signal_ok (ok : bool) : AH unit := emodify (put_signal_ok ok).

(** The [register_*_callback] functions, one per member. *)
Definition register_callback (c : CallbackName) : AH unit :=
  emodify (fun s => set_callbacks (add_callback c (callbacks s)) s).

(** ** Queries on the EVSEs *)

Definition get_referenced_evses (provided_token : ProvidedIdToken) (s : ah_state) : list Z :=
  match p_connectors provided_token with
  | Some cs =>
      List.filter (fun evse_id =>
        match StdMap.find evse_id (evses s) with
        | Some e => negb (is_unavailable e)
        | None => false
        end) cs
  | None => map fst (List.filter (fun e => negb (is_unavailable e.2)) (evses s))
  end.

Definition identifier_matches (token : string) (i : Identifier) : bool :=
  Helpers.is_equal_case_insensitive (value (i_id_token i)) token
  || match i_parent_id_token i with
     | Some p => Helpers.is_equal_case_insensitive (value p) token
     | None => false
     end.

Fixpoint used_for_transaction (evse_ids : list Z) (token : string) : AH Z :=
  match evse_ids with
  | [] => eret (-1)
  | evse_id :: rest =>
      let* e := at_evse evse_id in
      match identifier e with
      | Some i => if identifier_matches token i then eret evse_id
                  else used_for_transaction rest token
      | None => used_for_transaction rest token
      end
  end.

(** The loop of [is_token_already_in_process] over the referenced EVSEs. *)
Fixpoint authorized_without_transaction (evse_ids : list Z) (token : IdToken) : AH bool :=
  match evse_ids with
  | [] => eret false
  | evse_id :: rest =>
      let* e := at_evse evse_id in
      if match identifier e with
         | Some i => Helpers.is_equal_case_insensitive_IdToken (i_id_token i) token
                     && negb (transaction_active e)
         | None => false
         end
      then eret true
      else authorized_without_transaction rest token
  end.

Definition is_token_already_in_process (provided_token : ProvidedIdToken)
    (referenced_evses : list Z) : AH bool :=
  let* s := eget in
  if TokenSet.mem provided_token (tokens_in_process s) then eret true
  else authorized_without_transaction referenced_evses (id_token provided_token).

Fixpoint any_evse_available (evse_ids : list Z) : AH bool :=
  match evse_ids with
  | [] => eret false
  | evse_id :: rest =>
      let* e := at_evse evse_id in
      if is_available e then eret true else any_evse_available rest
  end.

Fixpoint any_parent_id_present (evse_ids : list Z) : AH bool :=
  match evse_ids with
  | [] => eret false
  | evse_id :: rest =>
      let* e := at_evse evse_id in
      if match identifier e with
         | Some i => bool_decide (is_Some (i_parent_id_token i))
         | None => false
         end
      then eret true
      else any_parent_id_present rest
  end.

Definition equals_master_pass_group_id (parent : option IdToken) (s : ah_state) : bool :=
  match master_pass_group_id s, parent with
  | Some g, Some p => Helpers.is_equal_case_insensitive (value p) g
  | _, _ => false
  end.

(** [-1] when no EVSE of the plug-in queue is among the given ones. *)
Definition get_latest_plugin (evse_ids : list Z) (s : ah_state) : Z :=
  default (-1) (List.find (fun e => StdSet.mem e evse_ids) (plug_in_queue s)).

Definition is_authorization_withdrawn (selected_evses : list Z) (token : IdToken)
    (s : ah_state) : bool :=
  match withdraw_request s with
  | None => false
  | Some req => does_withdraw_request_match req selected_evses token
  end.

(** ** Selecting and notifying an EVSE *)

(** The loop of [FindFirst] over the EVSEs. *)
Fixpoint first_without_transaction (evse_ids : list Z) : AH (option Z) :=
  match evse_ids with
  | [] => eret None
  | evse_id :: rest =>
      let* e := at_evse evse_id in
      if negb (transaction_active e) then eret (Some evse_id)
      else first_without_transaction rest
  end.

Definition select_by_plug_events (selected_evses : list Z) (token : IdToken)
  : AH SelectEvseResult :=
  let* s := eget in
  let* plugged_in_time :=
    if get_latest_plugin selected_evses s =? -1
    then wait_for (WaitingForPlugIn selected_evses) (fun s' =>
           negb (get_latest_plugin selected_evses s' =? -1)
           || is_authorization_withdrawn selected_evses token s')
    else eret true in
  if negb plugged_in_time
  then eret (mkSelectEvseResult None SelectEvseReturnStatus.TimeOut)
  else
    let* s' := eget in
    if is_authorization_withdrawn selected_evses token s'
    then eret (mkSelectEvseResult None SelectEvseReturnStatus.Interrupted)
    else eret (mkSelectEvseResult (Some (get_latest_plugin selected_evses s'))
                 SelectEvseReturnStatus.EvseSelected).

Definition select_by_find_first (selected_evses : list Z) : AH SelectEvseResult :=
  let* s := eget in
  let selected_evse_id := get_latest_plugin selected_evses s in
  let* plugged_in_and_idle :=
    if selected_evse_id =? -1 then eret false
    else let* e := at_evse selected_evse_id in eret (negb (transaction_active e)) in
  if plugged_in_and_idle
  then eret (mkSelectEvseResult (Some selected_evse_id) SelectEvseReturnStatus.EvseSelected)
  else
    let* first := first_without_transaction selected_evses in
    match first with
    | Some evse_id =>
        eret (mkSelectEvseResult (Some evse_id) SelectEvseReturnStatus.EvseSelected)
    | None => eret (mkSelectEvseResult None SelectEvseReturnStatus.TimeOut)
    end.

Definition select_evse (selected_evses : list Z) (token : IdToken) : AH SelectEvseResult :=
  match selected_evses with
  | [evse_id] =>
      eret (mkSelectEvseResult (Some evse_id) SelectEvseReturnStatus.EvseSelected)
  | _ =>
      let* s := eget in
      match selection_algorithm s with
      | SelectionAlgorithm.PlugEvents => select_by_plug_events selected_evses token
      | SelectionAlgorithm.FindFirst => select_by_find_first selected_evses
      | SelectionAlgorithm.UserInput => ethrow not_implemented
      end
  end.

Definition notify_evse (evse_id : Z) (provided_token : ProvidedIdToken)
    (result : ValidationResult) : AH unit :=
  let* e := at_evse evse_id in
  let index := evse_index e in
  (if bool_decide (authorization_status result = AuthorizationStatus.Accepted)
   then
     modify_evse evse_id (set_identifier (Some (mkIdentifier (id_token provided_token)
       (authorization_type provided_token) (Some (authorization_status result))
       (vr_expiry_time result) (vr_parent_id_token result)))) ;;;
     wait_for_timeout_task evse_id ;;;
     modify_evse evse_id (set_timeout_timer (Some (AuthorizationTimeout provided_token))) ;;;
     remove_from_plug_in_queue evse_id
   else eret tt) ;;;
  call_callback has_notify_evse (notify_evse_callback index provided_token result).

(** ** The timeout tasks *)

(** The timer fires: its task marks itself as running before it asks for
    the mutex. *)
Definition timeout_fires (evse_id : Z) : AH (option TimeoutTask) :=
  let* e := at_evse evse_id in
  match timeout_timer e with
  | None => eret None
  | Some task =>
      modify_evse evse_id (fun e => set_timeout_in_progress true (set_timeout_timer None e)) ;;;
      eret (Some task)
  end.

(** The task armed by [notify_evse]. *)
Definition authorization_timeout (evse_id : Z) (provided_token : ProvidedIdToken) : AH unit :=
  let* e := at_evse evse_id in
  modify_evse evse_id (set_identifier None) ;;;
  call_callback has_withdraw_authorization (withdraw_authorization (evse_index e)) ;;;
  publish provided_token TokenValidationStatus.TimedOut ;;;
  modify_evse evse_id (set_timeout_in_progress false) ;;;
  eemit notify_all.

(** The task armed by a plug-in. *)
Definition plug_in_timeout_task (evse_id : Z) : AH unit :=
  let* e := at_evse evse_id in
  call_callback has_withdraw_authorization (withdraw_authorization (evse_index e)) ;;;
  remove_from_plug_in_queue evse_id ;;;
  modify_evse evse_id (set_plug_in_timeout true) ;;;
  modify_evse evse_id (set_timeout_in_progress false) ;;;
  eemit notify_all.

Definition timeout_task (evse_id : Z) (task : TimeoutTask) : AH unit :=
  match task with
  | AuthorizationTimeout token => authorization_timeout evse_id token
  | PlugInTimeout => plug_in_timeout_task evse_id
  end.

(** ** Tokens *)

(** The first part of [handle_token]: an RFID token that is used for a
    transaction stops it. *)
Definition stop_with_id_token (referenced_evses : list Z) (provided_token : ProvidedIdToken)
  : AH (option (TokenHandlingResult.t * ProvidedIdToken)) :=
  if bool_decide (authorization_type provided_token = AuthorizationType.RFID) then
    let* used := used_for_transaction referenced_evses (value (id_token provided_token)) in
    if negb (used =? -1) then
      let* e := at_evse used in
      call_callback has_stop_transaction (stop_transaction (evse_index e)
        (mkStopTransactionRequest StopTransactionReason.Local (Some provided_token))) ;;;
      let* e := at_evse used in
      match identifier e with
      | None => ethrow null_dereference
      | Some i =>
          let token := match i_parent_id_token i with
                       | Some p => set_token_parent (Some p) provided_token
                       | None => provided_token
                       end in
          eret (Some (TokenHandlingResult.USED_TO_STOP_TRANSACTION,
                      set_token_connectors [used] token))
      end
    else eret None
  else eret None.

(** The loop that looks for an EVSE which is not reserved or whose
    reservation the token, or a parent token, may match. *)
Fixpoint all_evses_reserved_and_tag_does_not_match (s : ah_state) (token : string)
    (evse_ids : list Z) : bool :=
  match evse_ids with
  | [] => true
  | evse_id :: rest =>
      if evse_id <? 0 then all_evses_reserved_and_tag_does_not_match s token rest
      else
        let evse_id_u := u32 evse_id in
        let rh := reservation_handler s in
        if negb (is_evse_reserved evse_id_u rh) && is_charging_possible (evses s) evse_id_u rh
        then false
        else if bool_decide (is_Some (matches_reserved_identifier token (Some evse_id_u) None rh))
        then false
        else if has_reservation_parent_id (evses s) (Some evse_id_u) rh then false
        else all_evses_reserved_and_tag_does_not_match s token rest
  end.

(** Whether the token cannot be used anywhere, before any validation. *)
Definition no_connector_for_token (referenced_evses : list Z)
    (provided_token : ProvidedIdToken) : AH bool :=
  let* s := eget in
  let* some_available := any_evse_available referenced_evses in
  let* some_parent := if some_available then eret true
                      else any_parent_id_present referenced_evses in
  if negb some_available && negb some_parent
     && bool_decide (master_pass_group_id s = None)
  then eret true
  else eret (all_evses_reserved_and_tag_does_not_match s (value (id_token provided_token))
               referenced_evses).

(** Validation, with the mutex released unless the token is prevalidated. *)
Definition validate_provided_token (provided_token : ProvidedIdToken)
  : AH (list ValidationResult) :=
  if bool_decide (prevalidated provided_token = Some true)
  then eret [mkValidationResult AuthorizationStatus.Accepted None
               (parent_id_token provided_token) None None]
  else
    call_callback has_validate_token (validate_token provided_token) ;;;
    release (Validating provided_token) ;;;
    eret (validate_token_callback provided_token).

(** The master pass: stop every active transaction. *)
Fixpoint stop_all_transactions (provided_token : ProvidedIdToken) (evse_ids : list Z)
  : AH (list Z) :=
  match evse_ids with
  | [] => eret []
  | evse_id :: rest =>
      let* s := eget in
      match StdMap.find evse_id (evses s) with
      | None => ethrow null_dereference
      | Some e =>
          if transaction_active e then
            call_callback has_stop_transaction (stop_transaction (evse_index e)
              (mkStopTransactionRequest StopTransactionReason.MasterPass
                 (Some provided_token))) ;;;
            let* stopped := stop_all_transactions provided_token rest in
            eret (evse_id :: stopped)
          else stop_all_transactions provided_token rest
      end
  end.

(** The loop that tries to stop transactions with the parent id token. *)
Fixpoint stop_with_parent_id_token (referenced_evses : list Z)
    (provided_token : ProvidedIdToken) (results : list ValidationResult)
  : AH (option (TokenHandlingResult.t * ProvidedIdToken)) :=
  match results with
  | [] => eret None
  | v :: rest =>
      let next := stop_with_parent_id_token referenced_evses provided_token rest in
      match authorization_status v, vr_parent_id_token v with
      | AuthorizationStatus.Accepted, Some parent =>
          let* s := eget in
          if equals_master_pass_group_id (Some parent) s then
            let* stopped := stop_all_transactions provided_token referenced_evses in
            eret (Some (TokenHandlingResult.USED_TO_STOP_TRANSACTION,
              set_token_connectors stopped (set_token_parent (Some parent) provided_token)))
          else
            let* used := used_for_transaction referenced_evses (value parent) in
            if used =? -1 then next
            else
              let token := set_token_connectors [used] provided_token in
              let* e := at_evse used in
              if negb (transaction_active e)
              then eret (Some (TokenHandlingResult.ALREADY_IN_PROCESS, token))
              else
                call_callback has_stop_transaction (stop_transaction (evse_index e)
                  (mkStopTransactionRequest StopTransactionReason.Local (Some token))) ;;;
                eret (Some (TokenHandlingResult.USED_TO_STOP_TRANSACTION,
                  set_token_parent (Some parent) token))
      | _, _ => next
      end
  end.

(** What is granted to the selected EVSE: whether the token is authorized,
    and the token, the validation result and the referenced EVSEs after it
    ([intersect] sorts its arguments in place). *)
Definition decide_authorization (evse_id : Z) (provided_token : ProvidedIdToken)
    (v : ValidationResult) (referenced_evses : list Z)
  : AH (bool * ProvidedIdToken * ValidationResult * list Z) :=
  let* s := eget in
  let rh := reservation_handler s in
  let evse_id_u := u32 evse_id in
  let matching := matches_reserved_identifier (value (id_token provided_token))
                    (Some evse_id_u) (value <$> vr_parent_id_token v) rh in
  let '(nowhere_authorized, v, referenced_evses) :=
    match vr_evse_ids v with
    | Some ids =>
        let '(both, (a, b)) := intersect referenced_evses ids in
        (bool_decide (both = []), set_vr_evse_ids b v, a)
    | None => (false, v, referenced_evses)
    end in
  if nowhere_authorized
  then eret (false, provided_token,
             set_authorization_status AuthorizationStatus.NotAtThisLocation v, referenced_evses)
  else if bool_decide (matching = None) && negb (is_charging_possible (evses s) evse_id_u rh)
  then eret (false, provided_token,
             set_authorization_status AuthorizationStatus.NotAtThisTime v, referenced_evses)
  else if negb (is_evse_reserved evse_id_u rh) && bool_decide (matching = None)
  then eret (true, set_token_connectors [evse_id] provided_token, v, referenced_evses)
  else match matching with
  | Some id =>
      on_reservation_handler (fun a => on_reservation_used (rh_cancelled_callback a) id) ;;;
      eret (true, set_token_connectors [evse_id] provided_token,
            set_vr_reservation_id id v, referenced_evses)
  | None =>
      eret (false, provided_token,
            set_authorization_status AuthorizationStatus.NotAtThisTime v, referenced_evses)
  end.

(** The loop over the validation results: [inl] is an early return, [inr]
    the outcome of the loop with the last validation result looked at. *)
Fixpoint authorize (results : list ValidationResult) (referenced_evses : list Z)
    (provided_token : ProvidedIdToken) (last : ValidationResult)
  : AH ((TokenHandlingResult.t * ProvidedIdToken)
        + (bool * ProvidedIdToken * ValidationResult)) :=
  match results, referenced_evses with
  | v :: rest, _ :: _ =>
      if bool_decide (authorization_status v = AuthorizationStatus.Accepted) then
        let* s := eget in
        if equals_master_pass_group_id (vr_parent_id_token v) s
        then eret (inl (TokenHandlingResult.REJECTED, provided_token))
        else
          let token := match vr_parent_id_token v with
                       | Some p => set_token_parent (Some p) provided_token
                       | None => provided_token
                       end in
          publish token TokenValidationStatus.Accepted ;;;
          wait_for_signal ;;;
          let* sel := select_evse referenced_evses (id_token token) in
          match sel_evse_id sel, sel_status sel with
          | None, SelectEvseReturnStatus.TimeOut =>
              eret (inl (TokenHandlingResult.TIMEOUT, token))
          | None, SelectEvseReturnStatus.Interrupted =>
              eret (inl (TokenHandlingResult.WITHDRAWN, token))
          | None, SelectEvseReturnStatus.EvseSelected => ethrow bad_optional_access
          | Some evse_id, _ =>
              let* d := decide_authorization evse_id token v referenced_evses in
              let '(authorized, token, v, referenced_evses) := d in
              notify_evse evse_id token v ;;;
              if authorized then eret (inr (true, token, v))
              else authorize rest referenced_evses token v
          end
      else authorize rest referenced_evses provided_token v
  | _, _ => eret (inr (false, provided_token, last))
  end.

(** [remove_if] of the EVSEs that already have an identifier. *)
Fixpoint without_identifier (evse_ids : list Z) : AH (list Z) :=
  match evse_ids with
  | [] => eret []
  | evse_id :: rest =>
      let* e := at_evse evse_id in
      let* kept := without_identifier rest in
      eret (match identifier e with Some _ => kept | None => evse_id :: kept end)
  end.

(** The end of [handle_token]: authorize, or tell the connectors of the
    token that it was not. *)
Definition authorize_referenced (results : list ValidationResult) (referenced_evses : list Z)
    (provided_token : ProvidedIdToken) : AH (TokenHandlingResult.t * ProvidedIdToken) :=
  match results with
  | [] => eret (TokenHandlingResult.REJECTED, provided_token)
  | _ =>
      let* outcome := authorize results referenced_evses provided_token
        (mkValidationResult AuthorizationStatus.Unknown None None None None) in
      match outcome with
      | inl r => eret r
      | inr (true, token, _) => eret (TokenHandlingResult.USED_TO_START_TRANSACTION, token)
      | inr (false, token, v) =>
          match p_connectors token with
          | Some cs => efor cs (fun connector => notify_evse connector token v)
          | None => eret tt
          end ;;;
          eret (TokenHandlingResult.REJECTED, token)
      end
  end.

(** [handle_token]: the result and the token as the caller sees it after. *)
Definition handle_token (provided_token : ProvidedIdToken)
  : AH (TokenHandlingResult.t * ProvidedIdToken) :=
  let* s := eget in
  let referenced_evses := get_referenced_evses provided_token s in
  let* stopped := stop_with_id_token referenced_evses provided_token in
  match stopped with
  | Some r => eret r
  | None =>
      let* none := no_connector_for_token referenced_evses provided_token in
      if none then eret (TokenHandlingResult.NO_CONNECTOR_AVAILABLE, provided_token)
      else
        let* validation_results := validate_provided_token provided_token in
        let* s := eget in
        let* attempt_stop_with_parent_id_token :=
          if prioritize_authorization_over_stopping_transaction s
          then let* a := any_evse_available referenced_evses in eret (negb a)
          else eret true in
        let* stopped :=
          if attempt_stop_with_parent_id_token
          then stop_with_parent_id_token referenced_evses provided_token validation_results
          else eret None in
        match stopped with
        | Some r => eret r
        | None =>
            let* available := any_evse_available referenced_evses in
            if negb available
            then eret (TokenHandlingResult.NO_CONNECTOR_AVAILABLE, provided_token)
            else
              let* referenced_evses := without_identifier referenced_evses in
              authorize_referenced validation_results referenced_evses provided_token
        end
  end.

Definition publish_result (result : TokenHandlingResult.t) (token : ProvidedIdToken) : AH unit :=
  match result with
  | TokenHandlingResult.ALREADY_IN_PROCESS => eret tt
  | TokenHandlingResult.TIMEOUT => publish token TokenValidationStatus.TimedOut
  | TokenHandlingResult.NO_CONNECTOR_AVAILABLE
  | TokenHandlingResult.REJECTED => publish token TokenValidationStatus.Rejected
  | TokenHandlingResult.USED_TO_START_TRANSACTION =>
      publish token TokenValidationStatus.UsedToStart
  | TokenHandlingResult.USED_TO_STOP_TRANSACTION =>
      publish token TokenValidationStatus.UsedToStop
  | TokenHandlingResult.WITHDRAWN => publish token TokenValidationStatus.Withdrawn
  end.

Definition on_token (provided_token : ProvidedIdToken) : AH TokenHandlingResult.t :=
  let* s := eget in
  if negb (has_publish_token_validation_status (callbacks s))
  then eret TokenHandlingResult.REJECTED
  else
    let referenced_evses := get_referenced_evses provided_token s in
    let* in_process := is_token_already_in_process provided_token referenced_evses in
    let* r :=
      if negb in_process then
        emodify (fun s =>
          set_tokens_in_process (TokenSet.insert provided_token (tokens_in_process s)) s) ;;;
        publish provided_token TokenValidationStatus.Processing ;;;
        handle_token provided_token
      else eret (TokenHandlingResult.ALREADY_IN_PROCESS, provided_token) in
    let '(result, provided_token_copy) := r in
    publish_result result provided_token_copy ;;;
    (if bool_decide (result = TokenHandlingResult.ALREADY_IN_PROCESS) then eret tt
     else emodify (fun s =>
       set_tokens_in_process (TokenSet.erase provided_token (tokens_in_process s)) s)) ;;;
    eemit notify_processing_finished ;;;
    eret result.

Definition handle_token_validation_result_update (u : ValidationResultUpdate) : AH unit :=
  let evse_id := u_connector_id u in
  let* s := eget in
  match e ← StdMap.find evse_id (evses s); identifier e with
  | Some i =>
      modify_evse evse_id (set_identifier (Some (mkIdentifier (i_id_token i) (i_type i)
        (Some (authorization_status (validation_result u))) (i_expiry_time i)
        (vr_parent_id_token (validation_result u))))) ;;;
      publish (mkProvidedIdToken None (i_id_token i)
                 (vr_parent_id_token (validation_result u)) (i_type i) (Some [evse_id]) None)
        TokenValidationStatus.Accepted
  | None => eret tt
  end.

(** ** Reservations *)

Definition handle_reservation (now : Z) (r : Reservation) : AH ReservationResult.t :=
  let evse := match r_evse_id r with
              | Some e => if 0 <=? e then Some (u32 e) else None
              | None => None
              end in
  on_reservation_handler (fun a =>
    make_reservation (evses a) (rh_cancelled_callback a) from_rfc3339 now evse r).

Definition handle_cancel_reservation (id : Z) : AH (bool * option Z) :=
  let* cancelled := on_reservation_handler (fun a =>
    cancel_reservation (rh_cancelled_callback a) id false ReservationEndReason.Cancelled) in
  eret (if cancelled.1 then (true, i32 <$> cancelled.2) else (false, None)).

(** The argument [evse_id.has_value()] of [is_evse_reserved] is converted to
    the EVSE id 1. *)
Definition handle_reservation_exists (token : string) (evse_id : option Z)
    (group_id_token : option string) (s : ah_state) : ReservationCheckStatus.t :=
  let rh := reservation_handler s in
  let matching := matches_reserved_identifier token (u32 <$> evse_id) group_id_token rh in
  match evse_id with
  | None => match matching with
            | Some _ => ReservationCheckStatus.ReservedForToken
            | None => ReservationCheckStatus.NotReserved
            end
  | Some e =>
      if negb (is_evse_reserved (Z.b2z (bool_decide (is_Some evse_id))) rh)
      then ReservationCheckStatus.NotReserved
      else match matching with
      | Some _ => ReservationCheckStatus.ReservedForToken
      | None =>
          match group_id_token with
          | None => if has_reservation_parent_id (evses s) (u32 <$> evse_id) rh
                    then ReservationCheckStatus.ReservedForOtherTokenAndHasParentToken
                    else ReservationCheckStatus.ReservedForOtherToken
          | Some _ => ReservationCheckStatus.ReservedForOtherToken
          end
      end
  end.

(** The timer of a reservation fires. *)
Definition reservation_timer_fires (id : Z) : AH unit :=
  on_reservation_handler (fun a => on_reservation_expired (rh_cancelled_callback a) id).

(** ** Events of the EVSEs *)

Definition submit_event_for_connector (evse_id connector_id : Z) (ev : ConnectorEvent.t)
  : AH unit :=
  let* e := at_evse evse_id in
  match List.find (fun c => c_id c =? connector_id) (connectors e) with
  | None => eret tt
  | Some c =>
      modify_evse evse_id (fun e =>
        set_connectors (update_connector connector_id (submit_event ev) (connectors e)) e) ;;;
      on_reservation_handler (fun a =>
        on_connector_state_changed (evses a) (rh_cancelled_callback a)
          (c_state (submit_event ev c)) (u32 evse_id) (u32 connector_id))
  end.

Definition handle_permanent_fault_raised (evse_id connector_id : Z) : AH unit :=
  let* s := eget in
  if negb (ignore_faults s)
  then submit_event_for_connector evse_id connector_id ConnectorEvent.FAULTED else eret tt.

Definition handle_permanent_fault_cleared (evse_id connector_id : Z) : AH unit :=
  let* s := eget in
  if negb (ignore_faults s)
  then submit_event_for_connector evse_id connector_id ConnectorEvent.ERROR_CLEARED else eret tt.

(** The switch of [handle_session_event]: whether the reservations are to
    be checked. *)
Definition session_event_switch (evse_id connector_id : Z) (ev : SessionEvent) : AH bool :=
  match event ev with
  | SessionEventEnum.SessionStarted =>
      match session_started ev with
      | None => ethrow bad_optional_access
      | Some StartSessionReason.EVConnected =>
          emodify (fun s => set_plug_in_queue (plug_in_queue s ++ [evse_id]) s) ;;;
          eemit notify_all ;;;
          modify_evse evse_id (set_plugged_in true) ;;;
          modify_evse evse_id (set_timeout_timer (Some PlugInTimeout)) ;;;
          eret false
      | Some StartSessionReason.Authorized => eret false
      end
  | SessionEventEnum.TransactionStarted =>
      modify_evse evse_id (set_plugged_in true) ;;;
      modify_evse evse_id (set_transaction_active true) ;;;
      submit_event_for_connector evse_id connector_id ConnectorEvent.TRANSACTION_STARTED ;;;
      wait_for_timeout_task evse_id ;;;
      modify_evse evse_id (set_timeout_timer None) ;;;
      eret true
  | SessionEventEnum.TransactionFinished =>
      modify_evse evse_id (set_transaction_active false) ;;;
      modify_evse evse_id (set_identifier None) ;;;
      eret false
  | SessionEventEnum.SessionFinished =>
      modify_evse evse_id (set_plugged_in false) ;;;
      modify_evse evse_id (set_plug_in_timeout false) ;;;
      modify_evse evse_id (set_identifier None) ;;;
      submit_event_for_connector evse_id connector_id ConnectorEvent.SESSION_FINISHED ;;;
      wait_for_timeout_task evse_id ;;;
      modify_evse evse_id (set_timeout_timer None) ;;;
      remove_from_plug_in_queue evse_id ;;;
      eret true
  | SessionEventEnum.Disabled =>
      submit_event_for_connector evse_id connector_id ConnectorEvent.DISABLE ;;; eret true
  | SessionEventEnum.Enabled =>
      submit_event_for_connector evse_id connector_id ConnectorEvent.ENABLE ;;; eret true
  | SessionEventEnum.Deauthorized =>
      modify_evse evse_id (set_identifier None) ;;;
      wait_for_timeout_task evse_id ;;;
      modify_evse evse_id (set_timeout_timer None) ;;;
      eret false
  | SessionEventEnum.ReservationEnd =>
      let* s := eget in
      (if is_evse_reserved (u32 evse_id) (reservation_handler s)
       then on_reservation_handler (fun a =>
              cancel_reservation_evse (rh_cancelled_callback a) (u32 evse_id) true) ;;; eret tt
       else eret tt) ;;;
      eret false
  | _ => eret false
  end.

Definition handle_session_event (evse_id : Z) (ev : SessionEvent) : AH unit :=
  let connector_id := default 1 (connector_id ev) in
  let* s := eget in
  if evse_id <=? 0 then eret tt
  else if connector_id <=? 0 then eret tt
  else if negb (StdMap.count evse_id (evses s)) then eret tt
  else
    let* check_reservations := session_event_switch evse_id connector_id ev in
    if check_reservations
    then on_reservation_handler check_evse_reserved_and_send_updates
    else eret tt.

(** ** Withdrawing authorization *)

Definition is_withdraw_request_targeting_token_in_process
    (req : WithdrawAuthorizationRequest) (s : ah_state) : bool :=
  existsb (fun token =>
    does_withdraw_request_match req (get_referenced_evses token s) (id_token token))
    (tokens_in_process s).

Definition withdraw_authorization_or_stop_transaction (e : EVSEContext) : AH unit :=
  if transaction_active e
  then call_callback has_stop_transaction (stop_transaction (evse_index e)
         (mkStopTransactionRequest StopTransactionReason.DeAuthorized None))
  else call_callback has_withdraw_authorization (withdraw_authorization (evse_index e)).

(** Whether the identifier an EVSE is authorized with is the request's, any
    identifier when the request names none. *)
Definition identifier_targeted (req : WithdrawAuthorizationRequest) (e : EVSEContext) : bool :=
  match identifier e, w_id_token req with
  | Some i, Some t => Helpers.is_equal_case_insensitive_IdToken t (i_id_token i)
  | Some _, None => true
  | None, _ => false
  end.

(** The loop over all EVSEs; [found] is whether one was targeted. *)
Fixpoint withdraw_all (req : WithdrawAuthorizationRequest) (es : list (Z * EVSEContext))
    (found : bool) : AH bool :=
  match es with
  | [] => eret found
  | (_, e) :: rest =>
      if identifier_targeted req e
      then withdraw_authorization_or_stop_transaction e ;;; withdraw_all req rest true
      else withdraw_all req rest found
  end.

Definition handle_withdraw_authorization (req : WithdrawAuthorizationRequest)
  : AH WithdrawAuthorizationResult.t :=
  let* s := eget in
  if match w_evse_id req with Some e => negb (StdMap.count e (evses s)) | None => false end
  then eret WithdrawAuthorizationResult.EvseNotFound
  else
    emodify (set_withdraw_request (Some req)) ;;;
    let* targeting :=
      let* s := eget in
      if is_withdraw_request_targeting_token_in_process req s then
        eemit notify_all ;;;
        wait (WaitingForProcessing req)
          (fun s => negb (is_withdraw_request_targeting_token_in_process req s)) ;;;
        eret true
      else eret false in
    let* found :=
      match w_evse_id req with
      | Some evse_id => let* e := at_evse evse_id in withdraw_all req [(evse_id, e)] targeting
      | None => let* s := eget in withdraw_all req (evses s) targeting
      end in
    eret (if found then WithdrawAuthorizationResult.Accepted
          else WithdrawAuthorizationResult.AuthorizationNotFound).
End AuthHandler.
