(* ===== verification/AuthProofs.v ===== *)
(** * The invariant of the Auth handler

    Lemmas on the pieces of [AuthHandler], and that every handler keeps the
    invariant [ah_inv] whatever the other threads do while it has released
    the mutex, as long as they keep it too. *)
From S2P Require Import Prelude AuthTypes Connector StdAlgorithm ReservationHandler.
From S2P Require Import ReservationArrival ReservationProofs AuthHandler.
From stdpp Require Import base tactics list numbers strings sorting sets relations.
Open Scope Z_scope.
Open Scope everest_scope.

Create HintDb auth.
#[export] Hint Resolve preserves_ret preserves_get preserves_emit preserves_throw : auth.

(** ** Tokens in process *)

Lemma ltb_both_false a b : String.ltb a b = false -> String.ltb b a = false -> a = b.
Proof.
  unfold String.ltb. rewrite (String.compare_antisym a b).
  destruct (String.compare b a) eqn:E; simpl; try done.
  intros _ _. symmetry. by apply String.compare_eq_iff.
Qed.

Lemma ltb_irrefl a : String.ltb a a = false.
Proof.
  unfold String.ltb. pose proof (String.compare_antisym a a) as H.
  by destruct (String.compare a a).
Qed.

Lemma token_same_spec a b :
  TokenSet.same a b = true <-> value (id_token a) = value (id_token b).
Proof.
  unfold TokenSet.same, TokenSet.lt. rewrite andb_true_iff, !negb_true_iff. split.
  - intros [H1 H2]. by apply ltb_both_false.
  - intros ->. by rewrite ltb_irrefl.
Qed.

(** The values of the tokens in process. *)
Definition token_values (l : list ProvidedIdToken) : list string :=
  map (fun t => value (id_token t)) l.

Lemma token_mem_spec x l : TokenSet.mem x l = true <-> value (id_token x) ∈ token_values l.
Proof.
  unfold TokenSet.mem, token_values. rewrite existsb_exists, list_elem_of_fmap.
  split; intros (y & H1 & H2); exists y.
  - split; [by apply token_same_spec in H2|by apply list_elem_of_In].
  - split; [by apply list_elem_of_In|by apply token_same_spec].
Qed.

Lemma token_insert_values x l v :
  v ∈ token_values (TokenSet.insert x l) <-> v = value (id_token x) \/ v ∈ token_values l.
Proof.
  induction l as [|y l IH]; simpl; [set_solver|].
  destruct (TokenSet.lt x y) eqn:H1; simpl; [set_solver|].
  destruct (TokenSet.lt y x) eqn:H2; simpl; [set_solver|].
  pose proof (ltb_both_false _ _ H1 H2) as ->. set_solver.
Qed.

Lemma token_erase_values x l v :
  v ∈ token_values (TokenSet.erase x l) <-> v <> value (id_token x) /\ v ∈ token_values l.
Proof.
  unfold TokenSet.erase, token_values. rewrite !list_elem_of_fmap. split.
  - intros (y & -> & [Hy Hn]%list_elem_of_In%filter_In).
    split; [|exists y; by rewrite list_elem_of_In]. intros E.
    rewrite negb_true_iff in Hn. apply not_true_iff_false in Hn. apply Hn.
    by apply token_same_spec.
  - intros [Hne (y & -> & Hy)]. exists y. split; [done|].
    apply list_elem_of_In, filter_In. split; [by apply list_elem_of_In|].
    apply negb_true_iff, not_true_iff_false. by rewrite token_same_spec.
Qed.

(** ** Reading and writing the EVSEs *)

Lemma at_evse_run k s :
  at_evse k s = match StdMap.find k (evses s) with
                | Some e => (Ok e, s, [])
                | None => (Err out_of_range, s, [])
                end.
Proof. unfold at_evse. rewrite run_get_bind. by case_match. Qed.

Lemma modify_evse_run k f s e :
  StdMap.find k (evses s) = Some e ->
  modify_evse k f s = (Ok tt, set_evses (StdMap.alter f k (evses s)) s, []).
Proof. intros Hf. unfold modify_evse, ebind. by rewrite at_evse_run, Hf. Qed.

Lemma modify_evse_missing k f s :
  StdMap.find k (evses s) = None -> modify_evse k f s = (Err out_of_range, s, []).
Proof. intros Hf. unfold modify_evse, ebind. by rewrite at_evse_run, Hf. Qed.

Lemma call_callback_run has o s :
  call_callback has o s =
  if has (callbacks s) then (Ok tt, s, [o]) else (Err bad_function_call, s, []).
Proof. unfold call_callback. rewrite run_get_bind. by case_match. Qed.

Lemma on_rh_run {A} (m : ah_state -> RH A) s :
  on_reservation_handler m s =
  let '(r, rh, o) := m s (reservation_handler s) in (r, set_reservation_handler rh s, o).
Proof. done. Qed.

(** ** Read-only actions *)

(** An action that leaves the state alone. *)
Definition pure_action {A} (m : AH A) : Prop := forall s, run_state m s = s.

Lemma pure_ret {A} (a : A) : pure_action (eret a).
Proof. by intros s. Qed.
Lemma pure_get : pure_action eget.
Proof. by intros s. Qed.
Lemma pure_emit o : pure_action (eemit o).
Proof. by intros s. Qed.
Lemma pure_throw {A} e : pure_action (ethrow e : AH A).
Proof. by intros s. Qed.
Lemma pure_bind {A B} (m : AH A) (f : A -> AH B) :
  pure_action m -> (forall a, pure_action (f a)) -> pure_action (ebind m f).
Proof.
  intros Hm Hf s. specialize (Hm s). unfold run_state, ebind in *.
  destruct (m s) as [[[a|e] s'] o]; simpl in *; subst; [|done].
  specialize (Hf a s). unfold run_state in Hf. by destruct (f a s) as [[??]?].
Qed.
Lemma pure_at k : pure_action (at_evse k).
Proof. intros s. unfold run_state. rewrite at_evse_run. by case_match. Qed.
Lemma pure_call has o : pure_action (call_callback has o).
Proof. intros s. unfold run_state. rewrite call_callback_run. by case_match. Qed.

#[export] Hint Resolve pure_ret pure_get pure_emit pure_throw pure_at pure_call : auth.

(** Reads the structure of an action: binds, then case distinctions. *)
Ltac auth_steps bind :=
  repeat first
    [ progress intros | solve [auto with auth] | apply bind | case_match ].

Ltac solve_pure := auth_steps @pure_bind.

Lemma pure_used_for_transaction l t : pure_action (used_for_transaction l t).
Proof. induction l; simpl; solve_pure. Qed.
Lemma pure_authorized_without l t : pure_action (authorized_without_transaction l t).
Proof. induction l; simpl; solve_pure. Qed.
Lemma pure_any_available l : pure_action (any_evse_available l).
Proof. induction l; simpl; solve_pure. Qed.
Lemma pure_any_parent l : pure_action (any_parent_id_present l).
Proof. induction l; simpl; solve_pure. Qed.
Lemma pure_first_without l : pure_action (first_without_transaction l).
Proof. induction l; simpl; solve_pure. Qed.
Lemma pure_without_identifier l : pure_action (without_identifier l).
Proof. induction l; simpl; solve_pure. Qed.
Lemma pure_stop_all t l : pure_action (stop_all_transactions t l).
Proof. induction l; simpl; solve_pure. Qed.
#[export] Hint Resolve pure_used_for_transaction pure_authorized_without pure_any_available
  pure_any_parent pure_first_without pure_without_identifier pure_stop_all : auth.

Lemma pure_already_in_process t l : pure_action (is_token_already_in_process t l).
Proof. unfold is_token_already_in_process. solve_pure. Qed.
Lemma pure_stop_with_id l t : pure_action (stop_with_id_token l t).
Proof. unfold stop_with_id_token. solve_pure. Qed.
Lemma pure_no_connector l t : pure_action (no_connector_for_token l t).
Proof. unfold no_connector_for_token. solve_pure. Qed.
Lemma pure_stop_with_parent l t vs : pure_action (stop_with_parent_id_token l t vs).
Proof. induction vs; simpl; solve_pure. Qed.
Lemma pure_find_first l : pure_action (select_by_find_first l).
Proof. unfold select_by_find_first. solve_pure. Qed.
Lemma pure_publish t st : pure_action (publish t st).
Proof. unfold publish. solve_pure. Qed.
Lemma pure_publish_result r t : pure_action (publish_result r t).
Proof. unfold publish_result, publish. solve_pure. Qed.
Lemma pure_withdraw_or_stop e : pure_action (withdraw_authorization_or_stop_transaction e).
Proof. unfold withdraw_authorization_or_stop_transaction. solve_pure. Qed.
#[export] Hint Resolve pure_already_in_process pure_stop_with_id pure_no_connector
  pure_stop_with_parent pure_find_first pure_publish pure_publish_result
  pure_withdraw_or_stop : auth.
Lemma pure_withdraw_all req es b : pure_action (withdraw_all req es b).
Proof. revert b. induction es as [|[k e] es IH]; simpl; solve_pure. Qed.
#[export] Hint Resolve pure_withdraw_all : auth.

(** ** The invariant *)

Record ah_inv (s : ah_state) : Prop := mkAhInv {
  inv_evses_sorted : StdMap.sorted (evses s);
  inv_evse_ids : forall k e, StdMap.find k (evses s) = Some e -> 0 < k /\ e_evse_id e = k;
  inv_queue : forall k, k ∈ plug_in_queue s -> k ∈ StdMap.keys (evses s);
  inv_reservations : rh_inv (reservation_handler s);
}.

Lemma pure_preserves {A} (I : ah_state -> Prop) (m : AH A) : pure_action m -> preserves I m.
Proof. intros Hm s Hs. by rewrite Hm. Qed.
#[export] Hint Resolve pure_preserves : auth.

Lemma inv_modify_evse k f :
  (forall e, e_evse_id (f e) = e_evse_id e) -> preserves ah_inv (modify_evse k f).
Proof.
  intros Hf s [H1 H2 H3 H4]. unfold run_state.
  destruct (StdMap.find k (evses s)) as [e|] eqn:He;
    [|by rewrite modify_evse_missing].
  rewrite (modify_evse_run _ _ _ _ He). split; simpl; [|..|done].
  - by apply StdMap.sorted_alter.
  - intros j e'. rewrite StdMap.find_alter. destruct (Z.eqb_spec k j) as [->|]; [|apply H2].
    rewrite He. intros [= <-]. rewrite Hf. by apply H2.
  - intros j. rewrite StdMap.keys_alter. apply H3.
Qed.

Lemma inv_on_rh {A} (m : ah_state -> RH A) :
  (forall a, preserves rh_inv (m a)) -> preserves ah_inv (on_reservation_handler m).
Proof.
  intros Hm s [H1 H2 H3 H4]. unfold run_state. rewrite on_rh_run.
  specialize (Hm s _ H4). unfold run_state in Hm.
  by destruct (m s (reservation_handler s)) as [[??]?].
Qed.

(** A member the invariant does not mention. *)
Definition inv_view (s : ah_state) := (evses s, plug_in_queue s, reservation_handler s).

Lemma inv_modify_other f :
  (forall s, inv_view (f s) = inv_view s) -> preserves ah_inv (emodify f : AH unit).
Proof.
  intros Hf. apply preserves_modify. intros s [H1 H2 H3 H4].
  specialize (Hf s). injection Hf as He Hq Hr.
  split; by rewrite ?He, ?Hq, ?Hr.
Qed.

Lemma inv_remove_from_queue k : preserves ah_inv (remove_from_plug_in_queue k).
Proof.
  apply preserves_modify. intros s [H1 H2 H3 H4]. split; try done.
  intros j [Hj _]%list_elem_of_In%filter_In. apply H3. by apply list_elem_of_In.
Qed.

#[export] Hint Resolve inv_modify_evse inv_modify_other inv_remove_from_queue : auth.
#[export] Hint Extern 1 (forall _, inv_view _ = inv_view _) => done : auth.
#[export] Hint Extern 1 (forall _, e_evse_id _ = e_evse_id _) => done : auth.

(** ** Statuses leave the reservations alone *)

(** An action of the reservation handler that changes at most the statuses. *)
Definition keeps_res {A} (m : RH A) : Prop := forall s, same_reservations (run_state m s) s.

Lemma keeps_pure {A} (m : RH A) : (forall s, run_state m s = s) -> keeps_res m.
Proof. intros Hm s. by rewrite Hm. Qed.

Lemma keeps_bind {A B} (m : RH A) (f : A -> RH B) :
  keeps_res m -> (forall a, keeps_res (f a)) -> keeps_res (ebind m f).
Proof.
  intros Hm Hf s. specialize (Hm s). unfold run_state, ebind in *.
  destruct (m s) as [[[a|e] s'] o]; simpl in *; [|done].
  specialize (Hf a s'). unfold run_state in Hf. destruct (f a s') as [[??]?]; simpl in *.
  by etrans.
Qed.

Lemma keeps_for {A} (l : list A) (f : A -> RH unit) :
  (forall x, keeps_res (f x)) -> keeps_res (efor l f).
Proof.
  intros Hf. induction l as [|x l IH]; simpl; [by intros s|]. by apply keeps_bind.
Qed.

Lemma keeps_ret {A} (a : A) : keeps_res (eret a).
Proof. by intros s. Qed.
Lemma keeps_emit o : keeps_res (eemit o).
Proof. by intros s. Qed.
Lemma keeps_throw {A} e : keeps_res (ethrow e : RH A).
Proof. by intros s. Qed.
Lemma keeps_check_number es :
  keeps_res (check_number_global_reservations_match_number_available_evses es).
Proof. intros s. apply check_number_same. Qed.
#[export] Hint Resolve keeps_ret keeps_emit keeps_throw keeps_check_number keeps_for : auth.

Lemma keeps_check_evse rc a : keeps_res (check_evse_reserved_and_send_updates rc a).
Proof.
  unfold check_evse_reserved_and_send_updates.
  apply keeps_bind; [auto with auth|]. intros st.
  apply keeps_bind; [|intros _]; apply keeps_for; intros e; case_match; auto with auth.
  apply keeps_bind; [auto with auth|]. intros _. case_match; auto with auth.
Qed.
#[export] Hint Resolve keeps_check_evse : auth.

(** The callback that the Auth handler registers keeps the promise the
    reservation handler's theorems ask for. *)
#[global] Instance rh_callback_keeps rc a : KeepsReservations (rh_cancelled_callback rc a).
Proof.
  unfold rh_cancelled_callback. case_match; [|apply keeps_reservations_none].
  intros f e id why send s [= <-].
  destruct (match i32 <$> e with Some _ => _ | None => _ end); [apply keeps_ret|].
  unfold call_reservation_cancelled.
  apply keeps_bind; [case_match|]; auto with auth.
Qed.

Lemma keeps_preserves {A} (m : RH A) : keeps_res m -> preserves rh_inv m.
Proof. intros Hm s Hs. by rewrite (Hm s). Qed.

(** ** Every handler keeps the invariant *)

Section Handlers.
Context (vt : ProvidedIdToken -> list ValidationResult) (rc : option Z -> Z -> bool).
Context (clock : string -> Z) (env : Site -> ah_state -> ah_state) (sig : ah_state -> bool).
(** What the other threads promise, and what the handlers promise them. *)
Hypothesis env_inv : forall site s, ah_inv s -> ah_inv (env site s).

Ltac solve_inv := auth_steps @preserves_bind.

Lemma inv_release site : preserves ah_inv (release env site).
Proof. apply preserves_modify, env_inv. Qed.
#[local] Hint Resolve inv_release : auth.

Lemma inv_wait site p : preserves ah_inv (wait env site p).
Proof. unfold wait. solve_inv. Qed.
Lemma inv_wait_for site p : preserves ah_inv (wait_for env site p).
Proof. unfold wait_for. solve_inv. Qed.
#[local] Hint Resolve inv_wait inv_wait_for : auth.
Lemma inv_wait_task k : preserves ah_inv (wait_for_timeout_task env k).
Proof. unfold wait_for_timeout_task. solve_inv. Qed.
Lemma inv_wait_signal : preserves ah_inv (wait_for_signal sig).
Proof. unfold wait_for_signal. solve_inv. Qed.
#[local] Hint Resolve inv_wait_task inv_wait_signal : auth.

Lemma inv_select l t : preserves ah_inv (select_evse env l t).
Proof. unfold select_evse, select_by_plug_events. solve_inv. Qed.

Lemma inv_notify k t v : preserves ah_inv (notify_evse env k t v).
Proof. unfold notify_evse. solve_inv. Qed.
#[local] Hint Resolve inv_select inv_notify : auth.

Lemma inv_reservation_used id :
  preserves ah_inv (on_reservation_handler (fun a =>
    on_reservation_used (rh_cancelled_callback rc a) id)).
Proof.
  apply inv_on_rh. intros a s Hs. unfold on_reservation_used.
  rewrite cancel_then_unit. by apply cancel_preserves; [apply _|].
Qed.
#[local] Hint Resolve inv_reservation_used : auth.

Lemma inv_decide k t v l : preserves ah_inv (decide_authorization rc k t v l).
Proof. unfold decide_authorization. solve_inv. Qed.
#[local] Hint Resolve inv_decide : auth.

Lemma inv_authorize vs l t v : preserves ah_inv (authorize rc env sig vs l t v).
Proof.
  revert l t v. induction vs as [|v vs IH]; intros l t last; simpl; [auto with auth|].
  solve_inv.
Qed.
#[local] Hint Resolve inv_authorize : auth.

Lemma inv_authorize_referenced vs l t :
  preserves ah_inv (authorize_referenced rc env sig vs l t).
Proof. unfold authorize_referenced. solve_inv. apply preserves_for. auto with auth. Qed.
#[local] Hint Resolve inv_authorize_referenced : auth.

Lemma inv_handle_token t : preserves ah_inv (handle_token vt rc env sig t).
Proof. unfold handle_token, validate_provided_token. solve_inv. Qed.
#[local] Hint Resolve inv_handle_token : auth.

Lemma inv_on_token t : preserves ah_inv (on_token vt rc env sig t).
Proof. unfold on_token. solve_inv. Qed.

Lemma inv_submit_event k c ev : preserves ah_inv (submit_event_for_connector rc k c ev).
Proof.
  unfold submit_event_for_connector. solve_inv. apply inv_on_rh. intros b.
  apply connector_changed_preserves. apply _.
Qed.
Lemma inv_check : preserves ah_inv (on_reservation_handler (check_evse_reserved_and_send_updates rc)).
Proof. apply inv_on_rh. intros a. apply keeps_preserves. auto with auth. Qed.
#[local] Hint Resolve inv_submit_event inv_check : auth.

Lemma inv_push_queue k s :
  ah_inv s -> k ∈ StdMap.keys (evses s) ->
  ah_inv (set_plug_in_queue (plug_in_queue s ++ [k]) s).
Proof.
  intros [H1 H2 H3 H4] Hk. split; try done. simpl. intros j. rewrite elem_of_app.
  intros [?|?%list_elem_of_singleton]; [by apply H3|by subst].
Qed.

Lemma inv_session_switch k c ev s :
  ah_inv s -> k ∈ StdMap.keys (evses s) ->
  ah_inv (run_state (session_event_switch rc env k c ev) s).
Proof.
  intros Hs Hk. unfold session_event_switch.
  destruct (event ev); try done; try (revert Hs; generalize s; solve_inv; fail).
  - destruct (session_started ev) as [[]|]; try done.
    unfold run_state. rewrite ebind_modify.
    match goal with |- ah_inv (?m ?s').1.2 => enough (preserves ah_inv m) as Hp end.
    { by apply Hp, inv_push_queue. }
    solve_inv.
  - revert Hs. generalize s. solve_inv. apply inv_on_rh. intros b s' Hs'.
    unfold cancel_reservation_evse. revert s' Hs'.
    apply preserves_bind; [apply preserves_get|]. intros s'. case_match; [|apply preserves_ret].
    apply preserves_bind; [apply cancel_preserves, _|]. intros. apply preserves_ret.
Qed.

Lemma inv_session_event k ev : preserves ah_inv (handle_session_event rc env k ev).
Proof.
  intros s Hs. unfold handle_session_event, run_state. rewrite run_get_bind.
  case_match; [done|]. case_match; [done|].
  destruct (StdMap.count k (evses s)) eqn:Hc; cbn [negb]; [|done].
  apply StdMap.count_spec in Hc.
  pose proof (inv_session_switch k (default 1 (connector_id ev)) ev s Hs Hc) as Hsw.
  unfold run_state, ebind in *.
  destruct (session_event_switch _ _ _ _ _ s) as [[[b|e] s'] o]; simpl in *; [|done].
  destruct b; [|done]. pose proof (inv_check s' Hsw) as Hck. unfold run_state in Hck.
  by destruct (on_reservation_handler _ s') as [[??]?].
Qed.

Lemma inv_withdraw req : preserves ah_inv (handle_withdraw_authorization env req).
Proof. unfold handle_withdraw_authorization. solve_inv. Qed.

Lemma inv_timeout_fires k : preserves ah_inv (timeout_fires k).
Proof. unfold timeout_fires. solve_inv. Qed.

Lemma inv_timeout_task k task : preserves ah_inv (timeout_task k task).
Proof. unfold timeout_task, authorization_timeout, plug_in_timeout_task. solve_inv. Qed.

Lemma inv_update u : preserves ah_inv (handle_token_validation_result_update u).
Proof. unfold handle_token_validation_result_update. solve_inv. Qed.

Lemma inv_initialize now stored : preserves ah_inv (initialize rc clock now stored).
Proof.
  unfold initialize. apply preserves_bind; [|intros; apply inv_check].
  apply inv_on_rh. intros a. apply load_preserves. apply _.
Qed.

Lemma inv_init_evse k i cs : preserves ah_inv (init_evse k i cs).
Proof.
  unfold init_evse. destruct (Z.leb_spec k 0); [apply preserves_ret|].
  apply preserves_modify. intros s [H1 H2 H3 H4]. split; simpl; [|..|done].
  - by apply StdMap.sorted_insert.
  - intros j e. destruct (decide (k = j)) as [->|].
    + rewrite StdMap.find_insert_eq. by intros [= <-].
    + rewrite StdMap.find_insert_ne by done. apply H2.
  - intros j Hj. apply StdMap.elem_of_keys_insert. right. by apply H3.
Qed.

Lemma inv_call_reserved id e : preserves ah_inv (call_reserved rc id e).
Proof. unfold call_reserved. solve_inv. Qed.

Lemma inv_handle_reservation now r : preserves ah_inv (handle_reservation rc clock now r).
Proof.
  unfold handle_reservation. apply inv_on_rh. intros a. apply make_preserves_inv.
Qed.

Lemma inv_handle_cancel id : preserves ah_inv (handle_cancel_reservation rc id).
Proof.
  unfold handle_cancel_reservation. apply preserves_bind; [|auto with auth].
  apply inv_on_rh. intros a. apply cancel_preserves. apply _.
Qed.

Lemma inv_reservation_timer id : preserves ah_inv (reservation_timer_fires rc id).
Proof.
  apply inv_on_rh. intros a s Hs. unfold on_reservation_expired.
  rewrite cancel_then_unit. by apply cancel_preserves; [apply _|].
Qed.

Lemma inv_fault_raised k c : preserves ah_inv (handle_permanent_fault_raised rc k c).
Proof. unfold handle_permanent_fault_raised. solve_inv. Qed.
Lemma inv_fault_cleared k c : preserves ah_inv (handle_permanent_fault_cleared rc k c).
Proof. unfold handle_permanent_fault_cleared. solve_inv. Qed.

(** Everything that can happen to the Auth handler. *)
Inductive ah_op : Type :=
| op_init_evse (evse_id index : Z) (cs : list Connector)
| op_initialize (now : Z) (stored : option (list (option Z * option Reservation)))
| op_register (c : CallbackName)
| op_config (timeout : Z) (group : string) (prioritize signal : bool)
| op_token (token : ProvidedIdToken)
| op_validation_update (u : ValidationResultUpdate)
| op_reservation (now : Z) (r : Reservation)
| op_cancel_reservation (id : Z)
| op_call_reserved (id : Z) (evse_id : option Z)
| op_reservation_timer (id : Z)
| op_session_event (evse_id : Z) (ev : SessionEvent)
| op_fault_raised (evse_id connector_id : Z)
| op_fault_cleared (evse_id connector_id : Z)
| op_timeout_fires (evse_id : Z)
| op_timeout_task (evse_id : Z) (task : TimeoutTask)
| op_withdraw (req : WithdrawAuthorizationRequest).

Definition run_ah_op (op : ah_op) (s : ah_state) : ah_state :=
  match op with
  | op_init_evse k i cs => run_state (init_evse k i cs) s
  | op_initialize now stored => run_state (initialize rc clock now stored) s
  | op_register c => run_state (register_callback c) s
  | op_config timeout group prioritize signal =>
      run_state (set_connection_timeout timeout ;;; set_master_pass_group_id group ;;;
                 set_prioritize_authorization_over_stopping_transaction prioritize ;;;
                 set_signal_ok signal) s
  | op_token t => run_state (on_token vt rc env sig t) s
  | op_validation_update u => run_state (handle_token_validation_result_update u) s
  | op_reservation now r => run_state (handle_reservation rc clock now r) s
  | op_cancel_reservation id => run_state (handle_cancel_reservation rc id) s
  | op_call_reserved id e => run_state (call_reserved rc id e) s
  | op_reservation_timer id => run_state (reservation_timer_fires rc id) s
  | op_session_event k ev => run_state (handle_session_event rc env k ev) s
  | op_fault_raised k c => run_state (handle_permanent_fault_raised rc k c) s
  | op_fault_cleared k c => run_state (handle_permanent_fault_cleared rc k c) s
  | op_timeout_fires k => run_state (timeout_fires k) s
  | op_timeout_task k task => run_state (timeout_task k task) s
  | op_withdraw req => run_state (handle_withdraw_authorization env req) s
  end.

Lemma inv_run_op op s : ah_inv s -> ah_inv (run_ah_op op s).
Proof.
  destruct op; simpl; revert s.
  - apply inv_init_evse.
  - apply inv_initialize.
  - apply inv_modify_other. done.
  - apply preserves_bind; [by apply inv_modify_other|]. intros _.
    apply preserves_bind; [by apply inv_modify_other|]. intros _.
    apply preserves_bind; [by apply inv_modify_other|]. intros _.
    by apply inv_modify_other.
  - apply inv_on_token.
  - apply inv_update.
  - apply inv_handle_reservation.
  - apply inv_handle_cancel.
  - apply inv_call_reserved.
  - apply inv_reservation_timer.
  - apply inv_session_event.
  - apply inv_fault_raised.
  - apply inv_fault_cleared.
  - apply inv_timeout_fires.
  - apply inv_timeout_task.
  - apply inv_withdraw.
Qed.
End Handlers.

Lemma new_ah_inv algorithm timeout prioritize ignore store :
  ah_inv (new_AuthHandler algorithm timeout prioritize ignore store).
Proof.
  split; simpl.
  - constructor.
  - done.
  - by intros k ?%not_elem_of_nil.
  - apply (new_honoured []).
Qed.
