(* ===== verification/AuthTotal.v ===== *)
(** * What the Auth handler tells the EVSEs, and that it returns

    The calls a run of [on_token] makes, as a predicate on every output, and the
    exact sequence of statuses it publishes.  Then, with every callback
    registered, the handlers do not throw and do not block: each returns,
    provided the other threads let the waits end. *)
From S2P Require Import Prelude AuthTypes Connector StdAlgorithm ReservationHandler.
From S2P Require Import ReservationArrival ReservationProofs AuthHandler AuthProofs.
From stdpp Require Import base tactics list numbers strings sorting sets relations.
Open Scope Z_scope.
Open Scope everest_scope.

(** [emits P Q m]: every output of [m] satisfies [P], and a value it returns
    satisfies [Q]. *)
Definition emits {A} (P : auth_output -> Prop) (Q : A -> Prop) (m : AH A) : Prop :=
  forall s, Forall P (run_out m s) /\ forall a, run_val m s = Ok a -> Q a.

Section Emits.
Context (P : auth_output -> Prop).

Lemma emits_ret {A} (Q : A -> Prop) a : Q a -> emits P Q (eret a).
Proof. intros HQ s. split; [constructor|]. by intros ? [= <-]. Qed.
Lemma emits_get : emits P (fun _ => True) eget.
Proof. intros s. split; [constructor|done]. Qed.
Lemma emits_modify f : emits P (fun _ => True) (emodify f).
Proof. intros s. split; [constructor|done]. Qed.
Lemma emits_throw {A} (Q : A -> Prop) e : emits P Q (ethrow e).
Proof. intros s. split; [constructor|done]. Qed.
Lemma emits_emit o : P o -> emits P (fun _ => True) (eemit o).
Proof. intros Ho s. split; [by constructor|done]. Qed.

Lemma emits_bind {A B} (R : A -> Prop) (Q : B -> Prop) (m : AH A) (f : A -> AH B) :
  emits P R m -> (forall a, R a -> emits P Q (f a)) -> emits P Q (ebind m f).
Proof.
  intros Hm Hf s. destruct (Hm s) as [H1 H2]. unfold run_out, run_val, ebind in *.
  destruct (m s) as [[[a|e] s'] o]; simpl in *; [|by split].
  destruct (Hf a (H2 a eq_refl) s') as [H3 H4]. unfold run_out, run_val in *.
  destruct (f a s') as [[r s''] o']; simpl in *. split; [by apply Forall_app|done].
Qed.

Lemma emits_weaken {A} (Q Q' : A -> Prop) m :
  emits P Q m -> (forall a, Q a -> Q' a) -> emits P Q' m.
Proof. intros Hm HQ s. destruct (Hm s). split; [done|eauto]. Qed.

Lemma emits_true {A} (Q : A -> Prop) m : emits P Q m -> emits P (fun _ => True) m.
Proof. intros Hm. by eapply emits_weaken. Qed.

Lemma emits_for {A} (l : list A) (f : A -> AH unit) :
  (forall x, x ∈ l -> emits P (fun _ => True) (f x)) -> emits P (fun _ => True) (efor l f).
Proof.
  induction l as [|x l IH]; simpl; intros Hf; [by apply emits_ret|].
  eapply emits_bind; [apply Hf; left|]. intros _ _. apply IH. intros y Hy. apply Hf. by right.
Qed.

Lemma emits_at k : emits P (fun _ => True) (at_evse k).
Proof.
  intros s. unfold run_out, run_val. rewrite at_evse_run.
  case_match; simpl; split; done || constructor.
Qed.

Lemma emits_call has o : P o -> emits P (fun _ => True) (call_callback has o).
Proof.
  intros Ho s. unfold run_out, run_val. rewrite call_callback_run.
  case_match; simpl; split; try done; by repeat constructor.
Qed.

Lemma emits_modify_evse k f : emits P (fun _ => True) (modify_evse k f).
Proof. eapply emits_bind; [apply emits_at|]. intros _ _. apply emits_modify. Qed.
End Emits.

#[export] Hint Resolve emits_get emits_modify emits_throw emits_at emits_modify_evse : auth.
#[export] Hint Extern 5 (emits _ _ (eret _)) => apply emits_ret : auth.
#[export] Hint Extern 5 (emits _ _ (call_callback _ _)) => apply emits_call : auth.

(** An action that calls nobody but may stop transactions or read. *)
Ltac solve_emits :=
  repeat first
    [ progress intros | solve [auto with auth]
    | eapply emits_bind; [solve [eauto with auth]|] | case_match ].

(** The queries call nobody. *)
Section Queries.
Context (P : auth_output -> Prop).
Lemma emits_used l x : emits P (fun _ => True) (used_for_transaction l x).
Proof. induction l; simpl; solve_emits. Qed.
Lemma emits_without l x : emits P (fun _ => True) (authorized_without_transaction l x).
Proof. induction l; simpl; solve_emits. Qed.
Lemma emits_any_available l : emits P (fun _ => True) (any_evse_available l).
Proof. induction l; simpl; solve_emits. Qed.
Lemma emits_any_parent l : emits P (fun _ => True) (any_parent_id_present l).
Proof. induction l; simpl; solve_emits. Qed.
Lemma emits_first_without l : emits P (fun _ => True) (first_without_transaction l).
Proof. induction l; simpl; solve_emits. Qed.
Lemma emits_without_identifier l : emits P (fun _ => True) (without_identifier l).
Proof. induction l; simpl; solve_emits. Qed.
End Queries.
#[export] Hint Resolve emits_used emits_without emits_any_available emits_any_parent
  emits_first_without emits_without_identifier : auth.

Lemma emits_already_in_process P t l :
  emits P (fun _ => True) (is_token_already_in_process t l).
Proof. unfold is_token_already_in_process. solve_emits. Qed.

(** ** Who is authorized *)

Section Authorized.
Context (vt : ProvidedIdToken -> list ValidationResult) (rc : option Z -> Z -> bool).
Context (env : Site -> ah_state -> ah_state) (sig : ah_state -> bool).
Context (t0 : ProvidedIdToken).

(** The validation results [handle_token] works with. *)
Definition results_for (t : ProvidedIdToken) : list ValidationResult :=
  if bool_decide (prevalidated t = Some true)
  then [mkValidationResult AuthorizationStatus.Accepted None (parent_id_token t) None None]
  else vt t.

(** The token was accepted by a validator. *)
Definition validated (t : ProvidedIdToken) : Prop :=
  exists v, v ∈ results_for t /\ authorization_status v = AuthorizationStatus.Accepted.

(** An EVSE is only told that a token is accepted when it is, and no
    transaction is stopped by another token. *)
Definition justified (o : auth_output) : Prop :=
  match o with
  | notify_evse_callback _ t v =>
      id_token t = id_token t0
      /\ (authorization_status v = AuthorizationStatus.Accepted -> validated t0)
  | stop_transaction _ req =>
      exists t, id_tag req = Some t /\ id_token t = id_token t0
  | _ => True
  end.


Lemma emits_publish t st : emits justified (fun _ => True) (publish t st).
Proof. unfold publish. by apply emits_call. Qed.
Lemma emits_publish_result r t : emits justified (fun _ => True) (publish_result r t).
Proof. destruct r; simpl; try apply emits_publish. by apply emits_ret. Qed.
Lemma emits_wait site p : emits justified (fun _ => True) (wait env site p).
Proof. unfold wait, release. solve_emits. Qed.
Lemma emits_wait_for site p : emits justified (fun _ => True) (wait_for env site p).
Proof. unfold wait_for, release. solve_emits. Qed.
Lemma emits_signal : emits justified (fun _ => True) (wait_for_signal sig).
Proof. unfold wait_for_signal. solve_emits. Qed.
#[local] Hint Resolve emits_publish emits_publish_result emits_wait emits_wait_for
  emits_signal : auth.

Lemma emits_plug l x : emits justified (fun _ => True) (select_by_plug_events env l x).
Proof.
  unfold select_by_plug_events. eapply emits_bind; [apply emits_get|]. intros s _.
  eapply emits_bind with (R := fun _ => True); solve_emits.
Qed.
Lemma emits_find_first l : emits justified (fun _ => True) (select_by_find_first l).
Proof.
  unfold select_by_find_first. eapply emits_bind; [apply emits_get|]. intros s _.
  eapply emits_bind with (R := fun _ => True); solve_emits.
Qed.
#[local] Hint Resolve emits_plug emits_find_first : auth.
Lemma emits_select l x : emits justified (fun _ => True) (select_evse env l x).
Proof. unfold select_evse. solve_emits. Qed.

(** The token keeps its id through the handler. *)
Definition same_id (t : ProvidedIdToken) : Prop := id_token t = id_token t0.

Lemma emits_stop_all t l :
  same_id t -> emits justified (fun _ => True) (stop_all_transactions t l).
Proof.
  intros Ht. induction l as [|k l IH]; simpl; [by apply emits_ret|].
  eapply emits_bind; [apply emits_get|]. intros s _. case_match; [|apply emits_throw].
  case_match; [|done]. eapply emits_bind; [apply emits_call; by exists t|].
  intros _ _. eapply emits_bind; [exact IH|]. intros. by apply emits_ret.
Qed.

Definition stopped_ok (r : option (TokenHandlingResult.t * ProvidedIdToken)) : Prop :=
  match r with Some (_, t) => same_id t | None => True end.

Lemma emits_stop_with_id l t :
  same_id t -> emits justified stopped_ok (stop_with_id_token l t).
Proof.
  intros Ht. unfold stop_with_id_token. case_match; [|by apply emits_ret].
  eapply emits_bind; [apply emits_used|]. intros k _. case_match; [|by apply emits_ret].
  eapply emits_bind; [apply emits_at|]. intros e _.
  eapply emits_bind; [apply emits_call; by exists t|]. intros _ _.
  eapply emits_bind; [apply emits_at|]. intros e' _.
  case_match; [|apply emits_throw]. apply emits_ret. by case_match.
Qed.

Lemma emits_stop_with_parent l t vs :
  same_id t -> emits justified stopped_ok (stop_with_parent_id_token l t vs).
Proof.
  intros Ht. induction vs as [|v vs IH]; simpl; [by apply emits_ret|].
  destruct (authorization_status v); try done.
  destruct (vr_parent_id_token v) as [p|]; [|done].
  eapply emits_bind; [apply emits_get|]. intros s _. case_match.
  { eapply emits_bind; [by apply emits_stop_all|]. intros. by apply emits_ret. }
  eapply emits_bind; [apply emits_used|]. intros k _. case_match; [done|].
  eapply emits_bind; [apply emits_at|]. intros e _. case_match; [by apply emits_ret|].
  eapply emits_bind; [apply emits_call; by eexists|]. intros. by apply emits_ret.
Qed.

Lemma emits_notify k t v :
  same_id t ->
  (authorization_status v = AuthorizationStatus.Accepted -> validated t0) ->
  emits justified (fun _ => True) (notify_evse env k t v).
Proof.
  intros Ht Hv. unfold notify_evse. eapply emits_bind; [apply emits_at|]. intros e _.
  eapply emits_bind with (R := fun _ => True); [|intros; by apply emits_call].
  case_match; [|by apply emits_ret]. unfold wait_for_timeout_task, remove_from_plug_in_queue.
  repeat (eapply emits_bind with (R := fun _ => True); [|intros]); solve_emits.
Qed.

(** A decision that does not authorize takes the acceptance back. *)
Lemma emits_decide k t v l :
  same_id t ->
  emits justified (fun d => let '(b, t', v', _) := d in
      same_id t' /\ (b = false -> authorization_status v' <> AuthorizationStatus.Accepted))
    (decide_authorization rc k t v l).
Proof.
  intros Ht. unfold decide_authorization. eapply emits_bind; [apply emits_get|]. intros s _.
  destruct (match vr_evse_ids v with Some _ => _ | None => _ end) as [[b v'] l'].
  case_match; [by apply emits_ret|]. case_match; [by apply emits_ret|].
  case_match; [by apply emits_ret|].
  destruct (matches_reserved_identifier _ _ _ _); [|by apply emits_ret].
  eapply emits_bind with (R := fun _ => True); [|intros; by apply emits_ret].
  intros s'. unfold run_out, run_val. rewrite on_rh_run. unfold on_reservation_used, ebind.
  destruct (cancel_silent (rh_cancelled_callback rc s') z
              ReservationEndReason.UsedToStartCharging (reservation_handler s'))
    as (b' & e & o & Hc).
  pose proof (cancel_silent_stores (rh_cancelled_callback rc s') z
              ReservationEndReason.UsedToStartCharging (reservation_handler s')) as Ho.
  rewrite Hc in *. simpl in *. split; [|done]. rewrite app_nil_r.
  eapply Forall_impl; [exact Ho|]. by intros [].
Qed.

Definition authorize_ok
    (r : (TokenHandlingResult.t * ProvidedIdToken) + (bool * ProvidedIdToken * ValidationResult))
  : Prop :=
  match r with
  | inl (_, t) => same_id t
  | inr (b, t, v) =>
      same_id t /\ (b = false -> authorization_status v <> AuthorizationStatus.Accepted)
  end.

Lemma emits_authorize vs l t v :
  same_id t -> (forall x, x ∈ vs -> x ∈ results_for t0) ->
  authorization_status v <> AuthorizationStatus.Accepted ->
  emits justified authorize_ok (authorize rc env sig vs l t v).
Proof.
  revert l t v. induction vs as [|v vs IH]; intros l t last Ht Hin Hl; [by apply emits_ret|].
  assert (forall x, x ∈ vs -> x ∈ results_for t0) as Hin' by (intros; apply Hin; by right).
  destruct l as [|k l]; [by apply emits_ret|]. cbn [authorize].
  destruct (bool_decide (authorization_status v = AuthorizationStatus.Accepted)) eqn:Hacc;
    [|apply bool_decide_eq_false in Hacc; by apply IH].
  apply bool_decide_eq_true in Hacc.
  assert (validated t0) as Hval by (exists v; split; [apply Hin; left|done]).
  eapply emits_bind; [apply emits_get|]. intros s _. case_match; [by apply emits_ret|].
  set (t' := match vr_parent_id_token v with Some _ => _ | None => _ end).
  assert (same_id t') as Ht' by (unfold t'; by case_match).
  eapply emits_bind; [apply emits_publish|]. intros _ _.
  eapply emits_bind; [apply emits_signal|]. intros _ _.
  eapply emits_bind; [apply emits_select|]. intros sel _.
  destruct (sel_evse_id sel) as [e|]; [|destruct (sel_status sel);
    [apply emits_throw|by apply emits_ret|by apply emits_ret]].
  eapply emits_bind; [by apply emits_decide|]. intros [[[b t''] v'] l'] [Ht'' Hb].
  eapply emits_bind; [by apply emits_notify|]. intros _ _.
  destruct b; [by apply emits_ret|]. apply IH; auto.
Qed.

Lemma emits_authorize_referenced vs l t :
  same_id t -> (forall x, x ∈ vs -> x ∈ results_for t0) ->
  emits justified (fun r => same_id r.2) (authorize_referenced rc env sig vs l t).
Proof.
  intros Ht Hin. unfold authorize_referenced. destruct vs as [|v vs]; [by apply emits_ret|].
  eapply emits_bind; [by apply emits_authorize|].
  intros [[r t']|[[[|] t'] v']] Hr; [by apply emits_ret|by apply emits_ret; apply Hr|].
  destruct Hr as [Ht' Hv].
  eapply emits_bind with (R := fun _ => True); [|intros; by apply emits_ret].
  case_match; [|by apply emits_ret]. apply emits_for. intros k _.
  apply emits_notify; [done|]. intros Hacc. by destruct (Hv eq_refl).
Qed.

Lemma emits_handle_token :
  emits justified (fun r => same_id r.2) (handle_token vt rc env sig t0).
Proof.
  unfold handle_token. eapply emits_bind; [apply emits_get|]. intros s _.
  eapply emits_bind; [by apply emits_stop_with_id|].
  intros [[r t]|] Hr; [by apply emits_ret|].
  eapply emits_bind with (R := fun _ => True).
  { unfold no_connector_for_token. solve_emits. }
  intros [] _; [by apply emits_ret|].
  eapply emits_bind with (R := fun vs => vs = results_for t0).
  { unfold validate_provided_token, results_for, release. case_match; [by apply emits_ret|].
    eapply emits_bind; [by apply emits_call|]. intros _ _.
    eapply emits_bind; [apply emits_modify|]. intros _ _. by apply emits_ret. }
  intros vs ->. eapply emits_bind; [apply emits_get|]. intros s' _.
  eapply emits_bind with (R := fun _ => True); [solve_emits|]. intros b _.
  eapply emits_bind with (R := stopped_ok).
  { destruct b; [by apply emits_stop_with_parent|by apply emits_ret]. }
  intros [[r t]|] Hr'; [by apply emits_ret|].
  eapply emits_bind; [apply emits_any_available|]. intros a _.
  case_match; [by apply emits_ret|].
  eapply emits_bind; [apply emits_without_identifier|]. intros l _.
  by apply emits_authorize_referenced.
Qed.

Lemma emits_on_token : emits justified (fun _ => True) (on_token vt rc env sig t0).
Proof.
  unfold on_token. eapply emits_bind; [apply emits_get|]. intros s _.
  case_match; [by apply emits_ret|].
  eapply emits_bind; [apply emits_already_in_process|]. intros b _. eapply emits_bind with (R := fun _ => True).
  { case_match; [|by apply emits_ret]. eapply emits_bind; [apply emits_modify|]. intros _ _.
    eapply emits_bind; [apply emits_publish|]. intros _ _.
    eapply emits_true, emits_handle_token. }
  intros [r t] _. eapply emits_bind; [apply emits_publish_result|]. intros _ _.
  eapply emits_bind with (R := fun _ => True).
  { case_match; [by apply emits_ret|apply emits_modify]. }
  intros _ _. eapply emits_bind; [by apply emits_emit|]. intros _ _. by apply emits_ret.
Qed.
End Authorized.

Definition all_callbacks : Callbacks := mkCallbacks true true true true true true true.

(** ** Returning actions of the reservation handler *)

(** An action that returns from every state. *)
Definition rh_returns {A} (m : RH A) : Prop := forall s, exists a, run_val m s = Ok a.

Lemma rh_returns_bind {A B} (m : RH A) (f : A -> RH B) :
  rh_returns m -> (forall a, rh_returns (f a)) -> rh_returns (ebind m f).
Proof.
  intros Hm Hf s. destruct (Hm s) as [a Ha]. unfold rh_returns, run_val, ebind in *.
  destruct (m s) as [[r s'] o]; simpl in *; subst r.
  destruct (Hf a s') as [b Hb]. exists b. by destruct (f a s') as [[r s''] o'].
Qed.
Lemma rh_returns_ret {A} (a : A) : rh_returns (eret a).
Proof. intros s. by exists a. Qed.
Lemma rh_returns_get : rh_returns eget.
Proof. intros s. by exists s. Qed.
Lemma rh_returns_emit o : rh_returns (eemit o).
Proof. intros s. by exists tt. Qed.
Lemma rh_returns_modify f : rh_returns (emodify f).
Proof. intros s. by exists tt. Qed.
Lemma rh_returns_for {A} (l : list A) f : (forall x, rh_returns (f x)) -> rh_returns (efor l f).
Proof.
  intros Hf. induction l as [|x l IH]; simpl; [apply rh_returns_ret|]. by apply rh_returns_bind.
Qed.
#[export] Hint Resolve rh_returns_ret rh_returns_get rh_returns_emit rh_returns_modify
  rh_returns_for : auth.

Ltac solve_rh := auth_steps @rh_returns_bind.

Lemma rh_returns_store : rh_returns store_reservations.
Proof. intros s. exists tt. apply store_val. Qed.

Lemma rh_returns_check_number es :
  rh_returns (check_number_global_reservations_match_number_available_evses es).
Proof.
  unfold check_number_global_reservations_match_number_available_evses,
    get_evse_global_reserved_status_and_set_new_status. solve_rh.
Qed.
#[export] Hint Resolve rh_returns_store rh_returns_check_number : auth.

Section ReservationCalls.
Context (rc : option Z -> Z -> bool) (a : ah_state).
Hypothesis Ha : callbacks a = all_callbacks.

Lemma rh_returns_check_evse : rh_returns (check_evse_reserved_and_send_updates rc a).
Proof.
  unfold check_evse_reserved_and_send_updates. rewrite Ha. simpl.
  apply rh_returns_bind; [auto with auth|]. intros st.
  apply rh_returns_bind; [auto with auth|]. intros _.
  apply rh_returns_for. intros e. apply rh_returns_bind; [auto with auth|].
  intros _. case_match; auto with auth.
Qed.

Lemma rh_returns_callback f e id why send :
  rh_cancelled_callback rc a = Some f -> rh_returns (f e id why send).
Proof.
  unfold rh_cancelled_callback. rewrite Ha. simpl. intros [= <-].
  destruct (match i32 <$> e with Some _ => _ | None => _ end); [auto with auth|].
  unfold call_reservation_cancelled. rewrite Ha. simpl.
  apply rh_returns_bind; [auto with auth|]. intros _. apply rh_returns_check_evse.
Qed.
#[local] Hint Resolve rh_returns_check_evse : auth.

Lemma rh_returns_cancel id b why :
  rh_returns (cancel_reservation (rh_cancelled_callback rc a) id b why).
Proof.
  unfold cancel_reservation. apply rh_returns_bind; [auto with auth|]. intros s.
  case_match; [auto with auth|]. apply rh_returns_bind; [auto with auth|]. intros _.
  apply rh_returns_bind; [case_match; auto with auth|]. intros _.
  apply rh_returns_bind; [auto with auth|]. intros _.
  apply rh_returns_bind; [|auto with auth].
  destruct b; [|auto with auth].
  destruct (rh_cancelled_callback rc a) as [f|] eqn:Hf; [|auto with auth].
  by apply rh_returns_callback.
Qed.
#[local] Hint Resolve rh_returns_cancel : auth.

Lemma rh_returns_check_cancel :
  rh_returns (check_reservations_and_cancel_if_not_possible (evses a)
                (rh_cancelled_callback rc a)).
Proof. unfold check_reservations_and_cancel_if_not_possible. solve_rh.
  apply rh_returns_for. intros id. solve_rh. Qed.

Lemma rh_returns_connector st e c :
  rh_returns (on_connector_state_changed (evses a) (rh_cancelled_callback rc a) st e c).
Proof.
  pose proof rh_returns_check_cancel. unfold on_connector_state_changed. solve_rh.
Qed.

Lemma rh_returns_cancel_evse e b :
  rh_returns (cancel_reservation_evse (rh_cancelled_callback rc a) e b).
Proof. unfold cancel_reservation_evse. solve_rh. Qed.
End ReservationCalls.

(** ** Returning handlers *)

(** The EVSEs [K] are initialized, the callbacks are registered, and the
    selection algorithm is one that is implemented. *)
Record ready (K : list Z) (s : ah_state) : Prop := mkReady {
  ready_inv : ah_inv s;
  ready_keys : StdMap.keys (evses s) = K;
  ready_callbacks : callbacks s = all_callbacks;
  ready_algorithm : selection_algorithm s <> SelectionAlgorithm.UserInput;
}.

Section Ready.
Context (K : list Z).
Let R := ready K.
Let keep {A} (_ : A) := R.

Lemma ready_find k s : R s -> k ∈ K -> exists e, StdMap.find k (evses s) = Some e.
Proof.
  intros Hs Hk. assert (is_Some (StdMap.find k (evses s))) as [e He]; [|by exists e].
  apply StdMap.find_keys. by rewrite (ready_keys _ _ Hs).
Qed.

Lemma returns_at k :
  k ∈ K -> returns R (at_evse k) (fun e s => R s /\ StdMap.find k (evses s) = Some e).
Proof.
  intros Hk s Hs. destruct (ready_find k s Hs Hk) as [e He]. exists e.
  unfold run_val, run_state. by rewrite at_evse_run, He.
Qed.

Lemma returns_at_keep k : k ∈ K -> returns R (at_evse k) keep.
Proof. intros Hk. eapply returns_weaken; [by apply returns_at|done|by intros ?? []]. Qed.

Lemma returns_modify_evse k f :
  k ∈ K -> (forall e, e_evse_id (f e) = e_evse_id e) -> returns R (modify_evse k f) keep.
Proof.
  intros Hk Hf s Hs. destruct (ready_find k s Hs Hk) as [e He]. exists tt.
  pose proof (inv_modify_evse k f Hf s (ready_inv _ _ Hs)) as Hi.
  unfold run_val, run_state in *. rewrite (modify_evse_run _ _ _ _ He) in *.
  split; [done|]. destruct Hs. split; try done. simpl. by rewrite StdMap.keys_alter.
Qed.

Lemma returns_call has o : has all_callbacks = true -> returns R (call_callback has o) keep.
Proof.
  intros Hh s Hs. exists tt. unfold run_val, run_state.
  by rewrite call_callback_run, (ready_callbacks _ _ Hs), Hh.
Qed.

Lemma returns_on_rh {A} (m : ah_state -> RH A) :
  (forall a, R a -> rh_returns (m a)) -> (forall a, preserves rh_inv (m a)) ->
  returns R (on_reservation_handler m) keep.
Proof.
  intros Hr Hp s Hs. destruct (Hr s Hs (reservation_handler s)) as [x Hx].
  pose proof (inv_on_rh m Hp s (ready_inv _ _ Hs)) as Hi. exists x.
  unfold run_val, run_state in *. rewrite on_rh_run in *.
  destruct (m s (reservation_handler s)) as [[r rh] o]. split; [done|].
  destruct Hs. by split.
Qed.

Lemma returns_modify_other f :
  (forall s, inv_view (f s) = inv_view s /\ callbacks (f s) = callbacks s
     /\ selection_algorithm (f s) = selection_algorithm s) ->
  returns R (emodify f : AH unit) keep.
Proof.
  intros Hf. apply returns_modify. intros s Hs. destruct (Hf s) as (Hv & Hc & Ha).
  pose proof (inv_modify_other f (fun s => proj1 (Hf s)) s (ready_inv _ _ Hs)) as Hi.
  injection Hv as He _ _. destruct Hs. split; [done|by rewrite He|by rewrite Hc|by rewrite Ha].
Qed.

Lemma returns_remove_queue k : returns R (remove_from_plug_in_queue k) keep.
Proof.
  apply returns_modify. intros s Hs.
  pose proof (inv_remove_from_queue k s (ready_inv _ _ Hs)) as Hi. destruct Hs. by split.
Qed.

Lemma returns_keep {A} (a : A) : returns R (eret a : AH A) keep.
Proof. by apply returns_ret. Qed.
Lemma returns_get_keep : returns R (eget : AH _) keep.
Proof. intros s Hs. by exists s. Qed.

#[local] Hint Resolve returns_at_keep returns_call returns_keep returns_get_keep
  returns_emit : auth.

Ltac solve_returns :=
  repeat first
    [ progress intros | solve [eauto with auth]
    | eapply returns_bind; [solve [eauto with auth]|] | case_match ].

(** *** The loops over EVSE ids *)

Lemma returns_any_available l : (forall k, k ∈ l -> k ∈ K) -> returns R (any_evse_available l) keep.
Proof.
  induction l as [|k l IH]; simpl; intros Hl; [apply returns_keep|].
  eapply returns_bind; [apply returns_at_keep, Hl; left|]. intros e.
  case_match; [apply returns_keep|]. apply IH. intros; apply Hl; by right.
Qed.

Lemma returns_any_parent l : (forall k, k ∈ l -> k ∈ K) -> returns R (any_parent_id_present l) keep.
Proof.
  induction l as [|k l IH]; simpl; intros Hl; [apply returns_keep|].
  eapply returns_bind; [apply returns_at_keep, Hl; left|]. intros e.
  destruct (match identifier e with Some _ => _ | None => _ end); [apply returns_keep|].
  apply IH. intros; apply Hl; by right.
Qed.

Lemma returns_authorized_without l x :
  (forall k, k ∈ l -> k ∈ K) -> returns R (authorized_without_transaction l x) keep.
Proof.
  induction l as [|k l IH]; simpl; intros Hl; [apply returns_keep|].
  eapply returns_bind; [apply returns_at_keep, Hl; left|]. intros e.
  destruct (match identifier e with Some _ => _ | None => _ end); [apply returns_keep|].
  apply IH. intros; apply Hl; by right.
Qed.

(** It returns -1 or an EVSE with an identifier. *)
Lemma returns_used l x :
  (forall k, k ∈ l -> k ∈ K) ->
  returns R (used_for_transaction l x) (fun k s => R s /\ (k <> -1 -> k ∈ l
    /\ exists e i, StdMap.find k (evses s) = Some e /\ identifier e = Some i)).
Proof.
  induction l as [|k l IH]; simpl; intros Hl; [apply returns_ret; by intros s Hs|].
  assert (returns R (used_for_transaction l x) (fun k' s => R s /\ (k' <> -1 -> k' ∈ k :: l
    /\ exists e i, StdMap.find k' (evses s) = Some e /\ identifier e = Some i))) as IH'.
  { eapply returns_weaken; [apply IH; intros; apply Hl; by right|done|].
    intros a s [Hs Hf]. split; [done|]. intros Ha. destruct (Hf Ha). split; [by right|done]. }
  eapply returns_bind; [apply returns_at, Hl; left|]. intros e.
  destruct (identifier e) as [i|] eqn:Hi; [destruct (identifier_matches x i)|].
  - apply returns_ret. intros s [Hs He]. split; [done|]. split; [left|eauto].
  - eapply returns_weaken; [exact IH'|by intros s []|done].
  - eapply returns_weaken; [exact IH'|by intros s []|done].
Qed.

Lemma returns_first_without l :
  (forall k, k ∈ l -> k ∈ K) ->
  returns R (first_without_transaction l)
    (fun r s => R s /\ match r with Some k => k ∈ l | None => True end).
Proof.
  induction l as [|k l IH]; simpl; intros Hl; [by apply returns_ret|].
  eapply returns_bind; [apply returns_at_keep, Hl; left|]. intros e.
  case_match; [apply returns_ret; intros s Hs; split; [done|left]|].
  eapply returns_weaken; [apply IH; intros; apply Hl; by right|done|].
  intros [a|] s [Hs Ha]; split; try done. by right.
Qed.

Lemma returns_without_identifier l :
  (forall k, k ∈ l -> k ∈ K) ->
  returns R (without_identifier l) (fun r s => R s /\ forall k, k ∈ r -> k ∈ l).
Proof.
  induction l as [|k l IH]; simpl; intros Hl; [by apply returns_ret|].
  eapply returns_bind; [apply returns_at_keep, Hl; left|]. intros e.
  eapply returns_bind; [apply IH; intros; apply Hl; by right|]. intros r.
  apply returns_ret. intros s [Hs Hr]. split; [done|]. intros j Hj.
  destruct (identifier e); [right; by apply Hr|].
  apply elem_of_cons in Hj as [->|?]; [left|right; by apply Hr].
Qed.

Lemma returns_stop_all t l :
  (forall k, k ∈ l -> k ∈ K) -> returns R (stop_all_transactions t l) keep.
Proof.
  induction l as [|k l IH]; simpl; intros Hl; [apply returns_keep|].
  assert (returns R (stop_all_transactions t l) keep) as IH'
    by (apply IH; intros; apply Hl; by right).
  eapply returns_bind; [apply returns_get|]. intros s. apply returns_pre. intros s' [-> Hs].
  destruct (ready_find k s' Hs (Hl k ltac:(left))) as [e He]. rewrite He.
  eapply returns_weaken with (P := R) (Q := keep); [|by intros ? <-|done].
  case_match; [|done]. eapply returns_bind; [by apply returns_call|]. intros _'.
  eapply returns_bind; [exact IH'|]. intros. apply returns_keep.
Qed.

(** *** Waiting and selecting *)

Lemma latest_plugin_selected l s :
  get_latest_plugin l s <> -1 -> get_latest_plugin l s ∈ l.
Proof.
  unfold get_latest_plugin. destruct (List.find _ _) as [k|] eqn:Hf; simpl; [|done].
  intros _. apply find_some in Hf as [_ Hm]. by apply StdSet.mem_spec.
Qed.

Context (vt : ProvidedIdToken -> list ValidationResult) (rc : option Z -> Z -> bool).
Context (env : Site -> ah_state -> ah_state) (sig : ah_state -> bool).
(** The other threads keep the handler usable, let a running timeout task
    end, and the authorization signal arrives. *)
Hypothesis env_ready : forall site s, R s -> R (env site s).
Hypothesis env_task : forall k s e, R s ->
  StdMap.find k (evses (env (WaitingForTimeoutTask k) s)) = Some e ->
  timeout_in_progress e = false.
Hypothesis signal_comes : forall s, sig s = true.

Lemma returns_release site : returns R (release env site) keep.
Proof. apply returns_modify. intros s Hs. by apply env_ready. Qed.

Lemma returns_wait_task k : k ∈ K -> returns R (wait_for_timeout_task env k) keep.
Proof.
  intros Hk. unfold wait_for_timeout_task.
  eapply returns_bind; [by apply returns_at_keep|]. intros _'. unfold wait.
  eapply returns_bind; [apply returns_get|]. intros s. apply returns_pre. intros s' [-> Hs].
  destruct (match StdMap.find k (evses s') with Some _ => _ | None => _ end);
    [apply returns_ret; by intros ? <-|].
  intros ? <-. exists tt. unfold run_val, run_state, release.
  rewrite ebind_modify, run_get_bind.
  pose proof (env_ready (WaitingForTimeoutTask k) s' Hs) as Hs'.
  destruct (ready_find k _ Hs' Hk) as [e He]. rewrite He.
  by rewrite (env_task k s' e Hs He).
Qed.

Lemma returns_signal : returns R (wait_for_signal sig) keep.
Proof.
  unfold wait_for_signal. eapply returns_bind; [apply returns_get_keep|]. intros s.
  case_match; [apply returns_keep|]. rewrite signal_comes. by apply returns_modify_other.
Qed.

Definition selected (l : list Z) (r : SelectEvseResult) (s : ah_state) : Prop :=
  R s /\ match sel_evse_id r with
         | Some k => k ∈ l
         | None => sel_status r <> SelectEvseReturnStatus.EvseSelected
         end.

Lemma returns_plug_events l x : returns R (select_by_plug_events env l x) (selected l).
Proof.
  unfold select_by_plug_events.
  eapply returns_bind; [apply returns_get|]. intros s.
  eapply returns_bind with (R := fun b s' => R s' /\ (b = true ->
    get_latest_plugin l s' <> -1 \/ is_authorization_withdrawn l x s' = true)).
  - apply returns_pre. intros s' [-> Hs]. destruct (Z.eqb_spec (get_latest_plugin l s') (-1)).
    + unfold wait_for. eapply returns_bind; [apply returns_get|]. intros s1.
      apply returns_pre. intros s2 [-> <-]. case_match eqn:Hp.
      { apply returns_ret. intros ? <-. split; [done|]. intros _. right.
        apply orb_true_iff in Hp as [Hp|Hp]; [|done]. apply negb_true_iff in Hp.
        apply Z.eqb_neq in Hp. done. }
      eapply returns_bind with (R := keep);
        [apply returns_modify; intros ? <-; by apply env_ready|].
      intros []. eapply returns_bind; [apply returns_get|]. intros s1.
      apply returns_ret. intros s3 [-> Hs3]. split; [done|].
      rewrite orb_true_iff, negb_true_iff, Z.eqb_neq. tauto.
    + apply returns_ret. intros ? <-. split; [done|]. by left.
  - intros [|]; cbn [negb]; [|apply returns_ret; intros s' [Hs' _]; by split].
    eapply returns_bind; [apply returns_get|]. intros s1. case_match eqn:Hw.
    + apply returns_ret. intros s' [_ [Hs' _]]. by split.
    + apply returns_ret. intros s' [-> [Hs' Hl]]. split; [done|]. simpl.
      apply latest_plugin_selected. destruct (Hl eq_refl); congruence.
Qed.

Lemma returns_find_first l :
  (forall k, k ∈ l -> k ∈ K) -> returns R (select_by_find_first l) (selected l).
Proof.
  intros Hl. unfold select_by_find_first.
  eapply returns_bind; [apply returns_get_keep|]. intros s.
  eapply returns_bind with (R := fun b s' => R s' /\ (b = true -> get_latest_plugin l s <> -1)).
  { destruct (Z.eqb_spec (get_latest_plugin l s) (-1)) as [|Hne]; [by apply returns_ret|].
    eapply returns_bind; [by apply returns_at_keep, Hl, latest_plugin_selected|].
    intros e. by apply returns_ret. }
  intros [|].
  - apply returns_ret. intros s' [Hs' Hb]. split; [done|]. simpl.
    by apply latest_plugin_selected, Hb.
  - eapply returns_bind; [eapply returns_weaken; [by apply returns_first_without|
      by intros ? []|done]|].
    intros [k|]; apply returns_ret; intros s' [Hs' Hk]; by split.
Qed.

Lemma returns_select l x :
  (forall k, k ∈ l -> k ∈ K) -> returns R (select_evse env l x) (selected l).
Proof.
  intros Hl. unfold select_evse.
  assert (returns R (let* s := eget in
      match selection_algorithm s with
      | SelectionAlgorithm.PlugEvents => select_by_plug_events env l x
      | SelectionAlgorithm.FindFirst => select_by_find_first l
      | SelectionAlgorithm.UserInput => ethrow not_implemented
      end) (selected l)) as Hm.
  { eapply returns_bind; [apply returns_get|]. intros s. apply returns_pre. intros s' [-> Hs].
    eapply returns_weaken with (P := R) (Q := selected l); [|by intros ? <-|done].
    pose proof (ready_algorithm _ _ Hs). destruct (selection_algorithm s'); [done|..].
    - apply returns_plug_events.
    - by apply returns_find_first. }
  destruct l as [|k [|k' l]]; [done| |done].
  apply returns_ret. intros s Hs. split; [done|left].
Qed.

Lemma returns_notify k t v : k ∈ K -> returns R (notify_evse env k t v) keep.
Proof.
  intros Hk. unfold notify_evse. eapply returns_bind; [by apply returns_at_keep|]. intros e.
  eapply returns_bind with (R := keep); [|intros; by apply returns_call].
  case_match; [|apply returns_keep].
  eapply returns_bind; [by apply returns_modify_evse|]. intros [].
  eapply returns_bind; [by apply returns_wait_task|]. intros [].
  eapply returns_bind; [by apply returns_modify_evse|]. intros [].
  apply returns_remove_queue.
Qed.

(** *** Tokens *)

Definition known_connectors (t : ProvidedIdToken) : Prop :=
  forall cs k, p_connectors t = Some cs -> k ∈ cs -> k ∈ K.

Lemma elem_of_sort k l : k ∈ sort_ids l <-> k ∈ l.
Proof. unfold sort_ids. by rewrite merge_sort_Permutation. Qed.

Lemma returns_decide k t v l :
  k ∈ K -> known_connectors t -> (forall j, j ∈ l -> j ∈ K) ->
  returns R (decide_authorization rc k t v l) (fun d s => R s /\
    let '(_, t', _, l') := d in known_connectors t' /\ forall j, j ∈ l' -> j ∈ K).
Proof.
  intros Hk Ht Hl. unfold decide_authorization.
  eapply returns_bind; [apply returns_get_keep|]. intros s.
  destruct (match vr_evse_ids v with Some _ => _ | None => _ end) as [[b v'] l'] eqn:Hm.
  assert (forall j, j ∈ l' -> j ∈ K) as Hl'.
  { destruct (vr_evse_ids v); simplify_eq/=; [|done].
    intros j. rewrite elem_of_sort. apply Hl. }
  assert (known_connectors (set_token_connectors [k] t)) as Ht'.
  { intros cs j [= <-] ->%list_elem_of_singleton. done. }
  clear Hm. case_match; [by apply returns_ret|]. case_match; [by apply returns_ret|].
  case_match; [by apply returns_ret|]. case_match; [|by apply returns_ret].
  eapply returns_bind with (R := keep); [|intros; by apply returns_ret].
  apply returns_on_rh.
  - intros a Ha. apply rh_returns_bind; [|auto with auth].
    apply rh_returns_cancel, Ha.
  - intros a s' Hs'. unfold on_reservation_used. rewrite cancel_then_unit.
    by apply cancel_preserves; [apply _|].
Qed.

Definition outcome_known
    (r : (TokenHandlingResult.t * ProvidedIdToken) + (bool * ProvidedIdToken * ValidationResult))
    (s : ah_state) : Prop :=
  R s /\ match r with inl (_, t) => True | inr (_, t, _) => known_connectors t end.

Lemma returns_authorize vs l t v :
  known_connectors t -> (forall j, j ∈ l -> j ∈ K) ->
  returns R (authorize rc env sig vs l t v) outcome_known.
Proof.
  revert l t v. induction vs as [|v vs IH]; intros l t last Ht Hl; [by apply returns_ret|].
  destruct l as [|k0 l0] eqn:El; [by apply returns_ret|]. rewrite <- El in *. cbn [authorize].
  rewrite El, <- El. case_match; [|by apply IH].
  eapply returns_bind; [apply returns_get_keep|]. intros s.
  case_match; [by apply returns_ret|].
  set (t' := match vr_parent_id_token v with Some _ => _ | None => _ end).
  assert (known_connectors t') as Ht' by (unfold t'; by case_match).
  eapply returns_bind; [by apply returns_call|]. intros _'.
  eapply returns_bind; [apply returns_signal|]. intros _''.
  eapply returns_bind; [by apply returns_select|]. intros sel.
  destruct (sel_evse_id sel) as [k|] eqn:Hsel; [|destruct (sel_status sel) eqn:Hst].
  - apply returns_pre. intros s' [Hs' Hk]. rewrite Hsel in Hk.
    eapply returns_weaken with (P := R) (Q := outcome_known); [|by intros ? <-|done].
    eapply returns_bind; [apply returns_decide; [by apply Hl|done|done]|].
    intros [[[b t''] v'] l']. apply returns_pre. intros s'' (Hs'' & Ht'' & Hl'').
    eapply returns_weaken with (P := R) (Q := outcome_known); [|by intros ? <-|done].
    eapply returns_bind; [by apply returns_notify, Hl|]. intros _'''.
    destruct b; [by apply returns_ret|by apply IH].
  - intros s' [_ Hk]. by rewrite Hsel, Hst in Hk.
  - apply returns_ret. by intros s' [Hs' _].
  - apply returns_ret. by intros s' [Hs' _].
Qed.

Lemma returns_authorize_referenced vs l t :
  known_connectors t -> (forall j, j ∈ l -> j ∈ K) ->
  returns R (authorize_referenced rc env sig vs l t) keep.
Proof.
  intros Ht Hl. unfold authorize_referenced. destruct vs as [|v vs]; [apply returns_keep|].
  eapply returns_bind; [by apply returns_authorize|].
  intros [[r t']|[[[|] t'] v']].
  - apply returns_ret. by intros s [Hs _].
  - apply returns_ret. by intros s [Hs _].
  - apply returns_pre. intros s [Hs Hk]. eapply returns_weaken with (P := R) (Q := keep);
      [|by intros ? <-|done].
    eapply returns_bind with (R := keep); [|intros; apply returns_keep].
    destruct (p_connectors t') as [cs|] eqn:Hcs; [|apply returns_keep].
    apply returns_for. intros k Hin. apply returns_notify. by eapply Hk.
Qed.

Lemma referenced_known t s k : R s -> k ∈ get_referenced_evses t s -> k ∈ K.
Proof.
  intros Hs. rewrite <- (ready_keys _ _ Hs). unfold get_referenced_evses.
  destruct (p_connectors t).
  - intros [_ Hk]%list_elem_of_In%filter_In. apply StdMap.find_keys. by case_match.
  - intros (e & -> & He)%list_elem_of_fmap. apply list_elem_of_In, filter_In in He as [He _].
    apply list_elem_of_fmap. exists e. split; [done|by apply list_elem_of_In].
Qed.

Lemma returns_stop_with_id l t :
  (forall k, k ∈ l -> k ∈ K) -> returns R (stop_with_id_token l t) keep.
Proof.
  intros Hl. unfold stop_with_id_token. case_match; [|apply returns_keep].
  eapply returns_bind; [by apply returns_used|]. intros k.
  destruct (Z.eqb_spec k (-1)) as [|Hk]; simpl; [by apply returns_ret; intros s []|].
  apply returns_pre. intros s [Hs Hf]. destruct (Hf Hk) as (Hkl & e & i & He & Hi).
  intros ? <-. unfold run_val, run_state, ebind.
  rewrite at_evse_run, He, call_callback_run, (ready_callbacks _ _ Hs). simpl.
  rewrite at_evse_run, He, Hi. simpl. eauto.
Qed.

Lemma returns_stop_with_parent l t vs :
  (forall k, k ∈ l -> k ∈ K) -> returns R (stop_with_parent_id_token l t vs) keep.
Proof.
  intros Hl. induction vs as [|v vs IH]; simpl; [apply returns_keep|].
  destruct (authorization_status v); try done. destruct (vr_parent_id_token v); [|done].
  eapply returns_bind; [apply returns_get_keep|]. intros s. case_match.
  { eapply returns_bind; [by apply returns_stop_all|]. intros. apply returns_keep. }
  eapply returns_bind; [by apply returns_used|]. intros k.
  destruct (Z.eqb_spec k (-1)) as [|Hk];
    [eapply returns_weaken; [exact IH|by intros ? []|done]|].
  apply returns_pre. intros s' [Hs Hf].
  eapply returns_weaken with (P := R) (Q := keep); [|by intros ? <-|done].
  eapply returns_bind; [apply returns_at_keep, Hl, Hf, Hk|]. intros e.
  case_match; [apply returns_keep|].
  eapply returns_bind; [by apply returns_call|]. intros. apply returns_keep.
Qed.

Lemma returns_handle_token t :
  known_connectors t -> returns R (handle_token vt rc env sig t) keep.
Proof.
  intros Ht. unfold handle_token. eapply returns_bind; [apply returns_get|]. intros s.
  apply returns_pre. intros s' [-> Hs].
  eapply returns_weaken with (P := R) (Q := keep); [|by intros ? <-|done].
  set (l := get_referenced_evses t s').
  assert (forall k, k ∈ l -> k ∈ K) as Hl by (intros k; by apply referenced_known).
  eapply returns_bind; [by apply returns_stop_with_id|]. intros [r|]; [apply returns_keep|].
  eapply returns_bind with (R := keep).
  { unfold no_connector_for_token. eapply returns_bind; [apply returns_get_keep|]. intros s1.
    eapply returns_bind; [by apply returns_any_available|]. intros b.
    eapply returns_bind with (R := keep);
      [destruct b; [apply returns_keep|by apply returns_any_parent]|].
    intros b'. case_match; apply returns_keep. }
  intros [|]; [apply returns_keep|].
  eapply returns_bind with (R := keep).
  { unfold validate_provided_token. case_match; [apply returns_keep|].
    eapply returns_bind; [by apply returns_call|]. intros _'.
    eapply returns_bind; [apply returns_release|]. intros. apply returns_keep. }
  intros vs. eapply returns_bind; [apply returns_get_keep|]. intros s2.
  eapply returns_bind with (R := keep).
  { case_match; [|apply returns_keep].
    eapply returns_bind; [by apply returns_any_available|]. intros. apply returns_keep. }
  intros b. eapply returns_bind with (R := keep).
  { destruct b; [by apply returns_stop_with_parent|apply returns_keep]. }
  intros [r|]; [apply returns_keep|].
  eapply returns_bind; [by apply returns_any_available|]. intros a.
  case_match; [apply returns_keep|].
  eapply returns_bind; [by apply returns_without_identifier|]. intros l'.
  apply returns_pre. intros s3 [Hs3 Hl'].
  eapply returns_weaken with (P := R) (Q := keep); [|by intros ? <-|done].
  apply returns_authorize_referenced; auto.
Qed.

Lemma returns_on_token t : known_connectors t -> returns R (on_token vt rc env sig t) keep.
Proof.
  intros Ht. unfold on_token. eapply returns_bind; [apply returns_get|]. intros s.
  apply returns_pre. intros s' [-> Hs].
  eapply returns_weaken with (P := R) (Q := keep); [|by intros ? <-|done].
  rewrite (ready_callbacks _ _ Hs). cbn [negb has_publish_token_validation_status all_callbacks].
  eapply returns_bind with (R := keep).
  { unfold is_token_already_in_process. eapply returns_bind; [apply returns_get_keep|].
    intros s1. case_match; [apply returns_keep|]. apply returns_authorized_without.
    intros k. by apply referenced_known. }
  intros b. eapply returns_bind with (R := keep).
  { destruct b; [apply returns_keep|]. cbn [negb].
    eapply returns_bind; [by apply returns_modify_other|]. intros [].
    eapply returns_bind; [by apply returns_call|]. intros []. by apply returns_handle_token. }
  intros [r t']. eapply returns_bind with (R := keep).
  { destruct r; simpl; try (by apply returns_call). apply returns_keep. }
  intros []. eapply returns_bind with (R := keep).
  { case_match; [apply returns_keep|by apply returns_modify_other]. }
  intros []. eapply returns_bind; [apply returns_emit|]. intros []. apply returns_keep.
Qed.

(** *** Session events *)

Lemma returns_submit k c ev : k ∈ K -> returns R (submit_event_for_connector rc k c ev) keep.
Proof.
  intros Hk. unfold submit_event_for_connector.
  eapply returns_bind; [by apply returns_at_keep|]. intros e. case_match; [|apply returns_keep].
  eapply returns_bind; [by apply returns_modify_evse|]. intros [].
  apply returns_on_rh.
  - intros a Ha. apply rh_returns_connector, Ha.
  - intros a. apply connector_changed_preserves. apply _.
Qed.

Lemma returns_check :
  returns R (on_reservation_handler (check_evse_reserved_and_send_updates rc)) keep.
Proof.
  apply returns_on_rh.
  - intros a Ha. apply rh_returns_check_evse, Ha.
  - intros a. apply keeps_preserves. auto with auth.
Qed.

Lemma returns_push_queue k :
  k ∈ K ->
  returns R (emodify (fun s => set_plug_in_queue (plug_in_queue s ++ [k]) s) : AH unit) keep.
Proof.
  intros Hk. apply returns_modify. intros s [H1 H2 H3 H4]. split; try done.
  apply inv_push_queue; [done|]. by rewrite H2.
Qed.

Ltac step_with tac := eapply returns_bind with (R := keep); [by tac|intros []].

Lemma returns_session_switch k c ev :
  k ∈ K ->
  (event ev = SessionEventEnum.SessionStarted -> is_Some (session_started ev)) ->
  returns R (session_event_switch rc env k c ev) keep.
Proof.
  intros Hk Hev. unfold session_event_switch.
  destruct (event ev); try apply returns_keep.
  - step_with ltac:(apply returns_modify_evse).
    step_with ltac:(apply returns_wait_task).
    step_with ltac:(apply returns_modify_evse). apply returns_keep.
  - step_with ltac:(apply returns_submit). apply returns_keep.
  - step_with ltac:(apply returns_submit). apply returns_keep.
  - destruct (session_started ev) as [[]|]; [|apply returns_keep|by destruct Hev].
    step_with ltac:(apply returns_push_queue).
    step_with ltac:(apply returns_emit).
    step_with ltac:(apply returns_modify_evse).
    step_with ltac:(apply returns_modify_evse). apply returns_keep.
  - step_with ltac:(apply returns_modify_evse). step_with ltac:(apply returns_modify_evse).
    step_with ltac:(apply returns_submit). step_with ltac:(apply returns_wait_task).
    step_with ltac:(apply returns_modify_evse). apply returns_keep.
  - step_with ltac:(apply returns_modify_evse). step_with ltac:(apply returns_modify_evse).
    apply returns_keep.
  - step_with ltac:(apply returns_modify_evse). step_with ltac:(apply returns_modify_evse).
    step_with ltac:(apply returns_modify_evse). step_with ltac:(apply returns_submit).
    step_with ltac:(apply returns_wait_task). step_with ltac:(apply returns_modify_evse).
    step_with ltac:(apply returns_remove_queue). apply returns_keep.
  - eapply returns_bind; [apply returns_get_keep|]. intros s.
    eapply returns_bind with (R := keep); [|intros []; apply returns_keep].
    case_match; [|apply returns_keep].
    eapply returns_bind with (R := keep); [|intros; apply returns_keep].
    apply returns_on_rh.
    + intros a Ha. apply rh_returns_cancel_evse, Ha.
    + intros a. unfold cancel_reservation_evse. apply preserves_bind; [apply preserves_get|].
      intros s'. case_match; [|apply preserves_ret].
      apply preserves_bind; [apply cancel_preserves, _|]. intros. apply preserves_ret.
Qed.

Lemma returns_session_event k ev :
  (event ev = SessionEventEnum.SessionStarted -> is_Some (session_started ev)) ->
  returns R (handle_session_event rc env k ev) keep.
Proof.
  intros Hev. unfold handle_session_event.
  eapply returns_bind; [apply returns_get|]. intros s. apply returns_pre. intros s' [-> Hs].
  eapply returns_weaken with (P := R) (Q := keep); [|by intros ? <-|done].
  case_match; [apply returns_keep|]. case_match; [apply returns_keep|].
  destruct (StdMap.count k (evses s')) eqn:Hc; cbn [negb]; [|apply returns_keep].
  apply StdMap.count_spec in Hc. rewrite (ready_keys _ _ Hs) in Hc.
  eapply returns_bind; [by apply returns_session_switch|]. intros [].
  - apply returns_check.
  - apply returns_keep.
Qed.
End Ready.
