(* ===== verification/AuthProperties.v ===== *)
(** * Properties of the Auth handler

    What [AuthHandler] promises to the EVSEs, the token providers and the
    reservation interface, with witnesses at a small charging station. *)
From S2P Require Import Prelude AuthTypes Connector StdAlgorithm ReservationHandler.
From S2P Require Import ReservationArrival ReservationProofs ReservationProperties.
From S2P Require Import AuthHandler AuthProofs AuthTotal.
From stdpp Require Import base tactics list numbers strings sorting sets relations.
Open Scope Z_scope.
Open Scope everest_scope.

(** ** A charging station for the witnesses *)
Module AuthStation.
Definition start (algorithm : SelectionAlgorithm.t) (es : list (Z * EVSEContext)) : ah_state :=
  mkAh algorithm 30 None false false (new_ReservationHandler true) es [] [] None true all_callbacks.
Definition two : ah_state := start SelectionAlgorithm.PlugEvents Station.evses.
Definition token (v : string) : ProvidedIdToken :=
  mkProvidedIdToken None (mkIdToken v IdTokenType.ISO14443) None AuthorizationType.RFID None None.
Definition accept (t : ProvidedIdToken) : list ValidationResult :=
  [mkValidationResult AuthorizationStatus.Accepted None None None None].
Definition yes (e : option Z) (id : Z) : bool := true.
Definition plug_in (k : Z) : SessionEvent :=
  mkSessionEvent SessionEventEnum.SessionStarted (Some 1) (Some StartSessionReason.EVConnected).
(** A running timeout task comes to its end. *)
Definition tasks_end (site : Site) (s : ah_state) : ah_state :=
  match site with
  | WaitingForTimeoutTask k => run_state (modify_evse k (set_timeout_in_progress false)) s
  | _ => s
  end.
(** While a token waits for a plug-in, an EV is plugged in at EVSE 2. *)
Definition threads (site : Site) (s : ah_state) : ah_state :=
  match site with
  | WaitingForPlugIn _ => run_state (handle_session_event yes tasks_end 2 (plug_in 2)) s
  | _ => tasks_end site s
  end.
Definition signal (s : ah_state) : bool := true.

Lemma two_ready : ready [1; 2] two.
Proof.
  split; try done. split.
  - apply (bool_decide_unpack _). vm_compute. exact I.
  - intros k e. simpl. destruct (Z.eqb_spec k 1) as [->|]; [by intros [= <-]|].
    destruct (Z.eqb_spec k 2) as [->|]; [by intros [= <-]|done].
  - by intros k ?%not_elem_of_nil.
  - apply (new_honoured []).
Qed.

Lemma tasks_end_ready K site s : ready K s -> ready K (tasks_end site s).
Proof.
  intros Hs. destruct site; simpl; try done.
  pose proof (inv_modify_evse evse_id (set_timeout_in_progress false) (fun _ => eq_refl) s
    (ready_inv _ _ Hs)) as Hi.
  destruct (StdMap.find evse_id (evses s)) as [e|] eqn:He; unfold run_state in *.
  - rewrite (modify_evse_run _ _ _ _ He) in *. destruct Hs. split; try done.
    simpl. by rewrite StdMap.keys_alter.
  - by rewrite modify_evse_missing.
Qed.

Lemma tasks_end_task k s e :
  StdMap.find k (evses (tasks_end (WaitingForTimeoutTask k) s)) = Some e ->
  timeout_in_progress e = false.
Proof.
  unfold tasks_end, run_state. destruct (StdMap.find k (evses s)) as [e'|] eqn:He.
  - rewrite (modify_evse_run _ _ _ _ He). simpl.
    rewrite StdMap.find_alter, Z.eqb_refl, He. by intros [= <-].
  - rewrite modify_evse_missing by done. simpl. congruence.
Qed.

Lemma threads_ready K site s : ready K s -> ready K (threads site s).
Proof.
  intros Hs. destruct site; try (by apply tasks_end_ready).
  destruct (returns_session_event K yes tasks_end (tasks_end_ready K)
    (fun k s e _ => tasks_end_task k s e) 2 (plug_in 2) ltac:(by eexists) s Hs) as (r & _ & H).
  exact H.
Qed.
End AuthStation.

(** ** The invariant *)

(** C8: whatever happens to the Auth handler, in any order and with other
    threads running at every point where it releases its mutex, the EVSEs
    stay indexed by their own positive ids, the plug-in queue holds only
    existing EVSEs, and reservations and their timers agree. *)
Theorem auth_invariant_always vt rc clock env sig algorithm timeout prioritize ignore store ops :
  (forall site s, ah_inv s -> ah_inv (env site s)) ->
  ah_inv (foldl (fun s op => run_ah_op vt rc clock env sig op s)
            (new_AuthHandler algorithm timeout prioritize ignore store) ops).
Proof.
  intros Henv.
  enough (forall s, ah_inv s -> ah_inv (foldl (fun s op => run_ah_op vt rc clock env sig op s) s ops))
    as H by apply H, new_ah_inv.
  induction ops as [|op ops IH]; intros s Hs; simpl; [done|]. by apply IH, inv_run_op.
Qed.

Lemma auth_invariant_always_witness :
  let s := foldl (fun s op => run_ah_op AuthStation.accept AuthStation.yes Station.clock
               (fun _ s => s) AuthStation.signal op s)
             (new_AuthHandler SelectionAlgorithm.FindFirst 30 false false true)
             [op_init_evse 1 0 [new_Connector 1 ConnectorTypeEnum.cCCS2];
              op_register PublishTokenValidationStatus; op_register NotifyEvse;
              op_register ValidateToken;
              op_session_event 1 (AuthStation.plug_in 1);
              op_token (AuthStation.token "AB")] in
  ah_inv s /\ (exists e i, StdMap.find 1 (evses s) = Some e /\ identifier e = Some i
                 /\ value (i_id_token i) = "AB").
Proof.
  split.
  - apply auth_invariant_always. auto.
  - vm_compute. eexists _, _. split; [reflexivity|]. split; reflexivity.
Defined.

(** ** Tokens *)

(** C9: while a token is handled, an EVSE is only told that it is authorized
    when the token is prevalidated or a validator accepted it, always with
    the id of that token, and a transaction is only stopped in its name. *)
Theorem authorized_only_if_validated vt rc env sig t s o :
  o ∈ run_out (on_token vt rc env sig t) s ->
  match o with
  | notify_evse_callback _ t' v =>
      id_token t' = id_token t
      /\ (authorization_status v = AuthorizationStatus.Accepted ->
          prevalidated t = Some true
          \/ exists v0, v0 ∈ vt t /\ authorization_status v0 = AuthorizationStatus.Accepted)
  | stop_transaction _ req => exists t', id_tag req = Some t' /\ id_token t' = id_token t
  | _ => True
  end.
Proof.
  intros Ho. destruct (emits_on_token vt rc env sig t s) as [Hf _].
  rewrite Forall_forall in Hf. specialize (Hf o Ho). destruct o; try done.
  destruct Hf as [Hid Hv]. split; [done|]. intros Hacc.
  destruct (Hv Hacc) as (v & Hin & Hst). unfold results_for in Hin.
  case_match eqn:Hp; [left; by apply bool_decide_eq_true in Hp|right; eauto].
Qed.

Lemma authorized_only_if_validated_witness :
  let t := AuthStation.token "AB" in
  let o := notify_evse_callback 1 (set_token_connectors [2] t)
             (mkValidationResult AuthorizationStatus.Accepted None None None None) in
  o ∈ run_out (on_token AuthStation.accept AuthStation.yes AuthStation.threads
                 AuthStation.signal t) AuthStation.two
  /\ exists v0, v0 ∈ AuthStation.accept t
       /\ authorization_status v0 = AuthorizationStatus.Accepted.
Proof.
  intros t o. assert (o ∈ run_out (on_token AuthStation.accept AuthStation.yes
    AuthStation.threads AuthStation.signal t) AuthStation.two) as Ho.
  { vm_compute. do 3 apply list_elem_of_further. apply list_elem_of_here. }
  split; [exact Ho|].
  destruct (authorized_only_if_validated _ _ _ _ _ _ _ Ho) as [_ H].
  destruct (H eq_refl) as [H'|H']; [discriminate|exact H'].
Defined.

(** C21: with the callbacks registered, the connectors it names known, and
    [PlugEvents] or [FindFirst] as the selection algorithm ([ready]; with the third
    one, [UserInput], the selection throws: [user_input_throws]), a token is always
    handled to the end: no exception and no wait without end, once running timeout
    tasks end and the authorization signal comes. *)
Theorem on_token_returns K vt rc env sig t s :
  (forall site s, ready K s -> ready K (env site s)) ->
  (forall k s e, ready K s ->
     StdMap.find k (evses (env (WaitingForTimeoutTask k) s)) = Some e ->
     timeout_in_progress e = false) ->
  (forall s, sig s = true) ->
  (forall cs k, p_connectors t = Some cs -> k ∈ cs -> k ∈ K) ->
  ready K s ->
  exists r, run_val (on_token vt rc env sig t) s = Ok r
    /\ ready K (run_state (on_token vt rc env sig t) s).
Proof. intros H1 H2 H3 H4 H5. by apply (returns_on_token K vt rc env sig H1 H2 H3 t H4 s H5). Qed.

Lemma on_token_returns_witness :
  exists r, run_val (on_token AuthStation.accept AuthStation.yes AuthStation.threads
      AuthStation.signal (AuthStation.token "AB")) AuthStation.two = Ok r
    /\ ready [1; 2] (run_state (on_token AuthStation.accept AuthStation.yes AuthStation.threads
      AuthStation.signal (AuthStation.token "AB")) AuthStation.two).
Proof.
  apply (on_token_returns [1; 2]).
  - apply AuthStation.threads_ready.
  - intros k s e _. apply AuthStation.tasks_end_task.
  - reflexivity.
  - discriminate.
  - apply AuthStation.two_ready.
Defined.

(** The selection by user input is not implemented. *)
Example user_input_throws :
  run_val (on_token AuthStation.accept AuthStation.yes AuthStation.threads AuthStation.signal
    (AuthStation.token "AB")) (AuthStation.start SelectionAlgorithm.UserInput Station.evses)
  = Err not_implemented.
Proof. vm_compute. reflexivity. Qed.

(** The reservation that a token matches at an EVSE: the EVSE's own one, or a
    global one when the EVSE has none. *)
Lemma matches_reserved_held tok k p s id :
  matches_reserved_identifier tok (Some k) p s = Some id ->
  exists e r, held e r s /\ reservation_id r = id /\ reservation_matches tok p r = true
    /\ (e = Some k \/ e = None /\ is_evse_reserved k s = false).
Proof.
  unfold matches_reserved_identifier, is_evse_reserved, StdMap.count.
  destruct (StdMap.find k (evse_reservations s)) as [r|] eqn:Hf.
  - case_match eqn:Hm; [|done]. intros [= <-]. exists (Some k), r. split_and!; auto.
  - destruct (List.find _ (global_reservations s)) as [r|] eqn:Hg; [|done].
    intros [= <-]. apply find_some in Hg as [Hin Hm]. exists None, r.
    split_and!; auto. by apply list_elem_of_In.
Qed.

Lemma charging_possible_honours evses k s :
  is_charging_possible evses k s = true ->
  is_evse_reserved k s = false
  /\ no_car_turned_away evses (StdMap.insert k Reservation_default (evse_reservations s))
       (map connector_type_or_unknown (global_reservations s)).
Proof.
  unfold is_charging_possible, is_evse_reserved. case_match; [done|]. case_match; [done|].
  intros Hp. split; [done|]. by apply possible_honourable in Hp as [_ ?].
Qed.

Lemma reservation_used_run rc id s :
  exists o, on_reservation_handler (fun a => on_reservation_used (rh_cancelled_callback rc a) id) s
    = (Ok tt, set_reservation_handler (drop_reservation id (reservation_handler s)) s, o).
Proof.
  rewrite on_rh_run. unfold on_reservation_used, ebind.
  destruct (cancel_silent (rh_cancelled_callback rc s) id
    ReservationEndReason.UsedToStartCharging (reservation_handler s)) as (b & e & o & ->).
  eexists. reflexivity.
Qed.

(** The decision for a selected EVSE.  A token is authorized only when
    the EVSE is not reserved and every global reservation can still be
    honoured with this EVSE taken, or when the token or its parent matches
    the EVSE's reservation (a global one if it has none), which is then used
    up and nothing else changes.  Otherwise the acceptance is taken back and
    the state stays as it was. *)
Theorem decide_authorization_outcome rc k t v l s :
  exists b t' v' l' s' o,
  decide_authorization rc k t v l s = (Ok (b, t', v', l'), s', o)
  /\ l' ≡ₚ l
  /\ let rh := reservation_handler s in
     if b then
       authorization_status v' = authorization_status v /\ p_connectors t' = Some [k]
       /\ ((s' = s /\ is_evse_reserved (u32 k) rh = false
            /\ no_car_turned_away (evses s)
                 (StdMap.insert (u32 k) Reservation_default (evse_reservations rh))
                 (map connector_type_or_unknown (global_reservations rh)))
           \/ exists e r, held e r rh
                /\ (e = Some (u32 k) \/ e = None /\ is_evse_reserved (u32 k) rh = false)
                /\ reservation_matches (value (id_token t)) (value <$> vr_parent_id_token v) r = true
                /\ vr_reservation_id v' = Some (reservation_id r)
                /\ s' = set_reservation_handler (drop_reservation (reservation_id r) rh) s)
     else
       s' = s /\ t' = t
       /\ (authorization_status v' = AuthorizationStatus.NotAtThisLocation
           \/ authorization_status v' = AuthorizationStatus.NotAtThisTime).
Proof.
  unfold decide_authorization. rewrite run_get_bind.
  destruct (match vr_evse_ids v with Some _ => _ | None => _ end) as [[nowhere v1] l1] eqn:Hm.
  assert (l1 ≡ₚ l /\ authorization_status v1 = authorization_status v) as [Hl Hv1].
  { destruct (vr_evse_ids v); simplify_eq/=; [|done].
    split; [apply merge_sort_Permutation|done]. }
  clear Hm. destruct nowhere.
  { eexists false, t, _, l1, s, _. split; [reflexivity|]. split_and!; auto. }
  set (rh := reservation_handler s).
  destruct (matches_reserved_identifier _ _ _ _) as [id|] eqn:Hid; simpl.
  - rewrite andb_false_r. destruct (reservation_used_run rc id s) as [o Hrun].
    unfold ebind. rewrite Hrun. eexists true, _, _, l1, _, _. split; [reflexivity|].
    split; [done|]. split; [done|]. split; [done|]. right.
    destruct (matches_reserved_held _ _ _ _ _ Hid) as (e & r & Hh & <- & Hr & He).
    exists e, r. split_and!; auto.
  - destruct (is_charging_possible (evses s) (u32 k) rh) eqn:Hp; simpl.
    + destruct (charging_possible_honours _ _ _ Hp) as [Hn Hh]. rewrite Hn. simpl.
      eexists true, _, v1, l1, s, _. split; [reflexivity|]. split; [done|].
      split; [done|]. split; [done|]. left. by split_and!.
    + eexists false, t, _, l1, s, _. split; [reflexivity|]. split_and!; auto.
Qed.

(** The status published for a result. *)
Definition final_status (r : TokenHandlingResult.t) : option TokenValidationStatus.t :=
  match r with
  | TokenHandlingResult.ALREADY_IN_PROCESS => None
  | TokenHandlingResult.TIMEOUT => Some TokenValidationStatus.TimedOut
  | TokenHandlingResult.NO_CONNECTOR_AVAILABLE | TokenHandlingResult.REJECTED =>
      Some TokenValidationStatus.Rejected
  | TokenHandlingResult.USED_TO_START_TRANSACTION => Some TokenValidationStatus.UsedToStart
  | TokenHandlingResult.USED_TO_STOP_TRANSACTION => Some TokenValidationStatus.UsedToStop
  | TokenHandlingResult.WITHDRAWN => Some TokenValidationStatus.Withdrawn
  end.

Lemma publish_run t st s s' o :
  publish t st s = (Ok tt, s', o) -> s' = s /\ o = [publish_token_validation_status t st].
Proof. unfold publish. rewrite call_callback_run. by case_match; intros [= <- <-]. Qed.

Lemma publish_result_run r t s s' o :
  publish_result r t s = (Ok tt, s', o) ->
  s' = s /\ o = match final_status r with
               | Some st => [publish_token_validation_status t st]
               | None => []
               end.
Proof. destruct r; simpl; try apply publish_run. by intros [= <- <-]. Qed.

Lemma pure_run {A} (m : AH A) s a s' o : pure_action m -> m s = (Ok a, s', o) -> s' = s.
Proof. intros Hm Hr. specialize (Hm s). unfold run_state in Hm. by rewrite Hr in Hm. Qed.

(** The runs of [on_token]. *)
Lemma on_token_cases vt rc env sig t s r s' o :
  has_publish_token_validation_status (callbacks s) = true ->
  on_token vt rc env sig t s = (Ok r, s', o) ->
  (r = TokenHandlingResult.ALREADY_IN_PROCESS /\ s' = s
     /\ exists pre, o = pre ++ [notify_processing_finished])
  \/ exists mid t' s1,
     handle_token vt rc env sig t
       (set_tokens_in_process (TokenSet.insert t (tokens_in_process s)) s) = (Ok (r, t'), s1, mid)
     /\ o = publish_token_validation_status t TokenValidationStatus.Processing :: mid
            ++ match final_status r with
               | Some st => [publish_token_validation_status t' st]
               | None => []
               end ++ [notify_processing_finished]
     /\ s' = match final_status r with
             | Some _ => set_tokens_in_process (TokenSet.erase t (tokens_in_process s1)) s1
             | None => s1
             end.
Proof.
  intros Hp. unfold on_token. rewrite run_get_bind, Hp. cbn [negb].
  intros (b & s0 & o0 & o1 & Hin & H & ->)%ebind_ok_inv.
  pose proof (pure_run _ _ _ _ _ (pure_already_in_process _ _) Hin) as ->.
  apply ebind_ok_inv in H as ([r' t'] & s1 & o2 & o3 & Hb & H & ->).
  apply ebind_ok_inv in H as ([] & s2 & o4 & o5 & Hpub & H & ->).
  apply publish_result_run in Hpub as [-> ->].
  apply ebind_ok_inv in H as ([] & s3 & o6 & o7 & He & H & ->).
  apply ebind_ok_inv in H as ([] & s4 & o8 & o9 & Hem & H & ->).
  injection Hem as <- <-. injection H as <- <- <-.
  destruct b; cbn [negb] in Hb.
  - injection Hb as <- <- <- <-. injection He as <- <-. left. split_and!; [done|done|].
    exists o0. done.
  - right. rewrite ebind_modify in Hb. apply ebind_ok_inv in Hb as ([] & s5 & oa & ob & Hpr & Hh & ->).
    apply publish_run in Hpr as [-> ->]. exists ob, t', s1. split; [done|].
    assert (o0 = []) as ->.
    { destruct (emits_already_in_process (fun _ => False) t (get_referenced_evses t s) s)
        as [Hf _]. unfold run_out in Hf. rewrite Hin in Hf. by inversion Hf. }
    destruct r'; injection He as <- <-; simpl; rewrite ?app_nil_r, <- ?app_assoc; done.
Qed.

(** What a token provider sees.  A token that is already in process is
    ignored.  Otherwise [Processing] is published first, the status that
    belongs to the result is published last and exactly then, and a token
    whose result was published is not in process any more. *)
Theorem on_token_protocol vt rc env sig t s r s' o :
  has_publish_token_validation_status (callbacks s) = true ->
  on_token vt rc env sig t s = (Ok r, s', o) ->
  (TokenSet.mem t (tokens_in_process s) = true ->
     r = TokenHandlingResult.ALREADY_IN_PROCESS /\ s' = s)
  /\ (r = TokenHandlingResult.ALREADY_IN_PROCESS -> last o = Some notify_processing_finished)
  /\ (r <> TokenHandlingResult.ALREADY_IN_PROCESS ->
      exists mid t' st, final_status r = Some st
      /\ o = publish_token_validation_status t TokenValidationStatus.Processing :: mid
             ++ [publish_token_validation_status t' st; notify_processing_finished]
      /\ value (id_token t) ∉ token_values (tokens_in_process s')).
Proof.
  intros Hp Hrun. split.
  { intros Hmem. revert Hrun. unfold on_token. rewrite run_get_bind, Hp. cbn [negb].
    unfold ebind at 1, is_token_already_in_process. rewrite run_get_bind, Hmem. simpl.
    by intros [= <- <- <-]. }
  destruct (on_token_cases _ _ _ _ _ _ _ _ _ Hp Hrun)
    as [(-> & -> & pre & ->)|(mid & t' & s1 & Hh & -> & ->)].
  - split; [intros _; by rewrite last_snoc|done].
  - split.
    + intros ->. simpl. by rewrite app_comm_cons, last_snoc.
    + intros Hne. destruct (final_status r) as [st|] eqn:Hst; [|by destruct r].
      exists mid, t', st. split_and!; [done|done|].
      cbn [tokens_in_process set_tokens_in_process]. rewrite token_erase_values. by intros [? _].
Qed.

Lemma on_token_protocol_witness :
  value (id_token (AuthStation.token "AB"))
    ∉ token_values (tokens_in_process (run_state (on_token AuthStation.accept AuthStation.yes
        AuthStation.threads AuthStation.signal (AuthStation.token "AB")) AuthStation.two)).
Proof.
  destruct (on_token AuthStation.accept AuthStation.yes AuthStation.threads
    AuthStation.signal (AuthStation.token "AB") AuthStation.two) as [[r s'] o] eqn:H.
  pose proof H as Hr. vm_compute in Hr. injection Hr as Hr _ _. symmetry in Hr. subst r.
  destruct (on_token_protocol _ _ _ _ _ AuthStation.two _ _ _ eq_refl H) as (_ & _ & Hx).
  destruct (Hx ltac:(discriminate)) as (mid & t' & st & _ & _ & Hn).
  unfold run_state. rewrite H. exact Hn.
Defined.

(** *** Selecting an EVSE *)

Lemma plug_events_run env l x s :
  let waiting s := (get_latest_plugin l s =? -1) && negb (is_authorization_withdrawn l x s) in
  let s1 := if waiting s then env (WaitingForPlugIn l) s else s in
  select_by_plug_events env l x s =
  (Ok (if waiting s1 then mkSelectEvseResult None SelectEvseReturnStatus.TimeOut
       else if is_authorization_withdrawn l x s1
       then mkSelectEvseResult None SelectEvseReturnStatus.Interrupted
       else mkSelectEvseResult (Some (get_latest_plugin l s1)) SelectEvseReturnStatus.EvseSelected),
   s1, []).
Proof.
  simpl. unfold select_by_plug_events, wait_for, release. rewrite run_get_bind.
  destruct (get_latest_plugin l s =? -1) eqn:H1; simpl.
  - unfold ebind at 1. rewrite run_get_bind, H1. simpl.
    destruct (is_authorization_withdrawn l x s) eqn:H2; simpl.
    + by rewrite run_get_bind, H1, H2.
    + unfold ebind at 1. simpl.
      destruct (get_latest_plugin l (env (WaitingForPlugIn l) s) =? -1) eqn:H3; simpl;
        destruct (is_authorization_withdrawn l x (env (WaitingForPlugIn l) s)) eqn:H4; simpl;
        by rewrite ?run_get_bind, ?H4.
  - rewrite ebind_ret. simpl. rewrite run_get_bind, H1. simpl. by case_match.
Qed.

(** Whether an EVSE has a running transaction. *)
Definition in_transaction (s : ah_state) (k : Z) : bool :=
  match StdMap.find k (evses s) with Some e => transaction_active e | None => false end.

Lemma first_without_run l s :
  (forall k, k ∈ l -> k ∈ StdMap.keys (evses s)) ->
  first_without_transaction l s =
  (Ok (List.find (fun k => negb (in_transaction s k)) l), s, []).
Proof.
  induction l as [|k l IH]; intros Hl; [done|]. simpl. unfold ebind, in_transaction at 1.
  rewrite at_evse_run. destruct (proj2 (StdMap.find_keys k (evses s)) (Hl k ltac:(left))) as [e He].
  rewrite He. destruct (negb (transaction_active e)); [done|].
  rewrite IH; [done|]. intros. apply Hl. by right.
Qed.

Lemma find_first_run l s :
  (forall k, k ∈ l -> k ∈ StdMap.keys (evses s)) ->
  select_by_find_first l s =
  (Ok (let k := get_latest_plugin l s in
       if negb (k =? -1) && negb (in_transaction s k)
       then mkSelectEvseResult (Some k) SelectEvseReturnStatus.EvseSelected
       else match List.find (fun k => negb (in_transaction s k)) l with
            | Some k => mkSelectEvseResult (Some k) SelectEvseReturnStatus.EvseSelected
            | None => mkSelectEvseResult None SelectEvseReturnStatus.TimeOut
            end), s, []).
Proof.
  intros Hl. unfold select_by_find_first. rewrite run_get_bind. simpl.
  pose proof (first_without_run l s Hl) as Hfw.
  destruct (Z.eqb_spec (get_latest_plugin l s) (-1)) as [E|E]; simpl.
  - rewrite ebind_ret. unfold ebind. rewrite Hfw. by destruct (List.find _ l).
  - pose proof (Hl _ (latest_plugin_selected l s E)) as Hk.
    destruct (proj2 (StdMap.find_keys _ (evses s)) Hk) as [e He].
    unfold in_transaction at 1. rewrite He. unfold ebind at 1 2. rewrite at_evse_run, He. simpl.
    destruct (negb (transaction_active e)); simpl; [done|].
    unfold ebind. rewrite Hfw. by destruct (List.find _ l).
Qed.

Lemma find_idle_spec l s :
  let r := match List.find (fun k => negb (in_transaction s k)) l with
           | Some k => mkSelectEvseResult (Some k) SelectEvseReturnStatus.EvseSelected
           | None => mkSelectEvseResult None SelectEvseReturnStatus.TimeOut
           end in
  match sel_status r with
  | SelectEvseReturnStatus.EvseSelected =>
      exists k, sel_evse_id r = Some k /\ k ∈ l /\ in_transaction s k = false
  | _ => sel_evse_id r = None /\ forall k, k ∈ l -> in_transaction s k = true
  end.
Proof.
  destruct (List.find _ l) as [k|] eqn:Hf; simpl.
  - apply find_some in Hf as [Hin Hn]. exists k.
    split_and!; [done|by apply list_elem_of_In|by apply negb_true_iff].
  - split; [done|]. intros k Hk. apply list_elem_of_In in Hk.
    pose proof (find_none _ _ Hf k Hk) as Hn. by apply negb_false_iff in Hn.
Qed.

(** Which EVSE a token gets when several are possible.  By plug events,
    the EVSE that was plugged in first of those referenced, after waiting for
    one, unless the request is withdrawn or the wait times out; by find
    first, an EVSE without transaction, of the plugged-in ones the first if
    it is idle, and none only when all have a transaction. *)
Theorem select_evse_outcome K env l x s :
  ready K s -> (forall k, k ∈ l -> k ∈ K) -> length l <> 1%nat ->
  exists r s', select_evse env l x s = (Ok r, s', [])
  /\ match selection_algorithm s with
     | SelectionAlgorithm.PlugEvents =>
         (s' = s \/ s' = env (WaitingForPlugIn l) s)
         /\ match sel_status r with
            | SelectEvseReturnStatus.EvseSelected =>
                exists k, sel_evse_id r = Some k /\ k ∈ l
                /\ List.find (fun e => StdSet.mem e l) (plug_in_queue s') = Some k
                /\ is_authorization_withdrawn l x s' = false
            | SelectEvseReturnStatus.Interrupted =>
                sel_evse_id r = None /\ is_authorization_withdrawn l x s' = true
            | SelectEvseReturnStatus.TimeOut =>
                sel_evse_id r = None /\ is_authorization_withdrawn l x s' = false
                /\ get_latest_plugin l s' = -1
            end
     | _ =>
         s' = s
         /\ match sel_status r with
            | SelectEvseReturnStatus.EvseSelected =>
                exists k, sel_evse_id r = Some k /\ k ∈ l /\ in_transaction s k = false
            | _ => sel_evse_id r = None /\ forall k, k ∈ l -> in_transaction s k = true
            end
     end.
Proof.
  intros Hs Hl Hlen.
  assert (select_evse env l x s =
    match selection_algorithm s with
    | SelectionAlgorithm.PlugEvents => select_by_plug_events env l x s
    | SelectionAlgorithm.FindFirst => select_by_find_first l s
    | SelectionAlgorithm.UserInput => ethrow not_implemented s
    end) as ->.
  { unfold select_evse. destruct l as [|a [|b l]]; [|done|];
      rewrite run_get_bind; by destruct (selection_algorithm s). }
  pose proof (ready_algorithm _ _ Hs) as Halg. destruct (selection_algorithm s); [done|..].
  - rewrite plug_events_run. set (s1 := if _ && _ then _ else s).
    eexists _, s1. split; [reflexivity|]. split; [unfold s1; case_match; auto|].
    destruct (is_authorization_withdrawn l x s1) eqn:Hw.
    { rewrite andb_false_r. done. }
    destruct (Z.eqb_spec (get_latest_plugin l s1) (-1)) as [E|E]; simpl; [done|].
    eexists. split; [reflexivity|]. split; [by apply latest_plugin_selected|]. split; [|done].
    revert E. unfold get_latest_plugin. by destruct (List.find _ _).
  - rewrite find_first_run by (intros; rewrite (ready_keys _ _ Hs); auto). simpl.
    eexists _, s. split; [reflexivity|]. split; [done|].
    destruct (Z.eqb_spec (get_latest_plugin l s) (-1)) as [E|E]; simpl;
      [|destruct (in_transaction s (get_latest_plugin l s)) eqn:Ht; simpl].
    + apply find_idle_spec.
    + apply find_idle_spec.
    + eexists. split_and!; [done|by apply latest_plugin_selected|done].
Qed.

Lemma select_evse_outcome_witness :
  exists s', select_evse AuthStation.threads [1; 2] (mkIdToken "AB" IdTokenType.ISO14443)
    AuthStation.two = (Ok (mkSelectEvseResult (Some 2) SelectEvseReturnStatus.EvseSelected), s', [])
    /\ List.find (fun e => StdSet.mem e [1; 2]) (plug_in_queue s') = Some 2.
Proof.
  destruct (select_evse_outcome [1; 2] AuthStation.threads [1; 2]
    (mkIdToken "AB" IdTokenType.ISO14443) AuthStation.two AuthStation.two_ready
    (fun k H => H) ltac:(discriminate)) as (r & s' & Hrun & H).
  exists s'. pose proof Hrun as Hr. vm_compute in Hr. injection Hr as Hr _. symmetry in Hr.
  subst r. split; [exact Hrun|]. destruct H as [_ (k & Hk & _ & Hf & _)].
  injection Hk as <-. exact Hf.
Defined.

(** ** Withdrawing authorization *)

(** The EVSEs a request is about. *)
Definition requested_evses (req : WithdrawAuthorizationRequest) (s : ah_state)
  : list (Z * EVSEContext) :=
  match w_evse_id req with
  | Some k => match StdMap.find k (evses s) with Some e => [(k, e)] | None => [] end
  | None => evses s
  end.

(** How an authorization at an EVSE is taken back. *)
Definition withdrawal (e : Z * EVSEContext) : auth_output :=
  if transaction_active e.2
  then stop_transaction (evse_index e.2)
         (mkStopTransactionRequest StopTransactionReason.DeAuthorized None)
  else withdraw_authorization (evse_index e.2).

Definition targeted_evses (req : WithdrawAuthorizationRequest) (s : ah_state)
  : list (Z * EVSEContext) :=
  List.filter (fun e => identifier_targeted req e.2) (requested_evses req s).

Lemma withdraw_all_run req es b s found s' o :
  withdraw_all req es b s = (Ok found, s', o) ->
  s' = s /\ o = map withdrawal (List.filter (fun e => identifier_targeted req e.2) es)
  /\ found = b || existsb (fun e => identifier_targeted req e.2) es.
Proof.
  revert b o. induction es as [|[k e] es IH]; intros b o; simpl.
  { intros [= <- <- <-]. by rewrite orb_false_r. }
  destruct (identifier_targeted req e); simpl.
  - intros ([] & s1 & o1 & o2 & H1 & H2 & ->)%ebind_ok_inv.
    assert (s1 = s /\ o1 = [withdrawal (k, e)]) as [-> ->].
    { revert H1. unfold withdraw_authorization_or_stop_transaction, withdrawal. simpl.
      destruct (transaction_active e); rewrite call_callback_run;
        (destruct (_ (callbacks s)); [|done]); by intros [= <- <-]. }
    apply IH in H2 as (-> & -> & ->). by rewrite orb_true_r.
  - apply IH.
Qed.

Lemma filter_nonempty {A} (f : A -> bool) l : existsb f l = true <-> List.filter f l <> [].
Proof.
  induction l as [|x l IH]; simpl; [split; [done|congruence]|]. by destruct (f x).
Qed.

(** A withdrawal that returns.  An unknown EVSE is reported and nothing
    happens.  Otherwise no token in process is targeted any more, each EVSE
    whose granted authorization the request is about has its transaction
    stopped or its authorization withdrawn, in order and nothing else is
    called, and the answer is [Accepted] exactly when there was a token in
    process or an authorization. *)
Theorem handle_withdraw_authorization_outcome env req s r s' o :
  handle_withdraw_authorization env req s = (Ok r, s', o) ->
  match r with
  | WithdrawAuthorizationResult.EvseNotFound =>
      s' = s /\ o = [] /\ exists k, w_evse_id req = Some k /\ k ∉ StdMap.keys (evses s)
  | _ =>
      is_withdraw_request_targeting_token_in_process req s' = false
      /\ let waited := is_withdraw_request_targeting_token_in_process req s in
         o = (if waited then [notify_all] else []) ++ map withdrawal (targeted_evses req s')
         /\ (r = WithdrawAuthorizationResult.Accepted <->
             waited = true \/ targeted_evses req s' <> [])
  end.
Proof.
  unfold handle_withdraw_authorization. rewrite run_get_bind.
  destruct (match w_evse_id req with Some _ => _ | None => _ end) eqn:Hk.
  { intros [= <- <- <-]. split_and!; [done..|]. destruct (w_evse_id req) as [k|]; [|done].
    exists k. split; [done|]. rewrite <- StdMap.count_spec. by destruct (StdMap.count _ _). }
  rewrite ebind_modify.
  intros (b & s1 & o1 & o2 & H1 & H2 & ->)%ebind_ok_inv.
  apply ebind_ok_inv in H2 as (found & s2 & o3 & o4 & H2 & H3 & ->). injection H3 as <- <- <-.
  set (waited := is_withdraw_request_targeting_token_in_process req s).
  assert (b = waited /\ o1 = (if waited then [notify_all] else [])
    /\ is_withdraw_request_targeting_token_in_process req s1 = false) as (-> & -> & Hfree).
  { revert H1. rewrite run_get_bind.
    change (is_withdraw_request_targeting_token_in_process req (set_withdraw_request _ s))
      with waited.
    destruct waited eqn:Hw; [|intros [= <- <- <-]; done].
    intros ([] & sa & oa & ob & Ha & H & ->)%ebind_ok_inv. injection Ha as <- <-.
    apply ebind_ok_inv in H as ([] & sc & oc & od & Hwait & H & ->). injection H as <- <- <-.
    revert Hwait. unfold wait, release. rewrite run_get_bind.
    change (is_withdraw_request_targeting_token_in_process req (set_withdraw_request _ s))
      with (is_withdraw_request_targeting_token_in_process req s).
    fold waited. rewrite Hw. simpl. rewrite ebind_modify, run_get_bind.
    destruct (negb _) eqn:Hp; [|done]. intros [= <- <-]. by apply negb_true_iff in Hp. }
  assert (withdraw_all req (requested_evses req s1) waited s1 = (Ok found, s2, o3)) as Hall.
  { unfold requested_evses. destruct (w_evse_id req) as [k|].
    - revert H2. unfold ebind at 1. rewrite at_evse_run.
      destruct (StdMap.find k (evses s1)); [|done].
      by destruct (withdraw_all _ _ _ s1) as [[[]?]?].
    - by rewrite run_get_bind in H2. }
  apply withdraw_all_run in Hall as (-> & -> & Hf).
  assert (found = true <-> waited = true \/ targeted_evses req s1 <> []) as Hfound.
  { rewrite Hf, orb_true_iff. apply or_iff_compat_l. apply filter_nonempty. }
  rewrite app_nil_r. by destruct found; (split; [done|]; split; [done|]);
    rewrite <- Hfound.
Qed.

Lemma handle_withdraw_authorization_outcome_witness :
  let s := run_state (on_token AuthStation.accept AuthStation.yes AuthStation.threads
             AuthStation.signal (AuthStation.token "AB")) AuthStation.two in
  let req := mkWithdrawAuthorizationRequest None (Some (mkIdToken "ab" IdTokenType.ISO14443)) in
  run_out (handle_withdraw_authorization AuthStation.threads req) s = [withdraw_authorization 1]
  /\ is_withdraw_request_targeting_token_in_process req
       (run_state (handle_withdraw_authorization AuthStation.threads req) s) = false.
Proof.
  intros s req. split; [vm_compute; reflexivity|].
  destruct (handle_withdraw_authorization AuthStation.threads req s) as [[r s'] o] eqn:H.
  pose proof H as Hr. vm_compute in Hr. injection Hr as Hr _ _. symmetry in Hr. subst r.
  pose proof (handle_withdraw_authorization_outcome _ _ _ _ _ _ H) as [Hx _].
  unfold run_state. rewrite H. exact Hx.
Defined.

(** The end of [handle_withdraw_authorization]. *)
Definition withdraw_tail (req : WithdrawAuthorizationRequest) (targeting : bool)
  : AH WithdrawAuthorizationResult.t :=
  let* found :=
    match w_evse_id req with
    | Some evse_id => let* e := at_evse evse_id in withdraw_all req [(evse_id, e)] targeting
    | None => let* s := eget in withdraw_all req (evses s) targeting
    end in
  eret (if found then WithdrawAuthorizationResult.Accepted
        else WithdrawAuthorizationResult.AuthorizationNotFound).

Lemma pure_withdraw_tail req b : pure_action (withdraw_tail req b).
Proof. unfold withdraw_tail. solve_pure. Qed.

(** A withdraw request stays in force after it was handled.  Every later
    token it matches, when several EVSEs are possible and an EV is already
    plugged in, is answered as withdrawn. *)
Theorem withdraw_request_stays_in_force env env' req s l x :
  tokens_in_process s = [] ->
  (forall k, w_evse_id req = Some k -> k ∈ StdMap.keys (evses s)) ->
  selection_algorithm s = SelectionAlgorithm.PlugEvents ->
  does_withdraw_request_match req l x = true -> length l <> 1%nat ->
  get_latest_plugin l s <> -1 ->
  let s' := run_state (handle_withdraw_authorization env req) s in
  select_evse env' l x s'
  = (Ok (mkSelectEvseResult None SelectEvseReturnStatus.Interrupted), s', []).
Proof.
  intros Htok Hk Halg Hm Hl Hp s'.
  assert (s' = set_withdraw_request (Some req) s) as ->.
  { unfold s', handle_withdraw_authorization, run_state. rewrite run_get_bind.
    assert ((match w_evse_id req with
             | Some e => negb (StdMap.count e (evses s)) | None => false end) = false) as ->.
    { destruct (w_evse_id req) as [k|]; [|done]. apply negb_false_iff, StdMap.count_spec. auto. }
    rewrite ebind_modify. unfold ebind at 1. rewrite run_get_bind.
    assert (is_withdraw_request_targeting_token_in_process req (set_withdraw_request (Some req) s)
      = false) as ->.
    { unfold is_withdraw_request_targeting_token_in_process. simpl. by rewrite Htok. }
    pose proof (pure_withdraw_tail req false (set_withdraw_request (Some req) s)) as Hpure.
    revert Hpure. unfold run_state, withdraw_tail. cbn [eret].
    by destruct (ebind _ _ (set_withdraw_request (Some req) s)) as [[??]?]. }
  assert (select_evse env' l x (set_withdraw_request (Some req) s)
    = select_by_plug_events env' l x (set_withdraw_request (Some req) s)) as ->.
  { unfold select_evse. destruct l as [|a [|b l]]; [|done|]; rewrite run_get_bind; simpl;
      by rewrite Halg. }
  rewrite plug_events_run.
  assert (is_authorization_withdrawn l x (set_withdraw_request (Some req) s) = true) as Hw by done.
  assert ((get_latest_plugin l (set_withdraw_request (Some req) s) =? -1) = false) as Hq
    by by apply Z.eqb_neq.
  rewrite Hq. simpl. by rewrite Hq, Hw.
Qed.

Lemma withdraw_request_stays_in_force_witness :
  let s := run_state (handle_session_event AuthStation.yes AuthStation.tasks_end 2
             (AuthStation.plug_in 2)) AuthStation.two in
  let s' := run_state (handle_withdraw_authorization AuthStation.threads
              (mkWithdrawAuthorizationRequest None None)) s in
  select_evse AuthStation.threads [1; 2] (mkIdToken "ZZ" IdTokenType.ISO14443) s'
  = (Ok (mkSelectEvseResult None SelectEvseReturnStatus.Interrupted), s', []).
Proof.
  intros s. apply withdraw_request_stays_in_force; try (vm_compute; congruence).
Defined.

(** ** Sessions and timeouts *)

Lemma update_connector_none id f cs :
  List.find (fun c => c_id c =? id) cs = None -> update_connector id f cs = cs.
Proof.
  induction cs as [|c cs IH]; simpl; [done|]. case_match; [done|]. intros. by rewrite IH.
Qed.

(** Submitting a connector event changes that connector and reservations. *)
Lemma submit_run K rc k c ev s e :
  ready K s -> StdMap.find k (evses s) = Some e ->
  exists rh o es,
    submit_event_for_connector rc k c ev s
    = (Ok tt, set_reservation_handler rh (set_evses es s), o)
    /\ forall j, StdMap.find j es
         = if k =? j then Some (set_connectors (update_connector c (submit_event ev) (connectors e)) e)
           else StdMap.find j (evses s).
Proof.
  intros Hs He. unfold submit_event_for_connector. unfold ebind at 1. rewrite at_evse_run, He.
  destruct (List.find _ (connectors e)) as [x|] eqn:Hx.
  - unfold ebind. rewrite (modify_evse_run _ _ _ _ He), on_rh_run.
    set (es := StdMap.alter _ k (evses s)).
    destruct (rh_returns_connector rc (set_evses es s) (ready_callbacks _ _ Hs)
      (c_state (submit_event ev x)) (u32 k) (u32 c) (reservation_handler (set_evses es s)))
      as [[] Hr].
    unfold run_val in Hr. simpl in *.
    destruct (on_connector_state_changed _ _ _ _ _ _) as [[r rh] o]. simpl in *. subst r.
    eexists rh, _, es. split; [reflexivity|]. intros j. unfold es. rewrite StdMap.find_alter.
    destruct (Z.eqb_spec k j) as [<-|]; [by rewrite He|done].
  - eexists (reservation_handler s), _, (evses s). split; [by destruct s|]. intros j.
    destruct (Z.eqb_spec k j) as [<-|]; [|done]. rewrite He, update_connector_none by done.
    by destruct e.
Qed.

Lemma modify_run k f s e :
  StdMap.find k (evses s) = Some e ->
  exists es, modify_evse k f s = (Ok tt, set_evses es s, [])
    /\ forall j, StdMap.find j es = if k =? j then Some (f e) else StdMap.find j (evses s).
Proof.
  intros He. eexists. split; [by eapply modify_evse_run|]. intros j. rewrite StdMap.find_alter.
  destruct (Z.eqb_spec k j) as [<-|]; [by rewrite He|done].
Qed.

Lemma wait_task_run env k s e :
  StdMap.find k (evses s) = Some e -> timeout_in_progress e = false ->
  wait_for_timeout_task env k s = (Ok tt, s, []).
Proof.
  intros He Ht. unfold wait_for_timeout_task, ebind, wait. rewrite at_evse_run, He.
  by rewrite run_get_bind, He, Ht.
Qed.

Lemma bind_run {S O E A B} (m : Eff S O E A) (f : A -> Eff S O E B) s a s1 o1 b s2 o2 :
  m s = (Ok a, s1, o1) -> f a s1 = (Ok b, s2, o2) -> ebind m f s = (Ok b, s2, o1 ++ o2).
Proof. intros H1 H2. unfold ebind. by rewrite H1, H2. Qed.

(** What is known of the EVSE [k], while the others are as in [s0]. *)
Definition at_evse_view (K : list Z) (k : Z) (s0 : ah_state) (Phi : EVSEContext -> Prop)
    (s : ah_state) : Prop :=
  ready K s
  /\ (exists e, StdMap.find k (evses s) = Some e /\ Phi e)
  /\ forall j, j <> k -> StdMap.find j (evses s) = StdMap.find j (evses s0).

Section View.
Context (K : list Z) (k : Z) (s0 : ah_state).
Let view := at_evse_view K k s0.

Lemma view_modify (Phi Psi : EVSEContext -> Prop) f :
  (forall e, e_evse_id (f e) = e_evse_id e) -> (forall e, Phi e -> Psi (f e)) ->
  returns (view Phi) (modify_evse k f) (fun _ => view Psi).
Proof.
  intros Hf HP s (Hs & (e & He & HPhi) & Ho). exists tt.
  assert (k ∈ K) as Hk.
  { rewrite <- (ready_keys _ _ Hs). apply StdMap.find_keys. by rewrite He. }
  destruct (returns_modify_evse K k f Hk Hf s Hs) as ([] & Hv & Hr). split; [done|].
  split; [exact Hr|]. unfold run_state. rewrite (modify_evse_run _ _ _ _ He). simpl. split.
  - exists (f e). rewrite StdMap.find_alter, Z.eqb_refl, He. auto.
  - intros j Hj. rewrite StdMap.find_alter. destruct (Z.eqb_spec k j); [congruence|auto].
Qed.

Lemma view_submit rc (Phi Psi : EVSEContext -> Prop) c ev :
  (forall e, Phi e -> Psi (set_connectors (update_connector c (submit_event ev) (connectors e)) e)) ->
  returns (view Phi) (submit_event_for_connector rc k c ev) (fun _ => view Psi).
Proof.
  intros HP s (Hs & (e & He & HPhi) & Ho). exists tt.
  assert (k ∈ K) as Hk.
  { rewrite <- (ready_keys _ _ Hs). apply StdMap.find_keys. by rewrite He. }
  destruct (returns_submit K rc k c ev Hk s Hs) as ([] & Hv & Hr). split; [done|].
  split; [exact Hr|]. destruct (submit_run K rc k c ev s e Hs He) as (rh & o & es & Hrun & Hes).
  unfold run_state. rewrite Hrun. simpl. split.
  - eexists. rewrite Hes, Z.eqb_refl. eauto.
  - intros j Hj. rewrite Hes. destruct (Z.eqb_spec k j); [congruence|auto].
Qed.

Lemma view_wait env (Phi : EVSEContext -> Prop) :
  (forall e, Phi e -> timeout_in_progress e = false) ->
  returns (view Phi) (wait_for_timeout_task env k) (fun _ => view Phi).
Proof.
  intros HP s (Hs & (e & He & HPhi) & Ho). exists tt. unfold run_val, run_state.
  rewrite (wait_task_run env k s e) by auto. split; [done|]. split_and!; eauto.
Qed.

Lemma view_remove_queue Phi :
  returns (view Phi) (remove_from_plug_in_queue k)
    (fun _ s => view Phi s /\ k ∉ plug_in_queue s).
Proof.
  intros s (Hs & He & Ho). exists tt. split; [done|].
  destruct (returns_remove_queue K k s Hs) as (_ & _ & Hr).
  split; [by split_and!|]. simpl. intros [_ Hn]%list_elem_of_In%filter_In.
  by rewrite Z.eqb_refl in Hn.
Qed.

Lemma view_check rc Phi (Q : list Z -> Prop) :
  returns (fun s => view Phi s /\ Q (plug_in_queue s))
    (on_reservation_handler (check_evse_reserved_and_send_updates rc))
    (fun _ s => view Phi s /\ Q (plug_in_queue s)).
Proof.
  intros s ((Hs & He & Ho) & HQ).
  destruct (returns_check K rc s Hs) as ([] & Hv & Hr). exists tt. split; [done|].
  revert Hr. unfold run_state. rewrite on_rh_run.
  destruct (check_evse_reserved_and_send_updates _ _ _) as [[??]?]. simpl. intros Hr.
  by split_and!.
Qed.
End View.

(** An EVSE after its session, with connectors [cs]. *)
Definition freed (cs : list Connector) (e : EVSEContext) : Prop :=
  identifier e = None /\ plugged_in e = false /\ plug_in_timeout e = false
  /\ timeout_timer e = None /\ timeout_in_progress e = false /\ connectors e = cs.

Lemma session_finished_switch K rc env k c ev s0 e :
  event ev = SessionEventEnum.SessionFinished -> timeout_in_progress e = false ->
  returns (at_evse_view K k s0 (eq e)) (session_event_switch rc env k c ev)
    (fun b s => b = true /\ at_evse_view K k s0 (freed (update_connector c
       (submit_event ConnectorEvent.SESSION_FINISHED) (connectors e))) s /\ k ∉ plug_in_queue s).
Proof.
  intros Hev Ht. unfold session_event_switch. rewrite Hev.
  set (cs := update_connector c (submit_event ConnectorEvent.SESSION_FINISHED) (connectors e)).
  eapply returns_bind; [apply (view_modify K k s0 _ (eq (set_plugged_in false e))); [done|]|].
  { by intros ? <-. }
  intros []. eapply returns_bind; [apply (view_modify K k s0 _
    (eq (set_plug_in_timeout false (set_plugged_in false e)))); [done|]|].
  { by intros ? <-. }
  intros []. eapply returns_bind; [apply (view_modify K k s0 _
    (eq (set_identifier None (set_plug_in_timeout false (set_plugged_in false e))))); [done|]|].
  { by intros ? <-. }
  intros []. eapply returns_bind; [apply (view_submit K k s0 rc _ (eq (set_connectors cs
    (set_identifier None (set_plug_in_timeout false (set_plugged_in false e)))))); by intros ? <-|].
  intros []. eapply returns_bind; [apply view_wait; by intros ? <-|].
  intros []. eapply returns_bind; [apply (view_modify K k s0 _ (freed cs)); [done|]|].
  { by intros ? <-. }
  intros []. eapply returns_bind; [apply view_remove_queue|].
  intros []. by apply returns_ret.
Qed.

(** When a session ends, the EVSE is free again: no identifier, not
    plugged in, no plug-in timeout, no timer, out of the plug-in queue, its
    connector told; the other EVSEs are not touched. *)
Theorem session_finished_frees_evse K rc env k ev s e :
  ready K s -> StdMap.find k (evses s) = Some e -> timeout_in_progress e = false ->
  event ev = SessionEventEnum.SessionFinished -> 0 < default 1 (connector_id ev) ->
  let s' := run_state (handle_session_event rc env k ev) s in
  run_val (handle_session_event rc env k ev) s = Ok tt
  /\ (k ∉ plug_in_queue s')
  /\ (forall j, j <> k -> StdMap.find j (evses s') = StdMap.find j (evses s))
  /\ exists e', StdMap.find k (evses s') = Some e'
     /\ identifier e' = None /\ plugged_in e' = false /\ plug_in_timeout e' = false
     /\ timeout_timer e' = None /\ timeout_in_progress e' = false
     /\ connectors e' = update_connector (default 1 (connector_id ev))
                          (submit_event ConnectorEvent.SESSION_FINISHED) (connectors e).
Proof.
  intros Hs He Ht Hev Hc s'. unfold s', handle_session_event, run_val, run_state.
  rewrite run_get_bind. destruct (inv_evse_ids _ (ready_inv _ _ Hs) k e He) as [Hk _].
  destruct (Z.leb_spec k 0); [lia|]. destruct (Z.leb_spec (default 1 (connector_id ev)) 0); [lia|].
  assert (StdMap.count k (evses s) = true) as ->.
  { apply StdMap.count_spec, StdMap.find_keys. by rewrite He. }
  cbn [negb]. set (cs := update_connector _ _ _).
  match goal with |- ((?m s).1.1 = _) /\ _ =>
    enough (returns (at_evse_view K k s (eq e)) m
      (fun _ s' => at_evse_view K k s (freed cs) s' /\ k ∉ plug_in_queue s')) as Hm end.
  { destruct (Hm s) as ([] & Hv & (_ & Hx & Ho) & Hq); [by split_and!; eauto|]. by split_and!. }
  eapply returns_bind; [by apply session_finished_switch|].
  intros [|]; [|by intros ? [? _]].
  eapply returns_weaken; [apply (view_check K k s rc (freed cs) (fun q => k ∉ q))| |done].
  by intros ? (_ & ? & ?).
Qed.

Lemma session_finished_frees_evse_witness :
  let s := run_state (on_token AuthStation.accept AuthStation.yes AuthStation.threads
             AuthStation.signal (AuthStation.token "AB")) AuthStation.two in
  let s' := run_state (handle_session_event AuthStation.yes AuthStation.threads 2
              (mkSessionEvent SessionEventEnum.SessionFinished None None)) s in
  (exists e, StdMap.find 2 (evses s) = Some e /\ identifier e <> None)
  /\ exists e', StdMap.find 2 (evses s') = Some e' /\ identifier e' = None.
Proof.
  intros s s'.
  assert (ready [1; 2] s) as Hs.
  { destruct (returns_on_token [1; 2] AuthStation.accept AuthStation.yes AuthStation.threads
      AuthStation.signal (AuthStation.threads_ready [1; 2])
      (fun k s e _ => AuthStation.tasks_end_task k s e) (fun _ => eq_refl)
      (AuthStation.token "AB") ltac:(discriminate) AuthStation.two AuthStation.two_ready)
      as (? & _ & H). exact H. }
  destruct (StdMap.find 2 (evses s)) as [e|] eqn:He; [|vm_compute in He; discriminate].
  pose proof He as Hv. vm_compute in Hv. injection Hv as Hv.
  split; [exists e; split; [reflexivity|rewrite <- Hv; discriminate]|].
  destruct (session_finished_frees_evse [1; 2] AuthStation.yes AuthStation.threads 2
    (mkSessionEvent SessionEventEnum.SessionFinished None None) s e Hs He
    ltac:(rewrite <- Hv; reflexivity) eq_refl ltac:(simpl; lia))
    as (_ & _ & _ & e' & He' & Hi & _).
  exists e'. split; [exact He'|exact Hi].
Defined.

(** Every session event is handled to the end, for any EVSE id, as long
    as a [SessionStarted] event carries its reason. *)
Theorem handle_session_event_returns K rc env k ev s :
  (forall site s, ready K s -> ready K (env site s)) ->
  (forall k s e, ready K s ->
     StdMap.find k (evses (env (WaitingForTimeoutTask k) s)) = Some e ->
     timeout_in_progress e = false) ->
  (event ev = SessionEventEnum.SessionStarted -> is_Some (session_started ev)) ->
  ready K s ->
  run_val (handle_session_event rc env k ev) s = Ok tt
  /\ ready K (run_state (handle_session_event rc env k ev) s).
Proof.
  intros H1 H2 H3 H4.
  by destruct (returns_session_event K rc env H1 H2 k ev H3 s H4) as ([] & ? & ?).
Qed.

Lemma handle_session_event_returns_witness :
  run_val (handle_session_event AuthStation.yes AuthStation.threads 2 (AuthStation.plug_in 2))
    AuthStation.two = Ok tt.
Proof.
  apply (handle_session_event_returns [1; 2]).
  - apply AuthStation.threads_ready.
  - intros k s e _. apply AuthStation.tasks_end_task.
  - eexists. reflexivity.
  - apply AuthStation.two_ready.
Defined.

(** What the end of a timeout task does to the EVSE, and whom it calls. *)
Definition timed_out (task : TimeoutTask) (e : EVSEContext) : EVSEContext :=
  let e := set_timeout_timer None e in
  match task with
  | AuthorizationTimeout _ => set_identifier None e
  | PlugInTimeout => set_plug_in_timeout true e
  end.

Definition timeout_calls (task : TimeoutTask) (e : EVSEContext) : list auth_output :=
  withdraw_authorization (evse_index e) ::
  match task with
  | AuthorizationTimeout t => [publish_token_validation_status t TokenValidationStatus.TimedOut]
  | PlugInTimeout => []
  end ++ [notify_all].

(** A timeout that fires and runs undisturbed.  The authorization is
    withdrawn at the EVSE; an authorization that was not used loses its
    identifier and its token is reported as timed out, an EV that was not
    authorized must be replugged and leaves the plug-in queue; no task is
    marked as running any more and no timer is armed. *)
Theorem timeout_outcome K k s e task :
  ready K s -> StdMap.find k (evses s) = Some e -> timeout_timer e = Some task ->
  timeout_in_progress e = false ->
  exists s' es,
    (let* t := timeout_fires k in
     match t with Some task => timeout_task k task | None => eret tt end) s
    = (Ok tt, s', timeout_calls task e)
    /\ s' = set_evses es (match task with
         | AuthorizationTimeout _ => s
         | PlugInTimeout =>
             set_plug_in_queue (List.filter (fun v => negb (v =? k)) (plug_in_queue s)) s
         end)
    /\ forall j, StdMap.find j es
         = if k =? j then Some (timed_out task e) else StdMap.find j (evses s).
Proof.
  intros Hs He Ht Hp. unfold timeout_fires. unfold ebind at 1 2. rewrite at_evse_run, He, Ht.
  unfold ebind at 1.
  destruct (modify_run k (fun e => set_timeout_in_progress true (set_timeout_timer None e)) s e He)
    as (es1 & -> & H1). simpl.
  set (s1 := set_evses es1 s).
  pose (e1 := set_timeout_in_progress true (set_timeout_timer None e)).
  assert (StdMap.find k (evses s1) = Some e1) as He1 by (simpl; by rewrite H1, Z.eqb_refl).
  destruct task as [tok|]; simpl.
  - unfold authorization_timeout, ebind at 1. rewrite at_evse_run, He1.
    unfold ebind at 1. destruct (modify_run k (set_identifier None) s1 e1 He1) as (es2 & -> & H2).
    unfold ebind at 1. rewrite call_callback_run. simpl. rewrite (ready_callbacks _ _ Hs). simpl.
    unfold ebind at 1, publish. rewrite call_callback_run. simpl. rewrite (ready_callbacks _ _ Hs).
    simpl. unfold ebind.
    destruct (modify_run k (set_timeout_in_progress false) (set_evses es2 s1) (set_identifier None e1))
      as (es3 & -> & H3); [simpl; by rewrite H2, Z.eqb_refl|].
    simpl. exists (set_evses es3 s), es3. split; [done|]. split; [done|]. intros j.
    rewrite H3. destruct (Z.eqb_spec k j) as [<-|Hj]; [unfold timed_out; by rewrite <- Hp|]. simpl.
    rewrite H2. destruct (Z.eqb_spec k j); [congruence|]. simpl. rewrite H1.
    by destruct (Z.eqb_spec k j).
  - unfold plug_in_timeout_task, ebind at 1. rewrite at_evse_run, He1.
    unfold ebind at 1. rewrite call_callback_run. simpl. rewrite (ready_callbacks _ _ Hs). simpl.
    unfold remove_from_plug_in_queue. rewrite ebind_modify. unfold ebind at 1.
    set (s2 := set_plug_in_queue _ s1).
    destruct (modify_run k (set_plug_in_timeout true) s2 e1 He1) as (es3 & -> & H3). unfold ebind.
    destruct (modify_run k (set_timeout_in_progress false) (set_evses es3 s2)
      (set_plug_in_timeout true e1)) as (es4 & -> & H4); [simpl; by rewrite H3, Z.eqb_refl|].
    simpl. eexists _, es4. split; [reflexivity|]. split; [done|]. intros j.
    rewrite H4. destruct (Z.eqb_spec k j) as [<-|Hj]; [unfold timed_out; by rewrite <- Hp|]. simpl.
    rewrite H3. destruct (Z.eqb_spec k j); [congruence|]. simpl. rewrite H1.
    by destruct (Z.eqb_spec k j).
Qed.

Lemma timeout_outcome_witness :
  let s := run_state (handle_session_event AuthStation.yes AuthStation.tasks_end 2
             (AuthStation.plug_in 2)) AuthStation.two in
  exists s' es e,
    (let* t := timeout_fires 2 in
     match t with Some task => timeout_task 2 task | None => eret tt end) s
    = (Ok tt, s', [withdraw_authorization 1; notify_all])
    /\ StdMap.find 2 es = Some e /\ s' = set_evses es (set_plug_in_queue [] s)
    /\ plug_in_timeout e = true.
Proof.
  intros s. assert (ready [1; 2] s) as Hs
    by (exact (AuthStation.threads_ready [1; 2] (WaitingForPlugIn []) _ AuthStation.two_ready)).
  destruct (StdMap.find 2 (evses s)) as [e|] eqn:He; [|vm_compute in He; discriminate].
  pose proof He as Hv. vm_compute in Hv. injection Hv as Hv.
  destruct (timeout_outcome [1; 2] 2 s e PlugInTimeout Hs He
    ltac:(rewrite <- Hv; reflexivity) ltac:(rewrite <- Hv; reflexivity)) as (s' & es & Hr & Hs' & Hes).
  exists s', es, (timed_out PlugInTimeout e). split; [rewrite Hr, <- Hv; reflexivity|].
  split; [exact (Hes 2)|]. split; [exact Hs'|reflexivity].
Defined.

(** ** Where the code departs from its intent *)

(** A held reservation that counts for a token: at an EVSE its own one, or a
    global one when it has none; without EVSE a global one. *)
Definition counts_for (evse : option Z) (e : option Z) (r : Reservation) (s : rh_state) : Prop :=
  held e r s
  /\ match evse with
     | Some k => e = Some k \/ e = None /\ is_evse_reserved k s = false
     | None => e = None
     end.

Lemma matches_reserved_spec tok evse p s :
  match matches_reserved_identifier tok evse p s with
  | Some _ => exists e r, counts_for evse e r s /\ reservation_matches tok p r = true
  | None => forall e r, counts_for evse e r s -> reservation_matches tok p r = false
  end.
Proof.
  assert (match List.find (reservation_matches tok p) (global_reservations s) with
    | Some r => held None r s /\ reservation_matches tok p r = true
    | None => forall r, held None r s -> reservation_matches tok p r = false
    end) as Hg.
  { destruct (List.find _ _) eqn:Hf.
    - apply find_some in Hf as [? ?]. split; [by apply list_elem_of_In|done].
    - intros r Hr. apply list_elem_of_In in Hr. by eapply find_none. }
  unfold matches_reserved_identifier, counts_for, is_evse_reserved, StdMap.count.
  destruct evse as [k|].
  2: { destruct (List.find _ _) as [r|]; simpl; [exists None, r; naive_solver|].
       intros e r [H ->]. by apply Hg. }
  destruct (StdMap.find k (evse_reservations s)) as [r|] eqn:Hf.
  - destruct (reservation_matches tok p r) eqn:Hm; [exists (Some k), r; by auto|].
    intros e r' [H [->|[_ ?]]]; [|done]. simpl in H. by rewrite Hf in H; injection H as <-.
  - destruct (List.find _ _) as [r|]; simpl; [exists None, r; naive_solver|].
    intros e r [H [->|[-> _]]]; [simpl in H; by rewrite Hf in H|by apply Hg].
Qed.

Lemma has_parent_spec evses k s :
  StdMap.count (i32 k) evses = true ->
  has_reservation_parent_id evses (Some k) s = true <->
  exists e r, counts_for (Some k) e r s /\ is_Some (r_parent_id_token r).
Proof.
  intros Hk. unfold has_reservation_parent_id, counts_for, is_evse_reserved, StdMap.count in *.
  destruct (StdMap.find (i32 k) evses) as [evse|]; [|done]. cbn [negb].
  destruct (StdMap.find k (evse_reservations s)) as [r|] eqn:Hf.
  - rewrite bool_decide_eq_true. split; [exists (Some k), r; by auto|].
    intros (e & r' & [H [->|[_ ?]]] & Hp); [|done]. simpl in H. rewrite Hf in H. by injection H as ->.
  - rewrite existsb_exists. split.
    + intros (r & Hin & Hp%bool_decide_eq_true). exists None, r. apply list_elem_of_In in Hin. by auto.
    + intros (e & r & [H [->|[-> _]]] & Hp); [simpl in H; by rewrite Hf in H|].
      exists r. rewrite bool_decide_eq_true. by apply list_elem_of_In in H.
Qed.

(** Every answer of the reservation check.  Without EVSE it says whether
    a global reservation matches the token.  For an EVSE it asks whether EVSE
    1 is reserved, whichever EVSE it is asked about: with EVSE 1 free every
    EVSE is reported as not reserved, otherwise the answer says whether the
    reservation that counts at the EVSE matches, and, when no group was
    given, whether it has a parent token. *)
Theorem reservation_exists_asks_evse_1 tok evse group s :
  let rh := reservation_handler s in
  let matching := exists e r, counts_for (u32 <$> evse) e r rh
                    /\ reservation_matches tok group r = true in
  match handle_reservation_exists tok evse group s with
  | ReservationCheckStatus.NotReserved =>
      (evse = None /\ ~ matching) \/ (is_Some evse /\ is_evse_reserved 1 rh = false)
  | ReservationCheckStatus.ReservedForToken =>
      matching /\ (is_Some evse -> is_evse_reserved 1 rh = true)
  | ReservationCheckStatus.ReservedForOtherToken =>
      is_evse_reserved 1 rh = true /\ ~ matching
      /\ (group = None -> forall k, evse = Some k -> StdMap.count (i32 (u32 k)) (evses s) = true ->
          forall e r, counts_for (Some (u32 k)) e r rh -> r_parent_id_token r = None)
  | ReservationCheckStatus.ReservedForOtherTokenAndHasParentToken =>
      is_evse_reserved 1 rh = true /\ ~ matching /\ group = None
      /\ exists e r, counts_for (u32 <$> evse) e r rh /\ is_Some (r_parent_id_token r)
  end.
Proof.
  intros rh matching. unfold handle_reservation_exists. fold rh.
  pose proof (matches_reserved_spec tok (u32 <$> evse) group rh) as Hm.
  assert (matches_reserved_identifier tok (u32 <$> evse) group rh = None -> ~ matching) as Hno.
  { intros E (e & r & Hc & Ht). rewrite E in Hm. by rewrite (Hm _ _ Hc) in Ht. }
  destruct evse as [k|]; cbn [fmap option_fmap option_map] in *.
  2: { destruct (matches_reserved_identifier _ _ _ _); [|left; by auto].
       split; [done|by intros [? ?]]. }
  change (Z.b2z (bool_decide (is_Some (Some k)))) with 1.
  destruct (is_evse_reserved 1 rh) eqn:H1; cbn [negb]; [|right; by eauto].
  destruct (matches_reserved_identifier _ _ _ _); [done|]. specialize (Hno eq_refl).
  destruct group; [by split_and!|].
  destruct (has_reservation_parent_id _ _ _) eqn:Hp; split_and!; try done.
  - apply has_parent_spec in Hp; [done|]. unfold has_reservation_parent_id in Hp.
    by destruct (StdMap.count _ _).
  - intros _ k' [= <-] Hk e r Hc. destruct (r_parent_id_token r) eqn:Hr; [|done].
    assert (has_reservation_parent_id (evses s) (Some (u32 k)) rh = true) as Ht; [|congruence].
    apply has_parent_spec; [done|]. exists e, r. by rewrite Hr; eauto.
Qed.

(** EVSE 2 is reserved for a token and is reported as not reserved. *)
Example reserved_evse_reported_free :
  let s := run_state (handle_reservation AuthStation.yes Station.clock 5
             (mkReservation (Some 2) 7 "TOKEN" "future" None None)) AuthStation.two in
  is_evse_reserved 2 (reservation_handler s) = true
  /\ handle_reservation_exists "OTHER" (Some 2) None s = ReservationCheckStatus.NotReserved.
Proof. vm_compute. done. Qed.

(** EVSE 1 is authorized for a token of the group "GROUP", without
    transaction yet. *)
Definition group_authorized : ah_state :=
  run_state (on_token (fun _ => [mkValidationResult AuthorizationStatus.Accepted None
               (Some (mkIdToken "GROUP" IdTokenType.Central)) None None])
             AuthStation.yes AuthStation.tasks_end AuthStation.signal
             (set_token_connectors [1] (AuthStation.token "AB"))) AuthStation.two.

(** A second token of the group is answered [ALREADY_IN_PROCESS] after it was
    registered as in process, and is never taken out again: from then on it
    is refused before it is even looked at. *)
Example group_token_stays_in_process :
  let t := AuthStation.token "CD" in
  let validate := fun _ => [mkValidationResult AuthorizationStatus.Accepted None
               (Some (mkIdToken "GROUP" IdTokenType.Central)) None None] in
  let s' := run_state (on_token validate AuthStation.yes AuthStation.tasks_end
              AuthStation.signal t) group_authorized in
  run_val (on_token validate AuthStation.yes AuthStation.tasks_end AuthStation.signal t)
    group_authorized = Ok TokenHandlingResult.ALREADY_IN_PROCESS
  /\ TokenSet.mem t (tokens_in_process group_authorized) = false
  /\ TokenSet.mem t (tokens_in_process s') = true.
Proof. vm_compute. repeat split. Qed.

(** A rejected token that names a connector which does not exist ends in an
    exception, and stays in process. *)
Example unknown_connector_throws :
  let t := set_token_connectors [1; 9] (AuthStation.token "CD") in
  let validate := fun _ => [mkValidationResult AuthorizationStatus.Invalid None None None None] in
  run_val (on_token validate AuthStation.yes AuthStation.tasks_end AuthStation.signal t)
    AuthStation.two = Err out_of_range
  /\ TokenSet.mem t (tokens_in_process (run_state (on_token validate AuthStation.yes
       AuthStation.tasks_end AuthStation.signal t) AuthStation.two)) = true.
Proof. vm_compute. repeat split. Qed.
