(* ===== verification/ConnectorProperties.v ===== *)
(** * Properties of connectors, token comparison and reservation statuses *)
From S2P Require Import Prelude AuthTypes Connector StdAlgorithm ReservationHandler.
From S2P Require Import ReservationArrival ReservationProofs ReservationProperties.
From stdpp Require Import base tactics list numbers strings sorting sets.
From Stdlib Require Import Ascii.
Open Scope Z_scope.
Open Scope everest_scope.

(** ** The connector state machine *)

(** The specification: three flags that the events set and clear. *)
Module Flags.
Record t := mk { enabled : bool; faulted : bool; occupied : bool }.

Definition step (f : t) (ev : ConnectorEvent.t) : t :=
  match ev with
  | ConnectorEvent.ENABLE => mk true (faulted f) (occupied f)
  | ConnectorEvent.DISABLE => if occupied f then f else mk false (faulted f) false
  | ConnectorEvent.FAULTED => mk (enabled f) true (occupied f)
  | ConnectorEvent.ERROR_CLEARED => mk (enabled f) false (occupied f)
  | ConnectorEvent.TRANSACTION_STARTED =>
      if enabled f && negb (faulted f) then mk true false true else f
  | ConnectorEvent.SESSION_FINISHED => mk (enabled f) (faulted f) false
  end.

(** The flags of a state. *)
Definition of_state (s : ConnectorState.t) : t :=
  match s with
  | ConnectorState.AVAILABLE => mk true false false
  | ConnectorState.UNAVAILABLE => mk false false false
  | ConnectorState.FAULTED => mk true true false
  | ConnectorState.OCCUPIED => mk true false true
  | ConnectorState.UNAVAILABLE_FAULTED => mk false true false
  | ConnectorState.FAULTED_OCCUPIED => mk true true true
  end.
End Flags.

Lemma handle_event_step s ev :
  Flags.of_state (ConnectorStateMachine.handle_event s ev).2 = Flags.step (Flags.of_state s) ev
  /\ ((ConnectorStateMachine.handle_event s ev).1 = true <->
      (ConnectorStateMachine.handle_event s ev).2 <> s).
Proof. by destruct s, ev. Qed.

(** The connector state machine refines three independent flags.  After
    any events the state is the one with the flags the specification reaches,
    an event is accepted exactly when it changes the state, and a connector
    is never occupied while it is disabled. *)
Theorem connector_refines_flags evs ev :
  let s := c_state (foldl (fun c ev => submit_event ev c)
                      (new_Connector 1 ConnectorTypeEnum.cCCS2) evs) in
  Flags.of_state s = foldl Flags.step (Flags.mk true false false) evs
  /\ ((ConnectorStateMachine.handle_event s ev).1 = true <->
      Flags.step (Flags.of_state s) ev <> Flags.of_state s)
  /\ (Flags.occupied (Flags.of_state s) = true -> Flags.enabled (Flags.of_state s) = true).
Proof.
  simpl. set (c0 := new_Connector 1 ConnectorTypeEnum.cCCS2).
  change (Flags.mk true false false) with (Flags.of_state (c_state c0)). generalize c0.
  induction evs as [|ev' evs IH]; intros c; simpl.
  - split; [done|]. split; [|by destruct (c_state c)]. by destruct (c_state c), ev.
  - destruct (IH (submit_event ev' c)) as (H1 & H2 & H3).
    split; [|done]. rewrite H1. simpl. by rewrite (proj1 (handle_event_step _ _)).
Qed.

(** An EVSE whose connectors are all disabled and faulted counts as
    available, while it is unavailable as well. *)
Theorem disabled_faulted_counts_as_available e :
  connectors e <> [] -> plug_in_timeout e = false -> identifier e = None ->
  Forall (fun c => c_state c = ConnectorState.UNAVAILABLE_FAULTED) (connectors e) ->
  is_available e = true /\ is_unavailable e = true.
Proof.
  intros Hne Hp Hi Hall. unfold is_available, is_unavailable. rewrite Hp, Hi.
  destruct (connectors e) as [|c cs]; [done|]. clear Hne.
  assert (existsb (fun c => is_occupied_state (c_state c)) (c :: cs) = false) as ->.
  { induction Hall as [|x l Hx Hl IH]; simpl; [done|]. by rewrite Hx, IH. }
  split.
  - apply Forall_cons in Hall as [Hc _]. simpl. by rewrite Hc.
  - induction Hall as [|x l Hx Hl IH]; simpl; [done|].
    unfold connector_is_unavailable at 1. by rewrite Hx, IH.
Qed.

Lemma disabled_faulted_counts_as_available_witness :
  let e := new_EVSEContext 1 0
    [submit_event ConnectorEvent.FAULTED (submit_event ConnectorEvent.DISABLE
       (new_Connector 1 ConnectorTypeEnum.cCCS2))] in
  is_available e = true /\ is_unavailable e = true.
Proof.
  apply disabled_faulted_counts_as_available; [discriminate|reflexivity|reflexivity|].
  constructor; [reflexivity|constructor].
Defined.

(** ** Token comparison *)

(** A string in lower case. *)
Fixpoint lower (s : string) : string :=
  match s with
  | EmptyString => EmptyString
  | String a s' => String (Helpers.tolower a) (lower s')
  end.

Lemma equal_lower_spec a b :
  String.length a = String.length b ->
  Helpers.equal_lower a b = true <-> lower a = lower b.
Proof.
  revert b. induction a as [|x a IH]; intros [|y b]; simpl; intros Hl; try done.
  rewrite andb_true_iff, Ascii.eqb_eq, IH by lia. split; [by intros [-> ->]|by intros [= -> ->]].
Qed.

Lemma lower_length s : String.length (lower s) = String.length s.
Proof. induction s as [|a s IH]; simpl; [done|]. by rewrite IH. Qed.

(** Two tokens are compared as equal exactly when their lower-case forms
    are the same, so the comparison is an equivalence. *)
Theorem is_equal_case_insensitive_spec a b :
  Helpers.is_equal_case_insensitive a b = true <-> lower a = lower b.
Proof.
  unfold Helpers.is_equal_case_insensitive.
  destruct (Nat.eqb_spec (String.length a) (String.length b)) as [E|E]; simpl.
  - by apply equal_lower_spec.
  - split; [done|]. intros H. exfalso. apply E. by rewrite <- (lower_length a), H, lower_length.
Qed.

(** ** Statuses sent to the EVSEs *)

Lemma filter_none {A} (f : A -> bool) l : (forall x, x ∈ l -> f x = false) -> List.filter f l = [].
Proof.
  induction l as [|x l IH]; intros Hf; simpl; [done|].
  rewrite Hf by left. apply IH. intros. apply Hf. by right.
Qed.

Lemma set_status_run avail reserved_evses s :
  get_evse_global_reserved_status_and_set_new_status avail reserved_evses s
  = (Ok (mkReservationEvseStatus
        (List.filter (fun e => negb (StdSet.mem e (last_reserved_status s))) reserved_evses)
        (List.filter (fun e => negb (StdSet.mem e reserved_evses)
                               && StdSet.mem e (last_reserved_status s)) avail)),
     set_last_reserved_status reserved_evses s, []).
Proof. reflexivity. Qed.

(** The EVSEs needed for the global reservations. *)
Definition evses_to_reserve (evses : list (Z * EVSEContext)) (s : rh_state) : list Z :=
  if (length (available_evses evses s) =? length (global_reservations s))%nat
  then available_evses evses s
  else foldl (fun acc r =>
         if negb (is_reservation_possible evses (r_connector_type r) (global_reservations s)
                    (evse_reservations s))
         then foldl (fun acc e =>
                if StdSet.mem e.1 (available_evses evses s)
                   && has_evse_connector_type (connectors e.2) (connector_type_or_unknown r)
                then StdSet.insert e.1 acc else acc) acc evses
         else acc) [] (global_reservations s).

Lemma check_number_run evses s :
  check_number_global_reservations_match_number_available_evses evses s
  = get_evse_global_reserved_status_and_set_new_status (available_evses evses s)
      (evses_to_reserve evses s) s.
Proof.
  unfold check_number_global_reservations_match_number_available_evses, evses_to_reserve.
  rewrite run_get_bind. by case_match.
Qed.

(** The statuses for the EVSEs settle.  A check reports exactly the EVSEs
    that newly are, or no longer are, needed for the global reservations, and
    a second check without a change in between reports nothing. *)
Theorem reserved_statuses_settle evses s :
  exists st s', check_number_global_reservations_match_number_available_evses evses s = (Ok st, s', [])
  /\ (forall e, e ∈ reserved st <->
        e ∈ last_reserved_status s' /\ e ∉ last_reserved_status s)
  /\ (forall e, e ∈ available st -> e ∈ last_reserved_status s /\ e ∉ last_reserved_status s')
  /\ check_number_global_reservations_match_number_available_evses evses s'
     = (Ok (mkReservationEvseStatus [] []), s', []).
Proof.
  rewrite check_number_run, set_status_run. eexists _, _. split; [reflexivity|].
  cbn [reserved available last_reserved_status set_last_reserved_status]. split_and!.
  - intros e. rewrite list_elem_of_In, filter_In, <- list_elem_of_In, negb_true_iff.
    by rewrite StdSet.mem_false.
  - intros e. rewrite list_elem_of_In, filter_In, andb_true_iff, negb_true_iff.
    rewrite StdSet.mem_false, StdSet.mem_spec. tauto.
  - rewrite check_number_run, set_status_run.
    change (evses_to_reserve evses (set_last_reserved_status _ s)) with (evses_to_reserve evses s).
    cbn [last_reserved_status set_last_reserved_status]. rewrite !filter_none; [done|..].
    + intros e _. by destruct (StdSet.mem e (evses_to_reserve evses s)).
    + intros e He. apply negb_false_iff. by apply StdSet.mem_spec.
Qed.
