(* ===== verification/IECStateMachine.v ===== *)
(** * The IEC 61851 state machine of the EvseManager

    [modules/EVSE/EvseManager/IECStateMachine.cpp], its header and
    [Timeout.hpp]: the control pilot state reported by the board support
    package drives the permission for the contactors, the PWM, the connector
    lock and the events for the charger.  Calls on the board support package
    and signals are outputs.  [feed_state_machine] starts a thread: it is the
    output [spawn_feed], and the thread's work [feed_state_machine_no_thread]
    is an operation of its own, at any later time.  [LockThreads] has the same
    operations as threads that interleave.  Times are in milliseconds
    of the steady clock; the duty cycle and the current limit, [double]s that
    are only compared and forwarded, are rationals. *)
From S2P Require Import Prelude.
From stdpp Require Import base tactics list numbers strings.
From Stdlib Require Import QArith.
Open Scope Z_scope.
Open Scope everest_scope.

(** [enum class CPEvent]. *)
Module CPEvent.
Inductive t : Set :=
| CarPluggedIn | CarRequestedPower | PowerOn | PowerOff | CarRequestedStopPower
| CarUnplugged | EFtoBCD | BCDtoEF | BCDtoE | EvseReplugStarted | EvseReplugFinished.
#[global] Instance eq_dec : EqDecision t.
Proof. solve_decision. Defined.
End CPEvent.

Definition cpevent_to_string (e : CPEvent.t) : string :=
  match e with
  | CPEvent.CarPluggedIn => "CarPluggedIn"
  | CPEvent.CarRequestedPower => "CarRequestedPower"
  | CPEvent.PowerOn => "PowerOn"
  | CPEvent.PowerOff => "PowerOff"
  | CPEvent.CarRequestedStopPower => "CarRequestedStopPower"
  | CPEvent.CarUnplugged => "CarUnplugged"
  | CPEvent.EFtoBCD => "EFtoBCD"
  | CPEvent.BCDtoEF => "BCDtoEF"
  | CPEvent.BCDtoE => "BCDtoE"
  | CPEvent.EvseReplugStarted => "EvseReplugStarted"
  | CPEvent.EvseReplugFinished => "EvseReplugFinished"
  end.

(** [enum class RawCPState]. *)
Module RawCPState.
Inductive t : Set := Disabled | A | B | C | D | E | F.
#[global] Instance eq_dec : EqDecision t.
Proof. solve_decision. Defined.
Definition eqb (a b : t) : bool := bool_decide (a = b).
End RawCPState.

(** [types::board_support_common::Event] and [Ampacity],
    [types::evse_board_support::Reason]. *)
Module BspEvent.
Inductive t : Set :=
| A | B | C | D | E | F | PowerOn | PowerOff | EvseReplugStarted | EvseReplugFinished
| Disconnected.
End BspEvent.

Module Ampacity.
Inductive t : Set := None | A_13 | A_20 | A_32 | A_63_3ph_70_1ph.
End Ampacity.

Module Reason.
Inductive t : Set :=
| DCCableCheck | DCPreCharge | FullPowerCharging | PowerOff.
End Reason.

Definition from_bsp_event (e : BspEvent.t) : RawCPState.t + CPEvent.t :=
  match e with
  | BspEvent.A => inl RawCPState.A
  | BspEvent.B => inl RawCPState.B
  | BspEvent.C => inl RawCPState.C
  | BspEvent.D => inl RawCPState.D
  | BspEvent.E => inl RawCPState.E
  | BspEvent.F => inl RawCPState.F
  | BspEvent.PowerOn => inr CPEvent.PowerOn
  | BspEvent.PowerOff => inr CPEvent.PowerOff
  | BspEvent.EvseReplugStarted => inr CPEvent.EvseReplugStarted
  | BspEvent.EvseReplugFinished => inr CPEvent.EvseReplugFinished
  | _ => inl RawCPState.Disabled
  end.

(** ** Timeouts ([Timeout.hpp]) *)

(** The polling timeout: [reached] also stops it. *)
Module Timeout.
Record t := mk { duration : Z; start_time : Z; running : bool }.
Definition start (now d : Z) : t := mk d now true.
Definition stop (x : t) : t := mk (duration x) (start_time x) false.
Definition reached (now : Z) (x : t) : bool * t :=
  if negb (running x) then (false, x)
  else if duration x <? now - start_time x then (true, stop x)
  else (false, x).
End Timeout.

(** The timeout with a thread that signals when it is reached; it stays
    running, and reached, until it is stopped. *)
Module AsyncTimeout.
Record t := mk { duration : Z; start_time : Z; running : bool }.
Definition init : t := mk 0 0 false.
Definition start (now d : Z) : t := mk d now true.
Definition stop (x : t) : t :=
  if running x then mk (duration x) (start_time x) false else x.
Definition reached (now : Z) (x : t) : bool :=
  if negb (running x) then false else duration x <? now - start_time x.
End AsyncTimeout.

Module TimerControl.
Inductive t : Set := do_nothing | start | stop.
End TimerControl.

Definition power_off_under_load_in_c1_timeout : Z := 6000.
Definition unlock_in_state_f_timeout : Z := 5000.
(** 10 A as a duty cycle. *)
Definition ev_simplified_mode_evse_limit_pwm : Q := 1 # 6.

(** ** State and outputs *)

Record iec_state := mkIec {
  lock_connector_in_state_b : bool;
  pwm_running : bool;
  last_pwm_running : bool;
  ev_simplified_mode_evse_limit : bool;
  ev_simplified_mode : bool;
  has_ventilation : bool;
  power_on_allowed : bool;
  last_power_on_allowed : bool;
  last_amps : Q;
  three_phases : bool;
  car_plugged_in : bool;
  cp_state : RawCPState.t;
  last_cp_state : RawCPState.t;
  timeout_state_c1 : AsyncTimeout.t;
  timeout_unlock_state_F : AsyncTimeout.t;
  power_on_reason : Reason.t;
  is_locked : bool;
  should_be_locked : bool;
  force_unlocked : bool;
  enabled : bool;
  relais_on : bool;
}.

(** Calls on [r_bsp] and signals. *)
Inductive iec_output : Type :=
| call_pwm_on (percent : Q)
| call_pwm_off
| call_pwm_F
| call_allow_power_on (value : bool) (why : Reason.t)
| call_enable (value : bool)
| call_ac_set_overcurrent_limit_A (amps : Q)
| call_evse_replug (ms : Z)
| call_ac_switch_three_phases_while_charging (n : bool)
| signal_event (e : CPEvent.t)
| signal_lock
| signal_unlock
| spawn_feed.

Section Setters.
Implicit Type s : iec_state.
Definition set_pwm_running x s : iec_state :=
  mkIec (lock_connector_in_state_b s) x (last_pwm_running s) (ev_simplified_mode_evse_limit s)
    (ev_simplified_mode s) (has_ventilation s) (power_on_allowed s) (last_power_on_allowed s)
    (last_amps s) (three_phases s) (car_plugged_in s) (cp_state s) (last_cp_state s)
    (timeout_state_c1 s) (timeout_unlock_state_F s) (power_on_reason s) (is_locked s)
    (should_be_locked s) (force_unlocked s) (enabled s) (relais_on s).
Definition set_last_pwm_running x s : iec_state :=
  mkIec (lock_connector_in_state_b s) (pwm_running s) x (ev_simplified_mode_evse_limit s)
    (ev_simplified_mode s) (has_ventilation s) (power_on_allowed s) (last_power_on_allowed s)
    (last_amps s) (three_phases s) (car_plugged_in s) (cp_state s) (last_cp_state s)
    (timeout_state_c1 s) (timeout_unlock_state_F s) (power_on_reason s) (is_locked s)
    (should_be_locked s) (force_unlocked s) (enabled s) (relais_on s).
Definition set_ev_simplified_mode_evse_limit x s : iec_state :=
  mkIec (lock_connector_in_state_b s) (pwm_running s) (last_pwm_running s) x
    (ev_simplified_mode s) (has_ventilation s) (power_on_allowed s) (last_power_on_allowed s)
    (last_amps s) (three_phases s) (car_plugged_in s) (cp_state s) (last_cp_state s)
    (timeout_state_c1 s) (timeout_unlock_state_F s) (power_on_reason s) (is_locked s)
    (should_be_locked s) (force_unlocked s) (enabled s) (relais_on s).
Definition set_ev_simplified_mode x s : iec_state :=
  mkIec (lock_connector_in_state_b s) (pwm_running s) (last_pwm_running s)
    (ev_simplified_mode_evse_limit s) x (has_ventilation s) (power_on_allowed s)
    (last_power_on_allowed s) (last_amps s) (three_phases s) (car_plugged_in s) (cp_state s)
    (last_cp_state s) (timeout_state_c1 s) (timeout_unlock_state_F s) (power_on_reason s)
    (is_locked s) (should_be_locked s) (force_unlocked s) (enabled s) (relais_on s).
Definition set_has_ventilation x s : iec_state :=
  mkIec (lock_connector_in_state_b s) (pwm_running s) (last_pwm_running s)
    (ev_simplified_mode_evse_limit s) (ev_simplified_mode s) x (power_on_allowed s)
    (last_power_on_allowed s) (last_amps s) (three_phases s) (car_plugged_in s) (cp_state s)
    (last_cp_state s) (timeout_state_c1 s) (timeout_unlock_state_F s) (power_on_reason s)
    (is_locked s) (should_be_locked s) (force_unlocked s) (enabled s) (relais_on s).
Definition set_power_on_allowed x s : iec_state :=
  mkIec (lock_connector_in_state_b s) (pwm_running s) (last_pwm_running s)
    (ev_simplified_mode_evse_limit s) (ev_simplified_mode s) (has_ventilation s) x
    (last_power_on_allowed s) (last_amps s) (three_phases s) (car_plugged_in s) (cp_state s)
    (last_cp_state s) (timeout_state_c1 s) (timeout_unlock_state_F s) (power_on_reason s)
    (is_locked s) (should_be_locked s) (force_unlocked s) (enabled s) (relais_on s).
Definition set_last_power_on_allowed x s : iec_state :=
  mkIec (lock_connector_in_state_b s) (pwm_running s) (last_pwm_running s)
    (ev_simplified_mode_evse_limit s) (ev_simplified_mode s) (has_ventilation s)
    (power_on_allowed s) x (last_amps s) (three_phases s) (car_plugged_in s) (cp_state s)
    (last_cp_state s) (timeout_state_c1 s) (timeout_unlock_state_F s) (power_on_reason s)
    (is_locked s) (should_be_locked s) (force_unlocked s) (enabled s) (relais_on s).
Definition set_last_amps x s : iec_state :=
  mkIec (lock_connector_in_state_b s) (pwm_running s) (last_pwm_running s)
    (ev_simplified_mode_evse_limit s) (ev_simplified_mode s) (has_ventilation s)
    (power_on_allowed s) (last_power_on_allowed s) x (three_phases s) (car_plugged_in s)
    (cp_state s) (last_cp_state s) (timeout_state_c1 s) (timeout_unlock_state_F s)
    (power_on_reason s) (is_locked s) (should_be_locked s) (force_unlocked s) (enabled s)
    (relais_on s).
Definition set_three_phases x s : iec_state :=
  mkIec (lock_connector_in_state_b s) (pwm_running s) (last_pwm_running s)
    (ev_simplified_mode_evse_limit s) (ev_simplified_mode s) (has_ventilation s)
    (power_on_allowed s) (last_power_on_allowed s) (last_amps s) x (car_plugged_in s)
    (cp_state s) (last_cp_state s) (timeout_state_c1 s) (timeout_unlock_state_F s)
    (power_on_reason s) (is_locked s) (should_be_locked s) (force_unlocked s) (enabled s)
    (relais_on s).
Definition set_car_plugged_in x s : iec_state :=
  mkIec (lock_connector_in_state_b s) (pwm_running s) (last_pwm_running s)
    (ev_simplified_mode_evse_limit s) (ev_simplified_mode s) (has_ventilation s)
    (power_on_allowed s) (last_power_on_allowed s) (last_amps s) (three_phases s) x
    (cp_state s) (last_cp_state s) (timeout_state_c1 s) (timeout_unlock_state_F s)
    (power_on_reason s) (is_locked s) (should_be_locked s) (force_unlocked s) (enabled s)
    (relais_on s).
Definition set_cp_state x s : iec_state :=
  mkIec (lock_connector_in_state_b s) (pwm_running s) (last_pwm_running s)
    (ev_simplified_mode_evse_limit s) (ev_simplified_mode s) (has_ventilation s)
    (power_on_allowed s) (last_power_on_allowed s) (last_amps s) (three_phases s)
    (car_plugged_in s) x (last_cp_state s) (timeout_state_c1 s) (timeout_unlock_state_F s)
    (power_on_reason s) (is_locked s) (should_be_locked s) (force_unlocked s) (enabled s)
    (relais_on s).
Definition set_last_cp_state x s : iec_state :=
  mkIec (lock_connector_in_state_b s) (pwm_running s) (last_pwm_running s)
    (ev_simplified_mode_evse_limit s) (ev_simplified_mode s) (has_ventilation s)
    (power_on_allowed s) (last_power_on_allowed s) (last_amps s) (three_phases s)
    (car_plugged_in s) (cp_state s) x (timeout_state_c1 s) (timeout_unlock_state_F s)
    (power_on_reason s) (is_locked s) (should_be_locked s) (force_unlocked s) (enabled s)
    (relais_on s).
Definition set_timeout_state_c1 x s : iec_state :=
  mkIec (lock_connector_in_state_b s) (pwm_running s) (last_pwm_running s)
    (ev_simplified_mode_evse_limit s) (ev_simplified_mode s) (has_ventilation s)
    (power_on_allowed s) (last_power_on_allowed s) (last_amps s) (three_phases s)
    (car_plugged_in s) (cp_state s) (last_cp_state s) x (timeout_unlock_state_F s)
    (power_on_reason s) (is_locked s) (should_be_locked s) (force_unlocked s) (enabled s)
    (relais_on s).
Definition set_timeout_unlock_state_F x s : iec_state :=
  mkIec (lock_connector_in_state_b s) (pwm_running s) (last_pwm_running s)
    (ev_simplified_mode_evse_limit s) (ev_simplified_mode s) (has_ventilation s)
    (power_on_allowed s) (last_power_on_allowed s) (last_amps s) (three_phases s)
    (car_plugged_in s) (cp_state s) (last_cp_state s) (timeout_state_c1 s) x
    (power_on_reason s) (is_locked s) (should_be_locked s) (force_unlocked s) (enabled s)
    (relais_on s).
Definition set_power_on_reason x s : iec_state :=
  mkIec (lock_connector_in_state_b s) (pwm_running s) (last_pwm_running s)
    (ev_simplified_mode_evse_limit s) (ev_simplified_mode s) (has_ventilation s)
    (power_on_allowed s) (last_power_on_allowed s) (last_amps s) (three_phases s)
    (car_plugged_in s) (cp_state s) (last_cp_state s) (timeout_state_c1 s)
    (timeout_unlock_state_F s) x (is_locked s) (should_be_locked s) (force_unlocked s)
    (enabled s) (relais_on s).
Definition set_is_locked x s : iec_state :=
  mkIec (lock_connector_in_state_b s) (pwm_running s) (last_pwm_running s)
    (ev_simplified_mode_evse_limit s) (ev_simplified_mode s) (has_ventilation s)
    (power_on_allowed s) (last_power_on_allowed s) (last_amps s) (three_phases s)
    (car_plugged_in s) (cp_state s) (last_cp_state s) (timeout_state_c1 s)
    (timeout_unlock_state_F s) (power_on_reason s) x (should_be_locked s) (force_unlocked s)
    (enabled s) (relais_on s).
Definition set_should_be_locked x s : iec_state :=
  mkIec (lock_connector_in_state_b s) (pwm_running s) (last_pwm_running s)
    (ev_simplified_mode_evse_limit s) (ev_simplified_mode s) (has_ventilation s)
    (power_on_allowed s) (last_power_on_allowed s) (last_amps s) (three_phases s)
    (car_plugged_in s) (cp_state s) (last_cp_state s) (timeout_state_c1 s)
    (timeout_unlock_state_F s) (power_on_reason s) (is_locked s) x (force_unlocked s)
    (enabled s) (relais_on s).
Definition set_force_unlocked x s : iec_state :=
  mkIec (lock_connector_in_state_b s) (pwm_running s) (last_pwm_running s)
    (ev_simplified_mode_evse_limit s) (ev_simplified_mode s) (has_ventilation s)
    (power_on_allowed s) (last_power_on_allowed s) (last_amps s) (three_phases s)
    (car_plugged_in s) (cp_state s) (last_cp_state s) (timeout_state_c1 s)
    (timeout_unlock_state_F s) (power_on_reason s) (is_locked s) (should_be_locked s) x
    (enabled s) (relais_on s).
Definition set_enabled x s : iec_state :=
  mkIec (lock_connector_in_state_b s) (pwm_running s) (last_pwm_running s)
    (ev_simplified_mode_evse_limit s) (ev_simplified_mode s) (has_ventilation s)
    (power_on_allowed s) (last_power_on_allowed s) (last_amps s) (three_phases s)
    (car_plugged_in s) (cp_state s) (last_cp_state s) (timeout_state_c1 s)
    (timeout_unlock_state_F s) (power_on_reason s) (is_locked s) (should_be_locked s)
    (force_unlocked s) x (relais_on s).
Definition set_relais_on x s : iec_state :=
  mkIec (lock_connector_in_state_b s) (pwm_running s) (last_pwm_running s)
    (ev_simplified_mode_evse_limit s) (ev_simplified_mode s) (has_ventilation s)
    (power_on_allowed s) (last_power_on_allowed s) (last_amps s) (three_phases s)
    (car_plugged_in s) (cp_state s) (last_cp_state s) (timeout_state_c1 s)
    (timeout_unlock_state_F s) (power_on_reason s) (is_locked s) (should_be_locked s)
    (force_unlocked s) (enabled s) x.
End Setters.

(** The constructor with the member initializers. *)
Definition new_IECStateMachine (lock_in_b : bool) : iec_state :=
  mkIec lock_in_b false false false false false false false (-1) true false
    RawCPState.Disabled RawCPState.Disabled AsyncTimeout.init AsyncTimeout.init
    Reason.PowerOff false false false false false.

Abbreviation IEC := (Eff iec_state iec_output Empty_set).

Definition put (f : iec_state -> iec_state) : IEC unit := emodify f.

(** ** Power permission and connector lock *)

Definition call_allow_power_on_bsp (value : bool) : IEC unit :=
  (if negb value
   then put (set_power_on_allowed false) ;;; put (set_power_on_reason Reason.PowerOff)
   else eret tt) ;;;
  let* s := eget in
  eemit (call_allow_power_on value (power_on_reason s)).

Definition connector_lock : IEC unit := put (set_should_be_locked true).

Definition connector_unlock : IEC unit :=
  put (set_should_be_locked false) ;;; put (set_force_unlocked false).

Definition check_connector_lock : IEC unit :=
  let* s := eget in
  let should_be_locked_considering_relais_and_force :=
    relais_on s || (should_be_locked s && negb (force_unlocked s)) in
  if negb (is_locked s) && should_be_locked_considering_relais_and_force
  then eemit signal_lock ;;; put (set_is_locked true)
  else if is_locked s && negb should_be_locked_considering_relais_and_force
  then eemit signal_unlock ;;; put (set_is_locked false)
  else eret tt.

Definition connector_force_unlock : IEC unit :=
  let* s := eget in
  let cp := cp_state s in
  (if negb (relais_on s) then eemit signal_unlock ;;; put (set_is_locked false) else eret tt) ;;;
  if RawCPState.eqb cp RawCPState.B || RawCPState.eqb cp RawCPState.C
  then put (set_force_unlocked true) ;;; check_connector_lock
  else eret tt.

(** ** The state machine *)

(** What the switch on [cp_state] leaves to do after the mutex is released:
    the events, and what happens to the two timers. *)
Record todo := mkTodo {
  events : list CPEvent.t;
  timer_state_C1 : TimerControl.t;
}.

Definition came_from (s : iec_state) (l : list RawCPState.t) : bool :=
  existsb (RawCPState.eqb (last_cp_state s)) l.

(** A plug-in is seen from A, Disabled, or F without a car. *)
Definition plug_in_seen (s : iec_state) : bool :=
  came_from s [RawCPState.A; RawCPState.Disabled]
  || (negb (car_plugged_in s) && came_from s [RawCPState.F]).

Definition case_Disabled : IEC todo :=
  let* s := eget in
  if negb (came_from s [RawCPState.Disabled]) then
    put (set_pwm_running false) ;;;
    eemit call_pwm_off ;;;
    put (set_ev_simplified_mode false) ;;;
    call_allow_power_on_bsp false ;;;
    connector_unlock ;;;
    eret (mkTodo [] TimerControl.stop)
  else eret (mkTodo [] TimerControl.do_nothing).

Definition case_A : IEC todo :=
  let* s := eget in
  let* timer :=
    if negb (came_from s [RawCPState.A]) then
      put (set_pwm_running false) ;;;
      eemit call_pwm_off ;;;
      put (set_ev_simplified_mode false) ;;;
      put (set_car_plugged_in false) ;;;
      call_allow_power_on_bsp false ;;;
      connector_unlock ;;;
      eret TimerControl.stop
    else eret TimerControl.do_nothing in
  eret (mkTodo (if negb (came_from s [RawCPState.A]) && negb (came_from s [RawCPState.Disabled])
                then [CPEvent.CarUnplugged] else []) timer).

Definition case_B : IEC todo :=
  let* s := eget in
  (if lock_connector_in_state_b s then connector_lock else connector_unlock) ;;;
  let stop_power := negb (came_from s [RawCPState.A]) && negb (came_from s [RawCPState.B]) in
  (if stop_power then call_allow_power_on_bsp false else eret tt) ;;;
  (if plug_in_seen s
   then put (set_car_plugged_in true) ;;; put (set_ev_simplified_mode false) else eret tt) ;;;
  eret (mkTodo
    ((if stop_power then [CPEvent.CarRequestedStopPower] else [])
     ++ (if plug_in_seen s then [CPEvent.CarPluggedIn] else [])
     ++ (if came_from s [RawCPState.E; RawCPState.F] then [CPEvent.EFtoBCD] else []))
    (if stop_power then TimerControl.stop else TimerControl.do_nothing)).

(** State C, and state D with ventilation. *)
Definition case_C (now : Z) : IEC todo :=
  connector_lock ;;;
  let* s := eget in
  (if plug_in_seen s
   then put (set_car_plugged_in true) ;;; put (set_ev_simplified_mode true) else eret tt) ;;;
  let pwm_on := pwm_running s && negb (last_pwm_running s) in
  let timer :=
    if pwm_on then TimerControl.stop
    else if negb (pwm_running s) && last_pwm_running s then TimerControl.start
    else TimerControl.do_nothing in
  (if pwm_on && power_on_allowed s then call_allow_power_on_bsp true else eret tt) ;;;
  (if AsyncTimeout.reached now (timeout_state_c1 s) then call_allow_power_on_bsp false
   else eret tt) ;;;
  let* s' := eget in
  (if pwm_running s' && power_on_allowed s'
      && (negb (last_power_on_allowed s') || came_from s' [RawCPState.B])
   then call_allow_power_on_bsp true else eret tt) ;;;
  eret (mkTodo
    ((if plug_in_seen s then [CPEvent.CarPluggedIn]
      else if came_from s [RawCPState.B] then [CPEvent.CarRequestedPower] else [])
     ++ (if pwm_running s' && negb (last_pwm_running s') && ev_simplified_mode s'
         then [CPEvent.CarRequestedPower] else []))
    timer).

Definition case_D (now : Z) : IEC todo :=
  connector_lock ;;;
  let* s := eget in
  if negb (has_ventilation s) then
    call_allow_power_on_bsp false ;;; eret (mkTodo [] TimerControl.stop)
  else case_C now.

Definition case_E : IEC todo :=
  connector_unlock ;;;
  let* s := eget in
  if negb (came_from s [RawCPState.E]) then
    call_allow_power_on_bsp false ;;;
    put (set_pwm_running false) ;;;
    eemit call_pwm_off ;;;
    eret (mkTodo (if came_from s [RawCPState.B; RawCPState.C; RawCPState.D]
                  then [CPEvent.BCDtoEF; CPEvent.BCDtoE] else []) TimerControl.stop)
  else eret (mkTodo [] TimerControl.do_nothing).

(** State F; also what happens to the unlock timer. *)
Definition case_F (now : Z) : IEC (todo * TimerControl.t) :=
  let* s := eget in
  call_allow_power_on_bsp false ;;;
  (if negb (came_from s [RawCPState.F]) then put (set_pwm_running false) else eret tt) ;;;
  (if AsyncTimeout.reached now (timeout_unlock_state_F s) then connector_unlock else eret tt) ;;;
  eret (mkTodo (if came_from s [RawCPState.B; RawCPState.C; RawCPState.D]
                then [CPEvent.BCDtoEF] else []) TimerControl.stop,
        if negb (came_from s [RawCPState.F]) then TimerControl.start else TimerControl.do_nothing).

Definition control_timer (now d : Z) (c : TimerControl.t) (x : AsyncTimeout.t) : AsyncTimeout.t :=
  match c with
  | TimerControl.start => AsyncTimeout.start now d
  | TimerControl.stop => AsyncTimeout.stop x
  | TimerControl.do_nothing => x
  end.

(** The switch on [cp_state]: the events and the two timer controls. *)
Definition switch_cp_state (now : Z) : IEC (todo * TimerControl.t) :=
  let* s := eget in
  let leaving_F := if negb (RawCPState.eqb (cp_state s) RawCPState.F) && came_from s [RawCPState.F]
                   then TimerControl.stop else TimerControl.do_nothing in
  let keep (m : IEC todo) : IEC (todo * TimerControl.t) := let* t := m in eret (t, leaving_F) in
  match cp_state s with
  | RawCPState.Disabled => keep case_Disabled
  | RawCPState.A => keep case_A
  | RawCPState.B => keep case_B
  | RawCPState.C => keep (case_C now)
  | RawCPState.D => keep (case_D now)
  | RawCPState.E => keep case_E
  | RawCPState.F => case_F now
  end.

(** The end of the mutex protected section. *)
Definition remember_last : IEC unit :=
  put (fun s => set_last_cp_state (cp_state s) s) ;;;
  put (fun s => set_last_pwm_running (pwm_running s) s) ;;;
  put (fun s => set_last_power_on_allowed (power_on_allowed s) s).

(** The mutex protected section. *)
Definition state_machine_locked (now : Z) : IEC (todo * TimerControl.t) :=
  let* r := switch_cp_state now in
  check_connector_lock ;;;
  remember_last ;;;
  eret r.

(** What follows it. *)
Definition control_timers (now : Z) (r : todo * TimerControl.t) : IEC unit :=
  put (fun s => set_timeout_state_c1
    (control_timer now power_off_under_load_in_c1_timeout (timer_state_C1 r.1)
       (timeout_state_c1 s)) s) ;;;
  put (fun s => set_timeout_unlock_state_F
    (control_timer now unlock_in_state_f_timeout r.2 (timeout_unlock_state_F s)) s).

Definition state_machine (now : Z) : IEC (list CPEvent.t) :=
  let* r := state_machine_locked now in
  control_timers now r ;;;
  eret (events r.1).

Definition feed_state_machine_no_thread (now : Z) : IEC unit :=
  let* es := state_machine now in
  efor es (fun e => eemit (signal_event e)).

Definition feed_state_machine : IEC unit := eemit spawn_feed.

(** ** Calls from the board support package and the charger *)

Definition process_bsp_event (e : BspEvent.t) : IEC unit :=
  match from_bsp_event e with
  | inl raw_state => put (set_cp_state raw_state) ;;; feed_state_machine
  | inr ev =>
      match ev with
      | CPEvent.PowerOn => put (set_relais_on true)
      | CPEvent.PowerOff => put (set_relais_on false)
      | _ => eret tt
      end ;;;
      check_connector_lock ;;;
      eemit (signal_event ev)
  end.

(** The subscription to the events of the board support package. *)
Definition on_bsp_event (e : BspEvent.t) : IEC unit :=
  let* s := eget in
  if enabled s then process_bsp_event e else eret tt.

Definition set_pwm (value : Q) : IEC unit :=
  (if negb (Qle_bool value 0) && negb (Qle_bool 1 value)
   then put (set_pwm_running true) else put (set_pwm_running false)) ;;;
  let* s := eget in
  let value :=
    if ev_simplified_mode_evse_limit s && ev_simplified_mode s
       && negb (Qle_bool value ev_simplified_mode_evse_limit_pwm)
    then ev_simplified_mode_evse_limit_pwm else value in
  eemit (call_pwm_on (value * 100)%Q) ;;;
  feed_state_machine.

Definition set_pwm_off : IEC unit :=
  put (set_pwm_running false) ;;; eemit call_pwm_off ;;; feed_state_machine.

Definition set_pwm_F : IEC unit :=
  put (set_pwm_running false) ;;; eemit call_pwm_F ;;; feed_state_machine.

Definition allow_power_on (value : bool) (why : Reason.t) : IEC unit :=
  put (set_power_on_allowed value) ;;;
  put (set_power_on_reason why) ;;;
  let* s := eget in
  (if negb (power_on_allowed s) then call_allow_power_on_bsp false else eret tt) ;;;
  feed_state_machine.

Definition read_pp_ampacity (a : Ampacity.t) (s : iec_state) : Q :=
  match a with
  | Ampacity.A_13 => 13
  | Ampacity.A_20 => 20
  | Ampacity.A_32 => 32
  | Ampacity.A_63_3ph_70_1ph => if three_phases s then 63 else 70
  | Ampacity.None => 0
  end.

Definition evse_replug (ms : Z) : IEC unit := eemit (call_evse_replug ms).
Definition switch_three_phases_while_charging (n : bool) : IEC unit :=
  eemit (call_ac_switch_three_phases_while_charging n).
Definition setup (ventilation : bool) : IEC unit := put (set_has_ventilation ventilation).
Definition enable (en : bool) : IEC unit := put (set_enabled en) ;;; eemit (call_enable en).

Definition set_overcurrent_limit (amps : Q) : IEC unit :=
  let* s := eget in
  if negb (Qeq_bool amps (last_amps s))
  then eemit (call_ac_set_overcurrent_limit_A amps) ;;; put (set_last_amps amps)
  else eret tt.

(** ** Operations *)

(** Everything that can happen to the state machine after its set-up. *)
Inductive iec_op : Type :=
| op_feed (now : Z)
| op_bsp_event (e : BspEvent.t)
| op_set_pwm (value : Q)
| op_set_pwm_off
| op_set_pwm_F
| op_allow_power_on (value : bool) (why : Reason.t)
| op_force_unlock
| op_enable (en : bool)
| op_setup (ventilation : bool)
| op_simplified_limit (b : bool)
| op_three_phases (b : bool)
| op_overcurrent (amps : Q)
| op_replug (ms : Z)
| op_switch_phases (n : bool).

Definition iec_op_action (op : iec_op) : IEC unit :=
  match op with
  | op_feed now => feed_state_machine_no_thread now
  | op_bsp_event e => on_bsp_event e
  | op_set_pwm v => set_pwm v
  | op_set_pwm_off => set_pwm_off
  | op_set_pwm_F => set_pwm_F
  | op_allow_power_on v why => allow_power_on v why
  | op_force_unlock => connector_force_unlock
  | op_enable en => enable en
  | op_setup v => setup v
  | op_simplified_limit b => put (set_ev_simplified_mode_evse_limit b)
  | op_three_phases b => put (set_three_phases b)
  | op_overcurrent amps => set_overcurrent_limit amps
  | op_replug ms => evse_replug ms
  | op_switch_phases n => switch_three_phases_while_charging n
  end.

(** ** Threads

    The operations run on several threads.  What the mutex protects is one step
    under it; the flags of the connector lock are atomics that
    [process_bsp_event], [connector_force_unlock] and [check_connector_lock] read
    and write without it, so that each access to them is a step of its own. *)
Module LockThreads.

(** What the caller of [check_connector_lock] does after it. *)
Inductive continuation : Type :=
| after_report (e : CPEvent.t)
| after_switch (now : Z) (r : todo * TimerControl.t)
| after_force.

(** Where a thread is: the next thing it does. *)
Inductive point : Type :=
| begins (op : iec_op)
| reports (e : BspEvent.t)                         (** [process_bsp_event] *)
| forced_tests (cp : RawCPState.t)                 (** [if (not relais_on)] *)
| forced_signals (cp : RawCPState.t)               (** [signal_unlock()] *)
| forced_notes (cp : RawCPState.t)                 (** [is_locked = false] *)
| forced_marks (cp : RawCPState.t)                 (** [force_unlocked = true], in state B or C *)
| reads_relais (k : continuation)
| reads_should (k : continuation)
| reads_force (k : continuation)
| compares (want : bool) (k : continuation)        (** [if (not is_locked and want)] *)
| compares_again (want : bool) (k : continuation)  (** [else if (is_locked and not want)] *)
| signals (want : bool) (k : continuation)
| notes (want : bool) (k : continuation)           (** [is_locked = want] *)
| leaves (k : continuation)
| sets_timers (now : Z) (r : todo * TimerControl.t)
| finished.

(** The operations that are one step under the mutex. *)
Definition takes_mutex (op : iec_op) : bool :=
  match op with
  | op_set_pwm _ | op_set_pwm_off | op_set_pwm_F | op_allow_power_on _ _ => true
  | _ => false
  end.

(** What is left to [begins], when the mutex is free or not needed. *)
Definition begin_operation (op : iec_op) (s : iec_state) (held : bool)
  : iec_state * bool * list iec_output * point :=
  match op with
  | op_feed now =>
      match switch_cp_state now s with
      | (Ok r, s', o) => (s', true, o, reads_relais (after_switch now r))
      | (Err e, _, _) => match e with end
      end
  | op_bsp_event e => (s, held, [], if enabled s then reports e else finished)
  | op_force_unlock => (s, held, [], forced_tests (cp_state s))
  | _ => (run_state (iec_op_action op) s, held, run_out (iec_op_action op) s, finished)
  end.
Definition waits_for_mutex (p : point) : bool :=
  match p with
  | begins (op_feed _ | op_force_unlock) => true
  | begins op => takes_mutex op
  | reports e => match from_bsp_event e with inl _ => true | inr _ => false end
  | _ => false
  end.

(** One step of a thread: the flags, whether the mutex is held, what is put out and
    where the thread is then; nothing when it waits or is finished. *)
Definition thread_step (p : point) (s : iec_state) (held : bool)
  : option (iec_state * bool * list iec_output * point) :=
  if waits_for_mutex p && held then None else
  match p with
  | begins op => Some (begin_operation op s held)
  | reports e =>
      match from_bsp_event e with
      | inl raw_state => Some (set_cp_state raw_state s, held, [spawn_feed], finished)
      | inr ev =>
          Some (match ev with
                | CPEvent.PowerOn => set_relais_on true s
                | CPEvent.PowerOff => set_relais_on false s
                | _ => s
                end, held, [], reads_relais (after_report ev))
      end
  | forced_tests cp => Some (s, held, [], if relais_on s then forced_marks cp else forced_signals cp)
  | forced_signals cp => Some (s, held, [signal_unlock], forced_notes cp)
  | forced_notes cp => Some (set_is_locked false s, held, [], forced_marks cp)
  | forced_marks cp =>
      if RawCPState.eqb cp RawCPState.B || RawCPState.eqb cp RawCPState.C
      then Some (set_force_unlocked true s, held, [], reads_relais after_force)
      else Some (s, held, [], finished)
  | reads_relais k => Some (s, held, [], if relais_on s then compares true k else reads_should k)
  | reads_should k => Some (s, held, [], if should_be_locked s then reads_force k else compares false k)
  | reads_force k => Some (s, held, [], compares (negb (force_unlocked s)) k)
  | compares want k =>
      Some (s, held, [], if negb (is_locked s) && want then signals true k else compares_again want k)
  | compares_again want k =>
      Some (s, held, [], if is_locked s && negb want then signals false k else leaves k)
  | signals want k => Some (s, held, [if want then signal_lock else signal_unlock], notes want k)
  | notes want k => Some (set_is_locked want s, held, [], leaves k)
  | leaves (after_report e) => Some (s, held, [signal_event e], finished)
  | leaves (after_switch now r) => Some (run_state remember_last s, false, [], sets_timers now r)
  | leaves after_force => Some (s, held, [], finished)
  | sets_timers now r =>
      Some (run_state (control_timers now r) s, held, map signal_event (events r.1), finished)
  | finished => None
  end.

(** All threads; an operation is started, or one thread makes a step. *)
Record pool := mkPool {
  shared : iec_state;
  held : bool;
  put_out : list iec_output;
  threads : list point;
}.
Inductive turn : Type := spawn (op : iec_op) | go (i : nat).

Definition take_turn (c : pool) (t : turn) : pool :=
  match t with
  | spawn op => mkPool (shared c) (held c) (put_out c) (threads c ++ [begins op])
  | go i =>
      match threads c !! i with
      | Some p =>
          match thread_step p (shared c) (held c) with
          | Some (s, h, o, p') => mkPool s h (put_out c ++ o) (<[i:=p']> (threads c))
          | None => c
          end
      | None => c
      end
  end.
Definition interleave (l : list turn) (c : pool) : pool := fold_left take_turn l c.
Definition new_pool (lock_in_b : bool) : pool := mkPool (new_IECStateMachine lock_in_b) false [] [].
End LockThreads.
