(* ===== verification/IECProofs.v ===== *)
(** * Safety of the IEC state machine

    The permission for the contactors and the state of the connector lock as
    the outside sees them, tracked through the outputs of every operation; and
    the lock through every interleaving of the threads. *)
From S2P Require Import Prelude IECStateMachine.
From stdpp Require Import base tactics list numbers strings.
From Stdlib Require Import QArith.
Open Scope Z_scope.
Open Scope everest_scope.

Create HintDb iec.

(** The last permission given to the board support package. *)
Definition permission (p : bool) (os : list iec_output) : bool :=
  foldl (fun p o => match o with call_allow_power_on v _ => v | _ => p end) p os.

(** The state of the connector lock after the lock and unlock signals. *)
Definition lock_after (l : bool) (os : list iec_output) : bool :=
  foldl (fun l o => match o with signal_lock => true | signal_unlock => false | _ => l end) l os.

Lemma permission_app p a b : permission p (a ++ b) = permission (permission p a) b.
Proof. apply foldl_app. Qed.
Lemma lock_after_app l a b : lock_after l (a ++ b) = lock_after (lock_after l a) b.
Proof. apply foldl_app. Qed.

(** [ih P m Q]: run from a state, a permission and a lock that satisfy [P],
    [m] returns with ones that satisfy [Q]. *)
Definition ih {A} (P : iec_state -> bool -> bool -> Prop) (m : IEC A)
    (Q : A -> iec_state -> bool -> bool -> Prop) : Prop :=
  forall s p l, P s p l ->
  exists a, run_val m s = Ok a
    /\ Q a (run_state m s) (permission p (run_out m s)) (lock_after l (run_out m s)).

Section Rules.
Implicit Types P : iec_state -> bool -> bool -> Prop.

Lemma ih_ret {A} P (Q : A -> _) a : (forall s p l, P s p l -> Q a s p l) -> ih P (eret a) Q.
Proof. intros H s p l HP. exists a. split; [done|]. by apply H. Qed.

Lemma ih_put P (Q : unit -> _) f :
  (forall s p l, P s p l -> Q tt (f s) p l) -> ih P (put f) Q.
Proof. intros H s p l HP. exists tt. split; [done|]. by apply H. Qed.

Lemma ih_emit P (Q : unit -> _) o :
  (forall s p l, P s p l -> Q tt s (permission p [o]) (lock_after l [o])) -> ih P (eemit o) Q.
Proof. intros H s p l HP. exists tt. split; [done|]. by apply H. Qed.

Lemma ih_bind {A B} P (R : A -> _) (Q : B -> _) m f :
  ih P m R -> (forall a, ih (R a) (f a) Q) -> ih P (ebind m f) Q.
Proof.
  intros Hm Hf s p l HP. destruct (Hm s p l HP) as (a & Ha & HR).
  unfold run_val, run_state, run_out, ebind in *.
  destruct (m s) as [[r s1] o1]; simpl in *; subst r.
  destruct (Hf a s1 _ _ HR) as (b & Hb & HQ). unfold run_val, run_state, run_out in *.
  destruct (f a s1) as [[r s2] o2]; simpl in *. exists b.
  by rewrite permission_app, lock_after_app.
Qed.

Lemma ih_get_bind {B} P (Q : B -> _) (f : iec_state -> IEC B) :
  (forall s0, ih (fun s p l => s = s0 /\ P s p l) (f s0) Q) -> ih P (ebind eget f) Q.
Proof.
  intros Hf s p l HP. specialize (Hf s s p l (conj eq_refl HP)).
  unfold run_val, run_state, run_out in *. by rewrite run_get_bind.
Qed.

Lemma ih_weaken {A} P P' (Q Q' : A -> _) m :
  ih P m Q -> (forall s p l, P' s p l -> P s p l) ->
  (forall a s p l, Q a s p l -> Q' a s p l) -> ih P' m Q'.
Proof.
  intros Hm HP HQ s p l H. destruct (Hm s p l (HP _ _ _ H)) as (a & ? & ?). eauto.
Qed.

(** Fixes the state the run starts from. *)
Lemma ih_fix {A} P (Q : A -> _) m :
  (forall s p l, P s p l -> ih (fun s' _ _ => s' = s) m Q) -> ih P m Q.
Proof. intros H s p l HP. by apply (H s p l HP). Qed.

Lemma ih_seq {B} P (R : _) (Q : B -> _) (m : IEC unit) (k : IEC B) :
  ih P m (fun _ => R) -> ih R k Q -> ih P (ebind m (fun _ => k)) Q.
Proof. intros Hm Hk. eapply ih_bind; [exact Hm|]. intros []. exact Hk. Qed.

Lemma ih_if {A} P (Q : A -> _) (b : bool) m m' :
  (b = true -> ih P m Q) -> (b = false -> ih P m' Q) -> ih P (if b then m else m') Q.
Proof. destruct b; auto. Qed.
End Rules.

(** ** The safety conditions *)

(** The CP states in which the EV asks for power. *)
Definition power_state (c : RawCPState.t) : bool :=
  match c with RawCPState.C | RawCPState.D => true | _ => false end.

(** What holds between operations: power is permitted only while the charger
    allows it and the last processed CP state is C or D; [is_locked] is the
    state of the lock; with the contactors closed the connector is locked. *)
Record safe (s : iec_state) (p l : bool) : Prop := mkSafe {
  safe_power : p = true -> power_on_allowed s = true /\ power_state (last_cp_state s) = true;
  safe_lock : is_locked s = l;
  safe_relais : relais_on s = true -> l = true;
}.

(** The same within the state machine, with what is known of the CP states. *)
Definition inside (cp last : RawCPState.t) (in_power : Prop) (s : iec_state) (p l : bool) : Prop :=
  cp_state s = cp /\ last_cp_state s = last
  /\ (p = true -> power_on_allowed s = true /\ in_power)
  /\ is_locked s = l /\ (relais_on s = true -> l = true).

(** Updates that touch none of the fields the conditions mention. *)
Definition safety_view (s : iec_state) :=
  (cp_state s, last_cp_state s, power_on_allowed s, is_locked s, relais_on s).

Lemma ih_put_other cp last ip f :
  (forall s, safety_view (f s) = safety_view s) ->
  ih (inside cp last ip) (put f) (fun _ => inside cp last ip).
Proof.
  intros Hf. apply ih_put. intros s p l (H1 & H2 & H3 & H4 & H5). specialize (Hf s).
  injection Hf as E1 E2 E3 E4 E5. unfold inside. by rewrite E1, E2, E3, E4, E5.
Qed.

Lemma ih_emit_other cp last ip o :
  permission false [o] = false -> permission true [o] = true ->
  lock_after false [o] = false -> lock_after true [o] = true ->
  ih (inside cp last ip) (eemit o) (fun _ => inside cp last ip).
Proof.
  intros H1 H2 H3 H4. apply ih_emit. intros s p l H. by destruct p, l; rewrite ?H1, ?H2, ?H3, ?H4.
Qed.

(** Permission taken away: whatever was known, it is off now. *)
Lemma ih_power_off cp last ip ip' :
  ih (inside cp last ip) (call_allow_power_on_bsp false) (fun _ => inside cp last ip').
Proof.
  intros s p l (H1 & H2 & H3 & H4 & H5). exists tt. split; [done|].
  unfold inside. by split_and!.
Qed.

(** Permission given, when the charger allows it and the CP state is right. *)
Lemma ih_power_on cp last (ip : Prop) :
  ip -> ih (fun s p l => inside cp last ip s p l /\ power_on_allowed s = true)
          (call_allow_power_on_bsp true) (fun _ => inside cp last ip).
Proof.
  intros Hip s p l ((H1 & H2 & H3 & H4 & H5) & Ha). exists tt. split; [done|].
  unfold inside. by split_and!.
Qed.

Lemma ih_unlock cp last ip : ih (inside cp last ip) connector_unlock (fun _ => inside cp last ip).
Proof. unfold connector_unlock. eapply ih_seq; by apply ih_put_other. Qed.

Lemma ih_lock cp last ip : ih (inside cp last ip) connector_lock (fun _ => inside cp last ip).
Proof. by apply ih_put_other. Qed.

Lemma check_lock_run s :
  let want := relais_on s || (should_be_locked s && negb (force_unlocked s)) in
  check_connector_lock s =
  (Ok tt, set_is_locked want s,
   if Bool.eqb (is_locked s) want then [] else [if want then signal_lock else signal_unlock]).
Proof.
  unfold check_connector_lock. rewrite run_get_bind. simpl.
  destruct (relais_on s || (should_be_locked s && negb (force_unlocked s))) eqn:Hw,
    (is_locked s) eqn:Hl; simpl; try done; by destruct s; simpl in *; subst.
Qed.

(** The check brings the lock to its place; the contactors decide first. *)
Lemma ih_check cp last ip :
  ih (inside cp last ip) check_connector_lock (fun _ => inside cp last ip).
Proof.
  intros s p l (H1 & H2 & H3 & H4 & H5). exists tt. unfold run_val, run_state, run_out.
  rewrite check_lock_run. split; [done|]. unfold inside. simpl. rewrite H4.
  destruct (relais_on s || (should_be_locked s && negb (force_unlocked s))) eqn:Hw, l; simpl;
    split_and!; try done; intros Hr; by rewrite Hr in Hw.
Qed.

#[export] Hint Resolve ih_put_other ih_emit_other ih_unlock ih_lock ih_check : iec.
#[export] Hint Extern 1 (forall _, safety_view _ = safety_view _) => done : iec.
#[export] Hint Extern 1 (permission _ _ = _) => done : iec.
#[export] Hint Extern 1 (lock_after _ _ = _) => done : iec.

(** Steps that keep [inside]. *)
Ltac iec_steps :=
  repeat first
    [ progress intros | solve [auto with iec] | (apply ih_ret; tauto)
    | eapply ih_seq; [solve [auto with iec]|]
    | apply ih_if | (eapply ih_seq; [apply ih_if; [intros; solve [auto with iec]|
                       intros; by apply ih_ret]|]) ].

(** ** The cases of the state machine *)

Section Cases.
Context (last : RawCPState.t) (now : Z).

(** Entering: the permission known from before the switch. *)
Definition entering (cp : RawCPState.t) := inside cp last (power_state last = true).
Definition leaving (cp : RawCPState.t) := inside cp last (power_state cp = true).

Lemma came_from_last (s : iec_state) l :
  last_cp_state s = last -> came_from s l = existsb (RawCPState.eqb last) l.
Proof. unfold came_from. by intros ->. Qed.

Lemma ih_get_inside {B} cp ip (Q : B -> _) (f : iec_state -> IEC B) :
  (forall s0, last_cp_state s0 = last -> ih (inside cp last ip) (f s0) Q) ->
  ih (inside cp last ip) (ebind eget f) Q.
Proof.
  intros Hf. apply ih_get_bind. intros s0 s p l [-> HP].
  by apply (Hf s0 ltac:(apply HP)).
Qed.

(** From a state without power, nothing has to be taken away. *)
Lemma enter_no_power cp ip s p l :
  power_state last = false -> entering cp s p l -> inside cp last ip s p l.
Proof. intros Hn (H1 & H2 & H3 & H4 & H5). split_and!; try done. intros Hp. destruct (H3 Hp). congruence. Qed.

Lemma case_Disabled_safe : ih (entering RawCPState.Disabled) case_Disabled
  (fun _ => leaving RawCPState.Disabled).
Proof.
  apply ih_get_inside. intros s Hl. rewrite came_from_last by done. apply ih_if; intros Hb.
  - do 3 (eapply ih_seq; [by auto with iec|]).
    eapply ih_seq; [apply ih_power_off|]. eapply ih_seq; [apply ih_unlock|]. by apply ih_ret.
  - apply ih_ret. intros s' p l. apply enter_no_power. by destruct last.
Qed.

Lemma case_A_safe : ih (entering RawCPState.A) case_A (fun _ => leaving RawCPState.A).
Proof.
  apply ih_get_inside. intros s Hl. rewrite came_from_last by done.
  eapply ih_bind with (R := fun _ => leaving RawCPState.A); [|intros; by apply ih_ret].
  apply ih_if; intros Hb.
  - do 4 (eapply ih_seq; [by auto with iec|]).
    eapply ih_seq; [apply ih_power_off|]. eapply ih_seq; [apply ih_unlock|]. by apply ih_ret.
  - apply ih_ret. intros s' p l. apply enter_no_power. by destruct last.
Qed.

Lemma case_B_safe : ih (entering RawCPState.B) case_B (fun _ => leaving RawCPState.B).
Proof.
  apply ih_get_inside. intros s Hl. rewrite !came_from_last by done.
  eapply ih_seq; [apply ih_if; intros; [apply ih_lock|apply ih_unlock]|].
  eapply ih_seq with (R := leaving RawCPState.B).
  { apply ih_if; intros Hb; [apply ih_power_off|]. apply ih_ret. intros s' p l.
    apply enter_no_power. by destruct last. }
  eapply ih_seq with (R := leaving RawCPState.B); [|by apply ih_ret].
  apply ih_if; intros Hb; [|by apply ih_ret].
  eapply ih_seq with (R := leaving RawCPState.B); by apply ih_put_other.
Qed.

(** States C and D, where power may be given. *)
Lemma case_C_safe cp :
  power_state cp = true -> ih (entering cp) (case_C now) (fun _ => leaving cp).
Proof.
  intros Hcp. eapply ih_weaken with (P := leaving cp) (Q := fun _ => leaving cp); [| |done].
  2: { intros s p l (H1 & H2 & H3 & H4 & H5). split_and!; try done. by intros []%H3. }
  unfold case_C. eapply ih_seq; [apply ih_lock|]. apply ih_get_bind. intros s.
  eapply ih_seq with (R := fun s' p l => leaving cp s' p l
                            /\ power_on_allowed s' = power_on_allowed s).
  { apply ih_if; intros _.
    - eapply ih_seq with (R := fun s' p l => leaving cp s' p l
                            /\ power_on_allowed s' = power_on_allowed s);
        apply ih_put; [by intros s' p l [-> H]|done].
    - apply ih_ret. by intros s' p l [-> H]. }
  eapply ih_seq with (R := leaving cp).
  { apply ih_if; intros Hb.
    - eapply ih_weaken; [apply (ih_power_on cp last (power_state cp = true) Hcp)| |done].
      intros s' p l [H Ha]. split; [done|]. rewrite Ha. by apply andb_true_iff in Hb as [_ ?].
    - apply ih_ret. by intros s' p l [H _]. }
  eapply ih_seq; [apply ih_if; intros _; [apply ih_power_off|by apply ih_ret]|].
  apply ih_get_bind. intros s'. eapply ih_seq with (R := leaving cp); [|by apply ih_ret].
  apply ih_if; intros Hb; [|apply ih_ret; by intros ? p l [_ H]].
  eapply ih_weaken; [apply (ih_power_on cp last (power_state cp = true) Hcp)| |done].
  intros ? p l [-> H]. split; [done|]. by apply andb_true_iff in Hb as [[_ ?]%andb_true_iff _].
Qed.

Lemma case_D_safe : ih (entering RawCPState.D) (case_D now) (fun _ => leaving RawCPState.D).
Proof.
  unfold case_D. eapply ih_seq; [apply ih_lock|]. apply ih_get_inside. intros s Hl.
  apply ih_if; intros _; [|by apply case_C_safe].
  eapply ih_seq; [apply ih_power_off|by apply ih_ret].
Qed.

Lemma case_E_safe : ih (entering RawCPState.E) case_E (fun _ => leaving RawCPState.E).
Proof.
  unfold case_E. eapply ih_seq; [apply ih_unlock|]. apply ih_get_inside. intros s Hl.
  rewrite !came_from_last by done. apply ih_if; intros Hb.
  - eapply ih_seq; [apply ih_power_off|]. do 2 (eapply ih_seq; [by auto with iec|]).
    by apply ih_ret.
  - apply ih_ret. intros s' p l. apply enter_no_power. by destruct last.
Qed.

Lemma case_F_safe : ih (entering RawCPState.F) (case_F now) (fun _ => leaving RawCPState.F).
Proof.
  apply ih_get_inside. intros s Hl. eapply ih_seq; [apply ih_power_off|].
  eapply ih_seq; [apply ih_if; intros; [by apply ih_put_other|by apply ih_ret]|].
  eapply ih_seq; [apply ih_if; intros; [apply ih_unlock|by apply ih_ret]|].
  by apply ih_ret.
Qed.
End Cases.

(** ** The operations *)

(** After the locked section, the state machine has caught up with [s0]. *)
Definition caught_up (s0 : iec_state) (s : iec_state) (p l : bool) : Prop :=
  safe s p l /\ cp_state s = cp_state s0 /\ last_cp_state s = cp_state s0
  /\ last_pwm_running s = pwm_running s /\ last_power_on_allowed s = power_on_allowed s.

Lemma ih_keep {A B} P R (m : IEC A) (x : B) :
  ih P m (fun _ => R) -> ih P (let* t := m in eret (t, x)) (fun _ => R).
Proof. intros H. eapply ih_bind; [exact H|]. intros a. by apply ih_ret. Qed.

Lemma switch_leaves now s0 :
  ih (fun s p l => s = s0 /\ safe s p l) (switch_cp_state now)
    (fun _ => leaving (last_cp_state s0) (cp_state s0)).
Proof.
  unfold switch_cp_state. apply ih_get_bind. intros s1 s p l (-> & -> & [H1 H2 H3]).
  set (cp := cp_state s0). set (last := last_cp_state s0).
  assert (entering last cp s0 p l) as He by (split_and!; done). revert He. generalize s0 p l.
  clearbody cp last. clear. intros s p l He.
  destruct cp; try (refine (ih_keep _ _ _ _ _ s p l He)).
  - apply case_Disabled_safe.
  - apply case_A_safe.
  - apply case_B_safe.
  - by apply case_C_safe.
  - apply case_D_safe.
  - apply case_E_safe.
  - by apply case_F_safe.
Qed.

Lemma remember_last_run s :
  remember_last s =
  (Ok tt, set_last_power_on_allowed (power_on_allowed s)
            (set_last_pwm_running (pwm_running s) (set_last_cp_state (cp_state s) s)), []).
Proof. done. Qed.

Lemma ih_remember (P Q : iec_state -> bool -> bool -> Prop) :
  (forall s p l, P s p l -> Q (run_state remember_last s) p l) -> ih P remember_last (fun _ => Q).
Proof. intros H s p l HP. exists tt. split; [done|]. by apply H. Qed.

Lemma locked_section_caught_up now s0 :
  ih (fun s p l => s = s0 /\ safe s p l) (state_machine_locked now) (fun _ => caught_up s0).
Proof.
  unfold state_machine_locked. eapply ih_bind; [apply switch_leaves|]. intros r.
  eapply ih_seq; [apply ih_check|].
  eapply ih_seq with (R := caught_up s0); [|by apply ih_ret].
  apply ih_remember. intros s p l (H1 & H2 & H3 & H4 & H5).
  unfold run_state. rewrite remember_last_run. split_and!; try done. split; simpl; try done. by rewrite H1.
Qed.

Lemma locked_section_safe now : ih safe (state_machine_locked now) (fun _ => safe).
Proof.
  intros s p l Hs. destruct (locked_section_caught_up now s s p l (conj eq_refl Hs))
    as (a & Ha & HQ & _). eauto.
Qed.

Lemma safe_put f :
  (forall s, safety_view (f s) = safety_view s \/
             (last_cp_state (f s), power_on_allowed (f s), is_locked (f s), relais_on (f s))
             = (last_cp_state s, power_on_allowed s, is_locked s, relais_on s)) ->
  ih safe (put f) (fun _ => safe).
Proof.
  intros Hf. apply ih_put. intros s p l [H1 H2 H3].
  destruct (Hf s) as [E|E]; [injection E as _ E1 E2 E3 E4|injection E as E1 E2 E3 E4];
    split; by rewrite ?E1, ?E2, ?E3, ?E4.
Qed.

Lemma safe_emit o :
  permission false [o] = false -> permission true [o] = true ->
  lock_after false [o] = false -> lock_after true [o] = true ->
  ih safe (eemit o) (fun _ => safe).
Proof.
  intros H1 H2 H3 H4. apply ih_emit. intros s p l H. by destruct p, l; rewrite ?H1, ?H2, ?H3, ?H4.
Qed.

Lemma safe_feed now : ih safe (feed_state_machine_no_thread now) (fun _ => safe).
Proof.
  unfold feed_state_machine_no_thread, state_machine.
  eapply ih_bind with (R := fun _ => safe).
  - eapply ih_bind; [apply locked_section_safe|]. intros r.
    eapply ih_seq; [|by apply ih_ret]. eapply ih_seq; apply safe_put; by left.
  - intros es. induction es as [|e es IH]; simpl; [by apply ih_ret|].
    eapply ih_seq; [by apply safe_emit|done].
Qed.

(** Once the contactors or the lock demand changed, the check restores the
    lock condition. *)
Lemma check_restores :
  ih (fun s p l => (p = true -> power_on_allowed s = true /\ power_state (last_cp_state s) = true)
                   /\ is_locked s = l)
    check_connector_lock (fun _ => safe).
Proof.
  intros s p l (H1 & H2). exists tt. unfold run_val, run_state, run_out.
  rewrite check_lock_run. split; [done|]. split; simpl; rewrite ?H2.
  - intros Hp. apply H1. revert Hp.
    by destruct l, (relais_on s || (should_be_locked s && negb (force_unlocked s))).
  - by destruct l, (relais_on s || (should_be_locked s && negb (force_unlocked s))).
  - intros ->. by destruct l.
Qed.

Lemma safe_bsp_event e : ih safe (on_bsp_event e) (fun _ => safe).
Proof.
  unfold on_bsp_event. apply ih_get_bind. intros s0.
  eapply ih_weaken with (P := safe) (Q := fun _ => safe); [|by intros ??? [_ H]|done].
  apply ih_if; intros _; [|by apply ih_ret]. unfold process_bsp_event, feed_state_machine.
  destruct (from_bsp_event e) as [c|ev].
  - eapply ih_seq; [apply safe_put; by right|by apply safe_emit].
  - eapply ih_seq with (R := fun s p l =>
      (p = true -> power_on_allowed s = true /\ power_state (last_cp_state s) = true)
      /\ is_locked s = l).
    { destruct ev; try (apply ih_ret; by intros s p l [???]); apply ih_put; by intros s p l [???]. }
    eapply ih_seq; [apply check_restores|by apply safe_emit].
Qed.

Lemma safe_allow_power_on v why : ih safe (allow_power_on v why) (fun _ => safe).
Proof.
  intros s p l [H1 H2 H3]. exists tt. split; [by destruct v|].
  destruct v; split; simpl; try done. by intros []%H1.
Qed.

Lemma safe_force_unlock : ih safe connector_force_unlock (fun _ => safe).
Proof.
  unfold connector_force_unlock. apply ih_get_bind. intros s0.
  eapply ih_weaken with (Q := fun _ => safe); [|intros s p l H; exact H|done].
  eapply ih_seq with (R := safe).
  { apply ih_if; intros Hr.
    - intros s p l [-> [H1 H2 H3]]. exists tt. split; [done|]. split; simpl; try done.
      intros Hr'. by rewrite Hr' in Hr.
    - apply ih_ret. by intros s p l [_ H]. }
  apply ih_if; intros _; [|by apply ih_ret].
  eapply ih_seq; [apply safe_put; by left|].
  eapply ih_weaken; [apply check_restores|by intros s p l [???]|done].
Qed.

Lemma safe_op op : ih safe (iec_op_action op) (fun _ => safe).
Proof.
  destruct op; simpl; unfold set_pwm, set_pwm_off, set_pwm_F, feed_state_machine, enable, setup,
    set_overcurrent_limit, evse_replug, switch_three_phases_while_charging.
  - apply safe_feed.
  - apply safe_bsp_event.
  - eapply ih_seq; [apply ih_if; intros _; apply safe_put; by left|].
    apply ih_get_bind. intros s. eapply ih_weaken with (P := safe) (Q := fun _ => safe);
      [|by intros ??? [_ H]|done].
    eapply ih_seq; by apply safe_emit.
  - eapply ih_seq; [apply safe_put; by left|]. eapply ih_seq; by apply safe_emit.
  - eapply ih_seq; [apply safe_put; by left|]. eapply ih_seq; by apply safe_emit.
  - apply safe_allow_power_on.
  - apply safe_force_unlock.
  - eapply ih_seq; [apply safe_put; by left|]. by apply safe_emit.
  - apply safe_put; by left.
  - apply safe_put; by left.
  - apply safe_put; by left.
  - apply ih_get_bind. intros s. eapply ih_weaken with (P := safe) (Q := fun _ => safe);
      [|by intros ??? [_ H]|done].
    apply ih_if; intros _; [|by apply ih_ret].
    eapply ih_seq; [by apply safe_emit|]. apply safe_put; by left.
  - by apply safe_emit.
  - by apply safe_emit.
Qed.

(** A history of operations: the state, and all outputs. *)
Fixpoint run_iec (ops : list iec_op) (s : iec_state) : iec_state * list iec_output :=
  match ops with
  | [] => (s, [])
  | op :: ops' =>
      let '(s', os) := run_iec ops' (run_state (iec_op_action op) s) in
      (s', run_out (iec_op_action op) s ++ os)
  end.

Lemma run_iec_safe ops s p l :
  safe s p l ->
  safe (run_iec ops s).1 (permission p (run_iec ops s).2) (lock_after l (run_iec ops s).2).
Proof.
  revert s p l. induction ops as [|op ops IH]; intros s p l Hs; simpl; [done|].
  destruct (safe_op op s p l Hs) as (_ & _ & H). specialize (IH _ _ _ H).
  destruct (run_iec ops _) as [s' os]. simpl in *. by rewrite permission_app, lock_after_app.
Qed.

Lemma new_iec_safe b : safe (new_IECStateMachine b) false false.
Proof. by split. Qed.

(** ** Threads *)

Lemma emit_events_run es s :
  (efor es (fun e => eemit (signal_event e)) : IEC unit) s = (Ok tt, s, map signal_event es).
Proof.
  induction es as [|e es IH]; [done|]. simpl. unfold ebind. simpl. by rewrite IH.
Qed.

Import LockThreads.

(** The steps of a thread that nothing interrupts. *)
Inductive alone : point -> iec_state -> bool -> list iec_output -> point -> iec_state -> bool -> Prop :=
| alone_end p s h : alone p s h [] p s h
| alone_step p s h s1 h1 o1 p1 o p' s' h' :
    thread_step p s h = Some (s1, h1, o1, p1) -> alone p1 s1 h1 o p' s' h' ->
    alone p s h (o1 ++ o) p' s' h'.

Lemma alone_trans p s h o1 p1 s1 h1 o2 p2 s2 h2 :
  alone p s h o1 p1 s1 h1 -> alone p1 s1 h1 o2 p2 s2 h2 -> alone p s h (o1 ++ o2) p2 s2 h2.
Proof. induction 1; intros; [done|]. rewrite <- app_assoc. econstructor; eauto. Qed.

Lemma alone_silent p s h p1 s1 h1 o p' s' h' :
  thread_step p s h = Some (s1, h1, [], p1) -> alone p1 s1 h1 o p' s' h' -> alone p s h o p' s' h'.
Proof. intros H1 H2. by apply (alone_step _ _ _ _ _ [] _ o _ _ _ H1). Qed.

Ltac walk := eapply alone_silent; [cbn; reflexivity|].

Lemma alone_compares want k s h :
  alone (compares want k) s h
    (if Bool.eqb (is_locked s) want then [] else [if want then signal_lock else signal_unlock])
    (leaves k) (set_is_locked want s) h.
Proof.
  destruct s, is_locked, want; walk; cbn.
  - walk. apply alone_end.
  - walk. eapply (alone_step _ _ _ _ _ [_] _ []); [done|]. walk. apply alone_end.
  - eapply (alone_step _ _ _ _ _ [_] _ []); [done|]. walk. apply alone_end.
  - walk. apply alone_end.
Qed.

Lemma alone_check k s h :
  alone (reads_relais k) s h (run_out check_connector_lock s) (leaves k) (run_state check_connector_lock s) h.
Proof.
  unfold run_out, run_state. rewrite check_lock_run. cbn [fst snd].
  walk. destruct (relais_on s) eqn:Hr; cbn [orb]; [apply alone_compares|].
  walk. destruct (should_be_locked s); cbn [andb]; [|apply alone_compares].
  walk. apply alone_compares.
Qed.

(** The end of a forced unlock. *)
Definition force_end (cp : RawCPState.t) : IEC unit :=
  if RawCPState.eqb cp RawCPState.B || RawCPState.eqb cp RawCPState.C
  then put (set_force_unlocked true) ;;; check_connector_lock else eret tt.

Lemma alone_force_end cp s h :
  alone (forced_marks cp) s h (run_out (force_end cp) s) finished (run_state (force_end cp) s) h.
Proof.
  unfold force_end. destruct (RawCPState.eqb cp RawCPState.B || RawCPState.eqb cp RawCPState.C) eqn:E.
  - eapply alone_silent; [cbn; by rewrite E|]. unfold put, run_out, run_state. rewrite !ebind_modify.
    rewrite <- (app_nil_r (snd _)). eapply alone_trans; [apply alone_check|]. walk. apply alone_end.
  - eapply alone_silent; [cbn; by rewrite E|]. apply alone_end.
Qed.

Lemma alone_force s :
  alone (begins op_force_unlock) s false (run_out connector_force_unlock s) finished
    (run_state connector_force_unlock s) false.
Proof.
  unfold run_out, run_state, connector_force_unlock. rewrite run_get_bind. fold (force_end (cp_state s)).
  walk. walk. destruct (relais_on s); cbn [negb].
  - rewrite ebind_ret. apply alone_force_end.
  - unfold ebind at 1 2. cbn. pose proof (alone_force_end (cp_state s) (set_is_locked false s) false) as H.
    unfold run_out, run_state in H. unfold ebind. cbn. destruct (force_end _ _) as [[r s1] o]. cbn in *.
    eapply (alone_step _ _ _ _ _ [_]); [done|]. walk. exact H.
Qed.

Lemma switch_returns now s : exists r, run_val (switch_cp_state now) s = Ok r.
Proof. destruct (run_val (switch_cp_state now) s) as [r|[]] eqn:E. by exists r. Qed.

Lemma alone_feed now s :
  alone (begins (op_feed now)) s false (run_out (feed_state_machine_no_thread now) s) finished
    (run_state (feed_state_machine_no_thread now) s) false.
Proof.
  destruct (switch_returns now s) as [r Hr].
  assert (feed_state_machine_no_thread now s =
    let s1 := run_state (switch_cp_state now) s in let s2 := run_state check_connector_lock s1 in
    (Ok tt, run_state (control_timers now r) (run_state remember_last s2),
     run_out (switch_cp_state now) s ++ run_out check_connector_lock s1 ++ map signal_event (events r.1)))
    as E.
  { unfold run_val, run_state, run_out in *.
    unfold feed_state_machine_no_thread, state_machine, state_machine_locked, ebind at 1 2 3 4.
    destruct (switch_cp_state now s) as [[v s1] o]. cbn in Hr. subst v. cbn -[check_connector_lock].
    rewrite check_lock_run. cbn. rewrite emit_events_run. cbn. rewrite ?app_nil_r, <- ?app_assoc. cbn. rewrite ?app_nil_r. done. }
  unfold run_out at 1, run_state at 1. rewrite E. cbn zeta. cbn [fst snd]. clear E.
  apply (alone_step _ _ _ (run_state (switch_cp_state now) s) true _ (reads_relais (after_switch now r))).
  { unfold thread_step, begin_operation. cbn [waits_for_mutex andb]. unfold run_val, run_state, run_out in *.
    destruct (switch_cp_state now s) as [[v s1] o]. cbn in *. by subst v. }
  eapply alone_trans; [apply alone_check|]. eapply alone_silent; [reflexivity|].
  rewrite <- (app_nil_r (map _ _)). eapply alone_step; [reflexivity|]. apply alone_end.
Qed.

Lemma alone_report e s :
  enabled s = true ->
  alone (reports e) s false (run_out (process_bsp_event e) s) finished (run_state (process_bsp_event e) s) false.
Proof.
  intros _. unfold process_bsp_event.
  destruct (from_bsp_event e) as [c|ev] eqn:E.
  - eapply (alone_step _ _ _ _ _ [_] _ []); [unfold thread_step, waits_for_mutex; by rewrite E|]. apply alone_end.
  - eapply alone_silent; [unfold thread_step, waits_for_mutex; by rewrite E|].
    set (s1 := match ev with CPEvent.PowerOn => _ | _ => _ end).
    assert (forall m : IEC unit, ((match ev with
      | CPEvent.PowerOn => put (set_relais_on true) | CPEvent.PowerOff => put (set_relais_on false)
      | _ => eret tt end ;;; m) : IEC unit) s = m s1) as Hs.
    { intros m. unfold s1, put. destruct ev; rewrite ?ebind_modify; reflexivity || apply ebind_ret. }
    unfold run_out, run_state. rewrite !Hs. unfold ebind.
    pose proof (alone_check (after_report ev) s1 false) as H. unfold run_out, run_state in H.
    rewrite check_lock_run in *. cbn [fst snd] in *.
    eapply alone_trans; [exact H|]. cbn. rewrite <- (app_nil_r [_]). eapply alone_step; [done|]. apply alone_end.
Qed.

Lemma alone_operation op s :
  alone (begins op) s false (run_out (iec_op_action op) s) finished (run_state (iec_op_action op) s) false.
Proof.
  destruct op; try (rewrite <- (app_nil_r (run_out _ _)); eapply alone_step; [done|apply alone_end]).
  - apply alone_feed.
  - eapply alone_silent; [done|]. cbn [iec_op_action]. unfold on_bsp_event, run_out, run_state.
    rewrite run_get_bind. destruct (enabled s) eqn:E; [by apply alone_report|apply alone_end].
  - apply alone_force.
Qed.

(** *** The lock under closed contactors *)

(** Actions that leave the contactors, the lock and what is noted of it alone. *)
Definition lock_view (s : iec_state) : bool * bool := (is_locked s, relais_on s).
Definition keeps_lock {A} (m : IEC A) : Prop :=
  forall s, lock_view (run_state m s) = lock_view s /\ forall l, lock_after l (run_out m s) = l.

Lemma keeps_lock_ret {A} (a : A) : keeps_lock (eret a).
Proof. done. Qed.
Lemma keeps_lock_get : keeps_lock eget.
Proof. done. Qed.
Lemma keeps_lock_put f : (forall s, lock_view (f s) = lock_view s) -> keeps_lock (put f).
Proof. intros Hf s. by split. Qed.
Lemma keeps_lock_emit o : lock_after false [o] = false -> lock_after true [o] = true -> keeps_lock (eemit o).
Proof. intros H0 H1 s. split; [done|]. by intros []. Qed.
Lemma keeps_lock_bind {A B} (m : IEC A) (k : A -> IEC B) :
  keeps_lock m -> (forall a, keeps_lock (k a)) -> keeps_lock (ebind m k).
Proof.
  intros Hm Hk s. destruct (Hm s) as [H1 H2]. unfold run_state, run_out, ebind in *.
  destruct (m s) as [[[a|[]] s1] o]. cbn in *. destruct (Hk a s1) as [H3 H4]. unfold run_state, run_out in *.
  destruct (k a s1) as [[r s2] o']. cbn in *. split; [congruence|].
  intros l. by rewrite lock_after_app, H2.
Qed.
Lemma keeps_lock_if {A} (b : bool) (m m' : IEC A) : keeps_lock m -> keeps_lock m' -> keeps_lock (if b then m else m').
Proof. by destruct b. Qed.

Ltac solve_keeps :=
  repeat first [ apply keeps_lock_ret | apply keeps_lock_get | (apply keeps_lock_put; by intros) | (apply keeps_lock_emit; done)
               | apply keeps_lock_if | (apply keeps_lock_bind; [|intros]) ].

Lemma switch_keeps now : keeps_lock (switch_cp_state now).
Proof.
  unfold switch_cp_state, case_Disabled, case_A, case_B, case_D, case_E, case_F, case_C,
    call_allow_power_on_bsp, connector_unlock, connector_lock.
  apply keeps_lock_bind; [apply keeps_lock_get|]. intros s. destruct (cp_state s); solve_keeps.
Qed.

Lemma operation_keeps op :
  match op with op_feed _ | op_bsp_event _ | op_force_unlock => True | _ => keeps_lock (iec_op_action op) end.
Proof.
  destruct op; try done; cbn [iec_op_action]; unfold set_pwm, set_pwm_off, set_pwm_F, feed_state_machine,
    allow_power_on, call_allow_power_on_bsp, enable, setup, set_overcurrent_limit, evse_replug,
    switch_three_phases_while_charging; solve_keeps.
Qed.

Lemma lock_signals l es : lock_after l (map signal_event es) = l.
Proof. by induction es. Qed.

(** A thread that found the contactors open and has not finished with the lock. *)
Definition stale (p : point) : bool :=
  match p with
  | forced_signals _ | forced_notes _ | reads_should _ | reads_force _ | compares false _
  | compares_again false _ | signals false _ | notes false _ => true
  | _ => false
  end.
(** A thread that signalled the lock, or the unlock, and has not noted it. *)
Definition noting_lock (p : point) : bool := match p with notes true _ => true | _ => false end.
Definition noting_unlock (p : point) : bool := match p with notes false _ | forced_notes _ => true | _ => false end.
(** A report of closed contactors before its check has locked the connector. *)
Definition reporting (p : point) : bool :=
  match p with
  | reads_relais (after_report CPEvent.PowerOn) | compares true (after_report CPEvent.PowerOn)
  | signals true (after_report CPEvent.PowerOn) => true
  | _ => false
  end.

(** The turns that do not cross a decision about the lock: closed contactors are
    reported while no thread is still deciding, or acting, on open ones; the unlock
    is signalled while no thread has yet to note that it locked. *)
Definition calm (c : pool) (t : turn) : bool :=
  match t with
  | spawn _ => true
  | go i =>
      match threads c !! i with
      | Some (reports BspEvent.PowerOn) => negb (existsb stale (threads c))
      | Some (forced_signals _ | signals false _) => negb (existsb noting_lock (threads c))
      | _ => true
      end
  end.
Fixpoint undisturbed (l : list turn) (c : pool) : bool :=
  match l with
  | [] => true
  | t :: l' => calm c t && undisturbed l' (take_turn c t)
  end.

Definition connector_is_locked (c : pool) : bool := lock_after false (put_out c).

(** What holds of the position of the lock and the thread [p] at its point, given
    what holds of some of the others. *)
Record lock_inv (s : iec_state) (l : bool) (p : point) (st nl nu rp : Prop) : Prop := mkLockInv {
  inv_noted : is_locked s = true -> l = true \/ noting_unlock p = true \/ nu;
  inv_noting : noting_lock p = true \/ nl -> l = true;
  inv_open : relais_on s = true -> stale p = false /\ ~ st;
  inv_load : relais_on s = true -> l = true \/ reporting p = true \/ rp;
}.

Lemma lock_inv_view s s' l p st nl nu rp :
  lock_view s' = lock_view s -> lock_inv s l p st nl nu rp -> lock_inv s' l p st nl nu rp.
Proof. intros [= E1 E2] [H1 H2 H3 H4]. split; by rewrite ?E1, ?E2. Qed.

Lemma thread_step_inv p s h s' h' o p' l (st nl nu rp : Prop) :
  thread_step p s h = Some (s', h', o, p') ->
  (nu -> st) ->
  match p with
  | reports BspEvent.PowerOn => stale p = false /\ ~ st
  | forced_signals _ | signals false _ => ~ nl
  | _ => True
  end ->
  lock_inv s l p st nl nu rp -> lock_inv s' (lock_after l o) p' st nl nu rp.
Proof.
  unfold thread_step. destruct (waits_for_mutex p && h); [done|]. intros Hstep Hnu Hcalm Hinv.
  assert (forall s1 o1, lock_view s1 = lock_view s -> (forall l, lock_after l o1 = l) -> stale p = false ->
    noting_unlock p = false -> reporting p = false ->
    forall q, stale q = false -> noting_lock q = false -> lock_inv s1 (lock_after l o1) q st nl nu rp) as Hquiet.
  { intros s1 o1 E Ho E1 E2 E3 q Q1 Q2. rewrite Ho. eapply lock_inv_view; [exact E|].
    destruct Hinv as [H1 H2 H3 H4]. rewrite E1, E2, E3 in *. split; rewrite ?Q1, ?Q2; naive_solver. }
  destruct p as [op|e|cp|cp|cp|cp|k|k|k|w k|w k|w k|w k|k|now r|].
  - injection Hstep as Hstep. unfold begin_operation in Hstep.
    pose proof (operation_keeps op) as Hk.
    destruct op as [now|e| | | | | | | | | | | | ];
      try (injection Hstep as <- <- <- <-; destruct (Hk s) as [E Ho]; by apply Hquiet).
    + destruct (switch_keeps now s) as [E Ho]. unfold run_state, run_out in *.
      destruct (switch_cp_state now s) as [[[r|[]] s1] o1]. injection Hstep as <- <- <- <-. by apply Hquiet.
    + injection Hstep as <- <- <- <-. destruct (enabled s); by apply (Hquiet s []).
    + injection Hstep as <- <- <- <-. by apply (Hquiet s []).
  - destruct e; cbn in Hstep; injection Hstep as <- <- <- <-; try by apply (Hquiet _ [spawn_feed]).
    all: try by apply (Hquiet _ []).
    all: destruct Hinv as [H1 H2 H3 H4]; split; cbn in *; naive_solver.
  - injection Hstep as <- <- <- <-. destruct (relais_on s) eqn:Hr; [by apply (Hquiet s [])|].
    destruct Hinv as [H1 H2 H3 H4]; split; cbn in *; naive_solver congruence.
  - injection Hstep as <- <- <- <-. destruct Hinv as [H1 H2 H3 H4]; split; cbn in *; naive_solver.
  - injection Hstep as <- <- <- <-. destruct Hinv as [H1 H2 H3 H4]; split; cbn in *; naive_solver.
  - destruct (_ || _); injection Hstep as <- <- <- <-; by apply (Hquiet _ []).
  - injection Hstep as <- <- <- <-. destruct (relais_on s) eqn:Hr;
      destruct Hinv as [H1 H2 H3 H4]; split; cbn in *; rewrite ?Hr in *; naive_solver congruence.
  - injection Hstep as <- <- <- <-. destruct (should_be_locked s);
      destruct Hinv as [H1 H2 H3 H4]; split; cbn in *; naive_solver.
  - injection Hstep as <- <- <- <-. destruct (force_unlocked s);
      destruct Hinv as [H1 H2 H3 H4]; split; cbn in *; naive_solver.
  - injection Hstep as <- <- <- <-. destruct Hinv as [H1 H2 H3 H4].
    destruct (is_locked s) eqn:Hi, w; split; cbn in *; rewrite ?Hi in *; naive_solver.
  - injection Hstep as <- <- <- <-. destruct Hinv as [H1 H2 H3 H4].
    destruct (is_locked s) eqn:Hi, w; split; cbn in *; rewrite ?Hi in *; naive_solver.
  - injection Hstep as <- <- <- <-. destruct Hinv as [H1 H2 H3 H4].
    destruct w; split; cbn in *; naive_solver.
  - injection Hstep as <- <- <- <-. destruct Hinv as [H1 H2 H3 H4].
    destruct w; split; cbn in *; naive_solver.
  - destruct k; injection Hstep as <- <- <- <-; [by apply (Hquiet s [_])|by apply (Hquiet _ [])|by apply (Hquiet s [])].
  - injection Hstep as <- <- <- <-. apply Hquiet; try done. intros l'. apply lock_signals.
  - done.
Qed.

(** Some thread of the pool; some other one than the [i]-th. *)
Definition some (f : point -> bool) (l : list point) : Prop := exists j q, l !! j = Some q /\ f q = true.
Definition other (i : nat) (f : point -> bool) (l : list point) : Prop :=
  exists j q, j <> i /\ l !! j = Some q /\ f q = true.
Definition pool_inv (c : pool) : Prop :=
  lock_inv (shared c) (connector_is_locked c) finished (some stale (threads c)) (some noting_lock (threads c))
    (some noting_unlock (threads c)) (some reporting (threads c)).

Lemma some_existsb f l : existsb f l = true <-> some f l.
Proof.
  rewrite existsb_exists. split.
  - intros (q & Hq & Hf). apply list_elem_of_In, list_elem_of_lookup in Hq as [j Hj]. by exists j, q.
  - intros (j & q & Hj & Hf). exists q. split; [|done]. apply list_elem_of_In, list_elem_of_lookup. by exists j.
Qed.
Lemma some_split f l i p : l !! i = Some p -> some f l <-> f p = true \/ other i f l.
Proof.
  intros Hp. split.
  - intros (j & q & Hj & Hf). destruct (decide (j = i)) as [->|Hne]; [left; congruence|right; by exists j, q].
  - intros [Hf|(j & q & _ & Hj & Hf)]; [by exists i, p|by exists j, q].
Qed.
Lemma some_insert f l i p p' : l !! i = Some p -> some f (<[i:=p']> l) <-> f p' = true \/ other i f l.
Proof.
  intros Hp. rewrite (some_split f (<[i:=p']> l) i p')
    by (apply list_lookup_insert_eq; by eapply lookup_lt_Some).
  f_equiv. split; intros (j & q & Hne & Hj & Hf); exists j, q; (split; [done|]).
  - by rewrite list_lookup_insert_ne in Hj.
  - by rewrite list_lookup_insert_ne.
Qed.
Lemma some_spawn f l p : f p = false -> some f (l ++ [p]) <-> some f l.
Proof.
  intros Hp. rewrite <- !some_existsb, existsb_app. cbn. by rewrite Hp, !orb_false_r.
Qed.

(** The invariant seen from one thread. *)
Lemma lock_inv_from s l p (st nl nu rp st' nl' nu' rp' : Prop) :
  (st' <-> stale p = true \/ st) -> (nl' <-> noting_lock p = true \/ nl) ->
  (nu' <-> noting_unlock p = true \/ nu) -> (rp' <-> reporting p = true \/ rp) ->
  lock_inv s l finished st' nl' nu' rp' <-> lock_inv s l p st nl nu rp.
Proof.
  intros E1 E2 E3 E4. split; intros [H1 H2 H3 H4]; split; cbn in *; rewrite ?E1, ?E2, ?E3, ?E4 in *;
    [naive_solver| naive_solver | | naive_solver | naive_solver | naive_solver | |naive_solver].
  - intros Hr. destruct (H3 Hr) as [_ Hn]. destruct (stale p); tauto.
  - intros Hr. destruct (H3 Hr) as [Hs Hn]. rewrite Hs. split; [done|]. by intros [|].
Qed.

Lemma noting_unlock_stale p : noting_unlock p = true -> stale p = true.
Proof. by destruct p; try done; destruct want. Qed.

Lemma calm_step c i p :
  threads c !! i = Some p -> calm c (go i) = true ->
  match p with
  | reports BspEvent.PowerOn => stale p = false /\ ~ other i stale (threads c)
  | forced_signals _ | signals false _ => ~ other i noting_lock (threads c)
  | _ => True
  end.
Proof.
  intros Hp. cbn. rewrite Hp.
  assert (forall f, existsb f (threads c) = false -> ~ other i f (threads c)) as Hn.
  { intros f Hf Ho. apply not_true_iff_false in Hf. apply Hf, some_existsb, (some_split _ _ _ _ Hp). by right. }
  destruct p; try done; [destruct e; try done|..|destruct want; try done]; intros Hc%negb_true_iff; auto.
Qed.

Lemma take_turn_inv c t : calm c t = true -> pool_inv c -> pool_inv (take_turn c t).
Proof.
  intros Hc Hinv. destruct t as [op|i].
  { destruct Hinv as [H1 H2 H3 H4]. unfold connector_is_locked in *.
    split; cbn [take_turn shared put_out threads]; unfold connector_is_locked in *; cbn [put_out];
      rewrite !some_spawn by done; done. }
  cbn [take_turn]. destruct (threads c !! i) as [p|] eqn:Hp; [|done].
  destruct (thread_step p (shared c) (held c)) as [[[[s h] o] p']|] eqn:Hs; [|done].
  unfold pool_inv in *. cbn [shared threads]. unfold connector_is_locked in *. cbn [put_out].
  rewrite lock_after_app.
  eapply (lock_inv_from _ _ p'); [by eapply some_insert..|].
  eapply thread_step_inv; [exact Hs| |by eapply calm_step|].
  - intros (j & q & Hne & Hj & Hq). exists j, q. split; [done|]. split; [done|]. by apply noting_unlock_stale.
  - eapply lock_inv_from; [by eapply some_split..|]. exact Hinv.
Qed.

Lemma new_pool_inv b : pool_inv (new_pool b).
Proof. split; try done. by intros [?|(j & q & H & _)]. Qed.

Lemma interleave_inv l c : undisturbed l c = true -> pool_inv c -> pool_inv (interleave l c).
Proof.
  revert c. induction l as [|t l IH]; intros c; [done|]. cbn. intros [Hc Hl]%andb_true_iff Hinv.
  apply IH; [done|]. by apply take_turn_inv.
Qed.

(** *** Operations one after the other *)

Lemma alone_interleaves p s h o p' s' h' :
  alone p s h o p' s' h' ->
  forall out ts, Forall (eq finished) ts ->
  exists n, let c := mkPool s h out (ts ++ [p]) in
    undisturbed (repeat (go (length ts)) n) c = true /\
    interleave (repeat (go (length ts)) n) c = mkPool s' h' (out ++ o) (ts ++ [p']).
Proof.
  induction 1 as [p s h|p s h s1 h1 o1 p1 o p' s' h' Hstep _ IH]; intros out ts Hts.
  { exists 0%nat. by rewrite app_nil_r. }
  destruct (IH (out ++ o1) ts Hts) as (n & Hu & Hi). exists (S n).
  assert ((ts ++ [p]) !! length ts = Some p) as Hp by (by apply list_lookup_middle).
  assert (take_turn (mkPool s h out (ts ++ [p])) (go (length ts)) = mkPool s1 h1 (out ++ o1) (ts ++ [p1])) as E.
  { cbn [take_turn threads shared held put_out]. rewrite Hp, Hstep. f_equal.
    rewrite insert_app_r_alt by done. by rewrite Nat.sub_diag. }
  cbn [repeat undisturbed interleave fold_left]. unfold interleave in *. rewrite E, Hu, andb_true_r, Hi.
  split; [|by rewrite app_assoc].
  assert (forall f : point -> bool, f finished = false -> f p = false -> existsb f (ts ++ [p]) = false) as Hn.
  { intros f Hf Hfp. rewrite existsb_app. cbn. rewrite Hfp, !orb_false_r.
    apply not_true_iff_false. rewrite some_existsb. intros (j & q & Hj & Hq).
    eapply Forall_lookup_1 in Hts; [|exact Hj]. congruence. }
  cbn [calm threads]. rewrite Hp. destruct p; try done; [destruct e; try done|..|destruct want; try done];
    by rewrite Hn.
Qed.

Lemma undisturbed_app l l' c :
  undisturbed (l ++ l') c = undisturbed l c && undisturbed l' (interleave l c).
Proof. revert c. induction l as [|t l IH]; intros c; [done|]. cbn. by rewrite IH, andb_assoc. Qed.

Lemma run_iec_interleaves ops s out ts :
  Forall (eq finished) ts ->
  exists l, let c := mkPool s false out ts in
    undisturbed l c = true /\
    interleave l c = mkPool (run_iec ops s).1 false (out ++ (run_iec ops s).2)
                       (ts ++ replicate (length ops) finished).
Proof.
  revert s out ts. induction ops as [|op ops IH]; intros s out ts Hts.
  { exists []. by rewrite !app_nil_r. }
  destruct (alone_interleaves _ _ _ _ _ _ _ (alone_operation op s) out ts Hts) as (n & Hu & Hi).
  destruct (IH (run_state (iec_op_action op) s) (out ++ run_out (iec_op_action op) s) (ts ++ [finished]))
    as (l & Hu' & Hi'); [by apply Forall_app_2, Forall_singleton|].
  exists (spawn op :: repeat (go (length ts)) n ++ l). cbn zeta in *.
  cbn [undisturbed calm take_turn andb shared held put_out threads].
  unfold interleave in *. cbn [fold_left take_turn shared held put_out threads].
  rewrite undisturbed_app, fold_left_app. unfold interleave. rewrite Hu, Hi, Hu', Hi'. split; [done|].
  cbn [run_iec length replicate]. destruct (run_iec ops _) as [s2 o2]. cbn. by rewrite <- !app_assoc.
Qed.
