(* ===== verification/IECProperties.v ===== *)
(** * Properties of the IEC state machine *)
From S2P Require Import Prelude IECStateMachine IECProofs.
From stdpp Require Import base tactics list numbers strings.
From Stdlib Require Import QArith.
Open Scope Z_scope.
Open Scope everest_scope.

(** C10: whatever the board support package reports and the charger asks for,
    in any order, the contactors are permitted to close only while the
    charger allows power and the last processed CP state is C or D. *)
Theorem contactors_only_with_permission lock_in_b ops :
  let '(s, os) := run_iec ops (new_IECStateMachine lock_in_b) in
  permission false os = true ->
  power_on_allowed s = true /\ power_state (last_cp_state s) = true.
Proof.
  pose proof (run_iec_safe ops _ _ _ (new_iec_safe lock_in_b)) as H.
  destruct (run_iec ops _) as [s os]. apply H.
Qed.

(** Between whole operations, the connector is locked while the board support
    package reports closed contactors, also after a forced unlock. *)
Lemma connector_locked_between_operations lock_in_b ops :
  let '(s, os) := run_iec ops (new_IECStateMachine lock_in_b) in
  relais_on s = true -> lock_after false os = true.
Proof.
  pose proof (run_iec_safe ops _ _ _ (new_iec_safe lock_in_b)) as H.
  destruct (run_iec ops _) as [s os]. apply H.
Qed.

(** ** Threads *)

Import LockThreads.

(** C11: in every interleaving of the threads in which no decision about the lock is
    crossed, the connector is locked while the board support package reports
    closed contactors, also when a forced unlock runs, except while the report
    itself has not finished its check of the lock.  A decision is crossed when
    closed contactors are reported while a thread that found them open has not
    finished with the lock, or when the unlock is signalled while a thread that
    signalled the lock has not noted it ([calm]). *)
Theorem connector_locked_under_load lock_in_b l :
  undisturbed l (new_pool lock_in_b) = true ->
  let c := interleave l (new_pool lock_in_b) in
  relais_on (shared c) = true ->
  connector_is_locked c = true \/ existsb reporting (threads c) = true.
Proof.
  intros Hl c Hr. pose proof (interleave_inv l _ Hl (new_pool_inv lock_in_b)) as [_ _ _ Hload].
  destruct (Hload Hr) as [H|[H|H]]; [by left|done|right]. by apply some_existsb.
Qed.


(** A charging session: contactors close and power is permitted. *)
Definition charging_ops : list iec_op :=
  [op_enable true; op_bsp_event BspEvent.A; op_feed 0; op_bsp_event BspEvent.B; op_feed 10;
   op_set_pwm (1 # 4); op_feed 20; op_allow_power_on true Reason.FullPowerCharging; op_feed 30;
   op_bsp_event BspEvent.C; op_feed 40; op_bsp_event BspEvent.PowerOn].

Lemma contactors_only_with_permission_witness :
  permission false (run_iec charging_ops (new_IECStateMachine true)).2 = true
  /\ power_on_allowed (run_iec charging_ops (new_IECStateMachine true)).1 = true.
Proof.
  split; [vm_compute; reflexivity|].
  pose proof (contactors_only_with_permission true charging_ops) as H.
  destruct (run_iec charging_ops (new_IECStateMachine true)) as [s os] eqn:E.
  apply H. assert (os = (run_iec charging_ops (new_IECStateMachine true)).2) as ->
    by (rewrite E; reflexivity). vm_compute. reflexivity.
Defined.

(** The operations one after the other, as threads from the [i]-th on. *)
Fixpoint in_turn (i : nat) (ops : list iec_op) : list turn :=
  match ops with
  | [] => []
  | op :: ops' => (spawn op :: repeat (go i) 14) ++ in_turn (S i) ops'
  end.

(** A forced unlock that overlaps the report of closed contactors, but looks at the
    contactors after it. *)
Definition late_force : list turn :=
  in_turn 0 (take 11 charging_ops) ++ [spawn op_force_unlock; go 11] ++ in_turn 12 [op_bsp_event BspEvent.PowerOn]
  ++ repeat (go 11) 14.

Lemma connector_locked_under_load_witness :
  let c := interleave late_force (new_pool true) in
  relais_on (shared c) = true /\ (connector_is_locked c = true \/ existsb reporting (threads c) = true).
Proof.
  intros c. split; [vm_compute; reflexivity|].
  apply (connector_locked_under_load true late_force); vm_compute; reflexivity.
Defined.

(** A forced unlock in state D that looks at the contactors before they are reported
    closed, and unlocks after: every thread has finished, the contactors are closed
    and the connector is unlocked. *)
Definition crossed_force : list turn :=
  in_turn 0 [op_enable true; op_setup true; op_bsp_event BspEvent.B; op_feed 10; op_set_pwm (1 # 4);
             op_allow_power_on true Reason.FullPowerCharging; op_bsp_event BspEvent.D; op_feed 40]
  ++ [spawn op_force_unlock; go 8; go 8] ++ in_turn 9 [op_bsp_event BspEvent.PowerOn] ++ repeat (go 8) 14.
Example unlocked_under_load :
  let c := interleave crossed_force (new_pool true) in
  undisturbed crossed_force (new_pool true) = false /\
  forallb (fun p => match p with finished => true | _ => false end) (threads c) = true /\
  relais_on (shared c) = true /\ permission false (put_out c) = true /\ connector_is_locked c = false.
Proof. vm_compute. done. Qed.

(** ** One run of the state machine *)

Lemma permission_events p es : permission p (map signal_event es) = p.
Proof. by induction es. Qed.
Lemma lock_events l es : lock_after l (map signal_event es) = l.
Proof. by induction es. Qed.

(** [feed] runs the locked section, sets the timers and signals the events. *)
Lemma feed_run now s :
  feed_state_machine_no_thread now s =
  match state_machine_locked now s with
  | (Ok (t, c), s1, o) =>
      (Ok tt,
       set_timeout_unlock_state_F
         (control_timer now unlock_in_state_f_timeout c (timeout_unlock_state_F s1))
         (set_timeout_state_c1
            (control_timer now power_off_under_load_in_c1_timeout (timer_state_C1 t)
               (timeout_state_c1 s1)) s1),
       o ++ map signal_event (events t))
  | (Err e, s1, o) => (Err e, s1, o)
  end.
Proof.
  unfold feed_state_machine_no_thread, state_machine, ebind at 1 2.
  destruct (state_machine_locked now s) as [[[[t c]|e] s1] o]; [|done]. simpl.
  rewrite emit_events_run. by rewrite app_nil_r.
Qed.

(** The outputs of the lock check do not concern the permission. *)
Lemma permission_lock p (b want : bool) os :
  permission p (os ++ (if b then [] else [if want then signal_lock else signal_unlock]))
  = permission p os.
Proof. rewrite permission_app. by destruct b, want. Qed.

Lemma no_ventilation_off now s p :
  cp_state s = RawCPState.D -> has_ventilation s = false ->
  permission p (run_out (feed_state_machine_no_thread now) s) = false.
Proof.
  intros Hc Hv. unfold run_out. rewrite feed_run. unfold state_machine_locked, ebind at 1, switch_cp_state.
  rewrite run_get_bind, Hc. unfold ebind at 1, case_D. unfold connector_lock, put.
  rewrite ebind_modify, run_get_bind. simpl. rewrite Hv. simpl.
  unfold ebind. simpl. rewrite check_lock_run. simpl.
  by repeat case_match.
Qed.

(** A CP state that does not ask for power takes the permission away in
    the next run of the state machine, as does state D without ventilation,
    and the run leaves nothing to catch up with. *)
Theorem feed_follows_cp_state now s p l :
  safe s p l ->
  let s' := run_state (feed_state_machine_no_thread now) s in
  let p' := permission p (run_out (feed_state_machine_no_thread now) s) in
  run_val (feed_state_machine_no_thread now) s = Ok tt
  /\ last_cp_state s' = cp_state s /\ last_pwm_running s' = pwm_running s'
  /\ last_power_on_allowed s' = power_on_allowed s'
  /\ (p' = true -> power_on_allowed s' = true
        /\ (cp_state s = RawCPState.C
            \/ cp_state s = RawCPState.D /\ has_ventilation s = true)).
Proof.
  intros Hs s' p'.
  destruct (locked_section_caught_up now s s p l (conj eq_refl Hs)) as ([t c] & Hv & Hcu).
  pose proof (no_ventilation_off now s p) as Hd. fold p' in Hd.
  unfold p', s', run_val, run_state, run_out in *. rewrite feed_run in *.
  destruct (state_machine_locked now s) as [[r s1] o]. simpl in *. subst r. simpl.
  destruct Hcu as ([Hp _ _] & H1 & H2 & H3 & H4). simpl. split_and!; try done.
  intros Hp'. rewrite permission_app, permission_events in Hp'.
  destruct (Hp Hp') as [Ha Hc]. split; [done|]. rewrite H2 in Hc.
  destruct (cp_state s) eqn:E; try done; [by left|right]. split; [done|].
  destruct (has_ventilation s) eqn:Ev; [done|]. simpl in Hd.
  rewrite permission_app, permission_events, Hp' in Hd. by destruct (Hd eq_refl eq_refl).
Qed.

Lemma feed_follows_cp_state_witness :
  let s := run_state (on_bsp_event BspEvent.B)
             (run_iec charging_ops (new_IECStateMachine true)).1 in
  last_cp_state (run_state (feed_state_machine_no_thread 50) s) = RawCPState.B
  /\ permission true (run_out (feed_state_machine_no_thread 50) s) = false.
Proof.
  intros s. split; [|vm_compute; reflexivity].
  assert (safe s true true) as Hs.
  { split; vm_compute; auto. }
  destruct (feed_follows_cp_state 50 s true true Hs) as (_ & H & _). exact H.
Defined.

(** ** State C without PWM *)

(** Within state C, the PWM fields stay as they were. *)
Definition same_pwm (s0 s : iec_state) : Prop :=
  pwm_running s = pwm_running s0 /\ last_pwm_running s = last_pwm_running s0.

Lemma same_pwm_power s0 b : ih (fun s _ _ => same_pwm s0 s) (call_allow_power_on_bsp b)
  (fun _ s _ _ => same_pwm s0 s).
Proof. intros s p l H. exists tt. by destruct b. Qed.

Lemma any_power b : ih (fun _ _ _ => True) (call_allow_power_on_bsp b) (fun _ _ _ _ => True).
Proof. intros s p l H. exists tt. by destruct b. Qed.

Lemma skip_if P (b : bool) (m : IEC unit) :
  ih P m (fun _ => P) -> ih P (if b then m else eret tt) (fun _ => P).
Proof. intros H. apply ih_if; intros _; [done|by apply ih_ret]. Qed.

(** Once the C1 timer is reached, power is off whatever the PWM does. *)
Lemma case_C_timeout now s0 :
  AsyncTimeout.reached now (timeout_state_c1 s0) = true ->
  ih (fun s _ _ => timeout_state_c1 s = timeout_state_c1 s0) (case_C now)
    (fun _ s p _ => p = false /\ power_on_allowed s = false).
Proof.
  intros Hr. unfold case_C. eapply ih_seq with (R := fun s _ _ =>
    timeout_state_c1 s = timeout_state_c1 s0); [by apply ih_put|].
  apply ih_get_bind. intros s.
  eapply ih_seq with (R := fun _ _ _ => timeout_state_c1 s = timeout_state_c1 s0).
  { apply ih_if; intros _; [eapply ih_seq with (R := fun _ _ _ =>
      timeout_state_c1 s = timeout_state_c1 s0); apply ih_put|apply ih_ret]; try done;
      by intros s' p l [-> H]. }
  eapply ih_seq with (R := fun _ _ _ => timeout_state_c1 s = timeout_state_c1 s0).
  { apply skip_if. intros s' p l H. by exists tt. }
  eapply ih_seq with (R := fun s' p _ => p = false /\ power_on_allowed s' = false).
  { intros s' p l ->. rewrite Hr. by exists tt. }
  apply ih_get_bind. intros s'. eapply ih_seq with (R := fun s' p _ =>
    p = false /\ power_on_allowed s' = false); [|by apply ih_ret].
  apply ih_if; intros Hb; [|by apply ih_ret; intros s1 p l [_ H]].
  intros s1 p l [-> [_ Ha]]. rewrite Ha in Hb. by rewrite andb_false_r in Hb.
Qed.

(** The end of the locked section keeps permission and allowance. *)
Lemma check_keeps_power (Q : bool -> bool -> Prop) :
  ih (fun s p _ => Q p (power_on_allowed s)) check_connector_lock
    (fun _ s p _ => Q p (power_on_allowed s)).
Proof.
  intros s p l H. exists tt. unfold run_val, run_state, run_out. rewrite check_lock_run.
  split; [done|]. simpl.
  by destruct (relais_on s || (should_be_locked s && negb (force_unlocked s))), (is_locked s).
Qed.

Lemma feed_state_C_timeout now s p :
  cp_state s = RawCPState.C -> AsyncTimeout.reached now (timeout_state_c1 s) = true ->
  permission p (run_out (feed_state_machine_no_thread now) s) = false
  /\ power_on_allowed (run_state (feed_state_machine_no_thread now) s) = false.
Proof.
  intros Hc Hr. unfold run_out, run_state. rewrite feed_run.
  assert (ih (fun s' _ _ => s' = s) (state_machine_locked now)
    (fun _ s p _ => p = false /\ power_on_allowed s = false)) as Hm.
  { unfold state_machine_locked.
    eapply ih_bind with (R := fun _ s p _ => p = false /\ power_on_allowed s = false).
    { unfold switch_cp_state. apply ih_get_bind. intros s1. apply ih_fix. intros s' p' l' [-> ->]. rewrite Hc.
      eapply ih_bind with (R := fun _ s p _ => p = false /\ power_on_allowed s = false);
        [|intros; by apply ih_ret].
      eapply ih_weaken; [by apply (case_C_timeout now s)|by intros ??? ->|done]. }
    intros r. eapply ih_seq; [apply (check_keeps_power (fun p a => p = false /\ a = false))|].
    eapply ih_seq with (R := fun s p _ => p = false /\ power_on_allowed s = false);
      [by apply ih_remember|]. by apply ih_ret. }
  destruct (Hm s p false eq_refl) as ([t c] & Hv & H1 & H2).
  unfold run_val, run_state, run_out in *.
  destruct (state_machine_locked now s) as [[r s1] o]. simpl in *. subst r. simpl.
  by rewrite permission_app, permission_events.
Qed.

(** Stopping the PWM in state C starts the timer. *)
Lemma feed_starts_c1_timer now s :
  cp_state s = RawCPState.C -> pwm_running s = false -> last_pwm_running s = true ->
  timeout_state_c1 (run_state (feed_state_machine_no_thread now) s)
  = AsyncTimeout.start now power_off_under_load_in_c1_timeout.
Proof.
  intros Hc Hp Hl. unfold run_state. rewrite feed_run.
  assert (ih (fun s' _ _ => s' = s) (state_machine_locked now)
    (fun r _ _ _ => timer_state_C1 r.1 = TimerControl.start)) as Hm.
  { unfold state_machine_locked.
    eapply ih_bind with (R := fun r _ _ _ => timer_state_C1 r.1 = TimerControl.start).
    { unfold switch_cp_state. apply ih_get_bind. intros s1. apply ih_fix. intros s' p' l' [-> ->]. rewrite Hc.
      eapply ih_bind with (R := fun r _ _ _ => timer_state_C1 r = TimerControl.start);
        [|intros; by apply ih_ret].
      unfold case_C. eapply ih_seq with (R := fun s' _ _ => same_pwm s s');
        [apply ih_put; by intros ??? ->|].
      apply ih_get_bind. intros s2. apply ih_fix. intros s3 p l [-> [H1 H2]].
      rewrite H1, H2, Hp, Hl. simpl.
      eapply ih_seq with (R := fun _ _ _ => True).
      { apply ih_if; intros _; [|by apply ih_ret].
        eapply ih_seq with (R := fun _ _ _ => True); by apply ih_put. }
      eapply ih_seq with (R := fun _ _ _ => True); [by apply ih_ret|].
      eapply ih_seq with (R := fun _ _ _ => True);
        [apply ih_if; intros _; [apply any_power|by apply ih_ret]|].
      apply ih_get_bind. intros s4. eapply ih_seq with (R := fun _ _ _ => True);
        [|by apply ih_ret].
      apply ih_if; intros _; [|by apply ih_ret]. intros ? ? ? ?. by exists tt. }
    intros r. eapply ih_seq with (R := fun _ _ _ => timer_state_C1 r.1 = TimerControl.start).
    { intros ??? H. exists tt. unfold run_val. by rewrite check_lock_run. }
    eapply ih_seq with (R := fun _ _ _ => timer_state_C1 r.1 = TimerControl.start);
      [by apply ih_remember|]. by apply ih_ret. }
  destruct (Hm s false false eq_refl) as ([t c] & Hv & H1).
  unfold run_val in *. destruct (state_machine_locked now s) as [[r s1] o]. simpl in *. subst r.
  simpl in *. by rewrite H1.
Qed.

(** When the PWM stops while the EV stays in state C, power is off at
    the first run of the state machine later than six seconds after, unless
    the timer was stopped meanwhile, and stays off even when that run sees
    the PWM switched on again. *)
Theorem c1_power_off_in_time t0 t1 s s2 p :
  cp_state s = RawCPState.C -> pwm_running s = false -> last_pwm_running s = true ->
  cp_state s2 = RawCPState.C ->
  timeout_state_c1 s2 = timeout_state_c1 (run_state (feed_state_machine_no_thread t0) s) ->
  t0 + 6000 < t1 ->
  permission p (run_out (feed_state_machine_no_thread t1) s2) = false
  /\ power_on_allowed (run_state (feed_state_machine_no_thread t1) s2) = false.
Proof.
  intros Hc Hp Hl Hc2 Ht Htime. apply feed_state_C_timeout; [done|].
  rewrite Ht, feed_starts_c1_timer by done. unfold AsyncTimeout.reached. simpl.
  apply Z.ltb_lt. unfold power_off_under_load_in_c1_timeout. lia.
Qed.

Lemma c1_power_off_in_time_witness :
  let s := run_state set_pwm_off (run_iec charging_ops (new_IECStateMachine true)).1 in
  let s1 := run_state (feed_state_machine_no_thread 100) s in
  (* the PWM is switched on again, with power allowed *)
  let s2 := run_state (allow_power_on true Reason.FullPowerCharging)
              (run_state (set_pwm (1 # 4)) s1) in
  power_on_allowed s2 = true
  /\ permission true (run_out (feed_state_machine_no_thread 6101) s2) = false.
Proof.
  intros s s1 s2. split; [vm_compute; reflexivity|].
  apply (c1_power_off_in_time 100 6101 s s2 true); vm_compute; reflexivity.
Defined.

(** ** Quiet runs *)

Lemma quiet_C now s0 cp :
  power_state cp = true -> last_cp_state s0 = cp -> last_pwm_running s0 = pwm_running s0 ->
  ih (fun s _ _ => same_pwm s0 s /\ last_cp_state s = cp) (case_C now)
    (fun t _ _ _ => events t = []).
Proof.
  intros Hcp Hl Hp. unfold case_C.
  eapply ih_seq with (R := fun s _ _ => same_pwm s0 s /\ last_cp_state s = cp); [by apply ih_put|].
  apply ih_get_bind. intros s.
  eapply ih_seq with (R := fun s' _ _ => same_pwm s0 s' /\ last_cp_state s = cp).
  { apply ih_if; intros _; [eapply ih_seq with (R := fun s' _ _ => same_pwm s0 s'
      /\ last_cp_state s = cp); apply ih_put|apply ih_ret]; try done;
      by intros s' p l [-> [H H']]. }
  do 2 (eapply ih_seq with (R := fun s' _ _ => same_pwm s0 s' /\ last_cp_state s = cp);
    [apply skip_if; intros s' p l H; by exists tt|]).
  apply ih_get_bind. intros s'.
  eapply ih_seq with (R := fun _ _ _ => same_pwm s0 s' /\ last_cp_state s = cp).
  { apply ih_if; intros _; [intros s1 p l [-> H]; by exists tt|].
    apply ih_ret. by intros s1 p l [-> H]. }
  apply ih_ret. intros _ _ _ [[H1 H2] Hlast]. simpl. unfold plug_in_seen, came_from.
  rewrite Hlast, H1, H2, Hp. by destruct cp, (pwm_running s0), (car_plugged_in s).
Qed.

(** The other cases read everything before they change anything. *)
Lemma quiet_other now s (m : IEC todo) :
  last_cp_state s = cp_state s ->
  match cp_state s with
  | RawCPState.Disabled => m = case_Disabled
  | RawCPState.A => m = case_A
  | RawCPState.B => m = case_B
  | RawCPState.E => m = case_E
  | RawCPState.F => m = (let* r := case_F now in eret r.1)
  | _ => False
  end ->
  exists t, run_val m s = Ok t /\ events t = [].
Proof.
  intros Hl. destruct (cp_state s); try done; intros ->; unfold run_val;
    unfold case_Disabled, case_A, case_B, case_E, case_F, connector_unlock, put;
    rewrite ?ebind_modify.
  - rewrite run_get_bind. unfold came_from. rewrite Hl. by eexists.
  - rewrite run_get_bind. unfold came_from. rewrite Hl. by eexists.
  - rewrite run_get_bind. unfold plug_in_seen, came_from. rewrite Hl.
    destruct (lock_connector_in_state_b s), (car_plugged_in s); by eexists.
  - unfold ebind at 1. rewrite ebind_modify. simpl. rewrite run_get_bind. unfold came_from.
    simpl. rewrite Hl. by eexists.
  - unfold ebind at 1. rewrite run_get_bind. unfold came_from. rewrite Hl. simpl.
    destruct (AsyncTimeout.reached _ _); by eexists.
Qed.

Lemma val_then_pair {A B} (m : IEC A) (x : B) s t :
  run_val m s = Ok t -> run_val (let* t := m in eret (t, x)) s = Ok (t, x).
Proof. unfold run_val, ebind. destruct (m s) as [[r s1] o]. simpl. by intros ->. Qed.

Lemma val_fst {A B} (m : IEC (A * B)) s t :
  run_val (let* r := m in eret r.1) s = Ok t -> exists c, run_val m s = Ok (t, c).
Proof.
  unfold run_val, ebind. destruct (m s) as [[[[a b]|e] s1] o]; simpl; [|done].
  intros [= <-]. by exists b.
Qed.

(** No case has an event to report when the last run saw the same. *)
Lemma quiet_case now s :
  last_cp_state s = cp_state s -> last_pwm_running s = pwm_running s ->
  exists t, events t = [] /\
  match cp_state s with
  | RawCPState.Disabled => run_val case_Disabled s = Ok t
  | RawCPState.A => run_val case_A s = Ok t
  | RawCPState.B => run_val case_B s = Ok t
  | RawCPState.C => run_val (case_C now) s = Ok t
  | RawCPState.D => run_val (case_D now) s = Ok t
  | RawCPState.E => run_val case_E s = Ok t
  | RawCPState.F => exists c, run_val (case_F now) s = Ok (t, c)
  end.
Proof.
  intros Hl Hp. pose proof (fun m => quiet_other now s m Hl) as Hq.
  destruct (cp_state s) eqn:Hc.
  - destruct (Hq _ eq_refl) as (t & ? & ?). eauto.
  - destruct (Hq _ eq_refl) as (t & ? & ?). eauto.
  - destruct (Hq _ eq_refl) as (t & ? & ?). eauto.
  - destruct (quiet_C now s RawCPState.C eq_refl Hl Hp s false false) as (t & ? & ?); eauto.
    by split.
  - destruct (has_ventilation s) eqn:Hv.
    + destruct (quiet_C now (set_should_be_locked true s) RawCPState.D eq_refl Hl Hp
        (set_should_be_locked true s) false false) as (t & Ht & ?); [by split|].
      exists t. split; [done|]. revert Ht. unfold run_val, case_D, connector_lock, put.
      rewrite ebind_modify, run_get_bind. simpl. by rewrite Hv.
    + exists (mkTodo [] TimerControl.stop). split; [done|].
      unfold run_val, case_D, connector_lock, put.
      rewrite ebind_modify, run_get_bind. simpl. by rewrite Hv.
  - destruct (Hq _ eq_refl) as (t & ? & ?). eauto.
  - destruct (Hq _ eq_refl) as (t & Ht%val_fst & ?). eauto.
Qed.

Lemma quiet_locked now s :
  last_cp_state s = cp_state s -> last_pwm_running s = pwm_running s ->
  ih (fun s' _ _ => s' = s) (state_machine_locked now) (fun r _ _ _ => events r.1 = []).
Proof.
  intros Hl Hp. unfold state_machine_locked.
  eapply ih_bind with (R := fun r _ _ _ => events r.1 = []).
  { unfold switch_cp_state. apply ih_get_bind. intros s1. apply ih_fix. intros s' p0 l0 [-> ->]. set (lf := if _ && _ then _ else _).
    destruct (quiet_case now s Hl Hp) as (t & He & Ht). intros ? p l ->.
    destruct (cp_state s); try (exists (t, lf); split; [by apply val_then_pair|done]).
    destruct Ht as [c Ht]. by exists (t, c). }
  intros r. eapply ih_seq with (R := fun _ _ _ => events r.1 = []).
  { intros ??? H. exists tt. unfold run_val. by rewrite check_lock_run. }
  eapply ih_seq with (R := fun _ _ _ => events r.1 = []); [by apply ih_remember|].
  by apply ih_ret.
Qed.

(** A run of the state machine reports each change once.  When nothing
    changed since the last run, the next one has no event for the charger. *)
Theorem state_machine_reports_once now now' s p l :
  safe s p l ->
  let s1 := run_state (feed_state_machine_no_thread now) s in
  run_val (state_machine now') s1 = Ok [].
Proof.
  intros Hs s1.
  destruct (locked_section_caught_up now s s p l (conj eq_refl Hs)) as ([t c] & Hv & Hcu).
  assert (last_cp_state s1 = cp_state s1 /\ last_pwm_running s1 = pwm_running s1) as [H1 H2].
  { unfold s1, run_val, run_state in *. rewrite feed_run.
    destruct (state_machine_locked now s) as [[r s2] o]. simpl in *. subst r. simpl.
    destruct Hcu as (_ & Ha & Hb & Hc & _). split; congruence. }
  destruct (quiet_locked now' s1 H1 H2 s1 false false eq_refl) as ([t' c'] & Hr & He).
  unfold run_val in *. unfold state_machine, ebind at 1.
  destruct (state_machine_locked now' s1) as [[r s2] o]. simpl in *. subst r. simpl. by rewrite He.
Qed.

Lemma state_machine_reports_once_witness :
  let s := run_state (on_bsp_event BspEvent.A)
             (run_iec charging_ops (new_IECStateMachine true)).1 in
  run_val (state_machine 50) s = Ok [CPEvent.CarUnplugged]
  /\ run_val (state_machine 60) (run_state (feed_state_machine_no_thread 50) s) = Ok [].
Proof.
  intros s. split; [vm_compute; reflexivity|].
  apply (state_machine_reports_once 50 60 s true true). split; vm_compute; auto.
Defined.
