(* ===== verification/Bytes.v ===== *)
(** * Bytes and big-endian integers

    The byte vectors of the Huawei power supply driver
    ([HardwareDrivers/PowerSupplies/Huawei_V100R023C10/fusion_charger_lib]):
    the big-endian encodings shared by GOOSE and Modbus, and a result type
    for parsers that throw. *)
From S2P Require Import Prelude.
From stdpp Require Import base tactics list numbers strings.
Open Scope Z_scope.
Open Scope everest_scope.

(** A parser throws [std::runtime_error] or a class derived from it, or reads
    outside of its buffer. *)
Inductive codec_error : Type :=
| runtime_error (what : string)
| out_of_bounds.

Definition codec (A : Type) : Type := result codec_error A.

Definition rbind {E A B} (m : result E A) (f : A -> result E B) : result E B :=
  match m with Ok a => f a | Err e => Err e end.
Notation "'letr' x := m 'in' k" := (rbind m (fun x => k))
  (at level 10, x pattern, m at level 100, k at level 200) : everest_scope.

(** Throw unless the condition holds. *)
Definition require (b : bool) (what : string) : codec unit :=
  if b then Ok tt else Err (runtime_error what).

Definition is_byte (b : Z) : Prop := 0 <= b < 256.
Abbreviation bytes_ok := (Forall is_byte).

(** ** Big-endian integers *)

(** [encode_be]: the [n] bytes of a value, most significant first. *)
Fixpoint encode_be (n : nat) (v : Z) : list Z :=
  match n with
  | O => []
  | S n' => Z.land (Z.shiftr v (8 * Z.of_nat n')) 255 :: encode_be n' v
  end.

(** The loop [result = (result << 8) | b] in a [w]-bit type. *)
Definition shift_in (w : Z) (acc b : Z) : Z := wrap w (Z.lor (Z.shiftl acc 8) b).

(** [decode_be] into a type of [n] bytes: at most [n] bytes are read. *)
Definition decode_be (n : nat) (input : list Z) : Z :=
  foldl (shift_in (8 * Z.of_nat n)) 0 (take n input).

(** *** Lemmas *)

Lemma byte_and z : Z.land z 255 = z mod 256.
Proof. exact (Z.land_ones z 8 ltac:(lia)). Qed.

Lemma byte_log2 b : 0 <= b < 256 -> Z.log2 b < 8.
Proof.
  intros Hb. destruct (Z.eq_dec b 0) as [->|]; [done|]. apply Z.log2_lt_pow2; lia.
Qed.

Lemma shifted_byte_disjoint acc b : 0 <= b < 256 -> Z.land (acc * 2 ^ 8) b = 0.
Proof.
  intros Hb. apply Z.bits_inj'. intros i Hi. rewrite Z.land_spec, Z.bits_0.
  destruct (Z.ltb_spec i 8).
  - by rewrite Z.mul_pow2_bits_low by lia.
  - pose proof (byte_log2 b Hb). rewrite (Z.bits_above_log2 b i), andb_false_r by lia. done.
Qed.

Lemma lor_byte acc b : 0 <= b < 256 -> Z.lor (Z.shiftl acc 8) b = acc * 256 + b.
Proof.
  intros Hb. rewrite Z.shiftl_mul_pow2 by lia. pose proof (shifted_byte_disjoint acc b Hb) as Hd.
  rewrite <- Z.lxor_lor, <- Z.add_nocarry_lxor by done. lia.
Qed.

Lemma encode_be_length n v : length (encode_be n v) = n.
Proof. induction n; simpl; congruence. Qed.

Lemma encode_be_bytes n v : bytes_ok (encode_be n v).
Proof.
  induction n; simpl; constructor; [|done]. rewrite byte_and.
  unfold is_byte. apply Z.mod_pos_bound. lia.
Qed.

Lemma pow256 n : 2 ^ (8 * Z.of_nat n) = 256 ^ Z.of_nat n.
Proof. change 256 with (2 ^ 8). by rewrite <- Z.pow_mul_r by lia. Qed.

Lemma pow256_succ n : 256 ^ Z.of_nat (S n) = 256 ^ Z.of_nat n * 256.
Proof. rewrite Nat2Z.inj_succ, Z.pow_succ_r by lia. lia. Qed.

Lemma pow256_pos n : 0 < 256 ^ Z.of_nat n.
Proof. apply Z.pow_pos_nonneg; lia. Qed.

(** Only the value modulo [256 ^ n] is encoded. *)
Lemma encode_be_mod n a b :
  a mod 256 ^ Z.of_nat n = b mod 256 ^ Z.of_nat n -> encode_be n a = encode_be n b.
Proof.
  revert a b. induction n as [|n IH]; intros a b Hab; simpl; [done|].
  pose proof (pow256_pos n). rewrite pow256_succ, !Z.rem_mul_r in Hab by lia.
  pose proof (Z.mod_pos_bound a (256 ^ Z.of_nat n) ltac:(lia)).
  pose proof (Z.mod_pos_bound b (256 ^ Z.of_nat n) ltac:(lia)).
  assert (a mod 256 ^ Z.of_nat n = b mod 256 ^ Z.of_nat n
    /\ (a / 256 ^ Z.of_nat n) mod 256 = (b / 256 ^ Z.of_nat n) mod 256) as [Hlo Hhi].
  { apply and_comm, (Z.div_mod_unique (256 ^ Z.of_nat n)); [by left|by left|lia]. }
  rewrite !byte_and, !Z.shiftr_div_pow2, pow256 by lia. f_equal; [done|by apply IH].
Qed.

(** Reading back [n] bytes behind a prefix that was already read. *)
Lemma shift_in_encode n acc v w :
  0 <= v < 256 ^ Z.of_nat n -> 0 <= acc -> acc * 256 ^ Z.of_nat n + v < 2 ^ w -> 0 <= w ->
  foldl (shift_in w) acc (encode_be n v) = acc * 256 ^ Z.of_nat n + v.
Proof.
  revert acc v. induction n as [|n IH]; intros acc v Hv Hacc Hw Hw0; simpl.
  { change (256 ^ Z.of_nat 0) with 1 in *. lia. }
  rewrite byte_and, Z.shiftr_div_pow2, pow256 by lia.
  pose proof (pow256_succ n) as Hpow. pose proof (pow256_pos n) as Hpos.
  pose proof (Z.div_mod v (256 ^ Z.of_nat n) ltac:(lia)) as Hdiv.
  pose proof (Z.mod_pos_bound v (256 ^ Z.of_nat n) ltac:(lia)) as Hmod.
  set (q := v / 256 ^ Z.of_nat n) in *. set (r := v mod 256 ^ Z.of_nat n) in *.
  assert (0 <= q < 256) as Hq by (split; [apply Z.div_pos; lia|apply Z.div_lt_upper_bound; lia]).
  rewrite (Z.mod_small q 256) by lia.
  assert (shift_in w acc q = acc * 256 + q) as ->.
  { unfold shift_in. rewrite lor_byte by done. apply wrap_small. nia. }
  assert (encode_be n v = encode_be n r) as ->.
  { apply encode_be_mod. unfold r. by rewrite Z.mod_mod by lia. }
  rewrite IH by nia. nia.
Qed.

Lemma decode_encode_be n v :
  0 <= v < 256 ^ Z.of_nat n -> decode_be n (encode_be n v) = v.
Proof.
  intros Hv. unfold decode_be. rewrite take_ge by (rewrite encode_be_length; lia).
  rewrite shift_in_encode; rewrite ?pow256; lia.
Qed.

