(* ===== verification/Goose.v ===== *)
(** * GOOSE frames of the Huawei power supply driver

    [goose-lib/libs/goose/src/ber.cpp] and [frame.cpp] with their headers, and
    [goose-ethernet/src/frame.cpp]: BER entries, the GOOSE PDU, Ethernet
    frames, plain and secured GOOSE frames.  HMAC-SHA256 is OpenSSL's and a parameter;
    memory that the C++ code leaves uninitialized is a parameter as well. *)
From S2P Require Import Prelude Bytes.
From stdpp Require Import base tactics list numbers strings.
Open Scope Z_scope.
Open Scope everest_scope.

(** ** BER ([ber.cpp], [ber.hpp]) *)

Record BEREntry := mkBEREntry { tag : Z; ber_value : list Z }.

#[global] Instance BEREntry_eq_dec : EqDecision BEREntry.
Proof. solve_decision. Defined.

(** The decoding constructor: the entry and what is left of the input. *)
Definition BEREntry_decode (input : list Z) : codec (BEREntry * list Z) :=
  match input with
  | t :: l0 :: rest =>
      letr (len, rest) :=
        if negb (Z.land l0 128 =? 0) then
          let length_octets := Z.to_nat (Z.land l0 127) in
          if (length rest <? length_octets)%nat
          then Err (runtime_error "BEREntry: input too short, length octets missing")
          else Ok (foldl (shift_in 64) 0 (take length_octets rest), drop length_octets rest)
        else Ok (l0, rest) in
      if Z.of_nat (length rest) <? len
      then Err (runtime_error "BEREntry: input too short, payload missing")
      else Ok (mkBEREntry t (take (Z.to_nat len) rest), drop (Z.to_nat len) rest)
  | _ => Err (runtime_error "BEREntry: input has no tag or length")
  end.

(** The length octets: the masks look at 32 bits of the [size_t]. *)
Definition required_bytes (len : Z) : nat :=
  if negb (Z.land len (Z.shiftl 255 24) =? 0) then 4
  else if negb (Z.land len (Z.shiftl 255 16) =? 0) then 3
  else if negb (Z.land len (Z.shiftl 255 8) =? 0) then 2
  else 1.

Definition BEREntry_encode (e : BEREntry) : list Z :=
  let len := Z.of_nat (length (ber_value e)) in
  tag e ::
  (if len <=? 127 then [Z.land len 127]
   else Z.lor 128 (Z.of_nat (required_bytes len)) :: encode_be (required_bytes len) len)
  ++ ber_value e.

(** [BEREntry::add]. *)
Definition BEREntry_add (e entry : BEREntry) : BEREntry :=
  mkBEREntry (tag e) (ber_value e ++ BEREntry_encode entry).

Definition tag_matches (expected_tag : option Z) (e : BEREntry) : bool :=
  match expected_tag with Some t => tag e =? t | None => true end.

(** [PrimitiveBEREntry<T>] for a type of [n] bytes. *)
Definition PrimitiveBEREntry_decode (n : nat) (input : list Z) (expected_tag : option Z)
  : codec (Z * list Z) :=
  letr (entry, rest) := BEREntry_decode input in
  letr _ := require (tag_matches expected_tag entry)
              "PrimitiveBEREntry: tag mismatch" in
  letr _ := require (length (ber_value entry) <=? n)%nat
              "PrimitiveBEREntry: value size too big mismatch" in
  Ok (decode_be n (ber_value entry), rest).

Definition PrimitiveBEREntry_encode (n : nat) (t data : Z) : list Z :=
  BEREntry_encode (mkBEREntry t (encode_be n data)).

(** [StringBEREntry], on the bytes of the string. *)
Definition StringBEREntry_decode (input : list Z) (expected_tag : option Z)
    (max_length : option Z) : codec (list Z * list Z) :=
  letr (entry, rest) := BEREntry_decode input in
  letr _ := require (tag_matches expected_tag entry)
              "StringBEREntry: tag mismatch" in
  letr _ := require (match max_length with
                     | Some m => Z.of_nat (length (ber_value entry)) <=? m
                     | None => true
                     end) "StringBEREntry: value size too big mismatch" in
  Ok (ber_value entry, rest).

Definition StringBEREntry_encode (t : Z) (data : list Z) : list Z :=
  BEREntry_encode (mkBEREntry t data).

(** ** Timestamps *)

Record GooseTimestamp := mkGooseTimestamp {
  seconds : Z;
  fraction : Z;
  quality_of_time : Z;
}.

Definition GooseTimestamp_decode (raw : list Z) : codec GooseTimestamp :=
  if negb (length raw =? 8)%nat
  then Err (runtime_error "GooseTimestamp: raw data is not 8 bytes")
  else Ok (mkGooseTimestamp (foldl (shift_in 32) 0 (take 4 raw))
             (foldl (shift_in 32) 0 (take 3 (drop 4 raw)))
             (default 0 (raw !! 7%nat))).

Definition GooseTimestamp_encode (t : GooseTimestamp) : list Z :=
  encode_be 4 (seconds t) ++ drop 1 (encode_be 4 (fraction t)) ++ [quality_of_time t].

(** [to_ms], the integer before its conversion to [float]. *)
Definition to_ms (t : GooseTimestamp) : Z :=
  u64 (seconds t * 1000 + fraction t * 1000 / 16777216).

Definition from_ms (ms : Z) : GooseTimestamp :=
  let ms_part := ms mod 1000 in
  let sec_part := ms / 1000 in
  let fraction := ms_part * 16777216 / 1000 in
  mkGooseTimestamp (u32 sec_part) (u32 fraction) 10.

(** ** The PDU *)

(** The [char[65]] members are buffers of 65 bytes. *)
Record GoosePDU := mkGoosePDU {
  go_cb_ref : list Z;
  time_allowed_to_live : Z;
  dat_set : list Z;
  go_id : list Z;
  timestamp : GooseTimestamp;
  st_num : Z;
  sq_num : Z;
  simulation : bool;
  conf_rev : Z;
  ndsCom : Z;
  apdu_entries : list BEREntry;
}.

(** [strlen] and the terminator: the bytes of a buffer up to its first zero;
    without one the read leaves the buffer. *)
Fixpoint c_string (buffer : list Z) : codec (list Z) :=
  match buffer with
  | [] => Err out_of_bounds
  | b :: rest => if b =? 0 then Ok [0] else letr s := c_string rest in Ok (b :: s)
  end.

(** [memcpy] of a value to the start of a buffer. *)
Definition overwrite (buffer value : list Z) : list Z :=
  value ++ drop (length value) buffer.

(** The loop over the APDU entries: an entry takes at least two bytes, so the
    length of the input bounds the iterations. *)
Fixpoint decode_entries (fuel : nat) (count : Z) (apdu : list Z)
  : codec (list BEREntry * list Z) :=
  if count <=? 0 then Ok ([], apdu)
  else
    letr (e, rest) := BEREntry_decode apdu in
    match fuel with
    | O => Err out_of_bounds
    | S fuel' =>
        letr (es, rest) := decode_entries fuel' (count - 1) rest in
        Ok (e :: es, rest)
    end.

(** A BER entry with a given tag and a bound on its size. *)
Definition tagged_entry (t : Z) (input : list Z) (tag_error : string) : codec (list Z * list Z) :=
  letr (e, rest) := BEREntry_decode input in
  letr _ := require (tag e =? t) tag_error in
  Ok (ber_value e, rest).

(** A text member: at most 65 bytes, copied into its buffer. *)
Definition decode_text (t : Z) (buffer input : list Z) (tag_error length_error : string)
  : codec (list Z * list Z) :=
  letr (v, rest) := tagged_entry t input tag_error in
  letr _ := require (length v <=? 65)%nat length_error in
  Ok (overwrite buffer v, rest).

(** The APDU part of the constructor. *)
Definition decode_apdu (root_value : list Z) : codec (list BEREntry) :=
  letr (apdu_entry_count, root_value) := PrimitiveBEREntry_decode 4 root_value (Some 138) in
  letr (apdu, root_value) := tagged_entry 171 root_value "GoosePDU: apdu tag is not 0xAB" in
  letr _ := require (length root_value =? 0)%nat "GoosePDU: frame has extra data" in
  letr (entries, apdu) := decode_entries (length apdu) apdu_entry_count apdu in
  letr _ := require (length apdu =? 0)%nat "GoosePDU: apdu has extra data" in
  Ok entries.

(** The decoding constructor; [mem] is what the text buffers held before. *)
Definition GoosePDU_decode (mem : list Z) (pdu : list Z) : codec GoosePDU :=
  letr (root, pdu_c) := BEREntry_decode pdu in
  letr _ := require (tag root =? 97) "GoosePDU: root tag is not 0x61" in
  letr _ := require (length pdu_c =? 0)%nat
              "GoosePDU: received extra data, that is not part of BER encoded region" in
  letr (cb_ref, rest) := decode_text 128 mem (ber_value root)
      "GoosePDU: go_cb_ref tag is not 0x80" "GoosePDU: go_cb_ref is too long" in
  letr (ttl, rest) := PrimitiveBEREntry_decode 4 rest (Some 129) in
  letr (ds, rest) := decode_text 130 mem rest
      "GoosePDU: dat_set tag is not 0x82" "GoosePDU: dat_set is too long" in
  letr (id, rest) := decode_text 131 mem rest
      "GoosePDU: go_id tag is not 0x83" "GoosePDU: go_id is too long" in
  letr (ts_raw, rest) := tagged_entry 132 rest "GoosePDU: timestamp tag is not 0x84" in
  letr _ := require (length ts_raw =? 8)%nat "GoosePDU: timestamp is not 8 bytes" in
  letr ts := GooseTimestamp_decode ts_raw in
  letr (st, rest) := PrimitiveBEREntry_decode 4 rest (Some 133) in
  letr (sq, rest) := PrimitiveBEREntry_decode 4 rest (Some 134) in
  letr (sim, rest) := PrimitiveBEREntry_decode 1 rest (Some 135) in
  letr (conf, rest) := PrimitiveBEREntry_decode 4 rest (Some 136) in
  letr (nds, rest) := PrimitiveBEREntry_decode 1 rest (Some 137) in
  letr entries := decode_apdu rest in
  Ok (mkGoosePDU cb_ref ttl ds id ts st sq (negb (sim =? 0)) conf nds entries).

(** The children of the root entry, in order. *)
Definition pdu_fields (p : GoosePDU) (cb_ref ds id : list Z) : list BEREntry :=
  [mkBEREntry 128 cb_ref;
   mkBEREntry 129 (encode_be 4 (time_allowed_to_live p));
   mkBEREntry 130 ds;
   mkBEREntry 131 id;
   mkBEREntry 132 (GooseTimestamp_encode (timestamp p));
   mkBEREntry 133 (encode_be 4 (st_num p));
   mkBEREntry 134 (encode_be 4 (sq_num p));
   mkBEREntry 135 [if simulation p then 1 else 0];
   mkBEREntry 136 (encode_be 4 (conf_rev p));
   mkBEREntry 137 [0];
   mkBEREntry 138 (encode_be 4 (u32 (Z.of_nat (length (apdu_entries p)))));
   foldl BEREntry_add (mkBEREntry 171 []) (apdu_entries p)].

Definition GoosePDU_serialize (p : GoosePDU) : codec (list Z) :=
  letr cb_ref := c_string (go_cb_ref p) in
  letr ds := c_string (dat_set p) in
  letr id := c_string (go_id p) in
  Ok (BEREntry_encode (foldl BEREntry_add (mkBEREntry 97 []) (pdu_fields p cb_ref ds id))).

(** ** Ethernet frames ([goose-ethernet/src/frame.cpp]) *)

Record EthernetFrame := mkEthernetFrame {
  destination : list Z;
  source : list Z;
  eth_802_1q_tag : option Z;
  ethertype : Z;
  payload : list Z;
}.

(** [(data[i] << 8) | data[i + 1]] in 16 bits. *)
Definition be16_at (data : list Z) (i : nat) : codec Z :=
  match data !! i, data !! S i with
  | Some a, Some b => Ok (u16 (Z.lor (Z.shiftl a 8) b))
  | _, _ => Err out_of_bounds
  end.

Definition EthernetFrame_decode (data : list Z) : codec EthernetFrame :=
  letr _ := require (60 <=? length data)%nat "Ethernet frame too short (size < 60)" in
  letr et := be16_at data 12 in
  letr f :=
    if et =? 33024 then
      letr t := be16_at data 14 in
      letr et := be16_at data 16 in
      Ok (mkEthernetFrame (take 6 data) (take 6 (drop 6 data)) (Some t) et (drop 18 data))
    else Ok (mkEthernetFrame (take 6 data) (take 6 (drop 6 data)) None et (drop 14 data)) in
  letr _ := require (42 <=? length (payload f))%nat
              "Ethernet frame payload too short (payload size < 42)" in
  Ok f.

(** The two bytes pushed for a 16-bit value. *)
Definition push16 (v : Z) : list Z := [u8 (Z.shiftr v 8); Z.land v 255].

Definition EthernetFrame_serialize (f : EthernetFrame) : codec (list Z) :=
  letr _ := require (length (payload f) <=? 1500)%nat
              "Ethernet frame too long (payload size > 1500)" in
  let package_size := (14 + length (payload f)
                       + match eth_802_1q_tag f with Some _ => 4 | None => 0 end)%nat in
  letr _ := require (60 <=? package_size)%nat "Ethernet frame too short (size < 60)" in
  Ok (destination f ++ source f
      ++ match eth_802_1q_tag f with Some t => [129; 0] ++ push16 t | None => [] end
      ++ push16 (ethertype f) ++ payload f).

Definition ethertype_is_length (f : EthernetFrame) : bool := ethertype f <=? 1500.

(** ** GOOSE frames *)

Definition GOOSE_ETHERTYPE : Z := 35000.

(** [GooseFrameIntf] and the frames derived from it. *)
Record GooseFrame := mkGooseFrame {
  source_mac_address : list Z;
  destination_mac_address : list Z;
  appid : list Z;
  pdu : GoosePDU;
  priority : Z;
  vlan_id : Z;
}.

(** A range of a buffer; an end before the start or behind the buffer is out
    of bounds. *)
Definition range (data : list Z) (from to : Z) : codec (list Z) :=
  if (0 <=? from) && (from <=? to) && (to <=? Z.of_nat (length data))
  then Ok (take (Z.to_nat (to - from)) (drop (Z.to_nat from) data))
  else Err out_of_bounds.

(** [GooseFrameIntf::GooseFrameIntf]. *)
Definition GooseFrameIntf_decode (mem : list Z) (f : EthernetFrame) : codec GooseFrame :=
  letr _ := require (ethertype f =? GOOSE_ETHERTYPE) "GooseFrame: not a GOOSE frame" in
  match eth_802_1q_tag f with
  | None => Err (runtime_error "GooseFrame: no 802.1Q tag")
  | Some t =>
      letr _ := require (2 <=? length (payload f))%nat "GooseFrame: no appid" in
      letr len := be16_at (payload f) 2 in
      letr reserve1 := be16_at (payload f) 4 in
      letr reserve2 := be16_at (payload f) 6 in
      letr raw := range (payload f) 8 len in
      letr p := GoosePDU_decode mem raw in
      Ok (mkGooseFrame (source f) (destination f) (take 2 (payload f)) p
            (Z.shiftr (Z.land t 57344) 13) (Z.land t 4095))
  end.

(** [GooseFrame::GooseFrame]. *)
Definition GooseFrame_decode (mem : list Z) (f : EthernetFrame) : codec GooseFrame :=
  letr g := GooseFrameIntf_decode mem f in
  letr reserve1 := be16_at (payload f) 4 in
  letr reserve2 := be16_at (payload f) 6 in
  letr _ := require (reserve1 =? 0) "GooseFrame: reserve1 byte 2 is not 0" in
  letr _ := require (reserve2 =? 0) "GooseFrame: reserve2 byte 2 is not 0" in
  letr s := GoosePDU_serialize (pdu g) in
  letr _ := require (length (payload f) =? 8 + length s)%nat
              "GooseFrame: payload size does not match" in
  Ok g.

(** The 802.1Q tag of a frame. *)
Definition tag_802_1q (g : GooseFrame) : Z :=
  u16 (Z.lor (Z.shiftl (priority g) 13) (vlan_id g)).

Definition GooseFrame_serialize (g : GooseFrame) : codec EthernetFrame :=
  letr pdu_data := GoosePDU_serialize (pdu g) in
  let len := Z.of_nat (length pdu_data) + 8 in
  Ok (mkEthernetFrame (destination_mac_address g) (source_mac_address g) (Some (tag_802_1q g))
        GOOSE_ETHERTYPE
        (appid g ++ push16 len ++ [0; 0] ++ [0; 0] ++ pdu_data)).

(** The CRC over the header of a secured frame. *)
Fixpoint crc_bits (n : nat) (c : Z) : Z :=
  match n with
  | O => c
  | S n' =>
      crc_bits n' (if negb (Z.land c 1 =? 0) then Z.lxor (Z.shiftr c 1) 40961 else Z.shiftr c 1)
  end.

Definition crc (data : list Z) : Z :=
  foldl (fun c b => crc_bits 8 (u16 (Z.lxor c b))) 65535 data.

Section Secure.
(** [HMAC(EVP_sha256(), key, data)]: 32 bytes. *)
Context (hmac_sha256 : list Z -> list Z -> list Z).

(** [SecureGooseFrame::SecureGooseFrame]. *)
Definition SecureGooseFrame_decode (mem : list Z) (f : EthernetFrame)
    (hmac_key : option (list Z)) : codec GooseFrame :=
  letr g := GooseFrameIntf_decode mem f in
  letr len := be16_at (payload f) 2 in
  letr reserve1 := be16_at (payload f) 4 in
  letr reserve2 := be16_at (payload f) 6 in
  let extended_length := Z.land reserve1 255 in
  letr _ := require (negb (extended_length =? 0))
              "GooseFrame: reserve1 byte 2 is 0, thus not a secure frame" in
  letr _ := require (32 <=? extended_length)
              "GooseFrame: reserve1 byte 2 is less than 32, thus no hmac 256 fits" in
  letr _ := require (crc (push16 (ethertype f) ++ take 6 (payload f)) =? reserve2)
              "GooseFrame: crc value does not match" in
  match hmac_key with
  | None => Ok g
  | Some key =>
      letr hmac := range (payload f) (len + extended_length - 32) (len + extended_length) in
      letr signed := range (payload f) 0 (len + extended_length - 35) in
      letr _ := require (bool_decide (hmac_sha256 key (push16 (ethertype f) ++ signed) = hmac))
                  "SecureGooseFrame: HMAC does not match" in
      Ok g
  end.

Definition SecureGooseFrame_serialize (g : GooseFrame) (hmac_key : list Z) : codec EthernetFrame :=
  letr pdu_data := GoosePDU_serialize (pdu g) in
  let length_in_header := u16 (Z.of_nat (length pdu_data) + 8) in
  let head := [136; 184] ++ appid g ++ push16 length_in_header ++ [0; 35] in
  let ethernet_payload := head ++ push16 (crc head) ++ pdu_data in
  let hmac := hmac_sha256 hmac_key ethernet_payload in
  Ok (mkEthernetFrame (destination_mac_address g) (source_mac_address g) (Some (tag_802_1q g))
        GOOSE_ETHERTYPE (drop 2 (ethernet_payload ++ [173; 0; 32] ++ hmac))).
End Secure.
