(* ===== verification/GooseProofs.v ===== *)
(** * Round trips of the GOOSE encodings *)
From S2P Require Import Prelude Bytes Goose.
From stdpp Require Import base tactics list numbers strings.
Open Scope Z_scope.
Open Scope everest_scope.

Create HintDb goose.

(** ** Bits *)

Lemma land_disjoint a b k : 0 <= k -> 0 <= b < 2 ^ k -> Z.land b (a * 2 ^ k) = 0.
Proof.
  intros Hk Hb. apply Z.bits_inj'. intros i Hi. rewrite Z.land_spec, Z.bits_0.
  destruct (Z.ltb_spec i k).
  - rewrite Z.mul_pow2_bits_low, andb_false_r by lia. done.
  - destruct (Z.eq_dec b 0) as [->|]; [by rewrite Z.bits_0|].
    assert (Z.log2 b < k) by (apply Z.log2_lt_pow2; lia).
    by rewrite (Z.bits_above_log2 b i) by lia.
Qed.

Lemma mask_zero len k :
  0 <= k -> 0 <= len < 2 ^ (k + 8) -> Z.land len (Z.shiftl 255 k) = 0 -> len < 2 ^ k.
Proof.
  intros Hk Hlen Hm. assert (0 < 2 ^ k) by (apply Z.pow_pos_nonneg; lia).
  assert (Z.land (Z.shiftr len k) 255 = 0) as Hz.
  { rewrite <- (Z.shiftr_0_l k), <- Hm, Z.shiftr_land, Z.shiftr_shiftl_l, Z.sub_diag by lia.
    by rewrite Z.shiftl_0_r. }
  rewrite byte_and, Z.shiftr_div_pow2 in Hz by lia.
  rewrite Z.mod_small in Hz.
  - pose proof (Z.div_mod len (2 ^ k) ltac:(lia)).
    pose proof (Z.mod_pos_bound len (2 ^ k) ltac:(lia)). nia.
  - split; [apply Z.div_pos; lia|]. apply Z.div_lt_upper_bound; [lia|].
    rewrite Z.pow_add_r in Hlen by lia. lia.
Qed.

Lemma required_bytes_enough len :
  0 <= len < 2 ^ 32 ->
  (1 <= required_bytes len <= 4)%nat /\ len < 256 ^ Z.of_nat (required_bytes len).
Proof.
  intros Hl. unfold required_bytes.
  destruct (Z.land len (Z.shiftl 255 24) =? 0) eqn:E1; simpl; [|split; [lia|simpl; lia]].
  apply Z.eqb_eq, mask_zero in E1; [|lia|simpl in *; lia].
  destruct (Z.land len (Z.shiftl 255 16) =? 0) eqn:E2; simpl; [|split; [lia|simpl in *; lia]].
  apply Z.eqb_eq, mask_zero in E2; [|lia|simpl in *; lia].
  destruct (Z.land len (Z.shiftl 255 8) =? 0) eqn:E3; simpl; [|split; [lia|simpl in *; lia]].
  apply Z.eqb_eq, mask_zero in E3; [|lia|simpl in *; lia]. split; [lia|simpl in *; lia].
Qed.

(** ** BER *)

(** An entry that the 32-bit length encoding can carry. *)
Definition entry_ok (e : BEREntry) : Prop := Z.of_nat (length (ber_value e)) < 2 ^ 32.

Lemma ber_decode_encode e rest :
  entry_ok e -> BEREntry_decode (BEREntry_encode e ++ rest) = Ok (e, rest).
Proof.
  intros Hok. unfold entry_ok, BEREntry_encode in *.
  set (len := Z.of_nat (length (ber_value e))) in *. assert (0 <= len) by lia.
  assert (forall l, l = len -> (if Z.of_nat (length (ber_value e ++ rest)) <? l
    then Err (runtime_error "BEREntry: input too short, payload missing")
    else Ok (mkBEREntry (tag e) (take (Z.to_nat l) (ber_value e ++ rest)),
             drop (Z.to_nat l) (ber_value e ++ rest))) = Ok (e, rest)) as Hval.
  { intros l ->. rewrite length_app. destruct (Z.ltb_spec (Z.of_nat (length (ber_value e)
      + length rest)) len); [unfold len in *; lia|].
    unfold len. rewrite Nat2Z.id, take_app_length, drop_app_length. by destruct e. }
  destruct (Z.leb_spec len 127).
  - cbn [app BEREntry_decode]. change 127 with (Z.ones 7). rewrite Z.land_ones by lia.
    rewrite Z.mod_small by (simpl; lia).
    pose proof (land_disjoint 1 len 7 ltac:(lia) ltac:(simpl; lia)) as Hd.
    change (1 * 2 ^ 7) with 128 in Hd. rewrite Hd. by apply Hval.
  - destruct (required_bytes_enough len ltac:(lia)) as [Hn Hlen].
    set (n := required_bytes len) in *.
    assert (Z.land (Z.lor 128 (Z.of_nat n)) 128 = 128
      /\ Z.land (Z.lor 128 (Z.of_nat n)) 127 = Z.of_nat n) as [E1 E2].
    { assert (n = 1 \/ n = 2 \/ n = 3 \/ n = 4)%nat as [-> | [-> | [-> | ->]]] by lia; done. }
    rewrite <- app_comm_cons. cbn [app BEREntry_decode]. rewrite E1, E2, Nat2Z.id.
    cbn [Z.eqb negb]. rewrite <- app_assoc.
    destruct (Nat.ltb_spec (length (encode_be n len ++ ber_value e ++ rest)) n) as [Hlt|_].
    { rewrite length_app, encode_be_length in Hlt. lia. }
    rewrite take_app_length' by (by rewrite encode_be_length).
    rewrite drop_app_length' by (by rewrite encode_be_length).
    cbn [rbind]. apply Hval. rewrite shift_in_encode; [lia|lia|lia| |lia].
    rewrite Z.mul_0_l, Z.add_0_l. lia.
Qed.

Lemma ber_add_value t es v :
  ber_value (foldl BEREntry_add (mkBEREntry t v) es) = v ++ concat (map BEREntry_encode es).
Proof.
  revert v. induction es as [|e es IH]; intros v; simpl; [by rewrite app_nil_r|].
  unfold BEREntry_add at 2. simpl. rewrite IH. by rewrite <- app_assoc.
Qed.

Lemma ber_add_tag t es v : tag (foldl BEREntry_add (mkBEREntry t v) es) = t.
Proof. revert v. induction es as [|e es IH]; intros v; [done|]. apply IH. Qed.

Lemma encode_nonempty e : (2 <= length (BEREntry_encode e))%nat.
Proof. unfold BEREntry_encode. case_match; simpl; lia. Qed.

Lemma decode_entries_encode es rest fuel :
  Forall entry_ok es -> (length (concat (map BEREntry_encode es)) <= fuel)%nat ->
  decode_entries fuel (Z.of_nat (length es)) (concat (map BEREntry_encode es) ++ rest)
  = Ok (es, rest).
Proof.
  intros Hes. revert fuel. induction Hes as [|e es He Hes IH]; intros fuel Hf.
  - by destruct fuel.
  - cbn [map concat length] in *. rewrite length_app in Hf.
    pose proof (encode_nonempty e). destruct fuel as [|fuel]; [lia|].
    cbn [decode_entries]. destruct (Z.leb_spec (Z.of_nat (S (length es))) 0); [lia|].
    rewrite <- app_assoc, ber_decode_encode by done. cbn [rbind].
    replace (Z.of_nat (S (length es)) - 1) with (Z.of_nat (length es)) by lia.
    by rewrite IH by lia.
Qed.

(** *** Typed entries *)

Lemma small_entry_ok t v : (length v <= 65)%nat -> entry_ok (mkBEREntry t v).
Proof. unfold entry_ok. simpl. lia. Qed.

Lemma primitive_decode n t v rest :
  (n <= 8)%nat -> 0 <= v < 256 ^ Z.of_nat n ->
  PrimitiveBEREntry_decode n (BEREntry_encode (mkBEREntry t (encode_be n v)) ++ rest) (Some t)
  = Ok (v, rest).
Proof.
  intros Hn Hv. unfold PrimitiveBEREntry_decode.
  rewrite ber_decode_encode by (apply small_entry_ok; rewrite encode_be_length; lia).
  cbn [rbind tag_matches tag ber_value]. rewrite Z.eqb_refl, encode_be_length, Nat.leb_refl. simpl.
  by rewrite decode_encode_be.
Qed.

Lemma tagged_decode t v rest err :
  entry_ok (mkBEREntry t v) ->
  tagged_entry t (BEREntry_encode (mkBEREntry t v) ++ rest) err = Ok (v, rest).
Proof.
  intros Hv. unfold tagged_entry. rewrite ber_decode_encode by done. simpl.
  by rewrite Z.eqb_refl.
Qed.

Lemma text_decode t mem v rest err err' :
  (length v <= 65)%nat ->
  decode_text t mem (BEREntry_encode (mkBEREntry t v) ++ rest) err err'
  = Ok (overwrite mem v, rest).
Proof.
  intros Hv. unfold decode_text. rewrite tagged_decode by (by apply small_entry_ok). simpl.
  by destruct (Nat.leb_spec (length v) 65); [|lia].
Qed.

Lemma byte_decode t b rest :
  0 <= b < 256 ->
  PrimitiveBEREntry_decode 1 (BEREntry_encode (mkBEREntry t [b]) ++ rest) (Some t) = Ok (b, rest).
Proof.
  intros Hb. replace [b] with (encode_be 1 b); [apply (primitive_decode 1); [lia|simpl; lia]|].
  simpl. rewrite Z.shiftr_0_r, byte_and, Z.mod_small by lia. done.
Qed.

(** ** Timestamps *)

Definition timestamp_ok (t : GooseTimestamp) : Prop :=
  0 <= seconds t < 2 ^ 32 /\ 0 <= fraction t < 2 ^ 24 /\ is_byte (quality_of_time t).

Lemma timestamp_encode_length t : length (GooseTimestamp_encode t) = 8%nat.
Proof. reflexivity. Qed.

Lemma drop_encode_be n v : drop 1 (encode_be (S n) v) = encode_be n v.
Proof. reflexivity. Qed.

Lemma timestamp_decode_encode t :
  timestamp_ok t -> GooseTimestamp_decode (GooseTimestamp_encode t) = Ok t.
Proof.
  intros (Hs & Hf & Hq). unfold GooseTimestamp_decode. rewrite timestamp_encode_length.
  cbn [Nat.eqb negb]. f_equal. unfold GooseTimestamp_encode. rewrite drop_encode_be.
  rewrite take_app_length' by (by rewrite encode_be_length).
  rewrite drop_app_length' by (by rewrite encode_be_length).
  rewrite take_app_length' by (by rewrite encode_be_length).
  rewrite !shift_in_encode by (simpl; lia). by destruct t.
Qed.

(** ** C strings *)

Lemma c_string_length buffer s : c_string buffer = Ok s -> (length s <= length buffer)%nat.
Proof.
  revert s. induction buffer as [|b buffer IH]; simpl; [done|]. intros s. case_match.
  - intros [= <-]. simpl. lia.
  - destruct (c_string buffer) as [s'|]; simpl; [|done]. intros [= <-]. simpl.
    specialize (IH s' eq_refl). lia.
Qed.

(** A terminated string is found again, whatever follows it. *)
Lemma c_string_app buffer s x : c_string buffer = Ok s -> c_string (s ++ x) = Ok s.
Proof.
  revert s. induction buffer as [|b buffer IH]; simpl; [done|]. intros s.
  destruct (Z.eqb_spec b 0) as [->|Hb].
  - by intros [= <-].
  - destruct (c_string buffer) as [s'|]; simpl; [|done]. intros [= <-]. simpl.
    destruct (Z.eqb_spec b 0); [done|]. by rewrite (IH s').
Qed.

(** ** The fuel of the entry loop is enough *)

Lemma ber_decode_shorter input e rest :
  BEREntry_decode input = Ok (e, rest) -> (length rest < length input)%nat.
Proof.
  unfold BEREntry_decode. destruct input as [|t [|l0 input]]; [done|done|].
  destruct (negb (Z.land l0 128 =? 0)); [destruct (_ <? _)%nat|]; cbn [rbind]; try done.
  all: destruct (_ <? _); [done|]; intros [= _ <-]; rewrite ?length_drop; simpl; lia.
Qed.

Lemma ber_decode_in_bounds input : BEREntry_decode input <> Err out_of_bounds.
Proof.
  unfold BEREntry_decode. destruct input as [|t [|l0 input]]; [done|done|].
  destruct (negb (Z.land l0 128 =? 0)); [destruct (_ <? _)%nat|]; cbn [rbind]; try done.
  all: by destruct (_ <? _).
Qed.

Lemma decode_entries_fuel fuel count apdu :
  (length apdu <= fuel)%nat -> decode_entries fuel count apdu <> Err out_of_bounds.
Proof.
  revert count apdu. induction fuel as [|fuel IH]; intros count apdu Hf; simpl;
    (case_match; [done|]); pose proof (ber_decode_in_bounds apdu);
    destruct (BEREntry_decode apdu) as [[e rest]|err] eqn:Hd; simpl; try congruence;
    apply ber_decode_shorter in Hd; [lia|].
  specialize (IH (count - 1) rest ltac:(lia)).
  destruct (decode_entries fuel (count - 1) rest) as [[es r]|err]; simpl; congruence.
Qed.

(** ** 16-bit fields and ranges *)

Definition u16_ok (z : Z) : Prop := 0 <= z < 65536.

Lemma be16_push16 v a b :
  u16_ok v -> [a; b] = push16 v -> u16 (Z.lor (Z.shiftl a 8) b) = v.
Proof.
  unfold u16_ok, push16. intros Hv [= -> ->].
  rewrite byte_and, Z.shiftr_div_pow2 by lia. change (2 ^ 8) with 256.
  pose proof (Z.mod_pos_bound v 256 ltac:(lia)). pose proof (Z.div_mod v 256 ltac:(lia)).
  assert (0 <= v / 256 < 256) by (split; [apply Z.div_pos; lia|apply Z.div_lt_upper_bound; lia]).
  rewrite (wrap_small 8) by (simpl; lia). rewrite lor_byte by lia. rewrite wrap_small; simpl; lia.
Qed.

(** The 16-bit value at an offset. *)
Lemma be16_at_app pre v post :
  u16_ok v -> be16_at (pre ++ push16 v ++ post) (length pre) = Ok v.
Proof.
  intros Hv. unfold be16_at. rewrite (lookup_app_r pre _ (length pre)), Nat.sub_diag by lia.
  rewrite (lookup_app_r pre _ (S (length pre))) by lia.
  replace (S (length pre) - length pre)%nat with 1%nat by lia.
  simpl. f_equal. by apply be16_push16.
Qed.

(** The 16-bit value determines its bytes. *)
Lemma be16_inj a b c d :
  is_byte a -> is_byte b -> is_byte c -> is_byte d ->
  u16 (Z.lor (Z.shiftl a 8) b) = u16 (Z.lor (Z.shiftl c 8) d) -> a = c /\ b = d.
Proof.
  unfold is_byte. intros Ha Hb Hc Hd. rewrite !lor_byte, !(wrap_small 16) by (simpl; lia). lia.
Qed.

Lemma is_byte_lookup data i x : Forall is_byte data -> data !! i = Some x -> is_byte x.
Proof. intros H Hi. by eapply Forall_lookup_1. Qed.

Lemma range_app (a b c : list Z) from to :
  from = Z.of_nat (length a) -> to = Z.of_nat (length a + length b) ->
  range (a ++ b ++ c) from to = Ok b.
Proof.
  intros -> ->. unfold range. rewrite !length_app.
  rewrite !(proj2 (Z.leb_le _ _)) by lia. cbn [andb].
  replace (Z.to_nat (Z.of_nat (length a + length b) - Z.of_nat (length a))) with (length b) by lia.
  by rewrite Nat2Z.id, drop_app_length, take_app_length.
Qed.

(** ** The CRC of a secured frame *)

(** One bit of the CRC stays within 16 bits and can be undone: bit 15 of the
    result is the bit that was shifted out. *)
Definition crc_bit (c : Z) : Z :=
  if negb (Z.land c 1 =? 0) then Z.lxor (Z.shiftr c 1) 40961 else Z.shiftr c 1.

Lemma crc_bits_S n c : crc_bits (S n) c = crc_bits n (crc_bit c).
Proof. done. Qed.

Lemma u16_testbit c : u16_ok c <-> 0 <= c /\ forall n, 16 <= n -> Z.testbit c n = false.
Proof.
  unfold u16_ok. split.
  - intros Hc. split; [lia|]. intros n Hn. apply Z.bits_above_log2; [lia|].
    destruct (Z.eq_dec c 0) as [->|]; [simpl; lia|]. apply Z.log2_lt_pow2; [lia|].
    apply Z.lt_le_trans with (2 ^ 16); [simpl; lia|]. apply Z.pow_le_mono_r; lia.
  - intros [H0 Hb]. split; [done|]. change 65536 with (2 ^ 16).
    destruct (Z.eq_dec c 0) as [->|]; [simpl; lia|]. apply Z.log2_lt_pow2; [lia|].
    destruct (Z.lt_ge_cases (Z.log2 c) 16) as [|Hl]; [done|].
    pose proof (Z.bit_log2 c ltac:(lia)) as Hbit.
    rewrite (Hb _ Hl) in Hbit. done.
Qed.

Lemma crc_bit_range c : u16_ok c -> u16_ok (crc_bit c).
Proof.
  intros Hc. assert (u16_ok (Z.shiftr c 1)) as Hs.
  { unfold u16_ok in *. rewrite Z.shiftr_div_pow2 by lia. simpl (2 ^ 1).
    split; [apply Z.div_pos|apply Z.div_lt_upper_bound]; lia. }
  unfold crc_bit. destruct (negb _); [|done]. apply u16_testbit in Hs as [H0 Hb].
  apply u16_testbit. split; [apply Z.lxor_nonneg; lia|]. intros n Hn.
  rewrite Z.lxor_spec, Hb by done. simpl xorb.
  apply (proj2 (proj1 (u16_testbit 40961) ltac:(unfold u16_ok; lia))). done.
Qed.

Lemma crc_bit_inj a b : u16_ok a -> u16_ok b -> crc_bit a = crc_bit b -> a = b.
Proof.
  intros Ha Hb E.
  assert (forall c, u16_ok c -> Z.testbit (crc_bit c) 15 = Z.odd c
    /\ Z.shiftr c 1 = Z.lxor (crc_bit c) (if Z.odd c then 40961 else 0)) as Hu.
  { intros c Hc. assert (Z.testbit (Z.shiftr c 1) 15 = false) as Hs.
    { rewrite Z.shiftr_spec by lia. apply u16_testbit in Hc as [_ Hc]. by apply Hc. }
    assert (Z.land c 1 = if Z.odd c then 1 else 0) as Hl
      by (etrans; [exact (Z.land_ones c 1 ltac:(lia))|apply Zmod_odd]).
    unfold crc_bit. rewrite Hl. destruct (Z.odd c) eqn:Ho; cbn [negb Z.eqb].
    - rewrite Z.lxor_spec, Hs. split; [done|]. by rewrite Z.lxor_assoc, Z.lxor_nilpotent, Z.lxor_0_r.
    - split; [done|]. by rewrite Z.lxor_0_r. }
  destruct (Hu a Ha) as [Ha1 Ha2]. destruct (Hu b Hb) as [Hb1 Hb2].
  rewrite E in Ha1, Ha2. rewrite Hb1 in Ha1. rewrite <- Ha1 in Ha2. rewrite <- Hb2 in Ha2.
  rewrite <- !Z.div2_spec in Ha2. rewrite (Z.div2_odd a), (Z.div2_odd b). congruence.
Qed.

Lemma crc_bits_range n c : u16_ok c -> u16_ok (crc_bits n c).
Proof. revert c. induction n as [|n IH]; intros c Hc; [done|]. by apply IH, crc_bit_range. Qed.

Lemma crc_bits_inj n a b : u16_ok a -> u16_ok b -> crc_bits n a = crc_bits n b -> a = b.
Proof.
  revert a b. induction n as [|n IH]; intros a b Ha Hb E; [done|].
  rewrite !crc_bits_S in E. apply crc_bit_inj; [done..|]. by apply IH; try apply crc_bit_range.
Qed.

(** The CRC from a start value. *)
Definition crc_from (c : Z) (data : list Z) : Z :=
  foldl (fun c b => crc_bits 8 (u16 (Z.lxor c b))) c data.

Lemma crc_from_cons c x data :
  crc_from c (x :: data) = crc_from (crc_bits 8 (u16 (Z.lxor c x))) data.
Proof. done. Qed.

Lemma crc_from_app c pre data : crc_from c (pre ++ data) = crc_from (crc_from c pre) data.
Proof. apply foldl_app. Qed.

Lemma u16_range z : u16_ok (u16 z).
Proof. unfold u16_ok. apply (wrap_range 16). lia. Qed.

Lemma crc_from_range c data : u16_ok c -> u16_ok (crc_from c data).
Proof.
  revert c. induction data as [|b data IH]; intros c Hc; [done|].
  apply IH, crc_bits_range, u16_range.
Qed.

Lemma xor_byte_range c b : u16_ok c -> is_byte b -> u16 (Z.lxor c b) = Z.lxor c b.
Proof.
  intros Hc Hb. apply (wrap_small 16). change (u16_ok (Z.lxor c b)).
  assert (u16_ok b) as Hb' by (unfold u16_ok, is_byte in *; lia).
  apply u16_testbit in Hc as [? Hc]. apply u16_testbit in Hb' as [? Hb'].
  apply u16_testbit. split; [apply Z.lxor_nonneg; lia|].
  intros n Hn. by rewrite Z.lxor_spec, Hc, Hb'.
Qed.

Lemma crc_from_inj a b data :
  u16_ok a -> u16_ok b -> Forall is_byte data -> crc_from a data = crc_from b data -> a = b.
Proof.
  revert a b. induction data as [|x data IH]; intros a b Ha Hb Hd E; [done|].
  inversion Hd as [|? ? Hx Hd']; subst.
  rewrite !crc_from_cons in E.
  apply IH in E; [|apply crc_bits_range, u16_range..|done].
  apply crc_bits_inj in E; [|apply u16_range..]. rewrite !xor_byte_range in E by done.
  apply (f_equal (fun z => Z.lxor z x)) in E.
  by rewrite !Z.lxor_assoc, Z.lxor_nilpotent, !Z.lxor_0_r in E.
Qed.

(** Data that differs in one byte has another CRC. *)
Lemma crc_detects pre x y post :
  is_byte x -> is_byte y -> Forall is_byte post ->
  crc (pre ++ x :: post) = crc (pre ++ y :: post) -> x = y.
Proof.
  intros Hx Hy Hpost E. change crc with (crc_from 65535) in E.
  rewrite !crc_from_app, !crc_from_cons in E.
  set (c := crc_from 65535 pre) in *. assert (u16_ok c) as Hc
    by (apply (crc_from_range 65535 pre); unfold u16_ok; lia).
  apply (crc_from_inj _ _ post) in E; [|apply crc_bits_range, u16_range..|done].
  apply crc_bits_inj in E; [|apply u16_range..]. rewrite !xor_byte_range in E by done.
  apply (f_equal (Z.lxor c)) in E.
  by rewrite <- !Z.lxor_assoc, Z.lxor_nilpotent, !Z.lxor_0_l in E.
Qed.

Lemma crc_range data : u16_ok (crc data).
Proof. apply (crc_from_range 65535). unfold u16_ok. lia. Qed.
