(* ===== verification/GooseProperties.v ===== *)
(** * Properties of the GOOSE frames *)
From S2P Require Import Prelude Bytes Goose GooseProofs.
From stdpp Require Import base tactics list numbers strings.
Open Scope Z_scope.
Open Scope everest_scope.

(** ** BER *)

(** An encoded BER entry is read back unchanged, with exactly its bytes
    consumed, for every value of less than 2^32 bytes. *)
Theorem ber_roundtrip e rest :
  Z.of_nat (length (ber_value e)) < 2 ^ 32 ->
  BEREntry_decode (BEREntry_encode e ++ rest) = Ok (e, rest).
Proof. apply ber_decode_encode. Qed.

Lemma ber_roundtrip_witness :
  BEREntry_decode (BEREntry_encode (mkBEREntry 97 (repeat 7 300)) ++ [1; 2])
  = Ok (mkBEREntry 97 (repeat 7 300), [1; 2]).
Proof. apply ber_roundtrip. vm_compute. reflexivity. Defined.

(** ** The PDU *)

(** A PDU that can be sent: its numbers fit their types, its texts are
    terminated within their buffers, its entries fit a BER length. *)
Record pdu_ok (p : GoosePDU) : Prop := mkPduOk {
  ok_cb_ref : exists s, c_string (go_cb_ref p) = Ok s /\ (length s <= 65)%nat;
  ok_dat_set : exists s, c_string (dat_set p) = Ok s /\ (length s <= 65)%nat;
  ok_go_id : exists s, c_string (go_id p) = Ok s /\ (length s <= 65)%nat;
  ok_ttl : 0 <= time_allowed_to_live p < 2 ^ 32;
  ok_st : 0 <= st_num p < 2 ^ 32;
  ok_sq : 0 <= sq_num p < 2 ^ 32;
  ok_conf : 0 <= conf_rev p < 2 ^ 32;
  ok_timestamp : timestamp_ok (timestamp p);
  ok_entries : Forall entry_ok (apdu_entries p);
  ok_size : Z.of_nat (length (concat (map BEREntry_encode (apdu_entries p)))) < 2 ^ 31;
}.

(** Two PDUs with the same content: texts up to their terminator. *)
Record same_pdu (p q : GoosePDU) : Prop := mkSamePdu {
  same_cb_ref : c_string (go_cb_ref p) = c_string (go_cb_ref q);
  same_dat_set : c_string (dat_set p) = c_string (dat_set q);
  same_go_id : c_string (go_id p) = c_string (go_id q);
  same_numbers :
    (time_allowed_to_live p, timestamp p, st_num p, sq_num p, simulation p, conf_rev p,
     apdu_entries p)
    = (time_allowed_to_live q, timestamp q, st_num q, sq_num q, simulation q, conf_rev q,
       apdu_entries q);
}.

#[global] Instance same_pdu_equiv : Equivalence same_pdu.
Proof.
  split.
  - intros p. by split.
  - intros p q [H1 H2 H3 H4]. by split.
  - intros p q r [H1 H2 H3 H4] [H5 H6 H7 H8]. split; by etrans.
Qed.

(** Equal content is sent as equal bytes. *)
#[global] Instance serialize_proper : Proper (same_pdu ==> eq) GoosePDU_serialize.
Proof.
  intros p q [H1 H2 H3 H4]. injection H4 as E1 E2 E3 E4 E5 E6 E7.
  unfold GoosePDU_serialize, pdu_fields. by rewrite H1, H2, H3, E1, E2, E3, E4, E5, E6, E7.
Qed.

Lemma entries_length es : (2 * length es <= length (concat (map BEREntry_encode es)))%nat.
Proof.
  induction es as [|e es IH]; [simpl; lia|]. cbn [map concat length]. rewrite length_app.
  pose proof (encode_nonempty e). lia.
Qed.

Lemma encode_length_bound e :
  entry_ok e -> (length (BEREntry_encode e) <= length (ber_value e) + 6)%nat.
Proof.
  intros He. unfold entry_ok in He. unfold BEREntry_encode. simpl.
  destruct (Z.leb_spec (Z.of_nat (length (ber_value e))) 127); simpl; [lia|].
  rewrite length_app, encode_be_length.
  destruct (required_bytes_enough (Z.of_nat (length (ber_value e))) ltac:(lia)). lia.
Qed.

Section PduRoundTrip.
Context (p : GoosePDU) (mem cb ds id : list Z).
Hypothesis Hp : pdu_ok p.
Hypothesis Hcb : c_string (go_cb_ref p) = Ok cb.
Hypothesis Hds : c_string (dat_set p) = Ok ds.
Hypothesis Hid : c_string (go_id p) = Ok id.

Lemma apdu_decodes :
  decode_apdu (BEREntry_encode (mkBEREntry 138 (encode_be 4 (u32 (Z.of_nat (length (apdu_entries p))))))
    ++ BEREntry_encode (foldl BEREntry_add (mkBEREntry 171 []) (apdu_entries p)) ++ [])
  = Ok (apdu_entries p).
Proof.
  pose proof (ok_size _ Hp) as Hsz. pose proof (entries_length (apdu_entries p)) as Hel.
  unfold decode_apdu. rewrite primitive_decode; [|lia|apply wrap_range; lia]. cbn [rbind].
  set (e := foldl BEREntry_add _ _).
  assert (e = mkBEREntry 171 (concat (map BEREntry_encode (apdu_entries p)))) as ->.
  { pose proof (ber_add_value 171 (apdu_entries p) []) as Hv.
    pose proof (ber_add_tag 171 (apdu_entries p) []) as Ht. fold e in Hv, Ht.
    destruct e; simpl in *; by subst. }
  rewrite tagged_decode by (unfold entry_ok; simpl; lia). cbn [rbind].
  rewrite wrap_small by lia.
  pose proof (decode_entries_encode (apdu_entries p) [] _ (ok_entries _ Hp) (le_n _)) as Hd.
  rewrite app_nil_r in Hd. cbn [require length Nat.eqb rbind]. by rewrite Hd.
Qed.

Lemma root_value :
  ber_value (foldl BEREntry_add (mkBEREntry 97 []) (pdu_fields p cb ds id))
  = BEREntry_encode (mkBEREntry 128 cb)
    ++ BEREntry_encode (mkBEREntry 129 (encode_be 4 (time_allowed_to_live p)))
    ++ BEREntry_encode (mkBEREntry 130 ds) ++ BEREntry_encode (mkBEREntry 131 id)
    ++ BEREntry_encode (mkBEREntry 132 (GooseTimestamp_encode (timestamp p)))
    ++ BEREntry_encode (mkBEREntry 133 (encode_be 4 (st_num p)))
    ++ BEREntry_encode (mkBEREntry 134 (encode_be 4 (sq_num p)))
    ++ BEREntry_encode (mkBEREntry 135 [if simulation p then 1 else 0])
    ++ BEREntry_encode (mkBEREntry 136 (encode_be 4 (conf_rev p)))
    ++ BEREntry_encode (mkBEREntry 137 [0])
    ++ BEREntry_encode (mkBEREntry 138
         (encode_be 4 (u32 (Z.of_nat (length (apdu_entries p))))))
    ++ BEREntry_encode (foldl BEREntry_add (mkBEREntry 171 []) (apdu_entries p)) ++ [].
Proof. by rewrite ber_add_value. Qed.

Lemma text_length buffer s :
  (exists s, c_string buffer = Ok s /\ (length s <= 65)%nat) -> c_string buffer = Ok s ->
  (length s <= 65)%nat.
Proof. intros (s' & H1 & H2). rewrite H1. by intros [= <-]. Qed.

Lemma root_ok : entry_ok (foldl BEREntry_add (mkBEREntry 97 []) (pdu_fields p cb ds id)).
Proof.
  unfold entry_ok. rewrite root_value, !length_app.
  pose proof (text_length _ _ (ok_cb_ref _ Hp) Hcb). pose proof (text_length _ _ (ok_dat_set _ Hp) Hds).
  pose proof (text_length _ _ (ok_go_id _ Hp) Hid). pose proof (ok_size _ Hp).
  set (e := foldl BEREntry_add _ (apdu_entries p)).
  assert (ber_value e = concat (map BEREntry_encode (apdu_entries p))) as He
    by apply (ber_add_value 171 _ []).
  assert (forall t v, (length v <= 65)%nat ->
    (length (BEREntry_encode (mkBEREntry t v)) <= 71)%nat) as Hb.
  { intros t v Hv. pose proof (encode_length_bound (mkBEREntry t v)
      (small_entry_ok t v Hv)). simpl in *. lia. }
  pose proof (encode_length_bound e ltac:(unfold entry_ok; rewrite He; lia)) as Hle.
  rewrite He in Hle.
  repeat match goal with |- context [length (BEREntry_encode (mkBEREntry ?t ?v))] =>
    let H := fresh in pose proof (Hb t v ltac:(simpl; rewrite ?encode_be_length;
      (lia || assumption))) as H;
    generalize dependent (length (BEREntry_encode (mkBEREntry t v))); intros end.
  clearbody e. cbn [length]. lia.
Qed.

Lemma pdu_decodes :
  GoosePDU_decode mem (BEREntry_encode (foldl BEREntry_add (mkBEREntry 97 []) (pdu_fields p cb ds id)))
  = Ok (mkGoosePDU (overwrite mem cb) (time_allowed_to_live p) (overwrite mem ds)
          (overwrite mem id) (timestamp p) (st_num p) (sq_num p) (simulation p) (conf_rev p) 0
          (apdu_entries p)).
Proof.
  unfold GoosePDU_decode. set (root := foldl BEREntry_add _ (pdu_fields _ _ _ _)).
  rewrite <- (app_nil_r (BEREntry_encode root)), ber_decode_encode by apply root_ok.
  cbn [rbind]. assert (tag root = 97) as -> by apply ber_add_tag. cbn [require rbind Z.eqb Pos.eqb].
  assert (ber_value root = _) as -> by apply root_value.
  pose proof (ok_timestamp _ Hp) as Hts.
  pose proof (text_length _ _ (ok_cb_ref _ Hp) Hcb). pose proof (text_length _ _ (ok_dat_set _ Hp) Hds).
  pose proof (text_length _ _ (ok_go_id _ Hp) Hid).
  destruct Hp as [_ _ _ Httl Hst Hsq Hconf _ _ _].
  rewrite text_decode by done. cbn [rbind].
  rewrite primitive_decode by (simpl; lia). cbn [rbind].
  rewrite text_decode by done. cbn [rbind].
  rewrite text_decode by done. cbn [rbind].
  rewrite tagged_decode by (apply small_entry_ok; rewrite timestamp_encode_length; lia).
  cbn [rbind]. rewrite timestamp_encode_length. cbn [Nat.eqb require rbind].
  rewrite timestamp_decode_encode by done. cbn [rbind].
  do 2 (rewrite primitive_decode by (simpl; lia); cbn [rbind]).
  rewrite byte_decode by (destruct (simulation p); lia). cbn [rbind].
  rewrite primitive_decode by (simpl; lia). cbn [rbind].
  rewrite byte_decode by lia. cbn [rbind]. rewrite apdu_decodes. cbn [rbind].
  by destruct (simulation p).
Qed.
End PduRoundTrip.

Lemma goose_pdu_roundtrip_aux mem p :
  pdu_ok p ->
  exists bytes q, GoosePDU_serialize p = Ok bytes /\ GoosePDU_decode mem bytes = Ok q
    /\ same_pdu q p.
Proof.
  intros Hp. destruct (ok_cb_ref _ Hp) as (cb & Hcb & _). destruct (ok_dat_set _ Hp) as (ds & Hds & _).
  destruct (ok_go_id _ Hp) as (id & Hid & _).
  eexists _, _. split; [unfold GoosePDU_serialize; by rewrite Hcb, Hds, Hid|].
  split; [by apply pdu_decodes|].
  split; simpl; [..|done]; unfold overwrite;
    by rewrite ?Hcb, ?Hds, ?Hid; eapply c_string_app.
Qed.

(** [ndsCom] is sent as 0, whatever it is. *)
Lemma decoded_ndsCom mem p bytes q :
  pdu_ok p -> GoosePDU_serialize p = Ok bytes -> GoosePDU_decode mem bytes = Ok q -> ndsCom q = 0.
Proof.
  intros Hp. destruct (ok_cb_ref _ Hp) as (cb & Hcb & _). destruct (ok_dat_set _ Hp) as (ds & Hds & _).
  destruct (ok_go_id _ Hp) as (id & Hid & _).
  pose proof (pdu_decodes p mem cb ds id Hp Hcb Hds Hid) as Hd.
  unfold GoosePDU_serialize. rewrite Hcb, Hds, Hid. cbn [rbind].
  set (b := BEREntry_encode _) in *. clearbody b. intros [= ->]. rewrite Hd. by intros [= <-].
Qed.

(** C37: a GOOSE PDU that is sent is read back with the same content,
    whatever its text buffers held before; [ndsCom] is always sent as 0. *)
Theorem goose_pdu_roundtrip mem p :
  pdu_ok p ->
  exists bytes q, GoosePDU_serialize p = Ok bytes /\ GoosePDU_decode mem bytes = Ok q
    /\ same_pdu q p /\ ndsCom q = 0.
Proof.
  intros Hp. destruct (goose_pdu_roundtrip_aux mem p Hp) as (bytes & q & H1 & H2 & H3).
  exists bytes, q. split_and!; [done..|]. by eapply decoded_ndsCom.
Qed.

(** A PDU for the witnesses, with two entries. *)
Definition sample_pdu : GoosePDU :=
  mkGoosePDU (overwrite (repeat 0 65) [67; 67; 49]) 2000 (overwrite (repeat 0 65) [68])
    (overwrite (repeat 0 65) [71; 79]) (from_ms 1700000000123) 3 9 false 1 0
    [mkBEREntry 133 [0; 0; 1]; mkBEREntry 131 [255]].

Lemma sample_pdu_ok : pdu_ok sample_pdu.
Proof.
  split.
  - eexists. split; [vm_compute; reflexivity|simpl; lia].
  - eexists. split; [vm_compute; reflexivity|simpl; lia].
  - eexists. split; [vm_compute; reflexivity|simpl; lia].
  - simpl. lia.
  - simpl. lia.
  - simpl. lia.
  - simpl. lia.
  - repeat split; vm_compute; congruence.
  - repeat constructor; vm_compute; congruence.
  - vm_compute. reflexivity.
Qed.

Lemma goose_pdu_roundtrip_witness :
  exists bytes q, GoosePDU_serialize sample_pdu = Ok bytes
    /\ GoosePDU_decode (repeat 88 65) bytes = Ok q /\ same_pdu q sample_pdu /\ ndsCom q = 0.
Proof. apply goose_pdu_roundtrip. apply sample_pdu_ok. Defined.

(** ** Timestamps *)

(** A timestamp survives its 8-byte encoding, and the conversion from
    milliseconds loses at most one millisecond until the year 2106. *)
Theorem goose_timestamp_roundtrip ms :
  0 <= ms < 1000 * 2 ^ 32 ->
  GooseTimestamp_decode (GooseTimestamp_encode (from_ms ms)) = Ok (from_ms ms)
  /\ ms - 1 <= to_ms (from_ms ms) <= ms.
Proof.
  intros Hms. pose proof (Z.mod_pos_bound ms 1000 ltac:(lia)) as Hm.
  pose proof (Z.div_mod ms 1000 ltac:(lia)) as Hd.
  assert (0 <= ms / 1000 < 2 ^ 32) as Hs
    by (split; [apply Z.div_pos; lia|apply Z.div_lt_upper_bound; lia]).
  pose proof (Z.div_mod (ms mod 1000 * 16777216) 1000 ltac:(lia)) as Hd1.
  pose proof (Z.mod_pos_bound (ms mod 1000 * 16777216) 1000 ltac:(lia)) as Hm1.
  assert (0 <= ms mod 1000 * 16777216 / 1000 < 2 ^ 24) as Hf
    by (split; [apply Z.div_pos; lia|apply Z.div_lt_upper_bound; lia]).
  unfold from_ms, to_ms. simpl. rewrite !(wrap_small 32) by lia. split.
  - apply timestamp_decode_encode. split_and!; simpl; try lia. unfold is_byte. lia.
  - set (f := ms mod 1000 * 16777216 / 1000) in *.
    pose proof (Z.div_mod (f * 1000) 16777216 ltac:(lia)).
    pose proof (Z.mod_pos_bound (f * 1000) 16777216 ltac:(lia)).
    rewrite wrap_small; lia.
Qed.

Lemma goose_timestamp_roundtrip_witness :
  GooseTimestamp_decode (GooseTimestamp_encode (from_ms 1700000000123))
  = Ok (mkGooseTimestamp 1700000000 2063597 10)
  /\ to_ms (from_ms 1700000000123) = 1700000000122.
Proof.
  destruct (goose_timestamp_roundtrip 1700000000123 ltac:(lia)) as [H _].
  split; [rewrite H; vm_compute; reflexivity|vm_compute; reflexivity].
Defined.

(** ** Ethernet frames *)

Record frame_ok (f : EthernetFrame) : Prop := mkFrameOk {
  ok_destination : length (destination f) = 6%nat;
  ok_source : length (source f) = 6%nat;
  ok_tag : from_option u16_ok True (eth_802_1q_tag f);
  ok_ethertype : u16_ok (ethertype f);
  ok_not_tag : ethertype f <> 33024;
}.

(** The layout of a frame without tag. *)
Lemma ethernet_decode_plain d s et pl :
  length d = 6%nat -> length s = 6%nat -> u16_ok et -> et <> 33024 -> (46 <= length pl)%nat ->
  EthernetFrame_decode (d ++ s ++ push16 et ++ pl) = Ok (mkEthernetFrame d s None et pl).
Proof.
  intros Hd Hs He Hn Hl. unfold EthernetFrame_decode, require.
  assert (length (d ++ s) = 12%nat) as Hds by (rewrite length_app; lia).
  rewrite (proj2 (Nat.leb_le 60 _))
    by (rewrite !length_app, Hd, Hs; cbn [length push16]; lia).
  cbn [rbind].
  pose proof (be16_at_app (d ++ s) et pl He) as E. rewrite Hds, <- app_assoc in E.
  rewrite E. cbn [rbind]. destruct (Z.eqb_spec et 33024); [done|]. cbn [rbind payload].
  rewrite (take_app_length' d), (drop_app_length' d _ 6), (take_app_length' s) by lia.
  replace (drop 14 (d ++ s ++ push16 et ++ pl)) with pl.
  2: { rewrite (app_assoc d s). replace 14%nat with (length (d ++ s) + 2)%nat by lia.
       by rewrite drop_app_add. }
  by rewrite (proj2 (Nat.leb_le 42 _)) by lia.
Qed.

(** The layout of a frame with an 802.1Q tag. *)
Lemma ethernet_decode_tagged d s t et pl :
  length d = 6%nat -> length s = 6%nat -> u16_ok t -> u16_ok et -> (42 <= length pl)%nat ->
  EthernetFrame_decode (d ++ s ++ push16 33024 ++ push16 t ++ push16 et ++ pl)
  = Ok (mkEthernetFrame d s (Some t) et pl).
Proof.
  intros Hd Hs Ht He Hl. unfold EthernetFrame_decode, require.
  assert (length (d ++ s) = 12%nat) as Hds by (rewrite length_app; lia).
  rewrite (proj2 (Nat.leb_le 60 _))
    by (rewrite !length_app, Hd, Hs; cbn [length push16]; lia).
  cbn [rbind].
  pose proof (be16_at_app (d ++ s) 33024 (push16 t ++ push16 et ++ pl)
    ltac:(unfold u16_ok; lia)) as E1.
  pose proof (be16_at_app ((d ++ s) ++ push16 33024) t (push16 et ++ pl) Ht) as E2.
  pose proof (be16_at_app (((d ++ s) ++ push16 33024) ++ push16 t) et pl He) as E3.
  assert (length ((d ++ s) ++ push16 33024) = 14%nat) as L14 by (by rewrite length_app, Hds).
  assert (length (((d ++ s) ++ push16 33024) ++ push16 t) = 16%nat) as L16
    by (by rewrite length_app, L14).
  rewrite Hds in E1. rewrite L14 in E2. rewrite L16 in E3.
  repeat rewrite <- app_assoc in E1. repeat rewrite <- app_assoc in E2.
  repeat rewrite <- app_assoc in E3.
  rewrite E1. cbn [rbind Z.eqb Pos.eqb]. rewrite E2. cbn [rbind]. rewrite E3. cbn [rbind payload].
  rewrite (take_app_length' d), (drop_app_length' d _ 6), (take_app_length' s) by lia.
  replace (drop 18 (d ++ s ++ push16 33024 ++ push16 t ++ push16 et ++ pl)) with pl.
  2: { rewrite (app_assoc d s). replace 18%nat with (length (d ++ s) + 6)%nat by lia.
       by rewrite drop_app_add. }
  by rewrite (proj2 (Nat.leb_le 42 _)) by lia.
Qed.

(** An Ethernet frame that can be serialized is read back unchanged,
    with and without an 802.1Q tag. *)
Theorem ethernet_roundtrip f bytes :
  frame_ok f -> EthernetFrame_serialize f = Ok bytes ->
  EthernetFrame_decode bytes = Ok f.
Proof.
  intros [Hd Hs Ht He Hn]. unfold EthernetFrame_serialize, require.
  destruct (Nat.leb_spec (length (payload f)) 1500); [|done]. cbn [rbind].
  set (size := (14 + length (payload f) + _)%nat). destruct (Nat.leb_spec 60 size) as [Hsz|]; [|done].
  intros [= <-]. destruct f as [d s [t|] et pl]; simpl in *.
  - apply (ethernet_decode_tagged d s t et pl); try done. unfold size in Hsz. lia.
  - apply (ethernet_decode_plain d s et pl); try done. unfold size in Hsz. lia.
Qed.

Lemma ethernet_roundtrip_witness :
  let f := mkEthernetFrame [1; 2; 3; 4; 5; 6] [6; 5; 4; 3; 2; 1] (Some 4660) 35000 (repeat 9 50) in
  exists bytes, EthernetFrame_serialize f = Ok bytes /\ EthernetFrame_decode bytes = Ok f.
Proof.
  intros f. eexists. split; [vm_compute; reflexivity|].
  apply ethernet_roundtrip; [|vm_compute; reflexivity].
  split; try reflexivity; try (unfold u16_ok; simpl; lia).
Defined.

(** ** GOOSE frames *)

Record goose_ok (g : GooseFrame) : Prop := mkGooseOk {
  ok_appid : length (appid g) = 2%nat;
  ok_priority : 0 <= priority g < 8;
  ok_vlan : 0 <= vlan_id g < 4096;
  ok_pdu : pdu_ok (pdu g);
  ok_length : forall b, GoosePDU_serialize (pdu g) = Ok b -> Z.of_nat (length b) + 8 < 65536;
}.

(** Two frames with the same content. *)
Definition same_frame (g h : GooseFrame) : Prop :=
  (source_mac_address g, destination_mac_address g, appid g, priority g, vlan_id g)
  = (source_mac_address h, destination_mac_address h, appid h, priority h, vlan_id h)
  /\ same_pdu (pdu g) (pdu h).

Lemma tag_fields g :
  0 <= priority g < 8 -> 0 <= vlan_id g < 4096 ->
  Z.shiftr (Z.land (tag_802_1q g) 57344) 13 = priority g
  /\ Z.land (tag_802_1q g) 4095 = vlan_id g.
Proof.
  intros Hp Hv. unfold tag_802_1q. rewrite Z.shiftl_mul_pow2 by lia.
  assert (Z.lor (priority g * 2 ^ 13) (vlan_id g) = priority g * 8192 + vlan_id g) as ->.
  { rewrite Z.lor_comm. pose proof (land_disjoint (priority g) (vlan_id g) 13 ltac:(lia)
      ltac:(simpl; lia)) as Hd.
    rewrite <- Z.lxor_lor, <- Z.add_nocarry_lxor by done. simpl (2 ^ 13). lia. }
  rewrite wrap_small by (simpl; lia). split.
  - change 57344 with (Z.shiftl (Z.ones 3) 13).
    rewrite Z.shiftr_land, Z.shiftr_shiftl_l, Z.sub_diag, Z.shiftl_0_r, Z.land_ones by lia.
    rewrite Z.shiftr_div_pow2 by lia. simpl (2 ^ 13). simpl (2 ^ 3).
    rewrite Z.div_add_l, Z.div_small, Z.add_0_r by lia. apply Z.mod_small. lia.
  - change 4095 with (Z.ones 12). rewrite Z.land_ones by lia. simpl (2 ^ 12).
    replace (priority g * 8192) with (2 * priority g * 4096) by lia.
    rewrite Z.add_comm, Z.mod_add by lia. apply Z.mod_small. lia.
Qed.

(** The payload both kinds of frames have: header, PDU, extension. *)
Lemma frame_intf_decodes mem src dst app r1 r2 bytes q ext tag :
  length app = 2%nat -> u16_ok r1 -> u16_ok r2 ->
  Z.of_nat (length bytes) + 8 < 65536 -> GoosePDU_decode mem bytes = Ok q ->
  let pl := app ++ push16 (Z.of_nat (length bytes) + 8) ++ push16 r1 ++ push16 r2 ++ bytes ++ ext in
  GooseFrameIntf_decode mem (mkEthernetFrame dst src (Some tag) GOOSE_ETHERTYPE pl)
  = Ok (mkGooseFrame src dst app q (Z.shiftr (Z.land tag 57344) 13) (Z.land tag 4095))
  /\ be16_at pl 2 = Ok (Z.of_nat (length bytes) + 8)
  /\ be16_at pl 4 = Ok r1 /\ be16_at pl 6 = Ok r2
  /\ drop 8 pl = bytes ++ ext /\ take 2 pl = app.
Proof.
  intros Ha Hr1 Hr2 Hl Hq pl.
  assert (u16_ok (Z.of_nat (length bytes) + 8)) as Hlen by (unfold u16_ok; lia).
  destruct app as [|a0 [|a1 [|]]]; try done. simpl in pl.
  assert (be16_at pl 2 = Ok (Z.of_nat (length bytes) + 8)) as E2
    by (apply (be16_at_app [a0; a1]); done).
  assert (be16_at pl 4 = Ok r1) as E4
    by (apply (be16_at_app ([a0; a1] ++ push16 (Z.of_nat (length bytes) + 8))); done).
  assert (be16_at pl 6 = Ok r2) as E6
    by (apply (be16_at_app ([a0; a1] ++ push16 (Z.of_nat (length bytes) + 8) ++ push16 r1)); done).
  assert (drop 8 pl = bytes ++ ext) as Ed by done.
  split_and!; try done. unfold GooseFrameIntf_decode, require. simpl ethertype. simpl eth_802_1q_tag.
  cbn [rbind Z.eqb Pos.eqb GOOSE_ETHERTYPE payload].
  assert ((2 <=? length pl)%nat = true) as -> by done. cbn [rbind].
  rewrite E2. cbn [rbind]. rewrite E4. cbn [rbind]. rewrite E6. cbn [rbind].
  assert (range pl 8 (Z.of_nat (length bytes) + 8) = Ok bytes) as ->.
  { unfold range.
    assert (length pl = 8 + length bytes + length ext)%nat as Hpl
      by (unfold pl; cbn [length app push16]; rewrite length_app; lia).
    rewrite Hpl. destruct (Z.leb_spec 8 (Z.of_nat (length bytes) + 8)); [|lia].
    destruct (Z.leb_spec (Z.of_nat (length bytes) + 8) (Z.of_nat (8 + length bytes + length ext)));
      [|lia]. cbn [andb Z.leb Z.compare]. f_equal.
    replace (Z.to_nat (Z.of_nat (length bytes) + 8 - 8)) with (length bytes) by lia.
    change (Z.to_nat 8) with 8%nat. rewrite Ed. apply take_app_length. }
  cbn [rbind]. by rewrite Hq.
Qed.

(** A GOOSE frame goes through its Ethernet frame and back: addresses,
    application id, priority, VLAN and PDU are the same. *)
Theorem goose_frame_roundtrip mem g :
  goose_ok g ->
  exists f h, GooseFrame_serialize g = Ok f /\ GooseFrame_decode mem f = Ok h /\ same_frame h g.
Proof.
  intros [Ha Hp Hv Hpdu Hlen].
  destruct (goose_pdu_roundtrip_aux mem (pdu g) Hpdu) as (bytes & q & Hs & Hd & Hq).
  specialize (Hlen bytes Hs). destruct (tag_fields g Hp Hv) as [Ht1 Ht2].
  destruct (frame_intf_decodes mem (source_mac_address g) (destination_mac_address g) (appid g)
    0 0 bytes q [] (tag_802_1q g) Ha ltac:(unfold u16_ok; lia) ltac:(unfold u16_ok; lia) Hlen Hd)
    as (Hi & _ & E4 & E6 & Edrop & _).
  rewrite !app_nil_r in *.
  eexists _, _. split; [unfold GooseFrame_serialize; by rewrite Hs|].
  unfold GooseFrame_decode.
  change ([0; 0] ++ [0; 0] ++ bytes) with (push16 0 ++ push16 0 ++ bytes).
  rewrite Hi. cbn [rbind payload pdu]. rewrite E4. cbn [rbind]. rewrite E6.
  cbn [rbind require Z.eqb]. rewrite (serialize_proper _ _ Hq), Hs. cbn [rbind].
  assert ((length (appid g ++ push16 (Z.of_nat (length bytes) + 8) ++ push16 0 ++ push16 0 ++ bytes)
    =? 8 + length bytes)%nat = true) as ->.
  { apply Nat.eqb_eq. rewrite !length_app. simpl. lia. }
  split; [reflexivity|]. split; [simpl; by rewrite Ht1, Ht2|done].
Qed.

(** The sample PDU in a frame. *)
Definition sample_frame : GooseFrame :=
  mkGooseFrame [1; 2; 3; 4; 5; 6] [1; 12; 205; 1; 0; 1] [48; 1] sample_pdu 5 17.

Lemma sample_frame_ok : goose_ok sample_frame.
Proof.
  split; simpl; try lia; [apply sample_pdu_ok|]. intros b Hb.
  assert (Ok b = GoosePDU_serialize sample_pdu) as E by done. vm_compute in E.
  injection E as ->. simpl. lia.
Qed.

Lemma goose_frame_roundtrip_witness :
  exists f h, GooseFrame_serialize sample_frame = Ok f
    /\ GooseFrame_decode (repeat 0 65) f = Ok h /\ same_frame h sample_frame.
Proof. apply goose_frame_roundtrip. apply sample_frame_ok. Defined.

(** ** Secured frames *)

(** The CRC input of a secured frame is the header that was sent. *)
Lemma secure_header app len rest :
  length app = 2%nat ->
  push16 GOOSE_ETHERTYPE ++ take 6 (app ++ push16 len ++ push16 35 ++ rest)
  = [136; 184] ++ app ++ push16 len ++ [0; 35].
Proof. by destruct app as [|a0 [|a1 [|]]]. Qed.

Section SecureRoundTrip.
Context (hmac_sha256 : list Z -> list Z -> list Z) (g : GooseFrame) (key bytes : list Z).
Hypothesis Hhmac : forall k d, length (hmac_sha256 k d) = 32%nat.
Hypothesis Happid : length (appid g) = 2%nat.
Hypothesis Hs : GoosePDU_serialize (pdu g) = Ok bytes.
Hypothesis Hlen : Z.of_nat (length bytes) + 8 < 65536.

Let len : Z := Z.of_nat (length bytes) + 8.
Let head : list Z := [136; 184] ++ appid g ++ push16 len ++ [0; 35].
Let hmac : list Z := hmac_sha256 key (head ++ push16 (crc head) ++ bytes).
Let signed : list Z := appid g ++ push16 len ++ push16 35 ++ push16 (crc head) ++ bytes.
Let secure_payload : list Z :=
  appid g ++ push16 len ++ push16 35 ++ push16 (crc head) ++ bytes ++ [173; 0; 32] ++ hmac.
Let secure_frame : EthernetFrame :=
  mkEthernetFrame (destination_mac_address g) (source_mac_address g) (Some (tag_802_1q g))
    GOOSE_ETHERTYPE secure_payload.

Lemma secure_serializes : SecureGooseFrame_serialize hmac_sha256 g key = Ok secure_frame.
Proof.
  unfold SecureGooseFrame_serialize. rewrite Hs. cbn [rbind].
  rewrite (wrap_small 16) by (simpl; lia). fold len. fold head. fold hmac.
  unfold secure_frame. do 2 f_equal. unfold secure_payload, head. rewrite <- !app_assoc. reflexivity.
Qed.

Lemma signed_length : length signed = (8 + length bytes)%nat.
Proof. unfold signed. rewrite !length_app, Happid. cbn [push16 length]. lia. Qed.

Lemma secure_payload_split : secure_payload = signed ++ [173; 0; 32] ++ hmac.
Proof. unfold secure_payload, signed. rewrite <- !app_assoc. reflexivity. Qed.

Lemma secure_hmac_range : range secure_payload (len + 35 - 32) (len + 35) = Ok hmac.
Proof.
  pose proof (range_app (signed ++ [173; 0; 32]) hmac [] (len + 35 - 32) (len + 35)) as Hr.
  rewrite app_nil_r, <- app_assoc, <- secure_payload_split in Hr. apply Hr; rewrite ?length_app, signed_length; unfold hmac, len; rewrite ?Hhmac;
    cbn [length]; lia.
Qed.

Lemma secure_signed_range : range secure_payload 0 (len + 35 - 35) = Ok signed.
Proof.
  rewrite secure_payload_split. apply (range_app []); [done|].
  rewrite signed_length. unfold len. cbn [length]. lia.
Qed.

Lemma secure_decodes mem q k :
  GoosePDU_decode mem bytes = Ok q -> k = Some key \/ k = None ->
  SecureGooseFrame_decode hmac_sha256 mem secure_frame k
  = Ok (mkGooseFrame (source_mac_address g) (destination_mac_address g) (appid g) q
          (Z.shiftr (Z.land (tag_802_1q g) 57344) 13) (Z.land (tag_802_1q g) 4095)).
Proof.
  intros Hd Hk.
  destruct (frame_intf_decodes mem (source_mac_address g) (destination_mac_address g) (appid g)
    35 (crc head) bytes q ([173; 0; 32] ++ hmac) (tag_802_1q g) Happid
    ltac:(unfold u16_ok; lia) (crc_range _) Hlen Hd) as (Hi & E2 & E4 & E6 & _ & _).
  fold len in Hi, E2, E4, E6. fold secure_payload in Hi, E2, E4, E6.
  assert (crc (push16 GOOSE_ETHERTYPE ++ take 6 secure_payload) = crc head) as Hc
    by (f_equal; unfold secure_payload; rewrite secure_header by done; reflexivity).
  unfold SecureGooseFrame_decode, secure_frame. rewrite Hi. cbn [rbind payload ethertype].
  rewrite E2, E4, E6. cbn [rbind]. change (Z.land 35 255) with 35. cbn [Z.eqb negb require rbind].
  rewrite Hc, Z.eqb_refl. cbn [require rbind Z.leb Z.compare Pos.compare Pos.compare_cont].
  destruct Hk as [->| ->]; [|done]. rewrite secure_hmac_range, secure_signed_range. cbn [rbind].
  rewrite bool_decide_eq_true_2; [done|].
  unfold hmac, head, signed. rewrite <- !app_assoc. reflexivity.
Qed.
End SecureRoundTrip.

(** A secured frame is accepted by a receiver with the same key, and by
    one without a key, and gives the same content. *)
Theorem secure_frame_roundtrip hmac_sha256 mem g key :
  (forall k d, length (hmac_sha256 k d) = 32%nat) -> goose_ok g ->
  exists f h, SecureGooseFrame_serialize hmac_sha256 g key = Ok f
    /\ SecureGooseFrame_decode hmac_sha256 mem f (Some key) = Ok h
    /\ SecureGooseFrame_decode hmac_sha256 mem f None = Ok h /\ same_frame h g.
Proof.
  intros Hhmac [Ha Hp Hv Hpdu Hlen].
  destruct (goose_pdu_roundtrip_aux mem (pdu g) Hpdu) as (bytes & q & Hs & Hd & Hq).
  specialize (Hlen bytes Hs). destruct (tag_fields g Hp Hv) as [Ht1 Ht2].
  eexists _, _. split; [by apply secure_serializes|].
  split; [apply secure_decodes; eauto|]. split; [apply secure_decodes; eauto|].
  rewrite Ht1, Ht2. split; [done|exact Hq].
Qed.

Lemma secure_frame_roundtrip_witness :
  let hmac := fun key data : list Z => repeat (foldl Z.lxor 0 (key ++ data)) 32 in
  exists f h, SecureGooseFrame_serialize hmac sample_frame [1; 2; 3] = Ok f
    /\ SecureGooseFrame_decode hmac (repeat 0 65) f (Some [1; 2; 3]) = Ok h
    /\ SecureGooseFrame_decode hmac (repeat 0 65) f None = Ok h /\ same_frame h sample_frame.
Proof.
  intros hmac. apply secure_frame_roundtrip; [|apply sample_frame_ok].
  intros k d. apply repeat_length.
Defined.

(** An accepted secured frame has the CRC of its header in its header. *)
Lemma secure_crc hmac_sha256 mem f key g :
  SecureGooseFrame_decode hmac_sha256 mem f key = Ok g ->
  be16_at (payload f) 6 = Ok (crc (push16 (ethertype f) ++ take 6 (payload f))).
Proof.
  unfold SecureGooseFrame_decode, require. destruct (GooseFrameIntf_decode mem f); [|done]. cbn [rbind].
  destruct (be16_at _ 2); [|done]. cbn [rbind]. destruct (be16_at _ 4); [|done]. cbn [rbind].
  destruct (be16_at _ 6) as [r2|]; [|done]. cbn [rbind].
  destruct (negb _); [|done]. cbn [rbind]. destruct (32 <=? _); [|done]. cbn [rbind].
  destruct (Z.eqb_spec (crc (push16 (ethertype f) ++ take 6 (payload f))) r2) as [->|]; done.
Qed.

(** A receiver never accepts a secured frame with one byte of its header
    (application id, length, reserved fields) changed, with or without a key:
    the CRC detects the change. *)
Theorem secure_header_corruption hmac_sha256 mem mem' f g key key' i x y :
  SecureGooseFrame_decode hmac_sha256 mem f key = Ok g ->
  Forall is_byte (payload f) -> (i < 8)%nat -> payload f !! i = Some x -> is_byte y -> y <> x ->
  exists e, SecureGooseFrame_decode hmac_sha256 mem'
    (mkEthernetFrame (destination f) (source f) (eth_802_1q_tag f) (ethertype f)
       (<[i := y]> (payload f))) key' = Err e.
Proof.
  intros Hg Hp Hi Hx Hy Hne. apply secure_crc in Hg.
  destruct (SecureGooseFrame_decode _ _ _ key') as [h|e] eqn:Hh; [|by eexists].
  apply secure_crc in Hh. cbn [payload ethertype] in Hh. exfalso. apply Hne.
  pose proof (is_byte_lookup _ _ _ Hp Hx) as Hbx.
  unfold be16_at in Hg, Hh. destruct (payload f !! 6%nat) as [a|] eqn:H6; [|done].
  destruct (payload f !! 7%nat) as [b|] eqn:H7; [|done].
  pose proof (is_byte_lookup _ _ _ Hp H6). pose proof (is_byte_lookup _ _ _ Hp H7).
  destruct (decide (i < 6)%nat) as [Hi6|Hi6].
  - rewrite !list_lookup_insert_ne in Hh by lia. rewrite H6, H7 in Hh.
    rewrite Hg in Hh. injection Hh as E. rewrite take_insert_lt in E by done.
    rewrite <- (take_drop_middle (take 6 (payload f)) i x) in E
      by (by rewrite lookup_take_lt).
    rewrite insert_app_r_alt in E by (rewrite length_take; lia).
    rewrite length_take, length_take in E.
    assert (i < length (payload f))%nat by (by eapply lookup_lt_Some).
    replace (i - i `min` (6 `min` length (payload f)))%nat with 0%nat in E by lia.
    cbn [insert list_insert] in E. symmetry.
    eapply (crc_detects (push16 (ethertype f) ++ take i (take 6 (payload f))));
      [done..| |exact E].
    by apply Forall_drop, Forall_take.
  - rewrite take_insert_ge in Hh by lia. rewrite <- Hg in Hh.
    assert (length (payload f) > 7)%nat by (by eapply lookup_lt_Some).
    destruct (decide (i = 6)%nat) as [->|].
    + rewrite list_lookup_insert_eq, list_lookup_insert_ne, H7 in Hh by lia.
      rewrite H6 in Hx. injection Hx as ->. injection Hh as E. by apply be16_inj in E as [-> _].
    + assert (i = 7)%nat as -> by lia.
      rewrite list_lookup_insert_eq, list_lookup_insert_ne, H6 in Hh by lia.
      rewrite H7 in Hx. injection Hx as ->. injection Hh as E. by apply be16_inj in E as [_ ->].
Qed.

Definition sample_secure_frame : EthernetFrame :=
  match SecureGooseFrame_serialize (fun _ _ => repeat 0 32) sample_frame [] with
  | Ok f => f
  | Err _ => mkEthernetFrame [] [] None 0 []
  end.

Lemma secure_header_corruption_witness :
  exists e, SecureGooseFrame_decode (fun _ _ => repeat 0 32) []
    (mkEthernetFrame (destination sample_secure_frame) (source sample_secure_frame)
       (eth_802_1q_tag sample_secure_frame) (ethertype sample_secure_frame)
       (<[1%nat := 2]> (payload sample_secure_frame))) None = Err e.
Proof.
  eapply secure_header_corruption with (mem := []) (key := None) (x := 1);
    [vm_compute; reflexivity| |lia|vm_compute; reflexivity|unfold is_byte; lia|lia].
  apply (bool_decide_unpack _). vm_compute. exact I.
Defined.
