(* ===== verification/GooseSender.v ===== *)
(** * The GOOSE sender

    [goose-lib/libs/goose/src/sender.cpp] with [sender.hpp]: the packets that
    are built with their numbers, and the thread that retransmits the current
    packet.  [run] is one call: [during] are the packets other threads send
    while it waits on the condition variable (which releases the mutex), and
    [stop] is whether [stop_flag] is set when it wakes up.  A wait whose
    condition holds already keeps the mutex.  HMAC-SHA256 is a
    parameter, as for the frames. *)
From S2P Require Import Prelude Bytes Goose.
From stdpp Require Import base tactics list numbers strings.
Open Scope Z_scope.
Open Scope everest_scope.

(** [SendPacketIntf] and the two classes that implement it. *)
Inductive SendPacket :=
  | SendPacketNormal (frame : GooseFrame)
  | SendPacketSecure (frame : GooseFrame) (hmac_key : list Z).

Record PerPacketInfo := mkPerPacketInfo { info_sq_num : Z; info_st_num : Z }.

(** [frame.pdu.st_num = info.st_num; frame.pdu.sq_num = info.sq_num]. *)
Definition set_numbers (info : PerPacketInfo) (g : GooseFrame) : GooseFrame :=
  let p := pdu g in
  mkGooseFrame (source_mac_address g) (destination_mac_address g) (appid g)
    (mkGoosePDU (go_cb_ref p) (time_allowed_to_live p) (dat_set p) (go_id p) (timestamp p)
       (info_st_num info) (info_sq_num info) (simulation p) (conf_rev p) (ndsCom p)
       (apdu_entries p))
    (priority g) (vlan_id g).

Record sender_state := mkSender {
  t0 : Z;
  ts : list Z;
  current_ts_index : nat;
  thread : bool;
  stop_flag : bool;
  has_new_package : bool;
  current_packet : option SendPacket;
  s_st_num : Z;
  s_sq_num : Z;
}.

(** What one call of [run] did: the limit of its wait ([None] when it waited
    for the first packet), whether the wait ended without waiting, and the
    packet it sent (the error when the packet could not be built, which is
    only logged). *)
Record run_report := mkReport {
  wait_limit : option Z;
  at_once : bool;
  transmitted : option (PerPacketInfo * codec EthernetFrame);
}.

Section Sender.
Context (hmac_sha256 : list Z -> list Z -> list Z).

(** [build_packet]: the frame keeps the numbers. *)
Definition build_packet (info : PerPacketInfo) (p : SendPacket)
  : codec EthernetFrame * SendPacket :=
  match p with
  | SendPacketNormal frame =>
      let frame := set_numbers info frame in
      (GooseFrame_serialize frame, SendPacketNormal frame)
  | SendPacketSecure frame hmac_key =>
      let frame := set_numbers info frame in
      (SecureGooseFrame_serialize hmac_sha256 frame hmac_key, SendPacketSecure frame hmac_key)
  end.

Definition new_Sender (t0 : Z) (ts : list Z) : sender_state :=
  mkSender t0 ts 0 false false false None 0 0.

(** [send]: the comparison is one of two [unique_ptr]s that own different
    objects, and false. *)
Definition send (p : SendPacket) (s : sender_state) : sender_state :=
  mkSender (t0 s) (ts s) 0 (thread s) (stop_flag s) true (Some p) (u16 (s_st_num s + 1)) 0.

Definition set_stop_flag (b : bool) (s : sender_state) : sender_state :=
  mkSender (t0 s) (ts s) (current_ts_index s) (thread s) b (has_new_package s)
    (current_packet s) (s_st_num s) (s_sq_num s).

Definition set_thread (b : bool) (s : sender_state) : sender_state :=
  mkSender (t0 s) (ts s) (current_ts_index s) b (stop_flag s) (has_new_package s)
    (current_packet s) (s_st_num s) (s_sq_num s).

Definition set_ts_index (i : nat) (s : sender_state) : sender_state :=
  mkSender (t0 s) (ts s) i (thread s) (stop_flag s) (has_new_package s)
    (current_packet s) (s_st_num s) (s_sq_num s).

Definition set_has_new_package (b : bool) (s : sender_state) : sender_state :=
  mkSender (t0 s) (ts s) (current_ts_index s) (thread s) (stop_flag s) b
    (current_packet s) (s_st_num s) (s_sq_num s).

(** [start]: the loop of the thread calls [run] until the flag is set. *)
Definition start (s : sender_state) : sender_state := set_thread true (set_stop_flag false s).

(** [stop], once the thread has been joined. *)
Definition stop (s : sender_state) : sender_state :=
  set_stop_flag false (if thread s then set_thread false (set_stop_flag true s) else s).

(** The other threads while [run] waits. *)
Definition wait (during : list SendPacket) (stop : bool) (s : sender_state) : sender_state :=
  let s := foldl (fun s p => send p s) s during in
  set_stop_flag (stop_flag s || stop) s.

(** The end of [run]: [current_packet.value()] throws without a packet, and
    the exception is caught like one of [build_packet]. *)
Definition transmit (limit : option Z) (at_once : bool) (s : sender_state)
  : run_report * sender_state :=
  if stop_flag s then (mkReport limit at_once None, s)
  else
    let info := mkPerPacketInfo (s_sq_num s) (s_st_num s) in
    match current_packet s with
    | None =>
        (mkReport limit at_once None,
         mkSender (t0 s) (ts s) (current_ts_index s) (thread s) (stop_flag s)
           (has_new_package s) None (s_st_num s) (u16 (s_sq_num s + 1)))
    | Some p =>
        let (built, p) := build_packet info p in
        (mkReport limit at_once (Some (info, built)),
         mkSender (t0 s) (ts s) (current_ts_index s) (thread s) (stop_flag s)
           (has_new_package s) (Some p) (s_st_num s) (u16 (s_sq_num s + 1)))
    end.

(** [run]; [None] while the wait for the first packet goes on. *)
Definition run (during : list SendPacket) (stop : bool) (s : sender_state)
  : option (run_report * sender_state) :=
  if stop_flag s then Some (mkReport None true None, s)
  else
    match current_packet s with
    | None =>
        let s := wait during stop s in
        if stop_flag s || bool_decide (is_Some (current_packet s))
        then Some (transmit None false s)
        else None
    | Some _ =>
        let limit := default (t0 s) (ts s !! current_ts_index s) in
        let s := if (current_ts_index s <? length (ts s))%nat
                 then set_ts_index (S (current_ts_index s)) s else s in
        let at_once := has_new_package s in
        let s := wait (if at_once then [] else during) stop s in
        Some (transmit (Some limit) at_once (set_has_new_package false s))
    end.

(** A run of the system: the operations of the sender in any order. *)
Inductive sender_op :=
  | Send (p : SendPacket)
  | Start
  | Stop
  | Run (during : list SendPacket) (stop : bool).

Definition sender_step (s : sender_state) (op : sender_op)
  : list run_report * sender_state :=
  match op with
  | Send p => ([], send p s)
  | Start => ([], start s)
  | Stop => ([], stop s)
  | Run during b =>
      match run during b s with
      | Some (r, s') => ([r], s')
      | None => ([], wait during b s)
      end
  end.

Fixpoint sender_run (s : sender_state) (ops : list sender_op)
  : list run_report * sender_state :=
  match ops with
  | [] => ([], s)
  | op :: ops =>
      let (rs, s') := sender_step s op in
      let (rs', s'') := sender_run s' ops in
      (rs ++ rs', s'')
  end.
End Sender.
