(* ===== verification/GooseSenderProperties.v ===== *)
(** * Properties of the GOOSE sender

    What the receiver of a GOOSE stream relies on: the state number counts the
    packets, the sequence number the transmissions of one packet, and a packet
    is repeated after the given delays. *)
From S2P Require Import Prelude Bytes Goose GooseProofs GooseProperties GooseSender.
From stdpp Require Import base tactics list numbers strings.
Open Scope Z_scope.
Open Scope everest_scope.

Section Spec.
Context (hmac_sha256 : list Z -> list Z -> list Z).
Abbreviation build := (build_packet hmac_sha256).

(** The promised stream: how many packets were handed over, the last one,
    and how often it was transmitted. *)
Record stream := mkStream { sends : Z; latest : option SendPacket; since : Z }.

(** What is seen of the sender: a packet is handed over, and a frame is sent with
    its numbers. *)
Inductive action := handed (p : SendPacket) | sent (x : PerPacketInfo * codec EthernetFrame).

(** Handing over counts and replaces the packet; what is sent is the packet with
    the numbers of the stream, and nothing else. *)
Inductive stream_step : stream -> action -> stream -> Prop :=
  | stream_hand n l k p : stream_step (mkStream n l k) (handed p) (mkStream (n + 1) (Some p) 0)
  | stream_send n p k :
      let info := mkPerPacketInfo (u16 k) (u16 n) in
      stream_step (mkStream n (Some p) k) (sent (info, fst (build info p)))
        (mkStream n (Some p) (k + 1)).

Inductive stream_steps : stream -> list action -> stream -> Prop :=
  | steps_nil a : stream_steps a [] a
  | steps_cons a b c x l : stream_step a x b -> stream_steps b l c -> stream_steps a (x :: l) c.

Lemma steps_one a x b : stream_step a x b -> stream_steps a [x] b.
Proof. intros H. eapply steps_cons; [done|constructor]. Qed.

Lemma steps_trans a l1 b l2 c :
  stream_steps a l1 b -> stream_steps b l2 c -> stream_steps a (l1 ++ l2) c.
Proof.
  induction 1 as [|a b' c' x l Hs _ IH]; [done|]. intros H. simpl. eapply steps_cons; [done|auto].
Qed.

(** The packets an operation hands over, in their order: those of the other threads
    are taken only while [run] waits. *)
Definition handed_in (s : sender_state) (op : sender_op) : list SendPacket :=
  match op with
  | Send p => [p]
  | Run during _ =>
      if stop_flag s || bool_decide (is_Some (current_packet s)) && has_new_package s then [] else during
  | _ => []
  end.

(** What is seen of some operations. *)
Fixpoint sender_trace (s : sender_state) (ops : list sender_op) : list action :=
  match ops with
  | [] => []
  | op :: ops =>
      let (rs, s') := sender_step hmac_sha256 s op in
      map handed (handed_in s op) ++ map sent (omap transmitted rs) ++ sender_trace s' ops
  end.

(** The packet the sender keeps has the numbers of its last transmission;
    the next one replaces them. *)
Definition same_packet (p q : SendPacket) : Prop := forall info, build info p = build info q.

Lemma build_again info p : same_packet (snd (build info p)) p.
Proof. intros info'. by destruct p. Qed.

Record simulates (a : stream) (s : sender_state) : Prop := mkSimulates {
  sim_st : s_st_num s = u16 (sends a);
  sim_sq : s_sq_num s = u16 (since a);
  sim_packet : option_Forall2 same_packet (current_packet s) (latest a);
}.

Lemma u16_succ z : u16 (u16 z + 1) = u16 (z + 1).
Proof. unfold u16, wrap. by rewrite Zplus_mod_idemp_l. Qed.

Lemma simulates_send a s p :
  simulates a s -> exists b, stream_steps a [handed p] b /\ simulates b (send p s).
Proof.
  intros [H1 H2 H3]. destruct a as [n l k]. eexists. split; [apply steps_one; constructor|].
  split; simpl; [by rewrite H1, u16_succ|done|]. by constructor.
Qed.

Lemma simulates_wait during stop a s :
  simulates a s -> exists b, stream_steps a (map handed during) b /\ simulates b (wait during stop s).
Proof.
  intros H. assert (exists b, stream_steps a (map handed during) b
    /\ simulates b (foldl (fun s p => send p s) s during)) as (b & Hb & [H1 H2 H3]).
  { revert a s H. induction during as [|p ps IH]; intros a s H; [eexists; split; [constructor|done]|].
    destruct (simulates_send a s p H) as (b & Hb & Hs). destruct (IH b _ Hs) as (c & Hc & ?).
    exists c. split; [|done]. by apply (steps_trans a [handed p] b (map handed ps) c). }
  exists b. split; [done|]. by split.
Qed.

(** A transmission of the sender is one of the stream. *)
Lemma simulates_transmit limit at_once a s :
  simulates a s -> stop_flag s = true \/ is_Some (current_packet s) ->
  let (r, s') := transmit hmac_sha256 limit at_once s in
  exists b, stream_steps a (map sent (option_list (transmitted r))) b /\ simulates b s'.
Proof.
  intros [H1 H2 H3] Hp. unfold transmit. destruct (stop_flag s) eqn:Hstop.
  { exists a. split; [constructor|done]. }
  destruct Hp as [|[p Hp]]; [done|]. rewrite Hp in *. inversion H3 as [? q Hq Hl|]; subst.
  rewrite H1, H2. set (info := mkPerPacketInfo _ _). pose proof (build_again info p) as Hb.
  rewrite (Hq info) in *. destruct (build info q) as [built p'] eqn:Hbuild.
  destruct a as [n l k]. simpl in *. subst l. eexists. split.
  - apply steps_one. pose proof (stream_send n q k) as Hs. simpl in Hs. fold info in Hs.
    by rewrite Hbuild in Hs.
  - split; simpl; [done|by rewrite u16_succ|]. constructor. intros i. by rewrite Hb.
Qed.

Lemma packet_kept during stop s :
  is_Some (current_packet s) \/ during <> [] -> is_Some (current_packet (wait during stop s)).
Proof.
  intros H. unfold wait. simpl. revert s H. induction during as [|p ps IH]; intros s H; [by destruct H|].
  simpl. apply IH. left. by eexists.
Qed.

Lemma simulates_run during stop a s r s' :
  simulates a s -> run hmac_sha256 during stop s = Some (r, s') ->
  exists b, stream_steps a (map handed (handed_in s (Run during stop))
                            ++ map sent (option_list (transmitted r))) b /\ simulates b s'.
Proof.
  intros Ha. unfold run, handed_in.
  destruct (stop_flag s); [|destruct (current_packet s) as [p|] eqn:Hp]; cbn [orb].
  - intros [= <- <-]. exists a. split; [constructor|done].
  - rewrite bool_decide_true by done. cbn [andb].
    set (s1 := if (_ <? _)%nat then _ else s).
    assert (has_new_package s1 = has_new_package s) as Hn by (unfold s1; by case_match).
    rewrite Hn. set (d := if has_new_package s then _ else _).
    assert (simulates a s1 /\ is_Some (current_packet s1)) as [Hs1 Hp1].
    { destruct Ha as [H1 H2 H3]. unfold s1. case_match; (split; [by split|simpl; by eexists]). }
    destruct (simulates_wait d stop a s1 Hs1) as (b & Hb & [H1 H2 H3]).
    pose proof (packet_kept d stop s1 (or_introl Hp1)) as Hk.
    set (s2 := set_has_new_package false (wait d stop s1)).
    assert (simulates b s2) as Hs2 by (by split).
    pose proof (simulates_transmit (Some (default (t0 s) (ts s !! current_ts_index s)))
      (has_new_package s) b s2 Hs2 (or_intror Hk)) as Ht.
    destruct (transmit _ _ _ s2) as [r' s3]. intros [= <- <-]. destruct Ht as (c & Hc & Hs3).
    exists c. split; [|done]. by apply (steps_trans a _ b).
  - destruct (simulates_wait during stop a s Ha) as (b & Hb & Hs).
    destruct (stop_flag (wait during stop s) || _) eqn:Hw; [|done].
    pose proof (simulates_transmit None false b _ Hs) as Ht.
    destruct (transmit _ _ _ (wait during stop s)) as [r' s3]. intros [= <- <-].
    destruct Ht as (c & Hc & Hs3).
    { apply orb_true_iff in Hw as [|Hw]; [by left|right]. by apply bool_decide_eq_true in Hw. }
    exists c. split; [|done]. rewrite bool_decide_false by (by intros []). by apply (steps_trans a _ b).
Qed.

Lemma simulates_step a s op :
  simulates a s ->
  let (rs, s') := sender_step hmac_sha256 s op in
  exists b, stream_steps a (map handed (handed_in s op) ++ map sent (omap transmitted rs)) b
            /\ simulates b s'.
Proof.
  intros Ha. destruct op as [p| | |during stop]; simpl.
  - by apply simulates_send.
  - exists a. split; [constructor|]. by destruct Ha.
  - exists a. split; [constructor|]. destruct Ha. unfold GooseSender.stop. by case_match.
  - destruct (run hmac_sha256 during stop s) as [[r s']|] eqn:Hr.
    + destruct (simulates_run _ _ _ _ _ _ Ha Hr) as (b & Hb & Hs). exists b. split; [|done].
      simpl in *. by destruct (transmitted r).
    + unfold run in Hr. destruct (stop_flag s); [done|]. destruct (current_packet s) eqn:Hp; [done|].
      rewrite bool_decide_false by (by intros []). simpl. rewrite app_nil_r. by apply simulates_wait.
Qed.

Lemma simulates_all a s ops :
  simulates a s ->
  exists b, stream_steps a (sender_trace s ops) b /\ simulates b (snd (sender_run hmac_sha256 s ops)).
Proof.
  revert a s. induction ops as [|op ops IH]; intros a s Ha; simpl.
  { exists a. split; [constructor|done]. }
  pose proof (simulates_step a s op Ha) as Hs.
  destruct (sender_step hmac_sha256 s op) as [rs s1]. destruct Hs as (b & Hb & H1).
  specialize (IH b s1 H1). destruct (sender_run hmac_sha256 s1 ops) as [rs' s2].
  destruct IH as (c & Hc & H2). exists c. split; [|done]. rewrite app_assoc. by apply (steps_trans a _ b).
Qed.

Lemma stop_flag_wait during s : stop_flag (wait during false s) = stop_flag s.
Proof.
  unfold wait. simpl. rewrite orb_false_r. revert s. induction during as [|p ps IH]; intros s; [done|].
  simpl. by rewrite IH.
Qed.

(** A run that is not stopped sends. *)
Lemma run_transmits during s :
  stop_flag s = false -> is_Some (current_packet s) \/ during <> [] ->
  exists r s', run hmac_sha256 during false s = Some (r, s') /\ is_Some (transmitted r).
Proof.
  intros Hs Hp.
  assert (forall limit b s', stop_flag s' = false -> is_Some (current_packet s') ->
    is_Some (transmitted (fst (transmit hmac_sha256 limit b s')))) as Ht.
  { intros limit b s' H1 [p H2]. unfold transmit. rewrite H1, H2. by destruct (build _ p). }
  unfold run. rewrite Hs. destruct (current_packet s) as [p|] eqn:Ep.
  - set (s1 := if (_ <? _)%nat then _ else s). set (d := if has_new_package s1 then _ else _).
    match goal with |- context [transmit _ ?l ?b ?s2] =>
      specialize (Ht l b s2); destruct (transmit hmac_sha256 l b s2) as [r s3] eqn:E end.
    exists r, s3. split; [done|]. apply Ht.
    + change (stop_flag (wait d false s1) = false). rewrite stop_flag_wait. unfold s1. by case_match.
    + apply (packet_kept d false s1). left. unfold s1. case_match; simpl; by rewrite ?Ep; eexists.
  - assert (is_Some (current_packet (wait during false s))) as Hk.
    { apply packet_kept. right. destruct Hp as [[? ?]|?]; [congruence|done]. }
    rewrite (bool_decide_true _ Hk), orb_true_r.
    specialize (Ht None false (wait during false s)). rewrite stop_flag_wait in Ht.
    destruct (transmit _ _ _ _) as [r s3]. exists r, s3. split; [done|]. by apply Ht.
Qed.

(** C38: whatever packets are handed over and whenever, also during a wait
    or around a stop, what is seen of the sender is a run of the stream: each
    frame it sends is the packet that was handed over last before, its state
    number is the number of packets handed over so far and its sequence number
    the number of earlier transmissions of this packet, both modulo 2^16; and a
    call of [run] that is not stopped and has a packet, or gets one while it
    waits, sends a frame. *)
Theorem sender_refines_stream t ts ops :
  (exists b, stream_steps (mkStream 0 None 0) (sender_trace (new_Sender t ts) ops) b
    /\ simulates b (snd (sender_run hmac_sha256 (new_Sender t ts) ops)))
  /\ let s := snd (sender_run hmac_sha256 (new_Sender t ts) ops) in
     forall during, stop_flag s = false -> is_Some (current_packet s) \/ during <> [] ->
     exists r s', run hmac_sha256 during false s = Some (r, s') /\ is_Some (transmitted r).
Proof.
  split; [by apply simulates_all; split; [..|constructor]|]. intros s during. apply run_transmits.
Qed.

(** ** Retransmission *)

(** The waits of the next runs when nothing new is handed over. *)
Definition quiet_runs (n : nat) (s : sender_state) : list run_report :=
  fst (sender_run hmac_sha256 s (replicate n (Run [] false))).

Lemma quiet_run p s :
  stop_flag s = false -> has_new_package s = false -> current_packet s = Some p ->
  exists r s', run hmac_sha256 [] false s = Some (r, s')
    /\ (wait_limit r, at_once r) = (Some (default (t0 s) (ts s !! current_ts_index s)), false)
    /\ is_Some (transmitted r)
    /\ stop_flag s' = false /\ has_new_package s' = false /\ is_Some (current_packet s')
    /\ t0 s' = t0 s /\ ts s' = ts s
    /\ (current_ts_index s' = S (current_ts_index s)
        \/ current_ts_index s' = current_ts_index s
           /\ (length (ts s) <= current_ts_index s)%nat).
Proof.
  intros Hstop Hnew Hp. unfold run. rewrite Hstop, Hp.
  set (i := current_ts_index s). destruct (Nat.ltb_spec i (length (ts s))); unfold transmit; simpl;
    rewrite Hnew; simpl; rewrite Hstop; simpl; rewrite Hp; destruct (build _ p) as [f p'];
    eexists _, _; (split; [reflexivity|]); simpl; rewrite ?Hstop; split_and!; eauto.
Qed.

Lemma quiet_waits n s p :
  stop_flag s = false -> has_new_package s = false -> current_packet s = Some p ->
  map (fun r => (wait_limit r, at_once r)) (quiet_runs n s)
  = map (fun i => (Some (default (t0 s) (ts s !! i)), false)) (seq (current_ts_index s) n)
  /\ Forall (fun r => is_Some (transmitted r)) (quiet_runs n s).
Proof.
  revert s p. induction n as [|n IH]; intros s p Hstop Hnew Hp; [done|].
  destruct (quiet_run p s Hstop Hnew Hp)
    as (r & s' & Hr & Hw & Ht & Hstop' & Hnew' & [p' Hp'] & E1 & E2 & Hi).
  unfold quiet_runs in *. simpl. rewrite Hr. specialize (IH s' p' Hstop' Hnew' Hp').
  destruct (sender_run hmac_sha256 s' (replicate n (Run [] false))) as [rs s''].
  destruct IH as [IH1 IH2]. simpl in *. split; [|by constructor]. rewrite Hw, IH1, E1, E2.
  f_equal. destruct Hi as [->|[-> Hl]]; [done|].
  rewrite <- seq_shift, map_map. apply map_ext_in. intros i Hin. apply in_seq in Hin.
  by rewrite !lookup_ge_None_2 by lia.
Qed.

(** After a packet that is handed over while the sender waits, the
    packet is repeated after the delays of [ts], one after the other, and
    then every [t0], as long as nothing else is handed over; every repeat
    is a transmission. *)
Theorem retransmission_schedule n s p r s' :
  stop_flag s = false -> has_new_package s = false -> is_Some (current_packet s) ->
  run hmac_sha256 [p] false s = Some (r, s') ->
  is_Some (transmitted r)
  /\ map (fun r => (wait_limit r, at_once r)) (quiet_runs n s')
     = map (fun i => (Some (default (t0 s) (ts s !! i)), false)) (seq 0 n)
  /\ Forall (fun r => is_Some (transmitted r)) (quiet_runs n s').
Proof.
  intros Hstop Hnew [q Hq]. unfold run. rewrite Hstop, Hq. set (i := current_ts_index s).
  destruct (Nat.ltb_spec i (length (ts s))); unfold transmit; simpl; rewrite Hnew; simpl;
    rewrite Hstop; simpl; destruct (build _ p) as [f p']; intros [= <- <-];
    (split; [by eexists|]); by eapply (quiet_waits n).
Qed.
End Spec.

(** The sender waiting after its first packet. *)
Definition busy_sender : sender_state :=
  snd (sender_run (fun _ _ => []) (new_Sender 5000 [2; 4])
         [Start; Send (SendPacketNormal sample_frame); Run [] false]).

Lemma sender_refines_stream_witness :
  (exists b, stream_steps (fun _ _ => []) (mkStream 0 None 0)
     (sender_trace (fun _ _ => []) (new_Sender 5000 [2; 4])
        [Start; Send (SendPacketNormal sample_frame); Run [] false]) b /\ simulates (fun _ _ => []) b busy_sender)
  /\ exists r s', run (fun _ _ => []) [SendPacketNormal sample_frame] false busy_sender = Some (r, s')
                  /\ is_Some (transmitted r).
Proof.
  destruct (sender_refines_stream (fun _ _ => []) 5000 [2; 4]
    [Start; Send (SendPacketNormal sample_frame); Run [] false]) as [Hs Hr].
  split; [exact Hs|]. apply Hr; [vm_compute; reflexivity|right; discriminate].
Defined.

Lemma retransmission_schedule_witness :
  exists r s', run (fun _ _ => []) [SendPacketNormal sample_frame] false busy_sender = Some (r, s')
    /\ map (fun r => (wait_limit r, at_once r)) (quiet_runs (fun _ _ => []) 4 s')
       = [(Some 2, false); (Some 4, false); (Some 5000, false); (Some 5000, false)].
Proof.
  destruct (run (fun _ _ => []) [SendPacketNormal sample_frame] false busy_sender)
    as [[r s']|] eqn:Hr; [|vm_compute in Hr; discriminate].
  exists r, s'. split; [done|].
  assert (is_Some (current_packet busy_sender)) as Hp by (vm_compute; by eexists).
  exact (proj1 (proj2 (retransmission_schedule (fun _ _ => []) 4 busy_sender
    (SendPacketNormal sample_frame) r s' ltac:(vm_compute; reflexivity)
    ltac:(vm_compute; reflexivity) Hp Hr))).
Defined.

(** The very first packet is transmitted twice in a row: the wait for it
    leaves [has_new_package] set, and the next run does not wait. *)
Example first_packet_sent_twice :
  map (fun r => (wait_limit r, at_once r, bool_decide (is_Some (transmitted r))))
    (fst (sender_run (fun _ _ => []) (new_Sender 5000 [2; 4])
       [Start; Run [SendPacketNormal sample_frame] false; Run [] false; Run [] false]))
  = [(None, false, true); (Some 2, true, true); (Some 4, false, true)].
Proof. vm_compute. reflexivity. Qed.
