(* ===== verification/Modbus.v ===== *)
(** * The Modbus server of the Huawei power supply driver

    [modbus-server/libs/base/src/frames.cpp] with [frames/*.cpp] (the PDUs),
    [modbus_protocol.cpp] (Modbus TCP), [pdu_correlation.cpp] (requests and
    their responses) and [server/src/server.cpp] (the server).  The transport
    is the byte stream of its interface [ModbusTransport]: [read_bytes]
    returns the number of bytes asked for or throws, [write_bytes] writes all
    bytes or throws when the connection is closed. *)
From S2P Require Import Prelude Bytes Goose.
From stdpp Require Import base tactics list numbers strings pretty.
Open Scope Z_scope.
Open Scope everest_scope.

(** ** PDUs ([frames.cpp]) *)

Record GenericPDU := mkGenericPDU { function_code : Z; pdu_data : list Z }.

#[global] Instance GenericPDU_eq_dec : EqDecision GenericPDU.
Proof. solve_decision. Defined.

(** The exceptions, without the texts that are only logged:
    [std_exception] is any other [std::exception], [no_response] the timeout
    of a request, [foreign_exception] anything a handler may throw that is not a
    [std::exception]. *)
Inductive modbus_error : Type :=
| EncodingError (encode_class : string)
| DecodingError (original_data : GenericPDU) (decode_class : string)
| ApplicationServerError (exception_code : Z) (other_data : list Z)
| ConnectionClosed
| no_response
| std_exception
| foreign_exception.

Abbreviation modbus := (result modbus_error).

(** [GenericPDU::GenericPDU(data_with_function_code)]. *)
Definition GenericPDU_decode (data_with_function_code : list Z) : modbus GenericPDU :=
  match data_with_function_code with
  | [] => Err (EncodingError "GenericPDU")
  | f :: rest => Ok (mkGenericPDU f rest)
  end.

Definition GenericPDU_to_vector (p : GenericPDU) : list Z := function_code p :: pdu_data p.

Definition GenericPDU_to_string (p : GenericPDU) : string :=
  ("GenericPDU(fn_code: " +:+ pretty (function_code p) +:+ ", data: ["
   +:+ String.concat ", " (map pretty (pdu_data p)) +:+ "])")%string.

(** [PDUExceptionCode], by its values. *)
Definition ILLEGAL_FUNCTION : Z := 1.
Definition ILLEGAL_DATA_ADDRESS : Z := 2.
Definition ILLEGAL_DATA_VALUE : Z := 3.
Definition SERVER_DEVICE_FAILURE : Z := 4.

Definition exception_code_to_string (code : Z) : string :=
  match code with
  | 1 => "ILLEGAL_FUNCTION"
  | 2 => "ILLEGAL_DATA_ADDRESS"
  | 3 => "ILLEGAL_DATA_VALUE"
  | 4 => "SERVER_DEVICE_FAILURE"
  | 5 => "ACKNOWLEDGE"
  | 6 => "SERVER_DEVICE_BUSY"
  | 8 => "MEMORY_PARITY_ERROR"
  | 10 => "GATEWAY_PATH_UNAVAILABLE"
  | 11 => "GATEWAY_TARGET_DEVICE_FAILED_TO_RESPOND"
  | _ => ("Unknown (" +:+ pretty (u8 code) +:+ ")")%string
  end.

Record ErrorPDU := mkErrorPDU { e_function_code : Z; e_exception_code : Z }.

(** The constructor of [ErrorPDU]. *)
Definition new_ErrorPDU (function_code exception_code : Z) : ErrorPDU :=
  mkErrorPDU (Z.land function_code 127) exception_code.

Definition ErrorPDU_from_generic (g : GenericPDU) : modbus ErrorPDU :=
  if Z.land (function_code g) 128 =? 0 then Err (DecodingError g "ErrorPDU")
  else match pdu_data g with
  | [code] => Ok (mkErrorPDU (Z.land (function_code g) 127) code)
  | _ => Err (DecodingError g "ErrorPDU")
  end.

Definition ErrorPDU_to_generic (e : ErrorPDU) : GenericPDU :=
  mkGenericPDU (u8 (Z.lor (e_function_code e) 128)) [e_exception_code e].

(** [PDUException::PDUException(pdu)]: the exception code. *)
Definition PDUException_code (g : GenericPDU) : modbus Z :=
  match pdu_data g with
  | [code] => Ok code
  | _ => Err (DecodingError g "PDUException")
  end.

(** [(a << 8) | b] in 16 bits. *)
Definition be16 (a b : Z) : Z := u16 (Z.lor (Z.shiftl a 8) b).

(** *** Read holding registers *)

Record ReadHoldingRegistersRequest := mkReadRequest {
  rr_register_start : Z;
  rr_register_count : Z;
}.

Definition ReadRequest_from_generic (g : GenericPDU) : modbus ReadHoldingRegistersRequest :=
  let error := Err (DecodingError g "ReadHoldingRegisterRequest") in
  if negb (function_code g =? 3) then error
  else match pdu_data g with
  | [a; b; c; d] =>
      if be16 c d =? 0 then error
      else if 125 <? be16 c d then error
      else Ok (mkReadRequest (be16 a b) (be16 c d))
  | _ => error
  end.

Definition ReadRequest_to_generic (r : ReadHoldingRegistersRequest) : modbus GenericPDU :=
  Ok (mkGenericPDU 3 (push16 (rr_register_start r) ++ push16 (rr_register_count r))).

Record ReadHoldingRegistersResponse := mkReadResponse {
  rs_register_count : Z;
  rs_register_data : list Z;
}.

(** The server-side constructor. *)
Definition new_ReadResponse (r : ReadHoldingRegistersRequest) (data : list Z)
  : ReadHoldingRegistersResponse := mkReadResponse (rr_register_count r) data.

Definition ReadResponse_from_generic (g : GenericPDU) : modbus ReadHoldingRegistersResponse :=
  let error := Err (DecodingError g "ReadHoldingRegisterResponse") in
  if negb (function_code g =? 3) then error
  else match pdu_data g with
  | [] => error
  | n :: rest =>
      let register_count := n / 2 in
      if negb (Z.of_nat (length (pdu_data g)) =? register_count * 2 + 1) then error
      else Ok (mkReadResponse register_count rest)
  end.

Definition ReadResponse_to_generic (r : ReadHoldingRegistersResponse) : modbus GenericPDU :=
  if 125 <? rs_register_count r then Err (EncodingError "ReadHoldingRegistersResponse")
  else if negb (Z.of_nat (length (rs_register_data r)) =? rs_register_count r * 2)
  then Err (EncodingError "ReadHoldingRegistersResponse")
  else Ok (mkGenericPDU 3 (u8 (rs_register_count r * 2) :: rs_register_data r)).

(** [get_register_data]: an odd number of bytes is read past its end. *)
Fixpoint get_register_data (data : list Z) : codec (list Z) :=
  match data with
  | [] => Ok []
  | a :: b :: rest => letr words := get_register_data rest in Ok (be16 a b :: words)
  | [_] => Err out_of_bounds
  end.

(** *** Write multiple registers *)

Record WriteMultipleRegistersRequest := mkWriteRequest {
  wr_register_start : Z;
  wr_register_count : Z;
  wr_register_data : list Z;
}.

Definition WriteRequest_from_generic (g : GenericPDU) : modbus WriteMultipleRegistersRequest :=
  let error := Err (DecodingError g "WriteMultipleRegistersRequest") in
  if negb (function_code g =? 16) then error
  else match pdu_data g with
  | a :: b :: c :: d :: byte_count :: rest =>
      let register_count := be16 c d in
      if 123 <? register_count then error
      else if negb (byte_count =? register_count * 2) then error
      else if negb (Z.of_nat (length (pdu_data g)) =? 5 + register_count * 2) then error
      else Ok (mkWriteRequest (be16 a b) register_count rest)
  | _ => error
  end.

Definition WriteRequest_to_generic (r : WriteMultipleRegistersRequest) : modbus GenericPDU :=
  if 123 <? wr_register_count r then Err (EncodingError "WriteMultipleRegistersRequest")
  else if negb (Z.of_nat (length (wr_register_data r)) =? wr_register_count r * 2)
  then Err (EncodingError "WriteMultipleRegistersRequest")
  else Ok (mkGenericPDU 16 (push16 (wr_register_start r) ++ push16 (wr_register_count r)
             ++ u8 (wr_register_count r * 2) :: wr_register_data r)).

Record WriteMultipleRegistersResponse := mkWriteResponse {
  ws_register_start : Z;
  ws_register_count : Z;
}.

Definition WriteResponse_from_generic (g : GenericPDU) : modbus WriteMultipleRegistersResponse :=
  let error := Err (DecodingError g "WriteMultipleRegistersResponse") in
  if negb (function_code g =? 16) then error
  else match pdu_data g with
  | [a; b; c; d] => Ok (mkWriteResponse (be16 a b) (be16 c d))
  | _ => error
  end.

Definition WriteResponse_to_generic (r : WriteMultipleRegistersResponse) : modbus GenericPDU :=
  Ok (mkGenericPDU 16 (push16 (ws_register_start r) ++ push16 (ws_register_count r))).

(** *** Write a single register: request and response have the same format. *)

Record WriteSingleRegister := mkWriteSingle {
  register_address : Z;
  register_value : Z;
}.

Definition WriteSingle_from_generic (g : GenericPDU) : modbus WriteSingleRegister :=
  let error := Err (DecodingError g "WriteSingleRegisterRequest") in
  if negb (function_code g =? 6) then error
  else match pdu_data g with
  | [a; b; c; d] => Ok (mkWriteSingle (be16 a b) (be16 c d))
  | _ => error
  end.

Definition WriteSingle_to_generic (r : WriteSingleRegister) : modbus GenericPDU :=
  Ok (mkGenericPDU 6 (push16 (register_address r) ++ push16 (register_value r))).

(** The interface [SpecificPDU]; [pdu_fits] says that the members fit their
    types. *)
Class SpecificPDU (A : Type) := {
  from_generic : GenericPDU -> modbus A;
  to_generic : A -> modbus GenericPDU;
  pdu_fits : A -> Prop;
}.

#[global] Instance ReadRequest_pdu : SpecificPDU ReadHoldingRegistersRequest := {|
  from_generic := ReadRequest_from_generic;
  to_generic := ReadRequest_to_generic;
  pdu_fits r := 0 <= rr_register_start r < 65536 /\ 0 <= rr_register_count r < 65536;
|}.

#[global] Instance ReadResponse_pdu : SpecificPDU ReadHoldingRegistersResponse := {|
  from_generic := ReadResponse_from_generic;
  to_generic := ReadResponse_to_generic;
  pdu_fits r := 0 <= rs_register_count r < 65536;
|}.

#[global] Instance WriteRequest_pdu : SpecificPDU WriteMultipleRegistersRequest := {|
  from_generic := WriteRequest_from_generic;
  to_generic := WriteRequest_to_generic;
  pdu_fits r := 0 <= wr_register_start r < 65536 /\ 0 <= wr_register_count r < 65536;
|}.

#[global] Instance WriteResponse_pdu : SpecificPDU WriteMultipleRegistersResponse := {|
  from_generic := WriteResponse_from_generic;
  to_generic := WriteResponse_to_generic;
  pdu_fits r := 0 <= ws_register_start r < 65536 /\ 0 <= ws_register_count r < 65536;
|}.

#[global] Instance WriteSingle_pdu : SpecificPDU WriteSingleRegister := {|
  from_generic := WriteSingle_from_generic;
  to_generic := WriteSingle_to_generic;
  pdu_fits r := 0 <= register_address r < 65536 /\ 0 <= register_value r < 65536;
|}.

#[global] Instance ErrorPDU_pdu : SpecificPDU ErrorPDU := {|
  from_generic := ErrorPDU_from_generic;
  to_generic e := Ok (ErrorPDU_to_generic e);
  pdu_fits e := 0 <= e_function_code e < 128 /\ 0 <= e_exception_code e < 256;
|}.

(** ** Modbus TCP ([modbus_protocol.cpp]) *)

(** The five bytes of a [Context]. *)
Record ModbusTCPContext := mkTCPContext {
  transaction_id : Z;
  protocol_id : Z;
  unit_id : Z;
}.

Definition to_context (c : ModbusTCPContext) : list Z :=
  push16 (transaction_id c) ++ push16 (protocol_id c) ++ [unit_id c].

(** [ModbusTCPContext::ModbusTCPContext(context)], which indexes the bytes. *)
Definition from_context (data : list Z) : modbus ModbusTCPContext :=
  match data with
  | a :: b :: c :: d :: u :: _ => Ok (mkTCPContext (be16 a b) (be16 c d) u)
  | _ => Err std_exception
  end.

(** The protocol with its transport: what can still be read, what was written,
    and whether the connection can still be written to. *)
Record tcp_state := mkTcp {
  sending_unit_id : Z;
  current_transaction_id : Z;
  tcp_input : list Z;
  tcp_output : list Z;
  tcp_writable : bool;
}.

Definition set_tcp_input (x : list Z) (s : tcp_state) : tcp_state :=
  mkTcp (sending_unit_id s) (current_transaction_id s) x (tcp_output s) (tcp_writable s).

(** [read_bytes]: the argument is converted to [size_t]. *)
Definition read_bytes (count : Z) (s : tcp_state) : modbus (list Z * tcp_state) :=
  if Z.of_nat (length (tcp_input s)) <? u64 count then Err ConnectionClosed
  else
    let n := Z.to_nat (u64 count) in
    Ok (take n (tcp_input s), set_tcp_input (drop n (tcp_input s)) s).

Definition write_bytes (bytes : list Z) (s : tcp_state) : modbus tcp_state :=
  if tcp_writable s
  then Ok (mkTcp (sending_unit_id s) (current_transaction_id s) (tcp_input s) (tcp_output s ++ bytes)
             (tcp_writable s))
  else Err ConnectionClosed.

Definition new_send_context (s : tcp_state) : list Z * tcp_state :=
  (to_context (mkTCPContext (current_transaction_id s) 0 (u8 (sending_unit_id s))),
   mkTcp (sending_unit_id s) (u16 (current_transaction_id s + 1)) (tcp_input s) (tcp_output s)
     (tcp_writable s)).

(** The members of the header: the context and the length. *)
Definition parse_header (header : list Z) : modbus (ModbusTCPContext * Z) :=
  match header with
  | a :: b :: c :: d :: e :: f :: u :: _ => Ok (mkTCPContext (be16 a b) (be16 c d) u, be16 e f)
  | _ => Err std_exception
  end.

Definition receive_blocking (s : tcp_state) : modbus (list Z * GenericPDU * tcp_state) :=
  letr (header, s) := read_bytes 7 s in
  letr (context, len) := parse_header header in
  letr (data, s) := read_bytes (len - 1) s in
  letr pdu := GenericPDU_decode data in
  Ok (to_context context, pdu, s).

(** [try_receive]: [ready] is whether the transport has something to read. *)
Definition try_receive (ready : bool) (s : tcp_state)
  : modbus (option (list Z * GenericPDU) * tcp_state) :=
  if negb ready then Ok (None, s)
  else
    letr (header, s) := read_bytes 7 s in
    letr (context, len) := parse_header header in
    if len <=? 1 then Ok (None, s)
    else
      letr (data, s) := read_bytes (len - 1) s in
      letr pdu := GenericPDU_decode data in
      Ok (Some (to_context context, pdu), s).

(** The frame [send_blocking] writes. *)
Definition tcp_frame (pdu : GenericPDU) (context : ModbusTCPContext) : list Z :=
  let pdu_data := GenericPDU_to_vector pdu in
  let size_in_header := u16 (Z.of_nat (length pdu_data) + 1) in
  push16 (transaction_id context) ++ push16 (protocol_id context) ++ push16 size_in_header
  ++ [unit_id context] ++ pdu_data.

Definition send_blocking (pdu : GenericPDU) (context : list Z) (s : tcp_state) : modbus tcp_state :=
  letr context := from_context context in
  write_bytes (tcp_frame pdu context) s.

(** ** Requests and responses ([pdu_correlation.cpp]) *)

Record ListeningForResponseEntry := mkEntry {
  entry_context : list Z;
  entry_function_code : Z;
  entry_pdu : option GenericPDU;
}.

Record pcl_state := mkPcl {
  protocol : tcp_state;
  listening_for_response : list ListeningForResponseEntry;
}.

(** The first entry that waits for this response gets it. *)
Fixpoint deliver (context : list Z) (pdu : GenericPDU) (l : list ListeningForResponseEntry)
  : option (list ListeningForResponseEntry) :=
  match l with
  | [] => None
  | e :: rest =>
      if bool_decide (entry_context e = context)
         && (Z.land (entry_function_code e) 127 =? Z.land (function_code pdu) 127)
      then Some (mkEntry (entry_context e) (entry_function_code e) (Some pdu) :: rest)
      else (e ::.) <$> deliver context pdu rest
  end.

Section Correlation.
(** The [on_pdu] callback, [None] when none is set. *)
Context (on_pdu : option (GenericPDU -> modbus (option GenericPDU))).

Definition on_poll_data (context : list Z) (pdu : GenericPDU) (s : pcl_state) : modbus pcl_state :=
  match deliver context pdu (listening_for_response s) with
  | Some l => Ok (mkPcl (protocol s) l)
  | None =>
      match on_pdu with
      | None => Ok s
      | Some callback =>
          letr answer := callback pdu in
          match answer with
          | None => Ok s
          | Some response =>
              letr p := send_blocking response context (protocol s) in
              Ok (mkPcl p (listening_for_response s))
          end
      end
  end.

Definition blocking_poll (s : pcl_state) : modbus pcl_state :=
  letr (context, pdu, p) := receive_blocking (protocol s) in
  on_poll_data context pdu (mkPcl p (listening_for_response s)).

Definition poll (ready : bool) (s : pcl_state) : modbus (bool * pcl_state) :=
  letr (data, p) := try_receive ready (protocol s) in
  let s := mkPcl p (listening_for_response s) in
  match data with
  | None => Ok (false, s)
  | Some (context, pdu) => letr s := on_poll_data context pdu s in Ok (true, s)
  end.
End Correlation.

(** The index of the last entry with a context. *)
Fixpoint last_index (context : list Z) (l : list ListeningForResponseEntry) : option nat :=
  match l with
  | [] => None
  | e :: rest =>
      match last_index context rest with
      | Some i => Some (S i)
      | None => if bool_decide (entry_context e = context) then Some O else None
      end
  end.

(** One round of the loop of [request_response] after its wait: the response
    if there is one. *)
Definition check_response (context : list Z) (s : pcl_state)
  : modbus (option GenericPDU * pcl_state) :=
  match last_index context (listening_for_response s) with
  | None => Err std_exception
  | Some i =>
      match listening_for_response s !! i with
      | Some (mkEntry _ _ (Some pdu)) =>
          Ok (Some pdu, mkPcl (protocol s) (delete i (listening_for_response s)))
      | _ => Ok (None, s)
      end
  end.

(** The loop of [request_response]: [others] is what other threads do during
    one wait, and the list ends when the time is over. *)
Fixpoint wait_response (context : list Z) (waits : list (pcl_state -> pcl_state)) (s : pcl_state)
  : modbus GenericPDU * pcl_state :=
  match waits with
  | [] => (Err no_response, s)
  | others :: rest =>
      let s := others s in
      match check_response context s with
      | Err e => (Err e, s)
      | Ok (Some pdu, s) => (Ok pdu, s)
      | Ok (None, s) => wait_response context rest s
      end
  end.

Definition request_response (request : GenericPDU) (waits : list (pcl_state -> pcl_state))
    (s : pcl_state) : modbus GenericPDU * pcl_state :=
  let (context, p) := new_send_context (protocol s) in
  let l := listening_for_response s ++ [mkEntry context (function_code request) None] in
  match send_blocking request context p with
  | Err e => (Err e, mkPcl p l)
  | Ok p => wait_response context waits (mkPcl p l)
  end.

Definition request_without_response (request : GenericPDU) (s : pcl_state) : modbus pcl_state :=
  let (context, p) := new_send_context (protocol s) in
  letr p := send_blocking request context p in
  Ok (mkPcl p (listening_for_response s)).

(** ** The server ([server.cpp]) *)

Section Server.
(** The registered handlers, which may throw. *)
Context (read_registers_request :
  option (ReadHoldingRegistersRequest -> modbus ReadHoldingRegistersResponse)).
Context (write_multiple_registers_request :
  option (WriteMultipleRegistersRequest -> modbus WriteMultipleRegistersResponse)).
Context (write_single_register_request :
  option (WriteSingleRegister -> modbus WriteSingleRegister)).

Definition error_pdu (input : GenericPDU) (code : Z) : GenericPDU :=
  ErrorPDU_to_generic (new_ErrorPDU (function_code input) code).

(** Decode the request, call the handler, encode its response. *)
Definition handle_request {Req Res} `{SpecificPDU Req, SpecificPDU Res}
    (handler : option (Req -> modbus Res)) (input : GenericPDU) : modbus GenericPDU :=
  match handler with
  | None => Ok (error_pdu input ILLEGAL_FUNCTION)
  | Some handler =>
      letr request := from_generic input in
      letr response := handler request in
      to_generic response
  end.

Definition on_pdu (input : GenericPDU) : modbus GenericPDU :=
  if function_code input =? 3 then handle_request read_registers_request input
  else if function_code input =? 16 then handle_request write_multiple_registers_request input
  else if function_code input =? 6 then handle_request write_single_register_request input
  else Ok (error_pdu input ILLEGAL_FUNCTION).

(** [ApplicationServerError::to_pdu]. *)
Definition to_pdu (exception_code : Z) (other_data : list Z) (original_function_code : Z)
  : GenericPDU :=
  mkGenericPDU (u8 (Z.lor 128 original_function_code)) (exception_code :: other_data).

(** What is not a [std::exception] is not caught. *)
Definition on_pdu_error_handled (input : GenericPDU) : modbus (option GenericPDU) :=
  match on_pdu input with
  | Ok response => Ok (Some response)
  | Err (DecodingError _ _) => Ok (Some (error_pdu input ILLEGAL_DATA_VALUE))
  | Err (ApplicationServerError code other_data) =>
      Ok (Some (to_pdu code other_data (function_code input)))
  | Err foreign_exception => Err foreign_exception
  | Err _ => Ok (Some (error_pdu input SERVER_DEVICE_FAILURE))
  end.
End Server.
