(* ===== verification/ModbusProperties.v ===== *)
(** * Properties of the Modbus server *)
From S2P Require Import Prelude Bytes Goose GooseProofs Modbus.
From stdpp Require Import base tactics list numbers strings.
Open Scope Z_scope.
Open Scope everest_scope.

(** ** 16-bit fields *)

Lemma be16_of_push16 v : u16_ok v -> forall a b, push16 v = [a; b] -> be16 a b = v.
Proof. intros Hv a b E. apply be16_push16; [done|by rewrite E]. Qed.

Lemma push16_of_be16 a b : is_byte a -> is_byte b -> push16 (be16 a b) = [a; b].
Proof.
  unfold is_byte, push16, be16. intros Ha Hb.
  rewrite lor_byte, (wrap_small 16) by (simpl; lia).
  rewrite byte_and, Z.shiftr_div_pow2 by lia. change (2 ^ 8) with 256.
  rewrite Z.div_add_l, (Z.div_small b), Z.add_0_r by lia.
  rewrite (wrap_small 8) by (simpl; lia).
  f_equal. rewrite Z.add_comm, Z.mod_add by lia. by rewrite Z.mod_small by lia.
Qed.

Lemma be16_range a b : u16_ok (be16 a b).
Proof. apply u16_range. Qed.

Lemma u8_small z : 0 <= z < 256 -> u8 z = z.
Proof. intros H. by apply (wrap_small 8). Qed.

(** ** PDUs *)

(** Reading back what was written. *)
Definition roundtrips (A : Type) `{SpecificPDU A} : Prop :=
  forall (a : A) g, pdu_fits a -> to_generic a = Ok g -> from_generic g = Ok a.

(** Writing what was read gives the same bytes. *)
Definition canonical (A : Type) `{SpecificPDU A} : Prop :=
  forall (a : A) g, is_byte (function_code g) -> Forall is_byte (pdu_data g) ->
    from_generic g = Ok a -> to_generic a = Ok g.

Lemma be16_push v : u16_ok v -> be16 (u8 (Z.shiftr v 8)) (Z.land v 255) = v.
Proof. intros Hv. by eapply be16_of_push16. Qed.

Lemma words_back a b c d :
  Forall is_byte [a; b; c; d] -> push16 (be16 a b) ++ push16 (be16 c d) = [a; b; c; d].
Proof.
  rewrite !Forall_cons. intros (Ha & Hb & Hc & Hd & _). by rewrite !push16_of_be16.
Qed.

(** The reader of a read request refuses counts its writer lets pass. *)
Definition readable_count (r : ReadHoldingRegistersRequest) : bool :=
  (1 <=? rr_register_count r) && (rr_register_count r <=? 125).

Lemma read_request_read_back (r : ReadHoldingRegistersRequest) g :
  pdu_fits r -> to_generic r = Ok g ->
  from_generic g = if readable_count r then Ok r else Err (DecodingError g "ReadHoldingRegisterRequest").
Proof.
  destruct r as [v w]. intros [Hv Hw] [= <-]. unfold readable_count.
  cbn [rr_register_start rr_register_count] in *.
  unfold from_generic, ReadRequest_pdu, ReadRequest_from_generic.
  cbn [pdu_data function_code push16 app Z.eqb Pos.eqb negb].
  rewrite !be16_push by (unfold u16_ok; lia). destruct (Z.eqb_spec w 0) as [->|]; [done|].
  destruct (Z.ltb_spec 125 w), (Z.leb_spec 1 w), (Z.leb_spec w 125); try done; lia.
Qed.

Lemma read_request_canonical : canonical ReadHoldingRegistersRequest.
Proof.
  intros r [f data] _ Hb. cbn in *. unfold ReadRequest_from_generic. cbn [function_code pdu_data].
  destruct (Z.eqb_spec f 3) as [->|]; [|done]. cbn [negb].
  destruct data as [|a [|b [|c [|d [|]]]]]; try done.
  destruct (_ =? 0); [done|]. destruct (_ <? _); [done|]. intros [= <-].
  unfold ReadRequest_to_generic. cbn [rr_register_start rr_register_count].
  by rewrite words_back.
Qed.

Lemma read_response_roundtrips : roundtrips ReadHoldingRegistersResponse.
Proof.
  intros [n data] g Hn. cbn in *. unfold ReadResponse_to_generic. cbn [rs_register_count rs_register_data].
  destruct (Z.ltb_spec 125 n); [done|].
  destruct (Z.eqb_spec (Z.of_nat (length data)) (n * 2)) as [E|]; [|done]. intros [= <-].
  unfold ReadResponse_from_generic. cbn [function_code pdu_data Z.eqb Pos.eqb negb].
  rewrite u8_small by lia. rewrite Z.div_mul by lia.
  destruct (Z.eqb_spec (Z.of_nat (length (n * 2 :: data))) (n * 2 + 1)) as [|Hne]; [done|].
  simpl in Hne. lia.
Qed.

Lemma write_request_roundtrips : roundtrips WriteMultipleRegistersRequest.
Proof.
  intros [v n data] g [Hv Hn]. cbn in *. unfold WriteRequest_to_generic.
  cbn [wr_register_start wr_register_count wr_register_data].
  destruct (Z.ltb_spec 123 n); [done|].
  destruct (Z.eqb_spec (Z.of_nat (length data)) (n * 2)) as [E|]; [|done]. intros [= <-].
  unfold WriteRequest_from_generic. cbn [function_code pdu_data Z.eqb Pos.eqb negb].
  cbn [push16 app]. rewrite !be16_push by (unfold u16_ok; lia).
  rewrite (u8_small (n * 2)) by lia.
  destruct (Z.ltb_spec 123 n); [lia|]. rewrite Z.eqb_refl. cbn [negb].
  match goal with |- context [negb (?x =? ?y)] => destruct (Z.eqb_spec x y) as [|Hne] end; [done|].
  cbn [length] in Hne. lia.
Qed.

Lemma write_request_canonical : canonical WriteMultipleRegistersRequest.
Proof.
  intros r [f data] _ Hb. cbn in *. unfold WriteRequest_from_generic. cbn [function_code pdu_data].
  destruct (Z.eqb_spec f 16) as [->|]; [|done]. cbn [negb].
  destruct data as [|a [|b [|c [|d [|n rest]]]]]; try done.
  destruct (Z.ltb_spec 123 (be16 c d)); [done|]. destruct (Z.eqb_spec n (be16 c d * 2)) as [En|]; [|done].
  cbn [negb]. destruct (Z.eqb_spec (Z.of_nat (length (a :: b :: c :: d :: n :: rest)))
    (5 + be16 c d * 2)) as [El|]; [|done]. intros [= <-].
  unfold WriteRequest_to_generic. cbn [wr_register_start wr_register_count wr_register_data].
  destruct (Z.ltb_spec 123 (be16 c d)); [lia|].
  cbn [length] in El. destruct (Z.eqb_spec (Z.of_nat (length rest)) (be16 c d * 2)); [|lia].
  cbn [negb]. pose proof (be16_range c d) as Hr. unfold u16_ok in Hr.
  rewrite u8_small, <- En by lia. rewrite app_assoc, words_back; [done|].
  rewrite !Forall_cons in Hb. rewrite !Forall_cons. naive_solver.
Qed.

Lemma write_response_roundtrips : roundtrips WriteMultipleRegistersResponse.
Proof.
  intros [v w] g [Hv Hw] [= <-]. cbn [ws_register_start ws_register_count] in *.
  unfold from_generic, WriteResponse_pdu, WriteResponse_from_generic.
  cbn [pdu_data function_code push16 app Z.eqb Pos.eqb negb].
  by rewrite !be16_push by (unfold u16_ok; lia).
Qed.

Lemma write_response_canonical : canonical WriteMultipleRegistersResponse.
Proof.
  intros r [f data] _ Hb. cbn in *. unfold WriteResponse_from_generic. cbn [function_code pdu_data].
  destruct (Z.eqb_spec f 16) as [->|]; [|done]. cbn [negb].
  destruct data as [|a [|b [|c [|d [|]]]]]; try done. intros [= <-].
  unfold WriteResponse_to_generic. cbn [ws_register_start ws_register_count].
  by rewrite words_back.
Qed.

Lemma write_single_roundtrips : roundtrips WriteSingleRegister.
Proof.
  intros [v w] g [Hv Hw] [= <-]. cbn [register_address register_value] in *.
  unfold from_generic, WriteSingle_pdu, WriteSingle_from_generic.
  cbn [pdu_data function_code push16 app Z.eqb Pos.eqb negb].
  by rewrite !be16_push by (unfold u16_ok; lia).
Qed.

Lemma write_single_canonical : canonical WriteSingleRegister.
Proof.
  intros r [f data] _ Hb. cbn in *. unfold WriteSingle_from_generic. cbn [function_code pdu_data].
  destruct (Z.eqb_spec f 6) as [->|]; [|done]. cbn [negb].
  destruct data as [|a [|b [|c [|d [|]]]]]; try done. intros [= <-].
  unfold WriteSingle_to_generic. cbn [register_address register_value].
  by rewrite words_back.
Qed.

(** The error bit of a function code. *)
Lemma error_bit f :
  0 <= f < 128 -> u8 (Z.lor f 128) = f + 128
  /\ Z.land (f + 128) 128 = 128 /\ Z.land (f + 128) 127 = f /\ Z.land f 128 = 0.
Proof.
  intros Hf. assert (forall g, 0 <= g < 128 -> Z.lor g 128 = g + 128 /\ Z.land (g + 128) 128 = 128
    /\ Z.land (g + 128) 127 = g /\ Z.land g 128 = 0) as H.
  { intros g Hg. pose proof (land_disjoint 1 g 7 ltac:(lia) ltac:(simpl; lia)) as Hd.
    change (1 * 2 ^ 7) with 128 in Hd. rename Hd into E0.
    assert (Z.lor g 128 = g + 128) as E.
    { rewrite <- Z.lxor_lor, <- Z.add_nocarry_lxor by done. lia. }
    split; [done|]. rewrite <- !E, !Z.land_lor_distr_l.
    rewrite E0. split; [done|]. split; [|done].
    change 127 with (Z.ones 7). rewrite !Z.land_ones by lia. change (2 ^ 7) with 128.
    rewrite Z.mod_small by lia. change (128 mod 128) with 0. apply Z.lor_0_r. }
  destruct (H f Hf) as (-> & H2 & H3 & H4). rewrite u8_small by lia. done.
Qed.

Lemma error_roundtrips : roundtrips ErrorPDU.
Proof.
  intros [f c] g [Hf Hc] Hg. cbn [e_function_code e_exception_code] in *.
  assert (g = mkGenericPDU (u8 (Z.lor f 128)) [c]) as -> by (by injection Hg).
  destruct (error_bit f Hf) as (E1 & E2 & E3 & _).
  unfold from_generic, ErrorPDU_pdu, ErrorPDU_from_generic. cbn [function_code pdu_data].
  by rewrite E1, E2, E3.
Qed.

Lemma error_canonical : canonical ErrorPDU.
Proof.
  intros e [f data] Hf _. unfold from_generic, to_generic, ErrorPDU_pdu, ErrorPDU_from_generic.
  cbn [function_code pdu_data] in *. unfold is_byte in Hf.
  destruct (Z.eqb_spec (Z.land f 128) 0) as [|Hne]; [done|]. destruct data as [|c [|]]; try done.
  intros [= <-]. unfold ErrorPDU_to_generic. cbn [e_function_code e_exception_code].
  destruct (Z.ltb_spec f 128) as [Hlt|Hge].
  { destruct (error_bit f ltac:(lia)) as (_ & _ & _ & E). done. }
  destruct (error_bit (f - 128) ltac:(lia)) as (E1 & _ & E3 & _).
  replace (f - 128 + 128) with f in * by lia. by rewrite E3, E1.
Qed.


(** A request for no register, or for 126 of them, is written and then refused. *)
Example unreadable_requests :
  map (fun n => match ReadRequest_to_generic (mkReadRequest 1 n) with
                | Ok g => match ReadRequest_from_generic g with Ok _ => true | Err _ => false end
                | Err _ => true
                end) [0; 1; 125; 126] = [false; true; true; false].
Proof. reflexivity. Qed.

(** A response with an odd byte count is accepted. *)
Example odd_byte_count_accepted :
  ReadResponse_from_generic (mkGenericPDU 3 [3; 1; 2]) = Ok (mkReadResponse 1 [1; 2]).
Proof. reflexivity. Qed.

(** ** Modbus TCP *)

(** A message that fits into a frame. *)
Definition message_ok (m : ModbusTCPContext * GenericPDU) : Prop :=
  u16_ok (transaction_id m.1) /\ u16_ok (protocol_id m.1) /\ is_byte (unit_id m.1)
  /\ Z.of_nat (length (pdu_data m.2)) + 2 < 65536.

(** The bytes of a sequence of messages. *)
Definition wire (ms : list (ModbusTCPContext * GenericPDU)) : list Z :=
  concat (map (fun m => tcp_frame m.2 m.1) ms).

(** Receive a number of messages. *)
Fixpoint receive_many (n : nat) (s : tcp_state) : modbus (list (list Z * GenericPDU) * tcp_state) :=
  match n with
  | O => Ok ([], s)
  | S n' =>
      letr (context, pdu, s) := receive_blocking s in
      letr (ms, s) := receive_many n' s in
      Ok ((context, pdu) :: ms, s)
  end.

Lemma read_bytes_app n a rest s :
  tcp_input s = a ++ rest -> length a = n -> Z.of_nat n < 2 ^ 64 ->
  read_bytes (Z.of_nat n) s = Ok (a, set_tcp_input rest s).
Proof.
  intros E Hn Hlt. unfold read_bytes. rewrite E, length_app, Hn.
  rewrite (wrap_small 64) by lia. destruct (Z.ltb_spec (Z.of_nat (n + length rest)) (Z.of_nat n)); [lia|].
  rewrite Nat2Z.id, take_app_length', drop_app_length' by done. done.
Qed.

(** A frame in front of the input is read as it was sent. *)
Lemma read_frame c p rest s :
  message_ok (c, p) -> tcp_input s = tcp_frame p c ++ rest ->
  exists header s1, read_bytes 7 s = Ok (header, s1)
    /\ parse_header header = Ok (c, Z.of_nat (length (pdu_data p)) + 2)
    /\ read_bytes (Z.of_nat (length (pdu_data p)) + 2 - 1) s1
       = Ok (GenericPDU_to_vector p, set_tcp_input rest s).
Proof.
  intros (Ht & Hp & Hu & Hl) E. cbn [fst snd] in *.
  set (len := Z.of_nat (length (pdu_data p)) + 2) in *.
  assert (tcp_frame p c = (push16 (transaction_id c) ++ push16 (protocol_id c) ++ push16 len
    ++ [unit_id c]) ++ GenericPDU_to_vector p) as Hf.
  { unfold tcp_frame. assert (u16 (Z.of_nat (length (GenericPDU_to_vector p)) + 1) = len) as ->.
    { unfold GenericPDU_to_vector. cbn [length]. rewrite (wrap_small 16); unfold len; simpl; lia. }
    by rewrite <- !app_assoc. }
  rewrite Hf, <- app_assoc in E. eexists _, _.
  split; [apply (read_bytes_app 7 _ _ _ E); [done|lia]|]. split.
  - cbn [push16 app parse_header]. rewrite !be16_push by (unfold u16_ok in *; lia). by destruct c.
  - replace (len - 1) with (Z.of_nat (length (GenericPDU_to_vector p)))
      by (unfold len, GenericPDU_to_vector; cbn [length]; lia).
    set (s1 := set_tcp_input _ s). change (set_tcp_input rest s) with (set_tcp_input rest s1).
    apply (read_bytes_app _ _ rest); [done..|]. unfold GenericPDU_to_vector; cbn [length]. lia.
Qed.

Lemma receive_frame c p rest s :
  message_ok (c, p) -> tcp_input s = tcp_frame p c ++ rest ->
  receive_blocking s = Ok (to_context c, p, set_tcp_input rest s).
Proof.
  intros Hm E. destruct (read_frame c p rest s Hm E) as (h & s1 & E1 & E2 & E3).
  unfold receive_blocking. rewrite E1. cbn [rbind]. rewrite E2. cbn [rbind]. rewrite E3.
  cbn [rbind]. by destruct p.
Qed.

(** Messages sent one after the other over one connection are received
    in the same order, each with its context and its PDU, and nothing of what
    follows them is consumed. *)
Theorem modbus_tcp_stream ms rest s :
  Forall message_ok ms -> tcp_input s = wire ms ++ rest ->
  receive_many (length ms) s
  = Ok (map (fun m => (to_context m.1, m.2)) ms, set_tcp_input rest s).
Proof.
  intros Hms. revert s. induction Hms as [|[c p] ms Hm Hms IH]; intros s E.
  { cbn in *. destruct s; cbn in *; by subst. }
  cbn [length receive_many]. unfold wire in E. cbn [map concat fst snd] in E.
  rewrite <- app_assoc in E. rewrite (receive_frame c p _ _ Hm E). cbn [rbind].
  by rewrite IH.
Qed.

Lemma modbus_tcp_stream_witness :
  let ms := [(mkTCPContext 7 0 255, mkGenericPDU 3 [0; 1; 0; 2]);
             (mkTCPContext 300 0 1, mkGenericPDU 6 [0; 9; 1; 2])] in
  receive_many 2 (mkTcp 255 0 (wire ms ++ [42]) [] true)
  = Ok ([([0; 7; 0; 0; 255], mkGenericPDU 3 [0; 1; 0; 2]);
         ([1; 44; 0; 0; 1], mkGenericPDU 6 [0; 9; 1; 2])], mkTcp 255 0 [42] [] true).
Proof.
  intros ms. apply (modbus_tcp_stream ms [42] (mkTcp 255 0 (wire ms ++ [42]) [] true)); [|done].
  repeat constructor; unfold u16_ok, is_byte; simpl; lia.
Defined.

(** ** The server *)

Lemma context_back c :
  u16_ok (transaction_id c) -> u16_ok (protocol_id c) -> from_context (to_context c) = Ok c.
Proof.
  intros Ht Hp. unfold to_context. cbn [push16 app from_context].
  rewrite !be16_push by done. by destruct c.
Qed.

(** An answer to a request: the function code of the request, or the same with
    the error bit and an exception code. *)
Definition answers (input reply : GenericPDU) : Prop :=
  function_code reply = function_code input
  \/ (function_code reply = Z.lor (Z.land (function_code input) 127) 128
      /\ exists code rest, pdu_data reply = code :: rest).

Lemma error_code_byte f : 0 <= Z.lor (Z.land f 127) 128 < 256.
Proof.
  set (g := Z.land f 127). assert (0 <= g < 128) as Hg.
  { unfold g. change 127 with (Z.ones 7). rewrite Z.land_ones by lia. apply Z.mod_pos_bound. lia. }
  pose proof (land_disjoint 1 g 7 ltac:(lia) ltac:(simpl; lia)) as Hd.
  change (1 * 2 ^ 7) with 128 in Hd. rewrite <- Z.lxor_lor, <- Z.add_nocarry_lxor by done. lia.
Qed.

Lemma error_pdu_answers input code : answers input (error_pdu input code).
Proof.
  right. split; [|by eexists _, _]. apply u8_small, error_code_byte.
Qed.

(** The error bit set directly gives the same code. *)
Lemma to_pdu_answers code other input :
  is_byte (function_code input) -> answers input (to_pdu code other (function_code input)).
Proof.
  unfold is_byte. intros Hf. right. unfold to_pdu. cbn [function_code pdu_data].
  split; [|by eauto]. set (f := function_code input) in *.
  assert (Z.lor 128 f = Z.lor (Z.land f 127) 128) as E.
  { apply Z.bits_inj'. intros i Hi. rewrite !Z.lor_spec, Z.land_spec.
    destruct (Z.eq_dec i 7) as [->|]; [by rewrite orb_true_r|].
    assert (Z.testbit 128 i = false) as H128 by (apply (Z.pow2_bits_false 7); lia).
    rewrite H128, orb_false_r. cbn [orb].
    destruct (Z.ltb_spec i 7).
    - change 127 with (Z.ones 7). rewrite Z.ones_spec_low by lia. by rewrite andb_true_r.
    - rewrite (Z.bits_above_log2 f i); [done|lia|].
      destruct (Z.eq_dec f 0) as [->|]; [simpl; lia|].
      apply Z.log2_lt_pow2; [lia|]. apply Z.lt_le_trans with (2 ^ 8); [simpl; lia|].
      apply Z.pow_le_mono_r; lia. }
  rewrite E. apply u8_small, error_code_byte.
Qed.

(** What the handlers return is encoded with the function code of the
    request. *)
Lemma handle_request_answers {Req Res} `{SpecificPDU Req, SpecificPDU Res}
    (handler : option (Req -> modbus Res)) input reply :
  (forall (r : Res) g, to_generic r = Ok g -> function_code g = function_code input) ->
  handle_request handler input = Ok reply -> answers input reply.
Proof.
  intros Hto. unfold handle_request. destruct handler as [h|];
    [|intros [= <-]; apply error_pdu_answers].
  destruct (from_generic input) as [req|]; [|done]. cbn [rbind].
  destruct (h req) as [res|]; [|done]. cbn [rbind]. intros Hr. left. by eapply Hto.
Qed.

Lemma on_pdu_answers hr hw hs input reply :
  on_pdu hr hw hs input = Ok reply -> answers input reply.
Proof.
  unfold on_pdu. destruct (Z.eqb_spec (function_code input) 3) as [E|];
    [|destruct (Z.eqb_spec (function_code input) 16) as [E|];
      [|destruct (Z.eqb_spec (function_code input) 6) as [E|];
        [|intros [= <-]; apply error_pdu_answers]]];
    apply handle_request_answers; rewrite E; intros r g; simpl.
  - unfold ReadResponse_to_generic. do 2 (case_match; [done|]). by intros [= <-].
  - by intros [= <-].
  - by intros [= <-].
Qed.

Lemma on_pdu_error_handled_answers hr hw hs input :
  is_byte (function_code input) ->
  match on_pdu_error_handled hr hw hs input with
  | Ok (Some reply) => answers input reply
  | Ok None => False
  | Err e => e = foreign_exception /\ on_pdu hr hw hs input = Err foreign_exception
  end.
Proof.
  intros Hf. unfold on_pdu_error_handled. destruct (on_pdu hr hw hs input) as [reply|e] eqn:E.
  { by eapply on_pdu_answers. }
  destruct e; try done; try apply error_pdu_answers. by apply to_pdu_answers.
Qed.

(** The frame of a request at the front of the input is taken from it, with the
    context it was sent with. *)
Lemma poll_frame callback c req rest s :
  message_ok (c, req) -> tcp_input (protocol s) = tcp_frame req c ++ rest ->
  poll callback true s =
    letr s := on_poll_data callback (to_context c) req
                (mkPcl (set_tcp_input rest (protocol s)) (listening_for_response s)) in Ok (true, s).
Proof.
  intros Hm E. destruct (read_frame c req rest _ Hm E) as (h & s1 & E1 & E2 & E3).
  unfold poll, try_receive. cbn [negb]. rewrite E1. cbn [rbind]. rewrite E2. cbn [rbind].
  destruct (Z.leb_spec (Z.of_nat (length (pdu_data req)) + 2) 1); [lia|]. rewrite E3. cbn [rbind].
  by destruct req.
Qed.


Definition polled_request : GenericPDU := mkGenericPDU 3 [0; 1; 0; 0].
Definition polled_state (l : list ListeningForResponseEntry) : pcl_state :=
  mkPcl (mkTcp 255 0 (tcp_frame polled_request (mkTCPContext 7 0 255) ++ [42]) [] true) l.


(** A request with the transaction of a request that ran out of time is consumed
    without an answer. *)
Example request_taken_for_response :
  poll (Some (on_pdu_error_handled None None None)) true (polled_state [mkEntry [0; 7; 0; 0; 255] 3 None])
  = Ok (true, mkPcl (mkTcp 255 0 [42] [] true) [mkEntry [0; 7; 0; 0; 255] 3 (Some polled_request)]).
Proof. reflexivity. Qed.

(** ** Requests *)

(** What the polling thread does with the next frame of the input. *)
Definition polls (s : pcl_state) : pcl_state :=
  match poll None true s with Ok (_, s') => s' | Err _ => s end.

(** The answer to another request is skipped, the one with the transaction of
    the request is returned, and nothing is left to wait for. *)
Example request_response_run :
  let input := wire [(mkTCPContext 8 0 255, mkGenericPDU 3 [2; 0; 0]);
                     (mkTCPContext 7 0 255, mkGenericPDU 3 [2; 1; 2])] in
  request_response (mkGenericPDU 3 [0; 1; 0; 1]) [polls; polls] (mkPcl (mkTcp 255 7 input [] true) [])
  = (Ok (mkGenericPDU 3 [2; 1; 2]),
     mkPcl (mkTcp 255 8 [] (tcp_frame (mkGenericPDU 3 [0; 1; 0; 1]) (mkTCPContext 7 0 255)) true) []).
Proof. reflexivity. Qed.

(** A request that runs out of time leaves its entry behind, and with it the
    late answer. *)
Example late_answer_is_kept :
  let s := (request_response (mkGenericPDU 3 [0; 1; 0; 1]) [] (mkPcl (mkTcp 255 7
              (wire [(mkTCPContext 7 0 255, mkGenericPDU 3 [2; 1; 2])]) [] true) [])).2 in
  listening_for_response (polls s) = [mkEntry [0; 7; 0; 0; 255] 3 (Some (mkGenericPDU 3 [2; 1; 2]))].
Proof. reflexivity. Qed.
