(* ===== verification/ModbusRegisters.v ===== *)
(** * The registers behind the Modbus server

    [modbus-server/libs/registers]: converters ([converter.hpp]), data
    providers ([data_provider.hpp]), registers ([registers.hpp]) and the
    registry ([registry.cpp]) that maps reads and writes of an address range
    to them.  Memory the code leaves uninitialized is the parameter [mem], by
    index; the callbacks an application can add to a provider are left out,
    and every register has a provider of its own. *)
From S2P Require Import Prelude Bytes Goose Modbus.
From stdpp Require Import base tactics list numbers strings.
Open Scope Z_scope.
Open Scope everest_scope.

(** ** Converters, on a little-endian system *)

Inductive Converter := ConverterABCD | ConverterIdentity.

Definition net_to_sys (c : Converter) (buffer : list Z) : list Z :=
  match c with ConverterABCD => reverse buffer | ConverterIdentity => buffer end.

Definition sys_to_net (c : Converter) (buffer : list Z) : list Z :=
  match c with ConverterABCD => reverse buffer | ConverterIdentity => buffer end.

(** ** Data providers *)

(** [strncpy(dst, src, n)]: the [n] bytes written. *)
Fixpoint strncpy (n : nat) (src : list Z) : list Z :=
  match n, src with
  | O, _ => []
  | S n', b :: rest => if b =? 0 then replicate n 0 else b :: strncpy n' rest
  | _, [] => replicate n 0
  end.

(** The providers that hold their value: the bytes of an elementary value or
    an array, and a text of at most [string_length] bytes in a buffer with
    one more. *)
Inductive DataProvider :=
| DataProviderHolding (value : list Z)
| DataProviderMemoryHolding (value : list Z)
| DataProviderStringHolding (string_length : nat) (value : list Z).

(** [on_read] into a buffer of [len] bytes, uninitialized before it. *)
Definition elementary_on_read (mem : nat -> Z) (len : nat) (value : list Z) : list Z :=
  overwrite (map mem (seq 0 len)) (take (length value `min` len) value).

Definition memory_on_read (mem : nat -> Z) (len : nat) (value : list Z) : list Z :=
  overwrite (map mem (seq 0 len)) (take (length value `min` len) value).

Definition string_on_read (string_length len : nat) (value : list Z) : list Z :=
  overwrite (replicate len 0) (strncpy (string_length `min` len) value).

(** [strlcpy] into the buffer [dst]. *)
Definition strlcpy (dst src : list Z) (size : nat) : list Z :=
  overwrite dst (strncpy (size - 1) src ++ [0]).

(** [on_write] from a buffer of [len] bytes: the new value. *)
Definition elementary_on_write (buffer : list Z) (len : nat) (value : list Z) : list Z :=
  overwrite value (take (length value `min` len) buffer).

Definition memory_on_write (buffer : list Z) (len : nat) (value : list Z) : list Z :=
  overwrite value (take (length value `min` len) buffer).

Definition string_on_write (string_length : nat) (buffer : list Z) (len : nat) (value : list Z)
  : list Z := strlcpy value buffer ((string_length + 1) `min` (len + 1)).

(** The virtual functions of [DataProvider]. *)
Definition provider_on_read (mem : nat -> Z) (len : nat) (p : DataProvider) : list Z :=
  match p with
  | DataProviderHolding value => elementary_on_read mem len value
  | DataProviderMemoryHolding value => memory_on_read mem len value
  | DataProviderStringHolding string_length value => string_on_read string_length len value
  end.

Definition provider_on_write (buffer : list Z) (len : nat) (p : DataProvider) : DataProvider :=
  match p with
  | DataProviderHolding value => DataProviderHolding (elementary_on_write buffer len value)
  | DataProviderMemoryHolding value => DataProviderMemoryHolding (memory_on_write buffer len value)
  | DataProviderStringHolding string_length value =>
      DataProviderStringHolding string_length (string_on_write string_length buffer len value)
  end.

(** ** Registers *)

(** [ComplexRegister<provider_type, buffer_size>]. *)
Record ComplexRegister := mkRegister {
  start_address : Z;
  buffer_size : nat;
  data_provider : DataProvider;
  converter : Converter;
}.

Definition get_start_address (r : ComplexRegister) : Z := start_address r.
Definition get_size (r : ComplexRegister) : Z := u16 (Z.of_nat (buffer_size r) / 2).

Definition register_on_read (mem : nat -> Z) (r : ComplexRegister) : list Z :=
  sys_to_net (converter r) (provider_on_read mem (buffer_size r) (data_provider r)).

(** [on_write]: the current value, with the data copied into it. *)
Definition register_on_write (mem : nat -> Z) (offset : Z) (data : list Z) (r : ComplexRegister)
  : codec ComplexRegister :=
  let byte_offset := offset * 2 in
  let net_buffer := register_on_read mem r in
  if Z.of_nat (buffer_size r) <? byte_offset then Err out_of_bounds
  else
    let at_byte := Z.to_nat byte_offset in
    let count := (length data `min` (buffer_size r - at_byte))%nat in
    let net_buffer := take at_byte net_buffer ++ take count data
                      ++ drop (at_byte + count) net_buffer in
    Ok (mkRegister (start_address r) (buffer_size r)
          (provider_on_write (net_to_sys (converter r) net_buffer) (buffer_size r)
             (data_provider r)) (converter r)).

(** ** The registry *)

(** The addresses of a register. *)
Definition register_addresses (r : ComplexRegister) : list Z :=
  map (fun i => u16 (get_start_address r + Z.of_nat i)) (seq 0 (Z.to_nat (get_size r))).

(** The loop of [verify_overlap] over all addresses. *)
Fixpoint verify_addresses (used_addresses addresses : list Z) : codec unit :=
  match addresses with
  | [] => Ok tt
  | a :: rest =>
      if bool_decide (a ∈ used_addresses)
      then Err (runtime_error "Overlapping register addresses")
      else verify_addresses (used_addresses ++ [a]) rest
  end.

Definition verify_overlap (registers : list ComplexRegister) : codec unit :=
  verify_addresses [] (concat (map register_addresses registers)).

Definition end_address (r : ComplexRegister) : Z := u16 (get_start_address r + get_size r - 1).

(** Whether a register is skipped for a range of [size] words. *)
Definition outside (address size : Z) (r : ComplexRegister) : bool :=
  (address + size <=? get_start_address r) || (end_address r <? address).

(** The register part of [ComplexRegisterRegistry::on_write]. *)
Definition write_register (mem : nat -> Z) (address : Z) (data : list Z) (r : ComplexRegister)
  : codec ComplexRegister :=
  let data_size := u16 (Z.of_nat (length data) / 2) in
  if outside address data_size r then Ok r
  else
    let vector_offset := address - get_start_address r in
    if vector_offset <? 0
    then register_on_write mem 0 (drop (Z.to_nat (- vector_offset * 2)) data) r
    else register_on_write mem vector_offset data r.

Fixpoint write_registers (mem : nat -> Z) (address : Z) (data : list Z)
    (registers : list ComplexRegister) : codec (list ComplexRegister) :=
  match registers with
  | [] => Ok []
  | r :: rest =>
      letr r' := write_register mem address data r in
      letr rest' := write_registers mem address data rest in
      Ok (r' :: rest')
  end.

Definition registry_on_write (mem : nat -> Z) (address : Z) (data : list Z)
    (registers : list ComplexRegister) : codec (list ComplexRegister) :=
  if negb (Nat.even (length data))
  then Err (runtime_error "Data size must be a multiple of 2 bytes")
  else write_registers mem address data registers.

(** The result of a read: a byte, or [None] where nothing was copied yet. *)
Abbreviation cells := (list (option Z)).

(** The loop that copies register data, from an offset on. *)
Fixpoint place (offset : nat) (data : list Z) (result : cells) : codec cells :=
  match data with
  | [] => Ok result
  | b :: rest =>
      match result !! offset with
      | None => Err out_of_bounds
      | Some (Some _) => place (S offset) rest result
      | Some None => place (S offset) rest (<[offset := Some b]> result)
      end
  end.

(** The register part of [on_read]: the data before and after the range is
    cut off, the rest is copied. *)
Definition read_register (mem : nat -> Z) (address size : Z) (r : ComplexRegister) (result : cells)
  : codec cells :=
  if outside address size r then Ok result
  else
    let read_start_address_b := address * 2 in
    let read_size_b := size * 2 in
    let data_start_address_b := get_start_address r * 2 in
    let data_end_address_b := end_address r * 2 in
    let data := register_on_read mem r in
    letr (data, data_start_address_b) :=
      if data_start_address_b <? read_start_address_b then
        letr data := range data (read_start_address_b - data_start_address_b)
                       (Z.of_nat (length data)) in
        Ok (data, read_start_address_b)
      else Ok (data, data_start_address_b) in
    letr data :=
      if read_start_address_b + read_size_b <? data_end_address_b
      then range data 0 (read_start_address_b + read_size_b - data_start_address_b)
      else Ok data in
    place (Z.to_nat (data_start_address_b - read_start_address_b)) data result.

Fixpoint read_registers (mem : nat -> Z) (address size : Z) (registers : list ComplexRegister)
    (result : cells) : codec cells :=
  match registers with
  | [] => Ok result
  | r :: rest =>
      letr result := read_register mem address size r result in
      read_registers mem address size rest result
  end.

Definition registry_on_read (mem : nat -> Z) (address size : Z) (registers : list ComplexRegister)
  : codec (list Z) :=
  if size =? 0 then Ok []
  else
    letr result := read_registers mem address size registers
                     (replicate (Z.to_nat (size * 2)) None) in
    Ok (map (default 0) result).
