(* ===== verification/ModbusRegistersProperties.v ===== *)
(** * Properties of the Modbus register registry

    The registers of a registry form one memory, the image; a write changes
    it exactly where it should and a read returns it. *)
From S2P Require Import Prelude Bytes Goose GooseProofs Modbus ModbusRegisters.
From stdpp Require Import base tactics list numbers strings.
Open Scope Z_scope.
Open Scope everest_scope.

(** ** Registers *)

(** A register with a provider that holds its value in the size of the
    register, inside the address space. *)
Definition holds (n : nat) (p : DataProvider) : Prop :=
  match p with
  | DataProviderHolding value | DataProviderMemoryHolding value => length value = n
  | DataProviderStringHolding _ _ => False
  end.

Record register_ok (r : ComplexRegister) : Prop := mkRegisterOk {
  ok_start : 0 <= start_address r;
  ok_words : exists w, (0 < w)%nat /\ Z.of_nat w < 65536 /\ buffer_size r = (2 * w)%nat
                       /\ start_address r + Z.of_nat w <= 65536;
  ok_holds : holds (buffer_size r) (data_provider r);
}.

(** The size in words and the last address. *)
Lemma register_size r :
  register_ok r ->
  0 < get_size r /\ Z.of_nat (buffer_size r) = 2 * get_size r
  /\ end_address r = start_address r + get_size r - 1.
Proof.
  intros [H0 (w & Hw & Hmax & E & Hb) _]. unfold end_address, get_size, get_start_address.
  assert (Z.of_nat (buffer_size r) / 2 = Z.of_nat w) as ->
    by (rewrite E, Nat2Z.inj_mul, Z.mul_comm, Z.div_mul; lia).
  rewrite !(wrap_small 16) by (rewrite ?(wrap_small 16); simpl; lia). lia.
Qed.

Lemma overwrite_all (buffer value : list Z) : length buffer = length value -> overwrite buffer value = value.
Proof. intros E. unfold overwrite. by rewrite drop_ge, app_nil_r by lia. Qed.

(** The value of a register in network order does not depend on what the
    buffers held before. *)
Definition net_value (r : ComplexRegister) : list Z :=
  sys_to_net (converter r)
    match data_provider r with
    | DataProviderHolding value | DataProviderMemoryHolding value => value
    | DataProviderStringHolding _ value => value
    end.

Lemma sys_to_net_length c b : length (sys_to_net c b) = length b.
Proof. destruct c; simpl; [apply length_reverse|done]. Qed.

Lemma net_to_sys_length c b : length (net_to_sys c b) = length b.
Proof. destruct c; simpl; [apply length_reverse|done]. Qed.

Lemma sys_to_net_back c b : sys_to_net c (net_to_sys c b) = b.
Proof. destruct c; simpl; [apply reverse_involutive|done]. Qed.

Lemma net_value_length r : register_ok r -> length (net_value r) = buffer_size r.
Proof.
  intros [_ _ Hh]. unfold net_value. rewrite sys_to_net_length.
  by destruct (data_provider r).
Qed.

Lemma on_read_net mem r : register_ok r -> register_on_read mem r = net_value r.
Proof.
  intros [_ _ Hh]. unfold register_on_read, net_value. f_equal.
  destruct (data_provider r) as [v|v|]; [| |done]; simpl in *;
    unfold elementary_on_read, memory_on_read; rewrite Hh, Nat.min_id, take_ge by lia; apply overwrite_all; by rewrite length_map, length_seq.
Qed.

(** Writing a buffer of the right size stores it. *)
Lemma provider_write_all p buffer n :
  holds n p -> length buffer = n ->
  holds n (provider_on_write buffer n p)
  /\ match provider_on_write buffer n p with
     | DataProviderHolding value | DataProviderMemoryHolding value => value
     | DataProviderStringHolding _ value => value
     end = buffer.
Proof.
  intros Hh Hl. destruct p as [v|v|]; [| |done]; simpl in *;
    unfold elementary_on_write, memory_on_write; rewrite Hh, Nat.min_id, take_ge by lia; rewrite overwrite_all by lia; by subst.
Qed.

(** Data copied into a buffer. *)
Definition splice (at_byte : nat) (data buffer : list Z) : list Z :=
  let count := (length data `min` (length buffer - at_byte))%nat in
  take at_byte buffer ++ take count data ++ drop (at_byte + count) buffer.

Lemma splice_length at_byte data buffer :
  (at_byte <= length buffer)%nat -> length (splice at_byte data buffer) = length buffer.
Proof. intros H. unfold splice. rewrite !length_app, !length_take, length_drop. lia. Qed.

Lemma splice_lookup at_byte data buffer i :
  (at_byte <= length buffer)%nat -> (i < length buffer)%nat ->
  splice at_byte data buffer !! i
  = if decide (at_byte <= i < at_byte + length data)%nat
    then data !! (i - at_byte)%nat else buffer !! i.
Proof.
  intros Ha Hi. unfold splice. set (count := (length data `min` (length buffer - at_byte))%nat).
  destruct (decide (i < at_byte)%nat) as [Hlt|Hge].
  { rewrite lookup_app_l, lookup_take_lt by (rewrite ?length_take; lia). case_decide; [lia|done]. }
  rewrite lookup_app_r, length_take, Nat.min_l by (rewrite ?length_take; lia).
  destruct (decide (i - at_byte < count)%nat) as [Hc|Hc].
  - rewrite lookup_app_l, lookup_take_lt by (rewrite ?length_take; lia). case_decide; [done|lia].
  - rewrite lookup_app_r by (rewrite length_take; lia). rewrite length_take, lookup_drop.
    case_decide as Hd; [lia|]. f_equal. lia.
Qed.

Lemma register_write mem offset data r :
  register_ok r -> 0 <= offset -> offset * 2 <= Z.of_nat (buffer_size r) ->
  exists r', register_on_write mem offset data r = Ok r'
    /\ register_ok r' /\ start_address r' = start_address r /\ buffer_size r' = buffer_size r
    /\ net_value r' = splice (Z.to_nat (offset * 2)) data (net_value r).
Proof.
  intros Hr H0 Ho. pose proof (net_value_length r Hr) as Hl. unfold register_on_write.
  destruct (Z.ltb_spec (Z.of_nat (buffer_size r)) (offset * 2)); [lia|].
  rewrite (on_read_net mem r Hr). eexists. split; [reflexivity|].
  set (buffer := take _ (net_value r) ++ _).
  assert (buffer = splice (Z.to_nat (offset * 2)) data (net_value r)) as Eb
    by (unfold buffer, splice; by rewrite Hl).
  assert (length (net_to_sys (converter r) buffer) = buffer_size r) as Hn
    by (rewrite net_to_sys_length, Eb, splice_length; lia).
  destruct Hr as [Hs Hw Hh]. destruct (provider_write_all _ _ _ Hh Hn) as [Hh' Hv].
  split_and!; [by split|done..|]. unfold net_value at 1. cbn [converter data_provider].
  by rewrite Hv, sys_to_net_back.
Qed.

(** ** The image of a registry *)

(** The byte at byte address [b] of data that starts at word [address]. *)
Definition data_at (address : Z) (data : list Z) (b : Z) : option Z :=
  if b <? address * 2 then None else data !! Z.to_nat (b - address * 2).

Definition byte_at (r : ComplexRegister) : Z -> option Z := data_at (start_address r) (net_value r).

(** The memory the registers make up: the first register that has a byte
    counts. *)
Fixpoint image (registers : list ComplexRegister) (b : Z) : option Z :=
  match registers with
  | [] => None
  | r :: rest => match byte_at r b with Some v => Some v | None => image rest b end
  end.

(** A byte the registers have, after a write of [data] at [address]. *)
Definition written (address : Z) (data : list Z) (b : Z) (old : option Z) : option Z :=
  (fun v => default v (data_at address data b)) <$> old.

Definition same_place (r r' : ComplexRegister) : Prop :=
  start_address r' = start_address r /\ buffer_size r' = buffer_size r.

Lemma data_at_None address data b :
  data_at address data b = None
  <-> ~ (address * 2 <= b < address * 2 + Z.of_nat (length data)).
Proof.
  unfold data_at. destruct (Z.ltb_spec b (address * 2)); [split; [lia|done]|].
  rewrite lookup_ge_None. lia.
Qed.

Lemma byte_at_range r b :
  register_ok r -> is_Some (byte_at r b)
  <-> start_address r * 2 <= b < start_address r * 2 + Z.of_nat (buffer_size r).
Proof.
  intros Hr. pose proof (data_at_None (start_address r) (net_value r) b) as H.
  rewrite (net_value_length r Hr) in H. unfold byte_at. rewrite <- not_eq_None_Some, H. lia.
Qed.

(** ** Writes *)

(** The bytes of a register after data was spliced into it. *)
Lemma splice_data_at start at_word data value b :
  0 <= at_word -> at_word * 2 <= Z.of_nat (length value) ->
  data_at start (splice (Z.to_nat (at_word * 2)) data value) b
  = written (start + at_word) data b (data_at start value b).
Proof.
  intros H0 Hle. unfold written, data_at. destruct (Z.ltb_spec b (start * 2)) as [|Hb]; [done|].
  destruct (decide (Z.to_nat (b - start * 2) < length value)%nat) as [Hi|Hi].
  - rewrite splice_lookup by lia. destruct (lookup_lt_is_Some_2 _ _ Hi) as [v Ev]. rewrite Ev. cbn.
    case_decide as Hd; destruct (Z.ltb_spec b ((start + at_word) * 2)); try lia; cbn; [|done|].
    + replace (Z.to_nat (b - (start + at_word) * 2))
        with (Z.to_nat (b - start * 2) - Z.to_nat (at_word * 2))%nat by lia.
      destruct (lookup_lt_is_Some_2 data (Z.to_nat (b - start * 2) - Z.to_nat (at_word * 2))) as [d ->];
        [lia|done].
    + by rewrite lookup_ge_None_2 by lia.
  - rewrite (lookup_ge_None_2 value), (lookup_ge_None_2 (splice _ _ _));
      rewrite ?splice_length; lia || done.
Qed.

(** Data that starts before a register, without what is before it. *)
Lemma drop_data_at address start data b :
  address <= start -> start * 2 <= b ->
  data_at start (drop (Z.to_nat ((start - address) * 2)) data) b = data_at address data b.
Proof.
  intros Ha Hb. unfold data_at.
  destruct (Z.ltb_spec b (start * 2)), (Z.ltb_spec b (address * 2)); try lia.
  rewrite lookup_drop. f_equal. lia.
Qed.

Lemma written_ext address address' data data' b old :
  (is_Some old -> data_at address data b = data_at address' data' b) ->
  written address data b old = written address' data' b old.
Proof. intros H. destruct old as [v|]; [|done]. unfold written. cbn. by rewrite H. Qed.

Lemma write_register_spec mem address data r :
  register_ok r -> 0 <= address -> Nat.even (length data) = true ->
  Z.of_nat (length data) < 131072 ->
  exists r', write_register mem address data r = Ok r' /\ register_ok r' /\ same_place r r'
    /\ forall b, byte_at r' b = written address data b (byte_at r b).
Proof.
  intros Hr Ha He Hl. destruct (register_size r Hr) as (Hpos & Hsz & Hend).
  assert (exists w, length data = 2 * w)%nat as [w Hw]
    by (apply Nat.even_spec in He; exact He).
  unfold write_register, outside.
  assert (u16 (Z.of_nat (length data) / 2) = Z.of_nat w) as ->.
  { rewrite Hw, Nat2Z.inj_mul, Z.mul_comm, Z.div_mul by lia. apply (wrap_small 16). simpl. lia. }
  rewrite Hend. unfold get_start_address.
  destruct (Z.leb_spec (address + Z.of_nat w) (start_address r)) as [Ho|Hi];
    [|destruct (Z.ltb_spec (start_address r + get_size r - 1) address) as [Ho|Hi2]]; cbn [orb].
  1, 2: exists r; split_and!; [done..|]; intros b; unfold written;
    destruct (byte_at r b) as [v|] eqn:E; [|done]; cbn;
    apply mk_is_Some in E; apply byte_at_range in E; [|done];
    rewrite (proj2 (data_at_None address data b)); [done|lia].
  destruct (Z.ltb_spec (address - start_address r) 0) as [Hneg|Hge].
  - destruct (register_write mem 0 (drop (Z.to_nat (- (address - start_address r) * 2)) data) r)
      as (r' & -> & Hok & Hs & Hb & Hv); [done|lia|lia|].
    exists r'. split_and!; [done..|]. intros b. unfold byte_at. rewrite Hs, Hv, splice_data_at by lia.
    apply written_ext. intros Hsome. apply byte_at_range in Hsome; [|done].
    rewrite Z.add_0_r. replace (- (address - start_address r)) with (start_address r - address) by lia.
    apply drop_data_at; lia.
  - destruct (register_write mem (address - start_address r) data r)
      as (r' & -> & Hok & Hs & Hb & Hv); [done|lia|lia|].
    exists r'. split_and!; [done..|]. intros b. unfold byte_at.
    rewrite Hs, Hv, splice_data_at by (rewrite ?net_value_length by done; lia).
    f_equal. lia.
Qed.

Lemma write_registers_spec mem address data registers :
  Forall register_ok registers -> 0 <= address -> Nat.even (length data) = true ->
  Z.of_nat (length data) < 131072 ->
  exists registers', write_registers mem address data registers = Ok registers'
    /\ Forall register_ok registers' /\ Forall2 same_place registers registers'
    /\ forall b, image registers' b = written address data b (image registers b).
Proof.
  intros Hok Ha He Hl. induction Hok as [|r rest Hr Hrest IH].
  { exists []. by repeat constructor. }
  destruct (write_register_spec mem address data r Hr Ha He Hl) as (r' & E & Hr' & Hp & Hb).
  destruct IH as (rest' & E' & Hok' & Hp' & Hb'). exists (r' :: rest'). cbn. rewrite E. cbn.
  rewrite E'. cbn. split_and!; [done|by constructor|by constructor|].
  intros b. rewrite Hb, Hb'. by destruct (byte_at r b).
Qed.

(** ** Reads *)

(** A cell that is still empty takes the byte, if there is one. *)
Definition fill (byte : option Z) (cell : option Z) : option Z :=
  match cell with Some v => Some v | None => byte end.

Lemma place_spec data offset result :
  (offset + length data <= length result)%nat ->
  exists result', place offset data result = Ok result' /\ length result' = length result
    /\ forall j, result' !! j
         = fill (if decide (j < offset)%nat then None else data !! (j - offset)%nat) <$> result !! j.
Proof.
  revert offset result. induction data as [|b rest IH]; intros offset result Hl; cbn [place] in *.
  { exists result. split_and!; [done..|]. intros j. rewrite lookup_nil.
    by case_decide; destruct (result !! j) as [[v|]|]. }
  cbn [length] in Hl. destruct (lookup_lt_is_Some_2 result offset) as [cell Ec]; [lia|]. rewrite Ec.
  assert (forall (result1 : cells), length result1 = length result ->
            (forall j, result1 !! j = fill (if decide (j = offset) then Some b else None) <$> result !! j) ->
            exists result', place (S offset) rest result1 = Ok result' /\ length result' = length result
              /\ forall j, result' !! j = fill (if decide (j < offset)%nat then None
                    else (b :: rest) !! (j - offset)%nat) <$> result !! j) as Hstep.
  { intros result1 Hl1 H1. destruct (IH (S offset) result1) as (result' & -> & Hl' & H'); [lia|].
    exists result'. split_and!; [done|lia|]. intros j. rewrite H', H1.
    destruct (result !! j) as [[v|]|]; [done| |done]. cbn. f_equal.
    destruct (decide (j = offset)) as [->|Hne].
    - rewrite decide_True, decide_False, Nat.sub_diag by lia. done.
    - cbn. destruct (decide (j < offset)%nat).
      + by rewrite decide_True by lia.
      + rewrite decide_False by lia. by replace (j - offset)%nat with (S (j - S offset)) by lia. }
  destruct cell as [v|]; apply Hstep; rewrite ?length_insert; try done; intros j.
  - case_decide as Hd; [subst; by rewrite Ec|]. by destruct (result !! j) as [[]|].
  - case_decide as Hd; [subst; rewrite list_lookup_insert_eq by lia; by rewrite Ec|].
    rewrite list_lookup_insert_ne by done. by destruct (result !! j) as [[]|].
Qed.

(** A read of [size] words at [address] does not end right before the last
    word of the register, unless the register is outside of the read. *)
Definition ends_well (address size : Z) (r : ComplexRegister) : Prop :=
  address + size <> end_address r \/ address + size <= start_address r.

(** Placing the bytes [from, to) of a register's data into the result. *)
Lemma place_bytes address (data : list Z) (from to : Z) n (result : cells) byte :
  length result = (2 * n)%nat -> address * 2 <= from -> from <= to ->
  to <= address * 2 + 2 * Z.of_nat n -> Z.of_nat (length data) = to - from ->
  (forall b, address * 2 <= b < address * 2 + 2 * Z.of_nat n ->
     byte b = if decide (b < from) then None else data !! Z.to_nat (b - from)) ->
  exists result', place (Z.to_nat (from - address * 2)) data result = Ok result'
    /\ length result' = (2 * n)%nat
    /\ forall j, result' !! j = fill (byte (address * 2 + Z.of_nat j)) <$> result !! j.
Proof.
  intros Hl H1 H2 H3 Hd Hb.
  destruct (place_spec data (Z.to_nat (from - address * 2)) result) as (result' & -> & Hl' & H'); [lia|].
  exists result'. split_and!; [done|lia|]. intros j. rewrite H'.
  destruct (result !! j) as [cell|] eqn:Ej; [|done]. apply lookup_lt_Some in Ej. cbn.
  rewrite (Hb (address * 2 + Z.of_nat j)) by lia.
  case_decide; case_decide; try lia; [done|].
  by replace (Z.to_nat (address * 2 + Z.of_nat j - from))
    with (j - Z.to_nat (from - address * 2))%nat by lia.
Qed.

Lemma range_ok data from to :
  0 <= from -> from <= to -> to <= Z.of_nat (length data) ->
  range data from to = Ok (take (Z.to_nat (to - from)) (drop (Z.to_nat from) data)).
Proof.
  intros H0 H1 H2. unfold range.
  rewrite (proj2 (Z.leb_le 0 from)), (proj2 (Z.leb_le from to)), (proj2 (Z.leb_le to _)) by lia. done.
Qed.

(** The part of a register's data a read uses: all bytes from [from] up to
    [to], whether or not something was cut off in front. *)
Lemma read_register_cut mem address size r result :
  register_ok r -> outside address size r = false ->
  ends_well address size r -> 0 <= address -> 0 < size ->
  exists from to, from = Z.max (address * 2) (start_address r * 2)
    /\ to = Z.min (address * 2 + size * 2) (start_address r * 2 + Z.of_nat (buffer_size r))
    /\ from <= to
    /\ read_register mem address size r result
       = place (Z.to_nat (from - address * 2))
           (take (Z.to_nat (to - from)) (drop (Z.to_nat (from - start_address r * 2)) (net_value r)))
           result.
Proof.
  intros Hr Ho He Ha Hs. destruct (register_size r Hr) as (Hpos & Hsz & Hend).
  pose proof (net_value_length r Hr) as Hl.
  do 2 eexists. split; [reflexivity|]. split; [reflexivity|].
  unfold read_register. rewrite Ho. unfold outside, ends_well, get_start_address in *. rewrite Hend in *.
  apply orb_false_iff in Ho as [Ho1 Ho2]. apply Z.leb_gt in Ho1. apply Z.ltb_ge in Ho2.
  split; [lia|]. rewrite (on_read_net mem r Hr).
  destruct (Z.ltb_spec (start_address r * 2) (address * 2)) as [Hc|Hc].
  - rewrite range_ok by lia. cbn [rbind]. rewrite (take_ge (drop _ _)) by (rewrite length_drop; lia).
    rewrite (Z.max_l (address * 2)) by lia.
    destruct (Z.ltb_spec (address * 2 + size * 2) ((start_address r + get_size r - 1) * 2)) as [Hc2|Hc2].
    + rewrite range_ok by (rewrite ?length_drop; lia). cbn [rbind]. rewrite drop_0.
      rewrite Z.min_l, Z.sub_0_r by lia. done.
    + cbn [rbind]. rewrite take_ge; [done|]. rewrite length_drop. lia.
  - cbn [rbind]. rewrite (Z.max_r (address * 2)) by lia.
    rewrite Z.sub_diag, drop_0.
    destruct (Z.ltb_spec (address * 2 + size * 2) ((start_address r + get_size r - 1) * 2)) as [Hc2|Hc2].
    + rewrite range_ok by lia. cbn [rbind]. rewrite drop_0, Z.min_l, Z.sub_0_r by lia. done.
    + cbn [rbind]. rewrite take_ge; [done|]. lia.
Qed.

Lemma read_register_spec mem address n r result :
  register_ok r -> ends_well address (Z.of_nat n) r -> 0 <= address -> (0 < n)%nat ->
  length result = (2 * n)%nat ->
  exists result', read_register mem address (Z.of_nat n) r result = Ok result'
    /\ length result' = (2 * n)%nat
    /\ forall j, result' !! j = fill (byte_at r (address * 2 + Z.of_nat j)) <$> result !! j.
Proof.
  intros Hr He Ha Hn Hl. destruct (register_size r Hr) as (Hpos & Hsz & Hend).
  destruct (outside address (Z.of_nat n) r) eqn:Ho.
  - unfold read_register. rewrite Ho. exists result. split_and!; [done..|]. intros j.
    destruct (result !! j) as [cell|] eqn:Ej; [|done]. apply lookup_lt_Some in Ej. cbn. f_equal.
    destruct (byte_at r (address * 2 + Z.of_nat j)) as [v|] eqn:E; [|by destruct cell].
    apply mk_is_Some in E. apply byte_at_range in E; [|done]. exfalso.
    unfold outside, get_start_address in Ho. rewrite Hend in Ho. apply orb_true_iff in Ho as [Ho|Ho];
      [apply Z.leb_le in Ho|apply Z.ltb_lt in Ho]; lia.
  - destruct (read_register_cut mem address (Z.of_nat n) r result Hr Ho He Ha) as
      (from & to & Ef & Et & Hft & ->); [lia|].
    pose proof (net_value_length r Hr) as Hnl.
    apply (place_bytes _ _ from to); [done|lia..| |].
    + rewrite length_take, length_drop. lia.
    + intros b Hb. unfold byte_at, data_at. case_decide as Hd.
      * destruct (Z.ltb_spec b (start_address r * 2)); [done|lia].
      * destruct (Z.ltb_spec b (start_address r * 2)); [lia|].
        destruct (decide (b < to)) as [Hbt|Hbt].
        -- rewrite lookup_take_lt, lookup_drop by lia. f_equal. lia.
        -- rewrite (lookup_ge_None_2 (take _ _)) by (rewrite length_take, length_drop; lia).
           apply lookup_ge_None_2. lia.
Qed.

Lemma read_registers_spec mem address n registers result :
  Forall register_ok registers -> Forall (ends_well address (Z.of_nat n)) registers ->
  0 <= address -> (0 < n)%nat -> length result = (2 * n)%nat ->
  exists result', read_registers mem address (Z.of_nat n) registers result = Ok result'
    /\ length result' = (2 * n)%nat
    /\ forall j, result' !! j = fill (image registers (address * 2 + Z.of_nat j)) <$> result !! j.
Proof.
  intros Hok He Ha Hn. revert result.
  induction Hok as [|r rest Hr Hrest IH]; intros result Hl; cbn [read_registers].
  { exists result. split_and!; [done..|]. intros j. by destruct (result !! j) as [[]|]. }
  apply Forall_cons in He as [He Hes].
  destruct (read_register_spec mem address n r result Hr He Ha Hn Hl) as (result1 & -> & Hl1 & H1).
  cbn [rbind]. destruct (IH Hes result1 Hl1) as (result2 & -> & Hl2 & H2).
  exists result2. split_and!; [done..|]. intros j. rewrite H2, H1. cbn [image].
  destruct (result !! j) as [[v|]|]; [done| |done]. cbn.
  by destruct (byte_at r (address * 2 + Z.of_nat j)).
Qed.

(** A read returns the image, with 0 where there is no register. *)
Lemma registry_read_image mem address n registers :
  Forall register_ok registers -> Forall (ends_well address (Z.of_nat n)) registers -> 0 <= address ->
  registry_on_read mem address (Z.of_nat n) registers
  = Ok (map (fun j => default 0 (image registers (address * 2 + Z.of_nat j))) (seq 0 (2 * n))).
Proof.
  intros Hok He Ha. unfold registry_on_read. destruct (Z.eqb_spec (Z.of_nat n) 0) as [E|E].
  { by replace n with O by lia. }
  destruct (read_registers_spec mem address n registers (replicate (Z.to_nat (Z.of_nat n * 2)) None))
    as (result & -> & Hl & H); [done..|lia|rewrite length_replicate; lia|].
  cbn [rbind]. f_equal. apply list_eq. intros j. rewrite !list_lookup_fmap, H.
  destruct (decide (j < 2 * n)%nat) as [Hj|Hj].
  - rewrite lookup_replicate_2, lookup_seq_lt by lia. done.
  - rewrite (lookup_ge_None_2 (replicate _ _)), (lookup_ge_None_2 (seq _ _)); [done|..];
      rewrite ?length_seq, ?length_replicate; lia.
Qed.

(** ** Overlapping registers *)

Lemma verify_addresses_NoDup used addresses :
  NoDup used -> verify_addresses used addresses = Ok tt <-> NoDup (used ++ addresses).
Proof.
  revert used. induction addresses as [|a rest IH]; intros used Hu; cbn.
  { by rewrite app_nil_r. }
  case_bool_decide as Hin.
  - split; [done|]. intros (_ & Hd & _)%NoDup_app. destruct (Hd a Hin). left.
  - rewrite IH, <- app_assoc; [done|]. apply NoDup_app. split_and!; [done| |apply NoDup_singleton].
    intros x Hx ->%list_elem_of_singleton. done.
Qed.

(** A byte of a register is in one of its addresses. *)
Lemma byte_at_address r b :
  register_ok r -> is_Some (byte_at r b) -> b / 2 ∈ register_addresses r.
Proof.
  intros Hr Hb. apply byte_at_range in Hb; [|done]. destruct (register_size r Hr) as (Hpos & Hsz & _).
  destruct Hr as [H0 (w & ? & ? & Ew & ?) _].
  unfold register_addresses, get_start_address. apply list_elem_of_fmap.
  exists (Z.to_nat (b / 2 - start_address r)).
  assert (start_address r <= b / 2 < start_address r + get_size r) as Hq
    by (split; [apply Z.div_le_lower_bound|apply Z.div_lt_upper_bound]; lia).
  split; [|apply elem_of_seq; lia]. symmetry. rewrite Z2Nat.id by lia.
  rewrite (wrap_small 16) by (simpl; lia). lia.
Qed.

(** Without overlaps the image is the bytes of every register. *)
Lemma verified_image registers r b v :
  Forall register_ok registers -> verify_overlap registers = Ok tt ->
  r ∈ registers -> byte_at r b = Some v -> image registers b = Some v.
Proof.
  unfold verify_overlap. rewrite (verify_addresses_NoDup [] _ ltac:(constructor)). simpl ([] ++ _).
  intros Hok. induction Hok as [|r0 rest Hr0 Hrest IH]; intros Hnd Hin Hb; [by apply not_elem_of_nil in Hin|].
  cbn [map concat] in Hnd. apply NoDup_app in Hnd as (_ & Hdis & Hnd). cbn [image].
  apply elem_of_cons in Hin as [->|Hin]; [by rewrite Hb|].
  destruct (byte_at r0 b) as [v0|] eqn:E; [|by apply IH]. exfalso.
  apply (Hdis (b / 2)); [apply byte_at_address; [done|by exists v0]|].
  apply list_elem_of_In, in_concat. exists (register_addresses r). split.
  - apply in_map, list_elem_of_In, Hin.
  - apply list_elem_of_In, byte_at_address; [|by exists v]. by eapply Forall_forall in Hrest.
Qed.

Lemma same_place_addresses registers registers' :
  Forall2 same_place registers registers' ->
  map register_addresses registers' = map register_addresses registers.
Proof.
  induction 1 as [|r r' rest rest' [Hs Hb] _ IH]; [done|]. cbn [map]. f_equal; [|exact IH].
  unfold register_addresses, get_size, get_start_address. by rewrite Hs, Hb.
Qed.

(** ** The registry as a memory *)

(** A registry of registers that hold their values, of any sizes, at any
    places and in either byte order, behaves as one memory.  A write of any
    range, which may cover registers in part, start between them and reach
    past them, succeeds, leaves the registers where they are and changes
    exactly the bytes of the range that a register has.  A read after it
    returns, for every range that does not end right before the last word of
    a register it covers in part, the bytes of the memory, and 0 where no
    register is.  If the registers passed the overlap check, the memory is
    the bytes of each of them. *)
Theorem registry_read_after_write mem address data registers :
  Forall register_ok registers -> 0 <= address -> Nat.even (length data) = true ->
  Z.of_nat (length data) < 131072 ->
  exists registers', registry_on_write mem address data registers = Ok registers'
    /\ Forall2 same_place registers registers'
    /\ (forall b, image registers' b = written address data b (image registers b))
    /\ (forall address' n, 0 <= address' -> Forall (ends_well address' (Z.of_nat n)) registers' ->
          registry_on_read mem address' (Z.of_nat n) registers'
          = Ok (map (fun j => default 0 (image registers' (address' * 2 + Z.of_nat j))) (seq 0 (2 * n))))
    /\ (verify_overlap registers = Ok tt -> forall r b v,
          r ∈ registers' -> byte_at r b = Some v -> image registers' b = Some v).
Proof.
  intros Hok Ha He Hl. unfold registry_on_write. rewrite He. cbn [negb].
  destruct (write_registers_spec mem address data registers Hok Ha He Hl)
    as (registers' & -> & Hok' & Hp & Hi).
  exists registers'. split_and!; [done..| |].
  - intros address' n Ha' Hw. by apply registry_read_image.
  - unfold verify_overlap. rewrite <- (same_place_addresses _ _ Hp). intros Hv r b v.
    by apply verified_image.
Qed.

(** A 32-bit value, a gap and two memory words; the write covers the low word
    of the value, the gap and the first of the memory words. *)
Definition example_registry : list ComplexRegister :=
  [mkRegister 256 4 (DataProviderHolding [4; 3; 2; 1]) ConverterABCD;
   mkRegister 259 4 (DataProviderMemoryHolding [11; 12; 13; 14]) ConverterIdentity].

Example registry_write_read_run :
  (letr registers := registry_on_write (fun _ => 7) 257 [33; 34; 35; 36; 37; 38] example_registry in
   registry_on_read (fun _ => 7) 256 5 registers)
  = Ok [1; 2; 33; 34; 0; 0; 37; 38; 13; 14].
Proof. reflexivity. Qed.

(** The copy loop of a read that ends right before the last word of a
    register leaves the result: the bound of the cut is the first byte of the
    last word instead of the end. *)
Example read_before_last_word_out_of_bounds mem :
  registry_on_read mem 256 1 example_registry = Err out_of_bounds.
Proof. reflexivity. Qed.

Lemma example_registry_ok : Forall register_ok example_registry.
Proof.
  repeat constructor; simpl; try lia; exists 2%nat; lia.
Qed.

Lemma registry_read_after_write_witness :
  exists registers', registry_on_write (fun _ => 7) 257 [33; 34; 35; 36; 37; 38] example_registry
                     = Ok registers'
    /\ registry_on_read (fun _ => 7) 256 (Z.of_nat 5) registers' = Ok [1; 2; 33; 34; 0; 0; 37; 38; 13; 14].
Proof.
  destruct (registry_read_after_write (fun _ => 7) 257 [33; 34; 35; 36; 37; 38] example_registry
              example_registry_ok ltac:(lia) ltac:(reflexivity) ltac:(simpl; lia))
    as (registers' & E & _ & _ & Hread & _).
  exists registers'. split; [exact E|]. vm_compute in E. injection E as <-.
  rewrite (Hread 256 5%nat); [reflexivity|lia|].
  apply Forall_cons. split; [left; by vm_compute|]. apply Forall_singleton. left. by vm_compute.
Defined.
