(* ===== verification/Effects.v ===== *)
(** * Record updates and weakest preconditions

    Two tools for the larger state machines: assignment to one field of a
    record, and a weakest-precondition calculus for [Eff] in which a
    postcondition sees the value, the state and all outputs so far. *)
From S2P Require Import Prelude.
From stdpp Require Import base tactics list.
Open Scope everest_scope.

(** ** Assigning one field of a record *)

(** [eta] writes a record out by its fields; the update of a field is found
    from it. *)
Class Eta (R : Type) := eta : R -> R.
Class Update {R T : Type} (proj : R -> T) := update : (T -> T) -> R -> R.
Arguments update {R T} proj {_} g r.

Ltac solve_update :=
  lazymatch goal with
  | |- @Update ?R ?T ?proj =>
      let inst := constr:(_ : Eta R) in
      let e := eval hnf in inst in
      let p := eval pattern proj in e in
      lazymatch p with
      | ?body proj =>
          let r := eval cbv beta in (fun (g : T -> T) => body (fun r => g (proj r))) in
          exact r
      end
  end.

#[export] Hint Extern 1 (Update _) => solve_update : typeclass_instances.

(** [r.proj = v]. *)
Definition assign {R T} (proj : R -> T) `{!Update proj} (v : T) : R -> R := update proj (fun _ => v).

(** ** Sequences *)

Lemma ebind_assoc {S O E A B C} (m : Eff S O E A) (k : A -> Eff S O E B) (k' : B -> Eff S O E C) s :
  ebind (ebind m k) k' s = ebind m (fun a => ebind (k a) k') s.
Proof.
  unfold ebind. destruct (m s) as [[[a|e] s1] o1]; [|done].
  destruct (k a s1) as [[[b|e] s2] o2]; [|done].
  destruct (k' b s2) as [[r s3] o3]. by rewrite app_assoc.
Qed.

Lemma ebind_ext {S O E A B} (m : Eff S O E A) (k k' : A -> Eff S O E B) s :
  (forall a s', k a s' = k' a s') -> ebind m k s = ebind m k' s.
Proof. intros Hk. unfold ebind. destruct (m s) as [[[a|e] s1] o1]; [|done]. by rewrite Hk. Qed.

Lemma efor_app {S O E A} (l l' : list A) (f : A -> Eff S O E unit) s :
  efor (l ++ l') f s = ebind (efor l f) (fun _ => efor l' f) s.
Proof.
  revert s. induction l as [|x l IH]; intros s; cbn [app efor].
  - by rewrite ebind_ret.
  - rewrite ebind_assoc. apply ebind_ext. intros _ s'. apply IH.
Qed.

(** ** Weakest preconditions *)

Section Wp.
Context {S O E : Type}.
Implicit Types (s : S) (l : list O).

(** [m], run from [s] after the outputs [l], returns and ends in [Q]. *)
Definition wp {A} (m : Eff S O E A) (Q : A -> S -> list O -> Prop) s l : Prop :=
  match m s with
  | (Ok a, s', o) => Q a s' (l ++ o)
  | (Err _, _, _) => False
  end.

Lemma wp_ret {A} (a : A) Q s l : Q a s l -> wp (eret a : Eff S O E A) Q s l.
Proof. unfold wp, eret. by rewrite app_nil_r. Qed.

Lemma wp_modify f Q s l : Q tt (f s) l -> wp (emodify f : Eff S O E unit) Q s l.
Proof. unfold wp, emodify. by rewrite app_nil_r. Qed.

Lemma wp_emit o Q s l : Q tt s (l ++ [o]) -> wp (eemit o : Eff S O E unit) Q s l.
Proof. done. Qed.

Lemma wp_bind {A B} (m : Eff S O E A) (k : A -> Eff S O E B) Q s l :
  wp m (fun a => wp (k a) Q) s l -> wp (ebind m k) Q s l.
Proof.
  unfold wp, ebind. destruct (m s) as [[[a|e] s'] o]; [|done].
  destruct (k a s') as [[[b|e] s''] o']; [|done]. by rewrite app_assoc.
Qed.

Lemma wp_get {A} (k : S -> Eff S O E A) Q s l : wp (k s) Q s l -> wp (ebind eget k) Q s l.
Proof. unfold wp. by rewrite run_get_bind. Qed.

Lemma wp_if {A} (b : bool) (m m' : Eff S O E A) Q s l :
  (b = true -> wp m Q s l) -> (b = false -> wp m' Q s l) -> wp (if b then m else m') Q s l.
Proof. destruct b; auto. Qed.

Lemma wp_mono {A} (m : Eff S O E A) (Q Q' : A -> S -> list O -> Prop) s l :
  wp m Q s l -> (forall a s' l', Q a s' l' -> Q' a s' l') -> wp m Q' s l.
Proof. unfold wp. destruct (m s) as [[[a|e] s'] o]; auto. Qed.

Lemma wp_conj {A} (m : Eff S O E A) (Q Q' : A -> S -> list O -> Prop) s l :
  wp m Q s l -> wp m Q' s l -> wp m (fun a s' l' => Q a s' l' /\ Q' a s' l') s l.
Proof. unfold wp. destruct (m s) as [[[a|e] s'] o]; auto. Qed.

(** A loop keeps what each round keeps. *)
Lemma wp_for {A} (I : S -> list O -> Prop) (xs : list A) (f : A -> Eff S O E unit) s l :
  (forall x s l, x ∈ xs -> I s l -> wp (f x) (fun _ => I) s l) ->
  I s l -> wp (efor xs f) (fun _ => I) s l.
Proof.
  revert s l. induction xs as [|x xs IH]; intros s l Hf HI; cbn [efor].
  { by apply wp_ret. }
  apply wp_bind. eapply wp_mono; [apply Hf; [left|done]|]. cbv beta. intros _ s' l' HI'.
  apply IH; [|done]. intros y s1 l1 Hy. apply Hf. by right.
Qed.

(** [keeps I m]: [m] returns, and the invariant holds again. *)
Definition keeps {A} (I : S -> list O -> Prop) (m : Eff S O E A) : Prop :=
  forall s l, I s l -> wp m (fun _ => I) s l.

Lemma kept_ret {A} I (a : A) : keeps I (eret a : Eff S O E A).
Proof. intros s l HI. by apply wp_ret. Qed.

Lemma kept_bind {A B} I (m : Eff S O E A) (k : A -> Eff S O E B) :
  keeps I m -> (forall a, keeps I (k a)) -> keeps I (ebind m k).
Proof.
  intros Hm Hk s l HI. apply wp_bind. eapply wp_mono; [by apply Hm|]. intros a s' l'. apply Hk.
Qed.

Lemma kept_get {A} I (k : S -> Eff S O E A) : (forall s, keeps I (k s)) -> keeps I (ebind eget k).
Proof. intros Hk s l HI. by apply wp_get, Hk. Qed.

Lemma kept_modify I f : (forall s l, I s l -> I (f s) l) -> keeps I (emodify f : Eff S O E unit).
Proof. intros Hf s l HI. by apply wp_modify, Hf. Qed.

Lemma kept_emit I o : (forall s l, I s l -> I s (l ++ [o])) -> keeps I (eemit o : Eff S O E unit).
Proof. intros Hf s l HI. by apply wp_emit, Hf. Qed.

Lemma kept_if {A} I (b : bool) (m m' : Eff S O E A) :
  keeps I m -> keeps I m' -> keeps I (if b then m else m').
Proof. by destruct b. Qed.

Lemma kept_for {A} I (xs : list A) (f : A -> Eff S O E unit) :
  (forall x, keeps I (f x)) -> keeps I (efor xs f).
Proof. intros Hf s l. apply wp_for. intros x s' l' _. apply Hf. Qed.

(** [stays f m]: [m] returns, and [f] has the same value as before. *)
Definition stays {T A} (f : S -> T) (m : Eff S O E A) : Prop :=
  forall s l, wp m (fun _ s' _ => f s' = f s) s l.

Lemma stays_ret {T A} (f : S -> T) (a : A) : stays f (eret a : Eff S O E A).
Proof. intros s l. by apply wp_ret. Qed.

Lemma stays_bind {T A B} (f : S -> T) (m : Eff S O E A) (k : A -> Eff S O E B) :
  stays f m -> (forall a, stays f (k a)) -> stays f (ebind m k).
Proof.
  intros Hm Hk s l. apply wp_bind. eapply wp_mono; [apply Hm|]. cbv beta. intros a s' l' <-.
  eapply wp_mono; [apply Hk|]. done.
Qed.

Lemma stays_get {T A} (f : S -> T) (k : S -> Eff S O E A) :
  (forall s, stays f (k s)) -> stays f (ebind eget k).
Proof. intros Hk s l. apply wp_get, Hk. Qed.

Lemma stays_modify {T} (f : S -> T) g :
  (forall s, f (g s) = f s) -> stays f (emodify g : Eff S O E unit).
Proof. intros Hg s l. apply wp_modify, Hg. Qed.

Lemma stays_emit {T} (f : S -> T) o : stays f (eemit o : Eff S O E unit).
Proof. intros s l. by apply wp_emit. Qed.

Lemma stays_if {T A} (f : S -> T) (b : bool) (m m' : Eff S O E A) :
  stays f m -> stays f m' -> stays f (if b then m else m').
Proof. by destruct b. Qed.

Lemma stays_for {T A} (f : S -> T) (xs : list A) (g : A -> Eff S O E unit) :
  (forall x, stays f (g x)) -> stays f (efor xs g).
Proof.
  intros Hg. induction xs as [|x xs IH]; cbn [efor]; [apply stays_ret|].
  by apply stays_bind; [apply Hg|intros _].
Qed.

(** Using it: what comes next sees the same value. *)
Lemma wp_stays {T A} (f : S -> T) (m : Eff S O E A) (Q : A -> S -> list O -> Prop) s l :
  stays f m -> (forall a s' l', f s' = f s -> Q a s' l') -> wp m Q s l.
Proof. intros Hm HQ. eapply wp_mono; [apply Hm|]. intros a s' l'. apply HQ. Qed.

(** What a run returns and leaves behind. *)
Lemma wp_run {A} (m : Eff S O E A) Q s l :
  wp m Q s l -> exists a, run_val m s = Ok a /\ Q a (run_state m s) (l ++ run_out m s).
Proof.
  unfold wp, run_val, run_state, run_out. destruct (m s) as [[[a|e] s'] o]; [|done]. eauto.
Qed.
End Wp.

(** Names the state a run starts from. *)
Ltac name_state x := match goal with |- wp _ _ ?s _ => set (x := s) end.
