(* ===== verification/ErrorHandling.v ===== *)
(** * Error handling of the EvseManager

    [modules/EVSE/EvseManager/ErrorHandling.cpp] and its header: the active
    errors of the module and of the devices it uses are classified, the error
    [evse_manager/Inoperative] tells the outside that charging is prevented,
    and the charger is told to shut down.  The error framework is not part of
    the repository; it is the class [ErrorMonitor], the active errors of one
    implementation. *)
From S2P Require Import Prelude Effects.
From stdpp Require Import base tactics list numbers strings sets.
Open Scope everest_scope.

(** [Everest::error::Error], with the members the code uses. *)
Module Severity.
Inductive t : Set := Low | Medium | High.
#[global] Instance eq_dec : EqDecision t.
Proof. solve_decision. Defined.
End Severity.

Record Error := mkError {
  error_type : string;
  error_sub_type : string;
  error_description : string;
  error_severity : Severity.t;
  error_vendor_id : string;
}.
#[global] Instance eta_Error : Eta Error := fun e =>
  mkError (error_type e) (error_sub_type e) (error_description e) (error_severity e)
    (error_vendor_id e).

#[global] Instance Error_eq_dec : EqDecision Error.
Proof. solve_decision. Defined.

(** The errors of one implementation: [error_state_monitor] with
    [get_active_errors] and [is_error_active], [raise_error] and
    [clear_error], and its [error_factory].  [clear_error] without a sub type
    clears the error with the empty one. *)
Class ErrorMonitor (M : Type) := {
  create_error : string -> string -> string -> Severity.t -> Error;
  get_active_errors : M -> list Error;
  is_error_active : string -> string -> M -> bool;
  raise_error : Error -> M -> M;
  clear_error : string -> string -> M -> M;
}.

Definition has_key (type sub_type : string) (e : Error) : Prop :=
  error_type e = type /\ error_sub_type e = sub_type.

(** What the code relies on: the factory fills in what it is given, and an
    error is active from when it is raised until it is cleared. *)
Class ErrorMonitorLaws (M : Type) `{ErrorMonitor M} : Prop := {
  create_error_spec : forall type sub_type description severity,
    has_key type sub_type (create_error type sub_type description severity)
    /\ error_severity (create_error type sub_type description severity) = severity;
  is_error_active_spec : forall type sub_type m,
    is_error_active type sub_type m = true
    <-> exists e, e ∈ get_active_errors m /\ has_key type sub_type e;
  raise_error_spec : forall e m,
    is_error_active (error_type e) (error_sub_type e) m = false ->
    forall e', e' ∈ get_active_errors (raise_error e m) <-> e' = e \/ e' ∈ get_active_errors m;
  raise_error_again : forall e m,
    is_error_active (error_type e) (error_sub_type e) m = true ->
    forall e', e' ∈ get_active_errors (raise_error e m) <-> e' ∈ get_active_errors m;
  clear_error_spec : forall type sub_type m e',
    e' ∈ get_active_errors (clear_error type sub_type m)
    <-> e' ∈ get_active_errors m /\ ~ has_key type sub_type e';
}.

(** [generate_description]: the type without what is before the first slash
    and without a slash at its end, and the sub type. *)
Definition generate_description (e : Error) : string :=
  match String.index 0 "/" (error_type e) with
  | Some n =>
      let result :=
        if Nat.eqb (n + 1) (String.length (error_type e))
        then String.substring 0 n (error_type e)
        else
          let rest := String.substring (n + 1) (String.length (error_type e) - (n + 1))
                        (error_type e) in
          let last := (String.length rest - 1)%nat in
          if String.eqb (String.substring last 1 rest) "/" then String.substring 0 last rest
          else rest in
      if String.eqb (error_sub_type e) "" then result
      else (result +:+ "/" +:+ error_sub_type e)%string
  | None => error_description e
  end.

(** The errors that do not prevent charging. *)
Module ignore_errors.
Definition evse : list string := ["evse_manager/Inoperative"].
Definition bsp : list string :=
  ["evse_board_support/MREC3HighTemperature"; "evse_board_support/MREC18CableOverTempDerate";
   "evse_board_support/VendorWarning"].
Definition connector_lock : list string := ["connector_lock/VendorWarning"].
Definition ac_rcd : list string := ["ac_rcd/VendorWarning"].
Definition imd : list string := ["isolation_monitor/VendorWarning"].
Definition powersupply : list string := ["power_supply_DC/VendorWarning"].
Definition powermeter : list string := [].
Definition over_voltage_monitor : list string := ["over_voltage_monitor/VendorWarning"].
End ignore_errors.

Module ErrorHandlingEvents.
Inductive t : Set :=
| ForceErrorShutdown | ForceEmergencyShutdown | AllErrorsPreventingChargingCleared
| AllErrorCleared.
End ErrorHandlingEvents.

Module ShutdownType.
Inductive t : Set := None | ErrorShutdown | EmergencyShutdown.
#[global] Instance eq_dec : EqDecision t.
Proof. solve_decision. Defined.
Definition eqb (a b : t) : bool := bool_decide (a = b).
End ShutdownType.

(** The signals. *)
Inductive eh_output : Type :=
| signal_error (event : ErrorHandlingEvents.t)
| signal_all_errors_cleared.

(** The errors of the module itself and of its requirements, of which only
    the first of each kind is used. *)
Record eh_state (M : Type) := mkEh {
  p_evse : M;
  r_bsp : M;
  r_connector_lock : list M;
  r_ac_rcd : list M;
  r_imd : list M;
  r_powersupply : list M;
  r_powermeter : list M;
  r_over_voltage_monitor : list M;
  inoperative_error_use_vendor_id : bool;
}.
Arguments mkEh {M}.
Arguments p_evse {M}.
Arguments r_bsp {M}.
Arguments r_connector_lock {M}.
Arguments r_ac_rcd {M}.
Arguments r_imd {M}.
Arguments r_powersupply {M}.
Arguments r_powermeter {M}.
Arguments r_over_voltage_monitor {M}.
Arguments inoperative_error_use_vendor_id {M}.
#[global] Instance eta_eh_state {M} : Eta (eh_state M) := fun s =>
  mkEh (p_evse s) (r_bsp s) (r_connector_lock s) (r_ac_rcd s) (r_imd s) (r_powersupply s)
    (r_powermeter s) (r_over_voltage_monitor s) (inoperative_error_use_vendor_id s).

Section ErrorHandling.
Context {M : Type} `{ErrorMonitor M}.
Abbreviation EH := (Eff (eh_state M) eh_output Empty_set).

Definition put_evse (f : M -> M) : EH unit := emodify (update p_evse f).

(** The first error that is not in the list. *)
Definition is_fatal (errors : list Error) (ignore_list : list string) : option Error :=
  List.find (fun e => negb (existsb (String.eqb (error_type e)) ignore_list)) errors.

Definition first_fatal (impl : list M) (ignore_list : list string) : option Error :=
  match impl with
  | [] => None
  | m :: _ => is_fatal (get_active_errors m) ignore_list
  end.

(** The first of two optional errors. *)
Definition or_else (a b : option Error) : option Error := match a with Some e => Some e | None => b end.

Definition errors_prevent_charging (s : eh_state M) : option Error :=
  or_else (is_fatal (get_active_errors (p_evse s)) ignore_errors.evse)
  (or_else (is_fatal (get_active_errors (r_bsp s)) ignore_errors.bsp)
  (or_else (first_fatal (r_connector_lock s) ignore_errors.connector_lock)
  (or_else (first_fatal (r_ac_rcd s) ignore_errors.ac_rcd)
  (or_else (first_fatal (r_imd s) ignore_errors.imd)
  (or_else (first_fatal (r_powersupply s) ignore_errors.powersupply)
  (or_else (first_fatal (r_powermeter s) ignore_errors.powermeter)
     (first_fatal (r_over_voltage_monitor s) ignore_errors.over_voltage_monitor))))))).

Definition Inoperative : string := "evse_manager/Inoperative".

(** The error Inoperative raised for another one. *)
Definition inoperative_error (caused_by : Error) (s : eh_state M) : Error :=
  let vendor_id :=
    if inoperative_error_use_vendor_id s && negb (String.eqb (error_vendor_id caused_by) "")
    then error_vendor_id caused_by else "EVerest"%string in
  let error_object := create_error Inoperative "" (error_type caused_by) Severity.High in
  let error_object := assign error_description (generate_description caused_by) error_object in
  assign error_vendor_id vendor_id error_object.

Definition raise_inoperative_error (caused_by : Error) : EH unit :=
  let* s := eget in
  if is_error_active Inoperative "" (p_evse s) then eret tt
  else
    put_evse (raise_error (inoperative_error caused_by s)) ;;;
    if bool_decide (error_severity caused_by = Severity.High)
    then eemit (signal_error ErrorHandlingEvents.ForceEmergencyShutdown)
    else eemit (signal_error ErrorHandlingEvents.ForceErrorShutdown).

Definition clear_inoperative_error : EH unit :=
  let* s := eget in
  if is_error_active Inoperative "" (p_evse s) then
    put_evse (clear_error Inoperative "") ;;;
    eemit (signal_error ErrorHandlingEvents.AllErrorsPreventingChargingCleared)
  else eret tt.

Definition number_of_active_errors (impl : list M) : nat :=
  match impl with [] => 0%nat | m :: _ => length (get_active_errors m) end.

(** The errors counted for [signal_all_errors_cleared]. *)
Definition error_count (s : eh_state M) : nat :=
  (length (get_active_errors (p_evse s)) + length (get_active_errors (r_bsp s))
   + number_of_active_errors (r_connector_lock s) + number_of_active_errors (r_ac_rcd s)
   + number_of_active_errors (r_imd s) + number_of_active_errors (r_powersupply s)
   + number_of_active_errors (r_powermeter s))%nat.

Definition process_error : EH unit :=
  let* s := eget in
  match errors_prevent_charging s with
  | Some fatal => raise_inoperative_error fatal
  | None => clear_inoperative_error
  end ;;;
  let* s := eget in
  if Nat.eqb (error_count s) 0 then eemit signal_all_errors_cleared else eret tt.

(** An error of the module itself, from the error factory. *)
Definition raise_own (type sub_type description : string) (severity : Severity.t) : EH unit :=
  put_evse (raise_error (create_error type sub_type description severity)) ;;;
  process_error.

(** Clear an error that is active. *)
Definition clear_own (type sub_type : string) : EH unit :=
  let* s := eget in
  if is_error_active type sub_type (p_evse s)
  then put_evse (clear_error type sub_type) ;;; process_error
  else eret tt.

Definition raise_overcurrent_error (description : string) : EH unit :=
  raise_own "evse_manager/MREC4OverCurrentFailure" "" description Severity.High.

(** Unlike the others, this one always processes the errors. *)
Definition clear_overcurrent_error : EH unit :=
  let* s := eget in
  (if is_error_active "evse_manager/MREC4OverCurrentFailure" "" (p_evse s)
   then put_evse (clear_error "evse_manager/MREC4OverCurrentFailure" "") else eret tt) ;;;
  process_error.

Definition raise_internal_error (description : string) : EH unit :=
  raise_own "evse_manager/Internal" "" description Severity.High.
Definition clear_internal_error : EH unit := clear_own "evse_manager/Internal" "".

Definition raise_authorization_timeout_error (description : string) : EH unit :=
  raise_own "evse_manager/MREC9AuthorizationTimeout" "" description Severity.Medium.
Definition clear_authorization_timeout_error : EH unit :=
  clear_own "evse_manager/MREC9AuthorizationTimeout" "".

Definition raise_powermeter_transaction_start_failed_error (description : string) : EH unit :=
  raise_own "evse_manager/PowermeterTransactionStartFailed" "" description Severity.Medium.
Definition clear_powermeter_transaction_start_failed_error : EH unit :=
  clear_own "evse_manager/PowermeterTransactionStartFailed" "".

Definition raise_isolation_resistance_fault (description : string) : EH unit :=
  raise_own "evse_manager/MREC22ResistanceFault" "" description Severity.Medium.
Definition clear_isolation_resistance_fault : EH unit :=
  clear_own "evse_manager/MREC22ResistanceFault" "".

Definition raise_cable_check_fault (description : string) : EH unit :=
  raise_own "evse_manager/MREC11CableCheckFault" "Self test failed" description Severity.Medium.
Definition clear_cable_check_fault : EH unit :=
  clear_own "evse_manager/MREC11CableCheckFault" "Self test failed".
End ErrorHandling.

(** ** Operations *)

(** What happens to the error handling: the errors of the devices change, the
    module raises or clears one of its own. *)
Inductive eh_op (M : Type) : Type :=
| device_errors (devices : eh_state M)
| overcurrent_error (description : string)
| internal_error (description : string)
| authorization_timeout_error (description : string)
| powermeter_error (description : string)
| isolation_fault (description : string)
| cable_check_fault (description : string)
| overcurrent_cleared
| internal_cleared
| authorization_timeout_cleared
| powermeter_cleared
| isolation_cleared
| cable_check_cleared.
Arguments device_errors {M}.
Arguments overcurrent_error {M}.
Arguments internal_error {M}.
Arguments authorization_timeout_error {M}.
Arguments powermeter_error {M}.
Arguments isolation_fault {M}.
Arguments cable_check_fault {M}.
Arguments overcurrent_cleared {M}.
Arguments internal_cleared {M}.
Arguments authorization_timeout_cleared {M}.
Arguments powermeter_cleared {M}.
Arguments isolation_cleared {M}.
Arguments cable_check_cleared {M}.

Section Operations.
Context {M : Type} `{ErrorMonitor M}.

Definition eh_action (op : eh_op M) : Eff (eh_state M) eh_output Empty_set unit :=
  match op with
  | device_errors devices =>
      emodify (fun s => assign p_evse (p_evse s)
        (assign inoperative_error_use_vendor_id (inoperative_error_use_vendor_id s) devices)) ;;;
      process_error
  | overcurrent_error d => raise_overcurrent_error d
  | internal_error d => raise_internal_error d
  | authorization_timeout_error d => raise_authorization_timeout_error d
  | powermeter_error d => raise_powermeter_transaction_start_failed_error d
  | isolation_fault d => raise_isolation_resistance_fault d
  | cable_check_fault d => raise_cable_check_fault d
  | overcurrent_cleared => clear_overcurrent_error
  | internal_cleared => clear_internal_error
  | authorization_timeout_cleared => clear_authorization_timeout_error
  | powermeter_cleared => clear_powermeter_transaction_start_failed_error
  | isolation_cleared => clear_isolation_resistance_fault
  | cable_check_cleared => clear_cable_check_fault
  end.
End Operations.

(** ** Threads

    Errors are processed on the threads that report or raise them, and no mutex is
    held meanwhile: the active errors can change, and another thread can process
    them, between any two of the steps. *)
Module ErrorThreads.

(** Where a thread is: the next thing it does. *)
Inductive point (M : Type) : Type :=
| begins (op : eh_op M)                                  (** the errors change *)
| reads (impls : list (eh_state M -> option Error))      (** [errors_prevent_charging], the rest of it *)
| acts (fatal : option Error)                            (** [is_error_active] of Inoperative *)
| sets (fatal : option Error)                            (** Inoperative is raised or cleared *)
| tells (fatal : option Error)                           (** [signal_error] *)
| counts (impls : list (eh_state M -> nat)) (n : nat)    (** [error_count], the rest of it *)
| announces                                              (** [signal_all_errors_cleared] *)
| finished.
Arguments begins {M}.
Arguments reads {M}.
Arguments acts {M}.
Arguments sets {M}.
Arguments tells {M}.
Arguments counts {M}.
Arguments announces {M}.
Arguments finished {M}.

Record pool (M : Type) := mkPool {
  shared : eh_state M;
  told : list eh_output;
  threads : list (point M);
}.
Arguments mkPool {M}.
Arguments shared {M}.
Arguments told {M}.
Arguments threads {M}.

Inductive turn (M : Type) : Type := spawn (op : eh_op M) | go (i : nat).
Arguments spawn {M}.
Arguments go {M}.

Section Threads.
Context {M : Type} `{ErrorMonitor M}.

(** The errors after the change, when they are to be processed. *)
Definition change (op : eh_op M) (s : eh_state M) : option (eh_state M) :=
  let raised type sub_type d severity :=
    Some (update p_evse (raise_error (create_error type sub_type d severity)) s) in
  let cleared type sub_type :=
    if is_error_active type sub_type (p_evse s) then Some (update p_evse (clear_error type sub_type) s) else None in
  match op with
  | device_errors devices =>
      Some (assign p_evse (p_evse s)
        (assign inoperative_error_use_vendor_id (inoperative_error_use_vendor_id s) devices))
  | overcurrent_error d => raised "evse_manager/MREC4OverCurrentFailure"%string ""%string d Severity.High
  | internal_error d => raised "evse_manager/Internal"%string ""%string d Severity.High
  | authorization_timeout_error d => raised "evse_manager/MREC9AuthorizationTimeout"%string ""%string d Severity.Medium
  | powermeter_error d =>
      raised "evse_manager/PowermeterTransactionStartFailed"%string ""%string d Severity.Medium
  | isolation_fault d => raised "evse_manager/MREC22ResistanceFault"%string ""%string d Severity.Medium
  | cable_check_fault d =>
      raised "evse_manager/MREC11CableCheckFault"%string "Self test failed"%string d Severity.Medium
  | overcurrent_cleared =>
      Some (default s (cleared "evse_manager/MREC4OverCurrentFailure"%string ""%string))
  | internal_cleared => cleared "evse_manager/Internal"%string ""%string
  | authorization_timeout_cleared => cleared "evse_manager/MREC9AuthorizationTimeout"%string ""%string
  | powermeter_cleared => cleared "evse_manager/PowermeterTransactionStartFailed"%string ""%string
  | isolation_cleared => cleared "evse_manager/MREC22ResistanceFault"%string ""%string
  | cable_check_cleared => cleared "evse_manager/MREC11CableCheckFault"%string "Self test failed"%string
  end.

(** The implementations [errors_prevent_charging] looks at, in its order, and those
    whose errors are counted. *)
Definition looked_at : list (eh_state M -> option Error) :=
  [fun s => is_fatal (get_active_errors (p_evse s)) ignore_errors.evse;
   fun s => is_fatal (get_active_errors (r_bsp s)) ignore_errors.bsp;
   fun s => first_fatal (r_connector_lock s) ignore_errors.connector_lock;
   fun s => first_fatal (r_ac_rcd s) ignore_errors.ac_rcd;
   fun s => first_fatal (r_imd s) ignore_errors.imd;
   fun s => first_fatal (r_powersupply s) ignore_errors.powersupply;
   fun s => first_fatal (r_powermeter s) ignore_errors.powermeter;
   fun s => first_fatal (r_over_voltage_monitor s) ignore_errors.over_voltage_monitor].
Definition counted : list (eh_state M -> nat) :=
  [fun s => length (get_active_errors (p_evse s)); fun s => length (get_active_errors (r_bsp s));
   fun s => number_of_active_errors (r_connector_lock s); fun s => number_of_active_errors (r_ac_rcd s);
   fun s => number_of_active_errors (r_imd s); fun s => number_of_active_errors (r_powersupply s);
   fun s => number_of_active_errors (r_powermeter s)].

(** One step of a thread: the errors, what it tells, and where it is then. *)
Definition thread_step (p : point M) (s : eh_state M) : option (eh_state M * list eh_output * point M) :=
  match p with
  | begins op =>
      match change op s with
      | Some s' => Some (s', [], reads looked_at)
      | None => Some (s, [], finished)
      end
  | reads [] => Some (s, [], acts None)
  | reads (f :: l) => Some (s, [], match f s with Some e => acts (Some e) | None => reads l end)
  | acts fatal =>
      Some (s, [], if Bool.eqb (is_error_active Inoperative "" (p_evse s)) (bool_decide (is_Some fatal))
                   then counts counted 0 else sets fatal)
  | sets (Some caused_by) =>
      Some (update p_evse (raise_error (inoperative_error caused_by s)) s, [], tells (Some caused_by))
  | sets None => Some (update p_evse (clear_error Inoperative "") s, [], tells None)
  | tells (Some caused_by) =>
      Some (s, [signal_error (if bool_decide (error_severity caused_by = Severity.High)
                              then ErrorHandlingEvents.ForceEmergencyShutdown
                              else ErrorHandlingEvents.ForceErrorShutdown)], counts counted 0)
  | tells None => Some (s, [signal_error ErrorHandlingEvents.AllErrorsPreventingChargingCleared], counts counted 0)
  | counts [] n => Some (s, [], if Nat.eqb n 0 then announces else finished)
  | counts (f :: l) n => Some (s, [], counts l (n + f s))
  | announces => Some (s, [signal_all_errors_cleared], finished)
  | finished => None
  end.

Definition take_turn (c : pool M) (t : turn M) : pool M :=
  match t with
  | spawn op => mkPool (shared c) (told c) (threads c ++ [begins op])
  | go i =>
      match threads c !! i with
      | Some p =>
          match thread_step p (shared c) with
          | Some (s, o, p') => mkPool s (told c ++ o) (<[i:=p']> (threads c))
          | None => c
          end
      | None => c
      end
  end.
Definition interleave (l : list (turn M)) (c : pool M) : pool M := fold_left take_turn l c.
End Threads.
End ErrorThreads.


(** ** A monitor as a list of errors *)

Module ListMonitor.
Definition key_eqb (type sub_type : string) (e : Error) : bool :=
  String.eqb (error_type e) type && String.eqb (error_sub_type e) sub_type.

#[global] Instance list_monitor : ErrorMonitor (list Error) := {|
  create_error type sub_type description severity :=
    mkError type sub_type description severity "";
  get_active_errors m := m;
  is_error_active type sub_type m := existsb (key_eqb type sub_type) m;
  raise_error e m :=
    if existsb (key_eqb (error_type e) (error_sub_type e)) m then m else m ++ [e];
  clear_error type sub_type m := List.filter (fun e => negb (key_eqb type sub_type e)) m;
|}.

Lemma key_eqb_spec type sub_type e : key_eqb type sub_type e = true <-> has_key type sub_type e.
Proof. unfold key_eqb, has_key. by rewrite andb_true_iff, !String.eqb_eq. Qed.

#[global] Instance list_monitor_laws : ErrorMonitorLaws (list Error).
Proof.
  split; cbn.
  - done.
  - intros type sub_type m. rewrite existsb_exists. setoid_rewrite key_eqb_spec.
    setoid_rewrite list_elem_of_In. naive_solver.
  - intros e m -> e'. set_solver.
  - intros e m -> e'. done.
  - intros type sub_type m e'. rewrite !list_elem_of_In, filter_In, negb_true_iff.
    rewrite <- key_eqb_spec. destruct (key_eqb type sub_type e'); naive_solver.
Qed.
End ListMonitor.
