(* ===== verification/ChargerTypes.v ===== *)
(** * Data of the charger

    The state of [modules/EVSE/EvseManager/Charger.hpp]: its three contexts
    and the components it holds references to, the IEC state machine and the
    error handling, which are part of the state here.  Signals, and the calls
    on meters and on the store, are outputs; each output is logged with the
    shared context it was made in.  [float]s are rationals, times are
    milliseconds; the steady and the system clock stand still while an
    operation runs, except where it sleeps. *)
From S2P Require Import Prelude Effects AuthTypes IECStateMachine ErrorHandling.
From stdpp Require Import base tactics list numbers strings.
From Stdlib Require Import QArith.
Open Scope Z_scope.
Open Scope everest_scope.

Module ChargeMode.
Inductive t : Set := AC | DC.
#[global] Instance eq_dec : EqDecision t.
Proof. solve_decision. Defined.
Definition eqb (a b : t) : bool := bool_decide (a = b).
End ChargeMode.

Module EvseState.
Inductive t : Set :=
| Disabled | Idle | WaitingForAuthentication | PrepareCharging | WaitingForEnergy | Charging
| ChargingPausedEV | ChargingPausedEVSE | StoppingCharging | Finished | T_step_EF | T_step_X1
| SwitchPhases | Replug.
#[global] Instance eq_dec : EqDecision t.
Proof. solve_decision. Defined.
Definition eqb (a b : t) : bool := bool_decide (a = b).
End EvseState.

Module HlcTerminatePause.
Inductive t : Set := Unknown | Terminate | Pause.
#[global] Instance eq_dec : EqDecision t.
Proof. solve_decision. Defined.
Definition eqb (a b : t) : bool := bool_decide (a = b).
End HlcTerminatePause.

(** [types::evse_board_support::Connector_type]. *)
Module Connector_type.
Inductive t : Set := IEC62196Type2Cable | IEC62196Type2Socket.
#[global] Instance eq_dec : EqDecision t.
Proof. solve_decision. Defined.
Definition eqb (a b : t) : bool := bool_decide (a = b).
End Connector_type.

(** [types::iso15118::EvseError]. *)
Module EvseError.
Inductive t : Set :=
| Error_Contactor | Error_RCD | Error_UtilityInterruptEvent | Error_Malfunction
| Error_EmergencyShutdown.
End EvseError.

(** [types::iso15118::DcEvseMaximumLimits] and [DcEvseMinimumLimits]. *)
Record DcEvseMaximumLimits := mkMaximumLimits {
  evse_maximum_current_limit : Q;
  evse_maximum_power_limit : Q;
  evse_maximum_voltage_limit : Q;
  evse_maximum_discharge_current_limit : option Q;
  evse_maximum_discharge_power_limit : option Q;
}.
#[global] Instance eta_MaximumLimits : Eta DcEvseMaximumLimits := fun l =>
  mkMaximumLimits (evse_maximum_current_limit l) (evse_maximum_power_limit l)
    (evse_maximum_voltage_limit l) (evse_maximum_discharge_current_limit l)
    (evse_maximum_discharge_power_limit l).
Record DcEvseMinimumLimits := mkMinimumLimits {
  evse_minimum_current_limit : Q;
  evse_minimum_voltage_limit : Q;
  evse_minimum_power_limit : Q;
  evse_minimum_discharge_current_limit : option Q;
  evse_minimum_discharge_power_limit : option Q;
}.

(** [types::evse_manager::EnableDisableSource]. *)
Module Enable_source.
Inductive t : Set :=
| Unspecified | LocalAPI | LocalKeyLock | ServiceTechnician | RemoteKeyLock | MobileApp
| FirmwareUpdate | CSMS.
#[global] Instance eq_dec : EqDecision t.
Proof. solve_decision. Defined.
Definition eqb (a b : t) : bool := bool_decide (a = b).
End Enable_source.

Module Enable_state.
Inductive t : Set := Unassigned | Disable | Enable.
#[global] Instance eq_dec : EqDecision t.
Proof. solve_decision. Defined.
Definition eqb (a b : t) : bool := bool_decide (a = b).
End Enable_state.

Record EnableDisableSource := mkSource {
  enable_source : Enable_source.t;
  enable_state : Enable_state.t;
  enable_priority : Z;
}.
#[global] Instance eta_EnableDisableSource : Eta EnableDisableSource := fun s =>
  mkSource (enable_source s) (enable_state s) (enable_priority s).

(** [utils::SessionIdType]. *)
Module SessionIdType.
Inductive t : Set := UUID | UUID_BASE64 | SHORT_BASE64.
End SessionIdType.

Definition get_session_id_type_from_string (type : string) : SessionIdType.t :=
  if String.eqb type "UUID_BASE64" then SessionIdType.UUID_BASE64
  else if String.eqb type "SHORT_BASE64" then SessionIdType.SHORT_BASE64
  else SessionIdType.UUID.

(** [types::powermeter]: the request that starts a transaction, and the
    responses.  A signed meter value is its data. *)
Module OCMFIdentificationType.
Inductive t : Set :=
| NONE | DENIED | UNDEFINED | ISO14443 | ISO15693 | EMAID | EVCCID | EVCOID | ISO7812
| CARD_TXN_NR | CENTRAL | CENTRAL_1 | CENTRAL_2 | LOCAL | LOCAL_1 | LOCAL_2 | PHONE_NUMBER
| KEY_CODE.
End OCMFIdentificationType.

Definition convert_to_ocmf_identification_type (t : IdTokenType.t) : OCMFIdentificationType.t :=
  match t with
  | IdTokenType.Central => OCMFIdentificationType.CENTRAL
  | IdTokenType.eMAID => OCMFIdentificationType.EMAID
  | IdTokenType.ISO14443 => OCMFIdentificationType.ISO14443
  | IdTokenType.ISO15693 => OCMFIdentificationType.ISO15693
  | IdTokenType.KeyCode => OCMFIdentificationType.KEY_CODE
  | IdTokenType.Local => OCMFIdentificationType.LOCAL
  | IdTokenType.NoAuthorization => OCMFIdentificationType.NONE
  | IdTokenType.MacAddress => OCMFIdentificationType.UNDEFINED
  end.

Module OCMFUserIdentificationStatus.
Inductive t : Set := ASSIGNED | NOT_ASSIGNED.
End OCMFUserIdentificationStatus.

Record TransactionReq := mkTransactionReq {
  req_evse_id : string;
  req_transaction_id : string;
  req_identification_status : OCMFUserIdentificationStatus.t;
  req_identification_flags : list string;
  req_identification_type : OCMFIdentificationType.t;
  req_identification_level : option string;
  req_identification_data : option string;
  req_tariff_text : option string;
}.

Module TransactionRequestStatus.
Inductive t : Set := OK | NOT_SUPPORTED | UNEXPECTED_ERROR.
End TransactionRequestStatus.

Record TransactionStopResponse := mkStopResponse {
  stop_status : TransactionRequestStatus.t;
  start_signed_meter_value_of : option string;
  signed_meter_value_of : option string;
}.

(** ** The contexts *)

Record SharedContext := mkShared {
  legacy_wakeup_done : bool;
  hlc_allow_close_contactor : bool;
  iec_allow_close_contactor : bool;
  contactor_open : bool;
  hlc_charging_active : bool;
  hlc_charging_terminate_pause : HlcTerminatePause.t;
  current_evse_max_limits : DcEvseMaximumLimits;
  current_evse_min_limits : DcEvseMinimumLimits;
  pwm_running : bool;
  stop_transaction_id_token : option ProvidedIdToken;
  id_token : ProvidedIdToken;
  (** of the validation result only the contents of the tariff messages are
      read *)
  tariff_messages : list string;
  authorized : bool;
  authorized_pnc : bool;
  matching_started : bool;
  max_current : Q;
  max_current_valid_until : Z;
  max_current_cable : Q;
  transaction_active : bool;
  session_active : bool;
  session_uuid : string;
  connector_enabled : bool;
  current_state : EvseState.t;
  last_stop_transaction_reason : option StopTransactionReason.t;
  last_start_session_reason : StartSessionReason.t;
  current_drawn_by_vehicle : Q * Q * Q;
  shutdown_type : ShutdownType.t;
  last_shutdown_type : ShutdownType.t;
  ac_with_soc_timer : Z;
  ac_with_soc_timeout : bool;
  switch_3ph1ph_threephase : bool;
  switch_3ph1ph_threephase_ongoing : bool;
  stop_signed_meter_value : option string;
  start_signed_meter_value : option string;
}.
#[global] Instance eta_SharedContext : Eta SharedContext := fun s =>
  mkShared (legacy_wakeup_done s) (hlc_allow_close_contactor s) (iec_allow_close_contactor s)
    (contactor_open s) (hlc_charging_active s) (hlc_charging_terminate_pause s)
    (current_evse_max_limits s) (current_evse_min_limits s) (pwm_running s)
    (stop_transaction_id_token s) (id_token s) (tariff_messages s) (authorized s)
    (authorized_pnc s) (matching_started s) (max_current s) (max_current_valid_until s)
    (max_current_cable s) (transaction_active s) (session_active s) (session_uuid s)
    (connector_enabled s) (current_state s) (last_stop_transaction_reason s)
    (last_start_session_reason s) (current_drawn_by_vehicle s) (shutdown_type s)
    (last_shutdown_type s) (ac_with_soc_timer s) (ac_with_soc_timeout s)
    (switch_3ph1ph_threephase s) (switch_3ph1ph_threephase_ongoing s)
    (stop_signed_meter_value s) (start_signed_meter_value s).

Record ConfigContext := mkConfig {
  ac_enforce_hlc : bool;
  ac_hlc_use_5percent : bool;
  ac_hlc_enabled : bool;
  charge_mode : ChargeMode.t;
  switch_3ph1ph_delay_s : Z;
  switch_3ph1ph_cp_state_F : bool;
  soft_over_current_timeout_ms : Z;
  state_F_after_fault_ms : Z;
  fail_on_powermeter_errors : bool;
  raise_mrec9 : bool;
  sleep_before_enabling_pwm_hlc_mode_ms : Z;
  session_id_type : SessionIdType.t;
}.

Record InternalContext := mkInternal {
  hlc_bcb_sequence_started : bool;
  hlc_ev_pause_bcb_count : Z;
  hlc_ev_pause_start_of_bcb : Z;
  hlc_ev_pause_start_of_bcb_sequence : Z;
  update_pwm_last_dc : Q;
  last_pwm_update : Z;
  t_step_EF_return_state : EvseState.t;
  t_step_EF_return_pwm : Q;
  t_step_EF_return_ampere : Q;
  switching_phases_return_state : EvseState.t;
  t_step_X1_return_state : EvseState.t;
  t_step_X1_return_pwm : Q;
  last_over_current_event : Z;
  over_current : bool;
  internal_last_shutdown_type : ShutdownType.t;
  current_state_started : Z;
  last_state_detect_state_change : EvseState.t;
  last_state : EvseState.t;
  pp_warning_printed : bool;
  no_energy_warning_printed : bool;
  pwm_set_last_ampere : Q;
  t_step_ef_x1_pause : bool;
  pwm_F_active : bool;
  fatal_error_became_active : Z;
  fatal_error_timer_running : bool;
}.
#[global] Instance eta_InternalContext : Eta InternalContext := fun s =>
  mkInternal (hlc_bcb_sequence_started s) (hlc_ev_pause_bcb_count s)
    (hlc_ev_pause_start_of_bcb s) (hlc_ev_pause_start_of_bcb_sequence s) (update_pwm_last_dc s)
    (last_pwm_update s) (t_step_EF_return_state s) (t_step_EF_return_pwm s)
    (t_step_EF_return_ampere s) (switching_phases_return_state s) (t_step_X1_return_state s)
    (t_step_X1_return_pwm s) (last_over_current_event s) (over_current s)
    (internal_last_shutdown_type s) (current_state_started s)
    (last_state_detect_state_change s) (last_state s) (pp_warning_printed s)
    (no_energy_warning_printed s) (pwm_set_last_ampere s) (t_step_ef_x1_pause s)
    (pwm_F_active s) (fatal_error_became_active s) (fatal_error_timer_running s).

(** ** Outputs *)

Inductive charger_output : Type :=
| signal_simple_event (e : SessionEventEnum.t)
| signal_session_started_event (reason : StartSessionReason.t) (token : option ProvidedIdToken)
| signal_transaction_started_event (token : ProvidedIdToken)
| signal_transaction_finished_event (reason : StopTransactionReason.t)
    (token : option ProvidedIdToken)
| signal_state (s : EvseState.t)
| signal_max_current (ampere : Q)
| signal_ac_with_soc_timeout
| signal_dc_supply_off
| signal_slac_reset
| signal_slac_start
| signal_hlc_stop_charging
| signal_hlc_pause_charging
| signal_hlc_error (e : EvseError.t)
| signal_hlc_no_energy_available
| bsp_allow_power_on (value : bool) (reason : Reason.t)
| bsp_output (o : iec_output)
| call_start_transaction (meter : nat) (req : TransactionReq)
| call_stop_transaction (meter : nat) (id : string)
| call_store_session (session_uuid : string)
| error_handling_signal (e : ErrorHandlingEvents.t).

(** ** The charger *)

Section Charger.
Context {M : Type}.

Record charger := mkCharger {
  shared_context : SharedContext;
  config_context : ConfigContext;
  internal_context : InternalContext;
  soft_over_current_tolerance_percent : Q;
  soft_over_current_measurement_noise_A : Q;
  hlc_use_5percent_current_session : bool;
  ac_hlc_enabled_current_session : bool;
  connector_type : Connector_type.t;
  evse_id : string;
  store_active : bool;
  error_handling_event_queue : list ErrorHandlingEvents.t;
  active_enable_disable_source : EnableDisableSource;
  enable_disable_source_table : list EnableDisableSource;
  bsp : iec_state;
  error_handling : eh_state M;
  steady_clock : Z;
  system_clock : Z;
}.
#[global] Instance eta_charger : Eta charger := fun s =>
  mkCharger (shared_context s) (config_context s) (internal_context s)
    (soft_over_current_tolerance_percent s) (soft_over_current_measurement_noise_A s)
    (hlc_use_5percent_current_session s) (ac_hlc_enabled_current_session s) (connector_type s)
    (evse_id s) (store_active s) (error_handling_event_queue s) (active_enable_disable_source s)
    (enable_disable_source_table s) (bsp s) (error_handling s) (steady_clock s) (system_clock s).
End Charger.
Arguments charger M : clear implicits.

Coercion shared_context : charger >-> SharedContext.
Coercion config_context : charger >-> ConfigContext.
Coercion internal_context : charger >-> InternalContext.

(** What the charger asks others for during one operation: the meters, the
    proximity pilot, the key value store and the generator of session ids. *)
Record world := mkWorld {
  start_response : nat -> TransactionReq -> TransactionRequestStatus.t;
  stop_response : nat -> string -> TransactionStopResponse;
  number_of_meters : nat;
  pp_ampacity : Ampacity.t;
  call_load : option string;
  generate_session_id : SessionIdType.t -> string;
}.

(** An output with the shared context it was made in. *)
Abbreviation logged := (charger_output * SharedContext)%type.
Abbreviation CH M := (Eff (charger M) logged Empty_set).

(** The state of the charger. *)
Abbreviation this := (@eget (charger _) logged Empty_set).

Section Actions.
Context {M : Type} `{ErrorMonitor M}.

Definition put_shared (f : SharedContext -> SharedContext) : CH M unit :=
  emodify (update shared_context f).
Definition put_internal (f : InternalContext -> InternalContext) : CH M unit :=
  emodify (update internal_context f).
Definition put (f : charger M -> charger M) : CH M unit := emodify f.

Definition emit (o : charger_output) : CH M unit :=
  let* s := this in eemit (o, shared_context s).

(** A call on the IEC state machine. *)
Definition bsp_call (m : IEC unit) : CH M unit := fun s =>
  let '(_, b, os) := m (bsp s) in
  (Ok tt, assign bsp b s, map (fun o => (bsp_output o, shared_context s)) os).

Definition event_of (o : eh_output) : ErrorHandlingEvents.t :=
  match o with
  | signal_error e => e
  | signal_all_errors_cleared => ErrorHandlingEvents.AllErrorCleared
  end.

(** A call on the error handling; its signals go to the event queue, and to
    the module. *)
Definition error_call (m : Eff (eh_state M) eh_output Empty_set unit) : CH M unit := fun s =>
  let '(_, e, os) := m (error_handling s) in
  (Ok tt, update error_handling_event_queue (fun q => q ++ map event_of os)
            (assign error_handling e s),
   map (fun o => (error_handling_signal (event_of o), shared_context s)) os).

(** [std::this_thread::sleep_for]. *)
Definition sleep_for (ms : Z) : CH M unit :=
  put (fun s => update steady_clock (Z.add ms) (update system_clock (Z.add ms) s)).
End Actions.
