(* ===== verification/Charger.v ===== *)
(** * The operations of the charger

    [modules/EVSE/EvseManager/Charger.cpp] but its state machine, which is
    [ChargerStateMachine]: the PWM, sessions and transactions, authorization,
    the enable/disable table, over-current, errors and the calls from outside.
    Every call from outside holds the mutex of the state machine, so it is one
    step. *)
From S2P Require Import Prelude Effects AuthTypes IECStateMachine ErrorHandling ChargerTypes.
From stdpp Require Import base tactics list numbers strings.
From Stdlib Require Import QArith Qabs.
Open Scope Z_scope.
Open Scope everest_scope.

(** ** Constants *)

Definition CHARGER_ABSOLUTE_MAX_CURRENT : Q := 1000.
Definition LEGACY_WAKEUP_TIMEOUT : Z := 30000.
Definition PREPARING_TIMEOUT_PAUSED_BY_EV : Z := 10000.
Definition TP_EV_VALD_STATE_DURATION_MIN : Z := 200 - 50.
Definition TP_EV_VALD_STATE_DURATION_MAX : Z := 400 + 50.
Definition TT_EVSE_VALD_TOGGLE : Z := 3500 + 200.
Definition PWM_5_PERCENT : Q := 5 # 100.
Definition T_REPLUG_MS : Z := 4000.
Definition T_STEP_X1 : Z := 3000.
Definition T_STEP_EF : Z := 4000.
Definition IEC_PWM_MAX_UPDATE_INTERVAL : Z := 5000.
Definition STAY_IN_X1_AFTER_TSTEP_EF_MS : Z := 750.

(** [a < b]. *)
Definition Qltb (a b : Q) : bool := negb (Qle_bool b a).

Definition evse_state_to_string (s : EvseState.t) : string :=
  match s with
  | EvseState.Disabled => "Disabled"
  | EvseState.Idle => "Idle"
  | EvseState.WaitingForAuthentication => "Wait for Auth"
  | EvseState.Charging => "Charging"
  | EvseState.ChargingPausedEV => "Car Paused"
  | EvseState.ChargingPausedEVSE => "EVSE Paused"
  | EvseState.WaitingForEnergy => "Wait for energy"
  | EvseState.Finished => "Finished"
  | EvseState.T_step_EF => "T_step_EF"
  | EvseState.T_step_X1 => "T_step_X1"
  | EvseState.Replug => "Replug"
  | EvseState.PrepareCharging => "PrepareCharging"
  | EvseState.StoppingCharging => "StoppingCharging"
  | EvseState.SwitchPhases => "SwitchPhases"
  end.

Definition ampere_to_duty_cycle (ampere : Q) : Q :=
  (if Qltb ampere (59 # 10) then 1
   else if Qle_bool ampere (61 # 10) then 1 # 10
   else if Qltb ampere (525 # 10) then
     let ampere := if Qltb 51 ampere then 51 else ampere in
     ampere / (6 # 10) / 100
   else if Qle_bool ampere 80 then (ampere / (25 # 10) + 64) / 100
   else if Qle_bool ampere (801 # 10) then 97 # 100
   else 1)%Q.

(** Whether one of the phases is above the limit. *)
Definition draws_more_than (limit : Q) (current : Q * Q * Q) : bool :=
  let '(l1, l2, l3) := current in
  Qltb limit (Qabs l1) || Qltb limit (Qabs l2) || Qltb limit (Qabs l3).

Section Charger.
Context {M : Type} `{ErrorMonitor M}.
Context (w : world).

Definition go (st : EvseState.t) : CH M unit := put_shared (assign current_state st).

(** ** PWM *)

Definition update_pwm_now (dc : Q) : CH M unit :=
  put_internal (assign update_pwm_last_dc dc) ;;;
  put_shared (assign pwm_running true) ;;;
  let* s := this in
  put_internal (assign last_pwm_update (steady_clock s)) ;;;
  put_internal (assign pwm_F_active false) ;;;
  bsp_call (set_pwm dc).

Definition update_pwm_now_if_changed (dc : Q) : CH M unit :=
  let* s := this in
  if negb (Qeq_bool (update_pwm_last_dc s) dc) then update_pwm_now dc else eret tt.

Definition update_pwm_now_if_changed_ampere (ampere : Q) : CH M unit :=
  let dc := ampere_to_duty_cycle ampere in
  let* s := this in
  if negb (Qeq_bool (update_pwm_last_dc s) dc)
  then update_pwm_now dc ;;; put_internal (assign pwm_set_last_ampere ampere)
  else eret tt.

Definition update_pwm_max_every_5seconds_ampere (ampere : Q) : CH M unit :=
  let dc := ampere_to_duty_cycle ampere in
  let* s := this in
  if negb (Qeq_bool dc (update_pwm_last_dc s)) then
    if IEC_PWM_MAX_UPDATE_INTERVAL <=? steady_clock s - last_pwm_update s
    then update_pwm_now dc ;;; put_internal (assign pwm_set_last_ampere ampere)
    else eret tt
  else eret tt.

Definition pwm_off : CH M unit :=
  put_shared (assign pwm_running false) ;;;
  put_internal (assign update_pwm_last_dc 1%Q) ;;;
  put_internal (assign pwm_set_last_ampere 0%Q) ;;;
  put_internal (assign pwm_F_active false) ;;;
  bsp_call set_pwm_off.

Definition pwm_F : CH M unit :=
  put_shared (assign pwm_running false) ;;;
  put_internal (assign update_pwm_last_dc 0%Q) ;;;
  put_internal (assign pwm_set_last_ampere 0%Q) ;;;
  put_internal (assign pwm_F_active true) ;;;
  bsp_call set_pwm_F.

(** [bsp->allow_power_on]; the call itself is logged too. *)
Definition allow_power (value : bool) (why : Reason.t) : CH M unit :=
  emit (bsp_allow_power_on value why) ;;;
  bsp_call (allow_power_on value why).

(** ** Current limits *)

Definition get_max_current_internal (s : charger M) : Q :=
  if Connector_type.eqb (connector_type s) Connector_type.IEC62196Type2Socket
     && Qltb (max_current_cable s) (max_current s)
     && negb (EvseState.eqb (current_state s) EvseState.Idle)
  then max_current_cable s else max_current s.

Definition get_max_current_signalled_to_ev_internal (s : charger M) : Q :=
  if negb (hlc_charging_active s) then pwm_set_last_ampere s else get_max_current_internal s.

Definition set_max_current (c : Q) (valid_until : Z) : CH M bool :=
  let c_abs := Qabs c in
  let* s := this in
  if Qle_bool c_abs CHARGER_ABSOLUTE_MAX_CURRENT && (steady_clock s <? valid_until) then
    put_shared (assign max_current c_abs) ;;;
    put_shared (assign max_current_valid_until valid_until) ;;;
    let* s := this in
    let c_abs := get_max_current_internal s in
    bsp_call (set_overcurrent_limit c_abs) ;;;
    emit (signal_max_current (if Qltb c 0 then (- c_abs)%Q else c_abs)) ;;;
    eret true
  else eret false.

(** Whether the energy manager supplies power; a budget that expired more
    than a second ago is gone. *)
Definition power_available : CH M bool :=
  let* s := this in
  let overrun := Z.quot (steady_clock s - max_current_valid_until s) 1000 in
  (if (0 <? overrun) && Qltb 0 (max_current s) then
     put_shared (assign max_current 0%Q) ;;;
     emit (signal_max_current 0)
   else eret tt) ;;;
  let* s := this in
  eret (Qltb (59 # 10) (get_max_current_internal s)).

Definition set_current_drawn_by_vehicle (l1 l2 l3 : Q) : CH M unit :=
  put_shared (assign current_drawn_by_vehicle (l1, l2, l3)).

Definition soft_over_current_limit (s : charger M) : Q :=
  ((get_max_current_signalled_to_ev_internal s + soft_over_current_measurement_noise_A s)
   * (1 + soft_over_current_tolerance_percent s / 100))%Q.

Definition check_soft_over_current : CH M unit :=
  let* s := this in
  (if draws_more_than (soft_over_current_limit s) (current_drawn_by_vehicle s) then
     if negb (over_current s) then
       put_internal (assign over_current true) ;;;
       put_internal (assign last_over_current_event (steady_clock s))
     else eret tt
   else put_internal (assign over_current false)) ;;;
  let* s := this in
  if over_current s
     && (soft_over_current_timeout_ms s <=? steady_clock s - last_over_current_event s)
  then error_call (raise_overcurrent_error "Soft overcurrent event triggered")
  else eret tt.

(** ** Persistent store ([PersistentStore.cpp]) *)

Definition store_session (uuid : string) : CH M unit :=
  let* s := this in
  if store_active s then emit (call_store_session uuid) else eret tt.
Definition clear_session : CH M unit := store_session "".
Definition get_session (s : charger M) : string :=
  if store_active s then default ""%string (call_load w) else ""%string.

(** ** Sessions and transactions *)

Definition start_session (authfirst : bool) : CH M unit :=
  put_shared (assign session_active true) ;;;
  put_shared (assign authorized false) ;;;
  let* s := this in
  put_shared (assign session_uuid (generate_session_id w (session_id_type s))) ;;;
  put_shared (assign last_start_session_reason
    (if authfirst then StartSessionReason.Authorized else StartSessionReason.EVConnected)) ;;;
  let* s := this in
  emit (signal_session_started_event (last_start_session_reason s)
          (if authfirst then Some (id_token s) else None)).

Definition stop_session : CH M unit :=
  put_shared (assign session_active false) ;;;
  put_shared (assign authorized false) ;;;
  emit (signal_simple_event SessionEventEnum.SessionFinished) ;;;
  put_shared (assign session_uuid ""%string).

(** The request for the meters. *)
Definition transaction_request (s : charger M) : TransactionReq :=
  mkTransactionReq (evse_id s) (session_uuid s) OCMFUserIdentificationStatus.ASSIGNED []
    (convert_to_ocmf_identification_type (type (AuthTypes.id_token (id_token s)))) None
    (Some (value (AuthTypes.id_token (id_token s)))) (head (tariff_messages s)).

(** The loop over the meters: whether none of them failed so that charging
    has to stop. *)
Fixpoint start_meters (meters : list nat) : CH M bool :=
  match meters with
  | [] => eret true
  | i :: rest =>
      let* s := this in
      let req := transaction_request s in
      emit (call_start_transaction i req) ;;;
      match start_response w i req with
      | TransactionRequestStatus.UNEXPECTED_ERROR =>
          if fail_on_powermeter_errors s then
            error_call (raise_powermeter_transaction_start_failed_error
                          "Failed to start transaction on the power meter") ;;;
            eret false
          else start_meters rest
      | _ => start_meters rest
      end
  end.

Definition start_transaction : CH M bool :=
  put_shared (assign stop_transaction_id_token None) ;;;
  put_shared (assign last_stop_transaction_reason None) ;;;
  put_shared (assign transaction_active true) ;;;
  let* started := start_meters (seq 0 (number_of_meters w)) in
  if started then
    let* s := this in
    store_session (session_uuid s) ;;;
    emit (signal_transaction_started_event (id_token s)) ;;;
    eret true
  else eret false.

(** The loop over the meters when a transaction is stopped. *)
Fixpoint stop_meters (id : string) (meters : list nat) : CH M unit :=
  match meters with
  | [] => eret tt
  | i :: rest =>
      emit (call_stop_transaction i id) ;;;
      let response := stop_response w i id in
      match stop_status response with
      | TransactionRequestStatus.UNEXPECTED_ERROR => eret tt
      | TransactionRequestStatus.OK =>
          put_shared (assign start_signed_meter_value (start_signed_meter_value_of response)) ;;;
          put_shared (assign stop_signed_meter_value (signed_meter_value_of response))
      | TransactionRequestStatus.NOT_SUPPORTED => stop_meters id rest
      end
  end.

Definition stop_transaction : CH M unit :=
  put_shared (assign transaction_active false) ;;;
  let* s := this in
  let why := default StopTransactionReason.EVDisconnected (last_stop_transaction_reason s) in
  put_shared (assign last_stop_transaction_reason (Some why)) ;;;
  stop_meters (session_uuid s) (seq 0 (number_of_meters w)) ;;;
  clear_session ;;;
  emit (signal_simple_event SessionEventEnum.ChargingFinished) ;;;
  let* s := this in
  emit (signal_transaction_finished_event why (stop_transaction_id_token s)).

Definition cleanup_transactions_on_startup : CH M unit :=
  let* s := this in
  let uuid := get_session s in
  (if negb (String.eqb uuid "") then
     clear_session ;;;
     stop_meters uuid (seq 0 (number_of_meters w)) ;;;
     emit (signal_transaction_finished_event StopTransactionReason.PowerLoss None)
   else eret tt) ;;;
  efor (seq 0 (number_of_meters w)) (fun i => emit (call_stop_transaction i "")).

(** [take_signed_meter_data]: the value, once. *)
Definition get_stop_signed_meter_value : CH M (option string) :=
  let* s := this in
  put_shared (assign stop_signed_meter_value None) ;;; eret (stop_signed_meter_value s).
Definition get_start_signed_meter_value : CH M (option string) :=
  let* s := this in
  put_shared (assign start_signed_meter_value None) ;;; eret (start_signed_meter_value s).

(** ** Calls that change the state *)

Definition pause_charging : CH M bool :=
  let* s := this in
  if EvseState.eqb (current_state s) EvseState.Charging then
    (if hlc_charging_active s && transaction_active s
     then emit signal_hlc_pause_charging else eret tt) ;;;
    put_shared (assign legacy_wakeup_done false) ;;;
    go EvseState.ChargingPausedEVSE ;;;
    eret true
  else eret false.

Definition resume_charging : CH M bool :=
  let* s := this in
  let paused := EvseState.eqb (current_state s) EvseState.ChargingPausedEVSE in
  if hlc_charging_active s && transaction_active s && paused then
    go EvseState.PrepareCharging ;;;
    (if HlcTerminatePause.eqb (hlc_charging_terminate_pause s) HlcTerminatePause.Terminate
     then emit signal_slac_start else eret tt) ;;;
    eret true
  else if transaction_active s && paused then go EvseState.WaitingForEnergy ;;; eret true
  else eret false.

Definition pause_charging_wait_for_power_internal : CH M bool :=
  let* s := this in
  if EvseState.eqb (current_state s) EvseState.Charging
     || EvseState.eqb (current_state s) EvseState.ChargingPausedEV
  then go EvseState.WaitingForEnergy ;;; eret true
  else eret false.

Definition pause_charging_wait_for_power : CH M bool := pause_charging_wait_for_power_internal.

Definition resume_charging_power_available : CH M bool :=
  let* s := this in
  if transaction_active s && EvseState.eqb (current_state s) EvseState.WaitingForEnergy then
    let* available := power_available in
    if available then go EvseState.PrepareCharging ;;; eret true else eret false
  else eret false.

Definition evse_replug_request : CH M bool := bsp_call (evse_replug T_REPLUG_MS) ;;; eret true.

Definition cancel_transaction (request : StopTransactionRequest) : CH M bool :=
  let* s := this in
  if transaction_active s then
    (if hlc_charging_active s then
       match reason request with
       | StopTransactionReason.EmergencyStop =>
           emit (signal_hlc_error EvseError.Error_EmergencyShutdown)
       | StopTransactionReason.PowerLoss =>
           emit (signal_hlc_error EvseError.Error_UtilityInterruptEvent)
       | _ => eret tt
       end ;;;
       go EvseState.StoppingCharging ;;;
       emit signal_hlc_stop_charging
     else
       go EvseState.ChargingPausedEVSE ;;;
       pwm_off) ;;;
    put_shared (assign authorized false) ;;;
    put_shared (assign authorized_pnc false) ;;;
    put_shared (assign last_stop_transaction_reason (Some (reason request))) ;;;
    put_shared (assign stop_transaction_id_token (id_tag request)) ;;;
    (if contactor_open s then stop_transaction else eret tt) ;;;
    eret true
  else eret false.

Definition switch_three_phases (n : bool) : CH M bool :=
  let* s := this in
  if hlc_charging_active s then eret false
  else
    match current_state s with
    | EvseState.Charging =>
        put_shared (assign switch_3ph1ph_threephase n) ;;;
        put_shared (assign switch_3ph1ph_threephase_ongoing true) ;;;
        put_internal (assign switching_phases_return_state EvseState.PrepareCharging) ;;;
        go EvseState.SwitchPhases
    | EvseState.SwitchPhases => put_shared (assign switch_3ph1ph_threephase n)
    | EvseState.WaitingForEnergy =>
        put_shared (assign switch_3ph1ph_threephase n) ;;;
        put_shared (assign switch_3ph1ph_threephase_ongoing true) ;;;
        put_internal (assign switching_phases_return_state EvseState.WaitingForEnergy) ;;;
        go EvseState.SwitchPhases
    | _ => bsp_call (switch_three_phases_while_charging n)
    end ;;;
    eret true.

(** ** Authorization *)

Definition authorize (a : bool) (token : ProvidedIdToken) (tariff : list string) : CH M unit :=
  let* s := this in
  if a then
    put_shared (assign id_token token) ;;;
    put_shared (assign tariff_messages tariff) ;;;
    (if negb (session_active s) then start_session true else eret tt) ;;;
    emit (signal_simple_event SessionEventEnum.Authorized) ;;;
    put_shared (assign authorized true) ;;;
    put_shared (assign authorized_pnc
      (bool_decide (authorization_type token = AuthorizationType.PlugAndCharge)))
  else
    (if session_active s then stop_session else eret tt) ;;;
    put_shared (assign authorized false).

Definition deauthorize_internal : CH M bool :=
  let* s := this in
  if session_active s then
    emit (signal_simple_event SessionEventEnum.Deauthorized) ;;;
    match current_state s with
    | EvseState.Disabled | EvseState.Idle | EvseState.WaitingForAuthentication =>
        if negb (authorized s) then
          emit (signal_simple_event SessionEventEnum.PluginTimeout) ;;;
          (if raise_mrec9 s
           then error_call (raise_authorization_timeout_error
                              "No authorization was provided within timeout.")
           else eret tt) ;;;
          eret false
        else
          put_shared (assign authorized false) ;;;
          stop_session ;;;
          eret true
    | _ => eret false
    end
  else eret false.

Definition deauthorize : CH M bool := deauthorize_internal.

Definition get_authorized_pnc (s : charger M) : bool := authorized s && authorized_pnc s.
Definition get_authorized_eim (s : charger M) : bool := authorized s && negb (authorized_pnc s).

Definition ready_for_hlc (s : charger M) : bool :=
  match current_state s with
  | EvseState.ChargingPausedEV | EvseState.ChargingPausedEVSE | EvseState.Charging
  | EvseState.WaitingForEnergy => true
  | _ => false
  end.
Definition get_authorized_pnc_ready_for_hlc (s : charger M) : bool :=
  get_authorized_pnc s && ready_for_hlc s.
Definition get_authorized_eim_ready_for_hlc (s : charger M) : bool :=
  get_authorized_eim s && ready_for_hlc s.

(** ** Enabling and disabling *)

Fixpoint table_update (source : EnableDisableSource) (table : list EnableDisableSource)
  : list EnableDisableSource :=
  match table with
  | [] => [source]
  | e :: rest =>
      if Enable_source.eqb (enable_source e) (enable_source source) then source :: rest
      else e :: table_update source rest
  end.

Definition enable_disable_source_table_update (source : EnableDisableSource) : CH M unit :=
  put (update enable_disable_source_table (table_update source)).

(** One entry of the walk through the table. *)
Definition consider (entry : EnableDisableSource) (acc : bool * EnableDisableSource)
  : bool * EnableDisableSource :=
  let '(is_enabled, winning_source) := acc in
  let entry_enables := negb (Enable_state.eqb (enable_state entry) Enable_state.Disable) in
  if Enable_state.eqb (enable_state entry) Enable_state.Unassigned then acc
  else if Enable_state.eqb (enable_state winning_source) Enable_state.Unassigned
  then (entry_enables, entry)
  else if enable_priority entry =? enable_priority winning_source
  then if entry_enables then acc else (false, entry)
  else if enable_priority entry <? enable_priority winning_source
  then (entry_enables, entry)
  else acc.

Definition unassigned_source : EnableDisableSource :=
  mkSource Enable_source.Unspecified Enable_state.Unassigned 10000.

Definition winner (table : list EnableDisableSource) : bool * EnableDisableSource :=
  foldl (fun acc entry => consider entry acc) (true, unassigned_source) table.

Definition parse_enable_disable_source_table : CH M bool :=
  let* s := this in
  let '(is_enabled, winning_source) := winner (enable_disable_source_table s) in
  put (assign active_enable_disable_source winning_source) ;;;
  eret is_enabled.

Definition enable_disable_initial_state_publish : CH M unit :=
  let* s := this in
  let disabled := EvseState.eqb (current_state s) EvseState.Disabled in
  emit (signal_simple_event
          (if disabled then SessionEventEnum.Disabled else SessionEventEnum.Enabled)) ;;;
  let source := assign enable_state
    (if disabled then Enable_state.Disable else Enable_state.Enable) unassigned_source in
  enable_disable_source_table_update source ;;;
  put (assign active_enable_disable_source source).

Definition enable_disable (connector_id : Z) (source : EnableDisableSource) : CH M bool :=
  let* s := this in
  let last := active_enable_disable_source s in
  enable_disable_source_table_update source ;;;
  let* is_enabled := parse_enable_disable_source_table in
  (if negb (connector_id =? 0) then put_shared (assign connector_enabled is_enabled)
   else eret tt) ;;;
  let* s := this in
  (if EvseState.eqb (current_state s) EvseState.Disabled && connector_enabled s
   then go EvseState.Idle else eret tt) ;;;
  let active := enable_state (active_enable_disable_source s) in
  (if (Enable_state.eqb active Enable_state.Disable
       || Enable_state.eqb (enable_state last) Enable_state.Disable)
      && negb (Enable_state.eqb active (enable_state last)) then
     if is_enabled then emit (signal_simple_event SessionEventEnum.Enabled)
     else go EvseState.Disabled ;;; emit (signal_simple_event SessionEventEnum.Disabled)
   else eret tt) ;;;
  bsp_call (enable is_enabled) ;;;
  eret is_enabled.

(** ** HLC and data link *)

Definition request_error_sequence : CH M unit :=
  let* s := this in
  match current_state s with
  | EvseState.WaitingForAuthentication | EvseState.PrepareCharging =>
      put_internal (assign t_step_EF_return_state (current_state s)) ;;;
      put_internal (assign t_step_EF_return_ampere 0%Q) ;;;
      go EvseState.T_step_EF ;;;
      emit signal_slac_reset ;;;
      put_internal (assign t_step_EF_return_pwm
        (if hlc_use_5percent_current_session s then PWM_5_PERCENT else 0%Q))
  | _ => eret tt
  end.

Definition set_matching_started (m : bool) : CH M unit := put_shared (assign matching_started m).

Definition notify_currentdemand_started : CH M unit :=
  let* s := this in
  if EvseState.eqb (current_state s) EvseState.PrepareCharging
  then emit (signal_simple_event SessionEventEnum.ChargingStarted) ;;; go EvseState.Charging
  else eret tt.

Definition inform_new_evse_max_hlc_limits (l : DcEvseMaximumLimits) : CH M unit :=
  put_shared (assign current_evse_max_limits l).
Definition inform_new_evse_min_hlc_limits (l : DcEvseMinimumLimits) : CH M unit :=
  put_shared (assign current_evse_min_limits l).

Definition dlink_pause : CH M unit :=
  put_shared (assign hlc_allow_close_contactor false) ;;;
  pwm_off ;;;
  put_shared (assign hlc_charging_terminate_pause HlcTerminatePause.Pause).

Definition dlink_terminate : CH M unit :=
  put_shared (assign hlc_allow_close_contactor false) ;;;
  pwm_off ;;;
  put_shared (assign hlc_charging_terminate_pause HlcTerminatePause.Terminate).

Definition dlink_error : CH M unit :=
  put_shared (assign hlc_allow_close_contactor false) ;;;
  let* s := this in
  if pwm_running s && hlc_use_5percent_current_session s then
    put_internal (assign t_step_X1_return_state EvseState.T_step_EF) ;;;
    put_internal (assign t_step_X1_return_pwm 0%Q) ;;;
    put_internal (assign t_step_EF_return_ampere 0%Q) ;;;
    go EvseState.T_step_X1 ;;;
    put_internal (assign t_step_EF_return_state EvseState.WaitingForAuthentication) ;;;
    put_internal (assign t_step_EF_return_pwm 0%Q) ;;;
    put_internal (assign t_step_EF_return_ampere 0%Q)
  else eret tt.

Definition set_hlc_charging_active : CH M unit := put_shared (assign hlc_charging_active true).
Definition set_hlc_allow_close_contactor (on : bool) : CH M unit :=
  put_shared (assign hlc_allow_close_contactor on).

(** ** BCB toggles *)

Definition bcb_toggle_reset : CH M unit :=
  put_internal (assign hlc_ev_pause_bcb_count 0) ;;;
  put_internal (assign hlc_bcb_sequence_started false).

Definition bcb_toggle_detect_start_pulse : CH M unit :=
  let* s := this in
  put_internal (assign hlc_ev_pause_start_of_bcb (steady_clock s)) ;;;
  if hlc_ev_pause_bcb_count s =? 0 then
    put_internal (assign hlc_ev_pause_start_of_bcb_sequence (steady_clock s)) ;;;
    put_internal (assign hlc_bcb_sequence_started true)
  else eret tt.

Definition bcb_toggle_detect_stop_pulse : CH M unit :=
  let* s := this in
  if negb (hlc_bcb_sequence_started s) then eret tt
  else
    let pulse_length := steady_clock s - hlc_ev_pause_start_of_bcb s in
    if (TP_EV_VALD_STATE_DURATION_MIN <? pulse_length)
       && (pulse_length <? TP_EV_VALD_STATE_DURATION_MAX)
    then put_internal (assign hlc_ev_pause_bcb_count (hlc_ev_pause_bcb_count s + 1))
    else put_internal (assign hlc_ev_pause_bcb_count 0).

Definition bcb_toggle_detected : CH M bool :=
  let* s := this in
  let sequence_length := steady_clock s - hlc_ev_pause_start_of_bcb_sequence s in
  if hlc_bcb_sequence_started s
     && ((TT_EVSE_VALD_TOGGLE <? sequence_length) || (3 <=? hlc_ev_pause_bcb_count s))
  then put_internal (assign hlc_ev_pause_bcb_count 0) ;;; eret true
  else eret false.

(** ** Fatal errors *)

Definition entered_fatal_error_state (s : charger M) : bool :=
  negb (ShutdownType.eqb (shutdown_type s) ShutdownType.None)
  && ShutdownType.eqb (last_shutdown_type s) ShutdownType.None.

Definition time_in_fatal_error_state_ms (s : charger M) : Z :=
  if negb (fatal_error_timer_running s) then 0
  else steady_clock s - fatal_error_became_active s.

Definition emergency_shutdown : CH M unit :=
  let* s := this in
  (if pwm_running s then pwm_off else eret tt) ;;;
  (if ChargeMode.eqb (charge_mode s) ChargeMode.DC then emit signal_dc_supply_off
   else eret tt) ;;;
  allow_power false Reason.PowerOff.

Definition error_shutdown : CH M unit :=
  let* s := this in
  (if ChargeMode.eqb (charge_mode s) ChargeMode.DC then emit signal_dc_supply_off
   else eret tt) ;;;
  allow_power false Reason.PowerOff ;;;
  emit (signal_hlc_error EvseError.Error_EmergencyShutdown).

Definition stop_charging_on_fatal_error_internal : CH M bool :=
  let* s := this in
  let* err :=
    match shutdown_type s with
    | ShutdownType.EmergencyShutdown =>
        (if negb (ShutdownType.eqb (last_shutdown_type s) ShutdownType.EmergencyShutdown) then
           put_internal (assign fatal_error_became_active (steady_clock s)) ;;;
           emergency_shutdown
         else eret tt) ;;;
        eret true
    | ShutdownType.ErrorShutdown =>
        (if negb (ShutdownType.eqb (last_shutdown_type s) ShutdownType.ErrorShutdown) then
           put_internal (assign fatal_error_became_active (steady_clock s)) ;;;
           error_shutdown
         else eret tt) ;;;
        eret true
    | ShutdownType.None => eret false
    end in
  put_internal (assign fatal_error_timer_running err) ;;;
  put_shared (assign last_shutdown_type (shutdown_type s)) ;;;
  eret err.

Definition stop_charging_on_fatal_error : CH M bool := stop_charging_on_fatal_error_internal.

Definition clear_errors_on_unplug : CH M unit :=
  error_call clear_overcurrent_error ;;;
  error_call clear_internal_error ;;;
  error_call clear_powermeter_transaction_start_failed_error ;;;
  error_call clear_authorization_timeout_error ;;;
  error_call clear_isolation_resistance_fault ;;;
  error_call clear_cable_check_fault.

(** The error thread: all pending events, in order. *)
Definition shutdown_of (e : ErrorHandlingEvents.t) : ShutdownType.t :=
  match e with
  | ErrorHandlingEvents.ForceErrorShutdown => ShutdownType.ErrorShutdown
  | ErrorHandlingEvents.ForceEmergencyShutdown => ShutdownType.EmergencyShutdown
  | ErrorHandlingEvents.AllErrorsPreventingChargingCleared => ShutdownType.None
  | ErrorHandlingEvents.AllErrorCleared => ShutdownType.None
  end.

Definition process_error_event (e : ErrorHandlingEvents.t) : CH M unit :=
  put_shared (assign shutdown_type (shutdown_of e)).

Definition error_thread_round : CH M unit :=
  let* s := this in
  put (assign error_handling_event_queue []) ;;;
  efor (error_handling_event_queue s) process_error_event.

(** ** Configuration *)

Definition setup (has_ventilation : bool) (config : ConfigContext) (with_soc_timeout : bool)
    (tolerance_percent measurement_noise_A : Q) : CH M unit :=
  bsp_call (IECStateMachine.setup has_ventilation) ;;;
  put (assign config_context config) ;;;
  put (assign ac_hlc_enabled_current_session (ac_hlc_enabled config)) ;;;
  put_shared (assign ac_with_soc_timeout with_soc_timeout) ;;;
  put_shared (assign ac_with_soc_timer 3600000) ;;;
  put (assign soft_over_current_tolerance_percent tolerance_percent) ;;;
  put (assign soft_over_current_measurement_noise_A measurement_noise_A).

Definition set_connector_type (t : Connector_type.t) : CH M unit :=
  put (assign connector_type t).

(** The constructor: the members it sets, in memory that holds anything. *)
Definition new_Charger (mem : charger M) (b : iec_state) (errors : eh_state M)
    (type : Connector_type.t) (id : string) : charger M :=
  let shared :=
    assign connector_enabled true (assign max_current 6%Q
    (assign max_current_cable
       (if Connector_type.eqb type Connector_type.IEC62196Type2Socket
        then read_pp_ampacity (pp_ampacity w) b else 0%Q)
    (assign authorized false (assign current_state EvseState.Idle
    (assign current_drawn_by_vehicle (0%Q, 0%Q, 0%Q)
    (assign matching_started false (assign transaction_active false
    (assign session_active false (assign session_uuid ""%string
    (assign legacy_wakeup_done false (assign hlc_allow_close_contactor false
    (assign iec_allow_close_contactor false (assign contactor_open true
    (assign hlc_charging_active false (assign pwm_running false
    (assign shutdown_type ShutdownType.None (assign last_shutdown_type ShutdownType.None
    (assign switch_3ph1ph_threephase false (assign switch_3ph1ph_threephase_ongoing false
    (assign stop_transaction_id_token None (assign last_stop_transaction_reason None
    (assign stop_signed_meter_value None (assign start_signed_meter_value None
      (shared_context mem)))))))))))))))))))))))) in
  let internal :=
    assign update_pwm_last_dc 0%Q (assign last_state EvseState.Disabled
    (assign t_step_EF_return_state EvseState.Idle (assign t_step_X1_return_state EvseState.Idle
    (assign hlc_bcb_sequence_started false (assign hlc_ev_pause_bcb_count 0
    (assign over_current false (assign internal_last_shutdown_type ShutdownType.None
    (assign pp_warning_printed false (assign no_energy_warning_printed false
    (assign pwm_set_last_ampere 0%Q (assign t_step_ef_x1_pause false
    (assign pwm_F_active false (assign fatal_error_timer_running false
      (internal_context mem)))))))))))))) in
  assign shared_context shared (assign internal_context internal
  (assign hlc_use_5percent_current_session false (assign connector_type type
  (assign evse_id id (assign error_handling_event_queue []
  (assign active_enable_disable_source unassigned_source
  (assign enable_disable_source_table [] (assign bsp b
  (assign error_handling errors mem))))))))).
End Charger.
