(* ===== verification/ChargerStateMachine.v ===== *)
(** * The state machine of the charger

    [run_state_machine] of [Charger.cpp], one definition per case of its
    switch, the reaction to events of the control pilot ([process_event]), and
    the main loop.  The source loops until the state does not change any more;
    [run_loop] takes the number of rounds the source warns about as its bound
    and says whether it ended by itself. *)
From S2P Require Import Prelude Effects AuthTypes IECStateMachine ErrorHandling ChargerTypes.
From S2P Require Import Charger.
From stdpp Require Import base tactics list numbers strings.
From Stdlib Require Import QArith Qabs.
Open Scope Z_scope.
Open Scope everest_scope.

Section StateMachine.
Context {M : Type} `{ErrorMonitor M}.
Context (w : world).

(** [if (b) m;] *)
Definition when (b : bool) (m : CH M unit) : CH M unit := if b then m else eret tt.

(** No energy in the limits for HLC. *)
Definition no_energy (s : charger M) : bool :=
  negb (Qltb 0 (evse_maximum_current_limit (current_evse_max_limits s))
        && Qltb 0 (evse_maximum_power_limit (current_evse_max_limits s))).

Definition is_DC (s : charger M) : bool := ChargeMode.eqb (charge_mode s) ChargeMode.DC.
Definition is_AC (s : charger M) : bool := ChargeMode.eqb (charge_mode s) ChargeMode.AC.

Definition case_Disabled (initialize_state : bool) : CH M unit :=
  when initialize_state
    (emit (signal_simple_event SessionEventEnum.Disabled) ;;; pwm_F).

Definition case_Replug (initialize_state : bool) : CH M unit :=
  when initialize_state
    (emit (signal_simple_event SessionEventEnum.ReplugStarted) ;;;
     let* s := this in
     when (ac_with_soc_timeout s) (put_shared (assign ac_with_soc_timer 120000))).

Definition case_Idle (initialize_state : bool) : CH M unit :=
  when initialize_state
    (bcb_toggle_reset ;;;
     put_shared (assign iec_allow_close_contactor false) ;;;
     let* s := this in
     put_shared (assign hlc_charging_active (negb (is_AC s))) ;;;
     put_shared (assign hlc_allow_close_contactor false) ;;;
     put_shared (assign max_current_cable 0%Q) ;;;
     put_shared (assign hlc_charging_terminate_pause HlcTerminatePause.Unknown) ;;;
     put_shared (assign legacy_wakeup_done false) ;;;
     pwm_off ;;;
     deauthorize_internal ;;;
     put_shared (assign transaction_active false) ;;;
     clear_errors_on_unplug).

(** *** Waiting for authentication *)

Definition init_WaitingForAuthentication : CH M unit :=
  put_internal (assign pp_warning_printed false) ;;;
  put_internal (assign no_energy_warning_printed false) ;;;
  allow_power false Reason.PowerOff ;;;
  let* s := this in
  (if EvseState.eqb (last_state s) EvseState.Replug
   then emit (signal_simple_event SessionEventEnum.ReplugFinished)
   else
     when (negb (session_active s)) (start_session w false) ;;;
     emit (signal_simple_event SessionEventEnum.AuthRequired)) ;;;
  put (assign hlc_use_5percent_current_session false) ;;;
  (if is_AC s then
     put (assign ac_hlc_enabled_current_session (ac_hlc_enabled s)) ;;;
     when (ac_hlc_enabled s)
       (put (assign hlc_use_5percent_current_session (ac_hlc_use_5percent s)))
   else put (assign hlc_use_5percent_current_session true)) ;;;
  let* s := this in
  when (hlc_use_5percent_current_session s)
    (sleep_for (sleep_before_enabling_pwm_hlc_mode_ms s) ;;;
     update_pwm_now PWM_5_PERCENT).

(** The proximity pilot of an AC socket: whether its value is still missing. *)
Definition read_pp : CH M bool :=
  let* s := this in
  if Connector_type.eqb (connector_type s) Connector_type.IEC62196Type2Socket
     && Qeq_bool (max_current_cable s) 0 then
    put_shared (assign max_current_cable (read_pp_ampacity (pp_ampacity w) (bsp s))) ;;;
    let* s := this in
    if Qeq_bool (max_current_cable s) 0
    then put_internal (assign pp_warning_printed true) ;;; eret true
    else eret false
  else eret false.

Definition warn_no_energy : CH M unit :=
  let* s := this in
  when (is_DC s && no_energy s && negb (no_energy_warning_printed s))
    (put_internal (assign no_energy_warning_printed true) ;;;
     emit signal_hlc_no_energy_available).

(** After an EIM authorization: the ways of ISO 15118-3 to nominal PWM. *)
Definition proceed_EIM : CH M unit :=
  let* s := this in
  if is_AC s && ac_hlc_enabled_current_session s then
    if ac_enforce_hlc s then
      put (assign hlc_use_5percent_current_session true) ;;;
      go EvseState.PrepareCharging
    else if negb (matching_started s) then
      put_internal (assign t_step_EF_return_state EvseState.PrepareCharging) ;;;
      put_internal (assign t_step_EF_return_pwm 0%Q) ;;;
      put_internal (assign t_step_EF_return_ampere 0%Q) ;;;
      put (assign hlc_use_5percent_current_session false) ;;;
      go EvseState.T_step_EF
    else if hlc_use_5percent_current_session s then
      put_internal (assign t_step_X1_return_state EvseState.PrepareCharging) ;;;
      put_internal (assign t_step_X1_return_pwm 0%Q) ;;;
      put_internal (assign t_step_EF_return_ampere 0%Q) ;;;
      put (assign hlc_use_5percent_current_session false) ;;;
      go EvseState.T_step_X1
    else go EvseState.PrepareCharging
  else go EvseState.PrepareCharging.

Definition proceed_PnC : CH M unit :=
  let* s := this in
  when (is_AC s) (put (assign hlc_use_5percent_current_session true)) ;;;
  go EvseState.PrepareCharging.

Definition check_authorization : CH M unit :=
  let* s := this in
  if authorized s && negb (authorized_pnc s) then
    let* started := if negb (transaction_active s) then start_transaction w else eret true in
    when started proceed_EIM
  else if authorized s && authorized_pnc s then
    let* started := start_transaction w in
    when started proceed_PnC
  else eret tt.

Definition case_WaitingForAuthentication (initialize_state : bool) : CH M unit :=
  when initialize_state init_WaitingForAuthentication ;;;
  let* pp_missing := read_pp in
  if pp_missing then eret tt
  else warn_no_energy ;;; check_authorization.

(** *** The steps between PWM modes *)

Definition case_SwitchPhases (initialize_state : bool) (time_in_current_state : Z) : CH M unit :=
  let* s := this in
  when initialize_state
    (emit (signal_simple_event SessionEventEnum.SwitchingPhases) ;;;
     if switch_3ph1ph_cp_state_F s then pwm_F else pwm_off) ;;;
  when (switch_3ph1ph_delay_s s * 1000 <=? time_in_current_state)
    (bsp_call (switch_three_phases_while_charging (switch_3ph1ph_threephase s)) ;;;
     put_shared (assign switch_3ph1ph_threephase_ongoing false) ;;;
     go (switching_phases_return_state s)).

(** Leave a step with its PWM, or with none. *)
Definition return_pwm (dc : Q) : CH M unit :=
  if Qeq_bool dc 0 then pwm_off
  else
    update_pwm_now dc ;;;
    let* s := this in
    put_internal (assign pwm_set_last_ampere (t_step_EF_return_ampere s)).

Definition case_T_step_EF (initialize_state : bool) (time_in_current_state : Z) : CH M unit :=
  when initialize_state (put_internal (assign t_step_ef_x1_pause false) ;;; pwm_F) ;;;
  let* s := this in
  if T_STEP_EF + STAY_IN_X1_AFTER_TSTEP_EF_MS <=? time_in_current_state then
    return_pwm (t_step_EF_return_pwm s) ;;;
    go (t_step_EF_return_state s)
  else when ((T_STEP_EF <=? time_in_current_state) && negb (t_step_ef_x1_pause s))
    (put_internal (assign t_step_ef_x1_pause true) ;;; pwm_off).

Definition case_T_step_X1 (initialize_state : bool) (time_in_current_state : Z) : CH M unit :=
  when initialize_state pwm_off ;;;
  let* s := this in
  when (T_STEP_X1 <=? time_in_current_state)
    (return_pwm (t_step_X1_return_pwm s) ;;;
     go (t_step_X1_return_state s)).

(** *** Prepare charging *)

(** Whether the permissions to close the contactor are there. *)
Definition may_close (s : charger M) : bool :=
  iec_allow_close_contactor s
  && (negb (hlc_use_5percent_current_session s) || hlc_allow_close_contactor s).

Definition prepare_AC (time_in_current_state : Z) : CH M unit :=
  let* available := power_available in
  if negb available then go EvseState.WaitingForEnergy
  else
    let* s := this in
    if may_close s then
      emit (signal_simple_event SessionEventEnum.ChargingStarted) ;;;
      go EvseState.Charging
    else if negb (hlc_charging_active s) && negb (legacy_wakeup_done s)
            && (LEGACY_WAKEUP_TIMEOUT <? time_in_current_state) then
      put_shared (assign legacy_wakeup_done true) ;;;
      put_internal (assign t_step_EF_return_state EvseState.PrepareCharging) ;;;
      put_internal (assign t_step_EF_return_pwm
                      (ampere_to_duty_cycle (get_max_current_internal s))) ;;;
      put_internal (assign t_step_EF_return_ampere (get_max_current_internal s)) ;;;
      go EvseState.T_step_EF
    else when (negb (hlc_charging_active s) && legacy_wakeup_done s
               && (PREPARING_TIMEOUT_PAUSED_BY_EV <? time_in_current_state))
      (go EvseState.ChargingPausedEV).

Definition case_PrepareCharging (initialize_state : bool) (time_in_current_state now : Z)
  : CH M unit :=
  let* s := this in
  when initialize_state
    (emit (signal_simple_event SessionEventEnum.PrepareCharging) ;;;
     bcb_toggle_reset ;;;
     when (is_DC s && no_energy s) (emit signal_hlc_no_energy_available)) ;;;
  when (is_DC s && (hlc_allow_close_contactor s && iec_allow_close_contactor s))
    (allow_power true Reason.DCCableCheck) ;;;
  let* fatal := stop_charging_on_fatal_error_internal in
  if fatal then put_internal (assign current_state_started now)
  else
    let* s := this in
    (if negb (hlc_use_5percent_current_session s)
     then update_pwm_now_if_changed_ampere (get_max_current_internal s)
     else update_pwm_now_if_changed PWM_5_PERCENT) ;;;
    when (is_AC s) (prepare_AC time_in_current_state).

(** *** Charging and pauses *)

(** The state F that is signalled for a short time after a fault. *)
Definition signal_F_after_fault : CH M unit :=
  let* s := this in
  when ((0 <? state_F_after_fault_ms s) && negb (hlc_charging_active s))
    (when (entered_fatal_error_state s) pwm_F ;;;
     let* s := this in
     when (pwm_F_active s && (state_F_after_fault_ms s <? time_in_fatal_error_state_ms s)
           && ShutdownType.eqb (shutdown_type s) ShutdownType.EmergencyShutdown)
       pwm_off).

Definition charge_AC (initialize_state : bool) : CH M unit :=
  check_soft_over_current ;;;
  let* available := power_available in
  if negb available then pause_charging_wait_for_power_internal ;;; eret tt
  else
    let* s := this in
    if initialize_state then
      when (negb (EvseState.eqb (last_state s) EvseState.PrepareCharging))
        (emit (signal_simple_event SessionEventEnum.ChargingResumed)) ;;;
      put_shared (assign legacy_wakeup_done false) ;;;
      allow_power true Reason.FullPowerCharging ;;;
      if hlc_use_5percent_current_session s then update_pwm_now_if_changed PWM_5_PERCENT
      else update_pwm_now_if_changed_ampere (get_max_current_internal s)
    else when (negb (hlc_use_5percent_current_session s))
      (update_pwm_max_every_5seconds_ampere (get_max_current_internal s)).

Definition case_Charging (initialize_state : bool) : CH M unit :=
  when initialize_state
    (put_shared (assign hlc_charging_terminate_pause HlcTerminatePause.Unknown)) ;;;
  signal_F_after_fault ;;;
  let* fatal := stop_charging_on_fatal_error_internal in
  if fatal then eret tt
  else
    let* s := this in
    if is_DC s then when initialize_state (allow_power true Reason.FullPowerCharging)
    else charge_AC initialize_state.

(** What the EV wanted with the end of an HLC session. *)
Definition terminate_or_pause : CH M unit :=
  let* s := this in
  match hlc_charging_terminate_pause s with
  | HlcTerminatePause.Terminate =>
      go EvseState.StoppingCharging ;;; when (pwm_running s) pwm_off
  | HlcTerminatePause.Pause => when (pwm_running s) pwm_off
  | HlcTerminatePause.Unknown => eret tt
  end.

Definition case_ChargingPausedEV (initialize_state : bool) : CH M unit :=
  let* s := this in
  when (is_AC s) check_soft_over_current ;;;
  if hlc_charging_active s then
    when initialize_state
      (bcb_toggle_reset ;;;
       allow_power false Reason.PowerOff ;;;
       when (is_DC s) (emit signal_dc_supply_off) ;;;
       emit (signal_simple_event SessionEventEnum.ChargingPausedEV)) ;;;
    let* toggled := bcb_toggle_detected in
    when toggled (go EvseState.PrepareCharging) ;;;
    terminate_or_pause
  else
    let* available := power_available in
    if negb available then pause_charging_wait_for_power_internal ;;; eret tt
    else if initialize_state then emit (signal_simple_event SessionEventEnum.ChargingPausedEV)
    else
      let* fatal := stop_charging_on_fatal_error_internal in
      if fatal then eret tt
      else
        let* s := this in
        update_pwm_max_every_5seconds_ampere (get_max_current_internal s).

Definition case_ChargingPausedEVSE (initialize_state : bool) : CH M unit :=
  let* s := this in
  when initialize_state
    (emit (signal_simple_event SessionEventEnum.ChargingPausedEVSE) ;;;
     if hlc_charging_active s then when (is_DC s) (emit signal_dc_supply_off) else pwm_off) ;;;
  when (hlc_charging_active s) terminate_or_pause.

Definition case_WaitingForEnergy (initialize_state : bool) : CH M unit :=
  let* s := this in
  when initialize_state
    (emit (signal_simple_event SessionEventEnum.WaitingForEnergy) ;;;
     when (negb (hlc_use_5percent_current_session s)) pwm_off).

Definition case_StoppingCharging (initialize_state : bool) : CH M unit :=
  let* s := this in
  when initialize_state
    (bcb_toggle_reset ;;;
     when (transaction_active s) (emit (signal_simple_event SessionEventEnum.StoppingCharging)) ;;;
     if hlc_charging_active s then when (is_DC s) (emit signal_dc_supply_off)
     else pwm_off ;;; go EvseState.Finished) ;;;
  if hlc_charging_active s then
    let* toggled := bcb_toggle_detected in
    when (toggled && transaction_active s)
      (go EvseState.PrepareCharging ;;; emit signal_slac_start)
  else eret tt.

Definition case_Finished (initialize_state : bool) : CH M unit :=
  let* s := this in
  when initialize_state
    (when (transaction_active s) (stop_transaction w) ;;;
     when (session_active s) stop_session ;;;
     when (is_DC s) (emit signal_dc_supply_off)) ;;;
  go EvseState.Idle.

(** *** The loop *)

(** The switch on the current state. *)
Definition state_switch (initialize_state : bool) (time_in_current_state now : Z) : CH M unit :=
  let* s := this in
  match current_state s with
  | EvseState.Disabled => case_Disabled initialize_state
  | EvseState.Replug => case_Replug initialize_state
  | EvseState.Idle => case_Idle initialize_state
  | EvseState.WaitingForAuthentication => case_WaitingForAuthentication initialize_state
  | EvseState.SwitchPhases => case_SwitchPhases initialize_state time_in_current_state
  | EvseState.T_step_EF => case_T_step_EF initialize_state time_in_current_state
  | EvseState.T_step_X1 => case_T_step_X1 initialize_state time_in_current_state
  | EvseState.PrepareCharging => case_PrepareCharging initialize_state time_in_current_state now
  | EvseState.Charging => case_Charging initialize_state
  | EvseState.ChargingPausedEV => case_ChargingPausedEV initialize_state
  | EvseState.ChargingPausedEVSE => case_ChargingPausedEVSE initialize_state
  | EvseState.WaitingForEnergy => case_WaitingForEnergy initialize_state
  | EvseState.StoppingCharging => case_StoppingCharging initialize_state
  | EvseState.Finished => case_Finished initialize_state
  end.

(** Whether the state is entered, or an error came or went. *)
Definition initializes (s : charger M) : bool :=
  negb (EvseState.eqb (last_state_detect_state_change s) (current_state s))
  || negb (ShutdownType.eqb (internal_last_shutdown_type s) (shutdown_type s)).

Definition remember_state (s : charger M) : CH M unit :=
  put_internal (assign last_state (last_state_detect_state_change s)) ;;;
  put_internal (assign last_state_detect_state_change (current_state s)) ;;;
  put_internal (assign internal_last_shutdown_type (shutdown_type s)).

(** The timeout back to DC: whether it is reached. *)
Definition soc_timeout : CH M bool :=
  let* s := this in
  if ac_with_soc_timeout s then
    put_shared (assign ac_with_soc_timer (ac_with_soc_timer s - 50)) ;;;
    if ac_with_soc_timer s - 50 <? 0 then
      put_shared (assign ac_with_soc_timeout false) ;;;
      put_shared (assign ac_with_soc_timer 3600000) ;;;
      emit signal_ac_with_soc_timeout ;;;
      eret true
    else eret false
  else eret false.

(** A switch of the phases that was interrupted. *)
Definition finish_switching_phases : CH M unit :=
  let* s := this in
  when (EvseState.eqb (last_state s) EvseState.SwitchPhases
        && negb (EvseState.eqb (current_state s) EvseState.SwitchPhases)
        && switch_3ph1ph_threephase_ongoing s)
    (bsp_call (switch_three_phases_while_charging (switch_3ph1ph_threephase s)) ;;;
     put_shared (assign switch_3ph1ph_threephase_ongoing false)).

(** One round of the loop: whether it returns from [run_state_machine]. *)
Definition loop_round : CH M bool :=
  let* s := this in
  let initialize_state := initializes s in
  remember_state s ;;;
  let now := system_clock s in
  let* returns := soc_timeout in
  if returns then eret true
  else
    when initialize_state
      (put_internal (assign current_state_started now) ;;;
       emit (signal_state (current_state s))) ;;;
    let* s := this in
    let time_in_current_state := now - current_state_started s in
    finish_switching_phases ;;;
    state_switch initialize_state time_in_current_state now ;;;
    eret false.

Fixpoint run_loop (max_runs : nat) : CH M bool :=
  match max_runs with
  | O => eret false
  | S n =>
      let* returns := loop_round in
      if returns then eret true
      else
        let* s := this in
        if EvseState.eqb (last_state_detect_state_change s) (current_state s) then eret true
        else run_loop n
  end.

Definition max_mainloop_runs : nat := 10.

Definition run_state_machine : CH M bool := run_loop max_mainloop_runs.

(** One round of the main thread. *)
Definition main_loop_round : CH M unit :=
  power_available ;;; run_state_machine ;;; eret tt.

(** What the main thread does when it starts. *)
Definition main_thread_start : CH M unit :=
  bsp_call (enable true) ;;;
  let* s := this in
  emit (signal_max_current (get_max_current_internal s)) ;;;
  emit (signal_state (current_state s)).

(** ** Events of the control pilot *)

Definition process_cp_events_independent (cp_event : CPEvent.t) : CH M unit :=
  let* s := this in
  match cp_event with
  | CPEvent.EvseReplugStarted => go EvseState.Replug
  | CPEvent.EvseReplugFinished => go EvseState.WaitingForAuthentication
  | CPEvent.CarRequestedStopPower => put_shared (assign iec_allow_close_contactor false)
  | CPEvent.CarUnplugged =>
      if negb (hlc_charging_active s) then go EvseState.StoppingCharging
      else go EvseState.Finished
  | CPEvent.PowerOff =>
      put_shared (assign contactor_open true) ;;;
      when (transaction_active s && negb (authorized_pnc s) && negb (authorized s))
        (stop_transaction w)
  | CPEvent.PowerOn => put_shared (assign contactor_open false)
  | _ => eret tt
  end.

Definition process_cp_events_state (cp_event : CPEvent.t) : CH M unit :=
  let* s := this in
  let allow b := put_shared (assign iec_allow_close_contactor b) in
  match current_state s, cp_event with
  | EvseState.Idle, CPEvent.CarPluggedIn => go EvseState.WaitingForAuthentication
  | EvseState.WaitingForEnergy, CPEvent.CarRequestedPower
  | EvseState.WaitingForAuthentication, CPEvent.CarRequestedPower => allow true
  | EvseState.WaitingForEnergy, CPEvent.CarRequestedStopPower
  | EvseState.WaitingForAuthentication, CPEvent.CarRequestedStopPower => allow false
  | EvseState.PrepareCharging, CPEvent.CarRequestedPower => allow true
  | EvseState.PrepareCharging, CPEvent.CarRequestedStopPower =>
      allow false ;;; emit signal_dc_supply_off ;;; go EvseState.ChargingPausedEVSE
  | EvseState.Charging, CPEvent.CarRequestedStopPower =>
      allow false ;;; go EvseState.ChargingPausedEV ;;;
      when (hlc_charging_active s) (emit signal_hlc_stop_charging)
  | EvseState.Charging, CPEvent.BCDtoE =>
      allow false ;;; go EvseState.StoppingCharging ;;;
      when (hlc_charging_active s) (emit signal_hlc_stop_charging)
  | EvseState.ChargingPausedEV, CPEvent.CarRequestedPower =>
      allow true ;;;
      if is_AC s && negb (hlc_charging_active s) then go EvseState.Charging
      else when (negb (pwm_running s)) bcb_toggle_detect_start_pulse
  | EvseState.ChargingPausedEV, CPEvent.CarRequestedStopPower =>
      when (negb (pwm_running s) && hlc_charging_active s) bcb_toggle_detect_stop_pulse
  | EvseState.StoppingCharging, CPEvent.CarRequestedPower =>
      when (hlc_charging_active s && negb (pwm_running s)) bcb_toggle_detect_start_pulse
  | EvseState.StoppingCharging, CPEvent.CarRequestedStopPower =>
      when (hlc_charging_active s && negb (pwm_running s)) bcb_toggle_detect_stop_pulse
  | _, _ => eret tt
  end.

Definition process_event (cp_event : CPEvent.t) : CH M unit :=
  run_state_machine ;;;
  process_cp_events_independent cp_event ;;;
  run_state_machine ;;;
  process_cp_events_state cp_event ;;;
  run_state_machine ;;;
  eret tt.
End StateMachine.
