(* ===== verification/ChargerTermination.v ===== *)
(** * The loop of the state machine ends

    First what an action of the charger leaves alone: [stays f m] for a function
    [f] of the charger and an action [m], by walking through the definition of
    [m] ([stays_steps] opens definitions as long as every assignment leaves [f]
    alone by computation).  Then the loop: the source loops until the state does
    not change any more.  A state that was entered in this run can only be left
    along [rank], so the loop ends after six rounds at the latest, before the ten
    it warns about. *)
From S2P Require Import Prelude AuthTypes IECStateMachine Effects ErrorHandling ChargerTypes.
From S2P Require Import Charger ChargerStateMachine.
From stdpp Require Import base tactics list numbers strings.
From Stdlib Require Import QArith Qabs.
Open Scope Z_scope.
Open Scope everest_scope.

Section Stays.
Context {M : Type} `{ErrorMonitor M} {T : Type} (f : charger M -> T).

Lemma stays_bsp m : (forall s b, f (assign bsp b s) = f s) -> stays f (bsp_call m).
Proof.
  intros Hf s l. unfold wp, bsp_call. destruct (m (bsp s)) as [[r b] os]. apply Hf.
Qed.

Lemma stays_error m :
  (forall s e q, f (assign error_handling_event_queue q (assign error_handling e s)) = f s) ->
  stays f (error_call m).
Proof.
  intros Hf s l. unfold wp, error_call. destruct (m (error_handling s)) as [[r e] os].
  apply (Hf s e (error_handling_event_queue s ++ map event_of os)).
Qed.

Lemma stays_signal o : stays f (emit o).
Proof. apply stays_get. intros s. apply stays_emit. Qed.

Lemma stays_start_meters w meters :
  (forall s e q, f (assign error_handling_event_queue q (assign error_handling e s)) = f s) ->
  stays f (start_meters w meters).
Proof.
  intros Hf. induction meters as [|i rest IH]; cbn [start_meters]; [apply stays_ret|].
  apply stays_get. intros s. apply stays_bind; [apply stays_signal|]. intros _.
  destruct (start_response w i _); [done|done|]. apply stays_if; [|done].
  apply stays_bind; [by apply stays_error|]. intros _. apply stays_ret.
Qed.

Lemma stays_stop_meters w id meters :
  (forall s v v', f (update shared_context (assign stop_signed_meter_value v)
                (update shared_context (assign start_signed_meter_value v') s)) = f s) ->
  stays f (stop_meters w id meters).
Proof.
  intros Hf. induction meters as [|i rest IH]; cbn [stop_meters]; [apply stays_ret|].
  apply stays_bind; [apply stays_signal|]. intros _.
  destruct (stop_status _); [|done|apply stays_ret].
  intros s l. apply wp_bind, wp_modify, wp_modify, Hf.
Qed.
End Stays.

Ltac head_of t := lazymatch t with ?g _ => head_of g | _ => t end.

Ltac stays_step :=
  lazymatch goal with
  | |- stays _ (eret _) => apply stays_ret
  | |- stays _ (ebind eget _) => apply stays_get; intro; cbv beta
  | |- stays _ (ebind _ _) => apply stays_bind; [|intro; cbv beta]
  | |- stays _ (efor _ _) => apply stays_for; intro; cbv beta
  | |- stays _ (emit _) => apply stays_signal
  | |- stays _ (eemit _) => apply stays_emit
  | |- stays _ (bsp_call _) => apply stays_bsp; intros; reflexivity
  | |- stays _ (error_call _) => apply stays_error; intros; reflexivity
  | |- stays _ (start_meters _ _) => apply stays_start_meters; intros; reflexivity
  | |- stays _ (stop_meters _ _ _) => apply stays_stop_meters; intros; reflexivity
  | |- stays _ (put_shared _) => apply stays_modify; intros; reflexivity
  | |- stays _ (put_internal _) => apply stays_modify; intros; reflexivity
  | |- stays _ (put _) => apply stays_modify; intros; reflexivity
  | |- stays _ (match ?x with _ => _ end) => destruct x
  | |- stays _ ?m => let h := head_of m in unfold h; cbv beta
  end.
Ltac stays_steps := repeat stays_step.

(** The same walk for an invariant that no change of state breaks: [leaf] is
    for the actions at its end. *)
Ltac walk_step leaf :=
  lazymatch goal with
  | |- keeps _ (eret _) => apply kept_ret
  | |- keeps _ (ebind eget _) => apply kept_get; intro; cbv beta
  | |- keeps _ (ebind _ _) => apply kept_bind; [|intro; cbv beta]
  | |- keeps _ (efor _ _) => apply kept_for; intro; cbv beta
  | |- keeps _ (go _) => leaf tt
  | |- keeps _ (put_shared _) => leaf tt
  | |- keeps _ (put_internal _) => leaf tt
  | |- keeps _ (put _) => leaf tt
  | |- keeps _ (emit _) => leaf tt
  | |- keeps _ (bsp_call _) => leaf tt
  | |- keeps _ (error_call _) => leaf tt
  | |- keeps _ (start_meters _ _) => leaf tt
  | |- keeps _ (stop_meters _ _ _) => leaf tt
  | |- keeps _ (match ?x with _ => _ end) => destruct x
  | |- keeps _ ?m => let h := head_of m in unfold h; cbv beta
  end.

(** How far a state that was just entered is from resting. *)
Definition rank (st : EvseState.t) : nat :=
  match st with
  | EvseState.SwitchPhases => 4
  | EvseState.WaitingForAuthentication | EvseState.ChargingPausedEV
  | EvseState.ChargingPausedEVSE => 3
  | EvseState.PrepareCharging | EvseState.StoppingCharging => 2
  | EvseState.Charging | EvseState.Finished => 1
  | _ => 0
  end.

(** A state stays or moves down. *)
Definition downward (st st' : EvseState.t) : bool :=
  EvseState.eqb st' st || (rank st' <? rank st)%nat.

Section Within.
Context {M : Type} `{ErrorMonitor M}.
Implicit Types (s : charger M) (l : list logged).

Definition within (P : EvseState.t -> bool) : charger M -> list logged -> Prop :=
  fun s _ => P (current_state s) = true.

Lemma stays_within {A} P (m : CH M A) : stays (fun s => current_state s) m -> keeps (within P) m.
Proof. intros Hm s l HP. eapply wp_stays; [apply Hm|]. unfold within. by intros ? s' ? ->. Qed.

Lemma within_go P st : P st = true -> keeps (within P) (go (M := M) st).
Proof. intros HP s l _. by apply wp_modify. Qed.

Lemma within_when P b (m : CH M unit) : (b = true -> keeps (within P) m) -> keeps (within P) (when b m).
Proof. destruct b; intros Hm; [by apply Hm|]. apply kept_ret. Qed.
End Within.

Ltac within_leaf _ :=
  lazymatch goal with
  | |- keeps _ (go _) => apply within_go; reflexivity
  | _ => apply stays_within; stays_step
  end.
Ltac within_step := walk_step within_leaf.
Ltac within_steps := repeat within_step.

Section Cases.
Context {M : Type} `{ErrorMonitor M} (w : world).
Implicit Types (s : charger M) (l : list logged).
Abbreviation from st := (keeps (within (downward st))).

Lemma down_Disabled : from EvseState.Disabled (case_Disabled (M := M) true).
Proof. within_steps. Qed.
Lemma down_Replug : from EvseState.Replug (case_Replug (M := M) true).
Proof. within_steps. Qed.
Lemma down_Idle : from EvseState.Idle (case_Idle (M := M) true).
Proof. within_steps. Qed.
Lemma down_Waiting :
  from EvseState.WaitingForAuthentication (case_WaitingForAuthentication (M := M) w true).
Proof. within_steps. Qed.
Lemma down_Charging : from EvseState.Charging (case_Charging (M := M) true).
Proof. within_steps. Qed.
Lemma down_PausedEVSE : from EvseState.ChargingPausedEVSE (case_ChargingPausedEVSE (M := M) true).
Proof. within_steps. Qed.
Lemma down_WaitingForEnergy : from EvseState.WaitingForEnergy (case_WaitingForEnergy (M := M) true).
Proof. within_steps. Qed.
Lemma down_Finished : from EvseState.Finished (case_Finished (M := M) w true).
Proof. within_steps. Qed.

(** Right after they were entered the steps between PWM modes wait. *)
Lemma down_T_step_EF : from EvseState.T_step_EF (case_T_step_EF (M := M) true 0).
Proof.
  unfold case_T_step_EF. within_step; [within_steps|]. within_step.
  change (T_STEP_EF + STAY_IN_X1_AFTER_TSTEP_EF_MS <=? 0) with false. cbv iota. within_steps.
Qed.
Lemma down_T_step_X1 : from EvseState.T_step_X1 (case_T_step_X1 (M := M) true 0).
Proof.
  unfold case_T_step_X1. within_step; [within_steps|]. within_step.
  change (T_STEP_X1 <=? 0) with false. within_steps.
Qed.

(** ... and the timeouts of the preparation have not passed. *)
Lemma down_Prepare now : from EvseState.PrepareCharging (case_PrepareCharging (M := M) true 0 now).
Proof.
  unfold case_PrepareCharging. do 2 within_step; [within_steps|]. within_step; [within_steps|].
  within_step; [within_steps|]. within_step; [within_steps|]. within_step.
  within_step; [within_steps|]. apply within_when. intros _. unfold prepare_AC.
  within_step; [within_steps|]. apply kept_if; [within_steps|]. within_step.
  apply kept_if; [within_steps|].
  change (LEGACY_WAKEUP_TIMEOUT <? 0) with false.
  change (PREPARING_TIMEOUT_PAUSED_BY_EV <? 0) with false. rewrite !andb_false_r. within_steps.
Qed.

(** Nor does a BCB toggle wake the charger up right after it was reset. *)
Definition no_bcb : charger M -> list logged -> Prop := fun s _ => hlc_bcb_sequence_started s = false.

Lemma no_toggle (Q : bool -> charger M -> list logged -> Prop) s l :
  no_bcb s l -> Q false s l -> wp bcb_toggle_detected Q s l.
Proof.
  intros Hn HQ. unfold bcb_toggle_detected. apply wp_get. rewrite Hn. by apply wp_ret.
Qed.

Lemma bcb_reset_off s l :
  wp (bcb_toggle_reset (M := M)) (fun _ s' _ => no_bcb s' l /\ current_state s' = current_state s) s l.
Proof. by apply wp_bind, wp_modify, wp_modify. Qed.

Definition calm s := (current_state s, hlc_bcb_sequence_started s).

Lemma down_PausedEV : from EvseState.ChargingPausedEV (case_ChargingPausedEV (M := M) true).
Proof.
  unfold case_ChargingPausedEV. within_step. within_step; [within_steps|].
  apply kept_if; [|within_steps]. intros s' l HP. apply wp_bind, wp_bind.
  eapply wp_mono; [apply bcb_reset_off|]. cbv beta. intros _ s1 l1 [Hn E1].
  eapply wp_stays with (f := calm); [stays_steps|]. intros _ s2 l2 [= E2 E3].
  apply wp_bind, no_toggle; [unfold no_bcb in *; congruence|]. apply wp_bind, wp_ret.
  assert (within (downward EvseState.ChargingPausedEV) s2 l2) as HP2.
  { unfold within in *. by rewrite E2, E1. }
  refine ((_ : keeps _ _) _ _ HP2). within_steps.
Qed.

Lemma down_Stopping : from EvseState.StoppingCharging (case_StoppingCharging (M := M) true).
Proof.
  unfold case_StoppingCharging. apply kept_get. intros s. destruct (hlc_charging_active s); [|within_steps].
  intros s' l HP. apply wp_bind, wp_bind.
  eapply wp_mono; [apply bcb_reset_off|]. cbv beta. intros _ s1 l1 [Hn E1].
  eapply wp_stays with (f := calm); [stays_steps|]. intros _ s2 l2 [= E2 E3].
  apply wp_bind, no_toggle; [unfold no_bcb in *; congruence|]. apply wp_ret.
  unfold within in *. by rewrite E2, E1.
Qed.

(** ** A round *)

Lemma down_SwitchPhases t : from EvseState.SwitchPhases (case_SwitchPhases (M := M) true t).
Proof.
  unfold case_SwitchPhases. within_step. within_step; [within_steps|]. apply within_when. intros _.
  within_step; [within_steps|]. within_step; [within_steps|]. apply within_go.
  by destruct (switching_phases_return_state s).
Qed.

Lemma down_switch now s l :
  wp (state_switch (M := M) w true 0 now)
    (fun _ => within (downward (current_state s))) s l.
Proof.
  assert (within (downward (current_state s)) s l) as HP.
  { unfold within, downward, EvseState.eqb. by rewrite bool_decide_eq_true_2. }
  unfold state_switch. apply wp_get. destruct (current_state s).
  - by apply down_Disabled.
  - by apply down_Idle.
  - by apply down_Waiting.
  - by apply down_Prepare.
  - by apply down_WaitingForEnergy.
  - by apply down_Charging.
  - by apply down_PausedEV.
  - by apply down_PausedEVSE.
  - by apply down_Stopping.
  - by apply down_Finished.
  - by apply down_T_step_EF.
  - by apply down_T_step_X1.
  - by apply down_SwitchPhases.
  - by apply down_Replug.
Qed.

Lemma stays_detected init t now :
  stays (fun s => last_state_detect_state_change s) (state_switch (M := M) w init t now).
Proof. stays_steps. Qed.

(** A round remembers the state it was in; a state that was just entered is
    left downward. *)
Lemma round_detects s l :
  wp (loop_round (M := M) w) (fun returns s' _ =>
    last_state_detect_state_change s' = current_state s
    /\ (returns = false -> initializes s = true ->
        downward (current_state s) (current_state s') = true)) s l.
Proof.
  unfold loop_round. apply wp_get, wp_bind. do 2 (apply wp_bind, wp_modify). apply wp_modify.
  apply wp_bind. name_state s1.
  assert (last_state_detect_state_change s1 = current_state s) as E by done.
  assert (current_state s1 = current_state s /\ system_clock s1 = system_clock s) as Ec by done.
  clearbody s1. eapply wp_stays with (f := fun s =>
    (last_state_detect_state_change s, current_state s)); [stays_steps|].
  intros returns s2 l2 [= E1 E2]. apply wp_if; intros _; [apply wp_ret; split; congruence|].
  destruct (initializes s).
  - cbn [when]. apply wp_bind, wp_bind, wp_modify, wp_get, wp_emit, wp_get, wp_bind.
    eapply wp_stays with (f := fun s => (last_state_detect_state_change s, current_state s));
      [stays_steps|].
    intros _ s3 l3 [= E3 E4]. cbn in E3, E4 |- *. rewrite Z.sub_diag. apply wp_bind.
    pose proof (down_switch (system_clock s) s3 l3) as Hd.
    pose proof (stays_detected true 0 (system_clock s) s3 l3) as Hs.
    unfold wp, within in *. destruct (state_switch w true 0 _ s3) as [[[u|[]] s4] o].
    cbn in *. rewrite E4, E2, (proj1 Ec) in Hd. split; [congruence|done].
  - cbn [when]. apply wp_bind, wp_ret, wp_get, wp_bind.
    eapply wp_stays with (f := fun s => last_state_detect_state_change s); [stays_steps|].
    intros _ s3 l3 E3. apply wp_bind. eapply wp_stays; [apply stays_detected|].
    intros _ s4 l4 E4. apply wp_ret. split; congruence.
Qed.

(** ** The loop *)

Lemma eqb_state_false (a b : EvseState.t) : EvseState.eqb a b = false <-> a <> b.
Proof. apply bool_decide_eq_false. Qed.

Lemma run_loop_fresh n s l :
  last_state_detect_state_change s <> current_state s -> (rank (current_state s) < n)%nat ->
  wp (run_loop (M := M) w n) (fun b _ _ => b = true) s l.
Proof.
  revert s l. induction n as [|n IH]; intros s l Hf Hr; [lia|]. cbn [run_loop]. apply wp_bind.
  eapply wp_mono; [apply round_detects|]. cbv beta. intros returns s' l' [Hd Hw].
  apply wp_if; intros Hb; [by apply wp_ret|]. apply wp_get, wp_if; intros He; [by apply wp_ret|].
  apply eqb_state_false in He. apply IH; [done|].
  assert (downward (current_state s) (current_state s') = true) as Hdown.
  { apply Hw; [done|]. unfold initializes. apply eqb_state_false in Hf. by rewrite Hf. }
  unfold downward in Hdown. apply orb_true_iff in Hdown as [Hx|Hx].
  - apply bool_decide_eq_true in Hx. congruence.
  - apply Nat.ltb_lt in Hx. lia.
Qed.

Lemma rank_bound st : (rank st <= 4)%nat.
Proof. destruct st; cbn; lia. Qed.

Lemma run_loop_ends n s l : (6 <= n)%nat -> wp (run_loop (M := M) w n) (fun b _ _ => b = true) s l.
Proof.
  intros Hn. destruct n as [|n]; [lia|]. cbn [run_loop]. apply wp_bind.
  eapply wp_mono; [apply round_detects|]. cbv beta. intros returns s' l' [Hd _].
  apply wp_if; intros Hb; [by apply wp_ret|]. apply wp_get, wp_if; intros He; [by apply wp_ret|].
  apply run_loop_fresh; [by apply eqb_state_false in He|].
  pose proof (rank_bound (current_state s')). lia.
Qed.

(** A loop that ended does not depend on the bound. *)
Lemma run_loop_more n m s :
  run_val (run_loop (M := M) w n) s = Ok true -> (n <= m)%nat ->
  run_loop w m s = run_loop w n s.
Proof.
  revert m s. induction n as [|n IH]; intros m s Hv Hm; [done|]. destruct m as [|m]; [lia|].
  cbn [run_loop] in *. unfold run_val, ebind in *.
  destruct (loop_round w s) as [[[[]|[]] s1] o1]; [done|]. cbn in *.
  destruct (EvseState.eqb _ _); [done|].
  destruct (run_loop w n s1) as [[r s2] o2] eqn:E. rewrite (IH m s1); [by rewrite E| |lia].
  rewrite E. destruct r as [[]|[]]; done.
Qed.
End Cases.
