(* ===== verification/ChargerProofs.v ===== *)
(** * Invariants of the charger

    What is known of the charger in every state: of the permission for power,
    of sessions and of transactions.  [frames] says that an action touches
    nothing of it; the sessions, transactions and changes of state have rules
    of their own. *)
From S2P Require Import Prelude Effects AuthTypes IECStateMachine IECProofs ErrorHandling.
From S2P Require Import ChargerTypes Charger ChargerStateMachine.
From stdpp Require Import base tactics list numbers strings.
From Stdlib Require Import QArith Qabs.
Open Scope Z_scope.
Open Scope everest_scope.

Create HintDb charger.

(** ** What the log says *)

(** The outputs of the IEC state machine. *)
Definition bsp_outs (l : list logged) : list iec_output :=
  omap (fun e => match e.1 with bsp_output o => Some o | _ => None end) l.

(** The shared context in which the charger last allowed power, if it did not
    take it back since. *)
Definition granted (l : list logged) : option SharedContext :=
  foldl (fun g e => match e.1 with
    | bsp_allow_power_on true _ => Some e.2
    | bsp_allow_power_on false _ => None
    | _ => g
    end) None l.

(** Whether a session is open after the session events; [None] when they do
    not alternate. *)
Definition session_trace (l : list logged) : option bool :=
  foldl (fun o e => match o, e.1 with
    | Some false, signal_session_started_event _ _ => Some true
    | Some true, signal_session_started_event _ _ => None
    | Some true, signal_simple_event SessionEventEnum.SessionFinished => Some false
    | Some false, signal_simple_event SessionEventEnum.SessionFinished => None
    | _, _ => o
    end) (Some false) l.

(** Every transaction was started with an authorization, for its token. *)
Definition starts_authorized (l : list logged) : Prop :=
  Forall (fun e => match e.1 with
    | signal_transaction_started_event t => authorized e.2 = true /\ id_token e.2 = t
    | _ => True
    end) l.

Lemma bsp_outs_app l l' : bsp_outs (l ++ l') = bsp_outs l ++ bsp_outs l'.
Proof. apply omap_app. Qed.

Lemma bsp_outs_map sh os : bsp_outs (map (fun o => (bsp_output o, sh)) os) = os.
Proof. induction os as [|o os IH]; [done|]. cbn. by f_equal. Qed.

Lemma granted_snoc l e : granted (l ++ [e]) = match e.1 with
  | bsp_allow_power_on true _ => Some e.2
  | bsp_allow_power_on false _ => None
  | _ => granted l
  end.
Proof. unfold granted. by rewrite foldl_app. Qed.

Lemma bsp_outs_snoc l o sh :
  (forall x, o <> bsp_output x) -> bsp_outs (l ++ [(o, sh)]) = bsp_outs l.
Proof. intros Ho. rewrite bsp_outs_app. destruct o; cbn; try apply app_nil_r. by destruct (Ho o). Qed.

(** The outputs that these functions do not look at. *)
Definition plain (o : charger_output) : bool :=
  match o with
  | signal_session_started_event _ _ | signal_transaction_started_event _ | bsp_allow_power_on _ _ | bsp_output _ => false
  | signal_simple_event SessionEventEnum.SessionFinished => false
  | _ => true
  end.

Lemma plain_log o sh l :
  plain o = true ->
  bsp_outs (l ++ [(o, sh)]) = bsp_outs l /\ granted (l ++ [(o, sh)]) = granted l
  /\ session_trace (l ++ [(o, sh)]) = session_trace l
  /\ (starts_authorized l -> starts_authorized (l ++ [(o, sh)])).
Proof.
  intros Hp. assert (starts_authorized l -> starts_authorized (l ++ [(o, sh)])).
  { intros Hl. apply Forall_app_2, Forall_singleton; [done|]. by destruct o. }
  rewrite bsp_outs_app, granted_snoc. unfold session_trace. rewrite foldl_app. cbn.
  destruct o; try done; cbn in *; rewrite ?app_nil_r; try done;
    try (by destruct (foldl _ _ l) as [[]|]).
  destruct e; try done; by destruct (foldl _ _ l) as [[]|].
Qed.

Lemma bsp_log sh os l :
  granted (l ++ map (fun o => (bsp_output o, sh)) os) = granted l
  /\ session_trace (l ++ map (fun o => (bsp_output o, sh)) os) = session_trace l
  /\ (starts_authorized l -> starts_authorized (l ++ map (fun o => (bsp_output o, sh)) os)).
Proof.
  split_and!; [| |intros Hl; apply Forall_app_2; [done|]; apply Forall_forall; intros e He;
    by apply list_elem_of_fmap in He as (o & -> & _)].
  all: unfold granted, session_trace; rewrite !foldl_app;
    match goal with |- foldl _ ?g _ = _ => generalize g end;
    induction os as [|o os IH]; try done; (apply IH || (intros [[]|]; apply IH)).
Qed.

(** ** The IEC state machine does not allow power by itself *)

Definition denied (b : iec_state) : Prop := power_on_allowed b = false.

Ltac iec_preserves :=
  repeat first
    [ solve [auto with charger] | apply preserves_ret | apply preserves_emit | apply preserves_get
    | (apply preserves_modify; done) | (apply preserves_for; intros)
    | (apply preserves_bind; [|intros]) | case_match ].

Lemma lock_check_denied : preserves denied check_connector_lock.
Proof. unfold check_connector_lock, IECStateMachine.put. iec_preserves. Qed.

Lemma call_power_denied v : preserves denied (call_allow_power_on_bsp v).
Proof. unfold call_allow_power_on_bsp, IECStateMachine.put. iec_preserves. Qed.

#[export] Hint Resolve lock_check_denied call_power_denied : charger.

Lemma locked_denied now : preserves denied (state_machine_locked now).
Proof.
  assert (preserves denied (case_C now)) as HC.
  { unfold case_C, connector_lock, IECStateMachine.put.
    iec_preserves. }
  unfold state_machine_locked.
  apply preserves_bind; [|unfold remember_last, IECStateMachine.put; intros; iec_preserves].
  unfold switch_cp_state. apply preserves_bind; [apply preserves_get|]. intros s.
  destruct (cp_state s); try (apply preserves_bind; [|intros; apply preserves_ret]); try exact HC;
    unfold IECStateMachine.case_Disabled, case_A, case_B, case_D, case_E, case_F,
      connector_lock, connector_unlock, IECStateMachine.put;
    iec_preserves.
Qed.

#[export] Hint Resolve locked_denied : charger.

(** All operations but the one that allows it. *)
Definition quiet_op (op : iec_op) : bool :=
  match op with op_allow_power_on true _ => false | _ => true end.

Lemma op_denied op : quiet_op op = true -> preserves denied (iec_op_action op).
Proof.
  intros Hq. destruct op; cbn [iec_op_action];
    unfold feed_state_machine_no_thread, state_machine, control_timers, on_bsp_event, process_bsp_event, set_pwm,
      set_pwm_off, set_pwm_F, allow_power_on, connector_force_unlock, enable, IECStateMachine.setup,
      set_overcurrent_limit, evse_replug, switch_three_phases_while_charging, feed_state_machine,
      IECStateMachine.put;
    iec_preserves.
  destruct value; [done|]. by apply preserves_modify.
Qed.

(** ** The invariant *)

(** The states of a running transaction. *)
Definition in_transaction (st : EvseState.t) : bool :=
  match st with
  | EvseState.PrepareCharging | EvseState.WaitingForEnergy | EvseState.Charging
  | EvseState.ChargingPausedEV | EvseState.SwitchPhases => true
  | _ => false
  end.

Section Invariant.
Context {M : Type} `{ErrorMonitor M}.
Implicit Types (s : charger M) (l : list logged).

(** ... and those that lead there by themselves. *)
Definition on_the_way s : bool :=
  match current_state s with
  | EvseState.T_step_EF => in_transaction (t_step_EF_return_state s)
  | EvseState.T_step_X1 =>
      in_transaction (t_step_X1_return_state s)
      || (EvseState.eqb (t_step_X1_return_state s) EvseState.T_step_EF
          && in_transaction (t_step_EF_return_state s))
  | st => in_transaction st
  end.

(** The transaction was started, and is active unless it was stopped. *)
Definition paid (sh : SharedContext) : Prop :=
  transaction_active sh = true \/ last_stop_transaction_reason sh <> None.

(** Where power may be allowed. *)
Definition grant_ok (sh : SharedContext) : Prop :=
  paid sh
  /\ ((current_state sh = EvseState.Charging /\ shutdown_type sh = ShutdownType.None)
      \/ (current_state sh = EvseState.PrepareCharging /\ hlc_allow_close_contactor sh = true
          /\ iec_allow_close_contactor sh = true)).

(** Where the steps between PWM modes lead. *)
Definition returns_ok s : bool :=
  match t_step_EF_return_state s with
  | EvseState.Idle | EvseState.PrepareCharging | EvseState.WaitingForAuthentication => true
  | _ => false
  end
  && match t_step_X1_return_state s with
     | EvseState.Idle | EvseState.PrepareCharging | EvseState.T_step_EF => true
     | _ => false
     end
  && match current_state s, switching_phases_return_state s with
     | EvseState.SwitchPhases, EvseState.PrepareCharging
     | EvseState.SwitchPhases, EvseState.WaitingForEnergy => true
     | EvseState.SwitchPhases, _ => false
     | _, _ => true
     end.

Record inv s l : Prop := mkInv {
  inv_safe : safe (bsp s) (permission false (bsp_outs l)) (lock_after false (bsp_outs l));
  inv_granted : power_on_allowed (bsp s) = true -> is_Some (granted l);
  inv_grant_ok : forall sh, granted l = Some sh -> grant_ok sh;
  inv_session : session_trace l = Some (session_active s);
  inv_uuid : session_active s = false -> session_uuid s = ""%string;
  inv_paid : on_the_way s = true -> paid s;
  inv_returns : returns_ok s = true;
  inv_started : starts_authorized l;
}.

(** What the invariant depends on, apart from the IEC state machine. *)
Definition core s :=
  (current_state s, transaction_active s, authorized s, last_stop_transaction_reason s,
   session_active s, session_uuid s, shutdown_type s, hlc_allow_close_contactor s,
   iec_allow_close_contactor s, t_step_EF_return_state s, t_step_X1_return_state s,
   switching_phases_return_state s).

Lemma inv_core s s' l :
  core s' = core s -> bsp s' = bsp s -> inv s l -> inv s' l.
Proof.
  intros E Eb [H1 H2 H3 H4 H5 H6 H7 H8]. injection E as E1 E2 E3 E4 E5 E6 E7 E8 E9 E10 E11 E12.
  split; rewrite ?Eb; try done; unfold on_the_way, paid, returns_ok in *;
    rewrite ?E1, ?E2, ?E3, ?E4, ?E5, ?E6, ?E10, ?E11, ?E12; done.
Qed.

(** ** Actions that touch nothing of it *)

Definition frames {A} (m : CH M A) : Prop :=
  forall s l, inv s l -> wp m (fun _ s' l' => inv s' l' /\ core s' = core s) s l.

Lemma frames_ret {A} (a : A) : frames (eret a).
Proof. intros s l Hi. by apply wp_ret. Qed.

Lemma frames_bind {A B} (m : CH M A) (k : A -> CH M B) :
  frames m -> (forall a, frames (k a)) -> frames (ebind m k).
Proof.
  intros Hm Hk s l Hi. apply wp_bind. eapply wp_mono; [by apply Hm|].
  intros a s' l' [Hi' E]. eapply wp_mono; [by apply Hk|]. intros b s2 l2 [? E2].
  split; [done|congruence].
Qed.

Lemma frames_get {A} (k : charger M -> CH M A) : (forall s, frames (k s)) -> frames (ebind eget k).
Proof. intros Hk s l Hi. by apply wp_get, Hk. Qed.

Lemma frames_if {A} (b : bool) (m m' : CH M A) :
  frames m -> frames m' -> frames (if b then m else m').
Proof. by destruct b. Qed.

Lemma frames_put f :
  (forall s, core (f s) = core s) -> (forall s, bsp (f s) = bsp s) -> frames (put f).
Proof.
  intros Hc Hb s l Hi. apply wp_modify. split; [|apply Hc]. by apply (inv_core s).
Qed.

Lemma frames_shared f :
  (forall s, core (update shared_context f s) = core s) -> frames (put_shared f).
Proof. intros Hc. by apply frames_put. Qed.

Lemma frames_internal f :
  (forall s, core (update internal_context f s) = core s) -> frames (put_internal f).
Proof. intros Hc. by apply frames_put. Qed.

Lemma inv_log s l o :
  plain o = true -> inv s l -> inv s (l ++ [(o, shared_context s)]).
Proof.
  intros Hp [H1 H2 H3 H4 H5 H6 H7 H8]. destruct (plain_log o (shared_context s) l Hp) as (E1 & E2 & E3 & E4).
  split; rewrite ?E1, ?E2, ?E3; auto.
Qed.

Lemma frames_emit o : plain o = true -> frames (emit o).
Proof. intros Hp s l Hi. apply wp_get, wp_emit. split; [|done]. by apply inv_log. Qed.

Lemma inv_signals s l (os : list eh_output) :
  inv s l -> inv s (l ++ map (fun o => (error_handling_signal (event_of o), shared_context s)) os).
Proof.
  intros Hi. induction os as [|o os IH] using rev_ind; [by rewrite app_nil_r|].
  rewrite map_app, app_assoc. by apply inv_log.
Qed.

Lemma frames_error m : frames (error_call m).
Proof.
  intros s l Hi. unfold wp, error_call. destruct (m (error_handling s)) as [[r e] os].
  split; [|done]. apply (inv_core s); [done|done|]. by apply inv_signals.
Qed.

Lemma frames_for {A} (xs : list A) (f : A -> CH M unit) :
  (forall x, frames (f x)) -> frames (efor xs f).
Proof.
  intros Hf. induction xs as [|x xs IH]; cbn [efor]; [apply frames_ret|].
  by apply frames_bind; [apply Hf|intros _].
Qed.

(** A call on the IEC state machine that does not allow power. *)
Lemma frames_bsp op : quiet_op op = true -> frames (bsp_call (iec_op_action op)).
Proof.
  intros Hq s l Hi. destruct Hi as [H1 H2 H3 H4 H5 H6 H7 H8].
  destruct (safe_op op _ _ _ H1) as ([] & Hv & Hs).
  pose proof (op_denied op Hq (bsp s)) as Hd. unfold denied in Hd.
  unfold run_val, run_state, run_out, wp, bsp_call in *.
  destruct (iec_op_action op (bsp s)) as [[r b] os]. cbn [fst snd] in *.
  destruct (bsp_log (shared_context s) os l) as (E1 & E2 & E3).
  split; [|done]. split; rewrite ?E1, ?E2, ?bsp_outs_app, ?bsp_outs_map, ?permission_app,
    ?lock_after_app; try done.
  - intros Hp. apply H2. cbn in Hp. destruct (power_on_allowed (bsp s)); [done|].
    rewrite Hd in Hp; done.
  - by apply E3.
Qed.

Lemma frames_set_pwm v : frames (bsp_call (set_pwm v)).
Proof. by apply (frames_bsp (op_set_pwm v)). Qed.
Lemma frames_set_pwm_off : frames (bsp_call set_pwm_off).
Proof. by apply (frames_bsp op_set_pwm_off). Qed.
Lemma frames_set_pwm_F : frames (bsp_call set_pwm_F).
Proof. by apply (frames_bsp op_set_pwm_F). Qed.
Lemma frames_enable b : frames (bsp_call (enable b)).
Proof. by apply (frames_bsp (op_enable b)). Qed.
Lemma frames_bsp_setup b : frames (bsp_call (IECStateMachine.setup b)).
Proof. by apply (frames_bsp (op_setup b)). Qed.
Lemma frames_overcurrent a : frames (bsp_call (set_overcurrent_limit a)).
Proof. by apply (frames_bsp (op_overcurrent a)). Qed.
Lemma frames_replug ms : frames (bsp_call (evse_replug ms)).
Proof. by apply (frames_bsp (op_replug ms)). Qed.
Lemma frames_switch n : frames (bsp_call (switch_three_phases_while_charging n)).
Proof. by apply (frames_bsp (op_switch_phases n)). Qed.
Lemma frames_force_unlock : frames (bsp_call connector_force_unlock).
Proof. by apply (frames_bsp op_force_unlock). Qed.

(** Power taken back: the log says so before the IEC state machine does. *)
Lemma frames_deny why : frames (allow_power false why).
Proof.
  intros s l Hi. apply wp_bind, wp_get, wp_emit.
  destruct Hi as [H1 H2 H3 H4 H5 H6 H7 H8].
  destruct (safe_allow_power_on false why _ _ _ H1) as ([] & Hv & Hs).
  unfold run_val, run_state, run_out, wp, bsp_call in *. revert Hv Hs.
  destruct (allow_power_on false why (bsp s)) as [[r b] os] eqn:E. cbn [fst snd]. intros _ Hs.
  assert (power_on_allowed b = false) as Hb by (by injection E as <- <- <-).
  destruct (bsp_log (shared_context s) os (l ++ [(bsp_allow_power_on false why, shared_context s)]))
    as (E1 & E2 & E3).
  split; [|done]. split; rewrite ?E1, ?E2, ?bsp_outs_app, ?bsp_outs_map; try done.
  - cbn [bsp_outs omap list_omap fst]. by rewrite app_nil_r, permission_app, lock_after_app.
  - cbn. by rewrite Hb.
  - rewrite granted_snoc. done.
  - unfold session_trace in *. rewrite foldl_app, H4. cbn. by destruct (session_active s).
  - by apply E3, Forall_app_2, Forall_singleton.
Qed.

(** Power allowed, where it may be. *)
Lemma wp_allow why s l :
  inv s l -> grant_ok (shared_context s) ->
  wp (allow_power true why) (fun _ s' l' => inv s' l' /\ core s' = core s) s l.
Proof.
  intros [H1 H2 H3 H4 H5 H6 H7 H8] Hg. apply wp_bind, wp_get, wp_emit.
  destruct (safe_allow_power_on true why _ _ _ H1) as ([] & Hv & Hs).
  unfold run_val, run_state, run_out, wp, bsp_call in *. revert Hv Hs.
  destruct (allow_power_on true why (bsp s)) as [[r b] os]. cbn [fst snd]. intros _ Hs.
  destruct (bsp_log (shared_context s) os (l ++ [(bsp_allow_power_on true why, shared_context s)]))
    as (E1 & E2 & E3).
  split; [|done]. split; rewrite ?E1, ?E2, ?bsp_outs_app, ?bsp_outs_map; try done.
  - cbn [bsp_outs omap list_omap fst]. by rewrite app_nil_r, permission_app, lock_after_app.
  - intros _. rewrite granted_snoc. by eexists.
  - rewrite granted_snoc. by intros sh [= <-].
  - unfold session_trace in *. rewrite foldl_app, H4. cbn. by destruct (session_active s).
  - by apply E3, Forall_app_2, Forall_singleton.
Qed.
End Invariant.

#[export] Hint Resolve frames_ret frames_error frames_set_pwm frames_set_pwm_off frames_set_pwm_F
  frames_enable frames_bsp_setup frames_overcurrent frames_replug frames_switch
  frames_force_unlock frames_deny : charger.
#[export] Hint Extern 1 (frames (put_shared _)) => (apply frames_shared; intros; reflexivity) : charger.
#[export] Hint Extern 1 (frames (put_internal _)) => (apply frames_internal; intros; reflexivity) : charger.
#[export] Hint Extern 1 (frames (put _)) => (apply frames_put; intros; reflexivity) : charger.
#[export] Hint Extern 1 (frames (emit _)) => (apply frames_emit; reflexivity) : charger.

(** Actions made of such actions. *)
Ltac frames_steps :=
  repeat first
    [ solve [auto with charger] | (apply frames_get; intros) | (apply frames_bind; [|intros])
    | apply frames_if | apply frames_for; intros ].

Section Frames.
Context {M : Type} `{ErrorMonitor M} (w : world).

Lemma frames_pwm_off : frames (M := M) pwm_off.
Proof. unfold pwm_off. frames_steps. Qed.
Lemma frames_pwm_F : frames (M := M) pwm_F.
Proof. unfold pwm_F. frames_steps. Qed.
Lemma frames_update_pwm dc : frames (M := M) (update_pwm_now dc).
Proof. unfold update_pwm_now. frames_steps. Qed.
Hint Resolve frames_pwm_off frames_pwm_F frames_update_pwm : charger.

Lemma frames_pwm_changed dc : frames (M := M) (update_pwm_now_if_changed dc).
Proof. unfold update_pwm_now_if_changed. frames_steps. Qed.
Lemma frames_pwm_changed_ampere a : frames (M := M) (update_pwm_now_if_changed_ampere a).
Proof. unfold update_pwm_now_if_changed_ampere. frames_steps. Qed.
Lemma frames_pwm_5s a : frames (M := M) (update_pwm_max_every_5seconds_ampere a).
Proof. unfold update_pwm_max_every_5seconds_ampere. frames_steps. Qed.
Lemma frames_power_available : frames (M := M) power_available.
Proof. unfold power_available. frames_steps. Qed.
Lemma frames_over_current : frames (M := M) check_soft_over_current.
Proof. unfold check_soft_over_current. frames_steps. Qed.
Lemma frames_store uuid : frames (M := M) (store_session uuid).
Proof. unfold store_session. frames_steps. Qed.
Lemma frames_start_meters meters : frames (M := M) (start_meters w meters).
Proof.
  induction meters as [|i rest IH]; cbn [start_meters]; [apply frames_ret|].
  apply frames_get. intros s. apply frames_bind; [auto with charger|]. intros _.
  case_match; [done|done|]. frames_steps.
Qed.
Lemma frames_stop_meters id meters : frames (M := M) (stop_meters w id meters).
Proof.
  induction meters as [|i rest IH]; cbn [stop_meters]; [apply frames_ret|].
  apply frames_bind; [auto with charger|]. intros _. case_match; [frames_steps|done|apply frames_ret].
Qed.
Hint Resolve frames_pwm_changed frames_pwm_changed_ampere frames_pwm_5s frames_power_available
  frames_over_current frames_store frames_start_meters frames_stop_meters : charger.

Lemma frames_sleep ms : frames (M := M) (sleep_for ms).
Proof. unfold sleep_for. frames_steps. Qed.
Lemma frames_bcb_reset : frames (M := M) bcb_toggle_reset.
Proof. unfold bcb_toggle_reset. frames_steps. Qed.
Lemma frames_bcb_start : frames (M := M) bcb_toggle_detect_start_pulse.
Proof. unfold bcb_toggle_detect_start_pulse. frames_steps. Qed.
Lemma frames_bcb_stop : frames (M := M) bcb_toggle_detect_stop_pulse.
Proof. unfold bcb_toggle_detect_stop_pulse. frames_steps. Qed.
Lemma frames_bcb_detected : frames (M := M) bcb_toggle_detected.
Proof. unfold bcb_toggle_detected. frames_steps. Qed.
Lemma frames_clear_errors : frames (M := M) clear_errors_on_unplug.
Proof. unfold clear_errors_on_unplug. frames_steps. Qed.
Lemma frames_emergency : frames (M := M) emergency_shutdown.
Proof. unfold emergency_shutdown. frames_steps. Qed.
Lemma frames_error_shutdown : frames (M := M) error_shutdown.
Proof. unfold error_shutdown. frames_steps. Qed.
Hint Resolve frames_emergency frames_error_shutdown : charger.
Lemma frames_fatal : frames (M := M) stop_charging_on_fatal_error_internal.
Proof.
  unfold stop_charging_on_fatal_error_internal. apply frames_get. intros s.
  apply frames_bind; [case_match; frames_steps|]. intros err. frames_steps.
Qed.
End Frames.

#[export] Hint Resolve frames_pwm_off frames_pwm_F frames_update_pwm frames_pwm_changed
  frames_pwm_changed_ampere frames_pwm_5s frames_power_available frames_over_current frames_store
  frames_start_meters frames_stop_meters frames_sleep frames_bcb_reset frames_bcb_start
  frames_bcb_stop frames_bcb_detected frames_clear_errors frames_fatal : charger.
