(* ===== verification/ChargerInvariant.v ===== *)
(** * Every operation of the charger keeps the invariant *)
From S2P Require Import Prelude Effects AuthTypes IECStateMachine IECProofs ErrorHandling.
From S2P Require Import ChargerTypes Charger ChargerStateMachine ChargerProofs.
From stdpp Require Import base tactics list numbers strings.
From Stdlib Require Import QArith Qabs.
Open Scope Z_scope.
Open Scope everest_scope.

Section Rules.
Context {M : Type} `{ErrorMonitor M} (w : world).
Implicit Types (s : charger M) (l : list logged).

(** ** Using the invariant *)

Lemma frames_use {A} (m : CH M A) (Q : A -> charger M -> list logged -> Prop) s l :
  frames m -> inv s l -> (forall a s' l', inv s' l' -> core s' = core s -> Q a s' l') ->
  wp m Q s l.
Proof. intros Hm Hi HQ. eapply wp_mono; [by apply Hm|]. intros a s' l' []. by apply HQ. Qed.

Lemma frames_keeps {A} (m : CH M A) : frames m -> keeps inv m.
Proof. intros Hm s l Hi. by eapply frames_use. Qed.

(** What the invariant needs of the contexts. *)
Definition stage s :=
  (current_state s, transaction_active s, last_stop_transaction_reason s,
   t_step_EF_return_state s, t_step_X1_return_state s, switching_phases_return_state s).
Definition view s := (stage s, session_active s, session_uuid s).

Lemma core_stage s s' : core s' = core s -> stage s' = stage s.
Proof. intros E. injection E as E1 E2 E3 E4 E5 E6 E7 E8 E9 E10 E11 E12. unfold stage. congruence. Qed.

Lemma stage_route s s' :
  stage s' = stage s ->
  on_the_way s' = on_the_way s /\ (paid s' <-> paid s) /\ returns_ok s' = returns_ok s.
Proof.
  intros E. injection E as E1 E2 E3 E4 E5 E6. unfold on_the_way, paid, returns_ok.
  by rewrite E1, E2, E3, E4, E5, E6.
Qed.

Lemma stage_state s s' : stage s' = stage s -> current_state s' = current_state s.
Proof. by injection 1. Qed.

Lemma core_state s s' : core s' = core s -> current_state s' = current_state s.
Proof. by injection 1. Qed.

Lemma core_paid s s' : core s' = core s -> paid s -> paid s'.
Proof. intros E. by apply (stage_route s s' (core_stage _ _ E)). Qed.

Lemma inv_view s s' l : view s' = view s -> bsp s' = bsp s -> inv s l -> inv s' l.
Proof.
  intros E Eb [H1 H2 H3 H4 H5 H6 H7 H8]. injection E as E1 E2 E3 E4 E5 E6 E7 E8.
  assert (stage s' = stage s) as Es by (unfold stage; congruence).
  destruct (stage_route _ _ Es) as (R1 & R2 & R3).
  split; rewrite ?Eb, ?E7, ?E8, ?R1, ?R2, ?R3; done.
Qed.

Lemma keeps_put f :
  (forall s, view (f s) = view s) -> (forall s, bsp (f s) = bsp s) -> keeps inv (put f).
Proof. intros Hf Hb s l Hi. apply wp_modify. by apply (inv_view s). Qed.

Lemma keeps_shared f :
  (forall s, view (update shared_context f s) = view s) -> keeps inv (put_shared (M := M) f).
Proof. intros Hf. by apply keeps_put. Qed.

(** ** Changes of state *)

(** A state that may be entered: one that is paid for. *)
Definition target_ok s (st : EvseState.t) : Prop :=
  match st with
  | EvseState.T_step_EF => in_transaction (t_step_EF_return_state s) = true -> paid s
  | EvseState.T_step_X1 =>
      in_transaction (t_step_X1_return_state s)
      || (EvseState.eqb (t_step_X1_return_state s) EvseState.T_step_EF
          && in_transaction (t_step_EF_return_state s)) = true -> paid s
  | EvseState.SwitchPhases => False
  | _ => in_transaction st = true -> paid s
  end.

Lemma paid_target s st : paid s -> st <> EvseState.SwitchPhases -> target_ok s st.
Proof. intros Hp Hn. destruct st; try done; by intros _. Qed.

Lemma inv_go s l st :
  inv s l -> target_ok s st -> inv (update shared_context (assign current_state st) s) l.
Proof.
  intros [H1 H2 H3 H4 H5 H6 H7 H8] Ht. split; try done.
  - unfold on_the_way. cbn. by destruct st.
  - unfold returns_ok in *. cbn. apply andb_true_iff in H7 as [H7 _]. rewrite H7. by destruct st.
Qed.

Lemma wp_go (Q : unit -> charger M -> list logged -> Prop) s l st :
  inv s l -> target_ok s st ->
  (forall s', inv s' l -> s' = update shared_context (assign current_state st) s -> Q tt s' l) ->
  wp (go st) Q s l.
Proof. intros Hi Ht HQ. apply wp_modify. apply HQ; [|done]. by apply inv_go. Qed.

(** States outside of transactions can always be entered. *)
Definition free (st : EvseState.t) : bool :=
  match st with
  | EvseState.T_step_EF | EvseState.T_step_X1 => false
  | _ => negb (in_transaction st)
  end.

Lemma keeps_go st : free st = true -> keeps inv (go (M := M) st).
Proof. intros Hst s l Hi. apply wp_go; [done| |done]. by destruct st. Qed.

Lemma wp_go_paid s l st :
  inv s l -> paid s -> st <> EvseState.SwitchPhases -> wp (go (M := M) st) (fun _ => inv) s l.
Proof. intros Hi Hp Hst. apply wp_go; [done|by apply paid_target|done]. Qed.

(** A running transaction is paid for. *)
Lemma inv_running s l : inv s l -> in_transaction (current_state s) = true -> paid s.
Proof.
  intros Hi Hs. apply (inv_paid _ _ Hi). unfold on_the_way. by destruct (current_state s).
Qed.

Lemma active_paid s : transaction_active s = true -> paid s.
Proof. by left. Qed.

(** ** Sessions *)

(** The end of a session, and the start of one. *)
Lemma inv_session_changed s s' l e :
  inv s l -> stage s' = stage s -> bsp s' = bsp s ->
  session_trace (l ++ [e]) = Some (session_active s') ->
  (session_active s' = false -> session_uuid s' = ""%string) ->
  match e.1 with
  | signal_simple_event _ | signal_session_started_event _ _ => True
  | _ => False
  end -> inv s' (l ++ [e]).
Proof.
  intros [H1 H2 H3 H4 H5 H6 H7 H8] Es Eb Ht Hu He. destruct (stage_route _ _ Es) as (R1 & R2 & R3).
  assert (bsp_outs (l ++ [e]) = bsp_outs l /\ granted (l ++ [e]) = granted l) as [E1 E2].
  { rewrite granted_snoc. destruct e as [o sh]. rewrite bsp_outs_snoc; by destruct o. }
  split; rewrite ?Eb, ?E1, ?E2, ?R1, ?R2, ?R3; try done.
  apply Forall_app_2, Forall_singleton; [done|]. by destruct e as [[] sh].
Qed.

Lemma wp_stop_session s l :
  inv s l -> session_active s = true ->
  wp (stop_session (M := M)) (fun _ s' l' => inv s' l' /\ stage s' = stage s) s l.
Proof.
  intros Hi Ha. unfold stop_session, emit.
  apply wp_bind, wp_modify, wp_bind, wp_modify, wp_bind, wp_get, wp_emit, wp_modify.
  split; [|done]. apply (inv_session_changed s); try done.
  unfold session_trace. rewrite foldl_app. fold (session_trace l). by rewrite (inv_session _ _ Hi), Ha.
Qed.

Lemma wp_start_session authfirst s l :
  inv s l -> session_active s = false ->
  wp (start_session (M := M) w authfirst) (fun _ s' l' => inv s' l' /\ stage s' = stage s) s l.
Proof.
  intros Hi Ha. unfold start_session, emit.
  apply wp_bind, wp_modify, wp_bind, wp_modify, wp_get, wp_bind, wp_modify, wp_bind, wp_modify,
    wp_get, wp_get, wp_emit.
  split; [|done]. apply (inv_session_changed s); try done.
  unfold session_trace. rewrite foldl_app. fold (session_trace l). by rewrite (inv_session _ _ Hi), Ha.
Qed.

(** ** Transactions *)

(** Where the state machine is and leads to, and whether it is in a session. *)
Definition route s :=
  (current_state s, t_step_EF_return_state s, t_step_X1_return_state s,
   switching_phases_return_state s, session_active s).

Lemma core_route s s' : core s' = core s -> route s' = route s.
Proof. intros E. injection E as E1 E2 E3 E4 E5 E6 E7 E8 E9 E10 E11 E12. unfold route. congruence. Qed.

Lemma route_state s s' : route s' = route s -> current_state s' = current_state s.
Proof. by injection 1. Qed.

(** A change of what is paid for. *)
Lemma inv_settled s s' l :
  inv s l -> bsp s' = bsp s -> session_active s' = session_active s ->
  session_uuid s' = session_uuid s -> (on_the_way s' = true -> paid s') -> returns_ok s' = true ->
  inv s' l.
Proof.
  intros [H1 H2 H3 H4 H5 H6 H7 H8] Eb Ea Eu Hp Hr. split; rewrite ?Eb, ?Ea, ?Eu; done.
Qed.

Lemma wp_stop_transaction s l :
  inv s l -> wp (stop_transaction (M := M) w) (fun _ s' l' => inv s' l' /\ route s' = route s) s l.
Proof.
  intros Hi. unfold stop_transaction.
  apply wp_bind, wp_modify, wp_get, wp_bind, wp_modify. name_state s1.
  assert (inv s1 l) as Hi1 by (apply (inv_settled s); try done; [by right|apply Hi]).
  eapply (frames_use _ _ s1 l); [|exact Hi1|].
  - unfold clear_session. frames_steps.
  - intros _ s' l' Hi' E. split; [done|]. by rewrite (core_route _ _ E).
Qed.

Lemma wp_start_transaction s l :
  inv s l -> authorized s = true ->
  wp (start_transaction (M := M) w) (fun _ s' l' => inv s' l' /\ route s' = route s
    /\ transaction_active s' = true) s l.
Proof.
  intros Hi Ha. unfold start_transaction.
  apply wp_bind, wp_modify, wp_bind, wp_modify, wp_bind, wp_modify. name_state s1.
  assert (inv s1 l) as Hi1 by (apply (inv_settled s); try done; [by left|apply Hi]).
  apply wp_bind. eapply (frames_use _ _ s1 l); [auto with charger|exact Hi1|].
  intros b s2 l2 Hi2 E2.
  assert (route s2 = route s /\ transaction_active s2 = true /\ authorized s2 = true) as (Er & Et & Eh).
  { split_and!; [by rewrite (core_route _ _ E2)|by injection E2|].
    injection E2 as _ _ E _. by rewrite E. }
  apply wp_if; intros _; [|by apply wp_ret].
  apply wp_get, wp_bind, wp_mono with (Q := fun _ s3 l3 => inv s3 l3 /\ s3 = s2).
  { unfold store_session, emit. apply wp_get, wp_if; intros _; [|by apply wp_ret].
    apply wp_get, wp_emit. split; [by apply inv_log|done]. }
  intros _ s3 l3 [Hi3 ->]. apply wp_bind, wp_get, wp_emit, wp_ret. split_and!; [|done..].
  destruct Hi3 as [H1 H2 H3 H4 H5 H6 H7 H8]. split; try done; rewrite ?granted_snoc; try done.
  - by rewrite bsp_outs_snoc.
  - unfold session_trace in *. rewrite foldl_app, H4. by destruct (session_active s2).
  - by apply Forall_app_2, Forall_singleton.
Qed.
End Rules.

#[export] Hint Extern 1 (keeps inv (put_shared _)) =>
  (apply keeps_shared; intros; reflexivity) : charger.
#[export] Hint Extern 1 (keeps inv (put _)) => (apply keeps_put; intros; reflexivity) : charger.
#[export] Hint Extern 1 (keeps inv (go _)) => (apply keeps_go; reflexivity) : charger.
#[export] Hint Extern 2 (keeps inv _) => (apply frames_keeps; solve [frames_steps]) : charger.

Ltac keeps_steps :=
  repeat first
    [ solve [auto with charger] | apply kept_ret | (apply kept_get; intros)
    | (apply kept_bind; [|intros]) | apply kept_if | (apply kept_for; intros) ].

(** Go on after an action that touches nothing. *)
Ltac framed s l Hi E :=
  apply wp_bind; eapply frames_use; [solve [frames_steps] | eassumption | intros ? s l Hi E].

Section Operations.
Context {M : Type} `{ErrorMonitor M} (w : world).
Implicit Types (s : charger M) (l : list logged).

Lemma keeps_stop_transaction : keeps inv (stop_transaction (M := M) w).
Proof. intros s l Hi. eapply wp_mono; [by apply wp_stop_transaction|]. by intros ? ? ? []. Qed.
Hint Resolve keeps_stop_transaction : charger.

(** ** Authorization *)

Lemma wp_deauthorize s l :
  inv s l ->
  wp (deauthorize_internal (M := M)) (fun _ s' l' => inv s' l' /\ stage s' = stage s) s l.
Proof.
  intros Hi. unfold deauthorize_internal. apply wp_get, wp_if; intros Ha; [|by apply wp_ret].
  framed s1 l1 Hi1 E1.
  assert (wp (if negb (authorized s) then
          emit (signal_simple_event SessionEventEnum.PluginTimeout) ;;;
          (if raise_mrec9 s
           then error_call (raise_authorization_timeout_error
                              "No authorization was provided within timeout.")
           else eret tt) ;;;
          eret false
        else
          put_shared (assign authorized false) ;;; stop_session ;;; eret true)
      (fun _ s' l' => inv s' l' /\ stage s' = stage s) s1 l1) as Hquit; [|by destruct (current_state s); first [exact Hquit|apply wp_ret; split; [|apply core_stage]]].
  apply wp_if; intros _.
  - eapply frames_use; [frames_steps|exact Hi1|]. intros _ s2 l2 Hi2 E2. split; [done|].
    by rewrite (core_stage _ _ E2), (core_stage _ _ E1).
  - apply wp_bind, wp_modify.
    eapply (wp_bind stop_session), wp_mono; [apply wp_stop_session|].
    + by apply (inv_view s1).
    + injection E1 as _ _ _ _ E5 _. by rewrite <- Ha, <- E5.
    + intros _ s2 l2 [Hi2 E2]. apply wp_ret. split; [done|]. rewrite E2. exact (core_stage _ _ E1).
Qed.

Lemma keeps_deauthorize : keeps inv (deauthorize_internal (M := M)).
Proof. intros s l Hi. eapply wp_mono; [by apply wp_deauthorize|]. by intros ? ? ? []. Qed.
Hint Resolve keeps_deauthorize : charger.

Lemma keeps_authorize a token tariff : keeps inv (authorize (M := M) w a token tariff).
Proof.
  intros s l Hi. unfold authorize. apply wp_get, wp_if; intros _.
  - apply wp_bind, wp_modify, wp_bind, wp_modify, wp_bind. name_state s1.
    assert (inv s1 l) as Hi1 by (by apply (inv_view s)).
    assert (session_active s1 = session_active s) as Es by done. clearbody s1.
    apply wp_mono with (Q := fun _ => inv).
    + apply wp_if; intros Ha; [|by apply wp_ret]. apply negb_true_iff in Ha.
      eapply wp_mono; [apply wp_start_session; [done|congruence]|]. by intros ? ? ? [].
    + intros _ s2 l2 Hi2. revert s2 l2 Hi2.
      change (keeps inv (emit (signal_simple_event SessionEventEnum.Authorized) ;;;
        put_shared (M := M) (assign authorized true) ;;;
        put_shared (assign authorized_pnc
          (bool_decide (authorization_type token = AuthorizationType.PlugAndCharge))))).
      keeps_steps.
  - apply wp_bind, wp_mono with (Q := fun _ => inv).
    + apply wp_if; intros Ha; [|by apply wp_ret].
      eapply wp_mono; [by apply wp_stop_session|]. by intros ? ? ? [].
    + intros _ s2 l2 Hi2. apply wp_modify. by apply (inv_view s2).
Qed.

(** ** Pausing, resuming and stopping *)

Lemma keeps_cancel request : keeps inv (cancel_transaction (M := M) w request).
Proof.
  intros s l Hi. unfold cancel_transaction. apply wp_get, wp_if; intros Ha; [|by apply wp_ret].
  apply wp_bind, wp_mono with (Q := fun _ => inv).
  { refine ((_ : keeps inv _) _ _ Hi). destruct (reason request); keeps_steps. }
  intros _ s1 l1 Hi1. do 4 (apply wp_bind, wp_modify). name_state s2.
  assert (inv s2 l1) as Hi2 by (apply (inv_settled s1); try done; [by right|apply Hi1]).
  refine ((_ : keeps inv _) _ _ Hi2). keeps_steps.
Qed.

Lemma keeps_pause : keeps inv (pause_charging (M := M)).
Proof. unfold pause_charging. keeps_steps. Qed.

Lemma keeps_resume : keeps inv (resume_charging (M := M)).
Proof.
  intros s l Hi. unfold resume_charging. apply wp_get, wp_if; intros Ha.
  - apply andb_true_iff in Ha as [Ha _]. apply andb_true_iff in Ha as [_ Ha].
    apply wp_bind, wp_go; [done|by left|]. intros s1 Hi1 _.
    refine ((_ : keeps inv _) _ _ Hi1). keeps_steps.
  - apply wp_if; intros Hb; [|by apply wp_ret]. apply andb_true_iff in Hb as [Hb _].
    apply wp_bind, wp_go; [done|by left|]. intros. by apply wp_ret.
Qed.

Lemma eqb_state (a b : EvseState.t) : EvseState.eqb a b = true <-> a = b.
Proof. apply bool_decide_eq_true. Qed.

Lemma keeps_pause_for_power : keeps inv (pause_charging_wait_for_power_internal (M := M)).
Proof.
  intros s l Hi. unfold pause_charging_wait_for_power_internal.
  apply wp_get, wp_if; intros Hs; [|by apply wp_ret].
  apply wp_bind, wp_go; [done| |intros; by apply wp_ret]. intros _. apply (inv_running s l Hi).
  rewrite orb_true_iff, !eqb_state in Hs. by destruct Hs as [-> | ->].
Qed.

Lemma keeps_resume_power : keeps inv (resume_charging_power_available (M := M)).
Proof.
  intros s l Hi. unfold resume_charging_power_available.
  apply wp_get, wp_if; intros Hs; [|by apply wp_ret].
  apply andb_true_iff in Hs as [Ht _]. framed s1 l1 Hi1 E1.
  apply wp_if; intros _; [|by apply wp_ret].
  apply wp_bind, wp_go; [done| |intros; by apply wp_ret]. intros _. left. injection E1. congruence.
Qed.

(** A switch of phases begins in a running transaction. *)
Lemma wp_go_switch s l back :
  inv s l -> in_transaction (current_state s) = true ->
  back = EvseState.PrepareCharging \/ back = EvseState.WaitingForEnergy ->
  forall (n : bool), wp (put_shared (M := M) (assign switch_3ph1ph_threephase n) ;;;
      put_shared (assign switch_3ph1ph_threephase_ongoing true) ;;;
      put_internal (assign switching_phases_return_state back) ;;;
      go EvseState.SwitchPhases) (fun _ => inv) s l.
Proof.
  intros Hi Hs Hb n. pose proof (inv_running _ _ Hi Hs) as Hp.
  do 3 (apply wp_bind, wp_modify). apply wp_modify.
  destruct Hi as [H1 H2 H3 H4 H5 H6 H7 H8]. split; try done.
  unfold returns_ok in *. cbn. apply andb_true_iff in H7 as [H7 _]. rewrite H7.
  by destruct Hb as [-> | ->].
Qed.

Lemma keeps_switch_phases n : keeps inv (switch_three_phases (M := M) n).
Proof.
  intros s l Hi. unfold switch_three_phases. apply wp_get, wp_if; intros _; [by apply wp_ret|].
  apply wp_bind, wp_mono with (Q := fun _ => inv); [|intros; by apply wp_ret].
  destruct (current_state s) eqn:Hs;
    try (eapply frames_use; [solve [frames_steps]|exact Hi|done]).
  - apply wp_go_switch; [done|by rewrite Hs|by right].
  - apply wp_go_switch; [done|by rewrite Hs|by left].
Qed.

Lemma keeps_replug_request : keeps inv (evse_replug_request (M := M)).
Proof. unfold evse_replug_request. keeps_steps. Qed.

(** ** Enabling, HLC and data link *)

Lemma keeps_initial_publish : keeps inv (enable_disable_initial_state_publish (M := M)).
Proof.
  unfold enable_disable_initial_state_publish, enable_disable_source_table_update.
  apply kept_get. intros s. destruct (EvseState.eqb _ _); keeps_steps.
Qed.

Lemma keeps_enable_disable id source : keeps inv (enable_disable (M := M) id source).
Proof.
  unfold enable_disable, parse_enable_disable_source_table, enable_disable_source_table_update.
  apply kept_get. intros s. apply kept_bind; [auto with charger|]. intros _.
  apply kept_bind; [|intros; keeps_steps].
  apply kept_get. intros s1. destruct (winner _). keeps_steps.
Qed.

Lemma keeps_error_sequence : keeps inv (request_error_sequence (M := M)).
Proof.
  intros s l Hi. unfold request_error_sequence. apply wp_get.
  pose proof (inv_running _ _ Hi) as Hr.
  assert (forall st, current_state s = st ->
    st = EvseState.WaitingForAuthentication \/ st = EvseState.PrepareCharging ->
    wp (put_internal (assign t_step_EF_return_state st) ;;;
      put_internal (assign t_step_EF_return_ampere 0%Q) ;;;
      go EvseState.T_step_EF ;;;
      emit signal_slac_reset ;;;
      put_internal (M := M) (assign t_step_EF_return_pwm
        (if hlc_use_5percent_current_session s then PWM_5_PERCENT else 0%Q)))
      (fun _ => inv) s l) as Hstep.
  { intros st Hs Hst. do 3 (apply wp_bind, wp_modify). name_state s1.
    assert (inv s1 l) as Hi1; [|refine ((_ : keeps inv _) _ _ Hi1); keeps_steps].
    rewrite Hs in Hr. destruct Hi as [H1 H2 H3 H4 H5 H6 H7 H8]. split; try done.
    unfold returns_ok in *. subst s1. cbn. rewrite !andb_true_iff in H7. destruct H7 as [[_ H7] _].
    rewrite H7. by destruct Hst as [-> | ->]. }
  destruct (current_state s) eqn:Hs; try (by apply wp_ret); apply (Hstep _ eq_refl); auto.
Qed.

Lemma keeps_currentdemand : keeps inv (notify_currentdemand_started (M := M)).
Proof.
  intros s l Hi. unfold notify_currentdemand_started. apply wp_get, wp_if; intros Hs; [|by apply wp_ret].
  apply eqb_state in Hs. framed s1 l1 Hi1 E1. apply wp_go_paid; [done| |done].
  apply (inv_running _ _ Hi1). by rewrite (core_state _ _ E1), Hs.
Qed.

Lemma keeps_dlink_pause : keeps inv (dlink_pause (M := M)).
Proof. unfold dlink_pause. keeps_steps. Qed.
Lemma keeps_dlink_terminate : keeps inv (dlink_terminate (M := M)).
Proof. unfold dlink_terminate. keeps_steps. Qed.

Lemma keeps_dlink_error : keeps inv (dlink_error (M := M)).
Proof.
  intros s l Hi. unfold dlink_error. apply wp_bind, wp_modify, wp_get. name_state s1.
  assert (inv s1 l) as Hi1 by (by apply (inv_view s)). clearbody s1.
  apply wp_if; intros _; [|by apply wp_ret].
  do 6 (apply wp_bind, wp_modify). apply wp_modify.
  destruct Hi1 as [H1 H2 H3 H4 H5 H6 H7 H8]. by split.
Qed.
End Operations.
