(* ===== verification/ChargerLoop.v ===== *)
(** * The state machine of the charger keeps the invariant

    Every case of the switch, the loop, the reactions to the control pilot and
    the rest of the operations. *)
From S2P Require Import Prelude Effects AuthTypes IECStateMachine IECProofs ErrorHandling.
From S2P Require Import ChargerTypes Charger ChargerStateMachine ChargerProofs ChargerInvariant.
From stdpp Require Import base tactics list numbers strings.
From Stdlib Require Import QArith Qabs.
Open Scope Z_scope.
Open Scope everest_scope.

#[export] Hint Resolve keeps_stop_transaction keeps_deauthorize keeps_pause_for_power : charger.
#[export] Hint Extern 0 (keeps inv (when _ _)) => unfold when; apply kept_if : charger.
#[export] Hint Extern 0 (frames (when _ _)) => unfold when; apply frames_if : charger.

Section Cases.
Context {M : Type} `{ErrorMonitor M} (w : world).
Implicit Types (s : charger M) (l : list logged).

Lemma keeps_when (b : bool) (m : CH M unit) : keeps inv m -> keeps inv (when b m).
Proof. intros Hm. apply kept_if; [done|apply kept_ret]. Qed.

Lemma wp_when (b : bool) (m : CH M unit) (Q : unit -> charger M -> list logged -> Prop) s l :
  (b = true -> wp m Q s l) -> (b = false -> Q tt s l) -> wp (when b m) Q s l.
Proof. intros Ht Hf. apply wp_if; [done|]. intros Hb. by apply wp_ret, Hf. Qed.

Lemma keeps_case_Disabled i : keeps inv (case_Disabled (M := M) i).
Proof. unfold case_Disabled. apply keeps_when. keeps_steps. Qed.

Lemma keeps_case_Replug i : keeps inv (case_Replug (M := M) i).
Proof. unfold case_Replug. apply keeps_when. keeps_steps. Qed.

Lemma keeps_case_Idle i s l :
  inv s l -> current_state s = EvseState.Idle -> wp (case_Idle (M := M) i) (fun _ => inv) s l.
Proof.
  intros Hi Hs. unfold case_Idle. apply wp_when; [|done]. intros _.
  framed s1 l1 Hi1 E1. do 1 (apply wp_bind, wp_modify). apply wp_get. do 5 (apply wp_bind, wp_modify).
  name_state s2. assert (inv s2 l1) as Hi2 by (by apply (inv_view s1)).
  assert (current_state s2 = EvseState.Idle) as Hs2 by (rewrite <- Hs; exact (core_state _ _ E1)).
  clearbody s2. framed s3 l3 Hi3 E3. apply wp_bind. eapply wp_mono; [by apply wp_deauthorize|].
  intros _ s4 l4 [Hi4 E4]. apply wp_bind, wp_modify. name_state s5.
  assert (inv s5 l4) as Hi5; [|refine ((_ : keeps inv _) _ _ Hi5); keeps_steps].
  apply (inv_settled s4); try done; [|apply Hi4].
  unfold on_the_way. change (current_state s5) with (current_state s4).
  by rewrite (stage_state _ _ E4), (core_state _ _ E3), Hs2.
Qed.

(** ** Waiting for authentication *)

Lemma keeps_init_Waiting : keeps inv (init_WaitingForAuthentication (M := M) w).
Proof.
  intros s l Hi. unfold init_WaitingForAuthentication. framed s1 l1 Hi1 E1. framed s2 l2 Hi2 E2.
  framed s3 l3 Hi3 E3. apply wp_get, wp_bind, wp_mono with (Q := fun _ => inv).
  - apply wp_if; intros _; [by eapply frames_use; [frames_steps|exact Hi3|]|].
    apply wp_bind, wp_when.
    + intros Ha. apply negb_true_iff in Ha. eapply wp_mono; [by apply wp_start_session|].
      intros _ s4 l4 [Hi4 _]. by eapply frames_use; [frames_steps|exact Hi4|].
    + intros _. by eapply frames_use; [frames_steps|exact Hi3|].
  - intros _ s4 l4 Hi4. refine ((_ : keeps inv _) _ _ Hi4). keeps_steps.
Qed.

Lemma frames_read_pp : frames (read_pp (M := M) w).
Proof. unfold read_pp. frames_steps. Qed.

Lemma frames_warn : frames (warn_no_energy (M := M)).
Proof. unfold warn_no_energy. frames_steps. Qed.
Hint Resolve frames_read_pp frames_warn : charger.

(** The way into a transaction that was started. *)
Lemma keeps_proceed_EIM s l :
  inv s l -> transaction_active s = true -> wp (proceed_EIM (M := M)) (fun _ => inv) s l.
Proof.
  intros Hi Ha. pose proof Hi as [_ _ _ _ _ _ Hr _]. unfold returns_ok in Hr.
  unfold proceed_EIM. apply wp_get.
  repeat (apply wp_if; intros _); repeat (apply wp_bind, wp_modify); apply wp_modify;
    apply (inv_settled s); try done; try (intros _; by left);
    unfold returns_ok; cbn; rewrite !andb_true_iff in *; tauto.
Qed.

Lemma keeps_check_authorization : keeps inv (check_authorization (M := M) w).
Proof.
  intros s l Hi. unfold check_authorization. apply wp_get, wp_if; intros Ha.
  - apply andb_true_iff in Ha as [Ha _].
    apply wp_bind, wp_mono with (Q := fun _ s' l' => inv s' l' /\ transaction_active s' = true).
    + apply wp_if; intros Ht; [|apply wp_ret; split; [done|by apply negb_false_iff]].
      eapply wp_mono; [by apply wp_start_transaction|]. by intros ? ? ? (? & ? & ?).
    + intros b s1 l1 [Hi1 Ht]. apply wp_when; [|done]. intros _. by apply keeps_proceed_EIM.
  - apply wp_if; intros Hb; [|by apply wp_ret]. apply andb_true_iff in Hb as [Hb _].
    apply wp_bind. eapply wp_mono; [by apply wp_start_transaction|].
    intros b s1 l1 (Hi1 & _ & Ht). apply wp_when; [|done]. intros _. unfold proceed_PnC.
    apply wp_get. framed s2 l2 Hi2 E2. apply wp_go_paid; [done| |done].
    apply (core_paid _ _ E2). by left.
Qed.

Lemma keeps_case_Waiting i : keeps inv (case_WaitingForAuthentication (M := M) w i).
Proof.
  unfold case_WaitingForAuthentication. apply kept_bind; [apply keeps_when, keeps_init_Waiting|].
  intros _. apply kept_bind; [auto with charger|]. intros b.
  apply kept_if; [apply kept_ret|]. apply kept_bind; [auto with charger|]. intros _.
  apply keeps_check_authorization.
Qed.

(** ** The steps between PWM modes *)

Lemma frames_return_pwm dc : frames (return_pwm (M := M) dc).
Proof. unfold return_pwm. frames_steps. Qed.
Hint Resolve frames_return_pwm : charger.

Lemma keeps_case_SwitchPhases i t s l :
  inv s l -> current_state s = EvseState.SwitchPhases ->
  wp (case_SwitchPhases (M := M) i t) (fun _ => inv) s l.
Proof.
  intros Hi Hs. unfold case_SwitchPhases. apply wp_get. framed s1 l1 Hi1 E1.
  apply wp_when; [|done]. intros _. framed s2 l2 Hi2 E2. framed s3 l3 Hi3 E3.
  assert (core s3 = core s) as E by congruence.
  apply wp_go_paid; [done| |].
  - apply (inv_running _ _ Hi3). by rewrite (core_state _ _ E), Hs.
  - intros Hx. pose proof (inv_returns _ _ Hi) as Hr. unfold returns_ok in Hr.
    rewrite Hs, Hx, andb_false_r in Hr. done.
Qed.

Lemma keeps_case_T_step_EF i t s l :
  inv s l -> current_state s = EvseState.T_step_EF ->
  wp (case_T_step_EF (M := M) i t) (fun _ => inv) s l.
Proof.
  intros Hi Hs. unfold case_T_step_EF. framed s1 l1 Hi1 E1. apply wp_get, wp_if; intros _.
  - framed s2 l2 Hi2 E2.
    assert (t_step_EF_return_state s1 = t_step_EF_return_state s2) as -> by (by injection E2).
    pose proof (core_state _ _ E2) as Hs2. rewrite (core_state _ _ E1), Hs in Hs2.
    pose proof (inv_returns _ _ Hi2) as Hr. pose proof (inv_paid _ _ Hi2) as Hp.
    unfold on_the_way, returns_ok in *. rewrite Hs2 in Hp.
    apply wp_go; [done| |done]. by destruct (t_step_EF_return_state s2).
  - refine ((_ : keeps inv _) _ _ Hi1). apply keeps_when. keeps_steps.
Qed.

Lemma keeps_case_T_step_X1 i t s l :
  inv s l -> current_state s = EvseState.T_step_X1 ->
  wp (case_T_step_X1 (M := M) i t) (fun _ => inv) s l.
Proof.
  intros Hi Hs. unfold case_T_step_X1. framed s1 l1 Hi1 E1. apply wp_get, wp_when; [|done].
  intros _. framed s2 l2 Hi2 E2.
  assert (t_step_X1_return_state s1 = t_step_X1_return_state s2) as -> by (by injection E2).
  pose proof (core_state _ _ E2) as Hs2. rewrite (core_state _ _ E1), Hs in Hs2.
  pose proof (inv_returns _ _ Hi2) as Hr. pose proof (inv_paid _ _ Hi2) as Hp.
  unfold on_the_way, returns_ok in *. rewrite Hs2 in Hp. rewrite !andb_true_iff in Hr.
  apply wp_go; [done| |done]. destruct Hr as [[_ Hr] _]. by destruct (t_step_X1_return_state s2).
Qed.

(** ** Charging and pauses *)

(** Where the fatal error check lets the charger go on, there is none. *)
Lemma wp_fatal s l :
  inv s l ->
  wp (stop_charging_on_fatal_error_internal (M := M)) (fun b s' l' => inv s' l' /\ core s' = core s
    /\ (b = false -> shutdown_type s' = ShutdownType.None)) s l.
Proof.
  intros Hi. unfold stop_charging_on_fatal_error_internal. apply wp_get, wp_bind.
  apply wp_mono with (Q := fun b s' l' => inv s' l' /\ core s' = core s
    /\ (b = false -> shutdown_type s' = ShutdownType.None)).
  - destruct (shutdown_type s) eqn:Hs; [by apply wp_ret|..];
      framed s1 l1 Hi1 E1; by apply wp_ret.
  - intros b s1 l1 (Hi1 & E1 & Hb). apply wp_bind, wp_modify, wp_bind, wp_modify, wp_ret.
    split_and!; [by apply (inv_view s1)|done|done].
Qed.

Lemma keeps_prepare_AC t s l :
  inv s l -> current_state s = EvseState.PrepareCharging ->
  wp (prepare_AC (M := M) t) (fun _ => inv) s l.
Proof.
  intros Hi Hs. unfold prepare_AC. framed s1 l1 Hi1 E1.
  assert (paid s1) as Hp by (apply (inv_running _ _ Hi1); by rewrite (core_state _ _ E1), Hs).
  apply wp_if; intros _; [by apply wp_go_paid|].
  apply wp_get, wp_if; intros _.
  { framed s2 l2 Hi2 E2. apply wp_go_paid; [done|by apply (core_paid _ _ E2)|done]. }
  apply wp_if; intros _; [|apply wp_when; [intros _; by apply wp_go_paid|done]].
  do 4 (apply wp_bind, wp_modify). apply wp_modify. apply (inv_settled s1); try done.
  pose proof (inv_returns _ _ Hi1) as Hr. unfold returns_ok in *. cbn.
  rewrite !andb_true_iff in *. tauto.
Qed.

Lemma keeps_case_Prepare i t now s l :
  inv s l -> current_state s = EvseState.PrepareCharging ->
  wp (case_PrepareCharging (M := M) i t now) (fun _ => inv) s l.
Proof.
  intros Hi Hs. unfold case_PrepareCharging. apply wp_get. framed s1 l1 Hi1 E1.
  apply wp_bind, wp_mono with (Q := fun _ s' l' => inv s' l' /\ core s' = core s).
  { apply wp_when; [|done]. rewrite !andb_true_iff. intros (_ & Hh & Hc).
    eapply wp_mono; [apply wp_allow; [done|]|intros _ s2 l2 []; split; [done|congruence]].
    injection E1 as E2 E3 E4 E5 E6 E7 E8 E9 E10 _. split; [|right; split_and!; congruence].
    apply (inv_running _ _ Hi1). congruence || by rewrite E2, Hs. }
  intros _ s2 l2 [Hi2 E2]. apply wp_bind. eapply wp_mono; [by apply wp_fatal|].
  intros b s3 l3 (Hi3 & E3 & _). apply wp_if; intros _.
  { refine ((_ : keeps inv _) _ _ Hi3). keeps_steps. }
  apply wp_get. framed s4 l4 Hi4 E4. apply wp_when; [|done]. intros _.
  apply keeps_prepare_AC; [done|]. rewrite <- Hs. apply core_state. congruence.
Qed.

Lemma frames_signal_F : frames (signal_F_after_fault (M := M)).
Proof. unfold signal_F_after_fault. frames_steps. Qed.
Hint Resolve frames_signal_F : charger.

(** Full power is allowed in the state [Charging] without fatal error. *)
Lemma keeps_full_power s l :
  inv s l -> current_state s = EvseState.Charging -> shutdown_type s = ShutdownType.None ->
  wp (allow_power (M := M) true Reason.FullPowerCharging) (fun _ => inv) s l.
Proof.
  intros Hi Hs Hn. eapply wp_mono; [apply wp_allow; [done|]|by intros ? ? ? []].
  split; [|by left]. apply (inv_running _ _ Hi). by rewrite Hs.
Qed.

Lemma keeps_charge_AC i s l :
  inv s l -> current_state s = EvseState.Charging -> shutdown_type s = ShutdownType.None ->
  wp (charge_AC (M := M) i) (fun _ => inv) s l.
Proof.
  intros Hi Hs Hn. unfold charge_AC. framed s1 l1 Hi1 E1. framed s2 l2 Hi2 E2.
  apply wp_if; intros _; [refine ((_ : keeps inv _) _ _ Hi2); keeps_steps|].
  apply wp_get, wp_if; intros _; [|refine ((_ : keeps inv _) _ _ Hi2); apply keeps_when; keeps_steps].
  framed s3 l3 Hi3 E3. framed s4 l4 Hi4 E4. apply wp_bind, wp_mono with (Q := fun _ => inv).
  - assert (core s4 = core s) as E by congruence. injection E as E5 _ _ _ _ _ E6 _.
    apply keeps_full_power; congruence.
  - intros _ s5 l5 Hi5. refine ((_ : keeps inv _) _ _ Hi5). keeps_steps.
Qed.

Lemma keeps_case_Charging i s l :
  inv s l -> current_state s = EvseState.Charging ->
  wp (case_Charging (M := M) i) (fun _ => inv) s l.
Proof.
  intros Hi Hs. unfold case_Charging. framed s1 l1 Hi1 E1. framed s2 l2 Hi2 E2.
  apply wp_bind. eapply wp_mono; [by apply wp_fatal|]. intros b s3 l3 (Hi3 & E3 & Hn).
  assert (current_state s3 = EvseState.Charging) as Hs3.
  { rewrite <- Hs. apply core_state. congruence. }
  destruct b; [by apply wp_ret|]. specialize (Hn eq_refl). apply wp_get, wp_if; intros _.
  - apply wp_when; [intros _; by apply keeps_full_power|done].
  - by apply keeps_charge_AC.
Qed.

Lemma keeps_terminate_or_pause : keeps inv (terminate_or_pause (M := M)).
Proof.
  unfold terminate_or_pause. apply kept_get. intros s.
  destruct (hlc_charging_terminate_pause s); keeps_steps.
Qed.
Hint Resolve keeps_terminate_or_pause : charger.

Lemma keeps_case_PausedEV i s l :
  inv s l -> current_state s = EvseState.ChargingPausedEV ->
  wp (case_ChargingPausedEV (M := M) i) (fun _ => inv) s l.
Proof.
  intros Hi Hs. unfold case_ChargingPausedEV. apply wp_get. framed s1 l1 Hi1 E1.
  apply wp_if; intros _.
  - framed s2 l2 Hi2 E2. framed s3 l3 Hi3 E3. apply wp_bind, wp_mono with (Q := fun _ => inv).
    + apply wp_when; [|done]. intros _. apply wp_go_paid; [done| |done].
      apply (inv_running _ _ Hi3). rewrite (core_state s s3), Hs; [done|congruence].
    + intros _. apply keeps_terminate_or_pause.
  - refine ((_ : keeps inv _) _ _ Hi1). keeps_steps.
Qed.

Lemma keeps_case_PausedEVSE i : keeps inv (case_ChargingPausedEVSE (M := M) i).
Proof. unfold case_ChargingPausedEVSE. keeps_steps. Qed.

Lemma keeps_case_WaitingForEnergy i : keeps inv (case_WaitingForEnergy (M := M) i).
Proof. unfold case_WaitingForEnergy. keeps_steps. Qed.

Lemma keeps_case_Stopping i : keeps inv (case_StoppingCharging (M := M) i).
Proof.
  intros s l Hi. unfold case_StoppingCharging. apply wp_get.
  destruct (hlc_charging_active s); [|refine ((_ : keeps inv _) _ _ Hi); keeps_steps].
  framed s1 l1 Hi1 E1. framed s2 l2 Hi2 E2. apply wp_when; [|done].
  intros [_ Ha]%andb_true_iff. apply wp_bind, wp_go; [done| |].
  - apply paid_target; [|done]. left. injection E2. injection E1. congruence.
  - intros s3 Hi3 _. by eapply frames_use; [frames_steps|exact Hi3|].
Qed.

Lemma keeps_case_Finished i : keeps inv (case_Finished (M := M) w i).
Proof.
  intros s l Hi. unfold case_Finished. apply wp_get, wp_bind, wp_mono with (Q := fun _ => inv);
    [|intros ? s1 l1 Hi1; refine ((_ : keeps inv _) _ _ Hi1); keeps_steps].
  apply wp_when; [|done]. intros _.
  apply wp_bind, wp_mono with (Q := fun _ s' l' => inv s' l' /\ session_active s' = session_active s).
  - apply wp_when; [|done]. intros _. eapply wp_mono; [by apply wp_stop_transaction|].
    intros _ s1 l1 [Hi1 E1]. split; [done|]. by injection E1.
  - intros _ s1 l1 [Hi1 E1]. apply wp_bind, wp_mono with (Q := fun _ => inv).
    + apply wp_when; [|done]. intros Ha. eapply wp_mono; [apply wp_stop_session; congruence|].
      by intros ? ? ? [].
    + intros _ s2 l2 Hi2. refine ((_ : keeps inv _) _ _ Hi2). keeps_steps.
Qed.

(** ** The loop *)

Lemma keeps_switch i t now : keeps inv (state_switch (M := M) w i t now).
Proof.
  intros s l Hi. unfold state_switch. apply wp_get. destruct (current_state s) eqn:Hs.
  - by apply keeps_case_Disabled.
  - by apply keeps_case_Idle.
  - by apply keeps_case_Waiting.
  - by apply keeps_case_Prepare.
  - by apply keeps_case_WaitingForEnergy.
  - by apply keeps_case_Charging.
  - by apply keeps_case_PausedEV.
  - by apply keeps_case_PausedEVSE.
  - by apply keeps_case_Stopping.
  - by apply keeps_case_Finished.
  - by apply keeps_case_T_step_EF.
  - by apply keeps_case_T_step_X1.
  - by apply keeps_case_SwitchPhases.
  - by apply keeps_case_Replug.
Qed.
Hint Resolve keeps_switch : charger.

Lemma keeps_round : keeps inv (loop_round (M := M) w).
Proof. unfold loop_round, remember_state, soc_timeout, finish_switching_phases. keeps_steps. Qed.
Hint Resolve keeps_round : charger.

Lemma keeps_run_loop n : keeps inv (run_loop (M := M) w n).
Proof. induction n as [|n IH]; cbn [run_loop]; [apply kept_ret|]. keeps_steps. Qed.

Lemma keeps_run : keeps inv (run_state_machine (M := M) w).
Proof. apply keeps_run_loop. Qed.
Hint Resolve keeps_run : charger.

Lemma keeps_main_loop : keeps inv (main_loop_round (M := M) w).
Proof. unfold main_loop_round. keeps_steps. Qed.

Lemma keeps_main_start : keeps inv (main_thread_start (M := M)).
Proof. unfold main_thread_start. keeps_steps. Qed.

(** ** Events of the control pilot *)

Lemma keeps_cp_independent e : keeps inv (process_cp_events_independent (M := M) w e).
Proof. unfold process_cp_events_independent. apply kept_get. intros s. destruct e; keeps_steps. Qed.

Lemma keeps_cp_state e : keeps inv (process_cp_events_state (M := M) e).
Proof.
  intros s l Hi. unfold process_cp_events_state. apply wp_get.
  destruct (current_state s) eqn:Hs, e; try (refine ((_ : keeps inv _) _ _ Hi); solve [keeps_steps]).
  all: assert (paid s) as Hp by (apply (inv_running _ _ Hi); by rewrite Hs);
    apply wp_bind, wp_modify; name_state s1;
    assert (inv s1 l) as Hi1 by (by apply (inv_view s)).
  - apply wp_bind, wp_go; [done|by apply paid_target|]. intros s2 Hi2 _.
    refine ((_ : keeps inv _) _ _ Hi2). keeps_steps.
  - apply wp_if; intros _; [by apply wp_go_paid|]. refine ((_ : keeps inv _) _ _ Hi1). keeps_steps.
Qed.

Lemma keeps_process_event e : keeps inv (process_event (M := M) w e).
Proof.
  unfold process_event. pose proof (keeps_cp_state e). pose proof (keeps_cp_independent e).
  keeps_steps.
Qed.

(** ** The other operations *)

Lemma keeps_set_max_current c t : keeps inv (set_max_current (M := M) c t).
Proof. unfold set_max_current. keeps_steps. Qed.

Lemma keeps_cleanup : keeps inv (cleanup_transactions_on_startup (M := M) w).
Proof. unfold cleanup_transactions_on_startup, clear_session. keeps_steps. Qed.

Lemma keeps_error_thread : keeps inv (error_thread_round (M := M)).
Proof. unfold error_thread_round, process_error_event. keeps_steps. Qed.

Lemma keeps_setup v config soc tolerance noise :
  keeps inv (setup (M := M) v config soc tolerance noise).
Proof. unfold setup. keeps_steps. Qed.
End Cases.
