(* ===== verification/EvseSystem.v ===== *)
(** * The charger and what acts on it

    The threads of the EvseManager around the charger: its main loop and its
    error thread, the board support package and the IEC state machine with the
    events they signal ([EvseManager.cpp]), device errors, and the calls of the
    module's interfaces.  A history is any sequence of them, each as a whole step
    (what holds no mutex in the source also has its threads in
    [IECStateMachine] and [ErrorHandling]); every step comes with the answers of
    the environment. *)
From S2P Require Import Prelude Effects AuthTypes IECStateMachine IECProofs ErrorHandling.
From S2P Require Import ChargerTypes Charger ChargerStateMachine ChargerProofs ChargerInvariant.
From S2P Require Import ChargerLoop.
From stdpp Require Import base tactics list numbers strings.
From Stdlib Require Import QArith Qabs.
Open Scope Z_scope.
Open Scope everest_scope.

(** ** Operations *)

Section System.
Context {M : Type} `{ErrorMonitor M}.

(** The events among the outputs of the IEC state machine. *)
Definition events_of (os : list iec_output) : list CPEvent.t :=
  omap (fun o => match o with signal_event e => Some e | _ => None end) os.

(** Something happens at the IEC state machine, and the charger processes the
    events it signals. *)
Definition board (w : world) (op : iec_op) : CH M unit :=
  let* s := this in
  bsp_call (iec_op_action op) ;;;
  efor (events_of (run_out (iec_op_action op) (bsp s))) (process_event w).

Inductive charger_op : Type :=
| op_main_thread_start
| op_main_loop
| op_error_thread
| op_iec_feed (now : Z)
| op_board_event (e : BspEvent.t)
| op_connector_force_unlock
| op_set_three_phases (b : bool)
| op_cp_event (e : CPEvent.t)
| op_errors (op : eh_op M)
| op_time (steady system : Z)
| op_authorize (a : bool) (token : ProvidedIdToken) (tariff : list string)
| op_deauthorize
| op_cancel_transaction (request : StopTransactionRequest)
| op_pause_charging
| op_resume_charging
| op_pause_wait_for_power
| op_resume_power_available
| op_evse_replug
| op_switch_three_phases (n : bool)
| op_enable_disable (connector_id : Z) (source : EnableDisableSource)
| op_initial_publish
| op_set_max_current (c : Q) (valid_until : Z)
| op_current_drawn (l1 l2 l3 : Q)
| op_error_sequence
| op_matching_started (m : bool)
| op_currentdemand_started
| op_max_limits (l : DcEvseMaximumLimits)
| op_min_limits (l : DcEvseMinimumLimits)
| op_dlink_pause
| op_dlink_terminate
| op_dlink_error
| op_hlc_active
| op_hlc_allow_close (on : bool)
| op_stop_on_fatal_error
| op_cleanup
| op_signed_meter_values
| op_configure (ventilation : bool) (config : ConfigContext) (soc : bool) (tolerance noise : Q)
| op_connector_type (t : Connector_type.t).

Definition charger_action (w : world) (op : charger_op) : CH M unit :=
  match op with
  | op_main_thread_start => main_thread_start
  | op_main_loop => main_loop_round w
  | op_error_thread => error_thread_round
  | op_iec_feed now => board w (op_feed now)
  | op_board_event e => board w (op_bsp_event e)
  | op_connector_force_unlock => board w op_force_unlock
  | op_set_three_phases b => board w (op_three_phases b)
  | op_cp_event e => process_event w e
  | op_errors e => error_call (eh_action e)
  | op_time steady system =>
      put (fun s => update steady_clock (Z.add (Z.abs steady)) (assign system_clock system s))
  | op_authorize a token tariff => authorize w a token tariff
  | op_deauthorize => deauthorize ;;; eret tt
  | op_cancel_transaction request => cancel_transaction w request ;;; eret tt
  | op_pause_charging => pause_charging ;;; eret tt
  | op_resume_charging => resume_charging ;;; eret tt
  | op_pause_wait_for_power => pause_charging_wait_for_power ;;; eret tt
  | op_resume_power_available => resume_charging_power_available ;;; eret tt
  | op_evse_replug => evse_replug_request ;;; eret tt
  | op_switch_three_phases n => switch_three_phases n ;;; eret tt
  | op_enable_disable id source => enable_disable id source ;;; eret tt
  | op_initial_publish => enable_disable_initial_state_publish
  | op_set_max_current c t => set_max_current c t ;;; eret tt
  | op_current_drawn l1 l2 l3 => set_current_drawn_by_vehicle l1 l2 l3
  | op_error_sequence => request_error_sequence
  | op_matching_started m => set_matching_started m
  | op_currentdemand_started => notify_currentdemand_started
  | op_max_limits l => inform_new_evse_max_hlc_limits l
  | op_min_limits l => inform_new_evse_min_hlc_limits l
  | op_dlink_pause => dlink_pause
  | op_dlink_terminate => dlink_terminate
  | op_dlink_error => dlink_error
  | op_hlc_active => set_hlc_charging_active
  | op_hlc_allow_close on => set_hlc_allow_close_contactor on
  | op_stop_on_fatal_error => stop_charging_on_fatal_error ;;; eret tt
  | op_cleanup => cleanup_transactions_on_startup w
  | op_signed_meter_values =>
      get_stop_signed_meter_value ;;; get_start_signed_meter_value ;;; eret tt
  | op_configure v config soc tolerance noise => setup v config soc tolerance noise
  | op_connector_type t => set_connector_type t
  end.

Definition history : Type := list (world * charger_op).

Definition run_history (h : history) : CH M unit :=
  efor h (fun '(w, op) => charger_action w op).

(** ** The invariant of the system *)

Lemma keeps_board w op : quiet_op op = true -> keeps inv (board w op).
Proof.
  intros Hq. apply kept_get. intros s. apply kept_bind; [by apply frames_keeps, frames_bsp|].
  intros _. apply kept_for. intros e. apply keeps_process_event.
Qed.

Lemma keeps_action w op : keeps inv (charger_action w op).
Proof.
  destruct op; cbn [charger_action];
    lazymatch goal with
    | |- keeps _ (ebind _ (fun _ => eret _)) => apply kept_bind; [|intros; apply kept_ret]
    | _ => idtac
    end.
  - apply keeps_main_start.
  - apply keeps_main_loop.
  - apply keeps_error_thread.
  - by apply keeps_board.
  - by apply keeps_board.
  - by apply keeps_board.
  - by apply keeps_board.
  - apply keeps_process_event.
  - auto with charger.
  - auto with charger.
  - apply keeps_authorize.
  - apply keeps_deauthorize.
  - apply keeps_cancel.
  - apply keeps_pause.
  - apply keeps_resume.
  - apply keeps_pause_for_power.
  - apply keeps_resume_power.
  - apply keeps_replug_request.
  - apply keeps_switch_phases.
  - apply keeps_enable_disable.
  - apply keeps_initial_publish.
  - apply keeps_set_max_current.
  - unfold set_current_drawn_by_vehicle. auto with charger.
  - apply keeps_error_sequence.
  - unfold set_matching_started. auto with charger.
  - apply keeps_currentdemand.
  - unfold inform_new_evse_max_hlc_limits. auto with charger.
  - unfold inform_new_evse_min_hlc_limits. auto with charger.
  - apply keeps_dlink_pause.
  - apply keeps_dlink_terminate.
  - apply keeps_dlink_error.
  - unfold set_hlc_charging_active. auto with charger.
  - unfold set_hlc_allow_close_contactor. auto with charger.
  - unfold stop_charging_on_fatal_error. auto with charger.
  - apply keeps_cleanup.
  - unfold get_stop_signed_meter_value, get_start_signed_meter_value. keeps_steps.
  - apply keeps_setup.
  - unfold set_connector_type. auto with charger.
Qed.

Lemma keeps_history h : keeps inv (run_history h).
Proof. apply kept_for. intros [w op]. apply keeps_action. Qed.

Lemma run_history_snoc h w op s :
  run_state (run_history (h ++ [(w, op)])) s
  = run_state (charger_action w op) (run_state (run_history h) s).
Proof.
  revert s. induction h as [|[w' op'] h IH]; intros s; unfold run_history in *; cbn [app efor];
    unfold run_state, ebind in *.
  - cbn. by destruct (charger_action w op s) as [[[[]|[]] ?] ?].
  - destruct (charger_action w' op' s) as [[[[]|[]] s1] o1]. cbn. specialize (IH s1).
    destruct (efor (h ++ _) _ s1) as [[[[]|[]] s2] o2].
    by destruct (efor h _ s1) as [[[[]|[]] s3] o3].
Qed.

(** A new charger, on a new IEC state machine. *)
Lemma inv_new w mem lock_in_b errors type id :
  inv (new_Charger (M := M) w mem (new_IECStateMachine lock_in_b) errors type id) [].
Proof. split; try done. apply Forall_nil_2. Qed.

Lemma history_inv h w mem lock_in_b errors type id :
  let s := new_Charger (M := M) w mem (new_IECStateMachine lock_in_b) errors type id in
  inv (run_state (run_history h) s) (run_out (run_history h) s).
Proof.
  intros s. destruct (wp_run _ _ _ [] (keeps_history h s [] (inv_new _ _ _ _ _ _)))
    as (_ & _ & Hi). exact Hi.
Qed.
End System.
Arguments charger_op M : clear implicits.
Arguments history M : clear implicits.
