(* ===== verification/ChargerExample.v ===== *)
(** * Example sessions

    A charger with one meter, in AC without HLC and in DC, and histories of it
    for the concrete instances of the theorems; and histories in which the
    charger does what is not expected of it. *)
From S2P Require Import Prelude Effects AuthTypes IECStateMachine IECProofs ErrorHandling.
From S2P Require Import ChargerTypes Charger ChargerStateMachine ChargerProofs EvseSystem.
From stdpp Require Import base tactics list numbers strings.
From Stdlib Require Import QArith.
Open Scope Z_scope.
Open Scope everest_scope.

Definition errors_of_list : Type := list Error.

Definition ex_token : ProvidedIdToken :=
  mkProvidedIdToken None (mkIdToken "DEADBEEF" IdTokenType.ISO14443) None AuthorizationType.RFID
    None None.

Definition ex_world : world :=
  mkWorld (fun _ _ => TransactionRequestStatus.OK)
    (fun _ _ => mkStopResponse TransactionRequestStatus.OK None None) 1 Ampacity.A_32 None
    (fun _ => "session"%string).

(** Memory before the constructor runs. *)
Definition ex_shared : SharedContext :=
  mkShared false false false false false HlcTerminatePause.Unknown (mkMaximumLimits 0 0 0 None None)
    (mkMinimumLimits 0 0 0 None None) false None ex_token [] false false false 0 0 0 false false "" false
    EvseState.Idle None StartSessionReason.EVConnected (0, 0, 0)%Q ShutdownType.None
    ShutdownType.None 0 false false false None None.

Definition ex_config (mode : ChargeMode.t) : ConfigContext :=
  mkConfig false false false mode 10 false 7000 300 true false 0 SessionIdType.UUID.

Definition ex_internal : InternalContext :=
  mkInternal false 0 0 0 0 0 EvseState.Idle 0 0 EvseState.Idle EvseState.Idle 0 0 false
    ShutdownType.None 0 EvseState.Disabled EvseState.Disabled false false 0 false false 0 false.

Definition ex_errors : eh_state (list Error) := mkEh [] [] [] [] [] [] [] [] false.

Definition ex_memory : charger (list Error) :=
  mkCharger ex_shared (ex_config ChargeMode.AC) ex_internal 0 0 false false
    Connector_type.IEC62196Type2Cable "" true [] unassigned_source [] (new_IECStateMachine true)
    ex_errors 0 0.

Definition ex_new : charger (list Error) :=
  new_Charger ex_world ex_memory (new_IECStateMachine true) ex_errors
    Connector_type.IEC62196Type2Cable "EVSE1".

Definition with_world (ops : list (charger_op (list Error))) : history (list Error) :=
  map (fun op => (ex_world, op)) ops.

(** Plug in, authorize, ask for power. *)
Definition ex_start (mode : ChargeMode.t) : list (charger_op (list Error)) :=
  [op_configure false (ex_config mode) false 10 0; op_main_thread_start;
   op_board_event BspEvent.A; op_iec_feed 0; op_main_loop; op_set_max_current 16 1000000;
   op_board_event BspEvent.B; op_iec_feed 0; op_main_loop].

Definition ex_charging : list (charger_op (list Error)) :=
  ex_start ChargeMode.AC
  ++ [op_authorize true ex_token []; op_main_loop; op_iec_feed 0; op_board_event BspEvent.C;
      op_iec_feed 0; op_main_loop; op_iec_feed 0; op_board_event BspEvent.PowerOn].

Definition ex_state (ops : list (charger_op (list Error))) : charger (list Error) :=
  run_state (run_history (with_world ops)) ex_new.
Definition ex_log (ops : list (charger_op (list Error))) : list logged :=
  run_out (run_history (with_world ops)) ex_new.

(** ** Corner cases

    Histories in which the charger does what its comments or its callers do
    not expect. *)

(** The starts ([true]) and ends of transactions in a log. *)
Definition transactions (l : list logged) : list bool :=
  omap (fun e => match e.1 with
    | signal_transaction_started_event _ => Some true
    | signal_transaction_finished_event _ _ => Some false
    | _ => None
    end) l.

Definition ex_device_error (e : Error) : charger_op (list Error) :=
  op_errors (device_errors (mkEh [] [e] [] [] [] [] [] [] false)).
Definition ex_ground_failure : Error :=
  mkError "evse_board_support/MREC2GroundFailure" "" "RCD" Severity.High "".
Definition ex_high_temperature : Error :=
  mkError "evse_board_support/MREC19CableOverTempStop" "" "hot" Severity.Medium "".

(** In DC the preparation allows power before it looks at the errors, in every
    round: it is allowed again after the emergency shutdown took it away. *)
Definition ex_dc_fatal : list (charger_op (list Error)) :=
  ex_start ChargeMode.DC
  ++ [op_authorize true ex_token []; op_main_loop; op_hlc_allow_close true;
      op_cp_event CPEvent.CarRequestedPower; ex_device_error ex_ground_failure; op_error_thread;
      op_main_loop].

Example dc_power_allowed_in_emergency :
  current_state (ex_state ex_dc_fatal) = EvseState.PrepareCharging
  /\ granted (ex_log ex_dc_fatal) = None
  /\ shutdown_type (ex_state (ex_dc_fatal ++ [op_main_loop])) = ShutdownType.EmergencyShutdown
  /\ power_on_allowed (bsp (ex_state (ex_dc_fatal ++ [op_main_loop]))) = true.
Proof. vm_compute. repeat split. Qed.

(** A restart after an error of the data link starts a Plug&Charge transaction
    a second time. *)
Definition ex_pnc_token : ProvidedIdToken :=
  mkProvidedIdToken None (mkIdToken "EMAID" IdTokenType.eMAID) None AuthorizationType.PlugAndCharge
    None None.
Definition ex_pnc_restart : list (charger_op (list Error)) :=
  ex_start ChargeMode.DC
  ++ [op_authorize true ex_pnc_token []; op_main_loop; op_dlink_error; op_main_loop;
      op_time 3100 3100; op_main_loop; op_time 5000 8100; op_main_loop].

Example pnc_transaction_started_twice :
  transactions (ex_log ex_pnc_restart) = [true; true].
Proof. vm_compute. reflexivity. Qed.

(** A meter that fails leaves the transaction active: the next round goes on to
    prepare charging, although the start was never signalled. *)
Definition ex_broken_meter : world :=
  mkWorld (fun _ _ => TransactionRequestStatus.UNEXPECTED_ERROR)
    (fun _ _ => mkStopResponse TransactionRequestStatus.OK None None) 1 Ampacity.A_32 None
    (fun _ => "session"%string).
Definition ex_meter_failure : list (charger_op (list Error)) :=
  ex_start ChargeMode.AC ++ [op_authorize true ex_token []; op_main_loop; op_main_loop].

Example charging_prepared_without_meter :
  let h := map (fun op => (ex_broken_meter, op)) ex_meter_failure in
  let s := run_state (run_history h) ex_new in
  current_state s = EvseState.PrepareCharging /\ transaction_active s = true
  /\ transactions (run_out (run_history h) ex_new) = [].
Proof. vm_compute. repeat split. Qed.

(** Unplugging makes a disabled charger available. *)
Definition ex_disable : charger_op (list Error) :=
  op_enable_disable 1 (mkSource Enable_source.CSMS Enable_state.Disable 100).
Definition ex_enable : charger_op (list Error) :=
  op_enable_disable 1 (mkSource Enable_source.CSMS Enable_state.Enable 100).

Example unplugging_enables :
  let ops := ex_start ChargeMode.AC ++ [ex_disable; op_main_loop; op_cp_event CPEvent.CarUnplugged] in
  current_state (ex_state ops) = EvseState.Idle
  /\ (winner (enable_disable_source_table (ex_state ops))).1 = false.
Proof. vm_compute. repeat split. Qed.

(** Disabling and enabling again while a car charges drops the transaction
    without an end, and ends the session. *)
Example disabling_drops_transaction :
  let ops := ex_charging ++ [ex_disable; op_main_loop; ex_enable; op_main_loop] in
  transaction_active (ex_state ops) = false /\ session_active (ex_state ops) = false
  /\ transactions (ex_log ops) = [true].
Proof. vm_compute. repeat split. Qed.

(** A cancelled transaction can be resumed until the contactors are open. *)
Example cancelled_transaction_resumed :
  let ops := ex_charging
    ++ [op_cancel_transaction (mkStopTransactionRequest StopTransactionReason.Remote None);
        op_main_loop; op_resume_charging; op_main_loop; op_resume_power_available; op_main_loop] in
  current_state (ex_state ops) = EvseState.Charging /\ authorized (ex_state ops) = false.
Proof. vm_compute. repeat split. Qed.

(** A severe error does not turn the shutdown for a lesser one into an
    emergency shutdown. *)
Example no_escalation :
  let ops := ex_charging
    ++ [ex_device_error ex_high_temperature; op_error_thread;
        op_errors (device_errors
          (mkEh [] [ex_high_temperature; ex_ground_failure] [] [] [] [] [] [] false));
        op_error_thread; op_main_loop] in
  shutdown_type (ex_state ops) = ShutdownType.ErrorShutdown.
Proof. vm_compute. reflexivity. Qed.
