(* ===== verification/ErrorProperties.v ===== *)
(** * Errors stop the charger, and only they do

    [process_error] keeps the error [evse_manager/Inoperative] in step with the
    active fatal errors, and the events it sends keep the shutdown type of the
    charger in step with both: in every history of the system, where errors are
    processed one after the other, and in every interleaving of the threads that
    process them in which decisions are still right when they are acted on. *)
From S2P Require Import Prelude Effects AuthTypes IECStateMachine IECProofs ErrorHandling.
From S2P Require Import ChargerTypes Charger ChargerStateMachine ChargerTermination ChargerProofs.
From S2P Require Import EvseSystem ChargerExample.
From stdpp Require Import base tactics list numbers strings sets.
From Stdlib Require Import QArith Qabs.
Open Scope Z_scope.
Open Scope everest_scope.

(** The shutdown type after some events. *)
Definition shutdown_after (t : ShutdownType.t) (es : list ErrorHandlingEvents.t) : ShutdownType.t :=
  foldl (fun _ e => shutdown_of e) t es.

Section Errors.
Context {M : Type} `{ErrorMonitorLaws M}.
Implicit Types (e : eh_state M) (s : charger M) (l : list logged).

(** An error of this implementation prevents charging. *)
Definition fatal_in (m : M) (ignore_list : list string) : Prop :=
  exists err, err ∈ get_active_errors m /\ error_type err ∉ ignore_list.

Lemma is_fatal_spec m ignore_list :
  is_Some (is_fatal (get_active_errors m) ignore_list) <-> fatal_in m ignore_list.
Proof.
  unfold is_fatal, fatal_in. split.
  - intros [err Hf]. apply find_some in Hf as [Hin Hn]. exists err.
    split; [by apply list_elem_of_In|]. intros Hx. apply negb_true_iff in Hn.
    assert (existsb (String.eqb (error_type err)) ignore_list = true); [|congruence].
    apply existsb_exists. exists (error_type err). split; [by apply list_elem_of_In|].
    apply String.eqb_refl.
  - intros (err & Hin & Hn). destruct (List.find _ _) eqn:Hf; [done|].
    apply find_none with (x := err) in Hf; [|by apply list_elem_of_In].
    apply negb_false_iff, existsb_exists in Hf as (t & Ht & Heq). apply String.eqb_eq in Heq.
    subst t. by apply list_elem_of_In in Ht.
Qed.

Definition inoperative e : Prop := is_error_active Inoperative "" (p_evse e) = true.
Definition prevented e : Prop := is_Some (errors_prevent_charging e).

(** The errors of the devices. *)
Definition devices_prevent e : Prop :=
  is_Some (or_else (is_fatal (get_active_errors (r_bsp e)) ignore_errors.bsp)
    (or_else (first_fatal (r_connector_lock e) ignore_errors.connector_lock)
    (or_else (first_fatal (r_ac_rcd e) ignore_errors.ac_rcd)
    (or_else (first_fatal (r_imd e) ignore_errors.imd)
    (or_else (first_fatal (r_powersupply e) ignore_errors.powersupply)
    (or_else (first_fatal (r_powermeter e) ignore_errors.powermeter)
       (first_fatal (r_over_voltage_monitor e) ignore_errors.over_voltage_monitor))))))).

Lemma prevented_spec e :
  prevented e <-> fatal_in (p_evse e) ignore_errors.evse \/ devices_prevent e.
Proof.
  unfold prevented, devices_prevent, errors_prevent_charging. rewrite <- is_fatal_spec.
  set (d := or_else (is_fatal (get_active_errors (r_bsp e)) _) _). clearbody d.
  destruct (is_fatal _ _); cbn; [|split; [by right|]]; [naive_solver|].
  intros [[? ?]|?]; done.
Qed.

(** Inoperative does not count itself. *)
Lemma fatal_same m m' :
  (forall err, error_type err <> Inoperative ->
     err ∈ get_active_errors m' <-> err ∈ get_active_errors m) ->
  fatal_in m' ignore_errors.evse <-> fatal_in m ignore_errors.evse.
Proof.
  intros Hm. unfold fatal_in. split; intros (err & Hin & Hn); exists err; (split; [|done]);
    apply Hm; try done; intros Hx; apply Hn; rewrite Hx; by left.
Qed.

Lemma inoperative_key caused_by e : has_key Inoperative "" (inoperative_error caused_by e).
Proof. apply (create_error_spec Inoperative "" (error_type caused_by) Severity.High). Qed.

Lemma raised_active err m :
  is_error_active (error_type err) (error_sub_type err) (raise_error err m) = true.
Proof.
  apply is_error_active_spec. destruct (is_error_active (error_type err) (error_sub_type err) m) eqn:Ha.
  - pose proof (raise_error_again err m Ha) as Hr. apply is_error_active_spec in Ha as (e' & Hin & Hk).
    exists e'. split; [by apply Hr|done].
  - exists err. split; [|done]. apply (raise_error_spec err m Ha). by left.
Qed.

Lemma active_counts e : inoperative e -> Nat.eqb (error_count e) 0 = false.
Proof.
  intros (err & Hin & _)%is_error_active_spec. apply Nat.eqb_neq. unfold error_count.
  assert (length (get_active_errors (p_evse e)) <> 0%nat); [|lia].
  intros Hz. apply nil_length_inv in Hz. rewrite Hz in Hin. by apply elem_of_nil in Hin.
Qed.

(** The error and the events in step. *)
Definition in_step (t : ShutdownType.t) e : Prop :=
  (inoperative e <-> prevented e) /\ (t = ShutdownType.None <-> ~ inoperative e).

Lemma raise_same caused_by e err :
  error_type err <> Inoperative ->
  err ∈ get_active_errors (raise_error (inoperative_error caused_by e) (p_evse e))
  <-> err ∈ get_active_errors (p_evse e).
Proof.
  intros Hn. destruct (inoperative_key caused_by e) as [K1 K2].
  destruct (is_error_active Inoperative "" (p_evse e)) eqn:Ha.
  - apply raise_error_again. by rewrite K1, K2.
  - rewrite raise_error_spec; [|by rewrite K1, K2]. split; [|by right].
    intros [->|?]; [|done]. by destruct Hn.
Qed.

Lemma process_error_in_step t e :
  (t = ShutdownType.None <-> ~ inoperative e) ->
  wp process_error (fun _ e' os => in_step (shutdown_after t (map event_of os)) e') e [].
Proof.
  intros Ht. unfold process_error. apply wp_get.
  destruct (errors_prevent_charging e) as [cause|] eqn:Hp; apply wp_bind.
  - assert (prevented e) as Hpe by (by exists cause). unfold raise_inoperative_error. apply wp_get.
    destruct (is_error_active Inoperative "" (p_evse e)) eqn:Ha.
    { apply wp_ret, wp_get. rewrite active_counts by done. apply wp_ret.
      split; [|exact Ht]. split; [done|]. by intros _. }
    apply wp_bind, wp_modify. fold (inoperative_error cause e).
    set (e' := update p_evse (raise_error (inoperative_error cause e)) e).
    assert (inoperative e') as Hi.
    { destruct (inoperative_key cause e) as [K1 K2]. unfold inoperative. rewrite <- K1, <- K2.
      apply raised_active. }
    assert (prevented e') as Hpe'.
    { apply prevented_spec. apply prevented_spec in Hpe as [Hf|Hd]; [left|by right].
      by apply (fatal_same (p_evse e)), Hf; intros; apply raise_same. }
    apply wp_if; intros _; apply wp_emit, wp_get; rewrite active_counts by done; apply wp_ret;
      (split; [done|]); cbn; (split; [done|]); by intros Hx; destruct (Hx Hi).
  - assert (~ prevented e) as Hpe by (intros [x Hx]; congruence). unfold clear_inoperative_error.
    apply wp_get. destruct (is_error_active Inoperative "" (p_evse e)) eqn:Ha.
    + apply wp_bind, wp_modify, wp_emit, wp_get.
      set (e' := update p_evse (clear_error Inoperative "") e).
      assert (~ inoperative e') as Hi.
      { intros (err & Hin & Hk)%is_error_active_spec. by apply clear_error_spec in Hin as [_ Hn]. }
      assert (~ prevented e') as Hpe'.
      { intros Hx. apply Hpe, prevented_spec. apply prevented_spec in Hx as [Hf|Hd]; [left|by right].
        destruct Hf as (err & Hin & Hn). exists err. split; [|done].
        by apply clear_error_spec in Hin as [Hin _]. }
      apply wp_if; intros _; [apply wp_emit|apply wp_ret]; (split; [done|]); cbn; done.
    + apply wp_ret, wp_get.
      assert (~ inoperative e) as Hi by (unfold inoperative; congruence).
      apply wp_if; intros _; [apply wp_emit|apply wp_ret]; (split; [done|]); cbn; [done|]. exact Ht.
Qed.

(** ** Every operation of the error handling *)

(** An own error that is not Inoperative leaves that one alone. *)
Lemma own_raise_inoperative type sub d sev e :
  type <> Inoperative ->
  inoperative (update p_evse (raise_error (create_error type sub d sev)) e) <-> inoperative e.
Proof.
  intros Hn. destruct (create_error_spec type sub d sev) as [[K1 K2] _].
  unfold inoperative. rewrite !is_error_active_spec. cbn [update p_evse].
  set (err := create_error type sub d sev) in *.
  destruct (is_error_active (error_type err) (error_sub_type err) (p_evse e)) eqn:Ha.
  - split; intros (x & Hin & Hk); exists x; (split; [|done]); by apply (raise_error_again err _ Ha).
  - split; intros (x & Hin & Hk); exists x; (split; [|done]).
    + apply (raise_error_spec err _ Ha) in Hin as [->|?]; [|done]. destruct Hk as [Hk _]. congruence.
    + apply (raise_error_spec err _ Ha). by right.
Qed.

Lemma own_clear_inoperative type sub e :
  type <> Inoperative ->
  inoperative (update p_evse (clear_error type sub) e) <-> inoperative e.
Proof.
  intros Hn. unfold inoperative. rewrite !is_error_active_spec. cbn [update p_evse].
  split; intros (x & Hin & Hk); exists x; (split; [|done]).
  - by apply clear_error_spec in Hin as [? _].
  - apply clear_error_spec. split; [done|]. intros [Hx _]. destruct Hk as [Hk _]. congruence.
Qed.

Lemma raise_own_in_step type sub d sev t e :
  type <> Inoperative -> in_step t e ->
  wp (raise_own type sub d sev)
    (fun _ e' os => in_step (shutdown_after t (map event_of os)) e') e [].
Proof.
  intros Hn [_ Ht]. apply wp_bind, wp_modify, process_error_in_step. by rewrite own_raise_inoperative.
Qed.

Lemma clear_own_in_step type sub t e :
  type <> Inoperative -> in_step t e ->
  wp (clear_own type sub) (fun _ e' os => in_step (shutdown_after t (map event_of os)) e') e [].
Proof.
  intros Hn Hs. apply wp_get, wp_if; intros _; [|by apply wp_ret].
  apply wp_bind, wp_modify, process_error_in_step. destruct Hs. by rewrite own_clear_inoperative.
Qed.

Lemma eh_action_in_step op t e :
  in_step t e ->
  wp (eh_action op) (fun _ e' os => in_step (shutdown_after t (map event_of os)) e') e [].
Proof.
  intros Hs. destruct op; cbn [eh_action];
    try (by apply raise_own_in_step); try (by apply clear_own_in_step).
  - apply wp_bind, wp_modify, process_error_in_step. by destruct Hs.
  - apply wp_get, wp_bind, wp_if; intros _; [apply wp_modify|apply wp_ret];
      apply process_error_in_step; destruct Hs; [|done]. by rewrite own_clear_inoperative.
Qed.

(** ** The charger follows *)

Definition tracked s l : Prop :=
  in_step (shutdown_after (shutdown_type s) (error_handling_event_queue s)) (error_handling s).

Lemma tracked_stays {A} (m : CH M A) :
  stays (fun s => (shutdown_type s, error_handling_event_queue s, error_handling s)) m ->
  keeps tracked m.
Proof.
  intros Hm s l Ht. eapply wp_stays; [apply Hm|]. unfold tracked in *. by intros ? s' ? [= -> -> ->].
Qed.

Lemma tracked_error op : keeps tracked (error_call (eh_action op)).
Proof.
  intros s l Ht. pose proof (eh_action_in_step op _ _ Ht) as Hw. unfold wp, error_call in *.
  destruct (eh_action op (error_handling s)) as [[[r|[]] e] os]. cbn in *.
  unfold tracked, shutdown_after in *. cbn. by rewrite foldl_app.
Qed.

Lemma tracked_meters w meters : keeps tracked (start_meters (M := M) w meters).
Proof.
  induction meters as [|i rest IH]; cbn [start_meters]; [apply kept_ret|].
  apply kept_get. intros s. apply kept_bind; [apply tracked_stays; stays_steps|]. intros _.
  destruct (start_response w i _); [done|done|]. apply kept_if; [|done].
  apply kept_bind; [|intros; apply kept_ret].
  apply (tracked_error (powermeter_error "Failed to start transaction on the power meter")).
Qed.

Lemma tracked_thread : keeps tracked (error_thread_round (M := M)).
Proof.
  intros s l Ht. unfold error_thread_round. apply wp_get, wp_bind, wp_modify.
  unfold tracked in Ht. name_state s1.
  assert (shutdown_type s1 = shutdown_type s /\ error_handling_event_queue s1 = []
    /\ error_handling s1 = error_handling s) as (E1 & E2 & E3) by done.
  clearbody s1. rewrite <- E1, <- E3 in Ht. clear E1 E3.
  generalize dependent s1. generalize (error_handling_event_queue s) as q. clear s.
  intros q. induction q as [|ev q IH]; intros s1 Ht E2; cbn [efor].
  { apply wp_ret. unfold tracked. by rewrite E2. }
  apply wp_bind, wp_modify. by apply IH.
Qed.
End Errors.

(** The actions on the error handling inside the charger. *)
Ltac tracked_leaf _ :=
  lazymatch goal with
  | |- keeps _ (start_meters _ _) => apply tracked_meters
  | |- keeps _ (error_call (raise_overcurrent_error ?d)) => apply (tracked_error (overcurrent_error d))
  | |- keeps _ (error_call (raise_authorization_timeout_error ?d)) =>
      apply (tracked_error (authorization_timeout_error d))
  | |- keeps _ (error_call clear_overcurrent_error) => apply (tracked_error overcurrent_cleared)
  | |- keeps _ (error_call clear_internal_error) => apply (tracked_error internal_cleared)
  | |- keeps _ (error_call clear_powermeter_transaction_start_failed_error) =>
      apply (tracked_error powermeter_cleared)
  | |- keeps _ (error_call clear_authorization_timeout_error) =>
      apply (tracked_error authorization_timeout_cleared)
  | |- keeps _ (error_call clear_isolation_resistance_fault) =>
      apply (tracked_error isolation_cleared)
  | |- keeps _ (error_call clear_cable_check_fault) => apply (tracked_error cable_check_cleared)
  | |- keeps _ (error_call (eh_action _)) => apply tracked_error
  | _ => apply tracked_stays; stays_steps
  end.
Ltac tracked_steps := repeat walk_step tracked_leaf.

Section System.
Context {M : Type} `{ErrorMonitorLaws M} (w : world).

Lemma tracked_switch i t now : keeps tracked (state_switch (M := M) w i t now).
Proof. tracked_steps. Qed.

Lemma tracked_run : keeps tracked (run_state_machine (M := M) w).
Proof.
  unfold run_state_machine. induction max_mainloop_runs as [|n IH]; cbn [run_loop]; [apply kept_ret|].
  apply kept_bind.
  - unfold loop_round. repeat first [apply tracked_switch | walk_step tracked_leaf].
  - intros b. apply kept_if; [apply kept_ret|]. apply kept_get. intros s.
    apply kept_if; [apply kept_ret|done].
Qed.

Lemma tracked_event e : keeps tracked (process_event (M := M) w e).
Proof.
  unfold process_event. repeat first [apply tracked_run | walk_step tracked_leaf].
Qed.

Lemma tracked_action op : keeps tracked (charger_action (M := M) w op).
Proof.
  destruct op; cbn [charger_action];
    repeat first [ apply tracked_thread | apply tracked_event | apply tracked_run | walk_step tracked_leaf ].
Qed.
End System.

Lemma tracked_history {M} `{ErrorMonitorLaws M} (h : history M) : keeps tracked (run_history h).
Proof. apply kept_for. intros [w op]. apply tracked_action. Qed.

(** When errors are processed one after the other: in every history of a charger that
    starts without errors, the error Inoperative is active exactly when an active
    error of the module or of its devices prevents charging, and once the error
    thread has caught up the charger has a shutdown pending exactly then. *)
Theorem shutdown_follows_whole_operations {M} `{ErrorMonitorLaws M} (h : history M) w mem lock_in_b errors type id :
  ~ inoperative errors -> ~ prevented errors ->
  let s := run_state (run_history h)
             (new_Charger w mem (new_IECStateMachine lock_in_b) errors type id) in
  (inoperative (error_handling s) <-> prevented (error_handling s))
  /\ (error_handling_event_queue s = [] ->
      shutdown_type s = ShutdownType.None <-> ~ prevented (error_handling s)).
Proof.
  intros Hi Hp s.
  assert (tracked (new_Charger w mem (new_IECStateMachine lock_in_b) errors type id) []) as Ht0.
  { split; [|split; [done|reflexivity]]. split; [by intros Hx|by intros Hx%Hp]. }
  destruct (wp_run _ _ _ _ (tracked_history h _ [] Ht0)) as (_ & _ & Ht). fold s in Ht.
  unfold tracked in Ht. destruct Ht as [Hin Hsh]. split; [done|]. intros Hq.
  rewrite Hq in Hsh. cbn in Hsh. by rewrite <- Hin.
Qed.

Lemma shutdown_follows_whole_operations_witness :
  let ops := ex_charging ++ [ex_device_error ex_ground_failure; op_error_thread] in
  shutdown_type (ex_state ops) <> ShutdownType.None /\ inoperative (error_handling (ex_state ops)).
Proof.
  intros ops.
  assert (shutdown_type (ex_state ops) <> ShutdownType.None) as Hs by (vm_compute; discriminate).
  split; [exact Hs|].
  assert (~ inoperative ex_errors) as Hi by (vm_compute; discriminate).
  assert (~ prevented ex_errors) as Hp by (vm_compute; intros [x Hx]; discriminate).
  pose proof (shutdown_follows_whole_operations (with_world ops) ex_world ex_memory true ex_errors
    Connector_type.IEC62196Type2Cable "EVSE1" Hi Hp) as Hf. cbv zeta in Hf. fold ex_new in Hf.
  destruct Hf as [Hf _]. unfold ex_state. apply Hf.
  eexists. vm_compute. reflexivity.
Defined.

(** ** Threads *)

Import ErrorThreads.

(** A thread that has the errors still to process; that changes Inoperative and tells
    the charger; that has still to tell it. *)
Definition pending {M} (p : point M) : bool := match p with reads _ | acts _ => true | _ => false end.
Definition deciding {M} (p : point M) : bool := match p with reads _ | acts _ | sets _ => true | _ => false end.
Definition acting {M} (p : point M) : bool := match p with sets _ | tells _ => true | _ => false end.
Definition telling {M} (p : point M) : bool := match p with tells _ => true | _ => false end.

Section Threads.
Context {M : Type} `{ErrorMonitorLaws M}.
Implicit Types (e : eh_state M) (c : pool M) (p q : point M).

Definition prevents e : bool := bool_decide (is_Some (errors_prevent_charging e)).

(** The turns at which a decision is still right: a thread acts while its decision
    agrees with the active errors and no other one is acting; all errors are
    announced as cleared while Inoperative is not active. *)
Definition calm c (t : turn M) : bool :=
  match t with
  | spawn _ => true
  | go i =>
      match threads c !! i with
      | Some (acts fatal) =>
          Bool.eqb (bool_decide (is_Some fatal)) (prevents (shared c)) && negb (existsb acting (threads c))
      | Some announces => negb (is_error_active Inoperative "" (p_evse (shared c)))
      | _ => true
      end
  end.
Fixpoint undisturbed (l : list (turn M)) c : bool :=
  match l with
  | [] => true
  | t :: l' => calm c t && undisturbed l' (take_turn c t)
  end.

(** The shutdown the charger has been told. *)
Definition told_shutdown c : ShutdownType.t := shutdown_after ShutdownType.None (map event_of (told c)).

Definition waiting (l : list (point M)) : Prop := exists j q, l !! j = Some q /\ pending q = true.
Definition thread_ok e (others : Prop) p : Prop :=
  match p with
  | sets fatal => (inoperative e <-> ~ is_Some fatal) /\ ((is_Some fatal <-> prevented e) \/ others)
  | tells fatal => inoperative e <-> is_Some fatal
  | _ => True
  end.

Record threads_inv c : Prop := mkThreadsInv {
  ti_thread : forall i p, threads c !! i = Some p -> thread_ok (shared c) (waiting (threads c)) p;
  ti_one : forall i j p q, threads c !! i = Some p -> threads c !! j = Some q ->
    acting p = true -> acting q = true -> i = j;
  ti_told : (exists i p, threads c !! i = Some p /\ telling p = true) \/
    (told_shutdown c = ShutdownType.None <-> ~ inoperative (shared c));
  ti_step : (forall i p, threads c !! i = Some p -> deciding p = false) ->
    inoperative (shared c) <-> prevented (shared c);
}.

Lemma not_acting_ok e P p : acting p = false -> thread_ok e P p.
Proof. by destruct p. Qed.

(** One thread moves, the others stay: what is to be shown of it. *)
Lemma threads_inv_move c i p e' o p' :
  threads_inv c -> threads c !! i = Some p ->
  let alone := forall j q, j <> i -> threads c !! j = Some q -> acting q = false in
  let c' := mkPool e' (told c ++ o) (<[i:=p']> (threads c)) in
  (alone \/ (inoperative e' <-> inoperative (shared c)) /\
    (pending p' = true \/ (prevented e' <-> prevented (shared c)) /\ pending p = false)) ->
  (acting p' = true -> alone) ->
  thread_ok e' (waiting (threads c')) p' ->
  (telling p' = true \/ (told_shutdown c' = ShutdownType.None <-> ~ inoperative e') \/
    ((told_shutdown c' = ShutdownType.None <-> ~ inoperative e') <->
     (told_shutdown c = ShutdownType.None <-> ~ inoperative (shared c))) /\ telling p = false) ->
  (deciding p' = false -> (forall j q, j <> i -> threads c !! j = Some q -> deciding q = false) ->
   inoperative e' <-> prevented e') ->
  threads_inv c'.
Proof.
  intros [Hok Hone Htold Hstep] Hp alone c' Hothers Hact Hp' Ht Hd.
  assert (threads c' !! i = Some p') as Hi by (apply list_lookup_insert_eq; by eapply lookup_lt_Some).
  assert (forall j, j <> i -> threads c' !! j = threads c !! j) as Hj
    by (intros j Hne; apply list_lookup_insert_ne; done).
  split.
  - intros j q Hq. destruct (decide (j = i)) as [->|Hne]; [rewrite Hi in Hq; by injection Hq as <-|]. rewrite Hj in Hq by done.
    destruct Hothers as [Ha|[Ein Hpend]]; [by apply not_acting_ok, (Ha j)|].
    specialize (Hok j q Hq). unfold thread_ok in *. cbn [shared c'].
    destruct q; try done; rewrite Ein; try done. destruct Hok as [Hf Hor]. split; [done|].
    destruct Hpend as [Hpd|[Epr Hpd]]; [right; by exists i, p'|].
    destruct Hor as [Hor|(k & r & Hk & Hr)]; [left; by rewrite Epr|right].
    exists k, r. destruct (decide (k = i)) as [->|]; [congruence|]. by rewrite Hj.
  - intros j k q r Hq Hr Aq Ar. destruct (decide (j = i)) as [->|Hji], (decide (k = i)) as [->|Hki]; [done|..].
    + rewrite Hi in Hq. injection Hq as <-. rewrite Hj in Hr by done. specialize (Hact Aq k r Hki Hr). congruence.
    + rewrite Hi in Hr. injection Hr as <-. rewrite Hj in Hq by done. specialize (Hact Ar j q Hji Hq). congruence.
    + rewrite Hj in Hq, Hr by done. by eapply Hone.
  - destruct Ht as [Ht|[Ht|[Ht Hn]]]; [left; by exists i, p'|by right|].
    destruct Htold as [(j & q & Hq & Hqt)|Htold]; [|right; by apply Ht].
    left. exists j, q. split; [|done]. rewrite Hj; [done|]. intros ->. congruence.
  - intros Hall. apply Hd; [by apply (Hall i)|]. intros j q Hne Hq. apply (Hall j). by rewrite Hj.
Qed.

Lemma change_inoperative op e e' : change op e = Some e' -> inoperative e' <-> inoperative e.
Proof.
  destruct op; cbn [change]; try (intros [= <-]; by apply own_raise_inoperative);
    try (destruct (is_error_active _ _ _); intros [= <-]; cbn [default]; by rewrite ?own_clear_inoperative).
  intros [= <-]. done.
Qed.

Lemma set_spec fatal e e' o p' :
  thread_step (sets fatal) e = Some (e', o, p') ->
  p' = tells fatal /\ o = [] /\ (inoperative e' <-> is_Some fatal) /\ (prevented e' <-> prevented e).
Proof.
  destruct fatal as [caused_by|]; cbn [thread_step]; intros [= <- <- <-].
  - split_and!; try done.
    + split; [done|]. intros _. destruct (inoperative_key caused_by e) as [K1 K2].
      unfold inoperative. rewrite <- K1, <- K2. apply raised_active.
    + rewrite !prevented_spec. f_equiv. apply fatal_same. intros err Hn. by apply raise_same.
  - split_and!; try done.
    + split; [|by intros []]. intros (err & Hin & Hk)%is_error_active_spec.
      by apply clear_error_spec in Hin as [_ Hn].
    + rewrite !prevented_spec. f_equiv. apply fatal_same. intros err Hn.
      cbn [update p_evse]. split; [by intros [? _]%clear_error_spec|]. intros Hin. apply clear_error_spec.
      split; [done|]. by intros [Hk _].
Qed.

Lemma inoperative_bool e : is_error_active Inoperative "" (p_evse e) = true <-> inoperative e.
Proof. done. Qed.

Lemma acting_alone c i p :
  threads c !! i = Some p -> existsb acting (threads c) = false ->
  forall j q, threads c !! j = Some q -> acting q = false.
Proof.
  intros _ Hn j q Hq. apply not_true_iff_false. intros Ha. apply not_true_iff_false in Hn. apply Hn.
  apply existsb_exists. exists q. split; [|done]. apply list_elem_of_In, list_elem_of_lookup. by exists j.
Qed.

Lemma told_more c i e' o p' t :
  map event_of o = [t] ->
  told_shutdown (mkPool e' (told c ++ o) (<[i:=p']> (threads c))) = shutdown_of t.
Proof. intros E. unfold told_shutdown, shutdown_after. cbn. by rewrite map_app, foldl_app, E. Qed.

(** A step that changes neither the errors nor what is told. *)
Lemma threads_inv_silent c i p p' :
  threads_inv c -> threads c !! i = Some p ->
  acting p = false -> acting p' = false -> (pending p = true -> pending p' = true) ->
  threads_inv (mkPool (shared c) (told c ++ []) (<[i:=p']> (threads c))).
Proof.
  intros Hinv Hp Ha Ha' Hpd. apply (threads_inv_move c i p); [done|done|..].
  - right. split; [done|]. destruct (pending p); [left; auto|by right].
  - congruence.
  - by apply not_acting_ok.
  - right. right. split; [|by destruct p]. unfold told_shutdown. cbn. by rewrite app_nil_r.
  - intros Hd Hall. apply (ti_step _ Hinv). intros j q Hq.
    destruct (decide (j = i)) as [->|Hne]; [|by eapply Hall]. rewrite Hp in Hq. injection Hq as <-.
    destruct p, p'; try done; by specialize (Hpd eq_refl).
Qed.

Lemma error_turn_inv c t : calm c t = true -> threads_inv c -> threads_inv (take_turn c t).
Proof.
  intros Hc Hinv. destruct t as [op|i].
  { destruct Hinv as [Hok Hone Htold Hstep].
    assert (forall j q, (threads c ++ [begins op]) !! j = Some q -> threads c !! j = Some q \/ q = begins op) as Hl.
    { intros j q [Hq|[_ Hq]]%lookup_app_Some; [by left|right].
      by apply list_lookup_singleton_Some in Hq as [_ <-]. }
    assert (waiting (threads c) -> waiting (threads c ++ [begins op])) as Hw.
    { intros (j & q & Hq & Hpq). exists j, q. split; [by apply lookup_app_l_Some|done]. }
    split; cbn [take_turn threads shared told].
    - intros j q [Hq| ->]%Hl; [|done]. specialize (Hok j q Hq). destruct q; try done; cbn in *; naive_solver.
    - intros j k q r [Hq| ->]%Hl [Hr| ->]%Hl; try done. by apply Hone.
    - destruct Htold as [(j & q & Hq & Hqt)|Ht]; [left|by right]. exists j, q.
      split; [by apply lookup_app_l_Some|done].
    - intros Hall. apply Hstep. intros j q Hq. apply (Hall j). by apply lookup_app_l_Some. }
  cbn [take_turn calm] in *. destruct (threads c !! i) as [p|] eqn:Hp; [|done].
  destruct (thread_step p (shared c)) as [[[e' o] p']|] eqn:Hs; [|done].
  pose proof (ti_thread _ Hinv i p Hp) as Hok. pose proof (ti_one _ Hinv) as Hone.
  destruct p as [op|l|fatal|fatal|fatal|l n| |]; cbn [thread_step] in Hs.
  - destruct (change op (shared c)) as [e1|] eqn:Hch; injection Hs as <- <- <-; [|by eapply threads_inv_silent].
    pose proof (change_inoperative _ _ _ Hch) as Hin.
    apply (threads_inv_move c i (begins op)); try done; [by right; split; [|left]|].
    right. right. split; [|done]. unfold told_shutdown. cbn. by rewrite app_nil_r, Hin.
  - destruct l as [|f l]; injection Hs as <- <- <-; [by eapply threads_inv_silent|].
    eapply threads_inv_silent; try done; by destruct (f (shared c)).
  - apply andb_true_iff in Hc as [Hc Ha]. apply negb_true_iff in Ha. apply Bool.eqb_prop in Hc.
    assert (is_Some fatal <-> prevented (shared c)) as Hfresh.
    { unfold prevents in Hc. unfold prevented. case_bool_decide; case_bool_decide; try done; tauto. }
    pose proof (acting_alone c i _ Hp Ha) as Hal.
    injection Hs as <- <- <-. destruct (Bool.eqb _ _) eqn:Heq.
    + apply Bool.eqb_prop in Heq.
      assert (inoperative (shared c) <-> is_Some fatal) as Hin.
      { unfold inoperative. rewrite Heq. apply bool_decide_eq_true. }
      apply (threads_inv_move c i (acts fatal)); try done; [left; eauto| |by rewrite Hin].
      right. right. split; [|done]. unfold told_shutdown. cbn. by rewrite app_nil_r.
    + assert (inoperative (shared c) <-> ~ is_Some fatal) as Hin.
      { unfold inoperative. destruct (is_error_active _ _ _), fatal; cbn in Heq; try done;
          (split; [intros Hx [? ?]|intros Hx]); try done. by destruct Hx. }
      apply (threads_inv_move c i (acts fatal)); try done; [left; eauto|intros _; eauto|split; [done|by left]|].
      right. right. split; [|done]. unfold told_shutdown. cbn. by rewrite app_nil_r.
  - destruct (set_spec _ _ _ _ _ Hs) as (-> & -> & Hin & Hpr). destruct Hok as [_ Hor].
    assert (forall j q, j <> i -> threads c !! j = Some q -> acting q = false) as Hal.
    { intros j q Hne Hq. apply not_true_iff_false. intros Hx. by apply Hne, (Hone j i q (sets fatal)). }
    apply (threads_inv_move c i (sets fatal)); try done; [by left|by left|].
    intros _ Hall. rewrite Hin, Hpr. destruct Hor as [Hor|(j & q & Hq & Hpq)]; [done|].
    assert (j <> i) as Hne by (intros ->; rewrite Hp in Hq; by injection Hq as <-). specialize (Hall j q Hne Hq). by destruct q.
  - assert (e' = shared c /\ p' = counts counted 0 /\ exists t, map event_of o = [t] /\
      (shutdown_of t = ShutdownType.None <-> ~ is_Some fatal)) as (-> & -> & t & Ho & Ht).
    { destruct fatal as [err|]; injection Hs as <- <- <-; (split_and!; [done..|]); cbn; eexists; (split; [done|]).
      - case_bool_decide; cbn; (split; [done|]); intros Hx; by destruct Hx.
      - cbn. split; [by intros _ []|done]. }
    cbn in Hok. apply (threads_inv_move c i (tells fatal)); try done; [by right; split; [|right]| |].
    + right. left. rewrite (told_more _ _ _ _ _ _ Ho), Hok. done.
    + intros _ Hall. apply (ti_step _ Hinv). intros j q Hq. destruct (decide (j = i)) as [->|Hne]; [|by eapply Hall].
      rewrite Hp in Hq. by injection Hq as <-.
  - destruct l as [|f l]; injection Hs as <- <- <-; [|by eapply threads_inv_silent].
    eapply threads_inv_silent; try done; by destruct (Nat.eqb n 0).
  - injection Hs as <- <- <-. apply negb_true_iff in Hc.
    assert (~ inoperative (shared c)) as Hin by (unfold inoperative; congruence).
    apply (threads_inv_move c i announces); try done; [by right; split; [|right]| |].
    + right. left. by rewrite (told_more _ _ _ _ _ ErrorHandlingEvents.AllErrorCleared).
    + intros _ Hall. apply (ti_step _ Hinv). intros j q Hq. destruct (decide (j = i)) as [->|Hne]; [|by eapply Hall].
      rewrite Hp in Hq. by injection Hq as <-.
  - done.
Qed.

Lemma errors_interleave_inv l c : undisturbed l c = true -> threads_inv c -> threads_inv (interleave l c).
Proof.
  revert c. induction l as [|t l IH]; intros c; [done|]. cbn. intros [Hc Hl]%andb_true_iff Hinv.
  apply IH; [done|]. by apply error_turn_inv.
Qed.

Lemma quiet_pool_inv e : ~ inoperative e -> ~ prevented e -> threads_inv (mkPool e [] []).
Proof. intros Hi Hp. split; cbn; try done. by right. Qed.

Lemma none_such (f : point M -> bool) l : existsb f l = false -> forall i p, l !! i = Some p -> f p = false.
Proof.
  intros Hn i p Hp. apply not_true_iff_false. intros Hf. apply not_true_iff_false in Hn. apply Hn.
  apply existsb_exists. exists p. split; [|done]. apply list_elem_of_In, list_elem_of_lookup. by exists i.
Qed.

Lemma error_thread_shutdown (ch : charger M) :
  shutdown_type (run_state error_thread_round ch)
  = shutdown_after (shutdown_type ch) (error_handling_event_queue ch).
Proof.
  unfold error_thread_round, run_state. rewrite run_get_bind.
  change (@put _ ?f) with (@emodify (charger M) logged Empty_set f). rewrite ebind_modify.
  set (q := error_handling_event_queue ch). change (shutdown_type ch) with (shutdown_type (assign error_handling_event_queue [] ch)).
  clearbody q. generalize (assign error_handling_event_queue [] ch). clear ch.
  induction q as [|ev q IH]; intros ch; [done|]. cbn [efor].
  unfold process_error_event at 1. change (@put_shared _ ?f) with (@emodify (charger M) logged Empty_set (update shared_context f)).
  rewrite ebind_modify. rewrite IH. done.
Qed.

(** *** A thread that nothing interrupts *)

Inductive alone : point M -> eh_state M -> list eh_output -> point M -> eh_state M -> Prop :=
| alone_end p s : alone p s [] p s
| alone_step p s s1 o1 p1 o p' s' :
    thread_step p s = Some (s1, o1, p1) -> alone p1 s1 o p' s' -> alone p s (o1 ++ o) p' s'.

Lemma error_alone_silent p s p1 s1 o p' s' :
  thread_step p s = Some (s1, [], p1) -> alone p1 s1 o p' s' -> alone p s o p' s'.
Proof. intros H1 H2. by apply (alone_step _ _ _ [] _ o _ _ H1). Qed.

Lemma alone_reads l s o p' s' :
  alone (acts (foldr (fun f r => or_else (f s) r) None l)) s o p' s' -> alone (reads l) s o p' s'.
Proof.
  induction l as [|f l IH]; cbn [foldr]; intros Ha; (eapply error_alone_silent; [reflexivity|]); [done|].
  destruct (f s); [done|]. by apply IH.
Qed.

Lemma alone_counts l n s :
  alone (counts l n) s
    (if Nat.eqb (foldl (fun n f => n + f s)%nat n l) 0 then [signal_all_errors_cleared] else []) finished s.
Proof.
  revert n. induction l as [|f l IH]; intros n; cbn [foldl].
  - eapply error_alone_silent; [reflexivity|]. destruct (Nat.eqb n 0); [|apply alone_end].
    apply (alone_step _ _ s [_] finished []); [done|apply alone_end].
  - eapply error_alone_silent; [reflexivity|]. apply IH.
Qed.

Lemma counted_all s : foldl (fun n f => n + f s)%nat 0%nat counted = error_count s.
Proof. done. Qed.
Lemma looked_at_all s : foldr (fun f r => or_else (f s) r) None looked_at = errors_prevent_charging s.
Proof. unfold looked_at, errors_prevent_charging. cbn [foldr]. by destruct (first_fatal (r_over_voltage_monitor s) _). Qed.

Lemma told_severity (b : bool) x y (e : eh_state M) :
  ((if b then eemit (signal_error x) else eemit (signal_error y)) : Eff (eh_state M) eh_output Empty_set unit) e
  = (Ok tt, e, [signal_error (if b then x else y)]).
Proof. by destruct b. Qed.

(** The sequential [process_error] is a thread that is not interrupted. *)
Lemma alone_process s :
  alone (reads looked_at) s (run_out process_error s) finished (run_state process_error s).
Proof.
  apply alone_reads. rewrite looked_at_all. unfold run_out, run_state, process_error. rewrite run_get_bind.
  set (fatal := errors_prevent_charging s).
  assert (forall (m : Eff (eh_state M) eh_output Empty_set unit) e' o, m s = (Ok tt, e', o) ->
    alone (acts fatal) s o (counts counted 0) e' ->
    let r := (m ;;; let* s := eget in if Nat.eqb (error_count s) 0 then eemit signal_all_errors_cleared else eret tt) s in
    alone (acts fatal) s (r.2) finished (r.1.2)) as Hend.
  { intros m e' o Hm Ha. cbn zeta. unfold ebind at 1. unfold ebind at 2. rewrite Hm. cbn.
    pose proof (alone_counts counted 0 e') as Hc. rewrite counted_all in Hc.
    assert (forall p1 s1 o1 p2 s2 o2 p3 s3, alone p1 s1 o1 p2 s2 -> alone p2 s2 o2 p3 s3 -> alone p1 s1 (o1 ++ o2) p3 s3)
      as Htrans.
    { induction 1; intros; [done|]. rewrite <- app_assoc. econstructor; eauto. }
    destruct (Nat.eqb (error_count e') 0); cbn; by eapply Htrans. }
  destruct fatal as [err|].
  - unfold raise_inoperative_error in *. destruct (is_error_active Inoperative "" (p_evse s)) eqn:Ha.
    + eapply Hend; [by rewrite run_get_bind, Ha|]. eapply error_alone_silent; [cbn [thread_step]; rewrite Ha; reflexivity|]. apply alone_end.
    + eapply Hend; [rewrite run_get_bind, Ha; unfold put_evse; rewrite ebind_modify; by apply told_severity|].
      eapply error_alone_silent; [cbn [thread_step]; rewrite Ha; reflexivity|]. eapply error_alone_silent; [reflexivity|].
      eapply (alone_step _ _ _ [_] _ []); [reflexivity|]. apply alone_end.
  - unfold clear_inoperative_error in *. destruct (is_error_active Inoperative "" (p_evse s)) eqn:Ha.
    + eapply Hend; [by rewrite run_get_bind, Ha|].
      eapply error_alone_silent; [cbn [thread_step]; rewrite Ha; reflexivity|]. eapply error_alone_silent; [reflexivity|].
      eapply (alone_step _ _ _ [_] _ []); [reflexivity|]. apply alone_end.
    + eapply Hend; [by rewrite run_get_bind, Ha|]. eapply error_alone_silent; [cbn [thread_step]; rewrite Ha; reflexivity|]. apply alone_end.
Qed.

Lemma eh_action_change op s :
  eh_action op s = match change op s with Some s' => process_error s' | None => (Ok tt, s, []) end.
Proof.
  destruct op; cbn [eh_action change];
    unfold raise_overcurrent_error, raise_internal_error, raise_authorization_timeout_error,
      raise_powermeter_transaction_start_failed_error, raise_isolation_resistance_fault, raise_cable_check_fault,
      clear_overcurrent_error, clear_internal_error, clear_authorization_timeout_error,
      clear_powermeter_transaction_start_failed_error, clear_isolation_resistance_fault, clear_cable_check_fault,
      raise_own, clear_own, put_evse; rewrite ?run_get_bind, ?ebind_modify; try done.
  all: destruct (is_error_active _ _ _); cbn [default]; rewrite ?ebind_modify, ?ebind_ret; done.
Qed.

(** Every operation of the error handling is a thread that is not interrupted. *)
Lemma alone_action op s :
  alone (begins op) s (run_out (eh_action op) s) finished (run_state (eh_action op) s).
Proof.
  unfold run_out, run_state. rewrite eh_action_change.
  destruct (change op s) as [s'|] eqn:E.
  - eapply error_alone_silent; [cbn [thread_step]; by rewrite E|]. apply alone_process.
  - eapply error_alone_silent; [cbn [thread_step]; by rewrite E|]. apply alone_end.
Qed.
End Threads.


(** Two threads: the one that changed the errors first processes them after the
    other one. *)
Definition no_warning : eh_op (list Error) := device_errors ex_errors.
Definition ground_failure : eh_op (list Error) :=
  device_errors (mkEh [] [ex_ground_failure] [] [] [] [] [] [] false).
Definition steps (i n : nat) : list (turn (list Error)) := repeat (go i) n.
Definition overlapping : list (turn (list Error)) :=
  [spawn no_warning; spawn ground_failure] ++ steps 0 1 ++ steps 1 22 ++ steps 0 22.
(** The same, but the first thread decides before the second one changes them, and acts
    after it. *)
Definition stale_decision : list (turn (list Error)) :=
  [spawn no_warning; spawn ground_failure] ++ steps 0 10 ++ steps 1 22 ++ steps 0 22.


(** A decision that is acted on late: a fatal error is active, every thread has
    finished, but Inoperative is cleared and the charger is told that nothing
    prevents charging. *)
Example fatal_error_forgotten :
  let c := interleave stale_decision (mkPool ex_errors [] []) in
  undisturbed stale_decision (mkPool ex_errors [] []) = false /\
  existsb deciding (threads c) = false /\ existsb telling (threads c) = false /\
  is_Some (errors_prevent_charging (shared c)) /\ is_error_active Inoperative "" (p_evse (shared c)) = false /\
  told_shutdown c = ShutdownType.None.
Proof. vm_compute. split_and!; try done. by eexists. Qed.
