(* ===== verification/ChargerProperties.v ===== *)
(** * Properties of the charger

    Power, sessions and the loop in every history of the system, the
    enable/disable table, and the signalled duty cycle. *)
From S2P Require Import Prelude Effects AuthTypes IECStateMachine IECProofs ErrorHandling.
From S2P Require Import ChargerTypes Charger ChargerStateMachine ChargerTermination ChargerProofs.
From S2P Require Import ChargerInvariant EvseSystem ChargerExample.
From stdpp Require Import base tactics list numbers strings sets.
From Stdlib Require Import QArith Qabs Lqa.
Open Scope Z_scope.
Open Scope everest_scope.

(** ** Every history *)

(** That a transaction was started has been signalled. *)
Definition start_signalled (l : list logged) : Prop :=
  Exists (fun e => match e.1 with signal_transaction_started_event _ => True | _ => False end) l.
(** No meter answers with an error when a transaction is started. *)
Definition meters_start (w : world) : Prop :=
  forall i req, start_response w i req <> TransactionRequestStatus.UNEXPECTED_ERROR.

(** Before the first start was signalled, there is nothing paid, now or in the log. *)
Definition unpaid {M} (s : charger M) (l : list logged) : Prop :=
  start_signalled l \/ (~ paid (shared_context s) /\ Forall (fun e => ~ paid e.2) l).

Section Signalled.
Context {M : Type} `{ErrorMonitor M} (w : world) (Hw : meters_start w).
Implicit Types (s : charger M) (l : list logged).

Lemma signalled_more l o : start_signalled l -> start_signalled (l ++ o).
Proof. intros Hl. apply Exists_app. by left. Qed.

Lemma signalled_stays {A} (m : CH M A) : keeps (fun _ l => start_signalled l) m.
Proof.
  intros s l Hl. unfold wp. destruct (m s) as [[[a|[]] s'] o]. by apply signalled_more.
Qed.

(** While a transaction is active the start was signalled: only the case without
    one is left. *)
Lemma unpaid_get {A} (k : charger M -> CH M A) :
  (forall s, transaction_active s = false -> keeps unpaid (k s)) -> keeps unpaid (ebind this k).
Proof.
  intros Hk s l Hu. apply wp_get. destruct (transaction_active s) eqn:Ha; [|by apply Hk].
  assert (start_signalled l) as Hl by (destruct Hu as [|[Hp _]]; [done|]; destruct Hp; by left).
  eapply wp_mono; [by apply signalled_stays|]. intros; by left.
Qed.

Lemma unpaid_put (f : charger M -> charger M) :
  (forall s, paid (shared_context (f s)) -> paid (shared_context s)) -> keeps unpaid (emodify f : CH M unit).
Proof.
  intros Hf. apply kept_modify. intros s l [Hl|[Hp Hl]]; [by left|right]. split; [|done]. by intros ?%Hf.
Qed.

Lemma unpaid_log s l (o : list logged) :
  unpaid s l -> Forall (fun e => e.2 = shared_context s) o -> unpaid s (l ++ o).
Proof.
  intros [Hl|[Hp Hl]] Ho; [left; by apply signalled_more|right]. split; [done|]. apply Forall_app_2; [done|].
  eapply Forall_impl; [exact Ho|]. by intros e ->.
Qed.

Lemma unpaid_emit o : keeps unpaid (emit (M := M) o).
Proof. intros s l Hu. apply wp_get, wp_emit, unpaid_log; [done|]. by repeat constructor. Qed.
Lemma unpaid_bsp m : keeps unpaid (bsp_call (M := M) m).
Proof.
  intros s l Hu. unfold wp, bsp_call. destruct (m (bsp s)) as [[r b] os].
  refine (unpaid_log s l _ Hu _). apply Forall_forall. by intros e (o & -> & _)%list_elem_of_fmap.
Qed.
Lemma unpaid_error m : keeps unpaid (error_call (M := M) m).
Proof.
  intros s l Hu. unfold wp, error_call. destruct (m (error_handling s)) as [[r b] os].
  refine (unpaid_log s l _ Hu _). apply Forall_forall. by intros e (o & -> & _)%list_elem_of_fmap.
Qed.

Lemma meters_started meters s l : wp (start_meters (M := M) w meters) (fun r _ _ => r = true) s l.
Proof.
  revert s l. induction meters as [|i rest IH]; intros s l; cbn [start_meters]; [by apply wp_ret|].
  apply wp_get, wp_bind, wp_get, wp_emit. destruct (start_response w i _) eqn:E; try apply IH. by apply Hw in E.
Qed.

Lemma unpaid_start : keeps unpaid (start_transaction (M := M) w).
Proof.
  intros s l _. unfold start_transaction. do 3 (apply wp_bind, wp_modify).
  apply wp_bind. eapply wp_mono; [apply meters_started|]. intros r s1 l1 ->.
  apply wp_get, wp_bind. eapply (wp_stays (fun _ => tt)); [stays_steps|].
  intros _ s2 l2 _. apply wp_bind, wp_get, wp_emit, wp_ret. left. apply Exists_app. right. by constructor.
Qed.

Lemma unpaid_stop_meters id meters : keeps unpaid (stop_meters (M := M) w id meters).
Proof.
  induction meters as [|i rest IH]; cbn [stop_meters]; [apply kept_ret|].
  apply kept_bind; [apply unpaid_emit|]. intros _. destruct (stop_status _); try apply kept_ret; try done.
  repeat (apply kept_bind; [apply unpaid_put; by intros ? [?|?]; [by left|by right]|intros _]).
  apply unpaid_put. by intros ? [?|?]; [by left|by right].
Qed.
End Signalled.

Ltac unpaid_leaf _ :=
  lazymatch goal with
  | |- keeps _ (go _) => apply unpaid_put; done
  | |- keeps _ (put_shared _) => apply unpaid_put; by intros ? [?|?]; first [by left|by right]
  | |- keeps _ (put_internal _) => apply unpaid_put; done
  | |- keeps _ (put _) => apply unpaid_put; by intros
  | |- keeps _ (emit _) => apply unpaid_emit
  | |- keeps _ (bsp_call _) => apply unpaid_bsp
  | |- keeps _ (error_call _) => apply unpaid_error
  | |- keeps _ (stop_meters _ _ _) => apply unpaid_stop_meters
  end.
Ltac unpaid_step :=
  first
    [ apply unpaid_start; assumption
    | lazymatch goal with |- keeps _ (ebind eget _) => 
        apply unpaid_get; let Hoff := fresh "Hoff" in intros ? Hoff; cbv beta; try rewrite !Hoff; cbn [andb negb when]
      end
    | walk_step unpaid_leaf ].

Section Kept.
Context {M : Type} `{ErrorMonitor M} (w : world) (Hw : meters_start w).

Lemma unpaid_switch i t now : keeps unpaid (state_switch (M := M) w i t now).
Proof. repeat unpaid_step. Qed.

Lemma unpaid_run : keeps unpaid (run_state_machine (M := M) w).
Proof.
  unfold run_state_machine. induction max_mainloop_runs as [|n IH]; cbn [run_loop]; [apply kept_ret|].
  apply kept_bind.
  - unfold loop_round. repeat first [apply unpaid_switch | unpaid_step].
  - intros b. apply kept_if; [apply kept_ret|]. apply kept_get. intros s.
    apply kept_if; [apply kept_ret|done].
Qed.

Lemma unpaid_event e : keeps unpaid (process_event (M := M) w e).
Proof. unfold process_event. repeat first [apply unpaid_run | unpaid_step]. Qed.

Lemma unpaid_action op : keeps unpaid (charger_action (M := M) w op).
Proof.
  destruct op; cbn [charger_action]; repeat first [apply unpaid_event | apply unpaid_run | unpaid_step].
Qed.
End Kept.

Lemma unpaid_history {M} `{ErrorMonitor M} (h : history M) :
  Forall (fun x => meters_start x.1) h -> keeps unpaid (run_history h).
Proof.
  intros Hh s l. apply wp_for. intros [w op] s' l' Hin Hu. eapply Forall_forall in Hh; [|done]. by apply unpaid_action.
Qed.

Lemma granted_in (l : list logged) sh : granted l = Some sh -> exists o, (o, sh) ∈ l.
Proof.
  induction l as [|[o s] l IH] using rev_ind; [done|]. rewrite granted_snoc. intros Hg.
  assert (granted l = Some sh \/ s = sh) as [Hl|<-].
  { cbn in Hg. destruct o; try (by left). destruct value; [right|done]. by injection Hg. }
  - destruct (IH Hl) as [o' Ho]. exists o'. set_solver.
  - exists o. set_solver.
Qed.

(** C1: in every history from the start of the module the board is permitted
    to close the contactors only while the control pilot is in C or D and the
    charger's last word was to allow power, which it said in the state
    [Charging] without a fatal error, or in [PrepareCharging] with the
    permissions of both the EV and the HLC stack, and always with
    [transaction_active] set or a reason recorded why the transaction was stopped.
    Every start of a transaction that was signalled was so while authorized, for the
    authorized token.  When no meter refuses to start a transaction, power is
    permitted only after such a start; a meter that refuses leaves
    [transaction_active] set without one ([power_without_start]). *)
Theorem power_only_in_transaction {M} `{ErrorMonitor M} (h : history M) w mem lock_in_b errors type id :
  let s0 := new_Charger w mem (new_IECStateMachine lock_in_b) errors type id in
  let s := run_state (run_history h) s0 in
  let l := run_out (run_history h) s0 in
  starts_authorized l
  /\ (permission false (bsp_outs l) = true ->
      power_state (last_cp_state (bsp s)) = true
      /\ (exists sh, granted l = Some sh /\ grant_ok sh)
      /\ (Forall (fun x => meters_start x.1) h -> start_signalled l)).
Proof.
  intros s0 s l. pose proof (history_inv h w mem lock_in_b errors type id) as Hi.
  fold s0 s l in Hi. split; [apply Hi|]. intros Hp.
  destruct (inv_safe _ _ Hi) as [Hs _ _]. destruct (Hs Hp) as [Ha Hc]. split; [done|].
  destruct (inv_granted _ _ Hi Ha) as [sh Hg]. pose proof (inv_grant_ok _ _ Hi _ Hg) as Hok.
  split; [by exists sh|]. intros Hh.
  assert (unpaid s0 []) as H0 by (right; split; [by intros [?|?]|done]).
  destruct (wp_run _ _ _ _ (unpaid_history h Hh s0 [] H0)) as (_ & _ & [Hl|[_ Hl]]); [exact Hl|].
  destruct (granted_in _ _ Hg) as [o Ho]. eapply Forall_forall in Hl; [|exact Ho]. destruct Hl. apply Hok.
Qed.

Lemma power_only_in_transaction_witness :
  permission false (bsp_outs (ex_log ex_charging)) = true
  /\ (exists sh, granted (ex_log ex_charging) = Some sh /\ grant_ok sh) /\ start_signalled (ex_log ex_charging).
Proof.
  assert (permission false (bsp_outs (ex_log ex_charging)) = true) as Hp by (vm_compute; reflexivity).
  split; [exact Hp|]. revert Hp. unfold ex_log, ex_new.
  pose proof (power_only_in_transaction (with_world ex_charging) ex_world ex_memory true ex_errors
    Connector_type.IEC62196Type2Cable "EVSE1") as [_ Hx]. intros Hp. destruct (Hx Hp) as (_ & Hg & Hm).
  split; [exact Hg|]. apply Hm. unfold with_world. apply Forall_map, Forall_true. intros op i req. discriminate.
Defined.

(** With a meter that refuses, and [fail_on_powermeter_errors], the charger charges
    with permission all the same, without a start of the transaction, while the
    error thread has not run. *)
Example power_without_start :
  let h := map (fun op => (ex_broken_meter, op)) (ex_charging ++ [op_main_loop; op_iec_feed 0]) in
  let s := run_state (run_history h) ex_new in
  let l := run_out (run_history h) ex_new in
  current_state s = EvseState.Charging /\ permission false (bsp_outs l) = true /\ transactions l = [].
Proof. vm_compute. repeat split. Qed.

(** C20: in every history session events alternate: a session is started only
    when none is open and finished only when one is; [session_active] tells
    which, and without a session there is no session id. *)
Theorem sessions_alternate {M} `{ErrorMonitor M} (h : history M) w mem lock_in_b errors type id :
  let s0 := new_Charger w mem (new_IECStateMachine lock_in_b) errors type id in
  let s := run_state (run_history h) s0 in
  session_trace (run_out (run_history h) s0) = Some (session_active s)
  /\ (session_active s = false -> session_uuid s = ""%string).
Proof.
  intros s0 s. pose proof (history_inv h w mem lock_in_b errors type id) as Hi.
  split; [apply (inv_session _ _ Hi)|apply (inv_uuid _ _ Hi)].
Qed.

Lemma sessions_alternate_witness :
  session_trace (ex_log ex_charging) = Some true /\ session_active (ex_state ex_charging) = true.
Proof.
  assert (session_active (ex_state ex_charging) = true) as Ha by (vm_compute; reflexivity).
  split; [|exact Ha]. revert Ha. unfold ex_log, ex_state, ex_new.
  pose proof (sessions_alternate (with_world ex_charging) ex_world ex_memory true ex_errors
    Connector_type.IEC62196Type2Cable "EVSE1") as [Ht _]. intros Ha. by rewrite Ht, Ha.
Defined.

(** C19: [run_state_machine] always ends by itself, from any state whatsoever:
    the unbounded loop of the source is what ten rounds of it give. *)
Theorem run_state_machine_ends {M} `{ErrorMonitor M} w (s : charger M) n :
  (max_mainloop_runs <= n)%nat ->
  run_val (run_state_machine w) s = Ok true /\ run_loop w n s = run_state_machine w s.
Proof.
  intros Hn. assert (run_val (run_state_machine w) s = Ok true) as Hv.
  { destruct (wp_run _ _ s [] (run_loop_ends w max_mainloop_runs s [] ltac:(unfold max_mainloop_runs; lia)))
      as (b & Hv & ->). exact Hv. }
  split; [exact Hv|]. by apply run_loop_more.
Qed.

Lemma run_state_machine_ends_witness :
  run_val (run_state_machine ex_world) (ex_state ex_charging) = Ok true.
Proof.
  apply (run_state_machine_ends ex_world (ex_state ex_charging) max_mainloop_runs). reflexivity.
Defined.

(** ** Enabling and disabling *)

(** The rule: every source that disables is overruled by one that enables
    with a smaller priority number. *)
Definition table_enables (table : list EnableDisableSource) : Prop :=
  forall e, e ∈ table -> enable_state e = Enable_state.Disable ->
  exists e', e' ∈ table /\ enable_state e' = Enable_state.Enable
    /\ enable_priority e' < enable_priority e.

Lemma elem_of_snoc {A} (e x : A) table : e ∈ table ++ [x] <-> e ∈ table \/ e = x.
Proof. by rewrite elem_of_app, list_elem_of_singleton. Qed.

(** [a] goes before [b]. *)
Definition beats (a b : EnableDisableSource) : Prop :=
  enable_priority a < enable_priority b
  \/ (enable_priority a = enable_priority b
      /\ (enable_state b = Enable_state.Disable -> enable_state a = Enable_state.Disable)).

(** What the walk has found after a prefix of the table. *)
Record found (table : list EnableDisableSource) (acc : bool * EnableDisableSource) : Prop := {
  found_flag : acc.1 = negb (Enable_state.eqb (enable_state acc.2) Enable_state.Disable);
  found_none : enable_state acc.2 = Enable_state.Unassigned ->
    forall e, e ∈ table -> enable_state e = Enable_state.Unassigned;
  found_best : enable_state acc.2 <> Enable_state.Unassigned ->
    acc.2 ∈ table
    /\ forall e, e ∈ table -> enable_state e <> Enable_state.Unassigned -> beats acc.2 e;
}.

Lemma found_new table b win entry :
  found table (b, win) -> enable_state entry <> Enable_state.Unassigned ->
  (enable_state win = Enable_state.Unassigned \/ beats entry win) ->
  found (table ++ [entry])
    (negb (Enable_state.eqb (enable_state entry) Enable_state.Disable), entry).
Proof.
  intros [_ Hn Hb] Hu Hw. split; cbn in *; [done|done|]. intros _. split; [set_solver|].
  intros e [He| ->]%elem_of_snoc Hne; [|right; by auto].
  destruct Hw as [Hw|Hw]; [by destruct (Hne (Hn Hw e He))|].
  destruct (decide (enable_state win = Enable_state.Unassigned)) as [Hx|Hx];
    [by destruct (Hne (Hn Hx e He))|].
  destruct (Hb Hx) as [_ Hbest]. specialize (Hbest e He Hne). unfold beats in *. intuition lia.
Qed.

Lemma found_old table b win entry :
  found table (b, win) ->
  enable_state entry = Enable_state.Unassigned
  \/ (enable_state win <> Enable_state.Unassigned /\ beats win entry) ->
  found (table ++ [entry]) (b, win).
Proof.
  intros [Hf Hn Hb] He. split; cbn in *; [done| |].
  - intros Hw e [?| ->]%elem_of_snoc; [auto|]. naive_solver.
  - intros Hw. destruct (Hb Hw) as [Hin Hbest]. split; [set_solver|].
    intros e [?| ->]%elem_of_snoc Hne; [auto|]. naive_solver.
Qed.

Lemma found_step table acc entry : found table acc -> found (table ++ [entry]) (consider entry acc).
Proof.
  destruct acc as [b win]. intros Hf. unfold consider.
  destruct (Enable_state.eqb (enable_state entry) Enable_state.Unassigned) eqn:Hu.
  { apply bool_decide_eq_true in Hu. by apply found_old; [|left]. }
  destruct (Enable_state.eqb (enable_state win) Enable_state.Unassigned) eqn:Hw;
    apply bool_decide_eq_false in Hu.
  { apply bool_decide_eq_true in Hw. by apply (found_new _ b win); [..|left]. }
  apply bool_decide_eq_false in Hw.
  destruct (Z.eqb_spec (enable_priority entry) (enable_priority win)) as [Hp|Hp].
  - pose proof (found_new _ b win entry Hf Hu) as Hnew.
    destruct (Enable_state.eqb (enable_state entry) Enable_state.Disable) eqn:Hd; cbn [negb] in *.
    + apply bool_decide_eq_true in Hd. apply Hnew. right. right. auto.
    + apply bool_decide_eq_false in Hd. apply found_old; [done|]. right. split; [done|].
      right. split; [done|]. congruence.
  - destruct (Z.ltb_spec (enable_priority entry) (enable_priority win)) as [Hq|Hq].
    + apply (found_new _ b win); [done|done|]. right. by left.
    + apply found_old; [done|]. right. split; [done|]. left. lia.
Qed.

Lemma winner_found table : found table (winner table).
Proof.
  induction table as [|e table IH] using rev_ind.
  - split; cbn; [done| |done]. intros _ e He. by apply elem_of_nil in He.
  - unfold winner. rewrite foldl_app. by apply found_step.
Qed.

Lemma winner_spec table : (winner table).1 = true <-> table_enables table.
Proof.
  destruct (winner_found table) as [Hf Hn Hb]. rewrite Hf, negb_true_iff. unfold Enable_state.eqb.
  rewrite bool_decide_eq_false. set (win := (winner table).2) in *. split.
  - intros Hw e He Hd. destruct (decide (enable_state win = Enable_state.Unassigned)) as [Hu|Hu].
    { specialize (Hn Hu e He). congruence. }
    destruct (Hb Hu) as [Hin Hbest]. exists win. split_and!; [done|by destruct (enable_state win)|].
    destruct (Hbest e He ltac:(congruence)) as [?|[_ Hx]]; [done|]. by destruct (Hw (Hx Hd)).
  - intros Ht Hw. destruct (Hb ltac:(congruence)) as [Hin Hbest].
    destruct (Ht _ Hin Hw) as (e & He & Hs & Hp).
    destruct (Hbest e He ltac:(congruence)) as [?|[? _]]; lia.
Qed.

(** One entry per source, the last it gave. *)
Definition sources (table : list EnableDisableSource) := map enable_source table.

Lemma table_update_elem source table e :
  NoDup (sources table) ->
  e ∈ table_update source table
  <-> e = source \/ (e ∈ table /\ enable_source e <> enable_source source).
Proof.
  induction table as [|x table IH]; cbn; intros Hn.
  { rewrite list_elem_of_singleton, elem_of_nil. naive_solver. }
  apply NoDup_cons in Hn as [Hx Hn]. unfold Enable_source.eqb. case_bool_decide as He.
  - rewrite !elem_of_cons. split; [|naive_solver]. intros [->|Ht]; [by left|]. right. split; [by right|].
    intros Hs. apply Hx. rewrite He, <- Hs. by apply list_elem_of_fmap_2.
  - rewrite !elem_of_cons, (IH Hn). naive_solver.
Qed.

Lemma table_update_nodup source table : NoDup (sources table) -> NoDup (sources (table_update source table)).
Proof.
  induction table as [|x table IH]; cbn; intros Hn.
  { apply NoDup_singleton. }
  apply NoDup_cons in Hn as [Hx Hn]. unfold Enable_source.eqb. case_bool_decide as He; cbn.
  - apply NoDup_cons. by rewrite <- He.
  - apply NoDup_cons. split; [|by apply IH]. intros (e & Hs & Hin)%list_elem_of_fmap.
    apply (table_update_elem _ _ _ Hn) in Hin as [->|[Hin _]]; [congruence|].
    apply Hx. rewrite Hs. by apply list_elem_of_fmap_2.
Qed.

(** Enabling or disabling replaces the entry of the source in the table
    and answers by the rule of the table: disabled exactly when a source
    disables that no enabling source of strictly higher priority overrules;
    the state of the charger, its connector and the board follow. *)
Theorem enable_disable_outcome {M} `{ErrorMonitor M} (s : charger M) connector_id source :
  NoDup (sources (enable_disable_source_table s)) ->
  let s' := run_state (enable_disable connector_id source) s in
  exists b, run_val (enable_disable connector_id source) s = Ok b
  /\ (b = true <-> table_enables (enable_disable_source_table s'))
  /\ NoDup (sources (enable_disable_source_table s'))
  /\ (forall e, e ∈ enable_disable_source_table s'
      <-> e = source \/ (e ∈ enable_disable_source_table s
                         /\ enable_source e <> enable_source source))
  /\ connector_enabled s' = (if connector_id =? 0 then connector_enabled s else b)
  /\ IECStateMachine.enabled (bsp s') = b
  /\ current_state s' =
       (if negb b && negb (Enable_state.eqb (enable_state (active_enable_disable_source s))
                             Enable_state.Disable) then EvseState.Disabled
        else if EvseState.eqb (current_state s) EvseState.Disabled && connector_enabled s'
        then EvseState.Idle else current_state s).
Proof.
  intros Hn. cbv zeta. set (table := table_update source (enable_disable_source_table s)).
  assert (wp (enable_disable connector_id source) (fun b s' _ =>
    b = (winner table).1 /\ enable_disable_source_table s' = table
    /\ connector_enabled s' = (if connector_id =? 0 then connector_enabled s else b)
    /\ IECStateMachine.enabled (bsp s') = b
    /\ current_state s' =
       (if negb b && negb (Enable_state.eqb (enable_state (active_enable_disable_source s))
                             Enable_state.Disable) then EvseState.Disabled
        else if EvseState.eqb (current_state s) EvseState.Disabled && connector_enabled s'
        then EvseState.Idle else current_state s)) s []) as Hw.
  { unfold enable_disable, enable_disable_source_table_update, parse_enable_disable_source_table.
    pose proof (found_flag _ _ (winner_found table)) as Hf.
    apply wp_get, wp_bind, wp_modify, wp_bind, wp_get.
    change (enable_disable_source_table (update enable_disable_source_table (table_update source) s))
      with table.
    destruct (winner table) as [b win]. cbn [fst snd] in Hf. apply wp_bind, wp_modify, wp_ret, wp_bind.
    assert (negb b = Enable_state.eqb (enable_state win) Enable_state.Disable) as Hb
      by (rewrite Hf; apply negb_involutive).
    apply wp_mono with (Q := fun _ s1 _ =>
      s1 = update shared_context
        (assign connector_enabled (if connector_id =? 0 then connector_enabled s else b))
        (assign active_enable_disable_source win (assign enable_disable_source_table table s))).
    { destruct (connector_id =? 0); cbn [negb]; [apply wp_ret|by apply wp_modify].
      by destruct s as [[] [] [] ]. }
    intros _ s1 l1 ->. apply wp_get. cbn -[wp table EvseState.eqb Enable_state.eqb].
    set (c := if connector_id =? 0 then connector_enabled s else b).
    set (last := enable_state (active_enable_disable_source s)).
    apply wp_bind, wp_if; intros Hc; [apply wp_modify|apply wp_ret];
      (apply wp_bind, wp_if; intros Hx;
       [apply wp_if; intros Hbb; subst b; [|apply wp_bind, wp_modify]; apply wp_get, wp_emit
       |apply wp_ret]); apply wp_bind; unfold wp; cbn -[table EvseState.eqb Enable_state.eqb c];
      rewrite ?Hc; (split_and!; [done|done|done|done|]).
    all: cbn -[EvseState.eqb Enable_state.eqb]; rewrite ?Hb.
    all: clear Hc; clearbody c last; by destruct (enable_state win), last. }
  destruct (wp_run _ _ _ _ Hw) as (b & Hv & Hb & Ht & Hrest). exists b. split; [done|]. rewrite Ht, Hb.
  split; [apply winner_spec|]. split; [by apply table_update_nodup|]. split.
  - intros e. by apply table_update_elem.
  - by rewrite <- Hb.
Qed.

Definition disable_remotely : EnableDisableSource := mkSource Enable_source.CSMS Enable_state.Disable 100.

Lemma enable_disable_outcome_witness :
  NoDup (sources (enable_disable_source_table ex_new))
  /\ exists b, run_val (enable_disable 1 disable_remotely) ex_new = Ok b /\ b = false.
Proof.
  split; [apply NoDup_nil_2|].
  destruct (enable_disable_outcome ex_new 1 disable_remotely ltac:(apply NoDup_nil_2))
    as (b & Hv & _). exists b. split; [exact Hv|].
  assert (run_val (enable_disable 1 disable_remotely) ex_new = Ok false) as Hx
    by (vm_compute; reflexivity).
  congruence.
Defined.

(** ** The duty cycle *)

(** The current an EV may draw at a duty cycle, by the table of IEC 61851-1. *)
Definition ev_current (dc : Q) : Q :=
  (if Qltb dc (8 # 100) then 0
   else if Qltb dc (10 # 100) then 6
   else if Qle_bool dc (85 # 100) then dc * 100 * (6 # 10)
   else if Qle_bool dc (96 # 100) then (dc * 100 - 64) * (25 # 10)
   else if Qle_bool dc (97 # 100) then 80
   else 0)%Q.

Lemma Qltb_spec (a b : Q) : reflect (a < b)%Q (Qltb a b).
Proof.
  unfold Qltb. destruct (Qle_bool b a) eqn:E; constructor.
  - apply Qle_bool_iff in E. lra.
  - apply Qnot_le_lt. intros Hx. apply Qle_bool_iff in Hx. congruence.
Qed.

Lemma Qle_bool_spec (a b : Q) : reflect (a <= b)%Q (Qle_bool a b).
Proof.
  destruct (Qle_bool a b) eqn:E; constructor; [by apply Qle_bool_iff|].
  intros Hx. apply Qle_bool_iff in Hx. congruence.
Qed.

Ltac q_cases :=
  repeat match goal with
  | |- context [Qltb ?a ?b] => destruct (Qltb_spec a b)
  | |- context [Qle_bool ?a ?b] => destruct (Qle_bool_spec a b)
  end.

Lemma div_60 a : (a / (6 # 10) / 100 == a * (1 # 60))%Q.
Proof. field. Qed.
Lemma div_250 a : ((a / (25 # 10) + 64) / 100 == a * (1 # 250) + (64 # 100))%Q.
Proof. field. Qed.

Lemma duty_cycle_cases a :
  (let dc := ampere_to_duty_cycle a in
   (a < 59 # 10 /\ dc == 1) \/ (59 # 10 <= a <= 61 # 10 /\ dc == 1 # 10)
   \/ (61 # 10 < a <= 51 /\ dc == a * (1 # 60)) \/ (51 <= a < 525 # 10 /\ dc == 85 # 100)
   \/ (525 # 10 <= a <= 80 /\ dc == a * (1 # 250) + (64 # 100))
   \/ (80 < a <= 801 # 10 /\ dc == 97 # 100) \/ (801 # 10 < a /\ dc == 1))%Q.
Proof.
  cbv zeta. unfold ampere_to_duty_cycle.
  pose proof (div_60 a). pose proof (div_60 51). pose proof (div_250 a). q_cases; lra.
Qed.

(** The duty cycle is 100 % or between 10 % and 97 %; an EV that follows
    the standard never reads more from it than the limit and a tenth of an
    ampere, and exactly the limit wherever the standard can express it; a
    greater limit never gives a smaller duty cycle in the valid range. *)
Theorem duty_cycle_bounds (a b : Q) :
  (0 <= a)%Q ->
  let dc := ampere_to_duty_cycle in
  ((dc a == 1 \/ 1 # 10 <= dc a <= 97 # 100)
   /\ ev_current (dc a) <= a + (1 # 10)
   /\ (61 # 10 < a <= 51 \/ 525 # 10 < a <= 80 -> ev_current (dc a) == a)
   /\ (59 # 10 <= a /\ a <= b /\ b <= 801 # 10 -> dc a <= dc b))%Q.
Proof.
  intros Ha dc. pose proof (duty_cycle_cases a) as Hd. pose proof (duty_cycle_cases b) as Hb.
  cbv zeta in Hd, Hb. fold dc in Hd, Hb.
  split_and!.
  - lra.
  - unfold ev_current. generalize dependent (dc a). intros d Hd. q_cases; lra.
  - unfold ev_current. generalize dependent (dc a). intros d Hd. q_cases; lra.
  - lra.
Qed.

Lemma duty_cycle_bounds_witness : (ev_current (ampere_to_duty_cycle 16) == 16)%Q.
Proof.
  apply (duty_cycle_bounds 16 32); [discriminate|]. left. split; [reflexivity|discriminate].
Defined.
