(* ===== verification/ChargerBehaviour.v ===== *)
(** * What the charger does in a situation

    Over-current, the power budget, fatal errors, stopping by request, and the
    way from an authorization to power. *)
From S2P Require Import Prelude Effects AuthTypes IECStateMachine IECProofs ErrorHandling.
From S2P Require Import ChargerTypes Charger ChargerStateMachine ChargerTermination ChargerProofs.
From S2P Require Import ChargerInvariant ChargerLoop EvseSystem ChargerExample.
From stdpp Require Import base tactics list numbers strings.
From Stdlib Require Import QArith Qabs Lqa.
Open Scope Z_scope.
Open Scope everest_scope.

(** ** Over-current *)

(** Since when the current is above the limit without interruption. *)
Definition exceeded_since (limit : Q) (obs : list (Z * (Q * Q * Q))) : option Z :=
  foldl (fun since o => if draws_more_than limit o.2 then Some (default o.1 since) else None)
    None obs.

Section OverCurrent.
Context {M : Type} `{ErrorMonitor M}.
Implicit Types (s : charger M).

(** A measurement arrives, and the main loop looks at it at some time. *)
Definition observe (o : Z * (Q * Q * Q)) : CH M unit :=
  put (assign steady_clock o.1) ;;;
  set_current_drawn_by_vehicle o.2.1.1 o.2.1.2 o.2.2 ;;;
  check_soft_over_current.

(** The timer of the over-current. *)
Definition timer s : option Z := if over_current s then Some (last_over_current_event s) else None.

Definition over_current_error : Eff (eh_state M) eh_output Empty_set unit :=
  raise_overcurrent_error "Soft overcurrent event triggered".

(** One look. *)
Lemma observe_run s t c l :
  let since := if draws_more_than (soft_over_current_limit s) c then Some (default t (timer s)) else None in
  let late := match since with Some t0 => soft_over_current_timeout_ms s <=? t - t0 | None => false end in
  wp (observe (t, c)) (fun _ s' _ =>
    timer s' = since /\ soft_over_current_limit s' = soft_over_current_limit s
    /\ config_context s' = config_context s
    /\ error_handling s' =
         (if late then run_state over_current_error (error_handling s) else error_handling s)
    /\ error_handling_event_queue s' = error_handling_event_queue s
         ++ (if late then map event_of (run_out over_current_error (error_handling s)) else [])) s l.
Proof.
  intros since late. unfold observe, check_soft_over_current. destruct c as [[l1 l2] l3].
  apply wp_bind, wp_modify, wp_bind, wp_modify, wp_get, wp_bind. cbn [fst snd].
  set (s1 := update shared_context _ _).
  change (soft_over_current_limit s1) with (soft_over_current_limit s).
  change (current_drawn_by_vehicle s1) with (l1, l2, l3).
  change (over_current s1) with (over_current s). change (steady_clock s1) with t.
  apply wp_mono with (Q := fun _ s2 _ => timer s2 = since /\ steady_clock s2 = t
    /\ shared_context s2 = shared_context s1 /\ config_context s2 = config_context s
    /\ soft_over_current_limit s2 = soft_over_current_limit s
    /\ error_handling s2 = error_handling s
    /\ error_handling_event_queue s2 = error_handling_event_queue s).
  { unfold since, timer. destruct (draws_more_than _ _).
    - apply wp_if; intros Ho.
      + apply negb_true_iff in Ho. rewrite Ho. by apply wp_bind, wp_modify, wp_modify.
      + apply negb_false_iff in Ho. rewrite Ho. apply wp_ret.
        change (over_current s1) with (over_current s). by rewrite Ho.
    - by apply wp_modify. }
  intros _ s2 l2' (Ht & Hc & _ & Hcf & Hl & He & Hq). apply wp_get. rewrite Hc, Hcf.
  assert (late = over_current s2 && (soft_over_current_timeout_ms s <=? t - last_over_current_event s2))
    as ->.
  { unfold late. rewrite <- Ht. unfold timer. by destruct (over_current s2). }
  apply wp_if; intros Hd; rewrite Hd.
  - unfold wp, error_call. rewrite He. unfold run_state, run_out, over_current_error.
    destruct (raise_overcurrent_error _ (error_handling s)) as [[r e] os]. cbn.
    split_and!; try done. by rewrite Hq.
  - apply wp_ret. by rewrite app_nil_r.
Qed.

Lemma observed_timer obs s l :
  wp (efor obs observe) (fun _ s' _ =>
    timer s' = foldl (fun since o => if draws_more_than (soft_over_current_limit s) o.2
                                     then Some (default o.1 since) else None) (timer s) obs
    /\ soft_over_current_limit s' = soft_over_current_limit s
    /\ config_context s' = config_context s) s l.
Proof.
  revert s l. induction obs as [|[t c] obs IH]; intros s l; cbn [efor]; [by apply wp_ret|].
  apply wp_bind. eapply wp_mono; [apply observe_run|]. cbv beta zeta.
  intros _ s1 l1 (Ht & Hl & Hc & _). eapply wp_mono; [apply IH|]. cbv beta.
  intros _ s2 l2 (Ht2 & Hl2 & Hc2). rewrite Ht2, Hl2, Hc2, Hl, Hc. cbn [foldl fst snd]. by rewrite Ht.
Qed.

(** However measurements come in, a look at them raises the over-current
    error exactly when the current has been above the limit at every look for
    at least the timeout, and otherwise leaves the errors alone. *)
Theorem over_current_error_exact s obs t c :
  over_current s = false ->
  let s1 := run_state (efor obs observe) s in
  let s2 := run_state (observe (t, c)) s1 in
  let late :=
    match exceeded_since (soft_over_current_limit s) (obs ++ [(t, c)]) with
    | Some t0 => soft_over_current_timeout_ms s <=? t - t0
    | None => false
    end in
  error_handling s2 = (if late then run_state over_current_error (error_handling s1)
                       else error_handling s1)
  /\ error_handling_event_queue s2 = error_handling_event_queue s1
       ++ (if late then map event_of (run_out over_current_error (error_handling s1)) else []).
Proof.
  intros Ho s1 s2 late.
  destruct (wp_run _ _ _ _ (observed_timer obs s [])) as (_ & _ & Ht & Hl & Hc). fold s1 in Ht, Hl, Hc.
  destruct (wp_run _ _ _ _ (observe_run s1 t c [])) as (_ & _ & _ & _ & _ & He & Hq).
  fold s2 in He, Hq.
  assert (late = match (if draws_more_than (soft_over_current_limit s1) c
                        then Some (default t (timer s1)) else None) with
                 | Some t0 => soft_over_current_timeout_ms s1 <=? t - t0 | None => false end) as ->.
  { unfold late, exceeded_since. rewrite foldl_app, Hl, Hc, Ht. unfold timer at 1. by rewrite Ho. }
  by split.
Qed.
End OverCurrent.

Definition ex_overload : Q * Q * Q := (20, 20, 20)%Q.

Lemma over_current_error_exact_witness :
  let s := ex_state ex_charging in
  over_current s = false
  /\ error_handling (run_state (observe (8000, ex_overload))
       (run_state (efor [(1000, ex_overload)] observe) s)) <> error_handling s.
Proof.
  intros s. assert (over_current s = false) as Ho by (vm_compute; reflexivity). split; [exact Ho|].
  destruct (over_current_error_exact s [(1000, ex_overload)] 8000 ex_overload Ho) as [He _].
  rewrite He. vm_compute. discriminate.
Defined.

(** ** Stopping by request *)

Section Cancel.
Context {M : Type} `{ErrorMonitor M} (w : world).
Implicit Types (s : charger M) (l : list logged).

(** The last output is the end of a transaction. *)
Definition finished_last (why : StopTransactionReason.t) (token : option ProvidedIdToken) l : Prop :=
  exists l0 sh, l = l0 ++ [(signal_transaction_finished_event why token, sh)].

Definition kept_by_stop s :=
  (current_state s, authorized s, authorized_pnc s, contactor_open s, stop_transaction_id_token s,
   transaction_active s).

Lemma stop_finishes s l :
  wp (stop_transaction w) (fun _ s' l' =>
    kept_by_stop s' = kept_by_stop (update shared_context (assign transaction_active false) s)
    /\ finished_last (default StopTransactionReason.EVDisconnected (last_stop_transaction_reason s))
         (stop_transaction_id_token s) l') s l.
Proof.
  unfold stop_transaction. apply wp_bind, wp_modify, wp_get, wp_bind, wp_modify, wp_bind.
  eapply wp_stays with (f := kept_by_stop); [stays_steps|]. intros _ s1 l1 E1.
  apply wp_bind. eapply wp_stays with (f := kept_by_stop); [stays_steps|]. intros _ s2 l2 E2.
  apply wp_bind, wp_get, wp_emit, wp_get, wp_get, wp_emit.
  assert (kept_by_stop s2 = kept_by_stop (update shared_context (assign transaction_active false) s))
    as E by (rewrite E2, E1; reflexivity).
  split; [exact E|]. injection E as _ _ _ _ E _. rewrite E. eexists _, _. reflexivity.
Qed.

(** The state in which a cancelled transaction is left. *)
Definition cancelled s : EvseState.t :=
  if hlc_charging_active s then EvseState.StoppingCharging else EvseState.ChargingPausedEVSE.

Lemma cancel_run s request l :
  transaction_active s = true ->
  wp (cancel_transaction w request) (fun b s' l' => b = true
    /\ kept_by_stop s' = (cancelled s, false, false, contactor_open s, id_tag request,
                          negb (contactor_open s))
    /\ (contactor_open s = false -> last_stop_transaction_reason s' = Some (reason request))
    /\ (contactor_open s = true -> finished_last (reason request) (id_tag request) l')) s l.
Proof.
  intros Ha. unfold cancel_transaction. apply wp_get. rewrite Ha. apply wp_bind.
  apply wp_mono with (Q := fun _ s1 _ => current_state s1 = cancelled s
    /\ contactor_open s1 = contactor_open s /\ transaction_active s1 = true).
  { unfold cancelled. destruct (hlc_charging_active s).
    - apply wp_bind.
      eapply wp_stays with (f := fun s => (contactor_open s, transaction_active s)).
      { destruct (reason request); stays_steps. }
      intros _ s1 l1 [= E1 E2]. apply wp_bind, wp_modify, wp_get, wp_emit. cbn. by rewrite E1, E2.
    - apply wp_bind, wp_modify.
      eapply wp_stays with (f := fun s => (current_state s, contactor_open s, transaction_active s));
        [stays_steps|].
      intros _ s1 l1 [= E1 E2 E3]. by rewrite E1, E2, E3. }
  intros _ s1 l1 (E1 & E2 & E3). do 4 (apply wp_bind, wp_modify). apply wp_bind, wp_if; intros Ho.
  - eapply wp_mono; [apply stop_finishes|]. cbv beta. intros _ s2 l2 [E Hf]. apply wp_ret.
    split_and!; [done| |by rewrite Ho|done]. rewrite E. unfold kept_by_stop. cbn. by rewrite E1, E2, Ho.
  - apply wp_ret, wp_ret. split_and!; [done| |done|by rewrite Ho].
    unfold kept_by_stop. cbn. by rewrite E1, E2, E3, Ho.
Qed.

(** Cancelling a transaction takes the authorization away and leaves the
    charging states; with open contactors it finishes the transaction at once,
    with the reason and the token of the request, and otherwise as soon as the
    contactors are reported open; without a transaction it does nothing. *)
Theorem cancel_transaction_outcome s request :
  let s' := run_state (cancel_transaction w request) s in
  (transaction_active s = false -> cancel_transaction w request s = (Ok false, s, []))
  /\ (transaction_active s = true ->
      run_val (cancel_transaction w request) s = Ok true
      /\ authorized s' = false /\ authorized_pnc s' = false /\ current_state s' = cancelled s
      /\ (contactor_open s = true -> transaction_active s' = false
          /\ finished_last (reason request) (id_tag request)
               (run_out (cancel_transaction w request) s))
      /\ (contactor_open s = false ->
          let stopped := process_cp_events_independent w CPEvent.PowerOff in
          transaction_active s' = true /\ transaction_active (run_state stopped s') = false
          /\ finished_last (reason request) (id_tag request) (run_out stopped s'))).
Proof.
  intros s'. split; intros Ha.
  { unfold cancel_transaction. unfold ebind at 1, eget. by rewrite Ha. }
  destruct (wp_run _ _ _ _ (cancel_run s request [] Ha)) as (b & Hv & -> & Hk & Hr & Hf).
  fold s' in Hk, Hr. injection Hk as E1 E2 E3 E4 E5 E6. cbn in Hf.
  split_and!; [done..| |]; intros Ho; rewrite Ho in *; cbn in E6; [by split; [|apply Hf]|].
  intros stopped.
  assert (wp stopped (fun _ s2 l2 => transaction_active s2 = false
    /\ finished_last (reason request) (id_tag request) l2) s' []) as Hw.
  { unfold stopped, process_cp_events_independent. apply wp_get, wp_bind, wp_modify.
    rewrite E6, E2, E3. cbn [andb negb]. eapply wp_mono; [apply stop_finishes|]. cbv beta.
    intros _ s2 l2 [E Hl]. split; [by injection E|].
    change (last_stop_transaction_reason (update shared_context _ s')) with
      (last_stop_transaction_reason s') in Hl.
    change (stop_transaction_id_token (update shared_context _ s')) with
      (stop_transaction_id_token s') in Hl.
    by rewrite (Hr eq_refl), E5 in Hl. }
  destruct (wp_run _ _ _ _ Hw) as (_ & _ & Ht & Hl). by split_and!.
Qed.
End Cancel.

Definition ex_remote_stop : StopTransactionRequest :=
  mkStopTransactionRequest StopTransactionReason.Remote None.

Lemma cancel_transaction_outcome_witness :
  let s := ex_state ex_charging in
  let s' := run_state (cancel_transaction ex_world ex_remote_stop) s in
  transaction_active s = true /\ contactor_open s = false /\ authorized s' = false
  /\ finished_last StopTransactionReason.Remote None
       (run_out (process_cp_events_independent ex_world CPEvent.PowerOff) s').
Proof.
  intros s s'.
  assert (transaction_active s = true) as Ha by (vm_compute; reflexivity).
  assert (contactor_open s = false) as Ho by (vm_compute; reflexivity).
  destruct (cancel_transaction_outcome ex_world s ex_remote_stop) as [_ Hx].
  destruct (Hx Ha) as (_ & Hau & _ & _ & _ & Hc). destruct (Hc Ho) as (_ & _ & Hl).
  split; [exact Ha|split; [exact Ho|split; [exact Hau|exact Hl]]].
Defined.
