(* ===== verification/ChargerSituations.v ===== *)
(** * Rounds of the main loop in a given situation *)
From S2P Require Import Prelude Effects AuthTypes IECStateMachine IECProofs ErrorHandling.
From S2P Require Import ChargerTypes Charger ChargerStateMachine ChargerTermination ChargerProofs.
From S2P Require Import ChargerInvariant ChargerLoop EvseSystem ChargerExample.
From stdpp Require Import base tactics list numbers strings.
From Stdlib Require Import QArith Qabs Lqa.
Open Scope Z_scope.
Open Scope everest_scope.

Section Rounds.
Context {M : Type} `{ErrorMonitor M} (w : world).
Implicit Types (s : charger M) (l : list logged).

(** What most actions leave alone. *)
Definition facts s :=
  (current_state s, config_context s, shutdown_type s, ac_with_soc_timeout s,
   hlc_use_5percent_current_session s, ac_hlc_enabled_current_session s, connector_type s,
   max_current s, max_current_cable s, max_current_valid_until s, steady_clock s,
   iec_allow_close_contactor s, hlc_allow_close_contactor s, hlc_charging_active s, authorized s,
   authorized_pnc s, transaction_active s).

(** A round without the timeout back to DC. *)
Lemma wp_round (Q : bool -> charger M -> list logged -> Prop) s l :
  ac_with_soc_timeout s = false ->
  (forall s1 l1, facts s1 = facts s -> last_shutdown_type s1 = last_shutdown_type s ->
    last_state_detect_state_change s1 = current_state s ->
    wp (state_switch w (initializes s)
          (system_clock s - (if initializes s then system_clock s else current_state_started s))
          (system_clock s)) (fun _ => Q false) s1 l1) ->
  wp (loop_round w) Q s l.
Proof.
  intros Hsoc HQ. unfold loop_round. apply wp_get, wp_bind. do 2 (apply wp_bind, wp_modify).
  apply wp_modify, wp_bind, wp_get. name_state s1. change (ac_with_soc_timeout s1) with (ac_with_soc_timeout s).
  rewrite Hsoc. apply wp_ret, wp_bind.
  apply wp_mono with (Q := fun _ s2 _ => facts s2 = facts s
    /\ last_shutdown_type s2 = last_shutdown_type s
    /\ last_state_detect_state_change s2 = current_state s
    /\ current_state_started s2 = if initializes s then system_clock s else current_state_started s).
  { destruct (initializes s); cbn [when]; [|by apply wp_ret]. by apply wp_bind, wp_modify, wp_get, wp_emit. }
  intros _ s2 l2 (E1 & E2 & E3 & E4). apply wp_get, wp_bind.
  eapply wp_stays with (f := fun s => (facts s, last_shutdown_type s, last_state_detect_state_change s));
    [stays_steps|].
  intros _ s3 l3 E. assert (facts s3 = facts s2 /\ last_shutdown_type s3 = last_shutdown_type s2
    /\ last_state_detect_state_change s3 = last_state_detect_state_change s2) as (F1 & F2 & F3).
  { split_and!; congruence. }
  apply wp_bind. rewrite E4. eapply wp_mono; [apply HQ; congruence|]. intros. by apply wp_ret.
Qed.

(** The last round, and one that goes on. *)
Lemma run_last n (Q : charger M -> list logged -> Prop) s l :
  wp (loop_round w) (fun b s' l' => (last_state_detect_state_change s' = current_state s') /\ Q s' l') s l ->
  wp (run_loop w (S n)) (fun _ => Q) s l.
Proof.
  intros Hw. cbn [run_loop]. apply wp_bind. eapply wp_mono; [exact Hw|]. cbv beta.
  intros b s' l' [E HQ]. apply wp_if; intros _; [by apply wp_ret|]. apply wp_get. rewrite E.
  unfold EvseState.eqb. rewrite bool_decide_eq_true_2 by done. by apply wp_ret.
Qed.

Lemma run_more n (Q : charger M -> list logged -> Prop) s l :
  wp (loop_round w) (fun b s' l' => b = false
    /\ last_state_detect_state_change s' <> current_state s'
    /\ wp (run_loop w n) (fun _ => Q) s' l') s l ->
  wp (run_loop w (S n)) (fun _ => Q) s l.
Proof.
  intros Hw. cbn [run_loop]. apply wp_bind. eapply wp_mono; [exact Hw|]. cbv beta.
  intros b s' l' (-> & E & HQ). apply wp_get. unfold EvseState.eqb.
  by rewrite bool_decide_eq_false_2.
Qed.

Lemma entered_initializes s :
  last_state_detect_state_change s <> current_state s -> initializes s = true.
Proof. intros Hn. unfold initializes, EvseState.eqb. by rewrite bool_decide_eq_false_2. Qed.

(** The switch in a known state. *)
Lemma wp_switch st (Q : unit -> charger M -> list logged -> Prop) i t now s l :
  current_state s = st ->
  wp (match st with
      | EvseState.Disabled => case_Disabled i
      | EvseState.Replug => case_Replug i
      | EvseState.Idle => case_Idle i
      | EvseState.WaitingForAuthentication => case_WaitingForAuthentication w i
      | EvseState.SwitchPhases => case_SwitchPhases i t
      | EvseState.T_step_EF => case_T_step_EF i t
      | EvseState.T_step_X1 => case_T_step_X1 i t
      | EvseState.PrepareCharging => case_PrepareCharging i t now
      | EvseState.Charging => case_Charging i
      | EvseState.ChargingPausedEV => case_ChargingPausedEV i
      | EvseState.ChargingPausedEVSE => case_ChargingPausedEVSE i
      | EvseState.WaitingForEnergy => case_WaitingForEnergy i
      | EvseState.StoppingCharging => case_StoppingCharging i
      | EvseState.Finished => case_Finished w i
      end) (fun a s' l' => last_state_detect_state_change s' = last_state_detect_state_change s ->
                           Q a s' l') s l ->
  wp (state_switch w i t now) Q s l.
Proof.
  intros <- Hw. assert (wp (state_switch w i t now) (fun a s' l' =>
    last_state_detect_state_change s' = last_state_detect_state_change s -> Q a s' l') s l) as Hs.
  { unfold state_switch. by apply wp_get. }
  eapply wp_mono; [exact (wp_conj _ _ _ _ _ Hs (stays_detected w i t now s l))|]. cbv beta.
  intros a s' l' [HQ E]. by apply HQ.
Qed.

(** ** The power budget *)

Definition expired s : Prop := max_current_valid_until s + 1000 <= steady_clock s.

(** Everything but the current. *)
Definition facts' s := facts (update shared_context (assign max_current 0%Q) s).

Lemma no_current s : (max_current s <= 0)%Q -> Qltb (59 # 10) (get_max_current_internal s) = false.
Proof.
  intros Hm. unfold get_max_current_internal, Qltb. apply negb_false_iff, Qle_bool_iff.
  case_match eqn:E; [|lra].
  rewrite !andb_true_iff in E. destruct E as [[_ E] _]. apply negb_true_iff in E.
  destruct (Qlt_le_dec (max_current_cable s) (max_current s)) as [?|Hx]; [lra|].
  apply Qle_bool_iff in Hx. congruence.
Qed.

Lemma power_expires s l :
  expired s ->
  wp power_available (fun b s' _ => b = false /\ facts' s' = facts' s /\ (max_current s' <= 0)%Q
    /\ last_shutdown_type s' = last_shutdown_type s) s l.
Proof.
  intros He. unfold power_available. apply wp_get, wp_bind.
  apply wp_mono with (Q := fun _ s' _ => facts' s' = facts' s /\ (max_current s' <= 0)%Q
    /\ last_shutdown_type s' = last_shutdown_type s).
  - assert ((0 <? Z.quot (steady_clock s - max_current_valid_until s) 1000) = true) as ->.
    { unfold expired in He. rewrite Z.quot_div_nonneg by lia. apply Z.ltb_lt.
      assert (1 <= (steady_clock s - max_current_valid_until s) / 1000); [|lia].
      apply Z.div_le_lower_bound; lia. }
    apply wp_if; intros Hm; [|apply wp_ret].
    + apply wp_bind, wp_modify, wp_get, wp_emit. split_and!; [done| |done]. cbn. lra.
    + split_and!; [done| |done]. by apply negb_false_iff, Qle_bool_iff in Hm.
  - intros _ s1 l1 (E1 & E2 & E3). apply wp_get, wp_ret. by rewrite no_current.
Qed.

Lemma power_gone s l :
  (max_current s <= 0)%Q -> wp power_available (fun b s' _ => b = false /\ facts s' = facts s) s l.
Proof.
  intros Hm. unfold power_available. apply wp_get.
  assert (Qltb 0 (max_current s) = false) as -> by (by apply negb_false_iff, Qle_bool_iff).
  rewrite andb_false_r. apply wp_bind, wp_ret, wp_get, wp_ret. by rewrite no_current.
Qed.

Lemma round_charging_unpowered i t now s l :
  current_state s = EvseState.Charging -> charge_mode s = ChargeMode.AC ->
  shutdown_type s = ShutdownType.None -> (max_current s <= 0)%Q ->
  wp (state_switch w i t now) (fun _ s' _ =>
    facts s' = facts (update shared_context (assign current_state EvseState.WaitingForEnergy) s)
    /\ last_state_detect_state_change s' = last_state_detect_state_change s) s l.
Proof.
  intros Hs Hc Hn Hm. apply (wp_switch EvseState.Charging); [done|]. unfold case_Charging.
  apply wp_bind. eapply wp_stays with (f := facts); [stays_steps|]. intros _ s1 l1 E1.
  apply wp_bind. eapply wp_stays with (f := facts); [stays_steps|]. intros _ s2 l2 E2.
  assert (facts s2 = facts s) as E by congruence. clear s1 l1 E1 E2.
  assert (shutdown_type s2 = ShutdownType.None) as Hn2 by (rewrite <- Hn; by injection E).
  unfold stop_charging_on_fatal_error_internal. apply wp_bind, wp_get. rewrite Hn2.
  apply wp_bind, wp_ret, wp_bind, wp_modify, wp_bind, wp_modify, wp_ret, wp_get. name_state s3.
  assert (facts s3 = facts s) as E3 by exact E. clearbody s3.
  assert (is_DC s3 = false) as ->.
  { unfold is_DC. injection E3 as _ Ec _. rewrite Ec, Hc. done. }
  unfold charge_AC. apply wp_bind. eapply wp_stays with (f := facts); [stays_steps|].
  intros _ s4 l4 E4. apply wp_bind. eapply wp_mono; [apply power_gone|].
  { injection E4 as _ _ _ _ _ _ _ Em _. injection E3 as _ _ _ _ _ _ _ Em3 _. by rewrite Em, Em3. }
  cbv beta. intros b s5 l5 [-> E5]. cbn [negb]. apply wp_bind.
  assert (facts s5 = facts s) as E6 by congruence. clear E3 E4 E5.
  unfold pause_charging_wait_for_power_internal. apply wp_get.
  assert (current_state s5 = EvseState.Charging) as -> by (rewrite <- Hs; by injection E6).
  cbn [EvseState.eqb bool_decide orb]. apply wp_bind, wp_modify, wp_ret, wp_ret. intros Ed. split; [|done].
  unfold facts in *. cbn. injection E6. congruence.
Qed.
End Rounds.

(** When the energy manager's budget has run out for a second, an AC
    charger that charges without fatal error is in [WaitingForEnergy] after
    the next round of the main loop, with no current left, and has switched
    the PWM off unless it signals 5 percent. *)
Theorem expired_budget_stops_charging {M} `{ErrorMonitor M} w (s : charger M) :
  current_state s = EvseState.Charging -> charge_mode s = ChargeMode.AC ->
  shutdown_type s = ShutdownType.None -> ac_with_soc_timeout s = false -> expired s ->
  let s' := run_state (main_loop_round w) s in
  current_state s' = EvseState.WaitingForEnergy /\ (max_current s' <= 0)%Q
  /\ (hlc_use_5percent_current_session s = false ->
      ChargerTypes.pwm_running s' = false /\ IECStateMachine.pwm_running (bsp s') = false).
Proof.
  intros Hs Hc Hn Hsoc He. cbv zeta. set (post := fun s' : charger M =>
    current_state s' = EvseState.WaitingForEnergy /\ (max_current s' <= 0)%Q
    /\ (hlc_use_5percent_current_session s = false ->
      ChargerTypes.pwm_running s' = false /\ IECStateMachine.pwm_running (bsp s') = false)).
  assert (wp (main_loop_round w) (fun _ s' _ => post s') s []) as Hw;
    [|by destruct (wp_run _ _ _ _ Hw) as (_ & _ & Hq)].
  unfold main_loop_round. apply wp_bind. eapply wp_mono; [by apply power_expires|]. cbv beta.
  intros b s1 l1 (_ & E1 & Hm & _). apply wp_bind. eapply (wp_mono _ (fun _ s' _ => post s'));
    [|intros; by apply wp_ret].
  injection E1 as A1 A2 A3 A4 A5 A6 A7 A8 A9 A10 A11 A12 A13 A14 A15 A16.
  unfold run_state_machine, max_mainloop_runs. apply run_more, wp_round; [congruence|].
  intros s2 l2 E2 _ D2. pose proof E2 as E2'. injection E2 as B1 B2 B3 B4 B5 B6 B7 B8 _.
  eapply wp_mono; [apply round_charging_unpowered|]; [congruence..|by rewrite B8|]. cbv beta.
  intros _ s3 l3 [E3 D3]. injection E3 as C1 C2 C3 C4 C5 C6 C7 C8 _.
  split; [done|]. assert (last_state_detect_state_change s3 <> current_state s3) as Hd.
  { rewrite D3, D2, C1, A1, Hs. done. }
  split; [done|]. apply run_last, wp_round; [cbn in *; congruence|].
  intros s4 l4 E4 _ D4. rewrite (entered_initializes _ Hd).
  injection E4 as F1 F2 F3 F4 F5 F6 F7 F8 _. cbn in *.
  apply (wp_switch w EvseState.WaitingForEnergy); [congruence|]. unfold post, case_WaitingForEnergy.
  apply wp_get. cbn [when]. apply wp_bind, wp_get, wp_emit. apply wp_when.
  - intros _. unfold pwm_off. do 4 (apply wp_bind, wp_modify). unfold wp. cbn.
    intros D5. split_and!; [congruence|congruence| |done].
    assert (max_current s4 = max_current s1) as -> by congruence. exact Hm.
  - intros Hfive D5. apply negb_false_iff in Hfive. split_and!; [congruence|congruence| |congruence].
    assert (max_current s4 = max_current s1) as -> by congruence. exact Hm.
Qed.

(** The same session, a second after the budget ended. *)
Definition ex_out_of_budget : charger (list Error) :=
  ex_state (ex_charging ++ [op_time 1001000 1001000]).

Lemma expired_budget_stops_charging_witness :
  current_state ex_out_of_budget = EvseState.Charging
  /\ current_state (run_state (main_loop_round ex_world) ex_out_of_budget)
     = EvseState.WaitingForEnergy.
Proof.
  assert (current_state ex_out_of_budget = EvseState.Charging) as Hs by (vm_compute; reflexivity).
  split; [exact Hs|].
  apply (expired_budget_stops_charging ex_world ex_out_of_budget Hs); try (vm_compute; reflexivity).
  vm_compute. discriminate.
Defined.

(** ** Fatal errors *)

Section Fatal.
Context {M : Type} `{ErrorMonitor M} (w : world).
Implicit Types (s : charger M) (l : list logged).

Definition shown s := (current_state s, ChargerTypes.pwm_running s).

Lemma deny_run why s l :
  wp (allow_power (M := M) false why) (fun _ s' _ =>
    power_on_allowed (bsp s') = false /\ shown s' = shown s) s l.
Proof. unfold allow_power, emit. by apply wp_bind, wp_get, wp_emit. Qed.

(** Both shutdowns take the power away; the emergency also the PWM. *)
Lemma shutdown_run s l :
  shutdown_type s <> ShutdownType.None -> last_shutdown_type s <> shutdown_type s ->
  wp (stop_charging_on_fatal_error_internal (M := M)) (fun b s' _ => b = true
    /\ power_on_allowed (bsp s') = false /\ current_state s' = current_state s
    /\ (shutdown_type s = ShutdownType.EmergencyShutdown -> ChargerTypes.pwm_running s' = false)) s l.
Proof.
  intros Hn Hl. unfold stop_charging_on_fatal_error_internal. apply wp_get, wp_bind.
  apply wp_mono with (Q := fun b (s' : charger M) _ => b = true
    /\ power_on_allowed (bsp s') = false /\ current_state s' = current_state s
    /\ (shutdown_type s = ShutdownType.EmergencyShutdown -> ChargerTypes.pwm_running s' = false)).
  2: { intros b s1 l1 Hq. by apply wp_bind, wp_modify, wp_bind, wp_modify, wp_ret. }
  destruct (shutdown_type s) eqn:Hs; [done|..]; unfold ShutdownType.eqb;
    rewrite bool_decide_eq_false_2 by done; cbn [negb]; apply wp_bind, wp_bind, wp_modify, wp_get.
  - apply wp_bind. eapply wp_stays with (f := shown); [stays_steps|]. intros _ s1 l1 [= E1 E2].
    apply wp_bind. eapply wp_mono; [apply deny_run|]. cbv beta. intros _ s2 l2 [Hp [= E3 E4]].
    apply wp_get, wp_emit, wp_ret. split_and!; [done|done|by rewrite E3, E1|done].
  - apply wp_bind. apply wp_mono with (Q := fun _ (s1 : charger M) _ =>
      current_state s1 = current_state s /\ ChargerTypes.pwm_running s1 = false).
    { apply wp_if; intros Hp; [|by apply wp_ret]. unfold pwm_off. by do 4 (apply wp_bind, wp_modify). }
    intros _ s1 l1 [E1 E2]. apply wp_bind. eapply wp_stays with (f := shown); [stays_steps|].
    intros _ s2 l2 [= E3 E4]. eapply wp_mono; [apply deny_run|]. cbv beta.
    intros _ s3 l3 [Hp [= E5 E6]]. apply wp_ret. split_and!; [done|done|congruence|congruence].
Qed.

Lemma fatal_round s l :
  current_state s = EvseState.Charging -> shutdown_type s <> ShutdownType.None ->
  last_shutdown_type s <> shutdown_type s -> ac_with_soc_timeout s = false ->
  wp (main_loop_round w) (fun _ s' _ =>
    current_state s' = EvseState.Charging /\ power_on_allowed (bsp s') = false
    /\ (shutdown_type s = ShutdownType.EmergencyShutdown -> ChargerTypes.pwm_running s' = false)) s l.
Proof.
  intros Hs Hn Hl Hsoc. unfold main_loop_round. apply wp_bind.
  eapply wp_stays with (f := fun s => (current_state s, shutdown_type s, last_shutdown_type s,
    ac_with_soc_timeout s)); [stays_steps|].
  intros _ s1 l1 [= E1 E2 E3 E4]. apply wp_bind.
  apply (wp_mono _ (fun _ (s' : charger M) _ =>
    current_state s' = EvseState.Charging /\ power_on_allowed (bsp s') = false
    /\ (shutdown_type s = ShutdownType.EmergencyShutdown -> ChargerTypes.pwm_running s' = false)));
    [|intros; by apply wp_ret].
  unfold run_state_machine, max_mainloop_runs. apply run_last, wp_round; [congruence|].
  intros s2 l2 F2 G2 D2. injection F2 as F1 _ F3 _.
  apply (wp_switch w EvseState.Charging); [congruence|]. unfold case_Charging.
  apply wp_bind. eapply wp_stays with (f := fun s => (current_state s, shutdown_type s,
    last_shutdown_type s)); [stays_steps|]. intros _ s3 l3 [= A1 A2 A3].
  apply wp_bind. eapply wp_stays with (f := fun s => (current_state s, shutdown_type s,
    last_shutdown_type s)); [stays_steps|]. intros _ s4 l4 [= B1 B2 B3].
  apply wp_bind. eapply wp_mono; [apply shutdown_run; congruence|]. cbv beta.
  intros b s5 l5 (-> & Hp & Hc & He). apply wp_ret. intros D5.
  split; [congruence|]. split_and!; [congruence|done|]. intros Hx. apply He. congruence.
Qed.
End Fatal.

(** C17: in every history, when the charger is in [Charging] with a shutdown for a fatal
    error pending that it has not handled yet ([last_shutdown_type] differs from
    [shutdown_type]), and not in an AC session with a timeout back to DC
    ([ac_with_soc_timeout]), the next round of its main loop takes the permission
    for the contactors away and keeps the state; an emergency shutdown also stops
    the PWM.  One that was handled before, in [PrepareCharging], is not handled again
    ([handled_shutdown_keeps_power]). *)
Theorem fatal_error_stops_power {M} `{ErrorMonitor M} (h : history M) w w' mem lock_in_b errors type id :
  let s0 := new_Charger w' mem (new_IECStateMachine lock_in_b) errors type id in
  let s := run_state (run_history h) s0 in
  current_state s = EvseState.Charging -> shutdown_type s <> ShutdownType.None ->
  last_shutdown_type s <> shutdown_type s -> ac_with_soc_timeout s = false ->
  let h' := h ++ [(w, op_main_loop)] in
  let s' := run_state (run_history h') s0 in
  permission false (bsp_outs (run_out (run_history h') s0)) = false
  /\ current_state s' = EvseState.Charging
  /\ (shutdown_type s = ShutdownType.EmergencyShutdown -> ChargerTypes.pwm_running s' = false).
Proof.
  intros s0 s Hs Hn Hl Hsoc h' s'.
  destruct (wp_run _ _ _ _ (fatal_round w s [] Hs Hn Hl Hsoc)) as (_ & _ & Hc & Hp & He).
  pose proof (run_history_snoc h w op_main_loop s0 : s' = run_state (main_loop_round w) s) as E.
  rewrite <- E in Hc, Hp, He. split; [|done].
  pose proof (history_inv h' w' mem lock_in_b errors type id) as Hi. fold s0 s' in Hi.
  destruct (inv_safe _ _ Hi) as [Hsafe _ _].
  destruct (permission false _) eqn:HP; [|done].
  assert (power_on_allowed (bsp s') = true) as Hx by (by apply Hsafe). congruence.
Qed.

(** A fatal error of the board while charging. *)
Definition ex_rcd_error : Error :=
  mkError "evse_board_support/MREC2GroundFailure" "" "RCD" Severity.High "".
Definition ex_fatal : list (charger_op (list Error)) :=
  ex_charging ++ [op_errors (device_errors (mkEh [] [ex_rcd_error] [] [] [] [] [] [] false));
                  op_error_thread].

Lemma fatal_error_stops_power_witness :
  let s := run_state (run_history (with_world ex_fatal)) ex_new in
  current_state s = EvseState.Charging /\ shutdown_type s = ShutdownType.EmergencyShutdown
  /\ permission false (bsp_outs (run_out (run_history
       (with_world ex_fatal ++ [(ex_world, op_main_loop)])) ex_new)) = false.
Proof.
  intros s. assert (current_state s = EvseState.Charging) as Hs by (vm_compute; reflexivity).
  assert (shutdown_type s = ShutdownType.EmergencyShutdown) as Hx by (vm_compute; reflexivity).
  split; [exact Hs|split; [exact Hx|]].
  pose proof (fatal_error_stops_power (with_world ex_fatal) ex_world ex_world ex_memory true ex_errors
    Connector_type.IEC62196Type2Cable "EVSE1") as Hf. cbv zeta in Hf. fold ex_new in Hf. fold s in Hf.
  destruct (Hf Hs ltac:(rewrite Hx; discriminate) ltac:(rewrite Hx; vm_compute; discriminate)
    ltac:(vm_compute; reflexivity)) as [Hr _]. exact Hr.
Defined.

(** A shutdown handled in [PrepareCharging], where a DC charger allows power in every
    round, also after it: in [Charging] it is not handled again, and the permission
    stays. *)
Example handled_shutdown_keeps_power :
  let ops := ex_start ChargeMode.DC
    ++ [op_authorize true ex_token []; op_main_loop; op_hlc_allow_close true; op_board_event BspEvent.C;
        op_iec_feed 0; ex_device_error ex_high_temperature; op_error_thread; op_main_loop; op_main_loop;
        op_iec_feed 0; op_currentdemand_started; op_main_loop; op_iec_feed 0; op_main_loop; op_iec_feed 0] in
  let s := ex_state ops in
  current_state s = EvseState.Charging /\ shutdown_type s = ShutdownType.ErrorShutdown
  /\ last_shutdown_type s = ShutdownType.ErrorShutdown
  /\ permission false (bsp_outs (ex_log ops)) = true.
Proof. vm_compute. repeat split. Qed.

(** ** From the authorization to power *)

Section Ready.
Context {M : Type} `{ErrorMonitor M} (w : world).
Implicit Types (s : charger M) (l : list logged).

(** AC charging without HLC has all it needs. *)
Record supplied s : Prop := {
  su_ac : charge_mode s = ChargeMode.AC;
  su_hlc : ac_hlc_enabled_current_session s = false;
  su_5percent : hlc_use_5percent_current_session s = false;
  su_cable : connector_type s = Connector_type.IEC62196Type2Cable;
  su_requested : iec_allow_close_contactor s = true;
  su_current : (59 # 10 < max_current s)%Q;
  su_budget : steady_clock s <= max_current_valid_until s;
  su_errors : shutdown_type s = ShutdownType.None;
  su_soc : ac_with_soc_timeout s = false;
}.

(** What [supplied] depends on. *)
Definition supply s :=
  (config_context s, ac_hlc_enabled_current_session s, hlc_use_5percent_current_session s,
   connector_type s, iec_allow_close_contactor s, max_current s, steady_clock s,
   max_current_valid_until s, shutdown_type s, ac_with_soc_timeout s).

Lemma supplied_same s s' : supply s' = supply s -> supplied s -> supplied s'.
Proof.
  intros E [H1 H2 H3 H4 H5 H6 H7 H8 H9]. injection E as E1 E2 E3 E4 E5 E6 E7 E8 E9 E10.
  split; congruence.
Qed.

Lemma facts_supply s s' : facts s' = facts s -> supply s' = supply s.
Proof. unfold facts, supply. intros E. injection E. congruence. Qed.

Lemma power_there (Q : bool -> charger M -> list logged -> Prop) s l :
  supplied s -> Q true s l -> wp power_available Q s l.
Proof.
  intros Hs HQ. unfold power_available. apply wp_get.
  assert ((0 <? Z.quot (steady_clock s - max_current_valid_until s) 1000) = false) as ->.
  { apply Z.ltb_ge. pose proof (su_budget s Hs) as Hb.
    set (d := steady_clock s - max_current_valid_until s).
    pose proof (Z.quot_pos (- d) 1000 ltac:(lia) ltac:(lia)) as Hq.
    rewrite Z.quot_opp_l in Hq by discriminate. lia. }
  apply wp_bind, wp_ret, wp_get, wp_ret.
  assert (Qltb (59 # 10) (get_max_current_internal s) = true) as ->; [|done].
  unfold get_max_current_internal. rewrite (su_cable s Hs).
  change (Connector_type.eqb Connector_type.IEC62196Type2Cable Connector_type.IEC62196Type2Socket)
    with false. cbn [andb].
  unfold Qltb. apply negb_true_iff. destruct (Qle_bool _ _) eqn:E; [|done].
  apply Qle_bool_iff in E. pose proof (su_current s Hs). lra.
Qed.

Lemma no_fatal (Q : bool -> charger M -> list logged -> Prop) s l :
  supplied s -> (forall s', supply s' = supply s -> shown s' = shown s ->
    transaction_active s' = transaction_active s -> Q false s' l) ->
  wp stop_charging_on_fatal_error_internal Q s l.
Proof.
  intros Hs HQ. unfold stop_charging_on_fatal_error_internal. apply wp_get. rewrite (su_errors s Hs).
  apply wp_bind, wp_ret, wp_bind, wp_modify, wp_bind, wp_modify, wp_ret. by apply HQ.
Qed.

Lemma supplied_AC s : supplied s -> is_AC s = true /\ is_DC s = false.
Proof. intros Hs. unfold is_AC, is_DC. by rewrite (su_ac s Hs). Qed.

(** No meter fails. *)
Definition meters_start : Prop :=
  forall i req, start_response w i req <> TransactionRequestStatus.UNEXPECTED_ERROR.

Definition progress s := (supply s, current_state s, transaction_active s).

Lemma start_meters_ok meters s l :
  meters_start ->
  wp (start_meters w meters) (fun b s' _ => b = true /\ progress s' = progress s) s l.
Proof.
  intros Hm. revert s l. induction meters as [|i rest IH]; intros s l; cbn [start_meters];
    [by apply wp_ret|].
  apply wp_get, wp_bind, wp_get, wp_emit.
  destruct (start_response w i _) eqn:E; [apply IH|apply IH|]. by destruct (Hm _ _ E).
Qed.

Lemma round_authorized i t now s l :
  meters_start -> supplied s -> current_state s = EvseState.WaitingForAuthentication ->
  authorized s = true -> authorized_pnc s = false -> i = false ->
  wp (state_switch w i t now) (fun _ s' _ =>
    supply s' = supply s /\ current_state s' = EvseState.PrepareCharging
    /\ transaction_active s' = true
    /\ last_state_detect_state_change s' = last_state_detect_state_change s) s l.
Proof.
  intros Hm Hs Hst Ha Hp ->. apply (wp_switch w EvseState.WaitingForAuthentication); [done|].
  destruct (supplied_AC s Hs) as [HAC HDC].
  unfold case_WaitingForAuthentication. apply wp_bind, wp_ret, wp_bind. unfold read_pp. apply wp_get.
  rewrite (su_cable s Hs).
  change (Connector_type.eqb Connector_type.IEC62196Type2Cable Connector_type.IEC62196Type2Socket)
    with false. cbn [andb]. apply wp_ret, wp_bind.
  unfold warn_no_energy. apply wp_get. rewrite HDC. apply wp_ret.
  unfold check_authorization. apply wp_get. rewrite Ha, Hp. cbn [andb negb]. apply wp_bind.
  apply wp_mono with (Q := fun b s' _ =>
    b = true /\ supply s' = supply s /\ transaction_active s' = true).
  { apply wp_if; intros Ht; [|apply wp_ret; by apply negb_false_iff in Ht].
    unfold start_transaction. do 3 (apply wp_bind, wp_modify). apply wp_bind.
    eapply wp_mono; [by apply start_meters_ok|]. cbv beta. intros b s1 l1 [-> E1]. apply wp_get, wp_bind.
    eapply wp_stays with (f := progress); [stays_steps|]. intros _ s2 l2 E2.
    apply wp_bind, wp_get, wp_emit, wp_ret. rewrite E1 in E2. unfold progress in E2.
    split; [done|]. injection E2. intros. split; [unfold supply; cbn in *; congruence|done]. }
  intros b s1 l1 (-> & E1 & Ht). cbn [when]. unfold proceed_EIM. apply wp_get.
  rewrite (su_hlc s1 (supplied_same _ _ E1 Hs)), andb_false_r. apply wp_modify. intros D.
  by split_and!.
Qed.

Lemma round_prepared t now s l :
  supplied s -> current_state s = EvseState.PrepareCharging ->
  wp (state_switch w true t now) (fun _ s' _ =>
    supply s' = supply s /\ current_state s' = EvseState.Charging
    /\ transaction_active s' = transaction_active s
    /\ last_state_detect_state_change s' = last_state_detect_state_change s) s l.
Proof.
  intros Hs Hst. apply (wp_switch w EvseState.PrepareCharging); [done|].
  destruct (supplied_AC s Hs) as [HAC HDC]. unfold case_PrepareCharging. apply wp_get. rewrite HDC.
  cbn [when andb]. apply wp_bind. eapply wp_stays with (f := progress); [stays_steps|].
  intros _ s1 l1 [= E1]. assert (supply s1 = supply s) as E by (unfold supply; congruence).
  pose proof (supplied_same _ _ E Hs) as Hs1. apply wp_bind, wp_ret, wp_bind.
  apply no_fatal; [done|]. intros s2 E2 _ T2. apply wp_get. apply wp_bind.
  eapply wp_stays with (f := fun s => (supply s, transaction_active s)); [stays_steps|].
  intros _ s3 l3 E3. assert (supply s3 = supply s) as E4 by congruence.
  pose proof (supplied_same _ _ E4 Hs) as Hs3.
  assert (is_AC s2 = true) as -> by (apply supplied_AC; by apply (supplied_same s1)).
  cbn [when]. unfold prepare_AC. apply wp_bind, power_there; [done|]. cbn [negb]. apply wp_get.
  unfold may_close. rewrite (su_requested s3 Hs3), (su_5percent s3 Hs3). cbn [andb orb negb].
  apply wp_bind, wp_get, wp_emit, wp_modify. intros D. split_and!; try done. cbn. congruence.
Qed.

(** The PWM leaves the permission for power alone. *)
Lemma pwm_keeps_power dc s l :
  wp (bsp_call (M := M) (set_pwm dc)) (fun _ s' _ =>
    power_on_allowed (bsp s') = power_on_allowed (bsp s) /\ progress s' = progress s) s l.
Proof.
  unfold wp, bsp_call, set_pwm, feed_state_machine, IECStateMachine.put. cbn.
  by destruct (_ && _).
Qed.

Lemma pwm_ampere_keeps_power a s l :
  wp (update_pwm_now_if_changed_ampere (M := M) a) (fun _ s' _ =>
    power_on_allowed (bsp s') = power_on_allowed (bsp s) /\ progress s' = progress s) s l.
Proof.
  unfold update_pwm_now_if_changed_ampere, update_pwm_now. apply wp_get, wp_if; intros _; [|by apply wp_ret].
  apply wp_bind, wp_bind, wp_modify, wp_bind, wp_modify, wp_get, wp_bind, wp_modify, wp_bind, wp_modify.
  eapply wp_mono; [apply pwm_keeps_power|]. cbv beta. intros _ s1 l1 [E1 E2]. by apply wp_modify.
Qed.

Lemma allow_run why s l :
  wp (allow_power (M := M) true why) (fun _ s' _ =>
    power_on_allowed (bsp s') = true /\ progress s' = progress s) s l.
Proof. unfold allow_power, emit. by apply wp_bind, wp_get, wp_emit. Qed.

Lemma round_charging t now s l :
  supplied s -> current_state s = EvseState.Charging ->
  wp (state_switch w true t now) (fun _ s' _ =>
    power_on_allowed (bsp s') = true /\ current_state s' = EvseState.Charging
    /\ transaction_active s' = transaction_active s
    /\ last_state_detect_state_change s' = last_state_detect_state_change s) s l.
Proof.
  intros Hs Hst. apply (wp_switch w EvseState.Charging); [done|]. unfold case_Charging.
  apply wp_bind. eapply wp_stays with (f := progress); [stays_steps|]. intros _ s1 l1 E1.
  apply wp_bind. eapply wp_stays with (f := progress); [stays_steps|]. intros _ s2 l2 E2.
  assert (progress s2 = progress s) as E by congruence. clear E1 E2 s1 l1.
  assert (supply s2 = supply s) as Es by (unfold progress in E; congruence).
  pose proof (supplied_same _ _ Es Hs) as Hs2. apply wp_bind, no_fatal; [done|]. intros s3 E3 V3 T3.
  pose proof (supplied_same _ _ E3 Hs2) as Hs3. apply wp_get.
  rewrite (proj2 (supplied_AC _ Hs3)). unfold charge_AC. apply wp_bind.
  eapply wp_stays with (f := progress); [stays_steps|]. intros _ s4 l4 E4.
  assert (supply s4 = supply s3) as Es4 by (unfold progress in E4; congruence).
  pose proof (supplied_same _ _ Es4 Hs3) as Hs4. apply wp_bind, power_there; [done|]. cbn [negb].
  apply wp_get. apply wp_bind. eapply wp_stays with (f := progress); [stays_steps|]. intros _ s5 l5 E5.
  apply wp_bind, wp_modify, wp_bind. eapply wp_mono; [apply allow_run|]. cbv beta. intros _ s6 l6 [Hp E6].
  rewrite (su_5percent s4 Hs4). eapply wp_mono; [apply pwm_ampere_keeps_power|]. cbv beta.
  intros _ s7 l7 [Hp7 E7] D.
  change (progress (update shared_context (assign legacy_wakeup_done false) s5)) with (progress s5) in E6.
  assert (progress s7 = progress s4) as E8 by congruence.
  assert (current_state s3 = current_state s2) as C3 by (by injection V3).
  unfold progress in E, E4, E8.
  split_and!; [congruence|congruence|congruence|exact D].
Qed.

(** C35: suppose an AC charger with a tethered cable, in a session without HLC and
    without the 5% duty cycle, and with no timeout back to DC ([supplied], which
    also says that there is a budget of more than 5.9 A, that the EV asks for power
    and that no shutdown is pending) is in [WaitingForAuthentication], where it has
    been for a round already, has got the authorization from outside and not by
    Plug&Charge, and the meters start.  Then one round of the main loop starts the
    transaction, goes through the preparation to [Charging], and allows power. *)
Theorem authorized_session_charges s :
  meters_start -> supplied s -> current_state s = EvseState.WaitingForAuthentication ->
  initializes s = false -> authorized s = true -> authorized_pnc s = false ->
  let s' := run_state (main_loop_round w) s in
  current_state s' = EvseState.Charging /\ transaction_active s' = true
  /\ power_on_allowed (bsp s') = true.
Proof.
  intros Hm Hs Hst Hi Ha Hp. cbv zeta. set (post := fun s' : charger M =>
    current_state s' = EvseState.Charging /\ transaction_active s' = true
    /\ power_on_allowed (bsp s') = true).
  assert (wp (main_loop_round w) (fun _ s' _ => post s') s []) as Hw;
    [|by destruct (wp_run _ _ _ _ Hw) as (_ & _ & Hq)].
  unfold main_loop_round. apply wp_bind, power_there; [done|]. apply wp_bind.
  eapply (wp_mono _ (fun _ s' _ => post s')); [|intros; by apply wp_ret].
  unfold run_state_machine, max_mainloop_runs. apply run_more, wp_round; [apply Hs|].
  intros s1 l1 F1 _ D1. pose proof (supplied_same _ _ (facts_supply _ _ F1) Hs) as Hs1.
  assert (current_state s1 = current_state s /\ authorized s1 = authorized s
    /\ authorized_pnc s1 = authorized_pnc s) as (A1 & A2 & A3) by (injection F1; auto).
  eapply wp_mono; [apply round_authorized; try done; congruence|]. cbv beta.
  intros _ s2 l2 (E2 & C2 & T2 & D2). pose proof (supplied_same _ _ E2 Hs1) as Hs2.
  split; [done|]. assert (last_state_detect_state_change s2 <> current_state s2) as N2.
  { rewrite D2, D1, C2, Hst. done. }
  split; [done|]. apply run_more, wp_round; [apply Hs2|]. intros s3 l3 F3 _ D3.
  rewrite (entered_initializes _ N2). pose proof (supplied_same _ _ (facts_supply _ _ F3) Hs2) as Hs3.
  assert (current_state s3 = current_state s2 /\ transaction_active s3 = transaction_active s2)
    as (A4 & A5) by (injection F3; auto).
  eapply wp_mono; [apply round_prepared; [done|congruence]|]. cbv beta.
  intros _ s4 l4 (E4 & C4 & T4 & D4). pose proof (supplied_same _ _ E4 Hs3) as Hs4.
  split; [done|]. assert (last_state_detect_state_change s4 <> current_state s4) as N4.
  { rewrite D4, D3, C4, C2. done. }
  split; [done|]. apply run_last, wp_round; [apply Hs4|]. intros s5 l5 F5 _ D5.
  rewrite (entered_initializes _ N4). pose proof (supplied_same _ _ (facts_supply _ _ F5) Hs4) as Hs5.
  assert (current_state s5 = current_state s4 /\ transaction_active s5 = transaction_active s4)
    as (A6 & A7) by (injection F5; auto).
  eapply wp_mono; [apply round_charging; [done|congruence]|]. cbv beta.
  intros _ s6 l6 (P6 & C6 & T6 & D6). split; [congruence|]. split_and!; congruence.
Qed.
End Ready.

(** Plugged in, asking for power, and just authorized. *)
Definition ex_ready : charger (list Error) :=
  ex_state (ex_start ChargeMode.AC
    ++ [op_cp_event CPEvent.CarRequestedPower; op_main_loop; op_authorize true ex_token []]).

Lemma authorized_session_charges_witness :
  current_state ex_ready = EvseState.WaitingForAuthentication
  /\ power_on_allowed (bsp (run_state (main_loop_round ex_world) ex_ready)) = true.
Proof.
  assert (current_state ex_ready = EvseState.WaitingForAuthentication) as Hs
    by (vm_compute; reflexivity).
  split; [exact Hs|].
  apply (authorized_session_charges ex_world ex_ready); try exact Hs; try (vm_compute; reflexivity).
  - intros i req. discriminate.
  - split; try (vm_compute; reflexivity). vm_compute. discriminate.
Defined.
