(* ===== verification/EnergyTypes.v ===== *)
(** * The data of the energy tree

    The types that [types/energy.yaml] describes, the schedules of
    [Market.hpp] and the dates the energy modules read and write.  Numbers
    ([float] in the generated code) are rationals, time points are
    nanoseconds. *)
From S2P Require Import Prelude Effects.
From stdpp Require Import base tactics list numbers strings gmap.
From Stdlib Require Import QArith.
Open Scope Z_scope.

(** Comparison of numbers; [Qle_bool] is [<=], [Qeq_bool] is [==]. *)
Definition Qlt_bool (a b : Q) : bool := negb (Qle_bool b a).

(** ** Dates *)

(** [Everest::Date] and the [date] library: conversion of time stamps and the
    leap seconds inserted up to a time point. *)
Class Dates := {
  from_rfc3339 : string -> Z;
  to_rfc3339 : Z -> string;
  leap_seconds_elapsed : Z -> Z
}.

(** A time stamp is written with milliseconds: a time point in whole
    milliseconds is read back.  Leap seconds are whole seconds. *)
Definition whole_ms (t : Z) : Prop := (1000000 | t).
Class DatesLaws `{Dates} : Prop := {
  from_to_rfc3339 t : whole_ms t -> from_rfc3339 (to_rfc3339 t) = t;
  leap_seconds_whole t : whole_ms (leap_seconds_elapsed t)
}.

Definition seconds (s : Z) : Z := s * 1000000000.
Definition minutes (m : Z) : Z := seconds (60 * m).
Definition hours (h : Z) : Z := minutes (60 * h).

(** ** Values with a source *)

Record NumberWithSource := Num { value : Q; source : string }.
Record IntegerWithSource := Int { ivalue : Z; isource : string }.

(** What the templates over the two types use of them. *)
Class WithSource (T : Type) := {
  number : T -> Q;
  source_of : T -> string;
  with_source : T -> string -> T
}.
#[global] Instance number_with_source : WithSource NumberWithSource := {
  number := value;
  source_of := source;
  with_source n s := Num (value n) s
}.
#[global] Instance integer_with_source : WithSource IntegerWithSource := {
  number n := inject_Z (ivalue n);
  source_of := isource;
  with_source n s := Int (ivalue n) s
}.

(** ** Requests and results *)

Inductive NodeType := Undefined | Evse | Generic.
Inductive EvseState :=
| Unplugged | WaitForAuth | WaitForEnergy | PrepareCharging | PausedEV
| PausedEVSE | Charging | Finished | Disabled.

#[global] Instance node_type_eq_dec : EqDecision NodeType.
Proof. solve_decision. Defined.
#[global] Instance evse_state_eq_dec : EqDecision EvseState.
Proof. solve_decision. Defined.

Record LimitsReq := mkLimitsReq {
  total_power_W : option NumberWithSource;
  ac_max_current_A : option NumberWithSource;
  ac_min_current_A : option NumberWithSource;
  ac_max_phase_count : option IntegerWithSource;
  ac_min_phase_count : option IntegerWithSource;
  ac_supports_changing_phases_during_charging : option bool;
  ac_number_of_active_phases : option Z
}.
#[global] Instance eta_LimitsReq : Eta LimitsReq := fun l =>
  mkLimitsReq (total_power_W l) (ac_max_current_A l) (ac_min_current_A l)
    (ac_max_phase_count l) (ac_min_phase_count l)
    (ac_supports_changing_phases_during_charging l) (ac_number_of_active_phases l).
Definition no_limits_req : LimitsReq := mkLimitsReq None None None None None None None.

(** The limits of a result are a type of their own, with the same names. *)
Module Res.
Record LimitsRes := mkLimitsRes {
  total_power_W : option NumberWithSource;
  ac_max_current_A : option NumberWithSource;
  ac_max_phase_count : option IntegerWithSource
}.
#[global] Instance eta_LimitsRes : Eta LimitsRes := fun l =>
  mkLimitsRes (total_power_W l) (ac_max_current_A l) (ac_max_phase_count l).
Definition no_limits : LimitsRes := mkLimitsRes None None None.
End Res.

Record PricePerkWh := mkPricePerkWh { p_timestamp : string; p_value : Q; p_currency : string }.

Record OptimizerTarget := mkOptimizerTarget {
  energy_amount_needed : option Q;
  charge_to_max_percent : option Q;
  car_battery_soc : option Q;
  leave_time : option string;
  price_limit : option Q;
  full_autonomy : option bool
}.

Record FrequencyWattPoint := mkPoint { frequency_Hz : Q; point_power_W : Q }.

Record SetpointType := mkSetpoint {
  sp_ac_current_A : option Q;
  sp_total_power_W : option Q;
  sp_frequency_table : option (list FrequencyWattPoint);
  sp_priority : Z;
  sp_source : string
}.

Record ScheduleSetpointEntry := mkSetpointEntry { s_timestamp : string; setpoint : option SetpointType }.

Record ScheduleReqEntry := mkReqEntry {
  timestamp : string;
  limits_to_root : LimitsReq;
  limits_to_leaves : LimitsReq;
  conversion_efficiency : option Q;
  price_per_kwh : option PricePerkWh
}.
#[global] Instance eta_ScheduleReqEntry : Eta ScheduleReqEntry := fun e =>
  mkReqEntry (timestamp e) (limits_to_root e) (limits_to_leaves e)
    (conversion_efficiency e) (price_per_kwh e).

Record ScheduleResEntry := mkResEntry {
  r_timestamp : string;
  r_limits_to_root : Res.LimitsRes;
  r_price_per_kwh : option PricePerkWh
}.
#[global] Instance eta_ScheduleResEntry : Eta ScheduleResEntry := fun e =>
  mkResEntry (r_timestamp e) (r_limits_to_root e) (r_price_per_kwh e).

Abbreviation ScheduleReq := (list ScheduleReqEntry).
Abbreviation ScheduleRes := (list ScheduleResEntry).
Abbreviation ScheduleSetpoints := (list ScheduleSetpointEntry).

(** Of a power meter's report the energy manager reads the frequency of L1. *)
Record Powermeter := mkPowermeter { frequency_L1 : option Q }.

#[warnings="-register-all"]
Inductive EnergyFlowRequest := mkRequest {
  uuid : string;
  node_type : NodeType;
  priority_request : option bool;
  evse_state : option EvseState;
  optimizer_target : option OptimizerTarget;
  energy_usage_root : option Powermeter;
  energy_usage_leaves : option Powermeter;
  schedule_import : ScheduleReq;
  schedule_export : ScheduleReq;
  schedule_setpoints : ScheduleSetpoints;
  children : list EnergyFlowRequest
}.
#[global] Instance eta_EnergyFlowRequest : Eta EnergyFlowRequest := fun e =>
  mkRequest (uuid e) (node_type e) (priority_request e) (evse_state e)
    (optimizer_target e) (energy_usage_root e) (energy_usage_leaves e)
    (schedule_import e) (schedule_export e) (schedule_setpoints e) (children e).

Record EnforcedLimits := mkEnforcedLimits {
  e_uuid : string;
  valid_for : Z;
  limits_root_side : Res.LimitsRes;
  schedule : ScheduleRes
}.

Record ExternalLimits := mkExternalLimits {
  x_schedule_import : ScheduleReq;
  x_schedule_export : ScheduleReq;
  x_schedule_setpoints : ScheduleSetpoints
}.

Record EnergyPriceSchedule := mkEnergyPriceSchedule {
  price_schedule_import : list PricePerkWh;
  price_schedule_export : list PricePerkWh
}.

(** ** Induction over a tree of requests *)

Section RequestInd.
Context (P : EnergyFlowRequest -> Prop).
Hypothesis P_node : forall r, Forall P (children r) -> P r.

Fixpoint request_ind (r : EnergyFlowRequest) : P r :=
  P_node r
    match r return Forall P (children r) with
    | mkRequest _ _ _ _ _ _ _ _ _ _ cs =>
        (fix go (cs : list EnergyFlowRequest) : Forall P cs :=
           match cs with
           | [] => List.Forall_nil P
           | c :: cs => Forall_cons_2 P c cs (request_ind c) (go cs)
           end) cs
    end.
End RequestInd.
