(* ===== verification/EnergyMarket.v ===== *)
(** * The market of the energy manager

    [Market.cpp] of [modules/EnergyManagement/EnergyManager]: the time slots
    of a run of the optimizer ([globals_t]), what is available at each node of
    the energy tree, and the trades.

    The objects of class [Market] live in a heap ([markets]).  The pointer to
    a market is the path from its node to the root, each element the position
    of a node among the children of its parent: the root is [[]] and the
    parent of [i :: p] is [p]. *)
From S2P Require Import Prelude Effects EnergyTypes.
From stdpp Require Import base tactics list numbers strings gmap sorting.
From Stdlib Require Import QArith.
Open Scope Z_scope.

(** ** The time slots *)

(** [debug] selects only what is logged and is left out. *)
Record globals_t := mkGlobals {
  start_time : Z;
  interval_duration : Z;
  slice_ampere : Q;
  slice_watt : Q;
  timestamps : list Z;
  zero_schedule_req : ScheduleReq;
  empty_schedule_req : ScheduleReq;
  zero_schedule_res : ScheduleRes;
  empty_schedule_res : ScheduleRes;
  empty_schedule_setpoints : ScheduleSetpoints
}.

(** After [create_timestamps] the member [schedule_length] is the number of
    time stamps. *)
Definition schedule_length (g : globals_t) : nat := length (timestamps g).

Section Globals.
Context `{Dates}.

(** [add_timestamps]: the time stamps of a node, then those of its children;
    the result is appended to [timestamps]. *)
Fixpoint add_timestamps (r : EnergyFlowRequest) : list Z :=
  map (fun t => from_rfc3339 (timestamp t)) (schedule_import r) ++
  map (fun t => from_rfc3339 (timestamp t)) (schedule_export r) ++
  map (fun t => from_rfc3339 (s_timestamp t)) (schedule_setpoints r) ++
  (fix go (cs : list EnergyFlowRequest) : list Z :=
     match cs with
     | [] => []
     | c :: cs => add_timestamps c ++ go cs
     end) (children r).

(** [std::unique]: of equal neighbours the first is kept. *)
Fixpoint std_unique (l : list Z) : list Z :=
  match l with
  | [] => []
  | x :: l' =>
      match std_unique l' with
      | [] => [x]
      | y :: l'' => if x =? y then x :: l'' else x :: y :: l''
      end
  end.

(** The time slots at the interval: [n] of them from [t] on. *)
Fixpoint predefined_slots (t interval : Z) (n : nat) : list Z :=
  match n with
  | O => []
  | S n => t :: predefined_slots (t + interval) interval n
  end.

Definition create_timestamps (start_time interval_duration : Z) (schedule_length : Z)
    (r : EnergyFlowRequest) : list Z :=
  let minutes_overflow := Z.rem start_time interval_duration in
  let start := start_time - minutes_overflow in
  let timepoint := start + leap_seconds_elapsed start_time in
  std_unique (merge_sort Z.le
    (predefined_slots timepoint interval_duration (Z.to_nat schedule_length) ++ add_timestamps r)).

Definition empty_req_entry (t : string) : ScheduleReqEntry :=
  mkReqEntry t no_limits_req no_limits_req None None.
Definition empty_res_entry (t : string) : ScheduleResEntry := mkResEntry t Res.no_limits None.

(** [create_empty_schedule] for the three kinds of schedules. *)
Definition create_empty_schedule {T} (entry : string -> T) (ts : list Z) : list T :=
  map (fun t => entry (to_rfc3339 t)) ts.

Definition zero_req_entry (t : string) : ScheduleReqEntry :=
  update limits_to_root (fun l =>
    assign total_power_W (Some (Num 0 EmptyString))
      (assign ac_max_current_A (Some (Num 0 EmptyString)) l)) (empty_req_entry t).
Definition zero_res_entry (t : string) : ScheduleResEntry :=
  update r_limits_to_root (fun l =>
    assign Res.total_power_W (Some (Num 0 EmptyString))
      (assign Res.ac_max_current_A (Some (Num 0 EmptyString)) l)) (empty_res_entry t).

(** [globals_t::init].  The durations of the configuration are positive. *)
Definition globals_init (start_time interval_minutes schedule_hours : Z)
    (slice_ampere slice_watt : Q) (r : EnergyFlowRequest) : globals_t :=
  let interval := minutes interval_minutes in
  let ts := create_timestamps start_time interval (Z.quot (hours schedule_hours) interval) r in
  mkGlobals start_time interval slice_ampere slice_watt ts
    (create_empty_schedule zero_req_entry ts)
    (create_empty_schedule empty_req_entry ts)
    (create_empty_schedule zero_res_entry ts)
    (create_empty_schedule empty_res_entry ts)
    (create_empty_schedule (fun t => mkSetpointEntry t None) ts).

End Globals.

(** ** Merging limits *)

Section Optionals.
Context {T : Type} `{WithSource T}.

Definition min_optional (a b : option T) : option T :=
  match a, b with
  | Some x, Some y => if Qlt_bool (number x) (number y) then a else b
  | Some _, None => a
  | None, _ => b
  end.

Definition max_optional (a b : option T) : option T :=
  match a, b with
  | Some x, Some y => if Qlt_bool (number y) (number x) then a else b
  | Some _, None => a
  | None, _ => b
  end.
End Optionals.

Section Resampling.
Context `{Dates}.

(** The search for the entry of a request that is valid at [tp_a], which
    [resample] and [get_max_available_energy] share: [first] is [ir ==
    request.begin()].  It ends at the last entry. *)
Fixpoint find_entry_from {T} (stamp : T -> string) (tp_a : Z) (first : bool) (request : list T) : option T :=
  match request with
  | [] => None
  | [r] => Some r
  | r :: ((r2 :: _) as rest) =>
      let tp_r_1 := from_rfc3339 (stamp r) in
      let tp_r_2 := from_rfc3339 (stamp r2) in
      if ((tp_r_1 <=? tp_a) && (tp_a <? tp_r_2)) || (first && (tp_a <? tp_r_1)) then Some r
      else find_entry_from stamp tp_a false rest
  end.
Definition find_entry {T} (stamp : T -> string) (tp_a : Z) (request : list T) : option T :=
  find_entry_from stamp tp_a true request.

Definition resample (g : globals_t) (request : ScheduleSetpoints) : ScheduleSetpoints :=
  map (fun s =>
    match find_entry s_timestamp (from_rfc3339 (s_timestamp s)) request with
    | Some r => mkSetpointEntry (s_timestamp s) (setpoint r)
    | None => s
    end) (empty_schedule_setpoints g).

(** [leaves_power_W / conversion_efficiency].  The efficiency is not zero:
    the division by it is by a positive number. *)
Definition leaves_power_at_root (r : ScheduleReqEntry) : option NumberWithSource :=
  (fun w => Num (value w / default 1%Q (conversion_efficiency r)) (source w)) <$>
    total_power_W (limits_to_leaves r).

(** The limits of both sides of a request, merged on the root side. *)
Definition merged_limits (r : ScheduleReqEntry) (l : LimitsReq) : LimitsReq :=
  mkLimitsReq
    (min_optional (leaves_power_at_root r) (total_power_W (limits_to_root r)))
    (min_optional (ac_max_current_A (limits_to_leaves r)) (ac_max_current_A (limits_to_root r)))
    (max_optional (ac_min_current_A (limits_to_root r)) (ac_min_current_A (limits_to_leaves r)))
    (min_optional (ac_max_phase_count (limits_to_root r)) (ac_max_phase_count (limits_to_leaves r)))
    (max_optional (ac_min_phase_count (limits_to_root r)) (ac_min_phase_count (limits_to_leaves r)))
    (ac_supports_changing_phases_during_charging l)
    (ac_number_of_active_phases (limits_to_root r)).

Definition get_max_available_energy (g : globals_t) (request : ScheduleReq) : ScheduleReq :=
  map (fun a =>
    match find_entry timestamp (from_rfc3339 (timestamp a)) request with
    | Some r =>
        assign price_per_kwh (price_per_kwh r) (update limits_to_root (merged_limits r) a)
    | None => a
    end) (empty_schedule_req g).
End Resampling.

(** ** Setpoints *)

(** The loop over the frequency table: [watt1], [watt2], [freq1]. *)
Fixpoint freq_table_loop (table : list FrequencyWattPoint) (freq watt1 watt2 freq1 : Q) : Q * Q * Q :=
  match table with
  | [] => (watt1, watt2, freq1)
  | e :: table =>
      if Qlt_bool freq (frequency_Hz e) then (watt1, point_power_W e, freq1)
      else freq_table_loop table freq (point_power_W e) (point_power_W e) (frequency_Hz e)
  end.

Definition get_watt_from_freq_table (table : list FrequencyWattPoint) (freq : Q) : Q :=
  match table with
  | [] => 0
  | [e] => point_power_W e
  | e :: _ =>
      let '(watt1, watt2, freq1) := freq_table_loop table freq (point_power_W e) 0 0 in
      watt1 + (freq - freq1) * (watt2 - watt1)
  end%Q.

Definition apply_limit_if_smaller (base : option NumberWithSource) (limit : Q) (src : string)
    : option NumberWithSource :=
  match base with
  | Some b => if Qlt_bool limit (value b) then Some (Num limit src) else base
  | None => Some (Num limit src)
  end.

(** A setpoint [v] for one quantity: [(import limit, export limit)]. *)
Definition apply_setpoint_value (v : Q) (src : string) (imp exp : option NumberWithSource)
    : option NumberWithSource * option NumberWithSource :=
  if Qle_bool 0 v then (apply_limit_if_smaller imp v src, Some (Num 0 src))
  else (Some (Num 0 src), apply_limit_if_smaller exp (- v) src).

Definition set_power (l : LimitsReq) (w : option NumberWithSource) : LimitsReq := assign total_power_W w l.
Definition set_current (l : LimitsReq) (a : option NumberWithSource) : LimitsReq := assign ac_max_current_A a l.

Definition apply_setpoint (sp : SetpointType) (freq : option Q) (imp exp : LimitsReq)
    : LimitsReq * LimitsReq :=
  let power v :=
    let '(i, e) := apply_setpoint_value v (sp_source sp) (total_power_W imp) (total_power_W exp) in
    (set_power imp i, set_power exp e) in
  match sp_ac_current_A sp, sp_total_power_W sp, sp_frequency_table sp, freq with
  | Some a, _, _, _ =>
      let '(i, e) := apply_setpoint_value a (sp_source sp) (ac_max_current_A imp) (ac_max_current_A exp) in
      (set_current imp i, set_current exp e)
  | None, Some w, _, _ => power w
  | None, None, Some table, Some f => power (get_watt_from_freq_table table f)
  | _, _, _, _ => (imp, exp)
  end.

Fixpoint apply_setpoints_loop (imp exp : ScheduleReq) (setpoints : ScheduleSetpoints) (freq : option Q)
    : ScheduleReq * ScheduleReq :=
  match imp, exp, setpoints with
  | i :: imp, e :: exp, s :: setpoints =>
      let '(imp', exp') := apply_setpoints_loop imp exp setpoints freq in
      match setpoint s with
      | Some sp =>
          let '(li, le) := apply_setpoint sp freq (limits_to_root i) (limits_to_root e) in
          (assign limits_to_root li i :: imp', assign limits_to_root le e :: exp')
      | None => (i :: imp', e :: exp')
      end
  | _, _, _ => (imp, exp)
  end.

Definition apply_setpoints (imp exp : ScheduleReq) (setpoints : ScheduleSetpoints) (freq : option Q)
    : ScheduleReq * ScheduleReq :=
  if decide (length setpoints <> length imp) then (imp, exp)
  else if decide (length setpoints <> length exp) then (imp, exp)
  else apply_setpoints_loop imp exp setpoints freq.

(** ** The nodes *)

Record Market := mkMarket {
  energy_flow_request : EnergyFlowRequest;
  nominal_ac_voltage : Q;
  import_max_available : ScheduleReq;
  export_max_available : ScheduleReq;
  setpoints : ScheduleSetpoints;
  sold_root : ScheduleRes
}.
#[global] Instance eta_Market : Eta Market := fun m =>
  mkMarket (energy_flow_request m) (nominal_ac_voltage m) (import_max_available m)
    (export_max_available m) (setpoints m) (sold_root m).

Abbreviation MarketPtr := (list nat).
Abbreviation markets := (gmap MarketPtr Market).
Definition is_root (p : MarketPtr) : bool := match p with [] => true | _ => false end.
Definition parent (p : MarketPtr) : MarketPtr := tail p.

Definition measured_frequency (r : EnergyFlowRequest) : option Q :=
  match energy_usage_root r ≫= frequency_L1 with
  | Some f => Some f
  | None => energy_usage_leaves r ≫= frequency_L1
  end.

Section Markets.
Context `{Dates} (g : globals_t).

(** The members a constructor sets before it creates the children. *)
Definition market_of (r : EnergyFlowRequest) (voltage : Q) : Market :=
  let max_available s :=
    match s with [] => zero_schedule_req g | _ => get_max_available_energy g s end in
  let sp := match schedule_setpoints r with
            | [] => empty_schedule_setpoints g
            | s => resample g s
            end in
  let '(imp, exp) := apply_setpoints (max_available (schedule_import r)) (max_available (schedule_export r))
                       sp (measured_frequency r) in
  mkMarket r voltage imp exp sp (empty_schedule_res g).

(** The constructor [Market::Market]: [p] is where the object lives, [i] the
    position of the next child. *)
Fixpoint create_market (r : EnergyFlowRequest) (voltage : Q) (p : MarketPtr) (ms : markets) : markets :=
  (fix go (cs : list EnergyFlowRequest) (i : nat) (ms : markets) : markets :=
     match cs with
     | [] => ms
     | c :: cs => go cs (S i) (create_market c voltage (i :: p) ms)
     end) (children r) O (<[p := market_of r voltage]> ms).

(** [get_list_of_evses]: the nodes of type [Evse], parents first.  The
    children of a market are those of its request. *)
Fixpoint get_list_of_evses (r : EnergyFlowRequest) (p : MarketPtr) : list MarketPtr :=
  (if bool_decide (node_type r = Evse) then [p] else []) ++
  (fix go (cs : list EnergyFlowRequest) (i : nat) : list MarketPtr :=
     match cs with
     | [] => []
     | c :: cs => get_list_of_evses c (i :: p) ++ go cs (S i)
     end) (children r) O.
End Markets.

(** ** What is available *)

(** The sold value as it is subtracted from what is available: what was
    bought in the other direction does not add to it. *)
Definition sold_value (add_sold : bool) (sold : option NumberWithSource) : Q :=
  let v := match sold with
           | Some n => ((if add_sold then 1 else -1) * value n)%Q
           | None => 0%Q
           end in
  if Qlt_bool 0 v then 0%Q else v.

Definition add_to (n : option NumberWithSource) (q : Q) : option NumberWithSource :=
  (fun n => Num (value n + q) (source n)) <$> n.

Definition available_limits (add_sold : bool) (l : LimitsReq) (sold : Res.LimitsRes) : LimitsReq :=
  update total_power_W (fun w => add_to w (sold_value add_sold (Res.total_power_W sold)))
    (update ac_max_current_A (fun a => add_to a (sold_value add_sold (Res.ac_max_current_A sold))) l).

Definition get_available_energy (m : Market) (max_available : ScheduleReq) (add_sold : bool) : ScheduleReq :=
  zip_with (fun a s => update limits_to_root (fun l => available_limits add_sold l (r_limits_to_root s)) a)
    max_available (sold_root m).
Definition get_available_energy_import (m : Market) : ScheduleReq :=
  get_available_energy m (import_max_available m) false.
Definition get_available_energy_export (m : Market) : ScheduleReq :=
  get_available_energy m (export_max_available m) true.

(** ** Trades *)

(** One quantity of [schedule_add]: what [b] sells is added to [a]. *)
Definition add_number (a b : option NumberWithSource) : option NumberWithSource :=
  match b with
  | Some y =>
      let src := if negb (Qeq_bool (value y) 0) then source y
                 else match a with Some x => source x | None => EmptyString end in
      Some (Num (value y + match a with Some x => value x | None => 0 end) src)
  | None => a
  end.

Definition add_phases (a b : option IntegerWithSource) : option IntegerWithSource :=
  match b, a with
  | Some y, Some x => if ivalue x <? ivalue y then b else a
  | Some _, None => b
  | None, _ => a
  end.

Definition add_limits (a b : Res.LimitsRes) : Res.LimitsRes :=
  Res.mkLimitsRes
    (add_number (Res.total_power_W a) (Res.total_power_W b))
    (add_number (Res.ac_max_current_A a) (Res.ac_max_current_A b))
    (add_phases (Res.ac_max_phase_count a) (Res.ac_max_phase_count b)).

Definition schedule_add (a b : ScheduleRes) : ScheduleRes :=
  if decide (length a <> length b) then a
  else zip_with (fun x y => update r_limits_to_root (fun l => add_limits l (r_limits_to_root y)) x) a b.

(** [Market::trade]: at the node, then at its parent, up to the root. *)
Fixpoint market_trade (p : MarketPtr) (traded : ScheduleRes) (ms : markets) : markets :=
  let ms := alter (update sold_root (fun s => schedule_add s traded)) p ms in
  match p with
  | [] => ms
  | _ :: parent => market_trade parent traded ms
  end.
