(* ===== verification/EnergyBroker.v ===== *)
(** * Offers and brokers

    [Offer.cpp]: what the nodes on the way to the root leave for one EVSE.
    [Broker.cpp] and [BrokerFastCharging.cpp]: how much of an offer is bought
    in each time slot.  A broker's context outlives a run of the optimizer and
    belongs to the uuid of its EVSE. *)
From S2P Require Import Prelude Effects EnergyTypes EnergyMarket.
From stdpp Require Import base tactics list numbers strings gmap.
From Stdlib Require Import QArith.
Open Scope Z_scope.

(** ** Offers *)

Section Limits.
Context {T : Type} `{WithSource T}.

Definition joined_source (a b : T) : T :=
  with_source a (source_of a +:+ "," +:+ source_of b).

Definition apply_one_limit_if_smaller (a b : option T) : option T :=
  match b, a with
  | Some y, Some x =>
      if Qlt_bool (number y) (number x) then b
      else if Qeq_bool (number x) (number y) then Some (joined_source x y)
      else a
  | Some _, None => b
  | None, _ => a
  end.

Definition apply_one_limit_if_greater (a b : option T) : option T :=
  match b, a with
  | Some y, Some x =>
      if Qlt_bool (number x) (number y) then b
      else if Qeq_bool (number x) (number y) then Some (joined_source x y)
      else a
  | Some _, None => b
  | None, _ => a
  end.
End Limits.

Definition apply_limits_entry (a b : ScheduleReqEntry) : ScheduleReqEntry :=
  let la := limits_to_root a in
  let lb := limits_to_root b in
  assign price_per_kwh (price_per_kwh b)
    (assign limits_to_root
      (mkLimitsReq
        (apply_one_limit_if_smaller (total_power_W la) (total_power_W lb))
        (apply_one_limit_if_smaller (ac_max_current_A la) (ac_max_current_A lb))
        (apply_one_limit_if_greater (ac_min_current_A la) (ac_min_current_A lb))
        (apply_one_limit_if_smaller (ac_max_phase_count la) (ac_max_phase_count lb))
        (apply_one_limit_if_greater (ac_min_phase_count la) (ac_min_phase_count lb))
        (ac_supports_changing_phases_during_charging la)
        (ac_number_of_active_phases lb)) a).

Definition apply_limits (a b : ScheduleReq) : ScheduleReq :=
  if decide (length a <> length b) then a else zip_with apply_limits_entry a b.

Record Offer := mkOffer {
  o_optimizer_target : option OptimizerTarget;
  import_offer : ScheduleReq;
  export_offer : ScheduleReq
}.

(** [create_offer_for_local_market]: from the root to the node, every node
    limits the offer. *)
Fixpoint create_offer_for_local_market (g : globals_t) (ms : markets) (p : MarketPtr) : Offer :=
  let o := match p with
           | [] => mkOffer None (empty_schedule_req g) (empty_schedule_req g)
           | _ :: parent => create_offer_for_local_market g ms parent
           end in
  match ms !! p with
  | Some m =>
      mkOffer (optimizer_target (energy_flow_request m))
        (apply_limits (import_offer o) (get_available_energy_import m))
        (apply_limits (export_offer o) (get_available_energy_export m))
  | None => o
  end.

(** ** Brokers *)

Inductive SlotType := Import | Export | Undecided.
Inductive Switch1ph3phMode := Never | Oneway | Both.
Inductive StickyNess := SinglePhase | ThreePhase | DontChange.
#[global] Instance slot_type_eq_dec : EqDecision SlotType.
Proof. solve_decision. Defined.
#[global] Instance switch_mode_eq_dec : EqDecision Switch1ph3phMode.
Proof. solve_decision. Defined.

Record BrokerConfig := mkBrokerConfig {
  switch_1ph_3ph_mode : Switch1ph3phMode;
  stickyness : StickyNess;
  max_nr_of_switches_per_session : Z;
  power_hysteresis_W : Z;
  time_hysteresis_s : Z
}.

Record BrokerContext := mkBrokerContext {
  number_1ph3ph_cycles : Z;
  last_ac_number_of_active_phases_import : Z;
  ts_1ph_optimal : Z
}.
#[global] Instance eta_BrokerContext : Eta BrokerContext := fun c =>
  mkBrokerContext (number_1ph3ph_cycles c) (last_ac_number_of_active_phases_import c) (ts_1ph_optimal c).

(** [BrokerContext::clear], at the time [now]. *)
Definition clear_context (now : Z) : BrokerContext := mkBrokerContext 0 0 now.

Record Broker := mkBroker {
  local_market : MarketPtr;
  first_trade : list bool;
  slot_type : list SlotType;
  num_phases : list IntegerWithSource;
  context : string;
  trading : ScheduleRes;
  traded : bool
}.
#[global] Instance eta_Broker : Eta Broker := fun b =>
  mkBroker (local_market b) (first_trade b) (slot_type b) (num_phases b) (context b)
    (trading b) (traded b).

Definition new_broker (g : globals_t) (m : MarketPtr) (context : string) : Broker :=
  let n := schedule_length g in
  mkBroker m (replicate n true) (replicate n Undecided) (replicate n (Int 0 "empty")) context [] false.

(** *** Buying *)

Definition buy_ampere_unchecked (index : nat) (ampere : NumberWithSource)
    (number_of_phases : IntegerWithSource) (b : Broker) : Broker :=
  update first_trade <[index := false]>
    (assign traded true
      (update trading (alter (update r_limits_to_root (fun l =>
        assign Res.ac_max_phase_count (Some number_of_phases)
          (assign Res.ac_max_current_A (Some ampere) l))) index) b)).

Definition buy_watt_unchecked (index : nat) (watt : NumberWithSource) (b : Broker) : Broker :=
  assign traded true
    (update trading (alter (update r_limits_to_root (fun l =>
      assign Res.total_power_W (Some watt) l)) index) b).

(** [(import ? +1 : -1)]. *)
Definition direction (import : bool) : Q := if import then 1%Q else (-1)%Q.

Section Buying.
Context (voltage : Q).

(** The watts of a current, and both bought at once. *)
Definition watt_of (ampere : Q) (number_of_phases : IntegerWithSource) : Q :=
  (ampere * inject_Z (ivalue number_of_phases) * voltage)%Q.
Definition buy_both (index : nat) (import : bool) (ampere : Q) (src : string)
    (number_of_phases : IntegerWithSource) (b : Broker) : Broker :=
  buy_watt_unchecked index (Num (direction import * watt_of ampere number_of_phases) src)
    (buy_ampere_unchecked index (Num (direction import * ampere) src) number_of_phases b).

Definition buy_ampere (o : ScheduleReqEntry) (index : nat) (ampere : Q) (allow_less import : bool)
    (number_of_phases : IntegerWithSource) (b : Broker) : bool * Broker :=
  match ac_max_current_A (limits_to_root o) with
  | None => (false, b)
  | Some max_current =>
      let buy_leftovers :=
        if allow_less && Qlt_bool 0 (value max_current) then
          match total_power_W (limits_to_root o) with
          | Some total_power =>
              if Qlt_bool 0 (value total_power) then
                if Qle_bool (watt_of (value max_current) number_of_phases) (value total_power) then
                  (true, buy_both index import (value max_current) (source max_current) number_of_phases b)
                else
                  let reduced_ampere :=
                    (value total_power / inject_Z (ivalue number_of_phases) / voltage)%Q in
                  (true, buy_both index import reduced_ampere (source total_power) number_of_phases b)
              else (false, b)
          | None =>
              (true, buy_ampere_unchecked index
                       (Num (direction import * value max_current) (source max_current)) number_of_phases b)
          end
        else (false, b) in
      if Qle_bool ampere (value max_current) then
        match total_power_W (limits_to_root o) with
        | Some total_power =>
            if Qle_bool (watt_of ampere number_of_phases) (value total_power) then
              (true, buy_both index import ampere (source max_current) number_of_phases b)
            else buy_leftovers
        | None =>
            (true, buy_ampere_unchecked index (Num (direction import * ampere) (source max_current))
                     number_of_phases b)
        end
      else buy_leftovers
  end.

Definition buy_watt (o : ScheduleReqEntry) (index : nat) (watt : Q) (allow_less import : bool)
    (b : Broker) : bool * Broker :=
  match total_power_W (limits_to_root o) with
  | None => (false, b)
  | Some total_power =>
      if Qle_bool watt (value total_power) then
        (true, buy_watt_unchecked index (Num (direction import * watt) (source total_power)) b)
      else if allow_less && Qlt_bool 0 (value total_power) then
        (true, buy_watt_unchecked index (Num (direction import * value total_power) (source total_power)) b)
      else (false, b)
  end.
End Buying.

(** *** The fast charging broker *)

Section TimeSlot.
Context `{Dates}.

Fixpoint slot_between (now : Z) (n : nat) (ts : list Z) : option nat :=
  match ts with
  | t :: ((t' :: _) as ts') =>
      if (t <? now) && (now <? t') then Some n else slot_between now (S n) ts'
  | _ => None
  end.

Definition active_slot (now : Z) (ts : list Z) : nat :=
  match ts with
  | [] => O
  | t0 :: _ =>
      if now <? t0 then O
      else if List.last ts 0 <? now then (length ts - 1)%nat
      else default O (slot_between now O ts)
  end.

Definition time_slot_active (g : globals_t) (i : nat) (offer : ScheduleReq) : bool :=
  (active_slot (start_time g) (map (fun e => from_rfc3339 (timestamp e)) offer) =? i)%nat.
End TimeSlot.

Definition is_zero (n : option NumberWithSource) : bool :=
  match n with Some n => Qeq_bool (value n) 0 | None => false end.
Definition can_trade (l : LimitsReq) : bool :=
  negb (is_zero (total_power_W l) || is_zero (ac_max_current_A l)).

Definition decide_slot_type (imp exp : LimitsReq) (s : SlotType) : SlotType :=
  match s with
  | Undecided => if can_trade imp then Import else if can_trade exp then Export else Undecided
  | _ => s
  end.

Definition positive_value (n : option NumberWithSource) : option Q :=
  match n with
  | Some n => if Qlt_bool 0 (value n) then Some (value n) else None
  | None => None
  end.

Definition three : IntegerWithSource := Int 3 "BrokerFastCharging_Fallback".
Definition max_phases (l : LimitsReq) : IntegerWithSource := default three (ac_max_phase_count l).
Definition min_phases (l : LimitsReq) : IntegerWithSource := default three (ac_min_phase_count l).
(** If not specified, the worst case: three phases are active. *)
Definition active_phases (l : LimitsReq) : Z := default 3 (ac_number_of_active_phases l).

Section FastCharging.
Context `{Dates} (g : globals_t) (config : BrokerConfig) (voltage : Q).
(** The readings of [date::utc_clock::now()], in order. *)
Context (utc_now : nat -> Z).

(** The context of the broker and the number of readings of the clock. *)
Abbreviation ContextState := (BrokerContext * nat)%type.

Definition min_power_3ph (imp : LimitsReq) : Q :=
  match ac_min_current_A imp with
  | Some a => (value a * inject_Z (ivalue (max_phases imp)) * voltage)%Q
  | None => 0%Q
  end.

(** The number of phases that fits the available power best. *)
Definition optimal_phases (imp : LimitsReq) (total_power : NumberWithSource) : IntegerWithSource :=
  if Qlt_bool (value total_power) (min_power_3ph imp) then
    Int (ivalue (min_phases imp)) (source total_power)
  else if bool_decide (switch_1ph_3ph_mode config = Both) &&
          Qlt_bool (min_power_3ph imp + inject_Z (power_hysteresis_W config)) (value total_power) then
    max_phases imp
  else Int (active_phases imp) "BrokerFastCharging_KeepNrOfPhases".

Definition switching_cycles_reached (c : BrokerContext) : bool :=
  (0 <? max_nr_of_switches_per_session config) &&
  (max_nr_of_switches_per_session config <? number_1ph3ph_cycles c).

Definition sticky_phases (imp : LimitsReq) : IntegerWithSource :=
  match stickyness config with
  | SinglePhase => min_phases imp
  | ThreePhase => max_phases imp
  | DontChange => Int (active_phases imp) "BrokerFastCharging_KeepNrOfPhases"
  end.

(** [duration_cast<seconds>(start_time - ts_1ph_optimal)]. *)
Definition stable_3ph (c : BrokerContext) : Z := Z.quot (start_time g - ts_1ph_optimal c) 1000000000.

(** The decision on the number of phases in the first trade of a slot:
    [(number_of_phases, number_of_switching_cycles_reached)]. *)
Definition decide_phases (imp : LimitsReq) (slot_is_active : bool) (cs : ContextState)
    : IntegerWithSource * bool * ContextState :=
  match total_power_W imp with
  | Some total_power =>
      if negb (bool_decide (switch_1ph_3ph_mode config = Never)) && Qlt_bool 0 (min_power_3ph imp) then
        let '(c, k) := cs in
        let reached := switching_cycles_reached c in
        let phases := if reached then sticky_phases imp else optimal_phases imp total_power in
        let '(c, k) :=
          if (ivalue phases =? ivalue (min_phases imp)) && slot_is_active
          then (assign ts_1ph_optimal (utc_now k) c, S k) else (c, k) in
        let phases :=
          if (0 <? time_hysteresis_s config) && slot_is_active then
            if (stable_3ph c <? time_hysteresis_s config) && (ivalue phases =? ivalue (max_phases imp))
            then min_phases imp else phases
          else phases in
        (phases, reached, (c, k))
      else (max_phases imp, false, cs)
  | None => (max_phases imp, false, cs)
  end.

(** The decision is stored in the context. *)
Definition count_cycles (imp : LimitsReq) (c : BrokerContext) : BrokerContext :=
  let c := if negb (active_phases imp =? last_ac_number_of_active_phases_import c)
           then update number_1ph3ph_cycles (fun n => n + 1) c else c in
  assign last_ac_number_of_active_phases_import (active_phases imp) c.

(** A slot in which energy is imported and a current limit is set. *)
Definition import_ampere (i : nat) (o : ScheduleReqEntry) (slot_is_active : bool)
    (b : Broker) (cs : ContextState) : Broker * ContextState :=
  let imp := limits_to_root o in
  let first := default false (first_trade b !! i) in
  let '(number_of_phases, reached, cs) :=
    if first then decide_phases imp slot_is_active cs
    else (Int (active_phases imp) "BrokerFastCharging_Default", false, cs) in
  let cs := (count_cycles imp cs.1, cs.2) in
  match (if first then positive_value (ac_min_current_A imp) else None) with
  | Some min_current =>
      let b := update num_phases <[i := number_of_phases]> b in
      let '(bought, b) := buy_ampere voltage o i min_current false true number_of_phases b in
      if negb bought && negb (bool_decide (switch_1ph_3ph_mode config = Never)) && negb reached then
        let number_of_phases := Int 1 "BrokerFastCharging_Buy3phFailed" in
        let b := update num_phases <[i := number_of_phases]> b in
        ((buy_ampere voltage o i min_current false true number_of_phases b).2, cs)
      else (b, cs)
  | None =>
      ((buy_ampere voltage o i (slice_ampere g) true true (default (Int 0 "empty") (num_phases b !! i)) b).2, cs)
  end.

Definition import_slot (i : nat) (o : ScheduleReqEntry) (slot_is_active : bool)
    (b : Broker) (cs : ContextState) : Broker * ContextState :=
  match ac_max_current_A (limits_to_root o), total_power_W (limits_to_root o) with
  | Some _, _ => import_ampere i o slot_is_active b cs
  | None, Some _ => ((buy_watt o i (slice_watt g) true true b).2, cs)
  | None, None => (b, cs)
  end.

Definition export_phases : IntegerWithSource := Int 3 "BrokerFastCharging_FixedValue".

Definition export_slot (i : nat) (o : ScheduleReqEntry) (b : Broker) : Broker :=
  let exp := limits_to_root o in
  match ac_max_current_A exp, total_power_W exp with
  | Some _, _ =>
      match (if default false (first_trade b !! i) then positive_value (ac_min_current_A exp) else None) with
      | Some min_current => (buy_ampere voltage o i min_current false false export_phases b).2
      | None => (buy_ampere voltage o i (slice_ampere g) true false export_phases b).2
      end
  | None, Some _ => (buy_watt o i (slice_watt g) true false b).2
  | None, None => b
  end.

(** One round of the loop of [tradeImpl]. *)
Definition trade_slot (offer : Offer) (i : nat) (st : Broker * ContextState) : Broker * ContextState :=
  let '(b, cs) := st in
  match import_offer offer !! i, export_offer offer !! i with
  | Some io, Some eo =>
      let slot_is_active := time_slot_active g i (import_offer offer) in
      let b := update slot_type (alter (decide_slot_type (limits_to_root io) (limits_to_root eo)) i) b in
      let b := update num_phases (alter (fun n =>
                 if ivalue n =? 0
                 then Int (active_phases (limits_to_root io)) "BrokerFastCharging_NumPhasesActive"
                 else n) i) b in
      match slot_type b !! i with
      | Some Import => import_slot i io slot_is_active b cs
      | Some Export => (export_slot i eo b, cs)
      | _ => (b, cs)
      end
  | _, _ => st
  end.

Definition tradeImpl (offer : Offer) (st : Broker * ContextState) : Broker * ContextState :=
  foldl (fun st i => trade_slot offer i st) st (seq 0 (schedule_length g)).

(** Buy nothing in the beginning: zero for the quantities that are limited. *)
Definition zero_trade (o : ScheduleReqEntry) (t : ScheduleResEntry) : ScheduleResEntry :=
  let zero (n : option NumberWithSource) := (fun _ => Num 0 EmptyString) <$> n in
  update r_limits_to_root (fun l => Res.mkLimitsRes
    (zero (total_power_W (limits_to_root o)))
    (zero (ac_max_current_A (limits_to_root o)))
    (Res.ac_max_phase_count l)) t.

(** [Broker::trade]: whether something was bought; [ms] are the markets. *)
Definition broker_trade (offer : Offer) (b : Broker) (cs : ContextState) (ms : markets)
    : bool * Broker * ContextState * markets :=
  let b := assign traded false
    (assign trading (zip_with zero_trade (import_offer offer) (empty_schedule_res g)) b) in
  if decide (length (import_offer offer) <> length (export_offer offer)) then (false, b, cs, ms)
  else
    let '(b, cs) := tradeImpl offer (b, cs) in
    (traded b, b, cs, market_trade (local_market b) (trading b) ms).
End FastCharging.
