(* ===== verification/EnergyManager.v ===== *)
(** * The energy manager

    [EnergyManagerImpl.cpp]: the optimizer that lets the brokers of all EVSEs
    trade until nobody buys anything more, and the limits it sends to the
    EVSEs.  [on_energy_flow_request] stores a new request and wakes the thread
    when the request has priority. *)
From S2P Require Import Prelude Effects EnergyTypes EnergyMarket EnergyBroker.
From stdpp Require Import base tactics list numbers strings gmap.
From Stdlib Require Import QArith.
Open Scope Z_scope.

(** [debug] is left out. *)
Record EnergyManagerConfig := mkEnergyManagerConfig {
  c_nominal_ac_voltage : Q;
  update_interval : Z;
  schedule_interval_duration : Z;
  schedule_total_duration : Z;
  c_slice_ampere : Q;
  c_slice_watt : Q;
  switch_3ph1ph_while_charging_mode : string;
  switch_3ph1ph_max_nr_of_switches_per_session : Z;
  switch_3ph1ph_switch_limit_stickyness : string;
  switch_3ph1ph_power_hysteresis_W : Z;
  switch_3ph1ph_time_hysteresis_s : Z
}.

Definition to_switch_1ph3ph_mode (m : string) : Switch1ph3phMode :=
  if bool_decide (m = "Both") then Both
  else if bool_decide (m = "Oneway") then Oneway else Never.

Definition to_stickyness (m : string) : StickyNess :=
  if bool_decide (m = "DontChange") then DontChange
  else if bool_decide (m = "SinglePhase") then SinglePhase else ThreePhase.

Definition to_broker_fast_charging_config (c : EnergyManagerConfig) : BrokerConfig :=
  mkBrokerConfig (to_switch_1ph3ph_mode (switch_3ph1ph_while_charging_mode c))
    (to_stickyness (switch_3ph1ph_switch_limit_stickyness c))
    (switch_3ph1ph_max_nr_of_switches_per_session c)
    (switch_3ph1ph_power_hysteresis_W c) (switch_3ph1ph_time_hysteresis_s c).

Fixpoint is_priority_request (e : EnergyFlowRequest) : bool :=
  if bool_decide (priority_request e = Some true) then true
  else (fix go (cs : list EnergyFlowRequest) : bool :=
          match cs with
          | [] => false
          | c :: cs => if is_priority_request c then true else go cs
          end) (children e).

Abbreviation contexts_t := (gmap string BrokerContext).

Section Optimizer.
Context `{Dates} (config : EnergyManagerConfig) (utc_now : nat -> Z).

(** ** The brokers *)

(** [contexts[uuid]]: a missing context is created. *)
Definition context_at (u : string) (cs : contexts_t * nat) : contexts_t * nat :=
  match cs.1 !! u with
  | Some _ => cs
  | None => (<[u := clear_context (utc_now cs.2)]> cs.1, S cs.2)
  end.

Definition needs_clear (r : EnergyFlowRequest) : bool :=
  bool_decide (evse_state r = Some Unplugged) || bool_decide (evse_state r = Some Finished).

Definition prepare_context (g : globals_t) (r : EnergyFlowRequest) (cs : contexts_t * nat) : contexts_t * nat :=
  let u := uuid r in
  let cs :=
    if needs_clear r then
      let '(ctx, k) := context_at u cs in
      let cleared := clear_context (utc_now k) in
      (<[u := assign ts_1ph_optimal (start_time g - seconds (switch_3ph1ph_time_hysteresis_s config)) cleared]> ctx,
       S k)
    else cs in
  context_at u cs.

Definition create_broker (g : globals_t) (ms : markets) (m : MarketPtr)
    (acc : list Broker * (contexts_t * nat)) : list Broker * (contexts_t * nat) :=
  match ms !! m with
  | Some mk =>
      let r := energy_flow_request mk in
      (acc.1 ++ [new_broker g m (uuid r)], prepare_context g r acc.2)
  | None => acc
  end.

Definition create_brokers (g : globals_t) (ms : markets) (evses : list MarketPtr) (cs : contexts_t * nat)
    : list Broker * (contexts_t * nat) :=
  foldl (fun acc m => create_broker g ms m acc) ([], cs) evses.

(** ** Trading *)

(** One broker of a round: an offer at its market, and its trade. *)
Definition trade_one (g : globals_t) (b : Broker) (cs : contexts_t * nat) (ms : markets)
    : bool * Broker * (contexts_t * nat) * markets :=
  let offer := create_offer_for_local_market g ms (local_market b) in
  match cs.1 !! context b, ms !! local_market b with
  | Some c, Some m =>
      let '(happened, b, (c, k), ms) :=
        broker_trade g (to_broker_fast_charging_config config) (nominal_ac_voltage m) utc_now
          offer b (c, cs.2) ms in
      (happened, b, (<[context b := c]> cs.1, k), ms)
  | _, _ => (false, b, cs, ms)
  end.

(** The brokers of a round, in order; whether a trade happened in it. *)
Fixpoint trading_round (g : globals_t) (bs : list Broker) (cs : contexts_t * nat) (ms : markets)
    : bool * list Broker * (contexts_t * nat) * markets :=
  match bs with
  | [] => (false, [], cs, ms)
  | b :: bs =>
      let '(h, b, cs, ms) := trade_one g b cs ms in
      let '(h', bs, cs, ms) := trading_round g bs cs ms in
      (h || h', b :: bs, cs, ms)
  end.

(** At most [n] rounds, until a round without a trade. *)
Fixpoint trading_rounds (g : globals_t) (n : nat) (bs : list Broker) (cs : contexts_t * nat) (ms : markets)
    : list Broker * (contexts_t * nat) * markets :=
  match n with
  | O => (bs, cs, ms)
  | S n =>
      let '(happened, bs, cs, ms) := trading_round g bs cs ms in
      if happened then trading_rounds g n bs cs ms else (bs, cs, ms)
  end.

Definition max_number_of_trading_rounds : nat := 100.

(** ** The result *)

(** The entry of a schedule that is valid at the start time. *)
Fixpoint select_root_limits (g : globals_t) (l : Res.LimitsRes) (sold : ScheduleRes) : Res.LimitsRes :=
  match sold with
  | [] => l
  | s :: sold =>
      if start_time g <? from_rfc3339 (r_timestamp s) then l
      else select_root_limits g (r_limits_to_root s) sold
  end.

Definition enforced_limits (g : globals_t) (m : Market) : option EnforcedLimits :=
  match sold_root m with
  | [] => None
  | (s0 :: _) as sold =>
      Some (mkEnforcedLimits (uuid (energy_flow_request m)) (update_interval config * 10)
              (select_root_limits g (r_limits_to_root s0) sold) sold)
  end.

Definition optimized_values (g : globals_t) (bs : list Broker) (ms : markets) : list EnforcedLimits :=
  omap (fun b => ms !! local_market b ≫= enforced_limits g) bs.

Definition run_globals (request : EnergyFlowRequest) (start_time : Z) : globals_t :=
  globals_init start_time (schedule_interval_duration config) (schedule_total_duration config)
    (c_slice_ampere config) (c_slice_watt config) request.

(** The markets of a request and the brokers of its EVSEs. *)
Definition start_trading (request : EnergyFlowRequest) (start_time : Z) (cs : contexts_t * nat)
    : list Broker * (contexts_t * nat) * markets :=
  let g := run_globals request start_time in
  let ms := create_market g request (c_nominal_ac_voltage config) [] ∅ in
  (create_brokers g ms (get_list_of_evses request []) cs, ms).

(** What [run_optimizer] has computed when it builds its result: the brokers,
    the contexts, and the markets after the trading. *)
Definition run_trading (request : EnergyFlowRequest) (start_time : Z) (cs : contexts_t * nat)
    : list Broker * (contexts_t * nat) * markets :=
  let '(bs, cs, ms) := start_trading request start_time cs in
  trading_rounds (run_globals request start_time) max_number_of_trading_rounds bs cs ms.

Definition run_optimizer (request : EnergyFlowRequest) (start_time : Z) (cs : contexts_t * nat)
    : list EnforcedLimits * (contexts_t * nat) :=
  let '(bs, cs, ms) := run_trading request start_time cs in
  (optimized_values (run_globals request start_time) bs ms, cs).
End Optimizer.

(** ** The module *)

Record EnergyManagerImpl := mkEnergyManagerImpl {
  m_config : EnergyManagerConfig;
  m_energy_flow_request : EnergyFlowRequest;
  contexts : contexts_t;
  clock_readings : nat
}.
#[global] Instance eta_EnergyManagerImpl : Eta EnergyManagerImpl := fun m =>
  mkEnergyManagerImpl (m_config m) (m_energy_flow_request m) (contexts m) (clock_readings m).

Inductive energy_output :=
| enforced_limits_callback (limits : list EnforcedLimits)
| mainloop_notify.

Definition new_energy_manager (config : EnergyManagerConfig) : EnergyManagerImpl :=
  mkEnergyManagerImpl config
    (mkRequest EmptyString Undefined None None None None None [] [] [] []) ∅ O.

Definition on_energy_flow_request (e : EnergyFlowRequest) (m : EnergyManagerImpl)
    : EnergyManagerImpl * list energy_output :=
  (assign m_energy_flow_request e m, if is_priority_request e then [mainloop_notify] else []).

(** One round of the thread of [start]. *)
Definition mainloop_round `{Dates} (utc_now : nat -> Z) (m : EnergyManagerImpl)
    : EnergyManagerImpl * list energy_output :=
  let k := clock_readings m in
  let '(limits, (ctx, k)) :=
    run_optimizer (m_config m) utc_now (m_energy_flow_request m) (utc_now k) (contexts m, S k) in
  (assign clock_readings k (assign contexts ctx m), [enforced_limits_callback limits]).
