(* ===== verification/EnergyNode.v ===== *)
(** * Energy nodes

    [modules/EnergyManagement/EnergyNode]: a fuse of the energy tree.  It adds
    its own limits to the external limits it is given, collects the requests
    of its children, and publishes the subtree.

    [merge_price_into_schedule] contains a loop that does not end on every
    input; a handler whose call does not return keeps the mutex of the node.
    Such a call is [None], and so is everything after it. *)
From S2P Require Import Prelude Effects EnergyTypes.
From stdpp Require Import base tactics list numbers strings.
From Stdlib Require Import QArith.
Open Scope Z_scope.

Record EnergyNodeConfig := mkEnergyNodeConfig { fuse_limit_A : Q; phase_count : Z }.

(** [consumers] is the number of connections [r_energy_consumer]. *)
Record EnergyNode := mkEnergyNode {
  n_config : EnergyNodeConfig;
  module_id : string;
  consumers : nat;
  n_request : EnergyFlowRequest;
  energy_pricing : EnergyPriceSchedule
}.
#[global] Instance eta_EnergyNode : Eta EnergyNode := fun n =>
  mkEnergyNode (n_config n) (module_id n) (consumers n) (n_request n) (energy_pricing n).

Inductive node_output :=
| publish_energy_flow_request (r : EnergyFlowRequest)
| publish_enforced_limits (l : EnforcedLimits)
| call_enforce_limits (consumer : nat) (l : EnforcedLimits).

Definition source_cfg (n : EnergyNode) : string := module_id n +:+ "/module_config".

Section EnergyNode.
Context `{Dates}.

(** *** The limits of the node itself *)

(** [date::floor<std::chrono::hours>]. *)
Definition floor_hours (t : Z) : Z := t - t mod hours 1.

Definition fuse_limits (n : EnergyNode) (l : LimitsReq) : LimitsReq :=
  assign ac_max_current_A (Some (Num (fuse_limit_A (n_config n)) (source_cfg n)))
    (assign ac_max_phase_count (Some (Int (phase_count (n_config n)) (source_cfg n))) l).

(** [tp] is the reading of the clock. *)
Definition get_local_schedule_req_entry (n : EnergyNode) (tp : Z) : ScheduleReqEntry :=
  mkReqEntry (to_rfc3339 (floor_hours tp + leap_seconds_elapsed tp))
    (fuse_limits n no_limits_req) (fuse_limits n no_limits_req) None None.

Definition get_local_schedule (n : EnergyNode) (tp : Z) : ScheduleReq := [get_local_schedule_req_entry n tp].

(** *** External limits *)

(** The limits of our own fuse settings, added to an entry. *)
Definition add_fuse (n : EnergyNode) (e : ScheduleReqEntry) : ScheduleReqEntry :=
  let fuse := fuse_limit_A (n_config n) in
  let phases := phase_count (n_config n) in
  let e := match ac_max_current_A (limits_to_root e) with
           | Some a => if Qlt_bool fuse (value a)
                       then update limits_to_root (assign ac_max_current_A (Some (Num fuse (source_cfg n)))) e
                       else e
           | None => update limits_to_root (assign ac_max_current_A (Some (Num fuse (source_cfg n)))) e
           end in
  match ac_max_phase_count (limits_to_root e) with
  | Some k => if phases <? ivalue k
              then update limits_to_root (assign ac_max_phase_count (Some (Int phases (source_cfg n)))) e
              else e
  | None => update limits_to_root (assign ac_max_phase_count (Some (Int phases (source_cfg n)))) e
  end.

Definition with_fuse (n : EnergyNode) (tp : Z) (s : ScheduleReq) : ScheduleReq :=
  match s with
  | [] => get_local_schedule n tp
  | _ => map (add_fuse n) s
  end.

(** [tp_import] and [tp_export] are the readings of the clock for a schedule
    that is empty. *)
Definition set_external_limits (tp_import tp_export : Z) (l : ExternalLimits) (n : EnergyNode) : EnergyNode :=
  update n_request (fun r =>
    assign schedule_setpoints (x_schedule_setpoints l)
      (assign schedule_export (with_fuse n tp_export (x_schedule_export l))
        (assign schedule_import (with_fuse n tp_import (x_schedule_import l)) r))) n.

(** *** Prices *)

(** The loop of [merge_price_into_schedule], with what is left of the two
    schedules, the valid entries and the joined schedule.  When both time
    stamps are equal nothing changes. *)
Fixpoint merge_price_loop (fuel : nat) (schedule : ScheduleReq) (price : list PricePerkWh)
    (valid_schedule : ScheduleReqEntry) (valid_price : PricePerkWh) (joined : ScheduleReq)
    : option ScheduleReq :=
  match fuel with
  | O => None
  | S fuel =>
      match schedule, price with
      | s :: schedule', p :: price' =>
          let tp_schedule := from_rfc3339 (timestamp s) in
          let tp_price := from_rfc3339 (p_timestamp p) in
          if tp_schedule <? tp_price then
            merge_price_loop fuel schedule' price s valid_price
              (joined ++ [assign price_per_kwh (Some valid_price) s])
          else if tp_price <? tp_schedule then
            merge_price_loop fuel schedule price' valid_schedule p
              (joined ++ [assign timestamp (p_timestamp p) (assign price_per_kwh (Some p) valid_schedule)])
          else merge_price_loop fuel schedule price valid_schedule valid_price joined
      | _, _ => Some joined
      end
  end.

(** The joined schedule is a local variable: the schedule that was passed is
    not changed.  [None] when the loop does not end. *)
Definition merge_price_into_schedule (schedule : ScheduleReq) (price : list PricePerkWh) : option ScheduleReq :=
  match schedule, price with
  | s :: _, p :: _ =>
      merge_price_loop (S (length schedule + length price)) schedule price s p [] ≫= fun _ => Some schedule
  | _, _ => Some schedule
  end.

Definition publish_complete_energy_object (n : EnergyNode) : option (list node_output) :=
  let r := n_request n in
  match schedule_export r, price_schedule_export (energy_pricing n) with
  | _ :: _, _ :: _ =>
      exports ← merge_price_into_schedule (schedule_export r) (price_schedule_export (energy_pricing n));
      Some [publish_energy_flow_request (assign schedule_export exports r)]
  | _, _ => Some [publish_energy_flow_request r]
  end.

(** *** What happens at a node *)

Inductive node_event :=
| child_request (e : EnergyFlowRequest)
| powermeter_reading (p : Powermeter)
| price_schedule (p : EnergyPriceSchedule)
| external_limits (tp_import tp_export : Z) (l : ExternalLimits)
| enforce_limits (l : EnforcedLimits).

(** [init]; [ready] publishes the request. *)
Definition init_node (config : EnergyNodeConfig) (id : string) (consumers : nat) (tp_import tp_export : Z)
    : EnergyNode :=
  let n := mkEnergyNode config id consumers
             (mkRequest id Generic None None None None None [] [] [] [])
             (mkEnergyPriceSchedule [] []) in
  update n_request (fun r =>
    assign schedule_export (get_local_schedule n tp_export)
      (assign schedule_import (get_local_schedule n tp_import) r)) n.

(** A child is replaced where its uuid is found, else added. *)
Definition update_child (e : EnergyFlowRequest) (cs : list EnergyFlowRequest) : list EnergyFlowRequest :=
  if existsb (fun c => String.eqb (uuid c) (uuid e)) cs
  then map (fun c => if String.eqb (uuid c) (uuid e) then e else c) cs
  else cs ++ [e].

Definition handle_enforce_limits (l : EnforcedLimits) (n : EnergyNode) : list node_output :=
  if String.eqb (e_uuid l) (uuid (n_request n)) then [publish_enforced_limits l]
  else map (fun k => call_enforce_limits k l) (seq 0 (consumers n)).

Definition node_step (ev : node_event) (n : EnergyNode) : option (EnergyNode * list node_output) :=
  let publish n := o ← publish_complete_energy_object n; Some (n, o) in
  match ev with
  | child_request e => publish (update n_request (update children (update_child e)) n)
  | powermeter_reading p => publish (update n_request (assign energy_usage_root (Some p)) n)
  | price_schedule p => publish (assign energy_pricing p n)
  | external_limits ti te l => Some (set_external_limits ti te l n, [])
  | enforce_limits l => Some (n, handle_enforce_limits l n)
  end.

(** A history of events after [init] and [ready]: the node and everything it
    has sent, or [None] when a handler has not returned. *)
Fixpoint run_node (evs : list node_event) (n : EnergyNode) : option (EnergyNode * list node_output) :=
  match evs with
  | [] => Some (n, [])
  | ev :: evs =>
      '(n, o) ← node_step ev n;
      '(n, o') ← run_node evs n;
      Some (n, o ++ o')
  end.

Definition node_history (config : EnergyNodeConfig) (id : string) (consumers : nat) (tp_import tp_export : Z)
    (evs : list node_event) : option (EnergyNode * list node_output) :=
  let n := init_node config id consumers tp_import tp_export in
  '(n', o) ← run_node evs n;
  Some (n', publish_energy_flow_request (n_request n) :: o).
End EnergyNode.
