(* ===== verification/EnergyProofs.v ===== *)
(** * Availability, offers and purchases

    The lemmas under the theorems on the energy manager.  Power and current
    are treated alike: a [quantity] selects the limit of a request and the
    amount of a result in a time slot.  [within imp exp x] says that an amount
    (positive: import, negative: export) respects a limit in its direction;
    the invariant of the markets, the choice of a broker and their connection
    are all instances of it. *)
From S2P Require Import Prelude Effects EnergyTypes EnergyMarket EnergyBroker.
From stdpp Require Import base tactics list numbers strings gmap.
From Stdlib Require Import QArith Qminmax Lqa.
Open Scope Z_scope.

(** ** Comparisons *)

Lemma Qle_bool_cases a b : BoolSpec (a <= b)%Q (b < a)%Q (Qle_bool a b).
Proof.
  destruct (Qle_bool a b) eqn:E; constructor.
  - by apply Qle_bool_iff.
  - apply Qnot_le_lt. intros Hle%Qle_bool_iff. congruence.
Qed.

Lemma Qlt_bool_cases a b : BoolSpec (a < b)%Q (b <= a)%Q (Qlt_bool a b).
Proof. unfold Qlt_bool. destruct (Qle_bool_cases b a); by constructor. Qed.

Lemma Qeq_bool_cases a b : BoolSpec (a == b)%Q (~ a == b)%Q (Qeq_bool a b).
Proof.
  destruct (Qeq_bool a b) eqn:E; constructor; [by apply Qeq_bool_iff|].
  intros Heq%Qeq_bool_iff. congruence.
Qed.

(** Splits the comparisons of numbers the goal decides. *)
Ltac qcase :=
  repeat match goal with
  | |- context [Qle_bool ?a ?b] => destruct (Qle_bool_cases a b)
  | |- context [Qlt_bool ?a ?b] => destruct (Qlt_bool_cases a b)
  | |- context [Qeq_bool ?a ?b] => destruct (Qeq_bool_cases a b)
  end.

(** ** Quantities *)

Inductive quantity := Power | Current.

Definition limit_of (q : quantity) (l : LimitsReq) : option NumberWithSource :=
  match q with Power => total_power_W l | Current => ac_max_current_A l end.
Definition traded_of (q : quantity) (l : Res.LimitsRes) : option NumberWithSource :=
  match q with Power => Res.total_power_W l | Current => Res.ac_max_current_A l end.
Definition amount (n : option NumberWithSource) : Q :=
  match n with Some n => value n | None => 0%Q end.

(** The limit and the amount of a time slot. *)
Definition slot_limit (q : quantity) (s : ScheduleReq) (i : nat) : option NumberWithSource :=
  s !! i ≫= fun e => limit_of q (limits_to_root e).
Definition slot_amount (q : quantity) (s : ScheduleRes) (i : nat) : Q :=
  amount (s !! i ≫= fun e => traded_of q (r_limits_to_root e)).

Definition within (imp exp : option NumberWithSource) (x : Q) : Prop :=
  ((0 < x)%Q -> forall a, imp = Some a -> (x <= value a)%Q) /\
  ((x < 0)%Q -> forall a, exp = Some a -> (- x <= value a)%Q).

(** [o] limits at least as much as [l]. *)
Definition tighter (o l : option NumberWithSource) : Prop :=
  forall a, l = Some a -> exists b, o = Some b /\ (value b <= value a)%Q.

#[global] Instance within_proper imp exp : Proper (Qeq ==> iff) (within imp exp).
Proof.
  assert (forall x y, x == y -> within imp exp x -> within imp exp y)%Q as Hone.
  { intros x y E [Hi He]. split; intros Hs a Ha.
    - specialize (Hi ltac:(lra) a Ha). lra.
    - specialize (He ltac:(lra) a Ha). lra. }
  intros x y E. split; apply Hone; [done|by symmetry].
Qed.

Lemma within_zero imp exp x : (x == 0)%Q -> within imp exp x.
Proof. intros E. split; intros Hs; lra. Qed.

Lemma within_tighter oi oe imp exp x :
  tighter oi imp -> tighter oe exp -> within oi oe x -> within imp exp x.
Proof.
  intros Ti Te [Hi He]. split; intros Hs a Ha.
  - destruct (Ti a Ha) as (b & Hb & Hle). specialize (Hi Hs b Hb). lra.
  - destruct (Te a Ha) as (b & Hb & Hle). specialize (He Hs b Hb). lra.
Qed.

Lemma tighter_refl l : tighter l l.
Proof. intros a Ha. exists a. split; [done|lra]. Qed.

Lemma tighter_trans o l l' : tighter o l -> tighter l l' -> tighter o l'.
Proof.
  intros H1 H2 a Ha. destruct (H2 a Ha) as (b & Hb & ?). destruct (H1 b Hb) as (c & ? & ?).
  exists c. split; [done|lra].
Qed.

(** ** Trading keeps the limits *)

(** What was sold as it is taken from what is available in a direction. *)
Definition taken (export : bool) (x : Q) : Q :=
  let v := ((if export then 1 else -1) * x)%Q in if Qlt_bool 0 v then 0%Q else v.

Lemma sold_value_taken e n : sold_value e n = taken e (amount n).
Proof. destruct n as [n|], e; reflexivity. Qed.

#[global] Instance taken_proper e : Proper (Qeq ==> Qeq) (taken e).
Proof. intros x y E. unfold taken. destruct e; qcase; lra. Qed.

(** A purchase that is within what is available leaves the total within the
    limits. *)
Lemma within_add imp exp s x :
  within imp exp s -> within (add_to imp (taken false s)) (add_to exp (taken true s)) x ->
  within imp exp (s + x).
Proof.
  intros [Hi He] [Ai Ae]. split; intros Hs a ->; simpl in *.
  - specialize (Ai). destruct (Qlt_le_dec 0 x) as [Hx|Hx].
    + specialize (Ai Hx _ eq_refl). simpl in Ai. revert Ai. unfold taken. qcase; lra.
    + specialize (Hi ltac:(lra) _ eq_refl). lra.
  - destruct (Qlt_le_dec x 0) as [Hx|Hx].
    + specialize (Ae Hx _ eq_refl). simpl in Ae. revert Ae. unfold taken. qcase; lra.
    + specialize (He ltac:(lra) _ eq_refl). lra.
Qed.

Lemma amount_add_number a b : (amount (add_number a b) == amount a + amount b)%Q.
Proof. destruct a, b; simpl; lra. Qed.

Lemma limit_of_available q e l s :
  limit_of q (available_limits e l s) = add_to (limit_of q l) (taken e (amount (traded_of q s))).
Proof. destruct q; simpl; by rewrite <- sold_value_taken. Qed.

Lemma traded_of_add q a b : traded_of q (add_limits a b) = add_number (traded_of q a) (traded_of q b).
Proof. by destruct q. Qed.

(** ** Schedules of one length *)

Lemma length_schedule_add a b : length (schedule_add a b) = length a.
Proof. unfold schedule_add. case_decide as Hd; [done|]. rewrite length_zip_with. lia. Qed.

Lemma length_apply_limits a b : length (apply_limits a b) = length a.
Proof. unfold apply_limits. case_decide as Hd; [done|]. rewrite length_zip_with. lia. Qed.

Lemma slot_amount_add q a b i :
  length a = length b ->
  (slot_amount q (schedule_add a b) i == slot_amount q a i + slot_amount q b i)%Q.
Proof.
  intros Hl. unfold schedule_add. rewrite decide_False by lia.
  unfold slot_amount. rewrite lookup_zip_with.
  destruct (a !! i) as [x|] eqn:Ea; simpl.
  - destruct (lookup_lt_is_Some_2 b i) as [y Ey].
    { rewrite <- Hl. eauto using lookup_lt_Some. }
    rewrite Ey. simpl. rewrite traded_of_add. apply amount_add_number.
  - rewrite lookup_ge_None_2 by (rewrite <- Hl; by apply lookup_ge_None).
    simpl. lra.
Qed.

Lemma slot_limit_available q m max e i :
  length max = length (sold_root m) ->
  slot_limit q (get_available_energy m max e) i =
    add_to (slot_limit q max i) (taken e (slot_amount q (sold_root m) i)).
Proof.
  intros Hl. unfold slot_limit, get_available_energy, slot_amount. rewrite lookup_zip_with.
  destruct (max !! i) as [x|] eqn:Ex; simpl; [|done].
  destruct (lookup_lt_is_Some_2 (sold_root m) i) as [y Ey].
  { rewrite <- Hl. eauto using lookup_lt_Some. }
  rewrite Ey. simpl. apply limit_of_available.
Qed.

Lemma length_available m max e :
  length max = length (sold_root m) -> length (get_available_energy m max e) = length max.
Proof. intros Hl. unfold get_available_energy. rewrite length_zip_with. lia. Qed.

(** ** Offers *)

(** The nodes on the way to the root are the suffixes of a pointer. *)
Lemma suffix_of_cons {A} (k : A) p r : r `suffix_of` k :: p <-> r = k :: p \/ r `suffix_of` p.
Proof.
  split.
  - intros [[|x l] E]; simpl in E; [by left|]. right. injection E as _ E. by exists l.
  - intros [->|Hr]; [done|by apply suffix_cons_r].
Qed.

Lemma smaller_tighter_l (a b : option NumberWithSource) : tighter (apply_one_limit_if_smaller a b) a.
Proof.
  intros x ->. destruct b as [y|]; simpl; [|exists x; split; [done|lra]].
  qcase; eexists; split; try done; simpl; lra.
Qed.

Lemma smaller_tighter_r (a b : option NumberWithSource) : tighter (apply_one_limit_if_smaller a b) b.
Proof.
  intros y ->. destruct a as [x|]; simpl; [|exists y; split; [done|lra]].
  qcase; eexists; split; try done; simpl; lra.
Qed.

Lemma slot_limit_apply q a b i :
  length a = length b ->
  slot_limit q (apply_limits a b) i = apply_one_limit_if_smaller (slot_limit q a i) (slot_limit q b i).
Proof.
  intros Hl. unfold apply_limits. rewrite decide_False by lia.
  unfold slot_limit. rewrite lookup_zip_with.
  destruct (a !! i) as [x|] eqn:Ea; simpl.
  - destruct (lookup_lt_is_Some_2 b i) as [y Ey].
    { rewrite <- Hl. eauto using lookup_lt_Some. }
    rewrite Ey. by destruct q.
  - by rewrite lookup_ge_None_2 by (rewrite <- Hl; by apply lookup_ge_None).
Qed.

(** A node whose schedules have [n] slots. *)
Definition sized (n : nat) (m : Market) : Prop :=
  length (import_max_available m) = n /\ length (export_max_available m) = n /\ length (sold_root m) = n.

Definition available (import : bool) (m : Market) : ScheduleReq :=
  if import then get_available_energy_import m else get_available_energy_export m.
Definition offered (import : bool) (o : Offer) : ScheduleReq :=
  if import then import_offer o else export_offer o.
Definition max_available (import : bool) (m : Market) : ScheduleReq :=
  if import then import_max_available m else export_max_available m.

Lemma slot_limit_node q n m imp i :
  sized n m ->
  slot_limit q (available imp m) i =
    add_to (slot_limit q (max_available imp m) i) (taken (negb imp) (slot_amount q (sold_root m) i)).
Proof. intros (? & ? & ?). destruct imp; apply slot_limit_available; simpl; lia. Qed.

Lemma length_node n m imp : sized n m -> length (available imp m) = n.
Proof. intros (? & ? & ?). destruct imp; unfold available, get_available_energy_import, get_available_energy_export; rewrite length_available; lia. Qed.

Section Offers.
Context (g : globals_t) (ms : markets) (n : nat).
Hypothesis all_sized : map_Forall (fun _ m => sized n m) ms.
Hypothesis empty_sized : length (empty_schedule_req g) = n.

Lemma offer_step p :
  create_offer_for_local_market g ms p =
    let o := match p with
             | [] => mkOffer None (empty_schedule_req g) (empty_schedule_req g)
             | _ :: parent => create_offer_for_local_market g ms parent
             end in
    match ms !! p with
    | Some m =>
        mkOffer (optimizer_target (energy_flow_request m))
          (apply_limits (import_offer o) (get_available_energy_import m))
          (apply_limits (export_offer o) (get_available_energy_export m))
    | None => o
    end.
Proof. by destruct p. Qed.

Lemma offered_step p m imp :
  ms !! p = Some m ->
  offered imp (create_offer_for_local_market g ms p) =
    apply_limits (match p with
                  | [] => empty_schedule_req g
                  | _ :: parent => offered imp (create_offer_for_local_market g ms parent)
                  end) (available imp m).
Proof. intros Hm. rewrite offer_step. simpl. rewrite Hm. by destruct p, imp. Qed.

Lemma length_offered p imp : length (offered imp (create_offer_for_local_market g ms p)) = n.
Proof.
  induction p as [|k p IH]; rewrite offer_step; simpl; destruct (ms !! _) eqn:E;
    destruct imp; simpl; rewrite ?length_apply_limits; done || exact IH.
Qed.

(** Every node on the way to the root limits the offer. *)
Lemma offer_tighter q p r m imp i :
  r `suffix_of` p -> ms !! r = Some m ->
  tighter (slot_limit q (offered imp (create_offer_for_local_market g ms p)) i)
          (slot_limit q (available imp m) i).
Proof.
  revert r. induction p as [|k p IH]; intros r Hr Hm.
  - apply suffix_nil_inv in Hr as ->. rewrite (offered_step [] m) by done.
    pose proof (length_node n m imp (all_sized _ _ Hm)).
    rewrite slot_limit_apply by (simpl; lia). apply smaller_tighter_r.
  - destruct (ms !! (k :: p)) as [m'|] eqn:Em'.
    + pose proof (length_node n m' imp (all_sized _ _ Em')).
      pose proof (length_offered p imp).
      rewrite (offered_step (k :: p) m') by done.
      rewrite slot_limit_apply by lia.
      apply suffix_of_cons in Hr as [->|Hr].
      * simplify_eq. apply smaller_tighter_r.
      * eapply tighter_trans; [apply smaller_tighter_l|]. by apply (IH r).
    + apply suffix_of_cons in Hr as [->|Hr]; [congruence|].
      rewrite offer_step. simpl. rewrite Em'. by apply (IH r).
Qed.
End Offers.

(** ** Where a trade is booked *)

Lemma market_trade_lookup p t ms r :
  market_trade p t ms !! r =
    if decide (r `suffix_of` p) then update sold_root (fun s => schedule_add s t) <$> ms !! r else ms !! r.
Proof.
  revert ms. induction p as [|k p IH]; intros ms; simpl.
  - destruct (decide (r = [])) as [->|Hne].
    + rewrite lookup_alter_eq, decide_True; done.
    + rewrite lookup_alter_ne by done. rewrite decide_False; [done|].
      by intros ->%suffix_nil_inv.
  - rewrite IH. destruct (decide (r = k :: p)) as [->|Hne].
    + rewrite lookup_alter_eq. rewrite decide_False, decide_True; [done|done|].
      intros Hs%suffix_length. simpl in Hs. lia.
    + rewrite lookup_alter_ne by done. apply decide_ext. split.
      * apply suffix_cons_r.
      * intros [?|?]%suffix_of_cons; done.
Qed.

(** ** Purchases *)

(** The ways a broker with [ph] phases can use the offer [o] of a slot. *)
Inductive purchase (voltage : Q) (o : LimitsReq) (i : nat) (import : bool) (ph : IntegerWithSource)
    (b : Broker) : bool -> Broker -> Prop :=
| purchase_nothing : purchase voltage o i import ph b false b
| purchase_ampere a src m :
    ac_max_current_A o = Some m -> total_power_W o = None -> (0 <= a <= value m)%Q ->
    purchase voltage o i import ph b true (buy_ampere_unchecked i (Num (direction import * a) src) ph b)
| purchase_both a src m w :
    ac_max_current_A o = Some m -> total_power_W o = Some w -> (0 <= a <= value m)%Q ->
    (watt_of voltage a ph <= value w)%Q ->
    purchase voltage o i import ph b true (buy_both voltage i import a src ph b)
| purchase_watt x src w :
    total_power_W o = Some w -> (0 <= x <= value w)%Q ->
    purchase voltage o i import ph b true (buy_watt_unchecked i (Num (direction import * x) src) b).

Lemma reduced_ampere_bounds V w m ph :
  (0 <= V)%Q -> 0 <= ivalue ph -> (0 < w)%Q -> (0 < m)%Q -> (w < watt_of V m ph)%Q ->
  let a := (w / inject_Z (ivalue ph) / V)%Q in
  (0 <= a <= m)%Q /\ (watt_of V a ph == w)%Q.
Proof.
  intros HV Hph Hw Hm Hlt a. unfold watt_of in *. subst a. set (p := inject_Z (ivalue ph)) in *.
  assert (0 <= p)%Q as Hp. { unfold p. rewrite <- (Zle_Qle 0). exact Hph. }
  assert (0 < m * p * V)%Q as Hpos by lra.
  assert (~ p == 0)%Q as Hp0. { intros E. rewrite E in Hpos. lra. }
  assert (~ V == 0)%Q as HV0. { intros E. rewrite E in Hpos. lra. }
  assert (0 < p)%Q by (apply Qle_lteq in Hp as [?|E]; [done|by rewrite E in Hp0]).
  assert (0 < V)%Q by (apply Qle_lteq in HV as [?|E]; [done|by rewrite E in HV0]).
  assert (w / p / V * p * V == w)%Q as E by (field; done).
  split; [split|exact E].
  - apply Qle_shift_div_l; [done|]. apply Qle_shift_div_l; [done|]. lra.
  - apply Qle_shift_div_r; [done|]. apply Qle_shift_div_r; [done|]. lra.
Qed.

Lemma buy_ampere_purchase V o i a less imp ph b :
  (0 <= V)%Q -> 0 <= ivalue ph -> (0 <= a)%Q ->
  let r := buy_ampere V o i a less imp ph b in
  purchase V (limits_to_root o) i imp ph b r.1 r.2.
Proof.
  intros HV Hph Ha r. subst r. unfold buy_ampere.
  destruct (ac_max_current_A (limits_to_root o)) as [m|] eqn:Em; [|constructor].
  destruct (total_power_W (limits_to_root o)) as [w|] eqn:Ew.
  - match goal with |- context [if Qle_bool a _ then _ else ?e] =>
      assert (purchase V (limits_to_root o) i imp ph b e.1 e.2) as Hless end.
    { destruct less; simpl; [|constructor].
      destruct (Qlt_bool_cases 0 (value m)); [|constructor].
      destruct (Qlt_bool_cases 0 (value w)); [|constructor].
      destruct (Qle_bool_cases (watt_of V (value m) ph) (value w)).
      - eapply purchase_both; [done|done|lra|done].
      - destruct (reduced_ampere_bounds V (value w) (value m) ph) as [? E]; try done.
        eapply purchase_both; [done|done|done|]. rewrite E. lra. }
    destruct (Qle_bool_cases a (value m)); [|done].
    destruct (Qle_bool_cases (watt_of V a ph) (value w)); [|done].
    eapply purchase_both; [done|done|lra|done].
  - destruct (Qle_bool_cases a (value m)); simpl.
    { eapply purchase_ampere; [done|done|lra]. }
    destruct less; simpl; [|constructor].
    destruct (Qlt_bool_cases 0 (value m)); simpl; [|constructor].
    eapply purchase_ampere; [done|done|lra].
Qed.

Lemma buy_watt_purchase V o i x less imp ph b :
  (0 <= x)%Q ->
  let r := buy_watt o i x less imp b in
  purchase V (limits_to_root o) i imp ph b r.1 r.2.
Proof.
  intros Hx r. subst r. unfold buy_watt.
  destruct (total_power_W (limits_to_root o)) as [w|] eqn:Ew; [|constructor].
  destruct (Qle_bool_cases x (value w)); simpl; [eapply purchase_watt; [done|lra]|].
  destruct less; simpl; [|constructor].
  destruct (Qlt_bool_cases 0 (value w)); simpl; [|constructor].
  eapply purchase_watt; [done|lra].
Qed.

(** *** What a purchase changes *)

Definition zero_entry (t : ScheduleResEntry) : Prop :=
  forall q, (amount (traded_of q (r_limits_to_root t)) == 0)%Q.

(** The entries of [t'] are those of [t], but for the slot [i]. *)
Definition same_but (i : nat) (t t' : ScheduleRes) : Prop :=
  length t' = length t /\ forall j, j <> i -> t' !! j = t !! j.

Lemma same_but_refl i t : same_but i t t.
Proof. done. Qed.
Lemma same_but_trans i t t' t'' : same_but i t t' -> same_but i t' t'' -> same_but i t t''.
Proof. intros [? E] [? E']. split; [congruence|]. intros j Hj. by rewrite E', E. Qed.
Lemma same_but_alter i (f : ScheduleResEntry -> ScheduleResEntry) t :
  same_but i t (alter (M := ScheduleRes) f i t).
Proof. split; [apply length_alter|]. intros j Hj. by rewrite list_lookup_alter_ne. Qed.
#[export] Hint Resolve same_but_refl same_but_alter : everest.

Lemma watt_of_nonneg V a ph : (0 <= V)%Q -> 0 <= ivalue ph -> (0 <= a)%Q -> (0 <= watt_of V a ph)%Q.
Proof.
  intros HV Hph Ha. unfold watt_of.
  apply Qmult_le_0_compat; [|done]. apply Qmult_le_0_compat; [done|].
  rewrite <- (Zle_Qle 0). done.
Qed.

(** A positive amount in the direction of the purchase respects the offer. *)
Lemma within_direction (imp : bool) l l' x m :
  (0 <= x)%Q -> l = Some m -> (x <= value m)%Q ->
  within (if imp then l else l') (if imp then l' else l) (direction imp * x).
Proof.
  intros Hx -> Hle. destruct imp; (split; simpl; intros Hs a Ha; [simplify_eq|simplify_eq]); lra.
Qed.

Lemma purchase_same_but V o i imp ph b r b' :
  purchase V o i imp ph b r b' -> same_but i (trading b) (trading b').
Proof.
  intros Hp. destruct Hp; simpl; auto with everest.
  eapply same_but_trans; apply same_but_alter.
Qed.

(** What else a purchase leaves alone. *)
Definition same_place (b b' : Broker) : Prop :=
  local_market b' = local_market b /\ context b' = context b.

Lemma purchase_frame V o i imp ph b r b' :
  purchase V o i imp ph b r b' ->
  same_place b b' /\ num_phases b' = num_phases b /\ slot_type b' = slot_type b.
Proof. by destruct 1. Qed.

Lemma purchase_within V o i imp ph b r b' q other t :
  (0 <= V)%Q -> 0 <= ivalue ph ->
  purchase V o i imp ph b r b' -> trading b !! i = Some t -> zero_entry t ->
  within (if imp then limit_of q o else other) (if imp then other else limit_of q o)
    (slot_amount q (trading b') i).
Proof.
  intros HV Hph Hp Ht Hz. pose proof (Hz q) as Hq.
  destruct Hp as [|a src m Hm Hw Ha|a src m w Hm Hw Ha Hle|x src w Hw Hx];
    unfold slot_amount; simpl; rewrite ?list_lookup_alter_eq, ?Ht; simpl.
  - by apply within_zero.
  - destruct q; simpl; [by apply within_zero|].
    eapply within_direction; [lra|done|lra].
  - destruct q; simpl.
    + eapply within_direction; [|done|done]. apply watt_of_nonneg; [done|done|lra].
    + eapply within_direction; [lra|done|lra].
  - destruct q; simpl; [|by apply within_zero].
    eapply within_direction; [lra|done|lra].
Qed.
