(* ===== verification/EnergyTree.v ===== *)
(** * The energy tree and its time slots

    The markets mirror the tree of requests: the market at a pointer is the
    one made from the request at the same place ([create_market_lookup]), and
    the list of EVSEs is that of the nodes of type [Evse].  The time slots are
    ordered, without repetition, and contain every time stamp of the tree; the
    search for the entry of a schedule that is valid at a time finds the last
    one that has begun ([find_entry_valid]). *)
From S2P Require Import Prelude Effects EnergyTypes EnergyMarket.
From stdpp Require Import base tactics list numbers strings gmap sorting.
From Stdlib Require Import QArith.
Open Scope Z_scope.

(** ** Places in the tree *)

(** The request at a place, given as a pointer is: from the node to the
    root. *)
Fixpoint request_at (r : EnergyFlowRequest) (p : MarketPtr) : option EnergyFlowRequest :=
  match p with
  | [] => Some r
  | i :: p => request_at r p ≫= fun c => children c !! i
  end.

Lemma request_at_app r p p' : request_at r (p' ++ p) = request_at r p ≫= fun c => request_at c p'.
Proof.
  induction p' as [|i p' IH]; simpl; [by destruct (request_at r p)|].
  rewrite IH. by destruct (request_at r p).
Qed.

(** The places below a node are those of its children. *)
Lemma request_at_child r i p : request_at r (p ++ [i]) = children r !! i ≫= fun c => request_at c p.
Proof. by rewrite request_at_app. Qed.

Lemma place_cases (p : MarketPtr) : p = [] \/ exists p' i, p = p' ++ [i].
Proof. destruct p using rev_ind; [by left|right; eauto]. Qed.

Lemma cons_drop {A} (x : A) l' i l : x :: l' = drop i l -> l !! i = Some x /\ l' = drop (S i) l.
Proof.
  intros E. split.
  - rewrite <- (Nat.add_0_r i), <- lookup_drop, <- E. done.
  - rewrite <- Nat.add_1_r, <- drop_drop, <- E. done.
Qed.

(** Places below different children of a node differ. *)
Lemma child_place_inj (k k' p : MarketPtr) i j : k ++ i :: p = k' ++ j :: p -> i = j.
Proof.
  rewrite (cons_middle i k p), (cons_middle j k' p), !app_assoc.
  intros E%app_inv_tail. by apply app_inj_tail in E as [_ ?].
Qed.

(** ** Creating the markets *)

Section Create.
Context `{Dates} (g : globals_t) (voltage : Q).

(** The loop over the children, from position [i] on. *)
Definition create_children (p : MarketPtr) : list EnergyFlowRequest -> nat -> markets -> markets :=
  fix go cs i ms :=
    match cs with
    | [] => ms
    | c :: cs => go cs (S i) (create_market g c voltage (i :: p) ms)
    end.

Lemma create_market_unfold r p ms :
  create_market g r voltage p ms =
    create_children p (children r) O (<[p := market_of g r voltage]> ms).
Proof. by destruct r. Qed.

(** Objects at other places than those of the tree are not touched. *)
Definition outside (r : EnergyFlowRequest) (p q : MarketPtr) : Prop :=
  forall k, q = k ++ p -> request_at r k = None.

Lemma create_market_outside r p ms q :
  outside r p q -> create_market g r voltage p ms !! q = ms !! q.
Proof.
  revert p ms. induction r as [r IH] using request_ind. intros p ms Hout.
  rewrite create_market_unfold.
  assert (q <> p) as Hqp.
  { intros ->. by specialize (Hout [] eq_refl). }
  assert (forall cs i ms', cs = drop i (children r) ->
            create_children p cs i ms' !! q = ms' !! q) as Hgo.
  { intros cs. induction cs as [|c cs IHcs]; intros i ms' Ecs; simpl; [done|].
    apply cons_drop in Ecs as [Hc Ecs]. rewrite IHcs by done.
    rewrite Forall_forall in IH. apply IH; [by eapply list_elem_of_lookup_2|].
    intros k ->. specialize (Hout (k ++ [i])). rewrite request_at_child, Hc in Hout.
    apply Hout. by rewrite <- app_assoc. }
  rewrite Hgo by done. by rewrite lookup_insert_ne.
Qed.

Lemma create_market_inside r p ms k c :
  request_at r k = Some c -> create_market g r voltage p ms !! (k ++ p) = Some (market_of g c voltage).
Proof.
  revert p ms k c. induction r as [r IH] using request_ind. intros p ms k c Hk.
  rewrite create_market_unfold. rewrite Forall_forall in IH.
  destruct (place_cases k) as [->|(k' & j & ->)].
  - simpl in *. simplify_eq.
    assert (forall cs i ms', create_children p cs i ms' !! p = ms' !! p) as Hgo.
    { intros cs. induction cs as [|c' cs IHcs]; intros i ms'; simpl; [done|].
      rewrite IHcs. apply create_market_outside. intros k E.
      apply (f_equal length) in E. rewrite length_app in E. simpl in E. lia. }
    rewrite Hgo. by rewrite lookup_insert_eq.
  - rewrite request_at_child in Hk. destruct (children r !! j) as [cj|] eqn:Hj; [|done]. simpl in Hk.
    rewrite <- app_assoc. simpl.
    assert (forall cs i ms', cs = drop i (children r) -> (i <= j)%nat ->
              create_children p cs i ms' !! (k' ++ j :: p) = Some (market_of g c voltage)) as Hgo.
    { intros cs. induction cs as [|c' cs IHcs]; intros i ms' Ecs Hij; simpl.
      { apply (f_equal length) in Ecs. rewrite length_drop in Ecs. simpl in Ecs.
        apply lookup_lt_Some in Hj. lia. }
      apply cons_drop in Ecs as [Hc Ecs].
      destruct (decide (i = j)) as [->|Hne]; [|apply IHcs; [done|lia]].
      assert (forall cs i' ms', (j < i')%nat -> create_children p cs i' ms' !! (k' ++ j :: p)
                = ms' !! (k' ++ j :: p)) as Hrest.
      { clear -j. intros cs. induction cs as [|c' cs IHcs]; intros i' ms' Hlt; simpl; [done|].
        rewrite IHcs by lia. apply create_market_outside. intros k E.
        apply child_place_inj in E. lia. }
      rewrite Hrest by lia. simplify_eq. apply IH; [by eapply list_elem_of_lookup_2|done]. }
    apply Hgo; [done|lia].
Qed.

Lemma create_market_lookup r q :
  create_market g r voltage [] ∅ !! q = (fun c => market_of g c voltage) <$> request_at r q.
Proof.
  destruct (request_at r q) as [c|] eqn:E; simpl.
  - rewrite <- (app_nil_r q) at 1. by apply create_market_inside.
  - rewrite create_market_outside; [done|]. intros k ->. by rewrite app_nil_r in E.
Qed.
End Create.

(** ** The list of EVSEs *)

Definition evses_of_children (p : MarketPtr) : list EnergyFlowRequest -> nat -> list MarketPtr :=
  fix go cs i :=
    match cs with
    | [] => []
    | c :: cs => get_list_of_evses c (i :: p) ++ go cs (S i)
    end.

Lemma get_list_of_evses_unfold r p :
  get_list_of_evses r p =
    (if bool_decide (node_type r = Evse) then [p] else []) ++ evses_of_children p (children r) O.
Proof. by destruct r. Qed.

Lemma elem_of_evses_of_children p cs i q :
  q ∈ evses_of_children p cs i <->
  exists j c, cs !! j = Some c /\ q ∈ get_list_of_evses c ((i + j)%nat :: p).
Proof.
  revert i. induction cs as [|c cs IH]; intros i; simpl.
  { split; [by intros ?%not_elem_of_nil|]. by intros (j & c & ? & _). }
  rewrite elem_of_app, IH. split.
  - intros [Hq|(j & c' & Hj & Hq)].
    + exists O, c. by rewrite Nat.add_0_r.
    + exists (S j), c'. by rewrite Nat.add_succ_r.
  - intros ([|j] & c' & Hj & Hq); simpl in Hj.
    + simplify_eq. left. by rewrite Nat.add_0_r in Hq.
    + right. exists j, c'. by rewrite Nat.add_succ_r in Hq.
Qed.

(** The listed pointers are those of the nodes of type [Evse]. *)
Lemma elem_of_evses r p q :
  q ∈ get_list_of_evses r p <->
  exists k c, q = k ++ p /\ request_at r k = Some c /\ node_type c = Evse.
Proof.
  revert p. induction r as [r IH] using request_ind. intros p.
  rewrite get_list_of_evses_unfold, elem_of_app, elem_of_evses_of_children.
  rewrite Forall_forall in IH. split.
  - intros [Hq|(j & c & Hj & Hq)].
    + case_bool_decide; [|by apply not_elem_of_nil in Hq].
      apply list_elem_of_singleton in Hq as ->. by exists [], r.
    + apply IH in Hq as (k & c' & -> & Hk & Ht); [|by eapply list_elem_of_lookup_2].
      exists (k ++ [j]), c'. rewrite request_at_child, Hj, <- app_assoc. done.
  - intros (k & c & -> & Hk & Ht). destruct (place_cases k) as [->|(k' & j & ->)].
    + simpl in Hk. simplify_eq. left. rewrite bool_decide_true by done. by left.
    + rewrite request_at_child in Hk. destruct (children r !! j) as [cj|] eqn:Hj; [|done].
      right. exists j, cj. split; [done|]. apply IH; [by eapply list_elem_of_lookup_2|].
      exists k', c. rewrite <- app_assoc. done.
Qed.

Lemma evses_NoDup r p : NoDup (get_list_of_evses r p).
Proof.
  revert p. induction r as [r IH] using request_ind. intros p.
  rewrite get_list_of_evses_unfold. rewrite Forall_forall in IH.
  apply NoDup_app. split_and!.
  - case_bool_decide; [apply NoDup_singleton|apply NoDup_nil_2].
  - intros q Hq (j & c & _ & (k & ? & Eq & _)%elem_of_evses)%elem_of_evses_of_children.
    case_bool_decide; [|by apply not_elem_of_nil in Hq].
    apply list_elem_of_singleton in Hq as ->. apply (f_equal length) in Eq.
    rewrite length_app in Eq. simpl in Eq. lia.
  - assert (forall cs i, (forall c, c ∈ cs -> c ∈ children r) -> NoDup (evses_of_children p cs i)) as Hgo.
    { intros cs. induction cs as [|c cs IHcs]; intros i Hsub; simpl; [apply NoDup_nil_2|].
      apply NoDup_app. split_and!.
      - apply IH, Hsub. left.
      - intros q (k & ? & -> & _)%elem_of_evses (j & c' & _ & (k' & ? & E & _)%elem_of_evses)%elem_of_evses_of_children.
        apply child_place_inj in E. lia.
      - apply IHcs. intros c' Hc'. apply Hsub. by right. }
    apply Hgo. done.
Qed.

(** ** The time slots *)

Lemma elem_of_std_unique x l : x ∈ std_unique l <-> x ∈ l.
Proof.
  induction l as [|y l IH]; [done|]. cbn [std_unique].
  rewrite (elem_of_cons l), <- IH. destruct (std_unique l) as [|z l']; [by rewrite elem_of_cons|].
  destruct (Z.eqb_spec y z) as [->|Hne]; rewrite ?elem_of_cons; tauto.
Qed.

Lemma std_unique_sorted l : StronglySorted Z.le l -> StronglySorted Z.lt (std_unique l).
Proof.
  induction 1 as [|x l Hs IH Hx]; [constructor|]. cbn [std_unique].
  assert (Forall (Z.le x) (std_unique l)) as Hx'.
  { rewrite Forall_forall in *. intros y Hy. by apply Hx, elem_of_std_unique. }
  destruct (std_unique l) as [|y l']; [by repeat constructor|].
  apply Forall_cons in Hx' as [Hxy _]. inversion IH as [|? ? Hl' Hy]; subst.
  destruct (Z.eqb_spec x y) as [->|Hne]; constructor; try done.
  assert (x < y) by lia. constructor; [done|].
  eapply Forall_impl; [exact Hy|]. simpl. lia.
Qed.

Lemma sorted_lookup (l : list Z) i j x y :
  StronglySorted Z.lt l -> (i < j)%nat -> l !! i = Some x -> l !! j = Some y -> x < y.
Proof.
  intros Hs. revert i j. induction Hs as [|z l Hs IH Hz]; intros i j Hij Hi Hj; [done|].
  destruct j as [|j]; [lia|]. destruct i as [|i]; simpl in *.
  - simplify_eq. by eapply Forall_lookup_1 in Hz.
  - eapply IH; [|done|done]. lia.
Qed.

Lemma filter_all_false {A} (P : A -> Prop) `{!forall x, Decision (P x)} (l : list A) :
  Forall (fun x => ~ P x) l -> filter P l = [].
Proof. induction 1; [done|]. by rewrite filter_cons_False. Qed.

Lemma filter_agree {A} (P P' : A -> Prop) `{!forall x, Decision (P x), !forall x, Decision (P' x)}
    (l : list A) :
  Forall (fun x => P x <-> P' x) l -> filter P l = filter P' l.
Proof.
  induction 1 as [|x l Hx _ IH]; [done|]. destruct (decide (P x)).
  - rewrite !filter_cons_True by tauto. by rewrite IH.
  - rewrite !filter_cons_False by tauto. done.
Qed.

Section TimeSlots.
Context `{Dates}.

Lemma create_timestamps_sorted start d k r : StronglySorted Z.lt (create_timestamps start d k r).
Proof. apply std_unique_sorted, (StronglySorted_merge_sort _ _). Qed.

Lemma elem_of_create_timestamps start d k r t :
  t ∈ create_timestamps start d k r <->
  t ∈ predefined_slots (start - Z.rem start d + leap_seconds_elapsed start) d (Z.to_nat k) \/
  t ∈ add_timestamps r.
Proof. unfold create_timestamps. rewrite elem_of_std_unique, merge_sort_Permutation, elem_of_app. done. Qed.

(** The time stamps of a node itself. *)
Definition own_timestamps (r : EnergyFlowRequest) : list Z :=
  map (fun t => from_rfc3339 (timestamp t)) (schedule_import r) ++
  map (fun t => from_rfc3339 (timestamp t)) (schedule_export r) ++
  map (fun t => from_rfc3339 (s_timestamp t)) (schedule_setpoints r).

(** All time stamps of the tree are collected, and nothing else. *)
Lemma elem_of_add_timestamps r t :
  t ∈ add_timestamps r <-> exists p c, request_at r p = Some c /\ t ∈ own_timestamps c.
Proof.
  revert t. induction r as [r IH] using request_ind. intros t. rewrite Forall_forall in IH.
  set (rest := fix go (cs : list EnergyFlowRequest) : list Z :=
     match cs with [] => [] | c :: cs => add_timestamps c ++ go cs end).
  assert (add_timestamps r = own_timestamps r ++ rest (children r)) as ->.
  { destruct r. unfold own_timestamps. cbn. by rewrite <- !app_assoc. }
  assert (forall cs, t ∈ rest cs <-> exists c, c ∈ cs /\ t ∈ add_timestamps c) as Hrest.
  { intros cs. induction cs as [|c cs IHcs]; simpl.
    - split; [by intros ?%not_elem_of_nil|]. by intros (c & ?%not_elem_of_nil & _).
    - rewrite elem_of_app, IHcs. setoid_rewrite elem_of_cons. naive_solver. }
  rewrite elem_of_app, Hrest. split.
  - intros [Ht|(c & Hc & Ht)]; [by exists [], r|].
    apply IH in Ht as (p & c' & Hp & Ht); [|done].
    apply list_elem_of_lookup_1 in Hc as [i Hi].
    exists (p ++ [i]), c'. by rewrite request_at_child, Hi.
  - intros (p & c & Hp & Ht). destruct (place_cases p) as [->|(p' & i & ->)].
    + simpl in Hp. simplify_eq. by left.
    + rewrite request_at_child in Hp. destruct (children r !! i) as [ci|] eqn:Hi; [|done].
      right. exists ci. split; [by eapply list_elem_of_lookup_2|].
      apply IH; [by eapply list_elem_of_lookup_2|]. by exists p', c.
Qed.

(** *** The entry that is valid at a time *)

(** The reference: the last entry that has begun; the first entry is valid
    even before its time. *)
Definition valid_entry {T} (stamp : T -> string) (t : Z) (s : list T) : option T :=
  match s with
  | [] => None
  | r :: _ => Some (default r (last (filter (fun e => from_rfc3339 (stamp e) <= t) s)))
  end.

Definition chronological {T} (stamp : T -> string) (s : list T) : Prop :=
  StronglySorted Z.le (map (fun e => from_rfc3339 (stamp e)) s).

Section ValidEntry.
Context {T : Type} (stamp : T -> string) (t : Z).
Abbreviation begun := (fun e => from_rfc3339 (stamp e) <= t).

Lemma chronological_cons r s :
  chronological stamp (r :: s) ->
  chronological stamp s /\ Forall (fun e => from_rfc3339 (stamp r) <= from_rfc3339 (stamp e)) s.
Proof. intros Hs. inversion Hs; subst. split; [done|by apply Forall_map]. Qed.

Lemma none_begun r s :
  chronological stamp (r :: s) -> t < from_rfc3339 (stamp r) -> filter begun (r :: s) = [].
Proof.
  intros [_ Hs]%chronological_cons Hlt. apply filter_all_false. constructor; [lia|].
  eapply Forall_impl; [exact Hs|]. simpl. lia.
Qed.

Lemma find_entry_from_cons first r r2 s :
  find_entry_from stamp t first (r :: r2 :: s) =
    if (from_rfc3339 (stamp r) <=? t) && (t <? from_rfc3339 (stamp r2)) || first && (t <? from_rfc3339 (stamp r))
    then Some r else find_entry_from stamp t false (r2 :: s).
Proof. done. Qed.

Lemma find_entry_from_valid r s :
  chronological stamp (r :: s) -> from_rfc3339 (stamp r) <= t ->
  find_entry_from stamp t false (r :: s) = Some (default r (last (filter begun (r :: s)))).
Proof.
  revert r. induction s as [|r2 s IH]; intros r Hc Hr.
  { simpl. by rewrite filter_cons_True, filter_nil. }
  pose proof (chronological_cons _ _ Hc) as [Hc2 _].
  rewrite filter_cons_True by done. rewrite ?find_entry_from_cons.
  destruct (Z.ltb_spec t (from_rfc3339 (stamp r2))) as [Hlt|Hge].
  - rewrite (proj2 (Z.leb_le _ _) Hr). simpl. by rewrite none_begun.
  - rewrite andb_false_r. simpl orb. rewrite IH by done. f_equal.
    rewrite filter_cons_True by lia. rewrite !last_cons. by destruct (last (filter begun s)).
Qed.

Lemma find_entry_elem s e : find_entry stamp t s = Some e -> e ∈ s.
Proof.
  unfold find_entry. generalize true. induction s as [|r s IH]; intros b; [done|].
  destruct s as [|r2 s]; [simpl; intros; simplify_eq; left|]. rewrite find_entry_from_cons.
  case_match; [intros; simplify_eq; left|]. intros ?. right. by eapply IH.
Qed.

(** The search finds the entry that is valid. *)
Lemma find_entry_valid s : chronological stamp s -> find_entry stamp t s = valid_entry stamp t s.
Proof.
  unfold find_entry. destruct s as [|r s]; intros Hc; [done|]. unfold valid_entry.
  destruct (Z.lt_ge_cases t (from_rfc3339 (stamp r))) as [Hlt|Hge].
  - rewrite none_begun by done. destruct s as [|r2 s]; [done|]. rewrite ?find_entry_from_cons.
    rewrite (proj2 (Z.ltb_lt _ _) Hlt). simpl. by rewrite orb_true_r.
  - rewrite <- find_entry_from_valid by done. destruct s as [|r2 s]; [done|]. rewrite ?find_entry_from_cons.
    rewrite (proj2 (Z.ltb_ge _ _) Hge). simpl. by rewrite orb_false_r.
Qed.
End ValidEntry.

(** The valid entry is the same as long as no entry begins. *)
Lemma valid_entry_constant {T} (stamp : T -> string) t t' s :
  t <= t' -> Forall (fun e => ~ (t < from_rfc3339 (stamp e) <= t')) s ->
  valid_entry stamp t' s = valid_entry stamp t s.
Proof.
  intros Hle Hs. destruct s as [|r s]; [done|]. unfold valid_entry. f_equal. f_equal. f_equal.
  apply filter_agree. eapply Forall_impl; [exact Hs|]. simpl. lia.
Qed.
End TimeSlots.

(** ** Slots are written in whole milliseconds *)

Section Whole.
Context `{DatesLaws}.

Lemma whole_ms_add a b : whole_ms a -> whole_ms b -> whole_ms (a + b).
Proof. apply Z.divide_add_r. Qed.

Lemma whole_ms_minutes m : whole_ms (minutes m).
Proof. exists (60000 * m). unfold minutes, seconds. lia. Qed.

Lemma predefined_slots_whole t d k : whole_ms t -> whole_ms d -> Forall whole_ms (predefined_slots t d k).
Proof.
  intros Ht Hd. revert t Ht. induction k as [|k IH]; intros t Ht; simpl; constructor; [done|].
  by apply IH, whole_ms_add.
Qed.

Lemma timestamps_whole start m k r :
  Forall whole_ms (add_timestamps r) -> Forall whole_ms (create_timestamps start (minutes m) k r).
Proof.
  intros Hr. apply Forall_forall. intros t [Ht|Ht]%elem_of_create_timestamps;
    [|by eapply Forall_forall in Hr].
  eapply Forall_forall; [apply predefined_slots_whole|exact Ht]; [|apply whole_ms_minutes].
  apply whole_ms_add; [|apply leap_seconds_whole].
  assert (start - Z.rem start (minutes m) = minutes m * Z.quot start (minutes m)) as ->.
  { pose proof (Z.quot_rem' start (minutes m)). lia. }
  apply Z.divide_mul_l, whole_ms_minutes.
Qed.

(** Between two slots nothing begins: the entry of a schedule that is valid at
    the beginning of a slot is valid as long as the slot lasts. *)
Lemma slot_entry {T} (stamp : T -> string) (s : list T) ts i ti t :
  StronglySorted Z.lt ts -> (forall e, e ∈ s -> from_rfc3339 (stamp e) ∈ ts) ->
  ts !! i = Some ti -> ti <= t -> (forall t', ts !! S i = Some t' -> t < t') ->
  valid_entry stamp t s = valid_entry stamp ti s.
Proof.
  intros Hts Hs Hi Hle Hnext. apply valid_entry_constant; [done|].
  apply Forall_forall. intros e He [Hlt Hle'].
  destruct (list_elem_of_lookup_1 _ _ (Hs e He)) as [j Hj].
  assert (i < j)%nat as Hij.
  { destruct (Nat.lt_trichotomy i j) as [?|[->|Hji]]; [done|by simplify_eq; lia|].
    pose proof (sorted_lookup ts j i _ _ Hts Hji Hj Hi). lia. }
  destruct (lookup_lt_is_Some_2 ts (S i)) as [t' Ht'].
  { apply lookup_lt_Some in Hj. lia. }
  specialize (Hnext t' Ht').
  destruct (decide (j = S i)) as [->|Hne]; [simplify_eq; lia|].
  pose proof (sorted_lookup ts (S i) j _ _ Hts ltac:(lia) Ht' Hj). lia.
Qed.
End Whole.
