(* ===== verification/EnergyTrading.v ===== *)
(** * Trading keeps every limit

    What a broker buys in a slot respects its offer ([trade_slot_within]), so
    what a trade books at the nodes up to the root respects their limits; the
    invariant [trading_inv] collects this for a whole run of the optimizer,
    together with the balance between a node and the EVSEs below it. *)
From S2P Require Import Prelude Effects EnergyTypes EnergyMarket EnergyBroker.
From S2P Require Import EnergyManager EnergyProofs.
From stdpp Require Import base tactics list numbers strings gmap.
From Stdlib Require Import QArith Qminmax Lqa.
Open Scope Z_scope.

#[local] Arguments trade_slot : simpl never.

(** ** Phases *)

Definition phases_ok (l : LimitsReq) : Prop :=
  (forall n, ac_max_phase_count l = Some n -> 0 <= ivalue n) /\
  (forall n, ac_min_phase_count l = Some n -> 0 <= ivalue n) /\
  (forall k, ac_number_of_active_phases l = Some k -> 0 <= k).

Definition nonneg_phases (n : IntegerWithSource) : Prop := 0 <= ivalue n.

Section Phases.
Context (l : LimitsReq) (Hl : phases_ok l).

Lemma max_phases_nonneg : 0 <= ivalue (max_phases l).
Proof. unfold max_phases. destruct Hl as (H & _ & _), (ac_max_phase_count l); simpl; [by apply H|lia]. Qed.
Lemma min_phases_nonneg : 0 <= ivalue (min_phases l).
Proof. unfold min_phases. destruct Hl as (_ & H & _), (ac_min_phase_count l); simpl; [by apply H|lia]. Qed.
Lemma active_phases_nonneg : 0 <= active_phases l.
Proof. unfold active_phases. destruct Hl as (_ & _ & H), (ac_number_of_active_phases l); simpl; [by apply H|lia]. Qed.

Lemma decide_phases_nonneg g config V now act cs :
  0 <= ivalue (decide_phases g config V now l act cs).1.1.
Proof.
  pose proof max_phases_nonneg. pose proof min_phases_nonneg. pose proof active_phases_nonneg.
  unfold decide_phases. destruct (total_power_W l) as [w|]; [|done].
  destruct (_ && _); [|done]. destruct cs as [c k].
  assert (0 <= ivalue (if switching_cycles_reached config c then sticky_phases config l
                       else optimal_phases config V l w)) as Hopt.
  { unfold sticky_phases, optimal_phases. repeat case_match; simpl; lia. }
  repeat case_match; simplify_eq/=; done.
Qed.
End Phases.

(** ** One slot *)

Section Slots.
Context `{Dates} (g : globals_t) (config : BrokerConfig) (V : Q) (utc_now : nat -> Z).
Hypothesis V_nonneg : (0 <= V)%Q.
Hypothesis slice_ampere_nonneg : (0 <= slice_ampere g)%Q.
Hypothesis slice_watt_nonneg : (0 <= slice_watt g)%Q.

(** What the work on slot [i] leaves: purchases within the limits [io], [eo]
    in this slot, and nothing else changed. *)
Record slot_result (io eo : LimitsReq) (i : nat) (b b' : Broker) : Prop := {
  result_place : same_place b b';
  result_trading : same_but i (trading b) (trading b');
  result_phases : Forall nonneg_phases (num_phases b');
  result_within q : within (limit_of q io) (limit_of q eo) (slot_amount q (trading b') i)
}.

Lemma slot_result_none io eo i b t :
  Forall nonneg_phases (num_phases b) -> trading b !! i = Some t -> zero_entry t ->
  slot_result io eo i b b.
Proof.
  intros Hp Ht Hz. constructor; [done|apply same_but_refl|done|].
  intros q. apply within_zero. unfold slot_amount. rewrite Ht. apply Hz.
Qed.

Lemma slot_result_purchase (imp : bool) io eo i ph b r b' t :
  Forall nonneg_phases (num_phases b) -> trading b !! i = Some t -> zero_entry t ->
  0 <= ivalue ph ->
  purchase V (if imp then io else eo) i imp ph b r b' ->
  slot_result io eo i b b'.
Proof.
  intros Hp Ht Hz Hph Hpur. pose proof (purchase_frame _ _ _ _ _ _ _ _ Hpur) as (? & En & _).
  constructor; [done|by eapply purchase_same_but|by rewrite En|].
  intros q.
  pose proof (purchase_within V _ i imp ph b r b' q (if imp then limit_of q eo else limit_of q io) t
    V_nonneg Hph Hpur Ht Hz) as Hw.
  by destruct imp.
Qed.

Lemma slot_result_after io eo i b1 b b' :
  same_place b1 b -> trading b = trading b1 -> slot_result io eo i b b' -> slot_result io eo i b1 b'.
Proof.
  intros [E1 E2] Et [[F1 F2] ? ? ?]. constructor; try done; [|by rewrite <- Et].
  split; congruence.
Qed.

Lemma nonneg_insert i ph l : Forall nonneg_phases l -> 0 <= ivalue ph -> Forall nonneg_phases (<[i := ph]> l).
Proof. intros ? ?. by apply Forall_insert. Qed.

Lemma positive_value_spec n x : positive_value n = Some x -> (0 < x)%Q.
Proof. destruct n as [n|]; simpl; [|done]. by destruct (Qlt_bool_cases 0 (value n)); intros; simplify_eq. Qed.

Lemma nonneg_lookup i l : Forall nonneg_phases l -> 0 <= ivalue (default (Int 0 "empty") (l !! i)).
Proof.
  intros Hl. destruct (l !! i) as [n|] eqn:E; simpl; [|done].
  by eapply Forall_lookup_1 in Hl.
Qed.

Lemma import_ampere_result eo i o act b cs t :
  phases_ok (limits_to_root o) ->
  Forall nonneg_phases (num_phases b) -> trading b !! i = Some t -> zero_entry t ->
  slot_result (limits_to_root o) eo i b (import_ampere g config V utc_now i o act b cs).1.
Proof.
  intros Ho Hb Ht Hz. unfold import_ampere.
  set (d := if default false (first_trade b !! i) then _ else _).
  assert (0 <= ivalue d.1.1) as Hd.
  { subst d. destruct (default _ _); [by apply decide_phases_nonneg|by apply active_phases_nonneg]. }
  destruct d as [[ph reached] cs']. simpl in Hd.
  destruct (if default false (first_trade b !! i) then _ else None) as [a|] eqn:Ea.
  - assert (0 <= a)%Q as Ha.
    { destruct (default _ _); [|done]. apply positive_value_spec in Ea. lra. }
    set (b1 := update num_phases <[i := ph]> b).
    assert (Forall nonneg_phases (num_phases b1)) by by apply nonneg_insert.
    pose proof (buy_ampere_purchase V o i a false true ph b1 V_nonneg Hd Ha) as Hp1.
    destruct (buy_ampere V o i a false true ph b1) as [[] b2]; simpl in *.
    + apply (slot_result_after _ _ _ _ b1); [done|done|].
      by apply (slot_result_purchase true _ _ _ ph _ true _ t).
    + inversion Hp1; subst b2.
      destruct (_ && _); simpl.
      * set (one := Int 1 "BrokerFastCharging_Buy3phFailed").
        pose proof (buy_ampere_purchase V o i a false true one
          (update num_phases <[i := one]> b1) V_nonneg ltac:(done) Ha) as Hp2.
        eapply slot_result_after; [| |eapply (slot_result_purchase true); [| | | |exact Hp2]];
          try done. by apply nonneg_insert.
      * apply (slot_result_after _ _ _ _ b1); [done|done|].
        by eapply slot_result_none.
  - simpl. eapply (slot_result_purchase true); [done|done|done| |apply buy_ampere_purchase];
      try done; by apply nonneg_lookup.
Qed.

Lemma import_slot_result eo i o act b cs t :
  phases_ok (limits_to_root o) ->
  Forall nonneg_phases (num_phases b) -> trading b !! i = Some t -> zero_entry t ->
  slot_result (limits_to_root o) eo i b (import_slot g config V utc_now i o act b cs).1.
Proof.
  intros Ho Hb Ht Hz. unfold import_slot.
  destruct (ac_max_current_A (limits_to_root o)); [by eapply import_ampere_result|].
  destruct (total_power_W (limits_to_root o)); simpl; [|by eapply slot_result_none].
  by eapply (slot_result_purchase true _ _ _ export_phases);
    [done|done|done| |apply buy_watt_purchase].
Qed.

Lemma export_slot_result io i o b t :
  Forall nonneg_phases (num_phases b) -> trading b !! i = Some t -> zero_entry t ->
  slot_result io (limits_to_root o) i b (export_slot g V i o b).
Proof.
  intros Hb Ht Hz. unfold export_slot.
  destruct (ac_max_current_A (limits_to_root o)).
  - destruct (if default false (first_trade b !! i) then _ else None) as [a|] eqn:Ea.
    + assert (0 <= a)%Q as Ha.
      { destruct (default _ _); [|done]. apply positive_value_spec in Ea. lra. }
      by eapply (slot_result_purchase false _ _ _ export_phases);
        [done|done|done| |apply buy_ampere_purchase].
    + by eapply (slot_result_purchase false _ _ _ export_phases);
        [done|done|done| |apply buy_ampere_purchase].
  - destruct (total_power_W (limits_to_root o)); simpl; [|by eapply slot_result_none].
    by eapply (slot_result_purchase false _ _ _ export_phases);
      [done|done|done| |apply buy_watt_purchase].
Qed.

Lemma trade_slot_result offer i b cs io eo t :
  import_offer offer !! i = Some io -> export_offer offer !! i = Some eo ->
  phases_ok (limits_to_root io) ->
  Forall nonneg_phases (num_phases b) -> trading b !! i = Some t -> zero_entry t ->
  slot_result (limits_to_root io) (limits_to_root eo) i b
    (trade_slot g config V utc_now offer i (b, cs)).1.
Proof.
  intros Eio Eeo Hio Hb Ht Hz. unfold trade_slot. rewrite Eio, Eeo.
  set (b1 := update num_phases _ _).
  assert (Forall nonneg_phases (num_phases b1)) as Hb1.
  { apply Forall_lookup_2. intros j n. simpl. destruct (decide (i = j)) as [->|Hne].
    - rewrite list_lookup_alter_eq. destruct (num_phases b !! j) as [n'|] eqn:E; simpl; [|done].
      intros ?. simplify_eq. unfold nonneg_phases. case_match; [by apply active_phases_nonneg|].
      by eapply Forall_lookup_1 in Hb.
    - rewrite list_lookup_alter_ne by done. by eapply Forall_lookup_1. }
  assert (slot_result (limits_to_root io) (limits_to_root eo) i b1 b1) by by eapply slot_result_none.
  apply (slot_result_after _ _ _ _ b1); [done|done|].
  destruct (slot_type b1 !! i) as [[]|]; simpl; try done.
  - by eapply import_slot_result.
  - by eapply export_slot_result.
Qed.

Lemma trade_slots_result offer l b cs :
  NoDup l ->
  (forall i, i ∈ l -> exists io eo t, import_offer offer !! i = Some io /\ export_offer offer !! i = Some eo /\
    phases_ok (limits_to_root io) /\ trading b !! i = Some t /\ zero_entry t) ->
  Forall nonneg_phases (num_phases b) ->
  let b' := (foldl (fun st i => trade_slot g config V utc_now offer i st) (b, cs) l).1 in
  same_place b b' /\ Forall nonneg_phases (num_phases b') /\
  length (trading b') = length (trading b) /\
  (forall j, j ∉ l -> trading b' !! j = trading b !! j) /\
  (forall i q, i ∈ l -> within (slot_limit q (import_offer offer) i) (slot_limit q (export_offer offer) i)
    (slot_amount q (trading b') i)).
Proof.
  intros Hnd. revert b cs. induction Hnd as [|i l Hi Hnd IH]; intros b cs Hl Hb; simpl.
  { split_and!; try done. intros i q Hin. by apply not_elem_of_nil in Hin. }
  destruct (Hl i) as (io & eo & t & Eio & Eeo & Hio & Ht & Hz); [left|].
  destruct (trade_slot g config V utc_now offer i (b, cs)) as [b1 cs1] eqn:E1.
  destruct (trade_slot_result offer i b cs io eo t) as [[P1 P2] [Hlen Hsame] Hph Hw]; try done.
  rewrite E1 in *. simpl in *.
  destruct (IH b1 cs1) as ([P1' P2'] & Hph' & Hlen' & Hsame' & Hw'); [|done|].
  { intros j Hj. destruct (Hl j) as (io' & eo' & t' & ?); [by right|].
    exists io', eo', t'. rewrite Hsame; [done|]. by intros ->. }
  split_and!; [split; congruence|done|congruence| |].
  - intros j [Hne Hj]%not_elem_of_cons. by rewrite Hsame', Hsame.
  - intros j q [->|Hj]%elem_of_cons; [|by apply Hw'].
    unfold slot_amount, slot_limit. rewrite Hsame' by done. rewrite Eio, Eeo. apply Hw.
Qed.

(** ** One trade *)

(** The offer of a broker: schedules of the length of the run. *)
Definition offer_ok (o : Offer) : Prop :=
  length (import_offer o) = schedule_length g /\ length (export_offer o) = schedule_length g /\
  Forall (fun e => phases_ok (limits_to_root e)) (import_offer o).

Lemma zero_trade_entry o t : zero_entry (zero_trade o t).
Proof. intros []; simpl; [destruct (total_power_W _)|destruct (ac_max_current_A _)]; simpl; lra. Qed.

Lemma broker_trade_result offer b cs ms :
  offer_ok offer -> length (empty_schedule_res g) = schedule_length g ->
  Forall nonneg_phases (num_phases b) ->
  let '(h, b', cs', ms') := broker_trade g config V utc_now offer b cs ms in
  same_place b b' /\ Forall nonneg_phases (num_phases b') /\
  length (trading b') = schedule_length g /\
  ms' = market_trade (local_market b) (trading b') ms /\
  forall i q, within (slot_limit q (import_offer offer) i) (slot_limit q (export_offer offer) i)
    (slot_amount q (trading b') i).
Proof.
  intros (Hi & He & Hph) Hres Hb. unfold broker_trade. rewrite decide_False by lia.
  set (b0 := assign traded false _).
  assert (length (trading b0) = schedule_length g) as Hlen0.
  { simpl. rewrite length_zip_with. lia. }
  unfold tradeImpl.
  destruct (foldl _ (b0, cs) (seq 0 (schedule_length g))) as [b' cs'] eqn:Ef.
  destruct (trade_slots_result offer (seq 0 (schedule_length g)) b0 cs) as ([P1 P2] & Hph' & Hlen & Hout & Hw).
  { apply NoDup_seq. }
  { intros i [_ Hlt]%elem_of_seq.
    destruct (lookup_lt_is_Some_2 (import_offer offer) i) as [io Eio]; [lia|].
    destruct (lookup_lt_is_Some_2 (export_offer offer) i) as [eo Eeo]; [lia|].
    destruct (lookup_lt_is_Some_2 (trading b0) i) as [t Et]; [lia|].
    exists io, eo, t. split_and!; try done; [by eapply Forall_lookup_1 in Hph|].
    simpl in Et. rewrite lookup_zip_with, Eio in Et. simpl in Et.
    destruct (empty_schedule_res g !! i); simplify_eq/=. apply zero_trade_entry. }
  { done. }
  rewrite Ef in *. simpl in *. split_and!; [done|done|lia|by rewrite P1|].
  intros i q. destruct (decide (i < schedule_length g)%nat) as [Hlt|Hge].
  - apply Hw. apply elem_of_seq. lia.
  - apply within_zero. unfold slot_amount. rewrite lookup_ge_None_2 by lia. simpl. lra.
Qed.
End Slots.

(** ** Sums over the EVSEs *)

Definition Qsum (l : list Q) : Q := foldr Qplus 0%Q l.

Lemma Qsum_cons {A} (f : A -> Q) x l : Qsum (f <$> x :: l) = (f x + Qsum (f <$> l))%Q.
Proof. done. Qed.

Lemma Qsum_ext {A} (f h : A -> Q) l :
  (forall x, x ∈ l -> f x == h x)%Q -> (Qsum (f <$> l) == Qsum (h <$> l))%Q.
Proof.
  induction l as [|x l IH]; intros E; [done|]. rewrite ?Qsum_cons.
  rewrite (E x) by left. rewrite IH; [done|]. intros y Hy. apply E. by right.
Qed.

Lemma Qsum_zero {A} (f : A -> Q) l : (forall x, x ∈ l -> f x == 0)%Q -> (Qsum (f <$> l) == 0)%Q.
Proof.
  induction l as [|x l IH]; intros E; [done|]. rewrite ?Qsum_cons.
  rewrite (E x) by left. rewrite IH; [lra|]. intros y Hy. apply E. by right.
Qed.

(** Changing the summand of one element. *)
Lemma Qsum_change {A} `{EqDecision A} (f h : A -> Q) (e : A) (x : Q) l :
  NoDup l -> e ∈ l -> (h e == f e + x)%Q -> (forall y, y <> e -> h y == f y)%Q ->
  (Qsum (h <$> l) == Qsum (f <$> l) + x)%Q.
Proof.
  intros Hnd. induction Hnd as [|y l Hy Hnd IH]; intros He Ee Eo; [|rewrite !Qsum_cons].
  { by apply not_elem_of_nil in He. }
  apply elem_of_cons in He as [->|He].
  - rewrite Ee, (Qsum_ext h f); [lra|]. intros z Hz. apply Eo. by intros ->.
  - rewrite IH by done. rewrite Eo; [lra|]. by intros ->.
Qed.

Lemma Qsum_single {A} `{EqDecision A} (f : A -> Q) (e : A) l :
  NoDup l -> e ∈ l -> (forall y, y ∈ l -> y <> e -> f y == 0)%Q -> (Qsum (f <$> l) == f e)%Q.
Proof.
  intros Hnd. induction Hnd as [|y l Hy Hnd IH]; intros He Eo; [|rewrite !Qsum_cons].
  { by apply not_elem_of_nil in He. }
  apply elem_of_cons in He as [->|He].
  - rewrite Qsum_zero; [lra|]. intros z Hz. apply Eo; [by right|]. by intros ->.
  - rewrite IH; [|done|by intros z Hz; apply Eo; right]. rewrite Eo; [lra|left|]. by intros ->.
Qed.

(** What the EVSEs at or below the node [p] have, when [own] gives the share
    of each EVSE. *)
Definition below (p : MarketPtr) (own : MarketPtr -> Q) (evses : list MarketPtr) : Q :=
  Qsum ((fun e => if decide (p `suffix_of` e) then own e else 0%Q) <$> evses).

Lemma below_trade p own evses e x :
  NoDup evses -> e ∈ evses ->
  (below p (fun e' => own e' + if decide (e' = e) then x else 0) evses ==
   below p own evses + if decide (p `suffix_of` e) then x else 0)%Q.
Proof.
  intros Hnd He. unfold below.
  apply (Qsum_change _ _ e); [done|done| |].
  - rewrite (decide_True (P := e = e)) by done. case_decide; lra.
  - intros y Hy. rewrite (decide_False (P := y = e)) by done. case_decide; lra.
Qed.

(** ** The invariant of a run *)

(** A node respects its limits in every slot. *)
Definition node_ok (n : nat) (m : Market) : Prop :=
  sized n m /\ (0 <= nominal_ac_voltage m)%Q /\
  Forall (fun e => phases_ok (limits_to_root e)) (import_max_available m) /\
  forall i q, within (slot_limit q (import_max_available m) i) (slot_limit q (export_max_available m) i)
    (slot_amount q (sold_root m) i).

(** At every node: what was sold there is what the EVSEs below it bought. *)
Definition balanced (evses : list MarketPtr) (ms : markets) : Prop :=
  exists own : quantity -> nat -> MarketPtr -> Q, forall p m q i,
    ms !! p = Some m -> (slot_amount q (sold_root m) i == below p (own q i) evses)%Q.

Definition broker_ok (evses : list MarketPtr) (b : Broker) : Prop :=
  local_market b ∈ evses /\ Forall nonneg_phases (num_phases b).

Record trading_inv (n : nat) (evses : list MarketPtr) (ms : markets) : Prop := {
  inv_nodes : map_Forall (fun _ m => node_ok n m) ms;
  inv_balanced : balanced evses ms
}.

(** Only the limits of the energy sold at a node change. *)
Definition shape (m : Market) : Market * list string :=
  (assign sold_root [] m, r_timestamp <$> sold_root m).
Definition same_nodes (ms ms' : markets) : Prop := forall p, shape <$> ms' !! p = shape <$> ms !! p.

#[global] Instance same_nodes_preorder : PreOrder same_nodes.
Proof. split; [by intros ? ?|]. intros ? ? ? E E' p. by rewrite E', E. Qed.

Lemma schedule_add_stamps a b : r_timestamp <$> schedule_add a b = r_timestamp <$> a.
Proof.
  unfold schedule_add. case_decide as Hl; [done|].
  assert (length a = length b) as E by lia. clear Hl.
  revert b E. induction a as [|x a IH]; intros [|y b] Hl; simplify_eq/=; [done|].
  f_equal. by apply IH.
Qed.

Lemma market_trade_same_nodes p t ms : same_nodes ms (market_trade p t ms).
Proof.
  intros r. rewrite market_trade_lookup. case_decide; [|done]. destruct (ms !! r); [|done].
  simpl. unfold shape. simpl. by rewrite schedule_add_stamps.
Qed.

Lemma market_trade_balanced evses e t ms n :
  NoDup evses -> e ∈ evses -> length t = n -> map_Forall (fun _ m => node_ok n m) ms ->
  balanced evses ms -> balanced evses (market_trade e t ms).
Proof.
  intros Hnd He Ht Hok [own Hown].
  exists (fun q i e' => own q i e' + if decide (e' = e) then slot_amount q t i else 0)%Q.
  intros p m q i. rewrite market_trade_lookup, below_trade by done.
  case_decide as Hp; [|intros Hm; rewrite (Hown _ _ q i Hm); lra].
  destruct (ms !! p) as [m0|] eqn:Em; simpl; intros ?; simplify_eq. simpl.
  destruct (Hok _ _ Em) as ((_ & _ & Hs) & _).
  rewrite slot_amount_add by congruence. by rewrite (Hown _ _ q i Em).
Qed.

(** ** Trades and rounds *)

Section Rounds.
Context `{Dates} (config : EnergyManagerConfig) (utc_now : nat -> Z) (g : globals_t).
Hypothesis slice_ampere_nonneg : (0 <= slice_ampere g)%Q.
Hypothesis slice_watt_nonneg : (0 <= slice_watt g)%Q.
Hypothesis req_sized : length (empty_schedule_req g) = schedule_length g.
Hypothesis res_sized : length (empty_schedule_res g) = schedule_length g.
Hypothesis req_phases : Forall (fun e => phases_ok (limits_to_root e)) (empty_schedule_req g).
Context (evses : list MarketPtr) (evses_nodup : NoDup evses).

Abbreviation n := (schedule_length g).

Lemma all_sized (ms : markets) : map_Forall (fun _ m => node_ok n m) ms -> map_Forall (fun _ m => sized n m) ms.
Proof. intros Hok p m Hm. by destruct (Hok p m Hm). Qed.

Lemma smaller_phases a b :
  (forall n, a = Some n -> 0 <= ivalue n) -> (forall n, b = Some n -> 0 <= ivalue n) ->
  forall n, apply_one_limit_if_smaller a b = Some n -> 0 <= ivalue n.
Proof.
  intros Ha Hb k. destruct a as [x|], b as [y|]; simpl; intros E; repeat case_match; simplify_eq/=; auto.
Qed.

Lemma greater_phases a b :
  (forall n, a = Some n -> 0 <= ivalue n) -> (forall n, b = Some n -> 0 <= ivalue n) ->
  forall n, apply_one_limit_if_greater a b = Some n -> 0 <= ivalue n.
Proof.
  intros Ha Hb k. destruct a as [x|], b as [y|]; simpl; intros E; repeat case_match; simplify_eq/=; auto.
Qed.

Lemma apply_limits_phases a b :
  Forall (fun e => phases_ok (limits_to_root e)) a -> Forall (fun e => phases_ok (limits_to_root e)) b ->
  Forall (fun e => phases_ok (limits_to_root e)) (apply_limits a b).
Proof.
  intros Ha Hb. unfold apply_limits. case_decide as Hd; [done|].
  apply Forall_lookup_2. intros i e. rewrite lookup_zip_with.
  destruct (a !! i) as [x|] eqn:Ex; simpl; [|done].
  destruct (b !! i) as [y|] eqn:Ey; simpl; [|done]. intros ?. simplify_eq.
  eapply Forall_lookup_1 in Ha as (? & ? & ?), Hb as (? & ? & ?); [|done|done].
  split_and!; simpl; [by apply smaller_phases|by apply greater_phases|done].
Qed.

Lemma available_phases m :
  Forall (fun e => phases_ok (limits_to_root e)) (import_max_available m) ->
  Forall (fun e => phases_ok (limits_to_root e)) (get_available_energy_import m).
Proof.
  intros Hm. apply Forall_lookup_2. intros i e. unfold get_available_energy_import, get_available_energy.
  rewrite lookup_zip_with. destruct (import_max_available m !! i) as [x|] eqn:Ex; simpl; [|done].
  destruct (sold_root m !! i); simpl; [|done]. intros ?. simplify_eq.
  eapply Forall_lookup_1 in Hm; [|done]. exact Hm.
Qed.

Lemma create_offer_ok (ms : markets) p :
  map_Forall (fun _ m => node_ok n m) ms -> offer_ok g (create_offer_for_local_market g ms p).
Proof.
  intros Hok. pose proof (length_offered g ms n req_sized p) as Hlen. split_and!.
  - apply (Hlen true).
  - apply (Hlen false).
  - clear Hlen. induction p as [|k p IH]; rewrite offer_step; simpl;
      destruct (ms !! _) as [m|] eqn:Em; simpl; try done;
      (apply apply_limits_phases; [done|]); apply available_phases; by destruct (Hok _ _ Em) as (_ & _ & ? & _).
Qed.

Lemma trade_one_inv b cs ms :
  trading_inv n evses ms -> broker_ok evses b ->
  let '(h, b', cs', ms') := trade_one config utc_now g b cs ms in
  trading_inv n evses ms' /\ broker_ok evses b' /\ same_nodes ms ms' /\ same_place b b'.
Proof.
  intros [Hok Hbal] [Hb Hph]. unfold trade_one.
  destruct (cs.1 !! context b) as [c|] eqn:Ec; [|done].
  destruct (ms !! local_market b) as [m|] eqn:Em; [|done].
  destruct (Hok _ _ Em) as (_ & HV & _ & _).
  pose proof (create_offer_ok ms (local_market b) Hok) as Ho.
  set (offer := create_offer_for_local_market g ms (local_market b)) in *.
  pose proof (broker_trade_result g (to_broker_fast_charging_config config) (nominal_ac_voltage m) utc_now
    HV slice_ampere_nonneg slice_watt_nonneg offer b (c, cs.2) ms Ho res_sized Hph) as Hres.
  destruct (broker_trade _ _ _ _ _ _ _ _) as [[[h b'] [c' k']] ms'].
  destruct Hres as (Hplace & Hph' & Hlen & -> & Hw).
  split_and!; try done; [|split; [by destruct Hplace as [-> _]|done]|apply market_trade_same_nodes].
  split; [|by apply (market_trade_balanced _ _ _ _ n)].
  intros r mr. rewrite market_trade_lookup. case_decide as Hr; [|apply Hok].
  destruct (ms !! r) as [m0|] eqn:Er; simpl; intros ?; simplify_eq.
  destruct (Hok _ _ Er) as (Hs & HV0 & Hp0 & Hin). destruct Hs as (S1 & S2 & S3).
  split_and!; simpl; try done; [split_and!; simpl; rewrite ?length_schedule_add; done|].
  intros i q. rewrite slot_amount_add by congruence.
  apply within_add; [apply Hin|]. eapply within_tighter; [| |apply Hw].
  - pose proof (offer_tighter g ms n (all_sized _ Hok) req_sized q (local_market b) r m0 true i Hr Er) as Ht.
    rewrite (slot_limit_node q n m0 true) in Ht by done. exact Ht.
  - pose proof (offer_tighter g ms n (all_sized _ Hok) req_sized q (local_market b) r m0 false i Hr Er) as Ht.
    rewrite (slot_limit_node q n m0 false) in Ht by done. exact Ht.
Qed.

Definition same_places (bs bs' : list Broker) : Prop := local_market <$> bs' = local_market <$> bs.

Lemma trading_round_inv bs cs ms :
  trading_inv n evses ms -> Forall (broker_ok evses) bs ->
  let '(h, bs', cs', ms') := trading_round config utc_now g bs cs ms in
  trading_inv n evses ms' /\ Forall (broker_ok evses) bs' /\ same_nodes ms ms' /\ same_places bs bs'.
Proof.
  revert cs ms. induction bs as [|b bs IH]; intros cs ms Hinv Hbs; simpl; [done|].
  apply Forall_cons in Hbs as [Hb Hbs].
  pose proof (trade_one_inv b cs ms Hinv Hb) as H1.
  destruct (trade_one _ _ _ _ _ _) as [[[h b'] cs1] ms1]. destruct H1 as (Hinv1 & Hb' & Hn1 & [Hp1 _]).
  specialize (IH cs1 ms1 Hinv1 Hbs).
  destruct (trading_round _ _ _ _ _ _) as [[[h' bs'] cs2] ms2]. destruct IH as (? & ? & Hn2 & Hp2).
  split_and!; [done|by constructor|by etrans|]. unfold same_places in *. rewrite !fmap_cons. congruence.
Qed.

Lemma trading_rounds_inv k bs cs ms :
  trading_inv n evses ms -> Forall (broker_ok evses) bs ->
  let '(bs', cs', ms') := trading_rounds config utc_now g k bs cs ms in
  trading_inv n evses ms' /\ Forall (broker_ok evses) bs' /\ same_nodes ms ms' /\ same_places bs bs'.
Proof.
  revert bs cs ms. induction k as [|k IH]; intros bs cs ms Hinv Hbs; simpl; [done|].
  pose proof (trading_round_inv bs cs ms Hinv Hbs) as H1.
  destruct (trading_round _ _ _ _ _ _) as [[[h bs1] cs1] ms1]. destruct H1 as (Hinv1 & Hbs1 & Hn1 & Hp1).
  destruct h; [|done]. specialize (IH bs1 cs1 ms1 Hinv1 Hbs1).
  destruct (trading_rounds _ _ _ _ _ _ _) as [[bs2 cs2] ms2]. destruct IH as (? & ? & Hn2 & Hp2).
  split_and!; [done|done|by etrans|]. unfold same_places in *. congruence.
Qed.
End Rounds.
