(* ===== verification/EnergyRun.v ===== *)
(** * A run of the optimizer

    The markets and brokers a run starts with satisfy the invariant of the
    trading, so the markets it ends with do; the limits it returns are the
    energy sold at the EVSEs. *)
From S2P Require Import Prelude Effects EnergyTypes EnergyMarket EnergyBroker.
From S2P Require Import EnergyManager EnergyProofs EnergyTree EnergyTrading.
From stdpp Require Import base tactics list numbers strings gmap.
From Stdlib Require Import QArith Qminmax Lqa.
Open Scope Z_scope.

(** ** Well-formed requests *)

(** A property of every node of a tree. *)
Fixpoint tree_all (P : EnergyFlowRequest -> bool) (r : EnergyFlowRequest) : bool :=
  P r && (fix go (cs : list EnergyFlowRequest) : bool :=
            match cs with
            | [] => true
            | c :: cs => tree_all P c && go cs
            end) (children r).

Lemma tree_all_at P r : tree_all P r = true -> forall p c, request_at r p = Some c -> P c = true.
Proof.
  induction r as [r IH] using request_ind. rewrite Forall_forall in IH. intros Hall p c Hp.
  set (rest := fix go (cs : list EnergyFlowRequest) : bool :=
     match cs with [] => true | c :: cs => tree_all P c && go cs end).
  assert (tree_all P r = P r && rest (children r)) as E by by destruct r.
  rewrite E in Hall. apply andb_true_iff in Hall as [Hr Hrest].
  assert (forall cs, rest cs = true -> forall c, c ∈ cs -> tree_all P c = true) as Hgo.
  { intros cs. induction cs as [|c' cs IHcs]; simpl; intros Hcs c0 Hc0; [by apply not_elem_of_nil in Hc0|].
    apply andb_true_iff in Hcs as [? ?]. apply elem_of_cons in Hc0 as [->|?]; auto. }
  destruct (place_cases p) as [->|(p' & i & ->)]; [simpl in Hp; by simplify_eq|].
  rewrite request_at_child in Hp. destruct (children r !! i) as [ci|] eqn:Hi; [|done].
  apply list_elem_of_lookup_2 in Hi. eapply IH; eauto.
Qed.

(** Numbers of phases are not negative. *)
Definition phases_okb (l : LimitsReq) : bool :=
  forallb (fun n => 0 <=? ivalue n) (option_list (ac_max_phase_count l)) &&
  forallb (fun n => 0 <=? ivalue n) (option_list (ac_min_phase_count l)) &&
  forallb (fun k => 0 <=? k) (option_list (ac_number_of_active_phases l)).

Definition entry_okb (e : ScheduleReqEntry) : bool :=
  phases_okb (limits_to_root e) && phases_okb (limits_to_leaves e).

Definition well_formed (r : EnergyFlowRequest) : bool :=
  tree_all (fun c => forallb entry_okb (schedule_import c)) r.

Lemma phases_okb_spec l : phases_okb l = true -> phases_ok l.
Proof.
  unfold phases_okb. intros [[H1 H2]%andb_true_iff H3]%andb_true_iff. split_and!; intros k E;
    rewrite E in *; simpl in *; rewrite andb_true_r in *; lia.
Qed.

(** No EVSE has another EVSE below it. *)
Definition evses_are_leaves (r : EnergyFlowRequest) : bool :=
  let evses := get_list_of_evses r [] in
  forallb (fun e => forallb (fun e' => implb (bool_decide (e `suffix_of` e')) (bool_decide (e = e'))) evses) evses.

Lemma evses_are_leaves_spec r e e' :
  evses_are_leaves r = true ->
  e ∈ get_list_of_evses r [] -> e' ∈ get_list_of_evses r [] -> e `suffix_of` e' -> e = e'.
Proof.
  unfold evses_are_leaves. rewrite forallb_forall. setoid_rewrite forallb_forall.
  setoid_rewrite <- list_elem_of_In. intros Hl He He' Hs. specialize (Hl e He e' He').
  rewrite bool_decide_true in Hl by done. by apply bool_decide_eq_true in Hl.
Qed.

(** ** The start of a run *)

Lemma min_optional_cases {T} `{WithSource T} (a b : option T) : min_optional a b = a \/ min_optional a b = b.
Proof. unfold min_optional. destruct a, b; auto. case_match; auto. Qed.
Lemma max_optional_cases {T} `{WithSource T} (a b : option T) : max_optional a b = a \/ max_optional a b = b.
Proof. unfold max_optional. destruct a, b; auto. case_match; auto. Qed.

Abbreviation phases_all := (Forall (fun e => phases_ok (limits_to_root e))).

Lemma merged_limits_phases e l : entry_okb e = true -> phases_ok (merged_limits e l).
Proof.
  intros [(R1 & R2 & R3)%phases_okb_spec (L1 & L2 & _)%phases_okb_spec]%andb_true_iff.
  split_and!; simpl; [| |done]; intros n E.
  - destruct (min_optional_cases (ac_max_phase_count (limits_to_root e)) (ac_max_phase_count (limits_to_leaves e)))
      as [E'|E']; rewrite E' in E; auto.
  - destruct (max_optional_cases (ac_min_phase_count (limits_to_root e)) (ac_min_phase_count (limits_to_leaves e)))
      as [E'|E']; rewrite E' in E; auto.
Qed.

Lemma no_limits_phases : phases_ok no_limits_req.
Proof. by split_and!. Qed.

Lemma apply_setpoint_phases sp f i e :
  phases_ok i -> phases_ok (apply_setpoint sp f i e).1.
Proof.
  intros Hi. unfold apply_setpoint, apply_setpoint_value. repeat case_match; simplify_eq/=; done.
Qed.

Lemma apply_setpoints_spec imp exp sp f :
  let r := apply_setpoints imp exp sp f in
  length r.1 = length imp /\ length r.2 = length exp /\ (phases_all imp -> phases_all r.1).
Proof.
  unfold apply_setpoints. case_decide; [done|]. case_decide; [done|]. simpl.
  assert (forall imp exp sp, let r := apply_setpoints_loop imp exp sp f in
    length r.1 = length imp /\ length r.2 = length exp /\ (phases_all imp -> phases_all r.1)) as Hloop; [|apply Hloop].
  clear. induction imp as [|i imp IH]; intros exp sp; [by destruct exp, sp|].
  destruct exp as [|e exp], sp as [|s sp]; try done. simpl.
  destruct (IH exp sp) as (L1 & L2 & L3). destruct (apply_setpoints_loop imp exp sp f) as [imp' exp'].
  simpl in *. destruct (setpoint s) as [v|]; simpl.
  - pose proof (apply_setpoint_phases v f (limits_to_root i) (limits_to_root e)) as Hv.
    destruct (apply_setpoint v f _ _) as [li le]. simpl in *.
    split_and!; [lia|lia|]. intros [? ?]%Forall_cons. constructor; simpl; auto.
  - split_and!; [lia|lia|]. intros [? ?]%Forall_cons. constructor; simpl; auto.
Qed.

Section Start.
Context `{Dates} (config : EnergyManagerConfig) (utc_now : nat -> Z).
Context (request : EnergyFlowRequest) (start : Z).

Abbreviation g := (run_globals config request start).
Abbreviation n := (schedule_length g).

Lemma run_schedules_sized :
  length (empty_schedule_req g) = n /\ length (empty_schedule_res g) = n /\ length (zero_schedule_req g) = n /\
  length (empty_schedule_setpoints g) = n.
Proof.
  unfold run_globals, globals_init, schedule_length, create_empty_schedule.
  cbn [empty_schedule_req empty_schedule_res zero_schedule_req empty_schedule_setpoints timestamps].
  by rewrite !length_map.
Qed.

Lemma phases_map {A} (f : A -> ScheduleReqEntry) l :
  (forall x, phases_ok (limits_to_root (f x))) -> phases_all (map f l).
Proof. intros Hf. induction l; constructor; auto. Qed.

Lemma nothing_sold q i : slot_amount q (empty_schedule_res g) i = 0%Q.
Proof.
  unfold slot_amount, run_globals, globals_init, create_empty_schedule. cbn [empty_schedule_res].
  rewrite list_lookup_fmap. destruct (create_timestamps _ _ _ _ !! i); by destruct q.
Qed.

Lemma market_of_sold r voltage : sold_root (market_of g r voltage) = empty_schedule_res g.
Proof. unfold market_of. by destruct (apply_setpoints _ _ _ _). Qed.

Lemma max_available_sized (s : ScheduleReq) :
  length (match s with [] => zero_schedule_req g | _ => get_max_available_energy g s end) = n.
Proof.
  destruct run_schedules_sized as (R1 & _ & R3 & _). destruct s; [done|].
  unfold get_max_available_energy. by rewrite length_map.
Qed.

Lemma market_of_sized r voltage : sized n (market_of g r voltage).
Proof.
  destruct run_schedules_sized as (_ & R2 & _). unfold market_of.
  match goal with |- context [apply_setpoints ?i ?e ?s ?f] =>
    pose proof (apply_setpoints_spec i e s f) as (L1 & L2 & _);
    destruct (apply_setpoints i e s f) as [imp exp] end.
  simpl in L1, L2. rewrite max_available_sized in L1, L2. done.
Qed.

Lemma market_of_ok r voltage :
  forallb entry_okb (schedule_import r) = true -> (0 <= voltage)%Q ->
  node_ok n (market_of g r voltage).
Proof.
  intros Hr HV. split; [apply market_of_sized|].
  unfold market_of.
  set (imp := match schedule_import r with [] => _ | _ => _ end).
  set (exp := match schedule_export r with [] => _ | _ => _ end).
  set (sp := match schedule_setpoints r with [] => _ | _ => _ end).
  assert (phases_all imp) as Hp.
  { subst imp. destruct (schedule_import r) as [|e s] eqn:Es.
    - apply phases_map. intros x. apply no_limits_phases.
    - rewrite <- Es in *. unfold get_max_available_energy, run_globals, globals_init, create_empty_schedule.
      cbn [empty_schedule_req]. rewrite map_map. apply phases_map. intros x.
      destruct (find_entry _ _ _) as [e'|] eqn:Ef; [|apply no_limits_phases]. simpl.
      apply merged_limits_phases. rewrite forallb_forall in Hr. apply Hr, list_elem_of_In.
      by apply find_entry_elem in Ef. }
  destruct (apply_setpoints_spec imp exp sp (measured_frequency r)) as (_ & _ & L3).
  destruct (apply_setpoints imp exp sp (measured_frequency r)) as [imp' exp']. simpl in *.
  split_and!; simpl; [done|by apply L3|].
  intros i q. apply within_zero. by rewrite nothing_sold.
Qed.

(** The EVSEs, and a broker for each of them. *)
Abbreviation evses := (get_list_of_evses request []).
Abbreviation markets0 := (create_market g request (c_nominal_ac_voltage config) [] ∅).

Lemma markets_sized : map_Forall (fun _ m => sized n m) markets0.
Proof.
  intros p m. rewrite create_market_lookup.
  destruct (request_at request p) as [c|]; simpl; intros ?; simplify_eq. apply market_of_sized.
Qed.

Lemma market_at_evse e : e ∈ evses -> exists m, markets0 !! e = Some m.
Proof.
  intros (k & c & -> & Hk & _)%elem_of_evses. rewrite app_nil_r, create_market_lookup, Hk. by eexists.
Qed.

Lemma create_brokers_spec cs :
  let bs := (create_brokers config utc_now g markets0 evses cs).1 in
  local_market <$> bs = evses /\ Forall (broker_ok evses) bs.
Proof.
  assert (forall l acc, (forall e, e ∈ l -> e ∈ evses) -> Forall (broker_ok evses) acc.1 ->
    let bs := (foldl (fun acc m => create_broker config utc_now g markets0 m acc) acc l).1 in
    local_market <$> bs = (local_market <$> acc.1) ++ l /\ Forall (broker_ok evses) bs) as Hgo.
  { induction l as [|e l IH]; intros acc Hl Hacc; simpl; [by rewrite app_nil_r|].
    destruct (market_at_evse e) as [c Hc]; [by apply Hl; left|].
    destruct (IH (create_broker config utc_now g markets0 e acc)) as [E1 E2].
    { intros e' He'. apply Hl. by right. }
    { unfold create_broker. rewrite Hc. simpl. apply Forall_app. split; [done|].
      constructor; [|constructor]. split; [by apply Hl; left|].
      apply Forall_replicate. done. }
    split; [|done]. rewrite E1. unfold create_broker. rewrite Hc. simpl.
    by rewrite fmap_app, <- app_assoc. }
  unfold create_brokers. destruct (Hgo evses ([], cs)) as [E1 E2]; [done|constructor|].
  split; [exact E1|exact E2].
Qed.

Hypothesis slice_ampere_nonneg : (0 <= c_slice_ampere config)%Q.
Hypothesis slice_watt_nonneg : (0 <= c_slice_watt config)%Q.
Hypothesis voltage_nonneg : (0 <= c_nominal_ac_voltage config)%Q.
Hypothesis request_ok : well_formed request = true.

Lemma start_inv : trading_inv n evses markets0.
Proof.
  split.
  - intros p m. rewrite create_market_lookup.
    destruct (request_at request p) as [c|] eqn:Hc; simpl; intros ?; simplify_eq.
    apply market_of_ok; [|done]. by apply (tree_all_at _ _ request_ok p).
  - exists (fun _ _ _ => 0%Q). intros p m q i. rewrite create_market_lookup.
    destruct (request_at request p) as [c|] eqn:Hc; simpl; intros ?; simplify_eq.
    rewrite market_of_sold, nothing_sold. unfold below. symmetry. apply Qsum_zero.
    intros e _. by case_decide.
Qed.

(** What holds at the end of a run. *)
Lemma run_trading_inv cs :
  let '(bs, cs', ms) := run_trading config utc_now request start cs in
  trading_inv n evses ms /\ local_market <$> bs = evses /\
  forall p, shape <$> ms !! p =
    (fun c => shape (market_of g c (c_nominal_ac_voltage config))) <$> request_at request p.
Proof.
  unfold run_trading, start_trading. pose proof (create_brokers_spec cs) as [Hl Hbs].
  destruct (create_brokers _ _ _ _ _ _) as [bs cs1]. simpl in Hl, Hbs.
  destruct run_schedules_sized as (R1 & R2 & _).
  pose proof (trading_rounds_inv config utc_now g slice_ampere_nonneg slice_watt_nonneg R1 R2
    ltac:(apply phases_map; intros; apply no_limits_phases) evses (evses_NoDup request [])
    max_number_of_trading_rounds bs cs1 markets0 start_inv Hbs) as Hr.
  destruct (trading_rounds _ _ _ _ _ _ _) as [[bs' cs'] ms]. destruct Hr as (Hinv & _ & Hn & Hp).
  split_and!; [done|by rewrite Hp|].
  intros p. rewrite Hn, create_market_lookup. by destruct (request_at request p).
Qed.

(** *** The result *)

(** The slot whose limits are enforced: the last one that has begun, or the
    first. *)
Fixpoint begun_slots (ts : list Z) : nat :=
  match ts with
  | [] => O
  | t :: ts => if start <? from_rfc3339 (to_rfc3339 t) then O else S (begun_slots ts)
  end.
Definition current_slot : nat := pred (begun_slots (timestamps g)).

Lemma begun_slots_le ts : (begun_slots ts <= length ts)%nat.
Proof. induction ts; simpl; [lia|]. case_match; lia. Qed.

Lemma select_root_limits_spec l ts sold :
  r_timestamp <$> sold = to_rfc3339 <$> ts ->
  select_root_limits g l sold =
    match begun_slots ts with
    | O => l
    | S k => from_option r_limits_to_root l (sold !! k)
    end.
Proof.
  revert l sold. induction ts as [|t ts IH]; intros l [|s sold] E; try done.
  rewrite !fmap_cons in E. injection E as Es E. simpl. rewrite Es.
  destruct (start <? _); [done|]. rewrite IH by done.
  destruct (begun_slots ts) as [|k] eqn:Ek; [done|]. simpl.
  destruct (lookup_lt_is_Some_2 sold k) as [s' ->]; [|done].
  apply (f_equal length) in E. rewrite !length_fmap in E.
  pose proof (begun_slots_le ts). lia.
Qed.

(** A node of the tree at the end of a run: its limits are those of its
    request, its schedule has the time stamps of the run. *)
Lemma shape_market m c voltage :
  shape m = shape (market_of g c voltage) ->
  import_max_available m = import_max_available (market_of g c voltage) /\
  export_max_available m = export_max_available (market_of g c voltage) /\
  energy_flow_request m = c /\
  r_timestamp <$> sold_root m = to_rfc3339 <$> timestamps g.
Proof.
  unfold shape. intros E. injection E as E1 E2 E3 E4 E5 E6. rewrite market_of_sold in E6.
  split_and!; [done|done| |].
  - rewrite E1. unfold market_of. by destruct (apply_setpoints _ _ _ _).
  - rewrite E6. unfold run_globals, globals_init, create_empty_schedule.
    cbn [empty_schedule_res timestamps]. by rewrite <- list_fmap_compose.
Qed.

Lemma enforced_limits_spec m c :
  shape m = shape (market_of g c (c_nominal_ac_voltage config)) -> timestamps g <> [] ->
  exists s, sold_root m !! current_slot = Some s /\
    enforced_limits config g m =
      Some (mkEnforcedLimits (uuid c) (update_interval config * 10) (r_limits_to_root s) (sold_root m)).
Proof.
  intros Hs Hne. destruct (shape_market _ _ _ Hs) as (_ & _ & Hr & Hst).
  assert (length (sold_root m) = length (timestamps g)) as Hlen.
  { apply (f_equal length) in Hst. by rewrite !length_fmap in Hst. }
  unfold enforced_limits. destruct (sold_root m) as [|s0 sold] eqn:Es.
  { destruct (timestamps g); [done|by simplify_eq/=]. }
  rewrite <- Es in *. rewrite (select_root_limits_spec _ (timestamps g)) by done.
  unfold current_slot. pose proof (begun_slots_le (timestamps g)) as Hle.
  destruct (begun_slots (timestamps g)) as [|k] eqn:Ek; simpl.
  - exists s0. rewrite Hr, Es. done.
  - destruct (lookup_lt_is_Some_2 (sold_root m) k) as [s Hk]; [lia|].
    exists s. rewrite Hk, Hr, Es. done.
Qed.

(** What the results assign to the EVSEs at or below [p], when [f] reads the
    amount from a result. *)
Definition assigned_below (p : MarketPtr) (f : EnforcedLimits -> Q) (limits : list EnforcedLimits) : Q :=
  Qsum (zip_with (fun e l => if decide (p `suffix_of` e) then f l else 0%Q) evses limits).

Lemma Forall2_sum {A B} (P : A -> B -> Prop) (f : A -> B -> Q) (h : A -> Q) l k :
  Forall2 P l k -> (forall a b, a ∈ l -> P a b -> f a b == h a)%Q -> (Qsum (zip_with f l k) == Qsum (h <$> l))%Q.
Proof.
  induction 1 as [|a b l k Hab Hlk IH]; intros E; [done|].
  rewrite Qsum_cons, <- IH by (intros; apply E; [by right|done]).
  rewrite <- (E a b) by (done || by left). done.
Qed.

Hypothesis leaves : evses_are_leaves request = true.

(** The sum of what the EVSEs below a node have is what was sold there. *)
Lemma assigned_below_sold ms q i f limits p m :
  trading_inv n evses ms -> ms !! p = Some m ->
  Forall2 (fun e l => exists me, ms !! e = Some me /\ (f l == slot_amount q (sold_root me) i)%Q) evses limits ->
  (assigned_below p f limits == slot_amount q (sold_root m) i)%Q.
Proof.
  intros [_ [own Hown]] Hm Hres. rewrite (Hown _ _ q i Hm). unfold assigned_below, below.
  apply (Forall2_sum _ _ _ _ _ Hres). intros e l He (me & Hme & Hl).
  case_decide as Hp; [|done]. rewrite Hl, (Hown _ _ q i Hme). unfold below.
  rewrite (Qsum_single _ e); [|apply evses_NoDup|done|].
  - by rewrite decide_True.
  - intros e' He' Hne. rewrite decide_False; [done|]. intros Hs. apply Hne. symmetry. by eapply evses_are_leaves_spec.
Qed.

(** The results of a run, EVSE by EVSE. *)
Definition result_of (ms : markets) (e : MarketPtr) (l : EnforcedLimits) : Prop :=
  exists m c s, ms !! e = Some m /\ request_at request e = Some c /\
    sold_root m !! current_slot = Some s /\
    l = mkEnforcedLimits (uuid c) (update_interval config * 10) (r_limits_to_root s) (sold_root m).

Lemma run_optimizer_results cs limits cs' :
  run_optimizer config utc_now request start cs = (limits, cs') ->
  exists ms, trading_inv n evses ms /\
    (forall p, shape <$> ms !! p =
      (fun c => shape (market_of g c (c_nominal_ac_voltage config))) <$> request_at request p) /\
    ((timestamps g = [] /\ limits = []) \/ (timestamps g <> [] /\ Forall2 (result_of ms) evses limits)).
Proof.
  unfold run_optimizer. pose proof (run_trading_inv cs) as Hrun.
  destruct (run_trading _ _ _ _ _) as [[bs cs1] ms]. destruct Hrun as (Hinv & Hbs & Hshape).
  intros E. simplify_eq. exists ms. split; [done|]. split; [done|].
  assert (forall b, b ∈ bs -> exists m c, ms !! local_market b = Some m /\
    request_at request (local_market b) = Some c /\
    shape m = shape (market_of g c (c_nominal_ac_voltage config))) as Hb.
  { intros b Hb. assert (local_market b ∈ evses) as He by (rewrite <- Hbs; by apply list_elem_of_fmap_2).
    apply elem_of_evses in He as (k & c & Ek & Hk & _). rewrite app_nil_r in Ek. subst k.
    specialize (Hshape (local_market b)). rewrite Hk in Hshape.
    destruct (ms !! local_market b) as [m|]; [|done]. simpl in Hshape. exists m, c.
    split_and!; [done|done|]. by apply (inj Some) in Hshape. }
  destruct (decide (timestamps g = [])) as [Hnil|Hne].
  - left. split; [done|]. unfold optimized_values. clear Hbs.
    induction bs as [|b bs IH]; [done|].
    destruct (Hb b) as (m & c & Hm & _ & Hs); [by left|]. cbn [omap list_omap]. rewrite Hm. simpl.
    destruct (shape_market _ _ _ Hs) as (_ & _ & _ & Hst). rewrite Hnil in Hst.
    apply fmap_nil_inv in Hst. unfold enforced_limits. rewrite Hst.
    apply IH. intros b' Hb'. apply Hb. by right.
  - right. split; [done|]. rewrite <- Hbs at 1. unfold optimized_values. clear Hbs.
    induction bs as [|b bs IH]; [constructor|].
    destruct (Hb b) as (m & c & Hm & Hc & Hs); [by left|].
    destruct (enforced_limits_spec m c Hs Hne) as (s & Hk & El).
    cbn [omap list_omap]. rewrite Hm. simpl. rewrite El. constructor.
    + exists m, c, s. done.
    + apply IH. intros b' Hb'. apply Hb. by right.
Qed.

(** What a run assigns below a node respects the limits the node had before
    the trading; [f] reads a slot of a result. *)
Lemma run_within cs limits cs' p c q i f :
  run_optimizer config utc_now request start cs = (limits, cs') ->
  request_at request p = Some c ->
  (forall ms e l, result_of ms e l -> exists me, ms !! e = Some me /\ (f l == slot_amount q (sold_root me) i)%Q) ->
  let m := market_of g c (c_nominal_ac_voltage config) in
  within (slot_limit q (import_max_available m) i) (slot_limit q (export_max_available m) i)
    (assigned_below p f limits).
Proof.
  intros Hrun Hc Hf m0. apply run_optimizer_results in Hrun as (ms & Hinv & Hshape & Hres).
  destruct Hres as [[_ ->]|[_ Hres]].
  { apply within_zero. unfold assigned_below. by destruct evses. }
  specialize (Hshape p). rewrite Hc in Hshape. destruct (ms !! p) as [m|] eqn:Em; [|done].
  apply (inj Some) in Hshape. destruct (shape_market _ _ _ Hshape) as (Ei & Ee & _ & _).
  rewrite (assigned_below_sold ms q i f limits p m Hinv Em).
  - destruct Hinv as [Hok _]. destruct (Hok _ _ Em) as (_ & _ & _ & Hw).
    specialize (Hw i q). rewrite Ei, Ee in Hw. exact Hw.
  - eapply Forall2_impl; [exact Hres|]. intros e l Hel. by eapply Hf.
Qed.

(** The limits that are enforced now are those of one slot of the run. *)
Lemma run_current_slot cs limits cs' :
  run_optimizer config utc_now request start cs = (limits, cs') -> limits = [] \/ (current_slot < n)%nat.
Proof.
  intros (ms & _ & _ & [[_ ->]|[Hne _]])%run_optimizer_results; [by left|right].
  pose proof (begun_slots_le (timestamps g)). unfold current_slot, schedule_length.
  destruct (timestamps g) as [|t ts]; [done|simpl in *; lia].
Qed.

Lemma enforced_amount ms e l q :
  result_of ms e l -> exists me, ms !! e = Some me /\
    (amount (traded_of q (limits_root_side l)) == slot_amount q (sold_root me) current_slot)%Q.
Proof.
  intros (me & ce & s & Hme & _ & Hs & ->). exists me. split; [done|].
  unfold slot_amount. by rewrite Hs.
Qed.
End Start.
