(* ===== verification/EnergyMaximal.v ===== *)
(** * When the trading ends

    A round in which nobody buys anything changes no amount, and in it every
    broker has found that nothing is left for it: its offer is used up, or it
    is below the minimal current of the EVSE ([satisfied]).  The lemmas here
    follow a slot, a trade and a round that buy nothing. *)
From S2P Require Import Prelude Effects EnergyTypes EnergyMarket EnergyBroker.
From S2P Require Import EnergyManager EnergyProofs EnergyTree EnergyTrading EnergyRun.
From stdpp Require Import base tactics list numbers strings gmap.
From Stdlib Require Import QArith Qminmax Lqa.
Open Scope Z_scope.

#[local] Arguments trade_slot : simpl never.

(** ** What is left for a broker *)

(** A limit that is reached. *)
Definition used_up (n : option NumberWithSource) : Prop := exists x, n = Some x /\ (value x <= 0)%Q.

(** An offer without any limit is not used either. *)
Definition spent (o : LimitsReq) : Prop :=
  used_up (ac_max_current_A o) \/ used_up (total_power_W o) \/
  (ac_max_current_A o = None /\ total_power_W o = None).

(** The offer does not allow the minimal current, on [ph] phases. *)
Definition below_minimum (V : Q) (o : LimitsReq) (ph : IntegerWithSource) : Prop :=
  exists m, positive_value (ac_min_current_A o) = Some m /\
    ((exists a, ac_max_current_A o = Some a /\ (value a < m)%Q) \/
     (exists w, total_power_W o = Some w /\ (value w < watt_of V m ph)%Q)).

(** The broker cannot use the rest [io], [eo] of its offer in slot [i]. *)
Definition satisfied (V : Q) (b : Broker) (i : nat) (io eo : LimitsReq) : Prop :=
  match slot_type b !! i with
  | Some Import =>
      spent io \/
      (first_trade b !! i = Some true /\ exists ph, num_phases b !! i = Some ph /\ below_minimum V io ph)
  | Some Export =>
      spent eo \/ (first_trade b !! i = Some true /\ below_minimum V eo export_phases)
  | _ => can_trade io = false /\ can_trade eo = false
  end.

(** ** Purchases that fail *)

Lemma buy_ampere_fails V o i a imp ph b b' m :
  ac_max_current_A (limits_to_root o) = Some m ->
  buy_ampere V o i a true imp ph b = (false, b') -> spent (limits_to_root o) /\ b' = b.
Proof.
  intros Em. unfold buy_ampere, spent, used_up. rewrite Em.
  destruct (total_power_W (limits_to_root o)) as [w|]; qcase; simpl; intros E; simplify_eq; eauto 6.
Qed.

Lemma buy_minimum_fails V o i m imp ph b b' a :
  positive_value (ac_min_current_A (limits_to_root o)) = Some m ->
  ac_max_current_A (limits_to_root o) = Some a ->
  buy_ampere V o i m false imp ph b = (false, b') -> below_minimum V (limits_to_root o) ph /\ b' = b.
Proof.
  intros Hm Ea. unfold buy_ampere, below_minimum. rewrite Ea.
  destruct (total_power_W (limits_to_root o)) as [w|]; qcase; simpl; intros E; simplify_eq; eauto 8.
Qed.

Lemma buy_watt_fails o i x imp b b' w :
  total_power_W (limits_to_root o) = Some w ->
  buy_watt o i x true imp b = (false, b') -> spent (limits_to_root o) /\ b' = b.
Proof.
  intros Ew. unfold buy_watt, spent, used_up. rewrite Ew. qcase; simpl; intros E; simplify_eq; eauto 6.
Qed.

(** A successful purchase is remembered. *)
Lemma buy_ampere_traded V o i a less imp ph b :
  let r := buy_ampere V o i a less imp ph b in
  if r.1 then traded r.2 = true else r.2 = b.
Proof. unfold buy_ampere. repeat case_match; simpl; done. Qed.

Lemma buy_watt_traded o i x less imp b :
  let r := buy_watt o i x less imp b in
  if r.1 then traded r.2 = true else r.2 = b.
Proof. unfold buy_watt. repeat case_match; simpl; done. Qed.

(** ** One slot *)

Section Slot.
Context `{Dates} (g : globals_t) (config : BrokerConfig) (V : Q) (utc_now : nat -> Z).

(** Slots other than [i] are the same for the broker. *)
Definition same_slots_but (i : nat) (b b' : Broker) : Prop :=
  length (num_phases b') = length (num_phases b) /\ length (slot_type b') = length (slot_type b) /\
  length (first_trade b') = length (first_trade b) /\
  forall j, j <> i -> slot_type b' !! j = slot_type b !! j /\ first_trade b' !! j = first_trade b !! j /\
    num_phases b' !! j = num_phases b !! j.

(** A slot that ends without a purchase. *)
Record idle_slot (i : nat) (io eo : LimitsReq) (b b' : Broker) : Prop := {
  idle_trading : trading b' = trading b;
  idle_satisfied : satisfied V b' i io eo;
  idle_others : same_slots_but i b b'
}.

Lemma same_slots_refl i b : same_slots_but i b b.
Proof. done. Qed.
Lemma same_slots_trans i b b' b'' : same_slots_but i b b' -> same_slots_but i b' b'' -> same_slots_but i b b''.
Proof.
  intros (E1 & E2 & E3 & E) (F1 & F2 & F3 & F). split_and!; [congruence..|].
  intros j Hj. destruct (E j Hj) as (? & ? & ?), (F j Hj) as (? & ? & ?). split_and!; congruence.
Qed.
Lemma same_slots_phases i ph b : same_slots_but i b (update num_phases <[i := ph]> b).
Proof.
  split_and!; simpl; [apply length_insert|done..|]. intros j Hj. by rewrite list_lookup_insert_ne.
Qed.

(** Nothing bought with the phases [ph] noted for the slot. *)
Lemma idle_minimum i io eo ph b b' :
  (i < length (num_phases b))%nat -> slot_type b !! i = Some Import -> first_trade b !! i = Some true ->
  below_minimum V io ph -> same_slots_but i b b' -> trading b' = trading b ->
  slot_type b' = slot_type b -> first_trade b' = first_trade b ->
  idle_slot i io eo b (update num_phases <[i := ph]> b').
Proof.
  intros Hi Hs Hf Hmin Hb Et Es Ef. constructor; [done| |].
  - unfold satisfied. simpl. rewrite Es, Hs. right. rewrite Ef. split; [done|].
    exists ph. split; [|done]. apply list_lookup_insert_eq. destruct Hb as (-> & _). done.
  - eapply same_slots_trans; [exact Hb|apply same_slots_phases].
Qed.

Lemma idle_spent i io eo b : slot_type b !! i = Some Import -> spent io -> idle_slot i io eo b b.
Proof. intros Hs Hsp. constructor; [done| |apply same_slots_refl]. unfold satisfied. rewrite Hs. by left. Qed.

Lemma import_ampere_idle i o eo act b cs a :
  (i < length (num_phases b))%nat -> (i < length (first_trade b))%nat -> slot_type b !! i = Some Import ->
  ac_max_current_A (limits_to_root o) = Some a ->
  traded (import_ampere g config V utc_now i o act b cs).1 = false ->
  idle_slot i (limits_to_root o) eo b (import_ampere g config V utc_now i o act b cs).1.
Proof.
  intros Hi Hf Hs Ea. unfold import_ampere.
  destruct (lookup_lt_is_Some_2 (first_trade b) i Hf) as [first Ef]. rewrite Ef. simpl.
  destruct (if first then decide_phases _ _ _ _ _ _ _ else _) as [[ph reached] cs'].
  destruct (if first then positive_value _ else None) as [m|] eqn:Em.
  - destruct first; [|done]. set (b1 := update num_phases <[i := ph]> b).
    pose proof (buy_ampere_traded V o i m false true ph b1) as Ht.
    destruct (buy_ampere V o i m false true ph b1) as [[] b2] eqn:Eb; simpl in *; [congruence|].
    destruct (buy_minimum_fails _ _ _ _ _ _ _ _ _ Em Ea Eb) as [Hmin ->].
    destruct (_ && _); simpl; [|by intros _; apply idle_minimum].
    set (one := Int 1 "BrokerFastCharging_Buy3phFailed").
    pose proof (buy_ampere_traded V o i m false true one (update num_phases <[i := one]> b1)) as Ht2.
    destruct (buy_ampere V o i m false true one _) as [[] b3] eqn:Eb2; simpl in *; [congruence|].
    destruct (buy_minimum_fails _ _ _ _ _ _ _ _ _ Em Ea Eb2) as [Hmin2 ->].
    intros _. apply idle_minimum; try done. apply same_slots_phases.
  - simpl. set (ph' := default _ _).
    pose proof (buy_ampere_traded V o i (slice_ampere g) true true ph' b) as Ht.
    destruct (buy_ampere V o i (slice_ampere g) true true ph' b) as [[] b2] eqn:Eb; simpl in *; [congruence|].
    destruct (buy_ampere_fails _ _ _ _ _ _ _ _ _ Ea Eb) as [Hsp ->]. intros _. by apply idle_spent.
Qed.

Lemma import_slot_idle i o eo act b cs :
  (i < length (num_phases b))%nat -> (i < length (first_trade b))%nat -> slot_type b !! i = Some Import ->
  traded (import_slot g config V utc_now i o act b cs).1 = false ->
  idle_slot i (limits_to_root o) eo b (import_slot g config V utc_now i o act b cs).1.
Proof.
  intros Hi Hf Hs. unfold import_slot.
  destruct (ac_max_current_A (limits_to_root o)) as [a|] eqn:Ea; [by eapply import_ampere_idle|].
  destruct (total_power_W (limits_to_root o)) as [w|] eqn:Ew; simpl.
  - pose proof (buy_watt_traded o i (slice_watt g) true true b) as Ht.
    destruct (buy_watt o i (slice_watt g) true true b) as [[] b2] eqn:Eb; simpl in *; [congruence|].
    destruct (buy_watt_fails _ _ _ _ _ _ _ Ew Eb) as [Hsp ->]. intros _. by apply idle_spent.
  - intros _. apply idle_spent; [done|]. right. by right.
Qed.

Lemma idle_export i io eo b :
  slot_type b !! i = Some Export ->
  spent eo \/ (first_trade b !! i = Some true /\ below_minimum V eo export_phases) -> idle_slot i io eo b b.
Proof. intros Hs Hsp. constructor; [done| |apply same_slots_refl]. unfold satisfied. by rewrite Hs. Qed.

Lemma export_slot_idle i o io b :
  (i < length (first_trade b))%nat -> slot_type b !! i = Some Export ->
  traded (export_slot g V i o b) = false ->
  idle_slot i io (limits_to_root o) b (export_slot g V i o b).
Proof.
  intros Hf Hs. unfold export_slot.
  destruct (lookup_lt_is_Some_2 (first_trade b) i Hf) as [first Ef]. rewrite Ef. simpl.
  destruct (ac_max_current_A (limits_to_root o)) as [a|] eqn:Ea.
  - destruct (if first then _ else None) as [m|] eqn:Em.
    + destruct first; [|done].
      pose proof (buy_ampere_traded V o i m false false export_phases b) as Ht.
      destruct (buy_ampere V o i m false false export_phases b) as [[] b2] eqn:Eb; simpl in *; [congruence|].
      destruct (buy_minimum_fails _ _ _ _ _ _ _ _ _ Em Ea Eb) as [Hmin ->].
      intros _. apply idle_export; [done|]. by right.
    + pose proof (buy_ampere_traded V o i (slice_ampere g) true false export_phases b) as Ht.
      destruct (buy_ampere V o i (slice_ampere g) true false export_phases b) as [[] b2] eqn:Eb;
        simpl in *; [congruence|].
      destruct (buy_ampere_fails _ _ _ _ _ _ _ _ _ Ea Eb) as [Hsp ->].
      intros _. apply idle_export; [done|]. by left.
  - destruct (total_power_W (limits_to_root o)) as [w|] eqn:Ew.
    + pose proof (buy_watt_traded o i (slice_watt g) true false b) as Ht.
      destruct (buy_watt o i (slice_watt g) true false b) as [[] b2] eqn:Eb; simpl in *; [congruence|].
      destruct (buy_watt_fails _ _ _ _ _ _ _ Ew Eb) as [Hsp ->].
      intros _. apply idle_export; [done|]. by left.
    + intros _. apply idle_export; [done|]. left. right. by right.
Qed.

(** *** Sizes, and the flag *)

Definition broker_sized (n : nat) (b : Broker) : Prop :=
  length (num_phases b) = n /\ length (slot_type b) = n /\ length (first_trade b) = n.

(** [b'] comes after [b] in a trade: the sizes and the place are the same, and
    a purchase is not forgotten. *)
Record follows (b b' : Broker) : Prop := {
  follows_sized n : broker_sized n b -> broker_sized n b';
  follows_traded : traded b = true -> traded b' = true;
  follows_place : same_place b b'
}.

#[global] Instance follows_preorder : PreOrder follows.
Proof.
  split; [by intros b; constructor|]. intros b b' b'' [? ? [? ?]] [? ? [? ?]].
  constructor; [auto..|]. split; congruence.
Qed.

Lemma buy_ampere_follows o i a less imp ph b : follows b (buy_ampere V o i a less imp ph b).2.
Proof.
  unfold buy_ampere. repeat case_match; simpl; (constructor; [|done|done]); intros ?;
    unfold broker_sized; simpl; by rewrite ?length_insert.
Qed.

Lemma buy_watt_follows o i x less imp b : follows b (buy_watt o i x less imp b).2.
Proof. unfold buy_watt. repeat case_match; by constructor. Qed.

Lemma set_phases_follows i ph b : follows b (update num_phases <[i := ph]> b).
Proof. constructor; [|done|done]. unfold broker_sized. intros n. simpl. by rewrite length_insert. Qed.

Lemma trade_slot_follows offer i b cs : follows b (trade_slot g config V utc_now offer i (b, cs)).1.
Proof.
  unfold trade_slot. destruct (import_offer offer !! i) as [io|]; [|done].
  destruct (export_offer offer !! i) as [eo|]; [|done].
  set (b1 := update num_phases _ _).
  transitivity b1.
  { constructor; [|done|done]. unfold broker_sized. intros n. simpl. by rewrite !length_alter. }
  destruct (slot_type b1 !! i) as [[]|]; [| |done..].
  - unfold import_slot, import_ampere.
    destruct (ac_max_current_A _); [|destruct (total_power_W _); [apply buy_watt_follows|done]].
    destruct (if default false _ then decide_phases _ _ _ _ _ _ _ else _) as [[ph reached] cs'].
    destruct (if default false _ then positive_value _ else None) as [m|]; [|apply buy_ampere_follows].
    pose proof (buy_ampere_follows io i m false true ph (update num_phases <[i := ph]> b1)) as Hb.
    destruct (buy_ampere V io i m false true ph _) as [bought b2]. simpl in Hb.
    destruct (_ && _); simpl.
    + etrans; [apply set_phases_follows|]. etrans; [exact Hb|].
      etrans; [apply set_phases_follows|apply buy_ampere_follows].
    + etrans; [apply set_phases_follows|exact Hb].
  - unfold export_slot. repeat case_match; simpl;
      apply buy_ampere_follows || apply buy_watt_follows || done.
Qed.

Lemma trade_slots_follow offer l st : follows st.1 (foldl (fun st i => trade_slot g config V utc_now offer i st) st l).1.
Proof.
  revert st. induction l as [|i l IH]; intros [b cs]; [done|]. cbn [foldl].
  etrans; [apply trade_slot_follows|apply IH].
Qed.

(** *** A slot, and a trade, without a purchase *)

Lemma trade_slot_idle offer i b cs n io eo :
  broker_sized n b -> (i < n)%nat ->
  import_offer offer !! i = Some io -> export_offer offer !! i = Some eo ->
  traded (trade_slot g config V utc_now offer i (b, cs)).1 = false ->
  idle_slot i (limits_to_root io) (limits_to_root eo) b (trade_slot g config V utc_now offer i (b, cs)).1.
Proof.
  intros (Hn & Hs & Hf) Hi Eio Eeo. unfold trade_slot. rewrite Eio, Eeo.
  set (b1 := update num_phases _ _).
  assert (same_slots_but i b b1) as Hb1.
  { split_and!; simpl; [apply length_alter|apply length_alter|done|].
    intros j Hj. by rewrite !list_lookup_alter_ne. }
  assert (forall b', idle_slot i (limits_to_root io) (limits_to_root eo) b1 b' ->
            idle_slot i (limits_to_root io) (limits_to_root eo) b b') as Hafter.
  { intros b' [? ? ?]. constructor; [done|done|by eapply same_slots_trans]. }
  destruct (slot_type b1 !! i) as [[]|] eqn:Es.
  - intros Ht. apply Hafter, import_slot_idle; try done; simpl; rewrite ?length_alter; lia.
  - intros Ht. apply Hafter, export_slot_idle; try done; simpl; lia.
  - intros _. apply Hafter. constructor; [done| |apply same_slots_refl].
    unfold satisfied. cbn [fst]. rewrite Es. simpl in Es. rewrite list_lookup_alter_eq in Es.
    destruct (slot_type b !! i) as [ty|]; [|done]. simpl in Es. injection Es as Es.
    unfold decide_slot_type in Es. repeat case_match; simplify_eq. done.
  - simpl in Es. rewrite list_lookup_alter_eq in Es.
    destruct (lookup_lt_is_Some_2 (slot_type b) i) as [ty Hty]; [lia|]. by rewrite Hty in Es.
Qed.

Lemma satisfied_same i j b b' io eo :
  same_slots_but i b b' -> j <> i -> satisfied V b j io eo -> satisfied V b' j io eo.
Proof. intros (_ & _ & _ & E) Hj. unfold satisfied. destruct (E j Hj) as (-> & -> & ->). done. Qed.

Lemma trade_slots_idle offer l b cs n :
  broker_sized n b -> NoDup l -> (forall i, i ∈ l -> (i < n)%nat) ->
  length (import_offer offer) = n -> length (export_offer offer) = n ->
  let b' := (foldl (fun st i => trade_slot g config V utc_now offer i st) (b, cs) l).1 in
  traded b' = false ->
  trading b' = trading b /\
  (forall j io eo, j ∉ l -> satisfied V b j io eo -> satisfied V b' j io eo) /\
  forall i io eo, i ∈ l -> import_offer offer !! i = Some io -> export_offer offer !! i = Some eo ->
    satisfied V b' i (limits_to_root io) (limits_to_root eo).
Proof.
  intros Hb Hnd Hl Li Le. revert b cs Hb Hl.
  induction Hnd as [|i l Hi Hnd IH]; intros b cs Hb Hl b' Htr; cbn [foldl] in b'.
  { split_and!; [done|done|]. intros ? ? ? Hin. by apply not_elem_of_nil in Hin. }
  subst b'. destruct (trade_slot g config V utc_now offer i (b, cs)) as [b1 cs1] eqn:E1.
  pose proof (trade_slot_follows offer i b cs) as [Hsz _ _]. rewrite E1 in Hsz. simpl in Hsz.
  pose proof (trade_slots_follow offer l (b1, cs1)) as [_ Hflag _]. simpl in Hflag.
  assert (i < n)%nat as Hin by (apply Hl; left).
  destruct (lookup_lt_is_Some_2 (import_offer offer) i) as [io0 Eio]; [lia|].
  destruct (lookup_lt_is_Some_2 (export_offer offer) i) as [eo0 Eeo]; [lia|].
  assert (traded b1 = false) as Hb1.
  { destruct (traded b1); [|done]. by rewrite Hflag in Htr. }
  destruct (trade_slot_idle offer i b cs n io0 eo0) as [T1 S1 O1]; try done; rewrite E1 in *; [done|].
  simpl in *.
  destruct (IH b1 cs1 (Hsz n Hb)) as (T2 & S2 & S2'); [by intros j Hj; apply Hl; right|done|].
  split_and!; [congruence| |].
  - intros j io eo [Hji Hj]%not_elem_of_cons Hs. apply S2; [done|]. by eapply satisfied_same.
  - intros j io eo [->|Hj]%elem_of_cons Ej Ej'; [|by apply S2'].
    rewrite Eio in Ej. rewrite Eeo in Ej'. simplify_eq. by apply S2.
Qed.
End Slot.

(** ** Offers depend on amounts only *)

(** Limits with the same numbers, whatever their sources. *)
Definition num_equiv (a b : option NumberWithSource) : Prop :=
  option_Forall2 (fun x y => value x == value y)%Q a b.
Definition limits_equiv (l l' : LimitsReq) : Prop :=
  (forall q, num_equiv (limit_of q l) (limit_of q l')) /\ ac_min_current_A l = ac_min_current_A l'.
Definition slots_equiv (s s' : ScheduleReq) : Prop :=
  Forall2 (fun e e' => limits_equiv (limits_to_root e) (limits_to_root e')) s s'.

#[global] Instance num_equiv_equivalence : Equivalence num_equiv.
Proof.
  split.
  - intros [x|]; by constructor.
  - intros ? ? [x y E|]; constructor. by symmetry.
  - intros a b c Hab Hbc. inversion Hab; inversion Hbc; simplify_eq; constructor. by etrans.
Qed.
#[global] Instance limits_equiv_equivalence : Equivalence limits_equiv.
Proof.
  split.
  - done.
  - intros ? ? [E1 E2]. split; [|done]. intros q. symmetry. apply E1.
  - intros ? ? ? [E1 E2] [F1 F2]. split; [|congruence]. intros q. etrans; [apply E1|apply F1].
Qed.
#[global] Instance slots_equiv_equivalence : Equivalence slots_equiv.
Proof.
  split.
  - intros s. apply Forall_Forall2_diag, Forall_true. done.
  - intros ? ? E. eapply Forall2_flip, Forall2_impl; [exact E|]. cbn beta. intros e e' Hee.
    by symmetry in Hee.
  - intros s s' s'' E. revert s''. induction E as [|e e' l l' He _ IH]; intros s'' F; inversion F; subst;
      constructor; [by transitivity (limits_to_root e')|by apply IH].
Qed.

#[global] Instance smaller_proper : Proper (num_equiv ==> num_equiv ==> num_equiv) apply_one_limit_if_smaller.
Proof.
  intros a a' Ha b b' Hb. inversion Ha; inversion Hb; subst; simpl; try by constructor.
  qcase; constructor; simpl in *; lra.
Qed.

Lemma apply_limits_equiv a a' b b' :
  slots_equiv a a' -> slots_equiv b b' -> slots_equiv (apply_limits a b) (apply_limits a' b').
Proof.
  intros Ha Hb. pose proof (Forall2_length _ _ _ Ha). pose proof (Forall2_length _ _ _ Hb).
  unfold apply_limits. case_decide; (case_decide; [try lia|try lia]); [done|].
  eapply Forall2_lookup. intros i. rewrite !lookup_zip_with.
  apply (Forall2_lookup _ _ _) with (i := i) in Ha. apply (Forall2_lookup _ _ _) with (i := i) in Hb.
  inversion Ha as [x x' [Ex Ex']|]; simpl; [|constructor].
  inversion Hb as [y y' [Ey Ey']|]; simpl; [|constructor]. constructor. split; simpl.
  - intros q. specialize (Ex q). specialize (Ey q). destruct q; simpl in *; by apply smaller_proper.
  - by rewrite Ex', Ey'.
Qed.

(** Markets that differ at most in the sources of what was sold. *)
Definition same_amounts (ms ms' : markets) : Prop :=
  same_nodes ms ms' /\
  forall p m m' q i, ms !! p = Some m -> ms' !! p = Some m' ->
    (slot_amount q (sold_root m') i == slot_amount q (sold_root m) i)%Q.

#[global] Instance same_amounts_preorder : PreOrder same_amounts.
Proof.
  split.
  - intros ms. split; [done|]. intros. by simplify_eq.
  - intros ms ms' ms'' [N1 A1] [N2 A2]. split; [by etrans|].
    intros p m m'' q i Hm Hm''. specialize (N1 p). rewrite Hm in N1.
    destruct (ms' !! p) as [m'|] eqn:Hm'; [|done]. rewrite (A2 p m' m''), (A1 p m m'); done.
Qed.

Lemma available_min_current m imp i e :
  available imp m !! i = Some e ->
  exists x, max_available imp m !! i = Some x /\
    ac_min_current_A (limits_to_root e) = ac_min_current_A (limits_to_root x).
Proof.
  destruct imp; unfold available, get_available_energy_import, get_available_energy_export,
    get_available_energy; rewrite lookup_zip_with; simpl;
    [destruct (import_max_available m !! i) as [x|]|destruct (export_max_available m !! i) as [x|]];
    simpl; try done; destruct (sold_root m !! i); simpl; intros; simplify_eq; eauto.
Qed.

Lemma available_equiv n m m' imp :
  sized n m -> sized n m' -> shape m' = shape m ->
  (forall q i, slot_amount q (sold_root m') i == slot_amount q (sold_root m) i)%Q ->
  slots_equiv (available imp m) (available imp m').
Proof.
  intros Hs Hs' Hsh Ha. apply Forall2_lookup. intros i.
  assert (max_available imp m' = max_available imp m) as Emax.
  { unfold shape in Hsh. injection Hsh as ? ? ? ? ?. by destruct imp. }
  pose proof (length_node n m imp Hs). pose proof (length_node n m' imp Hs').
  destruct (available imp m !! i) as [e|] eqn:Ee.
  2: { rewrite lookup_ge_None_2; [constructor|]. apply lookup_ge_None in Ee. lia. }
  destruct (available imp m' !! i) as [e'|] eqn:Ee'.
  2: { apply lookup_ge_None in Ee'. apply lookup_lt_Some in Ee. lia. }
  constructor. split.
  - intros q.
    pose proof (slot_limit_node q n m imp i Hs) as E. pose proof (slot_limit_node q n m' imp i Hs') as E'.
    unfold slot_limit in E, E'. rewrite Ee in E. rewrite Ee' in E'. simpl in E, E'. rewrite E, E', Emax.
    destruct (max_available imp m !! i ≫= _) as [x|]; simpl; constructor. simpl. by rewrite (Ha q i).
  - apply available_min_current in Ee as (x & Hx & ->). apply available_min_current in Ee' as (x' & Hx' & ->).
    rewrite Emax in Hx'. by simplify_eq.
Qed.

Section OfferEquiv.
Context (g : globals_t) (ms ms' : markets) (n : nat).
Hypothesis sized_ms : map_Forall (fun _ m => sized n m) ms.
Hypothesis sized_ms' : map_Forall (fun _ m => sized n m) ms'.
Hypothesis amounts : same_amounts ms ms'.

Lemma offers_equiv p imp :
  slots_equiv (offered imp (create_offer_for_local_market g ms p))
    (offered imp (create_offer_for_local_market g ms' p)).
Proof.
  destruct amounts as [Hn Ha]. induction p as [|k p IH].
  - rewrite (offer_step g ms []), (offer_step g ms' []). simpl. specialize (Hn []). destruct (ms !! []) as [m|] eqn:Em, (ms' !! []) as [m'|] eqn:Em'; try done.
    simpl in Hn. apply (inj Some) in Hn.
    pose proof (available_equiv n m m' imp (sized_ms _ _ Em) (sized_ms' _ _ Em') Hn
      (fun q i => Ha _ _ _ q i Em Em')) as Hav.
    destruct imp; simpl; by apply apply_limits_equiv.
  - rewrite (offer_step g ms (k :: p)), (offer_step g ms' (k :: p)). cbn zeta beta iota.
    specialize (Hn (k :: p)). destruct (ms !! (k :: p)) as [m|] eqn:Em, (ms' !! (k :: p)) as [m'|] eqn:Em'; try done.
    simpl in Hn. apply (inj Some) in Hn.
    pose proof (available_equiv n m m' imp (sized_ms _ _ Em) (sized_ms' _ _ Em') Hn
      (fun q i => Ha _ _ _ q i Em Em')) as Hav.
    destruct imp; (apply apply_limits_equiv; [exact IH|exact Hav]).
Qed.
End OfferEquiv.

(** Whether a broker is satisfied depends on the numbers of the offer. *)
Lemma used_up_equiv a b : num_equiv a b -> used_up a -> used_up b.
Proof. intros E (x & -> & Hx). inversion E; subst. eexists; split; [done|]. lra. Qed.

Lemma spent_equiv l l' : limits_equiv l l' -> spent l -> spent l'.
Proof.
  intros [E _]. pose proof (E Power) as Ep. pose proof (E Current) as Ec. simpl in *.
  intros [H|[H|[H1 H2]]].
  - left. by eapply used_up_equiv.
  - right. left. by eapply used_up_equiv.
  - right. right. rewrite H1 in Ec. rewrite H2 in Ep. by inversion Ec; inversion Ep.
Qed.

Lemma below_minimum_equiv V l l' ph : limits_equiv l l' -> below_minimum V l ph -> below_minimum V l' ph.
Proof.
  intros [E Em] (m & Hm & Hlow). exists m. rewrite <- Em. split; [done|].
  pose proof (E Power) as Ep. pose proof (E Current) as Ec. simpl in *.
  destruct Hlow as [(a & Ha & Hlt)|(w & Hw & Hlt)].
  - left. rewrite Ha in Ec. inversion Ec; subst. eexists; split; [done|]. lra.
  - right. rewrite Hw in Ep. inversion Ep; subst. eexists; split; [done|]. lra.
Qed.

Lemma can_trade_equiv l l' : limits_equiv l l' -> can_trade l = can_trade l'.
Proof.
  intros [E _]. pose proof (E Power) as Ep. pose proof (E Current) as Ec. simpl in *.
  unfold can_trade. f_equal.
  assert (forall a b, num_equiv a b -> is_zero a = is_zero b) as Hz.
  { intros a b [x y Exy|]; simpl; [|done]. qcase; try done; exfalso; lra. }
  by rewrite (Hz _ _ Ep), (Hz _ _ Ec).
Qed.

Lemma satisfied_equiv V b i io io' eo eo' :
  limits_equiv io io' -> limits_equiv eo eo' -> satisfied V b i io eo -> satisfied V b i io' eo'.
Proof.
  intros Hi He. unfold satisfied. destruct (slot_type b !! i) as [[]|].
  - intros [H|(Hf & ph & Hph & Hm)]; [left; by eapply spent_equiv|right].
    split; [done|]. exists ph. split; [done|]. by eapply below_minimum_equiv.
  - intros [H|(Hf & Hm)]; [left; by eapply spent_equiv|right]. split; [done|]. by eapply below_minimum_equiv.
  - by rewrite (can_trade_equiv _ _ Hi), (can_trade_equiv _ _ He).
  - by rewrite (can_trade_equiv _ _ Hi), (can_trade_equiv _ _ He).
Qed.

(** ** Rounds without a trade *)

Section IdleRounds.
Context `{Dates} (config : EnergyManagerConfig) (utc_now : nat -> Z) (g : globals_t).
Abbreviation n := (schedule_length g).
Hypothesis req_sized : length (empty_schedule_req g) = n.
Hypothesis res_sized : length (empty_schedule_res g) = n.

(** A broker that can trade: its context and its market exist. *)
Definition broker_ready (cs : contexts_t * nat) (ms : markets) (b : Broker) : Prop :=
  is_Some (cs.1 !! context b) /\ is_Some (ms !! local_market b) /\ broker_sized n b.

(** In every slot the broker cannot use what is left for it. *)
Definition broker_satisfied (ms : markets) (b : Broker) : Prop :=
  forall m, ms !! local_market b = Some m ->
  let offer := create_offer_for_local_market g ms (local_market b) in
  forall i io eo, import_offer offer !! i = Some io -> export_offer offer !! i = Some eo ->
    satisfied (nominal_ac_voltage m) b i (limits_to_root io) (limits_to_root eo).

Lemma broker_satisfied_same ms ms' b :
  map_Forall (fun _ m => sized n m) ms -> map_Forall (fun _ m => sized n m) ms' ->
  same_amounts ms ms' -> broker_satisfied ms b -> broker_satisfied ms' b.
Proof.
  intros Hs Hs' Hsame Hb m' Hm' offer i io eo Hio Heo.
  pose proof Hsame as [Hn _]. specialize (Hn (local_market b)). rewrite Hm' in Hn.
  destruct (ms !! local_market b) as [m|] eqn:Hm; [|done]. simpl in Hn. apply (inj Some) in Hn.
  assert (nominal_ac_voltage m' = nominal_ac_voltage m) as -> by (by unfold shape in Hn; injection Hn).
  pose proof (offers_equiv g ms ms' n Hs Hs' Hsame (local_market b) true) as Ei.
  pose proof (offers_equiv g ms ms' n Hs Hs' Hsame (local_market b) false) as Ee.
  destruct (Forall2_lookup_r _ _ _ _ _ Ei Hio) as (io0 & Hio0 & Ei0).
  destruct (Forall2_lookup_r _ _ _ _ _ Ee Heo) as (eo0 & Heo0 & Ee0).
  eapply satisfied_equiv; [exact Ei0|exact Ee0|]. by eapply Hb.
Qed.

(** The trade of a broker: it stays ready, and when it buys nothing, no amount
    changes and it is satisfied. *)
Lemma trade_one_idle b cs ms :
  map_Forall (fun _ m => sized n m) ms -> broker_ready cs ms b ->
  let '(h, b', cs', ms') := trade_one config utc_now g b cs ms in
  broker_ready cs' ms' b' /\ same_nodes ms ms' /\ map_Forall (fun _ m => sized n m) ms' /\
  same_place b b' /\ (forall u, is_Some (cs.1 !! u) -> is_Some (cs'.1 !! u)) /\
  (h = false -> same_amounts ms ms' /\ broker_satisfied ms b').
Proof.
  intros Hs ([c Hc] & [m Hm] & Hb). unfold trade_one. rewrite Hc, Hm.
  set (offer := create_offer_for_local_market g ms (local_market b)).
  pose proof (length_offered g ms n req_sized (local_market b) true) as Li.
  pose proof (length_offered g ms n req_sized (local_market b) false) as Le.
  change (length (import_offer offer) = n) in Li. change (length (export_offer offer) = n) in Le.
  unfold broker_trade. rewrite decide_False by lia.
  set (b0 := assign traded false _). unfold tradeImpl.
  assert (broker_sized n b0) as Hb0 by done.
  pose proof (trade_slots_follow g (to_broker_fast_charging_config config) (nominal_ac_voltage m) utc_now
    offer (seq 0 n) (b0, (c, cs.2))) as [Hsz _ [P1 P2]].
  pose proof (trade_slots_idle g (to_broker_fast_charging_config config) (nominal_ac_voltage m) utc_now
    offer (seq 0 n) b0 (c, cs.2) n Hb0 (NoDup_seq 0 n)
    ltac:(intros i [_ ?]%elem_of_seq; lia) Li Le) as Hidle.
  destruct (foldl _ (b0, (c, cs.2)) (seq 0 n)) as [b' [c' k']]. simpl in *.
  assert (same_nodes ms (market_trade (local_market b') (trading b') ms)) as Hn by apply market_trade_same_nodes.
  split_and!.
  - split_and!; simpl; [by rewrite lookup_insert_eq| |by apply Hsz].
    specialize (Hn (local_market b')). rewrite P1, Hm in Hn. rewrite P1.
    destruct (market_trade _ _ _ !! _) as [?|]; [by eexists|done].
  - done.
  - intros r mr. rewrite market_trade_lookup. case_decide; [|apply Hs].
    destruct (ms !! r) as [m0|] eqn:Er; simpl; intros ?; simplify_eq.
    destruct (Hs _ _ Er) as (? & ? & ?). split_and!; simpl; rewrite ?length_schedule_add; done.
  - done.
  - intros u Hu. destruct (decide (u = context b')) as [->|Hne];
      [by rewrite lookup_insert_eq|by rewrite lookup_insert_ne].
  - intros Hf. destruct (Hidle Hf) as (Ht & _ & Hsat). split; [split; [done|]|].
    + intros r m0 m1 q i Hm0. rewrite market_trade_lookup, Hm0. case_decide; simpl; intros ?; simplify_eq; [|done].
      simpl. destruct (Hs _ _ Hm0) as (_ & _ & Hlen). rewrite slot_amount_add.
      * assert (slot_amount q (trading b') i == 0)%Q as Hz; [|lra].
        unfold slot_amount. rewrite Ht, lookup_zip_with.
        destruct (import_offer offer !! i); simpl; [|done].
        destruct (empty_schedule_res g !! i); simpl; [|done]. apply zero_trade_entry.
      * rewrite Ht, length_zip_with. lia.
    + intros m1 Hm1. rewrite P1 in Hm1. simplify_eq. rewrite P1. fold offer.
      intros offer' i io eo Hio Heo. apply Hsat; [|done|done].
      apply elem_of_seq. apply lookup_lt_Some in Hio. change offer' with offer in Hio. lia.
Qed.

Lemma broker_ready_same cs ms cs' ms' b :
  same_nodes ms ms' -> (forall u, is_Some (cs.1 !! u) -> is_Some (cs'.1 !! u)) ->
  broker_ready cs ms b -> broker_ready cs' ms' b.
Proof.
  intros Hn Hu (Hc & [m Hm] & Hb). split_and!; [by apply Hu| |done].
  specialize (Hn (local_market b)). rewrite Hm in Hn. destruct (ms' !! local_market b); [by eexists|done].
Qed.

Lemma trading_round_idle bs cs ms :
  map_Forall (fun _ m => sized n m) ms -> Forall (broker_ready cs ms) bs ->
  let '(h, bs', cs', ms') := trading_round config utc_now g bs cs ms in
  Forall (broker_ready cs' ms') bs' /\ same_nodes ms ms' /\ map_Forall (fun _ m => sized n m) ms' /\
  (forall u, is_Some (cs.1 !! u) -> is_Some (cs'.1 !! u)) /\ same_places bs bs' /\
  (h = false -> same_amounts ms ms' /\ Forall (broker_satisfied ms') bs').
Proof.
  revert cs ms. induction bs as [|b bs IH]; intros cs ms Hs Hbs; simpl.
  { split_and!; [constructor|done..|]. intros _. split; [done|constructor]. }
  apply Forall_cons in Hbs as [Hb Hbs].
  pose proof (trade_one_idle b cs ms Hs Hb) as H1.
  destruct (trade_one _ _ _ _ _ _) as [[[h b'] cs1] ms1]. destruct H1 as (R1 & N1 & S1 & [P1 _] & U1 & I1).
  specialize (IH cs1 ms1 S1).
  assert (Forall (broker_ready cs1 ms1) bs) as Hbs1.
  { eapply Forall_impl; [exact Hbs|]. intros. by eapply broker_ready_same. }
  specialize (IH Hbs1).
  destruct (trading_round _ _ _ _ _ _) as [[[h' bs'] cs2] ms2]. destruct IH as (R2 & N2 & S2 & U2 & P2 & I2).
  split_and!; [|by etrans|done|by auto| |].
  - constructor; [|done]. by eapply broker_ready_same.
  - unfold same_places in *. rewrite !fmap_cons. congruence.
  - intros [Hh Hh']%orb_false_iff. destruct (I1 Hh) as [A1 B1], (I2 Hh') as [A2 B2].
    split; [by etrans|]. constructor; [|done].
    eapply broker_satisfied_same; [exact Hs|exact S2| |exact B1]. by etrans.
Qed.

(** Whether the loop ends before its limit of rounds. *)
Fixpoint trading_ends (k : nat) (bs : list Broker) (cs : contexts_t * nat) (ms : markets) : bool :=
  match k with
  | O => false
  | S k =>
      let '(happened, bs, cs, ms) := trading_round config utc_now g bs cs ms in
      if happened then trading_ends k bs cs ms else true
  end.

Lemma trading_rounds_satisfied k bs cs ms :
  map_Forall (fun _ m => sized n m) ms -> Forall (broker_ready cs ms) bs ->
  let '(bs', cs', ms') := trading_rounds config utc_now g k bs cs ms in
  same_places bs bs' /\ (trading_ends k bs cs ms = true -> Forall (broker_satisfied ms') bs').
Proof.
  revert bs cs ms. induction k as [|k IH]; intros bs cs ms Hs Hbs; simpl; [done|].
  pose proof (trading_round_idle bs cs ms Hs Hbs) as H1.
  destruct (trading_round _ _ _ _ _ _) as [[[h bs1] cs1] ms1]. destruct H1 as (R1 & N1 & S1 & _ & P1 & I1).
  destruct h; [|by split; [|intros _; apply I1]]. specialize (IH bs1 cs1 ms1 S1 R1).
  destruct (trading_rounds _ _ _ _ _ _ _) as [[bs2 cs2] ms2]. destruct IH as [P2 I2].
  split; [|done]. unfold same_places in *. congruence.
Qed.
End IdleRounds.

(** ** The start of a run *)

Section ReadyBrokers.
Context `{Dates} (config : EnergyManagerConfig) (utc_now : nat -> Z) (g : globals_t).

(** A context that exists is never removed. *)
Definition contexts_grow (cs cs' : contexts_t * nat) : Prop :=
  forall u, is_Some (cs.1 !! u) -> is_Some (cs'.1 !! u).

Lemma context_at_spec u cs :
  contexts_grow cs (context_at utc_now u cs) /\ is_Some ((context_at utc_now u cs).1 !! u).
Proof.
  unfold context_at. destruct (cs.1 !! u) as [c|] eqn:E; [rewrite E; split; [by intros ?|by eexists]|].
  split; [|simpl; by rewrite lookup_insert_eq].
  intros v Hv. simpl. destruct (decide (v = u)) as [->|Hne];
    [by rewrite lookup_insert_eq|by rewrite lookup_insert_ne].
Qed.

Lemma prepare_context_spec r cs :
  contexts_grow cs (prepare_context config utc_now g r cs) /\
  is_Some ((prepare_context config utc_now g r cs).1 !! uuid r).
Proof.
  unfold prepare_context. destruct (needs_clear r); [|apply context_at_spec].
  pose proof (context_at_spec (uuid r) cs) as [Hg _].
  destruct (context_at utc_now (uuid r) cs) as [ctx k]. simpl in Hg.
  match goal with |- context [context_at utc_now (uuid r) ?cs'] =>
    pose proof (context_at_spec (uuid r) cs') as [Hg' Hs]; split; [|done] end.
  intros u Hu. apply Hg'. simpl. destruct (decide (u = uuid r)) as [->|Hne];
    [by rewrite lookup_insert_eq|rewrite lookup_insert_ne by done; by apply Hg].
Qed.

Lemma create_brokers_ready ms evses cs :
  let '(bs, cs') := create_brokers config utc_now g ms evses cs in
  Forall (broker_ready g cs' ms) bs.
Proof.
  assert (forall l acc, Forall (broker_ready g acc.2 ms) acc.1 ->
    let r := foldl (fun acc m => create_broker config utc_now g ms m acc) acc l in
    Forall (broker_ready g r.2 ms) r.1) as Hgo.
  { induction l as [|e l IH]; intros acc Hacc; simpl; [done|]. apply IH.
    unfold create_broker. destruct (ms !! e) as [m|] eqn:Em; [|done]. simpl.
    destruct (prepare_context_spec (energy_flow_request m) acc.2) as [Hg Hs].
    apply Forall_app. split.
    - eapply Forall_impl; [exact Hacc|]. intros b Hb. eapply broker_ready_same; [|exact Hg|exact Hb]. done.
    - constructor; [|constructor]. split_and!; [exact Hs|by eexists|].
      unfold broker_sized. simpl. by rewrite !length_replicate. }
  unfold create_brokers. specialize (Hgo evses ([], cs) ltac:(constructor)).
  by destruct (foldl _ _ _).
Qed.
End ReadyBrokers.
