(* ===== verification/EnergyTests.v ===== *)
(** * The repository's tests of the energy manager

    Dates as strings of binary digits, which satisfy the laws of [Dates]; the
    requests of [EnergyManager/tests/json_tests], the configurations and the
    results the tests expect, and that [run_optimizer] returns them: the limits,
    their sources, the time stamps of the schedules.  Numbers may differ by the
    rounding of single precision.  At the end, runs with outcomes one may not
    expect. *)
From S2P Require Import Prelude Effects EnergyTypes EnergyMarket EnergyBroker EnergyManager.
From S2P Require Import EnergyNode.
From stdpp Require Import base tactics list numbers strings gmap.
From Stdlib Require Import QArith Ascii.
Open Scope Z_scope.

(** ** Dates *)

Fixpoint digits (p : positive) : string :=
  match p with
  | xH => "1"
  | xO p => String "0"%char (digits p)
  | xI p => String "1"%char (digits p)
  end.

Fixpoint undigits (s : string) : positive :=
  match s with
  | EmptyString => xH
  | String c EmptyString => xH
  | String c s => if Ascii.eqb c "0"%char then xO (undigits s) else xI (undigits s)
  end.

Definition stamp (t : Z) : string :=
  match t with
  | Z0 => "0"
  | Zpos p => String "+"%char (digits p)
  | Zneg p => String "-"%char (digits p)
  end.

Definition unstamp (s : string) : Z :=
  match s with
  | String "+" s => Zpos (undigits s)
  | String "-" s => Zneg (undigits s)
  | _ => 0
  end.

(** Since 2017 the clock is 27 seconds ahead of the calendar. *)
#[export] Instance example_dates : Dates := {
  from_rfc3339 := unstamp;
  to_rfc3339 := stamp;
  leap_seconds_elapsed _ := seconds 27
}.

Lemma undigits_digits p : undigits (digits p) = p.
Proof.
  induction p as [p IH|p IH|]; simpl; [| |done].
  - rewrite IH. by destruct p.
  - rewrite IH. by destruct p.
Qed.

#[export] Instance example_dates_laws : DatesLaws.
Proof.
  split.
  - intros t _. destruct t; simpl; [done| |]; by rewrite undigits_digits.
  - intros t. by exists 27000.
Qed.

Open Scope string_scope.
Open Scope Q_scope.
Open Scope Z_scope.

(** Milliseconds after 2024-12-17T13:00:00Z, the hour of the tests. *)
Definition test_hour : Z := seconds (1734440400 + 27).
Definition at_ms (ms : Z) : string := stamp (test_hour + ms * 1000000).

(** ** Comparing results *)

Definition same_number (a b : option NumberWithSource) : bool :=
  match a, b with
  | Some x, Some y =>
      Qle_bool (Qred (value x - value y)) (1 # 100) && Qle_bool (- (1 # 100)) (Qred (value x - value y)) &&
      String.eqb (source x) (source y)
  | None, None => true
  | _, _ => false
  end.
Definition same_integer (a b : option IntegerWithSource) : bool :=
  match a, b with
  | Some x, Some y => (ivalue x =? ivalue y) && String.eqb (isource x) (isource y)
  | None, None => true
  | _, _ => false
  end.
Definition same_limits (a b : Res.LimitsRes) : bool :=
  same_number (Res.total_power_W a) (Res.total_power_W b) &&
  same_number (Res.ac_max_current_A a) (Res.ac_max_current_A b) &&
  same_integer (Res.ac_max_phase_count a) (Res.ac_max_phase_count b).
Definition same_entry (a b : ScheduleResEntry) : bool :=
  String.eqb (r_timestamp a) (r_timestamp b) && same_limits (r_limits_to_root a) (r_limits_to_root b).
Definition same_list {A} (eq : A -> A -> bool) (l k : list A) : bool :=
  (length l =? length k)%nat && forallb id (zip_with eq l k).
Definition same_result (a b : EnforcedLimits) : bool :=
  String.eqb (e_uuid a) (e_uuid b) && (valid_for a =? valid_for b) &&
  same_limits (limits_root_side a) (limits_root_side b) && same_list same_entry (schedule a) (schedule b).

(** A test: runs of the optimizer at the given times, one after the other. *)
Fixpoint passes (config : EnergyManagerConfig) (request : EnergyFlowRequest)
    (runs : list (Z * list EnforcedLimits)) (cs : contexts_t * nat) : bool :=
  match runs with
  | [] => true
  | (t, expected) :: runs =>
      let start := test_hour + t * 1000000 in
      let '(limits, cs) := run_optimizer config (fun _ => start) request start cs in
      same_list same_result limits expected && passes config request runs cs
  end.

(** ** The tests *)

(** [1_0_two_ac_evse_load_balancing.json]. *)
Definition t1_0_config : EnergyManagerConfig :=
  mkEnergyManagerConfig 230 1 60 1 (1 # 2) 500 "Never" 10 "DontChange" 500 30.
Definition t1_0_request : EnergyFlowRequest :=
  (mkRequest "grid_connection" Generic None None None None None [(mkReqEntry (at_ms 516479)
  (mkLimitsReq None (Some (Num 32 "GridConnection_root")) None (Some (Int 3 "GridConnection_phase"))
  None None None) (mkLimitsReq None (Some (Num 32 "GridConnection_leave")) None None None None None)
  None None)] [(mkReqEntry (at_ms 516479) (mkLimitsReq None (Some (Num 16 "GridConnection_root"))
  None (Some (Int 3 "GridConnection_phase")) None None None) (mkLimitsReq None (Some (Num 16
  "GridConnection_leave")) None None None None None) None None)] [] [(mkRequest "evse1" Evse (Some
  false) (Some Charging) None None None [(mkReqEntry (at_ms 516479) (mkLimitsReq None (Some (Num 32
  "EVSE1_root")) (Some (Num 6 "EVSE1_mincurrent")) (Some (Int 3 "EVSE1_phase")) (Some (Int 1
  "EVSE1_minphase")) (Some true) (Some (3))) (mkLimitsReq None (Some (Num 32 "EVSE1_leave")) None
  None None None None) None None)] [(mkReqEntry (at_ms 516479) (mkLimitsReq None (Some (Num 16
  "EVSE1_root")) (Some (Num 0 "EVSE1_mincurrent")) (Some (Int 3 "EVSE1_phase")) (Some (Int 1
  "EVSE1_minphase")) (Some true) (Some (3))) (mkLimitsReq None (Some (Num 0 "EVSE1_leave")) None
  None None None None) None None)] [] []); (mkRequest "evse2" Evse (Some false) (Some Charging) None
  None None [(mkReqEntry (at_ms 516479) (mkLimitsReq None (Some (Num 32 "EVSE2_root")) (Some (Num 6
  "EVSE2_mincurrent")) (Some (Int 3 "EVSE2_phase")) (Some (Int 1 "EVSE2_minphase")) (Some true)
  (Some (3))) (mkLimitsReq None (Some (Num 8 "EVSE2_leave")) None None None None None) None None)]
  [(mkReqEntry (at_ms 516479) (mkLimitsReq None (Some (Num 16 "EVSE2_root")) (Some (Num 0
  "EVSE2_mincurrent")) (Some (Int 3 "EVSE2_phase")) (Some (Int 1 "EVSE2_minphase")) (Some true)
  (Some (3))) (mkLimitsReq None (Some (Num 0 "EVSE2_leave")) None None None None None) None None)]
  [] [])]).
Definition t1_0_results : list (Z * list EnforcedLimits) :=
  [(0, [(mkEnforcedLimits "evse1" 10 (Res.mkLimitsRes None (Some (Num 24 "GridConnection_root"))
  (Some (Int 3 "GridConnection_phase,EVSE1_phase"))) [(mkResEntry (at_ms 0) (Res.mkLimitsRes None
  (Some (Num 24 "GridConnection_root")) (Some (Int 3 "GridConnection_phase,EVSE1_phase"))) None);
  (mkResEntry (at_ms 516479) (Res.mkLimitsRes None (Some (Num 24 "GridConnection_root")) (Some (Int
  3 "GridConnection_phase,EVSE1_phase"))) None)]); (mkEnforcedLimits "evse2" 10 (Res.mkLimitsRes
  None (Some (Num 8 "EVSE2_leave")) (Some (Int 3 "GridConnection_phase,EVSE2_phase"))) [(mkResEntry
  (at_ms 0) (Res.mkLimitsRes None (Some (Num 8 "EVSE2_leave")) (Some (Int 3
  "GridConnection_phase,EVSE2_phase"))) None); (mkResEntry (at_ms 516479) (Res.mkLimitsRes None
  (Some (Num 8 "EVSE2_leave")) (Some (Int 3 "GridConnection_phase,EVSE2_phase"))) None)])])].
Example t1_0_passes : passes t1_0_config t1_0_request t1_0_results (∅, O) = true.
Proof. vm_compute. reflexivity. Qed.

(** [1_1_two_evse_load_balancing_one_unplugged_0A.json]. *)
Definition t1_1_config : EnergyManagerConfig :=
  mkEnergyManagerConfig 230 1 60 1 (1 # 2) 500 "Never" 10 "DontChange" 500 30.
Definition t1_1_request : EnergyFlowRequest :=
  (mkRequest "grid_connection" Generic None None None None None [(mkReqEntry (at_ms 516479)
  (mkLimitsReq None (Some (Num 32 "GridConnection_root")) None (Some (Int 3 "GridConnection_phase"))
  None None None) (mkLimitsReq None (Some (Num 32 "GridConnection_leave")) None None None None None)
  None None)] [(mkReqEntry (at_ms 516479) (mkLimitsReq None (Some (Num 16 "GridConnection_root"))
  None (Some (Int 3 "GridConnection_phase")) None None None) (mkLimitsReq None (Some (Num 16
  "GridConnection_leave")) None None None None None) None None)] [] [(mkRequest "evse1" Evse (Some
  false) (Some Charging) None None None [(mkReqEntry (at_ms 516479) (mkLimitsReq None (Some (Num 32
  "EVSE1_root")) (Some (Num 6 "EVSE1_mincurrent")) (Some (Int 3 "EVSE1_phase")) (Some (Int 1
  "EVSE1_minphase")) (Some true) (Some (3))) (mkLimitsReq None (Some (Num 32 "EVSE1_leave")) None
  None None None None) None None)] [(mkReqEntry (at_ms 516479) (mkLimitsReq None (Some (Num 16
  "EVSE1_root")) (Some (Num 0 "EVSE1_mincurrent")) (Some (Int 3 "EVSE1_phase")) (Some (Int 1
  "EVSE1_minphase")) (Some true) (Some (3))) (mkLimitsReq None (Some (Num 0 "EVSE1_leave")) None
  None None None None) None None)] [] []); (mkRequest "evse2" Evse (Some false) (Some Unplugged)
  None None None [(mkReqEntry (at_ms 516479) (mkLimitsReq None (Some (Num 0 "EVSE2_root")) (Some
  (Num 6 "EVSE2_mincurrent")) (Some (Int 3 "EVSE2_phase")) (Some (Int 1 "EVSE2_minphase")) (Some
  true) (Some (3))) (mkLimitsReq None (Some (Num 8 "EVSE2_leave")) None None None None None) None
  None)] [(mkReqEntry (at_ms 516479) (mkLimitsReq None (Some (Num 16 "EVSE2_root")) (Some (Num 0
  "EVSE2_mincurrent")) (Some (Int 3 "EVSE2_phase")) (Some (Int 1 "EVSE2_minphase")) (Some true)
  (Some (3))) (mkLimitsReq None (Some (Num 0 "EVSE2_leave")) None None None None None) None None)]
  [] [])]).
Definition t1_1_results : list (Z * list EnforcedLimits) :=
  [(0, [(mkEnforcedLimits "evse1" 10 (Res.mkLimitsRes None (Some (Num 32
  "GridConnection_root,EVSE1_root")) (Some (Int 3 "GridConnection_phase,EVSE1_phase"))) [(mkResEntry
  (at_ms 0) (Res.mkLimitsRes None (Some (Num 32 "GridConnection_root,EVSE1_root")) (Some (Int 3
  "GridConnection_phase,EVSE1_phase"))) None); (mkResEntry (at_ms 516479) (Res.mkLimitsRes None
  (Some (Num 32 "GridConnection_root,EVSE1_root")) (Some (Int 3
  "GridConnection_phase,EVSE1_phase"))) None)]); (mkEnforcedLimits "evse2" 10 (Res.mkLimitsRes None
  (Some (Num 0 EmptyString)) None) [(mkResEntry (at_ms 0) (Res.mkLimitsRes None (Some (Num 0
  EmptyString)) None) None); (mkResEntry (at_ms 516479) (Res.mkLimitsRes None (Some (Num 0
  EmptyString)) None) None)])])].
Example t1_1_passes : passes t1_1_config t1_1_request t1_1_results (∅, O) = true.
Proof. vm_compute. reflexivity. Qed.

(** [1_2_two_evse_load_balancing_one_unplugged_6A.json]. *)
Definition t1_2_config : EnergyManagerConfig :=
  mkEnergyManagerConfig 230 1 60 1 (1 # 2) 500 "Never" 10 "DontChange" 500 30.
Definition t1_2_request : EnergyFlowRequest :=
  (mkRequest "grid_connection" Generic None None None None None [(mkReqEntry (at_ms 516479)
  (mkLimitsReq None (Some (Num 32 "GridConnection_root")) None (Some (Int 3 "GridConnection_phase"))
  None None None) (mkLimitsReq None (Some (Num 32 "GridConnection_leave")) None None None None None)
  None None)] [(mkReqEntry (at_ms 516479) (mkLimitsReq None (Some (Num 16 "GridConnection_root"))
  None (Some (Int 3 "GridConnection_phase")) None None None) (mkLimitsReq None (Some (Num 16
  "GridConnection_leave")) None None None None None) None None)] [] [(mkRequest "evse1" Evse (Some
  false) (Some Charging) None None None [(mkReqEntry (at_ms 516479) (mkLimitsReq None (Some (Num 32
  "EVSE1_root")) (Some (Num 6 "EVSE1_mincurrent")) (Some (Int 3 "EVSE1_phase")) (Some (Int 1
  "EVSE1_minphase")) (Some true) (Some (3))) (mkLimitsReq None (Some (Num 32 "EVSE1_leave")) None
  None None None None) None None)] [(mkReqEntry (at_ms 516479) (mkLimitsReq None (Some (Num 16
  "EVSE1_root")) (Some (Num 0 "EVSE1_mincurrent")) (Some (Int 3 "EVSE1_phase")) (Some (Int 1
  "EVSE1_minphase")) (Some true) (Some (3))) (mkLimitsReq None (Some (Num 0 "EVSE1_leave")) None
  None None None None) None None)] [] []); (mkRequest "evse2" Evse (Some false) (Some Unplugged)
  None None None [(mkReqEntry (at_ms 516479) (mkLimitsReq None (Some (Num 6 "EVSE2_root")) (Some
  (Num 6 "EVSE2_mincurrent")) (Some (Int 3 "EVSE2_phase")) (Some (Int 1 "EVSE2_minphase")) (Some
  true) (Some (3))) (mkLimitsReq None (Some (Num 8 "EVSE2_leave")) None None None None None) None
  None)] [(mkReqEntry (at_ms 516479) (mkLimitsReq None (Some (Num 16 "EVSE2_root")) (Some (Num 0
  "EVSE2_mincurrent")) (Some (Int 3 "EVSE2_phase")) (Some (Int 1 "EVSE2_minphase")) (Some true)
  (Some (3))) (mkLimitsReq None (Some (Num 0 "EVSE2_leave")) None None None None None) None None)]
  [] [])]).
Definition t1_2_results : list (Z * list EnforcedLimits) :=
  [(0, [(mkEnforcedLimits "evse1" 10 (Res.mkLimitsRes None (Some (Num 26 "GridConnection_root"))
  (Some (Int 3 "GridConnection_phase,EVSE1_phase"))) [(mkResEntry (at_ms 0) (Res.mkLimitsRes None
  (Some (Num 26 "GridConnection_root")) (Some (Int 3 "GridConnection_phase,EVSE1_phase"))) None);
  (mkResEntry (at_ms 516479) (Res.mkLimitsRes None (Some (Num 26 "GridConnection_root")) (Some (Int
  3 "GridConnection_phase,EVSE1_phase"))) None)]); (mkEnforcedLimits "evse2" 10 (Res.mkLimitsRes
  None (Some (Num 6 "EVSE2_root")) (Some (Int 3 "GridConnection_phase,EVSE2_phase"))) [(mkResEntry
  (at_ms 0) (Res.mkLimitsRes None (Some (Num 6 "EVSE2_root")) (Some (Int 3
  "GridConnection_phase,EVSE2_phase"))) None); (mkResEntry (at_ms 516479) (Res.mkLimitsRes None
  (Some (Num 6 "EVSE2_root")) (Some (Int 3 "GridConnection_phase,EVSE2_phase"))) None)])])].
Example t1_2_passes : passes t1_2_config t1_2_request t1_2_results (∅, O) = true.
Proof. vm_compute. reflexivity. Qed.

(** [1_3_two_evse_load_balancing_one_discharging.json]. *)
Definition t1_3_config : EnergyManagerConfig :=
  mkEnergyManagerConfig 230 1 60 1 (1 # 2) 500 "Never" 10 "DontChange" 500 30.
Definition t1_3_request : EnergyFlowRequest :=
  (mkRequest "grid_connection" Generic None None None None None [(mkReqEntry (at_ms 516479)
  (mkLimitsReq None (Some (Num 32 "GridConnection_root")) None (Some (Int 3 "GridConnection_phase"))
  None None None) (mkLimitsReq None (Some (Num 32 "GridConnection_leave")) None None None None None)
  None None)] [(mkReqEntry (at_ms 516479) (mkLimitsReq None (Some (Num 16 "GridConnection_root"))
  None (Some (Int 3 "GridConnection_phase")) None None None) (mkLimitsReq None (Some (Num 16
  "GridConnection_leave")) None None None None None) None None)] [] [(mkRequest "evse1" Evse (Some
  false) (Some Charging) None None None [(mkReqEntry (at_ms 516479) (mkLimitsReq None (Some (Num 45
  "EVSE1_root")) (Some (Num 6 "EVSE1_mincurrent")) (Some (Int 3 "EVSE1_phase")) (Some (Int 1
  "EVSE1_minphase")) (Some true) (Some (3))) (mkLimitsReq None (Some (Num 44 "EVSE1_leave")) None
  None None None None) None None)] [(mkReqEntry (at_ms 516479) (mkLimitsReq None (Some (Num 16
  "EVSE1_root")) (Some (Num 0 "EVSE1_mincurrent")) (Some (Int 3 "EVSE1_phase")) (Some (Int 1
  "EVSE1_minphase")) (Some true) (Some (3))) (mkLimitsReq None (Some (Num 0 "EVSE1_leave")) None
  None None None None) None None)] [] []); (mkRequest "evse2" Evse (Some false) (Some Charging) None
  None None [(mkReqEntry (at_ms 516479) (mkLimitsReq None (Some (Num 0 "EVSE2_root")) (Some (Num 6
  "EVSE2_mincurrent")) (Some (Int 3 "EVSE2_phase")) (Some (Int 1 "EVSE2_minphase")) (Some true)
  (Some (3))) (mkLimitsReq None (Some (Num 8 "EVSE2_leave")) None None None None None) None None)]
  [(mkReqEntry (at_ms 516479) (mkLimitsReq None (Some (Num 8 "EVSE2_root")) (Some (Num 0
  "EVSE2_mincurrent")) (Some (Int 3 "EVSE2_phase")) (Some (Int 1 "EVSE2_minphase")) (Some true)
  (Some (3))) (mkLimitsReq None None None None None None None) None None)] [] [])]).
Definition t1_3_results : list (Z * list EnforcedLimits) :=
  [(0, [(mkEnforcedLimits "evse1" 10 (Res.mkLimitsRes None (Some (Num 40 "GridConnection_root"))
  (Some (Int 3 "GridConnection_phase,EVSE1_phase"))) [(mkResEntry (at_ms 0) (Res.mkLimitsRes None
  (Some (Num 40 "GridConnection_root")) (Some (Int 3 "GridConnection_phase,EVSE1_phase"))) None);
  (mkResEntry (at_ms 516479) (Res.mkLimitsRes None (Some (Num 40 "GridConnection_root")) (Some (Int
  3 "GridConnection_phase,EVSE1_phase"))) None)]); (mkEnforcedLimits "evse2" 10 (Res.mkLimitsRes
  None (Some (Num (-8) "EVSE2_root")) (Some (Int 3 "BrokerFastCharging_FixedValue"))) [(mkResEntry
  (at_ms 0) (Res.mkLimitsRes None (Some (Num (-8) "EVSE2_root")) (Some (Int 3
  "BrokerFastCharging_FixedValue"))) None); (mkResEntry (at_ms 516479) (Res.mkLimitsRes None (Some
  (Num (-8) "EVSE2_root")) (Some (Int 3 "BrokerFastCharging_FixedValue"))) None)])])].
Example t1_3_passes : passes t1_3_config t1_3_request t1_3_results (∅, O) = true.
Proof. vm_compute. reflexivity. Qed.

(** [1_4_two_evse_load_balancing_both_discharging.json]. *)
Definition t1_4_config : EnergyManagerConfig :=
  mkEnergyManagerConfig 230 1 60 1 (1 # 2) 500 "Never" 10 "DontChange" 500 30.
Definition t1_4_request : EnergyFlowRequest :=
  (mkRequest "grid_connection" Generic None None None None None [(mkReqEntry (at_ms 516479)
  (mkLimitsReq None (Some (Num 32 "GridConnection_root")) None (Some (Int 3 "GridConnection_phase"))
  None None None) (mkLimitsReq None (Some (Num 32 "GridConnection_leave")) None None None None None)
  None None)] [(mkReqEntry (at_ms 516479) (mkLimitsReq None (Some (Num 16 "GridConnection_root"))
  None (Some (Int 3 "GridConnection_phase")) None None None) (mkLimitsReq None (Some (Num 16
  "GridConnection_leave")) None None None None None) None None)] [] [(mkRequest "evse1" Evse (Some
  false) (Some Charging) None None None [(mkReqEntry (at_ms 516479) (mkLimitsReq None (Some (Num 0
  "EVSE1_root")) (Some (Num 6 "EVSE1_mincurrent")) (Some (Int 3 "EVSE1_phase")) (Some (Int 1
  "EVSE1_minphase")) (Some true) (Some (3))) (mkLimitsReq None (Some (Num 32 "EVSE1_leave")) None
  None None None None) None None)] [(mkReqEntry (at_ms 516479) (mkLimitsReq None (Some (Num 12
  "EVSE1_root")) (Some (Num 0 "EVSE1_mincurrent")) (Some (Int 3 "EVSE1_phase")) (Some (Int 1
  "EVSE1_minphase")) (Some true) (Some (3))) (mkLimitsReq None None None None None None None) None
  None)] [] []); (mkRequest "evse2" Evse (Some false) (Some Charging) None None None [(mkReqEntry
  (at_ms 516479) (mkLimitsReq None (Some (Num 0 "EVSE2_root")) (Some (Num 6 "EVSE2_mincurrent"))
  (Some (Int 3 "EVSE2_phase")) (Some (Int 1 "EVSE2_minphase")) (Some true) (Some (3))) (mkLimitsReq
  None (Some (Num 8 "EVSE2_leave")) None None None None None) None None)] [(mkReqEntry (at_ms
  516479) (mkLimitsReq None (Some (Num 11 "EVSE2_root")) (Some (Num 0 "EVSE2_mincurrent")) (Some
  (Int 3 "EVSE2_phase")) (Some (Int 1 "EVSE2_minphase")) (Some true) (Some (3))) (mkLimitsReq None
  None None None None None None) None None)] [] [])]).
Definition t1_4_results : list (Z * list EnforcedLimits) :=
  [(0, [(mkEnforcedLimits "evse1" 10 (Res.mkLimitsRes None (Some (Num (-8) "GridConnection_root"))
  (Some (Int 3 "BrokerFastCharging_FixedValue"))) [(mkResEntry (at_ms 0) (Res.mkLimitsRes None (Some
  (Num (-8) "GridConnection_root")) (Some (Int 3 "BrokerFastCharging_FixedValue"))) None);
  (mkResEntry (at_ms 516479) (Res.mkLimitsRes None (Some (Num (-8) "GridConnection_root")) (Some
  (Int 3 "BrokerFastCharging_FixedValue"))) None)]); (mkEnforcedLimits "evse2" 10 (Res.mkLimitsRes
  None (Some (Num (-8) "GridConnection_root")) (Some (Int 3 "BrokerFastCharging_FixedValue")))
  [(mkResEntry (at_ms 0) (Res.mkLimitsRes None (Some (Num (-8) "GridConnection_root")) (Some (Int 3
  "BrokerFastCharging_FixedValue"))) None); (mkResEntry (at_ms 516479) (Res.mkLimitsRes None (Some
  (Num (-8) "GridConnection_root")) (Some (Int 3 "BrokerFastCharging_FixedValue"))) None)])])].
Example t1_4_passes : passes t1_4_config t1_4_request t1_4_results (∅, O) = true.
Proof. vm_compute. reflexivity. Qed.

(** [2_0_one_external_limit.json]. *)
Definition t2_0_config : EnergyManagerConfig :=
  mkEnergyManagerConfig 230 1 60 1 (1 # 2) 500 "Never" 10 "DontChange" 500 30.
Definition t2_0_request : EnergyFlowRequest :=
  (mkRequest "grid_connection" Generic None None None None None [(mkReqEntry (at_ms 516479)
  (mkLimitsReq None (Some (Num 32 "grid_connection_root")) None (Some (Int 3
  "grid_connection_phase")) None None None) (mkLimitsReq None (Some (Num 32
  "grid_connection_leave")) None None None None None) None None)] [(mkReqEntry (at_ms 516479)
  (mkLimitsReq None (Some (Num 16 "grid_connection_root")) None (Some (Int 3
  "grid_connection_phase")) None None None) (mkLimitsReq None (Some (Num 16
  "grid_connection_leave")) None None None None None) None None)] [] [(mkRequest "external_limit_1"
  Generic None None None None None [(mkReqEntry (at_ms 516479) (mkLimitsReq None (Some (Num 32
  "external_limit_1_root")) None (Some (Int 3 "external_limit_1_phase")) None None None)
  (mkLimitsReq None (Some (Num 32 "external_limit_1_leave")) None None None None None) None None)]
  [(mkReqEntry (at_ms 516479) (mkLimitsReq None (Some (Num 16 "external_limit_1_root")) None (Some
  (Int 3 "external_limit_1_phase")) None None None) (mkLimitsReq None (Some (Num 16
  "external_limit_1_leave")) None None None None None) None None)] [] [(mkRequest "evse1" Evse (Some
  false) (Some Charging) None None None [(mkReqEntry (at_ms 516479) (mkLimitsReq None (Some (Num 32
  "EVSE1_root")) (Some (Num 6 "EVSE1_mincurrent")) (Some (Int 3 "EVSE1_phase")) (Some (Int 1
  "EVSE1_minphase")) (Some true) (Some (3))) (mkLimitsReq None (Some (Num 32 "EVSE1_leave")) None
  None None None None) None None)] [(mkReqEntry (at_ms 516479) (mkLimitsReq None (Some (Num 16
  "EVSE1_root")) (Some (Num 0 "EVSE1_mincurrent")) (Some (Int 3 "EVSE1_phase")) (Some (Int 1
  "EVSE1_minphase")) (Some true) (Some (3))) (mkLimitsReq None (Some (Num 0 "EVSE1_leave")) None
  None None None None) None None)] [] [])])]).
Definition t2_0_results : list (Z * list EnforcedLimits) :=
  [(0, [(mkEnforcedLimits "evse1" 10 (Res.mkLimitsRes None (Some (Num 32
  "grid_connection_root,external_limit_1_root,EVSE1_root")) (Some (Int 3
  "grid_connection_phase,external_limit_1_phase,EVSE1_phase"))) [(mkResEntry (at_ms 0)
  (Res.mkLimitsRes None (Some (Num 32 "grid_connection_root,external_limit_1_root,EVSE1_root"))
  (Some (Int 3 "grid_connection_phase,external_limit_1_phase,EVSE1_phase"))) None); (mkResEntry
  (at_ms 516479) (Res.mkLimitsRes None (Some (Num 32
  "grid_connection_root,external_limit_1_root,EVSE1_root")) (Some (Int 3
  "grid_connection_phase,external_limit_1_phase,EVSE1_phase"))) None)])])].
Example t2_0_passes : passes t2_0_config t2_0_request t2_0_results (∅, O) = true.
Proof. vm_compute. reflexivity. Qed.

(** [2_1_one_external_limit_differentvalues.json]. *)
Definition t2_1_config : EnergyManagerConfig :=
  mkEnergyManagerConfig 230 1 60 1 (1 # 2) 500 "Never" 10 "DontChange" 500 30.
Definition t2_1_request : EnergyFlowRequest :=
  (mkRequest "grid_connection" Generic None None None None None [(mkReqEntry (at_ms 516479)
  (mkLimitsReq None (Some (Num 32 "grid_connection_root")) None (Some (Int 3
  "grid_connection_phase")) None None None) (mkLimitsReq None (Some (Num 32
  "grid_connection_leave")) None None None None None) None None)] [(mkReqEntry (at_ms 516479)
  (mkLimitsReq None (Some (Num 16 "grid_connection_root")) None (Some (Int 3
  "grid_connection_phase")) None None None) (mkLimitsReq None (Some (Num 16
  "grid_connection_leave")) None None None None None) None None)] [] [(mkRequest "external_limit_1"
  Generic None None None None None [(mkReqEntry (at_ms 516479) (mkLimitsReq None (Some (Num 32
  "external_limit_1_root")) None (Some (Int 3 "external_limit_1_phase")) None None None)
  (mkLimitsReq None (Some (Num 13 "external_limit_1_leave")) None None None None None) None None)]
  [(mkReqEntry (at_ms 516479) (mkLimitsReq None (Some (Num 16 "external_limit_1_root")) None (Some
  (Int 3 "external_limit_1_phase")) None None None) (mkLimitsReq None (Some (Num 16
  "external_limit_1_leave")) None None None None None) None None)] [] [(mkRequest "evse1" Evse (Some
  false) (Some Charging) None None None [(mkReqEntry (at_ms 516479) (mkLimitsReq None (Some (Num 32
  "EVSE1_root")) (Some (Num 6 "EVSE1_mincurrent")) (Some (Int 3 "EVSE1_phase")) (Some (Int 1
  "EVSE1_minphase")) (Some true) (Some (3))) (mkLimitsReq None (Some (Num 32 "EVSE1_leave")) None
  None None None None) None None)] [(mkReqEntry (at_ms 516479) (mkLimitsReq None (Some (Num 16
  "EVSE1_root")) (Some (Num 0 "EVSE1_mincurrent")) (Some (Int 3 "EVSE1_phase")) (Some (Int 1
  "EVSE1_minphase")) (Some true) (Some (3))) (mkLimitsReq None (Some (Num 0 "EVSE1_leave")) None
  None None None None) None None)] [] [])])]).
Definition t2_1_results : list (Z * list EnforcedLimits) :=
  [(0, [(mkEnforcedLimits "evse1" 10 (Res.mkLimitsRes None (Some (Num 13 "external_limit_1_leave"))
  (Some (Int 3 "grid_connection_phase,external_limit_1_phase,EVSE1_phase"))) [(mkResEntry (at_ms 0)
  (Res.mkLimitsRes None (Some (Num 13 "external_limit_1_leave")) (Some (Int 3
  "grid_connection_phase,external_limit_1_phase,EVSE1_phase"))) None); (mkResEntry (at_ms 516479)
  (Res.mkLimitsRes None (Some (Num 13 "external_limit_1_leave")) (Some (Int 3
  "grid_connection_phase,external_limit_1_phase,EVSE1_phase"))) None)])])].
Example t2_1_passes : passes t2_1_config t2_1_request t2_1_results (∅, O) = true.
Proof. vm_compute. reflexivity. Qed.

(** [3_two_external_limits.json]. *)
Definition t3_config : EnergyManagerConfig :=
  mkEnergyManagerConfig 230 1 60 1 (1 # 2) 500 "Never" 10 "DontChange" 500 30.
Definition t3_request : EnergyFlowRequest :=
  (mkRequest "grid_connection" Generic None None None None None [(mkReqEntry (at_ms 516479)
  (mkLimitsReq None (Some (Num 32 "grid_connection_root")) None (Some (Int 3
  "grid_connection_phase")) None None None) (mkLimitsReq None (Some (Num 32
  "grid_connection_leave")) None None None None None) None None)] [(mkReqEntry (at_ms 516479)
  (mkLimitsReq None (Some (Num 16 "grid_connection_root")) None (Some (Int 3
  "grid_connection_phase")) None None None) (mkLimitsReq None (Some (Num 16
  "grid_connection_leave")) None None None None None) None None)] [] [(mkRequest "external_limit_1"
  Generic None None None None None [(mkReqEntry (at_ms 516479) (mkLimitsReq None (Some (Num 32
  "external_limit_2_root")) None (Some (Int 3 "external_limit_2_phase")) None None None)
  (mkLimitsReq None (Some (Num 31 "external_limit_2_leave")) None None None None None) None None)]
  [(mkReqEntry (at_ms 516479) (mkLimitsReq None (Some (Num 16 "external_limit_2_root")) None (Some
  (Int 3 "external_limit_2_phase")) None None None) (mkLimitsReq None (Some (Num 16
  "external_limit_2_leave")) None None None None None) None None)] [] [(mkRequest "external_limit_1"
  Generic None None None None None [(mkReqEntry (at_ms 516479) (mkLimitsReq None (Some (Num 32
  "external_limit_1_root")) None (Some (Int 3 "external_limit_1_phase")) None None None)
  (mkLimitsReq None (Some (Num 32 "external_limit_1_leave")) None None None None None) None None)]
  [(mkReqEntry (at_ms 516479) (mkLimitsReq None (Some (Num 16 "external_limit_1_root")) None (Some
  (Int 3 "external_limit_1_phase")) None None None) (mkLimitsReq None (Some (Num 16
  "external_limit_1_leave")) None None None None None) None None)] [] [(mkRequest "evse1" Evse (Some
  false) (Some Charging) None None None [(mkReqEntry (at_ms 516479) (mkLimitsReq None (Some (Num 32
  "EVSE1_root")) (Some (Num 6 "EVSE1_mincurrent")) (Some (Int 3 "EVSE1_phase")) (Some (Int 1
  "EVSE1_minphase")) (Some true) (Some (3))) (mkLimitsReq None (Some (Num 32 "EVSE1_leave")) None
  None None None None) None None)] [(mkReqEntry (at_ms 516479) (mkLimitsReq None (Some (Num 16
  "EVSE1_root")) (Some (Num 0 "EVSE1_mincurrent")) (Some (Int 3 "EVSE1_phase")) (Some (Int 1
  "EVSE1_minphase")) (Some true) (Some (3))) (mkLimitsReq None (Some (Num 0 "EVSE1_leave")) None
  None None None None) None None)] [] [])])])]).
Definition t3_results : list (Z * list EnforcedLimits) :=
  [(0, [(mkEnforcedLimits "evse1" 10 (Res.mkLimitsRes None (Some (Num 31 "external_limit_2_leave"))
  (Some (Int 3 "grid_connection_phase,external_limit_2_phase,external_limit_1_phase,EVSE1_phase")))
  [(mkResEntry (at_ms 0) (Res.mkLimitsRes None (Some (Num 31 "external_limit_2_leave")) (Some (Int 3
  "grid_connection_phase,external_limit_2_phase,external_limit_1_phase,EVSE1_phase"))) None);
  (mkResEntry (at_ms 516479) (Res.mkLimitsRes None (Some (Num 31 "external_limit_2_leave")) (Some
  (Int 3 "grid_connection_phase,external_limit_2_phase,external_limit_1_phase,EVSE1_phase")))
  None)])])].
Example t3_passes : passes t3_config t3_request t3_results (∅, O) = true.
Proof. vm_compute. reflexivity. Qed.

(** [4_two_external_limits_longschedule.json]. *)
Definition t4_config : EnergyManagerConfig :=
  mkEnergyManagerConfig 230 1 60 1 (1 # 2) 500 "Never" 10 "DontChange" 500 30.
Definition t4_request : EnergyFlowRequest :=
  (mkRequest "grid_connection" Generic None None None None None [(mkReqEntry (at_ms 516479)
  (mkLimitsReq None (Some (Num 32 "grid_connection_root")) None (Some (Int 3
  "grid_connection_phase")) None None None) (mkLimitsReq None (Some (Num 32
  "grid_connection_leave")) None None None None None) None None)] [(mkReqEntry (at_ms 516479)
  (mkLimitsReq None (Some (Num 16 "grid_connection_root")) None (Some (Int 3
  "grid_connection_phase")) None None None) (mkLimitsReq None (Some (Num 16
  "grid_connection_leave")) None None None None None) None None)] [] [(mkRequest "external_limit_1"
  Generic None None None None None [(mkReqEntry (at_ms 516479) (mkLimitsReq None (Some (Num 32
  "external_limit_2_root")) None (Some (Int 3 "external_limit_2_phase")) None None None)
  (mkLimitsReq None (Some (Num 31 "external_limit_2_leave")) None None None None None) None None)]
  [(mkReqEntry (at_ms 516479) (mkLimitsReq None (Some (Num 16 "external_limit_2_root")) None (Some
  (Int 3 "external_limit_2_phase")) None None None) (mkLimitsReq None (Some (Num 16
  "external_limit_2_leave")) None None None None None) None None)] [] [(mkRequest "external_limit_1"
  Generic None None None None None [(mkReqEntry (at_ms 516479) (mkLimitsReq None (Some (Num 32
  "external_limit_1_root")) None (Some (Int 3 "external_limit_1_phase")) None None None)
  (mkLimitsReq None (Some (Num 32 "external_limit_1_leave")) None None None None None) None None);
  (mkReqEntry (at_ms 517479) (mkLimitsReq None (Some (Num 32 "external_limit_1_root")) None (Some
  (Int 3 "external_limit_1_phase")) None None None) (mkLimitsReq None (Some (Num 5
  "external_limit_1_leave")) None None None None None) None None); (mkReqEntry (at_ms 518479)
  (mkLimitsReq None (Some (Num 32 "external_limit_1_root")) None (Some (Int 3
  "external_limit_1_phase")) None None None) (mkLimitsReq None (Some (Num 6
  "external_limit_1_leave")) None None None None None) None None); (mkReqEntry (at_ms 519479)
  (mkLimitsReq None (Some (Num 32 "external_limit_1_root")) None (Some (Int 3
  "external_limit_1_phase")) None None None) (mkLimitsReq None (Some (Num 32
  "external_limit_1_leave")) None None None None None) None None); (mkReqEntry (at_ms 520479)
  (mkLimitsReq None (Some (Num 32 "external_limit_1_root")) None (Some (Int 3
  "external_limit_1_phase")) None None None) (mkLimitsReq None (Some (Num 32
  "external_limit_1_leave")) None None None None None) None None); (mkReqEntry (at_ms 521479)
  (mkLimitsReq None (Some (Num 32 "external_limit_1_root")) None (Some (Int 3
  "external_limit_1_phase")) None None None) (mkLimitsReq None (Some (Num 0
  "external_limit_1_leave")) None None None None None) None None); (mkReqEntry (at_ms 522479)
  (mkLimitsReq None (Some (Num 32 "external_limit_1_root")) None (Some (Int 3
  "external_limit_1_phase")) None None None) (mkLimitsReq None (Some (Num 32
  "external_limit_1_leave")) None None None None None) None None); (mkReqEntry (at_ms 523479)
  (mkLimitsReq None (Some (Num 32 "external_limit_1_root")) None (Some (Int 3
  "external_limit_1_phase")) None None None) (mkLimitsReq None (Some (Num 32
  "external_limit_1_leave")) None None None None None) None None)] [(mkReqEntry (at_ms 516479)
  (mkLimitsReq None (Some (Num 16 "external_limit_1_root")) None (Some (Int 3
  "external_limit_1_phase")) None None None) (mkLimitsReq None (Some (Num 16
  "external_limit_1_leave")) None None None None None) None None); (mkReqEntry (at_ms 520479)
  (mkLimitsReq None (Some (Num 16 "external_limit_1_root")) None (Some (Int 3
  "external_limit_1_phase")) None None None) (mkLimitsReq None (Some (Num 16
  "external_limit_1_leave")) None None None None None) None None)] [] [(mkRequest "evse1" Evse (Some
  false) (Some Charging) None None None [(mkReqEntry (at_ms 516479) (mkLimitsReq None (Some (Num 32
  "EVSE1_root")) (Some (Num 6 "EVSE1_mincurrent")) (Some (Int 3 "EVSE1_phase")) (Some (Int 1
  "EVSE1_minphase")) (Some true) (Some (3))) (mkLimitsReq None (Some (Num 32 "EVSE1_leave")) None
  None None None None) None None)] [(mkReqEntry (at_ms 516479) (mkLimitsReq None (Some (Num 16
  "EVSE1_root")) (Some (Num 0 "EVSE1_mincurrent")) (Some (Int 3 "EVSE1_phase")) (Some (Int 1
  "EVSE1_minphase")) (Some true) (Some (3))) (mkLimitsReq None (Some (Num 0 "EVSE1_leave")) None
  None None None None) None None)] [] [])])])]).
Definition t4_results : list (Z * list EnforcedLimits) :=
  [(0, [(mkEnforcedLimits "evse1" 10 (Res.mkLimitsRes None (Some (Num 31 "external_limit_2_leave"))
  (Some (Int 3 "grid_connection_phase,external_limit_2_phase,external_limit_1_phase,EVSE1_phase")))
  [(mkResEntry (at_ms 0) (Res.mkLimitsRes None (Some (Num 31 "external_limit_2_leave")) (Some (Int 3
  "grid_connection_phase,external_limit_2_phase,external_limit_1_phase,EVSE1_phase"))) None);
  (mkResEntry (at_ms 516479) (Res.mkLimitsRes None (Some (Num 31 "external_limit_2_leave")) (Some
  (Int 3 "grid_connection_phase,external_limit_2_phase,external_limit_1_phase,EVSE1_phase"))) None);
  (mkResEntry (at_ms 517479) (Res.mkLimitsRes None (Some (Num 0 EmptyString)) None) None);
  (mkResEntry (at_ms 518479) (Res.mkLimitsRes None (Some (Num 6 "external_limit_1_leave")) (Some
  (Int 3 "grid_connection_phase,external_limit_2_phase,external_limit_1_phase,EVSE1_phase"))) None);
  (mkResEntry (at_ms 519479) (Res.mkLimitsRes None (Some (Num 31 "external_limit_2_leave")) (Some
  (Int 3 "grid_connection_phase,external_limit_2_phase,external_limit_1_phase,EVSE1_phase"))) None);
  (mkResEntry (at_ms 520479) (Res.mkLimitsRes None (Some (Num 31 "external_limit_2_leave")) (Some
  (Int 3 "grid_connection_phase,external_limit_2_phase,external_limit_1_phase,EVSE1_phase"))) None);
  (mkResEntry (at_ms 521479) (Res.mkLimitsRes None (Some (Num 0 EmptyString)) None) None);
  (mkResEntry (at_ms 522479) (Res.mkLimitsRes None (Some (Num 31 "external_limit_2_leave")) (Some
  (Int 3 "grid_connection_phase,external_limit_2_phase,external_limit_1_phase,EVSE1_phase"))) None);
  (mkResEntry (at_ms 523479) (Res.mkLimitsRes None (Some (Num 31 "external_limit_2_leave")) (Some
  (Int 3 "grid_connection_phase,external_limit_2_phase,external_limit_1_phase,EVSE1_phase")))
  None)])])].
Example t4_passes : passes t4_config t4_request t4_results (∅, O) = true.
Proof. vm_compute. reflexivity. Qed.

(** [5_ac_phase_switching.json]. *)
Definition t5_config : EnergyManagerConfig :=
  mkEnergyManagerConfig 230 1 60 1 (1 # 2) 500 "Both" 3 "DontChange" 500 30.
Definition t5_request : EnergyFlowRequest :=
  (mkRequest "grid_connection" Generic None None None None None [(mkReqEntry (at_ms 516479)
  (mkLimitsReq None (Some (Num 32 "grid_connection_root")) None (Some (Int 3
  "grid_connection_phase")) None None None) (mkLimitsReq None (Some (Num 32
  "grid_connection_leave")) None None None None None) None None)] [(mkReqEntry (at_ms 516479)
  (mkLimitsReq None (Some (Num 16 "grid_connection_root")) None (Some (Int 3
  "grid_connection_phase")) None None None) (mkLimitsReq None (Some (Num 16
  "grid_connection_leave")) None None None None None) None None)] [] [(mkRequest "external_limit_1"
  Generic None None None None None [(mkReqEntry (at_ms 1479) (mkLimitsReq (Some (Num 11000
  "external_limit_1_root")) None None None None None None) (mkLimitsReq None None None None None
  None None) None None); (mkReqEntry (at_ms 1479) (mkLimitsReq (Some (Num 2000
  "external_limit_1_root")) None None None None None None) (mkLimitsReq None None None None None
  None None) None None); (mkReqEntry (at_ms 1479) (mkLimitsReq (Some (Num 5000
  "external_limit_1_root")) None None None None None None) (mkLimitsReq None None None None None
  None None) None None); (mkReqEntry (at_ms 1479) (mkLimitsReq (Some (Num 0
  "external_limit_1_root")) None None None None None None) (mkLimitsReq None None None None None
  None None) None None)] [(mkReqEntry (at_ms 516479) (mkLimitsReq None (Some (Num 16
  "external_limit_1_root")) None (Some (Int 3 "external_limit_1_phase")) None None None)
  (mkLimitsReq None (Some (Num 16 "external_limit_1_leave")) None None None None None) None None)]
  [] [(mkRequest "evse1" Evse (Some false) (Some Charging) None None None [(mkReqEntry (at_ms
  516479) (mkLimitsReq None (Some (Num 32 "EVSE1_root")) (Some (Num 6 "EVSE1_mincurrent")) (Some
  (Int 3 "EVSE1_phase")) (Some (Int 1 "EVSE1_minphase")) (Some true) (Some (3))) (mkLimitsReq None
  (Some (Num 32 "EVSE1_leave")) None None None None None) None None)] [(mkReqEntry (at_ms 516479)
  (mkLimitsReq None (Some (Num 16 "EVSE1_root")) (Some (Num 0 "EVSE1_mincurrent")) (Some (Int 3
  "EVSE1_phase")) (Some (Int 1 "EVSE1_minphase")) (Some true) (Some (3))) (mkLimitsReq None (Some
  (Num 0 "EVSE1_leave")) None None None None None) None None)] [] [])])]).
Definition t5_results : list (Z * list EnforcedLimits) :=
  [(0, [(mkEnforcedLimits "evse1" 10 (Res.mkLimitsRes (Some (Num 7360
  "grid_connection_root,EVSE1_root")) (Some (Num 32 "grid_connection_root,EVSE1_root")) (Some (Int 1
  "EVSE1_minphase"))) [(mkResEntry (at_ms 0) (Res.mkLimitsRes (Some (Num 7360
  "grid_connection_root,EVSE1_root")) (Some (Num 32 "grid_connection_root,EVSE1_root")) (Some (Int 1
  "EVSE1_minphase"))) None); (mkResEntry (at_ms 1479) (Res.mkLimitsRes (Some (Num 0 EmptyString))
  (Some (Num 0 EmptyString)) None) None); (mkResEntry (at_ms 516479) (Res.mkLimitsRes (Some (Num 0
  EmptyString)) (Some (Num 0 EmptyString)) None) None)])]); (60000, [(mkEnforcedLimits "evse1" 10
  (Res.mkLimitsRes (Some (Num 0 EmptyString)) (Some (Num 0 EmptyString)) None) [(mkResEntry (at_ms
  0) (Res.mkLimitsRes (Some (Num 11000 "external_limit_1_root")) (Some (Num (15942028999328613 #
  1000000000000000) "external_limit_1_root")) (Some (Int 3 "grid_connection_phase,EVSE1_phase")))
  None); (mkResEntry (at_ms 1479) (Res.mkLimitsRes (Some (Num 0 EmptyString)) (Some (Num 0
  EmptyString)) None) None); (mkResEntry (at_ms 516479) (Res.mkLimitsRes (Some (Num 0 EmptyString))
  (Some (Num 0 EmptyString)) None) None)])]); (120000, [(mkEnforcedLimits "evse1" 10
  (Res.mkLimitsRes (Some (Num 0 EmptyString)) (Some (Num 0 EmptyString)) None) [(mkResEntry (at_ms
  0) (Res.mkLimitsRes (Some (Num 11000 "external_limit_1_root")) (Some (Num (15942028999328613 #
  1000000000000000) "external_limit_1_root")) (Some (Int 3 "grid_connection_phase,EVSE1_phase")))
  None); (mkResEntry (at_ms 1479) (Res.mkLimitsRes (Some (Num 0 EmptyString)) (Some (Num 0
  EmptyString)) None) None); (mkResEntry (at_ms 516479) (Res.mkLimitsRes (Some (Num 0 EmptyString))
  (Some (Num 0 EmptyString)) None) None)])])].
Example t5_passes : passes t5_config t5_request t5_results (∅, O) = true.
Proof. vm_compute. reflexivity. Qed.

(** [6_empty.json]. *)
Definition t6_config : EnergyManagerConfig :=
  mkEnergyManagerConfig 230 1 60 1 (1 # 2) 500 "Never" 10 "DontChange" 500 30.
Definition t6_request : EnergyFlowRequest :=
  (mkRequest EmptyString Undefined None None None None None [] [] [] []).
Definition t6_results : list (Z * list EnforcedLimits) :=
  [(2601776390, [])].
Example t6_passes : passes t6_config t6_request t6_results (∅, O) = true.
Proof. vm_compute. reflexivity. Qed.

(** [7_no_schedules.json]. *)
Definition t7_config : EnergyManagerConfig :=
  mkEnergyManagerConfig 230 1 60 1 (1 # 2) 500 "Never" 10 "DontChange" 500 30.
Definition t7_request : EnergyFlowRequest :=
  (mkRequest "evse_manager" Evse (Some false) None None (Some (mkPowermeter None)) None [] [] [] []).
Definition t7_results : list (Z * list EnforcedLimits) :=
  [((-30330000000), [(mkEnforcedLimits "evse_manager" 10 (Res.mkLimitsRes (Some (Num 0 EmptyString))
  (Some (Num 0 EmptyString)) None) [(mkResEntry (at_ms (-30330000000)) (Res.mkLimitsRes (Some (Num 0
  EmptyString)) (Some (Num 0 EmptyString)) None) None)])])].
Example t7_passes : passes t7_config t7_request t7_results (∅, O) = true.
Proof. vm_compute. reflexivity. Qed.

(** [8_setpoint_external_limit_ampere.json]. *)
Definition t8_config : EnergyManagerConfig :=
  mkEnergyManagerConfig 230 1 60 1 (1 # 2) 500 "Never" 10 "DontChange" 500 30.
Definition t8_request : EnergyFlowRequest :=
  (mkRequest "grid_connection" Generic None None None None None [(mkReqEntry (at_ms 516479)
  (mkLimitsReq None (Some (Num 32 "grid_connection_root")) None (Some (Int 3
  "grid_connection_phase")) None None None) (mkLimitsReq None (Some (Num 32
  "grid_connection_leave")) None None None None None) None None)] [(mkReqEntry (at_ms 516479)
  (mkLimitsReq None (Some (Num 16 "grid_connection_root")) None (Some (Int 3
  "grid_connection_phase")) None None None) (mkLimitsReq None (Some (Num 16
  "grid_connection_leave")) None None None None None) None None)] [] [(mkRequest "external_limit_1"
  Generic None None None None None [(mkReqEntry (at_ms 516479) (mkLimitsReq None (Some (Num 32
  "external_limit_1_root")) None (Some (Int 3 "external_limit_1_phase")) None None None)
  (mkLimitsReq None (Some (Num 32 "external_limit_1_leave")) None None None None None) None None)]
  [(mkReqEntry (at_ms 516479) (mkLimitsReq None (Some (Num 16 "external_limit_1_root")) None (Some
  (Int 3 "external_limit_1_phase")) None None None) (mkLimitsReq None (Some (Num 16
  "external_limit_1_leave")) None None None None None) None None); (mkReqEntry (at_ms 526479)
  (mkLimitsReq None (Some (Num 16 "external_limit_1_root")) None (Some (Int 3
  "external_limit_1_phase")) None None None) (mkLimitsReq None (Some (Num 9
  "external_limit_1_leave")) None None None None None) None None)] [(mkSetpointEntry (at_ms 516479)
  (Some (mkSetpoint (Some (15 # 2)) None None 42 "external_limit_1_setpoint"))); (mkSetpointEntry
  (at_ms 517479) (Some (mkSetpoint (Some (13 # 1)) None None 41 "external_limit_1_setpoint")));
  (mkSetpointEntry (at_ms 520479) (Some (mkSetpoint (Some (-8 # 1)) None None 41
  "external_limit_1_setpoint"))); (mkSetpointEntry (at_ms 524479) (Some (mkSetpoint (Some (-12 # 1))
  None None 41 "external_limit_1_setpoint")))] [(mkRequest "evse1" Evse (Some false) (Some Charging)
  None None None [(mkReqEntry (at_ms 516479) (mkLimitsReq None (Some (Num 32 "EVSE1_root")) (Some
  (Num 6 "EVSE1_mincurrent")) (Some (Int 3 "EVSE1_phase")) (Some (Int 1 "EVSE1_minphase")) (Some
  true) (Some (3))) (mkLimitsReq None (Some (Num 32 "EVSE1_leave")) None None None None None) None
  None)] [(mkReqEntry (at_ms 516479) (mkLimitsReq None (Some (Num 16 "EVSE1_root")) (Some (Num 0
  "EVSE1_mincurrent")) (Some (Int 3 "EVSE1_phase")) (Some (Int 1 "EVSE1_minphase")) (Some true)
  (Some (3))) (mkLimitsReq None (Some (Num 10 "EVSE1_leave")) None None None None None) None None)]
  [] [])])]).
Definition t8_results : list (Z * list EnforcedLimits) :=
  [(0, [(mkEnforcedLimits "evse1" 10 (Res.mkLimitsRes None (Some (Num (15 # 2)
  "external_limit_1_setpoint")) (Some (Int 3
  "grid_connection_phase,external_limit_1_phase,EVSE1_phase"))) [(mkResEntry (at_ms 0)
  (Res.mkLimitsRes None (Some (Num (15 # 2) "external_limit_1_setpoint")) (Some (Int 3
  "grid_connection_phase,external_limit_1_phase,EVSE1_phase"))) None); (mkResEntry (at_ms 516479)
  (Res.mkLimitsRes None (Some (Num (15 # 2) "external_limit_1_setpoint")) (Some (Int 3
  "grid_connection_phase,external_limit_1_phase,EVSE1_phase"))) None); (mkResEntry (at_ms 517479)
  (Res.mkLimitsRes None (Some (Num 13 "external_limit_1_setpoint")) (Some (Int 3
  "grid_connection_phase,external_limit_1_phase,EVSE1_phase"))) None); (mkResEntry (at_ms 520479)
  (Res.mkLimitsRes None (Some (Num (-8) "external_limit_1_setpoint")) (Some (Int 3
  "BrokerFastCharging_FixedValue"))) None); (mkResEntry (at_ms 524479) (Res.mkLimitsRes None (Some
  (Num (-10) "EVSE1_leave")) (Some (Int 3 "BrokerFastCharging_FixedValue"))) None); (mkResEntry
  (at_ms 526479) (Res.mkLimitsRes None (Some (Num (-9) "external_limit_1_leave")) (Some (Int 3
  "BrokerFastCharging_FixedValue"))) None)])])].
Example t8_passes : passes t8_config t8_request t8_results (∅, O) = true.
Proof. vm_compute. reflexivity. Qed.

(** [9_setpoint_external_limit_watt.json]. *)
Definition t9_config : EnergyManagerConfig :=
  mkEnergyManagerConfig 230 1 60 1 (1 # 2) 500 "Never" 10 "DontChange" 500 30.
Definition t9_request : EnergyFlowRequest :=
  (mkRequest "grid_connection" Generic None None None None None [(mkReqEntry (at_ms 516479)
  (mkLimitsReq None (Some (Num 32 "grid_connection_root")) None (Some (Int 3
  "grid_connection_phase")) None None None) (mkLimitsReq None (Some (Num 32
  "grid_connection_leave")) None None None None None) None None)] [(mkReqEntry (at_ms 516479)
  (mkLimitsReq None (Some (Num 16 "grid_connection_root")) None (Some (Int 3
  "grid_connection_phase")) None None None) (mkLimitsReq None (Some (Num 16
  "grid_connection_leave")) None None None None None) None None)] [] [(mkRequest "external_limit_1"
  Generic None None None None None [(mkReqEntry (at_ms 516479) (mkLimitsReq None (Some (Num 32
  "external_limit_1_root")) None (Some (Int 3 "external_limit_1_phase")) None None None)
  (mkLimitsReq None (Some (Num 32 "external_limit_1_leave")) None None None None None) None None)]
  [(mkReqEntry (at_ms 516479) (mkLimitsReq None (Some (Num 16 "external_limit_1_root")) None (Some
  (Int 3 "external_limit_1_phase")) None None None) (mkLimitsReq None (Some (Num 16
  "external_limit_1_leave")) None None None None None) None None); (mkReqEntry (at_ms 526479)
  (mkLimitsReq None (Some (Num 16 "external_limit_1_root")) None (Some (Int 3
  "external_limit_1_phase")) None None None) (mkLimitsReq None (Some (Num 9
  "external_limit_1_leave")) None None None None None) None None)] [(mkSetpointEntry (at_ms 516479)
  (Some (mkSetpoint None (Some (4242 # 1)) None 42 "external_limit_1_setpoint"))); (mkSetpointEntry
  (at_ms 517479) (Some (mkSetpoint None (Some (8242 # 1)) None 41 "external_limit_1_setpoint")));
  (mkSetpointEntry (at_ms 520479) (Some (mkSetpoint None (Some (-4242 # 1)) None 41
  "external_limit_1_setpoint"))); (mkSetpointEntry (at_ms 524479) (Some (mkSetpoint None (Some
  (-14242 # 1)) None 41 "external_limit_1_setpoint")))] [(mkRequest "evse1" Evse (Some false) (Some
  Charging) None None None [(mkReqEntry (at_ms 516479) (mkLimitsReq None (Some (Num 32
  "EVSE1_root")) (Some (Num 6 "EVSE1_mincurrent")) (Some (Int 3 "EVSE1_phase")) (Some (Int 1
  "EVSE1_minphase")) (Some true) (Some (3))) (mkLimitsReq None (Some (Num 32 "EVSE1_leave")) None
  None None None None) None None)] [(mkReqEntry (at_ms 516479) (mkLimitsReq None (Some (Num 16
  "EVSE1_root")) (Some (Num 0 "EVSE1_mincurrent")) (Some (Int 3 "EVSE1_phase")) (Some (Int 1
  "EVSE1_minphase")) (Some true) (Some (3))) (mkLimitsReq None (Some (Num 10 "EVSE1_leave")) None
  None None None None) None None)] [] [])])]).
Definition t9_results : list (Z * list EnforcedLimits) :=
  [(0, [(mkEnforcedLimits "evse1" 10 (Res.mkLimitsRes (Some (Num 4242 "external_limit_1_setpoint"))
  (Some (Num (384239137172699 # 62500000000000) "external_limit_1_setpoint")) (Some (Int 3
  "grid_connection_phase,external_limit_1_phase,EVSE1_phase"))) [(mkResEntry (at_ms 0)
  (Res.mkLimitsRes (Some (Num 4242 "external_limit_1_setpoint")) (Some (Num (384239137172699 #
  62500000000000) "external_limit_1_setpoint")) (Some (Int 3
  "grid_connection_phase,external_limit_1_phase,EVSE1_phase"))) None); (mkResEntry (at_ms 516479)
  (Res.mkLimitsRes (Some (Num 4242 "external_limit_1_setpoint")) (Some (Num (384239137172699 #
  62500000000000) "external_limit_1_setpoint")) (Some (Int 3
  "grid_connection_phase,external_limit_1_phase,EVSE1_phase"))) None); (mkResEntry (at_ms 517479)
  (Res.mkLimitsRes (Some (Num 8242 "external_limit_1_setpoint")) (Some (Num (2986231803894043 #
  250000000000000) "external_limit_1_setpoint")) (Some (Int 3
  "grid_connection_phase,external_limit_1_phase,EVSE1_phase"))) None); (mkResEntry (at_ms 520479)
  (Res.mkLimitsRes (Some (Num (-4242) "external_limit_1_setpoint")) (Some (Num (-384239137172699 #
  62500000000000) "external_limit_1_setpoint")) (Some (Int 3 "BrokerFastCharging_FixedValue")))
  None); (mkResEntry (at_ms 524479) (Res.mkLimitsRes (Some (Num (-6900) "EVSE1_leave")) (Some (Num
  (-10) "EVSE1_leave")) (Some (Int 3 "BrokerFastCharging_FixedValue"))) None); (mkResEntry (at_ms
  526479) (Res.mkLimitsRes (Some (Num (-6210) "external_limit_1_leave")) (Some (Num (-9)
  "external_limit_1_leave")) (Some (Int 3 "BrokerFastCharging_FixedValue"))) None)])])].
Example t9_passes : passes t9_config t9_request t9_results (∅, O) = true.
Proof. vm_compute. reflexivity. Qed.

(** [10_setpoint_external_limit_freqencytable.json]. *)
Definition t10_config : EnergyManagerConfig :=
  mkEnergyManagerConfig 230 1 60 1 (1 # 2) 500 "Never" 10 "DontChange" 500 30.
Definition t10_request : EnergyFlowRequest :=
  (mkRequest "grid_connection" Generic None None None None None [(mkReqEntry (at_ms 516479)
  (mkLimitsReq None (Some (Num 32 "grid_connection_root")) None (Some (Int 3
  "grid_connection_phase")) None None None) (mkLimitsReq None (Some (Num 32
  "grid_connection_leave")) None None None None None) None None)] [(mkReqEntry (at_ms 516479)
  (mkLimitsReq None (Some (Num 16 "grid_connection_root")) None (Some (Int 3
  "grid_connection_phase")) None None None) (mkLimitsReq None (Some (Num 16
  "grid_connection_leave")) None None None None None) None None)] [] [(mkRequest "external_limit_1"
  Generic None None None (Some (mkPowermeter (Some (47 # 1)))) None [(mkReqEntry (at_ms 516479)
  (mkLimitsReq None (Some (Num 32 "external_limit_1_root")) None (Some (Int 3
  "external_limit_1_phase")) None None None) (mkLimitsReq None (Some (Num 32
  "external_limit_1_leave")) None None None None None) None None)] [(mkReqEntry (at_ms 516479)
  (mkLimitsReq None (Some (Num 16 "external_limit_1_root")) None (Some (Int 3
  "external_limit_1_phase")) None None None) (mkLimitsReq None (Some (Num 16
  "external_limit_1_leave")) None None None None None) None None); (mkReqEntry (at_ms 526479)
  (mkLimitsReq None (Some (Num 16 "external_limit_1_root")) None (Some (Int 3
  "external_limit_1_phase")) None None None) (mkLimitsReq None (Some (Num 9
  "external_limit_1_leave")) None None None None None) None None)] [(mkSetpointEntry (at_ms 516479)
  (Some (mkSetpoint None None (Some [mkPoint (49 # 1) (-7000 # 1); mkPoint (50 # 1) (0 # 1); mkPoint
  (51 # 1) (7000 # 1)]) 42 "external_limit_1_setpoint")))] [(mkRequest "evse1" Evse (Some false)
  (Some Charging) None None None [(mkReqEntry (at_ms 516479) (mkLimitsReq None (Some (Num 32
  "EVSE1_root")) (Some (Num 6 "EVSE1_mincurrent")) (Some (Int 3 "EVSE1_phase")) (Some (Int 1
  "EVSE1_minphase")) (Some true) (Some (3))) (mkLimitsReq None (Some (Num 32 "EVSE1_leave")) None
  None None None None) None None)] [(mkReqEntry (at_ms 516479) (mkLimitsReq None (Some (Num 16
  "EVSE1_root")) (Some (Num 0 "EVSE1_mincurrent")) (Some (Int 3 "EVSE1_phase")) (Some (Int 1
  "EVSE1_minphase")) (Some true) (Some (3))) (mkLimitsReq None (Some (Num 10 "EVSE1_leave")) None
  None None None None) None None)] [] [])])]).
Definition t10_results : list (Z * list EnforcedLimits) :=
  [(0, [(mkEnforcedLimits "evse1" 10 (Res.mkLimitsRes (Some (Num (-6900) "EVSE1_leave")) (Some (Num
  (-10) "EVSE1_leave")) (Some (Int 3 "BrokerFastCharging_FixedValue"))) [(mkResEntry (at_ms 0)
  (Res.mkLimitsRes (Some (Num (-6900) "EVSE1_leave")) (Some (Num (-10) "EVSE1_leave")) (Some (Int 3
  "BrokerFastCharging_FixedValue"))) None); (mkResEntry (at_ms 516479) (Res.mkLimitsRes (Some (Num
  (-6900) "EVSE1_leave")) (Some (Num (-10) "EVSE1_leave")) (Some (Int 3
  "BrokerFastCharging_FixedValue"))) None); (mkResEntry (at_ms 526479) (Res.mkLimitsRes (Some (Num
  (-6210) "external_limit_1_leave")) (Some (Num (-9) "external_limit_1_leave")) (Some (Int 3
  "BrokerFastCharging_FixedValue"))) None)])])].
Example t10_passes : passes t10_config t10_request t10_results (∅, O) = true.
Proof. vm_compute. reflexivity. Qed.

(** [11_two_dc_evse_load_balancing.json]. *)
Definition t11_config : EnergyManagerConfig :=
  mkEnergyManagerConfig 230 1 60 1 2 1000 "Never" 10 "DontChange" 500 30.
Definition t11_request : EnergyFlowRequest :=
  (mkRequest "grid_connection" Generic None None None None None [(mkReqEntry (at_ms 516479)
  (mkLimitsReq None (Some (Num 120 "GridConnection_root")) None (Some (Int 3
  "GridConnection_phase")) None None None) (mkLimitsReq None (Some (Num 125 "GridConnection_leave"))
  None None None None None) None None)] [(mkReqEntry (at_ms 516479) (mkLimitsReq None (Some (Num 120
  "GridConnection_root")) None (Some (Int 3 "GridConnection_phase")) None None None) (mkLimitsReq
  None (Some (Num 125 "GridConnection_leave")) None None None None None) None None)] [] [(mkRequest
  "evse1" Evse (Some false) (Some Charging) None None None [(mkReqEntry (at_ms 516479) (mkLimitsReq
  None (Some (Num 60 "EVSE1_root")) (Some (Num 0 "EVSE1_mincurrent")) (Some (Int 3 "EVSE1_phase"))
  (Some (Int 1 "EVSE1_minphase")) (Some true) (Some (3))) (mkLimitsReq (Some (Num 50000
  "EVSE1_leaves")) None None None None None None) None None)] [(mkReqEntry (at_ms 516479)
  (mkLimitsReq None (Some (Num 16 "EVSE1_root")) (Some (Num 0 "EVSE1_mincurrent")) (Some (Int 3
  "EVSE1_phase")) (Some (Int 1 "EVSE1_minphase")) (Some true) (Some (3))) (mkLimitsReq (Some (Num
  10000 "EVSE1_leaves")) None None None None None None) None None)] [] []); (mkRequest "evse2" Evse
  (Some false) (Some Charging) None None None [(mkReqEntry (at_ms 516479) (mkLimitsReq None (Some
  (Num 80 "EVSE2_root")) (Some (Num 0 "EVSE2_mincurrent")) (Some (Int 3 "EVSE2_phase")) (Some (Int 1
  "EVSE2_minphase")) (Some true) (Some (3))) (mkLimitsReq (Some (Num 60000 "EVSE2_leave")) None None
  None None None None) None None)] [(mkReqEntry (at_ms 516479) (mkLimitsReq None (Some (Num 16
  "EVSE2_root")) (Some (Num 0 "EVSE2_mincurrent")) (Some (Int 3 "EVSE2_phase")) (Some (Int 1
  "EVSE2_minphase")) (Some true) (Some (3))) (mkLimitsReq (Some (Num 12000 "EVSE2_leave")) None None
  None None None None) None None)] [] [])]).
Definition t11_results : list (Z * list EnforcedLimits) :=
  [(0, [(mkEnforcedLimits "evse1" 10 (Res.mkLimitsRes (Some (Num 41400 "EVSE1_root")) (Some (Num 60
  "EVSE1_root")) (Some (Int 3 "BrokerFastCharging_NumPhasesActive"))) [(mkResEntry (at_ms 0)
  (Res.mkLimitsRes (Some (Num 41400 "EVSE1_root")) (Some (Num 60 "EVSE1_root")) (Some (Int 3
  "BrokerFastCharging_NumPhasesActive"))) None); (mkResEntry (at_ms 516479) (Res.mkLimitsRes (Some
  (Num 41400 "EVSE1_root")) (Some (Num 60 "EVSE1_root")) (Some (Int 3
  "BrokerFastCharging_NumPhasesActive"))) None)]); (mkEnforcedLimits "evse2" 10 (Res.mkLimitsRes
  (Some (Num 41400 "GridConnection_root")) (Some (Num 60 "GridConnection_root")) (Some (Int 3
  "BrokerFastCharging_NumPhasesActive"))) [(mkResEntry (at_ms 0) (Res.mkLimitsRes (Some (Num 41400
  "GridConnection_root")) (Some (Num 60 "GridConnection_root")) (Some (Int 3
  "BrokerFastCharging_NumPhasesActive"))) None); (mkResEntry (at_ms 516479) (Res.mkLimitsRes (Some
  (Num 41400 "GridConnection_root")) (Some (Num 60 "GridConnection_root")) (Some (Int 3
  "BrokerFastCharging_NumPhasesActive"))) None)])])].
Example t11_passes : passes t11_config t11_request t11_results (∅, O) = true.
Proof. vm_compute. reflexivity. Qed.

(** ** Corners

    Runs with outcomes that differ from what the documentation of the modules
    says, or that one may not expect. *)

(** The default configuration of the module. *)
Definition default_config : EnergyManagerConfig :=
  mkEnergyManagerConfig 230 1 60 1 (1 # 2) 500 "Never" 0 "DontChange" 200 600.

(** A fuse with one EVSE behind it, both with one entry for import. *)
Definition one_evse (fuse evse : LimitsReq) : EnergyFlowRequest :=
  mkRequest "grid" Generic None None None None None
    [mkReqEntry (at_ms 0) fuse no_limits_req None None] [] []
    [mkRequest "evse" Evse None (Some Charging) None None None
       [mkReqEntry (at_ms 0) evse no_limits_req None None] [] [] []].

Definition run_once (config : EnergyManagerConfig) (request : EnergyFlowRequest) : list Res.LimitsRes :=
  map limits_root_side (run_optimizer config (fun _ => test_hour) request test_hour (∅, O)).1.

(** ** The number of rounds bounds what an EVSE gets

    With the default slices, an EVSE that may draw 63 A behind a fuse of 63 A
    is given 55.5 A: 6 A in the first round and half an ampere in each of the
    99 rounds that are left. *)
Definition ampere_limits (max min : Q) : LimitsReq :=
  mkLimitsReq None (Some (Num max "max")) (Some (Num min "min")) None None None None.

Example round_limit_caps_current :
  map (fun l => Qred <$> (value <$> Res.ac_max_current_A l))
    (run_once default_config (one_evse (ampere_limits 63 0) (ampere_limits 63 6))) = [Some (111 # 2)%Q].
Proof. vm_compute. reflexivity. Qed.

(** ** A limit to one phase is exceeded

    Without a minimal current the first trade takes the number of active
    phases, three when it is not reported, whatever the limit is.  An export
    always has three phases. *)
Definition one_phase (max : Q) : LimitsReq :=
  mkLimitsReq None (Some (Num max "max")) None (Some (Int 1 "one phase")) None None None.

Example phase_limit_exceeded :
  map (fun l => ivalue <$> Res.ac_max_phase_count l)
    (run_once default_config (one_evse (one_phase 32) (one_phase 16))) = [Some 3].
Proof. vm_compute. reflexivity. Qed.

(** ** The one-way mode switches back to three phases

    "Oneway: Only switch from 3ph to 1ph if power is not enough, but never
    switch back to 3ph for a session": with one phase active, the maximum of
    three is taken as soon as no power limit is set. *)
Definition one_way : BrokerConfig := mkBrokerConfig Oneway DontChange 0 200 600.

Example one_way_switches_back g utc_now c k :
  (decide_phases g one_way 230 utc_now
    (mkLimitsReq None (Some (Num 16 "max")) (Some (Num 6 "min")) (Some (Int 3 "three")) (Some (Int 1 "one"))
       (Some true) (Some 1)) true (c, k)).1.1 = Int 3 "three".
Proof. reflexivity. Qed.

(** ** Below the minimal number of phases

    When the minimal current cannot be bought on three phases, one phase is
    tried although the request asks for at least three. *)
Definition three_phases (w : Q) : LimitsReq :=
  mkLimitsReq (Some (Num w "power")) (Some (Num 16 "max")) (Some (Num 6 "min"))
    (Some (Int 3 "three")) (Some (Int 3 "three")) None None.

Example fewer_phases_than_requested :
  map (fun l => ivalue <$> Res.ac_max_phase_count l)
    (run_once (mkEnergyManagerConfig 230 1 60 1 (1 # 2) 500 "Both" 0 "DontChange" 200 0)
       (one_evse (three_phases 2000) (three_phases 2000))) = [Some 1].
Proof. vm_compute. reflexivity. Qed.

(** ** The active slot at its beginning

    A slot is active after its time stamp and before the next one: at the very
    time stamp the search finds nothing, and the first slot is taken. *)
Example active_slot_at_boundary : active_slot 20 [10; 20; 30] = O /\ active_slot 21 [10; 20; 30] = 1%nat.
Proof. split; reflexivity. Qed.

(** ** Frequency tables

    Half way between two points that are two hertz apart, the full power of
    the second point is taken instead of the half. *)
Example freq_table_overshoots :
  (get_watt_from_freq_table [mkPoint 49 0; mkPoint 51 2000] 50 == 2000)%Q.
Proof. reflexivity. Qed.

(** ** Prices that start with the hour block an energy node

    The local schedule of a node starts at the full hour, and so does an
    hourly price schedule. *)
Definition hourly_prices : EnergyPriceSchedule :=
  mkEnergyPriceSchedule [] [mkPricePerkWh (at_ms 0) (30 # 100) "EUR"; mkPricePerkWh (at_ms 3600000) (25 # 100) "EUR"].

Example hourly_prices_block_node :
  node_history (mkEnergyNodeConfig 63 3) "fuse" 1 test_hour test_hour [price_schedule hourly_prices] = None.
Proof. vm_compute. reflexivity. Qed.
