(* ===== verification/EnergyProperties.v ===== *)
(** * The energy manager: what it guarantees

    The theorems on a run of the optimizer; the lemmas are in [EnergyRun] and
    the files before it. *)
From S2P Require Import Prelude Effects EnergyTypes EnergyMarket EnergyBroker.
From S2P Require Import EnergyManager EnergyProofs EnergyTree EnergyTrading EnergyRun.
From S2P Require Import EnergyMaximal EnergyTests.
From stdpp Require Import base tactics list numbers strings gmap sorting.
From Stdlib Require Import QArith Qminmax Lqa.
Open Scope Z_scope.

(** A configuration a station can run with. *)
Definition config_ok (config : EnergyManagerConfig) : bool :=
  Qle_bool 0 (c_slice_ampere config) && Qle_bool 0 (c_slice_watt config) &&
  Qle_bool 0 (c_nominal_ac_voltage config).

Lemma config_ok_spec config :
  config_ok config = true ->
  (0 <= c_slice_ampere config)%Q /\ (0 <= c_slice_watt config)%Q /\ (0 <= c_nominal_ac_voltage config)%Q.
Proof.
  unfold config_ok. intros [[H1 H2]%andb_true_iff H3]%andb_true_iff.
  split_and!; by apply Qle_bool_iff.
Qed.

(** C6: whatever the tree of requests, the limits a run of the optimizer
    enforces respect every node: for each node, in each direction, the power
    (and the current) assigned to all EVSEs below it together stays within
    what the node allows, now (the limits on the root side) and in every slot
    of the schedules. *)
Theorem evse_totals_within_limits `{Dates} config utc_now request start cs limits cs' p c q :
  config_ok config = true -> well_formed request = true -> evses_are_leaves request = true ->
  run_optimizer config utc_now request start cs = (limits, cs') ->
  request_at request p = Some c ->
  let g := run_globals config request start in
  let m := market_of g c (c_nominal_ac_voltage config) in
  let allowed i := within (slot_limit q (import_max_available m) i) (slot_limit q (export_max_available m) i) in
  allowed (current_slot config request start)
    (assigned_below request p (fun l => amount (traded_of q (limits_root_side l))) limits) /\
  forall i, allowed i (assigned_below request p (fun l => slot_amount q (schedule l) i) limits).
Proof.
  intros (Ha & Hw & HV)%config_ok_spec Hwf Hl Hrun Hc g m allowed. split; [|intros i]; subst allowed; simpl;
    (eapply run_within; [done|done|done|done|done|exact Hrun|done|]).
  - intros ms e l. apply enforced_amount.
  - intros ms e l (me & ce & s & Hme & _ & Hs & ->). by exists me.
Qed.

(** Two fuses of 32 A with two cars behind them: the cars get 24 A and 8 A. *)
Lemma evse_totals_within_limits_witness :
  let limits := (run_optimizer t1_0_config (fun _ => test_hour) t1_0_request test_hour (∅, O)).1 in
  let total := assigned_below t1_0_request [] (fun l => amount (traded_of Current (limits_root_side l))) limits in
  let m := market_of (run_globals t1_0_config t1_0_request test_hour) t1_0_request 230 in
  (total == 32)%Q /\
  within (slot_limit Current (import_max_available m) O) (slot_limit Current (export_max_available m) O) total.
Proof.
  split; [vm_compute; reflexivity|].
  refine (proj1 (evse_totals_within_limits t1_0_config (fun _ => test_hour) t1_0_request test_hour (∅, O) _ _
    [] t1_0_request Current _ _ _ (surjective_pairing _) _)); vm_compute; reflexivity.
Defined.

(** All time stamps of the tree are in whole milliseconds. *)
Definition all_whole_ms `{Dates} (request : EnergyFlowRequest) : bool :=
  forallb (fun t => t mod 1000000 =? 0) (add_timestamps request).

Lemma all_whole_ms_spec `{Dates} request :
  all_whole_ms request = true -> Forall whole_ms (add_timestamps request).
Proof.
  unfold all_whole_ms. rewrite forallb_forall. intros Hall. apply Forall_forall. intros t Ht.
  apply list_elem_of_In in Ht. specialize (Hall t Ht). apply Z.mod_divide; lia.
Qed.

(** Resampling the schedules of the tree to common time slots loses
    nothing: at every time of a slot, what a node makes available in the slot
    are the merged limits (root and leaves side) of the entry of its schedule
    that is valid at that time, the last one that has begun. *)
Theorem available_at_any_time `{DatesLaws} config request start p c s i ti t :
  all_whole_ms request = true -> request_at request p = Some c ->
  s = schedule_import c \/ s = schedule_export c -> chronological timestamp s ->
  let g := run_globals config request start in
  timestamps g !! i = Some ti -> ti <= t -> (forall t', timestamps g !! S i = Some t' -> t < t') ->
  match valid_entry timestamp t s with
  | Some e => exists a, get_max_available_energy g s !! i = Some a /\
      timestamp a = to_rfc3339 ti /\ limits_to_root a = merged_limits e no_limits_req /\
      price_per_kwh a = price_per_kwh e
  | None => s = []
  end.
Proof.
  intros Hwhole%all_whole_ms_spec Hc Hs Hchr g Hi Hle Hnext.
  rewrite (slot_entry timestamp s (timestamps g) i ti t); [|apply create_timestamps_sorted| |done|done|done].
  2: { intros e He. apply elem_of_create_timestamps. right. apply elem_of_add_timestamps.
       exists p, c. split; [done|]. unfold own_timestamps. rewrite !elem_of_app, !list_elem_of_fmap.
       destruct Hs as [->| ->]; eauto 6. }
  rewrite <- find_entry_valid by done.
  assert (from_rfc3339 (to_rfc3339 ti) = ti) as Eti.
  { apply from_to_rfc3339. eapply Forall_forall; [apply timestamps_whole; exact Hwhole|].
    eapply list_elem_of_lookup_2, Hi. }
  assert (empty_schedule_req g !! i = Some (empty_req_entry (to_rfc3339 ti))) as Ei.
  { subst g. unfold run_globals, globals_init, create_empty_schedule in *.
    cbn [empty_schedule_req timestamps] in *. rewrite list_lookup_fmap, Hi. done. }
  destruct (find_entry timestamp ti s) as [e|] eqn:Ef.
  - unfold get_max_available_energy. rewrite list_lookup_fmap, Ei. simpl. rewrite Eti, Ef.
    eexists. done.
  - rewrite find_entry_valid in Ef by done. by destruct s.
Qed.

(** A schedule with an entry for every second: in the third one, from 13:08:38
    on, the leaves side is limited to 6 A. *)
Definition t4_limit : EnergyFlowRequest := default t4_request (request_at t4_request [0%nat; 0%nat]).

Lemma available_at_any_time_witness :
  let g := run_globals t4_config t4_request test_hour in
  exists a e, get_max_available_energy g (schedule_import t4_limit) !! 3%nat = Some a /\
    valid_entry timestamp (test_hour + seconds 519) (schedule_import t4_limit) = Some e /\
    limits_to_root a = merged_limits e no_limits_req /\
    value <$> ac_max_current_A (limits_to_root a) = Some 6%Q.
Proof.
  assert (all_whole_ms t4_request = true) as H1 by (vm_compute; reflexivity).
  assert (request_at t4_request [0%nat; 0%nat] = Some t4_limit) as H2 by (vm_compute; reflexivity).
  assert (chronological timestamp (schedule_import t4_limit)) as H3
    by (repeat constructor; vm_compute; discriminate).
  assert (timestamps (run_globals t4_config t4_request test_hour) !! 3%nat = Some (test_hour + 518479 * 1000000)) as H4
    by (vm_compute; reflexivity).
  assert (timestamps (run_globals t4_config t4_request test_hour) !! 4%nat = Some (test_hour + 519479 * 1000000)) as H5
    by (vm_compute; reflexivity).
  pose proof (available_at_any_time t4_config t4_request test_hour _ t4_limit _ 3 _ (test_hour + seconds 519)
    H1 H2 (or_introl eq_refl) H3 H4) as Hex.
  destruct (valid_entry timestamp (test_hour + seconds 519) (schedule_import t4_limit)) as [e|] eqn:Ee;
    [|by vm_compute in Ee].
  destruct Hex as (a & Ha & _ & Hl & _); [vm_compute; discriminate| |].
  { intros t' Ht'. rewrite H5 in Ht'. injection Ht' as <-. vm_compute. reflexivity. }
  exists a, e. split; [exact Ha|]. split; [reflexivity|]. split; [exact Hl|].
  rewrite Hl. vm_compute in Ee. injection Ee as <-. vm_compute. reflexivity.
Defined.

(** ** Frequency tables *)

Lemma freq_table_loop_prefix pre table f watt1 watt2 freq1 e1 :
  Forall (fun e => frequency_Hz e <= f)%Q (pre ++ [e1]) ->
  freq_table_loop (pre ++ e1 :: table) f watt1 watt2 freq1 =
    freq_table_loop table f (point_power_W e1) (point_power_W e1) (frequency_Hz e1).
Proof.
  revert watt1 watt2 freq1. induction pre as [|e pre IH]; intros watt1 watt2 freq1 Hpre; simpl.
  - apply Forall_cons in Hpre as [He _]. by destruct (Qlt_bool_cases f (frequency_Hz e1)); [lra|].
  - apply Forall_cons in Hpre as [He Hpre]. destruct (Qlt_bool_cases f (frequency_Hz e)); [lra|].
    by rewrite IH.
Qed.

(** The value of a frequency-watt curve between two of its points. *)
Definition interpolate (e1 e2 : FrequencyWattPoint) (f : Q) : Q :=
  (point_power_W e1 + (f - frequency_Hz e1) / (frequency_Hz e2 - frequency_Hz e1) *
     (point_power_W e2 - point_power_W e1))%Q.

(** Between two points of a frequency table, [get_watt_from_freq_table]
    is the linear interpolation exactly when the points are one hertz apart
    (or the frequency is that of the first point, or the curve is flat): the
    slope is not divided by the distance of the points. *)
Theorem freq_table_interpolates_iff pre e1 e2 post f :
  Forall (fun e => frequency_Hz e <= f)%Q (pre ++ [e1]) -> (f < frequency_Hz e2)%Q ->
  (get_watt_from_freq_table (pre ++ e1 :: e2 :: post) f == interpolate e1 e2 f)%Q <->
  (frequency_Hz e2 - frequency_Hz e1 == 1 \/ f == frequency_Hz e1 \/ point_power_W e1 == point_power_W e2)%Q.
Proof.
  intros Hpre Hf.
  assert (frequency_Hz e1 <= f)%Q as He1.
  { apply Forall_app in Hpre as [_ He1]. by apply Forall_cons in He1 as [? _]. }
  assert (get_watt_from_freq_table (pre ++ e1 :: e2 :: post) f ==
    point_power_W e1 + (f - frequency_Hz e1) * (point_power_W e2 - point_power_W e1))%Q as ->.
  { assert (exists e e' rest, pre ++ e1 :: e2 :: post = e :: e' :: rest) as (e & e' & rest & E).
    { destruct pre as [|? [|? ?]]; simpl; eauto. }
    unfold get_watt_from_freq_table. rewrite E, <- E. rewrite freq_table_loop_prefix by done.
    simpl. destruct (Qlt_bool_cases f (frequency_Hz e2)); [done|lra]. }
  unfold interpolate. set (d := (frequency_Hz e2 - frequency_Hz e1)%Q).
  set (x := (f - frequency_Hz e1)%Q). set (w := (point_power_W e2 - point_power_W e1)%Q).
  assert (0 < d)%Q as Hd by (subst d; lra).
  assert (x / d * d == x)%Q as Hx by (field; lra).
  assert ((f == frequency_Hz e1 <-> x == 0) /\ (point_power_W e1 == point_power_W e2 <-> w == 0))%Q as [-> ->]
    by (subst x w; split; split; intros; lra).
  split.
  - intros E. assert (x * w * (d - 1) == 0)%Q as E0.
    { assert (x * w == x / d * w)%Q as E' by lra.
      transitivity (d * (x * w) - x * w)%Q; [ring|]. rewrite E' at 1.
      transitivity ((x / d * d) * w - x * w)%Q; [ring|]. rewrite Hx. ring. }
    apply Qmult_integral in E0 as [E0|E0]; [|left; lra].
    apply Qmult_integral in E0 as [?|?]; tauto.
  - intros [E|[E|E]].
    + rewrite E. field.
    + rewrite E. field. lra.
    + rewrite E. ring.
Qed.

(** At 50.5 Hz, between points at 50 Hz and 51 Hz. *)
Lemma freq_table_interpolates_iff_witness :
  (get_watt_from_freq_table [mkPoint 49 0; mkPoint 50 1000; mkPoint 51 3000] (505 # 10) ==
   interpolate (mkPoint 50 1000) (mkPoint 51 3000) (505 # 10))%Q.
Proof.
  apply (freq_table_interpolates_iff [mkPoint 49 0] (mkPoint 50 1000) (mkPoint 51 3000) []);
    [repeat constructor; discriminate|reflexivity|]. left. reflexivity.
Defined.

(** ** When the trading ends *)

(** C34: when the trading of a run ends before its limit of rounds, every
    EVSE has got what it can: in each time slot the rest that is left for it on
    the way to the root is used up (in the direction its slot trades), or does
    not allow its minimal current. *)
Theorem trading_ends_satisfied `{Dates} config utc_now request start cs bs0 cs0 ms0 bs cs' ms :
  let g := run_globals config request start in
  start_trading config utc_now request start cs = (bs0, cs0, ms0) ->
  run_trading config utc_now request start cs = (bs, cs', ms) ->
  local_market <$> bs = get_list_of_evses request [] /\
  (trading_ends config utc_now g max_number_of_trading_rounds bs0 cs0 ms0 = true ->
   Forall (broker_satisfied g ms) bs).
Proof.
  intros g. subst g. intros Hst. unfold run_trading. rewrite Hst. unfold start_trading in Hst.
  pose proof (create_brokers_spec config utc_now request start cs) as [Hl _].
  pose proof (create_brokers_ready config utc_now (run_globals config request start)
    (create_market (run_globals config request start) request (c_nominal_ac_voltage config) [] ∅)
    (get_list_of_evses request []) cs) as Hready.
  injection Hst as Hst <-. rewrite Hst in Hready, Hl. simpl in Hl. intros Hrun.
  destruct (run_schedules_sized config request start) as (R1 & R2 & _).
  pose proof (trading_rounds_satisfied config utc_now _ R1 R2 max_number_of_trading_rounds bs0 cs0 _
    (markets_sized config request start) Hready) as Hsat.
  rewrite Hrun in Hsat. destruct Hsat as [Hp Hsat]. split; [|done]. by rewrite Hp.
Qed.

Lemma triple_eta {A B C} (x : A * B * C) : x = (x.1.1, x.1.2, x.2).
Proof. by destruct x as [[]]. Qed.

(** The trading of two cars behind one fuse ends, with nothing left. *)
Lemma trading_ends_satisfied_witness :
  let r := run_trading t1_0_config (fun _ => test_hour) t1_0_request test_hour (∅, O) in
  Forall (broker_satisfied (run_globals t1_0_config t1_0_request test_hour) r.2) r.1.1.
Proof.
  pose proof (trading_ends_satisfied t1_0_config (fun _ => test_hour) t1_0_request test_hour (∅, O) _ _ _ _ _ _
    (triple_eta _) (triple_eta _)) as [_ Hs].
  apply Hs. vm_compute. reflexivity.
Defined.
