(* ===== verification/EnergyNodeProperties.v ===== *)
(** * Energy nodes: the fuse holds, and when prices block a node

    A node publishes only schedules within its fuse, and with the energy
    manager this gives the guarantee the tree is built for.  The merge of
    prices into a schedule returns exactly when the two have no time stamp in
    common. *)
From S2P Require Import Prelude Effects EnergyTypes EnergyMarket EnergyBroker.
From S2P Require Import EnergyManager EnergyProofs EnergyTree EnergyTrading EnergyRun.
From S2P Require Import EnergyProperties EnergyTests EnergyNode.
From stdpp Require Import base tactics list numbers strings gmap sorting.
From Stdlib Require Import QArith Qminmax Lqa.
Open Scope Z_scope.

(** ** Merging prices *)

Section Merge.
Context `{Dates}.

Abbreviation stamps := (map (fun e => from_rfc3339 (timestamp e))).
Abbreviation price_stamps := (map (fun p => from_rfc3339 (p_timestamp p))).

(** A time stamp both schedules have. *)
Definition share (schedule : ScheduleReq) (price : list PricePerkWh) : Prop :=
  exists t, t ∈ stamps schedule /\ t ∈ price_stamps price.

Lemma merge_price_blocks fuel schedule price vs vp joined :
  StronglySorted Z.lt (stamps schedule) -> StronglySorted Z.lt (price_stamps price) ->
  share schedule price -> merge_price_loop fuel schedule price vs vp joined = None.
Proof.
  intros Hs Hp Hsh. revert schedule price vs vp joined Hs Hp Hsh.
  induction fuel as [|fuel IH]; intros schedule price vs vp joined Hs Hp (t & Ht & Ht'); [done|].
  destruct schedule as [|s schedule]; [by apply not_elem_of_nil in Ht|].
  destruct price as [|p price]; [by apply not_elem_of_nil in Ht'|].
  cbn [merge_price_loop]. simpl in Ht, Ht'. rewrite elem_of_cons in Ht, Ht'.
  inversion Hs as [|? ? Hs' Hls]; inversion Hp as [|? ? Hp' Hlp]; subst.
  rewrite Forall_forall in Hls, Hlp.
  destruct (Z.ltb_spec (from_rfc3339 (timestamp s)) (from_rfc3339 (p_timestamp p))) as [Hlt|Hge].
  { apply IH; [done|done|]. exists t. simpl. rewrite elem_of_cons. split; [|done].
    destruct Ht as [->|?]; [|done]. exfalso. destruct Ht' as [?|Ht']; [lia|]. specialize (Hlp _ Ht'). lia. }
  destruct (Z.ltb_spec (from_rfc3339 (p_timestamp p)) (from_rfc3339 (timestamp s))) as [Hlt|Hge'].
  { apply IH; [done|done|]. exists t. simpl. rewrite elem_of_cons. split; [done|].
    destruct Ht' as [->|?]; [|done]. exfalso. destruct Ht as [?|Ht]; [lia|]. specialize (Hls _ Ht). lia. }
  apply IH; [done|done|]. exists t. simpl. by rewrite !elem_of_cons.
Qed.

Lemma merge_price_ends fuel schedule price vs vp joined :
  ~ share schedule price -> (length schedule + length price < fuel)%nat ->
  is_Some (merge_price_loop fuel schedule price vs vp joined).
Proof.
  revert schedule price vs vp joined.
  induction fuel as [|fuel IH]; intros schedule price vs vp joined Hsh Hf; [lia|].
  destruct schedule as [|s schedule]; [by eexists|]. destruct price as [|p price]; [by eexists|].
  cbn [merge_price_loop]. simpl in Hf.
  destruct (Z.ltb_spec (from_rfc3339 (timestamp s)) (from_rfc3339 (p_timestamp p))) as [Hlt|Hge].
  { apply IH; [|simpl; lia]. intros (t & Ht & Ht'). apply Hsh. exists t. split; [by right|done]. }
  destruct (Z.ltb_spec (from_rfc3339 (p_timestamp p)) (from_rfc3339 (timestamp s))) as [Hlt|Hge'].
  { apply IH; [|simpl; lia]. intros (t & Ht & Ht'). apply Hsh. exists t. split; [done|by right]. }
  exfalso. apply Hsh. exists (from_rfc3339 (timestamp s)). split; [by left|].
  replace (from_rfc3339 (timestamp s)) with (from_rfc3339 (p_timestamp p)) by lia. by left.
Qed.
End Merge.

(** For schedules in chronological order, [merge_price_into_schedule]
    returns exactly when no price has the time stamp of an entry; when it
    returns, the schedule is the one it was given (the joined schedule is
    dropped), and otherwise its loop does not end, however long it runs. *)
Theorem merge_price_returns_iff `{Dates} (schedule : ScheduleReq) (price : list PricePerkWh) s p :
  StronglySorted Z.lt (map (fun e => from_rfc3339 (timestamp e)) (s :: schedule)) ->
  StronglySorted Z.lt (map (fun p => from_rfc3339 (p_timestamp p)) (p :: price)) ->
  (merge_price_into_schedule (s :: schedule) (p :: price) = Some (s :: schedule) <->
    ~ share (s :: schedule) (p :: price)) /\
  (share (s :: schedule) (p :: price) ->
    forall fuel, merge_price_loop fuel (s :: schedule) (p :: price) s p [] = None).
Proof.
  intros Hs Hp. split; [split|].
  - intros E Hsh. unfold merge_price_into_schedule in E. by rewrite merge_price_blocks in E.
  - intros Hsh. unfold merge_price_into_schedule.
    destruct (merge_price_ends (S (length (s :: schedule) + length (p :: price))) (s :: schedule) (p :: price) s p [] Hsh)
      as [j ->]; [lia|done].
  - intros Hsh fuel. by apply merge_price_blocks.
Qed.

(** Prices that start with the half hour do not block, hourly prices do. *)
Lemma merge_price_returns_iff_witness :
  let entry t := mkReqEntry (at_ms t) no_limits_req no_limits_req None None in
  let price t := mkPricePerkWh (at_ms t) (30 # 100) "EUR" in
  merge_price_into_schedule [entry 0; entry 7200000] [price 1800000; price 5400000] =
    Some [entry 0; entry 7200000] /\
  forall fuel, merge_price_loop fuel [entry 0] [price 0] (entry 0) (price 0) [] = None.
Proof.
  assert (forall a b, a < b -> StronglySorted Z.lt [a; b]) as Hab
    by (intros; constructor; [repeat constructor|repeat constructor; assumption]).
  intros entry price. split.
  - apply (merge_price_returns_iff [entry 7200000] [price 5400000] (entry 0) (price 1800000));
      [apply Hab; vm_compute; reflexivity|apply Hab; vm_compute; reflexivity|].
    intros (t & Ht & Ht'). vm_compute in Ht, Ht'. set_solver.
  - apply (merge_price_returns_iff [] [] (entry 0) (price 0)); [repeat constructor|repeat constructor|].
    exists (from_rfc3339 (at_ms 0)). split; left.
Defined.

(** ** The fuse *)

(** An entry within the limits of the node. *)
Definition fused (config : EnergyNodeConfig) (e : ScheduleReqEntry) : Prop :=
  (exists a, ac_max_current_A (limits_to_root e) = Some a /\ (value a <= fuse_limit_A config)%Q) /\
  (exists k, ac_max_phase_count (limits_to_root e) = Some k /\ ivalue k <= phase_count config).

Definition request_fused (config : EnergyNodeConfig) (r : EnergyFlowRequest) : Prop :=
  schedule_import r <> [] /\ Forall (fused config) (schedule_import r) /\
  schedule_export r <> [] /\ Forall (fused config) (schedule_export r).

Section Fuse.
Context `{Dates}.

Lemma add_fuse_fused n e : fused (n_config n) (add_fuse n e).
Proof.
  unfold add_fuse.
  set (e1 := match ac_max_current_A (limits_to_root e) with Some a => _ | None => _ end).
  assert (exists a, ac_max_current_A (limits_to_root e1) = Some a /\ (value a <= fuse_limit_A (n_config n))%Q) as Ha.
  { subst e1. destruct (ac_max_current_A (limits_to_root e)) as [a|] eqn:Ea;
      [destruct (Qlt_bool_cases (fuse_limit_A (n_config n)) (value a))|];
      (eexists; split; [done || exact Ea|]); simpl; lra. }
  destruct (ac_max_phase_count (limits_to_root e1)) as [k|] eqn:Ek;
    [destruct (Z.ltb_spec (phase_count (n_config n)) (ivalue k))|];
    (split; [exact Ha|]); (eexists; split; [done || exact Ek|]); simpl; lia.
Qed.

Lemma local_fused n tp : Forall (fused (n_config n)) (get_local_schedule n tp).
Proof. constructor; [|constructor]. split; eexists; (split; [done|]); simpl; [lra|lia]. Qed.

Lemma with_fuse_fused n tp s : with_fuse n tp s <> [] /\ Forall (fused (n_config n)) (with_fuse n tp s).
Proof.
  destruct s as [|e s]; simpl; [split; [done|apply local_fused]|]. split; [done|].
  constructor; [apply add_fuse_fused|]. apply Forall_map, Forall_true. intros. apply add_fuse_fused.
Qed.

Lemma merge_price_unchanged s p s' : merge_price_into_schedule s p = Some s' -> s' = s.
Proof.
  unfold merge_price_into_schedule. destruct s, p; intros E; try by injection E.
  destruct (merge_price_loop _ _ _ _ _ _); [|done]. by injection E.
Qed.

Lemma publish_fused n o :
  request_fused (n_config n) (n_request n) -> publish_complete_energy_object n = Some o ->
  forall r, publish_energy_flow_request r ∈ o -> r = n_request n.
Proof.
  intros Hn. unfold publish_complete_energy_object.
  assert (assign schedule_export (schedule_export (n_request n)) (n_request n) = n_request n) as Eta
    by by destruct (n_request n).
  destruct (schedule_export (n_request n)) as [|e s] eqn:Es;
    [|destruct (price_schedule_export (energy_pricing n)) as [|p ps]].
  - intros E r. simplify_eq. rewrite list_elem_of_singleton. congruence.
  - intros E r. simplify_eq. rewrite list_elem_of_singleton. congruence.
  - destruct (merge_price_into_schedule (e :: s) (p :: ps)) as [s'|] eqn:Em; [|done]. simpl.
    apply merge_price_unchanged in Em as ->. intros E r. simplify_eq.
    rewrite list_elem_of_singleton. rewrite Eta. congruence.
Qed.

Lemma node_step_fused ev n n' o :
  request_fused (n_config n) (n_request n) -> node_step ev n = Some (n', o) ->
  n_config n' = n_config n /\ request_fused (n_config n) (n_request n') /\
  forall r, publish_energy_flow_request r ∈ o -> request_fused (n_config n) r.
Proof.
  intros Hn. assert (forall n1, n_config n1 = n_config n -> request_fused (n_config n) (n_request n1) ->
    (publish_complete_energy_object n1 ≫= fun o0 => Some (n1, o0)) = Some (n', o) ->
    n_config n' = n_config n /\ request_fused (n_config n) (n_request n') /\
    forall r, publish_energy_flow_request r ∈ o -> request_fused (n_config n) r) as Hpub.
  { intros n1 Ec Hn1. destruct (publish_complete_energy_object n1) as [o0|] eqn:Eo; [|done].
    intros E. simplify_eq/=. split_and!; [done|done|]. intros r Hr.
    rewrite <- Ec in Hn1. rewrite (publish_fused _ _ Hn1 Eo r Hr). by rewrite <- Ec. }
  destruct ev; simpl; try by apply Hpub.
  - intros E. simplify_eq. split_and!; [done| |by intros r ?%not_elem_of_nil].
    destruct (with_fuse_fused n tp_import (x_schedule_import l)).
    destruct (with_fuse_fused n tp_export (x_schedule_export l)). by split_and!.
  - intros E. simplify_eq. split_and!; [done|done|]. intros r Hr. exfalso. revert Hr.
    unfold handle_enforce_limits. case_match.
    + by intros ?%list_elem_of_singleton.
    + by intros (k & ? & _)%list_elem_of_fmap.
Qed.

Lemma run_node_fused evs n n' o :
  request_fused (n_config n) (n_request n) -> run_node evs n = Some (n', o) ->
  forall r, publish_energy_flow_request r ∈ o -> request_fused (n_config n) r.
Proof.
  revert n o. induction evs as [|ev evs IH]; intros n o Hn; simpl.
  { intros E. simplify_eq. by intros r ?%not_elem_of_nil. }
  destruct (node_step ev n) as [[n1 o1]|] eqn:E1; [|done]. simpl.
  destruct (run_node evs n1) as [[n2 o2]|] eqn:E2; [|done]. simpl. intros E r. simplify_eq.
  destruct (node_step_fused ev n n1 o1 Hn E1) as (Ec & Hn1 & Hr1). rewrite <- Ec in Hn1.
  intros [Hr|Hr]%elem_of_app; [by apply Hr1|]. rewrite <- Ec. by eapply IH.
Qed.

Lemma node_history_fused config id k ti te evs n o r :
  node_history config id k ti te evs = Some (n, o) -> publish_energy_flow_request r ∈ o ->
  request_fused config r.
Proof.
  unfold node_history. set (n0 := init_node config id k ti te).
  assert (request_fused (n_config n0) (n_request n0)) as Hn0.
  { pose proof (local_fused (mkEnergyNode config id k
      (mkRequest id Generic None None None None None [] [] [] []) (mkEnergyPriceSchedule [] []))) as Hl.
    split_and!; [done|apply Hl|done|apply Hl]. }
  destruct (run_node evs n0) as [[n1 o1]|] eqn:E1; [|done]. simpl. intros E. simplify_eq.
  intros [Hr|Hr]%elem_of_cons.
  - simplify_eq. exact Hn0.
  - by apply (run_node_fused _ _ _ _ Hn0 E1).
Qed.
End Fuse.

(** ** The fuse and the energy manager *)

(** A limit that is set and at most [c]. *)
Definition capped (c : Q) (l : option NumberWithSource) : Prop := exists a, l = Some a /\ (value a <= c)%Q.

Section Composition.
Context `{Dates} (c : Q) (c_nonneg : (0 <= c)%Q).

Lemma capped_min a b : capped c b -> capped c (min_optional a b).
Proof.
  intros (y & -> & Hy). destruct a as [x|]; simpl; [|by exists y].
  destruct (Qlt_bool_cases (value x) (value y)); [|by exists y]. exists x. split; [done|lra].
Qed.

Lemma capped_setpoint v src i e :
  capped c i -> capped c e ->
  capped c (apply_setpoint_value v src i e).1 /\ capped c (apply_setpoint_value v src i e).2.
Proof.
  assert (forall l x, capped c l -> capped c (apply_limit_if_smaller l x src)) as Hs.
  { intros l x (a & -> & Ha). simpl. destruct (Qlt_bool_cases x (value a)); eexists; (split; [done|]); simpl; lra. }
  assert (capped c (Some (Num 0 src))) by by eexists.
  intros Hi He. unfold apply_setpoint_value. destruct (Qle_bool_cases 0 v); simpl; auto.
Qed.

Lemma capped_apply_setpoint sp f i e :
  capped c (ac_max_current_A i) -> capped c (ac_max_current_A e) ->
  capped c (ac_max_current_A (apply_setpoint sp f i e).1) /\
  capped c (ac_max_current_A (apply_setpoint sp f i e).2).
Proof.
  intros Hi He. unfold apply_setpoint.
  destruct (sp_ac_current_A sp) as [a|].
  { pose proof (capped_setpoint a (sp_source sp) _ _ Hi He) as Hsp.
    by destruct (apply_setpoint_value _ _ _ _). }
  repeat case_match; simplify_eq/=; done.
Qed.

Abbreviation all_capped := (Forall (fun e => capped c (ac_max_current_A (limits_to_root e)))).

Lemma capped_setpoints imp exp sps f :
  all_capped imp -> all_capped exp ->
  all_capped (apply_setpoints imp exp sps f).1 /\ all_capped (apply_setpoints imp exp sps f).2.
Proof.
  unfold apply_setpoints. case_decide; [done|]. case_decide; [done|].
  assert (forall imp exp sps, all_capped imp -> all_capped exp ->
    all_capped (apply_setpoints_loop imp exp sps f).1 /\ all_capped (apply_setpoints_loop imp exp sps f).2)
    as Hloop; [|apply Hloop]. clear -c_nonneg.
  induction imp as [|i imp IH]; intros exp sps Hi He; [by destruct exp, sps|].
  destruct exp as [|e exp], sps as [|s sps]; try done. simpl.
  apply Forall_cons in Hi as [Hi Hi'], He as [He He']. destruct (IH exp sps Hi' He') as [H1 H2].
  destruct (apply_setpoints_loop imp exp sps f) as [imp' exp']. simpl in *.
  destruct (setpoint s) as [v|]; simpl; [|split; by constructor].
  destruct (capped_apply_setpoint v f _ _ Hi He) as [Hv1 Hv2].
  destruct (apply_setpoint v f _ _) as [li le]. simpl in *. split; by constructor.
Qed.

Lemma find_entry_some {T} (stamp : T -> string) t s : s <> [] -> is_Some (find_entry stamp t s).
Proof.
  unfold find_entry. generalize true. induction s as [|r s IH]; intros b Hs; [done|].
  destruct s as [|r2 s]; [by eexists|]. rewrite find_entry_from_cons. case_match; [by eexists|].
  by apply IH.
Qed.

Lemma capped_available g s :
  s <> [] -> Forall (fun e => capped c (ac_max_current_A (limits_to_root e))) s ->
  all_capped (get_max_available_energy g s).
Proof.
  intros Hne Hs. unfold get_max_available_energy. apply Forall_map, Forall_true. intros a.
  destruct (find_entry_some timestamp (from_rfc3339 (timestamp a)) s Hne) as [e He]. rewrite He. simpl.
  apply find_entry_elem in He. rewrite Forall_forall in Hs. by apply capped_min, Hs.
Qed.

Lemma capped_market config g r V :
  c = fuse_limit_A config -> request_fused config r ->
  all_capped (import_max_available (market_of g r V)) /\ all_capped (export_max_available (market_of g r V)).
Proof.
  intros Ec (Hi & Fi & He & Fe).
  assert (forall s, s <> [] -> Forall (fused config) s ->
    all_capped (match s with [] => zero_schedule_req g | _ => get_max_available_energy g s end)) as Hmax.
  { intros s Hne Hs. destruct s as [|e s]; [done|]. apply capped_available; [done|].
    eapply Forall_impl; [exact Hs|]. intros x [Hx _]. by rewrite Ec. }
  unfold market_of.
  pose proof (capped_setpoints _ _ (match schedule_setpoints r with
      | [] => empty_schedule_setpoints g | s => resample g s end) (measured_frequency r)
    (Hmax _ Hi Fi) (Hmax _ He Fe)) as Hsp.
  by destruct (apply_setpoints _ _ _ _).
Qed.

Lemma capped_within imp exp x : capped c imp -> capped c exp -> within imp exp x -> (- c <= x <= c)%Q.
Proof.
  intros (a & -> & Ha) (b & -> & Hb) [Wi We].
  destruct (Qlt_le_dec 0 x) as [Hx|Hx].
  - specialize (Wi Hx a eq_refl). lra.
  - destruct (Qlt_le_dec x 0) as [Hx'|Hx']; [specialize (We Hx' b eq_refl); lra|lra].
Qed.
End Composition.

(** C5: the fuse holds.  Whatever happens at an energy node (external
    limits, prices, meter values, requests of its children), when a request it
    has published is part of the tree of a run of the energy manager, the
    currents this run enforces for all EVSEs below the node add up to at most
    its fuse limit, in each direction. *)
Theorem fuse_limit_holds `{Dates} config utc_now request start cs limits cs' p
    node_config id k ti te evs n o r :
  config_ok config = true -> well_formed request = true -> evses_are_leaves request = true ->
  node_history node_config id k ti te evs = Some (n, o) -> publish_energy_flow_request r ∈ o ->
  (0 <= fuse_limit_A node_config)%Q ->
  request_at request p = Some r ->
  run_optimizer config utc_now request start cs = (limits, cs') ->
  let total := assigned_below request p (fun l => amount (traded_of Current (limits_root_side l))) limits in
  (- fuse_limit_A node_config <= total <= fuse_limit_A node_config)%Q.
Proof.
  intros Hc Hwf Hl Hnode Hr Hf Hp Hrun total.
  apply (node_history_fused _ _ _ _ _ _ _ _ _ Hnode) in Hr.
  apply config_ok_spec in Hc as (Ha & Hwt & HV).
  pose proof (run_within config utc_now request start Ha Hwt HV Hwf Hl cs limits cs' p r Current
    (current_slot config request start) _ Hrun Hp
    (fun ms e l => enforced_amount config request start ms e l Current)) as Hw.
  destruct (run_current_slot config utc_now request start Ha Hwt HV Hwf cs limits cs' Hrun) as [Hnil|Hlen].
  { subst total. rewrite Hnil. unfold assigned_below. destruct (get_list_of_evses request []); simpl; lra. }
  destruct (capped_market _ Hf node_config (run_globals config request start) r (c_nominal_ac_voltage config)
    eq_refl Hr) as [Ci Ce].
  eapply (capped_within _ Hf); [| |exact Hw]; unfold slot_limit.
  - destruct (lookup_lt_is_Some_2 (import_max_available (market_of (run_globals config request start) r
      (c_nominal_ac_voltage config))) (current_slot config request start)) as [e He].
    { destruct (market_of_sized config request start r (c_nominal_ac_voltage config)) as (-> & _). done. }
    rewrite He. by eapply Forall_lookup_1 in Ci.
  - destruct (lookup_lt_is_Some_2 (export_max_available (market_of (run_globals config request start) r
      (c_nominal_ac_voltage config))) (current_slot config request start)) as [e He].
    { destruct (market_of_sized config request start r (c_nominal_ac_voltage config)) as (_ & -> & _). done. }
    rewrite He. by eapply Forall_lookup_1 in Ce.
Qed.

(** A fuse of 20 A: its node is given an external limit of 40 A and the request
    of a car that may draw 32 A. *)
Definition demo_car : EnergyFlowRequest :=
  mkRequest "evse" Evse None (Some Charging) None None None
    [mkReqEntry (at_ms 0) (mkLimitsReq None (Some (Num 32 "car")) (Some (Num 6 "car")) None None None None)
       no_limits_req None None] [] [] [].
Definition demo_events : list node_event :=
  [external_limits test_hour test_hour
     (mkExternalLimits
        [mkReqEntry (at_ms 0) (mkLimitsReq None (Some (Num 40 "grid")) None None None None None)
           no_limits_req None None] [] []);
   child_request demo_car].
Definition demo_history : EnergyNode * list node_output :=
  default (init_node (mkEnergyNodeConfig 20 3) "fuse" 1 test_hour test_hour, [])
    (node_history (mkEnergyNodeConfig 20 3) "fuse" 1 test_hour test_hour demo_events).

Lemma fuse_limit_holds_witness :
  let request := n_request demo_history.1 in
  let limits := (run_optimizer t1_0_config (fun _ => test_hour) request test_hour (∅, O)).1 in
  let total := assigned_below request [] (fun l => amount (traded_of Current (limits_root_side l))) limits in
  (total == 20)%Q /\ (- 20 <= total <= 20)%Q.
Proof.
  split; [vm_compute; reflexivity|].
  refine (fuse_limit_holds t1_0_config (fun _ => test_hour) (n_request demo_history.1) test_hour (∅, O) _ _ []
    (mkEnergyNodeConfig 20 3) "fuse" 1 test_hour test_hour demo_events demo_history.1 demo_history.2
    (n_request demo_history.1) _ _ _ _ _ _ _ (surjective_pairing _)); try (vm_compute; reflexivity).
  - apply (list_elem_of_lookup_2 _ 1). vm_compute. reflexivity.
  - discriminate.
Defined.
