(* ===== verification/EvseManagerTypes.v ===== *)
(** * The EvseManager around the charger: data

    The state of [modules/EVSE/EvseManager/EvseManager.hpp] that the control
    of a DC power supply and the energy interface work on, the types of
    [types/power_supply_DC.yaml], [types/evse_board_support.yaml] and others
    they exchange, and the calls they make.  Numbers are rationals; a division
    by zero, which gives an infinite number in the source, is an exception
    here. *)
From S2P Require Import Prelude Effects EnergyTypes AuthTypes IECStateMachine ErrorHandling.
From S2P Require Import ChargerTypes.
From stdpp Require Import base tactics list numbers strings.
From Stdlib Require Import QArith Qabs.
Open Scope Z_scope.
Open Scope everest_scope.

(** ** Exchanged types *)

(** [types::power_supply_DC]. *)
Module Mode.
Inductive t : Set := Off | Export | Import | Fault.
End Mode.

Module ChargingPhase.
Inductive t : Set := Other | CableCheck | PreCharge | Charging.
#[global] Instance eq_dec : EqDecision t.
Proof. solve_decision. Defined.
Definition eqb (a b : t) : bool := bool_decide (a = b).
End ChargingPhase.

Record VoltageCurrent := mkVoltageCurrent { voltage_V : Q; current_A : Q }.

Record Capabilities := mkCapabilities {
  bidirectional : bool;
  current_regulation_tolerance_A : Q;
  peak_current_ripple_A : Q;
  max_export_voltage_V : Q;
  min_export_voltage_V : Q;
  max_export_current_A : Q;
  min_export_current_A : Q;
  max_export_power_W : Q;
  max_import_voltage_V : option Q;
  min_import_voltage_V : option Q;
  max_import_current_A : option Q;
  min_import_current_A : option Q;
  max_import_power_W : option Q;
  conversion_efficiency_import : option Q;
  conversion_efficiency_export : option Q
}.
#[global] Instance eta_Capabilities : Eta Capabilities := fun c =>
  mkCapabilities (bidirectional c) (current_regulation_tolerance_A c) (peak_current_ripple_A c)
    (max_export_voltage_V c) (min_export_voltage_V c) (max_export_current_A c)
    (min_export_current_A c) (max_export_power_W c) (max_import_voltage_V c)
    (min_import_voltage_V c) (max_import_current_A c) (min_import_current_A c)
    (max_import_power_W c) (conversion_efficiency_import c) (conversion_efficiency_export c).

(** [operator==] of the generated types. *)
Definition option_eqb {A} (eqb : A -> A -> bool) (a b : option A) : bool :=
  match a, b with
  | Some x, Some y => eqb x y
  | None, None => true
  | _, _ => false
  end.
(** A relation between numbers, between all numbers of two capabilities. *)
Definition capabilities_rel (r : Q -> Q -> bool) (a b : Capabilities) : bool :=
  Bool.eqb (bidirectional a) (bidirectional b)
  && r (current_regulation_tolerance_A a) (current_regulation_tolerance_A b)
  && r (peak_current_ripple_A a) (peak_current_ripple_A b)
  && r (max_export_voltage_V a) (max_export_voltage_V b)
  && r (min_export_voltage_V a) (min_export_voltage_V b)
  && r (max_export_current_A a) (max_export_current_A b)
  && r (min_export_current_A a) (min_export_current_A b)
  && r (max_export_power_W a) (max_export_power_W b)
  && option_eqb r (max_import_voltage_V a) (max_import_voltage_V b)
  && option_eqb r (min_import_voltage_V a) (min_import_voltage_V b)
  && option_eqb r (max_import_current_A a) (max_import_current_A b)
  && option_eqb r (min_import_current_A a) (min_import_current_A b)
  && option_eqb r (max_import_power_W a) (max_import_power_W b)
  && option_eqb r (conversion_efficiency_import a) (conversion_efficiency_import b)
  && option_eqb r (conversion_efficiency_export a) (conversion_efficiency_export b).
Definition capabilities_eqb : Capabilities -> Capabilities -> bool := capabilities_rel Qeq_bool.

(** [types::dc_external_derate::ExternalDerating]. *)
Record ExternalDerating := mkDerating {
  derate_max_export_current_A : option Q;
  derate_max_import_current_A : option Q;
  derate_max_export_power_W : option Q;
  derate_max_import_power_W : option Q
}.

(** [types::evse_board_support::HardwareCapabilities]. *)
Record HardwareCapabilities := mkHardwareCapabilities {
  max_current_A_import : Q;
  min_current_A_import : Q;
  max_phase_count_import : Z;
  min_phase_count_import : Z;
  max_current_A_export : Q;
  min_current_A_export : Q;
  max_phase_count_export : Z;
  min_phase_count_export : Z;
  supports_changing_phases_during_charging : bool;
  hw_connector_type : Connector_type.t
}.
#[global] Instance eta_HardwareCapabilities : Eta HardwareCapabilities := fun c =>
  mkHardwareCapabilities (max_current_A_import c) (min_current_A_import c)
    (max_phase_count_import c) (min_phase_count_import c) (max_current_A_export c)
    (min_current_A_export c) (max_phase_count_export c) (min_phase_count_export c)
    (supports_changing_phases_during_charging c) (hw_connector_type c).

(** [types::isolation_monitor::IsolationMeasurement]; only the resistance is
    read. *)
Record IsolationMeasurement := mkIsolationMeasurement { resistance_F_Ohm : Q }.

(** [types::iso15118]. *)
Module IsolationStatus.
Inductive t : Set := Invalid | Valid | Warning | Fault | No_IMD.
End IsolationStatus.

Module ServiceCategory.
Inductive t : Set :=
| AC | DC | WPT | DC_ACDP | AC_BPT | DC_BPT | DC_ACDP_BPT | Internet | ParkingStatus.
#[global] Instance eq_dec : EqDecision t.
Proof. solve_decision. Defined.
End ServiceCategory.

Module EnergyTransferMode.
Inductive t : Set :=
| AC_single_phase_core | AC_two_phase | AC_three_phase_core | DC_core | DC_extended
| DC_combo_core | DC_unique | DC | AC_BPT | AC_BPT_DER | AC_DER | DC_BPT | DC_ACDP
| DC_ACDP_BPT | WPT.
#[global] Instance eq_dec : EqDecision t.
Proof. solve_decision. Defined.
End EnergyTransferMode.

(** [types::units::Power]. *)
Record Power := mkPower { total : Q; power_L1 : Q; power_L2 : option Q; power_L3 : option Q }.

Record DcEvTargetValues := mkTargetValues {
  dc_ev_target_voltage : Q;
  dc_ev_target_current : Q
}.
Record DcEvMaximumLimits := mkEvMaximumLimits {
  dc_ev_maximum_current_limit : option Q;
  dc_ev_maximum_power_limit : option Q;
  dc_ev_maximum_voltage_limit : option Q
}.
(** The values of a dynamic charge mode that the EvseManager reads. *)
Record DcChargeDynamicModeValues := mkDynamicValues {
  max_charge_power : Q;
  min_charge_power : Q;
  max_charge_current : Q;
  max_voltage : Q;
  min_voltage : Q;
  max_discharge_power : option Q;
  min_discharge_power : option Q;
  max_discharge_current : option Q
}.

(** The fields of [types::evse_manager::EVInfo] that the EvseManager reads. *)
Record EVInfo := mkEVInfo {
  present_voltage : option Q;
  present_current : option Q;
  target_voltage : option Q;
  target_current : option Q;
  maximum_current_limit : option Q;
  maximum_voltage_limit : option Q;
  maximum_power_limit : option Q
}.
#[global] Instance eta_EVInfo : Eta EVInfo := fun i =>
  mkEVInfo (present_voltage i) (present_current i) (target_voltage i) (target_current i)
    (maximum_current_limit i) (maximum_voltage_limit i) (maximum_power_limit i).
Definition no_ev_info : EVInfo := mkEVInfo None None None None None None None.

Module CarManufacturer.
Inductive t : Set := VolkswagenGroup | Tesla | Unknown.
End CarManufacturer.

(** [types::uk_random_delay::CountDown]. *)
Record CountDown := mkCountDown {
  countdown_s : Z;
  current_limit_after_delay_A : Q;
  current_limit_during_delay_A : Q;
  countdown_start_time : option string
}.

(** [VarContainer.hpp]: a queue of size one between two threads. *)
Record VarContainer (T : Type) := mkVar { data : T; unread_data : bool }.
Arguments mkVar {T}.
Arguments data {T}.
Arguments unread_data {T}.
(** [operator=] and [clear]; [wait_for] is in [CableCheck]. *)
Definition var_assign {T} (d : T) (_ : VarContainer T) : VarContainer T := mkVar d true.
Definition var_clear {T} (v : VarContainer T) : VarContainer T := mkVar (data v) false.

(** ** Configuration *)

Record EvseConf := mkEvseConf {
  connector_id : Z;
  conf_charge_mode : string;
  ac_nominal_voltage : Q;
  max_current_import_A : Q;
  max_current_export_A : Q;
  dc_isolation_voltage_V : Q;
  cable_check_enable_imd_self_test : bool;
  cable_check_wait_number_of_imd_measurements : Z;
  cable_check_wait_below_60V_before_finish : bool;
  hack_sleep_in_cable_check : Z;
  hack_sleep_in_cable_check_volkswagen : Z;
  hack_skoda_enyaq : bool;
  hack_present_current_offset : Q;
  hack_pause_imd_during_precharge : bool;
  hack_allow_bpt_with_iso2 : bool;
  hack_fix_hlc_integer_current_requests : bool;
  sae_j2847_2_bpt_enabled : bool;
  sae_j2847_2_bpt_mode : string;
  request_zero_power_in_idle : bool;
  uk_smartcharging_random_delay_at_any_change : bool;
  zero_power_ignore_pause : bool;
  zero_power_allow_ev_to_ignore_pause : bool
}.
Definition is_DC_mode (c : EvseConf) : bool := bool_decide (conf_charge_mode c = "DC").
Definition is_AC_mode (c : EvseConf) : bool := bool_decide (conf_charge_mode c = "AC").

(** ** State *)

(** The members of [energy_grid/energyImpl.hpp]. *)
Record energyImpl := mkEnergyImpl {
  energy_flow_request : EnergyFlowRequest;
  last_enforced_limits_ampere : Q;
  last_enforced_limits_watt : Q;
  last_target_voltage : Q;
  last_actual_voltage : Q;
  last_powersupply_capabilities : Capabilities;
  hw_caps : HardwareCapabilities;
  last_enforced_limit : Q;
  limit_when_random_delay_started : Q;
  charger_state : EvseState.t
}.
#[global] Instance eta_energyImpl : Eta energyImpl := fun e =>
  mkEnergyImpl (energy_flow_request e) (last_enforced_limits_ampere e)
    (last_enforced_limits_watt e) (last_target_voltage e) (last_actual_voltage e)
    (last_powersupply_capabilities e) (hw_caps e) (last_enforced_limit e)
    (limit_when_random_delay_started e) (charger_state e).

(** [has_imd] and [has_over_voltage_monitor]: whether these devices are
    connected.  [supply_last_exporting] and [dynamic_last_exporting] are the
    static variables [last_is_actually_exporting_to_grid] of
    [powersupply_DC_set] and of the handler of the dynamic charge mode.
    [pending_requests] counts the threads started to request energy. *)
Record evse_manager (M : Type) := mkEvseManager {
  em_charger : charger M;
  em_config : EvseConf;
  module_info_id : string;
  hlc_enabled : bool;
  has_imd : bool;
  has_over_voltage_monitor : bool;
  slac_enabled : bool;
  slac_unmatched : bool;
  powersupply_capabilities : Capabilities;
  dc_external_derate : ExternalDerating;
  hw_capabilities : HardwareCapabilities;
  supported_energy_transfers : list EnergyTransferMode.t;
  external_local_energy_limits : ExternalLimits;
  em_contactor_open : bool;
  isolation_measurement : VarContainer IsolationMeasurement;
  powersupply_measurement : VarContainer VoltageCurrent;
  selftest_result : VarContainer bool;
  latest_target_voltage : Q;
  latest_target_current : Q;
  powersupply_dc_is_on : bool;
  power_supply_DC_charging_phase : ChargingPhase.t;
  last_power_supply_DC_charging_phase : ChargingPhase.t;
  current_demand_active : bool;
  sae_bidi_active : bool;
  is_actually_exporting_to_grid : bool;
  supply_last_exporting : bool;
  dynamic_last_exporting : bool;
  selected_d20_energy_service : option ServiceCategory.t;
  ev_info : EVInfo;
  car_manufacturer : CarManufacturer.t;
  ac_nr_phases_active : Z;
  random_delay_enabled : bool;
  random_delay_running : bool;
  random_delay_start_time : Z;
  random_delay_end_time : Z;
  random_delay_max_duration : Z;
  timepoint_ready_for_charging : Z;
  energy_grid : energyImpl;
  pending_requests : nat
}.
Arguments mkEvseManager {M}.
Arguments em_charger {M}.
Arguments em_config {M}.
Arguments module_info_id {M}.
Arguments hlc_enabled {M}.
Arguments has_imd {M}.
Arguments has_over_voltage_monitor {M}.
Arguments slac_enabled {M}.
Arguments slac_unmatched {M}.
Arguments powersupply_capabilities {M}.
Arguments dc_external_derate {M}.
Arguments hw_capabilities {M}.
Arguments supported_energy_transfers {M}.
Arguments external_local_energy_limits {M}.
Arguments em_contactor_open {M}.
Arguments isolation_measurement {M}.
Arguments powersupply_measurement {M}.
Arguments selftest_result {M}.
Arguments latest_target_voltage {M}.
Arguments latest_target_current {M}.
Arguments powersupply_dc_is_on {M}.
Arguments power_supply_DC_charging_phase {M}.
Arguments last_power_supply_DC_charging_phase {M}.
Arguments current_demand_active {M}.
Arguments sae_bidi_active {M}.
Arguments is_actually_exporting_to_grid {M}.
Arguments supply_last_exporting {M}.
Arguments dynamic_last_exporting {M}.
Arguments selected_d20_energy_service {M}.
Arguments ev_info {M}.
Arguments car_manufacturer {M}.
Arguments ac_nr_phases_active {M}.
Arguments random_delay_enabled {M}.
Arguments random_delay_running {M}.
Arguments random_delay_start_time {M}.
Arguments random_delay_end_time {M}.
Arguments random_delay_max_duration {M}.
Arguments timepoint_ready_for_charging {M}.
Arguments energy_grid {M}.
Arguments pending_requests {M}.
#[global] Instance eta_evse_manager {M} : Eta (evse_manager M) := fun s =>
  mkEvseManager (em_charger s) (em_config s) (module_info_id s) (hlc_enabled s) (has_imd s)
    (has_over_voltage_monitor s) (slac_enabled s) (slac_unmatched s) (powersupply_capabilities s)
    (dc_external_derate s) (hw_capabilities s) (supported_energy_transfers s) (external_local_energy_limits s)
    (em_contactor_open s) (isolation_measurement s) (powersupply_measurement s)
    (selftest_result s) (latest_target_voltage s) (latest_target_current s)
    (powersupply_dc_is_on s) (power_supply_DC_charging_phase s)
    (last_power_supply_DC_charging_phase s) (current_demand_active s) (sae_bidi_active s)
    (is_actually_exporting_to_grid s) (supply_last_exporting s) (dynamic_last_exporting s)
    (selected_d20_energy_service s) (ev_info s) (car_manufacturer s) (ac_nr_phases_active s)
    (random_delay_enabled s) (random_delay_running s) (random_delay_start_time s)
    (random_delay_end_time s) (random_delay_max_duration s) (timepoint_ready_for_charging s)
    (energy_grid s) (pending_requests s).

Coercion em_config : evse_manager >-> EvseConf.
Coercion energy_grid : evse_manager >-> energyImpl.

(** ** Outputs *)

Inductive em_output : Type :=
| charger_out (o : logged)
| psu_setMode (m : Mode.t) (phase : ChargingPhase.t)
| psu_setExportVoltageCurrent (voltage current : Q)
| psu_setImportVoltageCurrent (voltage current : Q)
| imd_call_start
| imd_call_stop
| imd_start_self_test (voltage : Q)
| ovm_start
| ovm_stop
| ovm_reset_over_voltage_error
| ovm_set_limits (emergency error : Q)
| hlc_cable_check_finished (status : bool)
| hlc_update_isolation_status (s : IsolationStatus.t)
| hlc_update_dc_present_values (voltage current : Q)
| hlc_update_dc_maximum_limits (l : DcEvseMaximumLimits)
| hlc_update_dc_minimum_limits (l : DcEvseMinimumLimits)
| hlc_set_powersupply_capabilities (c : Capabilities)
| hlc_set_charging_parameters (tolerance ripple energy : Q)
| hlc_update_ac_max_current (ampere : Q)
| hlc_update_ac_target_power (watt : Q)
| hlc_update_ac_maximum_limits (charge discharge : Power)
| hlc_update_ac_minimum_limits (charge discharge : Power)
| hlc_update_ac_parameters (frequency voltage : Q) (three_phases : bool)
| hlc_ac_contactor_closed (status : bool)
| hlc_reset_error
| hlc_stop_charging (stop : bool)
| hlc_pause_charging (pause : bool)
| hlc_send_error (e : EvseError.t)
| hlc_no_energy_pause_charging (allow_ignore : bool)
| slac_enter_bcd
| slac_leave_bcd
| slac_reset (enable : bool)
| slac_dlink_error
| slac_dlink_pause
| slac_dlink_terminate
| publish_ev_info (i : EVInfo)
| publish_hw_capabilities (c : HardwareCapabilities)
| publish_supported_energy_transfer_modes (l : list EnergyTransferMode.t)
| signalNrOfPhasesAvailable (n : Z)
| em_publish_enforced_limits (l : EnforcedLimits)
| em_publish_energy_flow_request (r : EnergyFlowRequest)
| publish_max_watt (watt : Q)
| publish_countdown (c : CountDown)
| log_isolation_measurement (ok : bool) (resistance : Q).

(** What the source throws or has no value for. *)
Inductive em_exn : Type :=
| bad_optional_access
| infinite_number
| modulo_by_zero.

Abbreviation EM M := (Eff (evse_manager M) em_output em_exn).
Abbreviation mod_state := (@eget (evse_manager _) em_output em_exn).

Section Actions.
Context {M : Type}.

Definition em_put (f : evse_manager M -> evse_manager M) : EM M unit := emodify f.
Definition em_emit (o : em_output) : EM M unit := eemit o.
Definition em_when (b : bool) (m : EM M unit) : EM M unit := if b then m else eret tt.
End Actions.
