(* ===== verification/EvseManager.v ===== *)
(** * The EvseManager around the charger: operations

    [modules/EVSE/EvseManager/EvseManager.cpp]: the DC power supply, the
    handlers of the high level communication, of the board and of the devices,
    the reactions to the signals of the charger, and the local limits of the
    energy interface.  The cable check is in [CableCheck], the energy interface
    in [EvseEnergy]. *)
From S2P Require Import Prelude Effects EnergyTypes AuthTypes IECStateMachine ErrorHandling.
From S2P Require Import IECProofs ChargerTypes Charger ChargerStateMachine EvseSystem.
From S2P Require Import EvseManagerTypes.
From stdpp Require Import base tactics list numbers strings.
From Stdlib Require Import QArith Qabs Qminmax.
Open Scope Z_scope.
Open Scope everest_scope.

(** ** Helpers *)

(** [std::min], [std::max] and the conversion to [int]. *)
Definition std_min (a b : Q) : Q := if Qltb b a then b else a.
Definition std_max (a b : Q) : Q := if Qltb a b then b else a.
Definition to_int (q : Q) : Z := Z.quot (Qnum q) (Zpos (Qden q)).

(** The two functions [min_optional]. *)
Definition min_optional (a b : option Q) : option Q :=
  match a, b with
  | Some x, Some y => Some (if Qltb y x then y else x)
  | Some x, None => Some x
  | None, _ => b
  end.
Definition min_with_optional (a : Q) (b : option Q) : Q :=
  match b with
  | Some y => if Qltb y a then y else a
  | None => a
  end.

Definition get_sane_default_power_supply_capabilities : Capabilities :=
  mkCapabilities false (1 # 2) (1 # 2) 60 0 0 0 0 None None None None None None None.

(** [almost_eq] of the anonymous namespace of [EvseManager.cpp]. *)
Definition almost_eq (a b : Q) : bool := Qle_bool (Qabs (a - b)) (1 # 1000000).

Definition CABLECHECK_CURRENT_LIMIT : Q := 2.
Definition CABLECHECK_INSULATION_FAULT_RESISTANCE_OHM : Q := 100000.
Definition CABLECHECK_SAFE_VOLTAGE : Q := 60.

Definition get_cable_check_voltage (ev_max_cpd evse_max_cpd : Q) : Q :=
  (if Qle_bool ev_max_cpd 500 then
     let v := if Qltb (ev_max_cpd + 50) 500 then ev_max_cpd + 50 else 500 in
     if Qltb evse_max_cpd v then evse_max_cpd else v
   else if Qltb ((11 # 10) * ev_max_cpd) evse_max_cpd then (11 # 10) * ev_max_cpd else evse_max_cpd)%Q.

Section EvseManager.
Context {M : Type} `{ErrorMonitor M}.

(** ** State that is read *)

Definition session_is_iso_d20_ac_bpt (s : evse_manager M) : bool :=
  bool_decide (selected_d20_energy_service s = Some ServiceCategory.AC_BPT).
Definition session_is_iso_d20_dc_bpt (s : evse_manager M) : bool :=
  bool_decide (selected_d20_energy_service s = Some ServiceCategory.DC_BPT).

(** The capabilities of the power supply under the external derating. *)
Definition get_powersupply_capabilities (s : evse_manager M) : Capabilities :=
  let derate := dc_external_derate s in
  update max_import_power_W (fun p => min_optional p (derate_max_import_power_W derate))
    (update max_export_power_W (fun p => min_with_optional p (derate_max_export_power_W derate))
      (update max_import_current_A (fun c => min_optional c (derate_max_import_current_A derate))
        (update max_export_current_A (fun c => min_with_optional c (derate_max_export_current_A derate))
          (powersupply_capabilities s)))).

Definition get_hw_capabilities (s : evse_manager M) : HardwareCapabilities := hw_capabilities s.
Definition get_ev_info (s : evse_manager M) : EVInfo := ev_info s.
Definition get_evse_max_hlc_limits (s : evse_manager M) : DcEvseMaximumLimits :=
  current_evse_max_limits (em_charger s).
Definition get_evse_min_hlc_limits (s : evse_manager M) : DcEvseMinimumLimits :=
  current_evse_min_limits (em_charger s).

Definition get_emergency_over_voltage_threshold (s : evse_manager M) : Q :=
  let ev_max_voltage := default 500%Q (maximum_voltage_limit (ev_info s)) in
  let negotiated_max_voltage :=
    std_min ev_max_voltage (max_export_voltage_V (get_powersupply_capabilities s)) in
  if Qltb 1000 negotiated_max_voltage then 1375%Q
  else if Qltb 850 negotiated_max_voltage then 1100%Q
  else if Qltb 750 negotiated_max_voltage then 935%Q
  else if Qltb 500 negotiated_max_voltage then 825%Q
  else 550%Q.
Definition get_error_over_voltage_threshold (s : evse_manager M) : Q :=
  default 500%Q (maximum_voltage_limit (ev_info s)).

Definition cable_check_should_exit (s : evse_manager M) : bool :=
  negb (EvseState.eqb (current_state (em_charger s)) EvseState.PrepareCharging).

(** ** Isolation monitor *)

Definition imd_stop : EM M unit :=
  let* s := mod_state in em_when (has_imd s) (em_emit imd_call_stop).
Definition imd_start : EM M unit :=
  let* s := mod_state in em_when (has_imd s) (em_emit imd_call_start).

Definition check_isolation_resistance_in_range (resistance : Q) : EM M bool :=
  if Qltb resistance CABLECHECK_INSULATION_FAULT_RESISTANCE_OHM then
    em_emit (log_isolation_measurement false resistance) ;;;
    em_emit (hlc_update_isolation_status IsolationStatus.Fault) ;;;
    eret false
  else
    em_emit (log_isolation_measurement true resistance) ;;;
    em_emit (hlc_update_isolation_status IsolationStatus.Valid) ;;;
    eret true.

(** ** The DC power supply *)

Definition powersupply_DC_on : EM M unit :=
  let* s := mod_state in
  em_when (negb (powersupply_dc_is_on s))
    (em_emit (psu_setMode Mode.Export (power_supply_DC_charging_phase s)) ;;;
     em_put (assign powersupply_dc_is_on true)).

Definition powersupply_DC_off : EM M unit :=
  let* s := mod_state in
  em_when (powersupply_dc_is_on s)
    (em_emit (psu_setMode Mode.Off (power_supply_DC_charging_phase s)) ;;;
     em_put (assign powersupply_dc_is_on false)) ;;;
  em_put (assign power_supply_DC_charging_phase ChargingPhase.Other).

(** Whether power may flow from the car to the grid in this session. *)
Definition bpt_allowed (s : evse_manager M) : bool :=
  hack_allow_bpt_with_iso2 s || sae_bidi_active s || session_is_iso_d20_dc_bpt s.

(** The current that is asked for, after the corrections for some cars. *)
Definition corrected_current (s : evse_manager M) (current : Q) : Q :=
  let offered := evse_maximum_current_limit (get_evse_max_hlc_limits s) in
  let current :=
    if hack_fix_hlc_integer_current_requests s
       && Qltb (offered - inject_Z (to_int current)) 1
    then offered else current in
  if sae_j2847_2_bpt_enabled s then Qabs current else current.

Definition at_most (limit : option Q) (current : Q) : Q :=
  match limit with
  | Some m => if Qltb m current then m else current
  | None => current
  end.
Definition at_least (limit : option Q) (current : Q) : Q :=
  match limit with
  | Some m => if Qltb current m then m else current
  | None => current
  end.

Definition powersupply_DC_set (voltage _current : Q) : EM M bool :=
  let* s := mod_state in
  let phase := power_supply_DC_charging_phase s in
  let charging_phase_changed :=
    negb (ChargingPhase.eqb (last_power_supply_DC_charging_phase s) phase) in
  em_put (assign last_power_supply_DC_charging_phase phase) ;;;
  let current := corrected_current s _current in
  let caps := get_powersupply_capabilities s in
  if bpt_allowed s && current_demand_active s && is_actually_exporting_to_grid s then
    em_when (negb (supply_last_exporting s) && powersupply_dc_is_on s)
      (em_emit (psu_setMode Mode.Import phase)) ;;;
    em_put (assign supply_last_exporting (is_actually_exporting_to_grid s)) ;;;
    match min_import_voltage_V caps, max_import_voltage_V caps with
    | Some lowest, Some highest =>
        if Qle_bool lowest voltage && Qle_bool voltage highest then
          em_emit (psu_setImportVoltageCurrent voltage
            (at_least (min_import_current_A caps) (at_most (max_import_current_A caps) current))) ;;;
          eret true
        else eret false
    | _, _ => eret false
    end
  else
    em_when (powersupply_dc_is_on s
             && (charging_phase_changed
                 || (bpt_allowed s && supply_last_exporting s && current_demand_active s)))
      (em_emit (psu_setMode Mode.Export phase) ;;;
       em_put (assign supply_last_exporting (is_actually_exporting_to_grid s))) ;;;
    if Qle_bool (min_export_voltage_V caps) voltage && Qle_bool voltage (max_export_voltage_V caps) then
      em_emit (psu_setExportVoltageCurrent voltage
        (at_least (Some (min_export_current_A caps)) (at_most (Some (max_export_current_A caps)) current))) ;;;
      eret true
    else eret false.

Definition apply_new_target_voltage_current : EM M unit :=
  let* s := mod_state in
  em_when (Qltb 0 (latest_target_voltage s))
    (powersupply_DC_set (latest_target_voltage s) (latest_target_current s) ;;; eret tt).

(** ** Capabilities *)

Definition set_external_derating (d : ExternalDerating) : EM M unit :=
  em_put (assign dc_external_derate d).

Definition update_powersupply_capabilities (caps : Capabilities) : EM M unit :=
  let* s := mod_state in
  em_when (negb (capabilities_eqb caps (powersupply_capabilities s)))
    (em_emit (hlc_set_powersupply_capabilities caps)) ;;;
  em_put (assign powersupply_capabilities caps) ;;;
  em_emit (hlc_set_charging_parameters (current_regulation_tolerance_A caps)
    (peak_current_ripple_A caps) 10000) ;;;
  em_emit (hlc_update_dc_minimum_limits (mkMinimumLimits (min_export_current_A caps)
    (min_export_voltage_V caps) (min_export_current_A caps * min_export_voltage_V caps) None None)).

Definition update_supported_energy_transfers (e : EnergyTransferMode.t) : EM M bool :=
  let* s := mod_state in
  if bool_decide (e ∈ supported_energy_transfers s) then eret false
  else em_put (update supported_energy_transfers (fun l => l ++ [e])) ;;; eret true.

(** The handler of [capabilities] of the power supply. *)
Definition on_powersupply_capabilities (caps : Capabilities) : EM M unit :=
  update_powersupply_capabilities caps ;;;
  let* dc := update_supported_energy_transfers EnergyTransferMode.DC in
  let* bpt := (if bidirectional caps then update_supported_energy_transfers EnergyTransferMode.DC_BPT
               else eret false) in
  let* s := mod_state in
  em_when (dc || bpt) (em_emit (publish_supported_energy_transfer_modes (supported_energy_transfers s))).

(** Power per phase on a number of phases. *)
Definition phase_power (per_phase : Q) (phases : Z) : Power :=
  mkPower (per_phase * inject_Z phases) per_phase
    (if 2 <=? phases then Some per_phase else None) (if phases =? 3 then Some per_phase else None).

Definition update_hlc_ac_parameters : EM M unit :=
  let* s := mod_state in
  let c := hw_capabilities s in
  let v := ac_nominal_voltage s in
  let imp := max_phase_count_import c in
  let exp := max_phase_count_export c in
  em_emit (hlc_update_ac_maximum_limits (phase_power (v * max_current_A_import c) imp)
    (phase_power (v * max_current_A_export c) exp)) ;;;
  em_emit (hlc_update_ac_minimum_limits (phase_power (v * min_current_A_import c) imp)
    (phase_power (v * min_current_A_export c) exp)) ;;;
  em_emit (hlc_update_ac_parameters 50 v (imp =? 3)).

(** ** Calls on the charger

    The signals of the charger are connected to handlers of the module, which
    run when the charger emits them; none of them touches the charger. *)

Definition reset_ev_info : EM M unit :=
  em_put (assign ev_info no_ev_info) ;;; em_emit (publish_ev_info no_ev_info).

(** The handler of [signal_max_current]. *)
Definition on_max_current (ampere : Q) : EM M unit :=
  let* s := mod_state in
  em_when (hlc_enabled s)
    match selected_d20_energy_service s with
    | None => if Qle_bool 0 ampere then em_emit (hlc_update_ac_max_current ampere)
              else ethrow bad_optional_access
    | Some ServiceCategory.AC | Some ServiceCategory.AC_BPT =>
        em_emit (hlc_update_ac_target_power
          (ampere * ac_nominal_voltage s * inject_Z (max_phase_count_import (hw_capabilities s))))
    | Some _ => eret tt
    end.

(** The handler of [signal_state], connected by the energy interface. *)
Definition on_charger_state (st : EvseState.t) : EM M unit :=
  em_put (update energy_grid (assign charger_state st)) ;;;
  em_when (EvseState.eqb st EvseState.WaitingForAuthentication || EvseState.eqb st EvseState.Finished)
    (em_put (update pending_requests S)).

Definition react (o : charger_output) : EM M unit :=
  let* s := mod_state in
  match o with
  | signal_dc_supply_off =>
      em_when (hlc_enabled s && is_DC_mode s) (powersupply_DC_off ;;; imd_stop)
  | signal_simple_event SessionEventEnum.SessionFinished => reset_ev_info
  | signal_session_started_event _ _ => reset_ev_info
  | signal_max_current a => on_max_current a
  | signal_state st => on_charger_state st
  | signal_slac_start => em_when (hlc_enabled s) (em_emit slac_enter_bcd)
  | signal_slac_reset => em_when (hlc_enabled s) (em_emit (slac_reset false))
  | signal_hlc_stop_charging => em_when (hlc_enabled s) (em_emit (hlc_stop_charging true))
  | signal_hlc_pause_charging => em_when (hlc_enabled s) (em_emit (hlc_pause_charging true))
  | signal_hlc_error e => em_when (hlc_enabled s) (em_emit (hlc_send_error e))
  | signal_hlc_no_energy_available =>
      em_when (hlc_enabled s && negb (zero_power_ignore_pause s))
        (em_emit (hlc_no_energy_pause_charging (zero_power_allow_ev_to_ignore_pause s)))
  | _ => eret tt
  end.

Definition react_all (os : list logged) : EM M unit :=
  efor os (fun o => em_emit (charger_out o) ;;; react o.1).

Definition charger_call {A} (m : CH M A) : EM M A := fun s =>
  match m (em_charger s) with
  | (Ok a, c, os) => (react_all os ;;; eret a) (assign em_charger c s)
  | (Err e, _, _) => match e with end
  end.

Definition error_handling_call (m : Eff (eh_state M) eh_output Empty_set unit) : EM M unit :=
  charger_call (error_call m).

(** ** Handlers of the board *)

(** The handler of [capabilities] of the board support package. *)
Definition on_bsp_capabilities (c : HardwareCapabilities) : EM M unit :=
  em_put (fun s =>
    assign hw_capabilities
      (update max_current_A_import (std_min (max_current_import_A s))
        (update max_current_A_export (std_min (max_current_export_A s)) c)) s) ;;;
  em_put (update ac_nr_phases_active
    (fun n => if n =? 0 then max_phase_count_import c else n)) ;;;
  em_put (update ac_nr_phases_active
    (fun n => if max_phase_count_import c <? n then min_phase_count_import c else n)) ;;;
  let* s := mod_state in
  em_emit (signalNrOfPhasesAvailable (ac_nr_phases_active s)) ;;;
  charger_call (bsp_call (iec_op_action (op_three_phases (negb (max_phase_count_import c =? 0))))) ;;;
  charger_call (set_connector_type (hw_connector_type c)) ;;;
  em_emit (publish_hw_capabilities c) ;;;
  em_when (is_AC_mode s && hlc_enabled s)
    (let* ac_1 := update_supported_energy_transfers EnergyTransferMode.AC_single_phase_core in
     let* ac_3 := (if max_phase_count_import c =? 3
                   then update_supported_energy_transfers EnergyTransferMode.AC_three_phase_core
                   else eret false) in
     let* s := mod_state in
     em_when (ac_1 || ac_3)
       (em_emit (publish_supported_energy_transfer_modes (supported_energy_transfers s))) ;;;
     update_hlc_ac_parameters).

(** What an event of the control pilot means for SLAC. *)
Definition forward_to_slac (event : CPEvent.t) : EM M unit :=
  match event with
  | CPEvent.EFtoBCD => em_emit slac_enter_bcd
  | CPEvent.BCDtoEF => em_emit slac_leave_bcd
  | CPEvent.CarPluggedIn =>
      em_put (assign car_manufacturer CarManufacturer.Unknown) ;;; em_emit slac_enter_bcd
  | CPEvent.CarUnplugged =>
      let* s := mod_state in
      em_emit slac_leave_bcd ;;;
      em_when (negb (slac_unmatched s)) (em_emit (slac_reset false))
  | _ => eret tt
  end.

Definition forget_target : EM M unit :=
  em_put (assign latest_target_voltage 0%Q) ;;; em_put (assign latest_target_current 0%Q).

Definition forward_to_hlc (event : CPEvent.t) : EM M unit :=
  match event with
  | CPEvent.CarPluggedIn =>
      em_emit hlc_reset_error ;;;
      em_emit (hlc_ac_contactor_closed false) ;;;
      em_emit (hlc_stop_charging false) ;;;
      forget_target
  | CPEvent.PowerOn =>
      em_put (assign em_contactor_open false) ;;; em_emit (hlc_ac_contactor_closed true)
  | CPEvent.PowerOff =>
      em_put (assign em_contactor_open true) ;;;
      forget_target ;;;
      em_emit (hlc_ac_contactor_closed false)
  | _ => eret tt
  end.

(** The handler of [signal_event] of the IEC state machine. *)
Definition on_bsp_event (w : world) (event : CPEvent.t) : EM M unit :=
  let* s := mod_state in
  em_when (slac_enabled s) (forward_to_slac event) ;;;
  em_when (has_over_voltage_monitor s && bool_decide (event = CPEvent.CarUnplugged))
    (em_emit ovm_reset_over_voltage_error) ;;;
  charger_call (process_event w event) ;;;
  em_when (hlc_enabled s) (forward_to_hlc event).

(** Something happens at the IEC state machine. *)
Definition em_board (w : world) (op : iec_op) : EM M unit :=
  let* s := mod_state in
  charger_call (bsp_call (iec_op_action op)) ;;;
  efor (events_of (run_out (iec_op_action op) (bsp (em_charger s)))) (on_bsp_event w).

(** ** Handlers of SLAC and the data link *)

Definition on_slac_state (st : string) : EM M unit :=
  let unmatched := bool_decide (st = "UNMATCHED") in
  charger_call (set_matching_started (negb unmatched)) ;;;
  em_put (assign slac_unmatched unmatched).

Definition on_dlink_error : EM M unit := charger_call dlink_error ;;; em_emit slac_dlink_error.
Definition on_dlink_pause : EM M unit := charger_call dlink_pause ;;; em_emit slac_dlink_pause.
Definition on_dlink_terminate : EM M unit :=
  em_put (assign selected_d20_energy_service None) ;;;
  charger_call dlink_terminate ;;;
  em_emit slac_dlink_terminate.

Definition on_selected_service (c : ServiceCategory.t) : EM M unit :=
  em_put (assign selected_d20_energy_service (Some c)).

(** ** Handlers of a DC session *)

(** [start_cable_check]; with an isolation monitor the check is a thread of
    its own ([CableCheck]). *)
Definition on_start_cable_check : EM M unit :=
  em_put (assign power_supply_DC_charging_phase ChargingPhase.CableCheck) ;;;
  let* s := mod_state in
  em_when (negb (has_imd s))
    (em_emit (hlc_update_isolation_status IsolationStatus.No_IMD) ;;;
     em_emit (hlc_cable_check_finished true)).

Definition on_start_pre_charge : EM M unit :=
  em_put (assign power_supply_DC_charging_phase ChargingPhase.PreCharge).

Definition on_current_demand_started : EM M unit :=
  em_put (assign power_supply_DC_charging_phase ChargingPhase.Charging) ;;;
  em_put (assign current_demand_active true) ;;;
  apply_new_target_voltage_current ;;;
  charger_call notify_currentdemand_started ;;;
  let* s := mod_state in em_when (has_over_voltage_monitor s) (em_emit ovm_start).

(** Both subscriptions to [current_demand_finished], in their order. *)
Definition on_current_demand_finished : EM M unit :=
  em_put (assign current_demand_active false) ;;;
  em_put (assign sae_bidi_active false) ;;;
  (let* s := mod_state in em_when (has_over_voltage_monitor s) (em_emit ovm_stop)) ;;;
  powersupply_DC_off.

Definition on_dc_open_contactor : EM M unit := powersupply_DC_off ;;; imd_stop.

(** [describe] is the text of the error for a resistance. *)
Definition on_isolation_measurement (describe : Q -> string) (m : IsolationMeasurement) : EM M unit :=
  let* s := mod_state in
  (if EvseState.eqb (current_state (em_charger s)) EvseState.Charging then
     let* ok := check_isolation_resistance_in_range (resistance_F_Ohm m) in
     em_when (negb ok)
       (error_handling_call (raise_isolation_resistance_fault (describe (resistance_F_Ohm m))))
   else eret tt) ;;;
  em_put (update isolation_measurement (var_assign m)).

Definition on_self_test_result (result : bool) : EM M unit :=
  em_put (update selftest_result (var_assign result)).

Definition on_voltage_current (m : VoltageCurrent) : EM M unit :=
  em_put (update powersupply_measurement (var_assign m)) ;;;
  let* s := mod_state in
  let voltage := if Qltb 0 (voltage_V m) then voltage_V m else 0%Q in
  let offset := (Qabs (current_A m) + hack_present_current_offset s)%Q in
  let current :=
    if Qltb 0 (hack_present_current_offset s)
    then (if Qle_bool 0 (current_A m) then offset else - offset)%Q
    else current_A m in
  em_when (hack_pause_imd_during_precharge s && Qltb 1000 (voltage_V m * Qabs (current_A m))) imd_start ;;;
  em_emit (hlc_update_dc_present_values voltage current) ;;;
  em_put (update ev_info (fun i =>
    assign present_current (Some current) (assign present_voltage (Some voltage) i))).

(** A target, once it has changed, is given to the power supply, which is
    switched on when the contactors are closed. *)
Definition apply_changed_target : EM M unit :=
  apply_new_target_voltage_current ;;;
  let* s := mod_state in
  em_when (negb (em_contactor_open s)) powersupply_DC_on ;;;
  em_put (fun s => update ev_info (fun i =>
    assign target_current (Some (latest_target_current s))
      (assign target_voltage (Some (latest_target_voltage s)) i)) s) ;;;
  let* s := mod_state in em_emit (publish_ev_info (ev_info s)).

(** The target of a car within its own limits and the limits of the EVSE;
    [None] is a current that is not finite. *)
Definition limited_target (s : evse_manager M) (v : DcEvTargetValues) : Q * option Q :=
  let ev := get_ev_info s in
  let current := at_most (maximum_current_limit ev) (dc_ev_target_current v) in
  let voltage := at_most (maximum_voltage_limit ev) (dc_ev_target_voltage v) in
  let limits := get_evse_max_hlc_limits s in
  let current := at_most (Some (evse_maximum_current_limit limits)) current in
  let actual_voltage := default voltage (present_voltage (ev_info s)) in
  (voltage,
   if Qltb (evse_maximum_power_limit limits) (current * actual_voltage)
   then if Qeq_bool actual_voltage 0 then None
        else Some (evse_maximum_power_limit limits / actual_voltage)%Q
   else Some current).

(** The handler of [dc_ev_target_voltage_current]. *)
Definition on_dc_ev_target (v : DcEvTargetValues) : EM M unit :=
  let* s := mod_state in
  if hack_skoda_enyaq s && (Qltb (dc_ev_target_voltage v) 300 || Qltb (dc_ev_target_current v) 0)
  then eret tt
  else
    match limited_target s v with
    | (_, None) => ethrow infinite_number
    | (voltage, Some current) =>
        em_when (negb (Qeq_bool voltage (latest_target_voltage s))
                 || negb (Qeq_bool current (latest_target_current s)))
          (em_put (assign latest_target_voltage voltage) ;;;
           em_put (assign latest_target_current current) ;;;
           apply_changed_target)
    end.

(** The smaller, and the larger, magnitude of two limits, when there are both. *)
Definition smaller_limit (a b : option Q) : Q :=
  match a, b with
  | Some x, Some y => if Qltb (Qabs y) (Qabs x) then Qabs y else Qabs x
  | _, _ => 0
  end.
Definition larger_limit (a b : option Q) : Q :=
  match a, b with
  | Some x, Some y => if Qltb (Qabs x) (Qabs y) then Qabs y else Qabs x
  | _, _ => 0
  end.

(** Minimal and maximal power and maximal current of the dynamic mode. *)
Definition dynamic_limits (s : evse_manager M) (v : DcChargeDynamicModeValues) : Q * Q * Q :=
  let highest := get_evse_max_hlc_limits s in
  let lowest := get_evse_min_hlc_limits s in
  if is_actually_exporting_to_grid s && current_demand_active s then
    (larger_limit (min_discharge_power v) (evse_minimum_discharge_power_limit lowest),
     smaller_limit (max_discharge_power v) (evse_maximum_discharge_power_limit highest),
     smaller_limit (max_discharge_current v) (evse_maximum_discharge_current_limit highest))
  else
    (if Qltb (evse_minimum_power_limit lowest) (min_charge_power v) then min_charge_power v
     else evse_minimum_power_limit lowest,
     std_min (max_charge_power v) (evse_maximum_power_limit highest),
     std_min (max_charge_current v) (evse_maximum_current_limit highest)).

(** The handler of [d20_dc_dynamic_charge_mode]. *)
Definition on_dc_dynamic (v : DcChargeDynamicModeValues) : EM M unit :=
  let* s := mod_state in
  let exporting := is_actually_exporting_to_grid s in
  let energy_flow_changed := negb (Bool.eqb exporting (dynamic_last_exporting s)) in
  em_put (assign dynamic_last_exporting exporting) ;;;
  let '(min_power, max_power, max_current) := dynamic_limits s v in
  if Qltb max_power min_power then eret tt
  else
    let voltage := if exporting
                   then std_max (min_voltage v) (evse_minimum_voltage_limit (get_evse_min_hlc_limits s))
                   else max_voltage v in
    let actual_voltage := default (latest_target_voltage s) (present_voltage (ev_info s)) in
    let current := if Qle_bool actual_voltage 0 then max_current
                   else std_min (max_power / actual_voltage) max_current in
    let target_changed := negb (almost_eq voltage (latest_target_voltage s)
                                && almost_eq current (latest_target_current s)) in
    em_when target_changed
      (em_put (assign latest_target_current current) ;;; em_put (assign latest_target_voltage voltage)) ;;;
    em_when (target_changed || energy_flow_changed) apply_changed_target.

Definition on_dc_ev_maximum_limits (l : DcEvMaximumLimits) : EM M unit :=
  em_put (update ev_info (fun i =>
    assign maximum_voltage_limit (dc_ev_maximum_voltage_limit l)
      (assign maximum_power_limit (dc_ev_maximum_power_limit l)
        (assign maximum_current_limit (dc_ev_maximum_current_limit l) i)))) ;;;
  let* s := mod_state in
  em_emit (publish_ev_info (ev_info s)) ;;;
  em_when (has_over_voltage_monitor s)
    (em_emit (ovm_set_limits (get_emergency_over_voltage_threshold s)
                (get_error_over_voltage_threshold s))).
End EvseManager.
