(* ===== verification/EvseEnergy.v ===== *)
(** * The energy interface of the EvseManager

    [energy_grid/energyImpl.cpp] with the local limits of [EvseManager.cpp]
    and [random_delay/uk_random_delayImpl.cpp]: what an EVSE asks the energy
    manager for, and how the limits it is given reach the charger, the car and
    the DC power supply.

    Each reading of the UTC clock in an operation is an argument of it. *)
From S2P Require Import Prelude Effects EnergyTypes EnergyNode IECStateMachine.
From S2P Require Import ErrorHandling ChargerTypes Charger ChargerStateMachine EvseSystem.
From S2P Require Import EvseManagerTypes EvseManager.
From stdpp Require Import base tactics list numbers strings.
From Stdlib Require Import QArith Qabs.
Open Scope Z_scope.
Open Scope everest_scope.

Definition to_energy_evse_state (s : EvseState.t) : EvseState :=
  match s with
  | EvseState.Disabled => Disabled
  | EvseState.Idle => Unplugged
  | EvseState.WaitingForAuthentication => WaitForAuth
  | EvseState.PrepareCharging => PrepareCharging
  | EvseState.WaitingForEnergy => WaitForEnergy
  | EvseState.Charging => Charging
  | EvseState.ChargingPausedEV => PausedEV
  | EvseState.ChargingPausedEVSE => PausedEVSE
  | EvseState.StoppingCharging => Finished
  | EvseState.Finished => Finished
  | EvseState.T_step_EF => PrepareCharging
  | EvseState.T_step_X1 => PrepareCharging
  | EvseState.SwitchPhases => Charging
  | EvseState.Replug => PrepareCharging
  end.

(** [almost_eq] and [voltage_changed] of [energyImpl.cpp]. *)
Definition almost_eq_float (a b : Q) : bool := Qltb (b - (1 # 10)) a && Qltb a (b + (1 # 10)).
Definition almost_eq_capabilities : Capabilities -> Capabilities -> bool :=
  capabilities_rel almost_eq_float.
Definition voltage_changed (a b : Q) : bool := Qltb 1 (Qabs (a - b)).

Definition detect_startup_with_ev_attached_duration : Z := 5000.

Section EvseEnergy.
Context {M : Type} `{ErrorMonitor M} `{Dates}.

Definition put_energy (f : energyImpl -> energyImpl) : EM M unit := em_put (update energy_grid f).
Definition put_request (f : EnergyFlowRequest -> EnergyFlowRequest) : EM M unit :=
  put_energy (update energy_flow_request f).

Definition source_bsp_caps (s : evse_manager M) : string :=
  module_info_id s +:+ "/evse_board_support_caps".
Definition source_psu_caps (s : evse_manager M) : string :=
  module_info_id s +:+ "/powersupply_dc_caps".

(** ** Local limits *)

Definition entry_at (utc : Z) (leaves : LimitsReq) : ScheduleReqEntry :=
  mkReqEntry (to_rfc3339 utc) no_limits_req leaves None None.

Definition update_max_watt_limit (s : evse_manager M) (utc : Z) (max_watt_export : Q)
    (max_watt_import : option Q) (l : ExternalLimits) : ExternalLimits :=
  let entry (watt : Q) := entry_at utc
    (assign total_power_W (Some (Num watt (module_info_id s +:+ " update_max_watt_limit"))) no_limits_req) in
  mkExternalLimits [entry max_watt_export] [entry (default 0%Q max_watt_import)] (x_schedule_setpoints l).

Definition update_max_current_limit (s : evse_manager M) (utc : Z)
    (max_current_import max_current_export : Q) (l : ExternalLimits) : ExternalLimits :=
  if is_DC_mode s then l
  else
    let entry (ampere : Q) := entry_at utc
      (assign ac_max_current_A (Some (Num ampere (module_info_id s +:+ " update_max_current_limit")))
        no_limits_req) in
    mkExternalLimits [entry max_current_import] [entry max_current_export] (x_schedule_setpoints l).

Definition update_local_energy_limit (l : ExternalLimits) : EM M unit :=
  em_put (assign external_local_energy_limits l).

Definition no_external_limits : ExternalLimits := mkExternalLimits [] [] [].

Definition get_local_energy_limits (s : evse_manager M) (utc : Z) : ExternalLimits :=
  match x_schedule_import (external_local_energy_limits s),
        x_schedule_export (external_local_energy_limits s) with
  | [], [] =>
      if is_AC_mode s
      then update_max_current_limit s utc (max_current_A_import (get_hw_capabilities s))
             (max_current_A_export (get_hw_capabilities s)) no_external_limits
      else update_max_watt_limit s utc (max_export_power_W (get_powersupply_capabilities s))
             (max_import_power_W (get_powersupply_capabilities s)) no_external_limits
  | _, _ => external_local_energy_limits s
  end.

Definition setup_v2h_mode (utc : Z) : EM M unit :=
  let* s := mod_state in
  let target := Num (default 0%Q (max_import_power_W (powersupply_capabilities s)))
                  (module_info_id s +:+ "/setup_v2h_mode") in
  update_local_energy_limit
    (mkExternalLimits [entry_at utc (assign total_power_W (Some (Num 0 "")) no_limits_req)]
       [entry_at utc (assign total_power_W (Some target) no_limits_req)] []).

(** The handler of [sae_bidi_mode_active]. *)
Definition on_sae_bidi_mode_active (utc : Z) : EM M unit :=
  em_put (assign sae_bidi_active true) ;;;
  let* s := mod_state in
  em_when (bool_decide (sae_j2847_2_bpt_mode s = "V2H")) (setup_v2h_mode utc).

(** ** Requests *)

(** The limits an entry starts with, from the capabilities of the board;
    [source] is empty for an import. *)
Definition board_limits (s : evse_manager M) (max_phase min_phase : Z) (max_A min_A : Q)
    (source : string) : LimitsReq :=
  mkLimitsReq None (Some (Num max_A source)) (Some (Num min_A source))
    (Some (Int max_phase source)) (Some (Int min_phase source))
    (Some (supports_changing_phases_during_charging (hw_caps s))) (Some (ac_nr_phases_active s)).

Definition hour_timestamp (utc : Z) : string :=
  to_rfc3339 (floor_hours utc + leap_seconds_elapsed utc).

Definition import_entry (s : evse_manager M) (utc : Z) : ScheduleReqEntry :=
  let c := hw_caps s in
  let caps := get_powersupply_capabilities s in
  mkReqEntry (hour_timestamp utc)
    (board_limits s (max_phase_count_import c) (min_phase_count_import c)
       (max_current_A_import c) (min_current_A_import c) "")
    (if is_DC_mode s
     then assign total_power_W (Some (Num (max_export_power_W caps)
            (module_info_id s +:+ "/clear_import_request_schedule"))) no_limits_req
     else no_limits_req)
    (if is_DC_mode s then conversion_efficiency_export caps else None) None.

Definition export_entry (s : evse_manager M) (utc : Z) : ScheduleReqEntry :=
  let c := hw_caps s in
  let caps := get_powersupply_capabilities s in
  mkReqEntry (hour_timestamp utc)
    (board_limits s (max_phase_count_export c) (min_phase_count_export c)
       (max_current_A_export c) (min_current_A_export c) (source_bsp_caps s))
    (if is_DC_mode s
     then assign total_power_W (Some (Num (default 0%Q (max_import_power_W caps)) (source_psu_caps s)))
            no_limits_req
     else no_limits_req)
    (if is_DC_mode s then conversion_efficiency_import caps else None) None.

Definition clear_import_request_schedule (utc : Z) : EM M unit :=
  let* s := mod_state in put_request (assign schedule_import [import_entry s utc]).
Definition clear_export_request_schedule (utc : Z) : EM M unit :=
  let* s := mod_state in put_request (assign schedule_export [export_entry s utc]).

(** Whether the charger is in a state that needs energy. *)
Definition needs_energy (s : evse_manager M) : bool :=
  match charger_state s with
  | EvseState.Charging | EvseState.PrepareCharging | EvseState.WaitingForEnergy
  | EvseState.WaitingForAuthentication | EvseState.ChargingPausedEV => true
  | _ => negb (request_zero_power_in_idle s)
  end.

(** In DC the leaves side is within the capabilities of the power supply. *)
Definition cap_leaves_power (limit : option Q) (source : string) (e : ScheduleReqEntry) : ScheduleReqEntry :=
  match total_power_W (limits_to_leaves e), limit with
  | Some w, Some m =>
      if Qltb m (value w)
      then update limits_to_leaves (assign total_power_W (Some (Num m source))) e else e
  | _, _ => e
  end.

(** The limits of the board on the root side of an entry.  [paused] is the
    value for a car that paused, when it is to replace the maximum. *)
Definition cap_root_limits (s : evse_manager M) (max_phase min_phase : Z) (max_A min_A : Q)
    (paused : option NumberWithSource) (l : LimitsReq) : LimitsReq :=
  let source := source_bsp_caps s in
  let highest := match paused with Some n => n | None => Num max_A source end in
  mkLimitsReq (total_power_W l)
    (match ac_max_current_A l with
     | Some a => if Qltb max_A (value a) then Some highest else Some a
     | None => Some highest
     end)
    (Some (Num min_A source))
    (match ac_max_phase_count l with
     | Some k => if max_phase <? ivalue k then Some (Int max_phase source) else Some k
     | None => Some (Int max_phase source)
     end)
    (Some (Int min_phase source))
    (Some (supports_changing_phases_during_charging (hw_caps s))) (Some (ac_nr_phases_active s)).

Definition cap_import (s : evse_manager M) (e : ScheduleReqEntry) : ScheduleReqEntry :=
  let c := hw_caps s in
  update limits_to_root (cap_root_limits s (max_phase_count_import c) (min_phase_count_import c)
    (max_current_A_import c) (min_current_A_import c)
    (if EvseState.eqb (charger_state s) EvseState.ChargingPausedEV && request_zero_power_in_idle s
     then Some (Num (min_current_A_import c) (source_bsp_caps s)) else None)) e.
Definition cap_export (s : evse_manager M) (e : ScheduleReqEntry) : ScheduleReqEntry :=
  let c := hw_caps s in
  update limits_to_root (cap_root_limits s (max_phase_count_export c) (min_phase_count_export c)
    (max_current_A_export c) (min_current_A_export c)
    (if EvseState.eqb (charger_state s) EvseState.ChargingPausedEV
     then Some (Num (min_current_A_export c) (source_bsp_caps s +:+ "_pause")) else None)) e.

(** For DC the ampere limit on the leaves side is removed. *)
Definition leaves_side (s : evse_manager M) (e : ScheduleReqEntry) : ScheduleReqEntry :=
  if is_DC_mode s then update limits_to_leaves (assign ac_max_current_A None) e else e.

(** The schedules of a request when energy is needed: those of the local
    limits, or what is there already when there are none. *)
Definition requested_import (s : evse_manager M) (utc : Z) (current : ScheduleReq) : ScheduleReq :=
  let base :=
    match x_schedule_import (get_local_energy_limits s utc) with
    | [] => current
    | l => if is_DC_mode s
           then map (cap_leaves_power (Some (max_export_power_W (get_powersupply_capabilities s)))
                       (source_psu_caps s)) l
           else l
    end in
  map (leaves_side s) (map (cap_import s) base).
Definition requested_export (s : evse_manager M) (utc : Z) (current : ScheduleReq) : ScheduleReq :=
  let base :=
    match x_schedule_export (get_local_energy_limits s utc) with
    | [] => current
    | l => if is_DC_mode s
           then map (cap_leaves_power (max_import_power_W (get_powersupply_capabilities s))
                       (source_bsp_caps s)) l
           else l
    end in
  map (leaves_side s) (map (cap_export s) base).

(** The first entry of a schedule asks for nothing on the leaves side. *)
Definition idle_leaves (s : evse_manager M) (l : ScheduleReq) : ScheduleReq :=
  match l with
  | e :: l' =>
      update limits_to_leaves
        (if is_DC_mode s then assign total_power_W (Some (Num 0 "Idle"))
         else assign ac_max_current_A (Some (Num 0 "Idle"))) e :: l'
  | [] => []
  end.

(** [utc] numbers the readings of the clock. *)
Definition request_energy_from_energy_manager (utc : nat -> Z) (priority : bool) : EM M unit :=
  clear_import_request_schedule (utc 0%nat) ;;;
  clear_export_request_schedule (utc 1%nat) ;;;
  let* s := mod_state in
  (if needs_energy s then
     put_request (fun r => assign schedule_import (requested_import s (utc 2%nat) (schedule_import r)) r) ;;;
     put_request (fun r => assign schedule_export (requested_export s (utc 3%nat) (schedule_export r)) r)
   else
     put_request (fun r => assign schedule_export (idle_leaves s (schedule_export r))
                             (assign schedule_import (idle_leaves s (schedule_import r)) r))) ;;;
  put_request (assign priority_request (Some priority)) ;;;
  put_request (assign evse_state (Some (to_energy_evse_state (charger_state s)))) ;;;
  let* s := mod_state in
  em_emit (em_publish_energy_flow_request (energy_flow_request s)).

(** [init] and [ready], and the thread that asks for energy every second. *)
Definition energy_init : EM M unit :=
  put_energy (assign charger_state EvseState.Disabled) ;;;
  let* s := mod_state in
  put_request (fun r => assign node_type Evse (assign uuid (module_info_id s) r)).

Definition energy_ready (utc : nat -> Z) : EM M unit :=
  let* s := mod_state in
  put_energy (fun e => assign last_powersupply_capabilities (get_powersupply_capabilities s)
                         (assign hw_caps (get_hw_capabilities s) e)) ;;;
  clear_import_request_schedule (utc 0%nat) ;;;
  clear_export_request_schedule (utc 1%nat) ;;;
  request_energy_from_energy_manager (fun n => utc (2 + n)%nat) true.

Definition energy_thread_round (utc : nat -> Z) : EM M unit :=
  let* s := mod_state in
  put_energy (assign hw_caps (get_hw_capabilities s)) ;;;
  request_energy_from_energy_manager utc false.

(** A thread started by [signal_state] runs. *)
Definition pending_request_runs (utc : nat -> Z) : EM M unit :=
  let* s := mod_state in
  match pending_requests s with
  | O => eret tt
  | S n => em_put (assign pending_requests n) ;;; request_energy_from_energy_manager utc true
  end.

Definition on_car_side_powermeter (p : Powermeter) : EM M unit :=
  put_request (assign energy_usage_leaves (Some p)).
Definition on_grid_side_powermeter (p : Powermeter) : EM M unit :=
  put_request (assign energy_usage_root (Some p)).

(** ** The random delay *)

Definition handle_enable : EM M unit :=
  em_put (assign random_delay_running false) ;;; em_put (assign random_delay_enabled true).
Definition handle_disable : EM M unit :=
  em_put (assign random_delay_running false) ;;; em_put (assign random_delay_enabled false).
Definition handle_cancel : EM M unit := em_put (assign random_delay_running false).
Definition handle_set_duration_s (v : Z) : EM M unit := em_put (assign random_delay_max_duration v).

(** A state in which a random delay makes sense. *)
Definition delay_state (st : EvseState.t) : bool :=
  match st with
  | EvseState.PrepareCharging | EvseState.Charging | EvseState.WaitingForAuthentication
  | EvseState.WaitingForEnergy => true
  | _ => false
  end.

Definition now_ms (s : evse_manager M) : Z := steady_clock (em_charger s).

Definition random_delay_needed (last_limit limit : Q) : EM M bool :=
  let* s := mod_state in
  if (if uk_smartcharging_random_delay_at_any_change s
      then negb (almost_eq_float last_limit limit)
      else almost_eq_float last_limit 0 && Qltb (1 # 10) limit
           || Qltb (1 # 10) last_limit && almost_eq_float limit 0)
  then eret true
  else if delay_state (charger_state s)
          && (now_ms s - timepoint_ready_for_charging s <? detect_startup_with_ev_attached_duration)
  then put_energy (assign last_enforced_limit 0%Q) ;;; eret true
  else eret false.

(** A delay begins; [rand] is the random number drawn. *)
Definition start_random_delay (utc rand : Z) : EM M unit :=
  em_put (assign random_delay_running true) ;;;
  em_put (assign random_delay_start_time utc) ;;;
  let* s := mod_state in
  (if random_delay_max_duration s =? 0 then ethrow modulo_by_zero
   else em_put (assign random_delay_end_time
                  (now_ms s + 1000 * Z.rem rand (random_delay_max_duration s)))) ;;;
  put_energy (fun e => assign limit_when_random_delay_started (last_enforced_limit e) e).

(** The limit that is applied while a delay may be running. *)
Definition delayed_limit (utc rand : Z) (limit : Q) : EM M Q :=
  let* s := mod_state in
  em_when (negb (delay_state (charger_state s))) (em_put (assign random_delay_running false)) ;;;
  let* s := mod_state in
  (if random_delay_running s then eret tt
   else let* needed := random_delay_needed (last_enforced_limit s) limit in
        em_when needed (start_random_delay utc rand)) ;;;
  let* s := mod_state in
  let during := limit_when_random_delay_started s in
  if random_delay_running s then
    let seconds_left := Z.quot (random_delay_end_time s - now_ms s) 1000 in
    (if seconds_left <=? 0
     then em_put (assign random_delay_running false) ;;;
          em_emit (publish_countdown (mkCountDown 0 limit during None))
     else em_emit (publish_countdown (mkCountDown seconds_left limit during
                     (Some (to_rfc3339 (random_delay_start_time s)))))) ;;;
    eret during
  else
    em_emit (publish_countdown (mkCountDown 0 limit during None)) ;;;
    eret limit.

(** ** Enforced limits *)

(** The number of phases the energy manager asks for. *)
Definition apply_phase_limit (phases : option IntegerWithSource) : EM M unit :=
  let* s := mod_state in
  match phases with
  | Some n =>
      em_when (negb (ivalue n =? ac_nr_phases_active s)
               && supports_changing_phases_during_charging (get_hw_capabilities s))
        (let* switched := charger_call (switch_three_phases (ivalue n =? 3)) in
         em_when switched (em_put (assign ac_nr_phases_active (ivalue n))))
  | None => eret tt
  end.

(** A power limit as a limit of the current: [None] when it is not finite. *)
Definition watt_limited (s : evse_manager M) (watt limit : Q) : option Q :=
  if Qeq_bool (ac_nominal_voltage s * inject_Z (ac_nr_phases_active s)) 0
  then if Qle_bool 0 limit && Qltb watt 0 || Qltb limit 0 && Qltb 0 watt then None else Some limit
  else
    let power := (watt / ac_nominal_voltage s / inject_Z (ac_nr_phases_active s))%Q in
    Some (if Qle_bool 0 limit && Qltb power limit || Qltb limit 0 && Qltb limit power
          then power else limit).

Definition apply_watt_limit (watt : option NumberWithSource) (limit : Q) : EM M Q :=
  match watt with
  | Some w =>
      em_emit (publish_max_watt (value w)) ;;;
      let* s := mod_state in
      match watt_limited s (value w) limit with
      | Some l => eret l
      | None => ethrow infinite_number
      end
  | None => eret limit
  end.

(** The limits of a DC EVSE for [watt] on the leaves side, and the total
    current they come from. *)
Definition total_current (caps : Capabilities) (watt target_V actual_V : Q) : Q :=
  if Qltb 10 target_V
  then (if Qltb 10 actual_V then watt / actual_V else watt / target_V)%Q
  else max_export_current_A caps.

(** The magnitude of a negative limit, at most [highest]. *)
Definition discharge_limit (highest : option Q) (x : Q) : Q :=
  match highest with
  | Some m => if Qltb m (Qabs x) then m else Qabs x
  | None => Qabs x
  end.

Definition dc_max_limits (caps : Capabilities) (watt current : Q) : DcEvseMaximumLimits :=
  let imports := Qle_bool 0 current in
  let imports_power := Qle_bool 0 watt in
  mkMaximumLimits
    (if imports then std_min current (max_export_current_A caps) else max_export_current_A caps)
    (if imports_power then std_min watt (max_export_power_W caps) else max_export_power_W caps)
    (max_export_voltage_V caps)
    (if imports then max_import_current_A caps
     else Some (discharge_limit (max_import_current_A caps) current))
    (if imports_power then max_import_power_W caps
     else Some (discharge_limit (max_import_power_W caps) watt)).

Definition dc_min_limits (caps : Capabilities) : DcEvseMinimumLimits :=
  mkMinimumLimits (min_export_current_A caps) (min_export_voltage_V caps)
    (min_export_voltage_V caps * min_export_current_A caps) (min_import_current_A caps)
    (Some (default 0 (min_import_voltage_V caps) * default 0 (min_import_current_A caps)))%Q.

(** The limits of a session that discharges, and whether it does. *)
Definition bidirectional_limits (s : evse_manager M) (watt current : Q) (l : DcEvseMaximumLimits)
    : DcEvseMaximumLimits * bool :=
  match evse_maximum_discharge_power_limit l, evse_maximum_discharge_current_limit l with
  | Some p, Some c =>
      if Qltb watt 0 && Qltb current 0 then
        if hack_allow_bpt_with_iso2 s
        then (assign evse_maximum_current_limit c (assign evse_maximum_power_limit p l), true)
        else if sae_bidi_active s
        then (assign evse_maximum_current_limit (- c)%Q (assign evse_maximum_power_limit (- p)%Q l), true)
        else (l, session_is_iso_d20_dc_bpt s)
      else (l, false)
  | _, _ => (l, false)
  end.

(** Whether anything the DC limits depend on changed since they were told. *)
Definition dc_values_changed (s : evse_manager M) (watt ampere target_V actual_V : Q)
    (caps : Capabilities) : bool :=
  negb (almost_eq_float (last_enforced_limits_watt s) watt
        && almost_eq_float (last_enforced_limits_ampere s) ampere
        && almost_eq_float target_V (last_target_voltage s)
        && negb (voltage_changed actual_V (last_actual_voltage s))
        && almost_eq_capabilities caps (last_powersupply_capabilities s)).

Definition enforce_dc_limits (watt ampere : Q) : EM M unit :=
  let* s := mod_state in
  let target_V := default 0%Q (target_voltage (get_ev_info s)) in
  let actual_V := default 0%Q (present_voltage (get_ev_info s)) in
  let caps := get_powersupply_capabilities s in
  em_when (dc_values_changed s watt ampere target_V actual_V caps)
    (put_energy (fun e =>
       assign last_powersupply_capabilities caps (assign last_actual_voltage actual_V
         (assign last_target_voltage target_V (assign last_enforced_limits_watt watt
           (assign last_enforced_limits_ampere ampere e))))) ;;;
     let current := total_current caps watt target_V actual_V in
     let '(highest, exporting) := bidirectional_limits s watt current (dc_max_limits caps watt current) in
     em_put (assign is_actually_exporting_to_grid exporting) ;;;
     em_emit (hlc_update_dc_maximum_limits highest) ;;;
     em_emit (hlc_update_dc_minimum_limits (dc_min_limits caps)) ;;;
     charger_call (inform_new_evse_max_hlc_limits highest) ;;;
     charger_call (inform_new_evse_min_hlc_limits (dc_min_limits caps)) ;;;
     em_when (Qltb 0 target_V) apply_new_target_voltage_current).

(** The limit reaches the charger; discharging is only possible in an
    ISO 15118-20 session. *)
Definition set_charger_limit (limit : Q) (valid_for : Z) : EM M unit :=
  let* s := mod_state in
  let valid_until := now_ms s + 1000 * valid_for in
  charger_call (set_max_current
    (if Qle_bool 0 limit || session_is_iso_d20_ac_bpt s then limit else 0%Q) valid_until) ;;;
  em_when (Qltb (1 # 100000) limit || Qltb limit (- (1 # 100000)))
    (charger_call resume_charging_power_available ;;; eret tt).

Definition handle_enforce_limits (utc rand : Z) (l : EnforcedLimits) : EM M unit :=
  let* s := mod_state in
  em_when (bool_decide (e_uuid l = uuid (energy_flow_request s)))
    (em_emit (em_publish_enforced_limits l) ;;;
     let root := limits_root_side l in
     let limit := match Res.ac_max_current_A root with Some a => value a | None => 0%Q end in
     apply_phase_limit (Res.ac_max_phase_count root) ;;;
     let* enforced_limit := apply_watt_limit (Res.total_power_W root) limit in
     let* limit := (if random_delay_enabled s then delayed_limit utc rand enforced_limit
                    else eret enforced_limit) in
     put_energy (assign last_enforced_limit enforced_limit) ;;;
     set_charger_limit limit (valid_for l) ;;;
     match Res.total_power_W root, Res.ac_max_current_A root with
     | Some w, Some a => em_when (is_DC_mode s) (enforce_dc_limits (value w) (value a))
     | _, _ => eret tt
     end).
End EvseEnergy.
