(* ===== verification/CableCheck.v ===== *)
(** * The cable check

    [EvseManager::cable_check] with the functions it waits in: before a DC
    session the isolation of the cable is tested under voltage.  The check is
    a thread of its own, and the handlers of the module run at the same time:
    whenever the thread looks at the shared state or waits, the others act
    first, and [others n] is what they do the [n]-th time.

    The log of the thread has its calls and what it saw.  A loop that waits
    for the clock has fuel; [CableCheckProperties] shows how much is enough. *)
From S2P Require Import Prelude Effects IECStateMachine ErrorHandling.
From S2P Require Import ChargerTypes Charger EvseManagerTypes EvseManager.
From stdpp Require Import base tactics list numbers strings.
From Stdlib Require Import QArith Qabs.
Open Scope Z_scope.
Open Scope everest_scope.

Definition CABLECHECK_CONTACTORS_CLOSE_TIMEOUT : Z := 5000.
Definition CABLECHECK_SELFTEST_TIMEOUT : nat := 30.
Definition VOLTAGE_TIMEOUT : Z := 10000.

(** What happens in the thread. *)
Inductive cc_event : Type :=
| cc_call (o : em_output)
| saw_voltage (v : Q)
| saw_contactors_closed
| saw_self_test (result : bool)
| saw_resistance (r : Q).

Inductive cc_exn : Type :=
| cc_exception (e : em_exn)
| out_of_fuel.

Section CableCheck.
Context {M : Type} `{ErrorMonitor M}.
(** What other threads do, and the text of a number in a message. *)
Context (others : nat -> evse_manager M -> evse_manager M) (show : Q -> string).

(** The state of the module, and how often the others have acted. *)
Abbreviation TH := (Eff (evse_manager M * nat) cc_event cc_exn).

Definition interfere : TH unit := fun '(s, n) => (Ok tt, (others n s, S n), []).
Definition look : TH (evse_manager M) := fun '(s, n) => (Ok (others n s), (others n s, S n), []).

(** A call of a member function; its outputs are calls of the thread. *)
Definition call {A} (m : EM M A) : TH A := fun '(s, n) =>
  let '(r, s', os) := m s in
  (match r with Ok a => Ok a | Err e => Err (cc_exception e) end, (s', n), map cc_call os).

Definition saw (e : cc_event) : TH unit := eemit e.

(** [VarContainer::wait_for]: the value, if one came in time. *)
Definition wait_for {T} (proj : evse_manager M -> VarContainer T) `{!Update proj} : TH (option T) :=
  let* s := look in
  if unread_data (proj s)
  then call (em_put (update proj var_clear)) ;;; eret (Some (data (proj s)))
  else eret None.

Definition switch_off : EM M unit :=
  em_put (assign power_supply_DC_charging_phase ChargingPhase.Other) ;;; powersupply_DC_off.

(** The loops of [wait_powersupply_DC_voltage_reached] and
    [wait_powersupply_DC_below_voltage], which differ in the voltage they wait
    for. *)
Fixpoint wait_voltage (fuel : nat) (start : Z) (wanted : Q -> bool) : TH bool :=
  match fuel with
  | O => ethrow out_of_fuel
  | S fuel =>
      let* s := look in
      if VOLTAGE_TIMEOUT <? steady_clock (em_charger s) - start then eret false
      else
        let* s := look in
        if cable_check_should_exit s then
          call switch_off ;;;
          call (em_emit (hlc_cable_check_finished false)) ;;;
          eret false
        else
          let* m := wait_for powersupply_measurement in
          match m with
          | Some m =>
              saw (saw_voltage (voltage_V m)) ;;;
              if wanted (voltage_V m) then eret true else wait_voltage fuel start wanted
          | None => call switch_off ;;; eret false
          end
  end.

Section WithFuel.
Context (fuel : nat).

Definition wait_powersupply_DC_voltage_reached (target : Q) : TH bool :=
  let* s := look in
  wait_voltage fuel (steady_clock (em_charger s)) (fun v => Qltb (Qabs (v - target)) 10).
Definition wait_powersupply_DC_below_voltage (target : Q) : TH bool :=
  let* s := look in
  wait_voltage fuel (steady_clock (em_charger s)) (fun v => Qltb v target).

Definition fail_cable_check (reason : string) : TH unit :=
  let* s := look in
  (if is_DC_mode s then
     call switch_off ;;;
     wait_powersupply_DC_below_voltage CABLECHECK_SAFE_VOLTAGE ;;;
     call (em_emit (hlc_cable_check_finished false))
   else eret tt) ;;;
  call (error_handling_call (raise_cable_check_fault reason)).

(** The check fails and goes no further. *)
Definition abandon (reason : string) : TH bool := fail_cable_check reason ;;; eret false.

(** The stages of the thread; each says whether the check goes on. *)

Definition below_safe_voltage (on_failure : EM M unit) : TH bool :=
  let* below := wait_powersupply_DC_below_voltage CABLECHECK_SAFE_VOLTAGE in
  if below then eret true
  else call on_failure ;;;
       abandon ("Voltage did not drop below " +:+ show CABLECHECK_SAFE_VOLTAGE +:+ "V within timeout.").

Fixpoint wait_contactors (fuel : nat) (start : Z) : TH unit :=
  match fuel with
  | O => ethrow out_of_fuel
  | S fuel =>
      let* s := look in
      if (CABLECHECK_CONTACTORS_CLOSE_TIMEOUT <? steady_clock (em_charger s) - start)
         || cable_check_should_exit s
      then eret tt
      else
        let* s := look in
        if em_contactor_open s then interfere ;;; wait_contactors fuel start else eret tt
  end.

Definition contactors_closed : TH bool :=
  call (charger_call (set_hlc_allow_close_contactor true)) ;;;
  let* s := look in
  wait_contactors fuel (steady_clock (em_charger s)) ;;;
  let* s := look in
  if em_contactor_open s
  then abandon "CableCheck: Contactors are still open after timeout, giving up."
  else saw saw_contactors_closed ;;; eret true.

Fixpoint wait_ev_info (retries : nat) : TH unit :=
  match retries with
  | O => eret tt
  | S retries =>
      let* s := look in
      match maximum_voltage_limit (get_ev_info s) with
      | Some _ => eret tt
      | None => interfere ;;; wait_ev_info retries
      end
  end.

(** The voltage of the test. *)
Definition cable_check_voltage (s : evse_manager M) : Q :=
  if Qltb 0 (dc_isolation_voltage_V s) then dc_isolation_voltage_V s
  else get_cable_check_voltage (default 500%Q (maximum_voltage_limit (ev_info s)))
         (max_export_voltage_V (get_powersupply_capabilities s)).

(** The voltage of the test once it is reached, [None] when the check gave up. *)
Definition voltage_up : TH (option Q) :=
  wait_ev_info 10 ;;;
  let* s := look in
  let voltage := cable_check_voltage s in
  let* set := call (powersupply_DC_set voltage CABLECHECK_CURRENT_LIMIT) in
  if negb set then
    fail_cable_check "CableCheck: Could not set DC power supply voltage and current." ;;;
    eret None
  else
    interfere ;;;
    call powersupply_DC_on ;;;
    let* reached := wait_powersupply_DC_voltage_reached voltage in
    if reached then eret (Some voltage)
    else
      fail_cable_check ("CableCheck: Voltage did not rise to " +:+ show voltage +:+ " V within timeout") ;;;
      eret None.

(** [Some None]: no result came in time; [None]: the check was cancelled. *)
Fixpoint wait_self_test (seconds : nat) : TH (option (option bool)) :=
  match seconds with
  | O => eret (Some None)
  | S seconds =>
      let* s := look in
      if cable_check_should_exit s then eret None
      else
        let* result := wait_for selftest_result in
        match result with
        | Some r => eret (Some (Some r))
        | None => wait_self_test seconds
        end
  end.

Definition self_test (voltage : Q) : TH bool :=
  let* s := look in
  if cable_check_enable_imd_self_test s then
    call (em_put (update selftest_result var_clear)) ;;;
    call (em_emit (imd_start_self_test voltage)) ;;;
    let* result := wait_self_test CABLECHECK_SELFTEST_TIMEOUT in
    match result with
    | None => abandon "Cancel cable check"
    | Some None => abandon "CableCheck: Did not get a self test result from IMD within timeout"
    | Some (Some r) =>
        saw (saw_self_test r) ;;;
        if r then eret true else abandon "IMD self test failed during cable check"
    end
  else eret true.

(** The last of [n] new measurements. *)
Fixpoint wait_measurements (n : nat) (last : option IsolationMeasurement) : TH (option IsolationMeasurement) :=
  match n with
  | O => eret last
  | S n =>
      let* m := wait_for isolation_measurement in
      match m with
      | None => eret None
      | Some m =>
          let* s := look in
          if cable_check_should_exit s then eret None else wait_measurements n (Some m)
      end
  end.

Definition isolation_check : TH bool :=
  call imd_start ;;;
  let* s := look in
  let count := cable_check_wait_number_of_imd_measurements s in
  if 0 <? count then
    call (em_put (update isolation_measurement var_clear)) ;;;
    let* last := wait_measurements (Z.to_nat count) None in
    match last with
    | None =>
        call imd_stop ;;;
        abandon "CableCheck: Did not receive isolation measurement from IMD within 5 seconds."
    | Some m =>
        saw (saw_resistance (resistance_F_Ohm m)) ;;;
        let* ok := call (check_isolation_resistance_in_range (resistance_F_Ohm m)) in
        if ok then eret true
        else
          let reason := "Isolation resistance too low: " +:+ show (resistance_F_Ohm m) +:+ " Ohm" in
          call imd_stop ;;;
          call (error_handling_call (raise_isolation_resistance_fault reason)) ;;;
          abandon reason
    end
  else call (em_emit (hlc_update_isolation_status IsolationStatus.Valid)) ;;; eret true.

(** What is left before success is reported; the sleeps give the others
    time. *)
Definition wind_down : TH bool :=
  let* s := look in
  (if hack_pause_imd_during_precharge s then call imd_stop else eret tt) ;;;
  interfere ;;;
  interfere ;;;
  let* s := look in
  if cable_check_wait_below_60V_before_finish s
  then call powersupply_DC_off ;;; below_safe_voltage imd_stop
  else eret true.

Definition and_then (stage : TH bool) (rest : TH unit) : TH unit :=
  let* go_on := stage in if go_on then rest else eret tt.

(** The thread. *)
Definition cable_check_thread : TH unit :=
  and_then (below_safe_voltage (eret tt))
    (and_then contactors_closed
      (let* voltage := voltage_up in
       match voltage with
       | None => eret tt
       | Some voltage =>
           and_then (self_test voltage)
             (and_then isolation_check
               (and_then wind_down
                 (call (em_emit (hlc_cable_check_finished true)))))
       end)).
End WithFuel.
End CableCheck.
