(* ===== verification/CableCheckProperties.v ===== *)
(** * The cable check: what it guarantees

    A DC EVSE in the middle of a session and threads that act around it, for the
    concrete instances of the theorems.  Then the lemmas: [post] gives a run of
    the thread a postcondition on its value, the state and its log, and one on
    the log when it stops early; every stage is shown to go on only with what it
    is meant to see, and to end the check with a report and an error otherwise.
    At the end, the theorems on a run of the thread, whatever the other threads
    do. *)
From S2P Require Import Prelude IECStateMachine Effects ErrorHandling ChargerTypes Charger.
From S2P Require Import EvseSystem ChargerExample ErrorProperties EnergyTypes EvseManagerTypes.
From S2P Require Import EvseManager CableCheck.
From stdpp Require Import base tactics list numbers strings sets.
From Stdlib Require Import QArith Qabs Lia.
Open Scope Z_scope.
Open Scope everest_scope.

Abbreviation ex_evse := (evse_manager (list Error)).

Definition ex_conf (mode : string) : EvseConf :=
  mkEvseConf 1 mode 230 32 32 0 true 1 false 0 0 false 0 false false false false "V2G" false
    true false false.

(** 150 kW, 200 to 920 V, 200 A. *)
Definition ex_caps : Capabilities :=
  mkCapabilities false 1 1 920 200 200 1 150000 None None None None None None None.
Definition ex_hw : HardwareCapabilities :=
  mkHardwareCapabilities 32 6 3 1 16 0 3 1 true Connector_type.IEC62196Type2Cable.

Definition ex_request : EnergyFlowRequest :=
  mkRequest "evse1" Evse None None None None None [] [] [] [].

Definition ex_energy : energyImpl :=
  mkEnergyImpl ex_request (-9999) (-9999) (-9999) (-9999) ex_caps ex_hw 0 0 EvseState.Disabled.

Definition ex_manager (mode : string) (c : charger (list Error)) : ex_evse :=
  mkEvseManager c (ex_conf mode) "evse1" true true true false true ex_caps
    (mkDerating None None None None) ex_hw [] (mkExternalLimits [] [] []) true
    (mkVar (mkIsolationMeasurement 0) false) (mkVar (mkVoltageCurrent 0 0) false) (mkVar false false)
    0 0 false ChargingPhase.Other ChargingPhase.Other false false false false false None
    (mkEVInfo None None None None (Some 300%Q) (Some 450%Q) None) CarManufacturer.Unknown 3
    false false 0 0 600 (-100000) ex_energy 0.

(** The charger waits in PrepareCharging. *)
Definition ex_preparing : ex_evse :=
  ex_manager "DC" (update shared_context (assign current_state EvseState.PrepareCharging)
                     (ex_state (ex_start ChargeMode.DC))).

Definition advance (ms : Z) (s : ex_evse) : ex_evse := update em_charger (update steady_clock (Z.add ms)) s.

(** The devices answer: the power supply with the voltage it is set to, the
    isolation monitor with a good self test and the resistance [r]; the
    contactors close. *)
Definition ex_devices (r : Q) (n : nat) (s : ex_evse) : ex_evse :=
  let volts := if powersupply_dc_is_on s then 500%Q else 5%Q in
  advance 1
    (assign em_contactor_open false
      (update selftest_result (var_assign true)
        (update isolation_measurement (var_assign (mkIsolationMeasurement r))
          (update powersupply_measurement (var_assign (mkVoltageCurrent volts 0)) s)))).

(** The reports in a log. *)
Definition reports (l : list cc_event) : list bool :=
  omap (fun e => match e with cc_call (hlc_cable_check_finished b) => Some b | _ => None end) l.

Lemma reports_app l l' : reports (l ++ l') = reports l ++ reports l'.
Proof. apply omap_app. Qed.

(** The error of a failed cable check is active. *)
Definition fault_active {M} `{ErrorMonitor M} (s : evse_manager M) : Prop :=
  is_error_active "evse_manager/MREC11CableCheckFault" "Self test failed"
    (p_evse (error_handling (em_charger s))) = true.

Definition supply_off {M} (s : evse_manager M) : Prop := powersupply_dc_is_on s = false.
Definition clock {M} (s : evse_manager M) : Z := steady_clock (em_charger s).

(** ** Calls that report nothing *)

Section Calm.
Context {M : Type} `{ErrorMonitor M}.

(** [m] returns without a report, and keeps the configuration, the clock and a
    power supply that is off. *)
Definition calm {A} (m : EM M A) : Prop := forall s,
  match m s with
  | (Ok a, s', os) =>
      reports (map cc_call os) = [] /\ em_config s' = em_config s /\ clock s' = clock s
      /\ (supply_off s -> supply_off s')
  | (Err _, _, _) => False
  end.

Lemma calm_ret {A} (a : A) : calm (eret a).
Proof. done. Qed.
Lemma calm_get : calm mod_state.
Proof. done. Qed.

Lemma calm_bind {A B} (m : EM M A) (k : A -> EM M B) :
  calm m -> (forall a, calm (k a)) -> calm (ebind m k).
Proof.
  intros Hm Hk s. unfold ebind. specialize (Hm s). destruct (m s) as [[[a|e] s1] o1]; [|done].
  specialize (Hk a s1). destruct (k a s1) as [[[b|e] s2] o2]; [|done].
  destruct Hm as (R1 & C1 & K1 & O1), Hk as (R2 & C2 & K2 & O2).
  rewrite map_app, reports_app, R1, R2. split_and!; [done|congruence|congruence|auto].
Qed.

Lemma calm_when b (m : EM M unit) : calm m -> calm (em_when b m).
Proof. destruct b; [done|]. intros _. apply calm_ret. Qed.

Lemma calm_emit o : reports [cc_call o] = [] -> calm (em_emit o).
Proof. intros Ho s. by split_and!. Qed.

Lemma calm_put (f : evse_manager M -> evse_manager M) :
  (forall s, em_config (f s) = em_config s /\ clock (f s) = clock s /\ (supply_off s -> supply_off (f s))) ->
  calm (em_put f).
Proof. intros Hf s. destruct (Hf s) as (?&?&?). by split_and!. Qed.

(** The module does not react to the signals of the error handling. *)
Definition is_error_signal (o : logged) : Prop :=
  match o.1 with error_handling_signal _ => True | _ => False end.

Lemma error_signals_calm os : Forall is_error_signal os -> calm (react_all os).
Proof.
  intros Hos. unfold react_all. induction Hos as [|[o sh] os Ho Hos IH]; cbn [efor]; [apply calm_ret|].
  apply calm_bind; [|done]. by destruct o.
Qed.

Lemma error_call_state m (s : evse_manager M) :
  run_state (error_handling_call m) s = assign em_charger (run_state (error_call m) (em_charger s)) s.
Proof.
  unfold run_state, error_handling_call, charger_call, error_call.
  destruct (m (error_handling (em_charger s))) as [[r e] os]. cbn [fst snd].
  set (s1 := assign em_charger _ s). clearbody s1. unfold ebind, eret.
  assert (forall l, exists o, react_all (map (fun o => (error_handling_signal (event_of o), l)) os) s1
                              = (Ok tt, s1, o)) as Ho.
  { intros l. unfold react_all. induction os as [|x os [o IH]]; [by eexists|]. eexists.
    cbn [map efor]. unfold ebind at 1. cbn. rewrite IH. reflexivity. }
  destruct (Ho (shared_context (em_charger s))) as [o ->]. done.
Qed.

(** An operation of the charger that only signals errors and leaves its clock
    alone. *)
Lemma calm_charger {A} (m : CH M A) :
  (forall c, exists a c' os, m c = (Ok a, c', os) /\ Forall is_error_signal os
     /\ steady_clock c' = steady_clock c) -> calm (charger_call m).
Proof.
  intros Hm s. unfold charger_call. destruct (Hm (em_charger s)) as (a & c & os & -> & Hos & Hc).
  pose proof (calm_bind _ (fun _ => eret a) (error_signals_calm os Hos) (fun _ => calm_ret a)
                (assign em_charger c s)) as Hr.
  destruct ((react_all os ;;; eret a) (assign em_charger c s)) as [[[b|e] s'] o]; [|done].
  destruct Hr as (R & C & K & O). split_and!; [done|done| |done]. rewrite K. exact Hc.
Qed.

Lemma calm_errors m : calm (error_handling_call m).
Proof.
  apply calm_charger. intros c. unfold error_call.
  destruct (m (error_handling c)) as [[r e] os]. eexists _, _, _. split_and!; [reflexivity| |done].
  by apply Forall_map, Forall_true.
Qed.

Lemma calm_allow b : calm (charger_call (set_hlc_allow_close_contactor (M := M) b)).
Proof. apply calm_charger. intros c. by eexists _, _, []. Qed.

Lemma calm_imd_stop : calm imd_stop.
Proof. apply calm_bind; [apply calm_get|]. intros s. by apply calm_when, calm_emit. Qed.
Lemma calm_imd_start : calm imd_start.
Proof. apply calm_bind; [apply calm_get|]. intros s. by apply calm_when, calm_emit. Qed.

Lemma calm_off : calm powersupply_DC_off.
Proof.
  apply calm_bind; [apply calm_get|]. intros s.
  apply calm_bind; [|intros _; by apply calm_put].
  apply calm_when, calm_bind; [by apply calm_emit|]. intros _. by apply calm_put.
Qed.
Lemma calm_switch_off : calm switch_off.
Proof. apply calm_bind; [by apply calm_put|]. intros _. apply calm_off. Qed.

Lemma calm_set v c : calm (powersupply_DC_set v c).
Proof.
  apply calm_bind; [apply calm_get|]. intros s.
  apply calm_bind; [by apply calm_put|]. intros _. cbv zeta.
  case_match.
  - apply calm_bind; [by apply calm_when, calm_emit|]. intros _.
    apply calm_bind; [by apply calm_put|]. intros _.
    repeat case_match; try apply calm_ret.
    apply calm_bind; [by apply calm_emit|]. intros _. apply calm_ret.
  - apply calm_bind.
    { apply calm_when, calm_bind; [by apply calm_emit|]. intros _. by apply calm_put. }
    intros _. case_match; [|apply calm_ret].
    apply calm_bind; [by apply calm_emit|]. intros _. apply calm_ret.
Qed.

Lemma calm_isolation r : calm (check_isolation_resistance_in_range r).
Proof.
  unfold check_isolation_resistance_in_range. case_match;
    (apply calm_bind; [by apply calm_emit|]; intros _; apply calm_bind; [by apply calm_emit|];
     intros _; apply calm_ret).
Qed.

Lemma switch_off_off (s : evse_manager M) : supply_off (run_state switch_off s).
Proof.
  unfold run_state, switch_off, powersupply_DC_off, em_when, em_put, em_emit, ebind, emodify, eget, eemit.
  cbn. by destruct (powersupply_dc_is_on s) eqn:E.
Qed.

(** After the error is raised it is active. *)
Lemma active_elem type sub_type (m m' : M) `{!ErrorMonitorLaws M} :
  (forall err, has_key type sub_type err -> err ∈ get_active_errors m -> err ∈ get_active_errors m') ->
  is_error_active type sub_type m = true -> is_error_active type sub_type m' = true.
Proof. rewrite !is_error_active_spec. intros Hm (err & Hin & Hk). eauto. Qed.

Lemma process_error_keeps `{!ErrorMonitorLaws M} type sub_type (e : eh_state M) :
  type <> Inoperative -> is_error_active type sub_type (p_evse e) = true ->
  is_error_active type sub_type (p_evse (run_state process_error e)) = true.
Proof.
  intros Hn Ha. unfold run_state, process_error.
  rewrite run_get_bind. unfold ebind at 1.
  destruct (errors_prevent_charging e) as [fatal|].
  - unfold raise_inoperative_error, put_evse, ebind, eget, emodify, eemit, eret.
    destruct (is_error_active Inoperative "" (p_evse e)) eqn:Hi; cbn; [by destruct (Nat.eqb _ _)|].
    assert (is_error_active type sub_type (raise_error (inoperative_error fatal e) (p_evse e)) = true).
    { revert Ha. apply active_elem; [done|]. intros err [Hk _]. apply raise_same. by rewrite Hk. }
    destruct (bool_decide _); cbn; by destruct (Nat.eqb _ _).
  - unfold clear_inoperative_error, put_evse, ebind, eget, emodify, eemit, eret.
    destruct (is_error_active Inoperative "" (p_evse e)) eqn:Hi; cbn; [|by destruct (Nat.eqb _ _)].
    assert (is_error_active type sub_type (clear_error Inoperative "" (p_evse e)) = true).
    { revert Ha. apply active_elem; [done|]. intros err [Hk _] Hin. apply clear_error_spec.
      split; [done|]. intros [Hx _]. congruence. }
    by destruct (Nat.eqb _ _).
Qed.

Lemma fault_raised `{!ErrorMonitorLaws M} reason (s : evse_manager M) :
  fault_active (run_state (error_handling_call (raise_cable_check_fault reason)) s).
Proof.
  unfold fault_active. rewrite error_call_state.
  unfold run_state, error_call, raise_cable_check_fault, raise_own, put_evse.
  pose (type := "evse_manager/MREC11CableCheckFault"). pose (sub_type := "Self test failed").
  pose (e := update p_evse (raise_error (create_error type sub_type reason Severity.Medium))
               (error_handling (em_charger s))).
  assert (is_error_active type sub_type (p_evse (run_state process_error e)) = true) as Hp.
  { apply process_error_keeps; [done|]. cbn.
    destruct (create_error_spec type sub_type reason Severity.Medium) as [[K1 K2] _].
    pose proof (raised_active (create_error type sub_type reason Severity.Medium)
      (p_evse (error_handling (em_charger s)))) as Hr.
    by rewrite K1, K2 in Hr. }
  unfold run_state in Hp. unfold ebind at 1. cbn [emodify].
  fold e. change (update p_evse _ (error_handling (em_charger s))) with e.
  by destruct (process_error e) as [[[?|?] e'] os].
Qed.
End Calm.

(** ** Runs of the thread *)

Section Post.
Context {M : Type} `{ErrorMonitorLaws M}.
Context (others : nat -> evse_manager M -> evse_manager M) (show : Q -> string).
(** [clocked]: the clock advances whenever the others act.  [stays_off]: the
    others do not switch on a power supply that is off. *)
Context (clocked stays_off : bool).
Hypothesis others_config : forall n s, em_config (others n s) = em_config s.
Hypothesis others_clock : clocked = true -> forall n s, clock s < clock (others n s).
Hypothesis others_off : stays_off = true -> forall n s, supply_off s -> supply_off (others n s).

Abbreviation TH := (Eff (evse_manager M * nat) cc_event cc_exn).

(** A thread only stops early for lack of fuel. *)
Definition post {A} (m : TH A) (Q : A -> evse_manager M -> list cc_event -> Prop)
    (s : evse_manager M) (n : nat) : Prop :=
  match m (s, n) with
  | (Ok a, (s', _), o) => Q a s' o
  | (Err _, _, o) => clocked = false /\ (true ∉ reports o)
  end.

Lemma post_ret {A} (a : A) (Q : A -> _ -> _ -> Prop) s n : Q a s [] -> post (eret a) Q s n.
Proof. done. Qed.

Lemma post_mono {A} (m : TH A) (Q Q' : A -> _ -> _ -> Prop) s n :
  post m Q s n -> (forall a s' o, Q a s' o -> Q' a s' o) -> post m Q' s n.
Proof. unfold post. destruct (m (s, n)) as [[[a|e] [s' n']] o]; auto. Qed.

(** The first part of a sequence never reports success. *)
Lemma post_bind {A B} (m : TH A) (k : A -> TH B) (R : A -> _ -> _ -> Prop) Q s n :
  post m R s n ->
  (forall a s' n' o, R a s' o ->
     (true ∉ reports o) /\ post (k a) (fun b s'' o' => Q b s'' (o ++ o')) s' n') ->
  post (ebind m k) Q s n.
Proof.
  intros Hm Hk. unfold post, ebind in *. destruct (m (s, n)) as [[[a|e] [s1 n1]] o1]; [|done].
  destruct (Hk a s1 n1 o1 Hm) as [Ho Hp]. unfold post in Hp.
  destruct (k a (s1, n1)) as [[[b|e] [s2 n2]] o2]; [done|].
  destruct Hp as [Hc Hr]. split; [done|]. rewrite reports_app, elem_of_app. tauto.
Qed.

(** Steps of the others. *)
Definition acted (s s' : evse_manager M) : Prop :=
  em_config s' = em_config s /\ (clocked = true -> clock s < clock s')
  /\ (stays_off = true -> supply_off s -> supply_off s').

Lemma others_acted n s : acted s (others n s).
Proof. split_and!; [apply others_config|auto|auto]. Qed.

Lemma post_look {B} (k : evse_manager M -> TH B) Q s n :
  (forall s' n', acted s s' -> post (k s') Q s' n') -> post (ebind (look others) k) Q s n.
Proof.
  intros Hk. specialize (Hk (others n s) (S n) (others_acted n s)). unfold post, ebind, look in *.
  destruct (k (others n s) (others n s, S n)) as [[[b|e] [s2 n2]] o2]; done.
Qed.

Lemma post_interfere {B} (k : unit -> TH B) Q s n :
  (forall s' n', acted s s' -> post (k tt) Q s' n') -> post (ebind (interfere others) k) Q s n.
Proof.
  intros Hk. specialize (Hk (others n s) (S n) (others_acted n s)). unfold post, ebind, interfere in *.
  destruct (k tt (others n s, S n)) as [[[b|e] [s2 n2]] o2]; done.
Qed.

(** The own calls. *)
Definition called (s s' : evse_manager M) (o : list cc_event) : Prop :=
  reports o = [] /\ em_config s' = em_config s /\ clock s' = clock s
  /\ (supply_off s -> supply_off s').

Lemma post_call {A B} (m : EM M A) (k : A -> TH B) Q s n :
  calm m ->
  (forall a s' os, m s = (Ok a, s', os) -> called s s' (map cc_call os) ->
     post (k a) (fun b s'' o' => Q b s'' (map cc_call os ++ o')) s' n) ->
  post (ebind (call m) k) Q s n.
Proof.
  intros Hm Hk. specialize (Hm s). unfold post, ebind, call in *.
  destruct (m s) as [[[a|e] s1] os]; [|done]. specialize (Hk a s1 os eq_refl Hm).
  destruct (k a (s1, n)) as [[[b|e] [s2 n2]] o2]; [done|].
  destruct Hk as [Hc Hr]. split; [done|]. rewrite reports_app. by rewrite (proj1 Hm).
Qed.

Lemma post_saw {B} e (k : unit -> TH B) Q s n :
  reports [e] = [] -> post (k tt) (fun b s' o => Q b s' (e :: o)) s n -> post (ebind (saw e) k) Q s n.
Proof.
  intros He Hk. unfold post, ebind, saw, eemit in *.
  destruct (k tt (s, n)) as [[[b|x] [s2 n2]] o2]; [done|].
  change ([e] ++ o2) with ([e] ++ o2). by rewrite reports_app, He.
Qed.

(** A report. *)
Lemma post_report {B} b (k : unit -> TH B) Q s n :
  b = false -> post (k tt) (fun x s' o => Q x s' (cc_call (hlc_cable_check_finished b) :: o)) s n ->
  post (ebind (call (em_emit (hlc_cable_check_finished b))) k) Q s n.
Proof.
  intros -> Hk. unfold post, ebind, call, em_emit, eemit in *.
  destruct (k tt (s, n)) as [[[x|e] [s2 n2]] o2]; [done|]. cbn in *.
  destruct Hk as [Hc Hr]. split; [done|]. cbn. rewrite elem_of_cons. by intros [?|?].
Qed.

(** What a step leaves alone. *)
Definition moved (s s' : evse_manager M) : Prop :=
  em_config s' = em_config s /\ (clocked = true -> clock s <= clock s')
  /\ (stays_off = true -> supply_off s -> supply_off s').

Lemma moved_refl s : moved s s.
Proof. by split_and!. Qed.
Lemma moved_trans s1 s2 s3 : moved s1 s2 -> moved s2 s3 -> moved s1 s3.
Proof.
  intros (A1 & A2 & A3) (B1 & B2 & B3). split_and!; [congruence| |auto].
  intros Hc. specialize (A2 Hc). specialize (B2 Hc). lia.
Qed.
Lemma acted_moved s s' : acted s s' -> moved s s'.
Proof. intros (A1 & A2 & A3). split_and!; [done| |done]. intros Hc. specialize (A2 Hc). lia. Qed.
Lemma called_moved s s' o : called s s' o -> moved s s'.
Proof. intros (_ & A2 & A3 & A4). split_and!; [done|lia|auto]. Qed.

Lemma post_wait {T B} (proj : evse_manager M -> VarContainer T) `{!Update proj}
    (k : option T -> TH B) Q s n :
  calm (em_put (update proj var_clear)) ->
  (forall v s' n', acted s s' -> post (k v) Q s' n') ->
  post (ebind (wait_for others proj) k) Q s n.
Proof.
  intros Hc Hk. destruct (others_acted n s) as (A1 & A2 & A3).
  pose proof (Hc (others n s)) as (_ & B1 & B2 & B3).
  assert (exists v s', wait_for others proj (s, n) = (Ok v, (s', S n), []) /\ acted s s')
    as (v & s' & Hw & Ha).
  { unfold wait_for, ebind, look, call, eret, em_put, emodify.
    destruct (unread_data (proj (others n s))); cbn; eexists _, _; (split; [reflexivity|]).
    - split_and!; [congruence| |auto]. intros Hx. specialize (A2 Hx). cbv beta in B2. lia.
    - by split_and!. }
  specialize (Hk v s' (S n) Ha). unfold post, ebind in *. rewrite Hw.
  by destruct (k v (s', S n)) as [[[b|e] [s2 n2]] o2].
Qed.

(** ** Waiting for a voltage *)

Definition enough (limit : Z) (fuel : nat) (since : Z) : Prop :=
  clocked = true -> (1 <= fuel)%nat /\ limit < Z.of_nat fuel + since.

(** Two more looks at the clock use up one unit of fuel. *)
Lemma enough_next limit fuel start s s' :
  enough limit (S fuel) (clock s - start) -> acted s s' -> clock s' - start <= limit ->
  forall s'', moved s' s'' -> enough limit fuel (clock s'' - start).
Proof.
  intros He (_ & Hc & _) Hl s'' (_ & Hm & _) Hcl. specialize (He Hcl). specialize (Hc Hcl).
  specialize (Hm Hcl). lia.
Qed.

Definition waited (wanted : Q -> bool) (s : evse_manager M) (b : bool) (s' : evse_manager M)
    (o : list cc_event) : Prop :=
  moved s s'
  /\ if b then reports o = [] /\ exists v, wanted v = true /\ saw_voltage v ∈ o
     else reports o = [] \/ reports o = [false].

Lemma wait_voltage_spec wanted fuel start s n :
  enough VOLTAGE_TIMEOUT fuel (clock s - start) ->
  post (wait_voltage others fuel start wanted) (waited wanted s) s n.
Proof.
  revert s n. induction fuel as [|fuel IH]; intros s n He; cbn [wait_voltage].
  { destruct clocked eqn:Hc; [by destruct (He Hc); lia|]. split; [done|apply not_elem_of_nil]. }
  apply post_look. intros s1 n1 A1. case_match eqn:Ht.
  { apply post_ret. split; [by apply acted_moved|by left]. }
  apply Z.ltb_ge in Ht.
  apply post_look. intros s2 n2 A2. case_match.
  { apply post_call; [apply calm_switch_off|]. intros [] s3 os _ C3.
    apply post_report; [done|]. apply post_ret. split.
    - eapply moved_trans; [by apply acted_moved|]. eapply moved_trans; [by apply acted_moved|].
      by eapply called_moved.
    - right. rewrite reports_app. by rewrite (proj1 C3). }
  apply post_wait; [by apply calm_put|]. intros [m|] s3 n3 A3.
  - assert (moved s1 s3) as M3 by (eapply moved_trans; by apply acted_moved).
    assert (moved s s3) as M4 by (eapply moved_trans; [by apply acted_moved|done]).
    apply post_saw; [done|]. case_match eqn:Hw.
    + apply post_ret. split; [done|]. split; [done|]. exists (voltage_V m). split; [done|].
      left.
    + eapply post_mono; [apply IH; by eapply enough_next|]. intros b s4 o (M5 & Ho).
      split; [by eapply moved_trans|]. destruct b; [|done].
      destruct Ho as (Hr & v & Hv & Hin). split; [done|]. exists v. split; [done|]. by right.
  - apply post_call; [apply calm_switch_off|]. intros [] s4 os _ C4. apply post_ret. split.
    + do 3 (eapply moved_trans; [by apply acted_moved|]). by eapply called_moved.
    + left. rewrite app_nil_r. apply C4.
Qed.

(** ** The end of a check that fails *)

Context (fuel : nat).
Hypothesis fuel_enough : clocked = true -> VOLTAGE_TIMEOUT < Z.of_nat fuel.

Lemma enough_fuel limit (s : evse_manager M) start :
  limit <= VOLTAGE_TIMEOUT -> start <= clock s -> enough limit fuel (clock s - start).
Proof. intros Hl Hs Hc. specialize (fuel_enough Hc). unfold VOLTAGE_TIMEOUT in *. lia. Qed.

Lemma below_spec v s n :
  post (wait_powersupply_DC_below_voltage others fuel v) (waited (fun x => Qltb x v) s) s n.
Proof.
  apply post_look. intros s1 n1 A1.
  eapply post_mono; [apply wait_voltage_spec, enough_fuel; unfold clock; lia|].
  intros b s2 o (M2 & Ho). split; [|done]. eapply moved_trans; [by apply acted_moved|done].
Qed.
Lemma reached_spec v s n :
  post (wait_powersupply_DC_voltage_reached others fuel v)
    (waited (fun x => Qltb (Qabs (x - v)) 10) s) s n.
Proof.
  apply post_look. intros s1 n1 A1.
  eapply post_mono; [apply wait_voltage_spec, enough_fuel; unfold clock; lia|].
  intros b s2 o (M2 & Ho). split; [|done]. eapply moved_trans; [by apply acted_moved|done].
Qed.

(** The check is over: it was reported, at most [k] times, the error is active
    and the power supply is off. *)
Definition failed (k : nat) (s' : evse_manager M) (o : list cc_event) : Prop :=
  (exists j, reports o = replicate (S j) false /\ (j < k)%nat)
  /\ fault_active s' /\ (stays_off = true -> supply_off s').

Lemma failed_before k k' j s' o o' :
  reports o = replicate j false -> (j + k <= k')%nat -> failed k s' o' -> failed k' s' (o ++ o').
Proof.
  intros Ho Hk ((i & Hr & Hi) & Hf). split; [|done]. exists (j + i)%nat.
  rewrite reports_app, Ho, Hr, <- replicate_add. split; [f_equal; lia|lia].
Qed.

Lemma no_success_replicate j : true ∉ replicate j false.
Proof. intros [? _]%elem_of_replicate. done. Qed.

Lemma failed_quiet k s' o : failed k s' o -> true ∉ reports o.
Proof. intros ((j & -> & _) & _). apply no_success_replicate. Qed.

Lemma fail_spec reason (s : evse_manager M) n :
  is_DC_mode s = true ->
  post (fail_cable_check others fuel reason) (fun _ => failed 2) s n.
Proof.
  intros Hdc. apply post_look. intros s1 n1 A1.
  unfold is_DC_mode in *. rewrite (proj1 A1), Hdc.
  eapply post_bind with (R := fun _ s' o => (stays_off = true -> supply_off s')
    /\ exists j, reports o = replicate (S j) false /\ (j < 2)%nat).
  - apply post_call; [apply calm_switch_off|]. intros [] s2 os Hs C2.
    assert (supply_off s2) as Hoff by (pose proof (switch_off_off s1) as Hx; unfold run_state in Hx;
      by rewrite Hs in Hx).
    eapply post_bind; [apply below_spec|]. intros b s3 n3 o3 (M3 & Ho).
    assert (exists j, reports o3 = replicate j false /\ (j < 2)%nat) as (j & Hj & Hlt).
    { destruct b; [exists O; split; [by destruct Ho|lia]|].
      destruct Ho as [Ho|Ho]; [exists O|exists 1%nat]; (split; [done|lia]). }
    rewrite Hj. split; [apply no_success_replicate|].
    unfold post, call, em_emit, eemit. split; [intros Hx; by apply M3|]. exists j. split; [|done].
    rewrite !reports_app, Hj, (proj1 C2). cbn. by rewrite replicate_cons_app.
  - intros [] s2 n2 o (Hoff & j & Hj & Hlt). rewrite Hj. split; [apply no_success_replicate|].
    pose proof (fault_raised reason s2) as Hf. pose proof (calm_errors (raise_cable_check_fault reason) s2) as Hc.
    unfold run_state in Hf. unfold post, call.
    destruct (error_handling_call _ s2) as [[[[]|?] s3] os]; [|done].
    destruct Hc as (R & _ & _ & O3). split; [|split; [done|auto]].
    exists j. by rewrite reports_app, Hj, R, app_nil_r.
Qed.

Lemma abandon_spec reason (s : evse_manager M) n :
  is_DC_mode s = true ->
  post (abandon others fuel reason) (fun b s' o => b = false /\ failed 2 s' o) s n.
Proof.
  intros Hdc. eapply post_bind; [by apply fail_spec|]. intros [] s1 n1 o Hf.
  split; [apply (failed_quiet _ _ _ Hf)|]. apply post_ret. by rewrite app_nil_r.
Qed.

(** ** The stages *)

(** A stage goes on after it saw what it waits for, or ends the check. *)
Definition stage (P : list cc_event -> Prop) (s : evse_manager M) (go_on : bool)
    (s' : evse_manager M) (o : list cc_event) : Prop :=
  if go_on then moved s s' /\ reports o = [] /\ P o else failed 3 s' o.

(** A stage that gives up, after calls that report nothing. *)
Lemma gives_up P reason (s s1 : evse_manager M) n o :
  is_DC_mode s = true -> moved s s1 -> reports o = [] ->
  post (abandon others fuel reason) (fun b s' o' => stage P s b s' (o ++ o')) s1 n.
Proof.
  intros Hdc Hm Ho. eapply post_mono.
  - apply abandon_spec. unfold is_DC_mode in *. by rewrite (proj1 Hm).
  - intros b s' o' (-> & Hf). eapply (failed_before 2 3 0); [done|lia|done].
Qed.

Lemma below_safe_voltage_spec m (s : evse_manager M) n :
  is_DC_mode s = true -> calm m ->
  post (below_safe_voltage others show fuel m)
    (stage (fun o => exists v, Qltb v CABLECHECK_SAFE_VOLTAGE = true /\ saw_voltage v ∈ o) s) s n.
Proof.
  intros Hdc Hm. eapply post_bind; [apply below_spec|]. intros [] s1 n1 o (M1 & Ho).
  - destruct Ho as (Hr & v & Hv & Hin). rewrite Hr. split; [apply not_elem_of_nil|].
    apply post_ret. rewrite app_nil_r. split; [done|]. split; [done|]. by exists v.
  - assert (exists j, reports o = replicate j false /\ (j <= 1)%nat) as (j & Hj & Hlt).
    { destruct Ho as [Ho|Ho]; [exists O|exists 1%nat]; (split; [done|lia]). }
    split; [rewrite Hj; apply no_success_replicate|].
    apply post_call; [done|]. intros [] s2 os _ C2. eapply post_mono.
    + apply abandon_spec. unfold is_DC_mode in *. by rewrite (proj1 (proj2 C2)), (proj1 M1).
    + intros b s' o' (-> & Hf). rewrite app_assoc. eapply (failed_before 2 3 j); [|lia|done].
      by rewrite reports_app, (proj1 C2), app_nil_r.
Qed.

Lemma wait_contactors_spec f start s n :
  enough CABLECHECK_CONTACTORS_CLOSE_TIMEOUT f (clock s - start) ->
  post (wait_contactors others f start) (fun _ s' o => moved s s' /\ o = []) s n.
Proof.
  revert s n. induction f as [|f IH]; intros s n He; cbn [wait_contactors].
  { destruct clocked eqn:Hc; [by destruct (He Hc); lia|]. split; [done|apply not_elem_of_nil]. }
  apply post_look. intros s1 n1 A1. case_match eqn:Ht.
  { apply post_ret. split; [by apply acted_moved|done]. }
  apply orb_false_iff in Ht as [Ht%Z.ltb_ge _].
  apply post_look. intros s2 n2 A2. case_match.
  - apply post_interfere. intros s3 n3 A3.
    assert (moved s1 s3) as M3 by (eapply moved_trans; by apply acted_moved).
    eapply post_mono; [apply IH; by eapply enough_next|]. intros [] s4 o (M4 & Ho). split; [|done].
    eapply moved_trans; [by apply acted_moved|]. by eapply moved_trans.
  - apply post_ret. split; [|done]. eapply moved_trans; by apply acted_moved.
Qed.

Lemma contactors_spec (s : evse_manager M) n :
  is_DC_mode s = true ->
  post (contactors_closed others fuel) (stage (fun o => saw_contactors_closed ∈ o) s) s n.
Proof.
  intros Hdc. apply post_call; [apply calm_allow|]. intros [] s1 os _ C1.
  apply post_look. intros s2 n2 A2.
  eapply post_bind.
  { apply wait_contactors_spec, enough_fuel; [done|unfold clock; lia]. }
  intros [] s3 n3 o (M3 & ->). split; [apply not_elem_of_nil|].
  apply post_look. intros s4 n4 A4.
  assert (moved s s4) as M4.
  { eapply moved_trans; [by eapply called_moved|]. eapply moved_trans; [by apply acted_moved|].
    eapply moved_trans; [done|by apply acted_moved]. }
  case_match.
  - eapply post_mono; [eapply (gives_up _ _ s _ _ (map cc_call os)); [done|done|apply C1]|].
    intros b s' o Hs. exact Hs.
  - apply post_saw; [done|]. apply post_ret. split; [done|].
    rewrite reports_app, (proj1 C1). split; [done|]. apply elem_of_app. right. left.
Qed.

Lemma wait_ev_info_spec k s n :
  post (wait_ev_info others k) (fun _ s' o => moved s s' /\ o = []) s n.
Proof.
  revert s n. induction k as [|k IH]; intros s n; cbn [wait_ev_info].
  { apply post_ret. split; [apply moved_refl|done]. }
  apply post_look. intros s1 n1 A1. case_match.
  { apply post_ret. split; [by apply acted_moved|done]. }
  apply post_interfere. intros s2 n2 A2. eapply post_mono; [apply IH|].
  intros [] s3 o (M3 & Ho). split; [|done].
  do 2 (eapply moved_trans; [by apply acted_moved|]). done.
Qed.

(** The voltage given to the power supply. *)
Definition set_voltage (v : Q) (o : em_output) : Prop :=
  exists c, o = psu_setExportVoltageCurrent v c \/ o = psu_setImportVoltageCurrent v c.

Lemma set_true v c (s s' : evse_manager M) os :
  powersupply_DC_set v c s = (Ok true, s', os) -> exists o, o ∈ os /\ set_voltage v o.
Proof.
  unfold powersupply_DC_set, em_when, em_put, em_emit, ebind, eget, emodify, eemit, eret. cbn.
  intros Hs. unfold set_voltage.
  repeat (case_match; simplify_eq/=);
    first [ eexists; split; [right; left|eexists; first [by left | by right]]
          | eexists; split; [left|eexists; first [by left | by right]] ].
Qed.

(** The voltage was set, and then it was seen. *)
Definition voltage_seen (v : Q) (l : list cc_event) : Prop :=
  exists o v', set_voltage v o /\ Qltb (Qabs (v' - v)) 10 = true
    /\ [cc_call o; saw_voltage v'] `sublist_of` l.

Lemma post_on {B} (k : unit -> TH B) Q s n :
  (forall s' os, reports (map cc_call os) = [] -> em_config s' = em_config s -> clock s' = clock s ->
     post (k tt) (fun b s'' o' => Q b s'' (map cc_call os ++ o')) s' n) ->
  post (ebind (call powersupply_DC_on) k) Q s n.
Proof.
  intros Hk. assert (exists s' os, powersupply_DC_on s = (Ok tt, s', os)
    /\ reports (map cc_call os) = [] /\ em_config s' = em_config s /\ clock s' = clock s)
    as (s' & os & Hon & R & E & C).
  { unfold powersupply_DC_on. rewrite run_get_bind.
    destruct (powersupply_dc_is_on s); eexists _, _; (split; [reflexivity|]); done. }
  specialize (Hk s' os R E C). unfold post, ebind, call in *. rewrite Hon.
  destruct (k tt (s', n)) as [[[b|e] [s2 n2]] o2]; [done|].
  destruct Hk as [Hc Hr]. split; [done|]. by rewrite reports_app, R.
Qed.

Lemma voltage_up_spec (s : evse_manager M) n :
  is_DC_mode s = true ->
  post (voltage_up others show fuel)
    (fun v s' o => match v with
                   | Some v => em_config s' = em_config s /\ reports o = [] /\ voltage_seen v o
                   | None => failed 3 s' o
                   end) s n.
Proof.
  intros Hdc. eapply post_bind; [apply wait_ev_info_spec|]. intros [] s1 n1 o (M1 & ->).
  split; [apply not_elem_of_nil|]. apply post_look. intros s2 n2 A2. cbv zeta.
  set (v := cable_check_voltage s2).
  apply post_call; [apply calm_set|]. intros b s3 os Hset C3.
  assert (em_config s3 = em_config s) as E3.
  { rewrite (proj1 (proj2 C3)), (proj1 A2). apply M1. }
  destruct b; cbn [negb].
  - apply set_true in Hset as (x & Hx & Hv).
    apply post_interfere. intros s4 n4 A4. apply post_on. intros s5 os5 R5 E5 _.
    eapply post_bind; [apply reached_spec|]. intros [] s6 n6 o6 (M6 & Ho).
    + destruct Ho as (Hr & v' & Hv' & Hin). rewrite Hr. split; [apply not_elem_of_nil|].
      apply post_ret. split; [rewrite (proj1 M6), E5, (proj1 A4); done|].
      rewrite !reports_app, (proj1 C3), R5, Hr. split; [done|].
      exists x, v'. split; [done|]. split; [done|]. cbn [app]. rewrite app_nil_r.
      apply (sublist_app [_]); [|apply sublist_inserts_l]; apply singleton_sublist_l; [|done].
      apply list_elem_of_fmap. eauto.
    + assert (exists j, reports o6 = replicate j false /\ (j <= 1)%nat) as (j & Hj & Hlt).
      { destruct Ho as [Ho|Ho]; [exists O|exists 1%nat]; (split; [done|lia]). }
      split; [rewrite Hj; apply no_success_replicate|].
      eapply post_bind; [apply fail_spec|].
      { unfold is_DC_mode in *. rewrite (proj1 M6), E5, (proj1 A4), E3. done. }
      intros [] s7 n7 o7 Hf. split; [apply (failed_quiet _ _ _ Hf)|]. apply post_ret.
      rewrite app_nil_r, !app_assoc. eapply (failed_before 2 3 j); [|lia|done].
      by rewrite !reports_app, (proj1 C3), R5, Hj.
  - eapply post_bind; [apply fail_spec; unfold is_DC_mode in *; by rewrite E3|].
    intros [] s4 n4 o4 Hf. split; [apply (failed_quiet _ _ _ Hf)|]. apply post_ret.
    rewrite app_nil_r. cbn [app]. eapply (failed_before 2 3 0); [apply C3|lia|done].
Qed.

Lemma wait_self_test_spec k s n :
  post (wait_self_test others k) (fun _ s' o => moved s s' /\ o = []) s n.
Proof.
  revert s n. induction k as [|k IH]; intros s n; cbn [wait_self_test].
  { apply post_ret. split; [apply moved_refl|done]. }
  apply post_look. intros s1 n1 A1. case_match.
  { apply post_ret. split; [by apply acted_moved|done]. }
  apply post_wait; [by apply calm_put|]. intros [r|] s2 n2 A2.
  - apply post_ret. split; [|done]. eapply moved_trans; by apply acted_moved.
  - eapply post_mono; [apply IH|]. intros r s3 o (M3 & Ho). split; [|done].
    do 2 (eapply moved_trans; [by apply acted_moved|]). done.
Qed.

Lemma self_test_spec v (s : evse_manager M) n :
  is_DC_mode s = true ->
  post (self_test others fuel v)
    (stage (sublist (if cable_check_enable_imd_self_test s then [saw_self_test true] else [])) s) s n.
Proof.
  intros Hdc. apply post_look. intros s1 n1 A1. rewrite (proj1 A1).
  destruct (cable_check_enable_imd_self_test s) eqn:He.
  2: { apply post_ret. split; [by apply acted_moved|]. split; [done|apply sublist_nil_l]. }
  apply post_call; [by apply calm_put|]. intros [] s2 os2 _ C2.
  apply post_call; [by apply calm_emit|]. intros [] s3 os3 _ C3.
  eapply post_bind; [apply wait_self_test_spec|]. intros r s4 n4 o (M4 & ->).
  split; [apply not_elem_of_nil|].
  assert (moved s s4) as M5.
  { eapply moved_trans; [by apply acted_moved|]. eapply moved_trans; [by eapply called_moved|].
    eapply moved_trans; [by eapply called_moved|done]. }
  assert (reports (map cc_call os2 ++ map cc_call os3) = []) as R.
  { by rewrite reports_app, (proj1 C2), (proj1 C3). }
  destruct r as [[r|]|].
  - apply post_saw; [done|]. destruct r.
    + apply post_ret. split; [done|]. cbn [app]. rewrite app_assoc, reports_app, R.
      split; [done|]. by apply sublist_inserts_l.
    + eapply post_mono; [eapply (gives_up _ _ s _ _ ((map cc_call os2 ++ map cc_call os3) ++ [saw_self_test false]));
        [done|done|by rewrite reports_app, R]|].
      intros b s' o Hs. cbv beta in Hs. rewrite <- !app_assoc in Hs. exact Hs.
  - eapply post_mono; [eapply (gives_up _ _ s _ _ (map cc_call os2 ++ map cc_call os3)); done|].
    intros b s' o Hs. cbv beta in Hs. rewrite <- app_assoc in Hs. exact Hs.
  - eapply post_mono; [eapply (gives_up _ _ s _ _ (map cc_call os2 ++ map cc_call os3)); done|].
    intros b s' o Hs. cbv beta in Hs. rewrite <- app_assoc in Hs. exact Hs.
Qed.

Lemma wait_measurements_spec k last s n :
  post (wait_measurements others k last)
    (fun r s' o => moved s s' /\ o = []) s n.
Proof.
  revert last s n. induction k as [|k IH]; intros last s n; cbn [wait_measurements].
  { apply post_ret. split; [apply moved_refl|done]. }
  apply post_wait; [by apply calm_put|]. intros [m|] s1 n1 A1.
  - apply post_look. intros s2 n2 A2. case_match.
    + apply post_ret. split; [|done]. eapply moved_trans; by apply acted_moved.
    + eapply post_mono; [apply IH|]. intros r s3 o (M3 & Ho). split; [|done].
      do 2 (eapply moved_trans; [by apply acted_moved|]). done.
  - apply post_ret. split; [|done]. by apply acted_moved.
Qed.

Lemma isolation_true r s s' os :
  check_isolation_resistance_in_range (M := M) r s = (Ok true, s', os) ->
  (CABLECHECK_INSULATION_FAULT_RESISTANCE_OHM <= r)%Q
  /\ hlc_update_isolation_status IsolationStatus.Valid ∈ os.
Proof.
  unfold check_isolation_resistance_in_range, em_emit, ebind, eemit, eret. cbn.
  case_match eqn:Hr; intros Hs; simplify_eq/=. split; [|right; left].
  unfold Qltb in Hr. apply negb_false_iff in Hr. by apply Qle_bool_iff.
Qed.

(** The isolation was found good, by a measurement when one is asked for. *)
Definition isolation_seen (c : EvseConf) (o : list cc_event) : Prop :=
  exists r, (CABLECHECK_INSULATION_FAULT_RESISTANCE_OHM <= r)%Q
    /\ (if 0 <? cable_check_wait_number_of_imd_measurements c then [saw_resistance r] else [])
       ++ [cc_call (hlc_update_isolation_status IsolationStatus.Valid)] `sublist_of` o.

Lemma isolation_spec (s : evse_manager M) n :
  is_DC_mode s = true ->
  post (isolation_check others show fuel) (stage (isolation_seen (em_config s)) s) s n.
Proof.
  intros Hdc. apply post_call; [apply calm_imd_start|]. intros [] s1 os1 _ C1.
  apply post_look. intros s2 n2 A2. cbv zeta.
  assert (moved s s2) as M2.
  { eapply moved_trans; [by eapply called_moved|by apply acted_moved]. }
  rewrite (proj1 M2). case_match eqn:Hcount.
  - apply post_call; [by apply calm_put|]. intros [] s3 os3 _ C3.
    eapply post_bind; [apply wait_measurements_spec|]. intros last s4 n4 o (M4 & ->).
    split; [apply not_elem_of_nil|].
    assert (moved s s4) as M5.
    { eapply moved_trans; [done|]. eapply moved_trans; [by eapply called_moved|done]. }
    assert (reports (map cc_call os1 ++ map cc_call os3) = []) as R.
    { by rewrite reports_app, (proj1 C1), (proj1 C3). }
    destruct last as [m|].
    + apply post_saw; [done|]. apply post_call; [apply calm_isolation|]. intros b s5 os5 Hiso C5.
      destruct b.
      * apply isolation_true in Hiso as [Hr Hin]. apply post_ret.
        split; [eapply moved_trans; [done|by eapply called_moved]|].
        cbn [app]. rewrite app_nil_r.
        split; [rewrite app_assoc, reports_app, R; cbn; apply C5|].
        exists (resistance_F_Ohm m). split; [done|]. rewrite Hcount.
        do 2 apply sublist_inserts_l. apply sublist_skip, singleton_sublist_l, list_elem_of_fmap. eauto.
      * apply post_call; [apply calm_imd_stop|]. intros [] s6 os6 _ C6.
        apply post_call; [apply calm_errors|]. intros [] s7 os7 _ C7.
        eapply post_mono; [eapply (gives_up _ _ s _ _ ((map cc_call os1 ++ map cc_call os3)
          ++ saw_resistance (resistance_F_Ohm m) :: map cc_call os5 ++ map cc_call os6 ++ map cc_call os7))|].
        -- done.
        -- eapply moved_trans; [done|]. do 2 (eapply moved_trans; [by eapply called_moved|]).
           by eapply called_moved.
        -- rewrite reports_app, R. cbn. rewrite !reports_app.
           by rewrite (proj1 C5), (proj1 C6), (proj1 C7).
        -- intros b s' o Hs. revert Hs. cbv beta. cbn [app]. rewrite <- !app_assoc. cbn [app].
           rewrite <- !app_assoc. done.
    + apply post_call; [apply calm_imd_stop|]. intros [] s5 os5 _ C5.
      eapply post_mono; [eapply (gives_up _ _ s _ _ ((map cc_call os1 ++ map cc_call os3) ++ map cc_call os5))|].
      * done.
      * eapply moved_trans; [done|by eapply called_moved].
      * by rewrite reports_app, R, (proj1 C5).
      * intros b s' o Hs. cbv beta in Hs. by rewrite <- !app_assoc in Hs.
  - apply post_call; [by apply calm_emit|]. intros [] s3 os3 Hem C3. apply post_ret.
    split; [eapply moved_trans; [done|by eapply called_moved]|].
    rewrite app_nil_r, reports_app, (proj1 C1), (proj1 C3). split; [done|].
    exists CABLECHECK_INSULATION_FAULT_RESISTANCE_OHM. split; [apply Qle_refl|]. rewrite Hcount.
    unfold em_emit, eemit in Hem. simplify_eq/=. by apply sublist_inserts_l.
Qed.

Lemma wind_down_spec (s : evse_manager M) n :
  is_DC_mode s = true ->
  post (wind_down others show fuel)
    (stage (fun o => exists v, Qltb v CABLECHECK_SAFE_VOLTAGE = true
       /\ (if cable_check_wait_below_60V_before_finish s then [saw_voltage v] else []) `sublist_of` o) s) s n.
Proof.
  intros Hdc. apply post_look. intros s1 n1 A1.
  eapply post_bind with (R := fun _ s' o => moved s1 s' /\ reports o = []).
  { case_match; [|apply post_ret; split; [apply moved_refl|done]].
    unfold post, call. pose proof (calm_imd_stop (M := M) s1) as Hc.
    destruct (imd_stop s1) as [[[[]|?] s2] os]; [|done]. destruct Hc as (R & Hc).
    split; [|done]. by eapply called_moved. }
  intros [] s2 n2 o (M2 & Ho). rewrite Ho. split; [apply not_elem_of_nil|].
  apply post_interfere. intros s3 n3 A3. apply post_interfere. intros s4 n4 A4.
  apply post_look. intros s5 n5 A5.
  assert (moved s s5) as M5.
  { eapply moved_trans; [by apply acted_moved|]. eapply moved_trans; [done|].
    do 2 (eapply moved_trans; [by apply acted_moved|]). by apply acted_moved. }
  rewrite (proj1 M5). case_match.
  - apply post_call; [apply calm_off|]. intros [] s6 os6 _ C6.
    eapply post_mono; [apply below_safe_voltage_spec; [|apply calm_imd_stop]|].
    { unfold is_DC_mode in *. by rewrite (proj1 (proj2 C6)), (proj1 M5). }
    intros [] s7 o7 Hs.
    + destruct Hs as (M7 & R7 & v & Hv & Hin).
      split; [eapply moved_trans; [done|]; eapply moved_trans; [by eapply called_moved|done]|].
      rewrite !reports_app, Ho, (proj1 C6), R7. split; [done|]. exists v. split; [done|].
      do 2 apply sublist_inserts_l. by apply singleton_sublist_l.
    + rewrite app_assoc. eapply (failed_before 3 3 0); [|lia|done]. by rewrite reports_app, Ho, (proj1 C6).
  - apply post_ret. rewrite app_nil_r. split; [done|]. split; [done|].
    exists 0%Q. split; [done|apply sublist_nil_l].
Qed.

(** ** The whole check *)

(** After what was logged so far, a stage ends the check or goes on. *)
Lemma post_stage (pre : list cc_event) P m rest (s : evse_manager M) n
    (Q : evse_manager M -> list cc_event -> Prop) :
  reports pre = [] -> post m (stage P s) s n ->
  (forall s' o, failed 3 s' o -> Q s' o) ->
  (forall s' n' o, em_config s' = em_config s -> reports (pre ++ o) = [] -> P o ->
     post rest (fun _ s'' o' => Q s'' ((pre ++ o) ++ o')) s' n') ->
  post (and_then m rest) (fun _ s' o => Q s' (pre ++ o)) s n.
Proof.
  intros Hp Hm Hq Hr. eapply post_bind; [exact Hm|]. intros [] s1 n1 o Hs.
  - destruct Hs as (M1 & R1 & HP). rewrite R1. split; [apply not_elem_of_nil|].
    eapply post_mono; [apply Hr; [apply M1|by rewrite reports_app, Hp, R1|done]|].
    intros [] s2 o2 HQ. by rewrite app_assoc.
  - split; [apply (failed_quiet _ _ _ Hs)|]. apply post_ret. rewrite app_nil_r. apply Hq.
    by eapply (failed_before 3 3 0).
Qed.

(** What a successful check has seen, in this order. *)
Definition evidence (c : EvseConf) (low voltage : Q) (o : em_output) (up r down : Q) : list cc_event :=
  [saw_voltage low; saw_contactors_closed; cc_call o; saw_voltage up]
  ++ (if cable_check_enable_imd_self_test c then [saw_self_test true] else [])
  ++ (if 0 <? cable_check_wait_number_of_imd_measurements c then [saw_resistance r] else [])
  ++ [cc_call (hlc_update_isolation_status IsolationStatus.Valid)]
  ++ (if cable_check_wait_below_60V_before_finish c then [saw_voltage down] else [])
  ++ [cc_call (hlc_cable_check_finished true)].

Definition sound_evidence (c : EvseConf) (l : list cc_event) : Prop :=
  exists low voltage o up r down,
    (low < CABLECHECK_SAFE_VOLTAGE)%Q /\ set_voltage voltage o /\ (Qabs (up - voltage) < 10)%Q
    /\ (CABLECHECK_INSULATION_FAULT_RESISTANCE_OHM <= r)%Q /\ (down < CABLECHECK_SAFE_VOLTAGE)%Q
    /\ evidence c low voltage o up r down `sublist_of` l.

Lemma Qltb_true (a b : Q) : Qltb a b = true <-> (a < b)%Q.
Proof.
  unfold Qltb. rewrite negb_true_iff, <- not_true_iff_false, Qle_bool_iff. split.
  - apply Qnot_le_lt.
  - apply Qlt_not_le.
Qed.

Lemma thread_spec (s : evse_manager M) n :
  is_DC_mode s = true ->
  post (cable_check_thread others show fuel)
    (fun _ s' o => (reports o = [true] /\ sound_evidence (em_config s) o) \/ failed 3 s' o) s n.
Proof.
  intros Hdc. unfold cable_check_thread.
  set (Q := fun s' l => reports l = [true] /\ sound_evidence s l \/ failed 3 s' l).
  assert (forall s' o, failed 3 s' o -> Q s' o) as HQ by (by right).
  apply (post_stage [] (fun o => exists v, Qltb v CABLECHECK_SAFE_VOLTAGE = true /\ saw_voltage v ∈ o) _ _ s n Q);
    [done|by apply below_safe_voltage_spec|done|].
  intros s1 n1 o1 E1 R1 (low & Hlow & Hin). cbn [app] in *.
  apply (post_stage o1 (fun o => saw_contactors_closed ∈ o) _ _ s1 n1 Q);
    [done|apply contactors_spec; unfold is_DC_mode in *; by rewrite E1|done|].
  intros s2 n2 o2 E2 R2 Hc.
  eapply post_bind; [apply voltage_up_spec; unfold is_DC_mode in *; by rewrite E2, E1|].
  intros [v|] s3 n3 o3 Hv.
  2: { split; [apply (failed_quiet _ _ _ Hv)|]. apply post_ret. right. rewrite app_nil_r.
       eapply (failed_before 3 3 0); [exact R2|lia|done]. }
  destruct Hv as (E3 & R3 & x & up & Hset & Hup & Hsub). rewrite R3. split; [apply not_elem_of_nil|].
  assert (em_config s3 = em_config s) as E4 by congruence. clear E1 E2 E3.
  eapply post_mono; [apply (post_stage ((o1 ++ o2) ++ o3)
      (sublist (if cable_check_enable_imd_self_test s then [saw_self_test true] else []))
      _ _ s3 n3 Q)|].
  - by rewrite reports_app, R2, R3.
  - rewrite <- E4. apply self_test_spec. unfold is_DC_mode in *. by rewrite E4.
  - done.
  - intros s4 n4 o4 E5 R4 H4.
    apply (post_stage (((o1 ++ o2) ++ o3) ++ o4) (isolation_seen s) _ _ s4 n4 Q);
      [done|rewrite <- E4, <- E5; apply isolation_spec; unfold is_DC_mode in *; by rewrite E5, E4|done|].
    intros s5 n5 o5 E6 R5 (r & Hr & H5).
    apply (post_stage ((((o1 ++ o2) ++ o3) ++ o4) ++ o5) (fun o => exists v, Qltb v CABLECHECK_SAFE_VOLTAGE = true
       /\ (if cable_check_wait_below_60V_before_finish s then [saw_voltage v] else []) `sublist_of` o)
       _ _ s5 n5 Q); [done| |done|].
    { rewrite <- E4, <- E5, <- E6. apply wind_down_spec. unfold is_DC_mode in *. by rewrite E6, E5, E4. }
    intros s6 n6 o6 _ R6 (down & Hdown & H6).
    unfold post, call, em_emit, eemit. left. split; [by rewrite reports_app, R6|].
    exists low, v, x, up, r, down. rewrite <- !Qltb_true. split_and!; try done.
    unfold evidence. rewrite <- !app_assoc.
    apply (sublist_app [_]); [by apply singleton_sublist_l|].
    apply (sublist_app [_]); [by apply singleton_sublist_l|].
    apply (sublist_app [_; _]); [done|].
    apply sublist_app; [done|]. rewrite (app_assoc _ [_]). apply sublist_app; [done|].
    by apply sublist_app.
  - intros [] s' o Hs. by rewrite <- !app_assoc in *.
Qed.
End Post.

(** Success is reported only with evidence. *)
Lemma thread_evidence {M} `{ErrorMonitorLaws M}
    (others : nat -> evse_manager M -> evse_manager M) show fuel (s : evse_manager M) n :
  (forall n s, em_config (others n s) = em_config s) -> is_DC_mode s = true ->
  let l := run_out (cable_check_thread others show fuel) (s, n) in
  true ∈ reports l -> reports l = [true] /\ sound_evidence (em_config s) l.
Proof.
  intros Hconf Hdc l Hl.
  pose proof (thread_spec others show false false Hconf ltac:(done) ltac:(done) fuel ltac:(done) s n Hdc) as Hp.
  unfold l, run_out in *. unfold post in Hp.
  destruct (cable_check_thread _ _ _ (s, n)) as [[[[]|e] [s' n']] o]; cbn in *.
  - destruct Hp as [Hp|Hf]; [done|]. by destruct (failed_quiet _ _ _ _ Hf).
  - by destruct Hp as [_ Hn].
Qed.

(** C2: whatever other threads do at the same time (they leave the
    configuration alone), the cable check tells the car that it was successful
    only after it saw, in this order, the output below 60 V, the contactors
    closed, the output at the voltage it had set, a good self test of the
    isolation monitor and a resistance of at least 100 kOhm where these are
    configured, and the output below 60 V again where that is; success is then
    the only report of the run. *)
Theorem cable_check_needs_evidence {M} `{ErrorMonitorLaws M}
    (others : nat -> evse_manager M -> evse_manager M) show fuel (s : evse_manager M) n :
  (forall n s, em_config (others n s) = em_config s) -> is_DC_mode s = true ->
  let l := run_out (cable_check_thread others show fuel) (s, n) in
  true ∈ reports l -> reports l = [true] /\ sound_evidence (em_config s) l.
Proof. apply thread_evidence. Qed.

Lemma cable_check_needs_evidence_witness :
  let l := run_out (cable_check_thread (ex_devices 500000) (fun _ => "") 3) (ex_preparing, O) in
  true ∈ reports l /\ reports l = [true] /\ sound_evidence (ex_conf "DC") l.
Proof.
  assert (true ∈ reports (run_out (cable_check_thread (ex_devices 500000) (fun _ => "") 3)
    (ex_preparing, O))) as Hl by (vm_compute; left).
  split; [exact Hl|].
  apply (cable_check_needs_evidence (ex_devices 500000) (fun _ => "") 3 ex_preparing O);
    [done|vm_compute; reflexivity|exact Hl].
Defined.

(** C26: when time passes whenever other threads act, and they do not switch
    on a power supply that is off, every cable check ends, and either success
    is its only report, or failure was reported, the error of the cable check
    is active and the power supply is off. *)
Theorem cable_check_ends {M} `{ErrorMonitorLaws M}
    (others : nat -> evse_manager M -> evse_manager M) show fuel (s : evse_manager M) n :
  (forall n s, em_config (others n s) = em_config s) ->
  (forall n s, clock s < clock (others n s)) ->
  (forall n s, supply_off s -> supply_off (others n s)) ->
  VOLTAGE_TIMEOUT < Z.of_nat fuel -> is_DC_mode s = true ->
  exists s' n' l, cable_check_thread others show fuel (s, n) = (Ok tt, (s', n'), l)
    /\ (reports l = [true]
        \/ (false ∈ reports l /\ (true ∉ reports l) /\ fault_active s' /\ supply_off s')).
Proof.
  intros Hconf Hclock Hoff Hfuel Hdc.
  pose proof (thread_spec others show true true Hconf ltac:(done) ltac:(done) fuel ltac:(done) s n Hdc) as Hp.
  unfold post in Hp. destruct (cable_check_thread _ _ _ (s, n)) as [[[[]|e] [s' n']] l]; cbn in *.
  - exists s', n', l. split; [done|]. destruct Hp as [[Hp _]|Hf]; [by left|right].
    pose proof (failed_quiet _ _ _ _ Hf) as Hq. destruct Hf as ((j & Hj & _) & Hfault & Hs).
    split; [rewrite Hj; left|]. split; [done|]. split; [done|auto].
  - by destruct Hp.
Qed.

(** A cable with a fault: 20 kOhm. *)
Lemma cable_check_ends_witness :
  exists s' n' l, cable_check_thread (ex_devices 20000) (fun _ => "") (Z.to_nat 10001) (ex_preparing, O)
      = (Ok tt, (s', n'), l)
    /\ (reports l = [true]
        \/ (false ∈ reports l /\ (true ∉ reports l) /\ fault_active s' /\ supply_off s')).
Proof.
  apply (cable_check_ends (ex_devices 20000) (fun _ => "") (Z.to_nat 10001) ex_preparing O).
  - done.
  - intros n s. unfold ex_devices, advance, clock. cbn. lia.
  - intros n s Hs. unfold supply_off in *. by rewrite <- Hs.
  - vm_compute. reflexivity.
  - vm_compute. reflexivity.
Defined.

(** The faulty cable is found. *)
Example faulty_cable_fails :
  reports (run_out (cable_check_thread (ex_devices 20000) (fun _ => "") 3) (ex_preparing, O)) = [false].
Proof. vm_compute. reflexivity. Qed.

(** ** A cancelled check reports three times

    The session ends while the check waits for the voltage to drop: the
    function that waits reports the failure, so does the same function in
    [fail_cable_check], and [fail_cable_check] itself. *)
Definition ex_session_ends (n : nat) (s : ex_evse) : ex_evse :=
  advance 1 (update em_charger (update shared_context (assign current_state EvseState.StoppingCharging)) s).

Example cancelled_check_reports_thrice :
  reports (run_out (cable_check_thread ex_session_ends (fun _ => "") 3) (ex_preparing, O))
  = [false; false; false].
Proof. vm_compute. reflexivity. Qed.

(** ** The power supply is switched on after the session ended

    The loop that waits for the contactors ends when the session is over, but
    what follows only asks whether the contactors are open: while they are
    still closed, the thread sets the voltage and switches the supply on.  The
    session ends here before the contactors are looked at. *)
Definition ex_ends_at (k : nat) (n : nat) (s : ex_evse) : ex_evse :=
  let s := ex_devices 500000 n s in
  if (n <? k)%nat then s
  else update em_charger (update shared_context (assign current_state EvseState.StoppingCharging)) s.

Example switched_on_after_session :
  List.filter (fun e => match e with cc_call (psu_setMode _ _) => true | _ => false end)
    (run_out (cable_check_thread (ex_ends_at 4) (fun _ => "") 3) (ex_preparing, O))
  = [cc_call (psu_setMode Mode.Export ChargingPhase.Other);
     cc_call (psu_setMode Mode.Off ChargingPhase.Other)].
Proof. vm_compute. reflexivity. Qed.
