(* ===== verification/EvseManagerSystem.v ===== *)
(** * The EvseManager as a whole

    Everything that happens at the module, but the thread of the cable check:
    the handlers of [EvseManager] and [EvseEnergy] and the operations of the
    charger, in any order.  What this does to the charger is a history of the
    charger alone, so what holds in all of those holds here. *)
From S2P Require Import Prelude Effects EnergyTypes IECStateMachine IECProofs ErrorHandling.
From S2P Require Import ChargerTypes Charger ChargerStateMachine EvseSystem.
From S2P Require Import EvseManagerTypes EvseManager EvseEnergy.
From stdpp Require Import base tactics list numbers strings.
From Stdlib Require Import QArith.
Open Scope Z_scope.
Open Scope everest_scope.

(** [em_call]: an operation of the charger that others than the module's
    handlers cause (its threads, the board, the interfaces of the module). *)
Inductive em_op (M : Type) : Type :=
| em_call (w : world) (op : charger_op M)
| em_hw_capabilities (c : HardwareCapabilities)
| em_psu_capabilities (c : Capabilities)
| em_derating (d : ExternalDerating)
| em_slac_state (st : string)
| em_dlink_error
| em_dlink_pause
| em_dlink_terminate
| em_selected_service (c : ServiceCategory.t)
| em_start_cable_check
| em_start_pre_charge
| em_current_demand_started
| em_current_demand_finished
| em_dc_open_contactor
| em_isolation_measurement (describe : Q -> string) (m : IsolationMeasurement)
| em_self_test_result (result : bool)
| em_voltage_current (m : VoltageCurrent)
| em_dc_ev_target (v : DcEvTargetValues)
| em_dc_dynamic (v : DcChargeDynamicModeValues)
| em_dc_ev_maximum_limits (l : DcEvMaximumLimits)
| em_sae_bidi_mode (utc : Z)
| em_local_limit (l : ExternalLimits)
| em_energy_ready (utc : nat -> Z)
| em_energy_thread (utc : nat -> Z)
| em_pending_request (utc : nat -> Z)
| em_car_side_powermeter (p : Powermeter)
| em_grid_side_powermeter (p : Powermeter)
| em_random_delay_enable
| em_random_delay_disable
| em_random_delay_cancel
| em_random_delay_duration (v : Z)
| em_enforce_limits (utc rand : Z) (l : EnforcedLimits).
Arguments em_call {M}.
Arguments em_hw_capabilities {M}.
Arguments em_psu_capabilities {M}.
Arguments em_derating {M}.
Arguments em_slac_state {M}.
Arguments em_dlink_error {M}.
Arguments em_dlink_pause {M}.
Arguments em_dlink_terminate {M}.
Arguments em_selected_service {M}.
Arguments em_start_cable_check {M}.
Arguments em_start_pre_charge {M}.
Arguments em_current_demand_started {M}.
Arguments em_current_demand_finished {M}.
Arguments em_dc_open_contactor {M}.
Arguments em_isolation_measurement {M}.
Arguments em_self_test_result {M}.
Arguments em_voltage_current {M}.
Arguments em_dc_ev_target {M}.
Arguments em_dc_dynamic {M}.
Arguments em_dc_ev_maximum_limits {M}.
Arguments em_sae_bidi_mode {M}.
Arguments em_local_limit {M}.
Arguments em_energy_ready {M}.
Arguments em_energy_thread {M}.
Arguments em_pending_request {M}.
Arguments em_car_side_powermeter {M}.
Arguments em_grid_side_powermeter {M}.
Arguments em_random_delay_enable {M}.
Arguments em_random_delay_disable {M}.
Arguments em_random_delay_cancel {M}.
Arguments em_random_delay_duration {M}.
Arguments em_enforce_limits {M}.

Section System.
Context {M : Type} `{ErrorMonitor M} `{Dates}.

(** The calls on the charger that do not come from a handler below.  Its limits are
    set by the energy interface alone, so that these three are no calls from
    outside: as operations they do nothing.  The thread of the cable check is not
    among the operations: [CableCheck] runs it with any other threads. *)
Definition call_action (w : world) (op : charger_op M) : EM M unit :=
  match op with
  | op_iec_feed now => em_board w (op_feed now)
  | op_board_event e => em_board w (op_bsp_event e)
  | op_connector_force_unlock => em_board w op_force_unlock
  | op_cp_event e => on_bsp_event w e
  | op_set_max_current _ _ | op_max_limits _ | op_min_limits _ => eret tt
  | _ => charger_call (charger_action w op)
  end.

Definition em_action (op : em_op M) : EM M unit :=
  match op with
  | em_call w op => call_action w op
  | em_hw_capabilities c => on_bsp_capabilities c
  | em_psu_capabilities c => on_powersupply_capabilities c
  | em_derating d => set_external_derating d
  | em_slac_state st => on_slac_state st
  | em_dlink_error => on_dlink_error
  | em_dlink_pause => on_dlink_pause
  | em_dlink_terminate => on_dlink_terminate
  | em_selected_service c => on_selected_service c
  | em_start_cable_check => on_start_cable_check
  | em_start_pre_charge => on_start_pre_charge
  | em_current_demand_started => on_current_demand_started
  | em_current_demand_finished => on_current_demand_finished
  | em_dc_open_contactor => on_dc_open_contactor
  | em_isolation_measurement describe m => on_isolation_measurement describe m
  | em_self_test_result result => on_self_test_result result
  | em_voltage_current m => on_voltage_current m
  | em_dc_ev_target v => on_dc_ev_target v
  | em_dc_dynamic v => on_dc_dynamic v
  | em_dc_ev_maximum_limits l => on_dc_ev_maximum_limits l
  | em_sae_bidi_mode utc => on_sae_bidi_mode_active utc
  | em_local_limit l => update_local_energy_limit l
  | em_energy_ready utc => energy_ready utc
  | em_energy_thread utc => energy_thread_round utc
  | em_pending_request utc => pending_request_runs utc
  | em_car_side_powermeter p => on_car_side_powermeter p
  | em_grid_side_powermeter p => on_grid_side_powermeter p
  | em_random_delay_enable => handle_enable
  | em_random_delay_disable => handle_disable
  | em_random_delay_cancel => handle_cancel
  | em_random_delay_duration v => handle_set_duration_s v
  | em_enforce_limits utc rand l => handle_enforce_limits utc rand l
  end.

Definition run_em (ops : list (em_op M)) : EM M unit := efor ops em_action.

(** ** What an operation does to the charger *)

Definition charger_outs (os : list em_output) : list logged :=
  omap (fun o => match o with charger_out l => Some l | _ => None end) os.

Lemma charger_outs_app l l' : charger_outs (l ++ l') = charger_outs l ++ charger_outs l'.
Proof. apply omap_app. Qed.

(** [acts m c s]: if [m] returns from [s], it has run [c] on the charger. *)
Definition acts {A} (m : EM M A) (c : CH M unit) (s : evse_manager M) : Prop :=
  match m s with
  | (Ok _, s', os) =>
      c (em_charger s) = (Ok tt, em_charger s', charger_outs os)
  | (Err _, _, _) => True
  end.

Definition silent {A} (m : EM M A) : Prop := forall s, acts m (eret tt) s.

Lemma silent_ret {A} (a : A) : silent (eret a).
Proof. done. Qed.
Lemma silent_throw {A} e : silent (ethrow e : EM M A).
Proof. done. Qed.

Lemma acts_silent_l {A B} (m : EM M A) (k : A -> EM M B) c s :
  silent m -> (forall a s', em_charger s' = em_charger s -> acts (k a) c s') -> acts (ebind m k) c s.
Proof.
  intros Hm Hk. specialize (Hm s). unfold acts, ebind in *.
  destruct (m s) as [[[a|e] s1] o1]; [|done]. injection Hm as E1 E2. specialize (Hk a s1 (eq_sym E1)).
  destruct (k a s1) as [[[b|e] s2] o2]; [|done].
  by rewrite E1, charger_outs_app, <- E2.
Qed.

Lemma acts_silent_r {A B} (m : EM M A) (k : A -> EM M B) c s :
  acts m c s -> (forall a, silent (k a)) -> acts (ebind m k) c s.
Proof.
  intros Hm Hk. unfold acts, ebind in *. destruct (m s) as [[[a|e] s1] o1]; [|done].
  specialize (Hk a s1). unfold acts in Hk. destruct (k a s1) as [[[b|e] s2] o2]; [|done].
  injection Hk as E1 E2. by rewrite charger_outs_app, <- E1, <- E2, app_nil_r.
Qed.

Lemma acts_get {A} (k : evse_manager M -> EM M A) c s : acts (k s) c s -> acts (ebind mod_state k) c s.
Proof. unfold acts. by rewrite run_get_bind. Qed.

Lemma silent_bind {A B} (m : EM M A) (k : A -> EM M B) :
  silent m -> (forall a, silent (k a)) -> silent (ebind m k).
Proof. intros Hm Hk s. by apply acts_silent_r. Qed.
Lemma silent_get {A} (k : evse_manager M -> EM M A) : (forall s, silent (k s)) -> silent (ebind mod_state k).
Proof. intros Hk s. by apply acts_get, Hk. Qed.
Lemma silent_put f : (forall s, em_charger (f s) = em_charger s) -> silent (em_put f).
Proof. intros Hf s. unfold acts, em_put, emodify, eret. by rewrite Hf. Qed.
Lemma silent_emit o : charger_outs [o] = [] -> silent (em_emit o).
Proof. intros Ho s. unfold acts, em_emit, eemit, eret. by rewrite Ho. Qed.
Lemma silent_when b (m : EM M unit) : silent m -> silent (em_when b m).
Proof. by destruct b. Qed.
End System.

Arguments em_op M : clear implicits.

(** Walks through an operation that leaves the charger alone. *)
Create HintDb silent.
#[export] Hint Resolve silent_ret silent_throw : silent.
#[export] Hint Extern 2 (silent (ebind mod_state _)) => apply silent_get; intros ? : silent.
#[export] Hint Extern 3 (silent (ebind _ _)) => apply silent_bind; [|intros ?] : silent.
#[export] Hint Extern 1 (silent (em_put _)) => apply silent_put; reflexivity : silent.
#[export] Hint Extern 1 (silent (em_emit _)) => apply silent_emit; reflexivity : silent.
#[export] Hint Extern 1 (silent (em_when _ _)) => apply silent_when : silent.
#[export] Hint Extern 4 (silent (if _ then _ else _)) => case_match : silent.
#[export] Hint Extern 4 (silent (match _ with _ => _ end)) => case_match : silent.

Section Silent.
Context {M : Type} `{ErrorMonitor M} `{Dates}.

Lemma silent_off : silent (powersupply_DC_off (M := M)).
Proof. unfold powersupply_DC_off. eauto 20 with silent. Qed.
Lemma silent_on : silent (powersupply_DC_on (M := M)).
Proof. unfold powersupply_DC_on. eauto 20 with silent. Qed.
Lemma silent_imd_stop : silent (imd_stop (M := M)).
Proof. unfold imd_stop. eauto 20 with silent. Qed.
Lemma silent_imd_start : silent (imd_start (M := M)).
Proof. unfold imd_start. eauto 20 with silent. Qed.
Lemma silent_set v c : silent (powersupply_DC_set (M := M) v c).
Proof. unfold powersupply_DC_set. cbv zeta. eauto 20 with silent. Qed.
Lemma silent_apply_target : silent (apply_new_target_voltage_current (M := M)).
Proof. unfold apply_new_target_voltage_current. eauto 20 using silent_set with silent. Qed.
Lemma silent_isolation r : silent (check_isolation_resistance_in_range (M := M) r).
Proof. unfold check_isolation_resistance_in_range. eauto 20 with silent. Qed.
Lemma silent_changed_target : silent (apply_changed_target (M := M)).
Proof. unfold apply_changed_target. eauto 20 using silent_apply_target, silent_on with silent. Qed.
Lemma silent_supported e : silent (update_supported_energy_transfers (M := M) e).
Proof. unfold update_supported_energy_transfers. eauto 20 with silent. Qed.
Lemma silent_ac_parameters : silent (update_hlc_ac_parameters (M := M)).
Proof. unfold update_hlc_ac_parameters. cbv zeta. eauto 20 with silent. Qed.

Lemma silent_react o : silent (react (M := M) o).
Proof.
  unfold react, reset_ev_info, on_max_current, on_charger_state.
  apply silent_get. intros s. destruct o; eauto 20 using silent_off, silent_imd_stop with silent.
Qed.

(** ** Calls on the charger *)

Lemma react_all_outs os (s : evse_manager M) :
  match react_all os s with
  | (Ok _, s', o) => em_charger s' = em_charger s /\ charger_outs o = os
  | (Err _, _, _) => True
  end.
Proof.
  revert s. induction os as [|o os IH]; intros s; unfold react_all in *; cbn [efor]; [done|].
  unfold ebind at 1. unfold ebind at 1. unfold em_emit, eemit.
  pose proof (silent_react o.1 s) as Hr. unfold acts in Hr.
  destruct (react o.1 s) as [[[[]|e] s1] o1]; [|done]. injection Hr as E1 E2.
  specialize (IH s1). destruct (efor os _ s1) as [[[[]|e] s2] o2]; [|done].
  destruct IH as [F1 F2]. split; [congruence|]. cbn. by rewrite charger_outs_app, <- E2, F2.
Qed.

Lemma acts_call {A} (m : CH M A) s : acts (charger_call m) (m ;;; eret tt) s.
Proof.
  unfold acts, charger_call, ebind, eret. destruct (m (em_charger s)) as [[[a|[]] c] os].
  pose proof (react_all_outs os (assign em_charger c s)) as Hr.
  destruct (react_all os (assign em_charger c s)) as [[[[]|e] s1] o1]; [|done].
  destruct Hr as [-> Hr]. by rewrite !app_nil_r, Hr.
Qed.

(** Programs of the charger that do the same. *)
Lemma acts_ext {A} (m : EM M A) c c' s :
  c (em_charger s) = c' (em_charger s) -> acts m c s -> acts m c' s.
Proof. intros Hc. unfold acts. by rewrite Hc. Qed.

Lemma acts_for {A} (f : A -> EM M unit) (g : A -> CH M unit) l s :
  (forall x s, acts (f x) (g x) s) -> acts (efor l f) (efor l g) s.
Proof.
  intros Hf. revert s. induction l as [|x l IH]; intros s; cbn [efor]; [done|].
  specialize (Hf x s). unfold acts, ebind in *. destruct (f x s) as [[[[]|e] s1] o1]; [|done].
  specialize (IH s1). destruct (efor l f s1) as [[[[]|e] s2] o2]; [|done].
  by rewrite Hf, IH, charger_outs_app.
Qed.

Lemma acts_bind {A B} (m : EM M A) (k : A -> EM M B) c c' s :
  acts m c s -> (forall a s', acts (k a) c' s') -> acts (ebind m k) (c ;;; c') s.
Proof.
  intros Hm Hk. unfold acts, ebind in *. destruct (m s) as [[[a|e] s1] o1]; [|done].
  specialize (Hk a s1). destruct (k a s1) as [[[b|e] s2] o2]; [|done].
  by rewrite Hm, Hk, charger_outs_app.
Qed.

(** The charger processes each event of the board once. *)
Lemma acts_event w e s : acts (EvseManager.on_bsp_event (M := M) w e) (process_event w e) s.
Proof.
  unfold EvseManager.on_bsp_event. apply acts_get.
  apply acts_silent_l; [unfold forward_to_slac; destruct e; eauto 20 with silent|]. intros _ s1 E1.
  apply acts_silent_l; [eauto with silent|]. intros _ s2 E2.
  apply acts_silent_r.
  - eapply acts_ext; [|apply acts_call]. unfold ebind, eret.
    destruct (process_event w e (em_charger s2)) as [[[[]|[]] c] os]. by rewrite app_nil_r.
  - intros _. unfold forward_to_hlc, forget_target. destruct e; eauto 20 with silent.
Qed.

Lemma acts_board w op s : acts (em_board (M := M) w op) (board w op) s.
Proof.
  unfold em_board, board. apply acts_get.
  eapply acts_ext with (c := bsp_call (iec_op_action op) ;;;
    efor (events_of (run_out (iec_op_action op) (bsp (em_charger s)))) (process_event w)).
  { by rewrite run_get_bind. }
  apply acts_bind.
  - eapply acts_ext; [|apply acts_call]. unfold ebind, eret, bsp_call.
    destruct (iec_op_action op (bsp (em_charger s))) as [[r b] os]. by rewrite app_nil_r.
  - intros _ s'. apply acts_for. intros e s1. apply acts_event.
Qed.
End Silent.

(** ** Histories of the charger *)

(** The operations that set limits. *)
Definition limits_op {M} (op : charger_op M) : bool :=
  match op with
  | op_set_max_current _ _ | op_max_limits _ | op_min_limits _ => true
  | _ => false
  end.

Section Simulation.
Context {M : Type} `{ErrorMonitor M}.

(** What [m] does to the charger is a history of operations that are
    allowed. *)
Definition sim {A} (allowed : charger_op M -> Prop) (m : EM M A) : Prop :=
  forall s, exists h : history M, Forall (fun x => allowed x.2) h /\ acts m (run_history h) s.

Context (allowed : charger_op M -> Prop).

Lemma run_history_app (h h' : history M) c :
  run_history (h ++ h') c = (run_history h ;;; run_history h') c.
Proof. apply efor_app. Qed.

Lemma sim_silent {A} (m : EM M A) : silent m -> sim allowed m.
Proof. intros Hm s. exists []. split; [done|apply Hm]. Qed.

Lemma sim_bind {A B} (m : EM M A) (k : A -> EM M B) :
  sim allowed m -> (forall a, sim allowed (k a)) -> sim allowed (ebind m k).
Proof.
  intros Hm Hk s. destruct (Hm s) as (h & Ha & Hh). unfold acts in Hh.
  destruct (m s) as [[[a|e] s1] o1] eqn:Em.
  - destruct (Hk a s1) as (h' & Ha' & Hh'). exists (h ++ h'). split; [by apply Forall_app|].
    unfold acts, ebind in *. rewrite Em.
    destruct (k a s1) as [[[b|e] s2] o2]; [|done].
    rewrite run_history_app. unfold ebind. by rewrite Hh, Hh', charger_outs_app.
  - exists []. split; [done|]. unfold acts, ebind. by rewrite Em.
Qed.

Lemma sim_get {A} (k : evse_manager M -> EM M A) :
  (forall s, sim allowed (k s)) -> sim allowed (ebind mod_state k).
Proof. intros Hk s. destruct (Hk s s) as (h & Ha & Hh). exists h. split; [done|]. by apply acts_get. Qed.

Lemma sim_when b (m : EM M unit) : sim allowed m -> sim allowed (em_when b m).
Proof. destruct b; [done|]. intros _. by apply sim_silent. Qed.

Lemma sim_op {A} (m : EM M A) w op :
  allowed op -> (forall s, acts m (charger_action w op) s) -> sim allowed m.
Proof.
  intros Ha Hm s. exists [(w, op)]. split; [by constructor|].
  eapply acts_ext; [|apply Hm]. unfold run_history. cbn [efor].
  unfold ebind, eret. destruct (charger_action w op (em_charger s)) as [[[[]|[]] c] os].
  by rewrite app_nil_r.
Qed.

(** A call that is an operation of the charger. *)
Lemma sim_call w op : allowed op -> sim allowed (charger_call (charger_action (M := M) w op)).
Proof.
  intros Ha. apply (sim_op _ w op Ha). intros s. eapply acts_ext; [|apply acts_call]. unfold ebind, eret.
  destruct (charger_action w op (em_charger s)) as [[[[]|[]] c] os]. by rewrite app_nil_r.
Qed.
Lemma sim_call_bool w op (m : CH M bool) :
  allowed op -> charger_action w op = (m ;;; eret tt) -> sim allowed (charger_call m).
Proof. intros Ha Hm. apply (sim_op _ w op Ha). intros s. rewrite Hm. apply acts_call. Qed.

(** The answers of the environment do not matter to the operations the
    handlers call. *)
Definition any_world : world :=
  mkWorld (fun _ _ => TransactionRequestStatus.OK)
    (fun _ _ => mkStopResponse TransactionRequestStatus.OK None None) 0 Ampacity.None None (fun _ => ""%string).

Lemma sim_three_phases b :
  allowed (op_set_three_phases b) ->
  sim allowed (charger_call (bsp_call (iec_op_action (op_three_phases b)))).
Proof.
  intros Ha. apply (sim_op _ any_world _ Ha). intros s.
  eapply acts_ext; [|apply acts_call]. reflexivity.
Qed.
End Simulation.

Ltac is_allowed := solve [assumption | exact I | by eauto].

(** The operation of the charger behind a call. *)
Ltac sim_call_op :=
  lazymatch goal with
  | |- sim ?al (charger_call (bsp_call (iec_op_action (op_three_phases ?b)))) => apply sim_three_phases; is_allowed
  | |- sim ?al (charger_call (set_connector_type ?t)) =>
      apply (sim_call al any_world (op_connector_type t)); is_allowed
  | |- sim ?al (charger_call (set_matching_started ?m)) =>
      apply (sim_call al any_world (op_matching_started m)); is_allowed
  | |- sim ?al (charger_call dlink_error) => apply (sim_call al any_world op_dlink_error); is_allowed
  | |- sim ?al (charger_call dlink_pause) => apply (sim_call al any_world op_dlink_pause); is_allowed
  | |- sim ?al (charger_call dlink_terminate) =>
      apply (sim_call al any_world op_dlink_terminate); is_allowed
  | |- sim ?al (charger_call notify_currentdemand_started) =>
      apply (sim_call al any_world op_currentdemand_started); is_allowed
  | |- sim ?al (error_handling_call (raise_isolation_resistance_fault ?d)) =>
      apply (sim_call al any_world (op_errors (isolation_fault d))); is_allowed
  | |- sim ?al (charger_call (inform_new_evse_max_hlc_limits ?l)) =>
      apply (sim_call al any_world (op_max_limits l)); is_allowed
  | |- sim ?al (charger_call (inform_new_evse_min_hlc_limits ?l)) =>
      apply (sim_call al any_world (op_min_limits l)); is_allowed
  | |- sim ?al (charger_call (set_max_current ?c ?t)) =>
      apply (sim_call_bool al any_world (op_set_max_current c t)); [is_allowed|done]
  | |- sim ?al (charger_call resume_charging_power_available) =>
      apply (sim_call_bool al any_world op_resume_power_available); [is_allowed|done]
  | |- sim ?al (charger_call (Charger.switch_three_phases ?n)) =>
      apply (sim_call_bool al any_world (op_switch_three_phases n)); [is_allowed|done]
  end.

#[export] Hint Resolve silent_off silent_on silent_imd_stop silent_imd_start silent_set
  silent_apply_target silent_isolation silent_changed_target silent_supported silent_ac_parameters
  : silent.

Ltac sim_walk :=
  repeat first
    [ sim_call_op
    | apply sim_get; intros ? | apply sim_when | apply sim_bind; [|intros ?]
    | case_match
    | solve [apply sim_silent; eauto 20 with silent] ].

Section Refinement.
Context {M : Type} `{ErrorMonitor M} `{Dates}.

Definition enforces (op : em_op M) : bool :=
  match op with em_enforce_limits _ _ _ => true | _ => false end.

Lemma sim_call_action (allowed : charger_op M -> Prop) w op :
  (forall op, limits_op op = false -> allowed op) -> sim allowed (call_action (M := M) w op).
Proof.
  intros Ha. destruct op; cbn [call_action]; try (apply sim_call; by apply Ha);
    try (apply sim_silent; apply silent_ret).
  - apply (sim_op _ _ w (op_iec_feed now)); [by apply Ha|]. intros s. apply acts_board.
  - apply (sim_op _ _ w (op_board_event e)); [by apply Ha|]. intros s. apply acts_board.
  - apply (sim_op _ _ w op_connector_force_unlock); [by apply Ha|]. intros s. apply acts_board.
  - apply (sim_op _ _ w (op_cp_event e)); [by apply Ha|]. intros s. apply acts_event.
Qed.

Lemma sim_enforce utc rand l : sim (fun _ => True) (handle_enforce_limits (M := M) utc rand l).
Proof.
  unfold handle_enforce_limits, apply_phase_limit, apply_watt_limit, set_charger_limit,
    enforce_dc_limits, put_energy. cbv zeta. sim_walk.
Qed.

(** Without enforced limits the limits of the charger are left alone. *)
Lemma sim_handler (allowed : charger_op M -> Prop) op :
  (forall op, limits_op op = false -> allowed op) -> enforces op = false ->
  sim allowed (em_action (M := M) op).
Proof.
  intros Ha He. destruct op; cbn [em_action]; [by apply sim_call_action| ..|done];
    unfold on_bsp_capabilities, on_powersupply_capabilities, update_powersupply_capabilities,
      set_external_derating, on_slac_state, on_dlink_error, on_dlink_pause, on_dlink_terminate,
      on_selected_service, on_start_cable_check, on_start_pre_charge, on_current_demand_started,
      on_current_demand_finished, on_dc_open_contactor, on_isolation_measurement, on_self_test_result,
      on_voltage_current, on_dc_ev_target, on_dc_dynamic, on_dc_ev_maximum_limits,
      on_sae_bidi_mode_active, setup_v2h_mode, update_local_energy_limit, energy_ready,
      energy_thread_round, pending_request_runs, clear_import_request_schedule,
      clear_export_request_schedule, on_car_side_powermeter, on_grid_side_powermeter, handle_enable,
      handle_disable, handle_cancel, handle_set_duration_s, put_request, put_energy; cbv zeta;
    sim_walk.
Qed.

Lemma sim_action op : sim (fun _ => True) (em_action (M := M) op).
Proof. destruct (enforces op) eqn:He; [destruct op; try done; apply sim_enforce|by apply sim_handler]. Qed.
End Refinement.
