(* ===== verification/EvseManagerProperties.v ===== *)
(** * The EvseManager: what it guarantees

    What is given to the DC power supply stays within its capabilities
    ([bounded]), and the limits a car is told follow the power the energy
    manager allows ([told]).  The module gives the power supply set points within
    its capabilities, and keeps a car within the power the energy manager allows. *)
From S2P Require Import Prelude IECStateMachine IECProofs Effects ErrorHandling ChargerTypes.
From S2P Require Import Charger ChargerStateMachine ChargerTermination EvseSystem.
From S2P Require Import ChargerExample EnergyTypes EnergyTests EvseManagerTypes EvseManager.
From S2P Require Import EvseEnergy CableCheckProperties EvseManagerSystem.
From stdpp Require Import base tactics list numbers strings.
From Stdlib Require Import QArith Qabs Lqa.
Open Scope Z_scope.
Open Scope everest_scope.

Lemma Qltb_iff (a b : Q) : Qltb a b = true <-> (a < b)%Q.
Proof.
  unfold Qltb. rewrite negb_true_iff, <- not_true_iff_false, Qle_bool_iff. split.
  - apply Qnot_le_lt.
  - apply Qlt_not_le.
Qed.
Lemma Qltb_false (a b : Q) : Qltb a b = false <-> (b <= a)%Q.
Proof. unfold Qltb. by rewrite negb_false_iff, Qle_bool_iff. Qed.

(** ** Set points *)

(** A set point of the power supply is within its voltages, at least its
    minimal current and at most the maximal one, or exactly the minimal one
    where that is higher. *)
Definition within_capabilities (c : Capabilities) (o : em_output) : Prop :=
  match o with
  | psu_setExportVoltageCurrent v i =>
      (min_export_voltage_V c <= v <= max_export_voltage_V c)%Q
      /\ (min_export_current_A c <= i)%Q
      /\ ((i <= max_export_current_A c)%Q \/ i = min_export_current_A c)
  | psu_setImportVoltageCurrent v i =>
      (exists lowest highest, min_import_voltage_V c = Some lowest /\ max_import_voltage_V c = Some highest
         /\ (lowest <= v <= highest)%Q)
      /\ (forall m, min_import_current_A c = Some m -> (m <= i)%Q)
      /\ (forall m, max_import_current_A c = Some m -> (i <= m)%Q \/ min_import_current_A c = Some i)
  | _ => True
  end.

Lemma at_least_at_most lo hi c :
  (forall m, lo = Some m -> (m <= at_least lo (at_most hi c))%Q)
  /\ (forall m, hi = Some m -> (at_least lo (at_most hi c) <= m)%Q \/ lo = Some (at_least lo (at_most hi c))).
Proof.
  unfold at_least, at_most. destruct lo as [l|], hi as [h|]; cbn; split; intros m [= <-];
    repeat match goal with |- context [Qltb ?a ?b] => destruct (Qltb a b) eqn:? end;
    rewrite ?Qltb_iff, ?Qltb_false in *; try (by right); try (left; lra); lra.
Qed.

Section Bounded.
Context {M : Type} `{ErrorMonitor M} `{Dates}.
Implicit Types (s : evse_manager M).

Definition bounded {A} (m : EM M A) : Prop := forall s,
  Forall (within_capabilities (get_powersupply_capabilities s)) (run_out m s)
  /\ powersupply_capabilities (run_state m s) = powersupply_capabilities s
  /\ dc_external_derate (run_state m s) = dc_external_derate s.

Lemma bounded_caps {A} (m : EM M A) s :
  bounded m -> get_powersupply_capabilities (run_state m s) = get_powersupply_capabilities s.
Proof. intros Hm. destruct (Hm s) as (_ & E1 & E2). unfold get_powersupply_capabilities. by rewrite E1, E2. Qed.

Lemma bounded_ret {A} (a : A) : bounded (eret a).
Proof. intros s. by split. Qed.
Lemma bounded_throw {A} e : bounded (ethrow e : EM M A).
Proof. intros s. by split. Qed.
Lemma bounded_get {A} (k : evse_manager M -> EM M A) : (forall s, bounded (k s)) -> bounded (ebind mod_state k).
Proof. intros Hk s. unfold run_out, run_state. rewrite run_get_bind. apply Hk. Qed.
Lemma bounded_put f :
  (forall s, powersupply_capabilities (f s) = powersupply_capabilities s
             /\ dc_external_derate (f s) = dc_external_derate s) -> bounded (em_put f).
Proof. intros Hf s. split; [done|apply Hf]. Qed.
Lemma bounded_emit o : (forall c, within_capabilities c o) -> bounded (em_emit o).
Proof. intros Ho s. split; [by constructor|done]. Qed.
Lemma bounded_when b (m : EM M unit) : bounded m -> bounded (em_when b m).
Proof. destruct b; [done|]. intros _. apply bounded_ret. Qed.

Lemma bounded_bind {A B} (m : EM M A) (k : A -> EM M B) :
  bounded m -> (forall a, bounded (k a)) -> bounded (ebind m k).
Proof.
  intros Hm Hk s. pose proof (bounded_caps m s Hm) as Hc. specialize (Hm s).
  unfold run_out, run_state, ebind in *. destruct (m s) as [[[a|e] s1] o1]; [|done].
  specialize (Hk a s1). unfold run_out, run_state in Hk. cbn in *. rewrite Hc in Hk.
  destruct (k a s1) as [[r s2] o2]; cbn in *. destruct Hm as (F1 & E1 & E2), Hk as (F2 & E3 & E4).
  split; [by apply Forall_app|]. split; congruence.
Qed.

Lemma bounded_for {A} (l : list A) (f : A -> EM M unit) : (forall x, bounded (f x)) -> bounded (efor l f).
Proof.
  intros Hf. induction l as [|x l IH]; cbn [efor]; [apply bounded_ret|]. by apply bounded_bind.
Qed.
End Bounded.

Create HintDb bounded.
#[export] Hint Resolve bounded_ret bounded_throw : bounded.
#[export] Hint Extern 2 (bounded (ebind mod_state _)) => apply bounded_get; intros ? : bounded.
#[export] Hint Extern 3 (bounded (ebind _ _)) => apply bounded_bind; [|intros ?] : bounded.
#[export] Hint Extern 1 (bounded (em_put _)) => apply bounded_put; intros; split; reflexivity : bounded.
#[export] Hint Extern 1 (bounded (em_emit _)) => apply bounded_emit; intros; exact I : bounded.
#[export] Hint Extern 1 (bounded (em_when _ _)) => apply bounded_when : bounded.
#[export] Hint Extern 1 (bounded (efor _ _)) => apply bounded_for; intros ? : bounded.
#[export] Hint Extern 4 (bounded (if _ then _ else _)) => case_match : bounded.
#[export] Hint Extern 4 (bounded (match _ with _ => _ end)) => case_match : bounded.

Section Setpoints.
Context {M : Type} `{ErrorMonitor M} `{Dates}.
Implicit Types (s : evse_manager M).

Lemma bounded_set v c : bounded (powersupply_DC_set (M := M) v c).
Proof.
  intros s. set (caps := get_powersupply_capabilities s).
  unfold run_out, run_state, powersupply_DC_set. rewrite run_get_bind. fold caps.
  set (i := corrected_current s c).
  destruct (at_least_at_most (Some (min_export_current_A caps)) (Some (max_export_current_A caps)) i) as [X1 X2].
  destruct (at_least_at_most (min_import_current_A caps) (max_import_current_A caps) i) as [I1 I2].
  specialize (X1 _ eq_refl). specialize (X2 _ eq_refl). cbv zeta. fold i.
  set (x := at_least (Some _) _) in *. set (y := at_least (min_import_current_A caps) _) in *.
  clearbody caps i x y. unfold em_when, em_put, em_emit, ebind, emodify, eemit, eret.
  repeat (case_match; simplify_eq/=);
    (split; [|done]); repeat apply Forall_cons_2; try done; try apply Forall_nil_2; cbn;
    repeat match goal with
    | Hx : (_ && _)%bool = true |- _ => apply andb_true_iff in Hx as [? ?]
    | Hx : Qle_bool _ _ = true |- _ => apply Qle_bool_iff in Hx
    end.
  all: first
    [ split; [eexists _, _; split; [eassumption|]; split; [eassumption|]; by split|by split]
    | split; [by split|]; split; [done|]; destruct X2 as [X2|X2]; [by left|right; congruence] ].
Qed.

Lemma bounded_off : bounded (powersupply_DC_off (M := M)).
Proof. unfold powersupply_DC_off. eauto 20 with bounded. Qed.
Lemma bounded_imd_stop : bounded (imd_stop (M := M)).
Proof. unfold imd_stop. eauto 20 with bounded. Qed.
Lemma bounded_apply : bounded (apply_new_target_voltage_current (M := M)).
Proof. unfold apply_new_target_voltage_current. eauto 20 using bounded_set with bounded. Qed.

Lemma bounded_react o : bounded (react (M := M) o).
Proof.
  unfold react, reset_ev_info, on_max_current, on_charger_state.
  apply bounded_get. intros s. destruct o; eauto 20 using bounded_off, bounded_imd_stop with bounded.
Qed.

Lemma bounded_call {A} (m : CH M A) : bounded (charger_call m).
Proof.
  intros s. unfold run_out, run_state, charger_call. destruct (m (em_charger s)) as [[[a|[]] c] os].
  assert (bounded (react_all (M := M) os ;;; eret a)) as Hb.
  { unfold react_all. eauto using bounded_react with bounded. }
  destruct (Hb (assign em_charger c s)) as (F & E1 & E2). by split_and!.
Qed.
End Setpoints.

#[export] Hint Resolve bounded_set bounded_off bounded_imd_stop bounded_apply bounded_call : bounded.
#[export] Hint Extern 1 (bounded (error_handling_call _)) => apply bounded_call : bounded.

Ltac bounded_walk :=
  repeat first
    [ solve [auto 2 with bounded nocore]
    | apply bounded_get; intros ? | apply bounded_when | apply bounded_bind; [|intros ?]
    | apply bounded_for; intros ? | apply bounded_put; intros; split; reflexivity
    | apply bounded_emit; intros; exact I | case_match ].

Section Operations.
Context {M : Type} `{ErrorMonitor M} `{Dates}.
Implicit Types (s : evse_manager M).

Lemma bounded_event w e : bounded (EvseManager.on_bsp_event (M := M) w e).
Proof. unfold EvseManager.on_bsp_event, forward_to_slac, forward_to_hlc, forget_target. bounded_walk. Qed.

Lemma bounded_board w op : bounded (em_board (M := M) w op).
Proof.
  apply bounded_get. intros s. apply bounded_bind; [apply bounded_call|]. intros _.
  apply bounded_for. intros e. apply bounded_event.
Qed.

Lemma bounded_enforce utc rand l : bounded (handle_enforce_limits (M := M) utc rand l).
Proof.
  unfold handle_enforce_limits, apply_phase_limit, apply_watt_limit, set_charger_limit, delayed_limit,
    random_delay_needed, start_random_delay, enforce_dc_limits, put_energy. cbv zeta. bounded_walk.
Qed.

(** New capabilities change the bounds, but set nothing. *)
Lemma out_bind {A B} (P : em_output -> Prop) (m : EM M A) (k : A -> EM M B) :
  (forall s, Forall P (run_out m s)) -> (forall a s, Forall P (run_out (k a) s)) ->
  forall s, Forall P (run_out (ebind m k) s).
Proof.
  intros Hm Hk s. specialize (Hm s). unfold run_out, ebind in *. destruct (m s) as [[[a|e] s1] o1]; [|done].
  specialize (Hk a s1). destruct (k a s1) as [[r s2] o2]. by apply Forall_app.
Qed.

Lemma psu_capabilities_plain c caps s :
  Forall (within_capabilities caps) (run_out (on_powersupply_capabilities (M := M) c) s).
Proof.
  revert s. unfold on_powersupply_capabilities, update_powersupply_capabilities,
    update_supported_energy_transfers, em_when.
  repeat first
    [ apply out_bind; [|intros ?]
    | case_match
    | intros s; solve [apply Forall_nil_2 | apply Forall_cons_2; [exact I|apply Forall_nil_2]] ].
Qed.

Lemma setpoints_bounded op s :
  Forall (within_capabilities (get_powersupply_capabilities s)) (run_out (em_action (M := M) op) s).
Proof.
  destruct op; cbn [em_action];
    lazymatch goal with
    | |- context [on_powersupply_capabilities] => apply psu_capabilities_plain
    | |- context [set_external_derating] => apply Forall_nil_2
    | |- context [handle_enforce_limits] => apply bounded_enforce
    | |- context [call_action ?w ?op] =>
        destruct op; cbn [call_action];
        lazymatch goal with
        | |- context [em_board] => apply bounded_board
        | |- context [EvseManager.on_bsp_event] => apply bounded_event
        | |- context [charger_call] => apply bounded_call
        | |- _ => apply Forall_nil_2
        end
    | |- Forall _ (run_out ?m s) =>
        enough (bounded m) as Hb by apply Hb;
        unfold on_bsp_capabilities, update_supported_energy_transfers, update_hlc_ac_parameters,
          on_slac_state, on_dlink_error, on_dlink_pause, on_dlink_terminate, on_selected_service,
          on_start_cable_check, on_start_pre_charge, on_current_demand_started,
          on_current_demand_finished, on_dc_open_contactor, on_isolation_measurement,
          check_isolation_resistance_in_range, on_self_test_result, on_voltage_current, imd_start,
          on_dc_ev_target, on_dc_dynamic, apply_changed_target, powersupply_DC_on,
          on_dc_ev_maximum_limits, on_sae_bidi_mode_active, setup_v2h_mode, update_local_energy_limit,
          energy_ready, energy_thread_round, pending_request_runs, request_energy_from_energy_manager,
          clear_import_request_schedule, clear_export_request_schedule, on_car_side_powermeter,
          on_grid_side_powermeter, handle_enable, handle_disable, handle_cancel, handle_set_duration_s,
          put_request, put_energy; cbv zeta; bounded_walk
    end.
Qed.
End Operations.

(** ** What the operations leave alone *)

Section Frame.
Context {M : Type} `{ErrorMonitor M} {T : Type} (f : evse_manager M -> T).
Implicit Types (s : evse_manager M).

(** [f] is the same afterwards, whether [m] returns or throws. *)
Definition same {A} (m : EM M A) : Prop := forall s, f (run_state m s) = f s.

Lemma same_ret {A} (a : A) : same (eret a).
Proof. done. Qed.
Lemma same_throw {A} e : same (ethrow e : EM M A).
Proof. done. Qed.
Lemma same_emit o : same (em_emit o).
Proof. done. Qed.
Lemma same_put g : (forall s, f (g s) = f s) -> same (em_put g).
Proof. done. Qed.
Lemma same_get {A} (k : evse_manager M -> EM M A) : (forall s, same (k s)) -> same (ebind mod_state k).
Proof. intros Hk s. unfold run_state. rewrite run_get_bind. apply Hk. Qed.
Lemma same_bind {A B} (m : EM M A) (k : A -> EM M B) : same m -> (forall a, same (k a)) -> same (ebind m k).
Proof.
  intros Hm Hk s. specialize (Hm s). unfold run_state, ebind in *. destruct (m s) as [[[a|e] s1] o1]; [|done].
  specialize (Hk a s1). unfold run_state in Hk. destruct (k a s1) as [[r s2] o2]; cbn in *. congruence.
Qed.
Lemma same_tail {A B} (m : EM M A) (k : A -> EM M B) s :
  (forall a, same (k a)) -> f (run_state (ebind m k) s) = f (run_state m s).
Proof.
  intros Hk. unfold run_state, ebind in *. destruct (m s) as [[[a|e] s1] o1]; [|done].
  specialize (Hk a s1). unfold run_state in Hk. by destruct (k a s1) as [[r s2] o2].
Qed.
Lemma same_when b (m : EM M unit) : same m -> same (em_when b m).
Proof. by destruct b. Qed.
Lemma same_for {A} (l : list A) (g : A -> EM M unit) : (forall x, same (g x)) -> same (efor l g).
Proof. intros Hg. induction l as [|x l IH]; cbn [efor]; [done|]. by apply same_bind. Qed.

(** A call on the charger, when the reactions to its signals leave [f] alone. *)
Lemma call_state {A} (m : CH M A) s :
  (forall o, same (react o)) ->
  f (run_state (charger_call m) s) = f (assign em_charger (run_state m (em_charger s)) s).
Proof.
  intros Hr. unfold run_state, charger_call. destruct (m (em_charger s)) as [[[a|[]] c] os].
  assert (same (react_all os ;;; eret a)) as Hs; [|exact (Hs (assign em_charger c s))].
  apply same_bind; [|intros; apply same_ret]. apply same_for. intros o.
  apply same_bind; [apply same_emit|]. intros _. apply Hr.
Qed.

Lemma same_call {A U} (g : charger M -> U) (m : CH M A) :
  stays g m -> (forall c s, g c = g (em_charger s) -> f (assign em_charger c s) = f s) ->
  (forall o, same (react o)) -> same (charger_call m).
Proof.
  intros Hm Hf Hr s. rewrite call_state by done. apply Hf.
  specialize (Hm (em_charger s) []). unfold wp in Hm. unfold run_state.
  by destruct (m (em_charger s)) as [[[a|[]] c] os].
Qed.
End Frame.

Ltac no_leaf := fail.
Ltac open_handlers :=
  unfold on_bsp_capabilities, update_supported_energy_transfers, update_hlc_ac_parameters,
    on_powersupply_capabilities, update_powersupply_capabilities, set_external_derating,
    on_slac_state, on_dlink_error, on_dlink_pause, on_dlink_terminate, on_selected_service,
    on_start_cable_check, on_start_pre_charge, on_current_demand_started,
    on_current_demand_finished, on_dc_open_contactor, on_isolation_measurement,
    check_isolation_resistance_in_range, on_self_test_result, on_voltage_current, imd_start, imd_stop,
    on_dc_ev_target, on_dc_dynamic, apply_changed_target, apply_new_target_voltage_current,
    powersupply_DC_set, powersupply_DC_on, powersupply_DC_off,
    on_dc_ev_maximum_limits, on_sae_bidi_mode_active, setup_v2h_mode, update_local_energy_limit,
    energy_ready, energy_thread_round, pending_request_runs, request_energy_from_energy_manager,
    clear_import_request_schedule, clear_export_request_schedule, on_car_side_powermeter,
    on_grid_side_powermeter, handle_enable, handle_disable, handle_cancel, handle_set_duration_s,
    put_request, put_energy; cbv zeta.

Ltac same_walk tac :=
  repeat first
    [ tac
    | apply same_get; intros ? | apply same_when | apply same_bind; [|intros ?]
    | apply same_for; intros ? | apply same_emit | apply same_ret | apply same_throw
    | apply same_put; intros; reflexivity | case_match ].

(** ** The power the car is offered *)

(** The power last enforced and the limits the charger was told. *)
Definition offer {M} (s : evse_manager M) : Q * DcEvseMaximumLimits :=
  (last_enforced_limits_watt s, get_evse_max_hlc_limits s).

(** The car is offered at most the power last enforced. *)
Definition told {M} (s : evse_manager M) : Prop :=
  (0 <= last_enforced_limits_watt s)%Q ->
  (evse_maximum_power_limit (get_evse_max_hlc_limits s) <= last_enforced_limits_watt s)%Q.

Section Offer.
Context {M : Type} `{ErrorMonitor M} `{Dates}.
Implicit Types (s : evse_manager M).

Lemma told_same s s' : offer s' = offer s -> told s -> told s'.
Proof. unfold offer, told. by intros [= -> ->]. Qed.

Lemma same_offer_react o : same offer (react (M := M) o).
Proof.
  unfold react, reset_ev_info, on_max_current, on_charger_state, powersupply_DC_off, imd_stop.
  apply same_get. intros s. destruct o; same_walk no_leaf.
Qed.

Lemma same_offer_call {A} (m : CH M A) :
  stays (fun c : charger M => current_evse_max_limits c) m -> same offer (charger_call m).
Proof.
  intros Hm. apply (same_call _ _ _ Hm); [|apply same_offer_react].
  intros c s Hc. unfold offer, get_evse_max_hlc_limits. cbn. by rewrite Hc.
Qed.

Lemma limits_stay_loop w n : stays (fun c : charger M => current_evse_max_limits c) (run_loop w n).
Proof.
  induction n as [|n IH]; cbn [run_loop]; [apply stays_ret|].
  apply stays_bind; [stays_steps|]. intros returns. apply stays_if; [apply stays_ret|].
  apply stays_get. intros s. by apply stays_if; [apply stays_ret|].
Qed.

End Offer.

Ltac limits_steps := repeat first [apply limits_stay_loop | stays_step].
Ltac offer_leaf :=
  idtac; lazymatch goal with
  | |- same offer (charger_call _) => apply same_offer_call; limits_steps
  | |- same offer (error_handling_call _) => apply same_offer_call; limits_steps
  end.

Section OfferHandlers.
Context {M : Type} `{ErrorMonitor M} `{Dates}.

(** Only the energy interface tells the charger limits. *)
Lemma limits_stay w op :
  limits_op op = false -> stays (fun c : charger M => current_evse_max_limits c) (charger_action (M := M) w op).
Proof.
  destruct op; intros Hop; try discriminate Hop; cbn [charger_action];
    limits_steps.
Qed.

Lemma same_offer_event w e : same offer (EvseManager.on_bsp_event (M := M) w e).
Proof. unfold EvseManager.on_bsp_event, forward_to_slac, forward_to_hlc, forget_target. same_walk offer_leaf. Qed.
Lemma same_offer_board w op : same offer (em_board (M := M) w op).
Proof.
  apply same_get. intros s. apply same_bind; [apply same_offer_call; limits_steps|]. intros _.
  apply same_for. intros e. apply same_offer_event.
Qed.

Lemma same_offer_handler op : enforces op = false -> same offer (em_action (M := M) op).
Proof.
  intros He. destruct op; cbn [em_action]; [|..|done];
    lazymatch goal with
    | |- context [call_action ?w ?op] =>
        destruct op; cbn [call_action];
        lazymatch goal with
        | |- context [em_board] => apply same_offer_board
        | |- context [EvseManager.on_bsp_event] => apply same_offer_event
        | |- context [charger_call] => by apply same_offer_call, limits_stay
        | |- _ => apply same_ret
        end
    | |- _ => open_handlers; same_walk offer_leaf
    end.
Qed.
End OfferHandlers.

Section Enforced.
Context {M : Type} `{ErrorMonitor M} `{Dates}.
Implicit Types (s : evse_manager M).

Lemma state_get {A} (k : evse_manager M -> EM M A) s : run_state (ebind mod_state k) s = run_state (k s) s.
Proof. unfold run_state. by rewrite run_get_bind. Qed.
Lemma state_put {A} g (k : unit -> EM M A) s : run_state (ebind (em_put g) k) s = run_state (k tt) (g s).
Proof. unfold run_state, ebind, em_put, emodify. by destruct (k tt (g s)) as [[? ?] ?]. Qed.
Lemma state_emit {A} o (k : unit -> EM M A) s : run_state (ebind (em_emit o) k) s = run_state (k tt) s.
Proof. unfold run_state, ebind, em_emit, eemit. by destruct (k tt s) as [[? ?] ?]. Qed.
Lemma state_told {A} l (k : unit -> EM M A) s :
  run_state (ebind (charger_call (inform_new_evse_max_hlc_limits l)) k) s
  = run_state (k tt) (update em_charger (update shared_context (assign current_evse_max_limits l)) s).
Proof.
  assert (charger_call (inform_new_evse_max_hlc_limits l) s
          = (Ok tt, update em_charger (update shared_context (assign current_evse_max_limits l)) s, []))
    as E by reflexivity.
  unfold run_state, ebind. rewrite E.
  by destruct (k tt (update em_charger (update shared_context (assign current_evse_max_limits l)) s))
    as [[? ?] ?].
Qed.

(** The limits of [enforce_dc_limits] for a power that is not negative. *)
Lemma offered_power s watt current :
  (0 <= watt)%Q ->
  (evse_maximum_power_limit
     (bidirectional_limits s watt current
        (dc_max_limits (get_powersupply_capabilities s) watt current)).1 <= watt)%Q.
Proof.
  intros Hw. apply Qle_bool_iff in Hw as Hb.
  assert (Qltb watt 0 = false) as Hlt by (by apply Qltb_false).
  unfold bidirectional_limits. rewrite Hlt. cbn [andb].
  assert (forall a b, (std_min a b <= a)%Q) as Hmin.
  { intros a b. unfold std_min. destruct (Qltb b a) eqn:E; [|lra]. apply Qltb_iff in E. lra. }
  repeat case_match; cbn; rewrite ?Hb; apply Hmin.
Qed.

Lemma offer_enforce_dc watt ampere s :
  let s' := run_state (enforce_dc_limits watt ampere) s in
  offer s' = offer s /\ almost_eq_float (last_enforced_limits_watt s) watt = true
  \/ last_enforced_limits_watt s' = watt
    /\ ((0 <= watt)%Q -> (evse_maximum_power_limit (get_evse_max_hlc_limits s') <= watt)%Q).
Proof.
  cbv zeta. unfold enforce_dc_limits, put_energy. rewrite state_get. cbv zeta.
  set (target_V := default _ (target_voltage _)). set (actual_V := default _ (present_voltage _)).
  set (caps := get_powersupply_capabilities s).
  destruct (dc_values_changed s watt ampere target_V actual_V caps) eqn:Hc; cbn [em_when].
  - right. pose proof (offered_power s watt (total_current caps watt target_V actual_V)) as Ho. fold caps in Ho.
    destruct (bidirectional_limits _ _ _ _) as [highest exporting]. cbn [fst] in Ho.
    rewrite state_put, state_put, !state_emit, state_told.
    match goal with |- context [run_state ?k ?s1] => assert (same offer k) as Hs; [|specialize (Hs s1); set (s2 := s1) in *] end.
    { same_walk offer_leaf. }
    unfold offer in Hs. injection Hs as -> ->. by split.
  - left. split; [done|]. unfold dc_values_changed in Hc. apply negb_false_iff in Hc.
    rewrite !andb_true_iff in Hc. tauto.
Qed.
(** An offer is below the power enforced, up to the 0.1 W that are not told
    again; a discharge before must be as far away. *)
Lemma told_enforce_dc watt ampere s :
  told s ->
  let s' := run_state (enforce_dc_limits watt ampere) s in
  told s'
  /\ ((0 <= watt)%Q -> (last_enforced_limits_watt s < 0 -> last_enforced_limits_watt s <= watt - (1 # 10))%Q ->
      (evse_maximum_power_limit (get_evse_max_hlc_limits s') < watt + (1 # 10))%Q).
Proof.
  intros Ht s'. destruct (offer_enforce_dc watt ampere s) as [[E Ha]|[E Hw]]; fold s' in E.
  - split; [by eapply told_same|]. unfold offer in E. injection E as _ ->.
    unfold almost_eq_float in Ha. rewrite andb_true_iff, !Qltb_iff in Ha. unfold told in Ht.
    intros _ Hd. destruct (Qlt_le_dec (last_enforced_limits_watt s) 0); [|specialize (Ht q)]; lra.
  - fold s' in Hw. unfold told. rewrite E. split; [done|]. intros Hp _. specialize (Hw Hp). lra.
Qed.

(** What holds when [m] returns. *)
Definition ends {A} (P : evse_manager M -> Prop) (m : EM M A) (s : evse_manager M) : Prop :=
  match m s with (Ok _, s', _) => P s' | (Err _, _, _) => True end.

Lemma ends_get {A} P (k : evse_manager M -> EM M A) s : ends P (k s) s -> ends P (ebind mod_state k) s.
Proof. unfold ends. by rewrite run_get_bind. Qed.
Lemma ends_after {A B} P (m : EM M A) (k : A -> EM M B) s :
  same offer m -> (forall a s1, offer s1 = offer s -> ends P (k a) s1) -> ends P (ebind m k) s.
Proof.
  intros Hm Hk. specialize (Hm s). unfold run_state in Hm. unfold ends, ebind in *.
  destruct (m s) as [[[a|e] s1] o1]; [|done]. specialize (Hk a s1 Hm).
  by destruct (k a s1) as [[[b|e] s2] o2].
Qed.
Lemma ends_next {A B} P (m : EM M A) (k : A -> EM M B) s :
  (forall a s1 o1, m s = (Ok a, s1, o1) -> ends P (k a) s1) -> ends P (ebind m k) s.
Proof.
  intros Hk. unfold ends, ebind in *. destruct (m s) as [[[a|e] s1] o1]; [|done]. specialize (Hk a s1 o1 eq_refl).
  by destruct (k a s1) as [[[b|e] s2] o2].
Qed.
Lemma ends_state {A} (P : evse_manager M -> Prop) (m : EM M A) s : P (run_state m s) -> ends P m s.
Proof. unfold ends, run_state. by destruct (m s) as [[[a|e] s1] o1]. Qed.

Ltac same_prefix :=
  unfold apply_phase_limit, apply_watt_limit, delayed_limit, random_delay_needed, start_random_delay,
    set_charger_limit, put_energy; cbv zeta; same_walk offer_leaf.

(** The power and the current a DC EVSE is to keep to, when [l] is for it. *)
Definition dc_enforced (s : evse_manager M) (l : EnforcedLimits) : option (Q * Q) :=
  match Res.total_power_W (limits_root_side l), Res.ac_max_current_A (limits_root_side l) with
  | Some w, Some a =>
      if bool_decide (e_uuid l = uuid (energy_flow_request s)) && is_DC_mode s
      then Some (value w, value a) else None
  | _, _ => None
  end.

Lemma enforce_ends utc rand l s :
  ends (fun s' => match dc_enforced s l with
        | Some (w, a) => exists s1, offer s1 = offer s /\ s' = run_state (enforce_dc_limits w a) s1
        | None => offer s' = offer s
        end) (handle_enforce_limits utc rand l) s.
Proof.
  unfold handle_enforce_limits, dc_enforced. apply ends_get.
  case_bool_decide as Hid; cbn [em_when andb]; [|apply ends_state; by repeat case_match].
  cbv zeta. apply ends_after; [apply same_emit|]. intros _ s1 E1.
  apply ends_after; [same_prefix|]. intros _ s2 E2.
  apply ends_after; [same_prefix|]. intros enforced s3 E3.
  apply ends_after; [same_prefix|]. intros limit s4 E4.
  apply ends_after; [same_prefix|]. intros _ s5 E5.
  apply ends_after; [same_prefix|]. intros _ s6 E6.
  assert (offer s6 = offer s) as E by congruence. apply ends_state.
  destruct (Res.total_power_W (limits_root_side l)) as [w|]; [|done].
  destruct (Res.ac_max_current_A (limits_root_side l)) as [a|]; [|done].
  destruct (is_DC_mode s); cbn [em_when]; [|done]. by exists s6.
Qed.

(** [told] holds throughout, and enforced limits bound the offer. *)
Lemma told_enforce utc rand l s :
  told s -> ends told (handle_enforce_limits utc rand l) s.
Proof.
  intros Ht. pose proof (enforce_ends utc rand l s) as He. unfold ends in *.
  destruct (handle_enforce_limits utc rand l s) as [[[[]|e] s'] os]; [|done].
  destruct (dc_enforced s l) as [[w a]|]; [|by eapply told_same].
  destruct He as (s1 & E & ->). by apply told_enforce_dc, (told_same s).
Qed.

Lemma enforce_bounds_offer utc rand l s w a :
  told s -> dc_enforced s l = Some (w, a) -> (0 <= w)%Q ->
  (last_enforced_limits_watt s < 0 -> last_enforced_limits_watt s <= w - (1 # 10))%Q ->
  ends (fun s' => evse_maximum_power_limit (get_evse_max_hlc_limits s') < w + (1 # 10))%Q
    (handle_enforce_limits utc rand l) s.
Proof.
  intros Ht Hd Hw Hlast. pose proof (enforce_ends utc rand l s) as He. unfold ends in *.
  destruct (handle_enforce_limits utc rand l s) as [[[[]|e] s'] os]; [|done]. rewrite Hd in He.
  destruct He as (s1 & E & ->). apply told_enforce_dc; [by apply (told_same s)|done|].
  unfold offer in E. by injection E as -> _.
Qed.

(** Histories. *)
Lemma run_app (ops ops' : list (em_op M)) s : run_em (ops ++ ops') s = (run_em ops ;;; run_em ops') s.
Proof. apply efor_app. Qed.

Lemma ends_run (P : evse_manager M -> Prop) ops s :
  (forall op s, op ∈ ops -> P s -> ends P (em_action op) s) -> P s -> ends P (run_em ops) s.
Proof.
  revert s. induction ops as [|op ops IH]; intros s Hop Hs; [done|].
  unfold run_em. cbn [efor]. unfold ends, ebind. pose proof (Hop op s ltac:(left) Hs) as H1. unfold ends in H1.
  destruct (em_action op s) as [[[[]|e] s1] o1]; [|done].
  specialize (IH s1). unfold ends, run_em in IH. destruct (efor ops em_action s1) as [[[[]|e] s2] o2]; [|done].
  apply IH; [|done]. intros op' s' Hin. apply Hop. by right.
Qed.

Lemma told_run ops s : told s -> ends told (run_em ops) s.
Proof.
  apply ends_run. intros op s' _ Hs. destruct (enforces op) eqn:He.
  - destruct op; try discriminate He. by apply told_enforce.
  - apply ends_state. eapply told_same; [|exact Hs]. by apply same_offer_handler.
Qed.

Lemma offer_run ops s :
  Forall (fun op => enforces op = false) ops -> ends (fun s' => offer s' = offer s) (run_em ops) s.
Proof.
  intros Hops. apply (ends_run (fun s' => offer s' = offer s)); [|done]. intros op s' Hin <-.
  apply ends_state. apply same_offer_handler. by eapply Forall_forall in Hops.
Qed.
End Enforced.

(** ** The current a car gets *)

Section Target.
Context {M : Type} `{ErrorMonitor M} `{Dates}.
Implicit Types (s : evse_manager M).

(** The current the power supply is set to draws at most [watt] at [voltage],
    or is the least the supply can deliver. *)
Definition power_at_most (caps : Capabilities) (voltage watt : Q) (o : em_output) : Prop :=
  match o with
  | psu_setExportVoltageCurrent _ c => (c * voltage <= watt)%Q \/ c = min_export_current_A caps
  | _ => True
  end.

Lemma set_power v c watt voltage s :
  hack_fix_hlc_integer_current_requests s = false -> sae_j2847_2_bpt_enabled s = false ->
  (0 <= voltage)%Q -> (c * voltage <= watt)%Q ->
  Forall (power_at_most (get_powersupply_capabilities s) voltage watt) (run_out (powersupply_DC_set (M := M) v c) s).
Proof.
  intros Hi Hs Hv Hc. unfold run_out, powersupply_DC_set. rewrite run_get_bind. cbv zeta.
  replace (corrected_current s c) with c by (unfold corrected_current; by rewrite Hi, Hs).
  set (caps := get_powersupply_capabilities s).
  assert (power_at_most caps voltage watt (psu_setExportVoltageCurrent v
            (at_least (Some (min_export_current_A caps)) (at_most (Some (max_export_current_A caps)) c)))) as Hp.
  { cbn. repeat match goal with |- context [Qltb ?a ?b] => destruct (Qltb a b) eqn:? end; auto; left.
    rewrite ?Qltb_iff in *. nra. }
  clearbody caps. unfold em_when, em_put, em_emit, ebind, emodify, eemit, eret.
  repeat (case_match; simplify_eq/=); repeat apply Forall_cons_2; try done; by apply Forall_nil_2.
Qed.

Definition measured_voltage (s : evse_manager M) (v : DcEvTargetValues) : Q :=
  default (limited_target s v).1 (present_voltage (ev_info s)).

Lemma limited_power s v c :
  (limited_target s v).2 = Some c ->
  (c * measured_voltage s v <= evse_maximum_power_limit (get_evse_max_hlc_limits s))%Q.
Proof.
  unfold limited_target, measured_voltage. cbn [fst snd]. set (V := default _ _).
  destruct (Qltb _ _) eqn:E; [|intros [= <-]; by apply Qltb_false in E].
  destruct (Qeq_bool V 0) eqn:E0; [done|]. intros [= <-]. apply Qeq_bool_neq in E0.
  unfold Qdiv. rewrite <- Qmult_assoc, (Qmult_comm (/ V)), Qmult_inv_r by done. lra.
Qed.

Lemma out_put (P : em_output -> Prop) g (k : unit -> EM M unit) s :
  Forall P (run_out (k tt) (g s)) -> Forall P (run_out (ebind (em_put g) k) s).
Proof. unfold run_out, ebind, em_put, emodify. by destruct (k tt (g s)) as [[? ?] ?]. Qed.

Lemma out_first {A} (P : em_output -> Prop) (m : EM M A) (k : A -> EM M unit) s :
  Forall P (run_out m s) -> (forall a s', Forall P (run_out (k a) s')) -> Forall P (run_out (ebind m k) s).
Proof.
  intros Hm Hk. unfold run_out, ebind in *. destruct (m s) as [[[a|e] s1] o1]; [|done].
  specialize (Hk a s1). destruct (k a s1) as [[r s2] o2]. by apply Forall_app.
Qed.

Lemma target_power v s :
  hack_fix_hlc_integer_current_requests s = false -> sae_j2847_2_bpt_enabled s = false ->
  (0 <= measured_voltage s v)%Q ->
  Forall (power_at_most (get_powersupply_capabilities s) (measured_voltage s v)
            (evse_maximum_power_limit (get_evse_max_hlc_limits s))) (run_out (on_dc_ev_target (M := M) v) s).
Proof.
  intros Hi Hs Hv. pose proof (limited_power s v) as Hp. unfold run_out, on_dc_ev_target.
  rewrite run_get_bind. case_match; [apply Forall_nil_2|].
  destruct (limited_target s v) as [voltage [c|]]; [|apply Forall_nil_2]. specialize (Hp c eq_refl).
  set (V := measured_voltage s v) in *. set (P := evse_maximum_power_limit _) in *. clearbody V P.
  unfold em_when at 1. case_match; [|apply Forall_nil_2].
  apply out_put, out_put. unfold apply_changed_target.
  apply out_first.
  - unfold apply_new_target_voltage_current, run_out. rewrite run_get_bind.
    unfold em_when. case_match; [|apply Forall_nil_2].
    apply out_first; [|intros; apply Forall_nil_2].
    match goal with |- Forall _ (run_out _ ?s2) => exact (set_power voltage c P V s2 Hi Hs Hv Hp) end.
  - intros _. unfold powersupply_DC_on, em_when.
    repeat first
      [ apply out_bind; [|intros ?]
      | case_match
      | intros s'; solve [apply Forall_nil_2 | apply Forall_cons_2; [exact I|apply Forall_nil_2]] ].
Qed.
End Target.

(** A session: the car asks for 400 V and 200 A after 50 kW are enforced. *)
Definition ex_limits (watt : Q) : EnforcedLimits :=
  mkEnforcedLimits "evse1" 10
    (Res.mkLimitsRes (Some (Num watt "")) (Some (Num 63 "")) None) [].
Definition ex_measured : list (em_op (list Error)) := [em_voltage_current (mkVoltageCurrent 400 0)].
Definition ex_target : DcEvTargetValues := mkTargetValues 400 200.

(** C4: whatever the car or the energy manager asks for, every set point of
    the DC power supply is within the voltages of the supply and its currents,
    as far as the external derating leaves any. *)
Theorem setpoints_within_capabilities {M} `{ErrorMonitor M} `{Dates} (op : em_op M) s :
  Forall (within_capabilities (get_powersupply_capabilities s)) (run_out (em_action op) s).
Proof. apply setpoints_bounded. Qed.



(** ** A discharge limit offers a car that cannot discharge full power

    The energy manager enforces a power of -20 kW.  A session that can
    discharge (here with [hack_allow_bpt_with_iso2]) would export; for any
    other one the car is offered all the power of the supply. *)
Example discharge_offers_full_power :
  evse_maximum_power_limit (get_evse_max_hlc_limits
    (run_state (em_action (em_enforce_limits 0 0 (ex_limits (-20000))))
      (run_state (run_em (em_dc_ev_target ex_target :: ex_measured)) ex_preparing))) = 150000%Q.
Proof. vm_compute. reflexivity. Qed.
