(* ===== verification/EvseEnergyProperties.v ===== *)
(** * The energy interface of the EvseManager

    What is requested is within what the hardware can do, and the current the
    energy manager enforces is the one the charger keeps to. *)
From S2P Require Import Prelude Effects EnergyTypes IECStateMachine IECProofs ErrorHandling.
From S2P Require Import ChargerTypes Charger ChargerStateMachine ChargerTermination EvseSystem EnergyTests.
From S2P Require Import EvseManagerTypes EvseManager EvseEnergy EvseManagerSystem EvseManagerProperties.
From S2P Require Import ChargerExample CableCheckProperties.
From stdpp Require Import base tactics list numbers strings.
From Stdlib Require Import QArith Qabs Lqa.
Open Scope Z_scope.
Open Scope everest_scope.

Section Requests.
Context {M : Type} `{ErrorMonitor M} `{Dates}.
Implicit Types (s : evse_manager M).

(** An entry asks the root for a current and phases of the board, and in DC
    its leaves for a power of the supply and no AC current. *)
Record entry_fits (dc : bool) (max_A min_A : Q) (max_phase min_phase : Z) (supply : option Q)
    (e : ScheduleReqEntry) : Prop := mkEntryFits {
  fits_current : exists a, ac_max_current_A (limits_to_root e) = Some a /\ (value a <= max_A \/ value a == min_A)%Q;
  fits_min_current : option_map value (ac_min_current_A (limits_to_root e)) = Some min_A;
  fits_phases : exists k, ac_max_phase_count (limits_to_root e) = Some k /\ ivalue k <= max_phase;
  fits_min_phases : option_map ivalue (ac_min_phase_count (limits_to_root e)) = Some min_phase;
  fits_supply : dc = true ->
    ac_max_current_A (limits_to_leaves e) = None
    /\ forall m w, supply = Some m -> total_power_W (limits_to_leaves e) = Some w -> (value w <= m \/ value w == 0)%Q
}.

Definition import_fits s : ScheduleReqEntry -> Prop :=
  let c := hw_caps s in
  entry_fits (is_DC_mode s) (max_current_A_import c) (min_current_A_import c)
    (max_phase_count_import c) (min_phase_count_import c)
    (Some (max_export_power_W (get_powersupply_capabilities s))).
Definition export_fits s : ScheduleReqEntry -> Prop :=
  let c := hw_caps s in
  entry_fits (is_DC_mode s) (max_current_A_export c) (min_current_A_export c)
    (max_phase_count_export c) (min_phase_count_export c)
    (max_import_power_W (get_powersupply_capabilities s)).

(** A request that fits the hardware. *)
Definition request_fits s (r : EnergyFlowRequest) : Prop :=
  schedule_import r <> [] /\ Forall (import_fits s) (schedule_import r)
  /\ schedule_export r <> [] /\ Forall (export_fits s) (schedule_export r)
  /\ evse_state r = Some (to_energy_evse_state (charger_state s)).

Lemma capped_root_fits s max_phase min_phase max_A min_A paused l :
  (forall n, paused = Some n -> value n = min_A) ->
  let l' := cap_root_limits s max_phase min_phase max_A min_A paused l in
  (exists a, ac_max_current_A l' = Some a /\ (value a <= max_A \/ value a == min_A)%Q)
  /\ option_map value (ac_min_current_A l') = Some min_A
  /\ (exists k, ac_max_phase_count l' = Some k /\ ivalue k <= max_phase)
  /\ option_map ivalue (ac_min_phase_count l') = Some min_phase.
Proof.
  intros Hp l'. subst l'. unfold cap_root_limits. cbn.
  assert (exists a, (match paused with Some n => n | None => Num max_A (source_bsp_caps s) end) = a
                    /\ (value a <= max_A \/ value a == min_A)%Q) as (a & -> & Ha).
  { eexists. split; [reflexivity|]. destruct paused as [n|]; [right; by rewrite (Hp n eq_refl)|left; cbn; lra]. }
  split_and!; [|done| |done].
  - destruct (ac_max_current_A l) as [x|]; [|eauto].
    destruct (Qltb max_A (value x)) eqn:E; [eauto|]. apply Qltb_false in E. eauto.
  - destruct (ac_max_phase_count l) as [k|]; [|eexists; split; [done|cbn; lia]].
    destruct (max_phase <? ivalue k) eqn:E; eexists; (split; [done|cbn; lia]).
Qed.

Lemma leaves_power supply source dc (l : ScheduleReq) :
  Forall (fun e => dc = true -> forall m w, supply = Some m -> total_power_W (limits_to_leaves e) = Some w ->
            (value w <= m \/ value w == 0)%Q)
    (if dc then map (cap_leaves_power supply source) l else l).
Proof.
  destruct dc; [|by apply Forall_true]. apply Forall_map, Forall_true. intros e _ m w -> Hw.
  unfold cap_leaves_power in Hw. destruct (total_power_W (limits_to_leaves e)) as [x|] eqn:Ex; [|by rewrite Ex in Hw].
  destruct (Qltb m (value x)) eqn:E; cbn in Hw; [|rewrite Ex in Hw]; injection Hw as <-; left; cbn; [lra|].
  by apply Qltb_false.
Qed.

(** The entries of a fresh schedule, which the state of the module gives. *)
Lemma import_entry_fits s utc : import_fits s (import_entry s utc).
Proof.
  unfold import_fits, import_entry. constructor; cbn; [eexists; split; [done|left; cbn; lra]|done| |done|].
  - eexists; split; [done|cbn; lia].
  - intros ->. split; [done|]. intros m w [= <-] [= <-]. left. cbn. lra.
Qed.
Lemma export_entry_fits s utc : export_fits s (export_entry s utc).
Proof.
  unfold export_fits, export_entry. constructor; cbn; [eexists; split; [done|left; cbn; lra]|done| |done|].
  - eexists; split; [done|cbn; lia].
  - intros ->. split; [done|]. intros m w Hm [= <-]. left. cbn. rewrite Hm. cbn. lra.
Qed.

(** The pipeline of a request: capped on the leaves side, then on the root
    side, then without AC current on the leaves side. *)
Lemma pipeline_fits s max_A min_A max_phase min_phase supply paused (l : ScheduleReq) :
  (forall n, paused = Some n -> value n = min_A) ->
  Forall (fun e => is_DC_mode s = true -> forall m w, supply = Some m ->
            total_power_W (limits_to_leaves e) = Some w -> (value w <= m \/ value w == 0)%Q) l ->
  Forall (entry_fits (is_DC_mode s) max_A min_A max_phase min_phase supply)
    (map (leaves_side s)
       (map (update limits_to_root (cap_root_limits s max_phase min_phase max_A min_A paused)) l)).
Proof.
  intros Hp Hl. apply Forall_map, Forall_map. eapply Forall_impl; [exact Hl|]. intros e He.
  destruct (capped_root_fits s max_phase min_phase max_A min_A paused (limits_to_root e) Hp) as (? & ? & ? & ?).
  unfold leaves_side. destruct (is_DC_mode s); constructor; cbn; try done.
  intros _. split; [done|]. by apply He.
Qed.

Lemma requested_import_fits s utc current :
  Forall (import_fits s) current -> current <> [] ->
  requested_import s utc current <> [] /\ Forall (import_fits s) (requested_import s utc current).
Proof.
  intros Hc Hn. unfold requested_import, import_fits, cap_import. cbv zeta. split.
  - destruct (x_schedule_import _); [by destruct current|]. destruct (is_DC_mode s); done.
  - apply pipeline_fits; [intros n; case_match; intros [= <-]; done|].
    destruct (x_schedule_import (get_local_energy_limits s utc)) as [|e l].
    + eapply Forall_impl; [exact Hc|]. intros e [_ _ _ _ He] Hdc. by apply He.
    + pose proof (leaves_power (Some (max_export_power_W (get_powersupply_capabilities s)))
        (source_psu_caps s) (is_DC_mode s) (e :: l)) as Hl. by destruct (is_DC_mode s).
Qed.

Lemma requested_export_fits s utc current :
  Forall (export_fits s) current -> current <> [] ->
  requested_export s utc current <> [] /\ Forall (export_fits s) (requested_export s utc current).
Proof.
  intros Hc Hn. unfold requested_export, export_fits, cap_export. cbv zeta. split.
  - destruct (x_schedule_export _); [by destruct current|]. destruct (is_DC_mode s); done.
  - apply pipeline_fits; [intros n; case_match; intros [= <-]; done|].
    destruct (x_schedule_export (get_local_energy_limits s utc)) as [|e l].
    + eapply Forall_impl; [exact Hc|]. intros e [_ _ _ _ He] Hdc. by apply He.
    + pose proof (leaves_power (max_import_power_W (get_powersupply_capabilities s))
        (source_bsp_caps s) (is_DC_mode s) (e :: l)) as Hl. by destruct (is_DC_mode s).
Qed.

Lemma idle_fits s max_A min_A max_phase min_phase supply (l : ScheduleReq) :
  Forall (entry_fits (is_DC_mode s) max_A min_A max_phase min_phase supply) l -> l <> [] ->
  idle_leaves s l <> []
  /\ Forall (entry_fits (is_DC_mode s) max_A min_A max_phase min_phase supply) (idle_leaves s l).
Proof.
  intros Hl Hn. destruct Hl as [|e l [F1 F2 F3 F4 F5] Hl]; [done|]. split; [done|]. constructor; [|done].
  destruct (is_DC_mode s); constructor; cbn; try done.
  intros _. split; [by apply F5|]. intros m w _ [= <-]. by right.
Qed.

End Requests.

(** ** The current of the charger *)

(** The limit of the charger and until when it is valid. *)
Definition charger_budget {M} (c : charger M) : Q * Z * Z :=
  (max_current c, max_current_valid_until c, steady_clock c).
(** The same, the phases in use and their voltage. *)
Definition budget {M} (s : evse_manager M) : Q * Z * Z * Z * Q :=
  (charger_budget (em_charger s), ac_nr_phases_active s, ac_nominal_voltage s).

Section Budget.
Context {M : Type} `{ErrorMonitor M} `{Dates}.
Implicit Types (s : evse_manager M).

Lemma same_budget_react o : same budget (react (M := M) o).
Proof.
  unfold react, reset_ev_info, on_max_current, on_charger_state, powersupply_DC_off, imd_stop.
  apply same_get. intros s. destruct o; same_walk no_leaf.
Qed.

Lemma same_budget_call {A} (m : CH M A) : stays charger_budget m -> same budget (charger_call m).
Proof.
  intros Hm. apply (same_call _ _ _ Hm); [|apply same_budget_react].
  intros c s E. unfold budget. cbn. by rewrite E.
Qed.

(** A budget that is valid is left alone when charging resumes. *)
Lemma resume_keeps_budget (c : charger M) :
  steady_clock c <= max_current_valid_until c ->
  charger_budget (run_state resume_charging_power_available c) = charger_budget c.
Proof.
  intros Hv.
  assert (wp resume_charging_power_available (fun _ c' _ => charger_budget c' = charger_budget c) c []) as Hw.
  2:{ apply wp_run in Hw as (a & _ & Hw). exact Hw. }
  unfold resume_charging_power_available. apply wp_get. case_match; [|by apply wp_ret].
  apply wp_bind. unfold power_available. apply wp_get. cbv zeta. replace (0 <? _) with false.
  2:{ symmetry. apply Z.ltb_ge. apply Z.quot_le_upper_bound; lia. }
  apply wp_bind, wp_ret, wp_get, wp_ret. destruct (Qltb _ _); [|by apply wp_ret].
  match goal with |- wp ?m _ _ ?l => assert (stays charger_budget m) as Hs by stays_steps; apply (Hs c l) end.
Qed.

(** A budget for at least a second, set and then used to resume. *)
Lemma set_limit_budget limit valid s :
  (0 <= limit <= CHARGER_ABSOLUTE_MAX_CURRENT)%Q -> 0 < valid ->
  budget (run_state (set_charger_limit limit valid) s)
  = (Qabs limit, now_ms s + 1000 * valid, now_ms s, ac_nr_phases_active s, ac_nominal_voltage s).
Proof.
  intros [Hpos Hmax] Hv. unfold set_charger_limit. rewrite state_get. cbv zeta.
  apply Qle_bool_iff in Hpos as Hb. rewrite Hb. cbn [orb].
  assert (Qle_bool (Qabs limit) CHARGER_ABSOLUTE_MAX_CURRENT = true) as Hle.
  { apply Qle_bool_iff. by rewrite Qabs_pos. }
  set (until := now_ms s + 1000 * valid).
  assert ((steady_clock (em_charger s) <? until) = true) as Hlt by (unfold until, now_ms; lia).
  assert (budget (run_state (charger_call (set_max_current limit until)) s)
          = ((Qabs limit, until, now_ms s), ac_nr_phases_active s, ac_nominal_voltage s)) as Hset.
  { rewrite (call_state budget _ _ same_budget_react). unfold run_state, set_max_current. cbv zeta.
    rewrite run_get_bind, Hle, Hlt. cbn [andb].
    unfold bsp_call, put_shared, emit, this, ebind, emodify, eget, eemit, eret. cbv beta iota.
    match goal with |- context [set_overcurrent_limit ?x ?y] => destruct (set_overcurrent_limit x y) as [[? ?] ?] end.
    done. }
  unfold run_state, ebind in *. destruct (charger_call _ s) as [[[a|e] s1] o1]; [|done]. cbn in Hset.
  assert (budget (run_state (em_when (Qltb (1 # 100000) limit || Qltb limit (- (1 # 100000)))
            (charger_call resume_charging_power_available ;;; eret tt)) s1) = budget s1) as Hr.
  { unfold em_when. case_match; [|done]. rewrite (same_tail budget) by (intros; apply same_ret).
    rewrite (call_state budget _ _ same_budget_react). unfold budget in *. cbn. rewrite resume_keeps_budget; [done|].
    injection Hset as _ -> -> _ _. unfold until. unfold now_ms. lia. }
  unfold run_state in Hr. destruct (em_when _ _ s1) as [[r s2] o2]; cbn in *. congruence.
Qed.

(** A limit of the current that a power limit leaves. *)
Lemma watt_limit_bounds s (watt limit l : Q) :
  watt_limited s watt limit = Some l -> (0 <= limit)%Q -> (0 <= watt)%Q ->
  (0 < ac_nominal_voltage s)%Q -> 0 < ac_nr_phases_active s ->
  (0 <= l <= limit)%Q /\ (l * ac_nominal_voltage s * inject_Z (ac_nr_phases_active s) <= watt)%Q.
Proof.
  unfold watt_limited. set (V := ac_nominal_voltage s). intros El Hl Hw HV Hn.
  assert (0 < inject_Z (ac_nr_phases_active s))%Q as HN by (change 0%Q with (inject_Z 0); by rewrite <- Zlt_Qlt).
  set (N := inject_Z _) in *. clearbody V N.
  destruct (Qeq_bool (V * N) 0) eqn:E0.
  { apply Qeq_bool_iff in E0. assert (0 < V * N)%Q by (by apply Qmult_lt_0_compat). lra. }
  assert (watt / V / N * V * N == watt)%Q as Hp by (field; split; lra).
  assert (0 <= watt / V / N)%Q as H0p by (apply Qle_shift_div_l; [done|]; rewrite Qmult_0_l; apply Qle_shift_div_l; [done|lra]).
  set (p := (watt / V / N)%Q) in *. clearbody p.
  assert (Qltb limit 0 = false) as Hneg by (by apply Qltb_false). rewrite Hneg in El.
  apply Qle_bool_iff in Hl as Hb. rewrite Hb in El. cbn [andb orb] in El. rewrite orb_false_r in El.
  destruct (Qltb p limit) eqn:E; injection El as <-.
  - apply Qltb_iff in E. split; lra.
  - apply Qltb_false in E. split; [lra|].
    assert (limit * V <= p * V)%Q by (apply Qmult_le_compat_r; lra).
    assert (limit * V * N <= p * V * N)%Q by (apply Qmult_le_compat_r; lra). lra.
Qed.
End Budget.

Ltac budget_leaf :=
  idtac; lazymatch goal with
  | |- same budget (charger_call _) => apply same_budget_call; stays_steps
  end.

Definition phases {M} (s : evse_manager M) : Z * Q := (ac_nr_phases_active s, ac_nominal_voltage s).
Section Enforcement.
Context {M : Type} `{ErrorMonitor M} `{Dates}.
Implicit Types (s : evse_manager M).

Lemma same_budget_dc watt ampere : same budget (enforce_dc_limits (M := M) watt ampere).
Proof.
  unfold enforce_dc_limits, apply_new_target_voltage_current, powersupply_DC_set, put_energy. cbv zeta.
  same_walk budget_leaf.
Qed.

Lemma same_phases_call {A} (m : CH M A) : same phases (charger_call m).
Proof.
  intros s. rewrite (call_state phases); [done|]. intros o s'.
  pose proof (same_budget_react o s') as E. unfold budget in E. unfold phases. congruence.
Qed.
Ltac phases_leaf := idtac; lazymatch goal with |- same phases (charger_call _) => apply same_phases_call end.
Lemma same_phases_limit limit valid : same phases (set_charger_limit (M := M) limit valid).
Proof. unfold set_charger_limit. cbv zeta. same_walk phases_leaf. Qed.
Lemma same_phases_dc watt ampere : same phases (enforce_dc_limits (M := M) watt ampere).
Proof. intros s. pose proof (same_budget_dc watt ampere s) as E. unfold budget in E. unfold phases. congruence. Qed.

(** The charger keeps to the limits. *)
Definition kept_within (ampere : Q) (watt : option NumberWithSource) (valid : Z) (s' : evse_manager M) : Prop :=
  let limit := max_current (em_charger s') in
  (0 <= limit <= ampere)%Q
  /\ (forall w, watt = Some w ->
      limit * ac_nominal_voltage s' * inject_Z (ac_nr_phases_active s') <= value w)%Q
  /\ max_current_valid_until (em_charger s') = now_ms s' + 1000 * valid.

Lemma watt_limit_returns watt limit s e s' o :
  apply_watt_limit watt limit s = (Ok e, s', o) ->
  (0 <= limit)%Q -> (forall w, watt = Some w -> 0 <= value w)%Q ->
  (0 < ac_nominal_voltage s')%Q -> 0 < ac_nr_phases_active s' ->
  (0 <= e <= limit)%Q
  /\ (forall w, watt = Some w -> e * ac_nominal_voltage s' * inject_Z (ac_nr_phases_active s') <= value w)%Q.
Proof.
  unfold apply_watt_limit. destruct watt as [w|]; [|intros [= <- <- <-]; split; [lra|done]].
  intros E Hl Hw. unfold em_emit, ebind, eemit, mod_state, eget in E.
  destruct (watt_limited s (value w) limit) as [l|] eqn:El; [|done]. injection E as <- <- _.
  intros HV Hn. destruct (watt_limit_bounds _ _ _ _ El Hl (Hw w eq_refl) HV Hn) as [H1 H2].
  split; [done|]. by intros w' [= <-].
Qed.

(** C31: the current and the power the energy manager enforces on an EVSE
    without a random delay are kept by the charger: its limit is at most the
    current, and draws at most the power on the phases in use; it is valid for
    as long as the limits are. *)
Theorem enforced_limits_bound_charger utc rand l a (s s' : evse_manager M) os :
  e_uuid l = uuid (energy_flow_request s) -> random_delay_enabled s = false ->
  Res.ac_max_current_A (limits_root_side l) = Some a ->
  (0 <= value a <= CHARGER_ABSOLUTE_MAX_CURRENT)%Q ->
  (forall w, Res.total_power_W (limits_root_side l) = Some w -> 0 <= value w)%Q ->
  0 < valid_for l -> (0 < ac_nominal_voltage s')%Q -> 0 < ac_nr_phases_active s' ->
  handle_enforce_limits utc rand l s = (Ok tt, s', os) ->
  kept_within (value a) (Res.total_power_W (limits_root_side l)) (valid_for l) s'.
Proof.
  intros Hid Hd Ha Hmax Hw Hv HV Hn Hrun.
  enough (ends (fun s' => (0 < ac_nominal_voltage s')%Q -> 0 < ac_nr_phases_active s' ->
    kept_within (value a) (Res.total_power_W (limits_root_side l)) (valid_for l) s')
    (handle_enforce_limits utc rand l) s) as He.
  { unfold ends in He. rewrite Hrun in He. by apply He. }
  clear HV Hn Hrun s' os. unfold handle_enforce_limits. apply ends_get.
  rewrite bool_decide_true by done. cbn [em_when]. cbv zeta. rewrite Ha, Hd.
  apply ends_next. intros _ s1 o1 _. apply ends_next. intros _ s2 o2 _.
  apply ends_next. intros enforced s3 o3 E3. apply ends_next. intros limit s4 o4 [= <- <- <-].
  apply ends_next. intros _ s5 o5 [= <- <-].
  apply ends_state. set (s4 := update energy_grid _ s3).
  match goal with |- context [run_state ?m s4] => set (s6 := run_state m s4); assert (phases s6 = phases s4) as Ep end.
  { apply same_bind; [apply same_phases_limit|]. intros _. case_match; [|apply same_ret].
    apply same_when, same_phases_dc. }
  injection Ep as -> ->. intros HV Hn.
  destruct (watt_limit_returns _ _ _ _ _ _ E3 ltac:(apply Hmax) Hw HV Hn) as [Hl Hp].
  pose proof (set_limit_budget enforced (valid_for l) s4 ltac:(lra) Hv) as Hb.
  assert (budget s6 = budget (run_state (set_charger_limit enforced (valid_for l)) s4)) as Eb.
  { apply (same_tail budget). intros _. case_match; [|apply same_ret]. apply same_when, same_budget_dc. }
  rewrite Hb in Eb. clearbody s6. clear Hb. unfold kept_within, now_ms.
  injection Eb as -> -> -> -> ->.
  assert (Qabs enforced == enforced)%Q as Ea by (apply Qabs_pos; lra).
  split; [by rewrite Ea|]. split; [|done]. intros w Ew. rewrite Ea. by apply Hp.
Qed.
End Enforcement.

Definition ex_ac_limits : EnforcedLimits :=
  mkEnforcedLimits "evse1" 10
    (Res.mkLimitsRes (Some (Num 6900 "")) (Some (Num 16 "")) None) [].

(** 6.9 kW on three phases are 10 A. *)
Lemma enforced_limits_bound_charger_witness :
  let s := ex_manager "AC" (ex_state (ex_start ChargeMode.AC)) in
  let s' := run_state (handle_enforce_limits 0 0 ex_ac_limits) s in
  kept_within 16 (Some (Num 6900 "")) 10 s' /\ Qeq_bool (max_current (em_charger s')) 10 = true.
Proof.
  split; [|vm_compute; reflexivity].
  refine (enforced_limits_bound_charger 0 0 ex_ac_limits (Num 16 "")
    (ex_manager "AC" (ex_state (ex_start ChargeMode.AC))) _ _ _ _ _ _ _ _ _ _ _);
    try (vm_compute; reflexivity).
  - vm_compute. split; discriminate.
  - intros w [= <-]. vm_compute. discriminate.
Defined.

(** ** A paused car with an external limit is not reduced

    The reduction to the minimal current for a car that paused is made only
    where an entry has no current for the root or one above the capabilities
    of the board: not where an external limit asks for less than those. *)
Definition ex_zero_power : EvseConf :=
  mkEvseConf 1 "AC" 230 32 32 0 true 1 false 0 0 false 0 false false false false "V2G" true
    true false false.
Definition ex_paused : ex_evse :=
  update energy_grid (assign charger_state EvseState.ChargingPausedEV)
    (assign em_config ex_zero_power (ex_manager "AC" (ex_state (ex_start ChargeMode.AC)))).
Definition ex_external (ampere : Q) : ExternalLimits :=
  mkExternalLimits
    [mkReqEntry "" (assign ac_max_current_A (Some (Num ampere "")) no_limits_req) no_limits_req None None] [] [].
Definition asked (s : ex_evse) : list (option Q) :=
  map (fun e => option_map value (ac_max_current_A (limits_to_root e)))
    (schedule_import (energy_flow_request
       (run_state (request_energy_from_energy_manager (fun _ => 0) false) s))).

Example paused_not_reduced :
  (asked ex_paused, asked (run_state (update_local_energy_limit (ex_external 16)) ex_paused))
  = ([Some 6%Q], [Some 16%Q]).
Proof. vm_compute. reflexivity. Qed.
