(* ===== verification/EvseSession.v ===== *)
(** * The EvseManager: sessions, reservations and authorization

    [evse/evse_managerImpl.cpp], the interface other modules use, and what
    [EvseManager.cpp] keeps for it: the reservation, who waits for an
    authorization, and Plug&Charge.  This layer sits on [evse_manager]: a
    signal of the charger, an output of the manager, is what the handlers here
    react to ([react_session]).  The outputs of each layer are in their order;
    between the layers they are ordered by those signals.  Log texts,
    telemetry, time stamps, the paths of log files and the debug user interface
    are left out. *)
From S2P Require Import Prelude Effects AuthTypes EnergyTypes IECStateMachine IECProofs ErrorHandling.
From S2P Require Import ChargerTypes Charger ChargerStateMachine EvseSystem.
From S2P Require Import EvseManagerTypes EvseManager EvseEnergy.
From stdpp Require Import base tactics list numbers strings.
From Stdlib Require Import QArith Ascii.
Open Scope Z_scope.
Open Scope everest_scope.

(** ** Types *)

Module PaymentOption.
Inductive t : Set := Contract | ExternalPayment.
End PaymentOption.

Module CertificateStatus.
Inductive t : Set :=
| Accepted | SignatureError | CertificateExpired | CertificateRevoked | NoCertificateAvailable
| CertChainError | ContractCancelled.
End CertificateStatus.

Module UpdateAllowedEnergyTransferModesResult.
Inductive t : Set := Accepted | IncompatibleEnergyTransfer | ServiceRenegotiationFailed | NoHlc.
End UpdateAllowedEnergyTransferModesResult.

Record PlugAndChargeConfiguration := mkPnc {
  set_pnc_enabled : option bool;
  set_central_contract_validation_allowed : option bool;
  set_contract_certificate_installation_enabled : option bool
}.

Record Limits := mkLimits {
  limits_uuid : string;
  limits_max_current : Q;
  nr_of_phases_available : Z
}.
#[global] Instance eta_Limits : Eta Limits := fun l =>
  mkLimits (limits_uuid l) (limits_max_current l) (nr_of_phases_available l).

(** [types::powermeter::Powermeter], the values that are used. *)
Record MeterValue := mkMeterValue {
  energy_Wh_import : Q;
  meter_current_A : option (option Q * option Q * option Q);
  meter_power_W : option Q
}.

Record SessionStarted := mkSessionStarted {
  started_reason : StartSessionReason.t;
  started_meter_value : MeterValue;
  started_id_tag : option ProvidedIdToken;
  started_reservation_id : option Z
}.
Record TransactionStarted := mkTransactionStarted {
  transaction_meter_value : MeterValue;
  transaction_reservation_id : option Z;
  transaction_id_tag : ProvidedIdToken
}.
Record TransactionFinished := mkTransactionFinished {
  finished_meter_value : MeterValue;
  finished_reason : StopTransactionReason.t;
  finished_id_tag : option ProvidedIdToken;
  finished_start_signed : option string;
  finished_signed : option string
}.

(** The details of a session event: one member of the type is set. *)
Inductive event_details :=
| no_details
| session_started_details (d : SessionStarted)
| session_finished_details (meter : MeterValue)
| transaction_started_details (d : TransactionStarted)
| transaction_finished_details (d : TransactionFinished)
| enabled_details (connector_id : option Z) (source : EnableDisableSource)
| charging_state_changed_details (meter : MeterValue)
| authorization_details (meter : MeterValue).

Record SessionEvent := mkSessionEvent {
  se_uuid : string;
  se_event : SessionEventEnum.t;
  se_details : event_details
}.

(** The values of [Conf] this layer reads. *)
Record SessionConf := mkSessionConf {
  payment_enable_eim : bool;
  disable_authentication : bool;
  enable_autocharge : bool;
  autocharge_use_slac_instead_of_hlc : bool;
  dbg_hlc_auth_after_tstep : bool;
  external_ready_to_start_charging : bool;
  has_connector_lock : bool;
  has_hlc : bool
}.

(** ** State *)

(** [free_authorizations] counts the threads that authorize a session where
    authentication is disabled. *)
Record evse_session (M : Type) := mkEvseSession {
  manager : evse_manager M;
  session_conf : SessionConf;
  reserved : bool;
  reservation_id : Z;
  hlc_waiting_for_auth_eim : bool;
  hlc_waiting_for_auth_pnc : bool;
  pnc_enabled : bool;
  central_contract_validation_allowed : bool;
  contract_certificate_installation_enabled : bool;
  autocharge_token : ProvidedIdToken;
  charger_ready : bool;
  selected_protocol : string;
  latest_powermeter_data_billing : MeterValue;
  connector_status_changed : bool;
  limits : Limits;
  free_authorizations : nat
}.
Arguments mkEvseSession {M}.
Arguments manager {M}.
Arguments session_conf {M}.
Arguments reserved {M}.
Arguments reservation_id {M}.
Arguments hlc_waiting_for_auth_eim {M}.
Arguments hlc_waiting_for_auth_pnc {M}.
Arguments pnc_enabled {M}.
Arguments central_contract_validation_allowed {M}.
Arguments contract_certificate_installation_enabled {M}.
Arguments autocharge_token {M}.
Arguments charger_ready {M}.
Arguments selected_protocol {M}.
Arguments latest_powermeter_data_billing {M}.
Arguments connector_status_changed {M}.
Arguments limits {M}.
Arguments free_authorizations {M}.
#[global] Instance eta_evse_session {M} : Eta (evse_session M) := fun s =>
  mkEvseSession (manager s) (session_conf s) (reserved s) (reservation_id s)
    (hlc_waiting_for_auth_eim s) (hlc_waiting_for_auth_pnc s) (pnc_enabled s)
    (central_contract_validation_allowed s) (contract_certificate_installation_enabled s)
    (autocharge_token s) (charger_ready s) (selected_protocol s) (latest_powermeter_data_billing s)
    (connector_status_changed s) (limits s) (free_authorizations s).
Coercion session_conf : evse_session >-> SessionConf.

Inductive se_output : Type :=
| manager_out (o : em_output)
| publish_session_event (e : SessionEvent)
| publish_limits (l : Limits)
| publish_selected_protocol (p : string)
| publish_ready
| publish_waiting_for_external_ready (b : bool)
| publish_provided_token (t : ProvidedIdToken)
| publish_car_manufacturer (m : CarManufacturer.t)
| publish_evcc_id (id : string)
| hlc_session_setup (options : list PaymentOption.t) (installation central : bool)
| hlc_authorization_response (s : AuthorizationStatus.t) (c : CertificateStatus.t)
| hlc_update_energy_transfer_modes (l : list EnergyTransferMode.t)
| hlc_update_meter_info (p : MeterValue)
| hlc_update_ac_present_power (w : Q)
| hlc_dlink_ready (b : bool).

Abbreviation SM M := (Eff (evse_session M) se_output em_exn).
Abbreviation se_state := (@eget (evse_session _) se_output em_exn).

(** ** Helpers *)

Fixpoint trim_colons_from_string (text : string) : string :=
  match text with
  | EmptyString => EmptyString
  | String c rest =>
      if Ascii.eqb c ":"%char then trim_colons_from_string rest
      else String c (trim_colons_from_string rest)
  end.

Definition create_autocharge_token (token : string) (id : Z) : ProvidedIdToken :=
  mkProvidedIdToken None
    (mkIdToken ("VID:" +:+ trim_colons_from_string token) IdTokenType.MacAddress)
    None AuthorizationType.Autocharge (Some [id]) None.

Definition with_connectors (l : list Z) (t : ProvidedIdToken) : ProvidedIdToken :=
  mkProvidedIdToken (request_id t) (AuthTypes.id_token t) (parent_id_token t) (authorization_type t)
    (Some l) (prevalidated t).

Definition is_session_finished (e : SessionEventEnum.t) : bool :=
  match e with SessionEventEnum.SessionFinished => true | _ => false end.
Definition is_disabled_event (e : SessionEventEnum.t) : bool :=
  match e with SessionEventEnum.Disabled => true | _ => false end.
Definition by_authorization (r : StartSessionReason.t) : bool :=
  match r with StartSessionReason.Authorized => true | StartSessionReason.EVConnected => false end.

Definition get_manufacturer_from_mac (mac : string) : CarManufacturer.t :=
  if (String.length mac <? 8)%nat then CarManufacturer.Unknown
  else
    let oui := String.substring 0 8 mac in
    if String.eqb oui "00:7D:FA" then CarManufacturer.VolkswagenGroup
    else if existsb (String.eqb oui) ["0C:29:8F"; "4C:FC:AA"; "54:F8:F0"; "98:ED:5C"]
    then CarManufacturer.Tesla
    else if String.eqb (String.substring 0 10 mac) "DC:44:27:1" then CarManufacturer.Tesla
    else CarManufacturer.Unknown.

Section EvseSession.
Context {M : Type} `{ErrorMonitor M}.

Definition se_put (f : evse_session M -> evse_session M) : SM M unit := emodify f.
Definition se_emit (o : se_output) : SM M unit := eemit o.
Definition se_when (b : bool) (m : SM M unit) : SM M unit := if b then m else eret tt.

(** ** Reservations *)

Definition reservation_event (e : SessionEventEnum.t) : SM M unit :=
  se_emit (publish_session_event (mkSessionEvent "" e no_details)).

Definition cancel_reservation (signal_event : bool) : SM M unit :=
  let* s := se_state in
  se_when (reserved s)
    (se_put (assign reserved false) ;;;
     se_put (assign reservation_id (-1)) ;;;
     se_when signal_event (reservation_event SessionEventEnum.ReservationEnd)).

Definition is_reserved (s : evse_session M) : bool := reserved s.
Definition get_reservation_id (s : evse_session M) : Z := reservation_id s.

(** What [reserve] does once the charger is found ready for a reservation. *)
Definition store_reservation (id : Z) (signal_reservation_event : bool) : SM M bool :=
  let* s := se_state in
  let overwrite_reservation := reservation_id s =? id in
  if negb (reserved s) || (reservation_id s =? -1) || overwrite_reservation then
    se_put (assign reserved true) ;;;
    se_when (0 <=? id) (se_put (assign reservation_id id)) ;;;
    let* s := se_state in
    se_when ((negb overwrite_reservation || (reservation_id s =? -1)) && signal_reservation_event)
      (reservation_event SessionEventEnum.ReservationStart) ;;;
    eret true
  else eret false.

(** ** Set up of the HLC session *)

Definition configured_options (s : evse_session M) : list PaymentOption.t :=
  (if payment_enable_eim s then [PaymentOption.ExternalPayment] else [])
  ++ (if pnc_enabled s then [PaymentOption.Contract] else []).

(** With a fall back when no option is enabled, at start up and after a
    session. *)
Definition session_setup : SM M unit :=
  let* s := se_state in
  se_emit (hlc_session_setup
    (configured_options s
     ++ (if negb (payment_enable_eim s) && negb (pnc_enabled s)
         then [PaymentOption.ExternalPayment] else []))
    (pnc_enabled s && contract_certificate_installation_enabled s)
    (pnc_enabled s && central_contract_validation_allowed s)).

Definition session_setup_on_start (reason : StartSessionReason.t) : SM M unit :=
  let* s := se_state in
  if by_authorization reason
  then se_emit (hlc_session_setup [PaymentOption.ExternalPayment] false false)
  else
    se_emit (hlc_session_setup (configured_options s)
      (pnc_enabled s && contract_certificate_installation_enabled s)
      (pnc_enabled s && central_contract_validation_allowed s)).

(** ** Authorization *)

(** The HLC module is answered once the charger is authorized as it waits
    for. *)
Definition charger_was_authorized : SM M unit :=
  let* s := se_state in
  se_when (hlc_waiting_for_auth_pnc s && get_authorized_pnc (em_charger (manager s)))
    (se_emit (hlc_authorization_response AuthorizationStatus.Accepted CertificateStatus.Accepted) ;;;
     se_put (assign hlc_waiting_for_auth_eim false) ;;;
     se_put (assign hlc_waiting_for_auth_pnc false)) ;;;
  let* s := se_state in
  se_when (hlc_waiting_for_auth_eim s && get_authorized_eim (em_charger (manager s)))
    (se_emit (hlc_authorization_response AuthorizationStatus.Accepted
       CertificateStatus.NoCertificateAvailable) ;;;
     se_put (assign hlc_waiting_for_auth_eim false) ;;;
     se_put (assign hlc_waiting_for_auth_pnc false)).

(** The handler of [require_auth_eim]. *)
Definition on_require_auth_eim : SM M unit :=
  let* s := se_state in
  let c := em_charger (manager s) in
  if dbg_hlc_auth_after_tstep s && get_authorized_eim_ready_for_hlc c
     || negb (dbg_hlc_auth_after_tstep s) && get_authorized_eim c then
    se_put (assign hlc_waiting_for_auth_eim false) ;;;
    se_put (assign hlc_waiting_for_auth_pnc false) ;;;
    se_emit (hlc_authorization_response AuthorizationStatus.Accepted
      CertificateStatus.NoCertificateAvailable)
  else
    se_when (enable_autocharge s) (se_emit (publish_provided_token (autocharge_token s))) ;;;
    se_put (assign hlc_waiting_for_auth_eim true) ;;;
    se_put (assign hlc_waiting_for_auth_pnc false).

(** The handler of [require_auth_pnc]. *)
Definition on_require_auth_pnc (token : ProvidedIdToken) : SM M unit :=
  let* s := se_state in
  se_emit (publish_provided_token (with_connectors [connector_id (manager s)] token)) ;;;
  se_put (assign hlc_waiting_for_auth_eim false) ;;;
  se_put (assign hlc_waiting_for_auth_pnc (negb (get_authorized_pnc (em_charger (manager s))))).

(** The handlers of [evcc_id] and, where it is used instead, of
    [ev_mac_address] of SLAC; [publish_evcc_id] is the [ev_info] that is
    published with the id. *)
Definition on_evcc_id (token : string) : SM M unit :=
  let* s := se_state in
  se_when (negb (autocharge_use_slac_instead_of_hlc s))
    (se_put (assign autocharge_token (create_autocharge_token token (connector_id (manager s)))) ;;;
     se_put (update manager (assign car_manufacturer (get_manufacturer_from_mac token))) ;;;
     se_emit (publish_car_manufacturer (get_manufacturer_from_mac token)) ;;;
     se_emit (publish_evcc_id token)).
Definition on_ev_mac_address (token : string) : SM M unit :=
  let* s := se_state in
  se_when (autocharge_use_slac_instead_of_hlc s && slac_enabled (manager s) && enable_autocharge s)
    (se_emit (publish_provided_token (create_autocharge_token token (connector_id (manager s))))).

(** ** Signals of the charger

    [sh] is what the charger held when it sent the signal. *)

Definition session_event (sh : SharedContext) (e : SessionEventEnum.t) (d : event_details) : SM M unit :=
  se_emit (publish_session_event (mkSessionEvent (session_uuid sh) e d)).

(** The reservation of a session that starts. *)
Definition current_reservation (s : evse_session M) : option Z :=
  if is_reserved s then Some (get_reservation_id s) else None.

Definition on_session_started (sh : SharedContext) (reason : StartSessionReason.t)
    (token : option ProvidedIdToken) : SM M unit :=
  let* s := se_state in
  se_when (hlc_enabled (manager s)) (session_setup_on_start reason) ;;;
  se_put (assign selected_protocol "IEC61851-1"%string) ;;;
  se_when (disable_authentication s && negb (by_authorization reason))
    (se_put (update free_authorizations S)) ;;;
  let rid := current_reservation s in
  se_when (is_reserved s && by_authorization reason)
    (cancel_reservation false) ;;;
  session_event sh SessionEventEnum.SessionStarted
    (session_started_details (mkSessionStarted reason (latest_powermeter_data_billing s) token rid)).

Definition on_transaction_started (sh : SharedContext) (token : ProvidedIdToken) : SM M unit :=
  let* s := se_state in
  let rid := current_reservation s in
  se_when (is_reserved s) (cancel_reservation false) ;;;
  session_event sh SessionEventEnum.TransactionStarted
    (transaction_started_details (mkTransactionStarted (latest_powermeter_data_billing s) rid token)).

(** The signed meter values are taken out of the charger. *)
Definition on_transaction_finished (sh : SharedContext) (reason : StopTransactionReason.t)
    (token : option ProvidedIdToken) : SM M unit :=
  let* s := se_state in
  se_put (assign selected_protocol "Unknown"%string) ;;;
  se_put (update manager (update em_charger (update shared_context (fun c =>
    assign stop_signed_meter_value None (assign start_signed_meter_value None c))))) ;;;
  session_event sh SessionEventEnum.TransactionFinished
    (transaction_finished_details (mkTransactionFinished (latest_powermeter_data_billing s) reason token
       (start_signed_meter_value sh) (stop_signed_meter_value sh))).

(** The details of an event without arguments. *)
Definition simple_details (s : evse_session M) (e : SessionEventEnum.t) : event_details :=
  let meter := latest_powermeter_data_billing s in
  match e with
  | SessionEventEnum.SessionFinished => session_finished_details meter
  | SessionEventEnum.Enabled | SessionEventEnum.Disabled =>
      enabled_details (if connector_status_changed s then Some 1 else None)
        (active_enable_disable_source (em_charger (manager s)))
  | SessionEventEnum.ChargingPausedEV | SessionEventEnum.ChargingPausedEVSE
  | SessionEventEnum.ChargingStarted | SessionEventEnum.ChargingResumed =>
      charging_state_changed_details meter
  | SessionEventEnum.Authorized | SessionEventEnum.Deauthorized => authorization_details meter
  | _ => no_details
  end.

Definition on_simple_event (sh : SharedContext) (e : SessionEventEnum.t) : SM M unit :=
  let* s := se_state in
  let finished := is_session_finished e in
  se_when (hlc_enabled (manager s) && finished) session_setup ;;;
  session_event sh e (simple_details s e) ;;;
  se_when finished (se_put (assign selected_protocol "Unknown"%string)) ;;;
  se_when (is_reserved s && is_disabled_event e) (cancel_reservation true) ;;;
  let* s := se_state in
  se_emit (publish_selected_protocol (selected_protocol s)).

Definition on_signal (o : logged) : SM M unit :=
  let (o, sh) := o in
  match o with
  | signal_session_started_event reason token => on_session_started sh reason token
  | signal_transaction_started_event token => on_transaction_started sh token
  | signal_transaction_finished_event reason token => on_transaction_finished sh reason token
  | signal_simple_event e => on_simple_event sh e
  | signal_max_current c =>
      let* s := se_state in
      se_put (update limits (fun l =>
        assign limits_max_current c (assign limits_uuid (module_info_id (manager s)) l))) ;;;
      let* s := se_state in se_emit (publish_limits (limits s))
  | error_handling_signal ErrorHandlingEvents.ForceEmergencyShutdown
  | error_handling_signal ErrorHandlingEvents.ForceErrorShutdown => cancel_reservation true
  | _ => eret tt
  end.

Definition on_phases_available (n : Z) : SM M unit :=
  se_when ((1 <=? n) && (n <=? 3))
    (se_put (update limits (assign nr_of_phases_available n)) ;;;
     let* s := se_state in se_emit (publish_limits (limits s))).

(** ** The manager below *)

Definition react_session (o : em_output) : SM M unit :=
  se_emit (manager_out o) ;;;
  match o with
  | charger_out l => on_signal l
  | signalNrOfPhasesAvailable n => on_phases_available n
  | _ => eret tt
  end.

Definition manager_call {A} (m : EM M A) : SM M A := fun s =>
  let '(r, mgr, os) := m (manager s) in
  (efor os react_session ;;; match r with Ok a => eret a | Err e => ethrow e end) (assign manager mgr s).

Definition charger_command {A} (m : CH M A) : SM M A := manager_call (charger_call m).

(** ** Commands of other modules *)

(** [EvseManager::reserve]. *)
Definition reserve (id : Z) (signal_reservation_event : bool) : SM M bool :=
  let* s := se_state in
  if EvseState.eqb (current_state (em_charger (manager s))) EvseState.Disabled then eret false
  else
    let* fatal := charger_command stop_charging_on_fatal_error in
    if fatal then eret false
    else
      let* s := se_state in
      if negb (EvseState.eqb (current_state (em_charger (manager s))) EvseState.Idle) then eret false
      else store_reservation id signal_reservation_event.

Definition handle_reserve (id : Z) : SM M bool := reserve id true.
Definition handle_cancel_reservation : SM M unit := cancel_reservation true.

Definition handle_enable_disable (id : Z) (source : EnableDisableSource) : SM M bool :=
  se_put (assign connector_status_changed (negb (id =? 0))) ;;;
  charger_command (enable_disable id source).

Definition is_pnc (t : ProvidedIdToken) : bool :=
  match authorization_type t with AuthorizationType.PlugAndCharge => true | _ => false end.
Definition is_accepted (r : ValidationResult) : bool :=
  match authorization_status r with AuthorizationStatus.Accepted => true | _ => false end.

(** [certificate] and [tariff] are members of the validation result. *)
Definition handle_authorize_response (w : world) (token : ProvidedIdToken) (result : ValidationResult)
    (certificate : option CertificateStatus.t) (tariff : list string) : SM M unit :=
  let* s := se_state in
  let pnc := is_pnc token in
  let answer := se_when pnc (se_emit (hlc_authorization_response (authorization_status result)
                  (default CertificateStatus.Accepted certificate))) in
  if is_accepted result then
    if hlc_waiting_for_auth_pnc s && negb pnc then eret tt
    else
      charger_command (authorize w true token tariff) ;;;
      charger_was_authorized ;;;
      match vr_reservation_id result with
      | Some id => reserve id false ;;; eret tt
      | None => eret tt
      end ;;;
      answer
  else answer.

Definition handle_withdraw_authorization : SM M unit :=
  let* s := se_state in
  se_when (get_authorized_eim (em_charger (manager s)) && is_reserved s) (cancel_reservation true) ;;;
  charger_command deauthorize ;;; eret tt.

Definition handle_pause_charging : SM M bool := charger_command pause_charging.
Definition handle_resume_charging : SM M bool := charger_command resume_charging.
Definition handle_stop_transaction (w : world) (request : StopTransactionRequest) : SM M bool :=
  charger_command (cancel_transaction w request).

Definition ready_to_start_charging : SM M unit :=
  let* s := se_state in
  if charger_ready s then eret tt
  else
    se_put (assign charger_ready true) ;;;
    manager_call
      (let* m := mod_state in
       em_emit (publish_supported_energy_transfer_modes (supported_energy_transfers m)) ;;;
       em_put (assign timepoint_ready_for_charging (now_ms m)) ;;;
       charger_call main_thread_start ;;;
       charger_call enable_disable_initial_state_publish) ;;;
    se_emit publish_ready.

Definition handle_external_ready_to_start_charging : SM M bool :=
  let* s := se_state in
  if external_ready_to_start_charging s then ready_to_start_charging ;;; eret true else eret false.

Definition unlock_request : StopTransactionRequest :=
  mkStopTransactionRequest StopTransactionReason.UnlockCommand None.

Definition handle_force_unlock (w : world) : SM M bool :=
  let* s := se_state in
  if has_connector_lock s then
    charger_command (cancel_transaction w unlock_request) ;;;
    manager_call (em_board w op_force_unlock) ;;;
    eret true
  else eret false.

Definition handle_set_plug_and_charge_configuration (c : PlugAndChargeConfiguration) : SM M unit :=
  match set_pnc_enabled c with Some b => se_put (assign pnc_enabled b) | None => eret tt end ;;;
  match set_central_contract_validation_allowed c with
  | Some b => se_put (assign central_contract_validation_allowed b)
  | None => eret tt
  end ;;;
  match set_contract_certificate_installation_enabled c with
  | Some b => se_put (assign contract_certificate_installation_enabled b)
  | None => eret tt
  end.

Definition handle_update_allowed_energy_transfer_modes (l : list EnergyTransferMode.t)
    : SM M UpdateAllowedEnergyTransferModesResult.t :=
  let* s := se_state in
  if has_hlc s then
    se_emit (hlc_update_energy_transfer_modes l) ;;;
    eret UpdateAllowedEnergyTransferModesResult.Accepted
  else eret UpdateAllowedEnergyTransferModesResult.NoHlc.

(** ** Other inputs *)

(** The thread that authorizes where authentication is disabled. *)
Definition free_service_token : ProvidedIdToken :=
  mkProvidedIdToken None (mkIdToken "FREESERVICE" IdTokenType.Local) None AuthorizationType.RFID
    None (Some true).
Definition free_authorization_runs (w : world) : SM M unit :=
  let* s := se_state in
  match free_authorizations s with
  | O => eret tt
  | S n =>
      se_put (assign free_authorizations n) ;;;
      charger_command (authorize w true free_service_token []) ;;;
      charger_was_authorized
  end.

(** The handler of [signal_event] that belongs to this layer: a new session
    waits for nobody. *)
Definition on_control_pilot (w : world) (op : iec_op) : SM M unit :=
  let* s := se_state in
  let plugged_in := existsb (fun e => match e with CPEvent.CarPluggedIn => true | _ => false end)
    (events_of (run_out (iec_op_action op) (bsp (em_charger (manager s))))) in
  manager_call (em_board w op) ;;;
  se_when (hlc_enabled (manager s) && plugged_in)
    (se_put (assign hlc_waiting_for_auth_eim false) ;;;
     se_put (assign hlc_waiting_for_auth_pnc false)).

(** The handler of [powermeter] of the meter used for billing. *)
Definition on_powermeter (p : MeterValue) : SM M unit :=
  match meter_current_A p with
  | Some (Some l1, Some l2, Some l3) => charger_command (set_current_drawn_by_vehicle l1 l2 l3)
  | _ => eret tt
  end ;;;
  let* s := se_state in
  se_when (hlc_enabled (manager s))
    (se_emit (hlc_update_meter_info p) ;;;
     match meter_power_W p, selected_d20_energy_service (manager s) with
     | Some watt, Some _ => se_emit (hlc_update_ac_present_power watt)
     | _, _ => eret tt
     end) ;;;
  se_put (assign latest_powermeter_data_billing p).

(** The handlers of SLAC that belong to this layer. *)
Definition on_request_error_routine : SM M unit := charger_command request_error_sequence.
Definition on_dlink_ready (value : bool) : SM M unit :=
  let* s := se_state in se_when (hlc_enabled (manager s)) (se_emit (hlc_dlink_ready value)).

(** The end of [ready]: what a session that was interrupted by a power loss
    left behind is cleaned up, and the charger starts without current. *)
Definition startup (w : world) : SM M unit :=
  let* s := se_state in
  let c := em_charger (manager s) in
  se_when (negb (String.eqb (get_session w c) ""))
    (se_emit (publish_session_event
       (mkSessionEvent (get_session w c) SessionEventEnum.SessionResumed no_details))) ;;;
  charger_command (cleanup_transactions_on_startup w) ;;;
  charger_command (set_max_current 0 (steady_clock c + 120000)) ;;;
  se_emit (publish_waiting_for_external_ready (external_ready_to_start_charging s)) ;;;
  se_when (negb (external_ready_to_start_charging s)) ready_to_start_charging.
End EvseSession.
