(* ===== verification/EvseSessionProperties.v ===== *)
(** * Sessions and authorization of the EvseManager: what is guaranteed

    Everything that happens at the module, in any order ([se_op]).  The
    sessions it publishes are the sessions of its charger, and a car is told
    that it is authorized only when the charger is. *)
From S2P Require Import Prelude Effects AuthTypes EnergyTypes IECStateMachine IECProofs ErrorHandling.
From S2P Require Import ChargerTypes Charger ChargerStateMachine ChargerTermination ChargerProofs.
From S2P Require Import ChargerInvariant ChargerLoop.
From S2P Require Import EvseSystem EvseManagerTypes EvseManager EvseEnergy EvseManagerSystem.
From S2P Require Import EvseManagerProperties EvseSession.
From S2P Require Import EnergyTests ChargerExample CableCheckProperties.
From stdpp Require Import base tactics list numbers strings.
From Stdlib Require Import QArith.
Open Scope Z_scope.
Open Scope everest_scope.

(** [se_internal]: what happens at the manager without a command to this
    layer. *)
Inductive se_op (M : Type) : Type :=
| se_internal (op : em_op M)
| se_reserve (id : Z)
| se_cancel_reservation
| se_enable_disable (id : Z) (source : EnableDisableSource)
| se_authorize_response (w : world) (t : ProvidedIdToken) (r : ValidationResult)
    (c : option CertificateStatus.t) (tariff : list string)
| se_withdraw_authorization
| se_pause
| se_resume
| se_stop_transaction (w : world) (r : StopTransactionRequest)
| se_external_ready
| se_force_unlock (w : world)
| se_pnc_configuration (c : PlugAndChargeConfiguration)
| se_allowed_modes (l : list EnergyTransferMode.t)
| se_require_auth_eim
| se_require_auth_pnc (t : ProvidedIdToken)
| se_evcc_id (token : string)
| se_ev_mac_address (token : string)
| se_free_authorization (w : world)
| se_powermeter (p : MeterValue)
| se_error_routine
| se_dlink_ready (b : bool)
| se_startup (w : world).
Arguments se_internal {M}.
Arguments se_reserve {M}.
Arguments se_cancel_reservation {M}.
Arguments se_enable_disable {M}.
Arguments se_authorize_response {M}.
Arguments se_withdraw_authorization {M}.
Arguments se_pause {M}.
Arguments se_resume {M}.
Arguments se_stop_transaction {M}.
Arguments se_external_ready {M}.
Arguments se_force_unlock {M}.
Arguments se_pnc_configuration {M}.
Arguments se_allowed_modes {M}.
Arguments se_require_auth_eim {M}.
Arguments se_require_auth_pnc {M}.
Arguments se_evcc_id {M}.
Arguments se_ev_mac_address {M}.
Arguments se_free_authorization {M}.
Arguments se_powermeter {M}.
Arguments se_error_routine {M}.
Arguments se_dlink_ready {M}.
Arguments se_startup {M}.

Section System.
Context {M : Type} `{ErrorMonitor M} `{Dates}.

(** Events of the board pass this layer; the commands are those below. *)
Definition internal_action (op : em_op M) : SM M unit :=
  match op with
  | em_call w (op_iec_feed now) => on_control_pilot w (op_feed now)
  | em_call w (op_board_event e) => on_control_pilot w (op_bsp_event e)
  | em_call _ (op_cp_event _) | em_call _ (op_authorize _ _ _) | em_call _ op_deauthorize
  | em_call _ op_signed_meter_values => eret tt
  | _ => manager_call (em_action op)
  end.

Definition se_action (op : se_op M) : SM M unit :=
  match op with
  | se_internal op => internal_action op
  | se_reserve id => handle_reserve id ;;; eret tt
  | se_cancel_reservation => handle_cancel_reservation
  | se_enable_disable id source => handle_enable_disable id source ;;; eret tt
  | se_authorize_response w t r c tariff => handle_authorize_response w t r c tariff
  | se_withdraw_authorization => handle_withdraw_authorization
  | se_pause => handle_pause_charging ;;; eret tt
  | se_resume => handle_resume_charging ;;; eret tt
  | se_stop_transaction w r => handle_stop_transaction w r ;;; eret tt
  | se_external_ready => handle_external_ready_to_start_charging ;;; eret tt
  | se_force_unlock w => handle_force_unlock w ;;; eret tt
  | se_pnc_configuration c => handle_set_plug_and_charge_configuration c
  | se_allowed_modes l => handle_update_allowed_energy_transfer_modes l ;;; eret tt
  | se_require_auth_eim => on_require_auth_eim
  | se_require_auth_pnc t => on_require_auth_pnc t
  | se_evcc_id token => on_evcc_id token
  | se_ev_mac_address token => on_ev_mac_address token
  | se_free_authorization w => free_authorization_runs w
  | se_powermeter p => on_powermeter p
  | se_error_routine => on_request_error_routine
  | se_dlink_ready b => on_dlink_ready b
  | se_startup w => startup w
  end.

Definition run_se (ops : list (se_op M)) : SM M unit := efor ops se_action.

(** ** The charger below *)

(** The signals of the charger, in their order. *)
Definition signals (os : list se_output) : list logged :=
  charger_outs (omap (fun o => match o with manager_out o => Some o | _ => None end) os).

Lemma signals_app l l' : signals (l ++ l') = signals l ++ signals l'.
Proof. unfold signals. by rewrite omap_app, charger_outs_app. Qed.

(** What [m] does keeps an invariant of the charger and its signals, when it
    returns. *)
Definition respects {A} (m : SM M A) : Prop := forall s l,
  inv (em_charger (manager s)) l ->
  match m s with
  | (Ok _, s', os) => inv (em_charger (manager s')) (l ++ signals os)
  | (Err _, _, _) => True
  end.

Lemma respects_ret {A} (a : A) : respects (eret a).
Proof. intros s l Hi. cbn. by rewrite app_nil_r. Qed.
Lemma respects_throw {A} e : respects (ethrow e : SM M A).
Proof. done. Qed.
Lemma respects_get {A} (k : evse_session M -> SM M A) :
  (forall s, respects (k s)) -> respects (ebind se_state k).
Proof. intros Hk s. rewrite run_get_bind. apply Hk. Qed.
Lemma respects_put f : (forall s, em_charger (manager (f s)) = em_charger (manager s)) -> respects (se_put f).
Proof. intros Hf s l Hi. cbn. by rewrite app_nil_r, Hf. Qed.
Lemma respects_emit o : signals [o] = [] -> respects (se_emit o).
Proof. intros Ho s l Hi. cbn [se_emit eemit]. unfold se_emit, eemit. by rewrite Ho, app_nil_r. Qed.
Lemma respects_when b (m : SM M unit) : respects m -> respects (se_when b m).
Proof. destruct b; [done|]. intros _. apply respects_ret. Qed.
Lemma respects_bind {A B} (m : SM M A) (k : A -> SM M B) :
  respects m -> (forall a, respects (k a)) -> respects (ebind m k).
Proof.
  intros Hm Hk s l Hi. specialize (Hm s l Hi). unfold ebind. destruct (m s) as [[[a|e] s1] o1]; [|done].
  specialize (Hk a s1 _ Hm). destruct (k a s1) as [[[b|e] s2] o2]; [|done]. by rewrite signals_app, app_assoc.
Qed.

(** [m] returns without a signal, and touches nothing of the charger but the
    signed meter values. *)
Definition quiet {A} (m : SM M A) : Prop := forall s, exists a s' os,
  m s = (Ok a, s', os) /\ signals os = []
  /\ core (em_charger (manager s')) = core (em_charger (manager s))
  /\ bsp (em_charger (manager s')) = bsp (em_charger (manager s)).

Lemma quiet_ret {A} (a : A) : quiet (eret a).
Proof. intros s. by eexists _, _, _. Qed.
Lemma quiet_get {A} (k : evse_session M -> SM M A) : (forall s, quiet (k s)) -> quiet (ebind se_state k).
Proof. intros Hk s. rewrite run_get_bind. apply Hk. Qed.
Lemma quiet_put f :
  (forall s, core (em_charger (manager (f s))) = core (em_charger (manager s))
             /\ bsp (em_charger (manager (f s))) = bsp (em_charger (manager s))) -> quiet (se_put f).
Proof. intros Hf s. destruct (Hf s). by eexists _, _, _. Qed.
Lemma quiet_emit o : signals [o] = [] -> quiet (se_emit o).
Proof. intros Ho s. by eexists _, _, _. Qed.
Lemma quiet_when b (m : SM M unit) : quiet m -> quiet (se_when b m).
Proof. destruct b; [done|]. intros _. apply quiet_ret. Qed.
Lemma quiet_bind {A B} (m : SM M A) (k : A -> SM M B) : quiet m -> (forall a, quiet (k a)) -> quiet (ebind m k).
Proof.
  intros Hm Hk s. destruct (Hm s) as (a & s1 & o1 & E1 & S1 & C1 & B1).
  destruct (Hk a s1) as (b & s2 & o2 & E2 & S2 & C2 & B2). unfold ebind. rewrite E1, E2.
  eexists _, _, _. split; [done|]. rewrite signals_app, S1, S2. split_and!; [done|congruence|congruence].
Qed.

Lemma quiet_respects {A} (m : SM M A) : quiet m -> respects m.
Proof.
  intros Hm s l Hi. destruct (Hm s) as (a & s' & os & -> & -> & Hc & Hb). rewrite app_nil_r.
  by apply (inv_core (em_charger (manager s))).
Qed.
End System.
Arguments se_op M : clear implicits.

Ltac quiet_walk :=
  repeat first
    [ apply quiet_get; intros ? | apply quiet_when | apply quiet_bind; [|intros ?]
    | apply quiet_emit; reflexivity | apply quiet_put; intros; split; reflexivity | apply quiet_ret | case_match ].

Section Reactions.
Context {M : Type} `{ErrorMonitor M} `{Dates}.

Lemma quiet_cancel b : quiet (cancel_reservation (M := M) b).
Proof. unfold cancel_reservation, reservation_event. quiet_walk. Qed.
Lemma quiet_signal l : quiet (on_signal (M := M) l).
Proof.
  destruct l as [o sh]. destruct o; cbn [on_signal];
    unfold on_session_started, on_transaction_started, on_transaction_finished, on_simple_event,
      session_setup, session_setup_on_start, session_event, cancel_reservation, reservation_event; quiet_walk.
Qed.

(** The reactions to the outputs of the manager. *)
Lemma reactions os (s : evse_session M) : exists s' o,
  efor os react_session s = (Ok tt, s', o) /\ signals o = charger_outs os
  /\ core (em_charger (manager s')) = core (em_charger (manager s))
  /\ bsp (em_charger (manager s')) = bsp (em_charger (manager s)).
Proof.
  revert s. induction os as [|x os IH]; intros s; cbn [efor]; [by eexists _, _|].
  assert (quiet (M := M) match x with
          | charger_out l => on_signal l
          | signalNrOfPhasesAvailable n => on_phases_available n
          | _ => eret tt end) as Hq.
  { destruct x; try apply quiet_ret; [apply quiet_signal|]. unfold on_phases_available. quiet_walk. }
  destruct (Hq s) as ([] & s1 & o1 & E1 & S1 & C1 & B1).
  destruct (IH s1) as (s2 & o2 & E2 & S2 & C2 & B2).
  eexists s2, (manager_out x :: o1 ++ o2). unfold react_session at 1, se_emit.
  unfold ebind at 1. unfold ebind at 1. cbn [eemit]. rewrite E1, E2. split; [done|].
  change (manager_out x :: o1 ++ o2) with ([manager_out x] ++ o1 ++ o2).
  rewrite !signals_app, S1, S2. change (charger_outs (x :: os)) with (charger_outs ([x] ++ os)).
  rewrite charger_outs_app. split; [done|]. split; congruence.
Qed.

Lemma respects_acts {A} (m : EM M A) :
  (forall s, exists c : CH M unit, keeps inv c /\ acts m c s) -> respects (manager_call m).
Proof.
  intros Hm s l Hi. unfold manager_call. destruct (Hm (manager s)) as (c & Hk & Hc). unfold acts in Hc.
  destruct (m (manager s)) as [[[a|e] mgr] os]; unfold ebind;
    destruct (reactions os (assign manager mgr s)) as (s' & o & E & S & C & B); rewrite E; [|done].
  cbn. rewrite app_nil_r, S.
  specialize (Hk (em_charger (manager s)) l Hi). unfold wp in Hk. rewrite Hc in Hk.
  by apply (inv_core (em_charger mgr)).
Qed.

Lemma respects_call {A} (m : EM M A) : sim (fun _ => True) m -> respects (manager_call m).
Proof.
  intros Hm. apply respects_acts. intros s. destruct (Hm s) as (h & _ & Hh).
  exists (run_history h). split; [apply keeps_history|done].
Qed.

Lemma respects_command {A} (m : CH M A) : keeps inv m -> respects (charger_command m).
Proof.
  intros Hm. apply respects_acts. intros s. exists (m ;;; eret tt). split; [|apply acts_call].
  apply kept_bind; [done|]. intros _. apply kept_ret.
Qed.

Lemma respects_board w op : quiet_op op = true -> respects (manager_call (em_board (M := M) w op)).
Proof. intros Hq. apply respects_acts. intros s. exists (board w op). split; [by apply keeps_board|apply acts_board]. Qed.
End Reactions.

Ltac respects_walk tac :=
  repeat first
    [ tac | apply respects_get; intros ? | apply respects_when | apply respects_bind; [|intros ?]
    | apply respects_ret | apply respects_throw | case_match
    | solve [apply quiet_respects; quiet_walk] ].

(** The commands of the charger keep its invariant. *)
Ltac command_leaf :=
  idtac; lazymatch goal with
  | |- respects (charger_command _) =>
      apply respects_command;
      first [ apply keeps_authorize | apply keeps_deauthorize | apply keeps_cancel | apply keeps_pause
            | apply keeps_resume | apply keeps_enable_disable | apply keeps_cleanup | apply keeps_set_max_current
            | apply keeps_error_sequence
            | unfold set_current_drawn_by_vehicle, stop_charging_on_fatal_error; solve [auto with charger] ]
  | |- respects (manager_call (em_board _ _)) => by apply respects_board
  end.

Section Sessions.
Context {M : Type} `{ErrorMonitor M} `{Dates}.

Lemma respects_reserve id b : respects (reserve (M := M) id b).
Proof. unfold reserve, store_reservation, reservation_event. respects_walk command_leaf. Qed.

Lemma respects_ready : respects (ready_to_start_charging (M := M)).
Proof.
  unfold ready_to_start_charging. respects_walk command_leaf. apply respects_call.
  apply sim_get. intros m. apply sim_bind; [apply sim_silent; eauto with silent|]. intros _.
  apply sim_bind; [apply sim_silent; eauto with silent|]. intros _.
  apply sim_bind; [by apply (sim_call _ any_world op_main_thread_start)|]. intros _.
  by apply (sim_call _ any_world op_initial_publish).
Qed.

Lemma respects_action op : respects (se_action (M := M) op).
Proof.
  assert (forall w op, quiet_op op = true -> respects (on_control_pilot (M := M) w op)) as Hcp.
  { intros w op' Hq. unfold on_control_pilot. respects_walk command_leaf. }
  destruct op; cbn [se_action];
    unfold handle_reserve, handle_cancel_reservation, handle_enable_disable, handle_authorize_response,
      handle_withdraw_authorization, handle_pause_charging, handle_resume_charging, handle_stop_transaction,
      handle_external_ready_to_start_charging, handle_force_unlock, handle_set_plug_and_charge_configuration,
      handle_update_allowed_energy_transfer_modes, on_require_auth_eim, on_require_auth_pnc, on_evcc_id,
      on_ev_mac_address, free_authorization_runs, charger_was_authorized, on_powermeter,
      on_request_error_routine, on_dlink_ready, startup, cancel_reservation, reservation_event; cbv zeta.
  all: respects_walk ltac:(idtac; first [command_leaf | apply respects_reserve | apply respects_ready]).
  unfold internal_action. case_match; try apply respects_call, sim_action.
  case_match; try apply respects_call, sim_action; try apply respects_ret; by apply Hcp.
Qed.

Lemma respects_run ops : respects (run_se (M := M) ops).
Proof.
  unfold run_se. induction ops as [|op ops IH]; cbn [efor]; [apply respects_ret|].
  apply respects_bind; [apply respects_action|]. done.
Qed.
End Sessions.

(** ** What is published *)

(** The sessions that are opened (with their reason and token) and finished,
    each with its id: as published, and as signalled by the charger. *)
Definition session_mark : Type := string * option (StartSessionReason.t * option ProvidedIdToken).

Definition published_mark (o : se_output) : option session_mark :=
  match o with
  | publish_session_event (mkSessionEvent id SessionEventEnum.SessionStarted (session_started_details d)) =>
      Some (id, Some (started_reason d, started_id_tag d))
  | publish_session_event (mkSessionEvent id SessionEventEnum.SessionFinished _) => Some (id, None)
  | _ => None
  end.
Definition signalled_mark (o : logged) : option session_mark :=
  match o.1 with
  | signal_session_started_event reason token => Some (session_uuid o.2, Some (reason, token))
  | signal_simple_event SessionEventEnum.SessionFinished => Some (session_uuid o.2, None)
  | _ => None
  end.

Definition published_sessions (os : list se_output) : list session_mark := omap published_mark os.
Definition signalled_sessions (l : list logged) : list session_mark := omap signalled_mark l.

Section Mirror.
Context {M : Type} `{ErrorMonitor M} `{Dates}.

(** What is published is what was signalled. *)
Definition mirrors {A} (m : SM M A) : Prop := forall s,
  published_sessions (run_out m s) = signalled_sessions (signals (run_out m s)).

Lemma mirrors_bind {A B} (m : SM M A) (k : A -> SM M B) : mirrors m -> (forall a, mirrors (k a)) -> mirrors (ebind m k).
Proof.
  intros Hm Hk s. specialize (Hm s). unfold run_out, ebind in *. destruct (m s) as [[[a|e] s1] o1]; [|done].
  specialize (Hk a s1). unfold run_out in Hk. destruct (k a s1) as [[r s2] o2]. cbn [fst snd] in *.
  unfold published_sessions, signalled_sessions in *. rewrite signals_app, !omap_app. by rewrite Hm, Hk.
Qed.
Lemma mirrors_get {A} (k : evse_session M -> SM M A) : (forall s, mirrors (k s)) -> mirrors (ebind se_state k).
Proof. intros Hk s. unfold run_out. rewrite run_get_bind. apply Hk. Qed.
Lemma mirrors_ret {A} (a : A) : mirrors (eret a).
Proof. done. Qed.
Lemma mirrors_throw {A} e : mirrors (ethrow e : SM M A).
Proof. done. Qed.
Lemma mirrors_put f : mirrors (se_put f).
Proof. done. Qed.
Lemma mirrors_emit o : published_mark o = None -> signals [o] = [] -> mirrors (se_emit o).
Proof.
  intros Hp Hs s. change (run_out (se_emit o) s) with [o]. rewrite Hs. unfold published_sessions. cbn. by rewrite Hp.
Qed.
Lemma mirrors_when b (m : SM M unit) : mirrors m -> mirrors (se_when b m).
Proof. by destruct b. Qed.
Lemma mirrors_for {A} (l : list A) (f : A -> SM M unit) : (forall x, mirrors (f x)) -> mirrors (efor l f).
Proof. intros Hf. induction l as [|x l IH]; cbn [efor]; [done|]. by apply mirrors_bind. Qed.
End Mirror.

Ltac mirrors_walk tac :=
  repeat first
    [ tac | apply mirrors_get; intros ? | apply mirrors_when | apply mirrors_bind; [|intros ?]
    | apply mirrors_ret | apply mirrors_throw | apply mirrors_put | apply mirrors_emit; reflexivity | case_match ].

Section Mirrored.
Context {M : Type} `{ErrorMonitor M} `{Dates}.

(** [m] returns and publishes [marks]. *)
Definition publishes {A} (m : SM M A) (marks : list session_mark) : Prop := forall s,
  match m s with (Ok _, _, os) => published_sessions os = marks | (Err _, _, _) => False end.

Lemma publishes_bind {A B} (m : SM M A) (k : A -> SM M B) l l' :
  publishes m l -> (forall a, publishes (k a) l') -> publishes (ebind m k) (l ++ l').
Proof.
  intros Hm Hk s. specialize (Hm s). unfold ebind. destruct (m s) as [[[a|e] s1] o1]; [|done].
  specialize (Hk a s1). destruct (k a s1) as [[[b|e] s2] o2]; [|done].
  unfold published_sessions in *. rewrite omap_app. by rewrite Hm, Hk.
Qed.
(** First something that publishes nothing. *)
Lemma publishes_then {A B} (m : SM M A) (k : A -> SM M B) l :
  publishes m [] -> (forall a, publishes (k a) l) -> publishes (ebind m k) l.
Proof. intros Hm Hk. change l with ([] ++ l). by apply publishes_bind. Qed.
(** ... or last. *)
Lemma publishes_before {A B} (m : SM M A) (k : A -> SM M B) l :
  publishes m l -> (forall a, publishes (k a) []) -> publishes (ebind m k) l.
Proof. intros Hm Hk. rewrite <- (app_nil_r l). by apply publishes_bind. Qed.
Lemma publishes_get {A} (k : evse_session M -> SM M A) l : (forall s, publishes (k s) l) -> publishes (ebind se_state k) l.
Proof. intros Hk s. rewrite run_get_bind. apply Hk. Qed.
Lemma publishes_when b (m : SM M unit) : publishes m [] -> publishes (se_when b m) [].
Proof. by destruct b. Qed.
Lemma publishes_cancel b : publishes (cancel_reservation (M := M) b) [].
Proof.
  apply publishes_get. intros s. apply publishes_when. do 2 (apply publishes_then; [done|intros _]).
  by apply publishes_when.
Qed.

Lemma publishes_signal l : publishes (on_signal (M := M) l) (signalled_sessions [l]).
Proof.
  destruct l as [o sh]. destruct o; try done.
  - cbn [on_signal]. unfold on_simple_event. apply publishes_get. intros s.
    apply publishes_then; [apply publishes_when; by apply publishes_get|]. intros _.
    apply publishes_before; [by destruct e|]. intros _.
    apply publishes_then; [by apply publishes_when|]. intros _.
    apply publishes_then; [apply publishes_when, publishes_cancel|]. intros _. by apply publishes_get.
  - cbn [on_signal]. unfold on_session_started. apply publishes_get. intros s.
    apply publishes_then; [apply publishes_when; apply publishes_get; intros; by destruct (by_authorization _)|]. intros _.
    do 2 (apply publishes_then; [try apply publishes_when; done|intros _]).
    apply publishes_then; [apply publishes_when, publishes_cancel|]. by intros _.
  - cbn [on_signal]. unfold on_transaction_started. apply publishes_get. intros s.
    apply publishes_then; [apply publishes_when, publishes_cancel|]. by intros _.
  - cbn [on_signal]. by destruct e; try apply publishes_cancel.
Qed.

Lemma mirrors_reaction x : mirrors (react_session (M := M) x).
Proof.
  intros s. unfold react_session.
  assert (forall l, signals [manager_out (charger_out l)] = [l]) as Hl by done.
  destruct x; try done.
  - pose proof (publishes_signal o s) as Hp. destruct (quiet_signal o s) as (a & s' & os & E & Hs & _).
    unfold run_out, ebind, se_emit, eemit. rewrite E in Hp |- *. cbn [fst snd].
    rewrite signals_app, Hl, Hs, app_nil_r. unfold published_sessions in *. by rewrite omap_app, Hp.
  - unfold on_phases_available. by destruct (_ && _).
Qed.

Lemma mirrors_call {A} (m : EM M A) : mirrors (manager_call m).
Proof.
  intros s. unfold run_out, manager_call. destruct (m (manager s)) as [[r mgr] os].
  match goal with |- context [?p (assign manager mgr s)] => assert (mirrors p) as Hm; [|apply Hm] end.
  apply mirrors_bind; [apply mirrors_for; intros x; apply mirrors_reaction|]. intros _. by destruct r.
Qed.
Lemma mirrors_command {A} (m : CH M A) : mirrors (charger_command m).
Proof. apply mirrors_call. Qed.

Lemma mirrors_action op : mirrors (se_action (M := M) op).
Proof.
  destruct op; cbn [se_action];
    unfold internal_action, on_control_pilot, handle_reserve, handle_cancel_reservation, handle_enable_disable,
      handle_authorize_response,
      handle_withdraw_authorization, handle_pause_charging, handle_resume_charging, handle_stop_transaction,
      handle_external_ready_to_start_charging, handle_force_unlock, handle_set_plug_and_charge_configuration,
      handle_update_allowed_energy_transfer_modes, on_require_auth_eim, on_require_auth_pnc, on_evcc_id,
      on_ev_mac_address, free_authorization_runs, charger_was_authorized, on_powermeter,
      on_request_error_routine, on_dlink_ready, startup, reserve, store_reservation, cancel_reservation,
      reservation_event, ready_to_start_charging; cbv zeta;
    mirrors_walk ltac:(idtac; first [apply mirrors_call | apply mirrors_command]).
Qed.

Lemma mirrors_run ops : mirrors (run_se (M := M) ops).
Proof. apply mirrors_for. intros op. apply mirrors_action. Qed.
End Mirrored.

(** Opened and finished in turns: whether a session is open at the end. *)
Definition alternating (l : list session_mark) : option bool :=
  foldl (fun o m => match o, m.2 with
    | Some false, Some _ => Some true
    | Some true, None => Some false
    | _, _ => None
    end) (Some false) l.

Lemma trace_alternating l : session_trace l = alternating (signalled_sessions l).
Proof.
  unfold session_trace, alternating.
  match goal with |- foldl ?f ?b0 l = foldl ?g ?b0 _ =>
    enough (forall b, foldl f b l = foldl g b (signalled_sessions l)) as Hb by apply Hb end.
  induction l as [|[o sh] l IH]; intros b; [done|]. cbn [foldl]. rewrite IH. unfold signalled_sessions.
  destruct o; cbn; try (by destruct b as [[]|]); destruct e; cbn; by destruct b as [[]|].
Qed.

(** ** Answers to the car *)

Section Answers.
Context {M : Type} `{ErrorMonitor M} `{Dates}.
Implicit Types (s : evse_session M).

Definition is_authorized s : bool := authorized (em_charger (manager s)).

Definition no_answer (o : se_output) : Prop :=
  match o with hlc_authorization_response _ _ => False | _ => True end.

(** [m] answers no request for an authorization. *)
Definition unanswering {A} (m : SM M A) : Prop := forall s, Forall no_answer (run_out m s).

Lemma unanswering_bind {A B} (m : SM M A) (k : A -> SM M B) :
  unanswering m -> (forall a, unanswering (k a)) -> unanswering (ebind m k).
Proof.
  intros Hm Hk s. specialize (Hm s). unfold run_out, ebind in *. destruct (m s) as [[[a|e] s1] o1]; [|done].
  specialize (Hk a s1). unfold run_out in Hk. destruct (k a s1) as [[r s2] o2]. by apply Forall_app.
Qed.
Lemma unanswering_get {A} (k : evse_session M -> SM M A) :
  (forall s, unanswering (k s)) -> unanswering (ebind se_state k).
Proof. intros Hk s. unfold run_out. rewrite run_get_bind. apply Hk. Qed.
Lemma unanswering_ret {A} (a : A) : unanswering (eret a).
Proof. intros s. apply Forall_nil_2. Qed.
Lemma unanswering_throw {A} e : unanswering (ethrow e : SM M A).
Proof. intros s. apply Forall_nil_2. Qed.
Lemma unanswering_put f : unanswering (se_put f).
Proof. intros s. apply Forall_nil_2. Qed.
Lemma unanswering_emit o : no_answer o -> unanswering (se_emit o).
Proof. intros Ho s. by apply Forall_cons_2. Qed.
Lemma unanswering_when b (m : SM M unit) : unanswering m -> unanswering (se_when b m).
Proof. destruct b; [done|]. intros _. apply unanswering_ret. Qed.
Lemma unanswering_for {A} (l : list A) (f : A -> SM M unit) :
  (forall x, unanswering (f x)) -> unanswering (efor l f).
Proof.
  intros Hf. induction l as [|x l IH]; cbn [efor]; [apply unanswering_ret|]. by apply unanswering_bind.
Qed.
End Answers.

Ltac unanswering_walk tac :=
  repeat first
    [ tac | apply unanswering_get; intros ? | apply unanswering_when | apply unanswering_bind; [|intros ?]
    | apply unanswering_ret | apply unanswering_throw | apply unanswering_put
    | apply unanswering_emit; exact I | case_match ].

Section Authorized.
Context {M : Type} `{ErrorMonitor M} `{Dates}.
Implicit Types (s : evse_session M).

Lemma unanswering_call {A} (m : EM M A) : unanswering (manager_call m).
Proof.
  intros s. unfold run_out, manager_call. destruct (m (manager s)) as [[r mgr] os].
  match goal with |- context [?p (assign manager mgr s)] => assert (unanswering p) as Hm; [|apply Hm] end.
  apply unanswering_bind; [|intros _; destruct r; [apply unanswering_ret|apply unanswering_throw]].
  apply unanswering_for. intros x. unfold react_session. apply unanswering_bind; [by apply unanswering_emit|].
  intros _. destruct x; try apply unanswering_ret.
  - destruct o as [o sh]. destruct o; cbn [on_signal];
      unfold on_session_started, on_transaction_started, on_transaction_finished, on_simple_event,
        session_setup, session_setup_on_start, session_event, cancel_reservation, reservation_event;
      unanswering_walk no_leaf.
  - unfold on_phases_available. unanswering_walk no_leaf.
Qed.
Lemma unanswering_command {A} (m : CH M A) : unanswering (charger_command m).
Proof. apply unanswering_call. Qed.

Lemma unanswering_reserve id b : unanswering (reserve (M := M) id b).
Proof.
  unfold reserve, store_reservation, reservation_event.
  unanswering_walk ltac:(idtac; apply unanswering_command).
Qed.

(** The charger after a command is the one the command left, as far as the
    authorization is concerned. *)
Lemma command_authorized {A} (m : CH M A) s a s' os :
  charger_command m s = (Ok a, s', os) -> is_authorized s' = authorized (run_state m (em_charger (manager s))).
Proof.
  unfold charger_command, manager_call. intros E. pose proof (acts_call m (manager s)) as Hc. unfold acts in Hc.
  destruct (charger_call m (manager s)) as [[r mgr] o].
  destruct (reactions o (assign manager mgr s)) as (s1 & o1 & E1 & _ & C1 & _).
  unfold ebind in E. rewrite E1 in E. destruct r as [a'|e]; [|done]. injection E as <- <- <-.
  unfold ebind, eret in Hc. unfold run_state, is_authorized.
  destruct (m (em_charger (manager s))) as [[[b|[]] c] oc]. injection Hc as -> _.
  unfold core in C1. cbn [fst snd]. injection C1 as _ _ -> _ _ _ _ _ _ _ _ _. done.
Qed.

Lemma authorize_authorizes w token tariff (c : charger M) :
  authorized (run_state (authorize w true token tariff) c) = true.
Proof.
  assert (wp (authorize w true token tariff) (fun _ c' _ => authorized c' = true) c []) as Hw.
  2:{ by apply wp_run in Hw as (a & _ & Hw). }
  unfold authorize. apply wp_get. do 2 apply wp_bind, wp_modify. apply wp_bind.
  eapply wp_mono with (Q := fun _ _ _ => True).
  { assert (stays (fun _ : charger M => tt) (if negb (session_active c) then start_session w true else eret tt)) as Hs
      by stays_steps.
    eapply wp_mono; [apply Hs|]. done. }
  intros _ c1 l1 _. apply wp_bind. apply wp_get, wp_emit. by apply wp_bind, wp_modify, wp_modify.
Qed.

Lemma fatal_error_keeps_authorized (c : charger M) :
  authorized (run_state stop_charging_on_fatal_error c) = authorized c.
Proof.
  assert (stays (fun c : charger M => authorized c) stop_charging_on_fatal_error) as Hs by stays_steps.
  by destruct (wp_run _ _ _ _ (Hs c [])) as (a & _ & E).
Qed.

(** [keeps_authorized m]: when [m] returns, the charger is as authorized as
    before. *)
Definition keeps_authorized {A} (m : SM M A) : Prop := forall s,
  match m s with (Ok _, s', _) => is_authorized s' = is_authorized s | (Err _, _, _) => True end.

Lemma keeps_authorized_bind {A B} (m : SM M A) (k : A -> SM M B) :
  keeps_authorized m -> (forall a, keeps_authorized (k a)) -> keeps_authorized (ebind m k).
Proof.
  intros Hm Hk s. specialize (Hm s). unfold ebind. destruct (m s) as [[[a|e] s1] o1]; [|done].
  specialize (Hk a s1). destruct (k a s1) as [[[b|e] s2] o2]; [|done]. congruence.
Qed.
Lemma quiet_keeps_authorized {A} (m : SM M A) : quiet m -> keeps_authorized m.
Proof.
  intros Hm s. destruct (Hm s) as (a & s' & os & -> & _ & C & _). unfold is_authorized. unfold core in C.
  by injection C as _ _ -> _ _ _ _ _ _ _ _ _.
Qed.
Lemma keeps_authorized_get {A} (k : evse_session M -> SM M A) :
  (forall s, keeps_authorized (k s)) -> keeps_authorized (ebind se_state k).
Proof. intros Hk s. rewrite run_get_bind. apply Hk. Qed.

Lemma reserve_keeps_authorized id b : keeps_authorized (reserve (M := M) id b).
Proof.
  unfold reserve. apply keeps_authorized_get. intros s. case_match; [apply quiet_keeps_authorized, quiet_ret|].
  apply keeps_authorized_bind.
  - intros s1. destruct (charger_command stop_charging_on_fatal_error s1) as [[[a|e] s2] o2] eqn:E; [|done].
    rewrite (command_authorized _ _ _ _ _ E). apply fatal_error_keeps_authorized.
  - intros fatal. apply quiet_keeps_authorized. unfold store_reservation, reservation_event. quiet_walk.
Qed.

(** When [m] returns, it gave no answer or the charger is authorized. *)
Definition answers {A} (m : SM M A) (s : evse_session M) : Prop :=
  match m s with (Ok _, s', os) => Forall no_answer os \/ is_authorized s' = true | (Err _, _, _) => True end.

Lemma answers_none {A} (m : SM M A) s : unanswering m -> answers m s.
Proof. intros Hm. specialize (Hm s). unfold answers, run_out in *. destruct (m s) as [[[a|e] s'] o]; auto. Qed.
Lemma answers_kept {A} (m : SM M A) s : keeps_authorized m -> is_authorized s = true -> answers m s.
Proof.
  intros Hm Hs. specialize (Hm s). unfold answers. destruct (m s) as [[[a|e] s'] o]; [|done]. right. congruence.
Qed.
Lemma answers_later {A B} (m : SM M A) (k : A -> SM M B) s :
  unanswering m -> (forall a s1 o1, m s = (Ok a, s1, o1) -> answers (k a) s1) -> answers (ebind m k) s.
Proof.
  intros Hm Hk. specialize (Hm s). unfold answers, run_out, ebind in *.
  destruct (m s) as [[[a|e] s1] o1]; [|done]. specialize (Hk a s1 o1 eq_refl).
  destruct (k a s1) as [[[b|e] s2] o2]; [|done]. cbn in Hm. destruct Hk; [left|by right]. by apply Forall_app.
Qed.
Lemma answers_get {A} (k : evse_session M -> SM M A) s : answers (k s) s -> answers (ebind se_state k) s.
Proof. unfold answers. by rewrite run_get_bind. Qed.

Lemma quiet_was_authorized : quiet (charger_was_authorized (M := M)).
Proof. unfold charger_was_authorized. quiet_walk. Qed.

Lemma answers_authorize w token tariff s (k : SM M unit) :
  keeps_authorized k -> answers (charger_command (authorize w true token tariff) ;;; k) s.
Proof.
  intros Hk. apply answers_later; [apply unanswering_command|]. intros [] s1 o1 E. apply answers_kept; [done|].
  rewrite (command_authorized _ _ _ _ _ E). apply authorize_authorizes.
Qed.

Lemma answers_response w token result certificate tariff s :
  answers (handle_authorize_response w token result certificate tariff) s
  \/ is_accepted result = false.
Proof.
  unfold handle_authorize_response. destruct (is_accepted result); [left|by right].
  apply answers_get. cbv zeta. case_match; [apply answers_none, unanswering_ret|].
  apply answers_authorize. apply keeps_authorized_bind; [apply quiet_keeps_authorized, quiet_was_authorized|].
  intros _. apply keeps_authorized_bind; [|intros _; apply quiet_keeps_authorized; quiet_walk].
  destruct (vr_reservation_id result); [|apply quiet_keeps_authorized, quiet_ret].
  apply keeps_authorized_bind; [apply reserve_keeps_authorized|]. intros _. apply quiet_keeps_authorized, quiet_ret.
Qed.

Lemma answers_eim s : answers (on_require_auth_eim (M := M)) s.
Proof.
  unfold on_require_auth_eim. apply answers_get. case_match eqn:Hc.
  - apply answers_kept; [apply quiet_keeps_authorized; quiet_walk|]. unfold is_authorized.
    apply orb_true_iff in Hc. destruct Hc as [Hc|Hc]; apply andb_true_iff in Hc as [_ Hc];
      unfold get_authorized_eim_ready_for_hlc, get_authorized_eim in Hc; rewrite !andb_true_iff in Hc; tauto.
  - apply answers_none. unanswering_walk no_leaf.
Qed.

Lemma answers_free w s : answers (free_authorization_runs (M := M) w) s.
Proof.
  unfold free_authorization_runs. apply answers_get. case_match; [apply answers_none, unanswering_ret|].
  apply answers_later; [apply unanswering_put|]. intros _ s1 o1 _. apply answers_authorize.
  apply quiet_keeps_authorized, quiet_was_authorized.
Qed.

(** The operations that answer a car. *)
Definition may_answer (op : se_op M) : bool :=
  match op with
  | se_authorize_response _ _ _ _ _ | se_require_auth_eim | se_free_authorization _ => true
  | _ => false
  end.

Lemma unanswering_action op : may_answer op = false -> unanswering (se_action (M := M) op).
Proof.
  intros Ho. destruct op; try discriminate Ho; cbn [se_action];
    unfold internal_action, on_control_pilot, handle_reserve, handle_cancel_reservation, handle_enable_disable,
      handle_withdraw_authorization, handle_pause_charging, handle_resume_charging, handle_stop_transaction,
      handle_external_ready_to_start_charging, handle_force_unlock, handle_set_plug_and_charge_configuration,
      handle_update_allowed_energy_transfer_modes, on_require_auth_pnc, on_evcc_id,
      on_ev_mac_address, on_powermeter, on_request_error_routine, on_dlink_ready, startup, reserve,
      store_reservation, cancel_reservation, reservation_event, ready_to_start_charging; cbv zeta;
    unanswering_walk ltac:(idtac; first [apply unanswering_call | apply unanswering_command]).
Qed.

(** A refusal is passed on as it is. *)
Lemma refusal_not_accepted w t r c tariff s d :
  is_accepted r = false ->
  hlc_authorization_response AuthorizationStatus.Accepted d
  ∉ run_out (handle_authorize_response (M := M) w t r c tariff) s.
Proof.
  intros Hr. unfold run_out, handle_authorize_response. rewrite run_get_bind, Hr. cbv zeta.
  unfold se_when. case_match; [|by apply not_elem_of_nil]. intros Hin%list_elem_of_singleton.
  injection Hin as Hs _. unfold is_accepted in Hr. by rewrite <- Hs in Hr.
Qed.
End Authorized.

Section Claims.
Context {M : Type} `{ErrorMonitor M} `{Dates}.

(** C25: whatever happens at the module, from a new charger on, the sessions it
    publishes are those its charger signalled, with the same ids and reasons:
    they are opened and finished in turns, the last one is open exactly when a
    session of the charger is active, and every transaction was signalled with
    an authorization for its token. *)
Theorem published_sessions_alternate (ops : list (se_op M)) w mem lock_in_b errors type id s s' os :
  em_charger (manager s) = new_Charger w mem (new_IECStateMachine lock_in_b) errors type id ->
  run_se ops s = (Ok tt, s', os) ->
  published_sessions os = signalled_sessions (signals os)
  /\ alternating (published_sessions os) = Some (session_active (em_charger (manager s')))
  /\ starts_authorized (signals os).
Proof.
  intros Hs Hrun. pose proof (respects_run ops s []) as Hi. rewrite Hrun, Hs in Hi.
  pose proof (mirrors_run ops s) as Hm. unfold run_out in Hm. rewrite Hrun in Hm. cbn [fst snd] in Hm.
  assert (inv (em_charger (manager s')) (signals os)) as [_ _ _ Ht _ _ _ Ha].
  { apply Hi. apply (history_inv [] w mem lock_in_b errors type id). }
  split; [exact Hm|]. split; [|exact Ha]. by rewrite Hm, <- trace_alternating.
Qed.

(** C22: a car is told that its authorization was accepted only by an operation
    at whose end the charger is authorized: by the answer of a token validation
    that accepted it, by a request of the car when the charger already is, or
    where authentication is disabled. *)
Theorem accepted_only_if_authorized (op : se_op M) s s' os c :
  se_action op s = (Ok tt, s', os) ->
  hlc_authorization_response AuthorizationStatus.Accepted c ∈ os ->
  authorized (em_charger (manager s')) = true.
Proof.
  intros Hrun Hin.
  assert (answers (se_action op) s \/ exists w t r d tariff,
    op = se_authorize_response w t r d tariff /\ is_accepted r = false) as Ha.
  { destruct (may_answer op) eqn:Ho; [|left; by apply answers_none, unanswering_action].
    destruct op; try discriminate Ho.
    - destruct (answers_response w t r c0 tariff s); [by left|right]. by eexists _, _, _, _, _.
    - left. apply answers_eim.
    - left. apply answers_free. }
  destruct Ha as [Ha|(w & t & r & d & tariff & -> & Hr)].
  - unfold answers in Ha. rewrite Hrun in Ha. destruct Ha as [Ha|Ha]; [|done].
    eapply Forall_forall in Ha; [|exact Hin]. destruct Ha.
  - destruct (refusal_not_accepted w t r d tariff s c Hr). unfold run_out. cbn [se_action] in Hrun. by rewrite Hrun.
Qed.
End Claims.

(** ** Examples *)

Definition ex_session : evse_session (list Error) :=
  mkEvseSession (ex_manager "AC" ex_new) (mkSessionConf true false false false false false true true)
    false (-1) false false true true true ex_token false "Unknown" (mkMeterValue 0 None None) false
    (mkLimits "" 0 1) 0.

Definition ex_accepted : ValidationResult :=
  mkValidationResult AuthorizationStatus.Accepted None None None None.
Definition ex_contract : ProvidedIdToken :=
  mkProvidedIdToken None (mkIdToken "EMAID" IdTokenType.Central) None AuthorizationType.PlugAndCharge None None.

(** A car plugs in, asks for Plug&Charge and is authorized. *)
Definition ex_pnc_session : list (se_op (list Error)) :=
  [se_internal (em_call ex_world (op_configure false (ex_config ChargeMode.AC) false 10 0));
   se_startup ex_world;
   se_internal (em_call ex_world (op_board_event BspEvent.A)); se_internal (em_call ex_world (op_iec_feed 0));
   se_internal (em_call ex_world op_main_loop);
   se_internal (em_call ex_world (op_board_event BspEvent.B)); se_internal (em_call ex_world (op_iec_feed 0));
   se_internal (em_call ex_world op_main_loop);
   se_require_auth_pnc ex_contract].
Definition ex_waiting : evse_session (list Error) := run_state (run_se ex_pnc_session) ex_session.
Definition ex_answer : se_op (list Error) := se_authorize_response ex_world ex_contract ex_accepted None [].

Lemma published_sessions_alternate_witness :
  length (published_sessions (run_out (run_se ex_pnc_session) ex_session)) = 1%nat
  /\ alternating (published_sessions (run_out (run_se ex_pnc_session) ex_session))
     = Some (session_active (em_charger (manager (run_state (run_se ex_pnc_session) ex_session)))).
Proof.
  split; [vm_compute; reflexivity|].
  assert (run_se ex_pnc_session ex_session
          = (Ok tt, run_state (run_se ex_pnc_session) ex_session, run_out (run_se ex_pnc_session) ex_session))
    as E by (vm_compute; reflexivity).
  exact (proj1 (proj2 (published_sessions_alternate ex_pnc_session ex_world ex_memory true ex_errors
    Connector_type.IEC62196Type2Cable "EVSE1" ex_session (run_state (run_se ex_pnc_session) ex_session)
    (run_out (run_se ex_pnc_session) ex_session) eq_refl E))).
Defined.

Lemma accepted_only_if_authorized_witness :
  authorized (em_charger (manager (run_state (se_action ex_answer) ex_waiting))) = true.
Proof.
  assert (se_action ex_answer ex_waiting
          = (Ok tt, run_state (se_action ex_answer) ex_waiting, run_out (se_action ex_answer) ex_waiting))
    as E by (vm_compute; reflexivity).
  assert (hlc_authorization_response AuthorizationStatus.Accepted CertificateStatus.Accepted
          ∈ run_out (se_action ex_answer) ex_waiting) as Hin.
  { apply list_elem_of_In. vm_compute. tauto. }
  exact (accepted_only_if_authorized ex_answer ex_waiting _ _ CertificateStatus.Accepted E Hin).
Defined.

(** ** Plug&Charge is answered twice

    [charger_was_authorized] answers the car that waits, and
    [handle_authorize_response] answers it again. *)
Definition is_answer (o : se_output) : bool :=
  match o with hlc_authorization_response _ _ => true | _ => false end.
Example pnc_answered_twice :
  length (List.filter is_answer (run_out (se_action ex_answer) ex_waiting)) = 2%nat.
Proof. vm_compute. reflexivity. Qed.

(** ** A session without payment options

    Neither kind of payment is enabled: the fall back to external payment is
    missing where a session starts. *)
Definition ex_no_payment : evse_session (list Error) :=
  assign session_conf (mkSessionConf false false false false false false true true)
    (assign pnc_enabled false ex_session).
Example no_payment_option_offered :
  run_out (session_setup (M := list Error)) ex_no_payment
    = [hlc_session_setup [PaymentOption.ExternalPayment] false false]
  /\ run_out (session_setup_on_start StartSessionReason.EVConnected) ex_no_payment
    = [hlc_session_setup [] false false].
Proof. split; reflexivity. Qed.
