(* ===== verification/Slac.v ===== *)
(** * SLAC: messages and the interfaces of its libraries

    The matching of ISO 15118-3 between a car and a charging point over power
    line, [lib/everest/slac].  Two libraries it is built on are not part of the
    repository, and are interfaces here:
    - libslac has the message structures and the constants of the standard:
      the class [SlacDefs] with what is used of them in [SlacDefsLaws].  A
      message carries the type [mmtype] of its payload, which the code compares
      before it takes the payload out; it is a value of [slac_message], whose
      constructor is the type.  Multi-byte fields have the byte order of the
      host.
    - libfsm runs a state machine, whose states are objects with [enter],
      [leave], [callback] and [handle_event]: the class [Fsm] with the laws
      [FsmLaws].

    Times are nanoseconds; the steady clock is a function of the number of the
    reading. *)
From S2P Require Import Prelude Effects.
From stdpp Require Import base tactics list numbers strings.
Open Scope Z_scope.
Open Scope everest_scope.

Abbreviation bytes := (list Z).

(** ** Messages *)

(** [memcmp(a, b, n) == 0] on two arrays of [n] bytes. *)
Definition same_bytes (a b : bytes) : bool := bool_decide (a = b).

Lemma same_bytes_spec a b : same_bytes a b = true <-> a = b.
Proof. apply bool_decide_eq_true. Qed.

Record cm_slac_parm_req := mkParmReq {
  pr_application_type : Z;
  pr_security_type : Z;
  pr_run_id : bytes
}.

Record cm_slac_parm_cnf := mkParmCnf {
  pc_m_sound_target : bytes;
  pc_num_sounds : Z;
  pc_timeout : Z;
  pc_resp_type : Z;
  pc_forwarding_sta : bytes;
  pc_application_type : Z;
  pc_security_type : Z;
  pc_run_id : bytes
}.

Record cm_start_atten_char_ind := mkStartAtten {
  sa_application_type : Z;
  sa_security_type : Z;
  sa_num_sounds : Z;
  sa_timeout : Z;
  sa_resp_type : Z;
  sa_forwarding_sta : bytes;
  sa_run_id : bytes
}.

Record cm_mnbc_sound_ind := mkSound {
  so_application_type : Z;
  so_security_type : Z;
  so_sender_id : bytes;
  so_remaining_sound_count : Z;
  so_run_id : bytes;
  so_random : bytes
}.

Record cm_atten_profile_ind := mkProfile {
  ap_pev_mac : bytes;
  ap_num_groups : Z;
  ap_aag : list Z
}.

Record cm_atten_char_ind := mkAttenChar {
  ac_application_type : Z;
  ac_security_type : Z;
  ac_source_address : bytes;
  ac_run_id : bytes;
  ac_source_id : bytes;
  ac_resp_id : bytes;
  ac_num_sounds : Z;
  ac_num_groups : Z;
  ac_aag : list Z
}.

Record cm_atten_char_rsp := mkAttenRsp {
  ar_application_type : Z;
  ar_security_type : Z;
  ar_source_address : bytes;
  ar_run_id : bytes;
  ar_source_id : bytes;
  ar_resp_id : bytes;
  ar_result : Z
}.

Record cm_slac_match_req := mkMatchReq {
  mr_application_type : Z;
  mr_security_type : Z;
  mr_mvf_length : Z;
  mr_pev_id : bytes;
  mr_pev_mac : bytes;
  mr_evse_id : bytes;
  mr_evse_mac : bytes;
  mr_run_id : bytes
}.

Record cm_slac_match_cnf := mkMatchCnf {
  mc_application_type : Z;
  mc_security_type : Z;
  mc_mvf_length : Z;
  mc_pev_id : bytes;
  mc_pev_mac : bytes;
  mc_evse_id : bytes;
  mc_evse_mac : bytes;
  mc_run_id : bytes;
  mc_nid : bytes;
  mc_nmk : bytes
}.

Record cm_set_key_req := mkSetKey {
  sk_key_type : Z;
  sk_my_nonce : Z;
  sk_your_nonce : Z;
  sk_pid : Z;
  sk_prn : Z;
  sk_pmn : Z;
  sk_cco_capability : Z;
  sk_nid : bytes;
  sk_new_eks : Z;
  sk_new_key : bytes
}.

Record cm_validate_cnf := mkValidateCnf {
  vc_signal_type : Z;
  vc_toggle_num : Z;
  vc_result : Z
}.

(** The payload of a [HomeplugMessage], by the type it carries. *)
Inductive slac_message :=
| CM_SLAC_PARM_REQ (m : cm_slac_parm_req)
| CM_SLAC_PARM_CNF (m : cm_slac_parm_cnf)
| CM_START_ATTEN_CHAR_IND (m : cm_start_atten_char_ind)
| CM_MNBC_SOUND_IND (m : cm_mnbc_sound_ind)
| CM_ATTEN_PROFILE_IND (m : cm_atten_profile_ind)
| CM_ATTEN_CHAR_IND (m : cm_atten_char_ind)
| CM_ATTEN_CHAR_RSP (m : cm_atten_char_rsp)
| CM_SLAC_MATCH_REQ (m : cm_slac_match_req)
| CM_SLAC_MATCH_CNF (m : cm_slac_match_cnf)
| CM_VALIDATE_REQ
| CM_VALIDATE_CNF (m : cm_validate_cnf)
| CM_SET_KEY_REQ (m : cm_set_key_req)
| CM_SET_KEY_CNF
| QUALCOMM_CM_RESET_DEVICE_REQ
| QUALCOMM_CM_RESET_DEVICE_CNF
| QUALCOMM_LINK_STATUS_REQ
| QUALCOMM_LINK_STATUS_CNF (link_status : Z)
| QUALCOMM_OP_ATTR_REQ
| QUALCOMM_OP_ATTR_CNF
| LUMISSIL_NSCM_RESET_DEVICE_REQ
| LUMISSIL_NSCM_GET_VERSION_REQ
| LUMISSIL_NSCM_GET_VERSION_CNF
| LUMISSIL_NSCM_GET_D_LINK_STATUS_REQ
| LUMISSIL_NSCM_GET_D_LINK_STATUS_CNF (link_status : Z)
| OTHER_MMTYPE (mmtype : Z).

(** A message as it is received. *)
Record HomeplugMessage := mkHomeplug {
  get_src_mac : bytes;
  get_payload : slac_message
}.

(** ** The constants of libslac *)

Class SlacDefs := {
  TT_EVSE_SLAC_INIT_MS : Z;
  TT_MATCH_SEQUENCE_MS : Z;
  TT_MATCH_RESPONSE_MS : Z;
  TT_EVSE_MATCH_MNBC_MS : Z;
  TT_EVSE_MATCH_SESSION_MS : Z;
  TT_EV_ATTEN_RESULTS_MS : Z;
  C_EV_MATCH_RETRY : Z;
  C_EV_START_ATTEN_CHAR_INDS : Z;
  C_EV_MATCH_MNBC : Z;
  AAG_LIST_LEN : nat;
  NMK_LEN : nat;
  RUN_ID_LEN : nat;
  STATION_ID_LEN : nat;
  SENDER_ID_LEN : nat;
  RANDOM_LEN : nat;
  CM_SLAC_PARM_CNF_NUM_SOUNDS : Z;
  CM_SLAC_PARM_CNF_TIMEOUT : Z;
  CM_SLAC_PARM_CNF_RESP_TYPE : Z;
  COMMON_APPLICATION_TYPE : Z;
  COMMON_SECURITY_TYPE : Z;
  CM_ATTEN_CHAR_RSP_RESULT : Z;
  CM_SLAC_MATCH_REQ_MVF_LENGTH : Z;
  CM_SLAC_MATCH_CNF_MVF_LENGTH : Z;
  CM_VALIDATE_REQ_SIGNAL_TYPE : Z;
  CM_VALIDATE_REQ_RESULT_FAILURE : Z;
  CM_SET_KEY_REQ_KEY_TYPE_NMK : Z;
  CM_SET_KEY_REQ_PID_HLE : Z;
  CM_SET_KEY_REQ_PRN_UNUSED : Z;
  CM_SET_KEY_REQ_PMN_UNUSED : Z;
  CM_SET_KEY_REQ_CCO_CAP_NONE : Z;
  CM_SET_KEY_REQ_PEKS_NMK_KNOWN_TO_STA : Z;
  BROADCAST_MAC_ADDRESS : bytes;
  generate_nid_from_nmk : bytes -> bytes
}.

(** ISO 15118-3, table A.1: the timeouts are positive, a sounding has ten
    sounds. *)
Class SlacDefsLaws (D : SlacDefs) := {
  match_response_positive : 0 < TT_MATCH_RESPONSE_MS;
  num_sounds_ten : CM_SLAC_PARM_CNF_NUM_SOUNDS = 10
}.

(** ** The state machines of libfsm *)

(** An object of a state: the context it refers to, its members, and how
    often the clock and the random generator have been asked so far. *)
Record object (C T : Type) := mkObject {
  ctx : C;
  this : T;
  readings : nat;
  draws : nat
}.
Arguments mkObject {C T} _ _ _ _.
Arguments ctx {C T} _.
Arguments this {C T} _.
Arguments readings {C T} _.
Arguments draws {C T} _.
#[global] Instance eta_object {C T} : Eta (object C T) := fun o =>
  mkObject (ctx o) (this o) (readings o) (draws o).

(** What the code leaves undefined: an empty [std::optional] or a null pointer
    that is dereferenced.  [loop_exhausted] is the end of the fuel of a loop. *)
Inductive slac_exn := empty_optional | null_pointer | loop_exhausted.

Section Object.
Context {C T Out : Type}.
Abbreviation M := (Eff (object C T) Out slac_exn).

Definition update_this (f : T -> T) : M unit := emodify (update this f).
Definition update_ctx (f : C -> C) : M unit := emodify (update ctx f).

(** [std::chrono::steady_clock::now()]. *)
Definition steady_clock_now (clock : nat -> Z) : M Z :=
  let* o := eget in
  emodify (update readings S) ;;;
  eret (clock (readings o)).

(** [n] values of a random generator. *)
Fixpoint draw_values (draw : nat -> Z) (n : nat) : M (list Z) :=
  match n with
  | O => eret []
  | S n =>
      let* o := eget in
      emodify (update draws S) ;;;
      let* rest := draw_values draw n in
      eret (draw (draws o) :: rest)
  end.

(** The method of a state, called on the current state of the machine. *)
Definition as_current {U A} (wrap : T -> U) (t : T) (m : M A)
  : Eff (object C U) Out slac_exn A := fun o =>
  let '(r, o', out) := m (mkObject (ctx o) t (readings o) (draws o)) in
  (r, mkObject (ctx o') (wrap (this o')) (readings o') (draws o'), out).
End Object.

Definition milliseconds (n : Z) : Z := n * 1000000.
(** [duration_cast<milliseconds>]: towards zero. *)
Definition to_milliseconds (t : Z) : Z := Z.quot t 1000000.

(** The results of [handle_event] and [callback] of a state ... *)
Inductive HandleEventReturn (S : Type) : Type := HANDLED_INTERNALLY | PASS_ON | create_simple (s : S).
Arguments HANDLED_INTERNALLY {S}.
Arguments PASS_ON {S}.
Arguments create_simple {S} s.

Inductive CallbackReturn (Ev : Type) : Type := no_value | call_back_in (ms : Z) | raise (ev : Ev).
Arguments no_value {Ev}.
Arguments call_back_in {Ev} ms.
Arguments raise {Ev} ev.

(** ... and of the machine. *)
Inductive HandleEventResult : Set := SUCCESS | UNHANDLED | INTERNAL_ERROR.
Inductive FeedResult : Set :=
| transition | unhandled_event | internal_error | feed_value (ms : option Z).

(** The virtual functions of the states of a machine. *)
Class States (C T Ev O : Type) := {
  state_enter : Eff (object C T) O slac_exn unit;
  state_leave : Eff (object C T) O slac_exn unit;
  state_callback : Eff (object C T) O slac_exn (CallbackReturn Ev);
  state_handle_event : Ev -> Eff (object C T) O slac_exn (HandleEventReturn T)
}.

Class Fsm {C T Ev O : Type} (S : States C T Ev O) := {
  fsm_handle_event : Ev -> Eff (object C T) O slac_exn HandleEventResult;
  fsm_feed : Eff (object C T) O slac_exn FeedResult;
  fsm_reset : T -> Eff (object C T) O slac_exn unit;
  (** what [feed] answers when the event of a callback was handled *)
  feed_success : FeedResult
}.

(** A machine without compound states: an event goes to the current state,
    which may be replaced; nobody else handles it.  A state is entered when it
    becomes the current one and left before that of another. *)
Class FsmLaws {C T Ev O : Type} {S : States C T Ev O} (F : Fsm S) := {
  fsm_handle_event_law ev o :
    fsm_handle_event ev o
    = (let* r := state_handle_event ev in
       match r with
       | HANDLED_INTERNALLY => eret SUCCESS
       | PASS_ON => eret UNHANDLED
       | create_simple t =>
           state_leave ;;;
           emodify (assign this t) ;;;
           state_enter ;;;
           eret SUCCESS
       end) o;
  fsm_feed_law o :
    fsm_feed o
    = (let* r := state_callback in
       match r with
       | no_value => eret (feed_value None)
       | call_back_in ms => eret (feed_value (Some ms))
       | raise ev =>
           let* h := fsm_handle_event ev in
           eret (match h with
                 | SUCCESS => feed_success
                 | UNHANDLED => unhandled_event
                 | INTERNAL_ERROR => internal_error
                 end)
       end) o;
  fsm_reset_law t o : fsm_reset t o = (emodify (assign this t) ;;; state_enter) o;
  feed_success_law : feed_success <> unhandled_event /\ feed_success <> internal_error
}.

(** ** The controller *)

(** [FSMController], which the modules EvseSlac and EvSlac both have: a thread
    feeds the machine and waits on a condition variable for the time it is
    told, or for an event.  The thread holds the mutex except while it waits,
    and the handlers of events need it. *)
Inductive run_thread : Set := feeding | waiting (timeout : option Z).

Record FSMController (C T : Type) := mkController {
  machine : object C T;
  running : bool;
  new_event : bool;
  thread : run_thread
}.
Arguments mkController {C T} _ _ _ _.
Arguments machine {C T} _.
Arguments running {C T} _.
Arguments new_event {C T} _.
Arguments thread {C T} _.
#[global] Instance eta_FSMController {C T} : Eta (FSMController C T) := fun c =>
  mkController (machine c) (running c) (new_event c) (thread c).

Section Controller.
Context {C T Ev Out : Type} {S : States C T Ev Out} {F : Fsm S}.
Abbreviation M := (Eff (FSMController C T) Out slac_exn).

(** A call of the machine. *)
Definition on_machine {A} (m : Eff (object C T) Out slac_exn A) : M A := fun c =>
  let '(r, o, out) := m (machine c) in
  (r, mkController o (running c) (new_event c) (thread c), out).

(** The part of [signal_new_slac_message] under the mutex; [notify] follows. *)
Definition signal_new_slac_message (set_message : HomeplugMessage -> C -> C) (slac_message : Ev)
    (msg : HomeplugMessage) : M unit :=
  let* c := eget in
  if negb (running c) then eret tt
  else
    on_machine (update_ctx (set_message msg)) ;;;
    on_machine (fsm_handle_event slac_message) ;;;
    eret tt.

Definition notify : M unit := emodify (assign new_event true).

Definition signal_simple_event (ev : Ev) : M bool :=
  let* event_result := on_machine (fsm_handle_event ev) in
  emodify (assign new_event true) ;;;
  eret (match event_result with SUCCESS => true | _ => false end).

(** The wait, which is over at once when there is an event already. *)
Definition wait_event (timeout : option Z) : M unit :=
  let* c := eget in
  if new_event c then emodify (assign new_event false)
  else emodify (assign thread (waiting timeout)).

(** One round of the loop in [run], up to the wait. *)
Definition run_round : M unit :=
  let* feed_result := on_machine fsm_feed in
  match feed_result with
  | transition => eret tt
  | internal_error | unhandled_event => emodify (assign new_event false)
  | feed_value (Some timeout) => if timeout =? 0 then eret tt else wait_event (Some timeout)
  | feed_value None => wait_event None
  end.

(** The end of the wait. *)
Definition wake : M unit := emodify (fun c => assign thread feeding (assign new_event false c)).

(** The start of [run]. *)
Definition run_start (initial : T) : M unit :=
  on_machine (fsm_reset initial) ;;;
  emodify (assign running true).
End Controller.

(** ** Histories *)

(** What a controller did and was asked to do, in order; [fault] is what is
    undefined in the source and ends a history. *)
Inductive entry (Op Out : Type) : Type := did (op : Op) | made (o : Out).
Arguments did {Op Out} op.
Arguments made {Op Out} o.

Record history (C T Op Out : Type) := mkHistory {
  controller : FSMController C T;
  log : list (entry Op Out);
  fault : option slac_exn
}.
Arguments mkHistory {C T Op Out} _ _ _.
Arguments controller {C T Op Out} _.
Arguments log {C T Op Out} _.
Arguments fault {C T Op Out} _.

Section History.
Context {C T Op Out : Type}.
Context (enabled : Op -> FSMController C T -> bool).
Context (call : Op -> Eff (FSMController C T) Out slac_exn unit).

(** An operation that is not possible now does not happen. *)
Definition history_step (h : history C T Op Out) (op : Op) : history C T Op Out :=
  match fault h with
  | Some _ => h
  | None =>
      if enabled op (controller h) then
        let '(r, c, out) := call op (controller h) in
        mkHistory c (log h ++ did op :: (made <$> out))
          (match r with Ok _ => None | Err e => Some e end)
      else h
  end.

Definition history_run (ops : list Op) (h : history C T Op Out) : history C T Op Out :=
  foldl history_step h ops.

(** The history when [start] is over. *)
Definition history_start (start : result slac_exn unit * FSMController C T * list Out)
  : history C T Op Out :=
  let '(r, c, out) := start in
  mkHistory c (made <$> out) (match r with Ok _ => None | Err e => Some e end).

Lemma history_run_snoc ops op h :
  history_run (ops ++ [op]) h = history_step (history_run ops h) op.
Proof. apply foldl_snoc. Qed.

(** Induction over histories: an invariant of the start that every possible
    call keeps, without a fault, holds always. *)
Lemma history_ind (I : FSMController C T -> list (entry Op Out) -> Prop) h :
  fault h = None ->
  I (controller h) (log h) ->
  (forall op c l, I c l -> enabled op c = true ->
     exists c' out, call op c = (Ok tt, c', out) /\ I c' (l ++ did op :: (made <$> out))) ->
  forall ops, fault (history_run ops h) = None
              /\ I (controller (history_run ops h)) (log (history_run ops h)).
Proof.
  intros Hf HI Hstep ops. induction ops as [|op ops [IHf IH]] using rev_ind; [done|].
  rewrite history_run_snoc. unfold history_step. rewrite IHf.
  destruct (enabled op _) eqn:He; [|done].
  destruct (Hstep _ _ _ IH He) as (c' & out & -> & HI'). done.
Qed.
End History.

(** ** Weakest preconditions of these programs *)

Lemma wp_eq {S Out E A} (m m' : Eff S Out E A) Q s (out : list Out) :
  m s = m' s -> wp m' Q s out -> wp m Q s out.
Proof. unfold wp. by intros ->. Qed.

Section Wp.
Context {C T Out : Type}.
Implicit Types (o : object C T) (out : list Out).

Lemma wp_now clock (Q : Z -> object C T -> list Out -> Prop) o out :
  Q (clock (readings o)) (update readings S o) out -> wp (steady_clock_now clock) Q o out.
Proof. intros HQ. unfold steady_clock_now. apply wp_get, wp_bind, wp_modify, wp_ret. exact HQ. Qed.

Lemma wp_draw_values draw n Q o out :
  (forall vs k, Q vs (mkObject (ctx o) (this o) (readings o) k) out) ->
  wp (draw_values draw n) Q o out.
Proof.
  revert Q o. induction n as [|n IH]; intros Q o HQ; cbn [draw_values].
  { apply wp_ret. specialize (HQ [] (draws o)). by destruct o. }
  apply wp_get, wp_bind, wp_modify, wp_bind. apply IH. intros vs k. apply wp_ret. apply HQ.
Qed.

Lemma wp_as_current {U A} (f : U -> T) u (m : Eff (object C U) Out slac_exn A) Q o out :
  wp m (fun a (o' : object C U) out' =>
          Q a (mkObject (ctx o') (f (this o')) (readings o') (draws o')) out')
    (mkObject (ctx o) u (readings o) (draws o)) out ->
  wp (as_current f u m) Q o out.
Proof. unfold wp, as_current. by destruct (m _) as [[[a|e] o'] out']. Qed.

Lemma wp_on_machine {A} (m : Eff (object C T) Out slac_exn A) Q (c : FSMController C T) out :
  wp m (fun a o' out' => Q a (mkController o' (running c) (new_event c) (thread c)) out')
    (machine c) out ->
  wp (on_machine m) Q c out.
Proof. unfold wp, on_machine. by destruct (m (machine c)) as [[[a|e] o'] out']. Qed.
End Wp.
