(* ===== verification/SlacEvse.v ===== *)
(** * SLAC at the charging point

    [lib/everest/slac/fsm/evse]: the states of the machine, one section each,
    and the controller of [modules/EVSE/EvseSlac/main/fsm_controller.cpp] that
    runs it.  Log texts are left out; a pointer to a session is its index in
    the vector, and the member [tmp_ev_mac], which is set for the time a
    message is handled, an argument. *)
From S2P Require Import Prelude Effects Slac.
From stdpp Require Import base tactics list numbers strings.
From Stdlib Require Import Ascii.
Open Scope Z_scope.
Open Scope everest_scope.

(** ** The context *)

Module ModemVendor.
Inductive t : Set := Unknown | Qualcomm | Lumissil | VertexCom.
#[global] Instance eq_dec : EqDecision t := ltac:(solve_decision).
End ModemVendor.

Module Event.
Inductive t : Set :=
| RESET | ENTER_BCD | LEAVE_BCD | SLAC_MESSAGE
| RETRY_MATCHING | MATCH_COMPLETE | FAILED | SUCCESS.
#[global] Instance eq_dec : EqDecision t := ltac:(solve_decision).
End Event.

Module MatchingSubState.
Inductive t : Set :=
| WAIT_FOR_START_ATTEN_CHAR | SOUNDING | FINALIZE_SOUNDING | WAIT_FOR_ATTEN_CHAR_RSP
| WAIT_FOR_SLAC_MATCH | RECEIVED_SLAC_MATCH | MATCH_COMPLETE | FAILED.
#[global] Instance eq_dec : EqDecision t := ltac:(solve_decision).
End MatchingSubState.

Module ResetChipSubState.
Inductive t : Set := DELAY | SEND_RESET | DONE.
End ResetChipSubState.

Module InitSubState.
Inductive t : Set := QUALCOMM_OP_ATTR | LUMISSIL_GET_VERSION | DONE.
End InitSubState.

(** [std::function] members that are set. *)
Record ContextCallbacks := mkCallbacks {
  has_signal_state : bool;
  has_signal_dlink_ready : bool;
  has_signal_error_routine_request : bool;
  has_signal_ev_mac_address_parm_req : bool;
  has_signal_ev_mac_address_match_cnf : bool
}.

Record EvseSlacConfig := mkSlacConfig {
  plc_peer_mac : bytes;
  session_nmk : bytes;
  ac_mode_five_percent : bool;
  set_key_timeout_ms : Z;
  chip_reset_enabled : bool;
  chip_reset_timeout_ms : Z;
  chip_reset_delay_ms : Z;
  do_detect : bool;
  retry_ms : Z;
  poll_in_matched_state_ms : Z;
  link_status_timeout_ms : Z;
  debug_simulate_failed_matching : bool;
  request_info_delay_ms : Z;
  sounding_atten_adjustment : Z;
  reset_instead_of_fail : bool
}.
#[global] Instance eta_EvseSlacConfig : Eta EvseSlacConfig := fun c =>
  mkSlacConfig (plc_peer_mac c) (session_nmk c) (ac_mode_five_percent c) (set_key_timeout_ms c)
    (chip_reset_enabled c) (chip_reset_timeout_ms c) (chip_reset_delay_ms c) (do_detect c)
    (retry_ms c) (poll_in_matched_state_ms c) (link_status_timeout_ms c)
    (debug_simulate_failed_matching c) (request_info_delay_ms c) (sounding_atten_adjustment c)
    (reset_instead_of_fail c).

Record Context := mkContext {
  slac_config : EvseSlacConfig;
  slac_message_payload : HomeplugMessage;
  modem_vendor : ModemVendor.t;
  callbacks : ContextCallbacks
}.
#[global] Instance eta_Context : Eta Context := fun c =>
  mkContext (slac_config c) (slac_message_payload c) (modem_vendor c) (callbacks c).

(** What leaves the machine. *)
Inductive slac_output :=
| send_raw_slac (mac : bytes) (m : slac_message)
| signalled_state (state : string)
| signalled_dlink_ready (value : bool)
| signalled_error_routine_request
| signalled_ev_mac_address_parm_req (mac : string)
| signalled_ev_mac_address_match_cnf (mac : string).

(** [misc.cpp]. *)
Definition hex_digit (n : Z) : ascii :=
  ascii_of_nat (Z.to_nat (if n <? 10 then 48 + n else 55 + n)).

Definition format_byte (b : Z) : string :=
  String (hex_digit (b / 16)) (String (hex_digit (b mod 16)) EmptyString).

Definition format_mac_addr (mac : bytes) : string :=
  String.concat ":" (format_byte <$> take 6 mac).

Section Machine.
Context {D : SlacDefs} (clock draw : nat -> Z).

Section Context.
Context {T : Type}.
Abbreviation M := (Eff (object Context T) slac_output slac_exn).

Definition config : M EvseSlacConfig := let* o := eget in eret (slac_config (ctx o)).

Definition send_slac_message (mac : bytes) (m : slac_message) : M unit :=
  eemit (send_raw_slac mac m).

Definition when_set (field : ContextCallbacks -> bool) (o : slac_output) : M unit :=
  let* ob := eget in
  if field (callbacks (ctx ob)) then eemit o else eret tt.

Definition signal_cm_slac_parm_req (mac : bytes) : M unit :=
  when_set has_signal_ev_mac_address_parm_req
    (signalled_ev_mac_address_parm_req (format_mac_addr mac)).
Definition signal_cm_slac_match_cnf (mac : bytes) : M unit :=
  when_set has_signal_ev_mac_address_match_cnf
    (signalled_ev_mac_address_match_cnf (format_mac_addr mac)).
Definition signal_dlink_ready (value : bool) : M unit :=
  when_set has_signal_dlink_ready (signalled_dlink_ready value).
Definition signal_error_routine_request : M unit :=
  when_set has_signal_error_routine_request signalled_error_routine_request.
Definition signal_state (state : string) : M unit :=
  when_set has_signal_state (signalled_state state).

(** The characters of a key. *)
Definition CHARACTERS : bytes :=
  Z.of_nat <$> (seq 48 10 ++ seq 65 26).

Definition generate_nmk : M unit :=
  let* positions := draw_values draw NMK_LEN in
  update_ctx (update slac_config (assign session_nmk
    ((fun p => nth (Z.to_nat p) CHARACTERS 0) <$> positions))).
End Context.

(** ** Sessions of the matching *)

Definition FINALIZE_SOUNDING_DELAY_MS : Z := 45.

Record MatchingSession := mkMatchingSession {
  session_state : MatchingSubState.t;
  ev_mac : bytes;
  run_id : bytes;
  next_timeout : Z;
  timeout_active : bool;
  captured_sounds : Z;
  captured_aags : list Z;
  received_mnbc_sound : bool;
  session_num_retries : Z
}.
#[global] Instance eta_MatchingSession : Eta MatchingSession := fun s =>
  mkMatchingSession (session_state s) (ev_mac s) (run_id s) (next_timeout s) (timeout_active s)
    (captured_sounds s) (captured_aags s) (received_mnbc_sound s) (session_num_retries s).

Definition new_MatchingSession (ev_mac run_id : bytes) : MatchingSession :=
  mkMatchingSession MatchingSubState.WAIT_FOR_START_ATTEN_CHAR ev_mac run_id 0 false
    0 (replicate AAG_LIST_LEN 0) false 0.

Definition is_identified_by (mac id : bytes) (s : MatchingSession) : bool :=
  same_bytes id (run_id s) && same_bytes mac (ev_mac s).

Definition all_sessions_failed (sessions : list MatchingSession) : bool :=
  forallb (fun s => bool_decide (session_state s = MatchingSubState.FAILED)) sessions.

Fixpoint find_session (sessions : list MatchingSession) (mac id : bytes) : option nat :=
  match sessions with
  | [] => None
  | s :: sessions =>
      if is_identified_by mac id s then Some 0%nat else S <$> find_session sessions mac id
  end.

(** The loop of [handle_cm_atten_profile_ind], which keeps the last one. *)
Fixpoint find_last_of_mac (sessions : list MatchingSession) (mac : bytes) : option nat :=
  match sessions with
  | [] => None
  | s :: sessions =>
      match find_last_of_mac sessions mac with
      | Some i => Some (S i)
      | None => if same_bytes mac (ev_mac s) then Some 0%nat else None
      end
  end.

(** ** The states *)

Record MatchingState := mkMatching {
  sessions : list MatchingSession;
  timeout_slac_parm_req : Z;
  seen_slac_parm_req : bool;
  num_retries : Z;
  match_cnf_message : option cm_slac_match_cnf;
  failed_count : Z
}.
#[global] Instance eta_MatchingState : Eta MatchingState := fun s =>
  mkMatching (sessions s) (timeout_slac_parm_req s) (seen_slac_parm_req s) (num_retries s)
    (match_cnf_message s) (failed_count s).
Definition new_MatchingState : MatchingState := mkMatching [] 0 false 0 None 0.

Record WaitForLinkState := mkWaitForLink {
  wait_link_status_req_sent : bool;
  start_time : Z;
  sent_match_cnf_message : option cm_slac_match_cnf
}.
#[global] Instance eta_WaitForLinkState : Eta WaitForLinkState := fun s =>
  mkWaitForLink (wait_link_status_req_sent s) (start_time s) (sent_match_cnf_message s).

Inductive evse_state :=
| InitState (sub_state : InitSubState.t)
| ResetState (setup_has_been_send : bool)
| ResetChipState (sub_state : ResetChipSubState.t)
| IdleState
| MatchingState_ (m : MatchingState)
| WaitForLinkState_ (w : WaitForLinkState)
| MatchedState (link_status_req_sent : bool)
| FailedState.

(** The states as they are constructed. *)
Definition new_InitState := InitState InitSubState.QUALCOMM_OP_ATTR.
Definition new_ResetState := ResetState false.
Definition new_ResetChipState := ResetChipState ResetChipSubState.DELAY.

Abbreviation returned := (HandleEventReturn evse_state).
Abbreviation called := (CallbackReturn Event.t).

(** *** [InitState] *)

Definition InitState_handle_slac_message {T} (message : HomeplugMessage)
  : Eff (object Context T) slac_output slac_exn unit :=
  match get_payload message with
  | QUALCOMM_OP_ATTR_CNF => update_ctx (assign modem_vendor ModemVendor.Qualcomm)
  | LUMISSIL_NSCM_GET_VERSION_CNF => update_ctx (assign modem_vendor ModemVendor.Lumissil)
  | _ => eret tt
  end.

Definition InitState_handle_event (ev : Event.t)
  : Eff (object Context InitSubState.t) slac_output slac_exn returned :=
  match ev with
  | Event.SLAC_MESSAGE =>
      let* o := eget in
      InitState_handle_slac_message (slac_message_payload (ctx o)) ;;;
      eret PASS_ON
  | Event.SUCCESS => eret (create_simple new_ResetState)
  | _ => eret PASS_ON
  end.

Definition InitState_callback
  : Eff (object Context InitSubState.t) slac_output slac_exn called :=
  let* cfg := config in
  let* o := eget in
  match this o with
  | InitSubState.QUALCOMM_OP_ATTR =>
      update_this (fun _ => InitSubState.LUMISSIL_GET_VERSION) ;;;
      send_slac_message (plc_peer_mac cfg) QUALCOMM_OP_ATTR_REQ ;;;
      eret (call_back_in (request_info_delay_ms cfg))
  | InitSubState.LUMISSIL_GET_VERSION =>
      update_this (fun _ => InitSubState.DONE) ;;;
      send_slac_message (plc_peer_mac cfg) LUMISSIL_NSCM_GET_VERSION_REQ ;;;
      eret (call_back_in (request_info_delay_ms cfg))
  | InitSubState.DONE => eret (raise Event.SUCCESS)
  end.

(** *** [ResetState] *)

Definition create_cm_set_key_req (session_nmk : bytes) : cm_set_key_req :=
  mkSetKey CM_SET_KEY_REQ_KEY_TYPE_NMK 0 0 CM_SET_KEY_REQ_PID_HLE CM_SET_KEY_REQ_PRN_UNUSED
    CM_SET_KEY_REQ_PMN_UNUSED CM_SET_KEY_REQ_CCO_CAP_NONE (generate_nid_from_nmk session_nmk)
    CM_SET_KEY_REQ_PEKS_NMK_KNOWN_TO_STA session_nmk.

Definition ResetState_enter {T} : Eff (object Context T) slac_output slac_exn unit := generate_nmk.

Definition ResetState_handle_slac_message (message : HomeplugMessage) : bool :=
  match get_payload message with CM_SET_KEY_CNF => true | _ => false end.

Definition ResetState_handle_event (ev : Event.t)
  : Eff (object Context bool) slac_output slac_exn returned :=
  let* cfg := config in
  match ev with
  | Event.SLAC_MESSAGE =>
      let* o := eget in
      if ResetState_handle_slac_message (slac_message_payload (ctx o)) then
        if chip_reset_enabled cfg then eret (create_simple new_ResetChipState)
        else eret (create_simple IdleState)
      else eret PASS_ON
  | Event.RESET => eret (create_simple new_ResetState)
  | _ => eret PASS_ON
  end.

Definition ResetState_callback : Eff (object Context bool) slac_output slac_exn called :=
  let* cfg := config in
  let* o := eget in
  if negb (this o) then
    send_slac_message (plc_peer_mac cfg) (CM_SET_KEY_REQ (create_cm_set_key_req (session_nmk cfg))) ;;;
    update_this (fun _ => true) ;;;
    eret (call_back_in (set_key_timeout_ms cfg))
  else eret no_value.

(** *** [ResetChipState] *)

Definition ResetChipState_handle_slac_message (message : HomeplugMessage) : bool :=
  match get_payload message with QUALCOMM_CM_RESET_DEVICE_CNF => true | _ => false end.

Definition ResetChipState_handle_event (ev : Event.t)
  : Eff (object Context ResetChipSubState.t) slac_output slac_exn returned :=
  match ev with
  | Event.SLAC_MESSAGE =>
      let* o := eget in
      if ResetChipState_handle_slac_message (slac_message_payload (ctx o))
      then eret (create_simple IdleState)
      else eret PASS_ON
  | Event.SUCCESS => eret (create_simple IdleState)
  | _ => eret PASS_ON
  end.

Definition ResetChipState_callback
  : Eff (object Context ResetChipSubState.t) slac_output slac_exn called :=
  let* cfg := config in
  let* o := eget in
  match this o with
  | ResetChipSubState.DELAY =>
      update_this (fun _ => ResetChipSubState.SEND_RESET) ;;;
      eret (call_back_in (chip_reset_delay_ms cfg))
  | ResetChipSubState.SEND_RESET =>
      match modem_vendor (ctx o) with
      | ModemVendor.Qualcomm =>
          send_slac_message (plc_peer_mac cfg) QUALCOMM_CM_RESET_DEVICE_REQ ;;;
          update_this (fun _ => ResetChipSubState.DONE) ;;;
          eret (call_back_in (chip_reset_timeout_ms cfg))
      | ModemVendor.Lumissil =>
          update_this (fun _ => ResetChipSubState.DONE) ;;;
          send_slac_message (plc_peer_mac cfg) LUMISSIL_NSCM_RESET_DEVICE_REQ ;;;
          eret (raise Event.SUCCESS)
      | _ => eret no_value
      end
  | ResetChipSubState.DONE => eret no_value
  end.

(** *** [IdleState] *)

Definition IdleState_enter {T} : Eff (object Context T) slac_output slac_exn unit :=
  signal_state "UNMATCHED".

Definition IdleState_handle_event (ev : Event.t)
  : Eff (object Context unit) slac_output slac_exn returned :=
  match ev with
  | Event.ENTER_BCD => eret (create_simple (MatchingState_ new_MatchingState))
  | Event.RESET => eret (create_simple new_ResetState)
  | _ => eret PASS_ON
  end.

(** *** [MatchedState] *)

Definition check_link_status_cnf (vendor : ModemVendor.t) (message : HomeplugMessage)
  : option bool :=
  match vendor, get_payload message with
  | ModemVendor.Qualcomm, QUALCOMM_LINK_STATUS_CNF link_status => Some (link_status =? 1)
  | ModemVendor.Lumissil, LUMISSIL_NSCM_GET_D_LINK_STATUS_CNF link_status =>
      Some (link_status =? 1)
  | _, _ => None
  end.

Definition send_link_status_req {T} : Eff (object Context T) slac_output slac_exn bool :=
  let* o := eget in
  let mac := plc_peer_mac (slac_config (ctx o)) in
  match modem_vendor (ctx o) with
  | ModemVendor.Qualcomm => send_slac_message mac QUALCOMM_LINK_STATUS_REQ ;;; eret true
  | ModemVendor.Lumissil => send_slac_message mac LUMISSIL_NSCM_GET_D_LINK_STATUS_REQ ;;; eret true
  | _ => eret false
  end.

Definition MatchedState_enter {T} : Eff (object Context T) slac_output slac_exn unit :=
  signal_state "MATCHED" ;;;
  signal_dlink_ready true.

Definition MatchedState_leave {T} : Eff (object Context T) slac_output slac_exn unit :=
  signal_dlink_ready false.

Definition MatchedState_handle_event (ev : Event.t)
  : Eff (object Context bool) slac_output slac_exn returned :=
  match ev with
  | Event.SLAC_MESSAGE =>
      let* o := eget in
      match check_link_status_cnf (modem_vendor (ctx o)) (slac_message_payload (ctx o)) with
      | Some false => signal_error_routine_request ;;; eret PASS_ON
      | _ => eret PASS_ON
      end
  | Event.RESET => eret (create_simple new_ResetState)
  | _ => eret PASS_ON
  end.

Definition MatchedState_callback : Eff (object Context bool) slac_output slac_exn called :=
  let* cfg := config in
  let* o := eget in
  if negb (do_detect cfg) then eret no_value
  else
    (if negb (this o) then
       let* sent := send_link_status_req in
       update_this (fun _ => sent)
     else update_this (fun _ => false)) ;;;
    eret (call_back_in (poll_in_matched_state_ms cfg)).

(** *** [FailedState] *)

Definition FailedState_enter {T} : Eff (object Context T) slac_output slac_exn unit :=
  let* cfg := config in
  if ac_mode_five_percent cfg then signal_error_routine_request else eret tt.

Definition FailedState_handle_event (ev : Event.t)
  : Eff (object Context unit) slac_output slac_exn returned :=
  match ev with
  | Event.RESET => eret (create_simple new_ResetState)
  | _ => eret PASS_ON
  end.

(** *** [WaitForLinkState] *)

Abbreviation WaitM := (Eff (object Context WaitForLinkState) slac_output slac_exn).

Definition new_WaitForLinkState (sent : option cm_slac_match_cnf) : WaitForLinkState :=
  mkWaitForLink false 0 sent.

Definition WaitForLinkState_enter : WaitM unit :=
  let* now := steady_clock_now clock in
  update_this (assign start_time now).

Definition WaitForLinkState_handle_slac_message (message : HomeplugMessage) : WaitM bool :=
  let* o := eget in
  match check_link_status_cnf (modem_vendor (ctx o)) message with
  | Some true => eret true
  | _ =>
      match get_payload message with
      | CM_SLAC_MATCH_REQ _ =>
          match sent_match_cnf_message (this o) with
          | Some cnf => send_slac_message (get_src_mac message) (CM_SLAC_MATCH_CNF cnf) ;;; eret false
          | None => ethrow null_pointer
          end
      | _ => eret false
      end
  end.

Definition WaitForLinkState_handle_event (ev : Event.t) : WaitM returned :=
  match ev with
  | Event.SLAC_MESSAGE =>
      let* o := eget in
      let* up := WaitForLinkState_handle_slac_message (slac_message_payload (ctx o)) in
      if up then eret (create_simple (MatchedState false)) else eret PASS_ON
  | Event.RETRY_MATCHING => eret (create_simple FailedState)
  | Event.RESET => eret (create_simple new_ResetState)
  | _ => eret PASS_ON
  end.

Definition WaitForLinkState_callback : WaitM called :=
  let* cfg := config in
  let* o := eget in
  if negb (wait_link_status_req_sent (this o)) then
    let* sent := send_link_status_req in
    update_this (assign wait_link_status_req_sent sent) ;;;
    eret (call_back_in (retry_ms cfg))
  else
    let* now := steady_clock_now clock in
    if milliseconds (link_status_timeout_ms cfg) <? now - start_time (this o)
    then eret (raise Event.RETRY_MATCHING)
    else
      update_this (assign wait_link_status_req_sent false) ;;;
      eret (call_back_in (retry_ms cfg)).

(** *** [MatchingState] *)

Abbreviation MatchM := (Eff (object Context MatchingState) slac_output slac_exn).

(** The session a pointer refers to, and assignments through it. *)
Definition session_at (i : nat) : MatchM MatchingSession :=
  let* o := eget in
  match sessions (this o) !! i with
  | Some s => eret s
  | None => ethrow null_pointer
  end.

Definition on_session (i : nat) (f : MatchingSession -> MatchingSession) : MatchM unit :=
  update_this (update sessions (alter f i)).

Definition set_session_state (i : nat) (st : MatchingSubState.t) : MatchM unit :=
  on_session i (assign session_state st).

Definition set_next_timeout (i : nat) (delay_ms : Z) : MatchM unit :=
  let* now := steady_clock_now clock in
  on_session i (fun s =>
    assign timeout_active true (assign next_timeout (now + milliseconds delay_ms) s)).

Definition ack_timeout (i : nat) : MatchM unit := on_session i (assign timeout_active false).

Definition create_cm_slac_parm_cnf (session : MatchingSession) : cm_slac_parm_cnf :=
  mkParmCnf BROADCAST_MAC_ADDRESS CM_SLAC_PARM_CNF_NUM_SOUNDS CM_SLAC_PARM_CNF_TIMEOUT
    CM_SLAC_PARM_CNF_RESP_TYPE (ev_mac session) COMMON_APPLICATION_TYPE COMMON_SECURITY_TYPE
    (run_id session).

(** The attenuations are one byte each. *)
Definition create_cm_atten_char_ind (session : MatchingSession) (atten_offset : Z)
  : cm_atten_char_ind :=
  mkAttenChar COMMON_APPLICATION_TYPE COMMON_SECURITY_TYPE (ev_mac session) (run_id session)
    (replicate STATION_ID_LEN 0) (replicate STATION_ID_LEN 0) (u8 (captured_sounds session)) (Z.of_nat AAG_LIST_LEN)
    (if captured_sounds session =? 0 then replicate AAG_LIST_LEN 1
     else (fun aag => u8 (Z.quot aag (captured_sounds session) + atten_offset))
            <$> captured_aags session).

Definition create_cm_slac_match_cnf (match_req : cm_slac_match_req) (session_nmk : bytes)
  : cm_slac_match_cnf :=
  mkMatchCnf COMMON_APPLICATION_TYPE COMMON_SECURITY_TYPE CM_SLAC_MATCH_CNF_MVF_LENGTH
    (mr_pev_id match_req) (mr_pev_mac match_req) (mr_evse_id match_req) (mr_evse_mac match_req)
    (mr_run_id match_req) (generate_nid_from_nmk session_nmk) session_nmk.

Definition validate_cm_slac_parm_req (msg : cm_slac_parm_req) : bool :=
  (pr_application_type msg =? COMMON_APPLICATION_TYPE)
  && (pr_security_type msg =? COMMON_SECURITY_TYPE).

Definition handle_cm_slac_parm_req (tmp_ev_mac : bytes) (msg : cm_slac_parm_req) : MatchM unit :=
  if negb (validate_cm_slac_parm_req msg) then eret tt
  else
    update_this (assign seen_slac_parm_req true) ;;;
    let* o := eget in
    let* session :=
      match find_session (sessions (this o)) tmp_ev_mac (pr_run_id msg) with
      | Some i =>
          on_session i (fun _ => new_MatchingSession tmp_ev_mac (pr_run_id msg)) ;;;
          eret i
      | None =>
          update_this (update sessions (fun l => l ++ [new_MatchingSession tmp_ev_mac (pr_run_id msg)])) ;;;
          eret (length (sessions (this o)))
      end in
    set_next_timeout session TT_MATCH_SEQUENCE_MS ;;;
    let* s := session_at session in
    let param_confirm := create_cm_slac_parm_cnf s in
    send_slac_message (pc_forwarding_sta param_confirm) (CM_SLAC_PARM_CNF param_confirm) ;;;
    signal_cm_slac_parm_req tmp_ev_mac.

Definition validate_cm_start_atten_char_ind (msg : cm_start_atten_char_ind) : bool :=
  (sa_application_type msg =? COMMON_APPLICATION_TYPE)
  && (sa_security_type msg =? COMMON_SECURITY_TYPE)
  && negb (sa_num_sounds msg =? 0)
  && negb (sa_timeout msg =? 0)
  && (sa_resp_type msg =? CM_SLAC_PARM_CNF_RESP_TYPE).

(** Looks a session up by its key and requires its state. *)
Definition session_in (st : MatchingSubState.t) (mac id : bytes) : MatchM (option nat) :=
  let* o := eget in
  match find_session (sessions (this o)) mac id with
  | None => eret None
  | Some i =>
      let* s := session_at i in
      eret (if bool_decide (session_state s = st) then Some i else None)
  end.

Definition handle_cm_start_atten_char_ind (tmp_ev_mac : bytes) (msg : cm_start_atten_char_ind)
  : MatchM unit :=
  if negb (validate_cm_start_atten_char_ind msg) then eret tt
  else
    let* session := session_in MatchingSubState.WAIT_FOR_START_ATTEN_CHAR tmp_ev_mac (sa_run_id msg) in
    match session with
    | None => eret tt
    | Some i =>
        set_session_state i MatchingSubState.SOUNDING ;;;
        set_next_timeout i TT_EVSE_MATCH_MNBC_MS
    end.

Definition validate_cm_mnbc_sound_ind (msg : cm_mnbc_sound_ind) : bool :=
  (so_application_type msg =? COMMON_APPLICATION_TYPE)
  && (so_security_type msg =? COMMON_SECURITY_TYPE).

Definition handle_cm_mnbc_sound_ind (tmp_ev_mac : bytes) (msg : cm_mnbc_sound_ind) : MatchM unit :=
  if negb (validate_cm_mnbc_sound_ind msg) then eret tt
  else
    let* session := session_in MatchingSubState.SOUNDING tmp_ev_mac (so_run_id msg) in
    match session with
    | None => eret tt
    | Some i => on_session i (assign received_mnbc_sound true)
    end.

Definition handle_cm_atten_profile_ind (msg : cm_atten_profile_ind) : MatchM unit :=
  let* o := eget in
  match find_last_of_mac (sessions (this o)) (ap_pev_mac msg) with
  | None => eret tt
  | Some i =>
      let* s := session_at i in
      if negb (bool_decide (session_state s = MatchingSubState.SOUNDING)) then eret tt
      else if negb (ap_num_groups msg =? Z.of_nat AAG_LIST_LEN) then eret tt
      else
        on_session i (update captured_aags (fun aags => zip_with Z.add aags (ap_aag msg))) ;;;
        on_session i (update captured_sounds (Z.add 1)) ;;;
        let* s := session_at i in
        if captured_sounds s <? CM_SLAC_PARM_CNF_NUM_SOUNDS then eret tt
        else
          set_session_state i MatchingSubState.FINALIZE_SOUNDING ;;;
          set_next_timeout i FINALIZE_SOUNDING_DELAY_MS
  end.

Definition validate_cm_atten_char_rsp (msg : cm_atten_char_rsp) : bool :=
  (ar_application_type msg =? COMMON_APPLICATION_TYPE)
  && (ar_security_type msg =? COMMON_SECURITY_TYPE)
  && (ar_result msg =? CM_ATTEN_CHAR_RSP_RESULT).

Definition handle_cm_atten_char_rsp (tmp_ev_mac : bytes) (msg : cm_atten_char_rsp) : MatchM unit :=
  if negb (validate_cm_atten_char_rsp msg) then eret tt
  else
    let* session := session_in MatchingSubState.WAIT_FOR_ATTEN_CHAR_RSP tmp_ev_mac (ar_run_id msg) in
    match session with
    | None => eret tt
    | Some i =>
        set_session_state i MatchingSubState.WAIT_FOR_SLAC_MATCH ;;;
        set_next_timeout i TT_EVSE_MATCH_SESSION_MS
    end.

Definition handle_cm_validate_req (tmp_ev_mac : bytes) : MatchM unit :=
  send_slac_message tmp_ev_mac
    (CM_VALIDATE_CNF (mkValidateCnf CM_VALIDATE_REQ_SIGNAL_TYPE 0 CM_VALIDATE_REQ_RESULT_FAILURE)).

Definition validate_cm_slac_match_req (msg : cm_slac_match_req) : bool :=
  (mr_application_type msg =? COMMON_APPLICATION_TYPE)
  && (mr_security_type msg =? COMMON_SECURITY_TYPE)
  && (mr_mvf_length msg =? CM_SLAC_MATCH_REQ_MVF_LENGTH).

Definition wrong_session_nmk : bytes := Z.of_nat <$> seq 1 16.

Definition handle_cm_slac_match_req (tmp_ev_mac : bytes) (msg : cm_slac_match_req) : MatchM unit :=
  if negb (validate_cm_slac_match_req msg) then eret tt
  else
    let* session := session_in MatchingSubState.WAIT_FOR_SLAC_MATCH tmp_ev_mac (mr_run_id msg) in
    match session with
    | None => eret tt
    | Some i =>
        let* cfg := config in
        let nmk :=
          if debug_simulate_failed_matching cfg then wrong_session_nmk else session_nmk cfg in
        let cnf := create_cm_slac_match_cnf msg nmk in
        update_this (assign match_cnf_message (Some cnf)) ;;;
        send_slac_message tmp_ev_mac (CM_SLAC_MATCH_CNF cnf) ;;;
        set_session_state i MatchingSubState.MATCH_COMPLETE ;;;
        set_next_timeout i 0 ;;;
        signal_cm_slac_match_cnf tmp_ev_mac
    end.

Definition MatchingState_handle_slac_message (msg : HomeplugMessage) : MatchM unit :=
  let tmp_ev_mac := get_src_mac msg in
  match get_payload msg with
  | CM_SLAC_PARM_REQ m => handle_cm_slac_parm_req tmp_ev_mac m
  | CM_START_ATTEN_CHAR_IND m => handle_cm_start_atten_char_ind tmp_ev_mac m
  | CM_MNBC_SOUND_IND m => handle_cm_mnbc_sound_ind tmp_ev_mac m
  | CM_ATTEN_PROFILE_IND m => handle_cm_atten_profile_ind m
  | CM_ATTEN_CHAR_RSP m => handle_cm_atten_char_rsp tmp_ev_mac m
  | CM_SLAC_MATCH_REQ m => handle_cm_slac_match_req tmp_ev_mac m
  | CM_VALIDATE_REQ => handle_cm_validate_req tmp_ev_mac
  | _ => eret tt
  end.

Definition finalize_sounding (i : nat) : MatchM unit :=
  set_session_state i MatchingSubState.WAIT_FOR_ATTEN_CHAR_RSP ;;;
  let* cfg := config in
  let* session := session_at i in
  let atten_char := create_cm_atten_char_ind session (sounding_atten_adjustment cfg) in
  send_slac_message (ev_mac session) (CM_ATTEN_CHAR_IND atten_char) ;;;
  set_next_timeout i TT_MATCH_RESPONSE_MS.

(** [timeout_slac_parm_req = now + TT_EVSE_SLAC_INIT_MS]. *)
Definition restart_slac_parm_req_timeout : MatchM unit :=
  let* now := steady_clock_now clock in
  update_this (assign timeout_slac_parm_req (now + milliseconds TT_EVSE_SLAC_INIT_MS)).

Definition MatchingState_enter : MatchM unit :=
  signal_state "MATCHING" ;;;
  restart_slac_parm_req_timeout.

Definition remaining_milliseconds (timeout now : Z) : Z := to_milliseconds (timeout - now).

(** The timeout of a session that has run out. *)
Definition handle_session_timeout (i : nat) : MatchM unit :=
  let* session := session_at i in
  match session_state session with
  | MatchingSubState.WAIT_FOR_START_ATTEN_CHAR => set_session_state i MatchingSubState.FAILED
  | MatchingSubState.SOUNDING =>
      set_session_state i MatchingSubState.FINALIZE_SOUNDING ;;;
      set_next_timeout i FINALIZE_SOUNDING_DELAY_MS
  | MatchingSubState.FINALIZE_SOUNDING =>
      finalize_sounding i ;;;
      on_session i (assign session_num_retries 0)
  | MatchingSubState.WAIT_FOR_ATTEN_CHAR_RSP =>
      on_session i (update session_num_retries (Z.add 1)) ;;;
      if session_num_retries session + 1 <=? C_EV_MATCH_RETRY then finalize_sounding i
      else set_session_state i MatchingSubState.FAILED
  | MatchingSubState.WAIT_FOR_SLAC_MATCH => set_session_state i MatchingSubState.FAILED
  | _ => eret tt
  end.

(** [while (session.timeout_active)]: the event that is returned, or the time
    to call back in. *)
Fixpoint session_timeouts (fuel i : nat) (now_tp : Z) (call_back_ms : option Z)
  : MatchM (Event.t + option Z) :=
  match fuel with
  | O => ethrow loop_exhausted
  | S fuel =>
      let* session := session_at i in
      if negb (timeout_active session) then eret (inr call_back_ms)
      else if bool_decide (session_state session = MatchingSubState.MATCH_COMPLETE)
      then eret (inl Event.MATCH_COMPLETE)
      else
        let remaining_ms := remaining_milliseconds (next_timeout session) now_tp in
        if 0 <? remaining_ms then
          eret (inr (match call_back_ms with
                     | Some ms => if remaining_ms <? ms then Some (i32 remaining_ms) else Some ms
                     | None => Some (i32 remaining_ms)
                     end))
        else
          ack_timeout i ;;;
          handle_session_timeout i ;;;
          session_timeouts fuel i now_tp call_back_ms
  end.

(** Rounds of the loop: a timeout is handled at most once. *)
Definition session_fuel : nat := 2.

(** [for (auto& session : sessions)], from the [i]-th of [n] left. *)
Fixpoint check_sessions (n i : nat) (now_tp : Z) (call_back_ms : option Z)
  : MatchM (Event.t + option Z) :=
  match n with
  | O => eret (inr call_back_ms)
  | S n =>
      let* r := session_timeouts session_fuel i now_tp call_back_ms in
      match r with
      | inl ev => eret (inl ev)
      | inr call_back_ms =>
          let* o := eget in
          if all_sessions_failed (sessions (this o)) then eret (inl Event.FAILED)
          else check_sessions n (S i) now_tp call_back_ms
      end
  end.

Definition MatchingState_callback : MatchM called :=
  let* now_tp := steady_clock_now clock in
  let* o := eget in
  if negb (seen_slac_parm_req (this o)) && (timeout_slac_parm_req (this o) <=? now_tp)
  then eret (raise Event.FAILED)
  else
    let call_back_ms :=
      if negb (seen_slac_parm_req (this o))
      then Some (i32 (remaining_milliseconds (timeout_slac_parm_req (this o)) now_tp))
      else None in
    let* r := check_sessions (length (sessions (this o))) 0 now_tp call_back_ms in
    match r with
    | inl ev => eret (raise ev)
    | inr (Some ms) => eret (call_back_in ms)
    | inr None => ethrow empty_optional
    end.

Definition MatchingState_handle_event (ev : Event.t) : MatchM returned :=
  let* o := eget in
  let* cfg := config in
  match ev with
  | Event.SLAC_MESSAGE =>
      MatchingState_handle_slac_message (slac_message_payload (ctx o)) ;;;
      eret HANDLED_INTERNALLY
  | Event.RESET => eret (create_simple new_ResetState)
  | Event.MATCH_COMPLETE =>
      if do_detect cfg then
        update_this (assign match_cnf_message None) ;;;
        eret (create_simple (WaitForLinkState_ (new_WaitForLinkState (match_cnf_message (this o)))))
      else eret (create_simple (MatchedState false))
  | Event.RETRY_MATCHING =>
      update_this (update num_retries (Z.add 1)) ;;;
      if num_retries (this o) + 1 =? C_EV_MATCH_RETRY then eret (create_simple FailedState)
      else restart_slac_parm_req_timeout ;;; eret HANDLED_INTERNALLY
  | Event.FAILED =>
      update_this (update failed_count (Z.add 1)) ;;;
      if reset_instead_of_fail cfg && (failed_count (this o) + 1 <? 2) then
        update_this (assign sessions []) ;;;
        restart_slac_parm_req_timeout ;;;
        update_this (fun m => assign num_retries 0 (assign seen_slac_parm_req false m)) ;;;
        eret HANDLED_INTERNALLY
      else eret (create_simple FailedState)
  | _ => eret PASS_ON
  end.

(** ** The machine *)

(** The virtual functions; a state without its own does nothing. *)
#[global] Instance evse_states : States Context evse_state Event.t slac_output := {|
  state_enter := fun o =>
    match this o with
    | InitState s => as_current InitState s (eret tt) o
    | ResetState b => as_current ResetState b ResetState_enter o
    | ResetChipState s => as_current ResetChipState s (eret tt) o
    | IdleState => as_current (fun _ => IdleState) tt IdleState_enter o
    | MatchingState_ m => as_current MatchingState_ m MatchingState_enter o
    | WaitForLinkState_ w => as_current WaitForLinkState_ w WaitForLinkState_enter o
    | MatchedState b => as_current MatchedState b MatchedState_enter o
    | FailedState => as_current (fun _ => FailedState) tt FailedState_enter o
    end;
  state_leave := fun o =>
    match this o with
    | MatchedState b => as_current MatchedState b MatchedState_leave o
    | _ => eret tt o
    end;
  state_callback := fun o =>
    match this o with
    | InitState s => as_current InitState s InitState_callback o
    | ResetState b => as_current ResetState b ResetState_callback o
    | ResetChipState s => as_current ResetChipState s ResetChipState_callback o
    | MatchingState_ m => as_current MatchingState_ m MatchingState_callback o
    | WaitForLinkState_ w => as_current WaitForLinkState_ w WaitForLinkState_callback o
    | MatchedState b => as_current MatchedState b MatchedState_callback o
    | IdleState | FailedState => eret no_value o
    end;
  state_handle_event := fun ev o =>
    match this o with
    | InitState s => as_current InitState s (InitState_handle_event ev) o
    | ResetState b => as_current ResetState b (ResetState_handle_event ev) o
    | ResetChipState s => as_current ResetChipState s (ResetChipState_handle_event ev) o
    | IdleState => as_current (fun _ => IdleState) tt (IdleState_handle_event ev) o
    | MatchingState_ m => as_current MatchingState_ m (MatchingState_handle_event ev) o
    | WaitForLinkState_ w => as_current WaitForLinkState_ w (WaitForLinkState_handle_event ev) o
    | MatchedState b => as_current MatchedState b (MatchedState_handle_event ev) o
    | FailedState => as_current (fun _ => FailedState) tt (FailedState_handle_event ev) o
    end
|}.

(** The calls of [FSMController] that change something, and when the mutex and
    the thread allow them. *)
Inductive evse_op :=
| Message (msg : HomeplugMessage)
| Notify
| Signal (ev : Event.t)
| Round
| Wake.

Definition evse_enabled (op : evse_op) (c : FSMController Context evse_state) : bool :=
  match op, thread c with
  | (Message _ | Signal (Event.RESET | Event.ENTER_BCD | Event.LEAVE_BCD)), waiting _ => true
  | Notify, _ => true
  | Round, feeding => true
  | Wake, waiting timeout => new_event c || bool_decide (is_Some timeout)
  | _, _ => false
  end.

Definition evse_call {F : Fsm evse_states} (op : evse_op)
  : Eff (FSMController Context evse_state) slac_output slac_exn unit :=
  match op with
  | Message msg => signal_new_slac_message (assign slac_message_payload) Event.SLAC_MESSAGE msg
  | Notify => notify
  | Signal ev => signal_simple_event ev ;;; eret tt
  | Round => run_round
  | Wake => wake
  end.

(** The controller once [run] has begun, with a context the module has
    configured. *)
Definition evse_start {F : Fsm evse_states} (context : Context)
  : result slac_exn unit * FSMController Context evse_state * list slac_output :=
  run_start new_InitState
    (mkController (mkObject context new_InitState 0 0) false false feeding).

(** Everything that happens at the controller. *)
Definition slac_history {F : Fsm evse_states} (context : Context) (ops : list evse_op)
  : history Context evse_state evse_op slac_output :=
  history_run evse_enabled evse_call ops (history_start (evse_start context)).
End Machine.

(** ** The module EvseSlac *)

(** [slacImpl]: the configuration of the module, as [run] hands it on.  What is
    not set keeps the default of [context.hpp]. *)
Record slac_module_config := mkModuleConfig {
  conf_ac_mode_five_percent : bool;
  conf_set_key_timeout_ms : Z;
  conf_sounding_attenuation_adjustment : Z;
  conf_publish_mac_on_match_cnf : bool;
  conf_publish_mac_on_first_parm_req : bool;
  conf_do_chip_reset : bool;
  conf_chip_reset_delay_ms : Z;
  conf_chip_reset_timeout_ms : Z;
  conf_link_status_detection : bool;
  conf_link_status_retry_ms : Z;
  conf_link_status_timeout_ms : Z;
  conf_debug_simulate_failed_matching : bool;
  conf_reset_instead_of_fail : bool
}.

Definition default_plc_peer_mac : bytes := [0; 176; 82; 0; 0; 1].

(** The context before [generate_nmk]; the member of the received message is
    empty until one comes. *)
Definition slacImpl_context `{D : SlacDefs} (conf : slac_module_config) (empty : HomeplugMessage)
  : Context :=
  mkContext
    (mkSlacConfig default_plc_peer_mac (replicate NMK_LEN 0) (conf_ac_mode_five_percent conf)
       (conf_set_key_timeout_ms conf) (conf_do_chip_reset conf) (conf_chip_reset_timeout_ms conf)
       (conf_chip_reset_delay_ms conf) (conf_link_status_detection conf)
       (conf_link_status_retry_ms conf) 1000 (conf_link_status_timeout_ms conf)
       (conf_debug_simulate_failed_matching conf) 100 (conf_sounding_attenuation_adjustment conf)
       (conf_reset_instead_of_fail conf))
    empty ModemVendor.Unknown
    (mkCallbacks true true true (conf_publish_mac_on_first_parm_req conf)
       (conf_publish_mac_on_match_cnf conf)).

(** The commands of the interface [slac], and what they tell the controller. *)
Inductive slac_command :=
| reset (enable : bool)
| enter_bcd
| leave_bcd
| dlink_terminate
| dlink_error
| dlink_pause.

Definition slacImpl_handle (cmd : slac_command) : option evse_op :=
  match cmd with
  | reset enable => if negb enable then Some (Signal Event.RESET) else None
  | enter_bcd => Some (Signal Event.ENTER_BCD)
  | leave_bcd => Some (Signal Event.LEAVE_BCD)
  | dlink_terminate | dlink_error => Some (Signal Event.RESET)
  | dlink_pause => None
  end.
