(* ===== verification/SlacEv.v ===== *)
(** * SLAC at the car

    [lib/everest/slac/fsm/ev], which EVerest uses to simulate a car: the
    states of the machine and the controller of
    [modules/EV/EvSlac/main/fsm_controller.cpp].  Log texts are left out. *)
From S2P Require Import Prelude Effects Slac.
From stdpp Require Import base tactics list numbers strings.
Open Scope Z_scope.
Open Scope everest_scope.

Module EvEvent.
Inductive t : Set := RESET | TRIGGER_MATCHING | SLAC_MESSAGE | FAILED.
#[global] Instance eq_dec : EqDecision t := ltac:(solve_decision).
End EvEvent.

Record EvContext := mkEvContext {
  plc_mac : bytes;
  slac_message_received : HomeplugMessage
}.
#[global] Instance eta_EvContext : Eta EvContext := fun c =>
  mkEvContext (plc_mac c) (slac_message_received c).

Inductive ev_output :=
| ev_send_raw_slac (mac : bytes) (m : slac_message)
| ev_signalled_state (state : string).

Record SessionParamaters := mkSessionParamaters {
  param_run_id : bytes;
  param_evse_mac : bytes
}.

Record InitSlacState := mkInitSlac {
  init_next_timeout : Z;
  init_num_of_tries : Z;
  init_run_id : bytes
}.
#[global] Instance eta_InitSlacState : Eta InitSlacState := fun s =>
  mkInitSlac (init_next_timeout s) (init_num_of_tries s) (init_run_id s).

Record SoundingState := mkSounding {
  sounding_timeout : Z;
  sounding_next_timeout : Z;
  count_start_atten_char_sent : Z;
  count_mnbc_sound_sent : Z;
  sounding_parameters : SessionParamaters
}.
#[global] Instance eta_SoundingState : Eta SoundingState := fun s =>
  mkSounding (sounding_timeout s) (sounding_next_timeout s) (count_start_atten_char_sent s)
    (count_mnbc_sound_sent s) (sounding_parameters s).

Record MatchRequestState := mkMatchRequest {
  request_next_timeout : Z;
  request_num_of_tries : Z;
  request_parameters : SessionParamaters
}.
#[global] Instance eta_MatchRequestState : Eta MatchRequestState := fun s =>
  mkMatchRequest (request_next_timeout s) (request_num_of_tries s) (request_parameters s).

Record JoinNetworkState := mkJoinNetwork {
  join_timeout : Z;
  join_nmk : bytes
}.
#[global] Instance eta_JoinNetworkState : Eta JoinNetworkState := fun s =>
  mkJoinNetwork (join_timeout s) (join_nmk s).

Inductive ev_state :=
| EvResetState
| InitSlacState_ (s : InitSlacState)
| SoundingState_ (s : SoundingState)
| MatchRequestState_ (s : MatchRequestState)
| JoinNetworkState_ (s : JoinNetworkState)
| EvMatchedState
| EvFailedState.

Section Machine.
Context {D : SlacDefs} (clock draw : nat -> Z).

Abbreviation M T := (Eff (object EvContext T) ev_output slac_exn).
Abbreviation returned := (HandleEventReturn ev_state).
Abbreviation called := (CallbackReturn EvEvent.t).

Section Context.
Context {T : Type}.

Definition ev_send_slac_message (dest_mac : bytes) (m : slac_message) : M T unit :=
  eemit (ev_send_raw_slac dest_mac m).
Definition ev_signal_state (state : string) : M T unit := eemit (ev_signalled_state state).

(** The message the current event is about. *)
Definition current_slac_message : M T HomeplugMessage :=
  let* o := eget in eret (slac_message_received (ctx o)).
End Context.

Definition milliseconds_left (from to : Z) : Z := to_milliseconds (to - from).

(** ** [ResetState] *)

Definition EvResetState_enter {T} : M T unit := ev_signal_state "UNMATCHED".

(** [InitSlacState] as constructed; the array is filled in [enter]. *)
Definition new_InitSlacState : InitSlacState := mkInitSlac 0 0 (replicate 8 0).

Definition EvResetState_handle_event (ev : EvEvent.t) : M unit returned :=
  match ev with
  | EvEvent.TRIGGER_MATCHING => eret (create_simple (InitSlacState_ new_InitSlacState))
  | _ => eret PASS_ON
  end.

(** ** [InitSlacState] *)

Definition InitSlacState_enter : M InitSlacState unit :=
  let* id := draw_values draw 8 in
  update_this (assign init_run_id id).

Definition ev_broadcast_mac : bytes := replicate 6 255.

Definition send_parm_req : M InitSlacState Z :=
  let* o := eget in
  ev_send_slac_message ev_broadcast_mac
    (CM_SLAC_PARM_REQ (mkParmReq 0 0 (init_run_id (this o)))) ;;;
  update_this (update init_num_of_tries (Z.add 1)) ;;;
  let* now := steady_clock_now clock in
  update_this (assign init_next_timeout (now + milliseconds TT_MATCH_RESPONSE_MS)) ;;;
  eret TT_MATCH_RESPONSE_MS.

Definition InitSlacState_callback : M InitSlacState called :=
  let* o := eget in
  if init_num_of_tries (this o) =? 0 then
    let* ms := send_parm_req in eret (call_back_in ms)
  else
    let* now := steady_clock_now clock in
    let time_left := milliseconds_left now (init_next_timeout (this o)) in
    if 0 <? time_left then eret (call_back_in (i32 time_left))
    else if init_num_of_tries (this o) <? 100 then
      let* ms := send_parm_req in eret (call_back_in ms)
    else eret (raise EvEvent.FAILED).

Definition check_for_valid_parm_conf : M InitSlacState bool :=
  let* o := eget in
  let* msg := current_slac_message in
  match get_payload msg with
  | CM_SLAC_PARM_CNF parm_cnf => eret (same_bytes (pc_run_id parm_cnf) (init_run_id (this o)))
  | _ => eret false
  end.

Definition new_SoundingState (p : SessionParamaters) : SoundingState := mkSounding 0 0 0 0 p.

Definition InitSlacState_handle_event (ev : EvEvent.t) : M InitSlacState returned :=
  match ev with
  | EvEvent.SLAC_MESSAGE =>
      let* valid := check_for_valid_parm_conf in
      if valid then
        ev_signal_state "MATCHING" ;;;
        let* o := eget in
        let* msg := current_slac_message in
        eret (create_simple (SoundingState_ (new_SoundingState
          (mkSessionParamaters (init_run_id (this o)) (get_src_mac msg)))))
      else eret HANDLED_INTERNALLY
  | EvEvent.FAILED => eret (create_simple EvFailedState)
  | EvEvent.RESET => eret (create_simple EvResetState)
  | _ => eret PASS_ON
  end.

(** ** [SoundingState] *)

Definition SoundingState_enter : M SoundingState unit :=
  let* now := steady_clock_now clock in
  update_this (assign sounding_timeout (now + milliseconds TT_EV_ATTEN_RESULTS_MS)).

Definition do_sounding : M SoundingState bool :=
  let* o := eget in
  let s := this o in
  let p := sounding_parameters s in
  (if count_start_atten_char_sent s <? C_EV_START_ATTEN_CHAR_INDS then
     ev_send_slac_message (param_evse_mac p)
       (CM_START_ATTEN_CHAR_IND (mkStartAtten 0 0 C_EV_MATCH_MNBC
          (Z.quot (TT_EVSE_MATCH_MNBC_MS + 99) 100) 1 (plc_mac (ctx o)) (param_run_id p))) ;;;
     update_this (update count_start_atten_char_sent (Z.add 1))
   else if count_mnbc_sound_sent s <? C_EV_MATCH_MNBC then
     update_this (update count_mnbc_sound_sent (Z.add 1)) ;;;
     let* random := draw_values draw RANDOM_LEN in
     ev_send_slac_message (param_evse_mac p)
       (CM_MNBC_SOUND_IND (mkSound 0 0 (replicate SENDER_ID_LEN 0)
          (C_EV_MATCH_MNBC - (count_mnbc_sound_sent s + 1)) (param_run_id p) random))
   else eret tt) ;;;
  let* o := eget in
  eret (count_mnbc_sound_sent (this o) <? C_EV_MATCH_MNBC).

Definition SoundingState_callback : M SoundingState called :=
  let* o := eget in
  let* now := steady_clock_now clock in
  let sounding_time_left := milliseconds_left now (sounding_timeout (this o)) in
  if sounding_time_left <=? 0 then eret (raise EvEvent.FAILED)
  else if count_mnbc_sound_sent (this o) =? 10 then eret (call_back_in (i32 sounding_time_left))
  else
    (if count_start_atten_char_sent (this o) =? 0 then update_this (assign sounding_next_timeout now)
     else eret tt) ;;;
    let* o := eget in
    let next_step_time_left := milliseconds_left now (sounding_next_timeout (this o)) in
    if 0 <? next_step_time_left
    then eret (call_back_in (i32 (Z.min next_step_time_left sounding_time_left)))
    else
      let* more := do_sounding in
      if more then
        update_this (assign sounding_next_timeout (now + milliseconds 20)) ;;;
        eret (call_back_in (Z.min 20 (i32 sounding_time_left)))
      else eret (call_back_in (i32 sounding_time_left)).

Definition handle_valid_atten_char_ind : M SoundingState bool :=
  let* o := eget in
  let p := sounding_parameters (this o) in
  if count_mnbc_sound_sent (this o) <? C_EV_MATCH_MNBC then eret false
  else
    let* msg := current_slac_message in
    match get_payload msg with
    | CM_ATTEN_CHAR_IND atten_char =>
        if negb (same_bytes (param_run_id p) (ac_run_id atten_char)) then eret false
        else
          ev_send_slac_message (param_evse_mac p)
            (CM_ATTEN_CHAR_RSP (mkAttenRsp 0 0 (plc_mac (ctx o)) (ac_run_id atten_char)
               (replicate STATION_ID_LEN 0) (replicate STATION_ID_LEN 0) 0)) ;;;
          eret true
    | _ => eret false
    end.

Definition new_MatchRequestState (p : SessionParamaters) : MatchRequestState := mkMatchRequest 0 0 p.

Definition SoundingState_handle_event (ev : EvEvent.t) : M SoundingState returned :=
  match ev with
  | EvEvent.SLAC_MESSAGE =>
      let* valid := handle_valid_atten_char_ind in
      if valid then
        let* o := eget in
        eret (create_simple (MatchRequestState_ (new_MatchRequestState (sounding_parameters (this o)))))
      else eret HANDLED_INTERNALLY
  | EvEvent.RESET => eret (create_simple EvResetState)
  | _ => eret PASS_ON
  end.

(** ** [MatchRequestState] *)

(** [htole16(0x3e)]. *)
Definition ev_mvf_length : Z := 62.

Definition send_match_req : M MatchRequestState Z :=
  let* o := eget in
  let p := request_parameters (this o) in
  ev_send_slac_message (param_evse_mac p)
    (CM_SLAC_MATCH_REQ (mkMatchReq 0 0 ev_mvf_length (replicate STATION_ID_LEN 0) (plc_mac (ctx o))
       (replicate STATION_ID_LEN 0) (param_evse_mac p) (param_run_id p))) ;;;
  update_this (update request_num_of_tries (Z.add 1)) ;;;
  let* now := steady_clock_now clock in
  update_this (assign request_next_timeout (now + milliseconds TT_MATCH_RESPONSE_MS)) ;;;
  eret TT_MATCH_RESPONSE_MS.

Definition MatchRequestState_callback : M MatchRequestState called :=
  let* o := eget in
  if request_num_of_tries (this o) =? 0 then
    let* ms := send_match_req in eret (call_back_in ms)
  else
    let* now := steady_clock_now clock in
    let time_left := milliseconds_left now (request_next_timeout (this o)) in
    if 0 <? time_left then eret (call_back_in (i32 time_left))
    else if request_num_of_tries (this o) <? C_EV_MATCH_RETRY then
      let* ms := send_match_req in eret (call_back_in ms)
    else eret (raise EvEvent.FAILED).

(** The key, if the message is a valid confirmation. *)
Definition check_for_valid_match_req_conf : M MatchRequestState (option bytes) :=
  let* o := eget in
  if request_num_of_tries (this o) =? 0 then eret None
  else
    let* msg := current_slac_message in
    match get_payload msg with
    | CM_SLAC_MATCH_CNF match_cnf =>
        eret (if same_bytes (param_run_id (request_parameters (this o))) (mc_run_id match_cnf)
              then Some (mc_nmk match_cnf) else None)
    | _ => eret None
    end.

Definition new_JoinNetworkState (nmk : bytes) : JoinNetworkState := mkJoinNetwork 0 nmk.

Definition MatchRequestState_handle_event (ev : EvEvent.t) : M MatchRequestState returned :=
  match ev with
  | EvEvent.SLAC_MESSAGE =>
      let* nmk := check_for_valid_match_req_conf in
      match nmk with
      | Some nmk => eret (create_simple (JoinNetworkState_ (new_JoinNetworkState nmk)))
      | None => eret HANDLED_INTERNALLY
      end
  | EvEvent.FAILED => eret (create_simple EvFailedState)
  | EvEvent.RESET => eret (create_simple EvResetState)
  | _ => eret PASS_ON
  end.

(** ** [JoinNetworkState] *)

Definition SET_KEY_TIMEOUT_MS : Z := 500.

Definition JoinNetworkState_enter : M JoinNetworkState unit :=
  let* o := eget in
  let nmk := join_nmk (this o) in
  ev_send_slac_message (plc_mac (ctx o))
    (CM_SET_KEY_REQ (mkSetKey CM_SET_KEY_REQ_KEY_TYPE_NMK 0xAAAAAAAA 0 CM_SET_KEY_REQ_PID_HLE
       CM_SET_KEY_REQ_PRN_UNUSED CM_SET_KEY_REQ_PMN_UNUSED CM_SET_KEY_REQ_CCO_CAP_NONE
       (generate_nid_from_nmk nmk) CM_SET_KEY_REQ_PEKS_NMK_KNOWN_TO_STA nmk)) ;;;
  let* now := steady_clock_now clock in
  update_this (assign join_timeout (now + milliseconds SET_KEY_TIMEOUT_MS)).

Definition JoinNetworkState_callback : M JoinNetworkState called :=
  let* o := eget in
  let* now := steady_clock_now clock in
  let time_left := milliseconds_left now (join_timeout (this o)) in
  if 0 <? time_left then eret (call_back_in (i32 time_left)) else eret (raise EvEvent.FAILED).

Definition check_for_valid_set_key_conf : M JoinNetworkState bool :=
  let* msg := current_slac_message in
  match get_payload msg with CM_SET_KEY_CNF => eret true | _ => eret false end.

Definition JoinNetworkState_handle_event (ev : EvEvent.t) : M JoinNetworkState returned :=
  match ev with
  | EvEvent.SLAC_MESSAGE =>
      let* valid := check_for_valid_set_key_conf in
      if valid then eret (create_simple EvMatchedState) else eret HANDLED_INTERNALLY
  | EvEvent.FAILED => eret (create_simple EvFailedState)
  | EvEvent.RESET => eret (create_simple EvResetState)
  | _ => eret PASS_ON
  end.

(** ** [MatchedState] and [FailedState] *)

Definition EvMatchedState_enter {T} : M T unit := ev_signal_state "MATCHED".

Definition EvMatchedState_handle_event (ev : EvEvent.t) : M unit returned :=
  match ev with
  | EvEvent.RESET => eret (create_simple EvResetState)
  | EvEvent.SLAC_MESSAGE => eret HANDLED_INTERNALLY
  | _ => eret PASS_ON
  end.

Definition EvFailedState_handle_event (ev : EvEvent.t) : M unit returned :=
  match ev with
  | EvEvent.RESET => eret (create_simple EvResetState)
  | EvEvent.SLAC_MESSAGE => eret HANDLED_INTERNALLY
  | _ => eret PASS_ON
  end.

(** ** The machine *)

#[global] Instance ev_states : States EvContext ev_state EvEvent.t ev_output := {|
  state_enter := fun o =>
    match this o with
    | EvResetState => as_current (fun _ => EvResetState) tt EvResetState_enter o
    | InitSlacState_ s => as_current InitSlacState_ s InitSlacState_enter o
    | SoundingState_ s => as_current SoundingState_ s SoundingState_enter o
    | JoinNetworkState_ s => as_current JoinNetworkState_ s JoinNetworkState_enter o
    | EvMatchedState => as_current (fun _ => EvMatchedState) tt EvMatchedState_enter o
    | MatchRequestState_ _ | EvFailedState => eret tt o
    end;
  state_leave := eret tt;
  state_callback := fun o =>
    match this o with
    | InitSlacState_ s => as_current InitSlacState_ s InitSlacState_callback o
    | SoundingState_ s => as_current SoundingState_ s SoundingState_callback o
    | MatchRequestState_ s => as_current MatchRequestState_ s MatchRequestState_callback o
    | JoinNetworkState_ s => as_current JoinNetworkState_ s JoinNetworkState_callback o
    | EvResetState | EvMatchedState | EvFailedState => eret no_value o
    end;
  state_handle_event := fun ev o =>
    match this o with
    | EvResetState => as_current (fun _ => EvResetState) tt (EvResetState_handle_event ev) o
    | InitSlacState_ s => as_current InitSlacState_ s (InitSlacState_handle_event ev) o
    | SoundingState_ s => as_current SoundingState_ s (SoundingState_handle_event ev) o
    | MatchRequestState_ s => as_current MatchRequestState_ s (MatchRequestState_handle_event ev) o
    | JoinNetworkState_ s => as_current JoinNetworkState_ s (JoinNetworkState_handle_event ev) o
    | EvMatchedState => as_current (fun _ => EvMatchedState) tt (EvMatchedState_handle_event ev) o
    | EvFailedState => as_current (fun _ => EvFailedState) tt (EvFailedState_handle_event ev) o
    end
|}.

(** The calls of [FSMController]. *)
Inductive ev_op :=
| EvMessage (msg : HomeplugMessage)
| EvNotify
| EvSignal (ev : EvEvent.t)
| EvRound
| EvWake.

Definition ev_enabled (op : ev_op) (c : FSMController EvContext ev_state) : bool :=
  match op, thread c with
  | (EvMessage _ | EvSignal (EvEvent.RESET | EvEvent.TRIGGER_MATCHING)), waiting _ => true
  | EvNotify, _ => true
  | EvRound, feeding => true
  | EvWake, waiting timeout => new_event c || bool_decide (is_Some timeout)
  | _, _ => false
  end.

Definition ev_call {F : Fsm ev_states} (op : ev_op)
  : Eff (FSMController EvContext ev_state) ev_output slac_exn unit :=
  match op with
  | EvMessage msg =>
      signal_new_slac_message (assign slac_message_received) EvEvent.SLAC_MESSAGE msg
  | EvNotify => notify
  | EvSignal ev => signal_simple_event ev ;;; eret tt
  | EvRound => run_round
  | EvWake => wake
  end.

Definition ev_start {F : Fsm ev_states} (context : EvContext)
  : result slac_exn unit * FSMController EvContext ev_state * list ev_output :=
  run_start EvResetState (mkController (mkObject context EvResetState 0 0) false false feeding).

Definition ev_slac_history {F : Fsm ev_states} (context : EvContext) (ops : list ev_op)
  : history EvContext ev_state ev_op ev_output :=
  history_run ev_enabled ev_call ops (history_start (ev_start context)).
End Machine.
