(* ===== verification/SlacExample.v ===== *)
(** * Concrete SLAC machines

    The constants of ISO 15118-3, an implementation of the state machine
    library, and an exchange between a car and a charging point, for the
    concrete instances of the theorems; and histories with unexpected
    outcomes. *)
From S2P Require Import Prelude Effects Slac SlacEvse SlacEv.
From stdpp Require Import base tactics list numbers strings.
From Stdlib Require Import Lia.
Open Scope Z_scope.
Open Scope everest_scope.

#[global] Instance iso_defs : SlacDefs := {|
  TT_EVSE_SLAC_INIT_MS := 40000;
  TT_MATCH_SEQUENCE_MS := 400;
  TT_MATCH_RESPONSE_MS := 200;
  TT_EVSE_MATCH_MNBC_MS := 600;
  TT_EVSE_MATCH_SESSION_MS := 10000;
  TT_EV_ATTEN_RESULTS_MS := 1200;
  C_EV_MATCH_RETRY := 2;
  C_EV_START_ATTEN_CHAR_INDS := 3;
  C_EV_MATCH_MNBC := 10;
  AAG_LIST_LEN := 58;
  NMK_LEN := 16;
  RUN_ID_LEN := 8;
  STATION_ID_LEN := 17;
  SENDER_ID_LEN := 17;
  RANDOM_LEN := 16;
  CM_SLAC_PARM_CNF_NUM_SOUNDS := 10;
  CM_SLAC_PARM_CNF_TIMEOUT := 6;
  CM_SLAC_PARM_CNF_RESP_TYPE := 1;
  COMMON_APPLICATION_TYPE := 0;
  COMMON_SECURITY_TYPE := 0;
  CM_ATTEN_CHAR_RSP_RESULT := 0;
  CM_SLAC_MATCH_REQ_MVF_LENGTH := 62;
  CM_SLAC_MATCH_CNF_MVF_LENGTH := 86;
  CM_VALIDATE_REQ_SIGNAL_TYPE := 0;
  CM_VALIDATE_REQ_RESULT_FAILURE := 2;
  CM_SET_KEY_REQ_KEY_TYPE_NMK := 1;
  CM_SET_KEY_REQ_PID_HLE := 4;
  CM_SET_KEY_REQ_PRN_UNUSED := 0;
  CM_SET_KEY_REQ_PMN_UNUSED := 0;
  CM_SET_KEY_REQ_CCO_CAP_NONE := 0;
  CM_SET_KEY_REQ_PEKS_NMK_KNOWN_TO_STA := 1;
  BROADCAST_MAC_ADDRESS := replicate 6 255;
  generate_nid_from_nmk := take 7
|}.

#[global] Instance iso_defs_laws : SlacDefsLaws iso_defs.
Proof. by constructor. Qed.

(** The machine of the laws. *)
#[global] Instance plain_fsm {C T Ev Out} (S : States C T Ev Out) : Fsm S :=
  let handle := fun ev =>
    let* r := state_handle_event ev in
    match r with
    | HANDLED_INTERNALLY => eret SUCCESS
    | PASS_ON => eret UNHANDLED
    | create_simple t =>
        state_leave ;;; emodify (assign this t) ;;; state_enter ;;; eret SUCCESS
    end in
  {| fsm_handle_event := handle;
     fsm_feed :=
       let* r := state_callback in
       match r with
       | no_value => eret (feed_value None)
       | call_back_in ms => eret (feed_value (Some ms))
       | raise ev =>
           let* h := handle ev in
           eret (match h with
                 | SUCCESS => transition
                 | UNHANDLED => unhandled_event
                 | INTERNAL_ERROR => internal_error
                 end)
       end;
     fsm_reset := fun t => emodify (assign this t) ;;; state_enter;
     feed_success := transition |}.

#[global] Instance plain_fsm_laws {C T Ev Out} (S : States C T Ev Out) : FsmLaws (plain_fsm S).
Proof. by split. Qed.

(** ** A charging point and a car *)

(** A clock that goes on by ten milliseconds with each reading. *)
Definition tick_clock (n : nat) : Z := Z.of_nat n * 10000000.
Definition some_draw (n : nat) : Z := (7 * Z.of_nat n + 3) mod 36.

Definition ev_address : bytes := [202; 254; 202; 254; 202; 254].
Definition evse_address : bytes := [110; 63; 70; 50; 191; 198].
Definition modem_address : bytes := [0; 1; 135; 14; 163; 85].
Definition example_run_id : bytes := [0; 1; 2; 3; 4; 5; 6; 7].

Definition no_message : HomeplugMessage := mkHomeplug [] (OTHER_MMTYPE 0).
Definition example_config : slac_module_config :=
  mkModuleConfig true 1000 10 true false false 100 500 false 100 10000 false true.
Definition detecting_config : slac_module_config :=
  mkModuleConfig true 1000 0 true false false 100 500 true 100 10000 false true.

Abbreviation evse_history clock conf ops :=
  (slac_history clock some_draw (slacImpl_context conf no_message) ops).

(** The modem answers, and the pilot leaves state A. *)
Definition setup : list evse_op :=
  [Round; Wake; Round; Wake; Round; Round;
   Message (mkHomeplug modem_address CM_SET_KEY_CNF); Notify; Wake; Round;
   Signal Event.ENTER_BCD; Wake; Round].

(** A message, and the round it wakes the thread for. *)
Definition from (mac : bytes) (m : slac_message) : list evse_op :=
  [Message (mkHomeplug mac m); Notify; Wake; Round].

Definition example_parm_req := CM_SLAC_PARM_REQ (mkParmReq 0 0 example_run_id).
Definition example_start_atten :=
  CM_START_ATTEN_CHAR_IND (mkStartAtten 0 0 10 6 1 ev_address example_run_id).
Definition example_sound (n : Z) :=
  CM_MNBC_SOUND_IND (mkSound 0 0 (replicate 17 0) n example_run_id (replicate 16 0)).
Definition example_profile := CM_ATTEN_PROFILE_IND (mkProfile ev_address 58 (Z.of_nat <$> seq 0 58)).
Definition example_rsp :=
  CM_ATTEN_CHAR_RSP (mkAttenRsp 0 0 ev_address example_run_id (replicate 17 0) (replicate 17 0) 0).
Definition example_match_req :=
  CM_SLAC_MATCH_REQ (mkMatchReq 0 0 62 (replicate 17 0) ev_address (replicate 17 0) evse_address
                       example_run_id).

Definition soundings (n : nat) : list evse_op :=
  concat (replicate n (from ev_address (example_sound 0) ++ from modem_address example_profile)).

(** Waits until the thread has been called back [n] times. *)
Definition pass_time (n : nat) : list evse_op := concat (replicate n [Wake; Round]).

Lemma tick_clock_steady n : tick_clock n <= tick_clock (S n).
Proof. unfold tick_clock. lia. Qed.

(** A car is matched. *)
Definition matching_ops : list evse_op :=
  setup ++ from ev_address example_parm_req ++ from ev_address example_start_atten
  ++ soundings 10 ++ pass_time 5 ++ from ev_address example_rsp
  ++ from ev_address example_match_req ++ [Round].

(** ** Histories with unexpected outcomes

    Runs of the machines where the code does something else than its comments
    or its configuration say. *)

Definition outputs (h : history Context evse_state evse_op slac_output) : list slac_output :=
  omap (fun e => match e with made o => Some o | did _ => None end) (log h).

Definition final_state (h : history Context evse_state evse_op slac_output) : evse_state :=
  this (machine (controller h)).

Definition session_key (h : history Context evse_state evse_op slac_output) : bytes :=
  session_nmk (slac_config (ctx (machine (controller h)))).

(** While the charging point waits for the link, any station that asks is sent
    the confirmation with the key: the request is not checked, nor who sends
    it. *)
Definition stranger : bytes := [1; 2; 3; 4; 5; 6].
Definition careless_req := CM_SLAC_MATCH_REQ (mkMatchReq 99 99 0 [] [] [] [] []).

Definition keys_sent_to (mac : bytes) (h : history Context evse_state evse_op slac_output)
  : list bytes :=
  omap (fun o => match o with
                 | send_raw_slac m (CM_SLAC_MATCH_CNF c) =>
                     if bool_decide (m = mac) then Some (mc_nmk c) else None
                 | _ => None
                 end) (outputs h).

Example key_sent_to_stranger :
  let h := evse_history tick_clock detecting_config (matching_ops ++ from stranger careless_req) in
  keys_sent_to stranger h = [session_key h].
Proof. vm_compute. reflexivity. Qed.

(** A confirmation of an earlier request to set the key, which comes after
    another reset, ends that reset: the new key was never sent to the modem, and
    yet cars will be told it. *)
Definition keys_set (h : history Context evse_state evse_op slac_output) : list bytes :=
  omap (fun o => match o with
                 | send_raw_slac _ (CM_SET_KEY_REQ r) => Some (sk_new_key r)
                 | _ => None
                 end) (outputs h).

Example stale_confirmation_accepted :
  let h := evse_history tick_clock example_config
    (setup ++ [Signal Event.RESET; Wake; Round; Signal Event.RESET;
               Message (mkHomeplug modem_address CM_SET_KEY_CNF); Notify; Wake; Round]) in
  final_state h = IdleState /\ length (keys_set h) = 2%nat /\ bool_decide (session_key h ∈ keys_set h) = false.
Proof. vm_compute. repeat split; reflexivity. Qed.

(** With the reset of the chip enabled and a modem that was not recognized, the
    machine stays in the reset of the chip: not even a reset leaves it. *)
Definition chip_reset_config : slac_module_config :=
  mkModuleConfig true 1000 0 true false true 100 500 false 100 10000 false true.

Example unknown_chip_never_reset :
  final_state (evse_history tick_clock chip_reset_config
    (setup ++ pass_time 3 ++ [Signal Event.RESET; Wake; Round; Signal Event.ENTER_BCD; Wake; Round]))
  = ResetChipState ResetChipSubState.SEND_RESET.
Proof. vm_compute. reflexivity. Qed.

(** With the detection of the link enabled and such a modem, no status is ever
    requested and the timeout is never looked at. *)
Definition slow_after (limit n : nat) : Z :=
  if (n <? limit)%nat then tick_clock n else tick_clock limit + Z.of_nat (n - limit) * 100000000000.

Example unknown_link_never_times_out :
  let h := evse_history (slow_after 50) detecting_config (matching_ops ++ pass_time 100) in
  match final_state h with WaitForLinkState_ w => wait_link_status_req_sent w | _ => true end = false.
Proof. vm_compute. reflexivity. Qed.

(** A negative adjustment wraps around: an attenuation of 3 dB less 10 dB is
    reported as 249 dB. *)
Example adjusted_attenuation_wraps :
  ac_aag (create_cm_atten_char_ind
            (mkMatchingSession MatchingSubState.SOUNDING ev_address example_run_id 0 true 1
               (replicate 58 3) false 0) (-10)) = replicate 58 249.
Proof. vm_compute. reflexivity. Qed.

(** Profiles go to the last session of a car, not to the first one found. *)
Example last_session_gets_profiles :
  find_last_of_mac [new_MatchingSession ev_address [1]; new_MatchingSession ev_address [2]] ev_address
  = Some 1%nat.
Proof. vm_compute. reflexivity. Qed.
