(* ===== verification/SlacProofs.v ===== *)
(** * SLAC at the charging point: the invariant

    The protocol of a matching as a monitor ([phase_of]) that reads what the
    controller was told and what it sent.  Every session of the machine is in
    the phase the monitor has for it; with this the machine only sends what
    the protocol allows ([log_ok]) and never does what is undefined. *)
From S2P Require Import Prelude Effects Slac SlacEvse.
From stdpp Require Import base tactics list numbers strings sets.
From Stdlib Require Import Lia.
Open Scope Z_scope.
Open Scope everest_scope.

(** ** The protocol *)

(** How far a car has come: it asked for the parameters, started the sounding,
    was sent the attenuation, acknowledged it, and got the key. *)
Inductive phase : Set := Unknown | Started | Sounding | Reported | Acknowledged | Confirmed.

Abbreviation evse_entry := (entry evse_op slac_output).
Abbreviation evse_log := (list evse_entry).
Abbreviation received m := (did (Message m)).
Abbreviation sent mac m := (made (send_raw_slac mac m)).

Section Protocol.
Context {D : SlacDefs}.

(** A step of the car with this address and run id. *)
Definition phase_step (key : bytes * bytes) (ph : phase) (e : evse_entry) : phase :=
  match e with
  | received (mkHomeplug mac (CM_SLAC_PARM_REQ m)) =>
      if bool_decide (key = (mac, pr_run_id m)) && validate_cm_slac_parm_req m then Started else ph
  | received (mkHomeplug mac (CM_START_ATTEN_CHAR_IND m)) =>
      if bool_decide (key = (mac, sa_run_id m)) && validate_cm_start_atten_char_ind m
      then match ph with Started => Sounding | _ => ph end else ph
  | sent mac (CM_ATTEN_CHAR_IND m) =>
      if bool_decide (key = (mac, ac_run_id m))
      then match ph with Sounding => Reported | _ => ph end else ph
  | received (mkHomeplug mac (CM_ATTEN_CHAR_RSP m)) =>
      if bool_decide (key = (mac, ar_run_id m)) && validate_cm_atten_char_rsp m
      then match ph with Reported => Acknowledged | _ => ph end else ph
  | sent mac (CM_SLAC_MATCH_CNF m) =>
      if bool_decide (key = (mac, mc_run_id m))
      then match ph with Acknowledged => Confirmed | _ => ph end else ph
  | _ => ph
  end.

Definition phase_of (key : bytes * bytes) (l : evse_log) : phase :=
  foldl (phase_step key) Unknown l.

Lemma phase_of_snoc key l e : phase_of key (l ++ [e]) = phase_step key (phase_of key l) e.
Proof. apply foldl_snoc. Qed.

(** The attenuation profiles that were received for a car, and their sum. *)
Definition profile_in (mac : bytes) (e : evse_entry) : option (list Z) :=
  match e with
  | received (mkHomeplug _ (CM_ATTEN_PROFILE_IND m)) =>
      if bool_decide (ap_pev_mac m = mac) && (ap_num_groups m =? Z.of_nat AAG_LIST_LEN)
      then Some (ap_aag m) else None
  | _ => None
  end.

Definition profiles (mac : bytes) (l : evse_log) : list (list Z) := omap (profile_in mac) l.

Definition sum_of (ps : list (list Z)) : list Z :=
  foldl (zip_with Z.add) (replicate AAG_LIST_LEN 0) ps.

(** The attenuation that is reported for these profiles. *)
Definition average (ps : list (list Z)) (offset : Z) : list Z :=
  match ps with
  | [] => replicate AAG_LIST_LEN 1
  | _ => (fun aag => u8 (Z.quot aag (Z.of_nat (length ps)) + offset)) <$> sum_of ps
  end.

(** The last signal about the link. *)
Definition ready_step (r : bool) (e : evse_entry) : bool :=
  match e with made (signalled_dlink_ready b) => b | _ => r end.
Definition ready (l : evse_log) : bool := foldl ready_step false l.

(** What may be sent after [l]. *)
Definition allowed (offset : Z) (l : evse_log) (e : evse_entry) : Prop :=
  match e with
  | sent mac (CM_ATTEN_CHAR_IND a) =>
      phase_of (mac, ac_run_id a) l ∈ [Sounding; Reported]
      /\ exists ps, ps `sublist_of` profiles mac l
                    /\ (length ps <= 10)%nat
                    /\ ac_num_sounds a = Z.of_nat (length ps)
                    /\ ac_aag a = average ps offset
  | sent mac (CM_SLAC_MATCH_CNF cnf) =>
      exists l' msg req,
        l = l' ++ [received msg] /\ get_payload msg = CM_SLAC_MATCH_REQ req /\ get_src_mac msg = mac
        /\ (validate_cm_slac_match_req req = true /\ mc_run_id cnf = mr_run_id req
            /\ phase_of (mac, mr_run_id req) l' = Acknowledged
            \/ exists mac', sent mac' (CM_SLAC_MATCH_CNF cnf) ∈ l')
  | made (signalled_dlink_ready b) =>
      ready l = negb b /\ (b = true -> exists mac cnf, sent mac (CM_SLAC_MATCH_CNF cnf) ∈ l)
  | _ => True
  end.

Definition log_ok (offset : Z) (l : evse_log) : Prop :=
  forall l1 e l2, l = l1 ++ e :: l2 -> allowed offset l1 e.

Lemma log_ok_nil offset : log_ok offset [].
Proof. intros l1 e l2 H. by destruct l1. Qed.

Lemma log_ok_snoc offset l e : log_ok offset l -> allowed offset l e -> log_ok offset (l ++ [e]).
Proof.
  intros Hl He l1 e' l2 H. destruct l2 as [|e2 l2 _] using rev_ind.
  - apply app_inj_tail in H as [<- <-]. done.
  - rewrite app_comm_cons, app_assoc in H. apply app_inj_tail in H as [-> ->]. by eapply Hl.
Qed.

(** ** The sessions of the machine *)

Definition key (s : MatchingSession) : bytes * bytes := (ev_mac s, run_id s).

Definition phase_of_state (st : MatchingSubState.t) : option phase :=
  match st with
  | MatchingSubState.WAIT_FOR_START_ATTEN_CHAR => Some Started
  | MatchingSubState.SOUNDING | MatchingSubState.FINALIZE_SOUNDING => Some Sounding
  | MatchingSubState.WAIT_FOR_ATTEN_CHAR_RSP => Some Reported
  | MatchingSubState.WAIT_FOR_SLAC_MATCH => Some Acknowledged
  | MatchingSubState.MATCH_COMPLETE => Some Confirmed
  | MatchingSubState.RECEIVED_SLAC_MATCH | MatchingSubState.FAILED => None
  end.

(** A session that has not failed has a timeout, and is in the phase of its
    car; it has added up profiles of that car. *)
Record session_ok (l : evse_log) (s : MatchingSession) : Prop := {
  ok_timeout : session_state s <> MatchingSubState.FAILED -> timeout_active s = true;
  ok_phase : session_state s <> MatchingSubState.FAILED ->
             phase_of_state (session_state s) = Some (phase_of (key s) l);
  ok_profiles : exists ps, ps `sublist_of` profiles (ev_mac s) l
                           /\ captured_sounds s = Z.of_nat (length ps)
                           /\ captured_aags s = sum_of ps
                           /\ (length ps <= 10)%nat
                           /\ (session_state s ∈ [MatchingSubState.WAIT_FOR_START_ATTEN_CHAR;
                                                  MatchingSubState.SOUNDING] ->
                               (length ps < 10)%nat)
}.

Definition complete (m : MatchingState) : Prop :=
  exists s, s ∈ sessions m /\ session_state s = MatchingSubState.MATCH_COMPLETE.

Definition cnf_sent (l : evse_log) (c : option cm_slac_match_cnf) : Prop :=
  exists cnf mac, c = Some cnf /\ sent mac (CM_SLAC_MATCH_CNF cnf) ∈ l.

Record matching_ok (l : evse_log) (m : MatchingState) : Prop := {
  ok_keys : NoDup (key <$> sessions m);
  ok_seen : seen_slac_parm_req m = false <-> sessions m = [];
  ok_sessions : Forall (session_ok l) (sessions m);
  ok_complete : complete m -> cnf_sent l (match_cnf_message m)
}.

(** An entry that is not about a car leaves its session as it is. *)
Definition quiet_for (k : bytes * bytes) (e : evse_entry) : Prop :=
  forall ph, phase_step k ph e = ph.

Lemma phase_of_quiet k l es : Forall (quiet_for k) es -> phase_of k (l ++ es) = phase_of k l.
Proof.
  unfold phase_of. rewrite foldl_app. generalize (foldl (phase_step k) Unknown l) as ph.
  intros ph H. revert ph. induction H as [|e es He _ IH]; intros ph; [done|]. cbn. by rewrite He.
Qed.

Lemma profiles_app mac l es : profiles mac (l ++ es) = profiles mac l ++ profiles mac es.
Proof. apply omap_app. Qed.

Lemma sublist_profiles ps mac l es :
  ps `sublist_of` profiles mac l -> ps `sublist_of` profiles mac (l ++ es).
Proof. intros H. rewrite profiles_app. by apply sublist_inserts_r. Qed.

Lemma session_ok_quiet l es s :
  Forall (quiet_for (key s)) es -> session_ok l s -> session_ok (l ++ es) s.
Proof.
  intros Hq [Ht Hp (ps & Hps & H)]. constructor; [done| |].
  - by rewrite phase_of_quiet.
  - exists ps. split; [by apply sublist_profiles|done].
Qed.

Lemma cnf_sent_app l es c : cnf_sent l c -> cnf_sent (l ++ es) c.
Proof. intros (cnf & mac & ? & ?). exists cnf, mac. split; [done|]. apply elem_of_app. by left. Qed.

(** Nobody's session is concerned. *)
Lemma matching_ok_quiet l es m :
  (forall s, s ∈ sessions m -> Forall (quiet_for (key s)) es) ->
  matching_ok l m -> matching_ok (l ++ es) m.
Proof.
  intros Hq [Hk Hs Ho Hc]. constructor; [done..| |].
  - rewrite Forall_forall in Ho |- *. intros s Hin. apply session_ok_quiet; auto.
  - intros H. by apply cnf_sent_app, Hc.
Qed.

Lemma elem_of_insert_session (ss : list MatchingSession) i s' x :
  x ∈ <[i:=s']> ss -> x = s' \/ exists j, j <> i /\ ss !! j = Some x.
Proof.
  intros [j Hj]%list_elem_of_lookup. destruct (decide (i = j)) as [<-|Hne].
  - apply list_lookup_insert_Some in Hj as [(? & ? & ?)|[? ?]]; [by left|done].
  - rewrite list_lookup_insert_ne in Hj by done. right. eauto.
Qed.

(** One session changes, and what happened is about its car alone. *)
Lemma matching_ok_put l es m m' i s s' :
  matching_ok l m -> sessions m !! i = Some s -> key s' = key s ->
  sessions m' = <[i:=s']> (sessions m) -> seen_slac_parm_req m' = true ->
  session_ok (l ++ es) s' ->
  (forall k, k <> key s -> Forall (quiet_for k) es) ->
  (complete m' -> cnf_sent (l ++ es) (match_cnf_message m')) ->
  matching_ok (l ++ es) m'.
Proof.
  intros [Hk Hs Ho Hc] Hi Hkey Hss Hseen Hs' Hq Hcnf.
  assert (i < length (sessions m))%nat as Hlt by by eapply lookup_lt_Some.
  constructor; [| | |done].
  - rewrite Hss, list_fmap_insert, Hkey, list_insert_id; [done|].
    by rewrite list_lookup_fmap, Hi.
  - rewrite Hseen, Hss. split; [done|]. intros H. apply (f_equal length) in H.
    rewrite length_insert in H. cbn in H. lia.
  - rewrite Hss. apply Forall_forall. intros x [->|(j & Hne & Hj)]%elem_of_insert_session; [done|].
    rewrite Forall_lookup in Ho. apply session_ok_quiet; [|by eapply Ho].
    apply Hq. intros E. apply Hne. eapply NoDup_lookup; [exact Hk|..];
      rewrite list_lookup_fmap; [by rewrite Hj|rewrite Hi; cbn; by rewrite E].
Qed.

(** A session is added. *)
Lemma matching_ok_add l es m m' s' :
  matching_ok l m -> key s' ∉ key <$> sessions m ->
  sessions m' = sessions m ++ [s'] -> seen_slac_parm_req m' = true ->
  session_ok (l ++ es) s' -> session_state s' <> MatchingSubState.MATCH_COMPLETE ->
  match_cnf_message m' = match_cnf_message m ->
  (forall k, k <> key s' -> Forall (quiet_for k) es) ->
  matching_ok (l ++ es) m'.
Proof.
  intros [Hk Hs Ho Hc] Hnew Hss Hseen Hs' Hst Hmc Hq. constructor.
  - rewrite Hss, fmap_app. cbn. apply NoDup_app. split; [done|]. split; [|apply NoDup_singleton].
    intros x Hx Hx'. apply list_elem_of_singleton in Hx' as ->. done.
  - rewrite Hseen, Hss. split; [done|]. by destruct (sessions m).
  - rewrite Hss. apply Forall_app. split; [|by apply Forall_singleton].
    rewrite Forall_forall in Ho |- *. intros x Hx. apply session_ok_quiet; [|auto].
    apply Hq. intros E. apply Hnew. apply list_elem_of_fmap. by exists x.
  - rewrite Hmc. intros (x & Hx & Hxs). rewrite Hss in Hx. apply elem_of_app in Hx as [Hx|Hx].
    + apply cnf_sent_app, Hc. by exists x.
    + apply list_elem_of_singleton in Hx as ->. done.
Qed.

Lemma find_session_Some ss mac id i :
  find_session ss mac id = Some i -> exists s, ss !! i = Some s /\ key s = (mac, id).
Proof.
  revert i. induction ss as [|s ss IH]; intros i; cbn; [done|].
  unfold is_identified_by. destruct (same_bytes id (run_id s)) eqn:E1; cbn.
  - destruct (same_bytes mac (ev_mac s)) eqn:E2.
    + intros [= <-]. exists s. apply same_bytes_spec in E1 as ->, E2 as ->. done.
    + intros (j & ? & ->)%fmap_Some. cbn. by apply IH.
  - intros (j & ? & ->)%fmap_Some. cbn. by apply IH.
Qed.

Lemma find_session_None ss mac id :
  find_session ss mac id = None -> (mac, id) ∉ key <$> ss.
Proof.
  induction ss as [|s ss IH]; cbn; [intros _; apply not_elem_of_nil|].
  destruct (is_identified_by mac id s) eqn:E; [done|]. intros H%fmap_None.
  apply not_elem_of_cons. split; [|by apply IH]. intros K. unfold key in K. simplify_eq.
  unfold is_identified_by in E. by rewrite !(proj2 (same_bytes_spec _ _)) in E.
Qed.

Lemma find_last_of_mac_Some ss mac i :
  find_last_of_mac ss mac = Some i -> exists s, ss !! i = Some s /\ ev_mac s = mac.
Proof.
  revert i. induction ss as [|s ss IH]; intros i; cbn; [done|].
  destruct (find_last_of_mac ss mac) as [j|].
  - intros [= <-]. by apply IH.
  - destruct (same_bytes mac (ev_mac s)) eqn:E; [|done]. intros [= <-].
    exists s. by apply same_bytes_spec in E as ->.
Qed.
End Protocol.

(** ** Programs on a session *)

Section Sessions.
Context {D : SlacDefs} (clock : nat -> Z).
Abbreviation obj := (object Context MatchingState).
Implicit Types (o : obj) (l : list slac_output).

Definition put (i : nat) (s : MatchingSession) (o : obj) : obj :=
  update this (update sessions (<[i:=s]>)) o.

Lemma alter_insert_session (f : MatchingSession -> MatchingSession) (i : nat)
    (ss : list MatchingSession) s :
  ss !! i = Some s -> alter f i ss = <[i:=f s]> ss.
Proof.
  intros Hi. apply list_eq. intros j. destruct (decide (i = j)) as [<-|Hne].
  - rewrite list_lookup_alter_eq, Hi, list_lookup_insert_eq; [done|by eapply lookup_lt_Some].
  - by rewrite list_lookup_alter_ne, list_lookup_insert_ne.
Qed.

Lemma lookup_put i s s0 o :
  sessions (this o) !! i = Some s0 -> sessions (this (put i s o)) !! i = Some s.
Proof. intros Hi. apply list_lookup_insert_eq. by eapply lookup_lt_Some. Qed.

Lemma put_put i s s' o : put i s (put i s' o) = put i s o.
Proof. unfold put, update. cbn. by rewrite list_insert_insert_eq. Qed.

Lemma put_tick i s o : put i s (update readings S o) = update readings S (put i s o).
Proof. done. Qed.

Lemma wp_session_at i s Q o l :
  sessions (this o) !! i = Some s -> Q s o l -> wp (session_at i) Q o l.
Proof. intros Hi HQ. unfold session_at. apply wp_get. rewrite Hi. by apply wp_ret. Qed.

Lemma wp_on_session i f s Q o l :
  sessions (this o) !! i = Some s -> Q tt (put i (f s) o) l -> wp (on_session i f) Q o l.
Proof.
  intros Hi HQ. apply wp_modify. unfold put, update in *. cbn in *.
  by rewrite (alter_insert_session f i _ s Hi).
Qed.

(** A session whose timeout has been set. *)
Definition timed (t : Z) (s : MatchingSession) : MatchingSession :=
  assign timeout_active true (assign next_timeout t s).

Lemma wp_set_next_timeout i d s Q o l :
  sessions (this o) !! i = Some s ->
  Q tt (update readings S (put i (timed (clock (readings o) + milliseconds d) s) o)) l ->
  wp (set_next_timeout clock i d) Q o l.
Proof.
  intros Hi HQ. apply wp_bind, wp_now. by apply (wp_on_session i _ s).
Qed.

Lemma wp_config {T} Q (o : object Context T) l :
  Q (slac_config (ctx o)) o l -> wp config Q o l.
Proof. intros HQ. by apply wp_get, wp_ret. Qed.

Lemma wp_when_set {T} field x Q (o : object Context T) l :
  (field (callbacks (ctx o)) = true -> Q tt o (l ++ [x])) ->
  (field (callbacks (ctx o)) = false -> Q tt o l) -> wp (when_set field x) Q o l.
Proof.
  intros Ht Hf. apply wp_get, wp_if; intros; [apply wp_emit|apply wp_ret]; auto.
Qed.

Lemma wp_session_in st mac id Q o l :
  NoDup (key <$> sessions (this o)) ->
  ((forall s, s ∈ sessions (this o) -> key s = (mac, id) -> session_state s <> st) -> Q None o l) ->
  (forall i s, sessions (this o) !! i = Some s -> key s = (mac, id) -> session_state s = st ->
     Q (Some i) o l) ->
  wp (session_in st mac id) Q o l.
Proof.
  intros Hnd HN HS. unfold session_in. apply wp_get.
  destruct (find_session (sessions (this o)) mac id) as [i|] eqn:Ef.
  - apply find_session_Some in Ef as (s & Hi & Hk). apply wp_bind.
    apply (wp_session_at i s); [done|]. apply wp_ret. case_bool_decide as Hst; [eauto|].
    apply HN. intros s' [j Hj]%list_elem_of_lookup Hk'.
    assert (i = j) as <-.
    { eapply NoDup_lookup; [exact Hnd|..]; rewrite list_lookup_fmap;
        [by rewrite Hi|rewrite Hj; cbn; by rewrite Hk, Hk']. }
    by simplify_eq.
  - apply wp_ret, HN. intros s Hs Hk. apply find_session_None in Ef. destruct Ef.
    rewrite <- Hk. apply list_elem_of_fmap. by exists s.
Qed.

(** The log with one more output. *)
Lemma snoc_log (l0 : evse_log) l x : l0 ++ (made <$> (l ++ [x])) = (l0 ++ (made <$> l)) ++ [made x].
Proof. by rewrite fmap_app, app_assoc. Qed.
End Sessions.

(** ** Messages *)

Section Messages.
Context {D : SlacDefs} {L : SlacDefsLaws D} (clock : nat -> Z).
Context (offset : Z) (cbs : ContextCallbacks).
Abbreviation obj := (object Context MatchingState).
Implicit Types (o : obj) (out : list slac_output) (l : evse_log).

Definition ctx_ok (c : Context) : Prop :=
  callbacks c = cbs /\ sounding_atten_adjustment (slac_config c) = offset.

(** The invariant during an operation that began with the log [l]. *)
Record matching_inv (l : evse_log) (o : obj) (out : list slac_output) : Prop := {
  inv_ctx : ctx_ok (ctx o);
  inv_matching : matching_ok (l ++ (made <$> out)) (this o);
  inv_log : log_ok offset (l ++ (made <$> out));
  inv_ready : ready (l ++ (made <$> out)) = false
}.

(** An output that no car's phase depends on. *)
Definition neutral (x : slac_output) : Prop :=
  match x with
  | send_raw_slac _ (CM_ATTEN_CHAR_IND _ | CM_SLAC_MATCH_CNF _) => False
  | signalled_dlink_ready _ => False
  | _ => True
  end.

Lemma neutral_quiet k x : neutral x -> quiet_for k (made x).
Proof. by destruct x as [? []| | | | |]. Qed.

Lemma neutral_allowed l x : neutral x -> allowed offset l (made x).
Proof. by destruct x as [? []| | | | |]. Qed.

Lemma neutral_ready r x : neutral x -> ready_step r (made x) = r.
Proof. by destruct x as [? []| | | | |]. Qed.

Lemma ready_snoc l e : ready (l ++ [e]) = ready_step (ready l) e.
Proof. apply foldl_snoc. Qed.

Lemma matching_inv_emit l o out x :
  neutral x -> matching_inv l o out -> matching_inv l o (out ++ [x]).
Proof.
  intros Hx [Hc Hm Hl Hr]. constructor; [done|rewrite snoc_log..].
  - apply matching_ok_quiet; [|done]. intros s _. apply Forall_singleton. by apply neutral_quiet.
  - apply log_ok_snoc; [done|]. by apply neutral_allowed.
  - by rewrite ready_snoc, neutral_ready.
Qed.

Lemma ready_received l (op : evse_op) : ready (l ++ [did op]) = ready l.
Proof. by rewrite ready_snoc. Qed.

Lemma log_ok_did l (op : evse_op) : log_ok offset l -> log_ok offset (l ++ [did op]).
Proof. intros H. by apply log_ok_snoc. Qed.

(** What an operation of the matching state starts from. *)
Record matching_pre (l : evse_log) (o : obj) : Prop := {
  pre_ctx : ctx_ok (ctx o);
  pre_matching : matching_ok l (this o);
  pre_log : log_ok offset l;
  pre_ready : ready l = false
}.

(** The message changes nothing. *)
Lemma matching_inv_ignored l o (op : evse_op) :
  matching_pre l o ->
  (forall s, s ∈ sessions (this o) ->
     phase_of_state (session_state s) = Some (phase_of (key s) l) ->
     phase_step (key s) (phase_of (key s) l) (did op) = phase_of (key s) l) ->
  matching_inv (l ++ [did op]) o [].
Proof.
  intros [Hc [Hk Hs Ho Hcm] Hl Hr] Hq.
  constructor; rewrite ?app_nil_r; [done| |by apply log_ok_did|by rewrite ready_received].
  constructor; [done..| |intros H; by apply cnf_sent_app, Hcm].
  rewrite Forall_forall in Ho |- *. intros s Hin. destruct (Ho s Hin) as [Ht Hp (ps & Hps & Hrest)].
  constructor; [done| |].
  - intros Hf. rewrite phase_of_snoc, Hq; auto.
  - exists ps. split; [by apply sublist_profiles|done].
Qed.

(** The message changes one session, and nothing has been sent yet. *)
Lemma matching_inv_put l (op : evse_op) o o' i s s' :
  matching_pre l o -> sessions (this o) !! i = Some s -> key s' = key s ->
  ctx o' = ctx o -> sessions (this o') = <[i:=s']> (sessions (this o)) ->
  seen_slac_parm_req (this o') = true -> match_cnf_message (this o') = match_cnf_message (this o) ->
  (session_state s' = MatchingSubState.MATCH_COMPLETE ->
   session_state s = MatchingSubState.MATCH_COMPLETE) ->
  session_ok (l ++ [did op]) s' ->
  (forall k, k <> key s -> quiet_for k (did op)) ->
  matching_inv (l ++ [did op]) o' [].
Proof.
  intros [Hc Hm Hl Hr] Hi Hk Hctx Hss Hseen Hmc Hcomp Hs' Hq.
  constructor; rewrite ?app_nil_r; [by rewrite Hctx| |by apply log_ok_did|by rewrite ready_received].
  eapply matching_ok_put; try done.
  - intros k Hne. apply Forall_singleton. by apply Hq.
  - intros (x & Hx & Hxs). rewrite Hmc. apply cnf_sent_app. destruct Hm as [_ _ _ Hcm]. apply Hcm.
    rewrite Hss in Hx. apply elem_of_insert_session in Hx as [->|(j & _ & Hj)].
    + exists s. split; [by eapply list_elem_of_lookup_2|auto].
    + exists x. split; [by eapply list_elem_of_lookup_2|done].
Qed.

Lemma pre_session l o i s :
  matching_pre l o -> sessions (this o) !! i = Some s ->
  session_ok l s /\ seen_slac_parm_req (this o) = true.
Proof.
  intros [_ [_ Hseen Ho _] _ _] Hi. split; [by eapply Forall_lookup_1|].
  destruct (seen_slac_parm_req (this o)) eqn:E; [done|].
  by rewrite (proj1 Hseen eq_refl) in Hi.
Qed.

(** A session that goes on to the next phase of its car. *)
Lemma session_ok_next l e s s' :
  session_ok l s -> key s' = key s -> captured_sounds s' = captured_sounds s ->
  captured_aags s' = captured_aags s -> timeout_active s' = true ->
  phase_of_state (session_state s') = Some (phase_step (key s) (phase_of (key s) l) e) ->
  (session_state s' ∈ [MatchingSubState.WAIT_FOR_START_ATTEN_CHAR; MatchingSubState.SOUNDING] ->
   session_state s ∈ [MatchingSubState.WAIT_FOR_START_ATTEN_CHAR; MatchingSubState.SOUNDING]) ->
  session_ok (l ++ [e]) s'.
Proof.
  intros [_ _ (ps & Hps & Hn & Ha & Hle & Hlt)] Hk Hcs Hca Ht Hph Hearly. constructor; [done| |].
  - intros _. by rewrite Hk, phase_of_snoc.
  - exists ps. unfold key in Hk. simplify_eq.
    rewrite Hcs, Hca. replace (ev_mac s') with (ev_mac s) by congruence.
    repeat split; try done; [by apply sublist_profiles|auto].
Qed.

Ltac other_car := intros ph; cbn; rewrite bool_decide_eq_false_2 by (done || congruence); done.
Ltac this_car := cbn; rewrite bool_decide_eq_true_2 by (done || congruence).

Abbreviation kept l msg := (fun _ o' out => matching_inv (l ++ [received msg]) o' out).

(** A message that is for a session in the state [st] and comes from its
    car: with no such session, no phase changes. *)
Lemma no_session_ignored l o mac id st ph0 (op : evse_op) :
  matching_pre l o ->
  (forall s, s ∈ sessions (this o) -> key s = (mac, id) -> session_state s <> st) ->
  (forall st', phase_of_state st' = Some ph0 -> st' = st) ->
  (forall k ph, k <> (mac, id) \/ ph <> ph0 -> phase_step k ph (did op) = ph) ->
  matching_inv (l ++ [did op]) o [].
Proof.
  intros Hpre Hno Hst Hstep. apply matching_inv_ignored; [done|]. intros s Hs Hp.
  apply Hstep. destruct (decide (key s = (mac, id))) as [Hk|]; [right|by left].
  intros E. apply (Hno s Hs Hk), Hst. by rewrite Hp, E.
Qed.

(** A message that is not valid. *)
Ltac invalid Hv :=
  apply wp_ret; apply matching_inv_ignored; [done|]; intros s _ _; cbn;
  apply negb_true_iff in Hv; by rewrite Hv, andb_false_r.

(** A message that takes its session one phase on. *)
Lemma advance_kept l (op : evse_op) o i s st d :
  matching_pre l o -> sessions (this o) !! i = Some s ->
  st <> MatchingSubState.MATCH_COMPLETE ->
  (st ∈ [MatchingSubState.WAIT_FOR_START_ATTEN_CHAR; MatchingSubState.SOUNDING] ->
   session_state s ∈ [MatchingSubState.WAIT_FOR_START_ATTEN_CHAR; MatchingSubState.SOUNDING]) ->
  (forall ph, phase_of_state (session_state s) = Some ph ->
     phase_of_state st = Some (phase_step (key s) ph (did op))) ->
  session_state s <> MatchingSubState.FAILED ->
  (forall k, k <> key s -> quiet_for k (did op)) ->
  wp (set_session_state i st ;;; set_next_timeout clock i d)
    (fun _ o' out => matching_inv (l ++ [did op]) o' out) o [].
Proof.
  intros Hpre Hi Hst Hearly Hph Hf Hq. destruct (pre_session _ _ _ _ Hpre Hi) as [Hs Hseen].
  apply wp_bind. apply (wp_on_session i _ s); [done|].
  eapply (wp_set_next_timeout clock); [by eapply lookup_put|]. rewrite put_put.
  eapply (matching_inv_put l _ o _ i s (timed _ (assign session_state _ s))); try done.
  eapply session_ok_next; try done. apply Hph. by apply Hs.
Qed.

Lemma start_atten_kept l o mac m :
  matching_pre l o ->
  wp (handle_cm_start_atten_char_ind clock mac m)
    (kept l (mkHomeplug mac (CM_START_ATTEN_CHAR_IND m))) o [].
Proof.
  intros Hpre. unfold handle_cm_start_atten_char_ind. apply wp_if; intros Hv; [invalid Hv|].
  apply negb_false_iff in Hv. apply wp_bind, wp_session_in; [by apply Hpre| |].
  - intros Hno. apply wp_ret. eapply (no_session_ignored l o _ _ _ Started); [done|exact Hno|by intros []|].
    intros k ph Hor. cbn. case_bool_decide; [|done]. destruct Hor; [done|]. rewrite Hv. by destruct ph.
  - intros i s Hi Hk Hst. eapply advance_kept; [done|done|done| | |by rewrite Hst|].
    + rewrite Hst. intros _. by left.
    + rewrite Hst. intros ph [= <-]. this_car. by rewrite Hv.
    + intros k Hne. other_car.
Qed.

Lemma atten_rsp_kept l o mac m :
  matching_pre l o ->
  wp (handle_cm_atten_char_rsp clock mac m)
    (kept l (mkHomeplug mac (CM_ATTEN_CHAR_RSP m))) o [].
Proof.
  intros Hpre. unfold handle_cm_atten_char_rsp. apply wp_if; intros Hv; [invalid Hv|].
  apply negb_false_iff in Hv. apply wp_bind, wp_session_in; [by apply Hpre| |].
  - intros Hno. apply wp_ret. eapply (no_session_ignored l o _ _ _ Reported); [done|exact Hno|by intros []|].
    intros k ph Hor. cbn. case_bool_decide; [|done]. destruct Hor; [done|]. rewrite Hv. by destruct ph.
  - intros i s Hi Hk Hst. eapply advance_kept; [done|done|done|set_solver| |by rewrite Hst|].
    + rewrite Hst. intros ph [= <-]. this_car. by rewrite Hv.
    + intros k Hne. other_car.
Qed.

(** A message that is not about the phase of any car. *)
Lemma plain_message_ignored l o (op : evse_op) :
  matching_pre l o -> (forall k, quiet_for k (did op)) -> matching_inv (l ++ [did op]) o [].
Proof. intros Hpre Hq. apply matching_inv_ignored; [done|]. intros s _ _. apply Hq. Qed.

Lemma mnbc_sound_kept l o mac m :
  matching_pre l o ->
  wp (handle_cm_mnbc_sound_ind mac m) (kept l (mkHomeplug mac (CM_MNBC_SOUND_IND m))) o [].
Proof.
  intros Hpre. unfold handle_cm_mnbc_sound_ind.
  apply wp_if; intros _; [by apply wp_ret, plain_message_ignored|].
  apply wp_bind, wp_session_in; [by apply Hpre|intros _; by apply wp_ret, plain_message_ignored|].
  intros i s Hi Hk Hst. destruct (pre_session _ _ _ _ Hpre Hi) as [Hs Hseen].
  apply (wp_on_session i _ s); [done|].
  eapply (matching_inv_put l _ o _ i s (assign received_mnbc_sound true s)); try done.
  eapply session_ok_next; try done; [apply Hs|apply Hs]; cbn; by rewrite Hst.
Qed.

Lemma validate_kept l o mac :
  matching_pre l o ->
  wp (handle_cm_validate_req mac) (kept l (mkHomeplug mac CM_VALIDATE_REQ)) o [].
Proof. intros Hpre. apply wp_emit, matching_inv_emit; [done|]. by apply plain_message_ignored. Qed.

(** A car that asks for the parameters starts anew. *)
Lemma new_session_ok l mac m t :
  validate_cm_slac_parm_req m = true ->
  session_ok (l ++ [received (mkHomeplug mac (CM_SLAC_PARM_REQ m))])
    (timed t (new_MatchingSession mac (pr_run_id m))).
Proof.
  intros Hv. constructor; [done| |].
  - intros _. rewrite phase_of_snoc. this_car; by rewrite Hv.
  - exists []. split; [apply sublist_nil_l|]. repeat split; cbn; lia.
Qed.

Lemma parm_req_kept l o mac m :
  matching_pre l o ->
  wp (handle_cm_slac_parm_req clock mac m) (kept l (mkHomeplug mac (CM_SLAC_PARM_REQ m))) o [].
Proof.
  intros Hpre. unfold handle_cm_slac_parm_req. apply wp_if; intros Hv; [invalid Hv|].
  apply negb_false_iff in Hv. apply wp_bind, wp_modify, wp_get. cbn.
  set (o1 := update this (assign seen_slac_parm_req true) o).
  assert (forall i s o2, sessions (this o2) !! i = Some s -> ctx o2 = ctx o ->
    matching_inv (l ++ [received (mkHomeplug mac (CM_SLAC_PARM_REQ m))]) o2 [] ->
    wp (let* s := session_at i in
        let param_confirm := create_cm_slac_parm_cnf s in
        send_slac_message (pc_forwarding_sta param_confirm) (CM_SLAC_PARM_CNF param_confirm) ;;;
        signal_cm_slac_parm_req mac)
      (kept l (mkHomeplug mac (CM_SLAC_PARM_REQ m))) o2 []) as Htail.
  { intros i s o2 Hi Hctx Hinv. apply wp_bind, (wp_session_at i s); [done|].
    apply wp_bind, wp_emit. apply wp_when_set; intros _.
    - apply matching_inv_emit; [done|]. by apply matching_inv_emit.
    - by apply matching_inv_emit. }
  destruct (find_session (sessions (this o)) mac (pr_run_id m)) as [i|] eqn:Ef.
  - apply find_session_Some in Ef as (s & Hi & Hk).
    apply wp_bind, wp_bind, (wp_on_session i _ s); [done|]. apply wp_ret.
    apply wp_bind. eapply (wp_set_next_timeout clock); [by eapply (lookup_put i _ s)|].
    rewrite put_put. eapply Htail; [by eapply (lookup_put i _ s)|done|].
    eapply (matching_inv_put l _ o _ i s (timed _ (new_MatchingSession mac (pr_run_id m)))); try done.
    + by apply new_session_ok.
    + intros k Hne. other_car.
  - apply wp_bind, wp_bind, wp_modify, wp_ret.
    apply wp_bind. eapply (wp_set_next_timeout clock).
    { cbn. by rewrite lookup_app_r, Nat.sub_diag by done. }
    eapply Htail.
    { eapply (lookup_put _ _ (new_MatchingSession mac (pr_run_id m))). cbn.
      by rewrite lookup_app_r, Nat.sub_diag by done. }
    { done. }
    destruct Hpre as [Hc Hm Hl Hr].
    constructor; rewrite ?app_nil_r; [done| |by apply log_ok_did|by rewrite ready_received].
    eapply (matching_ok_add l _ (this o) _ (timed _ (new_MatchingSession mac (pr_run_id m))));
      [done|by apply find_session_None| |done|..].
    + cbn. rewrite insert_app_r_alt, Nat.sub_diag by done. done.
    + by apply new_session_ok.
    + done.
    + done.
    + intros k Hne. apply Forall_singleton. other_car.
Qed.

(** A profile is added to the session. *)
Definition captured (aag : list Z) (s : MatchingSession) : MatchingSession :=
  update captured_sounds (Z.add 1) (update captured_aags (fun aags => zip_with Z.add aags aag) s).

Lemma captured_ok l src m s s' :
  session_ok l s -> session_state s = MatchingSubState.SOUNDING ->
  ap_pev_mac m = ev_mac s -> ap_num_groups m = Z.of_nat AAG_LIST_LEN ->
  key s' = key s -> timeout_active s' = true ->
  captured_sounds s' = 1 + captured_sounds s ->
  captured_aags s' = zip_with Z.add (captured_aags s) (ap_aag m) ->
  session_state s' = (if captured_sounds s' <? CM_SLAC_PARM_CNF_NUM_SOUNDS
                      then MatchingSubState.SOUNDING else MatchingSubState.FINALIZE_SOUNDING) ->
  session_ok (l ++ [received (mkHomeplug src (CM_ATTEN_PROFILE_IND m))]) s'.
Proof.
  intros [_ Hp (ps & Hps & Hn & Ha & _ & Hlt)] Hst Hmac Hg Hk Ht Hn' Ha' Hst'.
  rewrite num_sounds_ten in Hst'. constructor; [done| |].
  - intros _. rewrite Hk, phase_of_snoc. cbn. rewrite <- Hp, Hst', Hst by by rewrite Hst.
    by destruct (_ <? 10).
  - rewrite Hst in Hlt. specialize (Hlt ltac:(set_solver)).
    exists (ps ++ [ap_aag m]). unfold key in Hk. replace (ev_mac s') with (ev_mac s) by congruence.
    rewrite length_app. cbn. repeat split.
    + rewrite profiles_app. apply sublist_app; [done|]. cbn.
      by rewrite bool_decide_eq_true_2, Hg, Z.eqb_refl.
    + lia.
    + rewrite Ha', Ha. unfold sum_of. by rewrite foldl_snoc.
    + lia.
    + rewrite Hst'. destruct (Z.ltb_spec (captured_sounds s') 10); [lia|set_solver].
Qed.

Lemma profile_kept l o src m :
  matching_pre l o ->
  wp (handle_cm_atten_profile_ind clock m) (kept l (mkHomeplug src (CM_ATTEN_PROFILE_IND m))) o [].
Proof.
  intros Hpre. unfold handle_cm_atten_profile_ind. apply wp_get.
  destruct (find_last_of_mac _ _) as [i|] eqn:Ef; [|by apply wp_ret, plain_message_ignored].
  apply find_last_of_mac_Some in Ef as (s & Hi & Hmac).
  destruct (pre_session _ _ _ _ Hpre Hi) as [Hs Hseen].
  apply wp_bind, (wp_session_at i s); [done|].
  apply wp_if; intros Hst; [by apply wp_ret, plain_message_ignored|].
  apply negb_false_iff, bool_decide_eq_true in Hst.
  apply wp_if; intros Hg; [by apply wp_ret, plain_message_ignored|].
  apply negb_false_iff, Z.eqb_eq in Hg.
  apply wp_bind, (wp_on_session i _ s); [done|].
  apply wp_bind. eapply wp_on_session; [by eapply lookup_put|]. rewrite put_put.
  apply wp_bind. eapply wp_session_at; [by eapply lookup_put|].
  apply wp_if; intros Hn; cbn in Hn.
  - apply wp_ret. eapply (matching_inv_put l _ o _ i s (captured (ap_aag m) s)); try done.
    eapply (captured_ok l src m s); try done; cbn; [by apply Hs; rewrite Hst|by rewrite Hn].
  - apply wp_bind. eapply wp_on_session; [by eapply lookup_put|]. rewrite put_put.
    eapply (wp_set_next_timeout clock); [by eapply lookup_put|]. rewrite put_put.
    eapply (matching_inv_put l _ o _ i s (timed _ (assign session_state _ (captured (ap_aag m) s)))); try done.
    eapply (captured_ok l src m s); try done; cbn. by rewrite Hn.
Qed.

(** The key is sent to a car that has acknowledged the attenuation. *)
Lemma match_req_kept l o mac m :
  matching_pre l o ->
  wp (handle_cm_slac_match_req clock mac m) (kept l (mkHomeplug mac (CM_SLAC_MATCH_REQ m))) o [].
Proof.
  intros Hpre. unfold handle_cm_slac_match_req.
  apply wp_if; intros Hv; [by apply wp_ret, plain_message_ignored|].
  apply negb_false_iff in Hv.
  apply wp_bind, wp_session_in; [by apply Hpre|intros _; by apply wp_ret, plain_message_ignored|].
  intros i s Hi Hk Hst. destruct (pre_session _ _ _ _ Hpre Hi) as [Hs Hseen].
  apply wp_bind, wp_config. set (nmk := if debug_simulate_failed_matching _ then _ else _).
  set (cnf := create_cm_slac_match_cnf m nmk).
  apply wp_bind, wp_modify, wp_bind, wp_emit.
  apply wp_bind. apply (wp_on_session i _ s); [done|].
  apply wp_bind. eapply (wp_set_next_timeout clock); [by eapply (lookup_put i _ s)|]. rewrite put_put.
  assert (phase_of (mac, mr_run_id m) l = Acknowledged) as Hph.
  { destruct Hs as [_ Hp _]. rewrite Hst, Hk in Hp. specialize (Hp ltac:(done)). by injection Hp as <-. }
  set (o1 := update readings S _).
  assert (matching_inv (l ++ [received (mkHomeplug mac (CM_SLAC_MATCH_REQ m))]) o1
            ([] ++ [send_raw_slac mac (CM_SLAC_MATCH_CNF cnf)])) as Hinv.
  { destruct Hpre as [Hc Hm Hl Hr]. constructor; [done|cbn [fmap list_fmap app]..].
    - rewrite <- app_assoc.
      eapply (matching_ok_put l _ (this o) _ i s (timed _ (assign session_state _ s))); try done.
      + rewrite app_assoc. eapply (session_ok_next _ _ s); try done.
        * by apply (session_ok_quiet l [_] s); [apply Forall_singleton|].
        * rewrite Hk, phase_of_snoc. cbn [phase_step]. rewrite Hph. this_car. done.
        * set_solver.
      + intros k Hne. constructor; [done|]. apply Forall_singleton. rewrite Hk in Hne. other_car.
      + intros _. exists cnf, mac. split; [done|]. set_solver.
    - apply log_ok_snoc; [by apply log_ok_did|]. cbn.
      exists l, (mkHomeplug mac (CM_SLAC_MATCH_REQ m)), m. repeat split; try done. left. done.
    - by rewrite ready_snoc, ready_received. }
  apply wp_when_set; intros _; [by apply matching_inv_emit|done].
Qed.

Lemma message_kept l o msg :
  matching_pre l o -> wp (MatchingState_handle_slac_message clock msg) (kept l msg) o [].
Proof.
  intros Hpre. destruct msg as [mac []]; unfold MatchingState_handle_slac_message; cbn [get_payload get_src_mac];
    try (by apply wp_ret, plain_message_ignored).
  - by apply parm_req_kept.
  - by apply start_atten_kept.
  - by apply mnbc_sound_kept.
  - by apply profile_kept.
  - by apply atten_rsp_kept.
  - by apply match_req_kept.
  - by apply validate_kept.
Qed.
End Messages.

(** ** Timeouts *)

Section Timeouts.
Context {D : SlacDefs} {L : SlacDefsLaws D} (clock : nat -> Z).
Context (clock_steady : forall n, clock n <= clock (S n)).
Context (offset : Z) (cbs : ContextCallbacks).
Abbreviation obj := (object Context MatchingState).
Abbreviation inv := (matching_inv offset cbs).
Implicit Types (o : obj) (out : list slac_output) (l : evse_log).

Lemma clock_monotone m n : (m <= n)%nat -> clock m <= clock n.
Proof. induction 1 as [|n _ IH]; [lia|]. specialize (clock_steady n). lia. Qed.

Lemma inv_session l o out i s :
  inv l o out -> sessions (this o) !! i = Some s -> session_ok (l ++ (made <$> out)) s.
Proof. intros [_ [_ _ Ho _] _ _] Hi. by eapply Forall_lookup_1. Qed.

Lemma inv_seen l o out i s :
  inv l o out -> sessions (this o) !! i = Some s -> seen_slac_parm_req (this o) = true.
Proof.
  intros [_ [_ Hseen _ _] _ _] Hi. destruct (seen_slac_parm_req (this o)) eqn:E; [done|].
  by rewrite (proj1 Hseen eq_refl) in Hi.
Qed.

(** One session changes and nothing is sent. *)
Lemma inv_put l o o' out i s s' :
  inv l o out -> sessions (this o) !! i = Some s -> key s' = key s ->
  ctx o' = ctx o -> this o' = this (put i s' o) ->
  session_state s' <> MatchingSubState.MATCH_COMPLETE ->
  session_ok (l ++ (made <$> out)) s' -> inv l o' out.
Proof.
  intros Hinv Hi Hk Hctx Hthis Hst Hs'. pose proof (inv_seen _ _ _ _ _ Hinv Hi) as Hseen.
  destruct Hinv as [Hc Hm Hl Hr]. constructor; [by rewrite Hctx| |done..].
  rewrite Hthis, <- (app_nil_r (l ++ _)). eapply (matching_ok_put _ [] (this o) _ i s s'); try done.
  - by rewrite app_nil_r.
  - intros (x & Hx & Hxs). rewrite app_nil_r. apply Hm.
    apply elem_of_insert_session in Hx as [->|(j & _ & Hj)]; [done|].
    exists x. split; [by eapply list_elem_of_lookup_2|done].
Qed.

(** The session stays in its phase, or fails. *)
Lemma session_ok_same l s s' :
  session_ok l s -> key s' = key s -> captured_sounds s' = captured_sounds s ->
  captured_aags s' = captured_aags s ->
  (session_state s' = MatchingSubState.FAILED
   \/ timeout_active s' = true /\ session_state s <> MatchingSubState.FAILED
      /\ phase_of_state (session_state s') = phase_of_state (session_state s)) ->
  session_state s' ∉ [MatchingSubState.WAIT_FOR_START_ATTEN_CHAR; MatchingSubState.SOUNDING] ->
  session_ok l s'.
Proof.
  intros [Ht Hp (ps & Hps & Hn & Ha & Hle & _)] Hk Hcs Hca Hor Hlate. constructor.
  - intros Hf. by destruct Hor as [|[? _]].
  - intros Hf. destruct Hor as [|(_ & Hf' & ->)]; [done|]. rewrite Hk. by apply Hp.
  - exists ps. unfold key in Hk. replace (ev_mac s') with (ev_mac s) by congruence.
    rewrite Hcs, Hca. repeat split; done.
Qed.

(** The report of the attenuation is one the protocol allows. *)
Lemma report_allowed l s :
  session_ok l s -> session_state s ∈ [MatchingSubState.FINALIZE_SOUNDING;
                                       MatchingSubState.WAIT_FOR_ATTEN_CHAR_RSP] ->
  allowed offset l (sent (ev_mac s) (CM_ATTEN_CHAR_IND (create_cm_atten_char_ind s offset))).
Proof.
  intros [_ Hp (ps & Hps & Hn & Ha & Hle & _)] Hst. cbn. split.
  - change (ev_mac s, run_id s) with (key s).
    assert (session_state s <> MatchingSubState.FAILED) as Hf
    by (intros E; rewrite E in Hst; set_solver).
    specialize (Hp Hf). apply elem_of_cons in Hst as [E|E%list_elem_of_singleton];
      rewrite E in Hp; injection Hp as Hp; rewrite <- Hp; set_solver.
  - exists ps. repeat split; [done|done|rewrite Hn; apply wrap_small; lia|].
    rewrite Hn, Ha. destruct ps as [|p ps]; [done|]. by destruct (Z.eqb_spec (Z.of_nat (length (p :: ps))) 0).
Qed.

Definition reported (s : MatchingSession) : slac_output :=
  send_raw_slac (ev_mac s) (CM_ATTEN_CHAR_IND (create_cm_atten_char_ind s offset)).

Lemma wp_finalize_sounding i s Q o out :
  sessions (this o) !! i = Some s -> ctx_ok offset cbs (ctx o) ->
  Q tt (update readings S
          (put i (timed (clock (readings o) + milliseconds TT_MATCH_RESPONSE_MS)
                    (assign session_state MatchingSubState.WAIT_FOR_ATTEN_CHAR_RSP s)) o))
    (out ++ [reported s]) ->
  wp (finalize_sounding clock i) Q o out.
Proof.
  intros Hi [_ Hoff] HQ. apply wp_bind, (wp_on_session i _ s); [done|].
  apply wp_bind, wp_config, wp_bind. eapply wp_session_at; [by eapply lookup_put|].
  apply wp_bind, wp_emit. eapply (wp_set_next_timeout clock); [by eapply lookup_put|].
  rewrite put_put. unfold reported in HQ. cbn. rewrite Hoff. exact HQ.
Qed.

(** After the report the session waits for the response. *)
Lemma inv_reported l o o' out i s s1 s' :
  inv l o out -> sessions (this o) !! i = Some s ->
  ctx o' = ctx o -> this o' = this (put i s' o) ->
  session_state s ∈ [MatchingSubState.FINALIZE_SOUNDING; MatchingSubState.WAIT_FOR_ATTEN_CHAR_RSP] ->
  create_cm_atten_char_ind s1 offset = create_cm_atten_char_ind s offset ->
  ev_mac s1 = ev_mac s ->
  key s' = key s -> captured_sounds s' = captured_sounds s -> captured_aags s' = captured_aags s ->
  session_state s' = MatchingSubState.WAIT_FOR_ATTEN_CHAR_RSP -> timeout_active s' = true ->
  inv l o' (out ++ [reported s1]).
Proof.
  intros Hinv Hi Hctx Hthis Hst Hatt Hmac Hk Hcs Hca Hst' Ht.
  pose proof (inv_session _ _ _ _ _ Hinv Hi) as Hs. pose proof (inv_seen _ _ _ _ _ Hinv Hi) as Hseen.
  assert (session_state s <> MatchingSubState.FAILED) as Hf
    by (intros E; rewrite E in Hst; set_solver).
  destruct Hinv as [Hc Hm Hl Hr]. unfold reported. rewrite Hatt, Hmac.
  constructor; [by rewrite Hctx|rewrite snoc_log..].
  - rewrite Hthis. eapply (matching_ok_put _ _ (this o) _ i s s'); try done.
    + eapply (session_ok_next _ _ s); try done; rewrite Hst'; [|set_solver].
      destruct Hs as [_ Hp _]. specialize (Hp Hf). cbn. rewrite bool_decide_eq_true_2 by done.
      apply elem_of_cons in Hst as [E|E%list_elem_of_singleton]; rewrite E in Hp; by injection Hp as <-.
    + intros k Hne. apply Forall_singleton. intros ph. cbn. by rewrite bool_decide_eq_false_2.
    + intros (x & Hx & Hxs). apply cnf_sent_app, Hm.
      apply elem_of_insert_session in Hx as [->|(j & _ & Hj)]; [by rewrite Hst' in Hxs|].
      exists x. split; [by eapply list_elem_of_lookup_2|done].
  - apply log_ok_snoc; [done|]. by apply report_allowed.
  - by rewrite ready_snoc.
Qed.

(** A session that needs no more attention: it has failed, or its timeout is
    in the future. *)
Definition settled (now_tp : Z) (s : MatchingSession) : Prop :=
  session_state s = MatchingSubState.FAILED /\ timeout_active s = false
  \/ timeout_active s = true /\ session_state s <> MatchingSubState.MATCH_COMPLETE
     /\ 0 < remaining_milliseconds (next_timeout s) now_tp.

Lemma remaining_positive now t d :
  now <= t -> 0 < d -> 0 < remaining_milliseconds (t + milliseconds d) now.
Proof.
  intros Ht Hd. unfold remaining_milliseconds, to_milliseconds, milliseconds.
  assert (d <= Z.quot (t + d * 1000000 - now) 1000000); [|lia].
  apply Z.quot_le_lower_bound; lia.
Qed.

Lemma timed_settled now t d s :
  now <= t -> 0 < d -> session_state s <> MatchingSubState.MATCH_COMPLETE ->
  settled now (timed (t + milliseconds d) s).
Proof. intros Ht Hd Hs. right. repeat split; [done|]. by apply remaining_positive. Qed.

(** What handling a timeout does to the vector. *)
Definition handled_at l (i : nat) now_tp o o' out' : Prop :=
  inv l o' out' /\ (readings o <= readings o')%nat
  /\ exists s', sessions (this o') = <[i:=s']> (sessions (this o)) /\ settled now_tp s'.

Lemma session_fails l o out i s now_tp s' o' :
  inv l o out -> sessions (this o) !! i = Some s -> o' = put i s' o ->
  key s' = key s -> captured_sounds s' = captured_sounds s -> captured_aags s' = captured_aags s ->
  session_state s' = MatchingSubState.FAILED -> timeout_active s' = false ->
  handled_at l i now_tp o o' out.
Proof.
  intros Hinv Hi -> Hk Hcs Hca Hst Ht. split; [|split; [done|exists s'; split; [done|by left]]].
  eapply inv_put; try done; [by rewrite Hst|].
  eapply session_ok_same; [by eapply inv_session|done..|by left|]. rewrite Hst. set_solver.
Qed.

Lemma timeout_handled l o out i s now_tp :
  inv l o out -> sessions (this o) !! i = Some s -> timeout_active s = true ->
  session_state s <> MatchingSubState.MATCH_COMPLETE -> now_tp <= clock (readings o) ->
  wp (ack_timeout i ;;; handle_session_timeout clock i)
    (fun _ o' out' => handled_at l i now_tp o o' out') o out.
Proof.
  intros Hinv Hi Hta Hmc Hnow. pose proof (inv_session _ _ _ _ _ Hinv Hi) as Hs.
  apply wp_bind, (wp_on_session i _ s); [done|].
  apply wp_bind. eapply wp_session_at; [by eapply lookup_put|]. cbn.
  destruct (session_state s) eqn:Hst; try done.
  - eapply wp_on_session; [by eapply lookup_put|]. rewrite put_put. eapply session_fails; [exact Hinv|exact Hi|reflexivity|done..].
  - apply wp_bind. eapply wp_on_session; [by eapply lookup_put|]. rewrite put_put.
    eapply (wp_set_next_timeout clock); [by eapply lookup_put|]. rewrite put_put.
    split; [|split; [cbn; lia|eexists; split; [done|]]]; last
      (apply timed_settled; [done|unfold FINALIZE_SOUNDING_DELAY_MS; lia|done]).
    eapply inv_put; [done|done| |done|done|done|]; [done|].
    eapply (session_ok_same _ s); try done; [|set_solver]. right. by rewrite Hst.
  - apply wp_bind. eapply wp_finalize_sounding; [by eapply lookup_put|by apply Hinv|]. rewrite put_put.
    eapply wp_on_session; [by eapply (lookup_put i _ s)|]. rewrite put_tick, put_put.
    split; [|split; [cbn; lia|eexists; split; [done|]]].
    + eapply (inv_reported l o _ out i s); [done|done|done|reflexivity| |done..].
      rewrite Hst; set_solver.
    + by apply timed_settled; [done|apply match_response_positive|].
  - apply wp_bind. eapply wp_on_session; [by eapply lookup_put|]. rewrite put_put.
    apply wp_if; intros _.
    + eapply wp_finalize_sounding; [by eapply lookup_put|by apply Hinv|]. rewrite put_put.
      split; [|split; [cbn; lia|eexists; split; [done|]]].
      * eapply (inv_reported l o _ out i s); [done|done|done|reflexivity| |done..].
        rewrite Hst; set_solver.
      * by apply timed_settled; [done|apply match_response_positive|].
    + eapply wp_on_session; [by eapply lookup_put|]. rewrite put_put. eapply session_fails; [exact Hinv|exact Hi|reflexivity|done..].
  - eapply wp_on_session; [by eapply lookup_put|]. rewrite put_put. eapply session_fails; [exact Hinv|exact Hi|reflexivity|done..].
  - destruct Hs as [_ Hp _]. rewrite Hst in Hp. by specialize (Hp ltac:(done)).
  - apply wp_ret. eapply session_fails; [exact Hinv|exact Hi|reflexivity|done..].
Qed.

(** What the loop over a session leaves. *)
Definition session_done l i o (cb : option Z) (r : Event.t + option Z) o' out' : Prop :=
  inv l o' out' /\ (readings o <= readings o')%nat
  /\ length (sessions (this o')) = length (sessions (this o))
  /\ (forall j, j <> i -> sessions (this o') !! j = sessions (this o) !! j)
  /\ match r with
     | inl ev => ev = Event.MATCH_COMPLETE /\ complete (this o')
     | inr cb' =>
         (is_Some cb -> is_Some cb')
         /\ forall s', sessions (this o') !! i = Some s' ->
              session_state s' <> MatchingSubState.FAILED -> is_Some cb'
     end.

(** The round that finds nothing more to do. *)
Lemma settled_round l o0 o out i s now_tp cb n :
  inv l o out -> (readings o0 <= readings o)%nat ->
  length (sessions (this o)) = length (sessions (this o0)) ->
  (forall j, j <> i -> sessions (this o) !! j = sessions (this o0) !! j) ->
  sessions (this o) !! i = Some s -> settled now_tp s ->
  wp (session_timeouts clock (S n) i now_tp cb)
    (fun r o' out' => session_done l i o0 cb r o' out') o out.
Proof.
  intros Hinv Hr Hlen Hother Hi Hset. cbn [session_timeouts].
  apply wp_bind, (wp_session_at i s); [done|].
  destruct Hset as [[Hst Ht]|(Ht & Hst & Hrem)].
  - rewrite Ht. cbn [negb]. apply wp_ret. do 4 (split; [done|]). split; [done|].
    intros s' Hi' Hf. by simplify_eq.
  - rewrite Ht, bool_decide_eq_false_2 by done. cbn [negb]. cbv zeta.
    rewrite (proj2 (Z.ltb_lt 0 _) Hrem). apply wp_ret. do 4 (split; [done|]). split.
    + intros [ms ->]. by destruct (_ <? ms).
    + intros _ _ _. destruct cb as [ms|]; [|done]. by destruct (_ <? ms).
Qed.

Lemma session_timeouts_kept l o out i s now_tp cb :
  inv l o out -> sessions (this o) !! i = Some s -> now_tp <= clock (readings o) ->
  wp (session_timeouts clock session_fuel i now_tp cb)
    (fun r o' out' => session_done l i o cb r o' out') o out.
Proof.
  intros Hinv Hi Hnow. pose proof (inv_session _ _ _ _ _ Hinv Hi) as Hs.
  destruct (decide (session_state s = MatchingSubState.MATCH_COMPLETE)) as [Hmc|Hmc].
  { cbn [session_timeouts session_fuel]. apply wp_bind, (wp_session_at i s); [done|].
    rewrite (ok_timeout _ _ Hs) by by rewrite Hmc. rewrite bool_decide_eq_true_2 by done. cbn [negb].
    apply wp_ret. do 4 (split; [done|]). split; [done|]. exists s. split; [by eapply list_elem_of_lookup_2|done]. }
  destruct (timeout_active s) eqn:Hta.
  2: { apply (settled_round l o o out i s); try done. left. split; [|done].
       destruct (decide (session_state s = MatchingSubState.FAILED)) as [|Hf]; [done|].
       by rewrite (ok_timeout _ _ Hs Hf) in Hta. }
  destruct (Z.ltb_spec 0 (remaining_milliseconds (next_timeout s) now_tp)) as [Hrem|Hrem].
  { apply (settled_round l o o out i s); try done. by right. }
  unfold session_fuel. set (one := 1%nat). cbn [session_timeouts].
  apply wp_bind, (wp_session_at i s); [done|].
  rewrite Hta, bool_decide_eq_false_2 by done. cbn [negb]. cbv zeta.
  rewrite (proj2 (Z.ltb_ge 0 _) Hrem).
  cut (wp ((ack_timeout i ;;; handle_session_timeout clock i) ;;;
           session_timeouts clock one i now_tp cb)
         (fun r o' out' => session_done l i o cb r o' out') o out).
  { unfold wp. by rewrite ebind_assoc. }
  apply wp_bind. eapply wp_mono; [by eapply timeout_handled|]. cbv beta.
  intros _ o' out' (Hinv' & Hr & s' & Hss & Hset).
  assert (i < length (sessions (this o)))%nat by by eapply lookup_lt_Some.
  eapply settled_round; try done; rewrite Hss.
  - by rewrite length_insert.
  - intros j Hj. by rewrite list_lookup_insert_ne.
  - by apply list_lookup_insert_eq.
Qed.

Lemma all_failed_false ss :
  all_sessions_failed ss = false ->
  exists j s, ss !! j = Some s /\ session_state s <> MatchingSubState.FAILED.
Proof.
  induction ss as [|s ss IH]; [done|]. unfold all_sessions_failed. cbn.
  case_bool_decide as Hst; [|intros _; by exists 0%nat, s].
  intros H. destruct (IH H) as (j & s' & Hj & ?). by exists (S j), s'.
Qed.

Lemma check_sessions_kept n l i o out now_tp cb :
  inv l o out -> (i + n)%nat = length (sessions (this o)) -> now_tp <= clock (readings o) ->
  (forall j s, (j < i)%nat -> sessions (this o) !! j = Some s ->
     session_state s <> MatchingSubState.FAILED -> is_Some cb) ->
  wp (check_sessions clock n i now_tp cb)
    (fun r o' out' => inv l o' out'
       /\ match r with
          | inl ev => ev = Event.FAILED \/ ev = Event.MATCH_COMPLETE /\ complete (this o')
          | inr cb' => is_Some cb' \/ n = 0%nat /\ cb' = cb
          end) o out.
Proof.
  revert i o out cb. induction n as [|n IH]; intros i o out cb Hinv Hlen Hnow Hcov;
    cbn [check_sessions].
  { apply wp_ret. split; [done|]. by right. }
  destruct (lookup_lt_is_Some_2 (sessions (this o)) i ltac:(lia)) as [s Hi].
  apply wp_bind. eapply wp_mono; [by eapply session_timeouts_kept|]. cbv beta.
  intros [ev|cb1] o' out' (Hinv' & Hr & Hlen' & Hother & Hres).
  { apply wp_ret. split; [done|]. by right. }
  destruct Hres as [Hsome Hlast].
  assert (forall j s, (j < S i)%nat -> sessions (this o') !! j = Some s ->
            session_state s <> MatchingSubState.FAILED -> is_Some cb1) as Hcov'.
  { intros j s' Hj Hs' Hf. destruct (decide (j = i)) as [->|Hne]; [by eapply Hlast|].
    rewrite Hother in Hs' by done. apply Hsome. eapply (Hcov j); [lia|done..]. }
  apply wp_get, wp_if; intros Hall.
  { apply wp_ret. split; [done|]. by left. }
  eapply wp_mono; [apply (IH (S i)); [done|lia| |done]|].
  { etrans; [exact Hnow|]. by apply clock_monotone. }
  cbv beta. intros [ev|cb2] o2 out2 [Hinv2 Hres]; split; try done.
  destruct Hres as [|[-> ->]]; left; [done|].
  apply all_failed_false in Hall as (j & s' & Hj & Hf). eapply (Hcov' j); [|done..].
  apply lookup_lt_Some in Hj. lia.
Qed.

(** Every callback of the matching state returns: it raises an event that is
    handled, or there is a time to call back in. *)
Lemma callback_kept l o out :
  inv l o out ->
  wp (MatchingState_callback clock)
    (fun r o' out' => inv l o' out'
       /\ match r with
          | no_value => False
          | call_back_in _ => True
          | raise ev => ev = Event.FAILED \/ ev = Event.MATCH_COMPLETE /\ complete (this o')
          end) o out.
Proof.
  intros Hinv. unfold MatchingState_callback. apply wp_bind, wp_now, wp_get.
  set (o1 := update readings S o).
  assert (inv l o1 out) as Hinv1 by by destruct Hinv.
  apply wp_if; intros _; [apply wp_ret; split; [done|by left]|].
  apply wp_bind. eapply wp_mono.
  { apply check_sessions_kept; [exact Hinv1|done|apply clock_steady|lia]. }
  cbv beta. intros [ev|cb'] o2 out2 [Hinv2 Hres]; [by apply wp_ret|].
  assert (is_Some cb') as [ms ->]; [|by apply wp_ret].
  destruct Hres as [?|[Hn ->]]; [done|]. apply nil_length_inv in Hn.
  destruct Hinv as [_ [_ Hseen _ _] _ _]. change (this o1) with (this o) in *.
  by rewrite (proj2 Hseen Hn).
Qed.
End Timeouts.
