(* ===== verification/SlacInvariant.v ===== *)
(** * SLAC at the charging point: the machine

    The invariant of [SlacProofs] for all states of the machine, and that every
    call of the controller keeps it, whatever implements the state machine
    library. *)
From S2P Require Import Prelude Effects Slac SlacEvse SlacProofs.
From stdpp Require Import base tactics list numbers strings sets.
From Stdlib Require Import Lia.
Open Scope Z_scope.
Open Scope everest_scope.

Section Machine.
Context {D : SlacDefs} {L : SlacDefsLaws D} (clock draw : nat -> Z).
Context (clock_steady : forall n, clock n <= clock (S n)).
Context (offset : Z) (cbs : ContextCallbacks).
Abbreviation obj := (object Context evse_state).
Implicit Types (out : list slac_output) (l : evse_log).

Definition some_cnf_sent l : Prop := exists mac cnf, sent mac (CM_SLAC_MATCH_CNF cnf) ∈ l.

Lemma some_cnf_sent_app l es : some_cnf_sent l -> some_cnf_sent (l ++ es).
Proof. intros (mac & cnf & H). exists mac, cnf. apply elem_of_app. by left. Qed.

Lemma cnf_sent_some l c : cnf_sent l c -> some_cnf_sent l.
Proof. intros (cnf & mac & _ & H). by exists mac, cnf. Qed.

(** What a state relies on. *)
Definition state_ok l (t : evse_state) : Prop :=
  match t with
  | MatchingState_ m => matching_ok l m
  | WaitForLinkState_ w => cnf_sent l (sent_match_cnf_message w)
  | MatchedState _ => some_cnf_sent l
  | _ => True
  end.

Definition link_of (t : evse_state) : bool :=
  match t with MatchedState _ => has_signal_dlink_ready cbs | _ => false end.

(** Everything but the state; this holds while a state is left, too. *)
Record base_inv {T} l (link : bool) (o : object Context T) out : Prop := {
  base_ctx : ctx_ok offset cbs (ctx o);
  base_log : log_ok offset (l ++ (made <$> out));
  base_ready : ready (l ++ (made <$> out)) = link
}.

Definition machine_inv l (o : obj) out : Prop :=
  base_inv l (link_of (this o)) o out /\ state_ok (l ++ (made <$> out)) (this o).

Lemma base_emit {T} l link (o : object Context T) out x :
  neutral x -> base_inv l link o out -> base_inv l link o (out ++ [x]).
Proof.
  intros Hx [Hc Hl Hr]. constructor; [done|rewrite snoc_log..].
  - apply log_ok_snoc; [done|]. by apply neutral_allowed.
  - by rewrite ready_snoc, neutral_ready.
Qed.

Lemma base_same {T U} l link (o : object Context T) (o' : object Context U) out :
  ctx_ok offset cbs (ctx o') -> base_inv l link o out -> base_inv l link o' out.
Proof. intros Hc [_ Hl Hr]. by constructor. Qed.

Lemma matching_inv_split l (o : object Context MatchingState) out :
  matching_inv offset cbs l o out <->
  base_inv l false o out /\ matching_ok (l ++ (made <$> out)) (this o).
Proof. split; [intros [? ? ? ?]; split; [by constructor|done]|intros [[? ? ?] ?]; by constructor]. Qed.

(** ** Entering and leaving *)

Definition entry_ok l (t : evse_state) : Prop :=
  match t with MatchingState_ m => m = new_MatchingState | _ => state_ok l t end.

Lemma entry_ok_snoc l t e : entry_ok l t -> entry_ok (l ++ [e]) t.
Proof.
  destruct t; cbn; try done; [apply cnf_sent_app|apply some_cnf_sent_app].
Qed.

Lemma new_matching_ok l m :
  sessions m = [] -> seen_slac_parm_req m = false -> matching_ok l m.
Proof.
  intros Hss Hseen. constructor; rewrite ?Hss; [constructor|by rewrite Hseen|constructor|].
  intros (s & Hs & _). rewrite Hss in Hs. by apply not_elem_of_nil in Hs.
Qed.

Lemma enter_kept l (o : obj) out :
  base_inv l false o out -> entry_ok (l ++ (made <$> out)) (this o) ->
  wp (state_enter (States := evse_states clock draw))
    (fun _ o' out' => machine_inv l o' out') o out.
Proof.
  intros Hb He. destruct o as [c t r d]. cbn [state_enter evse_states this] in *.
  destruct t; apply wp_as_current; cbn [ctx this readings draws].
  - apply wp_ret. split; [by eapply base_same; [apply Hb|]|done].
  - apply wp_bind, wp_draw_values. intros vs k. apply wp_modify. split; [|done].
    by eapply base_same; [apply Hb|].
  - apply wp_ret. split; [by eapply base_same; [apply Hb|]|done].
  - apply wp_when_set; intros _; (split; [|done]); [apply base_emit; [done|]|];
      (by eapply base_same; [apply Hb|]).
  - cbn in He. subst m. apply wp_bind, wp_when_set; intros _; apply wp_bind, wp_now, wp_modify;
      (split; [|by apply new_matching_ok]); [apply base_emit; [done|]|];
      (by eapply base_same; [apply Hb|]).
  - apply wp_bind, wp_now, wp_modify. split; [by eapply base_same; [apply Hb|]|done].
  - assert (forall out', base_inv l false (mkObject c link_status_req_sent r d) out' ->
      some_cnf_sent (l ++ (made <$> out')) ->
      wp (signal_dlink_ready true)
        (fun _ o' out' => machine_inv l
           (mkObject (ctx o') (MatchedState (this o')) (readings o') (draws o')) out')
        (mkObject c link_status_req_sent r d) out') as Hready.
    { intros out' [Hc Hl Hr] Hsent. cbn in Hc. apply wp_when_set; cbn; intros Hcb; rewrite (proj1 Hc) in Hcb.
      - split; [|rewrite snoc_log; by apply some_cnf_sent_app].
        constructor; [done|rewrite snoc_log..].
        + apply log_ok_snoc; [done|]. split; [done|]. intros _. exact Hsent.
        + rewrite ready_snoc. cbn. by rewrite Hcb.
      - split; [|done]. constructor; [done..|]. cbn. by rewrite Hcb. }
    apply wp_bind, wp_when_set; intros _; apply Hready.
    + apply base_emit; [done|]. by eapply base_same; [apply Hb|].
    + rewrite snoc_log. by apply some_cnf_sent_app.
    + by eapply base_same; [apply Hb|].
    + done.
  - apply wp_bind, wp_config, wp_if; intros _; [|apply wp_ret; split; [by eapply base_same; [apply Hb|]|done]].
    apply wp_when_set; intros _; (split; [|done]); [apply base_emit; [done|]|];
      (by eapply base_same; [apply Hb|]).
Qed.

Lemma leave_kept l (o : obj) out :
  base_inv l (link_of (this o)) o out ->
  wp (state_leave (States := evse_states clock draw))
    (fun _ o' out' => base_inv l false o' out' /\ (out' = out \/ exists x, out' = out ++ [x])) o out.
Proof.
  intros Hb. destruct o as [c t r d]. cbn [state_leave evse_states this] in *.
  destruct t; try (apply wp_ret; split; [by eapply base_same; [apply Hb|]|by left]).
  apply wp_as_current. destruct Hb as [Hc Hl Hr]. cbn in Hr, Hc.
  apply wp_when_set; cbn; intros Hcb; rewrite (proj1 Hc) in Hcb.
  - split; [|right; by eexists]. constructor; [done|rewrite snoc_log..].
    + apply log_ok_snoc; [done|]. cbn. rewrite Hr, Hcb. done.
    + by rewrite ready_snoc.
  - split; [|by left]. constructor; [done..|]. by rewrite Hr, Hcb.
Qed.

(** ** Events *)

Abbreviation handle ev := (state_handle_event (States := evse_states clock draw) ev).

(** What the handling of an event leaves: the machine as it is, or a state to
    go to. *)
Definition handled l (r : HandleEventReturn evse_state) (o' : obj) out' : Prop :=
  match r with
  | create_simple t =>
      base_inv l (link_of (this o')) o' out' /\ entry_ok (l ++ (made <$> out')) t
  | _ => machine_inv l o' out'
  end.

Lemma base_did {T} l link (o : object Context T) (op : evse_op) :
  base_inv l link o [] -> base_inv (l ++ [did op]) link o [].
Proof.
  intros [Hc Hl Hr]. cbn in *. rewrite app_nil_r in *.
  constructor; cbn; rewrite ?app_nil_r; [done|by apply log_ok_did|by rewrite ready_received].
Qed.

(** An operation leaves the states alone that do not look at it. *)
Lemma state_ok_did l (op : evse_op) t :
  (forall m, t <> MatchingState_ m) \/ (forall k, quiet_for k (did op)) ->
  state_ok l t -> state_ok (l ++ [did op]) t.
Proof.
  intros Hor. destruct t; cbn; try done;
    [|by apply cnf_sent_app|by apply some_cnf_sent_app].
  destruct Hor as [H|Hq]; [by destruct (H m)|].
  apply matching_ok_quiet. intros s _. by apply Forall_singleton.
Qed.

Lemma machine_inv_did l (op : evse_op) (o : obj) :
  (forall m, this o <> MatchingState_ m) \/ (forall k, quiet_for k (did op)) ->
  machine_inv l o [] -> machine_inv (l ++ [did op]) o [].
Proof.
  intros Hor [Hb Hs]. split; [by apply base_did|]. cbn in *. rewrite app_nil_r in *.
  by apply state_ok_did.
Qed.

(** A message to a machine that is not matching. *)
Lemma other_message_kept l (o : obj) msg :
  machine_inv l o [] -> slac_message_payload (ctx o) = msg -> (forall m, this o <> MatchingState_ m) ->
  wp (handle Event.SLAC_MESSAGE) (fun r o' out' => handled (l ++ [received msg]) r o' out') o [].
Proof.
  intros Hinv0 Hmsg Hnm. pose proof (machine_inv_did _ (Message msg) _ (or_introl Hnm) Hinv0) as Hinv.
  destruct o as [c t r d]. cbn in Hmsg.
  destruct Hinv as [Hb Hs]. cbn [link_of this state_handle_event evse_states] in *.
  assert (forall T (x : T), base_inv (l ++ [received msg]) (link_of t) (mkObject c x r d) []) as Hb'
    by (intros; by eapply base_same; [apply Hb|]).
  destruct t; [| | | |by destruct (Hnm m)| | |]; apply wp_as_current; cbn [ctx this readings draws].
  - apply wp_get, wp_bind. cbn [ctx slac_message_payload]. rewrite Hmsg.
    unfold InitState_handle_slac_message.
    destruct (get_payload msg); try (apply wp_ret, wp_ret; by split); apply wp_modify, wp_ret;
      (split; [by eapply base_same; [apply Hb|]|done]).
  - apply wp_bind, wp_config, wp_get. apply wp_if; intros _; [apply wp_if; intros _|];
      apply wp_ret; by split.
  - apply wp_get, wp_if; intros _; apply wp_ret; by split.
  - apply wp_ret. by split.
  - apply wp_get, wp_bind, wp_get. cbn [ctx this slac_message_payload]. rewrite Hmsg.
    assert (handled (l ++ [received msg]) PASS_ON (mkObject c (WaitForLinkState_ w) r d) []) as Hpass
      by by split.
    destruct (check_link_status_cnf _ _) as [[]|];
      [apply wp_ret, wp_ret; split; [done|by eapply cnf_sent_some]| |];
      (destruct (get_payload msg) eqn:Hpl; try (by apply wp_ret, wp_ret));
      destruct Hs as (cnf & mac & Hw & Hsent); rewrite Hw; apply wp_bind, wp_emit, wp_ret, wp_ret.
    all: split; [|cbn; exists cnf, mac; split; [done|]; rewrite elem_of_app; left; cbn in Hsent;
                   by rewrite app_nil_r in Hsent].
    all: destruct Hb as [Hc Hl Hr]; constructor; [done|rewrite snoc_log..];
      [apply log_ok_snoc; [done|]|by rewrite ready_snoc].
    all: exists l, msg, m; cbn; rewrite app_nil_r; repeat split; try done; right; exists mac;
      cbn in Hsent; rewrite app_nil_r in Hsent; set_solver.
  - apply wp_get. destruct (check_link_status_cnf _ _) as [[]|];
      [apply wp_ret; by split| |apply wp_ret; by split].
    apply wp_bind, wp_when_set; intros _; apply wp_ret; [|by split].
    split; [apply base_emit; [done|]; by eapply base_same; [apply Hb|]|].
    rewrite snoc_log. by apply some_cnf_sent_app.
  - apply wp_ret. by split.
Qed.

Lemma message_event_kept l (o : obj) msg :
  machine_inv l o [] -> slac_message_payload (ctx o) = msg ->
  wp (handle Event.SLAC_MESSAGE) (fun r o' out' => handled (l ++ [received msg]) r o' out') o [].
Proof.
  intros Hinv Hmsg. destruct (this o) eqn:Ht; try (apply other_message_kept; [done..|by rewrite Ht]).
  destruct o as [c t r d]. cbn in Ht, Hmsg. subst t. destruct Hinv as [[Hc Hl Hr] Hs].
  cbn in Hc, Hs. cbn [fmap list_fmap] in *. rewrite app_nil_r in *.
  cbn [state_handle_event evse_states this]. apply wp_as_current; cbn [ctx this readings draws].
  apply wp_get, wp_bind, wp_config, wp_bind. cbn [ctx]. rewrite Hmsg.
  eapply wp_mono; [by apply (message_kept clock offset cbs l); constructor|].
  cbv beta. intros _ o' out' [Hb' Hs']%matching_inv_split. apply wp_ret. split; [|done].
  by eapply base_same; [apply Hb'|].
Qed.

(** The events a callback raises. *)
Definition raised_in (t : evse_state) (ev : Event.t) : Prop :=
  match t with
  | InitState _ | ResetChipState _ => ev = Event.SUCCESS
  | MatchingState_ m => ev = Event.FAILED \/ ev = Event.MATCH_COMPLETE /\ complete m
  | WaitForLinkState_ _ => ev = Event.RETRY_MATCHING
  | _ => False
  end.

Definition from_outside (ev : Event.t) : Prop :=
  ev = Event.RESET \/ ev = Event.ENTER_BCD \/ ev = Event.LEAVE_BCD.

Lemma event_kept l (o : obj) out ev :
  machine_inv l o out -> raised_in (this o) ev \/ from_outside ev ->
  wp (handle ev) (fun r o' out' => handled l r o' out' /\ (raised_in (this o) ev -> r <> PASS_ON)) o out.
Proof.
  intros Hinv Hev. destruct o as [c t r d]. destruct Hinv as [Hb Hs].
  assert (forall T (x : T), base_inv l (link_of t) (mkObject c x r d) out) as Hb'
    by (intros; by eapply base_same; [apply Hb|]).
  cbn [state_handle_event evse_states this] in *.
  destruct t; apply wp_as_current; cbn [ctx this readings draws].
  - destruct Hev as [->|[->|[->| ->]]]; apply wp_ret; (split; [by split|done]).
  - apply wp_bind, wp_config. destruct Hev as [[]|[->|[->| ->]]]; apply wp_ret; (split; [by split|done]).
  - destruct Hev as [->|[->|[->| ->]]]; apply wp_ret; (split; [by split|done]).
  - destruct Hev as [[]|[->|[->| ->]]]; apply wp_ret; (split; [by split|done]).
  - apply wp_get, wp_bind, wp_config.
    destruct Hev as [[->|[-> Hcomp]]|[->|[->| ->]]];
      try (apply wp_ret; (split; [by split|by intros [?|[? _]]])).
    + apply wp_bind, wp_modify, wp_if; intros _; [|apply wp_ret; split; [by split|done]].
      apply wp_bind, wp_modify, wp_bind, wp_bind, wp_now, wp_modify, wp_bind, wp_modify, wp_ret.
      split; [|done]. split; [by eapply base_same; [apply Hb|]|]. by apply new_matching_ok.
    + destruct Hs as [_ _ _ Hcnf]. specialize (Hcnf Hcomp).
      apply wp_if; intros _; [apply wp_bind, wp_modify|]; apply wp_ret; (split; [|done]).
      * split; [by eapply base_same; [apply Hb|]|]. done.
      * split; [done|]. by eapply cnf_sent_some.
  - destruct Hev as [->|[->|[->| ->]]]; apply wp_ret; (split; [by split|done]).
  - destruct Hev as [[]|[->|[->| ->]]]; apply wp_ret; (split; [by split|done]).
  - destruct Hev as [[]|[->|[->| ->]]]; apply wp_ret; (split; [by split|done]).
Qed.

Lemma wp_send_link_status {T} Q (o : object Context T) out :
  (forall b x, neutral x -> Q b o (out ++ [x])) -> Q false o out ->
  wp send_link_status_req Q o out.
Proof.
  intros Hs Hn. unfold send_link_status_req. apply wp_get.
  destruct (modem_vendor (ctx o)); try (by apply wp_ret);
    apply wp_bind, wp_emit, wp_ret; by apply Hs.
Qed.

Lemma callback_event_kept l (o : obj) out :
  machine_inv l o out ->
  wp (state_callback (States := evse_states clock draw))
    (fun r o' out' => machine_inv l o' out'
       /\ match r with raise ev => raised_in (this o') ev | _ => True end) o out.
Proof.
  intros Hinv. destruct o as [c t r d]. destruct Hinv as [Hb Hs].
  assert (forall T (x : T) r, base_inv l (link_of t) (mkObject c x r d) out) as Hb'
    by (intros; by eapply base_same; [apply Hb|]).
  assert (forall T (x : T) r y, neutral y -> base_inv l (link_of t) (mkObject c x r d) (out ++ [y])) as He
    by (intros; by apply base_emit).
  cbn [state_callback evse_states this] in *.
  destruct t; try (apply wp_ret; split; [by split|done]); apply wp_as_current;
    cbn [ctx this readings draws].
  - apply wp_bind, wp_config, wp_get. cbn [this]. destruct sub_state;
      [apply wp_bind, wp_modify, wp_bind, wp_emit, wp_ret; split; [split; [by apply He|done]|done]..|].
    apply wp_ret. split; [by split|done].
  - apply wp_bind, wp_config, wp_get. apply wp_if; intros _.
    + apply wp_bind, wp_emit, wp_bind, wp_modify, wp_ret. split; [split; [by apply He|done]|done].
    + apply wp_ret. split; [by split|done].
  - apply wp_bind, wp_config, wp_get. cbn [this ctx]. destruct sub_state.
    + apply wp_bind, wp_modify, wp_ret. split; [by split|done].
    + destruct (modem_vendor c); try (apply wp_ret; split; [by split|done]).
      * apply wp_bind, wp_emit, wp_bind, wp_modify, wp_ret. split; [split; [by apply He|done]|done].
      * apply wp_bind, wp_modify, wp_bind, wp_emit, wp_ret. split; [split; [by apply He|done]|done].
    + apply wp_ret. split; [by split|done].
  - eapply wp_mono; [apply (callback_kept clock clock_steady offset cbs l);
                       apply matching_inv_split; split; [apply (Hb' _ m)|exact Hs]|].
    cbv beta. intros rt o' out' [[Hb2 Hs2]%matching_inv_split Hr]. split.
    + split; [by eapply base_same; [apply Hb2|]|done].
    + by destruct rt.
  - apply wp_bind, wp_config, wp_get. apply wp_if; intros _.
    + apply wp_bind, wp_send_link_status; [intros b x Hx|]; apply wp_bind, wp_modify, wp_ret;
        (split; [|done]); (split; [|]); try done; [by apply He|]. rewrite snoc_log. by apply cnf_sent_app.
    + apply wp_bind, wp_now, wp_if; intros _; [apply wp_ret; split; [by split|done]|].
      apply wp_bind, wp_modify, wp_ret. split; [by split|done].
  - apply wp_bind, wp_config, wp_get. apply wp_if; intros _; [apply wp_ret; split; [by split|done]|].
    apply wp_bind, wp_if; intros _; [|apply wp_modify, wp_ret; split; [by split|done]].
    apply wp_bind, wp_send_link_status; [intros b x Hx|]; apply wp_modify, wp_ret;
      (split; [|done]); (split; [|]); try done; [by apply He|]. rewrite snoc_log.
    by apply some_cnf_sent_app.
Qed.

(** ** Transitions *)

Section Transition.
Context {F : Fsm (evse_states clock draw)} {FL : FsmLaws F}.

Lemma fsm_handle_event_kept l ev (o : obj) out (P : HandleEventReturn evse_state -> Prop) :
  wp (state_handle_event (States := evse_states clock draw) ev)
    (fun r o' out' => handled l r o' out' /\ P r) o out ->
  wp (fsm_handle_event (Fsm := F) ev)
    (fun h o' out' => machine_inv l o' out' /\ h <> INTERNAL_ERROR
                      /\ (h = UNHANDLED -> P PASS_ON)) o out.
Proof.
  intros H. eapply wp_eq; [apply fsm_handle_event_law|].
  apply wp_bind. eapply wp_mono; [exact H|]. cbv beta. intros [| |t] o' out' [Hr HP].
  - apply wp_ret. do 2 (split; [done|]). done.
  - apply wp_ret. do 2 (split; [done|]). done.
  - destruct Hr as [Hb He]. apply wp_bind. eapply wp_mono; [by apply leave_kept|]. cbv beta.
    intros _ o2 out2 [Hb2 Hout]. apply wp_bind, wp_modify. cbn.
    apply wp_bind. eapply wp_mono.
    { apply enter_kept; [by eapply base_same; [apply Hb2|]|].
      destruct Hout as [->|[x ->]]; [exact He|]. rewrite snoc_log. by apply entry_ok_snoc. }
    cbv beta. intros _ o3 out3 Hinv. apply wp_ret. do 2 (split; [done|]). done.
Qed.

(** A round of the machine never does what is undefined, and every event it
    raises is handled. *)
Lemma fsm_feed_kept l (o : obj) out :
  machine_inv l o out ->
  wp (fsm_feed (Fsm := F))
    (fun r o' out' => machine_inv l o' out' /\ r <> unhandled_event /\ r <> internal_error) o out.
Proof.
  intros Hinv. eapply wp_eq; [apply fsm_feed_law|]. apply wp_bind.
  eapply wp_mono; [by apply callback_event_kept|]. cbv beta. intros [|ms|ev] o' out' [Hinv' Hr];
    try (apply wp_ret; do 2 (split; [done|]); done).
  apply wp_bind. eapply wp_mono.
  { apply (fsm_handle_event_kept l ev o' out' (fun r => r <> PASS_ON)).
    eapply wp_mono; [apply event_kept; [done|by left]|]. cbv beta. intros r o2 out2 [Hh Hp]. auto. }
  cbv beta. intros h o2 out2 (Hinv2 & Hint & Hunh). apply wp_ret. split; [done|].
  destruct h; [apply feed_success_law|by destruct (Hunh eq_refl)|done].
Qed.

(** ** The controller *)

Abbreviation ctrl := (FSMController Context evse_state).

Definition controller_inv (c : ctrl) l : Prop := machine_inv l (machine c) [] /\ running c = true.

Lemma machine_inv_flat l (op : evse_op) (o : obj) out :
  machine_inv (l ++ [did op]) o out -> machine_inv (l ++ did op :: (made <$> out)) o [].
Proof.
  assert ((l ++ [did op]) ++ (made <$> out) = (l ++ did op :: (made <$> out)) ++ (made <$> []))
    as E by by rewrite app_nil_r, <- app_assoc.
  intros [[Hc Hl Hr] Hs]. rewrite E in *. by split.
Qed.

Lemma evse_call_wp op (c : ctrl) l :
  controller_inv c l -> evse_enabled op c = true ->
  wp (evse_call clock draw (F := F) op)
    (fun _ c' out => machine_inv (l ++ [did op]) (machine c') out /\ running c' = true) c [].
Proof.
  intros [Hinv Hrun] Hen.
  assert (forall out, (forall msg, op <> Message msg) -> out = [] ->
            machine_inv (l ++ [did op]) (machine c) out) as Hdid.
  { intros out Hop ->. apply machine_inv_did; [|done]. right. intros k ph.
    by destruct op as [msg| | | |]; [destruct (Hop msg)|..]. }
  destruct op as [msg| |ev| |]; cbn [evse_call].
  - apply wp_get. rewrite Hrun. cbn [negb]. apply wp_bind, wp_on_machine, wp_modify.
    apply wp_bind, wp_on_machine. cbn [machine running new_event thread].
    eapply wp_mono.
    { apply (fsm_handle_event_kept (l ++ [received msg]) _ _ _ (fun _ => True)).
      eapply wp_mono; [apply message_event_kept|]; cbv beta; [|done|by intros r o' out' ?].
      destruct Hinv as [[Hc Hl Hr] Hs]. by split. }
    cbv beta. intros h o' out' [Hm _]. by apply wp_ret.
  - apply wp_modify. split; [by apply Hdid|done].
  - apply wp_bind, wp_bind, wp_on_machine. eapply wp_mono.
    { apply (fsm_handle_event_kept (l ++ [did (Signal ev)]) ev _ _ (fun _ => True)).
      eapply wp_mono; [apply event_kept; [by apply Hdid|right]|]; cbv beta.
      - unfold from_outside. destruct ev, (thread c); cbn in Hen; try done; auto.
      - by intros r o' out' [? _]. }
    cbv beta. intros h o' out' [Hm _]. apply wp_bind, wp_modify, wp_ret, wp_ret. done.
  - apply wp_bind, wp_on_machine. eapply wp_mono; [apply fsm_feed_kept; by apply Hdid|]. cbv beta.
    intros r o' out' [Hm _]. destruct r as [| | |[ms|]]; try (by apply wp_ret || by apply wp_modify).
    + apply wp_if; intros _; [by apply wp_ret|]. apply wp_get, wp_if; intros _; by apply wp_modify.
    + apply wp_get, wp_if; intros _; by apply wp_modify.
  - apply wp_modify. split; [by apply Hdid|done].
Qed.

Lemma evse_call_kept op (c : ctrl) l :
  controller_inv c l -> evse_enabled op c = true ->
  exists c' out, evse_call clock draw (F := F) op c = (Ok tt, c', out)
                 /\ controller_inv c' (l ++ did op :: (made <$> out)).
Proof.
  intros Hc Hen. pose proof (evse_call_wp op c l Hc Hen) as H. unfold wp in H.
  destruct (evse_call clock draw op c) as [[[[]|e] c'] out]; [|done].
  exists c', out. split; [done|]. destruct H as [Hm Hr]. split; [|done]. by apply machine_inv_flat.
Qed.
End Transition.
End Machine.
