(* ===== verification/SlacProperties.v ===== *)
(** * SLAC at the charging point: what is guaranteed

    In every history of the controller: messages in any order from anybody,
    commands, timeouts.  The clock is any that does not go back, and the state
    machine library any that obeys its laws. *)
From S2P Require Import Prelude Effects Slac SlacEvse SlacEv SlacExample SlacProofs SlacInvariant.
From stdpp Require Import base tactics list numbers strings sets.
From Stdlib Require Import Lia.
Open Scope Z_scope.
Open Scope everest_scope.

Section Reachable.
Context {D : SlacDefs} {L : SlacDefsLaws D} (clock draw : nat -> Z).
Context (clock_steady : forall n, clock n <= clock (S n)).
Context {F : Fsm (evse_states clock draw)} {FL : FsmLaws F} (context : Context).

Abbreviation offset := (sounding_atten_adjustment (slac_config context)).

Lemma reachable_inv ops :
  fault (slac_history clock draw context ops) = None
  /\ controller_inv offset (callbacks context) (controller (slac_history clock draw context ops)) (log (slac_history clock draw context ops)).
Proof.
  unfold slac_history.
  assert (evse_start clock draw context
          = (Ok tt, mkController (mkObject context new_InitState 0 0) true false feeding, [])) as Estart.
  { unfold evse_start, run_start, ebind, on_machine. rewrite fsm_reset_law. done. }
  apply (history_ind evse_enabled (evse_call clock draw)
           (controller_inv offset (callbacks context))); rewrite ?Estart.
  - done.
  - split; [|done]. split; [|done]. split; [done|apply log_ok_nil|done].
  - intros op c l Hc Hen. by apply evse_call_kept.
Qed.
End Reachable.

(** C27: the machine of the charging point never does what is undefined in
    the source: no empty optional or null pointer is dereferenced, the loop
    over the timeouts ends, and in every state it can reach a round of the
    machine returns, with every event it raised handled.  (How soon the next round
    follows is not said: a state whose callback asks for no delay is fed again at
    once.) *)
Theorem evse_slac_always_defined {D : SlacDefs} {L : SlacDefsLaws D} (clock draw : nat -> Z)
    {F : Fsm (evse_states clock draw)} (FL : FsmLaws F) (context : Context) (ops : list evse_op) :
  (forall n, clock n <= clock (S n)) ->
  fault (slac_history clock draw context ops) = None
  /\ exists r, run_val (fsm_feed (Fsm := F)) (machine (controller (slac_history clock draw context ops))) = Ok r
               /\ r <> unhandled_event /\ r <> internal_error.
Proof.
  intros Hclock. destruct (reachable_inv clock draw Hclock context ops) as [Hf [Hm _]].
  split; [done|]. pose proof (fsm_feed_kept clock draw Hclock _ _ _ _ _ Hm) as H.
  apply wp_run in H as (r & Hr & _ & Hunh & Hint). by exists r.
Qed.

(** C12: the key of the network is sent only as the answer to a request of the
    same station, and only to a car that went through the matching: it asked
    for the parameters, started the sounding, was sent the attenuation and
    acknowledged it, in this order and with the run id that is confirmed.  The
    other case is the repetition of a confirmation that was sent before. *)
Theorem key_only_after_matching {D : SlacDefs} {L : SlacDefsLaws D} (clock draw : nat -> Z)
    {F : Fsm (evse_states clock draw)} (FL : FsmLaws F) (context : Context) (ops : list evse_op)
    l1 mac cnf l2 :
  (forall n, clock n <= clock (S n)) ->
  log (slac_history clock draw context ops) = l1 ++ sent mac (CM_SLAC_MATCH_CNF cnf) :: l2 ->
  exists l msg req,
    l1 = l ++ [received msg] /\ get_payload msg = CM_SLAC_MATCH_REQ req /\ get_src_mac msg = mac
    /\ (validate_cm_slac_match_req req = true /\ mc_run_id cnf = mr_run_id req
        /\ phase_of (mac, mr_run_id req) l = Acknowledged
        \/ exists mac', sent mac' (CM_SLAC_MATCH_CNF cnf) ∈ l).
Proof.
  intros Hclock Hlog. destruct (reachable_inv clock draw Hclock context ops) as [_ [[Hb _] _]].
  pose proof (base_log _ _ _ _ _ _ Hb) as Hl. rewrite app_nil_r in Hl. exact (Hl _ _ _ Hlog).
Qed.

(** The attenuation a car is told is the average of at most ten profiles
    that were received for it, with the configured offset, and it is told
    during its sounding. *)
Theorem attenuation_is_average {D : SlacDefs} {L : SlacDefsLaws D} (clock draw : nat -> Z)
    {F : Fsm (evse_states clock draw)} (FL : FsmLaws F) (context : Context) (ops : list evse_op)
    l1 mac a l2 :
  (forall n, clock n <= clock (S n)) ->
  log (slac_history clock draw context ops) = l1 ++ sent mac (CM_ATTEN_CHAR_IND a) :: l2 ->
  phase_of (mac, ac_run_id a) l1 ∈ [Sounding; Reported]
  /\ exists ps, ps `sublist_of` profiles mac l1
                /\ (length ps <= 10)%nat
                /\ ac_num_sounds a = Z.of_nat (length ps)
                /\ ac_aag a = average ps (sounding_atten_adjustment (slac_config context)).
Proof.
  intros Hclock Hlog. destruct (reachable_inv clock draw Hclock context ops) as [_ [[Hb _] _]].
  pose proof (base_log _ _ _ _ _ _ Hb) as Hl. rewrite app_nil_r in Hl. exact (Hl _ _ _ Hlog).
Qed.

(** The signals about the data link alternate, beginning with ready; the
    link is reported ready only after a car was sent the key, and exactly
    while the machine is in the state Matched. *)
Theorem dlink_ready_alternates {D : SlacDefs} {L : SlacDefsLaws D} (clock draw : nat -> Z)
    {F : Fsm (evse_states clock draw)} (FL : FsmLaws F) (context : Context) (ops : list evse_op) :
  (forall n, clock n <= clock (S n)) ->
  has_signal_dlink_ready (callbacks context) = true ->
  let h := slac_history clock draw context ops in
  (forall l1 b l2, log h = l1 ++ made (signalled_dlink_ready b) :: l2 ->
     ready l1 = negb b
     /\ (b = true -> exists mac cnf, sent mac (CM_SLAC_MATCH_CNF cnf) ∈ l1))
  /\ (ready (log h) = true <-> exists b, this (machine (controller h)) = MatchedState b).
Proof.
  intros Hclock Hcb h. destruct (reachable_inv clock draw Hclock context ops) as [_ [[Hb _] _]].
  destruct Hb as [_ Hl Hr]. rewrite app_nil_r in Hl, Hr. fold h in Hl, Hr. split.
  - intros l1 b l2 Hlog. exact (Hl _ _ _ Hlog).
  - rewrite Hr. unfold link_of. rewrite Hcb. destruct (this _); split; try done; try (by intros [? ?]).
    intros _. by eexists.
Qed.

(** ** Concrete instances *)

Abbreviation example_log conf ops := (log (evse_history tick_clock conf ops)).

Lemma evse_slac_always_defined_witness :
  length (example_log example_config matching_ops) = 131%nat
  /\ fault (evse_history tick_clock example_config matching_ops) = None
  /\ exists r, run_val (fsm_feed (Fsm := plain_fsm (evse_states tick_clock some_draw)))
                 (machine (controller (evse_history tick_clock example_config matching_ops))) = Ok r
               /\ r <> unhandled_event /\ r <> internal_error.
Proof.
  split; [vm_compute; reflexivity|].
  exact (evse_slac_always_defined tick_clock some_draw _ _ _ tick_clock_steady).
Defined.

(** Where a log has a message of this kind. *)
Fixpoint find_sent {A} (f : slac_message -> option A) (l : evse_log) : bool :=
  match l with
  | [] => false
  | sent _ m :: l => match f m with Some _ => true | None => find_sent f l end
  | _ :: l => find_sent f l
  end.

Lemma find_sent_spec {A} (f : slac_message -> option A) l :
  find_sent f l = true -> exists l1 mac m a l2, l = l1 ++ sent mac m :: l2 /\ f m = Some a.
Proof.
  induction l as [|e l IH]; [done|]. intros H.
  assert (find_sent f l = true -> exists l1 mac m a l2, e :: l = l1 ++ sent mac m :: l2 /\ f m = Some a)
    as Hcons.
  { intros (l1 & mac & m & a & l2 & -> & Hf)%IH. by exists (e :: l1), mac, m, a, l2. }
  destruct e as [op|[mac m| | | | |]]; try (by apply Hcons). cbn in H.
  destruct (f m) as [a|] eqn:E; [|by apply Hcons]. by exists [], mac, m, a, l.
Qed.

Definition match_cnf_in (m : slac_message) : option cm_slac_match_cnf :=
  match m with CM_SLAC_MATCH_CNF c => Some c | _ => None end.
Definition atten_char_in (m : slac_message) : option cm_atten_char_ind :=
  match m with CM_ATTEN_CHAR_IND a => Some a | _ => None end.

Lemma example_key_sent :
  exists l1 mac cnf l2,
    example_log example_config matching_ops = l1 ++ sent mac (CM_SLAC_MATCH_CNF cnf) :: l2.
Proof.
  destruct (find_sent_spec match_cnf_in (example_log example_config matching_ops))
    as (l1 & mac & m & cnf & l2 & H & E); [vm_compute; reflexivity|].
  destruct m; try discriminate E. injection E as ->. eauto.
Qed.

Lemma key_only_after_matching_witness :
  exists l1 mac cnf l2,
    example_log example_config matching_ops = l1 ++ sent mac (CM_SLAC_MATCH_CNF cnf) :: l2
    /\ exists l msg req,
        l1 = l ++ [received msg] /\ get_payload msg = CM_SLAC_MATCH_REQ req /\ get_src_mac msg = mac
        /\ (validate_cm_slac_match_req req = true /\ mc_run_id cnf = mr_run_id req
            /\ phase_of (mac, mr_run_id req) l = Acknowledged
            \/ exists mac', sent mac' (CM_SLAC_MATCH_CNF cnf) ∈ l).
Proof.
  destruct example_key_sent as (l1 & mac & cnf & l2 & H). exists l1, mac, cnf, l2.
  split; [exact H|].
  exact (key_only_after_matching tick_clock some_draw _ _ _ _ _ _ _ tick_clock_steady H).
Defined.

Lemma example_attenuation_sent :
  exists l1 mac a l2,
    example_log example_config matching_ops = l1 ++ sent mac (CM_ATTEN_CHAR_IND a) :: l2.
Proof.
  destruct (find_sent_spec atten_char_in (example_log example_config matching_ops))
    as (l1 & mac & m & a & l2 & H & E); [vm_compute; reflexivity|].
  destruct m; try discriminate E. injection E as ->. eauto.
Qed.

Lemma attenuation_is_average_witness :
  exists l1 mac a l2,
    example_log example_config matching_ops = l1 ++ sent mac (CM_ATTEN_CHAR_IND a) :: l2
    /\ phase_of (mac, ac_run_id a) l1 ∈ [Sounding; Reported]
    /\ exists ps, ps `sublist_of` profiles mac l1
                  /\ (length ps <= 10)%nat
                  /\ ac_num_sounds a = Z.of_nat (length ps)
                  /\ ac_aag a = average ps 10.
Proof.
  destruct example_attenuation_sent as (l1 & mac & a & l2 & H). exists l1, mac, a, l2.
  split; [exact H|].
  exact (attenuation_is_average tick_clock some_draw _ _ _ _ _ _ _ tick_clock_steady H).
Defined.

Lemma dlink_ready_alternates_witness :
  let h := evse_history tick_clock example_config matching_ops in
  this (machine (controller h)) = MatchedState false
  /\ (forall l1 b l2, log h = l1 ++ made (signalled_dlink_ready b) :: l2 ->
       ready l1 = negb b
       /\ (b = true -> exists mac cnf, sent mac (CM_SLAC_MATCH_CNF cnf) ∈ l1))
  /\ (ready (log h) = true <-> exists b, this (machine (controller h)) = MatchedState b).
Proof.
  split; [vm_compute; reflexivity|].
  apply (dlink_ready_alternates tick_clock some_draw _ _ _ tick_clock_steady). reflexivity.
Defined.
