(* ===== verification/SlacEvProperties.v ===== *)
(** * SLAC at the car: what is guaranteed

    A car joins a network only at the end of a complete matching; and what
    becomes of a sounding that times out. *)
From S2P Require Import Prelude Effects Slac SlacEvse SlacEv SlacExample.
From stdpp Require Import base tactics list numbers strings sets.
From Stdlib Require Import Lia.
Open Scope Z_scope.
Open Scope everest_scope.

Abbreviation ev_entry := (entry ev_op ev_output).
Abbreviation ev_log := (list ev_entry).

(** ** The steps of a matching *)

(** Entries that satisfy the predicates, in this order, possibly with others
    in between. *)
Definition in_order (ps : list (ev_entry -> Prop)) (l : ev_log) : Prop :=
  exists es, Forall2 (fun p e => p e) ps es /\ es `sublist_of` l.

Lemma in_order_app ps l l' : in_order ps l -> in_order ps (l ++ l').
Proof. intros (es & H & Hs). exists es. split; [done|]. by apply sublist_inserts_r. Qed.

Lemma in_order_snoc ps p l e : in_order ps l -> p e -> in_order (ps ++ [p]) (l ++ [e]).
Proof.
  intros (es & H & Hs) Hp. exists (es ++ [e]). split.
  - apply Forall2_app; [done|]. by constructor.
  - by apply sublist_app.
Qed.

Lemma in_order_nil l : in_order [] l.
Proof. exists []. split; [done|apply sublist_nil_l]. Qed.

Definition got (f : HomeplugMessage -> Prop) (e : ev_entry) : Prop :=
  match e with did (EvMessage msg) => f msg | _ => False end.
Definition gave (evse : bytes) (f : slac_message -> Prop) (e : ev_entry) : Prop :=
  match e with made (ev_send_raw_slac mac m) => mac = evse /\ f m | _ => False end.

Section Steps.
Context {D : SlacDefs} (p : SessionParamaters).

Definition got_parm_cnf : ev_entry -> Prop := got (fun msg =>
  get_src_mac msg = param_evse_mac p
  /\ match get_payload msg with CM_SLAC_PARM_CNF c => pc_run_id c = param_run_id p | _ => False end).
Definition gave_sound : ev_entry -> Prop := gave (param_evse_mac p) (fun m =>
  match m with CM_MNBC_SOUND_IND s => so_run_id s = param_run_id p | _ => False end).
Definition got_atten_char : ev_entry -> Prop := got (fun msg =>
  match get_payload msg with CM_ATTEN_CHAR_IND a => ac_run_id a = param_run_id p | _ => False end).
Definition gave_atten_rsp : ev_entry -> Prop := gave (param_evse_mac p) (fun m =>
  match m with CM_ATTEN_CHAR_RSP a => ar_run_id a = param_run_id p | _ => False end).
Definition gave_match_req : ev_entry -> Prop := gave (param_evse_mac p) (fun m =>
  match m with CM_SLAC_MATCH_REQ a => mr_run_id a = param_run_id p | _ => False end).
Definition got_match_cnf (nmk : bytes) : ev_entry -> Prop := got (fun msg =>
  match get_payload msg with
  | CM_SLAC_MATCH_CNF c => mc_run_id c = param_run_id p /\ mc_nmk c = nmk
  | _ => False
  end).

(** Up to the sounds, to the answer about the attenuation, to the request for
    the key, and to the key. *)
Definition sounded (n : Z) : list (ev_entry -> Prop) :=
  got_parm_cnf :: replicate (Z.to_nat n) gave_sound.
Definition answered : list (ev_entry -> Prop) :=
  (sounded C_EV_MATCH_MNBC ++ [got_atten_char]) ++ [gave_atten_rsp].
Definition requested : list (ev_entry -> Prop) := answered ++ [gave_match_req].
Definition confirmed (nmk : bytes) : list (ev_entry -> Prop) := requested ++ [got_match_cnf nmk].
End Steps.

Section Machine.
Context {D : SlacDefs} (clock draw : nat -> Z).
Abbreviation obj := (object EvContext ev_state).
Implicit Types (out : list ev_output) (l : ev_log).

Definition ev_state_ok l (t : ev_state) : Prop :=
  match t with
  | SoundingState_ s =>
      in_order (sounded (sounding_parameters s) (count_mnbc_sound_sent s)) l
      /\ 0 <= count_mnbc_sound_sent s /\ count_mnbc_sound_sent s <= Z.max 0 C_EV_MATCH_MNBC
  | MatchRequestState_ s =>
      in_order (answered (request_parameters s)) l
      /\ (request_num_of_tries s <> 0 -> in_order (requested (request_parameters s)) l)
  | JoinNetworkState_ s => exists p, in_order (confirmed p (join_nmk s)) l
  | _ => True
  end.

Definition joins_confirmed l : Prop :=
  forall l1 mac k l2, l = l1 ++ made (ev_send_raw_slac mac (CM_SET_KEY_REQ k)) :: l2 ->
  exists p, in_order (confirmed p (sk_new_key k)) l1.

Lemma joins_confirmed_snoc l e :
  joins_confirmed l ->
  (forall mac k, e = made (ev_send_raw_slac mac (CM_SET_KEY_REQ k)) ->
     exists p, in_order (confirmed p (sk_new_key k)) l) ->
  joins_confirmed (l ++ [e]).
Proof.
  intros Hl He l1 mac k l2 H. destruct l2 as [|e2 l2 _] using rev_ind.
  - apply app_inj_tail in H as [<- ->]. by eapply He.
  - rewrite app_comm_cons, app_assoc in H. apply app_inj_tail in H as [-> ->]. by eapply Hl.
Qed.

Lemma ev_snoc_log l out x : l ++ (made <$> (out ++ [x])) = (l ++ (made <$> out)) ++ [made x : ev_entry].
Proof. by rewrite fmap_app, app_assoc. Qed.

Lemma ev_state_ok_app l l' t : ev_state_ok l t -> ev_state_ok (l ++ l') t.
Proof.
  destruct t; cbn; try done.
  - intros (H & ? & ?). split; [by apply in_order_app|done].
  - intros [H1 H2]. split; [by apply in_order_app|]. intros Hn. by apply in_order_app, H2.
  - intros [p H]. exists p. by apply in_order_app.
Qed.

(** The invariant during an operation. *)
Definition ev_inv l (t : ev_state) out : Prop :=
  joins_confirmed (l ++ (made <$> out)) /\ ev_state_ok (l ++ (made <$> out)) t.

Definition not_joining (x : ev_output) : Prop :=
  match x with ev_send_raw_slac _ (CM_SET_KEY_REQ _) => False | _ => True end.

Lemma joins_emit l out x :
  not_joining x -> joins_confirmed (l ++ (made <$> out)) -> joins_confirmed (l ++ (made <$> (out ++ [x]))).
Proof.
  intros Hx H. rewrite ev_snoc_log. apply joins_confirmed_snoc; [done|]. by intros mac k [= ->].
Qed.

Lemma ev_inv_emit l t out x : not_joining x -> ev_inv l t out -> ev_inv l t (out ++ [x]).
Proof.
  intros Hx [Hj Hs]. split; [by apply joins_emit|]. rewrite ev_snoc_log. by apply ev_state_ok_app.
Qed.

(** A state as it is constructed relies on what it needs from the start. *)
Lemma ev_enter_kept l (o : obj) out :
  joins_confirmed (l ++ (made <$> out)) -> ev_state_ok (l ++ (made <$> out)) (this o) ->
  wp (state_enter (States := ev_states clock draw)) (fun _ o' out' => ev_inv l (this o') out') o out.
Proof.
  intros Hj Hs. destruct o as [c t r d]. cbn [state_enter ev_states this] in *.
  destruct t.
  - apply wp_as_current, wp_emit. by apply ev_inv_emit.
  - apply wp_as_current, wp_bind, wp_draw_values. intros vs k. by apply wp_modify.
  - apply wp_as_current, wp_bind, wp_now, wp_modify. by split.
  - apply wp_ret. by split.
  - apply wp_as_current, wp_get, wp_bind, wp_emit, wp_bind, wp_now, wp_modify. split.
    + rewrite ev_snoc_log. apply joins_confirmed_snoc; [done|]. intros mac k [= _ <-]. exact Hs.
    + rewrite ev_snoc_log. by apply ev_state_ok_app.
  - apply wp_as_current, wp_emit. by apply ev_inv_emit.
  - apply wp_ret. by split.
Qed.

(** What the handling of an event leaves. *)
Definition ev_handled l (r : HandleEventReturn ev_state) (o' : obj) out' : Prop :=
  match r with
  | create_simple t => joins_confirmed (l ++ (made <$> out')) /\ ev_state_ok (l ++ (made <$> out')) t
  | _ => ev_inv l (this o') out'
  end.

Lemma joins_did l (op : ev_op) :
  joins_confirmed (l ++ (made <$> [])) -> joins_confirmed ((l ++ [did op]) ++ (made <$> [])).
Proof.
  rewrite !app_nil_r. intros H. by apply joins_confirmed_snoc.
Qed.

Lemma ev_inv_did l (op : ev_op) t : ev_inv l t [] -> ev_inv (l ++ [did op]) t [].
Proof.
  intros [Hj Hs]. split; [by apply joins_did|]. rewrite app_nil_r in *. by apply ev_state_ok_app.
Qed.

Lemma to_nat_sounded s :
  0 <= count_mnbc_sound_sent s -> count_mnbc_sound_sent s <= Z.max 0 C_EV_MATCH_MNBC ->
  (count_mnbc_sound_sent s <? C_EV_MATCH_MNBC) = false ->
  sounded (sounding_parameters s) (count_mnbc_sound_sent s)
  = sounded (sounding_parameters s) C_EV_MATCH_MNBC.
Proof. intros H0 H1 H2%Z.ltb_ge. unfold sounded. do 2 f_equal. lia. Qed.

(** A message. *)
Lemma ev_message_kept l (o : obj) msg :
  ev_inv l (this o) [] -> slac_message_received (ctx o) = msg ->
  wp (state_handle_event (States := ev_states clock draw) EvEvent.SLAC_MESSAGE)
    (fun r o' out' => ev_handled (l ++ [did (EvMessage msg)]) r o' out') o [].
Proof.
  intros Hinv0 Hmsg. pose proof (ev_inv_did _ (EvMessage msg) _ Hinv0) as Hinv.
  destruct o as [c t r d]. cbn in Hmsg. destruct Hinv0 as [_ Hs0]. destruct Hinv as [Hj Hs].
  cbn [state_handle_event ev_states this] in *. rewrite app_nil_r in Hs0.
  destruct t; apply wp_as_current; cbn [ctx this readings draws].
  - apply wp_ret. by split.
  - apply wp_bind, wp_get, wp_bind, wp_get, wp_ret. cbn [ctx this]. rewrite Hmsg.
    destruct (get_payload msg) eqn:Hp; try (apply wp_ret, wp_ret; by split).
    apply wp_ret, wp_if; intros Hid; [|apply wp_ret; by split].
    apply same_bytes_spec in Hid. cbn in Hid.
    apply wp_bind, wp_emit, wp_get, wp_bind, wp_get, wp_ret, wp_ret. cbn [ctx this]. rewrite Hmsg.
    split; [by apply joins_emit|]. rewrite ev_snoc_log. apply ev_state_ok_app. cbn. rewrite app_nil_r.
    split; [|lia]. apply (in_order_snoc []); [apply in_order_nil|]. cbn. by rewrite Hp.
  - destruct Hs0 as (Hord & H0 & Hmax).
    apply wp_bind, wp_get, wp_if; intros Hc; [apply wp_ret, wp_ret; by split|]. cbn [this] in Hc.
    apply wp_bind, wp_get, wp_ret. cbn [ctx this]. rewrite Hmsg.
    destruct (get_payload msg) eqn:Hp; try (apply wp_ret, wp_ret; by split).
    apply wp_if; intros Hid; [apply wp_ret, wp_ret; by split|].
    apply negb_false_iff, same_bytes_spec in Hid. cbn in Hid.
    apply wp_bind, wp_emit, wp_ret, wp_get, wp_ret. cbn [this].
    rewrite (to_nat_sounded s) in Hord by done.
    split; [by apply joins_emit|]. rewrite ev_snoc_log, app_nil_r. split; [|done].
    apply in_order_snoc; [|done]. apply in_order_snoc; [done|]. cbn. by rewrite Hp.
  - destruct Hs0 as [_ Hreq].
    apply wp_bind, wp_get, wp_if; intros Hn; [apply wp_ret, wp_ret; by split|].
    apply Z.eqb_neq in Hn. cbn [this] in Hn.
    apply wp_bind, wp_get, wp_ret. cbn [ctx this]. rewrite Hmsg.
    destruct (get_payload msg) eqn:Hp; try (apply wp_ret, wp_ret; by split).
    apply wp_ret. destruct (same_bytes _ _) eqn:Hid; [|apply wp_ret; by split].
    apply same_bytes_spec in Hid. apply wp_ret. split; [done|]. rewrite app_nil_r.
    exists (request_parameters s). apply in_order_snoc; [by apply Hreq|]. cbn. by rewrite Hp.
  - apply wp_bind, wp_bind, wp_get, wp_ret. cbn [ctx]. rewrite Hmsg.
    destruct (get_payload msg); apply wp_ret, wp_ret; by split.
  - apply wp_ret. by split.
  - apply wp_ret. by split.
Qed.

(** Any other event leaves the state alone, or goes to one that relies on
    nothing. *)
Lemma ev_event_kept l (o : obj) out ev :
  ev <> EvEvent.SLAC_MESSAGE -> ev_inv l (this o) out ->
  wp (state_handle_event (States := ev_states clock draw) ev)
    (fun r o' out' => ev_handled l r o' out') o out.
Proof.
  intros Hev [Hj Hs]. destruct o as [c t r d]. cbn [state_handle_event ev_states this] in *.
  destruct t; apply wp_as_current; destruct ev; try done; apply wp_ret; by split.
Qed.

Lemma sounded_succ p n : 0 <= n -> sounded p (1 + n) = sounded p n ++ [gave_sound p].
Proof.
  intros Hn. unfold sounded. rewrite Z2Nat.inj_add by lia. cbn [Z.to_nat Pos.to_nat].
  change (Z.to_nat 1 + Z.to_nat n)%nat with (S (Z.to_nat n)).
  cbn [app]. f_equal. apply replicate_S_end.
Qed.

Lemma in_order_gave ps p l out x :
  in_order ps (l ++ (made <$> out)) -> p (made x) -> in_order (ps ++ [p]) (l ++ (made <$> (out ++ [x]))).
Proof. intros H Hp. rewrite ev_snoc_log. by apply in_order_snoc. Qed.

Lemma wp_send_parm_req l (o : object EvContext InitSlacState) out :
  joins_confirmed (l ++ (made <$> out)) ->
  wp (send_parm_req clock) (fun _ _ out' => joins_confirmed (l ++ (made <$> out'))) o out.
Proof.
  intros Hj. apply wp_get, wp_bind, wp_emit, wp_bind, wp_modify, wp_bind, wp_now, wp_bind, wp_modify, wp_ret.
  by apply joins_emit.
Qed.

Lemma wp_send_match_req l (o : object EvContext MatchRequestState) out :
  ev_inv l (MatchRequestState_ (this o)) out ->
  wp (send_match_req clock) (fun _ o' out' => ev_inv l (MatchRequestState_ (this o')) out') o out.
Proof.
  intros [Hj [Ha Hr]].
  apply wp_get, wp_bind, wp_emit, wp_bind, wp_modify, wp_bind, wp_now, wp_bind, wp_modify, wp_ret.
  split; [by apply joins_emit|]. split.
  - rewrite ev_snoc_log. by apply in_order_app.
  - intros _. by apply in_order_gave.
Qed.

Lemma do_sounding_kept l (o : object EvContext SoundingState) out :
  ev_inv l (SoundingState_ (this o)) out ->
  wp (do_sounding draw) (fun _ o' out' => ev_inv l (SoundingState_ (this o')) out') o out.
Proof.
  intros [Hj (Hord & H0 & Hmax)]. apply wp_get, wp_bind, wp_if; intros _.
  - apply wp_bind, wp_emit, wp_modify, wp_get, wp_ret. by apply ev_inv_emit.
  - apply wp_if; intros Hc; [|by apply wp_ret, wp_get, wp_ret].
    apply Z.ltb_lt in Hc. apply wp_bind, wp_modify, wp_bind, wp_draw_values. intros vs k.
    apply wp_emit, wp_get, wp_ret. split; [by apply joins_emit|]. cbn -[Z.add].
    split; [|cbn in H0, Hmax; lia]. cbn -[Z.add] in H0. rewrite sounded_succ by done.
    by apply in_order_gave.
Qed.

Lemma ev_callback_kept l (o : obj) out :
  ev_inv l (this o) out ->
  wp (state_callback (States := ev_states clock draw))
    (fun r o' out' => ev_inv l (this o') out'
       /\ match r with raise ev => ev = EvEvent.FAILED | _ => True end) o out.
Proof.
  intros Hinv. destruct o as [c t r d]. cbn [state_callback ev_states this] in *.
  destruct t; try (by apply wp_ret); apply wp_as_current; cbn [ctx this readings draws].
  - apply wp_get, wp_if; intros _.
    { apply wp_bind. eapply wp_mono; [apply wp_send_parm_req, Hinv|]. cbv beta.
      intros ms o' out' Hj. apply wp_ret. split; [by split|done]. }
    apply wp_bind, wp_now, wp_if; intros _; [apply wp_ret; split; [exact Hinv|done]|].
    apply wp_if; intros _; [|apply wp_ret; split; [exact Hinv|done]].
    apply wp_bind. eapply wp_mono; [apply wp_send_parm_req, Hinv|]. cbv beta.
    intros ms o' out' Hj. apply wp_ret. split; [by split|done].
  - apply wp_get, wp_bind, wp_now, wp_if; intros _; [apply wp_ret; split; [exact Hinv|done]|].
    apply wp_if; intros _; [apply wp_ret; split; [exact Hinv|done]|].
    apply wp_bind, wp_if; intros _; [apply wp_modify|apply wp_ret]; apply wp_get.
    all: apply wp_if; intros _; [apply wp_ret; split; [exact Hinv|done]|].
    all: apply wp_bind; eapply wp_mono; [by apply do_sounding_kept|]; cbv beta; intros more o' out' Hi.
    all: apply wp_if; intros _; [apply wp_bind, wp_modify|]; apply wp_ret; done.
  - apply wp_get, wp_if; intros _.
    { apply wp_bind. eapply wp_mono; [by apply wp_send_match_req|]. cbv beta.
      intros ms o' out' Hi. by apply wp_ret. }
    apply wp_bind, wp_now, wp_if; intros _; [by apply wp_ret|].
    apply wp_if; intros _; [|by apply wp_ret].
    apply wp_bind. eapply wp_mono; [by apply wp_send_match_req|]. cbv beta.
    intros ms o' out' Hi. by apply wp_ret.
  - apply wp_get, wp_bind, wp_now, wp_if; intros _; by apply wp_ret.
Qed.

(** ** The controller *)

Section Controller.
Context {F : Fsm (ev_states clock draw)} {FL : FsmLaws F}.
Abbreviation ctrl := (FSMController EvContext ev_state).

Lemma ev_fsm_handle_event_kept l ev (o : obj) out :
  wp (state_handle_event (States := ev_states clock draw) ev)
    (fun r o' out' => ev_handled l r o' out') o out ->
  wp (fsm_handle_event (Fsm := F) ev) (fun _ o' out' => ev_inv l (this o') out') o out.
Proof.
  intros H. eapply wp_eq; [apply fsm_handle_event_law|]. apply wp_bind.
  eapply wp_mono; [exact H|]. cbv beta. intros [| |t] o' out' Hr; [by apply wp_ret..|].
  destruct Hr as [Hj Hs]. apply wp_bind, wp_ret, wp_bind, wp_modify, wp_bind.
  eapply wp_mono; [by apply ev_enter_kept|]. cbv beta. intros _ o2 out2 Hi. by apply wp_ret.
Qed.

Lemma ev_fsm_feed_kept l (o : obj) out :
  ev_inv l (this o) out -> wp (fsm_feed (Fsm := F)) (fun _ o' out' => ev_inv l (this o') out') o out.
Proof.
  intros Hinv. eapply wp_eq; [apply fsm_feed_law|]. apply wp_bind.
  eapply wp_mono; [by apply ev_callback_kept|]. cbv beta. intros [|ms|ev] o' out' [Hi Hr];
    try (by apply wp_ret). subst ev. apply wp_bind.
  eapply wp_mono; [by apply ev_fsm_handle_event_kept, ev_event_kept|]. cbv beta.
  intros h o2 out2 Hi2. by apply wp_ret.
Qed.

Lemma ev_call_wp op (c : ctrl) l :
  ev_inv l (this (machine c)) [] -> ev_enabled op c = true ->
  wp (ev_call clock draw (F := F) op)
    (fun _ c' out => ev_inv (l ++ [did op]) (this (machine c')) out) c [].
Proof.
  intros Hinv Hen. pose proof (ev_inv_did _ op _ Hinv) as Hdid.
  destruct op as [msg| |ev| |]; cbn [ev_call].
  - apply wp_get, wp_if; intros _; [by apply wp_ret|].
    apply wp_bind, wp_on_machine, wp_modify, wp_bind, wp_on_machine.
    eapply wp_mono; [by apply ev_fsm_handle_event_kept, (ev_message_kept l _ msg)|]. cbv beta.
    intros h o' out' Hi. by apply wp_ret.
  - by apply wp_modify.
  - apply wp_bind, wp_bind, wp_on_machine. eapply wp_mono.
    { apply ev_fsm_handle_event_kept, ev_event_kept; [|exact Hdid].
      by intros ->; destruct (thread c). }
    cbv beta. intros h o' out' Hi. by apply wp_bind, wp_modify, wp_ret, wp_ret.
  - apply wp_bind, wp_on_machine. eapply wp_mono; [by apply ev_fsm_feed_kept|]. cbv beta.
    intros r o' out' Hi. destruct r as [| | |[ms|]]; try (by apply wp_ret || by apply wp_modify).
    + apply wp_if; intros _; [by apply wp_ret|]. apply wp_get, wp_if; intros _; by apply wp_modify.
    + apply wp_get, wp_if; intros _; by apply wp_modify.
  - by apply wp_modify.
Qed.

Lemma ev_call_kept op (c : ctrl) l :
  ev_inv l (this (machine c)) [] -> ev_enabled op c = true ->
  exists c' out, ev_call clock draw (F := F) op c = (Ok tt, c', out)
                 /\ ev_inv (l ++ did op :: (made <$> out)) (this (machine c')) [].
Proof.
  intros Hc Hen. pose proof (ev_call_wp op c l Hc Hen) as H. unfold wp in H.
  destruct (ev_call clock draw op c) as [[[[]|e] c'] out]; [|done].
  exists c', out. split; [done|]. revert H. unfold ev_inv. cbn [app fmap list_fmap].
  by rewrite app_nil_r, <- app_assoc.
Qed.
End Controller.
End Machine.

(** C30: a car installs a key only at the end of a matching it took part in:
    it got the parameters from a charging point, sent it all its sounds, got
    the attenuation and answered it, requested the match, and then got this
    key, in this order and all with its run id. *)
Theorem ev_joins_after_matching {D : SlacDefs} (clock draw : nat -> Z)
    {F : Fsm (ev_states clock draw)} (FL : FsmLaws F) (context : EvContext) (ops : list ev_op)
    l1 mac k l2 :
  log (ev_slac_history clock draw context ops)
  = l1 ++ made (ev_send_raw_slac mac (CM_SET_KEY_REQ k)) :: l2 ->
  exists p, in_order (got_parm_cnf p :: replicate (Z.to_nat C_EV_MATCH_MNBC) (gave_sound p)
                      ++ [got_atten_char p; gave_atten_rsp p; gave_match_req p;
                          got_match_cnf p (sk_new_key k)]) l1.
Proof.
  assert (exists out, ev_start clock draw context
            = (Ok tt, mkController (mkObject context EvResetState 0 0) true false feeding, out)
            /\ out = [ev_signalled_state "UNMATCHED"]) as (out & Estart & ->).
  { unfold ev_start, run_start, ebind, on_machine. rewrite fsm_reset_law. eauto. }
  intros Hlog.
  destruct (history_ind ev_enabled (ev_call clock draw)
              (fun c l => ev_inv l (this (machine c)) [])
              (history_start (ev_start clock draw context))) with (ops := ops) as [_ [Hj _]].
  - by rewrite Estart.
  - rewrite Estart. split; [|done]. intros l3 mac' k' l4 H. by destruct l3 as [|? [|? ?]].
  - intros op c l Hc Hen. by apply ev_call_kept.
  - rewrite app_nil_r in Hj. destruct (Hj _ _ _ _ Hlog) as [p Hp]. exists p.
    revert Hp. unfold confirmed, requested, answered, sounded. by rewrite <- !app_assoc.
Qed.

(** ** A sounding that times out *)

(** Once the time for the sounding is over, the callback raises an event the
    state does not handle. *)
Lemma sounding_overdue {D : SlacDefs} (clock draw : nat -> Z) {F : Fsm (ev_states clock draw)}
    {FL : FsmLaws F} (s : SoundingState) c r d :
  milliseconds_left (clock r) (sounding_timeout s) <= 0 ->
  fsm_feed (Fsm := F) (mkObject c (SoundingState_ s) r d)
  = (Ok unhandled_event, mkObject c (SoundingState_ s) (S r) d, []).
Proof.
  intros Ht. rewrite fsm_feed_law. unfold ebind at 1. cbn [state_callback ev_states this].
  unfold as_current, SoundingState_callback, steady_clock_now. cbn.
  rewrite (proj2 (Z.leb_le _ _) Ht). cbn. unfold ebind. rewrite fsm_handle_event_law. done.
Qed.

Lemma round_overdue {D : SlacDefs} (clock draw : nat -> Z) {F : Fsm (ev_states clock draw)}
    {FL : FsmLaws F} (s : SoundingState) c r d new :
  milliseconds_left (clock r) (sounding_timeout s) <= 0 ->
  run_round (F := F) (mkController (mkObject c (SoundingState_ s) r d) true new feeding)
  = (Ok tt, mkController (mkObject c (SoundingState_ s) (S r) d) true false feeding, []).
Proof.
  intros Ht. unfold run_round, ebind, on_machine. cbn [machine].
  by rewrite (sounding_overdue clock draw) by done.
Qed.

(** From then on the thread of the car feeds the machine without ever waiting:
    it keeps the mutex, so that no message and no reset is handled any more. *)
Example sounding_timeout_keeps_mutex {D : SlacDefs} (clock draw : nat -> Z)
    {F : Fsm (ev_states clock draw)} {FL : FsmLaws F} (s : SoundingState) c r d n new :
  (forall n, (r <= n)%nat -> milliseconds_left (clock n) (sounding_timeout s) <= 0) ->
  exists r' new',
    run_state (efor (replicate n tt) (fun _ => run_round (F := F)))
      (mkController (mkObject c (SoundingState_ s) r d) true new feeding)
    = mkController (mkObject c (SoundingState_ s) r' d) true new' feeding
    /\ forall op, ev_enabled op (mkController (mkObject c (SoundingState_ s) r' d) true new' feeding) = true
                  -> op = EvNotify \/ op = EvRound.
Proof.
  intros Ht.
  assert (exists r' new',
    efor (replicate n tt) (fun _ => run_round (F := F))
      (mkController (mkObject c (SoundingState_ s) r d) true new feeding)
    = (Ok tt, mkController (mkObject c (SoundingState_ s) r' d) true new' feeding, [])) as (r' & new' & H).
  { revert r new Ht. induction n as [|n IH]; intros r new Ht; [by eexists _, _|].
    destruct (IH (S r) false) as (r' & new' & E); [intros; apply Ht; lia|].
    exists r', new'. cbn [replicate efor]. unfold ebind at 1.
    rewrite (round_overdue clock draw) by auto. by rewrite E. }
  exists r', new'. unfold run_state. rewrite H. split; [done|].
  intros [msg| |[]| |]; cbn; try done; auto.
Qed.

(** ** A car and a charging point *)

(** The power line of the repository's test [evse_vs_ev]: it gives messages
    their sender, lets the modems confirm their keys, and measures the
    attenuation of each sound. *)
Definition to_evse (o : ev_output) : list HomeplugMessage :=
  match o with
  | ev_send_raw_slac _ (CM_SET_KEY_REQ _) => []
  | ev_send_raw_slac _ (CM_MNBC_SOUND_IND m) =>
      [mkHomeplug ev_address (CM_MNBC_SOUND_IND m);
       mkHomeplug modem_address (CM_ATTEN_PROFILE_IND (mkProfile ev_address 58 (replicate 58 20)))]
  | ev_send_raw_slac _ m => [mkHomeplug ev_address m]
  | _ => []
  end.

Definition confirm_to_ev (o : ev_output) : list HomeplugMessage :=
  match o with
  | ev_send_raw_slac _ (CM_SET_KEY_REQ _) => [mkHomeplug modem_address CM_SET_KEY_CNF]
  | _ => []
  end.

Definition to_ev (o : slac_output) : list HomeplugMessage :=
  match o with
  | send_raw_slac _ (CM_SET_KEY_REQ _) => []
  | send_raw_slac _ m => [mkHomeplug evse_address m]
  | _ => []
  end.

Definition evse_ops_for (msgs : list HomeplugMessage) : list evse_op :=
  (msg ← msgs; [Message msg; Notify; Wake; Round; Round]) ++ [Wake; Round].
Definition ev_ops_for (msgs : list HomeplugMessage) : list ev_op :=
  (msg ← msgs; [EvMessage msg; EvNotify; EvWake; EvRound; EvRound]) ++ [EvWake; EvRound].

Definition made_since {Op Out} (n : nat) (l : list (entry Op Out)) : list Out :=
  omap (fun e => match e with made o => Some o | did _ => None end) (drop n l).

Definition ev_clock (n : nat) : Z := Z.of_nat n * 20000000.
Definition ev_context : EvContext := mkEvContext default_plc_peer_mac no_message.
Abbreviation ev_history ops := (ev_slac_history ev_clock some_draw ev_context ops).

(** The operations of both sides, and how much of their logs has been
    delivered. *)
Record power_line := mkLine {
  evse_side : list evse_op;
  ev_side : list ev_op;
  evse_heard : nat;
  ev_heard : nat
}.
Abbreviation evse_of s := (evse_history tick_clock example_config (evse_side s)).
Abbreviation ev_of s := (ev_history (ev_side s)).

Definition exchange (s : power_line) : power_line :=
  let ev_log := log (ev_of s) in
  let evse_log := log (evse_of s) in
  let sent_ev := made_since (ev_heard s) ev_log in
  let sent_evse := made_since (evse_heard s) evse_log in
  mkLine (evse_side s ++ evse_ops_for (sent_ev ≫= to_evse))
    (ev_side s ++ ev_ops_for ((sent_evse ≫= to_ev) ++ (sent_ev ≫= confirm_to_ev)))
    (length evse_log) (length ev_log).

Definition plugged_in : power_line :=
  mkLine setup [EvRound; EvSignal EvEvent.TRIGGER_MATCHING; EvWake; EvRound]
    (length (log (evse_history tick_clock example_config setup))) 0.

Definition keys_joined (l : ev_log) : list bytes :=
  omap (fun e => match e with
                 | made (ev_send_raw_slac _ (CM_SET_KEY_REQ k)) => Some (sk_new_key k)
                 | _ => None
                 end) l.

Definition after_exchanges : power_line := Nat.iter 24 exchange plugged_in.

(** The test of the repository: both sides are matched in the end, with the
    key of the charging point. *)
Example car_and_charging_point_match :
  this (machine (controller (evse_of after_exchanges))) = MatchedState false
  /\ this (machine (controller (ev_of after_exchanges))) = EvMatchedState
  /\ keys_joined (log (ev_of after_exchanges))
     = [session_nmk (slac_config (ctx (machine (controller (evse_of after_exchanges)))))].
Proof. vm_compute. repeat split; reflexivity. Qed.

Lemma example_key_joined :
  exists l1 mac k l2,
    log (ev_of after_exchanges) = l1 ++ made (ev_send_raw_slac mac (CM_SET_KEY_REQ k)) :: l2.
Proof.
  assert (keys_joined (log (ev_of after_exchanges)) <> []) as H by (vm_compute; discriminate).
  revert H. generalize (log (ev_of after_exchanges)) as l. clear.
  induction l as [|e l IH]; [done|]. intros H.
  destruct e as [op|[mac m|st]]; [| |].
  - destruct (IH H) as (l1 & mac & k & l2 & ->). by exists (did op :: l1), mac, k, l2.
  - destruct m; try (destruct (IH H) as (l1 & mac' & k & l2 & ->);
      by eexists (made (ev_send_raw_slac mac _) :: l1), mac', k, l2).
    by exists [], mac, m, l.
  - destruct (IH H) as (l1 & mac & k & l2 & ->). by exists (made (ev_signalled_state st) :: l1), mac, k, l2.
Qed.

Lemma ev_joins_after_matching_witness :
  exists l1 mac k l2,
    log (ev_of after_exchanges) = l1 ++ made (ev_send_raw_slac mac (CM_SET_KEY_REQ k)) :: l2
    /\ exists p, in_order (got_parm_cnf p :: replicate 10 (gave_sound p)
                           ++ [got_atten_char p; gave_atten_rsp p; gave_match_req p;
                               got_match_cnf p (sk_new_key k)]) l1.
Proof.
  destruct example_key_joined as (l1 & mac & k & l2 & H). exists l1, mac, k, l2.
  split; [exact H|].
  exact (ev_joins_after_matching ev_clock some_draw _ _ _ _ _ _ _ H).
Defined.
