(* ===== verification/V2gTypes.v ===== *)
(** * EvseV2G: messages and context

    The server of ISO 15118-2 and DIN SPEC 70121, [modules/EVSE/EvseV2G]: the
    types of [v2g.hpp], and of the structures of the EXI library the fields the
    server reads or writes.  A field that comes with a flag [_isUsed] keeps it,
    since the server also reads fields whose flag is not set: a request is
    zeroed before it is decoded, so that they hold 0.  Values of enumerations
    that are stored in bytes are values of the enumeration.  Numbers the source
    has as [float] or [double] are rational; [NaN], which the values of the car
    start with, is [None]. *)
From S2P Require Import Prelude Effects.
From stdpp Require Import base tactics list numbers strings.
From Stdlib Require Import QArith.
Open Scope Z_scope.
Open Scope everest_scope.

Abbreviation bytes := (list Z).

(** ** Enumerations *)

(** [V2gMsgTypeId], in its order. *)
Module V2gMsgTypeId.
Inductive t :=
| V2G_SUPPORTED_APP_PROTOCOL_MSG
| V2G_SESSION_SETUP_MSG
| V2G_SERVICE_DISCOVERY_MSG
| V2G_SERVICE_DETAIL_MSG
| V2G_PAYMENT_SERVICE_SELECTION_MSG
| V2G_PAYMENT_DETAILS_MSG
| V2G_AUTHORIZATION_MSG
| V2G_CHARGE_PARAMETER_DISCOVERY_MSG
| V2G_METERING_RECEIPT_MSG
| V2G_CERTIFICATE_UPDATE_MSG
| V2G_CERTIFICATE_INSTALLATION_MSG
| V2G_CHARGING_STATUS_MSG
| V2G_CABLE_CHECK_MSG
| V2G_PRE_CHARGE_MSG
| V2G_POWER_DELIVERY_MSG
| V2G_CURRENT_DEMAND_MSG
| V2G_WELDING_DETECTION_MSG
| V2G_SESSION_STOP_MSG
| V2G_UNKNOWN_MSG.

#[global] Instance t_eq_dec : EqDecision t.
Proof. solve_decision. Defined.

Definition to_Z (m : t) : Z :=
  match m with
  | V2G_SUPPORTED_APP_PROTOCOL_MSG => 0
  | V2G_SESSION_SETUP_MSG => 1
  | V2G_SERVICE_DISCOVERY_MSG => 2
  | V2G_SERVICE_DETAIL_MSG => 3
  | V2G_PAYMENT_SERVICE_SELECTION_MSG => 4
  | V2G_PAYMENT_DETAILS_MSG => 5
  | V2G_AUTHORIZATION_MSG => 6
  | V2G_CHARGE_PARAMETER_DISCOVERY_MSG => 7
  | V2G_METERING_RECEIPT_MSG => 8
  | V2G_CERTIFICATE_UPDATE_MSG => 9
  | V2G_CERTIFICATE_INSTALLATION_MSG => 10
  | V2G_CHARGING_STATUS_MSG => 11
  | V2G_CABLE_CHECK_MSG => 12
  | V2G_PRE_CHARGE_MSG => 13
  | V2G_POWER_DELIVERY_MSG => 14
  | V2G_CURRENT_DEMAND_MSG => 15
  | V2G_WELDING_DETECTION_MSG => 16
  | V2G_SESSION_STOP_MSG => 17
  | V2G_UNKNOWN_MSG => 18
  end.

Definition eqb (a b : t) : bool := to_Z a =? to_Z b.

Lemma eqb_spec a b : eqb a b = true <-> a = b.
Proof. unfold eqb. rewrite Z.eqb_eq. destruct a, b; cbn; split; intros H; congruence. Qed.
End V2gMsgTypeId.
Import (notations) V2gMsgTypeId.

(** The response codes of the two protocols, in the order of the tables
    [isoResponse] and [dinResponse]; the last two belong to DIN only. *)
Module ResponseCode.
Inductive t :=
| OK
| OK_NewSessionEstablished
| OK_OldSessionJoined
| OK_CertificateExpiresSoon
| FAILED
| FAILED_SequenceError
| FAILED_ServiceIDInvalid
| FAILED_UnknownSession
| FAILED_ServiceSelectionInvalid
| FAILED_PaymentSelectionInvalid
| FAILED_CertificateExpired
| FAILED_SignatureError
| FAILED_NoCertificateAvailable
| FAILED_CertChainError
| FAILED_ChallengeInvalid
| FAILED_ContractCanceled
| FAILED_WrongChargeParameter
| FAILED_PowerDeliveryNotApplied
| FAILED_TariffSelectionInvalid
| FAILED_ChargingProfileInvalid
| FAILED_MeteringSignatureNotValid
| FAILED_NoChargeServiceSelected
| FAILED_WrongEnergyTransferMode
| FAILED_ContactorError
| FAILED_CertificateNotAllowedAtThisEVSE
| FAILED_CertificateRevoked
| FAILED_EVSEPresentVoltageToLow
| FAILED_WrongEnergyTransferType.

#[global] Instance t_eq_dec : EqDecision t.
Proof. solve_decision. Defined.

(** [code >= FAILED]. *)
Definition failed (c : t) : bool :=
  match c with
  | OK | OK_NewSessionEstablished | OK_OldSessionJoined | OK_CertificateExpiresSoon => false
  | _ => true
  end.

Definition is_OK (c : t) : bool := match c with OK => true | _ => false end.
End ResponseCode.

Inductive v2g_event :=
| V2G_EVENT_NO_EVENT
| V2G_EVENT_TERMINATE_CONNECTION
| V2G_EVENT_SEND_AND_TERMINATE
| V2G_EVENT_SEND_RECV_EXI_MSG
| V2G_EVENT_IGNORE_MSG.

Inductive v2g_protocol :=
| V2G_PROTO_DIN70121
| V2G_PROTO_ISO15118_2010
| V2G_PROTO_ISO15118_2013
| V2G_PROTO_ISO15118_2015
| V2G_UNKNOWN_PROTOCOL.
#[global] Instance v2g_protocol_eq_dec : EqDecision v2g_protocol.
Proof. solve_decision. Defined.

Definition V2G_SERVICE_ID_CHARGING : Z := 1.
Definition V2G_SERVICE_ID_CERTIFICATE : Z := 2.
Definition V2G_SERVICE_ID_INTERNET : Z := 3.

Inductive charging_phase :=
| PHASE_INIT
| PHASE_AUTH
| PHASE_PARAMETER
| PHASE_ISOLATION
| PHASE_PRECHARGE
| PHASE_CHARGE
| PHASE_WELDING
| PHASE_STOP.
#[global] Instance charging_phase_eq_dec : EqDecision charging_phase.
Proof. solve_decision. Defined.

(** An array indexed by the phases, and [a[p] = v]. *)
Definition per_phase (T : Type) : Type := charging_phase -> T.
Definition set_phase {T} (p : charging_phase) (v : T) (a : per_phase T) : per_phase T :=
  fun q => if bool_decide (q = p) then v else a q.

Inductive EVSEProcessing := Finished | Ongoing | Ongoing_WaitingForCustomerInteraction.
#[global] Instance EVSEProcessing_eq_dec : EqDecision EVSEProcessing.
Proof. solve_decision. Defined.
Definition is_finished (p : EVSEProcessing) : bool :=
  match p with Finished => true | _ => false end.

Inductive EVSENotification := Notification_None | StopCharging | ReNegotiation.
Inductive IsolationStatus := Iso_Invalid | Iso_Valid | Iso_Warning | Iso_Fault | Iso_No_IMD.

Inductive EVSEStatusCode :=
| EVSE_NotReady
| EVSE_Ready
| EVSE_Shutdown
| EVSE_UtilityInterruptEvent
| EVSE_IsolationMonitoringActive
| EVSE_EmergencyShutdown
| EVSE_Malfunction.
Definition is_ready (c : EVSEStatusCode) : bool :=
  match c with EVSE_Ready => true | _ => false end.

Inductive paymentOption := Contract | ExternalPayment.
Definition is_contract (o : paymentOption) : bool :=
  match o with Contract => true | ExternalPayment => false end.

Inductive EnergyTransferMode :=
| AC_single_phase_core | AC_three_phase_core
| DC_core | DC_extended | DC_combo_core | DC_unique.
#[global] Instance EnergyTransferMode_eq_dec : EqDecision EnergyTransferMode.
Proof. solve_decision. Defined.

Inductive serviceCategory := EVCharging | Internet | ContractCertificate | OtherCustom.
Inductive unitSymbol := unit_h | unit_m | unit_s | unit_A | unit_V | unit_W | unit_Wh.
Inductive NoEnergyPauseStatus :=
| NoPause | AllowEvToIgnorePause | AfterCableCheckPreCharge | BeforeCableCheck.

(** A value the schema does not have may arrive: the [default] of the switch. *)
Inductive chargeProgress := Start | Stop | Renegotiate | UnknownProgress.
Inductive chargingSession := Terminate | Pause | UnknownSession.

Inductive mqtt_dlink_action :=
| MQTT_DLINK_ACTION_ERROR | MQTT_DLINK_ACTION_TERMINATE | MQTT_DLINK_ACTION_PAUSE.

(** ** Parts of messages *)

(** [Value * 10^Multiplier] of a unit. *)
Record PhysicalValue := mkPhysical { Multiplier : Z; Unit : unitSymbol; Value : Z }.

Record DC_EVStatus := mkEvStatus { EVErrorCode : Z; EVReady : Z; EVRESSSOC : Z }.

Record DC_EVSEStatus := mkEvseStatus {
  EVSEIsolationStatus : IsolationStatus;
  EVSEIsolationStatus_isUsed : bool;
  st_EVSENotification : EVSENotification;
  st_EVSEStatusCode : EVSEStatusCode;
  NotificationMaxDelay : Z
}.
#[global] Instance eta_DC_EVSEStatus : Eta DC_EVSEStatus := fun r =>
  mkEvseStatus (EVSEIsolationStatus r) (EVSEIsolationStatus_isUsed r) (st_EVSENotification r)
    (st_EVSEStatusCode r) (NotificationMaxDelay r).

Record AC_EVSEStatus := mkAcStatus {
  ac_EVSENotification : EVSENotification;
  ac_NotificationMaxDelay : Z;
  RCD : bool
}.

Record PMaxScheduleEntry := mkPMaxEntry {
  PMax : PhysicalValue;
  ti_start : Z;
  ti_duration_isUsed : bool;
  ti_duration : Z
}.
Record SAScheduleTuple := mkTuple {
  SAScheduleTupleID : Z;
  PMaxSchedule : list PMaxScheduleEntry
}.
#[global] Instance eta_SAScheduleTuple : Eta SAScheduleTuple := fun r =>
  mkTuple (SAScheduleTupleID r) (PMaxSchedule r).

Record ProfileEntry := mkProfileEntry {
  ChargingProfileEntryStart : Z;
  ChargingProfileEntryMaxPower : PhysicalValue
}.

(** A service; a name or scope that is not used is [None]. *)
Record Service := mkService {
  ServiceID : Z;
  ServiceName : option string;
  ServiceCategory : serviceCategory;
  ServiceScope : option string;
  FreeService : bool
}.
#[global] Instance eta_Service : Eta Service := fun r =>
  mkService (ServiceID r) (ServiceName r) (ServiceCategory r) (ServiceScope r) (FreeService r).

(** The charge service also lists the energy transfer modes: an array whose
    first [modes_len] entries count. *)
Record ChargeService := mkChargeService {
  cs_service : Service;
  modes : list EnergyTransferMode;
  modes_len : nat
}.
#[global] Instance eta_ChargeService : Eta ChargeService := fun r =>
  mkChargeService (cs_service r) (modes r) (modes_len r).

(** A parameter of a service: at most one value is used. *)
Inductive ParameterValue :=
| intValue (z : Z)
| stringValue (s : string)
| boolValue (b : bool)
| byteValue (z : Z)
| shortValue (z : Z)
| physicalValue (p : PhysicalValue)
| noValue.
Record ServiceParameter := mkServiceParameter { Name : string; param_value : ParameterValue }.
Record ParameterSet := mkParameterSet { ParameterSetID : Z; set_Parameters : list ServiceParameter }.

(** What a provider of value added services answers. *)
Record VasValue := mkVasValue {
  int_value : option Z;
  finite_string : option string;
  bool_value : option bool;
  byte_value : option Z;
  short_value : option Z;
  rational_number : option Q
}.
Record VasParameter := mkVasParameter { vas_name : string; vas_value : VasValue }.
Record VasParameterSet := mkVasParameterSet { set_id : Z; vas_parameters : list VasParameter }.

Record SelectedService := mkSelected {
  sel_ServiceID : Z;
  sel_ParameterSetID_isUsed : bool;
  sel_ParameterSetID : Z
}.

(** A token for Plug&Charge. *)
Record PncToken := mkPncToken {
  pnc_emaid : string;
  pnc_certificate : string;
  pnc_hash_data : option (list string)
}.

(** ** Requests *)

Record AC_EVChargeParameter := mkAcParam {
  ac_DepartureTime_isUsed : bool;
  ac_DepartureTime : Z;
  EAmount : PhysicalValue;
  EVMaxVoltage : PhysicalValue;
  EVMaxCurrent : PhysicalValue;
  EVMinCurrent : PhysicalValue
}.
Record DC_EVChargeParameter := mkDcParam {
  dc_DepartureTime_isUsed : bool;
  dc_DepartureTime : Z;
  dc_DC_EVStatus : DC_EVStatus;
  dc_EVMaximumCurrentLimit : PhysicalValue;
  dc_EVMaximumPowerLimit_isUsed : bool;
  dc_EVMaximumPowerLimit : PhysicalValue;
  dc_EVMaximumVoltageLimit : PhysicalValue;
  EVEnergyCapacity_isUsed : bool;
  EVEnergyCapacity : PhysicalValue;
  EVEnergyRequest_isUsed : bool;
  EVEnergyRequest : PhysicalValue;
  FullSOC_isUsed : bool;
  FullSOC : Z;
  BulkSOC_isUsed : bool;
  BulkSOC : Z
}.
Record ChargeParameterDiscoveryReq := mkChargeParameterReq {
  MaxEntriesSAScheduleTuple_isUsed : bool;
  MaxEntriesSAScheduleTuple : Z;
  RequestedEnergyTransferMode : EnergyTransferMode;
  AC_EVChargeParameter_isUsed : bool;
  req_AC_EVChargeParameter : AC_EVChargeParameter;
  DC_EVChargeParameter_isUsed : bool;
  req_DC_EVChargeParameter : DC_EVChargeParameter
}.

Record PaymentServiceSelectionReq := mkPaymentReq {
  SelectedPaymentOption : paymentOption;
  SelectedServiceList : list SelectedService
}.
Record PaymentDetailsReq := mkPaymentDetailsReq {
  eMAID : string;
  ContractCertificate_bytes : bytes;
  SubCertificates_isUsed : bool;
  SubCertificates : list bytes
}.

(** The signature of the header is passed on as it is; the fragment that was
    signed is the encoded request. *)
Record AuthorizationReq := mkAuthorizationReq {
  GenChallenge_isUsed : bool;
  req_GenChallenge : bytes;
  Signature_isUsed : bool;
  Signature : bytes;
  authorization_fragment : bytes
}.

Record PowerDeliveryReq := mkPowerDeliveryReq {
  ChargeProgress : chargeProgress;
  pd_SAScheduleTupleID : Z;
  ChargingProfile_isUsed : bool;
  ChargingProfile : list ProfileEntry;
  DC_EVPowerDeliveryParameter_isUsed : bool;
  pd_DC_EVStatus : DC_EVStatus;
  pd_BulkChargingComplete_isUsed : bool;
  pd_BulkChargingComplete : Z;
  pd_ChargingComplete : Z
}.
Record PreChargeReq := mkPreChargeReq {
  pc_DC_EVStatus : DC_EVStatus;
  pc_EVTargetVoltage : PhysicalValue;
  pc_EVTargetCurrent : PhysicalValue
}.
Record CurrentDemandReq := mkCurrentDemandReq {
  cd_DC_EVStatus : DC_EVStatus;
  cd_EVTargetCurrent : PhysicalValue;
  cd_EVMaximumVoltageLimit_isUsed : bool;
  cd_EVMaximumVoltageLimit : PhysicalValue;
  cd_EVMaximumCurrentLimit_isUsed : bool;
  cd_EVMaximumCurrentLimit : PhysicalValue;
  cd_EVMaximumPowerLimit_isUsed : bool;
  cd_EVMaximumPowerLimit : PhysicalValue;
  cd_BulkChargingComplete_isUsed : bool;
  cd_BulkChargingComplete : Z;
  cd_ChargingComplete : Z;
  RemainingTimeToFullSoC_isUsed : bool;
  RemainingTimeToFullSoC : PhysicalValue;
  RemainingTimeToBulkSoC_isUsed : bool;
  RemainingTimeToBulkSoC : PhysicalValue;
  cd_EVTargetVoltage : PhysicalValue
}.

(** The body of a message of ISO 15118-2: the element it has. *)
Inductive iso2_request :=
| SessionSetupReq (EVCCID : bytes)
| ServiceDiscoveryReq (scope : option string)
| ServiceDetailReq (id : Z)
| PaymentServiceSelectionReq_ (r : PaymentServiceSelectionReq)
| PaymentDetailsReq_ (r : PaymentDetailsReq)
| AuthorizationReq_ (r : AuthorizationReq)
| ChargeParameterDiscoveryReq_ (r : ChargeParameterDiscoveryReq)
| PowerDeliveryReq_ (r : PowerDeliveryReq)
| ChargingStatusReq
| MeteringReceiptReq
| CertificateUpdateReq
| CertificateInstallationReq
| CableCheckReq (status : DC_EVStatus)
| PreChargeReq_ (r : PreChargeReq)
| CurrentDemandReq_ (r : CurrentDemandReq)
| WeldingDetectionReq (status : DC_EVStatus)
| SessionStopReq (session : chargingSession)
| no_request.

Record DinPowerDeliveryReq := mkDinPowerDeliveryReq {
  ReadyToChargeState : Z;
  din_ChargingProfile_isUsed : bool;
  din_SAScheduleTupleID : Z;
  din_profile : list (Z * Z);
  din_DC_EVPowerDeliveryParameter_isUsed : bool;
  din_pd_DC_EVStatus : DC_EVStatus;
  din_pd_BulkChargingComplete_isUsed : bool;
  din_pd_BulkChargingComplete : Z;
  din_pd_ChargingComplete : Z
}.
Inductive din_request :=
| DinSessionSetupReq (EVCCID : bytes)
| DinServiceDiscoveryReq
| DinServicePaymentSelectionReq (r : PaymentServiceSelectionReq)
| DinContractAuthenticationReq
| DinChargeParameterDiscoveryReq (r : ChargeParameterDiscoveryReq)
| DinPowerDeliveryReq_ (r : DinPowerDeliveryReq)
| DinCableCheckReq (status : DC_EVStatus)
| DinPreChargeReq (r : PreChargeReq)
| DinCurrentDemandReq (r : CurrentDemandReq)
| DinWeldingDetectionReq (status : DC_EVStatus)
| DinSessionStopReq
| din_not_supported   (** [PaymentDetails], [ServiceDetail], [ChargingStatus],
                          [MeteringReceipt], [CertificateUpdate] and
                          [CertificateInstallation] *)
| din_no_request.

(** ** Responses *)

Record ChargeParameterDiscoveryRes := mkChargeParameterRes {
  cp_EVSEProcessing : EVSEProcessing;
  cp_SAScheduleList : option (list SAScheduleTuple);
  cp_AC : option (AC_EVSEStatus * PhysicalValue * PhysicalValue);  (** maximum current, nominal voltage *)
  cp_DC : option DC_EVSEStatus;
  cp_EVSECurrentRegulationTolerance : option PhysicalValue;
  cp_EVSEEnergyToBeDelivered : option PhysicalValue;
  cp_limits : list (option PhysicalValue)   (** maximum current, power and voltage, minimum current and
                                       voltage, peak current ripple *)
}.
Record MeterInfo := mkMeterInfo { MeterID : string; MeterReading : Z }.
Record CurrentDemandRes := mkCurrentDemandRes {
  cdr_DC_EVSEStatus : DC_EVSEStatus;
  EVSEPresentVoltage : PhysicalValue;
  EVSEPresentCurrent : PhysicalValue;
  EVSECurrentLimitAchieved : bool;
  EVSEVoltageLimitAchieved : bool;
  EVSEPowerLimitAchieved : bool;
  cdr_EVSEMaximumVoltageLimit : option PhysicalValue;
  cdr_EVSEMaximumCurrentLimit : option PhysicalValue;
  cdr_EVSEMaximumPowerLimit : option PhysicalValue;
  cdr_EVSEID : string;
  cdr_SAScheduleTupleID : Z;
  cdr_MeterInfo : option MeterInfo;
  cdr_ReceiptRequired_isUsed : bool;
  cdr_ReceiptRequired : bool
}.
#[global] Instance eta_CurrentDemandRes : Eta CurrentDemandRes := fun r =>
  mkCurrentDemandRes (cdr_DC_EVSEStatus r) (EVSEPresentVoltage r) (EVSEPresentCurrent r)
    (EVSECurrentLimitAchieved r) (EVSEVoltageLimitAchieved r) (EVSEPowerLimitAchieved r)
    (cdr_EVSEMaximumVoltageLimit r) (cdr_EVSEMaximumCurrentLimit r) (cdr_EVSEMaximumPowerLimit r)
    (cdr_EVSEID r) (cdr_SAScheduleTupleID r) (cdr_MeterInfo r) (cdr_ReceiptRequired_isUsed r)
    (cdr_ReceiptRequired r).

Record ChargingStatusRes := mkChargingStatusRes {
  csr_EVSEID : string;
  csr_SAScheduleTupleID : Z;
  csr_EVSEMaxCurrent : option PhysicalValue;
  csr_MeterInfo : option MeterInfo;
  csr_ReceiptRequired : bool;
  csr_AC_EVSEStatus : AC_EVSEStatus
}.

(** What a response carries besides its code; a field that is not used is
    [None]. *)
Inductive response_body :=
| SessionSetupRes (EVSEID : string) (EVSETimeStamp : option Z)
| ServiceDiscoveryRes (payment_options : list paymentOption) (charge_service : ChargeService)
    (service_list : option (list Service))
| ServiceDetailRes (id : Z) (parameter_list : option (list ParameterSet))
| PaymentServiceSelectionRes
| PaymentDetailsRes (GenChallenge : bytes) (EVSETimeStamp : Z)
| AuthorizationRes (EVSEProcessing : EVSEProcessing)
| ChargeParameterDiscoveryRes_ (r : ChargeParameterDiscoveryRes)
| PowerDeliveryRes (ac : option AC_EVSEStatus) (dc : option DC_EVSEStatus)
| ChargingStatusRes_ (r : ChargingStatusRes)
| MeteringReceiptRes (ac : option AC_EVSEStatus)
| CertificateUpdateRes
| CertificateInstallationRes
| CableCheckRes (status : DC_EVSEStatus) (EVSEProcessing : EVSEProcessing)
| PreChargeRes (status : DC_EVSEStatus) (EVSEPresentVoltage : PhysicalValue)
| CurrentDemandRes_ (r : CurrentDemandRes)
| WeldingDetectionRes (status : DC_EVSEStatus) (EVSEPresentVoltage : PhysicalValue)
| SessionStopRes
| CertificateInstallationExi (exi : bytes)   (** the message of the backend *)
| no_response.

Record response := mkResponse { code : ResponseCode.t; body : response_body }.

(** ** The context *)

Record SAE_Bidi_Data := mkBidi {
  enabled_sae_v2h : bool;
  enabled_sae_v2g : bool;
  sae_v2h_minimal_soc : Z;
  discharging : bool
}.
#[global] Instance eta_SAE_Bidi_Data : Eta SAE_Bidi_Data := fun r =>
  mkBidi (enabled_sae_v2h r) (enabled_sae_v2g r) (sae_v2h_minimal_soc r) (discharging r).

Record PowerCapabilities := mkCapabilities {
  max_current : PhysicalValue;
  min_current : PhysicalValue;
  max_power : PhysicalValue;
  max_voltage : PhysicalValue;
  min_voltage : PhysicalValue
}.
#[global] Instance eta_PowerCapabilities : Eta PowerCapabilities := fun r =>
  mkCapabilities (max_current r) (min_current r) (max_power r) (max_voltage r) (min_voltage r).

(** [evse_v2g_data]; [payment_option_list] is an array of two. *)
Record evse_data := mkEvseData {
  session_id : Z;
  notification_max_delay : Z;
  evse_isolation_status : IsolationStatus;
  evse_isolation_status_is_used : bool;
  evse_notification : EVSENotification;
  evse_status_code : per_phase EVSEStatusCode;
  evse_processing : per_phase EVSEProcessing;
  evse_id : string;
  date_time_now_is_used : bool;
  charge_service : ChargeService;
  evse_service_list : list Service;
  service_parameter_list : list (Z * list ParameterSet);
  evse_sa_schedule_list : list SAScheduleTuple;
  evse_sa_schedule_list_is_used : bool;
  payment_option_list : paymentOption * paymentOption;
  payment_option_list_len : nat;
  central_contract_validation_allowed : bool;
  cert_install_status : bool;
  cert_install_res_b64_buffer : string;
  rcd : bool;
  receipt_required : bool;
  evse_current_regulation_tolerance : PhysicalValue;
  evse_current_regulation_tolerance_is_used : bool;
  evse_energy_to_be_delivered : PhysicalValue;
  evse_energy_to_be_delivered_is_used : bool;
  evse_maximum_current_limit : PhysicalValue;
  evse_maximum_current_limit_is_used : bool;
  evse_current_limit_achieved : bool;
  evse_maximum_power_limit : PhysicalValue;
  evse_maximum_power_limit_is_used : bool;
  evse_power_limit_achieved : bool;
  evse_maximum_voltage_limit : PhysicalValue;
  evse_maximum_voltage_limit_is_used : bool;
  evse_voltage_limit_achieved : bool;
  evse_minimum_current_limit : PhysicalValue;
  evse_minimum_voltage_limit : PhysicalValue;
  evse_peak_current_ripple : PhysicalValue;
  evse_present_voltage : PhysicalValue;
  evse_present_current : PhysicalValue;
  evse_nominal_voltage : PhysicalValue;
  sae_bidi_data : SAE_Bidi_Data;
  no_energy_pause : NoEnergyPauseStatus;
  power_capabilities : PowerCapabilities
}.
#[global] Instance eta_evse_data : Eta evse_data := fun r =>
  mkEvseData (session_id r) (notification_max_delay r) (evse_isolation_status r)
    (evse_isolation_status_is_used r) (evse_notification r) (evse_status_code r) (evse_processing r)
    (evse_id r) (date_time_now_is_used r) (charge_service r) (evse_service_list r)
    (service_parameter_list r) (evse_sa_schedule_list r) (evse_sa_schedule_list_is_used r)
    (payment_option_list r) (payment_option_list_len r) (central_contract_validation_allowed r)
    (cert_install_status r) (cert_install_res_b64_buffer r) (rcd r) (receipt_required r)
    (evse_current_regulation_tolerance r) (evse_current_regulation_tolerance_is_used r)
    (evse_energy_to_be_delivered r) (evse_energy_to_be_delivered_is_used r)
    (evse_maximum_current_limit r) (evse_maximum_current_limit_is_used r)
    (evse_current_limit_achieved r) (evse_maximum_power_limit r) (evse_maximum_power_limit_is_used r)
    (evse_power_limit_achieved r) (evse_maximum_voltage_limit r)
    (evse_maximum_voltage_limit_is_used r) (evse_voltage_limit_achieved r)
    (evse_minimum_current_limit r) (evse_minimum_voltage_limit r) (evse_peak_current_ripple r)
    (evse_present_voltage r) (evse_present_current r) (evse_nominal_voltage r) (sae_bidi_data r)
    (no_energy_pause r) (power_capabilities r).

(** [session]; [certificate_revoked] is the comparison of [certificate_status]
    with [CertificateRevoked], its only use. *)
Record session_data := mkSession {
  iso_selected_payment_option : paymentOption;
  auth_start_timeout : Z;
  auth_timeout_eim : Z;
  auth_timeout_pnc : Z;
  gen_challenge : bytes;
  verify_contract_cert_chain : bool;
  certificate_revoked : bool;
  authorization_rejected : bool;
  provided_id_token : option PncToken;
  renegotiation_required : bool;
  is_charging : bool;
  sa_schedule_tuple_id : Z
}.
#[global] Instance eta_session_data : Eta session_data := fun r =>
  mkSession (iso_selected_payment_option r) (auth_start_timeout r) (auth_timeout_eim r)
    (auth_timeout_pnc r) (gen_challenge r) (verify_contract_cert_chain r) (certificate_revoked r)
    (authorization_rejected r) (provided_id_token r) (renegotiation_required r) (is_charging r)
    (sa_schedule_tuple_id r).

(** [ev_v2g_data]; the two variants of the status share their fields. *)
Record ev_data := mkEvData {
  bulk_charging_complete : Z;
  charging_complete : Z;
  received_session_id : Z;
  dc_ev_status : DC_EVStatus;
  ev_maximum_current_limit : option Q;
  ev_maximum_power_limit : option Q;
  ev_maximum_voltage_limit : option Q;
  v2g_target_current : option Q;
  v2g_target_voltage : option Q;
  remaining_time_to_bulk_soc : option Q;
  remaining_time_to_full_soc : option Q
}.
#[global] Instance eta_ev_data : Eta ev_data := fun r =>
  mkEvData (bulk_charging_complete r) (charging_complete r) (received_session_id r) (dc_ev_status r)
    (ev_maximum_current_limit r) (ev_maximum_power_limit r) (ev_maximum_voltage_limit r)
    (v2g_target_current r) (v2g_target_voltage r) (remaining_time_to_bulk_soc r)
    (remaining_time_to_full_soc r).

(** [v2g_context], without sockets, locks and logging; [supported_din] and
    [supported_iso] are the two bits of [supported_protocols] that are used.
    The last three are the static variables of functions. *)
Record v2g_context := mkContext {
  evse_ac_current_limit : Q;
  last_v2g_msg : V2gMsgTypeId.t;
  current_v2g_msg : V2gMsgTypeId.t;
  state : Z;
  is_dc_charger : bool;
  debugMode : bool;
  supported_din : bool;
  supported_iso : bool;
  selected_protocol : v2g_protocol;
  intl_emergency_shutdown : bool;
  stop_hlc : bool;
  is_connection_terminated : bool;
  terminate_connection_on_failed_response : bool;
  contactor_is_closed : bool;
  meter_info_is_used : bool;
  meter_reading : Z;
  meter_id : string;
  evse_v2g_data : evse_data;
  session : session_data;
  ev_v2g_data : ev_data;
  hlc_pause_active : bool;
  supported_vas_services_per_provider : list (list Z);
  initialize_once : bool;
  first_req : bool;
  req_pos_value_count : Z
}.
#[global] Instance eta_v2g_context : Eta v2g_context := fun r =>
  mkContext (evse_ac_current_limit r) (last_v2g_msg r) (current_v2g_msg r) (state r) (is_dc_charger r)
    (debugMode r) (supported_din r) (supported_iso r) (selected_protocol r) (intl_emergency_shutdown r)
    (stop_hlc r) (is_connection_terminated r) (terminate_connection_on_failed_response r)
    (contactor_is_closed r) (meter_info_is_used r) (meter_reading r) (meter_id r) (evse_v2g_data r)
    (session r) (ev_v2g_data r) (hlc_pause_active r) (supported_vas_services_per_provider r)
    (initialize_once r) (first_req r) (req_pos_value_count r).

(** ** Outputs *)

Record ChargingNeeds := mkNeeds {
  requested_energy_transfer : EnergyTransferMode;
  ac_charging_parameters : option (Q * Q * Q * Q);   (** amount, voltage, maximum and minimum current *)
  dc_charging_parameters : option (option Q * option Q * option Z * option Z * Q * Q * Q * Z)
    (** capacity, amount, full and bulk state of charge, maximum current, power and voltage, state
        of charge *)
}.

(** [appHand_responseCodeType], and the answer of the handshake with the schema
    of the chosen protocol, which stays in it when the session is aborted. *)
Inductive negotiation := OK_SuccessfulNegotiation | OK_SuccessfulNegotiationWithMinorDeviation | Failed_NoNegotiation.
Record handshake_response := mkHandshake { negotiated : negotiation; schema_id : option Z }.

(** What the module publishes and calls, and what it sends to the car.  Times
    are seconds since 1970, which the source formats. *)
Inductive v2g_output :=
| publish_evcc_id (id : string)
| publish_selected_payment_option (o : paymentOption)
| publish_sae_bidi_mode_active
| publish_require_auth_eim
| publish_require_auth_pnc (t : PncToken)
| publish_requested_energy_transfer_mode (m : EnergyTransferMode)
| publish_departure_time (t : Z)
| publish_ac_eamount (q : Q)
| publish_ac_ev_max_voltage (q : Q)
| publish_ac_ev_max_current (q : Q)
| publish_ac_ev_min_current (q : Q)
| publish_dc_ev_energy_capacity (q : Q)
| publish_dc_ev_energy_request (q : Q)
| publish_dc_full_soc (z : Z)
| publish_dc_bulk_soc (z : Z)
| publish_dc_ev_maximum_limits (current power voltage : option Q)
| publish_dc_ev_status (s : DC_EVStatus)
| publish_dc_ev_target_voltage_current (voltage current : Q)
| publish_dc_ev_remaining_time (full bulk : option Z)
| publish_dc_charging_complete (b : Z)
| publish_dc_bulk_charging_complete (b : Z)
| publish_charging_needs (n : ChargingNeeds)
| publish_v2g_setup_finished
| publish_start_cable_check
| publish_start_pre_charge
| publish_current_demand_started
| publish_current_demand_finished
| publish_ac_close_contactor
| publish_ac_open_contactor
| publish_dc_open_contactor
| publish_dlink_terminate
| publish_dlink_pause
| publish_iso15118_certificate_request (exi_request : string)
| call_selected_services (provider : nat) (services : list (Z * Z))
| publish_ev_app_protocol (protocols : list (string * Z * Z * Z * Z))
| publish_selected_protocol (p : string)
| publish_v2g_messages (m : V2gMsgTypeId.t) (is_req : bool)
| send_handshake (answer : handshake_response)
| send_response (header_session_id : Z) (r : response)
| send_exi (message : bytes).

(** ** The connection *)

(** [v2g_connection]; [pubkey] points to the key of the contract, which only a
    TLS connection has: otherwise the pointer is null. *)
Record v2g_connection := mkConnection {
  ctx : v2g_context;
  is_tls_connection : bool;
  pubkey : option (option bytes);
  dlink_action : mqtt_dlink_action
}.
#[global] Instance eta_v2g_connection : Eta v2g_connection := fun r =>
  mkConnection (ctx r) (is_tls_connection r) (pubkey r) (dlink_action r).

(** An index out of the bounds of an array, a null pointer, or a loop that
    stands still and does not return. *)
Inductive v2g_exn := out_of_bounds | null_pointer | endless_loop.

Abbreviation V2g := (Eff v2g_connection v2g_output v2g_exn).

Definition get_ctx : V2g v2g_context := let* c := eget in eret (ctx c).
Definition set_ctx (f : v2g_context -> v2g_context) : V2g unit := emodify (update ctx f).
Definition set_evse (f : evse_data -> evse_data) : V2g unit := set_ctx (update evse_v2g_data f).
Definition set_session (f : session_data -> session_data) : V2g unit := set_ctx (update session f).
Definition set_ev (f : ev_data -> ev_data) : V2g unit := set_ctx (update ev_v2g_data f).
Definition v2g_when (b : bool) (m : V2g unit) : V2g unit := if b then m else eret tt.
