(* ===== verification/V2gContext.v ===== *)
(** * EvseV2G: values of the context

    Physical values ([tools.cpp], [v2g_ctx.cpp]), the context as a session
    starts, what is published of the values the car sends, the list of services,
    and the commands of the other modules ([ISO15118_chargerImpl.cpp],
    [iso15118_extensionsImpl.cpp]). *)
From S2P Require Import Prelude Effects V2gTypes.
From stdpp Require Import base tactics list numbers strings.
From Stdlib Require Import QArith.
Open Scope Z_scope.
Open Scope everest_scope.

(** ** Physical values *)

Definition INT16_MAX : Z := 32767.
Definition INT16_MIN : Z := -32768.
Definition PHY_VALUE_MULT_MIN : Z := -3.
Definition PHY_VALUE_MULT_MAX : Z := 3.

(** [value * pow(10.0, multiplier)]. *)
Definition calc_physical_value (value multiplier : Z) : Q := inject_Z value * Qpower 10 multiplier.
Definition physical_value_to_float (pv : PhysicalValue) : Q :=
  calc_physical_value (Value pv) (Multiplier pv).

(** The conversion of a number to an integer drops its fraction; to 16 bits it
    keeps the low bits. *)
Definition truncate (q : Q) : Z := Z.quot (Qnum q) (Zpos (Qden q)).
Definition to_int16 (q : Q) : Z := swrap 16 (truncate q).

Definition init_physical_value (unit : unitSymbol) : PhysicalValue := mkPhysical 0 unit 0.

(** The loop that divides by ten until the value fits into 16 bits: the number
    of rounds and the value.  A [long long] needs 15 rounds at most. *)
Fixpoint fit_int16 (fuel : nat) (multiplier value : Z) : Z * Z :=
  match fuel with
  | O => (multiplier, value)
  | S fuel' =>
      if (INT16_MAX <? value) || (value <? INT16_MIN)
      then fit_int16 fuel' (multiplier + 1) (Z.quot value 10)
      else (multiplier, value)
  end.
Definition fit_rounds : nat := 20.

Definition populate_physical_value (pv : PhysicalValue) (value : Z) (unit : unitSymbol)
  : bool * PhysicalValue :=
  let '(multiplier, value) := fit_int16 fit_rounds 0 value in
  if (multiplier <? PHY_VALUE_MULT_MIN) || (PHY_VALUE_MULT_MAX <? multiplier) then (false, pv)
  else (true, mkPhysical multiplier unit value).

(** The loop over the decimal places. *)
Fixpoint scale_up (decimal_places : nat) (multiplier : Z) (value : Q) : Z * Q :=
  match decimal_places with
  | O => (multiplier, value)
  | S n =>
      if (truncate (value * 10) <? INT16_MAX) && (INT16_MIN <? truncate (value * 10))
      then scale_up n (multiplier - 1) (value * 10)
      else scale_up n multiplier value
  end.

Definition populate_physical_value_float (pv : PhysicalValue) (value : Q) (decimal_places : nat)
    (unit : unitSymbol) : PhysicalValue :=
  let '(ok, pv') := populate_physical_value pv (truncate value) unit in
  if negb ok then pv'
  else
    let '(multiplier, value') :=
      if Multiplier pv' =? 0 then scale_up decimal_places (Multiplier pv') value
      else (Multiplier pv', value) in
    mkPhysical multiplier unit (to_int16 value').

(** ** The list of services *)

Definition iso2_ServiceType_8_ARRAY_SIZE : nat := 8.
Definition iso2_ParameterSetType_5_ARRAY_SIZE : nat := 5.

(** The certificate service has the parameter sets 1 (installation) and 2
    (update); sets of other services stay empty.  A parameter is written behind
    those a set has, and only the first one counts.  The length of
    "Installation" is taken from the parameter at the index [i] of the set, so
    the text is cut off unless the set is the first one. *)
Definition configured_parameters (i : nat) (parameterSetId serviceId : Z) (old : list ServiceParameter)
  : list ServiceParameter :=
  let write text := match old with [] => [mkServiceParameter "Service" (stringValue text)] | p :: _ => [p] end in
  if serviceId =? 2 then
    if parameterSetId =? 1 then write (if (i =? 0)%nat then "Installation" else "")%string
    else if parameterSetId =? 2 then write "Update"%string
    else old
  else old.

Definition configure_parameter_set (l : list ParameterSet) (parameterSetId serviceId : Z)
  : list ParameterSet :=
  match list_find (fun s => ParameterSetID s = parameterSetId) l with
  | Some (i, s) =>
      if (length l =? iso2_ParameterSetType_5_ARRAY_SIZE)%nat then l
      else <[i := mkParameterSet parameterSetId
                    (configured_parameters i parameterSetId serviceId (set_Parameters s))]> l
  | None =>
      if (length l <? iso2_ParameterSetType_5_ARRAY_SIZE)%nat
      then l ++ [mkParameterSet parameterSetId
                   (configured_parameters (length l) parameterSetId serviceId [])]
      else l
  end.

(** [service_parameter_list] as an association list: [try_emplace] and [at]. *)
Fixpoint alter_parameters (id : Z) (f : list ParameterSet -> list ParameterSet)
    (m : list (Z * list ParameterSet)) : list (Z * list ParameterSet) :=
  match m with
  | [] => [(id, f [])]
  | (k, v) :: m' => if k =? id then (k, f v) :: m' else (k, v) :: alter_parameters id f m'
  end.

Definition find_parameters (id : Z) (m : list (Z * list ParameterSet)) : option (list ParameterSet) :=
  snd <$> (snd <$> list_find (fun e => e.1 = id) m).

Definition add_service_to_service_list (d : evse_data) (evse_service : Service)
    (parameter_set_ids : list Z) : bool * evse_data :=
  let l := evse_service_list d in
  let service_found := existsb (fun s => ServiceID s =? ServiceID evse_service) l in
  let configured :=
    update service_parameter_list (fun m =>
      fold_left (fun m id => alter_parameters (ServiceID evse_service)
                   (fun ps => configure_parameter_set ps id (ServiceID evse_service)) m)
        parameter_set_ids m) in
  if negb service_found && (length l <? iso2_ServiceType_8_ARRAY_SIZE)%nat
  then (true, configured (assign evse_service_list (l ++ [evse_service]) d))
  else if (length l =? iso2_ServiceType_8_ARRAY_SIZE)%nat then (false, d)
  else (true, configured d).

Definition remove_service_from_service_list_if_exists (service_id : Z) (d : evse_data) : evse_data :=
  update evse_service_list (filter (fun s => ServiceID s <> service_id)) d.

(** ** The start of a session *)

Definition SA_SCHEDULE_DURATION : Z := 86400.

Definition v2g_ctx_init_charging_state (is_connection_terminated_ : bool) (c : v2g_context)
  : v2g_context :=
  let c := assign stop_hlc false c in
  let c := assign intl_emergency_shutdown false c in
  let c := assign is_connection_terminated is_connection_terminated_ c in
  let c := assign last_v2g_msg V2gMsgTypeId.V2G_UNKNOWN_MSG c in
  let c := assign current_v2g_msg V2gMsgTypeId.V2G_UNKNOWN_MSG c in
  let c := assign state 0 c in
  let c := assign selected_protocol V2G_UNKNOWN_PROTOCOL c in
  let c := update session (assign renegotiation_required false) c in
  let c := update session (assign is_charging false) c in
  update evse_v2g_data (assign evse_notification Notification_None) c.

(** The status codes as a session starts and as errors are reset. *)
Definition initial_status_code : per_phase EVSEStatusCode := fun p =>
  match p with
  | PHASE_INIT => EVSE_NotReady
  | PHASE_AUTH => EVSE_NotReady
  | PHASE_PARAMETER => EVSE_Ready
  | PHASE_ISOLATION => EVSE_IsolationMonitoringActive
  | PHASE_PRECHARGE => EVSE_Ready
  | PHASE_CHARGE => EVSE_Ready
  | PHASE_WELDING => EVSE_NotReady
  | PHASE_STOP => EVSE_NotReady
  end.
Definition initial_processing : per_phase EVSEProcessing :=
  set_phase PHASE_PARAMETER Finished (fun _ => Ongoing).

(** [memset(&ctx->ev_v2g_data, 0xff, ...)]. *)
Definition invalid_ev_data : ev_data :=
  mkEvData (-1) (-1) (2 ^ 64 - 1) (mkEvStatus (-1) (-1) (-1)) None None None None None None None.

(** The default schedule: one tuple with one entry. *)
Definition default_schedule : list SAScheduleTuple :=
  [mkTuple 1 [mkPMaxEntry (init_physical_value unit_W) 0 true 0]].

(** What is initialized once. *)
Definition init_once (d : evse_data) : evse_data :=
  let d := update charge_service (update cs_service (assign FreeService false)) d in
  let d := assign evse_id "DE*CBY*ETE1*234"%string d in
  let d := update charge_service (fun s =>
    assign modes_len 1%nat (update modes (fun l => AC_single_phase_core :: tail l) s)) d in
  let d := assign date_time_now_is_used false d in
  let d := assign evse_current_regulation_tolerance (init_physical_value unit_A) d in
  let d := assign evse_current_regulation_tolerance_is_used false d in
  let d := assign evse_energy_to_be_delivered (init_physical_value unit_Wh) d in
  let d := assign evse_energy_to_be_delivered_is_used false d in
  let d := assign evse_maximum_current_limit (init_physical_value unit_A) d in
  let d := assign evse_maximum_current_limit_is_used false d in
  let d := assign evse_current_limit_achieved false d in
  let d := assign evse_maximum_power_limit (init_physical_value unit_W) d in
  let d := assign evse_maximum_power_limit_is_used false d in
  let d := assign evse_power_limit_achieved false d in
  let d := assign evse_maximum_voltage_limit (init_physical_value unit_V) d in
  let d := assign evse_maximum_voltage_limit_is_used false d in
  let d := assign evse_voltage_limit_achieved false d in
  let d := assign evse_minimum_current_limit (init_physical_value unit_A) d in
  let d := assign evse_minimum_voltage_limit (init_physical_value unit_V) d in
  let d := assign evse_peak_current_ripple (init_physical_value unit_A) d in
  let d := assign evse_nominal_voltage (init_physical_value unit_V) d in
  let d := assign rcd false d in
  let d := update payment_option_list (fun l => (ExternalPayment, l.2)) d in
  let d := assign payment_option_list_len 1%nat d in
  assign evse_service_list [] d.

(** The charge service of a session that does not continue a paused one. *)
Definition init_charge_service (s : Service) : Service :=
  mkService 1 None EVCharging None (FreeService s).

Definition init_evse_data (paused once : bool) (selected : paymentOption) (d : evse_data) : evse_data :=
  let d := if paused then d else assign session_id 0 d in
  let d := assign notification_max_delay 0 d in
  let d := assign evse_isolation_status Iso_Invalid d in
  let d := assign evse_isolation_status_is_used true d in
  let d := assign evse_notification Notification_None d in
  let d := assign evse_status_code initial_status_code d in
  let d := assign evse_processing initial_processing d in
  let d := if paused then d else update charge_service (update cs_service init_charge_service) d in
  let d := assign service_parameter_list [] d in
  let d := if once then d else init_once d in
  let d := assign evse_present_voltage (init_physical_value unit_V) d in
  let d := assign evse_present_current (init_physical_value unit_A) d in
  let d := if paused then assign evse_sa_schedule_list_is_used true d
           else assign evse_sa_schedule_list_is_used false (assign evse_sa_schedule_list default_schedule d) in
  let d := assign cert_install_res_b64_buffer ""%string d in
  let d := assign rcd false d in
  let d := assign receipt_required false d in
  let d := assign sae_bidi_data (mkBidi false false 20 false) d in
  let d := assign no_energy_pause NoPause d in
  let d := if paused
           then assign payment_option_list_len 1%nat
                  (update payment_option_list (fun l => (selected, l.2)) d)
           else d in
  remove_service_from_service_list_if_exists V2G_SERVICE_ID_CERTIFICATE d.

Definition v2g_ctx_init_charging_values (c : v2g_context) : v2g_context :=
  let paused := hlc_pause_active c in
  let c := update evse_v2g_data
    (init_evse_data paused (initialize_once c) (iso_selected_payment_option (session c))) c in
  let c := assign meter_info_is_used false c in
  let c := assign contactor_is_closed false c in
  let c := assign ev_v2g_data invalid_ev_data c in
  let c := if paused then c else update session (assign iso_selected_payment_option ExternalPayment) c in
  let c := update session (assign gen_challenge (replicate 16 0)) c in
  let c := update session (assign authorization_rejected false) c in
  assign initialize_once true c.

Definition v2g_ctx_init_charging_session (is_connection_terminated_ : bool) (c : v2g_context)
  : v2g_context :=
  v2g_ctx_init_charging_values (v2g_ctx_init_charging_state is_connection_terminated_ c).

(** ** What is published of the car *)

(** [float != float], where [NaN] differs from everything. *)
Definition differs (old : option Q) (new : Q) : bool :=
  match old with Some x => negb (Qeq_bool x new) | None => true end.

Definition publish_DcEvStatus (s : DC_EVStatus) : V2g unit :=
  let* c := get_ctx in
  let old := dc_ev_status (ev_v2g_data c) in
  if negb (EVErrorCode old =? EVErrorCode s) || negb (EVReady old =? EVReady s) ||
     negb (EVRESSSOC old =? EVRESSSOC s)
  then set_ev (assign dc_ev_status s) ;;; eemit (publish_dc_ev_status s)
  else eret tt.

(** The parts of [publish_dc_ev_maximum_limits]: a limit that is used and
    differs from the last one is stored. *)
Definition note_limit (proj : ev_data -> option Q) `{!Update proj} (limit : Q) (is_used : bool)
  : V2g bool :=
  let* c := get_ctx in
  if is_used && differs (proj (ev_v2g_data c)) limit
  then set_ev (assign proj (Some limit)) ;;; eret true
  else eret false.

Definition publish_dc_ev_maximum_limits_ (current : Q) (current_is_used : bool) (power : Q)
    (power_is_used : bool) (voltage : Q) (voltage_is_used : bool) : V2g unit :=
  let* p1 := note_limit ev_maximum_current_limit current current_is_used in
  let* p2 := note_limit ev_maximum_power_limit power power_is_used in
  let* p3 := note_limit ev_maximum_voltage_limit voltage voltage_is_used in
  let used (b : bool) (q : Q) := if b then Some q else None in
  v2g_when (p1 || p2 || p3)
    (eemit (publish_dc_ev_maximum_limits (used current_is_used current) (used power_is_used power)
              (used voltage_is_used voltage))).

Definition publish_dc_ev_target_voltage_current_ (voltage current : Q) : V2g unit :=
  let* c := get_ctx in
  if differs (v2g_target_voltage (ev_v2g_data c)) voltage ||
     differs (v2g_target_current (ev_v2g_data c)) current
  then
    set_ev (assign v2g_target_voltage (Some voltage)) ;;;
    set_ev (assign v2g_target_current (Some current)) ;;;
    eemit (publish_dc_ev_target_voltage_current voltage current)
  else eret tt.

(** [time_now] is the [time(NULL)] of the source; adding a number of seconds
    converts the sum back to an integer. *)
Definition publish_dc_ev_remaining_time_ (time_now : Z) (full : Q) (full_is_used : bool) (bulk : Q)
    (bulk_is_used : bool) : V2g unit :=
  let* p1 := note_limit remaining_time_to_full_soc full full_is_used in
  let* p2 := note_limit remaining_time_to_bulk_soc bulk bulk_is_used in
  let at_time (b : bool) (q : Q) := if b then Some (truncate (inject_Z time_now + q)) else None in
  v2g_when (p1 || p2) (eemit (publish_dc_ev_remaining_time (at_time p1 full) (at_time p2 bulk))).

(** ** Libraries *)

(** Certificates, signatures and Base64 of OpenSSL, and the sizes of two arrays
    of the EXI library: parameters of the model. *)
Inductive verify_result :=
| Verified | CertificateExpired | CertificateRevoked | NoCertificateAvailable
| CertificateNotAllowed | CertChainError.

Class V2gLib := {
  EVSEID_CHARACTER_SIZE : Z;
  MeterID_CHARACTER_SIZE : Z;
  certificate : Type;
  der_to_certificate : bytes -> option certificate;
  certificate_common_name : option certificate -> string;
  certificate_public_key : certificate -> option bytes;
  chain_to_pem : certificate -> list certificate -> string;
  verify_certificate : certificate -> list certificate -> verify_result;
  get_mo_ocsp_request_data : string -> list string;
  check_iso2_signature : bytes -> option bytes -> bytes -> bool;
  base64_decode : string -> bytes
}.

(** ** Commands *)

Inductive SaeJ2847BidiMode := BidiNone | BidiV2H | BidiV2G.
Inductive NoEnergyPauseMode := PauseAfterPrecharge | PauseBeforeCableCheck | PauseAllowEvToIgnore.
Inductive EvseError :=
| Error_Contactor | Error_RCD | Error_UtilityInterruptEvent | Error_Malfunction
| Error_EmergencyShutdown | Error_other.

Section Commands.
Context {L : V2gLib}.
Implicit Types (c : v2g_context) (d : evse_data).

Definition SAE_V2H : Z := 28472.
Definition SAE_V2G : Z := 28473.

(** [uint8_t len = s.length(); if (len < size) memcpy(...)]. *)
Definition copy_id (size : Z) (old s : string) : string :=
  let len := u8 (Z.of_nat (String.length s)) in
  if len <? size then String.substring 0 (Z.to_nat len) s else old.

Definition handle_setup (id : string) (mode : SaeJ2847BidiMode) (debug : bool) c : v2g_context :=
  let c := update evse_v2g_data (update evse_id (fun old => copy_id EVSEID_CHARACTER_SIZE old id)) c in
  let c := assign debugMode debug c in
  let add id name :=
    update evse_v2g_data (fun d =>
      (add_service_to_service_list d (mkService id (Some name) OtherCustom None true) []).2) c in
  match mode with
  | BidiV2H => add SAE_V2H "SAE J2847/2 V2H"%string
  | BidiV2G => add SAE_V2G "SAE J2847/2 V2G"%string
  | BidiNone => c
  end.

Definition handle_set_charging_parameters (ac_nominal_voltage dc_current_regulation_tolerance
    dc_peak_current_ripple dc_energy_to_be_delivered : option Q) c : v2g_context :=
  let set {A} (o : option A) (f : A -> evse_data -> evse_data) d :=
    match o with Some v => f v d | None => d end in
  update evse_v2g_data (fun d =>
    let d := set ac_nominal_voltage (fun v =>
      update evse_nominal_voltage (fun pv => populate_physical_value_float pv v 1 unit_V)) d in
    let d := set dc_current_regulation_tolerance (fun v d =>
      assign evse_current_regulation_tolerance_is_used true
        (update evse_current_regulation_tolerance
           (fun pv => populate_physical_value_float pv v 1 unit_A) d)) d in
    let d := set dc_peak_current_ripple (fun v =>
      update evse_peak_current_ripple (fun pv => populate_physical_value_float pv v 1 unit_A)) d in
    set dc_energy_to_be_delivered (fun v d =>
      assign evse_energy_to_be_delivered_is_used true
        (update evse_energy_to_be_delivered
           (fun pv => (populate_physical_value pv (truncate v) unit_Wh).2) d)) d) c.

(** [payment_option_list[len++] = o]; the array has two elements. *)
Fixpoint write_options (l : list paymentOption) (arr : paymentOption * paymentOption) (len : nat)
  : result v2g_exn ((paymentOption * paymentOption) * nat) :=
  match l with
  | [] => Ok (arr, len)
  | o :: l' =>
      match len with
      | 0%nat => write_options l' (o, arr.2) 1
      | 1%nat => write_options l' (arr.1, o) 2
      | _ => Err out_of_bounds
      end
  end.

Definition certificate_service : Service :=
  mkService 2 (Some "Certificate"%string) ContractCertificate None true.

Definition handle_session_setup (payment_options : list paymentOption)
    (supported_certificate_service tls_server_available central : bool) c
  : result v2g_exn v2g_context :=
  let d := evse_v2g_data c in
  let written :=
    if hlc_pause_active c then Ok (payment_option_list d, payment_option_list_len d)
    else write_options payment_options (payment_option_list d) 0 in
  match written with
  | Err e => Err e
  | Ok (arr, len) =>
      let d := assign payment_option_list_len len (assign payment_option_list arr d) in
      let pnc_enabled := is_contract arr.1 || is_contract arr.2 in
      let d := if pnc_enabled && supported_certificate_service && tls_server_available
               then (add_service_to_service_list d certificate_service [1]).2
               else remove_service_from_service_list_if_exists V2G_SERVICE_ID_CERTIFICATE d in
      Ok (assign evse_v2g_data (assign central_contract_validation_allowed central d) c)
  end.

Definition handle_set_powersupply_capabilities (max_A min_A max_W max_V min_V : Q) c : v2g_context :=
  update evse_v2g_data (update power_capabilities (fun p =>
    mkCapabilities
      (populate_physical_value_float (max_current p) max_A 1 unit_A)
      (populate_physical_value_float (min_current p) min_A 1 unit_A)
      (populate_physical_value (max_power p) (u32 (truncate max_W)) unit_W).2
      (populate_physical_value_float (max_voltage p) max_V 1 unit_V)
      (populate_physical_value_float (min_voltage p) min_V 1 unit_V))) c.

Definition handle_authorization_response (accepted revoked : bool) c : v2g_context :=
  match iso_selected_payment_option (session c) with
  | ExternalPayment =>
      if accepted
      then update evse_v2g_data (update evse_processing (set_phase PHASE_AUTH Finished)) c
      else c
  | Contract =>
      let c := update session (assign certificate_revoked revoked) c in
      let c := update evse_v2g_data (update evse_processing (set_phase PHASE_AUTH Finished)) c in
      if negb accepted then update session (assign authorization_rejected true) c else c
  end.

Definition handle_ac_contactor_closed (status : bool) c : v2g_context :=
  assign contactor_is_closed status c.

Definition handle_dlink_ready (value : bool) c : v2g_context :=
  if value then c else assign is_connection_terminated true c.

Definition handle_cable_check_finished (status : bool) c : v2g_context :=
  update evse_v2g_data
    (update evse_processing (set_phase PHASE_ISOLATION (if status then Finished else Ongoing))) c.

Definition handle_receipt_is_required (b : bool) c : v2g_context :=
  update evse_v2g_data (assign receipt_required b) c.

(** [handle_stop_charging(true)] starts a thread: it asks the car to stop, and
    after ten seconds, unless the connection was terminated in one of ten looks
    at it, lets the responses fail. *)
Definition stop_charging_begin c : v2g_context :=
  update evse_v2g_data (fun d =>
    assign evse_status_code (fun _ => EVSE_Shutdown) (assign evse_notification StopCharging d)) c.
Definition stop_charging_elapsed c : v2g_context := assign stop_hlc true c.
Definition stop_charging_revoked c : v2g_context := assign stop_hlc false c.

Definition handle_no_energy_pause_charging (mode : NoEnergyPauseMode) c : v2g_context :=
  update evse_v2g_data (assign no_energy_pause
    match mode with
    | PauseAfterPrecharge => AfterCableCheckPreCharge
    | PauseBeforeCableCheck => BeforeCableCheck
    | PauseAllowEvToIgnore => AllowEvToIgnorePause
    end) c.

(** [energyArray[energyArrayLen++] = mode]; [None] is a mode that is ignored. *)
Definition write_mode (s : list EnergyTransferMode * nat * bool) (m : option EnergyTransferMode)
  : list EnergyTransferMode * nat * bool :=
  let '(arr, len, dc) := s in
  match m with
  | None => s
  | Some mode =>
      (take len arr ++ mode :: drop (S len) arr, S len,
       match mode with AC_single_phase_core | AC_three_phase_core => false | _ => dc end)
  end.

Definition handle_update_energy_transfer_modes (config_supported_DIN70121 : bool)
    (l : list (option EnergyTransferMode)) c : v2g_context :=
  if hlc_pause_active c then c
  else
    let '(arr, len, dc) :=
      fold_left write_mode l (modes (charge_service (evse_v2g_data c)), 0%nat, true) in
    let c := update evse_v2g_data (update charge_service (fun s =>
      assign modes_len len (assign modes arr s))) c in
    let c := assign is_dc_charger dc c in
    if config_supported_DIN70121 && negb dc then assign supported_din false c else c.

Definition handle_update_ac_max_current (q : Q) c : v2g_context := assign evse_ac_current_limit q c.

Definition handle_update_dc_maximum_limits (current power voltage : Q) c : v2g_context :=
  update evse_v2g_data (fun d =>
    let places := if Qle_bool current 300 then 2%nat else 1%nat in
    let d := update evse_maximum_current_limit
      (fun pv => populate_physical_value_float pv current places unit_A) d in
    let d := assign evse_maximum_current_limit_is_used true d in
    let d := update evse_maximum_power_limit
      (fun pv => (populate_physical_value pv (truncate power) unit_W).2) d in
    let d := assign evse_maximum_power_limit_is_used true d in
    let d := update evse_maximum_voltage_limit
      (fun pv => populate_physical_value_float pv voltage 1 unit_V) d in
    assign evse_maximum_voltage_limit_is_used true d) c.

Definition handle_update_dc_minimum_limits (current voltage : Q) c : v2g_context :=
  update evse_v2g_data (fun d =>
    let d := update evse_minimum_current_limit
      (fun pv => populate_physical_value_float pv (inject_Z (truncate current)) 1 unit_A) d in
    update evse_minimum_voltage_limit
      (fun pv => populate_physical_value_float pv (inject_Z (truncate voltage)) 1 unit_V) d) c.

Definition handle_update_isolation_status (s : IsolationStatus) c : v2g_context :=
  update evse_v2g_data (fun d =>
    assign evse_isolation_status_is_used true (assign evse_isolation_status s d)) c.

Definition handle_update_dc_present_values (voltage : Q) (current : option Q) c : v2g_context :=
  update evse_v2g_data (fun d =>
    let d := update evse_present_voltage
      (fun pv => populate_physical_value_float pv voltage 1 unit_V) d in
    match current with
    | Some i => update evse_present_current (fun pv => populate_physical_value_float pv i 1 unit_A) d
    | None => d
    end) c.

Definition handle_update_meter_info (energy_Wh_import : Q) (id : option string) c : v2g_context :=
  let c := assign meter_info_is_used true c in
  let c := assign meter_reading (u64 (truncate energy_Wh_import)) c in
  match id with
  | Some s => update meter_id (fun old => copy_id MeterID_CHARACTER_SIZE old s) c
  | None => c
  end.

Definition handle_send_error (e : EvseError) c : v2g_context :=
  match e with
  | Error_Contactor | Error_other => c
  | Error_RCD => update evse_v2g_data (assign rcd true) c
  | Error_UtilityInterruptEvent =>
      update evse_v2g_data (assign evse_status_code (fun _ => EVSE_UtilityInterruptEvent)) c
  | Error_Malfunction => update evse_v2g_data (assign evse_status_code (fun _ => EVSE_Malfunction)) c
  | Error_EmergencyShutdown => assign intl_emergency_shutdown true c
  end.

Definition handle_reset_error c : v2g_context :=
  update evse_v2g_data (fun d => assign evse_status_code initial_status_code (assign rcd false d)) c.

(** [iso15118_extensionsImpl]: the response of the backend to a certificate
    request. *)
Definition handle_set_get_certificate_response (exi_response : option string) (accepted : bool) c
  : v2g_context :=
  update evse_v2g_data (fun d =>
    let d := match exi_response with
             | Some s => if String.eqb s ""%string then d else assign cert_install_res_b64_buffer s d
             | None => d
             end in
    assign cert_install_status accepted d) c.

Inductive v2g_command :=
| setup (id : string) (mode : SaeJ2847BidiMode) (debug : bool)
| set_charging_parameters (ac_nominal_voltage dc_current_regulation_tolerance dc_peak_current_ripple
    dc_energy_to_be_delivered : option Q)
| session_setup (payment_options : list paymentOption)
    (supported_certificate_service tls_server_available central : bool)
| set_powersupply_capabilities (max_A min_A max_W max_V min_V : Q)
| authorization_response (accepted revoked : bool)
| ac_contactor_closed (status : bool)
| dlink_ready (value : bool)
| cable_check_finished (status : bool)
| receipt_is_required (b : bool)
| stop_charging_started
| stop_charging_timed_out
| stop_charging_false
| no_energy_pause_charging (mode : NoEnergyPauseMode)
| update_energy_transfer_modes (config_supported_DIN70121 : bool) (l : list (option EnergyTransferMode))
| update_ac_max_current (q : Q)
| update_dc_maximum_limits (current power voltage : Q)
| update_dc_minimum_limits (current voltage : Q)
| update_isolation_status (s : IsolationStatus)
| update_dc_present_values (voltage : Q) (current : option Q)
| update_meter_info (energy_Wh_import : Q) (id : option string)
| send_error (e : EvseError)
| reset_error
| set_get_certificate_response (exi_response : option string) (accepted : bool).

Definition run_command (k : v2g_command) c : result v2g_exn v2g_context :=
  match k with
  | setup id mode debug => Ok (handle_setup id mode debug c)
  | set_charging_parameters a b r e => Ok (handle_set_charging_parameters a b r e c)
  | session_setup l s t z => handle_session_setup l s t z c
  | set_powersupply_capabilities a b w v u => Ok (handle_set_powersupply_capabilities a b w v u c)
  | authorization_response a r => Ok (handle_authorization_response a r c)
  | ac_contactor_closed s => Ok (handle_ac_contactor_closed s c)
  | dlink_ready v => Ok (handle_dlink_ready v c)
  | cable_check_finished s => Ok (handle_cable_check_finished s c)
  | receipt_is_required b => Ok (handle_receipt_is_required b c)
  | stop_charging_started => Ok (stop_charging_begin c)
  | stop_charging_timed_out => Ok (stop_charging_elapsed c)
  | stop_charging_false => Ok (stop_charging_revoked c)
  | no_energy_pause_charging m => Ok (handle_no_energy_pause_charging m c)
  | update_energy_transfer_modes cfg l => Ok (handle_update_energy_transfer_modes cfg l c)
  | update_ac_max_current q => Ok (handle_update_ac_max_current q c)
  | update_dc_maximum_limits a b v => Ok (handle_update_dc_maximum_limits a b v c)
  | update_dc_minimum_limits a v => Ok (handle_update_dc_minimum_limits a v c)
  | update_isolation_status s => Ok (handle_update_isolation_status s c)
  | update_dc_present_values v i => Ok (handle_update_dc_present_values v i c)
  | update_meter_info e i => Ok (handle_update_meter_info e i c)
  | send_error e => Ok (handle_send_error e c)
  | reset_error => Ok (handle_reset_error c)
  | set_get_certificate_response r a => Ok (handle_set_get_certificate_response r a c)
  end.

Definition command (k : v2g_command) : V2g unit :=
  let* c := get_ctx in
  match run_command k c with
  | Ok c' => set_ctx (fun _ => c')
  | Err e => ethrow e
  end.
End Commands.
