(* ===== verification/IsoServer.v ===== *)
(** * EvseV2G: the requests of ISO 15118-2

    [iso_server.cpp]: the table of the states, the check of a response, and one
    definition per request. *)
From S2P Require Import Prelude Effects V2gTypes V2gContext.
From stdpp Require Import base tactics list numbers strings.
From Stdlib Require Import QArith.
Open Scope Z_scope.
Open Scope everest_scope.
Import V2gMsgTypeId.

(** ** What the environment answers *)

(** [pthread_cond_timedwait] returns; before that other threads may have run
    commands. *)
Inductive wait_return := signalled | interrupted | timed_out | wait_error.
Record wakeup := mkWakeup { wake_commands : list v2g_command; wake_return : wait_return }.

(** While one request is handled: [time(NULL)], two readings of the monotonic
    clock in milliseconds, random bytes for a session id and for a challenge
    ([None] when they cannot be read), four results of [rand()], the wakeups
    before the deadline of a wait, the parameters of value added services, and
    the request as Base64. *)
Record request_env := mkEnv {
  time_now : Z;
  monotonic : Z * Z;
  random_session : option bytes;
  random_challenge : option bytes;
  rand : Z * Z * Z * Z;
  wakeups : list wakeup;
  get_service_parameters : nat -> Z -> list VasParameterSet;
  exi_request : string
}.

(** ** States *)

Module iso_ac_state_id.
Definition WAIT_FOR_SESSIONSETUP : Z := 0.
Definition WAIT_FOR_SERVICEDISCOVERY : Z := 1.
Definition WAIT_FOR_SVCDETAIL_PAYMENTSVCSEL : Z := 2.
Definition WAIT_FOR_PAYMENTDETAILS_CERTINST_CERTUPD : Z := 3.
Definition WAIT_FOR_PAYMENTDETAILS : Z := 4.
Definition WAIT_FOR_AUTHORIZATION : Z := 5.
Definition WAIT_FOR_CHARGEPARAMETERDISCOVERY : Z := 6.
Definition WAIT_FOR_POWERDELIVERY : Z := 7.
Definition WAIT_FOR_CHARGINGSTATUS : Z := 8.
Definition WAIT_FOR_CHARGINGSTATUS_POWERDELIVERY : Z := 9.
Definition WAIT_FOR_METERINGRECEIPT : Z := 10.
Definition WAIT_FOR_SESSIONSTOP : Z := 11.
Definition WAIT_FOR_TERMINATED_SESSION : Z := 12.
End iso_ac_state_id.

Module iso_dc_state_id.
Definition WAIT_FOR_SESSIONSETUP : Z := 0.
Definition WAIT_FOR_SERVICEDISCOVERY : Z := 1.
Definition WAIT_FOR_SVCDETAIL_PAYMENTSVCSEL : Z := 2.
Definition WAIT_FOR_PAYMENTDETAILS_CERTINST_CERTUPD : Z := 3.
Definition WAIT_FOR_PAYMENTDETAILS : Z := 4.
Definition WAIT_FOR_AUTHORIZATION : Z := 5.
Definition WAIT_FOR_CHARGEPARAMETERDISCOVERY : Z := 6.
Definition WAIT_FOR_CABLECHECK : Z := 7.
Definition WAIT_FOR_PRECHARGE : Z := 8.
Definition WAIT_FOR_PRECHARGE_POWERDELIVERY : Z := 9.
Definition WAIT_FOR_CURRENTDEMAND_POWERDELIVERY : Z := 10.
Definition WAIT_FOR_CURRENTDEMAND : Z := 11.
Definition WAIT_FOR_METERINGRECEIPT : Z := 12.
Definition WAIT_FOR_WELDINGDETECTION_SESSIONSTOP : Z := 13.
Definition WAIT_FOR_TERMINATED_SESSION : Z := 14.
End iso_dc_state_id.

(** [1 << m1 | 1 << m2 | ...]. *)
Definition allow (ms : list V2gMsgTypeId.t) : Z :=
  fold_left (fun acc m => Z.lor acc (Z.shiftl 1 (to_Z m))) ms 0.

Definition iso_ac_states : list Z := [
  allow [V2G_SESSION_SETUP_MSG];
  allow [V2G_SERVICE_DISCOVERY_MSG; V2G_SESSION_STOP_MSG];
  allow [V2G_SERVICE_DETAIL_MSG; V2G_PAYMENT_SERVICE_SELECTION_MSG; V2G_SESSION_STOP_MSG];
  allow [V2G_PAYMENT_DETAILS_MSG; V2G_CERTIFICATE_INSTALLATION_MSG; V2G_CERTIFICATE_UPDATE_MSG;
         V2G_SESSION_STOP_MSG];
  allow [V2G_PAYMENT_DETAILS_MSG; V2G_SESSION_STOP_MSG];
  allow [V2G_AUTHORIZATION_MSG; V2G_SESSION_STOP_MSG];
  allow [V2G_CHARGE_PARAMETER_DISCOVERY_MSG; V2G_SESSION_STOP_MSG];
  allow [V2G_POWER_DELIVERY_MSG; V2G_SESSION_STOP_MSG];
  allow [V2G_CHARGING_STATUS_MSG];
  allow [V2G_CHARGING_STATUS_MSG; V2G_POWER_DELIVERY_MSG];
  allow [V2G_METERING_RECEIPT_MSG];
  allow [V2G_SESSION_STOP_MSG];
  0].

Definition iso_dc_states : list Z := [
  allow [V2G_SESSION_SETUP_MSG];
  allow [V2G_SERVICE_DISCOVERY_MSG; V2G_SESSION_STOP_MSG];
  allow [V2G_SERVICE_DETAIL_MSG; V2G_PAYMENT_SERVICE_SELECTION_MSG; V2G_SESSION_STOP_MSG];
  allow [V2G_PAYMENT_DETAILS_MSG; V2G_AUTHORIZATION_MSG; V2G_CERTIFICATE_INSTALLATION_MSG;
         V2G_CERTIFICATE_UPDATE_MSG; V2G_SESSION_STOP_MSG];
  allow [V2G_PAYMENT_DETAILS_MSG; V2G_SESSION_STOP_MSG];
  allow [V2G_AUTHORIZATION_MSG; V2G_SESSION_STOP_MSG];
  allow [V2G_CHARGE_PARAMETER_DISCOVERY_MSG; V2G_SESSION_STOP_MSG];
  allow [V2G_CABLE_CHECK_MSG; V2G_SESSION_STOP_MSG];
  allow [V2G_PRE_CHARGE_MSG; V2G_SESSION_STOP_MSG];
  allow [V2G_PRE_CHARGE_MSG; V2G_POWER_DELIVERY_MSG; V2G_SESSION_STOP_MSG];
  allow [V2G_CURRENT_DEMAND_MSG; V2G_POWER_DELIVERY_MSG];
  allow [V2G_CURRENT_DEMAND_MSG];
  allow [V2G_METERING_RECEIPT_MSG];
  allow [V2G_WELDING_DETECTION_MSG; V2G_SESSION_STOP_MSG];
  0].

(** [states[state]], out of bounds when there is no such state. *)
Definition state_entry (states : list Z) (s : Z) : V2g Z :=
  if s <? 0 then ethrow out_of_bounds
  else match states !! Z.to_nat s with Some a => eret a | None => ethrow out_of_bounds end.

Definition is_allowed (allowed_requests : Z) (m : V2gMsgTypeId.t) : bool :=
  negb (Z.land allowed_requests (Z.shiftl 1 (to_Z m)) =? 0).

Definition iso_states (is_dc : bool) : list Z := if is_dc then iso_dc_states else iso_ac_states.

Definition iso_validate_state (s : Z) (current_v2g_msg : V2gMsgTypeId.t) (is_dc_charging : bool)
  : V2g ResponseCode.t :=
  let* allowed_requests := state_entry (iso_states is_dc_charging) s in
  eret (if is_allowed allowed_requests current_v2g_msg then ResponseCode.OK
        else ResponseCode.FAILED_SequenceError).

(** The response code that results from what may happen outside of the request:
    a stop, an emergency, a request out of sequence, a wrong session. *)
Definition external_code (c : v2g_context) (unknown_session : bool) (code sequence : ResponseCode.t)
  : ResponseCode.t :=
  let code := if stop_hlc c || intl_emergency_shutdown c then ResponseCode.FAILED else code in
  let code := if ResponseCode.failed sequence then sequence else code in
  if unknown_session then ResponseCode.FAILED_UnknownSession else code.

Definition event_of_code (c : v2g_context) (code : ResponseCode.t) : v2g_event :=
  if terminate_connection_on_failed_response c && ResponseCode.failed code
  then V2G_EVENT_SEND_AND_TERMINATE else V2G_EVENT_NO_EVENT.

Definition iso_unknown_session (c : v2g_context) : bool :=
  negb (V2gMsgTypeId.eqb (current_v2g_msg c) V2G_SESSION_SETUP_MSG) &&
  negb (received_session_id (ev_v2g_data c) =? 0) &&
  negb (session_id (evse_v2g_data c) =? received_session_id (ev_v2g_data c)).

Definition iso_validate_response_code (v2g_response_code : ResponseCode.t)
  : V2g (v2g_event * ResponseCode.t) :=
  let* c := get_ctx in
  if is_connection_terminated c then eret (V2G_EVENT_TERMINATE_CONNECTION, v2g_response_code)
  else
    let* response_code_tmp := iso_validate_state (state c) (current_v2g_msg c) (is_dc_charger c) in
    let code := external_code c (iso_unknown_session c) v2g_response_code response_code_tmp in
    eret (event_of_code c code, code).

Definition set_state (s : Z) : V2g unit := set_ctx (assign state s).

Definition populate_ac_evse_status (c : v2g_context) : AC_EVSEStatus :=
  mkAcStatus (evse_notification (evse_v2g_data c)) (u16 (notification_max_delay (evse_v2g_data c)))
    (rcd (evse_v2g_data c)).

Definition get_emergency_status_code (c : v2g_context) (phase_type : charging_phase) : EVSEStatusCode :=
  if intl_emergency_shutdown c then EVSE_EmergencyShutdown
  else evse_status_code (evse_v2g_data c) phase_type.

(** The status of the EVSE in a response of the phase. *)
Definition dc_evse_status (c : v2g_context) (status_code : EVSEStatusCode) : DC_EVSEStatus :=
  mkEvseStatus (evse_isolation_status (evse_v2g_data c))
    (evse_isolation_status_is_used (evse_v2g_data c)) (evse_notification (evse_v2g_data c))
    status_code (u16 (notification_max_delay (evse_v2g_data c))).

(** In a failed response the isolation status is not used. *)
Definition hide_isolation (code : ResponseCode.t) (s : DC_EVSEStatus) : DC_EVSEStatus :=
  if ResponseCode.failed code then assign EVSEIsolationStatus_isUsed false s else s.

(** ** The charging profile of the car *)

Record profile_check := mkCheck {
  ev_time_sum : Z;
  evse_time_sum : Z;
  evse_idx : nat;
  within_entry : bool;
  check_code : ResponseCode.t
}.

(** The inner loop, over the entries of the schedule: [None] when the rounds do
    not suffice. *)
Fixpoint check_entry (fuel : nat) (schedule : list PMaxScheduleEntry) (max_power : Q) (s : profile_check)
  : option profile_check :=
  match fuel with
  | O => None
  | S fuel' =>
      match schedule !! evse_idx s with
      | Some e =>
          if within_entry s then Some s
          else
            let sum := u32 (evse_time_sum s + ti_start e) in
            let within :=
              match schedule !! S (evse_idx s) with
              | Some next =>
                  (sum <=? ev_time_sum s) && (ev_time_sum s <? u32 (sum + ti_start next))
              | None =>
                  (sum <=? ev_time_sum s) &&
                  (ev_time_sum s <=? u32 (sum + (if ti_duration_isUsed e then ti_duration e else 0)))
              end in
            if within then
              if Qle_bool max_power (physical_value_to_float (PMax e))
              then check_entry fuel' schedule max_power
                     (mkCheck (ev_time_sum s) sum (evse_idx s) true (check_code s))
              else Some (mkCheck (ev_time_sum s) sum (evse_idx s) true
                           ResponseCode.FAILED_ChargingProfileInvalid)
            else
              let idx := match schedule !! S (evse_idx s) with
                         | Some _ => S (evse_idx s)
                         | None => evse_idx s
                         end in
              check_entry fuel' schedule max_power
                (mkCheck (ev_time_sum s) sum idx false (check_code s))
      | None => Some s
      end
  end.

(** The outer loop, over the entries of the profile. *)
Fixpoint check_profile (fuel : nat) (schedule : list PMaxScheduleEntry) (profile : list ProfileEntry)
    (s : profile_check) : option profile_check :=
  match profile with
  | [] => Some s
  | e :: profile' =>
      if ResponseCode.is_OK (check_code s) then
        match check_entry fuel schedule (physical_value_to_float (ChargingProfileEntryMaxPower e))
                (mkCheck (u32 (ev_time_sum s + ChargingProfileEntryStart e)) (evse_time_sum s)
                   (evse_idx s) (within_entry s) (check_code s)) with
        | Some s' => check_profile fuel schedule profile' s'
        | None => None
        end
      else Some s
  end.

Definition check_iso2_charging_profile_values (fuel : nat) (profile : option (list ProfileEntry))
    (schedule : list PMaxScheduleEntry) (code : ResponseCode.t) : option ResponseCode.t :=
  match profile with
  | Some l => check_code <$> check_profile fuel schedule l (mkCheck 0 0 0 false code)
  | None => Some code
  end.

(** Enough to look at each entry once.  The schedules of the server have one
    entry, which starts at 0: at such an entry every further round is the same
    one. *)
Definition profile_fuel (schedule : list PMaxScheduleEntry) : nat := S (S (length schedule)).

(** ** Publishing requests *)

Section Requests.
Context {L : V2gLib}.
Implicit Types (c : v2g_context) (env : request_env).

Abbreviation handled := (V2g (v2g_event * response)).
Definition ph (p : PhysicalValue) : Q := physical_value_to_float p.

Definition publish_iso_charge_parameter_discovery_req env (r : ChargeParameterDiscoveryReq) : V2g unit :=
  let mode := RequestedEnergyTransferMode r in
  eemit (publish_requested_energy_transfer_mode mode) ;;;
  if AC_EVChargeParameter_isUsed r then
    let a := req_AC_EVChargeParameter r in
    v2g_when (ac_DepartureTime_isUsed a)
      (eemit (publish_departure_time (time_now env + ac_DepartureTime a))) ;;;
    eemit (publish_ac_eamount (ph (EAmount a))) ;;;
    eemit (publish_ac_ev_max_voltage (ph (EVMaxVoltage a))) ;;;
    eemit (publish_ac_ev_max_current (ph (EVMaxCurrent a))) ;;;
    eemit (publish_ac_ev_min_current (ph (EVMinCurrent a))) ;;;
    eemit (publish_charging_needs (mkNeeds mode
      (Some (ph (EAmount a), ph (EVMaxVoltage a), ph (EVMaxCurrent a), ph (EVMinCurrent a))) None))
  else if DC_EVChargeParameter_isUsed r then
    let d := req_DC_EVChargeParameter r in
    v2g_when (dc_DepartureTime_isUsed d)
      (eemit (publish_departure_time (time_now env + dc_DepartureTime d))) ;;;
    v2g_when (EVEnergyCapacity_isUsed d)
      (eemit (publish_dc_ev_energy_capacity (ph (EVEnergyCapacity d)))) ;;;
    v2g_when (EVEnergyRequest_isUsed d)
      (eemit (publish_dc_ev_energy_request (ph (EVEnergyRequest d)))) ;;;
    v2g_when (FullSOC_isUsed d) (eemit (publish_dc_full_soc (FullSOC d))) ;;;
    v2g_when (BulkSOC_isUsed d) (eemit (publish_dc_bulk_soc (BulkSOC d))) ;;;
    publish_dc_ev_maximum_limits_ (ph (dc_EVMaximumCurrentLimit d)) true
      (ph (dc_EVMaximumPowerLimit d)) (dc_EVMaximumPowerLimit_isUsed d)
      (ph (dc_EVMaximumVoltageLimit d)) true ;;;
    publish_DcEvStatus (dc_DC_EVStatus d) ;;;
    let used {A} (b : bool) (x : A) := if b then Some x else None in
    eemit (publish_charging_needs (mkNeeds mode None
      (Some (used (EVEnergyCapacity_isUsed d) (ph (EVEnergyCapacity d)),
             used (EVEnergyRequest_isUsed d) (ph (EVEnergyRequest d)),
             used (FullSOC_isUsed d) (FullSOC d), used (BulkSOC_isUsed d) (BulkSOC d),
             ph (dc_EVMaximumCurrentLimit d), ph (dc_EVMaximumPowerLimit d),
             ph (dc_EVMaximumVoltageLimit d), EVRESSSOC (dc_DC_EVStatus d)))))
  else eemit (publish_charging_needs (mkNeeds mode None None)).

Definition publish_iso_pre_charge_req (r : PreChargeReq) : V2g unit :=
  publish_dc_ev_target_voltage_current_ (ph (pc_EVTargetVoltage r)) (ph (pc_EVTargetCurrent r)) ;;;
  publish_DcEvStatus (pc_DC_EVStatus r).

Definition publish_iso_power_delivery_req (r : PowerDeliveryReq) : V2g unit :=
  v2g_when (DC_EVPowerDeliveryParameter_isUsed r)
    (eemit (publish_dc_charging_complete (pd_ChargingComplete r)) ;;;
     v2g_when (pd_BulkChargingComplete_isUsed r)
       (eemit (publish_dc_bulk_charging_complete (pd_BulkChargingComplete r))) ;;;
     publish_DcEvStatus (pd_DC_EVStatus r)).

Definition publish_iso_current_demand_req env (r : CurrentDemandReq) : V2g unit :=
  let* c := get_ctx in
  v2g_when (cd_BulkChargingComplete_isUsed r &&
            negb (bulk_charging_complete (ev_v2g_data c) =? cd_BulkChargingComplete r))
    (eemit (publish_dc_bulk_charging_complete (cd_BulkChargingComplete r)) ;;;
     set_ev (assign bulk_charging_complete (cd_BulkChargingComplete r))) ;;;
  v2g_when (negb (charging_complete (ev_v2g_data c) =? cd_ChargingComplete r))
    (eemit (publish_dc_charging_complete (cd_ChargingComplete r)) ;;;
     set_ev (assign charging_complete (cd_ChargingComplete r))) ;;;
  publish_DcEvStatus (cd_DC_EVStatus r) ;;;
  publish_dc_ev_target_voltage_current_ (ph (cd_EVTargetVoltage r)) (ph (cd_EVTargetCurrent r)) ;;;
  publish_dc_ev_maximum_limits_
    (ph (cd_EVMaximumCurrentLimit r)) (cd_EVMaximumCurrentLimit_isUsed r)
    (ph (cd_EVMaximumPowerLimit r)) (cd_EVMaximumPowerLimit_isUsed r)
    (ph (cd_EVMaximumVoltageLimit r)) (cd_EVMaximumVoltageLimit_isUsed r) ;;;
  publish_dc_ev_remaining_time_ (time_now env)
    (ph (RemainingTimeToFullSoC r)) (RemainingTimeToFullSoC_isUsed r)
    (ph (RemainingTimeToBulkSoC r)) (RemainingTimeToBulkSoC_isUsed r).

(** ** Handling requests *)

(** The end of a handler: the response code is checked, and the next state set.
    [next] may depend on the code. *)
Definition finish (code : ResponseCode.t) (next : Z) (body : ResponseCode.t -> response_body) : handled :=
  let* r := iso_validate_response_code code in
  set_state next ;;;
  eret (r.1, mkResponse r.2 (body r.2)).

(** [sprintf("%02X:", ...)] for each byte, without the last colon. *)
Definition hex_digit (n : Z) : string :=
  match String.get (Z.to_nat n) "0123456789ABCDEF" with
  | Some a => String a EmptyString
  | None => EmptyString
  end.
Definition format_evcc_id (l : bytes) : string :=
  String.concat ":" (map (fun b => hex_digit (Z.shiftr b 4) ++ hex_digit (Z.land b 15))%string l).

(** [generate_random_data(&session_id, 4)] writes the low half of the id. *)
Definition random_session_id (old : Z) (r : option bytes) : Z :=
  match r with
  | Some l => Z.shiftl (Z.shiftr old 32) 32 + u32 (fold_right (fun b acc => b + 256 * acc) 0 l)
  | None => old
  end.

Definition handle_iso_session_setup env (EVCCID : bytes) : handled :=
  eemit (publish_evcc_id (format_evcc_id EVCCID)) ;;;
  let* c := get_ctx in
  let id := session_id (evse_v2g_data c) in
  let* code :=
    if (id =? 0) || negb (id =? received_session_id (ev_v2g_data c)) then
      set_evse (assign session_id (random_session_id id (random_session env))) ;;;
      eret ResponseCode.OK_NewSessionEstablished
    else eret ResponseCode.OK_OldSessionJoined in
  finish code iso_dc_state_id.WAIT_FOR_SERVICEDISCOVERY (fun _ =>
    SessionSetupRes (evse_id (evse_v2g_data c))
      (if date_time_now_is_used (evse_v2g_data c) then Some (time_now env) else None)).

(** The charge service as the standard has it. *)
Definition conform_charge_service (s : Service) : Service :=
  let s := assign ServiceID V2G_SERVICE_ID_CHARGING s in
  assign ServiceCategory EVCharging s.

Definition handle_iso_service_discovery (scope : option string) : handled :=
  set_evse (update charge_service (update cs_service conform_charge_service)) ;;;
  let* conn := eget in
  let d := evse_v2g_data (ctx conn) in
  v2g_when (negb (is_tls_connection conn) &&
            (is_contract (payment_option_list d).1 || is_contract (payment_option_list d).2))
    (set_evse (fun d => assign payment_option_list_len 1%nat
       (update payment_option_list (fun l => (ExternalPayment, l.2)) d))) ;;;
  let* c := get_ctx in
  let d := evse_v2g_data c in
  let options := take (payment_option_list_len d) [(payment_option_list d).1; (payment_option_list d).2] in
  let in_scope := match scope with
                  | Some sc => find (fun s => match ServiceScope s with
                                              | Some x => String.eqb x sc
                                              | None => false
                                              end) (evse_service_list d)
                  | None => None
                  end in
  let services := match in_scope with Some s => [s] | None => evse_service_list d end in
  finish ResponseCode.OK iso_dc_state_id.WAIT_FOR_SVCDETAIL_PAYMENTSVCSEL (fun _ =>
    ServiceDiscoveryRes options (charge_service d)
      (match evse_service_list d with [] => None | _ => Some services end)).

(** The value a provider gives, by the first kind it has. *)
Definition parameter_value (v : VasValue) : ParameterValue :=
  match v with
  | mkVasValue (Some z) _ _ _ _ _ => intValue z
  | mkVasValue _ (Some s) _ _ _ _ => stringValue s
  | mkVasValue _ _ (Some b) _ _ _ => boolValue b
  | mkVasValue _ _ _ (Some z) _ _ => byteValue (swrap 8 z)
  | mkVasValue _ _ _ _ (Some z) _ => shortValue (swrap 16 z)
  | mkVasValue _ _ _ _ _ (Some q) =>
      physicalValue (populate_physical_value_float (init_physical_value unit_h) q 1 unit_W)
  | _ => noValue
  end.
Definition parameter_set (p : VasParameterSet) : ParameterSet :=
  mkParameterSet (swrap 16 (set_id p))
    (map (fun q => mkServiceParameter (vas_name q) (parameter_value (vas_value q))) (vas_parameters p)).

(** The parameters of the first provider that offers the service.  The loop
    over the sets goes one element beyond the five of the array. *)
Definition provider_parameters env (id : Z) (unchanged : option (list ParameterSet))
  : V2g (option (list ParameterSet)) :=
  let* c := get_ctx in
  match list_find (fun l => id ∈ l) (supported_vas_services_per_provider c) with
  | Some (i, _) =>
      match get_service_parameters env i id with
      | [] => eret unchanged
      | l => if (iso2_ParameterSetType_5_ARRAY_SIZE <? length l)%nat then ethrow out_of_bounds
             else eret (Some (map parameter_set l))
      end
  | None => eret unchanged
  end.

Fixpoint find_service_parameters env (id : Z) (services : list Service) (found : bool)
    (parameters : option (list ParameterSet)) : V2g (bool * option (list ParameterSet)) :=
  match services with
  | [] => eret (found, parameters)
  | s :: services' =>
      if id =? ServiceID s then
        let* c := get_ctx in
        match find_parameters id (service_parameter_list (evse_v2g_data c)) with
        | Some p => eret (true, Some p)
        | None =>
            let* p := provider_parameters env id ((fun _ => []) <$> parameters) in
            find_service_parameters env id services' true p
        end
      else find_service_parameters env id services' found parameters
  end.

Definition handle_iso_service_detail env (id : Z) : handled :=
  let* c := get_ctx in
  let* r := find_service_parameters env id (evse_service_list (evse_v2g_data c)) false None in
  let service_id_found := (id =? V2G_SERVICE_ID_CHARGING) || r.1 in
  finish (if service_id_found then ResponseCode.OK else ResponseCode.FAILED_ServiceIDInvalid)
    iso_dc_state_id.WAIT_FOR_SVCDETAIL_PAYMENTSVCSEL (fun _ => ServiceDetailRes id r.2).

(** The effects of a selected service that is in the list: the mode of SAE
    J2847/2. *)
Definition select_service (id : Z) : V2g unit :=
  if id =? SAE_V2H then
    set_evse (update sae_bidi_data (fun b => assign enabled_sae_v2g false (assign enabled_sae_v2h true b))) ;;;
    eemit publish_sae_bidi_mode_active
  else if id =? SAE_V2G then
    set_evse (update sae_bidi_data (fun b => assign enabled_sae_v2g true (assign enabled_sae_v2h false b))) ;;;
    eemit publish_sae_bidi_mode_active
  else eret tt.

(** The loop over the selected services: whether the charge service is among
    them, whether all are known, and the selections for the providers. *)
Fixpoint select_services (l : list SelectedService) (charge_service_found : bool)
    (by_provider : list (nat * (Z * Z))) : V2g (bool * bool * list (nat * (Z * Z))) :=
  match l with
  | [] => eret (charge_service_found, true, by_provider)
  | s :: l' =>
      let id := sel_ServiceID s in
      if id =? V2G_SERVICE_ID_CHARGING then select_services l' true by_provider
      else
        let* c := get_ctx in
        if existsb (fun x => id =? ServiceID x) (evse_service_list (evse_v2g_data c)) then
          select_service id ;;;
          let selection := (id, if sel_ParameterSetID_isUsed s then sel_ParameterSetID s else 0) in
          let providers :=
            omap (fun p : nat * list Z => if bool_decide (id ∈ p.2) then Some (p.1, selection) else None)
              (imap pair (supported_vas_services_per_provider c)) in
          select_services l' charge_service_found (by_provider ++ providers)
        else eret (charge_service_found, false, by_provider)
  end.

(** The calls, in the order of the providers. *)
Definition call_providers (by_provider : list (nat * (Z * Z))) : V2g unit :=
  let* c := get_ctx in
  efor (seq 0 (length (supported_vas_services_per_provider c))) (fun i =>
    match omap (fun e : nat * (Z * Z) => if (e.1 =? i)%nat then Some e.2 else None) by_provider with
    | [] => eret tt
    | l => eemit (call_selected_services i l)
    end).

Definition same_option (a b : paymentOption) : bool := Bool.eqb (is_contract a) (is_contract b).

Definition handle_iso_payment_service_selection env (r : PaymentServiceSelectionReq) : handled :=
  let* c := get_ctx in
  let d := evse_v2g_data c in
  let options := take (payment_option_list_len d) [(payment_option_list d).1; (payment_option_list d).2] in
  let list_element_found := existsb (same_option (SelectedPaymentOption r)) options in
  v2g_when list_element_found (eemit (publish_selected_payment_option (SelectedPaymentOption r))) ;;;
  let code := if list_element_found then ResponseCode.OK
              else ResponseCode.FAILED_PaymentSelectionInvalid in
  let* sel := select_services (SelectedServiceList r) false [] in
  let '(charge_service_found, selected_services_found, by_provider) := sel in
  v2g_when selected_services_found (call_providers by_provider) ;;;
  let code := if negb selected_services_found then ResponseCode.FAILED_ServiceSelectionInvalid else code in
  let code := if negb charge_service_found then ResponseCode.FAILED_NoChargeServiceSelected else code in
  let* v := iso_validate_response_code code in
  match SelectedPaymentOption r with
  | Contract =>
      set_session (assign iso_selected_payment_option Contract) ;;;
      set_state iso_dc_state_id.WAIT_FOR_PAYMENTDETAILS_CERTINST_CERTUPD
  | ExternalPayment =>
      set_evse (update evse_processing (set_phase PHASE_AUTH Ongoing_WaitingForCustomerInteraction)) ;;;
      set_state iso_dc_state_id.WAIT_FOR_AUTHORIZATION ;;;
      set_session (assign auth_start_timeout (monotonic env).1)
  end ;;;
  eret (v.1, mkResponse v.2 PaymentServiceSelectionRes).

(** Without '-', and compared without regard to case. *)
Definition without_dashes (s : string) : string :=
  String.string_of_list_ascii
    (filter (fun a => a <> Ascii.ascii_of_nat 45) (String.list_ascii_of_string s)).
Definition to_lower (a : Ascii.ascii) : Ascii.ascii :=
  let n := Ascii.nat_of_ascii a in
  if (65 <=? n)%nat && (n <=? 90)%nat then Ascii.ascii_of_nat (n + 32) else a.
Definition same_emaid (a b : string) : bool :=
  bool_decide (map to_lower (String.list_ascii_of_string a) = map to_lower (String.list_ascii_of_string b)).

Definition GEN_CHALLENGE_SIZE : nat := 16.

(** The code of a contract certificate that could not be verified here, or
    [None] when the contract is forwarded. *)
Definition verification_failure (central : bool) (v : verify_result) : option ResponseCode.t :=
  match v with
  | Verified => None
  | CertificateExpired => Some ResponseCode.FAILED_CertificateExpired
  | CertificateRevoked => if central then None else Some ResponseCode.FAILED_CertificateRevoked
  | NoCertificateAvailable => if central then None else Some ResponseCode.FAILED_NoCertificateAvailable
  | CertificateNotAllowed =>
      if central then None else Some ResponseCode.FAILED_CertificateNotAllowedAtThisEVSE
  | CertChainError => Some ResponseCode.FAILED_CertChainError
  end.

(** Everything of [handle_iso_payment_details] before [error_out]: the code,
    the challenge and the time stamp of the response. *)
Definition check_payment_details env (r : PaymentDetailsReq) : V2g (ResponseCode.t * bytes * Z) :=
  let* conn := eget in
  let c := ctx conn in
  let failed_with code : V2g (ResponseCode.t * bytes * Z) := eret (code, [], 0) in
  match iso_selected_payment_option (session c) with
  | ExternalPayment => failed_with ResponseCode.FAILED
  | Contract =>
      match ContractCertificate_bytes r with
      | [] => failed_with ResponseCode.FAILED_CertChainError
      | cert =>
          let contract_crt := der_to_certificate cert in
          let cert_emaid := without_dashes (certificate_common_name contract_crt) in
          let req_emaid := without_dashes (eMAID r) in
          if negb (same_emaid req_emaid cert_emaid) then failed_with ResponseCode.FAILED_CertChainError
          else
            match contract_crt with
            | None => failed_with ResponseCode.FAILED_CertChainError
            | Some crt =>
                match pubkey conn with
                | None => ethrow null_pointer
                | Some _ =>
                    emodify (assign pubkey (Some (certificate_public_key crt))) ;;;
                    match certificate_public_key crt with
                    | None => failed_with ResponseCode.FAILED_CertChainError
                    | Some _ =>
                        match mapM der_to_certificate (if SubCertificates_isUsed r then SubCertificates r else []) with
                        | None => failed_with ResponseCode.FAILED_CertChainError
                        | Some chain =>
                            let pem := chain_to_pem crt chain in
                            let verified := verify_certificate crt chain in
                            let central := central_contract_validation_allowed (evse_v2g_data c) in
                            let local := verify_contract_cert_chain (session c) in
                            match (if local then verification_failure central verified else None) with
                            | Some code => eret (code, replicate GEN_CHALLENGE_SIZE 0, time_now env)
                            | None =>
                                let hash_data :=
                                  match verified with
                                  | Verified => if local then Some (get_mo_ocsp_request_data pem) else None
                                  | _ => None
                                  end in
                                set_session (update gen_challenge (fun old => default old (random_challenge env))) ;;;
                                let* c := get_ctx in
                                set_session (assign provided_id_token
                                  (Some (mkPncToken cert_emaid pem hash_data))) ;;;
                                eret (ResponseCode.OK, gen_challenge (session c), time_now env)
                            end
                        end
                    end
                end
            end
      end
  end.

Definition handle_iso_payment_details env (r : PaymentDetailsReq) : handled :=
  let* x := check_payment_details env r in
  let '(code, challenge, stamp) := x in
  let* v := iso_validate_response_code code in
  set_state iso_dc_state_id.WAIT_FOR_AUTHORIZATION ;;;
  set_session (assign auth_start_timeout (monotonic env).1) ;;;
  eret (v.1, mkResponse v.2 (PaymentDetailsRes challenge stamp)).

(** The checks of the first authorization request of a contract: the code of an
    error, which leaves [EVSEProcessing] of the response at 0. *)
Definition check_authorization (r : AuthorizationReq) : V2g (option ResponseCode.t) :=
  let* conn := eget in
  let c := ctx conn in
  if negb (V2gMsgTypeId.eqb (last_v2g_msg c) V2G_AUTHORIZATION_MSG) &&
     is_contract (iso_selected_payment_option (session c))
  then
    if negb (GenChallenge_isUsed r) || negb (length (req_GenChallenge r) =? 16)%nat ||
       negb (bool_decide (req_GenChallenge r = gen_challenge (session c)))
    then eret (Some ResponseCode.FAILED_ChallengeInvalid)
    else if negb (Signature_isUsed r) then eret (Some ResponseCode.FAILED_SignatureError)
    else
      match pubkey conn with
      | None => ethrow null_pointer
      | Some key =>
          if negb (check_iso2_signature (Signature r) key (authorization_fragment r))
          then eret (Some ResponseCode.FAILED_SignatureError)
          else
            match provided_id_token (session c) with
            | Some t =>
                eemit (publish_require_auth_pnc t) ;;;
                set_session (assign provided_id_token None) ;;;
                eret None
            | None => eret (Some ResponseCode.FAILED)
            end
      end
  else eret None.

(** The code of a request that passed the checks: a timeout while the
    authorization goes on, a rejection when it is finished. *)
Definition authorization_outcome env : V2g ResponseCode.t :=
  let* c := get_ctx in
  let s := session c in
  let contract := is_contract (iso_selected_payment_option s) in
  if negb (is_finished (evse_processing (evse_v2g_data c) PHASE_AUTH)) then
    let timeout := if contract then auth_timeout_pnc s else auth_timeout_eim s in
    if timeout =? 0 then eret ResponseCode.OK
    else if 1000 * timeout <=? (monotonic env).1 - auth_start_timeout s then
      set_session (assign auth_start_timeout (monotonic env).2) ;;;
      eret ResponseCode.FAILED
    else eret ResponseCode.OK
  else if authorization_rejected s then
    eret (if certificate_revoked s then ResponseCode.FAILED_CertificateRevoked else ResponseCode.FAILED)
  else eret ResponseCode.OK.

Definition handle_iso_authorization env (r : AuthorizationReq) : handled :=
  let* err := check_authorization r in
  let* x :=
    match err with
    | Some code => eret (code, Finished)
    | None =>
        let* code := authorization_outcome env in
        let* c := get_ctx in
        eret (code, evse_processing (evse_v2g_data c) PHASE_AUTH)
    end in
  let '(code, processing) := x in
  finish code
    (if is_finished processing then iso_dc_state_id.WAIT_FOR_CHARGEPARAMETERDISCOVERY
     else iso_dc_state_id.WAIT_FOR_AUTHORIZATION)
    (fun _ => AuthorizationRes processing).

(** ** Charge parameters *)

Definition PAUSE_DURATION : Z := 1800.
Definition is_no_pause (p : NoEnergyPauseStatus) : bool := match p with NoPause => true | _ => false end.

(** [max_current * nom_voltage * phases] for AC. *)
Definition ac_pmax (c : v2g_context) (mode : EnergyTransferMode) : Z :=
  let nom_voltage := truncate (ph (evse_nominal_voltage (evse_v2g_data c))) in
  truncate (evse_ac_current_limit c * inject_Z nom_voltage *
            match mode with AC_single_phase_core => 1 | _ => 3 end).

(** The schedule the server makes itself, in place of the first entry of the
    first tuple. *)
Definition configure_schedule (c : v2g_context) (mode : EnergyTransferMode) : list SAScheduleTuple :=
  let d := evse_v2g_data c in
  let first := default (mkTuple 0 []) (head (evse_sa_schedule_list d)) in
  let old := default (init_physical_value unit_h) (PMax <$> head (PMaxSchedule first)) in
  let pmax :=
    if is_dc_charger c then evse_maximum_power_limit d
    else (populate_physical_value old (ac_pmax c mode) unit_W).2 in
  let duration := if is_no_pause (no_energy_pause d) then SA_SCHEDULE_DURATION else PAUSE_DURATION in
  [mkTuple (SAScheduleTupleID first) [mkPMaxEntry pmax 0 true duration]].

(** The mode V2H of SAE J2847/2: the first request is answered with [Ongoing],
    the second one has to have negative limits. *)
Definition v2h_negotiation (r : ChargeParameterDiscoveryReq) (processing : EVSEProcessing)
    (code : ResponseCode.t) : V2g (EVSEProcessing * ResponseCode.t) :=
  let* c := get_ctx in
  let d := req_DC_EVChargeParameter r in
  if negb (enabled_sae_v2h (sae_bidi_data (evse_v2g_data c))) then eret (processing, code)
  else if first_req c then
    set_ctx (assign first_req false) ;;;
    eret (Ongoing, code)
  else
    let negative := BulkSOC_isUsed d && (Value (dc_EVMaximumCurrentLimit d) <? 0) &&
                    dc_EVMaximumPowerLimit_isUsed d && (Value (dc_EVMaximumPowerLimit d) <? 0) in
    v2g_when negative (set_evse (update sae_bidi_data (assign sae_v2h_minimal_soc (BulkSOC d)))) ;;;
    set_ctx (assign first_req true) ;;;
    eret (Finished, if negative then code else ResponseCode.FAILED_WrongEnergyTransferMode).

(** The limits of a DC request that are refused. *)
Definition wrong_dc_parameters (c : v2g_context) (r : ChargeParameterDiscoveryReq) : bool :=
  let d := req_DC_EVChargeParameter r in
  AC_EVChargeParameter_isUsed r ||
  (negb (enabled_sae_v2h (sae_bidi_data (evse_v2g_data c))) &&
   ((Value (dc_EVMaximumCurrentLimit d) <? 0) || (Value (dc_EVMaximumPowerLimit d) <? 0) ||
    (Value (dc_EVMaximumVoltageLimit d) <? 0))) ||
  negb (Qle_bool (ph (evse_minimum_current_limit (evse_v2g_data c))) (ph (dc_EVMaximumCurrentLimit d))) ||
  negb (Qle_bool (ph (evse_minimum_voltage_limit (evse_v2g_data c))) (ph (dc_EVMaximumVoltageLimit d))).

Definition PAUSE_NOTIFICATION_DELAY : Z := 300.

(** The DC status of the response; during a pause for lack of energy it asks
    the car to stop. *)
Definition parameter_status (c : v2g_context) (processing : EVSEProcessing) : DC_EVSEStatus :=
  let s := dc_evse_status c (get_emergency_status_code c PHASE_PARAMETER) in
  if is_finished processing && negb (is_no_pause (no_energy_pause (evse_v2g_data c))) then
    mkEvseStatus (EVSEIsolationStatus s) (EVSEIsolationStatus_isUsed s) StopCharging
      (st_EVSEStatusCode s)
      (match no_energy_pause (evse_v2g_data c) with BeforeCableCheck => 0 | _ => PAUSE_NOTIFICATION_DELAY end)
  else s.

Definition used {A} (b : bool) (x : A) : option A := if b then Some x else None.

Definition ac_parameter_body (c : v2g_context) (processing : EVSEProcessing)
    (schedule : option (list SAScheduleTuple)) (code : ResponseCode.t) : response_body :=
  ChargeParameterDiscoveryRes_ (mkChargeParameterRes processing
    (if ResponseCode.failed code then None else schedule)
    (Some (populate_ac_evse_status c,
           populate_physical_value_float (init_physical_value unit_h) (evse_ac_current_limit c) 1 unit_A,
           evse_nominal_voltage (evse_v2g_data c)))
    None None None []).

Definition dc_parameter_body (c : v2g_context) (processing : EVSEProcessing)
    (schedule : option (list SAScheduleTuple)) (code : ResponseCode.t) : response_body :=
  let d := evse_v2g_data c in
  let p := power_capabilities d in
  let ok := negb (ResponseCode.failed code) in
  ChargeParameterDiscoveryRes_ (mkChargeParameterRes processing
    (if ok then schedule else None) None
    (Some (hide_isolation code (parameter_status c processing)))
    (used (ok && evse_current_regulation_tolerance_is_used d) (evse_current_regulation_tolerance d))
    (used (ok && evse_energy_to_be_delivered_is_used d) (evse_energy_to_be_delivered d))
    (Some <$> [max_current p; max_power p; max_voltage p; min_current p; min_voltage p;
               evse_peak_current_ripple d])).

Definition handle_iso_charge_parameter_discovery env (r : ChargeParameterDiscoveryReq) : handled :=
  publish_iso_charge_parameter_discovery_req env r ;;;
  let* c := get_ctx in
  let d := evse_v2g_data c in
  let mode := RequestedEnergyTransferMode r in
  let offered := take (modes_len (charge_service d)) (modes (charge_service d)) in
  let code := if bool_decide (mode ∈ offered) then ResponseCode.OK
              else ResponseCode.FAILED_WrongEnergyTransferMode in
  let finished := is_finished (evse_processing d PHASE_PARAMETER) in
  v2g_when (finished && negb (evse_sa_schedule_list_is_used d))
    (set_evse (assign evse_sa_schedule_list (configure_schedule c mode))) ;;;
  let* c := get_ctx in
  let schedule := used finished (evse_sa_schedule_list (evse_v2g_data c)) in
  let processing := if finished then Finished else Ongoing in
  set_session (assign renegotiation_required false) ;;;
  if negb (is_dc_charger c) then
    finish (if DC_EVChargeParameter_isUsed r then ResponseCode.FAILED_WrongChargeParameter else code)
      (if is_finished processing then iso_ac_state_id.WAIT_FOR_POWERDELIVERY
       else iso_ac_state_id.WAIT_FOR_CHARGEPARAMETERDISCOVERY)
      (ac_parameter_body c processing schedule)
  else
    let* n := v2h_negotiation r processing code in
    let '(processing, code) := n in
    let* c := get_ctx in
    finish (if wrong_dc_parameters c r then ResponseCode.FAILED_WrongChargeParameter else code)
      (match no_energy_pause (evse_v2g_data c) with
       | BeforeCableCheck => iso_dc_state_id.WAIT_FOR_PRECHARGE_POWERDELIVERY
       | _ => if is_finished processing then iso_dc_state_id.WAIT_FOR_CABLECHECK
              else iso_dc_state_id.WAIT_FOR_CHARGEPARAMETERDISCOVERY
       end)
      (dc_parameter_body c processing schedule).

(** ** Power delivery *)

(** Waiting for the contactor to close: the wakeups before the deadline, and
    then the timeout. *)
Fixpoint wait_contactor (ws : list wakeup) (code : ResponseCode.t) : V2g ResponseCode.t :=
  let* c := get_ctx in
  if contactor_is_closed c || intl_emergency_shutdown c || stop_hlc c || is_connection_terminated c
  then eret code
  else
    match ws with
    | [] => eret ResponseCode.FAILED_ContactorError
    | w :: ws' =>
        efor (wake_commands w) command ;;;
        match wake_return w with
        | signalled | interrupted => wait_contactor ws' code
        | timed_out => eret ResponseCode.FAILED_ContactorError
        | wait_error => eret code
        end
    end.

Definition ev_should_pause (c : v2g_context) : bool :=
  match no_energy_pause (evse_v2g_data c) with
  | AfterCableCheckPreCharge | BeforeCableCheck => true
  | _ => false
  end.

Definition charge_progress env (progress : chargeProgress) : V2g ResponseCode.t :=
  let* c := get_ctx in
  let should_pause := ev_should_pause c in
  match progress with
  | Start =>
      eemit publish_v2g_setup_finished ;;;
      if negb (is_dc_charger c) then
        if negb (contactor_is_closed c) then
          eemit publish_ac_close_contactor ;;;
          set_session (assign is_charging true) ;;;
          wait_contactor (wakeups env) ResponseCode.OK
        else eret ResponseCode.OK
      else if should_pause then
        set_session (assign is_charging false) ;;;
        eemit publish_dc_open_contactor ;;;
        eret ResponseCode.FAILED
      else eret ResponseCode.OK
  | Stop =>
      set_session (assign is_charging false) ;;;
      (if negb (is_dc_charger c) then eemit publish_ac_open_contactor
       else eemit publish_current_demand_finished ;;; eemit publish_dc_open_contactor) ;;;
      eret ResponseCode.OK
  | Renegotiate =>
      set_session (assign renegotiation_required true) ;;;
      eret ResponseCode.OK
  | UnknownProgress => eret ResponseCode.FAILED
  end.

Definition is_start (p : chargeProgress) : bool := match p with Start => true | _ => false end.
Definition is_renegotiate (p : chargeProgress) : bool := match p with Renegotiate => true | _ => false end.

(** The last message was one of the charging loop. *)
Definition was_charging (c : v2g_context) : bool :=
  V2gMsgTypeId.eqb (last_v2g_msg c) V2G_CURRENT_DEMAND_MSG ||
  V2gMsgTypeId.eqb (last_v2g_msg c) V2G_CHARGING_STATUS_MSG.

(** The state after a renegotiation was accepted. *)
Definition start_renegotiation : V2g unit :=
  set_state iso_dc_state_id.WAIT_FOR_CHARGEPARAMETERDISCOVERY ;;;
  let* c := get_ctx in
  let reset n := match n with ReNegotiation => Notification_None | _ => n end in
  if negb (is_dc_charger c) then set_evse (update evse_notification reset)
  else
    set_evse (update evse_processing (set_phase PHASE_ISOLATION Ongoing)) ;;;
    set_evse (update evse_notification reset) ;;;
    set_evse (assign evse_isolation_status Iso_Invalid).

Definition next_after_power_delivery (progress : chargeProgress) : V2g unit :=
  let* c := get_ctx in
  if is_renegotiate progress && was_charging c then start_renegotiation
  else if is_start progress && negb (was_charging c) then
    set_state (if is_dc_charger c then iso_dc_state_id.WAIT_FOR_CURRENTDEMAND
               else iso_ac_state_id.WAIT_FOR_CHARGINGSTATUS)
  else
    set_state (if is_dc_charger c then iso_dc_state_id.WAIT_FOR_WELDINGDETECTION_SESSIONSTOP
               else iso_ac_state_id.WAIT_FOR_SESSIONSTOP).

(** The tuple the car selected. *)
Definition selected_tuple (c : v2g_context) (id : Z) : option SAScheduleTuple :=
  find (fun t => SAScheduleTupleID t =? id) (evse_sa_schedule_list (evse_v2g_data c)).

Definition handle_iso_power_delivery env (r : PowerDeliveryReq) : handled :=
  publish_iso_power_delivery_req r ;;;
  let* code := charge_progress env (ChargeProgress r) in
  let* c := get_ctx in
  let ac := used (negb (is_dc_charger c)) (populate_ac_evse_status c) in
  let status := dc_evse_status c (get_emergency_status_code c PHASE_CHARGE) in
  let code := if is_dc_charger c && is_start (ChargeProgress r) && negb (is_ready (st_EVSEStatusCode status))
              then ResponseCode.FAILED_PowerDeliveryNotApplied else code in
  let selected := selected_tuple c (pd_SAScheduleTupleID r) in
  match selected with
  | Some _ => set_session (assign sa_schedule_tuple_id (pd_SAScheduleTupleID r))
  | None => eret tt
  end ;;;
  let code := match selected with Some _ => code | None => ResponseCode.FAILED_TariffSelectionInvalid end in
  let schedule := match selected with Some t => PMaxSchedule t | None => [] end in
  match check_iso2_charging_profile_values (profile_fuel schedule)
          (used (ChargingProfile_isUsed r) (ChargingProfile r)) schedule code with
  | None => ethrow endless_loop
  | Some code =>
      let code := if is_start (ChargeProgress r) && was_charging c ||
                     is_renegotiate (ChargeProgress r) && negb (was_charging c)
                  then ResponseCode.FAILED else code in
      let* v := iso_validate_response_code code in
      next_after_power_delivery (ChargeProgress r) ;;;
      eret (v.1, mkResponse v.2
              (PowerDeliveryRes ac (used (is_dc_charger c) (hide_isolation v.2 status))))
  end.

(** ** The charging loop *)

(** The meter values, once per update of the meter. *)
Definition take_meter_info : V2g (option MeterInfo) :=
  let* c := get_ctx in
  if meter_info_is_used c then
    set_ctx (assign meter_info_is_used false) ;;;
    eret (Some (mkMeterInfo (meter_id c) (meter_reading c)))
  else eret None.

Definition handle_iso_charging_status : handled :=
  let* info := take_meter_info in
  let* c := get_ctx in
  let contract := is_contract (iso_selected_payment_option (session c)) in
  let ReceiptRequired := contract && receipt_required (evse_v2g_data c) in
  finish ResponseCode.OK
    (if ReceiptRequired then iso_ac_state_id.WAIT_FOR_METERINGRECEIPT
     else iso_ac_state_id.WAIT_FOR_CHARGINGSTATUS_POWERDELIVERY)
    (fun _ => ChargingStatusRes_ (mkChargingStatusRes (evse_id (evse_v2g_data c))
       (sa_schedule_tuple_id (session c))
       (used (negb contract)
          (populate_physical_value_float (init_physical_value unit_h) (evse_ac_current_limit c) 1 unit_A))
       info ReceiptRequired (populate_ac_evse_status c))).

Definition handle_iso_metering_receipt : handled :=
  let* c := get_ctx in
  finish ResponseCode.OK
    (if negb (is_dc_charger c) then iso_ac_state_id.WAIT_FOR_CHARGINGSTATUS_POWERDELIVERY
     else iso_dc_state_id.WAIT_FOR_CURRENTDEMAND_POWERDELIVERY)
    (fun _ => MeteringReceiptRes (used (negb (is_dc_charger c)) (populate_ac_evse_status c))).

(** Not implemented: the response is the zeroed one. *)
Definition handle_iso_certificate_update : handled :=
  eret (V2G_EVENT_NO_EVENT, mkResponse ResponseCode.OK CertificateUpdateRes).

Definition MQTT_MAX_PAYLOAD_SIZE : Z := 268435455.
Definition DEFAULT_BUFFER_SIZE : Z := 8192.
Definition V2GTP_HEADER_LENGTH : Z := 8.

Definition publish_iso_certificate_installation_exi_req (request : string) : V2g bool :=
  let size := Z.of_nat (String.length request) in
  if (MQTT_MAX_PAYLOAD_SIZE <? size) || (size =? 0) then eret false
  else eemit (publish_iso15118_certificate_request request) ;;; eret true.

(** Waiting for the response of the backend; a timeout is an emergency. *)
Fixpoint wait_certificate (ws : list wakeup) : V2g unit :=
  let* c := get_ctx in
  if negb (String.eqb (cert_install_res_b64_buffer (evse_v2g_data c)) "") ||
     intl_emergency_shutdown c || stop_hlc c || is_connection_terminated c
  then eret tt
  else
    match ws with
    | [] => set_ctx (assign intl_emergency_shutdown true)
    | w :: ws' =>
        efor (wake_commands w) command ;;;
        match wake_return w with
        | signalled | interrupted => wait_certificate ws'
        | timed_out => set_ctx (assign intl_emergency_shutdown true)
        | wait_error => eret tt
        end
    end.

(** The answer of the backend is copied behind the header into a buffer of
    [DEFAULT_BUFFER_SIZE] bytes; its size is compared with the whole buffer. *)
Definition certificate_answer : V2g (option bytes * ResponseCode.t) :=
  let* c := get_ctx in
  let d := evse_v2g_data c in
  let buffer := cert_install_res_b64_buffer d in
  if negb (String.eqb buffer "") && cert_install_status d then
    let data := base64_decode buffer in
    let size := Z.of_nat (length data) in
    if (size =? 0) || (DEFAULT_BUFFER_SIZE <? size) then eret (None, ResponseCode.OK)
    else if DEFAULT_BUFFER_SIZE - V2GTP_HEADER_LENGTH <? size then ethrow out_of_bounds
    else eret (Some data, ResponseCode.OK)
  else eret (None, ResponseCode.FAILED).

Definition handle_iso_certificate_installation env : handled :=
  let* published := publish_iso_certificate_installation_exi_req (exi_request env) in
  let* x :=
    if published then wait_certificate (wakeups env) ;;; certificate_answer
    else eret (None, ResponseCode.OK) in
  match x.1 with
  | Some data =>
      set_state iso_dc_state_id.WAIT_FOR_PAYMENTDETAILS ;;;
      eret (V2G_EVENT_SEND_RECV_EXI_MSG, mkResponse ResponseCode.OK (CertificateInstallationExi data))
  | None =>
      finish x.2 iso_dc_state_id.WAIT_FOR_PAYMENTDETAILS (fun _ => CertificateInstallationRes)
  end.

Definition handle_iso_cable_check (status : DC_EVStatus) : handled :=
  publish_DcEvStatus status ;;;
  let* c := get_ctx in
  let processing := evse_processing (evse_v2g_data c) PHASE_ISOLATION in
  let status_code :=
    if negb (intl_emergency_shutdown c) && is_finished processing then EVSE_Ready
    else get_emergency_status_code c PHASE_ISOLATION in
  finish ResponseCode.OK
    (if is_finished processing then iso_dc_state_id.WAIT_FOR_PRECHARGE
     else iso_dc_state_id.WAIT_FOR_CABLECHECK)
    (fun code => CableCheckRes (hide_isolation code (dc_evse_status c status_code)) processing).

Definition handle_iso_pre_charge (r : PreChargeReq) : handled :=
  publish_iso_pre_charge_req r ;;;
  let* c := get_ctx in
  finish ResponseCode.OK iso_dc_state_id.WAIT_FOR_PRECHARGE_POWERDELIVERY (fun code =>
    PreChargeRes (hide_isolation code (dc_evse_status c (get_emergency_status_code c PHASE_PRECHARGE)))
      (evse_present_voltage (evse_v2g_data c))).

(** Which of the limits of the EVSE the target of the car reaches. *)
Definition limits_achieved (r : CurrentDemandReq) (d : evse_data) : evse_data :=
  let reached (is_used : bool) (limit : PhysicalValue) (target : Q) := is_used && Qle_bool (ph limit) target in
  let current := ph (cd_EVTargetCurrent r) in
  let voltage := ph (cd_EVTargetVoltage r) in
  let d := assign evse_current_limit_achieved
    (reached (evse_maximum_current_limit_is_used d) (evse_maximum_current_limit d) current) d in
  let d := assign evse_power_limit_achieved
    (reached (evse_maximum_power_limit_is_used d) (evse_maximum_power_limit d) (current * voltage)%Q) d in
  assign evse_voltage_limit_achieved
    (reached (evse_maximum_voltage_limit_is_used d) (evse_maximum_voltage_limit d) voltage) d.

(** The mode V2G of SAE J2847/2: the direction changes when the EVSE offers the
    other one and the car still asks for the old one.  The counter is reset in
    both branches, so that it is never above 0 when it is looked at. *)
Definition v2g_handshake (r : CurrentDemandReq) : V2g unit :=
  let* c := get_ctx in
  let d := evse_v2g_data c in
  let b := sae_bidi_data d in
  let limited := evse_maximum_current_limit_is_used d && evse_maximum_power_limit_is_used d in
  let all (p : Z -> bool) := p (Value (evse_present_current d)) && limited &&
    p (Value (evse_maximum_current_limit d)) && p (Value (evse_maximum_power_limit d)) in
  let target := Value (cd_EVTargetCurrent r) in
  let count (direction : bool) :=
    set_ctx (assign req_pos_value_count 0) ;;;
    v2g_when (req_pos_value_count c <? 1) (set_evse (update sae_bidi_data (assign discharging direction))) in
  if negb (discharging b) && all (fun z => z <? 0) then v2g_when (0 <? target) (count true)
  else if discharging b && all (fun z => 0 <? z) then v2g_when (target <? 0) (count false)
  else eret tt.

Definition handle_iso_current_demand env (r : CurrentDemandReq) : handled :=
  publish_iso_current_demand_req env r ;;;
  let* c0 := get_ctx in
  set_evse (limits_achieved r) ;;;
  let* info := take_meter_info in
  let* c := get_ctx in
  let d := evse_v2g_data c in
  let b := sae_bidi_data d in
  let contract := is_contract (iso_selected_payment_option (session c)) in
  v2g_when (enabled_sae_v2g b) (v2g_handshake r) ;;;
  let status := dc_evse_status c0 (get_emergency_status_code c0 PHASE_CHARGE) in
  let status :=
    if negb (enabled_sae_v2g b) && enabled_sae_v2h b &&
       (EVRESSSOC (cd_DC_EVStatus r) <=? sae_v2h_minimal_soc b)
    then assign st_EVSEStatusCode EVSE_Shutdown status else status in
  let receipt := contract && receipt_required d in
  finish ResponseCode.OK
    (if receipt && receipt_required d then iso_dc_state_id.WAIT_FOR_METERINGRECEIPT
     else iso_dc_state_id.WAIT_FOR_CURRENTDEMAND_POWERDELIVERY)
    (fun code =>
       let ok := negb (ResponseCode.failed code) in
       CurrentDemandRes_ (mkCurrentDemandRes (hide_isolation code status)
         (evse_present_voltage d) (evse_present_current d)
         (evse_current_limit_achieved d) (evse_voltage_limit_achieved d) (evse_power_limit_achieved d)
         (used (ok && evse_maximum_voltage_limit_is_used d) (evse_maximum_voltage_limit d))
         (used (ok && evse_maximum_current_limit_is_used d) (evse_maximum_current_limit d))
         (used (ok && evse_maximum_power_limit_is_used d) (evse_maximum_power_limit d))
         (evse_id d) (sa_schedule_tuple_id (session c)) (if ok then info else None)
         receipt (receipt_required d))).

Definition handle_iso_welding_detection (status : DC_EVStatus) : handled :=
  publish_DcEvStatus status ;;;
  let* c := get_ctx in
  finish ResponseCode.OK iso_dc_state_id.WAIT_FOR_WELDINGDETECTION_SESSIONSTOP (fun code =>
    WeldingDetectionRes (hide_isolation code (dc_evse_status c (get_emergency_status_code c PHASE_WELDING)))
      (evse_present_voltage (evse_v2g_data c))).

(** A pause is accepted after power delivery or welding detection. *)
Definition handle_iso_session_stop (s : chargingSession) : handled :=
  let* v := iso_validate_response_code ResponseCode.OK in
  let* c := get_ctx in
  let terminate := emodify (assign dlink_action MQTT_DLINK_ACTION_TERMINATE) in
  let* code :=
    match s with
    | Terminate =>
        terminate ;;;
        set_ctx (assign hlc_pause_active false) ;;;
        set_state iso_dc_state_id.WAIT_FOR_TERMINATED_SESSION ;;;
        eret v.2
    | Pause =>
        if negb (V2gMsgTypeId.eqb (last_v2g_msg c) V2G_POWER_DELIVERY_MSG) &&
           negb (V2gMsgTypeId.eqb (last_v2g_msg c) V2G_WELDING_DETECTION_MSG)
        then
          terminate ;;;
          set_ctx (assign hlc_pause_active false) ;;;
          set_state iso_dc_state_id.WAIT_FOR_TERMINATED_SESSION ;;;
          eret ResponseCode.FAILED
        else
          emodify (assign dlink_action MQTT_DLINK_ACTION_PAUSE) ;;;
          set_ctx (assign hlc_pause_active true) ;;;
          set_state iso_dc_state_id.WAIT_FOR_SESSIONSETUP ;;;
          eret v.2
    | UnknownSession =>
        terminate ;;;
        set_state iso_dc_state_id.WAIT_FOR_TERMINATED_SESSION ;;;
        eret v.2
    end in
  eret (V2G_EVENT_SEND_AND_TERMINATE, mkResponse code SessionStopRes).

(** ** The dispatcher *)

Definition current_is (m : V2gMsgTypeId.t) : V2g unit := set_ctx (assign current_v2g_msg m).
Definition last_is (m : V2gMsgTypeId.t) : V2g bool :=
  let* c := get_ctx in eret (V2gMsgTypeId.eqb (last_v2g_msg c) m).

Definition iso_dispatch env (request : iso2_request) : handled :=
  match request with
  | CurrentDemandReq_ r =>
      let* started := last_is V2G_POWER_DELIVERY_MSG in
      v2g_when started (eemit publish_current_demand_started ;;; set_session (assign is_charging true)) ;;;
      current_is V2G_CURRENT_DEMAND_MSG ;;;
      handle_iso_current_demand env r
  | SessionSetupReq id => current_is V2G_SESSION_SETUP_MSG ;;; handle_iso_session_setup env id
  | ServiceDiscoveryReq scope =>
      current_is V2G_SERVICE_DISCOVERY_MSG ;;; handle_iso_service_discovery scope
  | ServiceDetailReq id => current_is V2G_SERVICE_DETAIL_MSG ;;; handle_iso_service_detail env id
  | PaymentServiceSelectionReq_ r =>
      current_is V2G_PAYMENT_SERVICE_SELECTION_MSG ;;; handle_iso_payment_service_selection env r
  | PaymentDetailsReq_ r => current_is V2G_PAYMENT_DETAILS_MSG ;;; handle_iso_payment_details env r
  | AuthorizationReq_ r =>
      current_is V2G_AUTHORIZATION_MSG ;;;
      let* again := last_is V2G_AUTHORIZATION_MSG in
      let* c := get_ctx in
      v2g_when (negb again && negb (is_contract (iso_selected_payment_option (session c))))
        (eemit publish_require_auth_eim) ;;;
      handle_iso_authorization env r
  | ChargeParameterDiscoveryReq_ r =>
      current_is V2G_CHARGE_PARAMETER_DISCOVERY_MSG ;;; handle_iso_charge_parameter_discovery env r
  | PowerDeliveryReq_ r => current_is V2G_POWER_DELIVERY_MSG ;;; handle_iso_power_delivery env r
  | ChargingStatusReq => current_is V2G_CHARGING_STATUS_MSG ;;; handle_iso_charging_status
  | MeteringReceiptReq => current_is V2G_METERING_RECEIPT_MSG ;;; handle_iso_metering_receipt
  | CertificateUpdateReq => current_is V2G_CERTIFICATE_UPDATE_MSG ;;; handle_iso_certificate_update
  | CertificateInstallationReq =>
      current_is V2G_CERTIFICATE_INSTALLATION_MSG ;;; handle_iso_certificate_installation env
  | CableCheckReq status =>
      current_is V2G_CABLE_CHECK_MSG ;;;
      let* first := last_is V2G_CHARGE_PARAMETER_DISCOVERY_MSG in
      v2g_when first (eemit publish_start_cable_check) ;;;
      handle_iso_cable_check status
  | PreChargeReq_ r =>
      current_is V2G_PRE_CHARGE_MSG ;;;
      let* first := last_is V2G_CABLE_CHECK_MSG in
      v2g_when first (eemit publish_start_pre_charge) ;;;
      handle_iso_pre_charge r
  | WeldingDetectionReq status =>
      current_is V2G_WELDING_DETECTION_MSG ;;; handle_iso_welding_detection status
  | SessionStopReq s => current_is V2G_SESSION_STOP_MSG ;;; handle_iso_session_stop s
  | no_request => eret (V2G_EVENT_IGNORE_MSG, mkResponse ResponseCode.OK no_response)
  end.

(** A request with the session id of its header.  The log message at the end
    reads the entry of the new state. *)
Definition iso_handle_request env (header_session_id : Z) (request : iso2_request) : handled :=
  set_ev (assign received_session_id header_session_id) ;;;
  let* r := iso_dispatch env request in
  let* c := get_ctx in
  let* _ := state_entry (iso_states (is_dc_charger c)) (state c) in
  match r.1 with
  | V2G_EVENT_IGNORE_MSG => eret tt
  | _ => set_ctx (fun c => assign last_v2g_msg (current_v2g_msg c) c)
  end ;;;
  eret r.
End Requests.
