(* ===== verification/DinServer.v ===== *)
(** * EvseV2G: the requests of DIN SPEC 70121

    [din_server.cpp]: the table of the states, the check of a response, and one
    definition per request.  Physical values of the two protocols differ in the
    name of the unit only, see [load_din_physical_value]. *)
From S2P Require Import Prelude Effects V2gTypes V2gContext IsoServer.
From stdpp Require Import base tactics list numbers strings.
From Stdlib Require Import QArith.
Open Scope Z_scope.
Open Scope everest_scope.
Import V2gMsgTypeId.

(** ** States *)

Module din_state_id.
Definition WAIT_FOR_SESSIONSETUP : Z := 0.
Definition WAIT_FOR_SERVICEDISCOVERY : Z := 1.
Definition WAIT_FOR_PAYMENTSERVICESELECTION : Z := 2.
Definition WAIT_FOR_AUTHORIZATION : Z := 3.
Definition WAIT_FOR_CHARGEPARAMETERDISCOVERY : Z := 4.
Definition WAIT_FOR_CABLECHECK : Z := 5.
Definition WAIT_FOR_PRECHARGE : Z := 6.
Definition WAIT_FOR_PRECHARGE_POWERDELIVERY : Z := 7.
Definition WAIT_FOR_CURRENTDEMAND : Z := 8.
Definition WAIT_FOR_CURRENTDEMAND_POWERDELIVERY : Z := 9.
Definition WAIT_FOR_WELDINGDETECTION_SESSIONSTOP : Z := 10.
Definition WAIT_FOR_SESSIONSTOP : Z := 11.
Definition WAIT_FOR_TERMINATED_SESSION : Z := 12.
End din_state_id.

Definition din_states : list Z := [
  allow [V2G_SESSION_SETUP_MSG];
  allow [V2G_SERVICE_DISCOVERY_MSG; V2G_SESSION_STOP_MSG];
  allow [V2G_PAYMENT_SERVICE_SELECTION_MSG; V2G_SESSION_STOP_MSG];
  allow [V2G_AUTHORIZATION_MSG; V2G_SESSION_STOP_MSG];
  allow [V2G_CHARGE_PARAMETER_DISCOVERY_MSG; V2G_SESSION_STOP_MSG];
  allow [V2G_CABLE_CHECK_MSG; V2G_SESSION_STOP_MSG];
  allow [V2G_PRE_CHARGE_MSG; V2G_SESSION_STOP_MSG];
  allow [V2G_POWER_DELIVERY_MSG; V2G_PRE_CHARGE_MSG; V2G_SESSION_STOP_MSG];
  allow [V2G_CURRENT_DEMAND_MSG];
  allow [V2G_CURRENT_DEMAND_MSG; V2G_POWER_DELIVERY_MSG];
  allow [V2G_WELDING_DETECTION_MSG; V2G_SESSION_STOP_MSG];
  allow [V2G_SESSION_STOP_MSG];
  0].

Definition din_validate_state (s : Z) (current_v2g_msg : V2gMsgTypeId.t) : V2g ResponseCode.t :=
  let* allowed_requests := state_entry din_states s in
  eret (if is_allowed allowed_requests current_v2g_msg then ResponseCode.OK
        else ResponseCode.FAILED_SequenceError).

Definition din_unknown_session (c : v2g_context) : bool :=
  negb (V2gMsgTypeId.eqb (current_v2g_msg c) V2G_SESSION_SETUP_MSG) &&
  negb (session_id (evse_v2g_data c) =? received_session_id (ev_v2g_data c)).

Definition din_validate_response_code (din_response_code : ResponseCode.t)
  : V2g (v2g_event * ResponseCode.t) :=
  let* c := get_ctx in
  if is_connection_terminated c then eret (V2G_EVENT_TERMINATE_CONNECTION, din_response_code)
  else
    let* response_code_tmp := din_validate_state (state c) (current_v2g_msg c) in
    let code := external_code c (din_unknown_session c) din_response_code response_code_tmp in
    eret (event_of_code c code, code).

(** ** Publishing requests *)

Definition publish_din_charge_parameter_discovery_req (r : ChargeParameterDiscoveryReq) : V2g unit :=
  eemit (publish_requested_energy_transfer_mode (RequestedEnergyTransferMode r)) ;;;
  let d := req_DC_EVChargeParameter r in
  v2g_when (DC_EVChargeParameter_isUsed r)
    (v2g_when (EVEnergyCapacity_isUsed d)
       (eemit (publish_dc_ev_energy_capacity (ph (EVEnergyCapacity d)))) ;;;
     v2g_when (EVEnergyRequest_isUsed d)
       (eemit (publish_dc_ev_energy_request (ph (EVEnergyRequest d)))) ;;;
     v2g_when (FullSOC_isUsed d) (eemit (publish_dc_full_soc (FullSOC d))) ;;;
     v2g_when (BulkSOC_isUsed d) (eemit (publish_dc_bulk_soc (BulkSOC d))) ;;;
     publish_dc_ev_maximum_limits_ (ph (dc_EVMaximumCurrentLimit d)) true
       (ph (dc_EVMaximumPowerLimit d)) (dc_EVMaximumPowerLimit_isUsed d)
       (ph (dc_EVMaximumVoltageLimit d)) true ;;;
     publish_DcEvStatus (dc_DC_EVStatus d)).

Definition publish_din_power_delivery_req (r : DinPowerDeliveryReq) : V2g unit :=
  v2g_when (din_DC_EVPowerDeliveryParameter_isUsed r)
    (eemit (publish_dc_charging_complete (din_pd_ChargingComplete r)) ;;;
     v2g_when (din_pd_BulkChargingComplete_isUsed r)
       (eemit (publish_dc_bulk_charging_complete (din_pd_BulkChargingComplete r))) ;;;
     publish_DcEvStatus (din_pd_DC_EVStatus r)).

(** [publish_din_precharge_req] and [publish_din_current_demand_req] are those
    of ISO 15118-2. *)
Definition publish_din_precharge_req (r : PreChargeReq) : V2g unit := publish_iso_pre_charge_req r.
Definition publish_din_current_demand_req (env : request_env) (r : CurrentDemandReq) : V2g unit :=
  publish_iso_current_demand_req env r.

(** ** Handling requests *)

Section Requests.
Implicit Types (c : v2g_context) (env : request_env).

Abbreviation handled := (V2g (v2g_event * response)).

Definition din_finish (code : ResponseCode.t) (next : Z) (body : response_body) : handled :=
  let* r := din_validate_response_code code in
  set_state next ;;;
  eret (r.1, mkResponse r.2 body).

(** The status of the EVSE: the delay keeps its 32 bits. *)
Definition din_evse_status c (status_code : EVSEStatusCode) : DC_EVSEStatus :=
  mkEvseStatus (evse_isolation_status (evse_v2g_data c))
    (evse_isolation_status_is_used (evse_v2g_data c)) (evse_notification (evse_v2g_data c))
    status_code (notification_max_delay (evse_v2g_data c)).

(** A value that is neither [Finished] nor [Ongoing] is sent as [Ongoing]. *)
Definition din_processing (p : EVSEProcessing) : EVSEProcessing :=
  if is_finished p then Finished else Ongoing.

(** Four results of [rand()], shifted; a new id only when there is none. *)
Definition din_session_id (old : Z) (r : Z * Z * Z * Z) : Z :=
  let '(a, b, c, d) := r in
  if old =? 0
  then Z.lor (Z.lor (Z.lor (u64 (Z.shiftl a 48)) (u64 (Z.shiftl b 32))) (u64 (Z.shiftl c 16))) (u64 d)
  else old.

Definition handle_din_session_setup env (EVCCID : bytes) : handled :=
  eemit (publish_evcc_id (format_evcc_id EVCCID)) ;;;
  let* c := get_ctx in
  set_evse (update session_id (fun id => din_session_id id (rand env))) ;;;
  din_finish ResponseCode.OK_NewSessionEstablished din_state_id.WAIT_FOR_SERVICEDISCOVERY
    (SessionSetupRes (evse_id (evse_v2g_data c))
       (used (date_time_now_is_used (evse_v2g_data c)) (time_now env))).

(** [array[0]] of the energy transfer modes; DIN has two of them. *)
Definition first_mode (s : ChargeService) : EnergyTransferMode :=
  default AC_single_phase_core (head (modes s)).
Definition din_mode (m : EnergyTransferMode) : bool :=
  match m with DC_core | DC_extended => true | _ => false end.

Definition handle_din_service_discovery : handled :=
  set_evse (update charge_service (fun s =>
    if din_mode (first_mode s) then s else update modes (fun l => DC_extended :: tail l) s)) ;;;
  let* c := get_ctx in
  let s := charge_service (evse_v2g_data c) in
  let service := mkService (ServiceID (cs_service s)) None EVCharging None (FreeService (cs_service s)) in
  din_finish ResponseCode.OK din_state_id.WAIT_FOR_PAYMENTSERVICESELECTION
    (ServiceDiscoveryRes [ExternalPayment] (mkChargeService service [first_mode s] 1) None).

Definition handle_din_service_payment_selection (r : PaymentServiceSelectionReq) : handled :=
  let* c := get_ctx in
  let code := if is_contract (SelectedPaymentOption r) then ResponseCode.FAILED_PaymentSelectionInvalid
              else ResponseCode.OK in
  let code := match SelectedServiceList r with
              | [s] => if sel_ServiceID s =? ServiceID (cs_service (charge_service (evse_v2g_data c)))
                       then code else ResponseCode.FAILED_ServiceSelectionInvalid
              | _ => ResponseCode.FAILED_ServiceSelectionInvalid
              end in
  din_finish code din_state_id.WAIT_FOR_AUTHORIZATION PaymentServiceSelectionRes.

Definition handle_din_contract_authentication : handled :=
  let* c := get_ctx in
  let processing := din_processing (evse_processing (evse_v2g_data c) PHASE_AUTH) in
  din_finish ResponseCode.OK
    (if is_finished processing then din_state_id.WAIT_FOR_CHARGEPARAMETERDISCOVERY
     else din_state_id.WAIT_FOR_AUTHORIZATION)
    (AuthorizationRes processing).

Definition SHRT_MAX : Z := 32767.

(** The schedule of the response: the maximum power, limited to 16 bits. *)
Definition din_schedule c : list SAScheduleTuple :=
  let d := evse_v2g_data c in
  let limit := ph (evse_maximum_power_limit d) in
  let pmax := if evse_maximum_power_limit_is_used d then
                if Qle_bool limit (inject_Z SHRT_MAX) then to_int16 limit else SHRT_MAX
              else SHRT_MAX in
  [mkTuple 1 [mkPMaxEntry (mkPhysical 0 unit_W pmax) 0 true
                (if is_no_pause (no_energy_pause d) then SA_SCHEDULE_DURATION else PAUSE_DURATION)]].

Definition din_parameter_body c (processing : EVSEProcessing) : response_body :=
  let d := evse_v2g_data c in
  let p := power_capabilities d in
  let s := din_evse_status c (get_emergency_status_code c PHASE_PARAMETER) in
  let s := if is_finished processing && negb (is_no_pause (no_energy_pause d))
           then mkEvseStatus (EVSEIsolationStatus s) (EVSEIsolationStatus_isUsed s) StopCharging
                  (st_EVSEStatusCode s) 0
           else s in
  ChargeParameterDiscoveryRes_ (mkChargeParameterRes processing (Some (din_schedule c)) None (Some s)
    (used (evse_current_regulation_tolerance_is_used d) (evse_current_regulation_tolerance d))
    (used (evse_energy_to_be_delivered_is_used d) (evse_energy_to_be_delivered d))
    [Some (max_current p); used (evse_maximum_power_limit_is_used d) (max_power p);
     Some (max_voltage p); Some (min_current p); Some (min_voltage p);
     Some (evse_peak_current_ripple d)]).

Definition handle_din_charge_parameter (r : ChargeParameterDiscoveryReq) : handled :=
  publish_din_charge_parameter_discovery_req r ;;;
  let* c := get_ctx in
  let d := evse_v2g_data c in
  let mode := RequestedEnergyTransferMode r in
  let code := if negb (din_mode mode) || negb (bool_decide (first_mode (charge_service d) = mode))
              then ResponseCode.FAILED_WrongEnergyTransferType else ResponseCode.OK in
  let code := if AC_EVChargeParameter_isUsed r then ResponseCode.FAILED_WrongChargeParameter else code in
  let processing := din_processing (evse_processing d PHASE_PARAMETER) in
  din_finish code
    (if is_finished processing then
       if ev_should_pause c then din_state_id.WAIT_FOR_SESSIONSTOP else din_state_id.WAIT_FOR_CABLECHECK
     else din_state_id.WAIT_FOR_CHARGEPARAMETERDISCOVERY)
    (din_parameter_body c processing).

Definition SASCHEDULETUPLEID : Z := 1.

(** The loop over the charging profile only logs. *)
Definition handle_din_power_delivery (r : DinPowerDeliveryReq) : handled :=
  publish_din_power_delivery_req r ;;;
  (if ReadyToChargeState r =? 0 then
     eemit publish_current_demand_finished ;;;
     eemit publish_dc_open_contactor ;;;
     set_session (assign is_charging false)
   else eemit publish_v2g_setup_finished) ;;;
  let* c := get_ctx in
  let status := din_evse_status c (get_emergency_status_code c PHASE_CHARGE) in
  let ready := ReadyToChargeState r =? 1 in
  let code := if din_ChargingProfile_isUsed r && negb (din_SAScheduleTupleID r =? SASCHEDULETUPLEID)
              then ResponseCode.FAILED_TariffSelectionInvalid else ResponseCode.OK in
  let code := if ready && negb (is_ready (st_EVSEStatusCode status))
              then ResponseCode.FAILED_PowerDeliveryNotApplied else code in
  let* v := din_validate_response_code code in
  let body := PowerDeliveryRes None (Some status) in
  let* c := get_ctx in
  if ready && negb (V2gMsgTypeId.eqb (last_v2g_msg c) V2G_CURRENT_DEMAND_MSG) then
    set_state din_state_id.WAIT_FOR_CURRENTDEMAND ;;;
    eret (v.1, mkResponse v.2 body)
  else
    set_state din_state_id.WAIT_FOR_WELDINGDETECTION_SESSIONSTOP ;;;
    if ready then eret (V2G_EVENT_SEND_AND_TERMINATE, mkResponse ResponseCode.FAILED body)
    else eret (v.1, mkResponse v.2 body).

Definition handle_din_cable_check (status : DC_EVStatus) : handled :=
  publish_DcEvStatus status ;;;
  let* c := get_ctx in
  let processing := din_processing (evse_processing (evse_v2g_data c) PHASE_ISOLATION) in
  let status_code :=
    if intl_emergency_shutdown c then EVSE_EmergencyShutdown
    else if is_finished processing then EVSE_Ready
    else evse_status_code (evse_v2g_data c) PHASE_ISOLATION in
  let s := din_evse_status c status_code in
  let isolated := match EVSEIsolationStatus s with Iso_Valid | Iso_Warning => true | _ => false end in
  din_finish ResponseCode.OK
    (if is_finished processing && EVSEIsolationStatus_isUsed s && isolated && is_ready status_code
     then din_state_id.WAIT_FOR_PRECHARGE else din_state_id.WAIT_FOR_CABLECHECK)
    (CableCheckRes s processing).

Definition handle_din_pre_charge (r : PreChargeReq) : handled :=
  publish_din_precharge_req r ;;;
  let* c := get_ctx in
  din_finish ResponseCode.OK din_state_id.WAIT_FOR_PRECHARGE_POWERDELIVERY
    (PreChargeRes (din_evse_status c (get_emergency_status_code c PHASE_PRECHARGE))
       (evse_present_voltage (evse_v2g_data c))).

Definition handle_din_current_demand env (r : CurrentDemandReq) : handled :=
  publish_din_current_demand_req env r ;;;
  let* c := get_ctx in
  let d := evse_v2g_data c in
  din_finish ResponseCode.OK din_state_id.WAIT_FOR_CURRENTDEMAND_POWERDELIVERY
    (CurrentDemandRes_ (mkCurrentDemandRes (din_evse_status c (get_emergency_status_code c PHASE_CHARGE))
       (evse_present_voltage d) (evse_present_current d)
       (evse_current_limit_achieved d) (evse_voltage_limit_achieved d) (evse_power_limit_achieved d)
       (used (evse_maximum_voltage_limit_is_used d) (evse_maximum_voltage_limit d))
       (used (evse_maximum_current_limit_is_used d) (evse_maximum_current_limit d))
       (used (evse_maximum_power_limit_is_used d) (evse_maximum_power_limit d))
       "" 0 None false false)).

Definition handle_din_welding_detection (status : DC_EVStatus) : handled :=
  publish_DcEvStatus status ;;;
  let* c := get_ctx in
  din_finish ResponseCode.OK din_state_id.WAIT_FOR_WELDINGDETECTION_SESSIONSTOP
    (WeldingDetectionRes (din_evse_status c (get_emergency_status_code c PHASE_WELDING))
       (evse_present_voltage (evse_v2g_data c))).

Definition handle_din_session_stop : handled :=
  let* v := din_validate_response_code ResponseCode.OK in
  emodify (assign dlink_action MQTT_DLINK_ACTION_TERMINATE) ;;;
  set_state din_state_id.WAIT_FOR_TERMINATED_SESSION ;;;
  eret (V2G_EVENT_SEND_AND_TERMINATE, mkResponse v.2 SessionStopRes).

(** ** The dispatcher *)

Definition din_dispatch env (request : din_request) : handled :=
  match request with
  | DinCurrentDemandReq r =>
      let* started := last_is V2G_POWER_DELIVERY_MSG in
      v2g_when started (eemit publish_current_demand_started ;;; set_session (assign is_charging true)) ;;;
      current_is V2G_CURRENT_DEMAND_MSG ;;;
      handle_din_current_demand env r
  | DinSessionSetupReq id => current_is V2G_SESSION_SETUP_MSG ;;; handle_din_session_setup env id
  | DinServiceDiscoveryReq => current_is V2G_SERVICE_DISCOVERY_MSG ;;; handle_din_service_discovery
  | DinServicePaymentSelectionReq r =>
      current_is V2G_PAYMENT_SERVICE_SELECTION_MSG ;;; handle_din_service_payment_selection r
  | DinContractAuthenticationReq =>
      current_is V2G_AUTHORIZATION_MSG ;;;
      let* again := last_is V2G_AUTHORIZATION_MSG in
      v2g_when (negb again) (eemit publish_require_auth_eim) ;;;
      handle_din_contract_authentication
  | DinChargeParameterDiscoveryReq r =>
      current_is V2G_CHARGE_PARAMETER_DISCOVERY_MSG ;;; handle_din_charge_parameter r
  | DinCableCheckReq status =>
      current_is V2G_CABLE_CHECK_MSG ;;;
      let* first := last_is V2G_CHARGE_PARAMETER_DISCOVERY_MSG in
      v2g_when first (eemit publish_start_cable_check) ;;;
      handle_din_cable_check status
  | DinPreChargeReq r =>
      current_is V2G_PRE_CHARGE_MSG ;;;
      let* first := last_is V2G_CABLE_CHECK_MSG in
      v2g_when first (eemit publish_start_pre_charge) ;;;
      handle_din_pre_charge r
  | DinPowerDeliveryReq_ r => current_is V2G_POWER_DELIVERY_MSG ;;; handle_din_power_delivery r
  | DinWeldingDetectionReq status =>
      current_is V2G_WELDING_DETECTION_MSG ;;; handle_din_welding_detection status
  | DinSessionStopReq => current_is V2G_SESSION_STOP_MSG ;;; handle_din_session_stop
  | din_not_supported =>
      current_is V2G_UNKNOWN_MSG ;;; eret (V2G_EVENT_IGNORE_MSG, mkResponse ResponseCode.OK no_response)
  | din_no_request => eret (V2G_EVENT_IGNORE_MSG, mkResponse ResponseCode.OK no_response)
  end.

Definition din_handle_request env (header_session_id : Z) (request : din_request) : handled :=
  set_ev (assign received_session_id header_session_id) ;;;
  let* r := din_dispatch env request in
  match r.1 with
  | V2G_EVENT_IGNORE_MSG => eret r
  | _ =>
      let* c := get_ctx in
      let* _ := state_entry din_states (state c) in
      set_ctx (fun c => assign last_v2g_msg (current_v2g_msg c) c) ;;;
      eret r
  end.
End Requests.
