(* ===== verification/V2gServer.v ===== *)
(** * EvseV2G: connections

    [v2g_server.cpp] and the ends of a connection in [connection.cpp] and
    [tls_connection.cpp]: the transport header, the choice of the protocol, the
    loop over the requests and the teardown.  Sockets and the EXI coding are not
    modelled: what arrives is a list of [received] frames, and whether a
    response could be encoded and written is part of the frame it answers. *)
From S2P Require Import Prelude Effects V2gTypes V2gContext IsoServer DinServer.
From stdpp Require Import base tactics list numbers strings.
From Stdlib Require Import QArith.
Open Scope Z_scope.
Open Scope everest_scope.
Import V2gMsgTypeId.

(** ** The transport header *)

Definition UINT32_MAX : Z := 4294967295.

(** [read_header] is the result of reading the header, [payload_len] what
    [V2GTP_ReadHeader] finds in it, and [read_payload] the result of reading so
    many bytes behind the header.  0 is success, 1 a closed connection; and the
    number of bytes that are read behind the header, if it comes to that. *)
Definition v2g_incoming_v2gtp (read_header : Z) (payload_len : option Z) (read_payload : Z -> Z)
  : Z * option Z :=
  if read_header <? 0 then (-1, None)
  else if read_header =? 0 then (1, None)
  else if negb (read_header =? V2GTP_HEADER_LENGTH) then (-1, None)
  else
    match payload_len with
    | None => (-1, None)
    | Some len =>
        if UINT32_MAX - V2GTP_HEADER_LENGTH <=? len then (-1, None)
        else if DEFAULT_BUFFER_SIZE <? u32 (len + V2GTP_HEADER_LENGTH) then (-1, None)
        else
          let rv := read_payload len in
          if rv <? 0 then (-1, Some len)
          else if negb (rv =? len) then (-1, Some len)
          else (0, Some len)
    end.

(** ** The choice of the protocol *)

Definition DIN_70121_MSG_DEF : string := "urn:din:70121:2012:MsgDef".
Definition DIN_70121_MAJOR : Z := 2.
Definition DIN_70121_MINOR : Z := 0.
Definition ISO_15118_2013_MSG_DEF : string := "urn:iso:15118:2:2013:MsgDef".
Definition ISO_15118_2013_MAJOR : Z := 2.
Definition ISO_15118_2013_MINOR : Z := 0.

Record AppProtocol := mkAppProtocol {
  ProtocolNamespace : string;
  VersionNumberMajor : Z;
  VersionNumberMinor : Z;
  SchemaID : Z;
  Priority : Z
}.

(** What the loop over the offered protocols has chosen so far: the lowest
    priority, and the protocol with its schema and whether its minor version
    deviates. *)
Record choice := mkChoice {
  ev_app_priority : Z;
  chosen : option (v2g_protocol * Z * bool)
}.

Definition supports (c : v2g_context) (p : AppProtocol) : option (v2g_protocol * bool) :=
  if supported_din c && String.eqb (ProtocolNamespace p) DIN_70121_MSG_DEF &&
     (VersionNumberMajor p =? DIN_70121_MAJOR)
  then Some (V2G_PROTO_DIN70121, negb (VersionNumberMinor p =? DIN_70121_MINOR))
  else if supported_iso c && String.eqb (ProtocolNamespace p) ISO_15118_2013_MSG_DEF &&
          (VersionNumberMajor p =? ISO_15118_2013_MAJOR)
  then Some (V2G_PROTO_ISO15118_2013, negb (VersionNumberMinor p =? ISO_15118_2013_MINOR))
  else None.

Definition consider (c : v2g_context) (s : choice) (p : AppProtocol) : choice :=
  match supports c p with
  | Some (proto, deviates) =>
      if Priority p <=? ev_app_priority s
      then mkChoice (Priority p) (Some (proto, SchemaID p, deviates)) else s
  | None => s
  end.

Definition choose_protocol (c : v2g_context) (l : list AppProtocol) : choice :=
  fold_left (consider c) l (mkChoice 20 None).

Definition protocol_name (s : choice) : string :=
  match chosen s with
  | Some (V2G_PROTO_DIN70121, _, _) => "DIN70121"
  | Some (V2G_PROTO_ISO15118_2013, _, _) => "ISO15118-2-2013"
  | Some _ => ""
  | None => "None"
  end.

(** The answer to the choice. *)
Definition handshake_answer (s : choice) : handshake_response :=
  match chosen s with
  | Some (_, schema, false) => mkHandshake OK_SuccessfulNegotiation (Some schema)
  | Some (_, schema, true) => mkHandshake OK_SuccessfulNegotiationWithMinorDeviation (Some schema)
  | None => mkHandshake Failed_NoNegotiation None
  end.

Definition v2g_handle_apphandshake (offered : option (list AppProtocol))
    (encoded : bool) : V2g (v2g_event * handshake_response) :=
  current_is V2G_SUPPORTED_APP_PROTOCOL_MSG ;;;
  match offered with
  | None => eret (V2G_EVENT_TERMINATE_CONNECTION, mkHandshake Failed_NoNegotiation None)
  | Some l =>
      let* c := get_ctx in
      let s := choose_protocol c l in
      match chosen s with
      | Some (p, _, _) => set_ctx (assign selected_protocol p)
      | None => eret tt
      end ;;;
      v2g_when (debugMode c)
        (eemit (publish_ev_app_protocol (map (fun p => (ProtocolNamespace p, VersionNumberMajor p,
                  VersionNumberMinor p, SchemaID p, Priority p)) l)) ;;;
         eemit (publish_v2g_messages V2G_SUPPORTED_APP_PROTOCOL_MSG true) ;;;
         eemit (publish_selected_protocol (protocol_name s))) ;;;
      let event := match chosen s with Some _ => V2G_EVENT_NO_EVENT | None => V2G_EVENT_SEND_AND_TERMINATE end in
      let answer := handshake_answer s in
      let* c := get_ctx in
      if is_connection_terminated c then eret (V2G_EVENT_TERMINATE_CONNECTION, answer)
      else
        let aborted := intl_emergency_shutdown c || stop_hlc c in
        let answer := if aborted then mkHandshake Failed_NoNegotiation (schema_id answer) else answer in
        let event := if aborted && terminate_connection_on_failed_response c
                     then V2G_EVENT_SEND_AND_TERMINATE else event in
        eret (if encoded then event else V2G_EVENT_SEND_AND_TERMINATE, answer)
  end.

(** ** Requests *)

Inductive frame :=
| read_failed (rv : Z)                        (** 1: closed or timed out, else an error *)
| undecodable
| handshake (l : list AppProtocol)
| iso_request (env : request_env) (header_session_id : Z) (r : iso2_request)
| din_request_ (env : request_env) (header_session_id : Z) (r : din_request).

(** A frame, with the commands that ran since the last one, and whether its
    response can be encoded and written. *)
Record received := mkReceived {
  commands_before : list v2g_command;
  incoming : frame;
  encoded : bool;
  written : bool
}.

Section Connections.
Context {L : V2gLib}.

(** Sending the response of a request, unless it could not be encoded: [rv] of
    the loop.  A message that is already coded ([raw]) is sent as it is. *)
Definition send_ (x : received) (raw encoded_ok : bool) (r : response) : V2g Z :=
  let* c := get_ctx in
  v2g_when (debugMode c) (eemit (publish_v2g_messages (current_v2g_msg c) false)) ;;;
  if negb (encoded_ok && written x) then eret (-1)
  else
    eemit (match raw, body r with
           | true, CertificateInstallationExi data => send_exi data
           | _, _ => send_response (session_id (evse_v2g_data c)) r
           end) ;;;
    eret 0.

(** One request of the agreed protocol. *)
Definition handle_frame (protocol : v2g_protocol) (f : frame) : V2g (v2g_event * response) :=
  let ignored := (V2G_EVENT_IGNORE_MSG, mkResponse ResponseCode.OK no_response) in
  match protocol, f with
  | V2G_PROTO_ISO15118_2013, iso_request env id r => iso_handle_request env id r
  | (V2G_PROTO_DIN70121 | V2G_PROTO_ISO15118_2010), din_request_ env id r => din_handle_request env id r
  | _, _ => eret ignored
  end.

(** The body of the loop: whether it goes on, and [rv]. *)
Definition loop_round (protocol : v2g_protocol) (x : received) : V2g (bool * Z) :=
  efor (commands_before x) command ;;;
  match incoming x with
  | read_failed rv => eret (false, if rv =? 1 then 1 else -1)
  | f =>
      let* h := handle_frame protocol f in
      let* c := get_ctx in
      v2g_when (debugMode c) (eemit (publish_v2g_messages (current_v2g_msg c) true)) ;;;
      match h.1 with
      | V2G_EVENT_SEND_AND_TERMINATE =>
          let* rv := send_ x false (encoded x) h.2 in eret (false, rv)
      | V2G_EVENT_NO_EVENT =>
          let* rv := send_ x false (encoded x) h.2 in eret (rv =? 0, rv)
      | V2G_EVENT_SEND_RECV_EXI_MSG => let* rv := send_ x true true h.2 in eret (rv =? 0, rv)
      | V2G_EVENT_IGNORE_MSG => eret (true, 0)
      | V2G_EVENT_TERMINATE_CONNECTION => eret (false, 0)
      end
  end.

(** The loop; the connection is closed after the last frame. *)
Fixpoint request_loop (protocol : v2g_protocol) (l : list received) : V2g Z :=
  match l with
  | [] => eret 1
  | x :: l' =>
      let* r := loop_round protocol x in
      if r.1 then request_loop protocol l' else eret r.2
  end.

(** The handshake: [rv] of an error, or nothing. *)
Definition handshake_phase (x : received) : V2g (option Z) :=
  efor (commands_before x) command ;;;
  match incoming x with
  | read_failed rv => eret (Some rv)
  | f =>
      let* c := get_ctx in
      if is_connection_terminated c then eret (Some (-1))
      else
        let* h := v2g_handle_apphandshake (match f with handshake l => Some l | _ => None end) (encoded x) in
        match h.1 with
        | V2G_EVENT_SEND_AND_TERMINATE | V2G_EVENT_NO_EVENT =>
            let* c := get_ctx in
            v2g_when (debugMode c) (eemit (publish_v2g_messages (current_v2g_msg c) false)) ;;;
            if negb (written x) then eret (Some (-1))
            else
              eemit (send_handshake h.2) ;;;
              eret (match h.1 with V2G_EVENT_SEND_AND_TERMINATE => Some (-1) | _ => None end)
        | _ => eret (Some (-1))
        end
  end.

Definition v2g_handle_connection (l : list received) : V2g Z :=
  set_ctx (v2g_ctx_init_charging_state false) ;;;
  let* rv :=
    match l with
    | [] => eret 1
    | x :: l' =>
        let* failed := handshake_phase x in
        match failed with
        | Some rv => eret rv
        | None =>
            let* c := get_ctx in
            match selected_protocol c with
            | V2G_PROTO_DIN70121 | V2G_PROTO_ISO15118_2010 | V2G_PROTO_ISO15118_2013 =>
                request_loop (selected_protocol c) l'
            | _ => eret 0
            end
        end
    end in
  set_ctx (v2g_ctx_init_charging_state true) ;;;
  eret (if rv =? 0 then 0 else -1).

(** ** The end of a connection *)

Definition connection_teardown : V2g unit :=
  let* conn := eget in
  let c := ctx conn in
  v2g_when (is_charging (session c))
    (eemit publish_current_demand_finished ;;;
     if is_dc_charger c then eemit publish_dc_open_contactor else eemit publish_ac_open_contactor) ;;;
  set_ctx (v2g_ctx_init_charging_session true) ;;;
  match dlink_action conn with
  | MQTT_DLINK_ACTION_ERROR => eret tt
  | MQTT_DLINK_ACTION_TERMINATE => eemit publish_dlink_terminate
  | MQTT_DLINK_ACTION_PAUSE => eemit publish_dlink_pause
  end.

(** A plain connection, and a TLS connection that was accepted. *)
Definition connection_handle_tcp (l : list received) : V2g unit :=
  set_evse (remove_service_from_service_list_if_exists V2G_SERVICE_ID_CERTIFICATE) ;;;
  let* c := get_ctx in
  if state c =? 0 then
    let* _ := v2g_handle_connection l in
    connection_teardown
  else eret tt.

Definition process_connection_thread (l : list received) : V2g unit :=
  let* c := get_ctx in
  (if state c =? 0 then let* _ := v2g_handle_connection l in eret tt else eret tt) ;;;
  connection_teardown.
End Connections.
