(* ===== verification/V2gProofs.v ===== *)
(** * EvseV2G: the protocols as automata

    Which responses may follow each other: the automata [iso_step] and
    [din_step], and that a request that is accepted is a step of them, when a
    failed response ends the connection. *)
From S2P Require Import Prelude Effects V2gTypes V2gContext IsoServer DinServer V2gServer.
From stdpp Require Import base tactics list numbers strings sets.
From Stdlib Require Import QArith Lia.
Open Scope Z_scope.
Open Scope everest_scope.
Import V2gMsgTypeId.

(** ** What a request sees and leaves *)

(** The part of the context the order of messages depends on. *)
Record view := mkView {
  v_state : Z;
  v_current : V2gMsgTypeId.t;
  v_terminate : bool;
  v_dc : bool;
  v_pause : NoEnergyPauseStatus;
  v_isolation : EVSEProcessing;
  v_lost : bool
}.
Definition view_of (c : v2g_context) : view :=
  mkView (state c) (current_v2g_msg c) (terminate_connection_on_failed_response c) (is_dc_charger c)
    (no_energy_pause (evse_v2g_data c)) (evse_processing (evse_v2g_data c) PHASE_ISOLATION)
    (is_connection_terminated c).

(** Nothing is sent to the car. *)
Definition no_send (o : v2g_output) : bool :=
  match o with send_handshake _ | send_response _ _ | send_exi _ => false | _ => true end.

(** From a context with the view [v], [m] sends nothing, and if it returns, its
    result and the view it leaves satisfy [P]. *)
Definition reach {A} (P : A -> view -> Prop) (v : view) (m : V2g A) : Prop :=
  forall s, view_of (ctx s) = v ->
    match m s with
    | (Ok a, s', o) => Forall (fun x => no_send x = true) o /\ P a (view_of (ctx s'))
    | (Err _, _, o) => Forall (fun x => no_send x = true) o
    end.

(** [m] leaves the view. *)
Definition quiet {A} (m : V2g A) : Prop := forall v, reach (fun _ v' => v' = v) v m.

Lemma reach_ret {A} (P : A -> view -> Prop) v a : P a v -> reach P v (eret a).
Proof. intros H s <-. by split. Qed.

Lemma reach_throw {A} (P : A -> view -> Prop) v e : reach P v (ethrow e).
Proof. intros s <-. apply Forall_nil_2. Qed.

Lemma reach_bind {A B} (Q : A -> view -> Prop) (P : B -> view -> Prop) v m (k : A -> V2g B) :
  reach Q v m -> (forall a v', Q a v' -> reach P v' (k a)) -> reach P v (ebind m k).
Proof.
  intros Hm Hk s Hs. specialize (Hm s Hs). unfold ebind.
  destruct (m s) as [[[a|e] s'] o]; [|done]. destruct Hm as [Ho Ha].
  specialize (Hk a _ Ha s' eq_refl). destruct (k a s') as [[[b|e] s''] o'].
  - destruct Hk. split; [by apply Forall_app_2|done].
  - by apply Forall_app_2.
Qed.

Lemma reach_after {A B} (P : B -> view -> Prop) v (m : V2g A) (k : A -> V2g B) :
  quiet m -> (forall a, reach P v (k a)) -> reach P v (ebind m k).
Proof. intros Hm Hk. eapply reach_bind; [apply Hm|]. by intros a v' ->. Qed.

Lemma reach_ctx {A} (P : A -> view -> Prop) v (k : v2g_context -> V2g A) :
  (forall c, view_of c = v -> reach P v (k c)) -> reach P v (ebind get_ctx k).
Proof.
  intros Hk s Hs. specialize (Hk (ctx s) Hs s Hs). unfold get_ctx, ebind, eget, eret.
  cbn. by destruct (k (ctx s) s) as [[[b|e] s''] o'].
Qed.

Lemma reach_conn {A} (P : A -> view -> Prop) v (k : v2g_connection -> V2g A) :
  (forall c, view_of (ctx c) = v -> reach P v (k c)) -> reach P v (ebind eget k).
Proof.
  intros Hk s Hs. specialize (Hk s Hs s Hs). unfold ebind, eget. cbn.
  by destruct (k s s) as [[[b|e] s''] o'].
Qed.

Lemma reach_mono {A} (P Q : A -> view -> Prop) v (m : V2g A) :
  reach P v m -> (forall a v', P a v' -> Q a v') -> reach Q v m.
Proof.
  intros Hm H s Hs. specialize (Hm s Hs). destruct (m s) as [[[a|e] s'] o]; [|done].
  destruct Hm. split; [done|by apply H].
Qed.

(** ** Quiet actions *)

Lemma view_quiet_ret {A} (a : A) : quiet (eret a).
Proof. intros v. by apply reach_ret. Qed.
Lemma quiet_throw {A} e : quiet (ethrow e : V2g A).
Proof. intros v. apply reach_throw. Qed.
Lemma view_quiet_bind {A B} (m : V2g A) (k : A -> V2g B) :
  quiet m -> (forall a, quiet (k a)) -> quiet (ebind m k).
Proof. intros Hm Hk v. apply reach_after; [done|]. intros a. apply Hk. Qed.
Lemma quiet_get_ctx : quiet get_ctx.
Proof. intros v s <-. by split. Qed.
Lemma quiet_eget : quiet eget.
Proof. intros v s <-. by split. Qed.
Lemma view_quiet_emit o : no_send o = true -> quiet (eemit o).
Proof. intros H v s <-. split; [by apply Forall_singleton|done]. Qed.
Lemma quiet_modify f : (forall s, view_of (ctx (f s)) = view_of (ctx s)) -> quiet (emodify f).
Proof. intros H v s <-. split; [apply Forall_nil_2|apply H]. Qed.
Lemma quiet_set_ctx f : (forall c, view_of (f c) = view_of c) -> quiet (set_ctx f).
Proof. intros H. apply quiet_modify. intros s. apply H. Qed.
Lemma quiet_set_session f : quiet (set_session f).
Proof. by apply quiet_set_ctx. Qed.
Lemma quiet_set_ev f : quiet (set_ev f).
Proof. by apply quiet_set_ctx. Qed.
Lemma quiet_set_evse f :
  (forall d, no_energy_pause (f d) = no_energy_pause d /\
             evse_processing (f d) PHASE_ISOLATION = evse_processing d PHASE_ISOLATION) ->
  quiet (set_evse f).
Proof. intros H. apply quiet_set_ctx. intros c. unfold view_of. cbn. by rewrite !(proj1 (H _)), !(proj2 (H _)). Qed.
Lemma quiet_if {A} (b : bool) (m m' : V2g A) : quiet m -> quiet m' -> quiet (if b then m else m').
Proof. by destruct b. Qed.
Lemma view_quiet_when b m : quiet m -> quiet (v2g_when b m).
Proof. intros H. apply quiet_if; [done|apply view_quiet_ret]. Qed.
Lemma quiet_for {A} (l : list A) (f : A -> V2g unit) : (forall x, quiet (f x)) -> quiet (efor l f).
Proof.
  intros H. induction l as [|x l IH]; cbn [efor]; [apply view_quiet_ret|].
  apply view_quiet_bind; [apply H|]. by intros _.
Qed.

Create HintDb v2g_quiet.
#[export] Hint Resolve view_quiet_ret quiet_throw quiet_get_ctx quiet_eget quiet_set_session quiet_set_ev
  : v2g_quiet.
#[export] Hint Extern 1 (quiet (ebind _ _)) => apply view_quiet_bind; [|intros ?] : v2g_quiet.
#[export] Hint Extern 1 (quiet (eemit _)) => apply view_quiet_emit; reflexivity : v2g_quiet.
#[export] Hint Extern 1 (quiet (set_evse _)) => apply quiet_set_evse; intros ?; split; reflexivity : v2g_quiet.
#[export] Hint Extern 1 (quiet (v2g_when _ _)) => apply view_quiet_when : v2g_quiet.
#[export] Hint Extern 1 (quiet (if _ then _ else _)) => apply quiet_if : v2g_quiet.
#[export] Hint Extern 2 (quiet (match ?x with _ => _ end)) => destruct x : v2g_quiet.
#[export] Hint Extern 2 (quiet (set_ctx _)) => apply quiet_set_ctx; intros ?; reflexivity : v2g_quiet.
#[export] Hint Extern 2 (quiet (emodify _)) => apply quiet_modify; intros ?; reflexivity : v2g_quiet.

Ltac solve_quiet := repeat (intros; auto 40 with v2g_quiet).

Lemma quiet_DcEvStatus s : quiet (publish_DcEvStatus s).
Proof. unfold publish_DcEvStatus. solve_quiet. Qed.
Lemma quiet_note_limit proj `{!Update proj} q b : quiet (note_limit proj q b).
Proof. unfold note_limit. solve_quiet. Qed.
#[export] Hint Resolve quiet_DcEvStatus quiet_note_limit : v2g_quiet.

Lemma quiet_maximum_limits a b c d e f : quiet (publish_dc_ev_maximum_limits_ a b c d e f).
Proof. unfold publish_dc_ev_maximum_limits_. solve_quiet. Qed.
Lemma quiet_target a b : quiet (publish_dc_ev_target_voltage_current_ a b).
Proof. unfold publish_dc_ev_target_voltage_current_. solve_quiet. Qed.
Lemma quiet_remaining t a b c d : quiet (publish_dc_ev_remaining_time_ t a b c d).
Proof. unfold publish_dc_ev_remaining_time_. solve_quiet. Qed.
#[export] Hint Resolve quiet_maximum_limits quiet_target quiet_remaining : v2g_quiet.

(** ** The automaton of ISO 15118-2 *)

Definition ev_may_start (p : NoEnergyPauseStatus) : bool :=
  match p with AfterCableCheckPreCharge | BeforeCableCheck => false | _ => true end.

Definition power_states (dc : bool) : list Z := if dc then [9; 10] else [7; 9].

(** A response that is not a failure, sent in the first state, and the state it
    leads to.  [dc0] and [pause] are those of the EVSE when the request arrives,
    [dc] when it is answered. *)
Inductive iso_step (dc0 : bool) (pause : NoEnergyPauseStatus) (dc : bool)
  : Z -> response_body -> Z -> Prop :=
| step_session_setup id t : iso_step dc0 pause dc 0 (SessionSetupRes id t) 1
| step_service_discovery o c l : iso_step dc0 pause dc 1 (ServiceDiscoveryRes o c l) 2
| step_service_detail id l : iso_step dc0 pause dc 2 (ServiceDetailRes id l) 2
| step_payment_selection s' : s' ∈ [3; 5] -> iso_step dc0 pause dc 2 PaymentServiceSelectionRes s'
| step_payment_details s c t : s ∈ [3; 4] -> iso_step dc0 pause dc s (PaymentDetailsRes c t) 5
| step_authorization s p :
    s ∈ (if dc then [3; 5] else [5]) -> iso_step dc0 pause dc s (AuthorizationRes p) (if is_finished p then 6 else 5)
| step_parameter r s' : s' ∈ [6; 7] -> iso_step dc0 pause dc 6 (ChargeParameterDiscoveryRes_ r) s'
| step_parameter_pause r :
    pause = BeforeCableCheck -> iso_step dc0 pause dc 6 (ChargeParameterDiscoveryRes_ r) 9
| step_cable_check st p :
    dc = true -> iso_step dc0 pause dc 7 (CableCheckRes st p) (if is_finished p then 8 else 7)
| step_pre_charge s st u : dc = true -> s ∈ [8; 9] -> iso_step dc0 pause dc s (PreChargeRes st u) 9
| step_power_start s a d :
    s ∈ power_states dc -> (dc0 = true -> ev_may_start pause = true) ->
    iso_step dc0 pause dc s (PowerDeliveryRes a d) (if dc then 11 else 8)
| step_power_stop s a d :
    s ∈ power_states dc -> iso_step dc0 pause dc s (PowerDeliveryRes a d) (if dc then 13 else 11)
| step_renegotiate s a d :
    s ∈ power_states dc -> iso_step dc0 pause dc s (PowerDeliveryRes a d) 6
| step_current_demand s r s' :
    dc = true -> s ∈ [10; 11] -> s' ∈ [10; 12] -> iso_step dc0 pause dc s (CurrentDemandRes_ r) s'
| step_charging_status s r s' :
    dc = false -> s ∈ [8; 9] -> s' ∈ [9; 10] -> iso_step dc0 pause dc s (ChargingStatusRes_ r) s'
| step_metering_receipt a :
    iso_step dc0 pause dc (if dc then 12 else 10) (MeteringReceiptRes a) (if dc then 10 else 9)
| step_welding_detection st u : dc = true -> iso_step dc0 pause dc 13 (WeldingDetectionRes st u) 13
| step_certificate_installation : iso_step dc0 pause dc 3 CertificateInstallationRes 4
| step_certificate_answer s d : iso_step dc0 pause dc s (CertificateInstallationExi d) 4
| step_certificate_update s : iso_step dc0 pause dc s CertificateUpdateRes s.

(** The commands that run while a request waits leave the kind of charger and
    the pause alone. *)
Definition stable (k : v2g_command) : bool :=
  match k with
  | update_energy_transfer_modes _ _ | no_energy_pause_charging _ => false
  | _ => true
  end.
Definition wakeup_commands (ws : list wakeup) : list v2g_command := concat (map wake_commands ws).
Definition stable_env (env : request_env) : Prop :=
  Forall (fun k => stable k = true) (wakeup_commands (wakeups env)).
(** Nor is it reported that the cable was checked successfully. *)
Definition unproven (k : v2g_command) : bool :=
  match k with cable_check_finished true => false | _ => true end.
(** Nor that the link to the car is lost. *)
Definition linking (k : v2g_command) : bool :=
  match k with dlink_ready false => false | _ => true end.
(** Neither becomes the case by itself, nor by these commands. *)
Definition still (v v' : view) : Prop :=
  (v_isolation v' = Finished -> v_isolation v = Finished) /\ (v_lost v' = true -> v_lost v = true).
Definition no_news (l : list v2g_command) (v v' : view) : Prop :=
  (Forall (fun k => unproven k = true) l -> v_isolation v' = Finished -> v_isolation v = Finished) /\
  (Forall (fun k => linking k = true) l -> v_lost v' = true -> v_lost v = true).
Definition same_config (v v' : view) : Prop := v_dc v' = v_dc v /\ v_pause v' = v_pause v.

(** The states in which a table allows a message. *)
Definition allowing (states : list Z) (m : V2gMsgTypeId.t) : list Z :=
  filter (fun s => match states !! Z.to_nat s with Some a => is_allowed a m | None => false end = true)
    (seqZ 0 15).

(** What the answer of a request comes to, with the states in which the session may
    be stopped. *)
Definition answered (step : bool -> NoEnergyPauseStatus -> bool -> Z -> response_body -> Z -> Prop)
    (table : bool -> list Z) (env : request_env) (v : view) (x : v2g_event * response) (v' : view) : Prop :=
  v_terminate v' = v_terminate v /\
  (stable_env env -> same_config v v') /\
  no_news (wakeup_commands (wakeups env)) v v' /\
  (forall st, body x.2 = CableCheckRes st Finished -> v_isolation v = Finished) /\
  match x.1 with
  | V2G_EVENT_NO_EVENT =>
      v_terminate v = true ->
      ResponseCode.failed (code x.2) = false /\
      step (v_dc v) (v_pause v) (v_dc v') (v_state v) (body x.2) (v_state v')
  | V2G_EVENT_SEND_AND_TERMINATE => 
      ResponseCode.failed (code x.2) = true \/
      body x.2 = SessionStopRes /\
      (v_lost v = true \/ v_state v ∈ allowing (table (v_dc v)) V2G_SESSION_STOP_MSG)
  | V2G_EVENT_SEND_RECV_EXI_MSG =>
      step (v_dc v) (v_pause v) (v_dc v') (v_state v) (body x.2) (v_state v') /\
      exists d, body x.2 = CertificateInstallationExi d
  | V2G_EVENT_IGNORE_MSG => v_state v' = v_state v
  | V2G_EVENT_TERMINATE_CONNECTION => True
  end.

(** ** The check of a response *)

Lemma allowing_spec states s a m :
  (length states <= 15)%nat -> 0 <= s -> states !! Z.to_nat s = Some a -> is_allowed a m = true ->
  s ∈ allowing states m.
Proof.
  intros Hl Hs Ha Hm. apply list_elem_of_filter. rewrite Ha. split; [done|].
  apply elem_of_seqZ. apply lookup_lt_Some in Ha. lia.
Qed.

(** What the check of a code returns. *)
Definition validated (states : list Z) (v : view) (code : ResponseCode.t) (r : v2g_event * ResponseCode.t)
  : Prop :=
  match r.1 with
  | V2G_EVENT_NO_EVENT =>
      (v_terminate v = true -> ResponseCode.failed r.2 = false) /\
      (ResponseCode.failed r.2 = false ->
       ResponseCode.failed code = false /\ v_state v ∈ allowing states (v_current v))
  | V2G_EVENT_SEND_AND_TERMINATE => ResponseCode.failed r.2 = true
  | V2G_EVENT_TERMINATE_CONNECTION => v_lost v = true
  | _ => False
  end.

Lemma external_code_ok c unknown code sequence :
  ResponseCode.failed (external_code c unknown code sequence) = false ->
  ResponseCode.failed code = false /\ ResponseCode.failed sequence = false.
Proof.
  unfold external_code. destruct unknown; [done|].
  destruct (ResponseCode.failed sequence) eqn:Hs; [by rewrite Hs|].
  destruct (stop_hlc c || intl_emergency_shutdown c); [done|]. auto.
Qed.

Lemma reach_entry states v s :
  (length states <= 15)%nat ->
  reach (fun a v' => v' = v /\ 0 <= s /\ states !! Z.to_nat s = Some a) v (state_entry states s).
Proof.
  intros Hl. unfold state_entry. destruct (s <? 0) eqn:Hs; [apply reach_throw|].
  destruct (states !! Z.to_nat s) eqn:Ha; [|apply reach_throw].
  apply reach_ret. split; [done|]. split; [lia|done].
Qed.

(** Both protocols check a code in this way. *)
Lemma reach_check states (unknown : v2g_context -> bool) code v (c : v2g_context) :
  (length states <= 15)%nat -> view_of c = v ->
  reach (fun r v' => v' = v /\ validated states v code r) v
    (let* tmp := (let* a := state_entry states (state c) in
                  eret (if is_allowed a (current_v2g_msg c) then ResponseCode.OK
                        else ResponseCode.FAILED_SequenceError)) in
     let code := external_code c (unknown c) code tmp in
     eret (event_of_code c code, code)).
Proof.
  intros Hl <-. eapply (reach_bind (fun tmp v' => v' = view_of c /\
    (ResponseCode.failed tmp = false -> state c ∈ allowing states (current_v2g_msg c)))).
  { eapply reach_bind; [by apply reach_entry|]. intros a v' (-> & Hs & Ha). apply reach_ret.
    split; [done|]. destruct (is_allowed a _) eqn:Hm; [|done]. intros _. by eapply allowing_spec. }
  intros tmp v' [-> Htmp]. apply reach_ret. split; [done|]. unfold validated, event_of_code. cbn.
  destruct (terminate_connection_on_failed_response c) eqn:Ht; cbn.
  - destruct (ResponseCode.failed (external_code _ _ _ _)) eqn:Hf; [done|].
    apply external_code_ok in Hf. destruct Hf. auto.
  - split; [done|]. intros [H1 H2]%external_code_ok. auto.
Qed.

Lemma iso_states_length dc : (length (iso_states dc) <= 15)%nat.
Proof. destruct dc; cbn; lia. Qed.

Lemma reach_validate code v :
  reach (fun r v' => v' = v /\ validated (iso_states (v_dc v)) v code r) v (iso_validate_response_code code).
Proof.
  unfold iso_validate_response_code. apply reach_ctx. intros c <-.
  destruct (is_connection_terminated c) eqn:E; [by apply reach_ret; split|].
  apply (reach_check _ iso_unknown_session); [apply iso_states_length|done].
Qed.

Lemma quiet_step P v (m : V2g unit) v1 :
  reach (fun _ v' => v' = v1) v m -> P v1 -> reach (fun _ : unit => P) v m.
Proof. intros H HP. eapply reach_mono; [done|]. by intros _ v' ->. Qed.

(** [state = s]. *)
Definition at_state (s : Z) (v : view) : view :=
  mkView s (v_current v) (v_terminate v) (v_dc v) (v_pause v) (v_isolation v) (v_lost v).
Lemma reach_set_state s v : reach (fun _ v' => v' = at_state s v) v (set_state s).
Proof. intros conn <-. by split. Qed.

(** [current_v2g_msg = m]. *)
Definition at_msg (m : V2gMsgTypeId.t) (v : view) : view :=
  mkView (v_state v) m (v_terminate v) (v_dc v) (v_pause v) (v_isolation v) (v_lost v).
Lemma reach_current m v : reach (fun _ v' => v' = at_msg m v) v (current_is m).
Proof. intros conn <-. by split. Qed.

Section Answers.
Context {L : V2gLib}.
Implicit Types (env : request_env) (v : view).

(** An answer whose code was checked, in a view with the configuration of the
    request. *)
Lemma answered_validated env v v' code r body :
  validated (iso_states (v_dc v)) v code r -> v_terminate v' = v_terminate v -> same_config v v' ->
  still v v' ->
  (forall st, body = CableCheckRes st Finished -> v_isolation v = Finished) ->
  (ResponseCode.failed r.2 = false -> ResponseCode.failed code = false ->
   v_state v ∈ allowing (iso_states (v_dc v)) (v_current v) ->
   iso_step (v_dc v) (v_pause v) (v_dc v) (v_state v) body (v_state v')) ->
  answered iso_step iso_states env v (r.1, mkResponse r.2 body) v'.
Proof.
  intros Hr Ht [Hdc Hp] [Hi Hl] Hb Hstep. do 4 (split; [done|]). unfold validated in Hr. cbn.
  destruct r.1; try done; [|by left].
  intros Hv. destruct Hr as [Hok Hr]. specialize (Hok Hv). destruct (Hr Hok).
  rewrite Hdc. auto.
Qed.

Lemma reach_finish env v code next body :
  (forall code' st, body code' = CableCheckRes st Finished -> v_isolation v = Finished) ->
  (forall code', ResponseCode.failed code' = false -> ResponseCode.failed code = false ->
   v_state v ∈ allowing (iso_states (v_dc v)) (v_current v) ->
   iso_step (v_dc v) (v_pause v) (v_dc v) (v_state v) (body code') next) ->
  reach (answered iso_step iso_states env v) v (finish code next body).
Proof.
  intros Hb H. unfold finish. eapply reach_bind; [apply reach_validate|]. intros r v' [-> Hr].
  eapply reach_bind; [apply reach_set_state|]. intros _ v' ->. apply reach_ret.
  eapply answered_validated; [done..|apply Hb|]. intros. by apply H.
Qed.
End Answers.

(** In a hypothesis that a table allows the message, the states. *)
Ltac compute_allowed H :=
  lazymatch type of H with
  | _ ∈ ?l => let l' := (eval vm_compute in l) in change l with l' in H; set_unfold in H
  end.
Ltac allowed_states H :=
  lazymatch type of H with
  | _ ∈ allowing (iso_states ?dc) _ => destruct dc; compute_allowed H
  | _ => compute_allowed H
  end.

(** The end of a handler whose message is fixed: the states in which it is
    allowed, and the step of the automaton. *)
Ltac by_step c :=
  apply reach_finish; [done|]; let Hs := fresh "Hs" in intros ? ? ? Hs; cbn in Hs;
  allowed_states Hs; try tauto; cbn; repeat (destruct Hs as [Hs|Hs]; try done); subst;
  try (apply c; (done || set_solver)).

(** ** The requests *)

Section Handlers.
Context {L : V2gLib}.
Implicit Types (env : request_env) (v : view).

Lemma quiet_last m : quiet (last_is m).
Proof. unfold last_is. solve_quiet. Qed.
Lemma quiet_provider env id p : quiet (provider_parameters env id p).
Proof. unfold provider_parameters. solve_quiet. Qed.
Lemma quiet_service_parameters env id l b p : quiet (find_service_parameters env id l b p).
Proof.
  revert b p. induction l as [|x l IH]; intros b p; cbn; [apply view_quiet_ret|].
  destruct (id =? ServiceID x); [|apply IH]. apply view_quiet_bind; [solve_quiet|]. intros c.
  destruct (find_parameters _ _); [solve_quiet|]. apply view_quiet_bind; [apply quiet_provider|auto].
Qed.
Lemma quiet_select_service id : quiet (select_service id).
Proof. unfold select_service. solve_quiet. Qed.
Lemma quiet_select_services l b p : quiet (select_services l b p).
Proof.
  revert b p. induction l as [|x l IH]; intros b p; cbn; [apply view_quiet_ret|].
  destruct (_ =? _); [apply IH|]. apply view_quiet_bind; [solve_quiet|]. intros c.
  destruct (existsb _ _); [|solve_quiet]. apply view_quiet_bind; [apply quiet_select_service|auto].
Qed.
Lemma quiet_providers l : quiet (call_providers l).
Proof.
  unfold call_providers. apply view_quiet_bind; [solve_quiet|]. intros c. apply quiet_for. intros i.
  destruct (omap _ _); solve_quiet.
Qed.
Lemma quiet_payment_details env r : quiet (check_payment_details env r).
Proof. unfold check_payment_details. solve_quiet. Qed.
Lemma quiet_check_authorization r : quiet (check_authorization r).
Proof. unfold check_authorization. solve_quiet. Qed.
Lemma quiet_authorization_outcome env : quiet (authorization_outcome env).
Proof. unfold authorization_outcome. solve_quiet. Qed.
Lemma quiet_charge_parameter_req env r : quiet (publish_iso_charge_parameter_discovery_req env r).
Proof. unfold publish_iso_charge_parameter_discovery_req. solve_quiet. Qed.
Lemma quiet_v2h r p c : quiet (v2h_negotiation r p c).
Proof. unfold v2h_negotiation. solve_quiet. Qed.
Lemma quiet_power_delivery_req r : quiet (publish_iso_power_delivery_req r).
Proof. unfold publish_iso_power_delivery_req. solve_quiet. Qed.
Lemma quiet_pre_charge_req r : quiet (publish_iso_pre_charge_req r).
Proof. unfold publish_iso_pre_charge_req. solve_quiet. Qed.
Lemma quiet_current_demand_req env r : quiet (publish_iso_current_demand_req env r).
Proof. unfold publish_iso_current_demand_req. solve_quiet. Qed.
Lemma quiet_meter : quiet take_meter_info.
Proof. unfold take_meter_info. solve_quiet. Qed.
Lemma quiet_v2g_handshake r : quiet (v2g_handshake r).
Proof. unfold v2g_handshake. solve_quiet. Qed.
Lemma quiet_certificate_req s : quiet (publish_iso_certificate_installation_exi_req s).
Proof. unfold publish_iso_certificate_installation_exi_req. solve_quiet. Qed.
Lemma quiet_certificate_answer : quiet certificate_answer.
Proof. unfold certificate_answer. solve_quiet. Qed.
Hint Resolve quiet_last quiet_service_parameters quiet_select_services quiet_providers quiet_payment_details
  quiet_check_authorization quiet_authorization_outcome quiet_charge_parameter_req quiet_v2h
  quiet_power_delivery_req quiet_pre_charge_req quiet_current_demand_req quiet_meter quiet_v2g_handshake
  quiet_certificate_req quiet_certificate_answer : v2g_quiet.

(** Step over what leaves the view alone. *)
Ltac go :=
  repeat lazymatch goal with
  | |- reach _ _ (ebind get_ctx _) => apply reach_ctx; intros ? ?
  | |- reach _ _ (ebind eget _) => apply reach_conn; intros ? ?
  | |- reach _ _ (ebind _ _) => apply reach_after; [solve [solve_quiet]|intros ?]
  end.
Ltac handler := 
  let Hm := fresh in intros Hm;
  lazymatch type of Hm with
  | v_current ?v = _ => destruct v; cbn in Hm; subst
  end.

Lemma session_setup_answered env id v :
  v_current v = V2G_SESSION_SETUP_MSG -> reach (answered iso_step iso_states env v) v (handle_iso_session_setup env id).
Proof. handler. unfold handle_iso_session_setup. go. by_step step_session_setup. Qed.

Lemma service_discovery_answered env sc v :
  v_current v = V2G_SERVICE_DISCOVERY_MSG ->
  reach (answered iso_step iso_states env v) v (handle_iso_service_discovery sc).
Proof. handler. unfold handle_iso_service_discovery. go. by_step step_service_discovery. Qed.

Lemma service_detail_answered env id v :
  v_current v = V2G_SERVICE_DETAIL_MSG ->
  reach (answered iso_step iso_states env v) v (handle_iso_service_detail env id).
Proof. handler. unfold handle_iso_service_detail. go. by_step step_service_detail. Qed.

Lemma authorization_answered env r v :
  v_current v = V2G_AUTHORIZATION_MSG ->
  reach (answered iso_step iso_states env v) v (handle_iso_authorization env r).
Proof.
  handler. unfold handle_iso_authorization. go. destruct a0 as [code processing].
  by_step step_authorization.
Qed.

Lemma charging_status_answered env v :
  v_current v = V2G_CHARGING_STATUS_MSG -> reach (answered iso_step iso_states env v) v handle_iso_charging_status.
Proof.
  handler. unfold handle_iso_charging_status. go. destruct (_ && _).
  all: by_step step_charging_status.
Qed.

Lemma metering_receipt_answered env v :
  v_current v = V2G_METERING_RECEIPT_MSG -> reach (answered iso_step iso_states env v) v handle_iso_metering_receipt.
Proof.
  handler. unfold handle_iso_metering_receipt. apply reach_ctx. intros c Hc.
  assert (is_dc_charger c = v_dc0) as -> by (by injection Hc).
  apply reach_finish; [done|]. intros ? ? ? Hs. cbn in Hs |- *. allowed_states Hs; destruct Hs; subst; try done.
  - apply (step_metering_receipt true _ true).
  - apply (step_metering_receipt false _ false).
Qed.

Lemma cable_check_answered env st v :
  v_current v = V2G_CABLE_CHECK_MSG -> reach (answered iso_step iso_states env v) v (handle_iso_cable_check st).
Proof.
  handler. unfold handle_iso_cable_check. apply reach_after; [solve_quiet|intros _].
  apply reach_ctx. intros c Hc.
  assert (evse_processing (evse_v2g_data c) PHASE_ISOLATION = v_isolation0) as -> by (by injection Hc).
  apply reach_finish; [by intros code' st' [= _ ->]|]. intros ? ? ? Hs. cbn in Hs |- *.
  allowed_states Hs; destruct Hs; subst; try done. by apply step_cable_check.
Qed.

Lemma pre_charge_answered env r v :
  v_current v = V2G_PRE_CHARGE_MSG -> reach (answered iso_step iso_states env v) v (handle_iso_pre_charge r).
Proof. handler. unfold handle_iso_pre_charge. go. by_step step_pre_charge. Qed.

Lemma welding_detection_answered env st v :
  v_current v = V2G_WELDING_DETECTION_MSG ->
  reach (answered iso_step iso_states env v) v (handle_iso_welding_detection st).
Proof. handler. unfold handle_iso_welding_detection. go. by_step step_welding_detection. Qed.

Lemma current_demand_answered env r v :
  v_current v = V2G_CURRENT_DEMAND_MSG ->
  reach (answered iso_step iso_states env v) v (handle_iso_current_demand env r).
Proof.
  handler. unfold handle_iso_current_demand. go. destruct (_ && receipt_required _).
  all: by_step step_current_demand.
Qed.

Lemma payment_selection_answered env r v :
  v_current v = V2G_PAYMENT_SERVICE_SELECTION_MSG ->
  reach (answered iso_step iso_states env v) v (handle_iso_payment_service_selection env r).
Proof.
  handler. unfold handle_iso_payment_service_selection. go. destruct a0 as [[charge known] by_provider].
  apply reach_after; [solve_quiet|intros _].
  eapply reach_bind; [apply reach_validate|]. intros x v' [-> Hx].
  eapply (reach_bind (fun _ v' => exists s', s' ∈ [3; 5] /\ v' = at_state s' _)).
  { destruct (SelectedPaymentOption r).
    - go. eapply reach_mono; [apply reach_set_state|]. intros _ v' ->. exists 3. split; [set_solver|done].
    - go. eapply reach_bind; [apply reach_set_state|]. intros _ v' ->.
      eapply reach_mono; [apply quiet_set_session|]. intros _ v' ->. exists 5. split; [set_solver|done]. }
  intros _ v' (s' & Hs' & ->). apply reach_ret. eapply answered_validated; [done..|].
  intros ? ? Hs. cbn in Hs |- *. allowed_states Hs; destruct Hs; subst; try done; by apply step_payment_selection.
Qed.

Lemma payment_details_answered env r v :
  v_current v = V2G_PAYMENT_DETAILS_MSG ->
  reach (answered iso_step iso_states env v) v (handle_iso_payment_details env r).
Proof.
  handler. unfold handle_iso_payment_details. go. destruct a as [[code challenge] stamp].
  eapply reach_bind; [apply reach_validate|]. intros x v' [-> Hx].
  eapply reach_bind; [apply reach_set_state|]. intros _ v' ->. go.
  apply reach_ret. eapply answered_validated; [done..|].
  intros ? ? Hs. cbn in Hs |- *. allowed_states Hs; apply step_payment_details; set_solver.
Qed.

Lemma charge_parameter_answered env r v :
  v_current v = V2G_CHARGE_PARAMETER_DISCOVERY_MSG ->
  reach (answered iso_step iso_states env v) v (handle_iso_charge_parameter_discovery env r).
Proof.
  handler. unfold handle_iso_charge_parameter_discovery.
  apply reach_after; [solve_quiet|intros _]. apply reach_ctx. intros c1 Hc1.
  apply reach_after; [solve_quiet|intros _]. apply reach_ctx. intros c2 Hc2.
  apply reach_after; [solve_quiet|intros _].
  destruct (is_dc_charger c2) eqn:Hdc; cbn [negb].
  - apply reach_after; [solve_quiet|intros [processing code]]. apply reach_ctx. intros c3 Hc3.
    apply reach_finish; [done|]. intros ? ? ? Hs. cbn in Hs |- *.
    assert (no_energy_pause (evse_v2g_data c3) = v_pause0) as -> by (by injection Hc3).
    allowed_states Hs; destruct Hs; subst; try done.
    all: destruct v_pause0, (is_finished processing); try (apply step_parameter; set_solver).
    all: by apply step_parameter_pause.
  - destruct (is_finished _); by_step step_parameter.
Qed.

(** Commands leave the state; the configuration, if they are stable; and a check
    of the cable is finished only if one of them reports it. *)
Definition commanded (l : list v2g_command) (v v' : view) : Prop :=
  v_state v' = v_state v /\ v_current v' = v_current v /\ v_terminate v' = v_terminate v /\
  (Forall (fun k => stable k = true) l -> same_config v v') /\
  no_news l v v'.

Lemma commanded_refl l v : commanded l v v.
Proof. done. Qed.
Lemma commanded_trans l l' v v1 v2 :
  commanded l v v1 -> commanded l' v1 v2 -> commanded (l ++ l') v v2.
Proof.
  intros (E1 & E2 & E3 & H1 & I1 & J1) (F1 & F2 & F3 & H2 & I2 & J2). unfold commanded, no_news, same_config in *.
  rewrite !Forall_app. do 3 (split; [congruence|]). split; [|split; intros [??]; by auto]. intros [??].
  destruct H1, H2; auto. split; congruence.
Qed.

Lemma add_service_pause d x l : no_energy_pause (add_service_to_service_list d x l).2 = no_energy_pause d.
Proof. unfold add_service_to_service_list. repeat case_match; done. Qed.
Lemma add_service_processing d x l : evse_processing (add_service_to_service_list d x l).2 = evse_processing d.
Proof. unfold add_service_to_service_list. repeat case_match; done. Qed.

Lemma run_command_commanded k c c' :
  run_command k c = Ok c' -> commanded [k] (view_of c) (view_of c').
Proof.
  assert (forall c', view_of c' = view_of c -> commanded [k] (view_of c) (view_of c')) as Hsame.
  { intros c1 ->. apply commanded_refl. }
  destruct k; cbn [run_command]; intros H; try (injection H as <-); try (by apply Hsame).
  - apply Hsame. unfold handle_setup. destruct mode; unfold view_of; cbn; rewrite ?add_service_pause, ?add_service_processing; done.
  - apply Hsame. unfold handle_set_charging_parameters, view_of. cbn.
    destruct ac_nominal_voltage, dc_current_regulation_tolerance, dc_peak_current_ripple,
      dc_energy_to_be_delivered; done.
  - unfold handle_session_setup in H. destruct (if hlc_pause_active c then _ else _) as [[arr len]|]; [|done].
    injection H as <-. apply Hsame. unfold view_of. cbn. destruct (_ && _); [|done].
    by rewrite add_service_pause, add_service_processing.
  - apply Hsame. unfold handle_authorization_response. repeat case_match; done.
  - destruct value; [by apply Hsame|]. do 5 (split; [done|]). by intros [? _]%Forall_cons_1.
  - destruct status; [|by repeat split]. do 4 (split; [done|]). split; [by intros [? _]%Forall_cons_1|done].
  - do 3 (split; [done|]). split; [by intros [? _]%Forall_cons_1|done].
  - unfold handle_update_energy_transfer_modes. destruct (hlc_pause_active c); [done|].
    destruct (fold_left _ _ _) as [[arr len] dc]. do 3 (split; [by destruct (_ && _)|]).
    split; [by intros [? _]%Forall_cons_1|by split; destruct (_ && _)].
  - apply Hsame. unfold handle_update_dc_present_values. by destruct current.
  - apply Hsame. unfold handle_update_meter_info. by destruct id.
  - apply Hsame. by destruct e.
  - apply Hsame. unfold handle_set_get_certificate_response, view_of. cbn.
    destruct exi_response as [x|]; [destruct (String.eqb x _)|]; done.
Qed.

Lemma reach_command k v : reach (fun _ => commanded [k] v) v (command k).
Proof.
  unfold command. apply reach_ctx. intros c <-. destruct (run_command k c) eqn:Hk; [|apply reach_throw].
  intros conn Hconn. split; [apply Forall_nil_2|]. cbn. by apply run_command_commanded.
Qed.

Lemma reach_commands l v : reach (fun _ => commanded l v) v (efor l command).
Proof.
  revert v. induction l as [|k l IH]; intros v; cbn [efor].
  { apply reach_ret, commanded_refl. }
  eapply reach_bind; [apply reach_command|]. intros [] v1 H1.
  eapply reach_mono; [apply IH|]. intros [] v2 H2. by apply (commanded_trans [k] l v v1).
Qed.

(** Both waits: other threads run commands, and [k] goes on. *)
Lemma reach_wakeup {A} v (w : wakeup) (k : unit -> V2g A) ws :
  (forall v', reach (fun _ => commanded (wakeup_commands ws) v') v' (k tt)) ->
  reach (fun _ => commanded (wakeup_commands (w :: ws)) v) v (ebind (efor (wake_commands w) command) k).
Proof.
  intros Hk. eapply reach_bind; [apply reach_commands|]. intros [] v1 H1.
  eapply reach_mono; [apply Hk|]. cbv beta. intros a v2 H2. by eapply commanded_trans.
Qed.

Lemma reach_wait_contactor ws code v :
  reach (fun _ => commanded (wakeup_commands ws) v) v (wait_contactor ws code).
Proof.
  revert v. induction ws as [|w ws IH]; intros v; cbn [wait_contactor]; apply reach_ctx; intros c Hc.
  - destruct (_ || _); apply reach_ret, commanded_refl.
  - destruct (_ || _); [apply reach_ret, commanded_refl|].
    apply reach_wakeup. intros v'.
    destruct (wake_return w); try apply IH; apply reach_ret, commanded_refl.
Qed.

Lemma reach_wait_certificate ws v :
  reach (fun _ => commanded (wakeup_commands ws) v) v (wait_certificate ws).
Proof.
  assert (forall P v, reach (fun _ => commanded P v) v (set_ctx (assign intl_emergency_shutdown true))) as Hset.
  { intros P v1 conn <-. by split. }
  revert v. induction ws as [|w ws IH]; intros v; cbn [wait_certificate]; apply reach_ctx; intros c Hc.
  - destruct (_ || _); [apply reach_ret, commanded_refl|apply Hset].
  - destruct (_ || _); [apply reach_ret, commanded_refl|].
    apply reach_wakeup. intros v'.
    destruct (wake_return w); try apply IH; try apply Hset; apply reach_ret, commanded_refl.
Qed.

(** An answer whose code was checked after commands may have run. *)
Lemma answered_commanded env v v1 v2 code r body :
  validated (iso_states (v_dc v1)) v1 code r -> commanded (wakeup_commands (wakeups env)) v v1 ->
  v_terminate v2 = v_terminate v1 -> same_config v1 v2 ->
  still v1 v2 ->
  (forall st, body <> CableCheckRes st Finished) ->
  (ResponseCode.failed r.2 = false -> ResponseCode.failed code = false ->
   v_state v ∈ allowing (iso_states (v_dc v1)) (v_current v) ->
   iso_step (v_dc v) (v_pause v) (v_dc v1) (v_state v) body (v_state v2)) ->
  answered iso_step iso_states env v (r.1, mkResponse r.2 body) v2.
Proof.
  intros Hr (Es & Ec & Et & Hconf & Hiso & Hlost) Ht [Hdc Hp] [Hi Hl] Hb Hstep.
  split; [congruence|]. split.
  { intros Hst. destruct (Hconf Hst). split; congruence. }
  split; [by split; auto|]. split; [by intros st ?%Hb|].
  unfold validated in Hr. cbn. destruct r.1; try done; [|by left].
  intros Hv. destruct Hr as [Hok Hr]. rewrite Et in Hok. specialize (Hok Hv). destruct (Hr Hok) as [Hcode Hin].
  rewrite Es, Ec in Hin. rewrite Hdc. auto.
Qed.

Lemma charge_progress_reach env progress v :
  reach (fun code v' => commanded (wakeup_commands (wakeups env)) v v' /\
           (progress = Start -> v_dc v = true -> ev_may_start (v_pause v) = false ->
            ResponseCode.failed code = true)) v
    (charge_progress env progress).
Proof.
  unfold charge_progress. apply reach_ctx. intros c Hc.
  assert (is_dc_charger c = v_dc v) as Hdc by (by rewrite <- Hc).
  assert (ev_should_pause c = negb (ev_may_start (v_pause v))) as Hp.
  { rewrite <- Hc. unfold ev_should_pause. cbn. by destruct (no_energy_pause _). }
  rewrite Hdc, Hp. destruct progress.
  - apply reach_after; [solve_quiet|intros _]. destruct (v_dc v) eqn:E; cbn [negb].
    + destruct (ev_may_start (v_pause v)); cbn [negb]; [by apply reach_ret|].
      apply reach_after; [solve_quiet|intros _]. apply reach_after; [solve_quiet|intros _]. by apply reach_ret.
    + destruct (contactor_is_closed c); cbn [negb]; [by apply reach_ret|].
      apply reach_after; [solve_quiet|intros _]. apply reach_after; [solve_quiet|intros _].
      eapply reach_mono; [apply reach_wait_contactor|]. cbv beta.
      intros code v' Hv'. by split.
  - apply reach_after; [solve_quiet|intros _]. apply reach_after; [solve_quiet|intros _]. by apply reach_ret.
  - apply reach_after; [solve_quiet|intros _]. by apply reach_ret.
  - by apply reach_ret.
Qed.

(** A check that goes well has not changed the code. *)
Lemma check_entry_code fuel sch q s s' :
  check_entry fuel sch q s = Some s' ->
  check_code s' = check_code s \/ check_code s' = ResponseCode.FAILED_ChargingProfileInvalid.
Proof.
  revert s. induction fuel as [|fuel IH]; intros s; [done|]. cbn.
  destruct (sch !! evse_idx s) as [e|]; [|by intros [= <-]; left].
  destruct (within_entry s); [by intros [= <-]; left|]. cbv zeta.
  destruct (match sch !! S (evse_idx s) with Some _ => _ | None => _ end).
  - destruct (Qle_bool q _); [by intros ?%IH|]. intros [= <-]. by right.
  - by intros ?%IH.
Qed.

Lemma check_profile_code fuel sch l s s' :
  check_profile fuel sch l s = Some s' ->
  check_code s' = check_code s \/ check_code s' = ResponseCode.FAILED_ChargingProfileInvalid.
Proof.
  revert s. induction l as [|e l IH]; intros s; cbn; [by intros [= <-]; left|].
  destruct (ResponseCode.is_OK _); [|by intros [= <-]; left].
  destruct (check_entry _ _ _ _) as [s1|] eqn:H1; [|done]. intros H%IH.
  apply check_entry_code in H1. cbn in H1. destruct H as [-> | ->]; auto.
Qed.

Lemma check_code_ok fuel l sch code code' :
  check_iso2_charging_profile_values fuel l sch code = Some code' ->
  ResponseCode.failed code' = false -> ResponseCode.failed code = false.
Proof.
  unfold check_iso2_charging_profile_values. destruct l as [l|]; [|by intros [= <-]].
  destruct (check_profile _ _ _ _) as [s|] eqn:H; [|done]. cbn. intros [= <-] Hok.
  apply check_profile_code in H. cbn in H. by destruct H as [H|H]; rewrite H in Hok.
Qed.

(** A renegotiation of a DC charger has the cable checked again. *)
Definition again (s : Z) (v v' : view) : Prop :=
  v_state v' = s /\ v_terminate v' = v_terminate v /\ same_config v v' /\ still v v'.

Lemma start_renegotiation_reach v : reach (fun _ v' => again 6 v v') v start_renegotiation.
Proof.
  unfold start_renegotiation. eapply reach_bind; [apply reach_set_state|]. intros _ v' ->.
  apply reach_ctx. intros c Hc. destruct (is_dc_charger c); cbn [negb].
  - eapply (reach_bind (fun _ v' => again 6 v v')); [|].
    { intros conn Hconn. destruct v, conn as [[]]. injection Hconn as ? ? ? ? ? ? ?. cbn in *. subst. by repeat split. }
    intros _ v' Hv'. eapply reach_mono; [apply view_quiet_bind; solve_quiet|]. by intros _ v2 ->.
  - eapply reach_mono; [apply quiet_set_evse; by intros|]. by intros _ v2 ->.
Qed.

Lemma next_after_power_delivery_reach progress v :
  reach (fun _ v' => exists s', again s' v v' /\
           (s' = 6 \/ s' = (if v_dc v then 13 else 11) \/
            s' = (if v_dc v then 11 else 8) /\ progress = Start)) v
    (next_after_power_delivery progress).
Proof.
  unfold next_after_power_delivery. apply reach_ctx. intros c Hc.
  assert (is_dc_charger c = v_dc v) as -> by (by rewrite <- Hc).
  destruct (is_renegotiate progress && was_charging c).
  { eapply reach_mono; [apply start_renegotiation_reach|]. cbv beta. eauto. }
  destruct (is_start progress && negb (was_charging c)) eqn:Hs.
  all: eapply reach_mono; [apply reach_set_state|]; cbv beta; intros _ v' ->; eexists; split; [done|].
  - right. right. by destruct progress.
  - right. left. done.
Qed.

Lemma power_delivery_answered env r v :
  v_current v = V2G_POWER_DELIVERY_MSG ->
  reach (answered iso_step iso_states env v) v (handle_iso_power_delivery env r).
Proof.
  intros Hm. unfold handle_iso_power_delivery. apply reach_after; [solve_quiet|intros _].
  eapply reach_bind; [apply charge_progress_reach|]. cbv beta. intros code v1 [Hv1 Hcode].
  apply reach_ctx. intros c Hc. apply reach_after; [destruct (selected_tuple _ _); solve_quiet|intros _].
  destruct (check_iso2_charging_profile_values _ _ _ _) as [code3|] eqn:Hcheck; [|apply reach_throw].
  eapply reach_bind; [apply reach_validate|]. cbv beta. intros x v' [-> Hx].
  eapply reach_bind; [apply next_after_power_delivery_reach|]. cbv beta.
  intros _ v' (s' & (<- & Ht & Hconf & Hiso) & Hs'). apply reach_ret.
  eapply answered_commanded; [done..|]. intros _ Hok Hin. rewrite Hm in Hin.
  assert (v_state v ∈ power_states (v_dc v1)) as Hst.
  { destruct (v_dc v1); compute_allowed Hin; set_solver. }
  destruct Hs' as [-> | [-> | [-> Hstart]]];
    [by apply step_renegotiate|by apply step_power_stop|apply step_power_start; [done|]].
  intros Hdc. destruct (ev_may_start (v_pause v)) eqn:Hmay; [done|]. exfalso.
  specialize (Hcode Hstart Hdc eq_refl).
  destruct (_ || _); [done|]. eapply check_code_ok in Hok; [|done].
  destruct (selected_tuple _ _); [|done]. destruct (_ && _); [done|]. congruence.
Qed.

(** The answer to a stop of the session. *)
Lemma stop_answered step table env v v' code r :
  v_current v = V2G_SESSION_STOP_MSG -> validated (table (v_dc v)) v ResponseCode.OK r ->
  code = r.2 \/ ResponseCode.failed code = true ->
  v_terminate v' = v_terminate v -> same_config v v' -> still v v' ->
  answered step table env v (V2G_EVENT_SEND_AND_TERMINATE, mkResponse code SessionStopRes) v'.
Proof.
  intros Hm Hr Hcode Ht Hconf [Hi Hl]. do 4 (split; [done|]). cbn.
  destruct (ResponseCode.failed code) eqn:Hok; [by left|right]. split; [done|].
  destruct Hcode as [-> |]; [|done]. rewrite <- Hm. unfold validated in Hr.
  destruct r.1; try done; [right|by left|congruence]. destruct Hr as [_ Hr]. by apply Hr.
Qed.

Lemma session_stop_answered env x v :
  v_current v = V2G_SESSION_STOP_MSG ->
  reach (answered iso_step iso_states env v) v (handle_iso_session_stop x).
Proof.
  intros Hm. unfold handle_iso_session_stop. eapply reach_bind; [apply reach_validate|]. cbv beta. intros r v' [-> Hr].
  apply reach_ctx. intros c Hc.
  eapply (reach_bind (fun code v' => (code = r.2 \/ ResponseCode.failed code = true) /\
    exists s', v' = at_state s' v)).
  2:{ intros code v' (Hcode & s' & ->). apply reach_ret. by eapply stop_answered. }
  destruct x; [|destruct (_ && _)|].
  all: repeat (apply reach_after; [solve [solve_quiet]|intros _]).
  all: eapply reach_bind; [apply reach_set_state|]; intros _ v' ->; apply reach_ret; eauto.
Qed.

Lemma certificate_installation_answered env v :
  v_current v = V2G_CERTIFICATE_INSTALLATION_MSG ->
  reach (answered iso_step iso_states env v) v (handle_iso_certificate_installation env).
Proof.
  intros Hm. unfold handle_iso_certificate_installation. apply reach_after; [solve_quiet|intros published].
  eapply (reach_bind (fun _ => commanded (wakeup_commands (wakeups env)) v)).
  { destruct published; [|by apply reach_ret].
    eapply reach_bind; [apply reach_wait_certificate|]. cbv beta. intros _ v1 H1.
    eapply reach_mono; [apply quiet_certificate_answer|]. cbv beta. by intros _ v' ->. }
  cbv beta. intros [[data|] code] v1 Hv1; cbn.
  - eapply reach_bind; [apply reach_set_state|]. cbv beta. intros _ v' ->. apply reach_ret.
    destruct Hv1 as (Es & Ec & Et & Hconf & Hiso). split; [done|]. split; [by intros H; apply Hconf in H|].
    split; [exact Hiso|]. split; [done|]. cbn.
    split; [apply step_certificate_answer|eauto].
  - unfold finish. eapply reach_bind; [apply reach_validate|]. cbv beta. intros x v' [-> Hx].
    eapply reach_bind; [apply reach_set_state|]. cbv beta. intros _ v' ->. apply reach_ret.
    eapply answered_commanded; [done..|]. intros _ _ Hin. rewrite Hm in Hin. cbn.
    destruct (v_dc v1); compute_allowed Hin; destruct Hin; try done.
    all: replace (v_state v) with 3; apply step_certificate_installation.
Qed.

Lemma certificate_update_answered env v :
  reach (answered iso_step iso_states env v) v handle_iso_certificate_update.
Proof. apply reach_ret. do 4 (split; [done|]). intros _. split; [done|]. apply step_certificate_update. Qed.
Hint Resolve session_setup_answered service_discovery_answered service_detail_answered
  payment_selection_answered payment_details_answered authorization_answered charge_parameter_answered
  power_delivery_answered charging_status_answered metering_receipt_answered cable_check_answered
  pre_charge_answered current_demand_answered welding_detection_answered session_stop_answered
  certificate_installation_answered certificate_update_answered : v2g_quiet.

(** The dispatcher sets the current message, which an answer does not depend on. *)
Lemma reach_current_then env v m (k : unit -> V2g (v2g_event * response)) step table :
  reach (answered step table env (at_msg m v)) (at_msg m v) (k tt) ->
  reach (answered step table env v) v (ebind (current_is m) k).
Proof. intros H. eapply reach_bind; [apply reach_current|]. by intros [] v' ->. Qed.

Lemma iso_dispatch_answered env r v : reach (answered iso_step iso_states env v) v (iso_dispatch env r).
Proof.
  destruct r; cbn [iso_dispatch].
  all: try (apply reach_current_then; auto with v2g_quiet; fail).
  - apply reach_current_then. go. auto with v2g_quiet.
  - apply reach_current_then. go. auto with v2g_quiet.
  - apply reach_current_then. go. auto with v2g_quiet.
  - go. apply reach_current_then. auto with v2g_quiet.
  - by apply reach_ret.
Qed.

Lemma iso_handle_request_answered env id r v :
  reach (answered iso_step iso_states env v) v (iso_handle_request env id r).
Proof.
  unfold iso_handle_request. apply reach_after; [solve_quiet|intros _].
  eapply reach_bind; [apply iso_dispatch_answered|]. intros x v' Hx.
  apply reach_ctx. intros c Hc.
  eapply reach_bind; [apply reach_entry, iso_states_length|]. cbv beta. intros _ v1 [-> _].
  apply reach_after; [destruct x.1; solve_quiet|intros _]. by apply reach_ret.
Qed.
End Handlers.

(** ** The automaton of DIN SPEC 70121 *)

Inductive din_step (dc0 : bool) (pause : NoEnergyPauseStatus) (dc : bool)
  : Z -> response_body -> Z -> Prop :=
| din_session_setup id t : din_step dc0 pause dc 0 (SessionSetupRes id t) 1
| din_service_discovery o c l : din_step dc0 pause dc 1 (ServiceDiscoveryRes o c l) 2
| din_payment_selection : din_step dc0 pause dc 2 PaymentServiceSelectionRes 3
| din_authorization p :
    din_step dc0 pause dc 3 (AuthorizationRes p) (if is_finished p then 4 else 3)
| din_parameter r s' : s' ∈ [4; 5; 11] -> din_step dc0 pause dc 4 (ChargeParameterDiscoveryRes_ r) s'
| din_cable_check_again st p : din_step dc0 pause dc 5 (CableCheckRes st p) 5
| din_cable_check st : din_step dc0 pause dc 5 (CableCheckRes st Finished) 6
| din_pre_charge s st u : s ∈ [6; 7] -> din_step dc0 pause dc s (PreChargeRes st u) 7
| din_power s a d s' : s ∈ [7; 9] -> s' ∈ [8; 10] -> din_step dc0 pause dc s (PowerDeliveryRes a d) s'
| din_current_demand s r : s ∈ [8; 9] -> din_step dc0 pause dc s (CurrentDemandRes_ r) 9
| din_welding_detection st u : din_step dc0 pause dc 10 (WeldingDetectionRes st u) 10.

Section DinHandlers.
Implicit Types (env : request_env) (v : view).

Lemma reach_din_validate code v :
  reach (fun r v' => v' = v /\ validated din_states v code r) v (din_validate_response_code code).
Proof.
  unfold din_validate_response_code. apply reach_ctx. intros c <-.
  destruct (is_connection_terminated c) eqn:E; [by apply reach_ret; split|].
  apply (reach_check _ din_unknown_session); [cbn; lia|done].
Qed.

Lemma din_answered_validated env v v' code r body :
  validated din_states v code r -> v_terminate v' = v_terminate v -> same_config v v' ->
  still v v' ->
  (forall st, body = CableCheckRes st Finished -> v_isolation v = Finished) ->
  (v_state v ∈ allowing din_states (v_current v) ->
   din_step (v_dc v) (v_pause v) (v_dc v') (v_state v) body (v_state v')) ->
  answered din_step (fun _ => din_states) env v (r.1, mkResponse r.2 body) v'.
Proof.
  intros Hr Ht Hconf [Hi Hl] Hb Hstep. do 4 (split; [done|]).
  unfold validated in Hr. cbn.
  destruct r.1; try done; [|by left].
  intros Hv. destruct Hr as [Hok Hr]. specialize (Hok Hv). destruct (Hr Hok). auto.
Qed.

Lemma reach_din_finish env v code next body :
  (forall st, body = CableCheckRes st Finished -> v_isolation v = Finished) ->
  (v_state v ∈ allowing din_states (v_current v) ->
   din_step (v_dc v) (v_pause v) (v_dc v) (v_state v) body next) ->
  reach (answered din_step (fun _ => din_states) env v) v (din_finish code next body).
Proof.
  intros Hb H. unfold din_finish. eapply reach_bind; [apply reach_din_validate|]. cbv beta. intros r v' [-> Hr].
  eapply reach_bind; [apply reach_set_state|]. cbv beta. intros _ v' ->. apply reach_ret.
  eapply din_answered_validated; [done..|]. intros. by apply H.
Qed.

Lemma quiet_din_parameter_req r : quiet (publish_din_charge_parameter_discovery_req r).
Proof. unfold publish_din_charge_parameter_discovery_req. solve_quiet. Qed.
Lemma quiet_din_power_req r : quiet (publish_din_power_delivery_req r).
Proof. unfold publish_din_power_delivery_req. solve_quiet. Qed.
Lemma quiet_din_pre_charge_req r : quiet (publish_din_precharge_req r).
Proof. apply quiet_pre_charge_req. Qed.
Lemma quiet_din_current_demand_req env r : quiet (publish_din_current_demand_req env r).
Proof. apply quiet_current_demand_req. Qed.
Hint Resolve quiet_din_parameter_req quiet_din_power_req quiet_din_pre_charge_req
  quiet_din_current_demand_req quiet_last : v2g_quiet.

Ltac din_go :=
  repeat lazymatch goal with
  | |- reach _ _ (ebind (current_is _) _) => apply reach_current_then
  | |- reach _ _ (ebind get_ctx _) => apply reach_ctx; intros ? ?
  | |- reach _ _ (ebind _ _) => apply reach_after; [solve [solve_quiet]|intros ?]
  end.
Ltac din_by_step c :=
  apply reach_din_finish; [done|]; let Hs := fresh "Hs" in intros Hs; cbn in Hs |- *; compute_allowed Hs;
  repeat (destruct Hs as [Hs|Hs]; try done); subst; apply c; set_solver.

Lemma din_cable_check_answered env st v :
  v_current v = V2G_CABLE_CHECK_MSG -> reach (answered din_step (fun _ => din_states) env v) v (handle_din_cable_check st).
Proof.
  intros Hm. destruct v. cbn in Hm. subst. unfold handle_din_cable_check. din_go.
  assert (evse_processing (evse_v2g_data _) PHASE_ISOLATION = v_isolation0) as E by (by injection H).
  rewrite E. clear E H. apply reach_din_finish; [by destruct v_isolation0|].
  intros Hs. cbn in Hs |- *. compute_allowed Hs. destruct Hs; [subst|done].
  destruct v_isolation0; cbn; try apply din_cable_check_again.
  destruct (_ && _); [apply din_cable_check|apply din_cable_check_again].
Qed.

Lemma din_power_delivery_answered env r v :
  v_current v = V2G_POWER_DELIVERY_MSG -> reach (answered din_step (fun _ => din_states) env v) v (handle_din_power_delivery r).
Proof.
  intros Hm. destruct v. cbn in Hm. subst. unfold handle_din_power_delivery.
  apply reach_after; [solve_quiet|intros _]. apply reach_after; [solve_quiet|intros _].
  apply reach_ctx. intros c Hc. eapply reach_bind; [apply reach_din_validate|]. cbv beta.
  intros x v' [-> Hx]. apply reach_ctx. intros c' Hc'.
  assert (forall s', s' ∈ [8; 10] -> answered din_step (fun _ => din_states) env (mkView v_state0 V2G_POWER_DELIVERY_MSG v_terminate0 v_dc0 v_pause0 v_isolation0 v_lost0)
    (x.1, mkResponse x.2 (PowerDeliveryRes None (Some (din_evse_status c (get_emergency_status_code c PHASE_CHARGE)))))
    (at_state s' (mkView v_state0 V2G_POWER_DELIVERY_MSG v_terminate0 v_dc0 v_pause0 v_isolation0 v_lost0))) as Hans.
  { intros s' Hs'. eapply din_answered_validated; [done..|]. intros Hs. cbn in Hs |- *. compute_allowed Hs.
    apply din_power; [set_solver|done]. }
  cbn zeta. destruct (_ && negb (V2gMsgTypeId.eqb _ _)).
  - eapply reach_bind; [apply reach_set_state|]. cbv beta. intros _ v' ->. apply reach_ret, Hans. set_solver.
  - eapply reach_bind; [apply reach_set_state|]. cbv beta. intros _ v' ->.
    destruct (_ =? 1); apply reach_ret; [|apply Hans; set_solver]. do 4 (split; [done|]). by left.
Qed.

Lemma din_session_stop_answered env v :
  v_current v = V2G_SESSION_STOP_MSG ->
  reach (answered din_step (fun _ => din_states) env v) v handle_din_session_stop.
Proof.
  intros Hm. unfold handle_din_session_stop. eapply reach_bind; [apply reach_din_validate|]. cbv beta. intros r v' [-> Hr].
  apply reach_after; [solve_quiet|intros _]. eapply reach_bind; [apply reach_set_state|]. cbv beta.
  intros _ v' ->. apply reach_ret. eapply stop_answered; try done. by left.
Qed.

Lemma din_dispatch_answered env r v : reach (answered din_step (fun _ => din_states) env v) v (din_dispatch env r).
Proof.
  destruct v, r; cbn [din_dispatch].
  - unfold handle_din_session_setup. din_go. din_by_step din_session_setup.
  - unfold handle_din_service_discovery. din_go. din_by_step din_service_discovery.
  - unfold handle_din_service_payment_selection. din_go. din_by_step din_payment_selection.
  - unfold handle_din_contract_authentication. din_go. din_by_step din_authorization.
  - unfold handle_din_charge_parameter. din_go. destruct (is_finished _); [destruct (ev_should_pause _)|].
    all: din_by_step din_parameter.
  - apply reach_current_then. by apply din_power_delivery_answered.
  - din_go. by apply din_cable_check_answered.
  - unfold handle_din_pre_charge. din_go. din_by_step din_pre_charge.
  - unfold handle_din_current_demand. din_go. din_by_step din_current_demand.
  - unfold handle_din_welding_detection. din_go. din_by_step din_welding_detection.
  - apply reach_current_then. by apply din_session_stop_answered.
  - apply reach_current_then. by apply reach_ret.
  - by apply reach_ret.
Qed.

Lemma din_handle_request_answered env id r v :
  reach (answered din_step (fun _ => din_states) env v) v (din_handle_request env id r).
Proof.
  unfold din_handle_request. apply reach_after; [solve_quiet|intros _].
  eapply reach_bind; [apply din_dispatch_answered|]. intros x v' Hx.
  destruct x.1 eqn:E; try by apply reach_ret.
  all: apply reach_ctx; intros c Hc; eapply reach_bind; [apply (reach_entry din_states); cbn; lia|].
  all: cbv beta; intros _ v1 [-> _]; apply reach_after; [solve_quiet|intros _]; by apply reach_ret.
Qed.
End DinHandlers.
