(* ===== verification/V2gExchange.v ===== *)
(** * EvseV2G: the responses of a connection

    The responses that are sent, in the order they are sent, are a run of the
    automaton of a protocol, and a failure or the end of the session is the last
    of them. *)
From S2P Require Import Prelude Effects V2gTypes V2gContext IsoServer DinServer V2gServer V2gProofs.
From stdpp Require Import base tactics list numbers strings sets.
From Stdlib Require Import QArith Lia.
Open Scope Z_scope.
Open Scope everest_scope.
Import V2gMsgTypeId.

(** ** Runs of an automaton *)

(** A response that goes to the car: is it a failure? *)
Inductive reply := accepted (b : response_body) | refused (b : response_body).
Definition reply_of (r : response) : reply :=
  if ResponseCode.failed (code r) then refused (body r) else accepted (body r).
Definition sent (o : v2g_output) : option reply :=
  match o with
  | send_response _ r => Some (reply_of r)
  | send_exi d => Some (accepted (CertificateInstallationExi d))
  | _ => None
  end.
Abbreviation responses := (omap sent).

(** The responses that the automaton [R] gives in a state: one after the other,
    until at any point one is a failure, or the answer to a stop of the session in a
    state that [Stop] allows. *)
Inductive exchange (R : Z -> response_body -> Z -> Prop) (Stop : Z -> Prop) : Z -> list reply -> Prop :=
| exchange_end s : exchange R Stop s []
| exchange_step s b s' l : R s b s' -> exchange R Stop s' l -> exchange R Stop s (accepted b :: l)
| exchange_failure s b : exchange R Stop s [refused b]
| exchange_stop s : Stop s -> exchange R Stop s [accepted SessionStopRes].

(** What is known of a connection: with [Some (dc, pause)] the kind of charger and
    the pause are fixed; it may be that no cable check is reported, and that the link
    to the car is not lost. *)
Record config := mkConfig {
  fixed : option (bool * NoEnergyPauseStatus);
  unreported : bool;
  connected : bool
}.
Definition any_config : config := mkConfig None false false.
Definition in_config (g : config) (v : view) : Prop :=
  match fixed g with Some (dc, pause) => v_dc v = dc /\ v_pause v = pause | None => True end /\
  (unreported g = true -> v_isolation v <> Finished) /\
  (connected g = true -> v_lost v = false).
Definition step_of (p : v2g_protocol) :=
  match p with V2G_PROTO_ISO15118_2013 => iso_step | _ => din_step end.
Definition check_finished (b : response_body) : bool :=
  match b with CableCheckRes _ Finished => true | _ => false end.
(** The table of states of a protocol, and the message a response answers. *)
Definition table_of (p : v2g_protocol) : bool -> list Z :=
  match p with V2G_PROTO_ISO15118_2013 => iso_states | _ => fun _ => din_states end.
Definition message_of (b : response_body) : V2gMsgTypeId.t :=
  match b with
  | SessionSetupRes _ _ => V2G_SESSION_SETUP_MSG
  | ServiceDiscoveryRes _ _ _ => V2G_SERVICE_DISCOVERY_MSG
  | ServiceDetailRes _ _ => V2G_SERVICE_DETAIL_MSG
  | PaymentServiceSelectionRes => V2G_PAYMENT_SERVICE_SELECTION_MSG
  | PaymentDetailsRes _ _ => V2G_PAYMENT_DETAILS_MSG
  | AuthorizationRes _ => V2G_AUTHORIZATION_MSG
  | ChargeParameterDiscoveryRes_ _ => V2G_CHARGE_PARAMETER_DISCOVERY_MSG
  | PowerDeliveryRes _ _ => V2G_POWER_DELIVERY_MSG
  | ChargingStatusRes_ _ => V2G_CHARGING_STATUS_MSG
  | MeteringReceiptRes _ => V2G_METERING_RECEIPT_MSG
  | CertificateUpdateRes => V2G_CERTIFICATE_UPDATE_MSG
  | CertificateInstallationRes | CertificateInstallationExi _ => V2G_CERTIFICATE_INSTALLATION_MSG
  | CableCheckRes _ _ => V2G_CABLE_CHECK_MSG
  | PreChargeRes _ _ => V2G_PRE_CHARGE_MSG
  | CurrentDemandRes_ _ => V2G_CURRENT_DEMAND_MSG
  | WeldingDetectionRes _ _ => V2G_WELDING_DETECTION_MSG
  | SessionStopRes => V2G_SESSION_STOP_MSG
  | no_response => V2G_UNKNOWN_MSG
  end.
(** The answers that the source gives without looking at the table: the one to an
    update of a certificate, and the one of the backend to an installation. *)
Definition unchecked (b : response_body) : bool :=
  match b with CertificateUpdateRes | CertificateInstallationExi _ => true | _ => false end.

(** A step of the automaton of the protocol, which its table allows. *)
Definition table_step (p : v2g_protocol) (dc0 : bool) (pause : NoEnergyPauseStatus) (dc : bool)
    (s : Z) (b : response_body) (s' : Z) : Prop :=
  step_of p dc0 pause dc s b s' /\
  (unchecked b = false -> s ∈ allowing (table_of p dc) (message_of b)).
Definition protocol_step (p : v2g_protocol) (g : config) (s : Z) (b : response_body) (s' : Z) : Prop :=
  match fixed g with
  | Some (dc, pause) => table_step p dc pause dc s b s'
  | None => exists dc0 pause dc, table_step p dc0 pause dc s b s'
  end /\
  (unreported g = true -> check_finished b = false).
(** A session may be stopped where the table allows it; when the link to the car is
    lost, the source does not look. *)
Definition may_stop (p : v2g_protocol) (g : config) (s : Z) : Prop :=
  connected g = true ->
  match fixed g with
  | Some (dc, _) => s ∈ allowing (table_of p dc) V2G_SESSION_STOP_MSG
  | None => exists dc, s ∈ allowing (table_of p dc) V2G_SESSION_STOP_MSG
  end.
Abbreviation protocol_run p g := (exchange (protocol_step p g) (may_stop p g)).

Lemma step_allowed p dc0 pause dc s b s' :
  step_of p dc0 pause dc s b s' -> table_step p dc0 pause dc s b s'.
Proof.
  intros H. split; [done|]. intros Hb.
  destruct p; cbn [step_of table_of] in *; inversion H; subst; try done; cbn [message_of power_states] in *.
  all: try match goal with dc : bool |- _ => destruct dc; try done end.
  all: repeat match goal with Hs : _ ∈ _ |- _ => set_unfold in Hs end.
  all: repeat match goal with Hs : _ \/ _ |- _ => destruct Hs end; subst; try done.
  all: match goal with |- _ ∈ ?l => let l' := (eval vm_compute in l) in change l with l' end; set_solver.
Qed.

(** The commands that run before or during a request. *)
Definition frame_commands (f : frame) : list v2g_command :=
  match f with iso_request env _ _ | din_request_ env _ _ => wakeup_commands (wakeups env) | _ => [] end.
Definition received_commands (x : received) : list v2g_command :=
  commands_before x ++ frame_commands (incoming x).
(** They keep to what is known. *)
Definition keeps (g : config) (l : list v2g_command) : Prop :=
  (is_Some (fixed g) -> Forall (fun k => stable k = true) l) /\
  (unreported g = true -> Forall (fun k => unproven k = true) l) /\
  (connected g = true -> Forall (fun k => linking k = true) l).
Definition admissible (g : config) (x : received) : Prop := keeps g (received_commands x).

Lemma check_finished_true b : check_finished b = true -> exists st, b = CableCheckRes st Finished.
Proof. destruct b; try done. cbn. case_match; try done. by eexists. Qed.
Lemma keeps_app g l l' : keeps g (l ++ l') <-> keeps g l /\ keeps g l'.
Proof. unfold keeps. rewrite !Forall_app. tauto. Qed.
Lemma any_admissible l : Forall (admissible any_config) l.
Proof. apply Forall_true. intros x. by split; [intros []|]. Qed.

(** The commands leave the kind of charger and the pause alone; they do not report
    a successful cable check; one of them does. *)
Definition stable_received (x : received) : Prop := Forall (fun k => stable k = true) (received_commands x).
Definition unproven_received (x : received) : Prop := Forall (fun k => unproven k = true) (received_commands x).
Definition reported (l : list received) : Prop :=
  exists x, x ∈ l /\ cable_check_finished true ∈ received_commands x.

Lemma unproven_or_reported l : Forall unproven_received l \/ reported l.
Proof.
  unfold unproven_received.
  destruct (Forall_Exists_dec (fun x => Forall (fun k => unproven k = true) (received_commands x))
              (fun x => Exists (fun k => not (unproven k = true)) (received_commands x))) with (l := l) as [H|H].
  { intros x. apply Forall_Exists_dec. intros k. destruct (unproven k); [by left|by right]. }
  { by left. }
  right. apply Exists_exists in H as (x & Hx & (k & Hk & H)%Exists_exists).
  exists x. split; [done|]. destruct k; try done. by destruct status.
Qed.

Lemma in_config_kept g l v v' :
  in_config g v -> keeps g l ->
  (Forall (fun k => stable k = true) l -> same_config v v') ->
  no_news l v v' -> in_config g v'.
Proof.
  intros (Hf & Hu & Hc) (Hs & Hn & Hk) Hsame [Hiso Hlost]. split; [|split].
  2:{ intros Hg E. apply (Hu Hg). auto. }
  2:{ intros Hg. specialize (Hc Hg). specialize (Hlost (Hk Hg)). destruct (v_lost v'); [|done]. symmetry. rewrite <- Hc. auto. }
  destruct (fixed g) as [[dc p]|]; [|done]. destruct Hsame, Hf; [by auto|]. split; congruence.
Qed.

Lemma exchange_one (R : Z -> response_body -> Z -> Prop) Stop s b s' :
  R s b s' -> exchange R Stop s [accepted b].
Proof. intros H. eapply exchange_step; [done|apply exchange_end]. Qed.

Lemma exchange_failure_last R Stop s l :
  exchange R Stop s l -> forall l1 b l2, l = l1 ++ refused b :: l2 -> l2 = [].
Proof.
  induction 1 as [s|s b s' l Hstep _ IH|s b|s Hstop]; intros l1 b' l2 E.
  - by destruct l1.
  - destruct l1 as [|x l1]; [done|]. injection E as <- E. by eapply IH.
  - destruct l1 as [|x l1]; injection E as <- E; [done|by destruct l1].
  - by destruct l1 as [|x []].
Qed.

(** ** What an action sends *)

(** The view [m] leaves from [s], unless it fails, and the responses. *)
Definition sends {A} (m : V2g A) (s : v2g_connection)
    (P : option (A * view) -> list reply -> Prop) : Prop :=
  match m s with
  | (Ok a, s', o) => P (Some (a, view_of (ctx s'))) (responses o)
  | (Err _, _, o) => P None (responses o)
  end.

Lemma responses_app (o o' : list v2g_output) : responses (o ++ o') = responses o ++ responses o'.
Proof. apply omap_app. Qed.

Lemma responses_silent (o : list v2g_output) :
  Forall (fun x => no_send x = true) o -> responses o = [].
Proof. induction 1 as [|x o Hx _ IH]; [done|]. by destruct x. Qed.

Lemma sends_bind {A B} (m : V2g A) (k : A -> V2g B) s P :
  sends m s (fun r l =>
    match r with
    | Some (a, v) => forall s', view_of (ctx s') = v -> sends (k a) s' (fun r' l' => P r' (l ++ l'))
    | None => P None l
    end) ->
  sends (ebind m k) s P.
Proof.
  unfold sends, ebind. destruct (m s) as [[[a|e] s'] o]; [|done]. intros H. specialize (H s' eq_refl).
  destruct (k a s') as [[[b|e] s''] o']; by rewrite responses_app.
Qed.

Lemma sends_reach {A} Q (m : V2g A) s P :
  reach Q (view_of (ctx s)) m -> P None [] -> (forall a v', Q a v' -> P (Some (a, v')) []) -> sends m s P.
Proof.
  intros Hm Hn HP. specialize (Hm s eq_refl). unfold sends.
  destruct (m s) as [[[a|e] s'] o]; [destruct Hm as [Ho Ha]|rename Hm into Ho].
  all: rewrite (responses_silent _ Ho); auto.
Qed.

Lemma sends_mono {A} (m : V2g A) s (P P' : option (A * view) -> list reply -> Prop) :
  sends m s P -> (forall r l, P r l -> P' r l) -> sends m s P'.
Proof. unfold sends. destruct (m s) as [[[a|e] s'] o]; auto. Qed.

(** ** The rounds of the loop *)

Section Loop.
Context {L : V2gLib}.
Implicit Types (p : v2g_protocol) (g : config) (x : received).

Lemma handle_frame_answered p f v :
  exists env, (forall g, keeps g (frame_commands f) -> keeps g (wakeup_commands (wakeups env))) /\
    reach (answered (step_of p) (table_of p) env v) v (handle_frame p f).
Proof.
  set (env0 := mkEnv 0 (0, 0) None None (0, 0, 0, 0) [] (fun _ _ => []) "").
  assert (forall step table, reach (answered step table env0 v) v
    (eret (V2G_EVENT_IGNORE_MSG, mkResponse ResponseCode.OK no_response))) as Hi.
  { intros step table. by apply reach_ret. }
  assert (forall g, keeps g (wakeup_commands (wakeups env0))) as H0
    by (intros g; unfold keeps; split_and!; intros; apply Forall_nil_2).
  destruct f as [rv| |l|env id r|env id r]; try (exists env0; split; [done|destruct p; apply Hi]).
  - destruct p; try (exists env0; split; [done|apply Hi]).
    exists env. split; [done|]. apply iso_handle_request_answered.
  - destruct p; try (exists env0; split; [done|apply Hi]).
    all: exists env; split; [done|]; apply din_handle_request_answered.
Qed.

Lemma protocol_step_intro p g s b s' v v' :
  in_config g v -> in_config g v' -> (forall st, b = CableCheckRes st Finished -> v_isolation v = Finished) ->
  step_of p (v_dc v) (v_pause v) (v_dc v') s b s' -> protocol_step p g s b s'.
Proof.
  intros (Hf & Hu & _) (Hf' & _ & _) Hb Hstep%step_allowed. split.
  - destruct (fixed g) as [[d q]|]; [|by eauto]. destruct Hf as [<- <-], Hf' as [Hd _]. by rewrite Hd in Hstep.
  - intros Hg. specialize (Hu Hg). destruct (check_finished b) eqn:E; [|done].
    apply check_finished_true in E as [st ->]. by destruct Hu; eapply Hb.
Qed.

Lemma may_stop_intro p g v :
  in_config g v -> v_lost v = true \/ v_state v ∈ allowing (table_of p (v_dc v)) V2G_SESSION_STOP_MSG ->
  may_stop p g (v_state v).
Proof.
  intros (Hf & _ & Hc) Hs Hg. specialize (Hc Hg). destruct Hs as [Hs|Hs]; [congruence|].
  destruct (fixed g) as [[dc q]|]; [|by eauto]. by destruct Hf as [<- _].
Qed.

(** Sending: the view stays, and the response is sent when it returns 0. *)
Lemma sends_send x raw ok r s :
  sends (send_ x raw ok r) s (fun res l =>
    match res with
    | Some (rv, v') => v' = view_of (ctx s) /\
        (rv = 0 \/ rv = -1) /\
        (rv = -1 -> l = []) /\
        (rv = 0 -> l = match raw, body r with
                       | true, CertificateInstallationExi d => [accepted (CertificateInstallationExi d)]
                       | _, _ => [reply_of r]
                       end)
    | None => False
    end).
Proof.
  unfold sends, send_, v2g_when, get_ctx, ebind, eget, eret, eemit. cbn.
  destruct (debugMode (ctx s)), (ok && written x); cbn; (split; [done|]); (split; [auto|]).
  all: split; [done|try done]; intros _.
  all: destruct r as [code []]; by destruct raw.
Qed.

(** The outcome of a round that starts in the view [v]. *)
Definition round_outcome p g (v : view) (res : option (bool * Z * view)) (l : list reply) : Prop :=
  match res with
  | None => l = []
  | Some (true, _, v') =>
      v_terminate v' = v_terminate v /\ in_config g v' /\
      (l = [] /\ v_state v' = v_state v \/
       exists b, l = [accepted b] /\ protocol_step p g (v_state v) b (v_state v'))
  | Some (false, _, _) =>
      l = [] \/ (l = [accepted SessionStopRes] /\ may_stop p g (v_state v)) \/ (exists b, l = [refused b]) \/
      exists b s', l = [accepted b] /\ protocol_step p g (v_state v) b s'
  end.

Lemma round_answered p g env v x s v1 h :
  in_config g v -> v_terminate v = true ->
  keeps g (wakeup_commands (wakeups env)) ->
  answered (step_of p) (table_of p) env v h v1 -> view_of (ctx s) = v1 ->
  sends
    (let* c := get_ctx in
     v2g_when (debugMode c) (eemit (publish_v2g_messages (current_v2g_msg c) true)) ;;;
     match h.1 with
     | V2G_EVENT_SEND_AND_TERMINATE => let* rv := send_ x false (encoded x) h.2 in eret (false, rv)
     | V2G_EVENT_NO_EVENT => let* rv := send_ x false (encoded x) h.2 in eret (rv =? 0, rv)
     | V2G_EVENT_SEND_RECV_EXI_MSG => let* rv := send_ x true true h.2 in eret (rv =? 0, rv)
     | V2G_EVENT_IGNORE_MSG => eret (true, 0)
     | V2G_EVENT_TERMINATE_CONNECTION => eret (false, 0)
     end) s (round_outcome p g v).
Proof.
  intros Hg Ht Henv (Ht' & Hconf & Hiso & Hcheck & Hev) Hs.
  assert (in_config g v1) as Hg1 by (by eapply in_config_kept).
  apply sends_bind. eapply sends_reach; [apply quiet_get_ctx|done|]. cbv beta. intros c v' ->.
  intros s1 Hs1. apply sends_bind.
  eapply sends_reach; [apply view_quiet_when, view_quiet_emit; done|done|]. cbv beta. intros _ v' ->. intros s2 Hs2.
  assert (view_of (ctx s2) = v1) as Hv2 by congruence. clear s1 Hs1 Hs2 Hs c.
  cbn [app]. destruct h as [e r]. cbn [fst snd] in *.
  assert (forall raw ok keep, (match raw, body r with
                  | true, CertificateInstallationExi d => [accepted (CertificateInstallationExi d)]
                  | _, _ => [reply_of r]
                  end = [accepted (body r)] /\ step_of p (v_dc v) (v_pause v) (v_dc v1) (v_state v) (body r) (v_state v1)
               \/ keep = false /\ (ResponseCode.failed (code r) = true \/ body r = SessionStopRes /\ may_stop p g (v_state v)) /\ raw = false) ->
    sends (let* rv := send_ x raw ok r in eret (keep && (rv =? 0), rv)) s2 (round_outcome p g v)) as Hsend.
  { intros raw ok keep Hcase. apply sends_bind. eapply sends_mono; [apply sends_send|].
    intros [[rv v']|] l; [|done]. intros (-> & Hrv & Hn & Hz) s3 Hs3.
    unfold sends, eret. cbn [responses omap]. rewrite app_nil_r, Hs3, Hv2.
    destruct Hrv as [-> | ->]; cbn; [|rewrite andb_false_r, (Hn eq_refl); by left].
    rewrite andb_true_r, (Hz eq_refl). destruct Hcase as [[-> Hstep]|(-> & Hlast & ->)].
    - destruct keep; cbn; [split; [done|]; split; [done|]; right; eexists|right; right; right; eexists; eexists].
      all: split; [done|]; by eapply (protocol_step_intro _ _ _ _ _ v v1).
    - cbn. unfold reply_of. destruct (ResponseCode.failed (code r)); [by right; right; left; eauto|].
      destruct Hlast as [? | [-> ?]]; [done|]. auto. }
  destruct e.
  - destruct (Hev Ht) as [Hok Hstep]. apply (Hsend false (encoded x) true). left. cbn. unfold reply_of. by rewrite Hok.
  - by left.
  - apply (Hsend false (encoded x) false). right. split; [done|]. split; [|done].
    destruct Hev as [? | [? Hstop]]; [by left|right]. split; [done|]. by eapply may_stop_intro.
  - destruct Hev as [Hstep [d Hd]]. apply (Hsend true true true). left. by rewrite Hd in Hstep |- *.
  - subst v1. split; [done|]. split; [done|]. by left.
Qed.

Lemma loop_round_outcome p g x s :
  in_config g (view_of (ctx s)) -> v_terminate (view_of (ctx s)) = true -> admissible g x ->
  sends (loop_round p x) s (round_outcome p g (view_of (ctx s))).
Proof.
  intros Hg Ht Hx. unfold loop_round. apply sends_bind.
  eapply sends_reach; [apply reach_commands|done|]. cbv beta. intros [] v (Es & Ec & Et & Hconf & Hiso) s1 Hs1.
  apply keeps_app in Hx as [Hbefore Hframe].
  assert (in_config g v) as Hgv by (by apply (in_config_kept g (commands_before x) (view_of (ctx s)))).
  assert (v_terminate v = true) as Htv by congruence.
  eapply (sends_mono _ _ (round_outcome p g v)).
  2:{ unfold round_outcome. intros res l. rewrite Es, Et. done. }
  destruct (handle_frame_answered p (incoming x) v) as (env & Henv & Hreach).
  apply Henv in Hframe as Hst.
  destruct (incoming x) as [rv| |l|env' id r|env' id r]; [by left|..].
  all: apply sends_bind; eapply sends_reach; [rewrite Hs1; exact Hreach|done|].
  all: cbv beta; intros h v1 Hh s2 Hs2; by eapply (round_answered p g env v x s2 v1 h).
Qed.

Lemma request_loop_exchange p g l s :
  in_config g (view_of (ctx s)) -> v_terminate (view_of (ctx s)) = true -> Forall (admissible g) l ->
  sends (request_loop p l) s (fun _ rs => protocol_run p g (v_state (view_of (ctx s))) rs).
Proof.
  intros Hg Ht Hl. revert s Hg Ht. induction Hl as [|x l Hx _ IH]; intros s Hg Ht; [apply exchange_end|].
  cbn [request_loop]. apply sends_bind. eapply sends_mono; [by apply loop_round_outcome|].
  intros [[[[] rv] v']|] rs Hout; cbn [fst snd] in *.
  - destruct Hout as (Et & Hg' & Hout). intros s' Hs'.
    eapply sends_mono; [apply IH; rewrite Hs'; congruence|]. rewrite Hs'. intros _ rs' Hrs'.
    destruct Hout as [[-> <-]|(b & -> & Hstep)]; [done|]. by eapply exchange_step.
  - intros s' _. unfold sends, eret. cbn [responses omap]. rewrite app_nil_r.
    destruct Hout as [-> |[[-> Hstop]|[[b ->]|(b & s1 & -> & Hstep)]]].
    + apply exchange_end.
    + by apply exchange_stop.
    + apply exchange_failure.
    + by eapply exchange_one.
  - cbn in Hout. subst. apply exchange_end.
Qed.

(** ** A connection *)

(** The handshake sends no response and leaves state and configuration. *)
Definition handshaken (v v' : view) : Prop :=
  v_state v' = v_state v /\ v_terminate v' = v_terminate v /\ same_config v v' /\
  v_isolation v' = v_isolation v /\ v_lost v' = v_lost v.

Lemma apphandshake_reach offered ok v :
  reach (fun _ => handshaken v) v (v2g_handle_apphandshake offered ok).
Proof.
  unfold v2g_handle_apphandshake. eapply reach_bind; [apply reach_current|]. cbv beta. intros _ v' ->.
  destruct offered as [l|]; [|by apply reach_ret].
  apply reach_ctx. intros c Hc. apply reach_after; [solve_quiet|intros _].
  apply reach_after; [solve_quiet|intros _]. apply reach_ctx. intros c' Hc'.
  destruct (is_connection_terminated c'); by apply reach_ret.
Qed.

Lemma handshake_phase_sends g x s :
  in_config g (view_of (ctx s)) -> admissible g x ->
  sends (handshake_phase x) s (fun res rs => rs = [] /\
    match res with
    | Some (_, v') => v_state v' = v_state (view_of (ctx s)) /\
                      v_terminate v' = v_terminate (view_of (ctx s)) /\ in_config g v'
    | None => True
    end).
Proof.
  intros Hg Hx. unfold handshake_phase. apply sends_bind.
  eapply sends_reach; [apply reach_commands|done|]. cbv beta. intros [] v (Es & _ & Et & Hconf & Hiso) s1 Hs1.
  apply keeps_app in Hx as [Hbefore _].
  assert (in_config g v) as Hgv by (by apply (in_config_kept g (commands_before x) (view_of (ctx s)))).
  destruct (incoming x) as [rv| |l|env' id r|env' id r]; [by rewrite <- Hs1 in *|..].
  all: apply sends_bind; eapply sends_reach; [apply quiet_get_ctx|done|]; cbv beta; intros c v' -> s2 Hs2.
  all: rewrite Hs1 in Hs2; destruct (is_connection_terminated c); [by rewrite <- Hs2 in *|].
  all: apply sends_bind; eapply sends_reach; [apply apphandshake_reach|done|].
  all: cbv beta; rewrite Hs2; intros h v' (Es' & Et' & Hc' & Hi' & Hl') s3 Hs3.
  all: assert (in_config g v') as Hg' by (eapply (in_config_kept g []); [done|unfold keeps; split_and!; intros; apply Forall_nil_2|done|by split; intros _; rewrite ?Hi', ?Hl']).
  all: assert (v_state v' = v_state (view_of (ctx s))) as Hst by congruence.
  all: assert (v_terminate v' = v_terminate (view_of (ctx s))) as Htt by congruence.
  all: unfold sends, v2g_when, get_ctx, ebind, eget, eret, eemit.
  all: destruct h as [[] a]; cbn -[view_of]; rewrite ?Hs3; try done.
  all: destruct (debugMode (ctx s3)), (written x); cbn -[view_of]; rewrite ?Hs3; done.
Qed.

(** The responses of a connection are a run of the automaton of a protocol. *)
Lemma connection_run g l conn :
  terminate_connection_on_failed_response (ctx conn) = true ->
  in_config g (view_of (v2g_ctx_init_charging_state false (ctx conn))) -> Forall (admissible g) l ->
  exists p, protocol_run p g 0 (responses (v2g_handle_connection l conn).2).
Proof.
  intros Ht Hg Hl.
  enough (sends (v2g_handle_connection l) conn
            (fun _ rs => exists p, protocol_run p g 0 rs)) as Hp.
  { unfold sends in Hp. by destruct (v2g_handle_connection l conn) as [[[a|e] s'] o]. }
  assert (forall p, protocol_run p g 0 []) as Hnil by (intros p; apply exchange_end).
  unfold v2g_handle_connection. apply sends_bind.
  enough (forall s, view_of (ctx s) = view_of (v2g_ctx_init_charging_state false (ctx conn)) ->
    sends (match l with
    | [] => eret 1
    | x :: l' =>
        let* failed := handshake_phase x in
        match failed with
        | Some rv => eret rv
        | None =>
            let* c := get_ctx in
            match selected_protocol c with
            | V2G_PROTO_DIN70121 | V2G_PROTO_ISO15118_2010 | V2G_PROTO_ISO15118_2013 =>
                request_loop (selected_protocol c) l'
            | _ => eret 0
            end
        end
    end) s (fun _ rs => exists p, protocol_run p g 0 rs)) as Hbody.
  { cbn. intros s Hs. apply sends_bind. eapply sends_mono; [by apply Hbody|].
    intros [[rv v]|] rs Hrs; [|done]. intros s' _. cbn. by rewrite app_nil_r. }
  intros s Hs. destruct l as [|x l]; [by exists V2G_PROTO_DIN70121|].
  apply Forall_cons_1 in Hl as [Hx Hl].
  apply sends_bind. eapply sends_mono; [apply (handshake_phase_sends g); [by rewrite Hs|done]|].
  rewrite Hs. intros [[failed v]|] rs [-> Hv]; [|by exists V2G_PROTO_DIN70121].
  destruct Hv as (Est & Ett & Hg'). intros s' Hs'.
  destruct failed as [rv|]; [by exists V2G_PROTO_DIN70121|].
  apply sends_bind. eapply sends_reach; [apply quiet_get_ctx|by exists V2G_PROTO_DIN70121|]. cbv beta.
  intros c v' -> s2 Hs2. rewrite Hs' in Hs2. cbn in Est, Ett.
  assert (forall p, sends (request_loop p l) s2 (fun _ rs => exists p, protocol_run p g 0 rs)) as Hloop.
  { intros p. eapply sends_mono; [apply (request_loop_exchange p g); rewrite ?Hs2; try done; congruence|].
    rewrite Hs2, Est. intros _ rs H. by exists p. }
  destruct (selected_protocol c); try apply Hloop; by exists V2G_PROTO_DIN70121.
Qed.
End Loop.

(** ** What the automata guarantee *)

(** Responses of a session that is under way: parameters, checks, energy. *)
Definition energy_response (b : response_body) : bool :=
  match b with
  | ChargeParameterDiscoveryRes_ _ | CableCheckRes _ _ | PreChargeRes _ _ | PowerDeliveryRes _ _
  | CurrentDemandRes_ _ | ChargingStatusRes_ _ | MeteringReceiptRes _ | WeldingDetectionRes _ _ => true
  | _ => false
  end.

(** The states before authorization. *)
Definition unauthorized_states (p : v2g_protocol) : list Z :=
  match p with V2G_PROTO_ISO15118_2013 => [0; 1; 2; 3; 4; 5] | _ => [0; 1; 2; 3] end.

Lemma step_unauthorized p g s b s' :
  s ∈ unauthorized_states p -> protocol_step p g s b s' ->
  b = AuthorizationRes Finished \/ energy_response b = false /\ s' ∈ unauthorized_states p.
Proof.
  intros Hs Hstep.
  assert (exists dc0 pause dc, step_of p dc0 pause dc s b s') as (dc0 & pause & dc & H).
  { destruct Hstep as [Hstep _]. destruct (fixed g) as [[dc q]|].
    - destruct Hstep. by eauto.
    - destruct Hstep as (dc0 & pause & dc & Hstep & _). by eauto. }
  clear Hstep. destruct p; cbn in *; inversion H; subst; cbn; try (right; split; [done|set_solver]).
  all: try (exfalso; unfold power_states in *; repeat case_match; set_solver).
  all: destruct p; cbn; try (by left); right; (split; [done|set_solver]).
Qed.

Lemma exchange_authorized p g s l :
  protocol_run p g s l -> s ∈ unauthorized_states p ->
  forall l1 b l2, l = l1 ++ accepted b :: l2 -> energy_response b = true ->
    accepted (AuthorizationRes Finished) ∈ l1.
Proof.
  induction 1 as [s|s b s' l Hstep _ IH|s b|s Hstop]; intros Hs l1 b' l2 E Hb.
  - by destruct l1.
  - destruct (step_unauthorized _ _ _ _ _ Hs Hstep) as [-> |[Hb0 Hs']].
    + destruct l1 as [|x l1]; injection E as <- E; [done|by left].
    + destruct l1 as [|x l1]; injection E as <- E; [congruence|]. right. by eapply IH.
  - by destruct l1 as [|x []].
  - destruct l1 as [|x l1]; injection E as <- E; [done|by destruct l1].
Qed.

(** The states that are reached only after a cable check, of a DC charger. *)
Definition checked_states (p : v2g_protocol) (pause : NoEnergyPauseStatus) : list Z :=
  match p with
  | V2G_PROTO_ISO15118_2013 =>
      match pause with BeforeCableCheck => [8; 10; 11; 12] | _ => [8; 9; 10; 11; 12] end
  | _ => [6; 7; 8; 9]
  end.

Definition is_parameter_response (b : response_body) : bool :=
  match b with ChargeParameterDiscoveryRes_ _ => true | _ => false end.
(** No parameters are agreed on. *)
Definition no_parameters (l : list reply) : bool :=
  forallb (fun x => match x with accepted b => negb (is_parameter_response b) | refused _ => true end) l.

Lemma step_checked p pause u s b s' :
  protocol_step p (mkConfig (Some (true, pause)) u false) s b s' -> s' ∈ checked_states p pause ->
  (exists st, b = CableCheckRes st Finished) \/ s ∈ checked_states p pause /\ is_parameter_response b = false.
Proof.
  intros [[H _] _] Hs'. cbn in H. unfold checked_states in *. destruct p; cbn in H; inversion H; subst.
  all: try (left; eauto; fail).
  all: try (right; split; [set_solver|done]).
  all: try (exfalso; repeat case_match; set_solver).
  all: try (right; split; [|done]; destruct pause; set_solver).
  - destruct p; try (left; eauto; fail); exfalso; destruct pause; set_solver.
Qed.

Lemma step_demand p pause u s r s' :
  protocol_step p (mkConfig (Some (true, pause)) u false) s (CurrentDemandRes_ r) s' -> s ∈ checked_states p pause.
Proof.
  intros [[H _] _]. cbn in H. unfold checked_states. destruct p; cbn in H; inversion H; subst; try set_solver.
  destruct pause; set_solver.
Qed.

(** Energy flows only after a cable check that came after the last exchange of
    parameters. *)
Lemma exchange_checked p pause u s l :
  protocol_run p (mkConfig (Some (true, pause)) u false) s l ->
  forall l1 r l2, l = l1 ++ accepted (CurrentDemandRes_ r) :: l2 ->
    (exists l11 st l12, l1 = l11 ++ accepted (CableCheckRes st Finished) :: l12 /\ no_parameters l12 = true) \/
    s ∈ checked_states p pause /\ no_parameters l1 = true.
Proof.
  induction 1 as [s|s b s' l Hstep _ IH|s b|s Hstop]; intros l1 r l2 E.
  - by destruct l1.
  - destruct l1 as [|x l1]; [injection E as -> E|injection E as <- E].
    { right. split; [by eapply step_demand|done]. }
    destruct (IH _ _ _ E) as [(l11 & st & l12 & -> & Hn)|[Hs' Hn]].
    { left. by exists (accepted b :: l11), st, l12. }
    destruct (step_checked _ _ _ _ _ _ Hstep Hs') as [[st ->]|[Hs Hb]].
    + left. by exists [], st, l1.
    + right. split; [done|]. unfold no_parameters in *. cbn. by rewrite Hb, Hn.
  - by destruct l1 as [|x []].
  - destruct l1 as [|x l1]; [done|injection E as <- E; by destruct l1].
Qed.

(** Without a report the check of the cable does not finish. *)
Lemma exchange_unreported p g s l :
  protocol_run p g s l -> unreported g = true ->
  forall st, accepted (CableCheckRes st Finished) ∉ l.
Proof.
  induction 1 as [s|s b s' l [_ Hstep] _ IH|s b|s Hstop]; intros Hg st Hin; try set_solver.
Qed.

Lemma connection_checked {L : V2gLib} u l conn l1 r l2 :
  terminate_connection_on_failed_response (ctx conn) = true -> is_dc_charger (ctx conn) = true ->
  Forall stable_received l ->
  (u = true -> evse_processing (evse_v2g_data (ctx conn)) PHASE_ISOLATION <> Finished /\
               Forall unproven_received l) ->
  responses (v2g_handle_connection l conn).2 = l1 ++ accepted (CurrentDemandRes_ r) :: l2 ->
  if u then False
  else exists l11 st l12, l1 = l11 ++ accepted (CableCheckRes st Finished) :: l12 /\ no_parameters l12 = true.
Proof.
  intros Ht Hdc Hl Hu E. set (pause := no_energy_pause (evse_v2g_data (ctx conn))).
  destruct (connection_run (mkConfig (Some (true, pause)) u false) l conn Ht) as [p Hp].
  { split; [done|]. split; [|done]. intros Hu'. by apply Hu. }
  { apply Forall_forall. intros x Hx. split; [|split; [|done]]; cbn; intros H.
    - by eapply Forall_forall in Hl.
    - destruct (Hu H) as [_ Hun]. by eapply Forall_forall in Hun. }
  destruct (exchange_checked _ _ _ _ _ Hp _ _ _ E) as [(l11 & st & l12 & -> & Hn)|[Hs _]].
  - destruct u; [|by eauto]. apply (exchange_unreported _ _ _ _ Hp eq_refl st). rewrite E. set_solver.
  - exfalso. unfold checked_states in Hs. destruct p, pause; set_solver.
Qed.
