(* ===== verification/V2gProperties.v ===== *)
(** * EvseV2G: properties

    The protocol server as a whole: which responses a connection can give, that
    nothing is negotiated before authorization, that current flows only after a
    cable check, also together with the checks of EvseManager, the choice of the
    protocol, the check of a charging profile and the coding of physical values.
    The examples at the end run a session, and show where the guarantees stop. *)
From S2P Require Import Prelude Effects ErrorHandling ErrorProperties EvseManagerTypes EvseManager CableCheck CableCheckProperties.
From S2P Require Import V2gTypes V2gContext IsoServer DinServer V2gServer V2gProofs V2gExchange.
From stdpp Require Import base tactics list numbers strings sets.
From Stdlib Require Import QArith Lia.
Open Scope Z_scope.
Open Scope everest_scope.
Import V2gMsgTypeId.

(** ** An example session *)

Module V2gExample.

(** Certificates are their bytes; every check succeeds. *)
#[export] Instance lib : V2gLib := {|
  EVSEID_CHARACTER_SIZE := 38; MeterID_CHARACTER_SIZE := 33;
  certificate := bytes;
  der_to_certificate := Some;
  certificate_common_name := fun _ => "DEABCC12345678"%string;
  certificate_public_key := Some;
  chain_to_pem := fun _ _ => ""%string;
  verify_certificate := fun _ _ => Verified;
  get_mo_ocsp_request_data := fun _ => [];
  check_iso2_signature := fun _ _ _ => true;
  base64_decode := fun _ => []
|}.

Definition zero_value : PhysicalValue := mkPhysical 0 unit_h 0.
Definition zero_evse : evse_data :=
  mkEvseData 0 0 Iso_Invalid false Notification_None (fun _ => EVSE_NotReady) (fun _ => Finished) "" false
    (mkChargeService (mkService 0 None EVCharging None false) [] 0) [] [] [] false (Contract, Contract) 0
    false false "" false false zero_value false zero_value false zero_value false false zero_value false
    false zero_value false false zero_value zero_value zero_value zero_value zero_value zero_value
    (mkBidi false false 0 false) NoPause
    (mkCapabilities zero_value zero_value zero_value zero_value zero_value).
Definition zero_session : session_data :=
  mkSession Contract 0 60 60 [] false false false None false false 0.

(** The context of a DC charger that is set up, with the given answer to failed
    responses. *)
Definition context (terminate dc : bool) : v2g_context :=
  let c := mkContext 0 V2G_UNKNOWN_MSG V2G_UNKNOWN_MSG 0 dc false true true V2G_UNKNOWN_PROTOCOL false false
    true terminate false false 0 "" zero_evse zero_session invalid_ev_data false [] false false 0 in
  let c := v2g_ctx_init_charging_session true c in
  let c := handle_update_energy_transfer_modes true [Some (if dc then DC_extended else AC_single_phase_core)] c in
  handle_update_dc_maximum_limits 200 100000 900 c.
Definition connection (terminate dc : bool) : v2g_connection :=
  mkConnection (context terminate dc) false None MQTT_DLINK_ACTION_ERROR.

Definition env : request_env :=
  mkEnv 1700000000 (10, 11) (Some [1; 2; 3; 4; 5; 6; 7; 8]) None (1, 2, 3, 4) [] (fun _ _ => []) "".
Definition session_number : Z := 67305985.

Definition ask (commands : list v2g_command) (r : iso2_request) : received :=
  mkReceived commands (iso_request env session_number r) true true.
Definition hello : received :=
  mkReceived [] (handshake [mkAppProtocol DIN_70121_MSG_DEF 2 0 1 2;
                            mkAppProtocol ISO_15118_2013_MSG_DEF 2 0 7 1]) true true.

Definition ev_ready : DC_EVStatus := mkEvStatus 0 1 50.
Definition volt (v : Z) : PhysicalValue := mkPhysical 0 unit_V v.
Definition ampere (v : Z) : PhysicalValue := mkPhysical 0 unit_A v.
Definition ac_parameter : AC_EVChargeParameter := mkAcParam false 0 zero_value zero_value zero_value zero_value.
Definition dc_parameter : DC_EVChargeParameter :=
  mkDcParam false 0 ev_ready (ampere 100) false zero_value (volt 400) false zero_value false zero_value
    false 0 false 0.
Definition parameters (dc : bool) : iso2_request :=
  ChargeParameterDiscoveryReq_ (mkChargeParameterReq false 0 (if dc then DC_extended else AC_single_phase_core)
    (negb dc) ac_parameter dc dc_parameter).
Definition power (p : chargeProgress) (profile : list ProfileEntry) : iso2_request :=
  PowerDeliveryReq_ (mkPowerDeliveryReq p 1 true profile true ev_ready false 0 0).
Definition demand : iso2_request :=
  CurrentDemandReq_ (mkCurrentDemandReq ev_ready (ampere 50) false zero_value false zero_value false
    zero_value false 0 0 false zero_value false zero_value (volt 400)).
Definition pay : iso2_request :=
  PaymentServiceSelectionReq_ (mkPaymentReq ExternalPayment [mkSelected 1 false 0]).
Definition authorize : iso2_request := AuthorizationReq_ (mkAuthorizationReq false [] false [] []).

Definition dc_session : list received :=
  [hello; ask [] (SessionSetupReq [1; 2; 3; 4; 5; 6]); ask [] (ServiceDiscoveryReq None); ask [] pay;
   ask [] authorize; ask [authorization_response true false] authorize; ask [] (parameters true);
   ask [] (CableCheckReq ev_ready);
   ask [update_isolation_status Iso_Valid; cable_check_finished true] (CableCheckReq ev_ready);
   ask [update_dc_present_values 400 None] (PreChargeReq_ (mkPreChargeReq ev_ready (volt 400) (ampere 2)));
   ask [] (power Start []); ask [] demand; ask [] demand; ask [] (power Stop []);
   ask [] (WeldingDetectionReq ev_ready); ask [] (SessionStopReq Terminate)].

Abbreviation session_outputs := (v2g_handle_connection dc_session (connection true true)).2.
Abbreviation body_at n :=
  (match responses session_outputs !! n with Some (accepted b) => b | _ => no_response end).
Definition demand_of (l : list reply) : CurrentDemandRes :=
  match last l with
  | Some (accepted (CurrentDemandRes_ r) | refused (CurrentDemandRes_ r)) => r
  | _ => mkCurrentDemandRes (mkEvseStatus Iso_Invalid false Notification_None EVSE_NotReady 0) zero_value
           zero_value false false false None None None "" 0 None false false
  end.

Lemma dc_session_stable : Forall stable_received dc_session.
Proof. repeat constructor. Qed.
Lemma dc_session_admissible : Forall (admissible (mkConfig (Some (true, NoPause)) false true)) dc_session.
Proof. repeat constructor; cbn; discriminate. Qed.
Lemma dc_session_split :
  responses session_outputs =
    take 11 (responses session_outputs) ++ accepted (body_at 11%nat) :: drop 12 (responses session_outputs) /\
  energy_response (body_at 11%nat) = true /\ body_at 11%nat = CurrentDemandRes_ (demand_of (take 12 (responses session_outputs))) /\
  length (responses session_outputs) = 15%nat.
Proof. vm_compute. by repeat split. Qed.
End V2gExample.

(** ** The responses of a connection *)

Section Connection.
Context {L : V2gLib}.

(** C24: when failed responses end the connection, the responses a connection
    gives are a run of the automaton of DIN SPEC 70121 or of ISO 15118-2 from its
    first state, whatever the car sends and whatever the other modules command in
    between; a failure or the answer to a stop of the session is the last of them.
    Every accepted message is one the table of the protocol allows in its state,
    except for two that the source does not check: a certificate update, and a
    certificate installation the backend answered.  The session is stopped where
    the table allows it, unless the link to the car is lost ([connected]).  When the
    kind of charger and the pause do not change ([fixed]), the automaton is the one
    for them; and when nothing reports that the cable check was successful
    ([unreported]), it has no finished check. *)
Theorem connection_refines_protocol g l conn :
  terminate_connection_on_failed_response (ctx conn) = true ->
  in_config g (view_of (v2g_ctx_init_charging_state false (ctx conn))) -> Forall (admissible g) l ->
  exists p, protocol_run p g 0 (responses (v2g_handle_connection l conn).2).
Proof. apply connection_run. Qed.

(** C13: when failed responses end the connection, the charge parameters, a cable
    check, precharging, the delivery of power and all that follows are accepted only
    after an accepted [AuthorizationRes] that says authorization is finished. *)
Theorem energy_needs_authorization l conn l1 b l2 :
  terminate_connection_on_failed_response (ctx conn) = true ->
  responses (v2g_handle_connection l conn).2 = l1 ++ accepted b :: l2 -> energy_response b = true ->
  accepted (AuthorizationRes Finished) ∈ l1.
Proof.
  intros Ht E Hb. destruct (connection_run any_config l conn Ht) as [p Hp]; [done|apply any_admissible|].
  eapply exchange_authorized; [done| |done|done]. destruct p; set_solver.
Qed.

(** C14: when failed responses end the connection, and neither the kind of charger
    nor the pause for missing energy changes meanwhile, a DC charger accepts a
    [CurrentDemandReq] only after a [CableCheckRes] that says the check is finished
    and that came after the charge parameters were last agreed on; and unless the
    isolation phase was finished when the connection began, only if the command that
    the cable check was successful arrived during the connection. *)
Theorem demand_needs_cable_check l conn l1 r l2 :
  terminate_connection_on_failed_response (ctx conn) = true -> is_dc_charger (ctx conn) = true ->
  Forall stable_received l ->
  responses (v2g_handle_connection l conn).2 = l1 ++ accepted (CurrentDemandRes_ r) :: l2 ->
  (exists l11 st l12, l1 = l11 ++ accepted (CableCheckRes st Finished) :: l12 /\ no_parameters l12 = true) /\
  (evse_processing (evse_v2g_data (ctx conn)) PHASE_ISOLATION <> Finished -> reported l).
Proof.
  intros Ht Hdc Hl E. split.
  - by eapply (connection_checked false).
  - intros Hi. destruct (unproven_or_reported l) as [Hun|]; [exfalso|done].
    by eapply (connection_checked true).
Qed.

(** When failed responses end the connection, nothing is sent after one. *)
Theorem failure_is_last l conn l1 b l2 :
  terminate_connection_on_failed_response (ctx conn) = true ->
  responses (v2g_handle_connection l conn).2 = l1 ++ refused b :: l2 -> l2 = [].
Proof.
  intros Ht E. destruct (connection_run any_config l conn Ht) as [p Hp]; [done|apply any_admissible|].
  by eapply exchange_failure_last.
Qed.
End Connection.

Import V2gExample.

Lemma connection_refines_protocol_witness :
  length (responses session_outputs) = 15%nat /\
  exists p, protocol_run p (mkConfig (Some (true, NoPause)) false true) 0 (responses session_outputs).
Proof.
  destruct dc_session_split as (_ & _ & _ & Hlen). split; [exact Hlen|].
  apply (connection_refines_protocol (mkConfig (Some (true, NoPause)) false true) dc_session (connection true true)).
  - reflexivity.
  - split; [split; reflexivity|split; [discriminate|reflexivity]].
  - exact dc_session_admissible.
Defined.

Lemma energy_needs_authorization_witness :
  energy_response (body_at 11%nat) = true /\
  accepted (AuthorizationRes Finished) ∈ take 11 (responses session_outputs).
Proof.
  destruct dc_session_split as (E & Hb & _). split; [exact Hb|].
  apply (energy_needs_authorization dc_session (connection true true) _ (body_at 11%nat)
           (drop 12 (responses session_outputs))); [reflexivity|exact E|exact Hb].
Defined.

Lemma demand_needs_cable_check_witness :
  (exists l11 st l12, take 11 (responses session_outputs) =
    l11 ++ accepted (CableCheckRes st Finished) :: l12 /\ no_parameters l12 = true) /\
  reported dc_session.
Proof.
  destruct dc_session_split as (E & _ & Hd & _). rewrite Hd in E.
  destruct (demand_needs_cable_check dc_session (connection true true)
           (take 11 (responses session_outputs)) (demand_of (take 12 (responses session_outputs)))
           (drop 12 (responses session_outputs))) as [Hc Hr]; [reflexivity|reflexivity|exact dc_session_stable|exact E|].
  split; [exact Hc|]. apply Hr. discriminate.
Defined.

(** ** EvseManager and EvseV2G together *)

(** A cable check of the EVSE manager: what the other threads do meanwhile, how a
    number is shown, the bound on the waiting, and where it starts. *)
Record cable_check_run (M : Type) := mkRun {
  run_others : nat -> evse_manager M -> evse_manager M;
  run_show : Q -> string;
  run_fuel : nat;
  run_start : evse_manager M;
  run_tick : nat
}.
Arguments mkRun {M}. Arguments run_others {M}. Arguments run_show {M}. Arguments run_fuel {M}.
Arguments run_start {M}. Arguments run_tick {M}.

Section System.
Context {M : Type} `{ErrorMonitorLaws M} {L : V2gLib}.

Definition run_log (k : cable_check_run M) : list cc_event :=
  run_out (cable_check_thread (run_others k) (run_show k) (run_fuel k)) (run_start k, run_tick k).
(** The check of a DC charger whose configuration stays. *)
Definition dc_run (k : cable_check_run M) : Prop :=
  (forall n s, em_config (run_others k n s) = em_config s) /\ is_DC_mode (run_start k) = true.
(** The commands about the cable check come from these checks. *)
Definition reported_by (ks : list (cable_check_run M)) (l : list received) : Prop :=
  forall x b, x ∈ l -> cable_check_finished b ∈ received_commands x -> exists k, k ∈ ks /\ b ∈ reports (run_log k).

(** C15: with the cable checks of EvseManager.  Suppose that failed responses end the
    connection ([terminate_connection_on_failed_response], which is off by default: see
    [authorization_bypassed]), the charger is a DC charger, the isolation phase is not
    finished when the connection begins, no command changes the kind of charger or
    the pause during it, and what is commanded about the cable check are reports of
    checks of DC chargers with an isolation monitor.  Then a [CurrentDemandReq] is
    accepted only if one of these checks saw, in this order, the output below 60 V,
    the contactors closed, the voltage it had set, and the self test, resistance and
    final voltage that are configured. *)
Theorem current_needs_evidence ks l conn l1 r l2 :
  terminate_connection_on_failed_response (ctx conn) = true -> is_dc_charger (ctx conn) = true ->
  evse_processing (evse_v2g_data (ctx conn)) PHASE_ISOLATION <> Finished ->
  Forall stable_received l -> Forall dc_run ks -> reported_by ks l ->
  responses (v2g_handle_connection l conn).2 = l1 ++ accepted (CurrentDemandRes_ r) :: l2 ->
  exists k, k ∈ ks /\ sound_evidence (em_config (run_start k)) (run_log k).
Proof.
  intros Ht Hdc Hi Hl Hks Hby E.
  destruct (unproven_or_reported l) as [Hun|(x & Hx & Hr)].
  { exfalso. by eapply (connection_checked true). }
  destruct (Hby x true Hx Hr) as (k & Hk & Hrep). exists k. split; [done|].
  eapply Forall_forall in Hks as [Hconf Hmode]; [|done]. by eapply thread_evidence.
Qed.
End System.

Definition good_check : cable_check_run (list Error) :=
  mkRun (ex_devices 500000) (fun _ => "") 3 ex_preparing 0.
Lemma good_check_reports : true ∈ reports (run_log good_check).
Proof. vm_compute. left. Qed.
Lemma dc_session_reported_by : reported_by [good_check] dc_session.
Proof.
  intros x b Hx Hb. exists good_check. split; [by left|].
  enough (b = true) as -> by apply good_check_reports.
  repeat (apply elem_of_cons in Hx as [-> |Hx]; [cbn in Hb; set_solver|]). by apply elem_of_nil in Hx.
Qed.

Lemma current_needs_evidence_witness :
  exists k, k ∈ [good_check] /\ sound_evidence (em_config (run_start k)) (run_log k).
Proof.
  destruct dc_session_split as (E & _ & Hd & _). rewrite Hd in E.
  apply (current_needs_evidence [good_check] dc_session (connection true true)
           (take 11 (responses session_outputs)) (demand_of (take 12 (responses session_outputs)))
           (drop 12 (responses session_outputs)));
    [reflexivity|reflexivity|discriminate|exact dc_session_stable|repeat constructor
    |exact dc_session_reported_by|exact E].
Defined.

(** The car asks for current before anything else. *)
Definition hasty_session : list received := [hello; ask [] demand; ask [] pay; ask [] demand].
Abbreviation hasty_responses := (responses (v2g_handle_connection hasty_session (connection true true)).2).
Lemma hasty_session_refused :
  hasty_responses = [] ++ refused (CurrentDemandRes_ (demand_of hasty_responses)) :: drop 1 hasty_responses.
Proof. vm_compute. reflexivity. Qed.

Lemma failure_is_last_witness : length hasty_session = 4%nat /\ drop 1 hasty_responses = [].
Proof.
  split; [reflexivity|].
  apply (failure_is_last hasty_session (connection true true) [] _ _ eq_refl hasty_session_refused).
Defined.

(** ** The choice of the protocol *)

(** What holds of the choice among the protocols [l]. *)
Definition well_chosen (c : v2g_context) (l : list AppProtocol) (s : choice) : Prop :=
  ev_app_priority s <= 20 /\
  (forall b, b ∈ l -> is_Some (supports c b) ->
     match chosen s with Some _ => ev_app_priority s <= Priority b | None => 20 < Priority b end) /\
  match chosen s with
  | Some (p, schema, deviates) =>
      exists l1 a l2, l = l1 ++ a :: l2 /\ supports c a = Some (p, deviates) /\ SchemaID a = schema /\
        Priority a = ev_app_priority s /\
        forall b, b ∈ l2 -> is_Some (supports c b) -> Priority a < Priority b
  | None => ev_app_priority s = 20
  end.

Lemma consider_well_chosen c l s x :
  well_chosen c l s -> well_chosen c (l ++ [x]) (consider c s x).
Proof.
  intros (Hp & Hall & Hs). unfold consider.
  destruct (supports c x) as [[proto deviates]|] eqn:Hx.
  - destruct (Z.leb_spec (Priority x) (ev_app_priority s)) as [Hle|Hgt].
    + split; [cbn; lia|]. split.
      * intros b [Hb| ->%list_elem_of_singleton]%elem_of_app Hsb; cbn; [|lia].
        specialize (Hall b Hb Hsb). destruct (chosen s); lia.
      * cbn. exists l, x, []. repeat split; try done. set_solver.
    + split; [done|]. split.
      * intros b [Hb| ->%list_elem_of_singleton]%elem_of_app Hsb; [by apply Hall|].
        destruct (chosen s); lia.
      * destruct (chosen s) as [[[p schema] d]|]; [|done].
        destruct Hs as (l1 & a & l2 & -> & Ha & Hsch & Hpr & Hl2).
        exists l1, a, (l2 ++ [x]). rewrite <- app_assoc. repeat split; try done.
        intros b [Hb| ->%list_elem_of_singleton]%elem_of_app Hsb; [auto|lia].
  - split; [done|]. split.
    + intros b [Hb| ->%list_elem_of_singleton]%elem_of_app Hsb; [by apply Hall|].
      rewrite Hx in Hsb. by destruct Hsb.
    + destruct (chosen s) as [[[p schema] d]|]; [|done].
      destruct Hs as (l1 & a & l2 & -> & Ha & Hsch & Hpr & Hl2).
      exists l1, a, (l2 ++ [x]). rewrite <- app_assoc. repeat split; try done.
      intros b [Hb| ->%list_elem_of_singleton]%elem_of_app Hsb; [auto|].
      rewrite Hx in Hsb. by destruct Hsb.
Qed.

Lemma choose_protocol_well_chosen c l : well_chosen c l (choose_protocol c l).
Proof.
  unfold choose_protocol. induction l as [|x l IH] using rev_ind.
  - split; [done|]. split; [set_solver|done].
  - rewrite fold_left_app. by apply consider_well_chosen.
Qed.

(** The offer of the car that is preferred: supported, with a priority of at most 20
    that no supported one undercuts, and the last such in the list. *)
Definition preferred (c : v2g_context) (l : list AppProtocol) (a : AppProtocol) : Prop :=
  exists l1 l2, l = l1 ++ a :: l2 /\ is_Some (supports c a) /\ Priority a <= 20 /\
    (forall b, b ∈ l1 -> is_Some (supports c b) -> Priority a <= Priority b) /\
    (forall b, b ∈ l2 -> is_Some (supports c b) -> Priority a < Priority b).

Lemma choose_protocol_preferred c l :
  match chosen (choose_protocol c l) with
  | Some (p, schema, deviates) =>
      exists a, preferred c l a /\ supports c a = Some (p, deviates) /\ SchemaID a = schema
  | None => forall a, a ∈ l -> is_Some (supports c a) -> 20 < Priority a
  end.
Proof.
  destruct (choose_protocol_well_chosen c l) as (Hp & Hall & H).
  destruct (chosen _) as [[[p schema] deviates]|]; [|done].
  destruct H as (l1 & a & l2 & -> & Ha & Hs & Hpr & Hl2). exists a. split; [|done].
  exists l1, l2. split; [done|]. split; [by rewrite Ha|]. split; [lia|]. split; [|done].
  intros b Hb Hsb. rewrite Hpr. apply Hall; set_solver.
Qed.

(** What the handshake comes to.  [refusal] is that of an emergency or a stop. *)
Definition handshake_outcome (c : v2g_context) (l : list AppProtocol) (encoded : bool)
    (event : v2g_event) (answer : handshake_response) (c' : v2g_context) : Prop :=
  let refusal := intl_emergency_shutdown c || stop_hlc c in
  (exists a p deviates, preferred c l a /\ supports c a = Some (p, deviates) /\
     selected_protocol c' = p /\ schema_id answer = Some (SchemaID a) /\
     negotiated answer = (if refusal then Failed_NoNegotiation
                          else if deviates then OK_SuccessfulNegotiationWithMinorDeviation
                          else OK_SuccessfulNegotiation) /\
     event = (if negb encoded || refusal && terminate_connection_on_failed_response c
              then V2G_EVENT_SEND_AND_TERMINATE else V2G_EVENT_NO_EVENT)) \/
  ((forall a, a ∈ l -> is_Some (supports c a) -> 20 < Priority a) /\
   selected_protocol c' = selected_protocol c /\ answer = mkHandshake Failed_NoNegotiation None /\
   event = V2G_EVENT_SEND_AND_TERMINATE).

(** C29: the handshake always returns.  When the link to the car is lost, nothing is
    answered.  Otherwise, if the car offers a protocol that the EVSE supports with a
    priority of at most 20, the one with the lowest number is selected, of several
    the last in the list, and the answer has its schema: with success, unless an
    emergency or a stop is pending, which refuses it (and ends the connection when
    failed responses do).  If there is none, the answer is a refusal without a
    schema, and the connection ends. *)
Theorem handshake_correct l encoded conn :
  match v2g_handle_apphandshake (Some l) encoded conn with
  | (Ok (event, answer), conn', _) =>
      if is_connection_terminated (ctx conn) then event = V2G_EVENT_TERMINATE_CONNECTION
      else handshake_outcome (ctx conn) l encoded event answer (ctx conn')
  | (Err _, _, _) => False
  end.
Proof.
  pose proof (choose_protocol_preferred (ctx conn) l) as H. unfold handshake_outcome.
  unfold v2g_handle_apphandshake, current_is, v2g_when, get_ctx, set_ctx, ebind, eget, eret, eemit, emodify.
  cbn -[choose_protocol preferred supports].
  change (choose_protocol (assign current_v2g_msg V2G_SUPPORTED_APP_PROTOCOL_MSG (ctx conn)) l)
    with (choose_protocol (ctx conn) l).
  unfold handshake_answer. destruct (chosen (choose_protocol (ctx conn) l)) as [[[p schema] deviates]|].
  - destruct H as (a & Ha & Hp & <-).
    destruct (debugMode (ctx conn)); cbn -[preferred supports];
      (destruct (is_connection_terminated (ctx conn)); [done|]); left; exists a, p, deviates.
    all: do 3 (split; [done|]).
    all: destruct (intl_emergency_shutdown (ctx conn)), (stop_hlc (ctx conn)), deviates, encoded,
      (terminate_connection_on_failed_response (ctx conn)); done.
  - destruct (debugMode (ctx conn)); cbn -[preferred supports];
      (destruct (is_connection_terminated (ctx conn)); [done|]); right.
    all: do 2 (split; [done|]).
    all: destruct (intl_emergency_shutdown (ctx conn)), (stop_hlc (ctx conn)), encoded,
      (terminate_connection_on_failed_response (ctx conn)); done.
Qed.

(** ** The check of a charging profile *)

(** What the check comes to for a schedule of one entry, which starts at 0:
    [None] when it does not return. *)
Definition profile_verdict (profile : list ProfileEntry) (e : PMaxScheduleEntry) (code : ResponseCode.t)
  : option ResponseCode.t :=
  match profile with
  | [] => Some code
  | p :: _ =>
      if negb (ResponseCode.is_OK code) then Some code
      else if ChargingProfileEntryStart p <=? (if ti_duration_isUsed e then ti_duration e else 0)
      then Some (if Qle_bool (physical_value_to_float (ChargingProfileEntryMaxPower p))
                      (physical_value_to_float (PMax e))
                 then code else ResponseCode.FAILED_ChargingProfileInvalid)
      else None
  end.

Lemma check_profile_within fuel sch l s :
  within_entry s = true -> is_Some (sch !! evse_idx s) ->
  option_map check_code (check_profile (S fuel) sch l s) = Some (check_code s).
Proof.
  revert s. induction l as [|e l IH]; intros s Hw [x Hx]; [done|]. cbn [check_profile].
  destruct (ResponseCode.is_OK _); [|done]. cbn. rewrite Hx, Hw.
  rewrite IH; [done|done|by exists x].
Qed.

(** The entry of the car lies behind the only entry of the schedule. *)
Lemma check_entry_endless fuel e q s :
  evse_idx s = 0%nat -> within_entry s = false -> evse_time_sum s = 0 -> ti_start e = 0 ->
  0 <= (if ti_duration_isUsed e then ti_duration e else 0) < 2 ^ 32 ->
  (if ti_duration_isUsed e then ti_duration e else 0) < ev_time_sum s ->
  check_entry fuel [e] q s = None.
Proof.
  intros Hi Hw Hs He Hd Hlt. destruct s as [ev sum idx w code]. cbn in *. subst.
  induction fuel as [|fuel IH]; [done|]. cbn. rewrite He. cbn.
  change (u32 (0 + 0)) with 0. rewrite Z.add_0_l, u32_small by done.
    replace (ev <=? _) with false by (symmetry; apply Z.leb_gt; lia). rewrite andb_false_r. apply IH.
Qed.

(** C28: for the schedules of the server, one entry that starts at 0, the check of
    a charging profile looks at the first entry of the car only: it returns when
    there is none, when the code is a failure already or when that entry starts
    before the schedule ends, with the verdict on its power; otherwise no number of
    rounds is enough. *)
Theorem profile_check_verdict l e code :
  ti_start e = 0 -> 0 <= (if ti_duration_isUsed e then ti_duration e else 0) < 2 ^ 32 ->
  Forall (fun p => 0 <= ChargingProfileEntryStart p < 2 ^ 32) l ->
  check_iso2_charging_profile_values (profile_fuel [e]) (Some l) [e] code = profile_verdict l e code /\
  (profile_verdict l e code = None ->
   forall fuel, check_iso2_charging_profile_values fuel (Some l) [e] code = None).
Proof.
  intros He Hd Hl. unfold check_iso2_charging_profile_values, profile_verdict, profile_fuel.
  destruct l as [|p l]; [done|]. apply Forall_cons_1 in Hl as [Hp _].
  destruct (ResponseCode.is_OK code) eqn:Hok; cbn [negb]; [|by cbn [check_profile check_code]; rewrite Hok].
  destruct (Z.leb_spec (ChargingProfileEntryStart p) (if ti_duration_isUsed e then ti_duration e else 0)) as [Hle|Hgt].
  - split; [|done]. cbn [check_profile check_code]. rewrite Hok. cbn -[check_profile].
    rewrite He. change (u32 (0 + 0)) with 0. rewrite !Z.add_0_l.
    rewrite !(u32_small (ChargingProfileEntryStart p)) by lia.
    rewrite (u32_small (if ti_duration_isUsed e then _ else _)) by done.
    replace (0 <=? ChargingProfileEntryStart p) with true by (symmetry; apply Z.leb_le; lia).
    replace (ChargingProfileEntryStart p <=? _) with true by (symmetry; by apply Z.leb_le).
    cbn -[check_profile].
    destruct (Qle_bool _ _); by apply (check_profile_within 2 [e]).
  - assert (forall fuel, check_profile fuel [e] (p :: l) (mkCheck 0 0 0 false code) = None) as Hn.
    { intros fuel. cbn [check_profile check_code]. rewrite Hok.
      rewrite check_entry_endless; try done. cbn. rewrite u32_small; lia. }
    split; [|intros _ fuel]; by rewrite Hn.
Qed.

Lemma profile_check_verdict_witness :
  profile_verdict [mkProfileEntry 7200 (mkPhysical 0 unit_W 100)]
    (mkPMaxEntry (mkPhysical 3 unit_W 22) 0 true 3600) ResponseCode.OK = None /\
  forall fuel, check_iso2_charging_profile_values fuel (Some [mkProfileEntry 7200 (mkPhysical 0 unit_W 100)])
    [mkPMaxEntry (mkPhysical 3 unit_W 22) 0 true 3600] ResponseCode.OK = None.
Proof.
  split; [reflexivity|].
  apply (profile_check_verdict [mkProfileEntry 7200 (mkPhysical 0 unit_W 100)]
    (mkPMaxEntry (mkPhysical 3 unit_W 22) 0 true 3600) ResponseCode.OK).
  - reflexivity.
  - cbn. lia.
  - repeat constructor; cbn; lia.
  - reflexivity.
Defined.

(** ** Physical values *)

Definition fits_int16 (v : Z) : bool := (INT16_MIN <=? v) && (v <=? INT16_MAX).

Lemma fit_int16_spec fuel m v :
  exists k : nat, (k <= fuel)%nat /\ fit_int16 fuel m v = (m + Z.of_nat k, Z.quot v (10 ^ Z.of_nat k)) /\
    ((k < fuel)%nat -> fits_int16 (Z.quot v (10 ^ Z.of_nat k)) = true) /\
    (forall j : nat, (j < k)%nat -> fits_int16 (Z.quot v (10 ^ Z.of_nat j)) = false).
Proof.
  revert m v. induction fuel as [|fuel IH]; intros m v.
  { exists 0%nat. cbn. rewrite Z.quot_1_r, Z.add_0_r. repeat split; lia. }
  cbn [fit_int16]. destruct ((INT16_MAX <? v) || (v <? INT16_MIN)) eqn:Hout.
  - destruct (IH (m + 1) (Z.quot v 10)) as (k & Hk & -> & Hfit & Hmin).
    assert (forall j : nat, Z.quot (Z.quot v 10) (10 ^ Z.of_nat j) = Z.quot v (10 ^ Z.of_nat (S j))) as Hq.
    { intros j. rewrite Z.quot_quot by lia. f_equal. rewrite Nat2Z.inj_succ, Z.pow_succ_r; lia. }
    exists (S k). rewrite <- Hq. split; [lia|]. split; [f_equal; lia|]. split; [intros; apply Hfit; lia|].
    intros [|j] Hj; [|rewrite <- Hq; apply Hmin; lia].
    cbn. rewrite Z.quot_1_r. unfold fits_int16, INT16_MIN, INT16_MAX in *. lia.
  - exists 0%nat. cbn. rewrite Z.quot_1_r, Z.add_0_r. split; [lia|]. split; [done|].
    split; [|lia]. intros _. unfold fits_int16, INT16_MIN, INT16_MAX in *. lia.
Qed.

Lemma quot_range v b m n : 0 < b -> 0 <= m -> 0 <= n ->
  - m <= Z.quot v b <= n <-> - m * b - b < v < n * b + b.
Proof.
  intros Hb Hm Hn. pose proof (Z.quot_rem' v b) as E. pose proof (Z.rem_bound_abs v b ltac:(lia)) as Hr.
  destruct (Z_lt_ge_dec v 0) as [Hv|Hv].
  - pose proof (Z.rem_nonpos v b ltac:(lia) ltac:(lia)). split; intros; nia.
  - pose proof (Z.rem_nonneg v b ltac:(lia) ltac:(lia)). split; intros; nia.
Qed.

(** C33: a whole number is coded with the least power of ten, from 0 to 3, by
    which its quotient fits into 16 bits; what is lost is less than one unit of that
    power.  The value is left as it was exactly when there is no such power, that
    is, outside of -32768999 to 32767999. *)
Theorem populate_physical_value_bounds pv v unit :
  match populate_physical_value pv v unit with
  | (true, r) =>
      -32768999 <= v <= 32767999 /\ Unit r = unit /\ 0 <= Multiplier r <= PHY_VALUE_MULT_MAX /\
      Value r = Z.quot v (10 ^ Multiplier r) /\ INT16_MIN <= Value r <= INT16_MAX /\
      Z.abs (v - Value r * 10 ^ Multiplier r) < 10 ^ Multiplier r /\
      (forall j, 0 <= j < Multiplier r -> fits_int16 (Z.quot v (10 ^ j)) = false)
  | (false, r) => r = pv /\ ~ (-32768999 <= v <= 32767999)
  end.
Proof.
  unfold populate_physical_value. destruct (fit_int16_spec fit_rounds 0 v) as (k & Hk & -> & Hfit & Hmin).
  rewrite Z.add_0_l. unfold PHY_VALUE_MULT_MIN, PHY_VALUE_MULT_MAX.
  assert (forall j : nat, fits_int16 (Z.quot v (10 ^ Z.of_nat j)) = true <->
    -32768 * 10 ^ Z.of_nat j - 10 ^ Z.of_nat j < v < 32767 * 10 ^ Z.of_nat j + 10 ^ Z.of_nat j) as Hrange.
  { intros j. assert (0 < 10 ^ Z.of_nat j) by (apply Z.pow_pos_nonneg; lia).
    unfold fits_int16, INT16_MIN, INT16_MAX. rewrite andb_true_iff, !Z.leb_le.
    by apply (quot_range v _ 32768 32767). }
  destruct (_ || _) eqn:Hm.
  - split; [done|]. assert (3 < k)%nat by lia. specialize (Hmin 3%nat ltac:(lia)).
    destruct (Hrange 3%nat) as [_ H3]. intros Hv. rewrite H3 in Hmin by (cbn; lia). done.
  - assert (k <= 3)%nat by lia. specialize (Hfit ltac:(unfold fit_rounds; lia)). cbn [Unit Multiplier Value].
    assert (0 < 10 ^ Z.of_nat k) by (apply Z.pow_pos_nonneg; lia).
    pose proof (Z.quot_rem' v (10 ^ Z.of_nat k)). pose proof (Z.rem_bound_abs v (10 ^ Z.of_nat k)).
    apply Hrange in Hfit as Hv. unfold fits_int16 in Hfit.
    assert (10 ^ Z.of_nat k <= 10 ^ 3) by (apply Z.pow_le_mono_r; lia).
    repeat split; try lia.
    intros j Hj. rewrite <- (Z2Nat.id j) by lia. apply Hmin. lia.
Qed.

(** ** Where the guarantees stop *)

Definition open_session : list received := [hello; ask [] (SessionSetupReq [1; 2; 3; 4; 5; 6])].
Abbreviation outcome_of l terminate dc := (v2g_handle_connection l (connection terminate dc)).1.1.
Abbreviation replies_of l terminate dc := (responses (v2g_handle_connection l (connection terminate dc)).2).
Definition is_accepted (r : reply) : bool := match r with accepted _ => true | refused _ => false end.
Definition says_authorized (r : reply) : bool :=
  match r with accepted (AuthorizationRes Finished) => true | _ => false end.

(** A connection that breaks while current flows: the loop's end clears
    [is_charging], so the teardown neither says that the demand is over nor has the
    contactor opened. *)
Definition opens_contactor (o : v2g_output) : bool :=
  match o with publish_dc_open_contactor | publish_current_demand_finished => true | _ => false end.
Definition starts_demand (o : v2g_output) : bool :=
  match o with publish_current_demand_started => true | _ => false end.
Abbreviation broken_session := (connection_handle_tcp (take 13 dc_session) (connection true true)).2.
Example broken_connection_keeps_contactor :
  existsb starts_demand broken_session = true /\ existsb opens_contactor broken_session = false.
Proof. vm_compute. done. Qed.

(** As configured by default, a failed response does not end the connection, and the
    state goes on all the same: the parameters are refused, but the cable check,
    precharge, power and current that follow are accepted without authorization. *)
Definition bypass : list received := open_session ++
  [ask [] (parameters true);
   ask [update_isolation_status Iso_Valid; cable_check_finished true] (CableCheckReq ev_ready);
   ask [] (PreChargeReq_ (mkPreChargeReq ev_ready (volt 400) (ampere 2)));
   ask [] (power Start []); ask [] demand].
Example authorization_bypassed :
  map is_accepted (replies_of bypass false true) = [true; false; true; true; true; true] /\
  existsb says_authorized (replies_of bypass false true) = false.
Proof. vm_compute. done. Qed.

(** The stop of an AC session sets the state 14 of the table for DC, which the one
    for AC, with 13 entries, does not have. *)
Example ac_session_stop_out_of_bounds :
  outcome_of (open_session ++ [ask [] (SessionStopReq Terminate)]) true false = Err out_of_bounds /\
  outcome_of (open_session ++ [ask [] (SessionStopReq Terminate)]) true true = Ok 0.
Proof. vm_compute. done. Qed.

(** A profile whose first entry starts after the schedule ends. *)
Example late_profile_hangs :
  outcome_of (take 10 dc_session ++
    [ask [] (power Start [mkProfileEntry 100000 (mkPhysical 0 unit_W 100)])]) true true = Err endless_loop.
Proof. vm_compute. done. Qed.

(** The table allows a certificate update only after the payment was selected; its
    handler does not ask, and accepts one before the session is set up.  A stop of
    the session out of sequence is accepted when the link to the car is lost. *)
Example certificate_update_accepted_early :
  replies_of [hello; ask [] CertificateUpdateReq] true true = [accepted CertificateUpdateRes] /\
  allowing (iso_states true) V2G_CERTIFICATE_UPDATE_MSG = [3].
Proof. vm_compute. done. Qed.
Example stop_accepted_without_link :
  replies_of [hello; ask [] (SessionStopReq Terminate)] true true = [refused SessionStopRes] /\
  replies_of [hello; ask [dlink_ready false] (SessionStopReq Terminate)] true true = [accepted SessionStopRes].
Proof. vm_compute. done. Qed.

(** A contract that was not offered, on a connection without TLS. *)
Example contract_without_tls :
  outcome_of (take 3 dc_session ++
    [ask [] (PaymentServiceSelectionReq_ (mkPaymentReq Contract [mkSelected 1 false 0]));
     ask [] (PaymentDetailsReq_ (mkPaymentDetailsReq "DE-ABC-C12345678" [1] false []))]) false true =
  Err null_pointer.
Proof. vm_compute. done. Qed.

(** The contactor of an AC charger is asked to close by a request that is refused. *)
Definition closes_contactor (o : v2g_output) : bool :=
  match o with publish_ac_close_contactor => true | _ => false end.
Example contactor_closed_out_of_sequence :
  let o := (v2g_handle_connection (open_session ++ [ask [] (power Start [])]) (connection true false)).2 in
  existsb closes_contactor o = true /\ map is_accepted (responses o) = [true; false].
Proof. vm_compute. done. Qed.

(** A number that needs a multiplier is stored without being divided. *)
Example float_not_divided :
  populate_physical_value_float zero_value 40000 1 unit_W = mkPhysical 1 unit_W (-25536).
Proof. vm_compute. done. Qed.

(** Three payment options. *)
Example three_payment_options :
  run_command (session_setup [Contract; ExternalPayment; Contract] false false false) (context true true) =
  Err out_of_bounds.
Proof. vm_compute. done. Qed.
